(* ===== verification/_CoqProject ===== *)
-Q . S2P
Prelude.v
Text.v
Hash.v
Arrays.v
Machine.v
Huff.v
Inflate.v
InflateBits.v
InflateHuff.v
InflateSpec.v
InflateBlock.v
InflateTables.v
InflateWhole.v
Stored.v
Deflate.v
DeflateBits.v
DeflateWhole.v
Pkg.v
Uuid.v
Gpt.v
Fat.v
Png.v
PngDecode.v
PngCases.v
PngEncode.v
Dates.v
Times.v
Ip.v
IpNet.v
IpSum.v
Jpeg.v
JpegBits.v
JpegScan.v
JpegFirst.v
JpegRefine.v
JpegBlocks.v
JpegLevels.v
JpegKinds.v
JpegTables.v
JpegFile.v
JpegWhole.v
JpegWrite.v
JpegFrame.v
JpegProgressive.v
JpegSafe.v
JpegRead.v
JpegBaseline.v
JpegParts.v
JpegConvert.v
JpegCases.v
Graph.v
GraphCycle.v
GraphOrder.v
Order.v
Bisect.v
Heap.v
HeapSift.v
HeapMerge.v
HeapChoose.v
