(* ===== verification/Prelude.v ===== *)
(** A verification development for AerOS.

    AerOS is an operating system whose kernel (kernel/src, Rust) reads formats
    that Python tools (tools/) write on the host, and whose disk image ships a
    Python 3.13 runtime (assets/userspace/python/usr/lib/python3.13, called
    "the runtime" below).  The development models the tools and the kernel's
    readers of the same formats side by side, proves that what the one writes
    the other reads, and models modules of the runtime with their contracts.

    * How code is modelled

    Python code is a function into [py]: a value ([Ret]), an exception
    ([Raise], with the class of the exception) or [NoFuel].  Integers are [Z];
    a [str] is the list of its code points, [bytes] and [bytearray] the list
    of their values; slices, negative indices, [struct] packing (which raises
    [StructError] out of range) and slice assignment are written out below in
    this file, text operations in Text.v.  Rust code is a function into
    [option] or a sum with the error type of the source, its integers kept in
    range by the masks and checks of the source, or, in the decoders and
    encoders, into [Machine.outcome]: a value, an error of the source, a
    [Panic] (the kernel is built with overflow checks, and an index out of range
    or a failed check stops it) or [Unfinished].  The PNG decoder is the
    exception: its reads by index go through [Png.Kernel.at_], which is 0 out of
    range where the source would stop, so its theorems are about the pixels of
    files it accepts and do not show that no file makes it panic.  A Python [dict] is a
    [gmap] where only lookups matter and an association list where order does.

    A loop that is not structural has fuel.  Each such definition has a fixed
    fuel that the theorems prove enough, so the results are about the loop of
    the source: [chain_fuel] (one round per cluster), [exclude_fuel] (one round
    per address bit), [summarize_fuel] (two rounds per address bit),
    [merge_fuel] (each merge consumes an element).  Where the source has no
    bound the fuel is an argument of the definition (the directory walk of the
    FAT checker), and [Fat.cyclic_root_diverges] shows a volume for which no
    amount is enough.  In the JPEG files the loops over the 64 coefficients of a
    block have 64 or 65 rounds (every round moves on by at least one), the
    merging of Huffman codes 258 (each removes one of 257 symbols) and the
    loops over segments one round per byte; a kernel loop that ran out of fuel
    would be [Unfinished], which [JpegSafe.parse_terminates] excludes for every
    file, and the theorems on the tool are that it returns.  The loops of
    inflate.rs have one round per bit of the input (a round takes one at
    least), those of deflate.rs one per byte of the input; the cycle search of
    graphlib one per edge and node; a sift of heapq one per place of the heap, a
    merge one per item; a binary search one per item between its ends.

    * The files

    - Prelude.v (this file): the [py] monad with its tactics ([zcase],
      [bind_inv], [zlen_lia]) and hint database ([pylib]), integers at a width,
      byte packing, slices, slice assignment and the lemmas on all of them.
    - Text.v: literals, UTF-8, splitting, joining, searching and sorting, and
      integers printed and parsed in a base.
    - Hash.v: CRC-32 and SHA-256, which the tools take from zlib and hashlib
      and the kernel computes itself.
    - Pkg.v: packages.  [Builder] is tools/aeros-pkg.py (build), [Vectors] is
      tools/make-pkg-vectors.py, [Kernel] is the header parser and the copies
      of kernel/src/pkg.rs.
    - Uuid.v: the class UUID of the runtime's uuid.py.
    - Gpt.v: partitioned disks.  [Maker] and [Checker] are
      tools/make-gpt-disk.py (make, verify), [Kernel] is the scan of
      kernel/src/partition.rs.
    - Fat.v: [Checker] is tools/check-fat.py, [Kernel] the directory entries of
      kernel/src/fatfs.rs.
    - Png.v, PngDecode.v, PngCases.v: [Maker] is tools/make-png-tests.py, [Ppm]
      is tools/ppm2png.py, [Kernel] is the decoder of kernel/src/png.rs; the
      second file decodes rows, passes and chunks, the third whole files.
    - Arrays.v: lists of integers read and written by index, with sums.
    - Machine.v: the outcome of Rust code, checked arithmetic at a width,
      checked indexing and slices.
    - Inflate.v, InflateBits.v, InflateHuff.v, InflateSpec.v, InflateBlock.v,
      InflateTables.v, InflateWhole.v: [Kernel] is kernel/src/inflate.rs; the
      others are its bit reader, its Huffman tables, what a DEFLATE stream is as
      a relation between bits and bytes (the specification), and that the
      decompressor follows it block by block.
    - Stored.v: a compressor that only stores, with which the interface to zlib
      is shown to have an instance.
    - Deflate.v, DeflateBits.v, DeflateWhole.v: [Kernel] is
      kernel/src/deflate.rs; what it writes is a stream of the specification.
    - PngEncode.v: [Encoder] is the PNG encoder of kernel/src/png.rs.
    - Huff.v: Huffman codes: [Tool] is optimal_table, code_table and
      build_decoder of tools/make-progressive.py, [Kernel] is Huffman::build of
      kernel/src/jpeg.rs; that the code chosen is a complete prefix code of at
      most 16 bits and that the kernel's table holds exactly its words.
    - Jpeg.v: [Tool] is tools/make-progressive.py, from the bytes of a baseline
      file to those of the progressive one; [Kernel] is the decoder of
      kernel/src/jpeg.rs up to the coefficients, with its overflow checks (the
      kernel is built with them, and a failed one is [Panic]).
    - JpegBits.v to JpegProgressive.v: the proof that the kernel reads back what
      the tool wrote, in steps: the bit streams of both readers (JpegBits), the
      blocks of a scan as words and their decoding (JpegScan, JpegFirst,
      JpegRefine), the order of the blocks on both sides (JpegBlocks), the
      precision each scan reaches (JpegLevels, JpegKinds), the tables chosen
      (JpegTables), segments and headers (JpegFile, JpegFrame), the state after
      each scan (JpegWhole, JpegWrite), and the whole file (JpegProgressive).
    - JpegRead.v, JpegBaseline.v, JpegParts.v, JpegConvert.v: the baseline
      side: the tool and the kernel decode the same symbols, blocks and scan,
      read the same tables from the segments, and so the file and its
      conversion give the kernel the same picture.
    - JpegSafe.v: the kernel's decoder ends on every file.  JpegCases.v: symbols
      and coefficients on which it panics.
    - Dates.v, Times.v: the calendar, timedelta, date, timezone, time and
      datetime of the runtime's _pydatetime.py.
    - Ip.v, IpNet.v, IpSum.v: the runtime's ipaddress.py: addresses, networks
      and interfaces with the registries, ranges; and the comparisons
      total_ordering of functools.py adds.
    - Graph.v, GraphCycle.v, GraphOrder.v: the runtime's graphlib.py, with the
      search for cycles and the orders it gives.
    - Order.v, Bisect.v, Heap.v, HeapSift.v, HeapMerge.v, HeapChoose.v: the
      comparison the runtime's bisect.py and heapq.py rely on, the binary
      searches, the heap with its queue operations, [merge], [nsmallest] and
      [nlargest].

    * What the theorems show

    - Tool against kernel.  A package built on the host is read by the kernel
      with the same files, modes and contents ([Pkg.build_installs]); the disk
      [make] writes has two valid tables and one partition for both readers
      ([Gpt.make_tables], [Gpt.kernel_reads_image]); every file of the PNG
      corpus, for all sizes, pixels and filters the generator can draw, and
      every converted screenshot is decoded to the expected pixels
      ([PngCases.case_decodes], [corpus_decodes], [screenshot_decodes]); a
      directory entry the kernel writes is read back by the checker
      ([Fat.kernel_entry_read]); the progressive JPEG the tool makes of a
      decoded picture gives the kernel the same coefficients, through the ten
      scans of a colour picture or the six of a gray one
      ([JpegProgressive.progressive_decodes]), and they are those of the
      baseline file it was made of ([JpegConvert.conversion_same_picture]: a
      file without restart intervals, of three components or one that is not
      subsampled, whose DC values have sixteen bits; of blocks that only fill up
      the last units the DC coefficient is kept).  The last two theorems have a
      bound, 64 times the number of blocks below 9227464: with more symbols in a
      scan a code of the tool can be longer than the 32 bits its lists have room
      for.
    - Safety of the package reader.  Whatever its bytes are, a package the
      kernel accepts installs only files below its root, within the limits, and
      with the digests its header names ([Pkg.installed_safe]).
    - Compression.  On every sequence of bytes the decompressor ends without a
      panic, with exactly the bytes a stream of the specification stands for, or
      with an error when there is no such stream or the buffer is too small
      ([InflateWhole.zlib_decompress_exact]); the compressor never stops the
      kernel, writes such a stream whenever its buffer has the size the callers
      give it, and the decompressor gives the bytes back
      ([DeflateWhole.compress_decompress]); a picture the kernel saves as PNG is
      decoded to the pixels that were saved ([PngEncode.encode_decodes]).
    - Checkers.  A run of check-fat.py that reaches its end has established
      disjoint chains, file sizes and exact totals ([Fat.check_sound]), and its
      chain reader always ends ([Fat.chain_terminates]).
    - Calendar and time.  Day counts and dates are in bijection, timedelta
      arithmetic is exact with its bounds, ISO weeks and ISO texts round-trip,
      datetime arithmetic, order and hashing follow the instants, astimezone
      keeps them (Dates.v, Times.v).
    - Addresses.  Texts with their scopes, packed bytes and the long forms of
      addresses without a scope round-trip, the
      compression of IPv6 texts is the canonical one, the constructors give
      values in range or their documented errors, networks behave as ranges,
      subnets and exclusion split a network, summaries tile a range, collapsing
      gives the canonical cover, and the netmask cache never changes a result
      (Ip.v, IpNet.v, IpSum.v).  The theorems on subnets, exclusion, summaries
      and collapsing are for networks without a scope; for those with one see
      below.
    - Orders and queues.  [static_order] of graphlib gives every node once and
      after its predecessors, or raises CycleError with a cycle of the graph;
      under any sequence of calls a node is handed out once and after its
      predecessors are done, and a caller who marks what it gets as done is
      never left waiting ([GraphOrder]).  Insertion by bisect keeps a list
      sorted at the right end of the equal items; the operations of heapq keep
      the heap and the items and give a least one; [merge] is the stable sort of
      its sorted inputs, [nsmallest] and [nlargest] the first items of the
      stable sort ([Bisect], [HeapSift], [HeapMerge], [HeapChoose]).
    - Errors.  Inputs on which the code does not do what it means to are
      theorems too: packages the builder writes and the kernel refuses
      ([Pkg.long_header_rejected]), volumes check-fat.py rejects or never
      finishes ([Fat.fat32_root_never_counted], [Fat.cyclic_root_diverges]),
      times of day whose offsets have seconds ([Times.offset_seconds]), date
      texts of nine characters that fail an assertion of the datetime module
      ([Times.nine_characters]), IPv6 addresses and networks with a scope
      ([Ip.scoped_addresses], [IpNet.scoped_exclusion], [IpSum.scoped_collapse])
      and scans of progressive JPEG files that stop the kernel
      ([JpegCases.scans_panic]).

    * Interfaces

    [Png.Zlib] states what the tools rely on of Python's zlib: what it writes is
    a zlib stream of the bytes given (the relation of InflateSpec.v), within a
    size limit.  [Order.WeakOrder] is what bisect and heapq rely on of [<].
    [Png.Random] is the sequence of numbers the corpus tool draws, any in the
    ranges it asks for.  Both have instances with which the witnesses run.

    * Not modelled

    Signing and key files (they run openssl), command lines, printing and file
    access; the package database and rollback of the kernel; allocation
    failures (a buffer is zeroed memory of the size asked for); the clock, local
    time, float arguments, strftime and tzinfo subclasses other than timezone;
    UUID generation (clock, network card); pickling, __format__ and __repr__ of
    addresses; the pixels of a JPEG (inverse transform, upsampling, colours) and
    its orientation.  Of the tools: make-initramfs.py (not yet),
    make-fuzz-probe.py (machine code), the certificate scripts (openssl),
    make-installer-icon.py (an image library).  The kernel outside the readers
    named above, the user programs, the installer and the other modules of the
    runtime. *)
From Stdlib Require Import ZArith Lia List.
From stdpp Require Import base list gmap strings.
Open Scope Z_scope.

(** * Results of Python code *)

(** The exceptions the modelled code raises itself or gets from an
    operator; [SystemExit] carries the message given to [sys.exit]. *)
Inductive exn : Type :=
| AssertionError
| IndexError
| KeyError
| ValueError
| TypeError
| StructError
| OverflowError
| UnicodeError
| ZeroDivisionError
| AddressValueError
| NetmaskValueError
| SystemExit (message : list Z).

(** A computation returns, raises, or (only where a loop of the source is
    unrolled with fuel) runs out of fuel. *)
Inductive py (A : Type) : Type :=
| Ret (a : A)
| Raise (e : exn)
| NoFuel.
Arguments Ret {A} a.
Arguments Raise {A} e.
Arguments NoFuel {A}.

#[export] Instance exn_eq_dec : EqDecision exn.
Proof. solve_decision. Defined.

#[export] Instance py_ret : MRet py := @Ret.
#[export] Instance py_bind : MBind py := fun A B f m =>
  match m with Ret a => f a | Raise e => Raise e | NoFuel => NoFuel end.

(** The exceptions [except ValueError] catches. *)
Definition is_value_error (e : exn) : bool :=
  match e with
  | ValueError | UnicodeError | AddressValueError | NetmaskValueError => true
  | _ => false
  end.

(** [try: m  except p: handler]. *)
Definition catch {A} (p : exn -> bool) (m handler : py A) : py A :=
  match m with
  | Raise e => if p e then handler else m
  | _ => m
  end.

Definition passert (b : bool) : py unit :=
  if b then Ret tt else Raise AssertionError.

Definition of_opt {A} (e : exn) (o : option A) : py A :=
  match o with Some a => Ret a | None => Raise e end.

Fixpoint foldM {S A} (f : S -> A -> py S) (s : S) (l : list A) : py S :=
  match l with
  | [] => Ret s
  | a :: l => s' ← f s a; foldM f s' l
  end.

Fixpoint mapM_py {A B} (f : A -> py B) (l : list A) : py (list B) :=
  match l with
  | [] => Ret []
  | a :: l => b ← f a; bs ← mapM_py f l; Ret (b :: bs)
  end.

(** * Sequences *)

(** [len(x)]. *)
Definition zlen {A} (l : list A) : Z := Z.of_nat (length l).

(** How a slice bound is brought into range. *)
Definition clamp (n i : Z) : Z :=
  if i <? 0 then Z.max 0 (i + n) else Z.min i n.

(** [l[i:j]]. *)
Definition pyslice {A} (l : list A) (i j : Z) : list A :=
  let a := clamp (zlen l) i in
  let b := clamp (zlen l) j in
  take (Z.to_nat (b - a)) (drop (Z.to_nat a) l).

(** [l[i:j] = v] on a list or bytearray (the length may change). *)
Definition slice_assign {A} (l : list A) (i j : Z) (v : list A) : list A :=
  let a := clamp (zlen l) i in
  let b := Z.max a (clamp (zlen l) j) in
  take (Z.to_nat a) l ++ v ++ drop (Z.to_nat b) l.

(** [l[i]], with negative indices counted from the end. *)
Definition pyget {A} (l : list A) (i : Z) : py A :=
  let i' := if i <? 0 then i + zlen l else i in
  if i' <? 0 then Raise IndexError
  else of_opt IndexError (l !! Z.to_nat i').

(** [l[i] = v]. *)
Definition pyset {A} (l : list A) (i : Z) (v : A) : py (list A) :=
  let i' := if i <? 0 then i + zlen l else i in
  if (0 <=? i') && (i' <? zlen l) then Ret (<[Z.to_nat i' := v]> l)
  else Raise IndexError.

(** [range(a, b)]. *)
Definition pyrange (a b : Z) : list Z :=
  (fun k : nat => a + Z.of_nat k) <$> seq 0 (Z.to_nat (b - a)).

(** [range(a, b, step)] for a positive step. *)
Definition range_step (a b step : Z) : list Z :=
  (fun k => a + k * step) <$> pyrange 0 ((b - a + step - 1) / step).

Fixpoint zeqb_list (a b : list Z) : bool :=
  match a, b with
  | [], [] => true
  | x :: a, y :: b => (x =? y) && zeqb_list a b
  | _, _ => false
  end.

Definition zeros (n : Z) : list Z := replicate (Z.to_nat n) 0.

(** * Bytes and machine words *)

Definition is_byte (b : Z) : Prop := 0 <= b < 256.

Fixpoint le_bytes (n : nat) (z : Z) : list Z :=
  match n with
  | O => []
  | S n => z mod 256 :: le_bytes n (z / 256)
  end.

Fixpoint le_val (l : list Z) : Z :=
  match l with
  | [] => 0
  | b :: l => b + 256 * le_val l
  end.

Definition be_bytes (n : nat) (z : Z) : list Z := rev (le_bytes n z).
Definition be_val (l : list Z) : Z := le_val (rev l).

(** [struct.pack] of one unsigned field of [n] bytes, little- or big-endian. *)
Definition pack_le (n : nat) (x : Z) : py (list Z) :=
  if (0 <=? x) && (x <? 256 ^ Z.of_nat n) then Ret (le_bytes n x)
  else Raise StructError.
Definition pack_be (n : nat) (x : Z) : py (list Z) :=
  if (0 <=? x) && (x <? 256 ^ Z.of_nat n) then Ret (be_bytes n x)
  else Raise StructError.

(** [struct.unpack_from] of one field at a non-negative offset. *)
Definition unpack_le (n : nat) (l : list Z) (off : Z) : py Z :=
  if off + Z.of_nat n <=? zlen l
  then Ret (le_val (pyslice l off (off + Z.of_nat n)))
  else Raise StructError.
Definition unpack_be (n : nat) (l : list Z) (off : Z) : py Z :=
  if off + Z.of_nat n <=? zlen l
  then Ret (be_val (pyslice l off (off + Z.of_nat n)))
  else Raise StructError.

(** [struct.pack_into] of one little-endian field at a non-negative offset. *)
Definition pack_into_le (n : nat) (buf : list Z) (off x : Z) : py (list Z) :=
  b ← pack_le n x;
  if off + Z.of_nat n <=? zlen buf
  then Ret (slice_assign buf off (off + Z.of_nat n) b)
  else Raise StructError.

(** * Tactics *)

(** Splits boolean conjunctions and comparisons into propositions. *)
Ltac bool_to_prop :=
  repeat match goal with
  | H : _ && _ = true |- _ => apply andb_true_iff in H; destruct H
  | H : negb _ = true |- _ => apply negb_true_iff in H
  | H : negb _ = false |- _ => apply negb_false_iff in H
  | H : (_ <=? _) = true |- _ => apply Z.leb_le in H
  | H : (_ <=? _) = false |- _ => apply Z.leb_gt in H
  | H : (_ <? _) = true |- _ => apply Z.ltb_lt in H
  | H : (_ <? _) = false |- _ => apply Z.ltb_ge in H
  | H : (_ =? _) = true |- _ => apply Z.eqb_eq in H
  | H : (_ =? _) = false |- _ => apply Z.eqb_neq in H
  end.

(** Case analysis on the boolean comparisons of the goal, innermost first. *)
Ltac no_if t :=
  lazymatch t with
  | context [if _ then _ else _] => fail
  | _ => idtac
  end.
Ltac zcase :=
  repeat match goal with
  | |- context [?a <=? ?b] => no_if a; no_if b; destruct (Z.leb_spec a b)
  | |- context [?a <? ?b] => no_if a; no_if b; destruct (Z.ltb_spec a b)
  | |- context [?a =? ?b] => no_if a; no_if b; destruct (Z.eqb_spec a b)
  end.

(** Opens one [bind] of a hypothesis that says a computation returned. *)
Ltac bind_inv H :=
  match type of H with
  | mbind _ ?m = Ret _ =>
      let E := fresh "E" in
      destruct m eqn:E; [simpl in H | discriminate H | discriminate H]
  end.

Create HintDb pylib.
Create Rewrite HintDb pylib.

(** * Lemmas on the monad *)

Lemma bind_ret_inv {A B} (m : py A) (f : A -> py B) b :
  (m ≫= f) = Ret b -> exists a, m = Ret a /\ f a = Ret b.
Proof. destruct m; simpl; intros H; try discriminate; eauto. Qed.

(** Rewriting with this instead of reducing keeps the returned value from
    being computed when the proof is checked. *)
Lemma py_ret_bind {A B} (a : A) (f : A -> py B) : Ret a ≫= f = f a.
Proof. reflexivity. Qed.

Lemma Ret_inj {A} (a b : A) : Ret a = Ret b -> a = b.
Proof. congruence. Qed.

Lemma passert_ret b u : passert b = Ret u <-> b = true.
Proof. destruct b, u; simpl; split; congruence. Qed.

Lemma foldM_app {S A} (f : S -> A -> py S) s l1 l2 :
  foldM f s (l1 ++ l2) = (s' ← foldM f s l1; foldM f s' l2).
Proof.
  revert s; induction l1 as [|a l1 IH]; intros s; [done|].
  simpl. destruct (f s a); simpl; auto.
Qed.

Lemma foldM_invariant {S A} (P : S -> Prop) (f : S -> A -> py S) l s s' :
  (forall s a s', a ∈ l -> P s -> f s a = Ret s' -> P s') ->
  P s -> foldM f s l = Ret s' -> P s'.
Proof.
  revert s; induction l as [|a l IH]; intros s Hf Hs H; simpl in H.
  - congruence.
  - apply bind_ret_inv in H as (s1 & H1 & H2).
    eapply IH in H2; eauto.
    + intros; eapply Hf; eauto. by apply list_elem_of_further.
    + eapply Hf; eauto. apply list_elem_of_here.
Qed.

Lemma mapM_py_Forall2 {A B} (f : A -> py B) l l' :
  mapM_py f l = Ret l' <-> Forall2 (fun a b => f a = Ret b) l l'.
Proof.
  revert l'; induction l as [|a l IH]; intros l'; simpl.
  - split; [intros [= <-]; constructor | inversion 1; done].
  - split.
    + intros H. apply bind_ret_inv in H as (b & Hb & H).
      apply bind_ret_inv in H as (bs & Hbs & [= <-]).
      constructor; [done | by apply IH].
    + inversion 1 as [|? b ? bs Hb Hbs]; subst.
      apply IH in Hbs. by rewrite Hb, Hbs.
Qed.

(** * Lemmas on sequences *)

Lemma mapM_py_ret {A B} (f : A -> py B) (g : A -> B) l :
  (forall a, a ∈ l -> f a = Ret (g a)) -> mapM_py f l = Ret (g <$> l).
Proof.
  induction l as [|a l IH]; intros H; simpl; [done|].
  rewrite (H a) by left. cbn [mbind py_bind]. rewrite IH by (intros; apply H; by right). done.
Qed.

Lemma zlen_nonneg {A} (l : list A) : 0 <= zlen l.
Proof. unfold zlen; lia. Qed.

Lemma zlen_nil {A} : zlen (@nil A) = 0.
Proof. reflexivity. Qed.

Lemma zlen_cons {A} (a : A) l : zlen (a :: l) = 1 + zlen l.
Proof. unfold zlen; simpl; lia. Qed.

Lemma zlen_app {A} (l1 l2 : list A) : zlen (l1 ++ l2) = zlen l1 + zlen l2.
Proof. unfold zlen; rewrite length_app; lia. Qed.

Lemma zlen_fmap {A B} (f : A -> B) l : zlen (f <$> l) = zlen l.
Proof. unfold zlen; by rewrite length_fmap. Qed.

Lemma zlen_zeros n : 0 <= n -> zlen (zeros n) = n.
Proof. intros. unfold zlen, zeros. rewrite length_replicate. lia. Qed.

Lemma zlen_rev {A} (l : list A) : zlen (rev l) = zlen l.
Proof. unfold zlen. by rewrite length_rev. Qed.

#[export] Hint Rewrite @zlen_nil @zlen_cons @zlen_app @zlen_fmap @zlen_rev : pylib.

Ltac zlen_lia :=
  autorewrite with pylib in *;
  repeat match goal with
  | |- context [zlen ?l] => pose proof (zlen_nonneg l); generalize dependent (zlen l); intros
  | H : context [zlen ?l] |- _ => pose proof (zlen_nonneg l); generalize dependent (zlen l); intros
  end; lia.

Lemma clamp_nn n i : 0 <= i -> clamp n i = Z.min i n.
Proof. unfold clamp. zcase; lia. Qed.

(** For non-negative bounds a slice is [take] after [drop], in range or not. *)
Lemma pyslice_nn {A} (l : list A) i j :
  0 <= i -> 0 <= j ->
  pyslice l i j = take (Z.to_nat (j - i)) (drop (Z.to_nat i) l).
Proof.
  intros Hi Hj. unfold pyslice, zlen. rewrite !clamp_nn by done.
  destruct (decide (Z.of_nat (length l) <= i)).
  - rewrite (Z.min_r i) by lia. rewrite !drop_ge by lia. by rewrite !take_nil.
  - rewrite (Z.min_l i) by lia.
    destruct (decide (j <= Z.of_nat (length l))).
    + by rewrite Z.min_l by lia.
    + rewrite Z.min_r by lia.
      rewrite !take_ge by (rewrite length_drop; lia). done.
Qed.

Lemma slice_assign_nn {A} (l : list A) i j v :
  0 <= i <= j ->
  slice_assign l i j v = take (Z.to_nat i) l ++ v ++ drop (Z.to_nat j) l.
Proof.
  intros H. unfold slice_assign, zlen. rewrite !clamp_nn by lia.
  rewrite Z.max_r by lia. f_equal; [|f_equal].
  - destruct (decide (i <= Z.of_nat (length l))).
    + by rewrite Z.min_l.
    + rewrite Z.min_r by lia. by rewrite !take_ge by lia.
  - destruct (decide (j <= Z.of_nat (length l))).
    + by rewrite Z.min_l.
    + rewrite Z.min_r by lia. by rewrite !drop_ge by lia.
Qed.

Lemma zlen_slice_assign {A} (l : list A) i j v :
  0 <= i <= j -> j <= zlen l -> zlen v = j - i ->
  zlen (slice_assign l i j v) = zlen l.
Proof.
  intros. rewrite slice_assign_nn by lia. unfold zlen in *.
  rewrite !length_app, length_take, length_drop. lia.
Qed.

Lemma zlen_pyslice {A} (l : list A) i j :
  0 <= i <= j -> j <= zlen l -> zlen (pyslice l i j) = j - i.
Proof.
  intros. rewrite pyslice_nn by lia. unfold zlen in *.
  rewrite length_take, length_drop. lia.
Qed.

(** Reading back a range that was written, all of it or a part of it. *)
Lemma slice_assign_inside {A} (l : list A) i j v a b :
  0 <= i -> i <= zlen l -> i <= j -> i <= a -> a <= b -> b <= i + zlen v ->
  pyslice (slice_assign l i j v) a b = pyslice v (a - i) (b - i).
Proof.
  intros. rewrite slice_assign_nn by lia. rewrite !pyslice_nn by lia.
  replace (b - i - (a - i)) with (b - a) by lia. unfold zlen in *.
  rewrite (drop_app_ge (take _ _)) by (rewrite length_take; lia).
  rewrite length_take.
  replace (Z.to_nat a - Z.to_nat i `min` length l)%nat with (Z.to_nat (a - i)) by lia.
  rewrite drop_app_le by lia.
  rewrite take_app_le by (rewrite length_drop; lia). done.
Qed.

Lemma slice_assign_same {A} (l : list A) i j v :
  0 <= i -> i <= zlen l -> j = i + zlen v ->
  pyslice (slice_assign l i j v) i j = v.
Proof.
  intros ? ? ->. pose proof (zlen_nonneg v).
  rewrite slice_assign_inside by lia.
  rewrite pyslice_nn by lia.
  replace (i - i) with 0 by lia. rewrite drop_0. rewrite take_ge; [done|].
  unfold zlen; lia.
Qed.

(** Reading a range that lies before, or after, the one written. *)
Lemma slice_assign_before {A} (l : list A) i j v a b :
  0 <= a -> a <= b -> b <= i -> i <= zlen l -> i <= j ->
  pyslice (slice_assign l i j v) a b = pyslice l a b.
Proof.
  intros. rewrite slice_assign_nn by lia. rewrite !pyslice_nn by lia.
  unfold zlen in *.
  rewrite drop_app_le by (rewrite length_take; lia).
  rewrite take_app_le by (rewrite length_drop, length_take; lia).
  rewrite skipn_firstn_comm. rewrite take_take.
  f_equal; lia.
Qed.

Lemma slice_assign_after {A} (l : list A) i j v a b :
  0 <= i <= j -> j <= zlen l -> zlen v = j - i -> j <= a -> a <= b ->
  pyslice (slice_assign l i j v) a b = pyslice l a b.
Proof.
  intros. rewrite slice_assign_nn by lia. rewrite !pyslice_nn by lia.
  unfold zlen in *.
  rewrite drop_app_ge by (rewrite length_take; lia). rewrite length_take.
  rewrite drop_app_ge by lia. rewrite drop_drop. do 2 f_equal. lia.
Qed.

Lemma pyslice_full {A} (l : list A) n : n = zlen l -> pyslice l 0 n = l.
Proof.
  intros ->. pose proof (zlen_nonneg l). rewrite pyslice_nn by lia.
  rewrite drop_0, take_ge; [done | unfold zlen; lia].
Qed.

Lemma pyslice_empty {A} (l : list A) i : 0 <= i -> pyslice l i i = [].
Proof. intros. rewrite pyslice_nn by lia. by rewrite Z.sub_diag. Qed.

(** A slice of a slice. *)
Lemma pyslice_pyslice {A} (l : list A) i j a b :
  0 <= i -> 0 <= a -> a <= b -> i + b <= j ->
  pyslice (pyslice l i j) a b = pyslice l (i + a) (i + b).
Proof.
  intros. rewrite !pyslice_nn by lia.
  rewrite skipn_firstn_comm, take_take, drop_drop.
  f_equal; [lia | f_equal; lia].
Qed.

Lemma pyslice_app_l {A} (l1 l2 : list A) i j :
  0 <= i <= j -> j <= zlen l1 -> pyslice (l1 ++ l2) i j = pyslice l1 i j.
Proof.
  intros. rewrite !pyslice_nn by lia. unfold zlen in *.
  rewrite drop_app_le by lia. rewrite take_app_le by (rewrite length_drop; lia). done.
Qed.

Lemma pyslice_app_r {A} (l1 l2 : list A) i j :
  zlen l1 <= i -> i <= j ->
  pyslice (l1 ++ l2) i j = pyslice l2 (i - zlen l1) (j - zlen l1).
Proof.
  intros. pose proof (zlen_nonneg l1). rewrite !pyslice_nn by lia. unfold zlen in *.
  rewrite drop_app_ge by lia. f_equal; [lia | f_equal; lia].
Qed.

(** Two adjacent slices join. *)
Lemma pyslice_split {A} (l : list A) i k j :
  0 <= i <= k -> k <= j -> pyslice l i j = pyslice l i k ++ pyslice l k j.
Proof.
  intros. rewrite !pyslice_nn by lia.
  rewrite <- (take_drop (Z.to_nat (k - i)) (take (Z.to_nat (j - i)) _)).
  rewrite take_take, skipn_firstn_comm, drop_drop. f_equal.
  - f_equal; lia.
  - f_equal; [lia | f_equal; lia].
Qed.

Lemma pyget_ret {A} (l : list A) i x :
  0 <= i -> pyget l i = Ret x <-> l !! Z.to_nat i = Some x.
Proof.
  intros. unfold pyget. zcase; try lia.
  destruct (l !! Z.to_nat i); simpl; naive_solver.
Qed.

Lemma pyget_lookup {A} (l : list A) i x : 0 <= i -> l !! Z.to_nat i = Some x -> pyget l i = Ret x.
Proof. intros. by apply pyget_ret. Qed.

Lemma pyget_Some {A} (l : list A) i :
  0 <= i < zlen l -> exists x, pyget l i = Ret x /\ l !! Z.to_nat i = Some x.
Proof.
  intros [H1 H2]. unfold zlen in H2.
  destruct (lookup_lt_is_Some_2 l (Z.to_nat i)) as [x Hx]; [lia|].
  exists x. split; [by apply pyget_ret | done].
Qed.

Lemma pyget_elem {A} (l : list A) i x : pyget l i = Ret x -> x ∈ l.
Proof.
  unfold pyget. set (k := if i <? 0 then i + zlen l else i). destruct (k <? 0); [done|].
  destruct (l !! Z.to_nat k) eqn:E; [|done]. intros H%Ret_inj. subst. by eapply list_elem_of_lookup_2.
Qed.

Lemma pyrange_nil a b : b <= a -> pyrange a b = [].
Proof. intros. unfold pyrange. by replace (Z.to_nat (b - a)) with 0%nat by lia. Qed.

Lemma pyrange_cons a b : a < b -> pyrange a b = a :: pyrange (a + 1) b.
Proof.
  intros. unfold pyrange.
  replace (Z.to_nat (b - a)) with (S (Z.to_nat (b - (a + 1)))) by lia.
  rewrite <- cons_seq. simpl. f_equal; [lia|].
  rewrite <- seq_shift. rewrite <- list_fmap_compose.
  apply list_fmap_ext. intros; simpl; lia.
Qed.

Lemma pyrange_app a b c : a <= b -> b <= c -> pyrange a c = pyrange a b ++ pyrange b c.
Proof.
  intros. unfold pyrange. replace (Z.to_nat (c - a)) with (Z.to_nat (b - a) + Z.to_nat (c - b))%nat by lia.
  rewrite seq_app, fmap_app. f_equal. rewrite Nat.add_0_l.
  rewrite <- (Nat.add_0_r (Z.to_nat (b - a))) at 1. rewrite <- fmap_add_seq, <- list_fmap_compose.
  apply list_fmap_ext. intros. simpl. lia.
Qed.

Lemma zlen_pyrange a b : a <= b -> zlen (pyrange a b) = b - a.
Proof. intros. unfold pyrange, zlen. rewrite length_fmap, length_seq. lia. Qed.

Lemma elem_of_pyrange x a b : x ∈ pyrange a b <-> a <= x < b.
Proof.
  unfold pyrange. rewrite list_elem_of_fmap. split.
  - intros (k & -> & Hk). apply elem_of_seq in Hk. lia.
  - intros. exists (Z.to_nat (x - a)). rewrite elem_of_seq. lia.
Qed.

Lemma nodup_pyrange a b : NoDup (pyrange a b).
Proof. unfold pyrange. apply NoDup_fmap_2; [intros x y; lia | apply NoDup_seq]. Qed.

Lemma pyrange_ind (P : Z -> Z -> Prop) : (forall a b, b <= a -> P a b) -> (forall a b, a < b -> P (a + 1) b -> P a b) -> forall a b, P a b.
Proof.
  intros H0 H1 a b. remember (Z.to_nat (b - a)) as n eqn:E. revert a E. induction n as [|n IH]; intros a E.
  - apply H0. lia.
  - apply H1; [lia|]. apply IH. lia.
Qed.

Lemma zeqb_list_eq a b : zeqb_list a b = true <-> a = b.
Proof.
  revert b; induction a as [|x a IH]; intros [|y b]; simpl; try (split; congruence).
  rewrite andb_true_iff, Z.eqb_eq, IH. split; [intros [-> ->]; done | by intros [= -> ->]].
Qed.

Lemma zeqb_list_refl a : zeqb_list a a = true.
Proof. by apply zeqb_list_eq. Qed.

(** * Lemmas on bytes and struct fields *)

Lemma length_le_bytes n z : length (le_bytes n z) = n.
Proof. revert z; induction n; intros; simpl; auto. Qed.

Lemma zlen_le_bytes n z : zlen (le_bytes n z) = Z.of_nat n.
Proof. unfold zlen. by rewrite length_le_bytes. Qed.

Lemma zlen_be_bytes n z : zlen (be_bytes n z) = Z.of_nat n.
Proof. unfold be_bytes. rewrite zlen_rev. apply zlen_le_bytes. Qed.

Lemma is_byte_mod z : is_byte (z mod 256).
Proof. unfold is_byte. apply Z.mod_pos_bound. lia. Qed.

Lemma le_bytes_bytes n z : Forall is_byte (le_bytes n z).
Proof. revert z; induction n; intros; simpl; constructor; auto using is_byte_mod. Qed.

Lemma be_bytes_bytes n z : Forall is_byte (be_bytes n z).
Proof. unfold be_bytes. apply Forall_rev, le_bytes_bytes. Qed.

Lemma le_val_le_bytes n z : 0 <= z < 256 ^ Z.of_nat n -> le_val (le_bytes n z) = z.
Proof.
  revert z; induction n as [|n IH]; intros z H.
  - change (256 ^ Z.of_nat 0) with 1 in H. simpl. lia.
  - simpl. rewrite IH.
    + pose proof (Z.div_mod z 256). lia.
    + rewrite Nat2Z.inj_succ, Z.pow_succ_r in H by lia.
      split; [apply Z.div_pos; lia | apply Z.div_lt_upper_bound; lia].
Qed.

Lemma be_val_be_bytes n z : 0 <= z < 256 ^ Z.of_nat n -> be_val (be_bytes n z) = z.
Proof. intros. unfold be_val, be_bytes. rewrite rev_involutive. by apply le_val_le_bytes. Qed.

Lemma le_val_bound l : Forall is_byte l -> 0 <= le_val l < 256 ^ zlen l.
Proof.
  induction 1 as [|b l Hb Hl IH]; [simpl; unfold zlen; simpl; lia|].
  rewrite zlen_cons, Z.pow_add_r by (pose proof (zlen_nonneg l); lia).
  simpl. unfold is_byte in Hb. lia.
Qed.

Lemma le_bytes_le_val l : Forall is_byte l -> le_bytes (length l) (le_val l) = l.
Proof.
  induction 1 as [|b l Hb Hl IH]; [done|]. unfold is_byte in Hb. simpl.
  rewrite (Z.mul_comm 256). rewrite Z.mod_add, Z.div_add by lia.
  rewrite Z.mod_small, Z.div_small by lia. by rewrite Z.add_0_l, IH.
Qed.

Lemma pack_le_ret n x : 0 <= x < 256 ^ Z.of_nat n -> pack_le n x = Ret (le_bytes n x).
Proof. intros. unfold pack_le. zcase; simpl; try done; lia. Qed.

Lemma pack_be_ret n x : 0 <= x < 256 ^ Z.of_nat n -> pack_be n x = Ret (be_bytes n x).
Proof. intros. unfold pack_be. zcase; simpl; try done; lia. Qed.

Lemma pack_into_le_ret n buf off x :
  0 <= x < 256 ^ Z.of_nat n -> off + Z.of_nat n <= zlen buf ->
  pack_into_le n buf off x = Ret (slice_assign buf off (off + Z.of_nat n) (le_bytes n x)).
Proof. intros. unfold pack_into_le. rewrite pack_le_ret by done. simpl. zcase; [done | lia]. Qed.

Lemma unpack_le_ret n l off x :
  0 <= off -> off + Z.of_nat n <= zlen l ->
  pyslice l off (off + Z.of_nat n) = le_bytes n x -> 0 <= x < 256 ^ Z.of_nat n ->
  unpack_le n l off = Ret x.
Proof.
  intros ? ? E ?. unfold unpack_le. zcase; [|lia]. rewrite E. by rewrite le_val_le_bytes.
Qed.

Lemma unpack_be_ret n l off x :
  0 <= off -> off + Z.of_nat n <= zlen l ->
  pyslice l off (off + Z.of_nat n) = be_bytes n x -> 0 <= x < 256 ^ Z.of_nat n ->
  unpack_be n l off = Ret x.
Proof.
  intros ? ? E ?. unfold unpack_be. zcase; [|lia]. rewrite E. by rewrite be_val_be_bytes.
Qed.

(** A boolean fact about every byte is checked by evaluation. *)
Lemma byte_cases (P : Z -> bool) :
  forallb P (pyrange 0 256) = true -> forall b, is_byte b -> P b = true.
Proof.
  intros H b Hb. rewrite forallb_forall in H. apply H.
  apply list_elem_of_In, elem_of_pyrange. done.
Qed.

Lemma forallb_ext_eq {A} (f g : A -> bool) l : (forall x, f x = g x) -> forallb f l = forallb g l.
Proof. intros H. induction l; simpl; [done|]. by rewrite H, IHl. Qed.

Lemma forallb_Forall {A} (f : A -> bool) l : forallb f l = true <-> Forall (fun x => f x = true) l.
Proof.
  induction l; simpl; [split; constructor|].
  rewrite andb_true_iff, IHl, Forall_cons. done.
Qed.

Lemma pyslice_prefix {A} (l1 l2 : list A) n :
  zlen l1 <= n -> pyslice (l1 ++ l2) 0 n = l1 ++ pyslice l2 0 (n - zlen l1).
Proof.
  intros. pose proof (zlen_nonneg l1). rewrite !pyslice_nn by lia. unfold zlen in *.
  rewrite !drop_0, take_app_ge by lia. do 2 f_equal. lia.
Qed.

(** * A buffer updated in place *)

(** [h'] is [h] with [v] written at [off], in range. *)
Definition updated (h h' : list Z) (off : Z) (v : list Z) : Prop :=
  h' = slice_assign h off (off + zlen v) v /\ 0 <= off /\ off + zlen v <= zlen h.

Section updated.
Context {h h' : list Z} {off : Z} {v : list Z} (U : updated h h' off v).

Lemma updated_zlen : zlen h' = zlen h.
Proof.
  destruct U as (-> & ? & ?). pose proof (zlen_nonneg v). apply zlen_slice_assign; lia.
Qed.

Lemma updated_same : pyslice h' off (off + zlen v) = v.
Proof. destruct U as (-> & ? & ?). pose proof (zlen_nonneg v). apply slice_assign_same; lia. Qed.

Lemma updated_same_eq a b : a = off -> b = off + zlen v -> pyslice h' a b = v.
Proof. intros -> ->. apply updated_same. Qed.

Lemma updated_frame a b :
  0 <= a -> a <= b -> b <= off \/ off + zlen v <= a -> pyslice h' a b = pyslice h a b.
Proof.
  destruct U as (-> & ? & ?). pose proof (zlen_nonneg v). intros ? ? [|].
  - apply slice_assign_before; lia.
  - apply slice_assign_after; lia.
Qed.

Lemma updated_inside a b :
  off <= a -> a <= b -> b <= off + zlen v -> pyslice h' a b = pyslice v (a - off) (b - off).
Proof.
  destruct U as (-> & ? & ?). pose proof (zlen_nonneg v). intros.
  apply slice_assign_inside; lia.
Qed.

Lemma updated_bytes : Forall is_byte h -> Forall is_byte v -> Forall is_byte h'.
Proof.
  destruct U as (-> & ? & ?). intros. pose proof (zlen_nonneg v).
  rewrite slice_assign_nn by lia.
  apply Forall_app. split; [by apply Forall_take|]. apply Forall_app. split; [done|].
  by apply Forall_drop.
Qed.
End updated.

Lemma updated_slice_assign h i j v :
  0 <= i -> j = i + zlen v -> j <= zlen h -> updated h (slice_assign h i j v) i v.
Proof. intros ? -> ?. done. Qed.

Lemma pack_into_le_updated n h off x :
  0 <= x < 256 ^ Z.of_nat n -> 0 <= off -> off + Z.of_nat n <= zlen h ->
  exists h', pack_into_le n h off x = Ret h' /\ updated h h' off (le_bytes n x).
Proof.
  intros. eexists. split; [by apply pack_into_le_ret|].
  apply updated_slice_assign; rewrite ?zlen_le_bytes; lia.
Qed.

Lemma pyset_updated h i x :
  0 <= i < zlen h -> exists h', pyset h i x = Ret h' /\ updated h h' i [x].
Proof.
  intros Hi. exists (<[Z.to_nat i := x]> h). split.
  - unfold pyset. zcase; simpl; try lia; done.
  - unfold updated. change (zlen [x]) with 1. split; [|lia].
    rewrite slice_assign_nn by lia. unfold zlen in Hi.
    rewrite insert_take_drop by lia. simpl. do 3 f_equal. lia.
Qed.

Lemma slice_assign_split {A} (l : list A) i j v :
  0 <= i <= j -> j <= zlen l ->
  slice_assign l i j v = pyslice l 0 i ++ v ++ pyslice l j (zlen l).
Proof.
  intros. rewrite slice_assign_nn, !pyslice_nn by lia. rewrite drop_0, Z.sub_0_r.
  do 2 f_equal. symmetry. apply take_ge. rewrite length_drop. unfold zlen in *. lia.
Qed.

Lemma zeros_bytes n : Forall is_byte (zeros n).
Proof. apply Forall_replicate. unfold is_byte. lia. Qed.

Lemma bytes_check l : forallb (fun b => (0 <=? b) && (b <? 256)) l = true -> Forall is_byte l.
Proof.
  intros H. apply forallb_Forall in H. eapply Forall_impl; [exact H|].
  intros b Hb. simpl in Hb. unfold is_byte. bool_to_prop. lia.
Qed.

Lemma pyslice_zeros n a b : 0 <= a <= b -> b <= n -> pyslice (zeros n) a b = zeros (b - a).
Proof.
  intros. rewrite pyslice_nn by lia. unfold zeros. rewrite drop_replicate, take_replicate.
  f_equal. lia.
Qed.

Lemma pyslice_bytes l a b : Forall is_byte l -> Forall is_byte (pyslice l a b).
Proof. intros. unfold pyslice. by apply Forall_take, Forall_drop. Qed.

Lemma le_bytes_zero n : le_bytes n 0 = replicate n 0.
Proof. induction n; simpl; [done|]. by rewrite Z.mod_0_l, Z.div_0_l, IHn by lia. Qed.

(** A field padded with zero bytes is the wider field. *)
Lemma le_bytes_pad n m x :
  0 <= x < 256 ^ Z.of_nat n -> le_bytes (n + m) x = le_bytes n x ++ replicate m 0.
Proof.
  revert x. induction n as [|n IH]; intros x H.
  - change (256 ^ Z.of_nat 0) with 1 in H. assert (x = 0) as -> by lia. simpl. apply le_bytes_zero.
  - simpl. f_equal. apply IH.
    rewrite Nat2Z.inj_succ, Z.pow_succ_r in H by lia.
    split; [apply Z.div_pos; lia | apply Z.div_lt_upper_bound; lia].
Qed.

(** Reads through the chain of updates in the context: the slice written
    last, or the slice of the buffer before a write elsewhere. *)
Ltac upd_side := rewrite ?zlen_le_bytes, ?zlen_be_bytes; simpl Z.of_nat; lia.
Ltac read_updated :=
  repeat match goal with
  | U : updated ?h ?h' ?o ?v |- context [pyslice ?h' ?a ?b] =>
      first [ rewrite (updated_same_eq U a b) by upd_side
            | rewrite (updated_frame U a b) by upd_side ]
  end.

(** Runs the next [pack_into] of the goal. *)
Ltac pack_step :=
  match goal with
  | |- context [pack_into_le ?n ?h ?o ?x] =>
      let h' := fresh "h" in
      let E := fresh "E" in
      let U := fresh "U" in
      let L := fresh "L" in
      destruct (pack_into_le_updated n h o x) as (h' & E & U);
      [simpl Z.of_nat; lia | lia | simpl Z.of_nat; lia |];
      rewrite E; clear E; cbn [mbind py_bind];
      pose proof (updated_zlen U) as L
  end.
Ltac assign_step :=
  match goal with
  | |- context [slice_assign ?h ?i ?j ?v] =>
      let h' := fresh "h" in
      let U := fresh "U" in
      let L := fresh "L" in
      assert (U : updated h (slice_assign h i j v) i v)
        by (apply updated_slice_assign; upd_side);
      pose proof (updated_zlen U) as L;
      set (h' := slice_assign h i j v) in *; clearbody h'
  end.

(** * Bits *)

Lemma testbit_small s d i : 0 <= s < 2 ^ d -> 0 <= d <= i -> Z.testbit s i = false.
Proof.
  intros Hs Hi. destruct (decide (s = 0)) as [->|]; [apply Z.bits_0|].
  apply Z.bits_above_log2; [lia|]. apply Z.lt_le_trans with d; [|lia]. apply Z.log2_lt_pow2; lia.
Qed.

(** Appending [d] bits with a shift and an or is arithmetic. *)
Lemma lor_shiftl_add b s d : 0 <= d -> 0 <= s < 2 ^ d -> Z.lor (Z.shiftl b d) s = b * 2 ^ d + s.
Proof.
  intros Hd Hs. assert (E : Z.land (Z.shiftl b d) s = 0).
  { apply Z.bits_inj'. intros i Hi. rewrite Z.land_spec, Z.bits_0. destruct (decide (i < d)).
    - by rewrite Z.shiftl_spec_low by lia.
    - rewrite (testbit_small s d i) by lia. apply andb_false_r. }
  rewrite <- Z.lxor_lor, <- Z.add_nocarry_lxor by done. by rewrite Z.shiftl_mul_pow2 by lia.
Qed.
