(* ===== verification/Text.v ===== *)
(** Text: Python [str] as a list of code points, Rust [&str] as its UTF-8
    bytes; literals, UTF-8, splitting and joining, searching, sorting, and
    the printing and parsing of integers in a base. *)
From Stdlib Require Import ZArith Lia List Permutation Sorted.
From Stdlib Require Import Ascii String.
From stdpp Require Import base list strings.
From S2P Require Import Prelude.
Open Scope Z_scope.

(** A source literal as code points (ASCII, so also its UTF-8 bytes). *)
Definition lit (s : string) : list Z :=
  (fun c => Z.of_N (N_of_ascii c)) <$> list_ascii_of_string s.

#[global] Arguments lit : simpl never.

(** * UTF-8 *)

Definition utf8_char (c : Z) : py (list Z) :=
  if c <? 128 then Ret [c]
  else if c <? 2048 then Ret [192 + c / 64; 128 + c mod 64]
  else if (55296 <=? c) && (c <=? 57343) then Raise UnicodeError
  else if c <? 65536 then Ret [224 + c / 4096; 128 + c / 64 mod 64; 128 + c mod 64]
  else Ret [240 + c / 262144; 128 + c / 4096 mod 64; 128 + c / 64 mod 64; 128 + c mod 64].

(** [s.encode()]. *)
Definition encode (s : list Z) : py (list Z) :=
  ls ← mapM_py utf8_char s; Ret (concat ls).

Definition cont (b : Z) : bool := (128 <=? b) && (b <=? 191).
Definition between (lo b hi : Z) : bool := (lo <=? b) && (b <=? hi).

(** Rust's [core::str::from_utf8] succeeds. *)
Fixpoint utf8_valid (l : list Z) : bool :=
  match l with
  | [] => true
  | b0 :: t0 =>
    if b0 <? 128 then utf8_valid t0
    else match t0 with
    | [] => false
    | b1 :: t1 =>
      if between 194 b0 223 then cont b1 && utf8_valid t1
      else match t1 with
      | [] => false
      | b2 :: t2 =>
        if between 224 b0 239 then
          between (if b0 =? 224 then 160 else 128) b1 (if b0 =? 237 then 159 else 191)
          && cont b2 && utf8_valid t2
        else match t2 with
        | [] => false
        | b3 :: t3 =>
          between 240 b0 244
          && between (if b0 =? 240 then 144 else 128) b1 (if b0 =? 244 then 143 else 191)
          && cont b2 && cont b3 && utf8_valid t3
        end
      end
    end
  end.

(** The code points of valid UTF-8. *)
Fixpoint utf8_points (l : list Z) : list Z :=
  match l with
  | [] => []
  | b0 :: t0 =>
    if b0 <? 128 then b0 :: utf8_points t0
    else match t0 with
    | [] => []
    | b1 :: t1 =>
      if b0 <? 224 then (b0 - 192) * 64 + (b1 - 128) :: utf8_points t1
      else match t1 with
      | [] => []
      | b2 :: t2 =>
        if b0 <? 240 then (b0 - 224) * 4096 + (b1 - 128) * 64 + (b2 - 128) :: utf8_points t2
        else match t2 with
        | [] => []
        | b3 :: t3 =>
          (b0 - 240) * 262144 + (b1 - 128) * 4096 + (b2 - 128) * 64 + (b3 - 128) :: utf8_points t3
        end
      end
    end
  end.

(** [b.decode()]. *)
Definition decode (l : list Z) : py (list Z) :=
  if utf8_valid l then Ret (utf8_points l) else Raise UnicodeError.

(** [b.decode("utf-16-le")]: an unpaired surrogate or an odd byte is an error. *)
Fixpoint utf16_le_decode (l : list Z) : py (list Z) :=
  match l with
  | [] => Ret []
  | [_] => Raise UnicodeError
  | b0 :: b1 :: t =>
      let u := b0 + 256 * b1 in
      if between 55296 u 56319 then
        match t with
        | b2 :: b3 :: t' =>
            let v := b2 + 256 * b3 in
            if between 56320 v 57343
            then r ← utf16_le_decode t'; Ret (65536 + (u - 55296) * 1024 + (v - 56320) :: r)
            else Raise UnicodeError
        | _ => Raise UnicodeError
        end
      else if between 56320 u 57343 then Raise UnicodeError
      else r ← utf16_le_decode t; Ret (u :: r)
  end.

(** * Splitting, joining, searching *)

(** [sep.join(parts)] for a one-character separator. *)
Fixpoint join (sep : Z) (parts : list (list Z)) : list Z :=
  match parts with
  | [] => []
  | [p] => p
  | p :: ps => p ++ sep :: join sep ps
  end.

(** [text.split(sep)] for a one-character separator. *)
Fixpoint split (sep : Z) (l : list Z) : list (list Z) :=
  match l with
  | [] => [[]]
  | c :: l =>
      match split sep l with
      | p :: ps => if c =? sep then [] :: p :: ps else (c :: p) :: ps
      | [] => [[]]
      end
  end.

(** [text.partition(sep)]: the parts before and after the first separator. *)
Fixpoint partition (sep : Z) (l : list Z) : option (list Z * list Z) :=
  match l with
  | [] => None
  | c :: l => if c =? sep then Some ([], l) else '(p, r) ← partition sep l; Some (c :: p, r)
  end.

(** [text.split(sep, maxsplit=n)]. *)
Fixpoint split_max (n : nat) (sep : Z) (l : list Z) : list (list Z) :=
  match n with
  | O => [l]
  | S n =>
      match partition sep l with
      | Some (p, r) => p :: split_max n sep r
      | None => [l]
      end
  end.

Fixpoint starts_with (p l : list Z) : bool :=
  match p, l with
  | [], _ => true
  | a :: p, b :: l => (a =? b) && starts_with p l
  | _ :: _, [] => false
  end.

(** [line.strip_prefix(p)]. *)
Definition strip_prefix (p l : list Z) : option (list Z) :=
  if starts_with p l then Some (drop (length p) l) else None.

(** First position of [pat] in [l] (Rust [windows(..).position(..)], Python
    [bytes.find]). *)
Fixpoint find_sub (pat l : list Z) : option nat :=
  if starts_with pat l then Some 0%nat
  else match l with
       | [] => None
       | _ :: l => S <$> find_sub pat l
       end.

Definition count_char (c : Z) (l : list Z) : Z :=
  zlen (filter (fun x => x = c) l).

(** Code-point lexicographic order, as Python compares [str]. *)
Fixpoint str_leb (a b : list Z) : bool :=
  match a, b with
  | [], _ => true
  | _ :: _, [] => false
  | x :: a, y :: b => if x =? y then str_leb a b else x <? y
  end.

(** Stable insertion sort by a boolean order. *)
Fixpoint insert_by {A} (leb : A -> A -> bool) (x : A) (l : list A) : list A :=
  match l with
  | [] => [x]
  | y :: l' => if leb x y then x :: y :: l' else y :: insert_by leb x l'
  end.
Definition sort_by {A} (leb : A -> A -> bool) (l : list A) : list A :=
  foldr (insert_by leb) [] l.

(** * Integers in a base *)

Definition digit_char (d : Z) : Z := if d <? 10 then 48 + d else 87 + d.
Definition digit_char_upper (d : Z) : Z := if d <? 10 then 48 + d else 55 + d.

Definition char_digit (c : Z) : option Z :=
  if between 48 c 57 then Some (c - 48)
  else if between 97 c 122 then Some (c - 87)
  else if between 65 c 90 then Some (c - 55)
  else None.

Fixpoint digits_fuel (fuel : nat) (b n : Z) : list Z :=
  match fuel with
  | O => []
  | S f => if n <? b then [n] else digits_fuel f b (n / b) ++ [n mod b]
  end.

(** The digits of a non-negative integer, most significant first; the number
    of bits bounds the number of digits in any base. *)
Definition digits (b n : Z) : list Z := digits_fuel (S (Z.to_nat (Z.log2 n))) b n.

(** [f"{n}"], [f"{n:o}"] for non-negative [n]. *)
Definition to_base (b n : Z) : list Z := digit_char <$> digits b n.

(** [s.rjust(w, c)]. *)
Definition pad_left (c : Z) (w : nat) (s : list Z) : list Z := replicate (w - length s) c ++ s.
(** ["%0wd" % n]. *)
Definition fmt0 (w : nat) (n : Z) : list Z :=
  if n <? 0 then 45 :: pad_left 48 (w - 1) (to_base 10 (- n)) else pad_left 48 w (to_base 10 n).
Definition fmt_int (n : Z) : list Z := fmt0 0 n.

(** [f"{n:0wX}"] for non-negative [n]. *)
Definition hex_upper_pad (w : nat) (n : Z) : list Z :=
  let d := digit_char_upper <$> digits 16 n in
  replicate (w - length d) 48 ++ d.

(** [f"{byte:02x}"] for a byte. *)
Definition hex2 (b : Z) : list Z := [digit_char (b / 16); digit_char (b mod 16)].

(** [data.hex()]. *)
Definition hex (l : list Z) : list Z := concat (hex2 <$> l).

Fixpoint parse_digits (b max acc : Z) (l : list Z) : option Z :=
  match l with
  | [] => Some acc
  | c :: l =>
      d ← char_digit c;
      if (d <? b) && (acc * b + d <=? max) then parse_digits b max (acc * b + d) l
      else None
  end.

(** Rust's [uN::from_str_radix] with the type's maximum [max]. *)
Definition parse_uint (b max : Z) (l : list Z) : option Z :=
  match l with
  | [] => None
  | c :: l' =>
      if c =? 43 then match l' with [] => None | _ => parse_digits b max 0 l' end
      else parse_digits b max 0 l
  end.

(** [str.isspace] of one character, and the same of a byte of [bytes]. *)
Definition is_space (c : Z) : bool :=
  between 9 c 13 || between 28 c 32 || existsb (Z.eqb c) [133; 160; 5760; 8232; 8233; 8239; 8287; 12288]
  || between 8192 c 8202.
Definition byte_space (c : Z) : bool := between 9 c 13 || (c =? 32).

(** [s.isascii() and s.isdigit()]. *)
Definition ascii_digits (s : list Z) : bool := negb (zlen s =? 0) && forallb (fun c => between 48 c 57) s.

(** [s.strip(chars)] with the set of characters as a predicate. *)
Fixpoint lstrip (f : Z -> bool) (l : list Z) : list Z :=
  match l with
  | [] => []
  | c :: l' => if f c then lstrip f l' else l
  end.
Definition rstrip (f : Z -> bool) (l : list Z) : list Z := rev (lstrip f (rev l)).
Definition strip (f : Z -> bool) (l : list Z) : list Z := rstrip f (lstrip f l).

(** Digits with single underscores between them; [need] says a digit must
    come next. *)
Fixpoint int_digits (b acc : Z) (need : bool) (l : list Z) : option Z :=
  match l with
  | [] => if need then None else Some acc
  | c :: l =>
      if c =? 95 then (if need then None else int_digits b acc true l)
      else d ← char_digit c;
           if d <? b then int_digits b (acc * b + d) false l else None
  end.

Definition hex_prefix (l : list Z) : bool :=
  starts_with (lit "0x") l || starts_with (lit "0X") l.

(** Python's [int(s, base)] on ASCII text, for a base of 10 or 16. *)
Definition py_int_unsigned (b : Z) (l : list Z) : option Z :=
  if (b =? 16) && hex_prefix l then
    let l' := drop 2 l in
    if starts_with (lit "_") l' then int_digits b 0 true (drop 1 l') else int_digits b 0 true l'
  else int_digits b 0 true l.
Definition py_int_strip (space : Z -> bool) (b : Z) (s : list Z) : py Z :=
  of_opt ValueError
    match strip space s with
    | [] => None
    | c :: l =>
        if c =? 45 then Z.opp <$> py_int_unsigned b l
        else if c =? 43 then py_int_unsigned b l
        else py_int_unsigned b (c :: l)
    end.
Definition py_int := py_int_strip is_space.
Definition py_int_bytes := py_int_strip byte_space.

(** [s.replace(old, new)] for a non-empty [old]; [skip] counts the characters
    of a match still to be dropped. *)
Fixpoint replace_go (old new l : list Z) (skip : nat) : list Z :=
  match l with
  | [] => []
  | c :: l' =>
      match skip with
      | S k => replace_go old new l' k
      | O => if starts_with old l then new ++ replace_go old new l' (length old - 1)
             else c :: replace_go old new l' 0
      end
  end.
Definition replace (old new l : list Z) : list Z := replace_go old new l 0.

(** * Lemmas *)

Definition is_ascii (c : Z) : Prop := 0 <= c < 128.

Lemma ascii_check l : forallb (fun c => between 0 c 127) l = true -> Forall is_ascii l.
Proof.
  intros H. apply forallb_Forall in H. eapply Forall_impl; [exact H|].
  intros c Hc. simpl in Hc. unfold between, is_ascii in *. bool_to_prop. lia.
Qed.

Lemma utf8_char_ascii c : is_ascii c -> utf8_char c = Ret [c].
Proof. unfold is_ascii, utf8_char. intros. destruct (Z.ltb_spec c 128); [done | lia]. Qed.

Lemma mapM_utf8_ascii s : Forall is_ascii s -> mapM_py utf8_char s = Ret ((fun c => [c]) <$> s).
Proof.
  induction 1 as [|c s Hc Hs IH]; [done|]. cbn [mapM_py fmap list_fmap].
  rewrite utf8_char_ascii, IH by done. done.
Qed.

Lemma concat_singletons {A} (s : list A) : concat ((fun c => [c]) <$> s) = s.
Proof. induction s as [|a s IH]; [done|]. rewrite fmap_cons. simpl. f_equal. exact IH. Qed.

Lemma encode_ascii s : Forall is_ascii s -> encode s = Ret s.
Proof. intros H. unfold encode. rewrite mapM_utf8_ascii by done. simpl. by rewrite concat_singletons. Qed.

Lemma utf8_valid_ascii s : Forall is_ascii s -> utf8_valid s = true.
Proof.
  induction 1 as [|c s Hc Hs IH]; simpl; [done|].
  unfold is_ascii in Hc. destruct (Z.ltb_spec c 128); [done | lia].
Qed.

Lemma between_true lo b hi : lo <= b <= hi -> between lo b hi = true.
Proof. intros. unfold between. apply andb_true_iff. lia. Qed.

Lemma between_false lo b hi : b < lo \/ hi < b -> between lo b hi = false.
Proof. intros. unfold between. apply andb_false_iff. rewrite !Z.leb_gt. lia. Qed.

Lemma cont_mod x : cont (128 + x mod 64) = true.
Proof. pose proof (Z.mod_pos_bound x 64). unfold cont. apply andb_true_iff. lia. Qed.

Lemma utf8_valid_two b0 b1 s :
  194 <= b0 <= 223 -> cont b1 = true -> utf8_valid (b0 :: b1 :: s) = utf8_valid s.
Proof.
  intros H0 H1. simpl. destruct (Z.ltb_spec b0 128); [lia|].
  by rewrite between_true, H1 by done.
Qed.

Lemma utf8_valid_three b0 b1 b2 s :
  224 <= b0 <= 239 ->
  (if b0 =? 224 then 160 else 128) <= b1 <= (if b0 =? 237 then 159 else 191) ->
  cont b2 = true -> utf8_valid (b0 :: b1 :: b2 :: s) = utf8_valid s.
Proof.
  intros H0 H1 H2. simpl. destruct (Z.ltb_spec b0 128); [lia|].
  rewrite between_false by lia. by rewrite !between_true, H2 by done.
Qed.

Lemma utf8_valid_four b0 b1 b2 b3 s :
  240 <= b0 <= 244 ->
  (if b0 =? 240 then 144 else 128) <= b1 <= (if b0 =? 244 then 143 else 191) ->
  cont b2 = true -> cont b3 = true -> utf8_valid (b0 :: b1 :: b2 :: b3 :: s) = utf8_valid s.
Proof.
  intros H0 H1 H2 H3. simpl. destruct (Z.ltb_spec b0 128); [lia|].
  rewrite !(between_false _ b0) by lia. by rewrite !between_true, H2, H3 by done.
Qed.

Lemma utf8_char_valid c b s :
  0 <= c <= 1114111 -> utf8_char c = Ret b -> utf8_valid s = true -> utf8_valid (b ++ s) = true.
Proof.
  intros Hc H Hs. unfold utf8_char in H.
  destruct (Z.ltb_spec c 128); [injection H as <-; simpl; destruct (Z.ltb_spec c 128); [done|lia]|].
  destruct (Z.ltb_spec c 2048).
  { injection H as <-. simpl app. rewrite utf8_valid_two; auto using cont_mod.
    assert (2 <= c / 64 < 32) by (split; [apply Z.div_le_lower_bound | apply Z.div_lt_upper_bound]; lia).
    lia. }
  destruct ((55296 <=? c) && (c <=? 57343)) eqn:Hsur; [done|].
  assert (E : c / 64 / 64 = c / 4096) by (rewrite Z.div_div by lia; done).
  pose proof (Z.div_mod (c / 64) 64 ltac:(lia)). pose proof (Z.mod_pos_bound (c / 64) 64 ltac:(lia)).
  pose proof (Z.div_mod c 64 ltac:(lia)). pose proof (Z.mod_pos_bound c 64 ltac:(lia)).
  destruct (Z.ltb_spec c 65536).
  { injection H as <-. simpl app. rewrite utf8_valid_three; auto using cont_mod.
    - assert (0 <= c / 4096 < 16) by (split; [apply Z.div_pos | apply Z.div_lt_upper_bound]; lia). lia.
    - apply andb_false_iff in Hsur. rewrite !Z.leb_gt in Hsur.
      destruct (Z.eqb_spec (224 + c / 4096) 224), (Z.eqb_spec (224 + c / 4096) 237); lia. }
  injection H as <-. simpl app.
  assert (E2 : c / 4096 / 64 = c / 262144) by (rewrite Z.div_div by lia; done).
  pose proof (Z.div_mod (c / 4096) 64 ltac:(lia)). pose proof (Z.mod_pos_bound (c / 4096) 64 ltac:(lia)).
  assert (0 <= c / 262144 < 5) by (split; [apply Z.div_pos | apply Z.div_lt_upper_bound]; lia).
  rewrite utf8_valid_four; auto using cont_mod; [lia|].
  destruct (Z.eqb_spec (240 + c / 262144) 240), (Z.eqb_spec (240 + c / 262144) 244); lia.
Qed.

(** What Python encodes, Rust accepts as UTF-8. *)
Lemma encode_valid s b :
  Forall (fun c => 0 <= c <= 1114111) s -> encode s = Ret b -> utf8_valid b = true.
Proof.
  unfold encode. intros Hs H. apply bind_ret_inv in H as (ls & Hls & [= <-]).
  apply mapM_py_Forall2 in Hls.
  induction Hls as [|c l s ls Hc Hls IH]; [done|].
  inversion Hs; subst. simpl. eapply utf8_char_valid; eauto.
Qed.

(** ** Splitting and joining *)

Lemma split_nonempty sep l : split sep l <> [].
Proof. destruct l as [|c l]; simpl; [done|]. destruct (split sep l); [done|]. destruct (c =? sep); done. Qed.

Lemma split_no_sep sep p : sep ∉ p -> split sep p = [p].
Proof.
  induction p as [|c p IH]; intros H; simpl; [done|].
  apply not_elem_of_cons in H as [H1 H2]. rewrite IH by done.
  destruct (Z.eqb_spec c sep); congruence.
Qed.

Lemma split_cons_sep sep p l : sep ∉ p -> split sep (p ++ sep :: l) = p :: split sep l.
Proof.
  induction p as [|c p IH]; intros H; simpl.
  - destruct (split sep l) eqn:E; [by destruct (split_nonempty sep l)|]. by rewrite Z.eqb_refl.
  - apply not_elem_of_cons in H as [H1 H2]. rewrite IH by done.
    destruct (Z.eqb_spec c sep); congruence.
Qed.

Lemma split_join sep ps :
  ps <> [] -> Forall (fun p => sep ∉ p) ps -> split sep (join sep ps) = ps.
Proof.
  intros Hne H. induction H as [|p ps Hp Hps IH]; [done|].
  destruct ps as [|q ps]; [by apply split_no_sep|].
  change (join sep (p :: q :: ps)) with (p ++ sep :: join sep (q :: ps)).
  rewrite split_cons_sep by done. by rewrite IH.
Qed.

Lemma join_cons sep p ps : ps <> [] -> join sep (p :: ps) = p ++ sep :: join sep ps.
Proof. by destruct ps. Qed.

Lemma starts_with_app p l : starts_with p (p ++ l) = true.
Proof. induction p; simpl; [done|]. by rewrite Z.eqb_refl. Qed.

Lemma starts_with_hd a p b l : a <> b -> starts_with (a :: p) (b :: l) = false.
Proof. intros. simpl. by destruct (Z.eqb_spec a b). Qed.

Lemma strip_prefix_app p l : strip_prefix p (p ++ l) = Some l.
Proof. unfold strip_prefix. rewrite starts_with_app. by rewrite drop_app_length. Qed.

(** [find_sub] skips a part in which the pattern's first character is absent. *)
Lemma find_sub_skip c pat p l :
  c ∉ p -> find_sub (c :: pat) (p ++ l) = Nat.add (length p) <$> find_sub (c :: pat) l.
Proof.
  induction p as [|x p IH]; intros H.
  - simpl. by destruct (find_sub (c :: pat) l).
  - apply not_elem_of_cons in H as [H1 H2]. simpl.
    destruct (Z.eqb_spec c x); [congruence|]. simpl. rewrite IH by done.
    by destruct (find_sub (c :: pat) l).
Qed.

Lemma find_sub_miss c pat l :
  starts_with pat l = false ->
  find_sub (c :: pat) (c :: l) = S <$> find_sub (c :: pat) l.
Proof. intros H. simpl. by rewrite Z.eqb_refl, H. Qed.

Lemma find_sub_hit pat l : find_sub pat (pat ++ l) = Some 0%nat.
Proof. destruct pat; simpl; [by destruct l|]. by rewrite Z.eqb_refl, starts_with_app. Qed.

(** ** Sorting *)

Section sorting.
Context {A : Type} (leb : A -> A -> bool).

Lemma insert_by_perm x l : insert_by leb x l ≡ₚ x :: l.
Proof.
  induction l as [|y l IH]; simpl; [done|].
  destruct (leb x y); [done|]. rewrite IH. apply Permutation_swap.
Qed.

Lemma sort_by_perm l : sort_by leb l ≡ₚ l.
Proof. induction l as [|x l IH]; simpl; [done|]. by rewrite insert_by_perm, IH. Qed.

Hypothesis leb_total : forall x y, leb x y = false -> leb y x = true.
Hypothesis leb_trans : forall x y z, leb x y = true -> leb y z = true -> leb x z = true.

Definition le_by (x y : A) : Prop := leb x y = true.

Lemma insert_by_sorted x l :
  StronglySorted le_by l -> StronglySorted le_by (insert_by leb x l).
Proof.
  induction 1 as [|y l Hl IH Hy]; simpl; [repeat constructor|].
  destruct (leb x y) eqn:E.
  - constructor; [by constructor|]. constructor; [done|].
    eapply Forall_impl; [exact Hy|]. intros z Hz. by eapply leb_trans.
  - constructor; [done|]. rewrite insert_by_perm.
    constructor; [by apply leb_total | done].
Qed.

Lemma sort_by_sorted l : StronglySorted le_by (sort_by leb l).
Proof. induction l; simpl; [constructor | by apply insert_by_sorted]. Qed.
End sorting.

Lemma str_leb_total x y : str_leb x y = false -> str_leb y x = true.
Proof.
  revert y; induction x as [|a x IH]; intros [|b y]; simpl; try done.
  rewrite (Z.eqb_sym b a). destruct (Z.eqb_spec a b); [apply IH|]. zcase; lia.
Qed.

Lemma str_leb_trans x y z : str_leb x y = true -> str_leb y z = true -> str_leb x z = true.
Proof.
  revert y z; induction x as [|a x IH]; intros [|b y] [|c z]; simpl; try done.
  destruct (Z.eqb_spec a b) as [->|], (Z.eqb_spec b c) as [->|]; zcase; try lia; eauto.
Qed.

Lemma str_leb_antisym x y : str_leb x y = true -> str_leb y x = true -> x = y.
Proof.
  revert y; induction x as [|a x IH]; intros [|b y]; simpl; try done.
  rewrite (Z.eqb_sym b a). destruct (Z.eqb_spec a b) as [->|].
  - intros. f_equal; auto.
  - zcase; lia.
Qed.

(** ** Integers *)

Lemma digits_fuel_bound fuel b n : 2 <= b -> 0 <= n -> Forall (fun d => 0 <= d < b) (digits_fuel fuel b n).
Proof.
  intros Hb. revert n. induction fuel as [|f IH]; intros n Hn; simpl; [constructor|].
  destruct (Z.ltb_spec n b); [by repeat constructor|].
  apply Forall_app. split; [apply IH, Z.div_pos; lia|].
  repeat constructor; apply Z.mod_pos_bound; lia.
Qed.

Fixpoint digits_val (b acc : Z) (l : list Z) : Z :=
  match l with [] => acc | d :: l => digits_val b (acc * b + d) l end.

Lemma digits_val_app b acc l1 l2 : digits_val b acc (l1 ++ l2) = digits_val b (digits_val b acc l1) l2.
Proof. revert acc; induction l1; intros; simpl; auto. Qed.

Lemma digits_fuel_val fuel b n :
  2 <= b -> 0 <= n -> n < 2 ^ Z.of_nat fuel -> digits_val b 0 (digits_fuel fuel b n) = n.
Proof.
  intros Hb. revert n. induction fuel as [|f IH]; intros n Hn Hf.
  - change (2 ^ Z.of_nat 0) with 1 in Hf. simpl; lia.
  - simpl. destruct (Z.ltb_spec n b); [simpl; lia|].
    rewrite digits_val_app, IH; simpl.
    + pose proof (Z.div_mod n b). lia.
    + apply Z.div_pos; lia.
    + rewrite Nat2Z.inj_succ, Z.pow_succ_r in Hf by lia.
      apply Z.div_lt_upper_bound; [lia|]. nia.
Qed.

Lemma digits_fuel_enough n : 0 <= n -> n < 2 ^ Z.of_nat (S (Z.to_nat (Z.log2 n))).
Proof.
  intros. pose proof (Z.log2_nonneg n).
  rewrite Nat2Z.inj_succ, Z2Nat.id by lia.
  destruct (decide (n = 0)) as [->|]; [done|]. apply Z.log2_spec; lia.
Qed.

Lemma digits_val_digits b n : 2 <= b -> 0 <= n -> digits_val b 0 (digits b n) = n.
Proof. intros. apply digits_fuel_val; auto. by apply digits_fuel_enough. Qed.

Lemma digits_bound b n : 2 <= b -> 0 <= n -> Forall (fun d => 0 <= d < b) (digits b n).
Proof. apply digits_fuel_bound. Qed.

Lemma digits_nonempty b n : digits b n <> [].
Proof.
  unfold digits. simpl. destruct (n <? b); [done|]. intros E.
  apply (f_equal length) in E. rewrite length_app in E. simpl in E. lia.
Qed.

Lemma char_digit_char d : 0 <= d < 36 -> char_digit (digit_char d) = Some d.
Proof. intros. unfold char_digit, digit_char, between. zcase; simpl; try lia; f_equal; lia. Qed.

Lemma digits_val_mono b acc l :
  2 <= b -> 0 <= acc -> Forall (fun d => 0 <= d < b) l -> acc <= digits_val b acc l.
Proof.
  intros Hb. revert acc. induction l as [|d l IH]; intros acc Ha H; simpl; [lia|].
  inversion H; subst. etransitivity; [|apply IH; [nia | done]]. nia.
Qed.

Lemma parse_digits_val b max acc l :
  2 <= b <= 36 -> 0 <= acc -> Forall (fun d => 0 <= d < b) l -> digits_val b acc l <= max ->
  parse_digits b max acc (digit_char <$> l) = Some (digits_val b acc l).
Proof.
  intros Hb. revert acc. induction l as [|d l IH]; intros acc Ha H Hm; simpl in *; [done|].
  inversion H; subst. rewrite char_digit_char by lia. simpl.
  assert (acc * b + d <= digits_val b (acc * b + d) l) by (apply digits_val_mono; [lia | nia | done]).
  destruct (Z.ltb_spec d b), (Z.leb_spec (acc * b + d) max); simpl; try lia.
  apply IH; [nia | done | done].
Qed.

Lemma digit_char_range d : 0 <= d < 36 -> 48 <= digit_char d <= 122 /\ digit_char d <> 59.
Proof. intros. unfold digit_char. zcase; lia. Qed.

(** Printing an integer in a base and parsing it back as a Rust unsigned. *)
Lemma parse_uint_to_base b max n :
  2 <= b <= 36 -> 0 <= n <= max -> parse_uint b max (to_base b n) = Some n.
Proof.
  intros Hb Hn. unfold parse_uint, to_base.
  pose proof (digits_bound b n ltac:(lia) ltac:(lia)) as Hd.
  pose proof (digits_nonempty b n) as Hne.
  pose proof (parse_digits_val b max 0 (digits b n) Hb ltac:(lia) Hd) as Hp.
  rewrite digits_val_digits in Hp by lia. specialize (Hp ltac:(lia)).
  destruct (digits b n) as [|d l] eqn:E; [done|].
  inversion Hd; subst. pose proof (digit_char_range d ltac:(lia)) as [Hr _].
  rewrite fmap_cons in *.
  destruct (Z.eqb_spec (digit_char d) 43); [lia | exact Hp].
Qed.

(** A match found in a prefix is the match found in the whole. *)
Lemma starts_with_prefix p l1 l2 :
  starts_with p l1 = true -> starts_with p (l1 ++ l2) = true /\ (length p <= length l1)%nat.
Proof.
  revert l1. induction p as [|a p IH]; intros [|b l1] H; simpl in *; try done.
  - split; [done | lia].
  - apply andb_true_iff in H as [-> H]. apply IH in H as [-> H]. split; [done | lia].
Qed.

Lemma starts_with_length p l1 l2 :
  starts_with p l1 = false -> starts_with p (l1 ++ l2) = true -> (length l1 < length p)%nat.
Proof.
  revert l1. induction p as [|a p IH]; intros [|b l1] H H'; simpl in *; try done; try lia.
  apply andb_true_iff in H' as [E H']. rewrite E in H. simpl in H. apply IH in H; [lia | done].
Qed.

Lemma find_sub_prefix pat l1 l2 k :
  find_sub pat l1 = Some k -> find_sub pat (l1 ++ l2) = Some k /\ (k + length pat <= length l1)%nat.
Proof.
  revert k. induction l1 as [|b l1 IH]; intros k H; cbn [find_sub app] in *.
  - destruct (starts_with pat []) eqn:E; [|done]. injection H as <-.
    destruct pat; [|done]. split; [by destruct l2 | done].
  - destruct (starts_with pat (b :: l1)) eqn:E.
    + injection H as <-. destruct (starts_with_prefix _ _ l2 E) as [E' ?].
      simpl app in E'. rewrite E'. split; [done | simpl in *; lia].
    + destruct (find_sub pat l1) as [k'|]; [|done]. injection H as <-.
      destruct (IH k' eq_refl) as [IH1 IH2].
      destruct (starts_with pat (b :: l1 ++ l2)) eqn:E'.
      * exfalso. apply (starts_with_length _ _ l2) in E; [simpl in *; lia | done].
      * rewrite IH1. split; [done | simpl; lia].
Qed.

(** ** Replacing, stripping, [int] *)

Lemma starts_with_absent a p l : a ∉ l -> starts_with (a :: p) l = false.
Proof.
  destruct l as [|b l]; [done|]. intros H. apply starts_with_hd.
  apply not_elem_of_cons in H as [? _]. done.
Qed.

Lemma replace_absent a p new l : a ∉ l -> replace (a :: p) new l = l.
Proof.
  unfold replace. induction l as [|c l IH]; intros H; [done|]. cbn [replace_go].
  rewrite starts_with_absent by done. apply not_elem_of_cons in H as [_ H]. by rewrite IH.
Qed.

Lemma replace_app_absent a new l1 l2 :
  a ∉ l1 -> replace [a] new (l1 ++ l2) = l1 ++ replace [a] new l2.
Proof.
  unfold replace. induction l1 as [|c l1 IH]; intros H; [done|]. cbn [app replace_go].
  apply not_elem_of_cons in H as [H1 H2]. rewrite starts_with_hd by done. by rewrite IH.
Qed.

Lemma replace_hit a new l : replace [a] new (a :: l) = new ++ replace [a] new l.
Proof. unfold replace. cbn [replace_go starts_with]. by rewrite Z.eqb_refl. Qed.

Lemma replace_drop_sep a p l : a ∉ p -> replace [a] [] (p ++ [a] ++ l) = p ++ replace [a] [] l.
Proof. intros. rewrite replace_app_absent by done. simpl app at 2. by rewrite replace_hit. Qed.

Lemma replace_go_skip old new l k : replace_go old new l k = replace_go old new (drop k l) 0.
Proof.
  revert k. induction l as [|c l IH]; intros k; [by rewrite drop_nil|].
  destruct k as [|k]; [done|]. cbn [replace_go drop]. apply IH.
Qed.

Lemma replace_prefix old new l :
  old <> [] -> replace old new (old ++ l) = new ++ replace old new l.
Proof.
  destruct old as [|a old]; [done|]. intros _. unfold replace.
  pose proof (starts_with_app (a :: old) l) as E. cbn [app] in *. cbn [replace_go].
  rewrite E, replace_go_skip. do 2 f_equal. cbn [length]. rewrite Nat.sub_1_r. cbn [Nat.pred].
  by rewrite drop_app_length.
Qed.

Lemma lstrip_id f l : (forall c, head l = Some c -> f c = false) -> lstrip f l = l.
Proof. destruct l as [|c l]; [done|]. intros H. simpl. by rewrite (H c). Qed.

Lemma strip_id f l : Forall (fun c => f c = false) l -> strip f l = l.
Proof.
  intros H. unfold strip, rstrip.
  assert (L : forall l, Forall (fun c => f c = false) l -> lstrip f l = l).
  { intros k Hk. apply lstrip_id. intros c. destruct Hk; [done|]. by intros [= ->]. }
  rewrite (L l H), (L (rev l)) by by apply Forall_rev. apply rev_involutive.
Qed.

Lemma int_digits_val b acc need l :
  2 <= b <= 36 -> l <> [] -> Forall (fun d => 0 <= d < b) l ->
  int_digits b acc need (digit_char <$> l) = Some (digits_val b acc l).
Proof.
  intros Hb Hne H. revert acc need Hne. induction H as [|d l Hd Hl IH]; intros acc need Hne; [done|].
  rewrite fmap_cons. cbn [int_digits digits_val].
  assert ((digit_char d =? 95) = false) as ->.
  { apply Z.eqb_neq. unfold digit_char. zcase; lia. }
  rewrite char_digit_char by lia. cbn [mbind option_bind].
  destruct (Z.ltb_spec d b); [|lia].
  destruct l as [|d' l]; [done|]. by apply IH.
Qed.

Lemma digits_val_zeros b n l : digits_val b 0 (replicate n 0 ++ l) = digits_val b 0 l.
Proof. induction n; simpl; auto. Qed.

Lemma digits_fuel_length f b n k :
  2 <= b -> 0 <= n < b ^ Z.of_nat (S k) -> (length (digits_fuel f b n) <= S k)%nat.
Proof.
  intros Hb. revert n k. induction f as [|f IH]; intros n k Hn; simpl; [lia|].
  destruct (Z.ltb_spec n b); [simpl; lia|]. rewrite length_app. simpl.
  destruct k as [|k].
  - change (Z.of_nat 1) with 1 in Hn. rewrite Z.pow_1_r in Hn. lia.
  - rewrite (Nat2Z.inj_succ (S k)), Z.pow_succ_r in Hn by lia.
    specialize (IH (n / b) k ltac:(split; [apply Z.div_pos | apply Z.div_lt_upper_bound]; lia)). lia.
Qed.

Lemma digits_length b n k :
  2 <= b -> 0 <= n < b ^ Z.of_nat (S k) -> (length (digits b n) <= S k)%nat.
Proof. apply digits_fuel_length. Qed.

(** ** Separators *)

Lemma join_split sep l : join sep (split sep l) = l.
Proof.
  induction l as [|c l IH]; [done|]. cbn [split]. destruct (split sep l) as [|p ps] eqn:E; [by destruct (split_nonempty sep l)|].
  destruct (Z.eqb_spec c sep) as [->|].
  - rewrite <- IH. done.
  - destruct ps as [|q ps]; cbn [join] in *; rewrite <- IH; done.
Qed.

Lemma partition_hit sep p r : sep ∉ p -> partition sep (p ++ sep :: r) = Some (p, r).
Proof.
  induction p as [|c p IH]; intros H; cbn [app partition]; [by rewrite Z.eqb_refl|].
  apply not_elem_of_cons in H as [H1 H2]. rewrite (proj2 (Z.eqb_neq c sep)) by congruence. by rewrite IH.
Qed.

Lemma partition_miss sep l : sep ∉ l -> partition sep l = None.
Proof.
  induction l as [|c l IH]; intros H; [done|]. apply not_elem_of_cons in H as [H1 H2]. cbn [partition].
  rewrite (proj2 (Z.eqb_neq c sep)) by congruence. by rewrite IH.
Qed.

Lemma partition_some sep l p r : partition sep l = Some (p, r) -> l = p ++ sep :: r /\ sep ∉ p.
Proof.
  revert p r. induction l as [|c l IH]; intros p r H; [done|]. cbn [partition] in H. destruct (Z.eqb_spec c sep) as [->|N].
  - simplify_eq. split; [done | apply not_elem_of_nil].
  - destruct (partition sep l) as [[p' r']|]; [|done]. cbn in H. simplify_eq. destruct (IH p' r eq_refl) as [-> H2].
    split; [done|]. apply not_elem_of_cons. split; [congruence | done].
Qed.

Lemma split_max_join sep n ps :
  ps <> [] -> Forall (fun p => sep ∉ p) ps -> (length ps <= S n)%nat -> split_max n sep (join sep ps) = ps.
Proof.
  revert n. induction ps as [|p ps IH]; intros n Hne H L; [done|]. apply Forall_cons in H as [H1 H2].
  destruct ps as [|q ps].
  - cbn [join]. destruct n; cbn [split_max]; [done|]. by rewrite partition_miss.
  - destruct n as [|n]; [cbn in L; lia|]. rewrite join_cons by done. cbn [split_max]. rewrite partition_hit by done.
    f_equal. apply IH; [done | done | cbn in *; lia].
Qed.

Lemma not_elem_of_join sep c ps : c <> sep -> Forall (fun p => c ∉ p) ps -> c ∉ join sep ps.
Proof.
  intros N H. induction H as [|p ps Hp Hps IH]; [apply not_elem_of_nil|]. destruct ps as [|q ps]; [done|].
  rewrite join_cons by done. rewrite not_elem_of_app, not_elem_of_cons. done.
Qed.

Lemma existsb_eqb_elem c l : existsb (Z.eqb c) l = bool_decide (c ∈ l).
Proof.
  induction l as [|d l IH]; [done|]. cbn [existsb]. rewrite IH. destruct (Z.eqb_spec c d) as [->|N]; cbn [orb].
  - symmetry. apply bool_decide_eq_true. by left.
  - apply bool_decide_ext. rewrite elem_of_cons. tauto.
Qed.

Lemma absent_check c l : existsb (Z.eqb c) l = false -> c ∉ l.
Proof. rewrite existsb_eqb_elem. apply bool_decide_eq_false. Qed.

(** ** Digits of a fixed width *)

Fixpoint fixed (b : Z) (n : nat) (x : Z) : list Z :=
  match n with O => [] | S n => fixed b n (x / b) ++ [x mod b] end.

Lemma length_fixed b n x : length (fixed b n x) = n.
Proof. revert x. induction n; intros; [done|]. cbn [fixed]. rewrite length_app, IHn. cbn. lia. Qed.

Lemma fixed_bound b n x : 0 < b -> Forall (fun d => 0 <= d < b) (fixed b n x).
Proof.
  intros Hb. revert x. induction n as [|n IH]; intros x; [constructor|]. cbn [fixed]. apply Forall_app. split; [apply IH|].
  rewrite Forall_singleton. by apply Z.mod_pos_bound.
Qed.

Lemma fixed_app b n m x : 0 < b -> fixed b (n + m) x = fixed b n (x / b ^ Z.of_nat m) ++ fixed b m x.
Proof.
  intros Hb. revert x. induction m as [|m IH]; intros x.
  - rewrite Nat.add_0_r. cbn [fixed]. rewrite Z.pow_0_r, Z.div_1_r. by rewrite app_nil_r.
  - rewrite Nat.add_succ_r. cbn [fixed]. rewrite IH, Z.div_div by (try apply Z.pow_pos_nonneg; lia).
    rewrite Nat2Z.inj_succ, Z.pow_succ_r by lia. by rewrite <- app_assoc.
Qed.

Lemma fixed_mod b n x : 0 < b -> fixed b n (x mod b ^ Z.of_nat n) = fixed b n x.
Proof.
  intros Hb. revert x. induction n as [|n IH]; intros x; [done|]. cbn [fixed]. rewrite Nat2Z.inj_succ, Z.pow_succ_r by lia.
  assert (P : 0 < b ^ Z.of_nat n) by (apply Z.pow_pos_nonneg; lia). rewrite Z.rem_mul_r by lia. f_equal.
  - rewrite <- (IH (x / b)). f_equal. rewrite (Z.mul_comm b), Z.div_add, (Z.div_small (x mod b)) by (try apply Z.mod_pos_bound; lia). lia.
  - f_equal. rewrite (Z.mul_comm b), Z.mod_add, Z.mod_mod by lia. done.
Qed.

Lemma fixed_zero b n : b <> 0 -> fixed b n 0 = replicate n 0.
Proof.
  intros. induction n as [|n IH]; [done|]. cbn [fixed]. rewrite Z.div_0_l, Z.mod_0_l, IH by lia. symmetry. apply replicate_S_end.
Qed.

(** The digits padded with zeros. *)
Lemma fixed_digits b n x : 2 <= b -> 0 <= x < b ^ Z.of_nat n -> (0 < n)%nat ->
  replicate (n - length (digits b x)) 0 ++ digits b x = fixed b n x.
Proof.
  intros Hb. unfold digits. generalize (digits_fuel_enough x). generalize (S (Z.to_nat (Z.log2 x))) as f. intros f Hf.
  revert n x Hf. induction f as [|f IH]; intros n x Hf Hx Hn.
  - specialize (Hf ltac:(lia)). change (2 ^ Z.of_nat 0) with 1 in Hf. assert (x = 0) as -> by lia. cbn [digits_fuel length].
    by rewrite app_nil_r, Nat.sub_0_r, fixed_zero by lia.
  - destruct n as [|n]; [lia|]. cbn [digits_fuel fixed]. destruct (Z.ltb_spec x b).
    + rewrite Z.div_small, Z.mod_small by lia. cbn [length]. rewrite Nat.sub_succ, Nat.sub_0_r.
      by rewrite fixed_zero by lia.
    + rewrite length_app. cbn [length]. rewrite app_assoc. f_equal. rewrite Nat2Z.inj_succ, Z.pow_succ_r in Hx by lia.
      destruct n as [|n]; [cbn in Hx; lia|]. rewrite <- (IH (S n) (x / b)).
      * do 2 f_equal. lia.
      * intros _. rewrite Nat2Z.inj_succ, Z.pow_succ_r in Hf by lia. specialize (Hf ltac:(lia)). apply Z.div_lt_upper_bound; nia.
      * split; [apply Z.div_pos | apply Z.div_lt_upper_bound]; lia.
      * lia.
Qed.

Lemma pad_left_fixed b n x : 2 <= b -> 0 <= x < b ^ Z.of_nat n -> (0 < n)%nat ->
  pad_left 48 n (to_base b x) = digit_char <$> fixed b n x.
Proof.
  intros. rewrite <- fixed_digits by done. unfold pad_left, to_base. rewrite fmap_app, length_fmap. f_equal.
  by rewrite fmap_replicate.
Qed.

(** [int(s, base)] of the text of a list of digits. *)
Lemma py_int_digits b ds : b = 10 \/ b = 16 -> ds <> [] -> Forall (fun d => 0 <= d < b) ds ->
  py_int b (digit_char <$> ds) = Ret (digits_val b 0 ds).
Proof.
  intros Hb Hne H. assert (C : Forall (fun d => 48 <= digit_char d <= 57 \/ 97 <= digit_char d <= 102) ds).
  { eapply Forall_impl; [exact H|]. intros d Hd. cbv beta in Hd. unfold digit_char. zcase; lia. }
  unfold py_int, py_int_strip. rewrite strip_id.
  2:{ apply Forall_fmap. eapply Forall_impl; [exact C|]. intros d Hd. cbv beta in Hd. unfold compose, is_space, between.
      generalize dependent (digit_char d). intros c Hc. zcase; simpl; lia. }
  pose proof (int_digits_val b 0 true ds ltac:(lia) Hne H) as E. destruct ds as [|d ds]; [done|]. rewrite fmap_cons in *.
  apply Forall_cons in C as [C1 C2]. rewrite (proj2 (Z.eqb_neq (digit_char d) 45)), (proj2 (Z.eqb_neq (digit_char d) 43)) by lia.
  unfold py_int_unsigned. replace (hex_prefix (digit_char d :: (digit_char <$> ds))) with false.
  - rewrite andb_false_r. by rewrite E.
  - symmetry. unfold hex_prefix. change (lit "0x") with [48; 120]. change (lit "0X") with [48; 88]. destruct ds as [|d2 ds].
    + cbn [fmap list_fmap starts_with]. by rewrite !andb_false_r.
    + rewrite fmap_cons. apply Forall_cons in C2 as [C2 _]. cbn [starts_with]. lia.
Qed.

Lemma digits_val_fixed b n x : 0 < b -> 0 <= x < b ^ Z.of_nat n -> digits_val b 0 (fixed b n x) = x.
Proof.
  intros Hb. revert x. induction n as [|n IH]; intros x Hx.
  - change (b ^ Z.of_nat 0) with 1 in Hx. cbn. lia.
  - rewrite Nat2Z.inj_succ, Z.pow_succ_r in Hx by lia. cbn [fixed]. rewrite digits_val_app, IH.
    + cbn [digits_val]. pose proof (Z.div_mod x b). lia.
    + split; [apply Z.div_pos | apply Z.div_lt_upper_bound]; lia.
Qed.

(** Digits taken [m] at a time. *)
Lemma fixed_group b m n x : 0 < b -> fixed b (n * m) x = concat (fixed b m <$> fixed (b ^ Z.of_nat m) n x).
Proof.
  intros Hb. revert x. induction n as [|n IH]; intros x; [done|]. replace (S n * m)%nat with (n * m + m)%nat by lia.
  rewrite fixed_app, IH by done. cbn [fixed]. rewrite fmap_app, concat_app. f_equal. cbn [fmap list_fmap concat].
  by rewrite app_nil_r, fixed_mod.
Qed.

Lemma digits_val_bound b acc l : 0 < b -> 0 <= acc -> Forall (fun d => 0 <= d < b) l ->
  acc * b ^ zlen l <= digits_val b acc l < (acc + 1) * b ^ zlen l.
Proof.
  intros Hb. revert acc. induction l as [|d l IH]; intros acc Ha H.
  - cbn [digits_val]. change (zlen []) with 0. lia.
  - apply Forall_cons in H as [Hd Hl]. cbn [digits_val]. rewrite zlen_cons. pose proof (zlen_nonneg l).
    rewrite Z.pow_add_r, Z.pow_1_r by lia. pose proof (Z.pow_pos_nonneg b (zlen l) Hb ltac:(lia)).
    specialize (IH (acc * b + d) ltac:(nia) Hl). nia.
Qed.

Lemma fmap_concat_list {A B} (f : A -> B) (ls : list (list A)) : @fmap list _ A B f (concat ls) = concat (@fmap list _ (list A) (list B) (@fmap list _ A B f) ls).
Proof. induction ls as [|l ls IH]; [done|]. cbn [concat]. rewrite fmap_app, IH. done. Qed.
