(* ===== verification/Hash.v ===== *)
(** Checksums the tools take from Python's [zlib] and [hashlib] and the
    kernel computes itself: CRC-32 (reflected, polynomial 0xEDB88320) and
    SHA-256 (FIPS 180-4), both executable. *)
From Stdlib Require Import ZArith Lia List.
From stdpp Require Import base list strings.
From S2P Require Import Prelude Text.
Open Scope Z_scope.

Definition u32 : Z := 4294967296.

(** * CRC-32 *)

Module Crc32.
(** One bit of the reflected division. *)
Definition step (v : Z) : Z :=
  Z.lxor (Z.shiftr v 1) (if Z.odd v then 3988292384 else 0).

(** kernel/src/partition.rs [crc32_byte]. *)
Definition crc32_byte (v b : Z) : Z := Nat.iter 8 step (Z.lxor v b).

(** kernel/src/partition.rs [crc32_update]. *)
Definition crc32_update (v : Z) (l : list Z) : Z := foldl crc32_byte v l.

(** [zlib.crc32(data)]. *)
Definition crc32 (l : list Z) : Z := Z.lxor 4294967295 (crc32_update 4294967295 l).
End Crc32.

(** * SHA-256 *)

Module Sha256.
Definition rotr (x n : Z) : Z :=
  Z.lor (Z.shiftr x n) (Z.land (Z.shiftl x (32 - n)) 4294967295).
Definition add32 (a b : Z) : Z := (a + b) mod u32.

Definition K : list Z :=
  [1116352408; 1899447441; 3049323471; 3921009573; 961987163; 1508970993; 2453635748; 2870763221;
   3624381080; 310598401; 607225278; 1426881987; 1925078388; 2162078206; 2614888103; 3248222580;
   3835390401; 4022224774; 264347078; 604807628; 770255983; 1249150122; 1555081692; 1996064986;
   2554220882; 2821834349; 2952996808; 3210313671; 3336571891; 3584528711; 113926993; 338241895;
   666307205; 773529912; 1294757372; 1396182291; 1695183700; 1986661051; 2177026350; 2456956037;
   2730485921; 2820302411; 3259730800; 3345764771; 3516065817; 3600352804; 4094571909; 275423344;
   430227734; 506948616; 659060556; 883997877; 958139571; 1322822218; 1537002063; 1747873779;
   1955562222; 2024104815; 2227730452; 2361852424; 2428436474; 2756734187; 3204031479; 3329325298].

Definition H0 : list Z :=
  [1779033703; 3144134277; 1013904242; 2773480762; 1359893119; 2600822924; 528734635; 1541459225].

(** Zero bytes after the 0x80 byte up to the length field. *)
Definition pad (l : list Z) : list Z :=
  let n := zlen l in
  l ++ 128 :: zeros ((55 - n) mod 64) ++ be_bytes 8 (8 * n mod 2 ^ 64).

Fixpoint words (l : list Z) : list Z :=
  match l with
  | a :: b :: c :: d :: l => (((a * 256 + b) * 256 + c) * 256 + d) :: words l
  | _ => []
  end.

(** The message schedule, newest word first. *)
Fixpoint expand (n : nat) (w : list Z) : list Z :=
  match n with
  | O => w
  | S n =>
    let w15 := nth 14 w 0 in
    let w2 := nth 1 w 0 in
    let s0 := Z.lxor (Z.lxor (rotr w15 7) (rotr w15 18)) (Z.shiftr w15 3) in
    let s1 := Z.lxor (Z.lxor (rotr w2 17) (rotr w2 19)) (Z.shiftr w2 10) in
    expand n (add32 (add32 (nth 15 w 0) s0) (add32 (nth 6 w 0) s1) :: w)
  end.

Definition round (s : list Z) (kw : Z * Z) : list Z :=
  match s with
  | [a; b; c; d; e; f; g; h] =>
    let s1 := Z.lxor (Z.lxor (rotr e 6) (rotr e 11)) (rotr e 25) in
    let ch := Z.lxor (Z.land e f) (Z.land (4294967295 - e) g) in
    let t1 := add32 (add32 h s1) (add32 ch (add32 kw.1 kw.2)) in
    let s0 := Z.lxor (Z.lxor (rotr a 2) (rotr a 13)) (rotr a 22) in
    let maj := Z.lxor (Z.lxor (Z.land a b) (Z.land a c)) (Z.land b c) in
    [add32 t1 (add32 s0 maj); a; b; c; add32 d t1; e; f; g]
  | _ => s
  end.

Definition compress (st : list Z) (block : list Z) : list Z :=
  let w := rev (expand 48 (rev (words block))) in
  zip_with add32 st (foldl round st (zip K w)).

Fixpoint blocks (fuel : nat) (st : list Z) (l : list Z) : list Z :=
  match fuel with
  | O => st
  | S f => match l with
           | [] => st
           | _ => blocks f (compress st (take 64 l)) (drop 64 l)
           end
  end.

(** [hashlib.sha256(data).digest()]. *)
Definition digest (l : list Z) : list Z :=
  let p := pad l in
  concat (be_bytes 4 <$> blocks (length p) H0 p).

(** [hashlib.sha256(data).hexdigest()]. *)
Definition hexdigest (l : list Z) : list Z := hex (digest l).
End Sha256.

(** Published test vectors. *)
Example crc32_check : Crc32.crc32 (lit "123456789") = 3421780262.
Proof. reflexivity. Qed.

Example sha256_abc :
  Sha256.hexdigest (lit "abc") =
  lit "ba7816bf8f01cfea414140de5dae2223b00361a396177a9cb410ff61f20015ad".
Proof. vm_compute. reflexivity. Qed.

Example sha256_two_blocks :
  Sha256.hexdigest (lit "abcdbcdecdefdefgefghfghighijhijkijkljklmklmnlmnomnopnopq") =
  lit "248d6a61d20638b8e5c026930c3e6039a33ce45964ff2167f6ecedd419db06c1".
Proof. vm_compute. reflexivity. Qed.

(** * Lemmas *)

Lemma lxor_bound n a b : 0 <= n -> 0 <= a < 2 ^ n -> 0 <= b < 2 ^ n -> 0 <= Z.lxor a b < 2 ^ n.
Proof.
  intros Hn Ha Hb. assert (0 <= Z.lxor a b) by (apply Z.lxor_nonneg; lia).
  split; [done|].
  destruct (decide (Z.lxor a b = 0)) as [->|]; [apply Z.pow_pos_nonneg; lia|].
  apply Z.log2_lt_pow2; [lia|].
  eapply Z.le_lt_trans; [apply Z.log2_lxor; lia|].
  apply Z.max_lub_lt.
  - destruct (decide (a = 0)) as [->|]; [|apply Z.log2_lt_pow2; lia].
    destruct (decide (n = 0)) as [->|]; [|simpl; lia]. change (2 ^ 0) with 1 in *.
    assert (b = 0) as -> by lia. done.
  - destruct (decide (b = 0)) as [->|]; [|apply Z.log2_lt_pow2; lia].
    destruct (decide (n = 0)) as [->|]; [|simpl; lia]. change (2 ^ 0) with 1 in *.
    assert (a = 0) as -> by lia. done.
Qed.

Lemma crc_step_bound v : 0 <= v < 2 ^ 32 -> 0 <= Crc32.step v < 2 ^ 32.
Proof.
  intros. unfold Crc32.step. apply lxor_bound; [lia| |].
  - rewrite Z.shiftr_div_pow2 by lia. change (2 ^ 1) with 2.
    split; [apply Z.div_pos; lia | apply Z.div_lt_upper_bound; lia].
  - destruct (Z.odd v); lia.
Qed.

Lemma crc_byte_bound v b : 0 <= v < 2 ^ 32 -> is_byte b -> 0 <= Crc32.crc32_byte v b < 2 ^ 32.
Proof.
  intros Hv Hb. unfold Crc32.crc32_byte. apply Nat.iter_invariant; [apply crc_step_bound|].
  unfold is_byte in Hb. apply lxor_bound; lia.
Qed.

Lemma crc_update_bound v l :
  0 <= v < 2 ^ 32 -> Forall is_byte l -> 0 <= Crc32.crc32_update v l < 2 ^ 32.
Proof.
  intros Hv Hl. revert v Hv. unfold Crc32.crc32_update.
  induction Hl; intros v Hv; simpl; [done|]. auto using crc_byte_bound.
Qed.

Lemma crc32_bound l : Forall is_byte l -> 0 <= Crc32.crc32 l < 2 ^ 32.
Proof.
  intros. unfold Crc32.crc32. apply lxor_bound; [lia | lia |].
  apply crc_update_bound; [lia | done].
Qed.

Lemma crc_update_app v l1 l2 :
  Crc32.crc32_update v (l1 ++ l2) = Crc32.crc32_update (Crc32.crc32_update v l1) l2.
Proof. apply foldl_app. Qed.

Lemma round_length s kw : length s = 8%nat -> length (Sha256.round s kw) = 8%nat.
Proof. intros. do 8 (destruct s as [|? s]; [done|]). by destruct s. Qed.

Lemma compress_length st b : length st = 8%nat -> length (Sha256.compress st b) = 8%nat.
Proof.
  intros H. unfold Sha256.compress. rewrite length_zip_with.
  assert (Hr : forall l s, length s = 8%nat -> length (foldl Sha256.round s l) = 8%nat)
    by (induction l; intros s Hs; simpl; auto using round_length).
  rewrite Hr by done. lia.
Qed.

Lemma blocks_length fuel st l : length st = 8%nat -> length (Sha256.blocks fuel st l) = 8%nat.
Proof.
  revert st l. induction fuel; intros st l H; simpl; [done|].
  destruct l; [done|]. apply IHfuel. by apply compress_length.
Qed.

Lemma concat_be4_length l : length (concat (be_bytes 4 <$> l)) = (4 * length l)%nat.
Proof.
  induction l as [|x l IH]; [done|]. rewrite fmap_cons, concat_cons, length_app, IH.
  unfold be_bytes. rewrite length_rev, length_le_bytes. simpl. lia.
Qed.

(** A digest is 32 bytes. *)
Lemma digest_length l : zlen (Sha256.digest l) = 32.
Proof.
  unfold zlen, Sha256.digest. rewrite concat_be4_length, blocks_length; done.
Qed.

Lemma digest_bytes l : Forall is_byte (Sha256.digest l).
Proof.
  unfold Sha256.digest. apply Forall_concat. rewrite Forall_fmap.
  apply Forall_true. intros x. apply be_bytes_bytes.
Qed.
