(* ===== verification/Arrays.v ===== *)
(** Arrays: lists of integers used as arrays, loops over a range of indices,
    and sums.  The components that fill tables by index share these lemmas. *)
From Stdlib Require Import ZArith Lia List Permutation.
From stdpp Require Import base list gmap strings.
From S2P Require Import Prelude Text.
Open Scope Z_scope.

(** An element of an array, 0 out of range. *)
Definition zat (l : list Z) (i : Z) : Z := default 0 (l !! Z.to_nat i).
Definition zset (l : list Z) (i v : Z) : list Z := <[Z.to_nat i := v]> l.
Definition zsum (l : list Z) : Z := foldr Z.add 0 l.

(** The value of a list of digits to base two, digits of any size, the first
    the most significant. *)
Definition horner (l : list Z) : Z := foldl (fun a b => 2 * a + b) 0 l.

(** * Reading and writing *)

Lemma pyget_zat l i : 0 <= i < zlen l -> pyget l i = Ret (zat l i).
Proof.
  intros. apply pyget_ret; [lia|]. unfold zat.
  destruct (lookup_lt_is_Some_2 l (Z.to_nat i)) as [x ->]; [unfold zlen in *; lia | done].
Qed.

Lemma pyset_zset l i v : 0 <= i < zlen l -> pyset l i v = Ret (zset l i v).
Proof. intros. unfold pyset. zcase; cbn [andb]; (lia || done). Qed.

Lemma zlen_zset l i v : zlen (zset l i v) = zlen l.
Proof. unfold zlen, zset. by rewrite length_insert. Qed.

Lemma zat_zset l i j v : 0 <= i < zlen l -> 0 <= j -> zat (zset l i v) j = if j =? i then v else zat l j.
Proof.
  intros Hi Hj. unfold zat, zset. unfold zlen in Hi. destruct (Z.eqb_spec j i) as [->|N].
  - by rewrite list_lookup_insert_eq by lia.
  - by rewrite list_lookup_insert_ne by lia.
Qed.

Lemma zat_nil i : zat [] i = 0.
Proof. done. Qed.
Lemma zat_out l i : zlen l <= i -> zat l i = 0.
Proof. intros. unfold zat, zlen in *. by rewrite lookup_ge_None_2 by lia. Qed.
Lemma zat_app_l l k i : 0 <= i < zlen l -> zat (l ++ k) i = zat l i.
Proof. intros. unfold zat, zlen in *. by rewrite lookup_app_l by lia. Qed.
Lemma zat_app_r l k i : zlen l <= i -> zat (l ++ k) i = zat k (i - zlen l).
Proof.
  intros. unfold zat, zlen in *. rewrite lookup_app_r by lia. do 2 f_equal. lia.
Qed.
Lemma zat_replicate n v i : 0 <= i < Z.of_nat n -> zat (replicate n v) i = v.
Proof. intros. unfold zat. by rewrite lookup_replicate_2 by lia. Qed.
Lemma zat_cons a l i : 0 < i -> zat (a :: l) i = zat l (i - 1).
Proof. intros. unfold zat. replace (Z.to_nat i) with (S (Z.to_nat (i - 1))) by lia. done. Qed.
Lemma zat_cons0 a l : zat (a :: l) 0 = a.
Proof. done. Qed.

Lemma zat_firstn l k i : 0 <= i < k -> zat (take (Z.to_nat k) l) i = zat l i.
Proof. intros. unfold zat. by rewrite lookup_take_lt by lia. Qed.

Lemma zat_lookup l i x : 0 <= i -> l !! Z.to_nat i = Some x -> zat l i = x.
Proof. intros ? E. unfold zat. by rewrite E. Qed.
Lemma lookup_zat l i : 0 <= i < zlen l -> l !! Z.to_nat i = Some (zat l i).
Proof.
  intros. unfold zat, zlen in *. by destruct (lookup_lt_is_Some_2 l (Z.to_nat i)) as [x ->]; [lia|].
Qed.
Lemma zat_elem l i : 0 <= i < zlen l -> zat l i ∈ l.
Proof. intros. eapply list_elem_of_lookup_2. by apply lookup_zat. Qed.
Lemma elem_zat l x : x ∈ l -> exists i, 0 <= i < zlen l /\ zat l i = x.
Proof.
  intros [k E]%list_elem_of_lookup_1. pose proof (lookup_lt_Some _ _ _ E). exists (Z.of_nat k).
  unfold zlen, zat. rewrite Nat2Z.id, E. split; [lia | done].
Qed.
Lemma zat_ext l k : zlen l = zlen k -> (forall i, 0 <= i < zlen l -> zat l i = zat k i) -> l = k.
Proof.
  intros L H. apply list_eq. intros i. destruct (decide (i < length l)%nat) as [I|I].
  - assert (R : 0 <= Z.of_nat i < zlen l) by (unfold zlen; lia). specialize (H _ R).
    pose proof (lookup_zat l _ R) as E1. pose proof (lookup_zat k (Z.of_nat i) ltac:(lia)) as E2.
    rewrite Nat2Z.id in E1, E2. by rewrite E1, E2, H.
  - rewrite !lookup_ge_None_2; [done | unfold zlen in L; lia | lia].
Qed.
Lemma zset_same l i : 0 <= i < zlen l -> zset l i (zat l i) = l.
Proof. intros H. apply list_insert_id, lookup_zat. done. Qed.
Lemma zset_app_l l k i v : 0 <= i < zlen l -> zset (l ++ k) i v = zset l i v ++ k.
Proof. intros. unfold zset, zlen in *. by rewrite insert_app_l by lia. Qed.

(** Runs the read or write a computation starts with. *)
Ltac array_step :=
  lazymatch goal with
  | |- context [mbind _ (pyget ?l ?i) = _] => rewrite (pyget_zat l i) by (rewrite ?zlen_zset; lia); rewrite py_ret_bind
  | |- context [mbind _ (pyset ?l ?i ?v) = _] => rewrite (pyset_zset l i v) by (rewrite ?zlen_zset; lia); rewrite py_ret_bind
  end.

Lemma last_elem {A} (a : A) l d : List.last (a :: l) d ∈ a :: l.
Proof.
  rewrite list_elem_of_In. destruct (@List.exists_last _ (a :: l) ltac:(done)) as (l' & x & E). rewrite E, List.last_last. apply in_elt.
Qed.

(** * Loops over a range *)

Lemma foldM_range {S} (P : Z -> S -> Prop) (f : S -> Z -> py S) a b s : a <= b -> P a s ->
  (forall i s, a <= i < b -> P i s -> exists s', f s i = Ret s' /\ P (i + 1) s') ->
  exists s', foldM f s (pyrange a b) = Ret s' /\ P b s'.
Proof.
  intros Hab Hs Hf. remember (Z.to_nat (b - a)) as n eqn:E. revert a s Hab Hs Hf E. induction n as [|n IH]; intros a s Hab Hs Hf E.
  - rewrite pyrange_nil by lia. exists s. assert (a = b) as -> by lia. done.
  - rewrite pyrange_cons by lia. destruct (Hf a s ltac:(lia) Hs) as (s1 & E1 & P1). cbn [foldM]. rewrite E1, py_ret_bind.
    apply IH; [lia | done | | lia]. intros i s2 Hi. apply Hf. lia.
Qed.

Lemma rev_range_step a b : a < b -> rev (pyrange a b) = (b - 1) :: rev (pyrange a (b - 1)).
Proof.
  intros. rewrite (pyrange_app a (b - 1) b), rev_app_distr by lia. rewrite (pyrange_cons (b - 1)), pyrange_nil by lia. done.
Qed.

Lemma foldM_range_down {S} (P : Z -> S -> Prop) (f : S -> Z -> py S) a b s : a <= b -> P b s ->
  (forall i s, a <= i < b -> P (i + 1) s -> exists s', f s i = Ret s' /\ P i s') ->
  exists s', foldM f s (rev (pyrange a b)) = Ret s' /\ P a s'.
Proof.
  intros Hab Hs Hf. remember (Z.to_nat (b - a)) as n eqn:E. revert b s Hab Hs Hf E. induction n as [|n IH]; intros b s Hab Hs Hf E.
  - rewrite pyrange_nil by lia. exists s. assert (a = b) as -> by lia. done.
  - rewrite rev_range_step by lia. destruct (Hf (b - 1) s ltac:(lia)) as (s1 & E1 & P1); [by replace (b - 1 + 1) with b by lia|].
    cbn [foldM]. rewrite E1, py_ret_bind. apply IH; [lia | done | | lia]. intros i s2 Hi. apply Hf. lia.
Qed.

Lemma foldl_range {S} (P : Z -> S -> Prop) (f : S -> Z -> S) a b s : a <= b -> P a s ->
  (forall i s, a <= i < b -> P i s -> P (i + 1) (f s i)) -> P b (foldl f s (pyrange a b)).
Proof.
  intros Hab Hs Hf. remember (Z.to_nat (b - a)) as n eqn:E. revert a s Hab Hs Hf E. induction n as [|n IH]; intros a s Hab Hs Hf E.
  - rewrite pyrange_nil by lia. assert (a = b) as -> by lia. done.
  - rewrite pyrange_cons by lia. cbn [foldl]. apply IH; [lia | apply Hf; [lia | done] | | lia]. intros i s2 Hi. apply Hf. lia.
Qed.

Lemma foldl_pointwise {A B} (f g : A -> B -> A) a l : (forall a b, f a b = g a b) -> foldl f a l = foldl g a l.
Proof. intros H. revert a. induction l as [|b l IH]; intros a; [done|]. cbn [foldl]. by rewrite H, IH. Qed.

(** * Sums *)

Lemma zsum_cons a l : zsum (a :: l) = a + zsum l.
Proof. done. Qed.
Lemma zsum_app l k : zsum (l ++ k) = zsum l + zsum k.
Proof. induction l as [|a l IH]; [done|]. cbn [app]. rewrite !zsum_cons, IH. lia. Qed.
Lemma zsum_perm l k : Permutation l k -> zsum l = zsum k.
Proof. induction 1; rewrite ?zsum_cons in *; lia. Qed.
#[export] Instance zsum_proper : Proper (Permutation ==> eq) zsum.
Proof. intros l k P. by apply zsum_perm. Qed.
Lemma zsum_nonneg l : Forall (fun x => 0 <= x) l -> 0 <= zsum l.
Proof. induction 1 as [|x l Hx _ IH]; [done|]. rewrite zsum_cons. lia. Qed.
Lemma zsum_zset l i v : 0 <= i < zlen l -> zsum (zset l i v) = zsum l - zat l i + v.
Proof.
  intros H. pose proof (lookup_zat l i H) as E. unfold zset. apply take_drop_middle in E as E'.
  rewrite <- E' at 2. rewrite insert_take_drop by (unfold zlen in H; lia). rewrite !zsum_app, !zsum_cons. lia.
Qed.
Lemma zsum_ge_elem l i : Forall (fun x => 0 <= x) l -> 0 <= i < zlen l -> zat l i <= zsum l.
Proof.
  intros F H. pose proof (lookup_zat l i H) as E. apply take_drop_middle in E. rewrite <- E at 2. rewrite zsum_app, zsum_cons.
  pose proof (zsum_nonneg _ (Forall_take _ (Z.to_nat i) _ F)). pose proof (zsum_nonneg _ (Forall_drop _ (S (Z.to_nat i)) _ F)). lia.
Qed.
Lemma zat_nonneg l i : Forall (fun x => 0 <= x) l -> 0 <= zat l i.
Proof.
  intros F. unfold zat. destruct (l !! Z.to_nat i) eqn:E; [|done]. cbn. by eapply Forall_lookup_1 in F.
Qed.
Lemma Forall_zset (P : Z -> Prop) l i v : Forall P l -> P v -> Forall P (zset l i v).
Proof. intros. by apply Forall_insert. Qed.

(** * Base two *)

Lemma horner_snoc l b : horner (l ++ [b]) = 2 * horner l + b.
Proof. unfold horner. by rewrite foldl_app. Qed.
Lemma horner_acc a l : foldl (fun a b => 2 * a + b) a l = a * 2 ^ zlen l + horner l.
Proof.
  induction l as [|b l IH] using rev_ind.
  { change (zlen (@nil Z)) with 0. change (horner []) with 0. cbn [foldl]. lia. }
  rewrite foldl_app, horner_snoc. cbn [foldl]. rewrite IH, zlen_app.
  change (zlen [b]) with 1. rewrite Z.pow_add_r by (pose proof (zlen_nonneg l); lia). lia.
Qed.
Lemma horner_app l k : horner (l ++ k) = horner l * 2 ^ zlen k + horner k.
Proof. unfold horner at 1. by rewrite foldl_app, horner_acc. Qed.
Lemma horner_cons b l : horner (b :: l) = b * 2 ^ zlen l + horner l.
Proof. change (b :: l) with ([b] ++ l). rewrite horner_app. unfold horner at 1. cbn [foldl]. lia. Qed.
Lemma horner_nonneg l : Forall (fun x => 0 <= x) l -> 0 <= horner l.
Proof.
  induction 1 as [|b l Hb _ IH]; [done|]. rewrite horner_cons. pose proof (Z.pow_pos_nonneg 2 (zlen l) ltac:(lia) (zlen_nonneg l)). nia.
Qed.
Lemma horner_zset l i v : 0 <= i < zlen l -> horner (zset l i v) = horner l + (v - zat l i) * 2 ^ (zlen l - 1 - i).
Proof.
  intros H. pose proof (lookup_zat l i H) as E. apply take_drop_middle in E. rewrite <- E at 2. unfold zset.
  rewrite insert_take_drop by (unfold zlen in H; lia). rewrite !horner_app, !horner_cons, !zlen_cons.
  assert (L : zlen (drop (S (Z.to_nat i)) l) = zlen l - 1 - i) by (unfold zlen in *; rewrite length_drop; lia). rewrite L. lia.
Qed.

(** The first [i] digits, and one more. *)
Lemma horner_take l i : 0 <= i < zlen l ->
  horner (take (Z.to_nat (i + 1)) l) = 2 * horner (take (Z.to_nat i) l) + zat l i.
Proof.
  intros H. pose proof (lookup_zat l i H) as E. replace (Z.to_nat (i + 1)) with (S (Z.to_nat i)) by lia.
  rewrite (take_S_r _ _ _ E). apply horner_snoc.
Qed.
Lemma horner_take_all l i : zlen l <= i -> horner (take (Z.to_nat i) l) = horner l.
Proof. intros. rewrite take_ge by (unfold zlen in *; lia). done. Qed.

(** [l[i] += d]. *)
Definition addz (l : list Z) (i d : Z) : list Z := zset l i (zat l i + d).
Lemma zlen_addz l i d : zlen (addz l i d) = zlen l.
Proof. apply zlen_zset. Qed.
Lemma zat_addz l i d j : 0 <= i < zlen l -> 0 <= j -> zat (addz l i d) j = zat l j + (if j =? i then d else 0).
Proof. intros. unfold addz. rewrite zat_zset by done. destruct (Z.eqb_spec j i) as [->|]; lia. Qed.
Lemma zsum_addz l i d : 0 <= i < zlen l -> zsum (addz l i d) = zsum l + d.
Proof. intros. unfold addz. rewrite zsum_zset by done. lia. Qed.
Lemma horner_addz l i d : 0 <= i < zlen l -> horner (addz l i d) = horner l + d * 2 ^ (zlen l - 1 - i).
Proof. intros. unfold addz. rewrite horner_zset by done. f_equal. f_equal. lia. Qed.
Lemma nonneg_zat l : (forall i, 0 <= i < zlen l -> 0 <= zat l i) -> Forall (fun x => 0 <= x) l.
Proof. intros H. apply Forall_forall. intros x (i & Hi & <-)%elem_zat. auto. Qed.
