(* ===== verification/Machine.v ===== *)
(** Machine: what the functions of the kernel return, and arithmetic and arrays
    with their checks.

    The kernel is built with overflow checks and aborts on a panic, so besides a
    result and an error there is [Panic]; [Unfinished] is a loop cut short by
    the fuel of the model. *)
From Stdlib Require Import ZArith Lia List.
From stdpp Require Import base list gmap strings.
From S2P Require Import Prelude Text Arrays.
Open Scope Z_scope.

Inductive outcome (E A : Type) : Type :=
| Ok (a : A)
| Err (e : E)
| Panic
| Unfinished.
Arguments Ok {E A} a.
Arguments Err {E A} e.
Arguments Panic {E A}.
Arguments Unfinished {E A}.

#[export] Instance outcome_bind {E} : MBind (outcome E) := fun A B f m =>
  match m with Ok a => f a | Err e => Err e | Panic => Panic | Unfinished => Unfinished end.

Fixpoint foldK {E S A} (f : S -> A -> outcome E S) (s : S) (l : list A) : outcome E S :=
  match l with
  | [] => Ok s
  | a :: l => s' ← f s a; foldK f s' l
  end.

Definition ok_or {E A} (e : E) (o : option A) : outcome E A :=
  match o with Some a => Ok a | None => Err e end.

Definition map_err {E F A} (e : F) (o : outcome E A) : outcome F A :=
  match o with Ok a => Ok a | Err _ => Err e | Panic => Panic | Unfinished => Unfinished end.

(** Checked arithmetic at a width, and truncation. *)
Definition checked {E} (lo hi x : Z) : outcome E Z := if (lo <=? x) && (x <=? hi) then Ok x else Panic.
Definition u16 {E} : Z -> outcome E Z := checked 0 65535.
Definition u32 {E} : Z -> outcome E Z := checked 0 4294967295.
Definition i32 {E} : Z -> outcome E Z := checked (-2147483648) 2147483647.
Definition i16 {E} : Z -> outcome E Z := checked (-32768) 32767.
Definition usize {E} : Z -> outcome E Z := checked 0 18446744073709551615.
Definition as_i16 (x : Z) : Z := (x + 32768) mod 65536 - 32768.
Definition as_i32 (x : Z) : Z := (x + 2147483648) mod 4294967296 - 2147483648.

(** [l[i]] and [l[i] = x] with the bounds check. *)
Definition index {E A} (l : list A) (i : Z) : outcome E A :=
  if i <? 0 then Panic else match l !! Z.to_nat i with Some a => Ok a | None => Panic end.
Definition store {E A} (l : list A) (i : Z) (x : A) : outcome E (list A) :=
  if (0 <=? i) && (i <? zlen l) then Ok (<[Z.to_nat i := x]> l) else Panic.

(** [&l[a..b]] and [l[a..b].copy_from_slice(src)]. *)
Definition slice {E A} (l : list A) (a b : Z) : outcome E (list A) :=
  if (0 <=? a) && (a <=? b) && (b <=? zlen l) then Ok (pyslice l a b) else Panic.
Definition copy_into {E A} (l : list A) (a b : Z) (src : list A) : outcome E (list A) :=
  if (0 <=? a) && (a <=? b) && (b <=? zlen l) && (b - a =? zlen src) then Ok (slice_assign l a b src) else Panic.

Lemma ok_bind {E A B} (a : A) (f : A -> outcome E B) : Ok a ≫= f = f a.
Proof. done. Qed.
Lemma checked_ok {E} lo hi x : lo <= x <= hi -> checked (E := E) lo hi x = Ok x.
Proof. intros [H1 H2]. unfold checked. by rewrite (proj2 (Z.leb_le _ _) H1), (proj2 (Z.leb_le _ _) H2). Qed.
Lemma index_ok {E} (l : list Z) i : 0 <= i < zlen l -> index (E := E) l i = Ok (zat l i).
Proof. intros H. unfold index. rewrite (proj2 (Z.ltb_ge i 0)), lookup_zat by lia. done. Qed.
Lemma store_ok {E} (l : list Z) i x : 0 <= i < zlen l -> store (E := E) l i x = Ok (zset l i x).
Proof. intros [H1 H2]. unfold store. by rewrite (proj2 (Z.leb_le _ _) H1), (proj2 (Z.ltb_lt _ _) H2). Qed.
Lemma slice_ok {E A} (l : list A) a b : 0 <= a <= b -> b <= zlen l -> slice (E := E) l a b = Ok (pyslice l a b).
Proof. intros [H1 H2] H3. unfold slice. by rewrite (proj2 (Z.leb_le _ _) H1), (proj2 (Z.leb_le _ _) H2), (proj2 (Z.leb_le _ _) H3). Qed.
Lemma copy_into_ok {E A} (l : list A) a b src : 0 <= a <= b -> b <= zlen l -> b - a = zlen src -> copy_into (E := E) l a b src = Ok (slice_assign l a b src).
Proof. intros [H1 H2] H3 H4. unfold copy_into. by rewrite (proj2 (Z.leb_le _ _) H1), (proj2 (Z.leb_le _ _) H2), (proj2 (Z.leb_le _ _) H3), (proj2 (Z.eqb_eq _ _) H4). Qed.
Lemma foldK_app {E S A} (f : S -> A -> outcome E S) s l1 l2 : foldK f s (l1 ++ l2) = (s' ← foldK f s l1; foldK f s' l2).
Proof. revert s. induction l1 as [|a l1 IH]; intros s; [done|]. cbn [app foldK]. destruct (f s a); [|done..]. apply IH. Qed.

(** * Runs without a panic *)

(** A result that satisfies [P], or an error. *)
Definition safe {E A} (P : A -> Prop) (o : outcome E A) : Prop :=
  match o with Ok a => P a | Err _ => True | Panic | Unfinished => False end.

Lemma safe_bind {E A B} (P : A -> Prop) (Q : B -> Prop) (o : outcome E A) f : safe P o -> (forall a, P a -> safe Q (f a)) -> safe Q (o ≫= f).
Proof. destruct o; cbn; auto. Qed.
Lemma safe_impl {E A} (P Q : A -> Prop) (o : outcome E A) : safe P o -> (forall a, P a -> Q a) -> safe Q o.
Proof. destruct o; cbn; auto. Qed.
Lemma safe_fold {E S A} (P : S -> Prop) (f : S -> A -> outcome E S) l : (forall s a, a ∈ l -> P s -> safe P (f s a)) -> forall s, P s -> safe P (foldK f s l).
Proof.
  induction l as [|a l IH]; intros H s HP; [done|]. cbn [foldK]. apply (safe_bind P); [apply H; [constructor | done]|]. intros s' HP'. apply IH; [|done]. intros s2 b Hb. apply H. by constructor.
Qed.
Lemma safe_ok {E A} (P : A -> Prop) (o : outcome E A) a : o = Ok a -> safe P o -> P a.
Proof. by intros ->. Qed.

(** A loop over a range, with what holds before each round. *)
Lemma foldK_range {E S} (P : Z -> S -> Prop) (f : S -> Z -> outcome E S) a b s : a <= b -> P a s ->
  (forall i s, a <= i < b -> P i s -> exists s', f s i = Ok s' /\ P (i + 1) s') ->
  exists s', foldK f s (pyrange a b) = Ok s' /\ P b s'.
Proof.
  intros Hab Hs Hf. remember (Z.to_nat (b - a)) as n eqn:En. revert a s Hab Hs Hf En. induction n as [|n IH]; intros a s Hab Hs Hf En.
  - rewrite pyrange_nil by lia. exists s. assert (a = b) as -> by lia. done.
  - rewrite pyrange_cons by lia. destruct (Hf a s ltac:(lia) Hs) as (s1 & E1 & P1). cbn [foldK]. rewrite E1, ok_bind.
    apply IH; [lia | done | | lia]. intros i s2 Hi. apply Hf. lia.
Qed.
Lemma safe_range {E S} (P : Z -> S -> Prop) (f : S -> Z -> outcome E S) a b s : a <= b -> P a s ->
  (forall i s, a <= i < b -> P i s -> safe (P (i + 1)) (f s i)) -> safe (P b) (foldK f s (pyrange a b)).
Proof.
  intros Hab Hs Hf. remember (Z.to_nat (b - a)) as n eqn:En. revert a s Hab Hs Hf En. induction n as [|n IH]; intros a s Hab Hs Hf En.
  - rewrite pyrange_nil by lia. assert (a = b) as -> by lia. done.
  - rewrite pyrange_cons by lia. cbn [foldK]. apply (safe_bind (P (a + 1))); [apply Hf; [lia | done]|]. intros s' P'. apply IH; [lia | done | | lia]. intros i s2 Hi. apply Hf. lia.
Qed.
