(* ===== verification/Huff.v ===== *)
(** Huff: the Huffman codes of JPEG files.

    [Tool] is the table code of tools/make-progressive.py: the decoder it
    builds for a baseline file ([build_decoder]), the code it chooses for the
    symbols of a scan ([optimal_table]) and the table it writes them with
    ([code_table]).  [Kernel] is [Huffman::build] of kernel/src/jpeg.rs with
    its eight-bit lookahead.  The theorems: the code chosen is complete up to
    one reserved word, no longer than sixteen bits, has a word for every
    symbol that occurs, and the kernel's table decodes each of its words. *)
From Stdlib Require Import ZArith Lia List Permutation.
From stdpp Require Import base list gmap strings.
From S2P Require Import Prelude Text Arrays.
Open Scope Z_scope.

(** * tools/make-progressive.py *)

Module Tool.

(** The loop both tables are built with: [word symbol length code] is added
    for each symbol, [code] and [index] are the loop's counters. *)
Definition next_word {T} (word : Z -> Z -> Z -> T -> T) (values : list Z) (length : Z)
    (st : T * Z * Z) (_ : Z) : py (T * Z * Z) :=
  let '(table, code, index) := st in
  value ← pyget values index;
  Ret (word value length code table, code + 1, index + 1).
Definition next_length {T} (word : Z -> Z -> Z -> T -> T) (bits values : list Z)
    (st : T * Z * Z) (length : Z) : py (T * Z * Z) :=
  n ← pyget bits (length - 1);
  '(table, code, index) ← foldM (next_word word values length) st (pyrange 0 n);
  Ret (table, Z.shiftl code 1, index).

(** [build_decoder(bits, values)]: from length and code to the symbol. *)
Definition build_decoder (bits values : list Z) : py (gmap (Z * Z) Z) :=
  '(table, _, _) ← foldM (next_length (fun value length code => insert (length, code) value) bits values)
    (∅, 0, 0) (pyrange 1 17);
  Ret table.

(** [code_table(bits, values)]: from the symbol to code and length. *)
Definition code_table (bits values : list Z) : py (gmap Z (Z * Z)) :=
  '(codes, _, _) ← foldM (next_length (fun value length code => insert value (code, length)) bits values)
    (∅, 0, 0) (pyrange 1 17);
  Ret codes.

(** The loops that look for the rarest entry, the last of equals, other than
    [skip] (-1 for the first of the two loops, which skips none). *)
Definition least_step (freq : list Z) (skip : Z) (cv : Z * Z) (i : Z) : py (Z * Z) :=
  let '(c, v) := cv in
  f ← pyget freq i;
  Ret (if negb (f =? 0) && (f <=? v) && negb (i =? skip) then (i, f) else (c, v)).
Definition least (freq : list Z) (skip : Z) : py Z :=
  '(c, _) ← foldM (least_step freq skip) (-1, 10 ^ 18) (pyrange 0 257);
  Ret c.

(** [codesize[c] += 1] for [c] and what it leads to in [others]; also the
    last entry of the chain. *)
Fixpoint lengthen (fuel : nat) (others codesize : list Z) (c : Z) : py (list Z * Z) :=
  match fuel with
  | O => NoFuel
  | S fuel =>
      n ← pyget codesize c;
      codesize ← pyset codesize c (n + 1);
      o ← pyget others c;
      if 0 <=? o then lengthen fuel others codesize o else Ret (codesize, c)
  end.

Fixpoint merge (fuel : nat) (freq codesize others : list Z) : py (list Z) :=
  match fuel with
  | O => NoFuel
  | S fuel =>
      c1 ← least freq (-1);
      c2 ← least freq c1;
      if c2 <? 0 then Ret codesize
      else
        f1 ← pyget freq c1;
        f2 ← pyget freq c2;
        freq ← pyset freq c1 (f1 + f2);
        freq ← pyset freq c2 0;
        '(codesize, last) ← lengthen 257 others codesize c1;
        others ← pyset others last c2;
        '(codesize, _) ← lengthen 257 others codesize c2;
        merge fuel freq codesize others
  end.

Definition count_size (codesize bits : list Z) (i : Z) : py (list Z) :=
  size ← pyget codesize i;
  if size =? 0 then Ret bits
  else n ← pyget bits size; pyset bits size (n + 1).

(** [while bits[j] == 0: j -= 1]. *)
Fixpoint nonempty_below (fuel : nat) (bits : list Z) (j : Z) : py Z :=
  match fuel with
  | O => NoFuel
  | S fuel => n ← pyget bits j; if n =? 0 then nonempty_below fuel bits (j - 1) else Ret j
  end.

Definition add_at (bits : list Z) (i d : Z) : py (list Z) :=
  n ← pyget bits i; pyset bits i (n + d).

(** [while bits[i] > 0]: two words of length [i] go, one of length [i - 1] and
    two in place of a shorter one come. *)
Fixpoint shorten (fuel : nat) (i : Z) (bits : list Z) : py (list Z) :=
  match fuel with
  | O => NoFuel
  | S fuel =>
      n ← pyget bits i;
      if 0 <? n then
        j ← nonempty_below 67 bits (i - 2);
        bits ← add_at bits i (-2);
        bits ← add_at bits (i - 1) 1;
        bits ← add_at bits (j + 1) 2;
        bits ← add_at bits j (-1);
        shorten fuel i bits
      else Ret bits
  end.

Definition sized (codesize : list Z) (values : list Z) (size_sym : Z * Z) : py (list Z) :=
  let '(size, sym) := size_sym in
  s ← pyget codesize sym;
  Ret (if s =? size then values ++ [sym] else values).

Definition optimal_table (freq : list Z) : py (list Z * list Z) :=
  let freq := freq ++ [1] in
  codesize ← merge 258 freq (replicate 257 0) (replicate 257 (-1));
  bits ← foldM (count_size codesize) (replicate 33 0) (pyrange 0 257);
  bits ← foldM (fun bits i => shorten 258 i bits) bits (rev (pyrange 17 33));
  i ← nonempty_below 67 bits 16;
  bits ← add_at bits i (-1);
  values ← foldM (sized codesize) []
    (concat ((fun size => (fun sym => (size, sym)) <$> pyrange 0 256) <$> pyrange 1 33));
  Ret (pyslice bits 1 17, values).

End Tool.

(** * kernel/src/jpeg.rs *)

Module Kernel.

Record huffman : Type := Huffman {
  valid : bool;
  maxcode : list Z;
  valptr : list Z;
  mincode : list Z;
  values : list Z;
  lookahead : list Z
}.

Definition EMPTY : huffman :=
  Huffman false (replicate 18 (-1)) (replicate 17 0) (replicate 17 0) (replicate 256 0) (replicate 256 0).

(** The lookahead entries of the word [value] of [length] bits. *)
Definition fill_word (length symbol value : Z) (lookahead : list Z) : list Z :=
  let base := Z.shiftl value (8 - length) in
  foldl (fun lookahead fill =>
    if base + fill <? 256 then zset lookahead (base + fill) (Z.lor (Z.shiftl length 8) symbol) else lookahead)
    lookahead (pyrange 0 (Z.shiftl 1 (8 - length))).

Definition build_length (counts : list Z) (st : huffman * Z * Z) (length : Z) : option (huffman * Z * Z) :=
  let '(table, code, index) := st in
  let valptr := zset (valptr table) length index in
  let mincode := zset (mincode table) length code in
  let count := zat counts (length - 1) in
  let '(lookahead, code, index, last) :=
    if 0 <? count then
      (foldl (fun lookahead offset =>
         if length <=? 8 then fill_word length (zat (values table) (index + offset)) (code + offset) lookahead
         else lookahead) (lookahead table) (pyrange 0 count),
       code + count, index + count, code + count - 1)
    else (lookahead table, code, index, -1) in
  let maxcode := zset (maxcode table) length last in
  if Z.shiftl 1 length <? code then None
  else Some (Huffman (valid table) maxcode valptr mincode (values table) lookahead, Z.shiftl code 1, index).

Fixpoint foldO {S A} (f : S -> A -> option S) (s : S) (l : list A) : option S :=
  match l with
  | [] => Some s
  | a :: l => s' ← f s a; foldO f s' l
  end.

Definition build (counts values : list Z) : option huffman :=
  let total := zsum counts in
  if (256 <? total) || (zlen values <? total) then None
  else
    let v := take (Z.to_nat total) values in
    let table := Huffman false (maxcode EMPTY) (valptr EMPTY) (mincode EMPTY) (v ++ drop (length v) (Kernel.values EMPTY)) (lookahead EMPTY) in
    '(table, _, _) ← foldO (build_length counts) (table, 0, 0) (pyrange 1 17);
    Some (Huffman true (zset (maxcode table) 17 2147483647) (valptr table) (mincode table) (Kernel.values table) (lookahead table)).

End Kernel.

(** * The code chosen for a scan *)

Section optimal.
Import Tool.

Definition nonneg (l : list Z) : Prop := Forall (fun x => 0 <= x) l.

(** What the two searches return. *)
Definition rarest (freq : list Z) (skip c : Z) : Prop :=
  (c = -1 /\ forall i, 0 <= i < 257 -> i <> skip -> zat freq i = 0)
  \/ (0 <= c < 257 /\ c <> skip /\ 0 < zat freq c
      /\ forall i, 0 <= i < 257 -> i <> skip -> 0 < zat freq i -> zat freq c <= zat freq i).

Lemma least_spec freq skip : zlen freq = 257 -> nonneg freq -> zsum freq <= 10 ^ 18 ->
  exists c, least freq skip = Ret c /\ rarest freq skip c.
Proof.
  intros L N B. unfold least.
  destruct (foldM_range (fun k (cv : Z * Z) =>
      (cv = (-1, 10 ^ 18) /\ forall i, 0 <= i < k -> i <> skip -> zat freq i = 0)
      \/ (0 <= cv.1 < k /\ cv.1 <> skip /\ 0 < zat freq cv.1 /\ cv.2 = zat freq cv.1
          /\ forall i, 0 <= i < k -> i <> skip -> 0 < zat freq i -> zat freq cv.1 <= zat freq i))
    (least_step freq skip) 0 257 (-1, 10 ^ 18)) as ([c v] & -> & H); [lia | left; split; [done | lia] | |].
  - intros k [c v] Hk Inv. unfold least_step. rewrite pyget_zat, py_ret_bind by lia. eexists. split; [reflexivity|].
    pose proof (zat_nonneg freq k N) as Nk. pose proof (zsum_ge_elem freq k N ltac:(lia)) as Bk.
    set (f := zat freq k) in *. cbn [fst snd] in Inv.
    assert (C : forall i, 0 <= i < k + 1 -> i = k \/ 0 <= i < k) by lia.
    destruct (Z.eqb_spec f 0) as [Z|Z]; [|destruct (Z.eqb_spec k skip) as [->|S]; [|destruct (Z.leb_spec f v) as [V|V]]]; cbn [negb andb].
    + destruct Inv as [(-> & H)|(H1 & H2 & H3 & H4 & H5)]; [left | right; cbn [fst snd]; split_and!; try lia].
      * split; [done|]. intros i Hi Ni. destruct (C i Hi) as [->|]; [done | auto].
      * intros i Hi Ni Pi. destruct (C i Hi) as [->|]; [lia | auto].
    + rewrite andb_false_r. destruct Inv as [(-> & H)|(H1 & H2 & H3 & H4 & H5)]; [left | right; cbn [fst snd]; split_and!; try lia].
      * split; [done|]. intros i Hi Ni. destruct (C i Hi) as [->|]; [done | auto].
      * intros i Hi Ni Pi. destruct (C i Hi) as [->|]; [done | auto].
    + right. cbn [fst snd]. split_and!; try lia. intros i Hi Ni Pi. destruct (C i Hi) as [->|Hi']; [lia|].
      destruct Inv as [([= -> ->] & H)|(H1 & H2 & H3 & H4 & H5)]; [rewrite H in Pi by auto; lia|]. specialize (H5 i Hi' Ni Pi). lia.
    + destruct Inv as [([= -> ->] & H)|(H1 & H2 & H3 & H4 & H5)]; [lia|]. right. cbn [fst snd]. split_and!; try lia.
      intros i Hi Ni Pi. destruct (C i Hi) as [->|]; [fold f; lia | auto].
  - rewrite py_ret_bind. exists c. split; [done|]. destruct H as [([= -> ->] & H)|(H1 & H2 & H3 & _ & H5)]; [left | right]; auto.
Qed.

(** * Chains *)

(** [l] is what [others] strings together from its first entry. *)
Fixpoint linked (others : list Z) (l : list Z) : Prop :=
  match l with
  | [] => False
  | [a] => 0 <= a < 257 /\ zat others a = -1
  | a :: (b :: _) as l' => 0 <= a < 257 /\ zat others a = b /\ linked others l'
  end.

(** [codesize[x] += 1] for the entries of a chain. *)
Definition deepen (codesize l : list Z) : list Z := foldl (fun cs x => zset cs x (zat cs x + 1)) codesize l.

Lemma linked_range others l : linked others l -> Forall (fun x => 0 <= x < 257) l.
Proof.
  induction l as [|a [|b l] IH]; [done | intros [? _]; by constructor | intros (H & _ & L)]. constructor; auto.
Qed.

Lemma lengthen_spec others l : zlen others = 257 -> forall fuel codesize a, zlen codesize = 257 -> linked others (a :: l) -> (length l < fuel)%nat ->
  lengthen fuel others codesize a = Ret (deepen codesize (a :: l), List.last (a :: l) 0).
Proof.
  intros LO. induction l as [|b l IH]; intros fuel codesize a LC H Hf; (destruct fuel as [|fuel]; [cbn in Hf; lia|]); cbn [lengthen].
  - destruct H as [Ha E]. do 3 array_step. rewrite E. done.
  - destruct H as (Ha & E & L). pose proof (linked_range _ _ L) as R. inversion_clear R.
    do 3 array_step. rewrite E.
    rewrite (proj2 (Z.leb_le 0 b)) by lia. rewrite IH; [done | by rewrite zlen_zset | done | cbn in Hf; lia].
Qed.

Lemma zlen_deepen codesize l : zlen (deepen codesize l) = zlen codesize.
Proof.
  unfold deepen. revert codesize. induction l as [|a l IH]; intros cs; [done|]. cbn [foldl]. by rewrite IH, zlen_zset.
Qed.
Lemma zat_deepen codesize l i : NoDup l -> Forall (fun x => 0 <= x < zlen codesize) l -> 0 <= i ->
  zat (deepen codesize l) i = zat codesize i + (if bool_decide (i ∈ l) then 1 else 0).
Proof.
  intros N F Hi. unfold deepen. revert codesize F. induction N as [|a l Ha N IH]; intros cs F.
  { rewrite bool_decide_eq_false_2 by apply not_elem_of_nil. cbn [foldl]. lia. }
  inversion_clear F as [|? ? Ra F']. cbn [foldl]. rewrite IH by (by rewrite zlen_zset). rewrite zat_zset by lia.
  destruct (Z.eqb_spec i a) as [->|Na].
  - rewrite (bool_decide_eq_false_2 (a ∈ l)) by done. rewrite bool_decide_eq_true_2 by left. lia.
  - rewrite (bool_decide_ext (i ∈ a :: l) (i ∈ l)); [lia|]. rewrite elem_of_cons. tauto.
Qed.

(** Joining two chains. *)
Lemma linked_change others others' l : linked others l -> (forall x, x ∈ l -> zat others' x = zat others x) -> linked others' l.
Proof.
  induction l as [|a [|b l] IH]; [done | |].
  - intros [R E] H. split; [done|]. rewrite H; [done | left].
  - intros (R & E & L) H. split; [done|]. split; [rewrite H; [done | left]|]. apply IH; [done|]. intros x Hx. apply H. by right.
Qed.
Lemma linked_join others l1 l2 c2 : zlen others = 257 -> linked others l1 -> linked others (c2 :: l2) -> NoDup (l1 ++ c2 :: l2) ->
  linked (zset others (List.last l1 0) c2) (l1 ++ c2 :: l2).
Proof.
  intros LO L1 L2 N. pose proof (linked_range _ _ L1) as R1. pose proof (linked_range _ _ L2) as R2.
  induction l1 as [|a [|b l1] IH]; [done | |].
  - cbn [List.last app] in *. destruct L1 as [Ha _]. split; [done|]. rewrite zat_zset by lia. rewrite Z.eqb_refl. split; [done|].
    apply (linked_change others); [done|]. intros x Hx. rewrite Forall_forall in R2. specialize (R2 x Hx). rewrite zat_zset by lia.
    destruct (Z.eqb_spec x a) as [->|]; [|done]. by apply NoDup_cons in N as [N _].
  - destruct L1 as (Ha & E & L1). inversion_clear R1 as [|? ? _ R1']. cbn [app] in N. apply NoDup_cons in N as [Na N].
    change (List.last (a :: b :: l1) 0) with (List.last (b :: l1) 0). change ((a :: b :: l1) ++ c2 :: l2) with (a :: b :: (l1 ++ c2 :: l2)).
    split; [done|]. specialize (IH L1 N R1').
    pose proof (last_elem b l1 0) as LR.
    split; [|done]. rewrite Forall_forall in R1'. pose proof (R1' _ LR). rewrite zat_zset by lia.
    destruct (Z.eqb_spec a (List.last (b :: l1) 0)) as [Ea|]; [|done]. exfalso. apply Na. rewrite Ea.
    change (b :: l1 ++ c2 :: l2) with ((b :: l1) ++ c2 :: l2). apply elem_of_app. by left.
Qed.

(** * The forest of the merge *)

(** The least total count of a tree of depth [d]: the Fibonacci numbers. *)
Fixpoint rarity (d : nat) : Z :=
  match d with
  | O => 1
  | S e => match e with O => 2 | S f => rarity e + rarity f end
  end.

Definition first (l : list Z) : Z := List.hd (-1) l.
Definition kraft (codesize l : list Z) : Z := zsum ((fun x => 2 ^ (300 - zat codesize x)) <$> l).

(** A chain whose words are at most [d] long is worth at least [rarity d], and
    so are the two trees it was made of, one level up. *)
Definition deep (codesize freq : list Z) (M : Z) (l : list Z) : Prop :=
  exists d, Forall (fun x => zat codesize x <= Z.of_nat d) l /\ rarity d <= zat freq (first l)
    /\ M <= zat freq (first l) /\ (d = O \/ rarity (pred d) <= M).

Record forest (total : Z) (alive freq codesize others : list Z) (cs : list (list Z)) (M : Z) : Prop := Forest {
  fo_freq_len : zlen freq = 257;
  fo_size_len : zlen codesize = 257;
  fo_others_len : zlen others = 257;
  fo_nonneg : nonneg freq;
  fo_total : zsum freq = total;
  fo_perm : Permutation (concat cs) alive;
  fo_linked : Forall (linked others) cs;
  fo_roots : forall i, 0 <= i < 257 -> 0 < zat freq i <-> exists l, l ∈ cs /\ first l = i;
  fo_kraft : Forall (fun l => kraft codesize l = 2 ^ 300) cs;
  fo_size : forall i, 0 <= i < 257 -> 0 <= zat codesize i <= 257 - zlen cs;
  fo_dead : forall i, 0 <= i < 257 -> i ∉ alive -> zat codesize i = 0;
  fo_deep : Forall (deep codesize freq M) cs
}.

Lemma forest_perm total alive freq codesize others cs cs' M : Permutation cs cs' ->
  forest total alive freq codesize others cs M -> forest total alive freq codesize others cs' M.
Proof.
  intros P []. split; try done.
  - rewrite <- P. done.
  - by rewrite <- P.
  - intros i Hi. rewrite fo_roots0 by done. by setoid_rewrite P.
  - by rewrite <- P.
  - intros i Hi. specialize (fo_size0 i Hi). unfold zlen in *. by rewrite <- P.
  - by rewrite <- P.
Qed.

Lemma linked_first others l : linked others l -> exists a l', l = a :: l' /\ 0 <= a < 257.
Proof. intros L. pose proof (linked_range _ _ L) as R. destruct l as [|a l]; [done|]. inversion_clear R. eauto. Qed.

Lemma rarity_step d : rarity (S (S d)) = rarity (S d) + rarity d.
Proof. done. Qed.
Lemma rarity_pos d : 1 <= rarity d <= rarity (S d).
Proof.
  induction d as [d IH] using lt_wf_ind. destruct d as [|[|d]]; [cbn; lia | cbn; lia|].
  pose proof (IH (S d) ltac:(lia)). pose proof (IH d ltac:(lia)). rewrite !rarity_step in *. lia.
Qed.
Lemma rarity_mono d e : (d <= e)%nat -> rarity d <= rarity e.
Proof. induction 1; [done|]. pose proof (rarity_pos m). lia. Qed.

(** The two trees with the least counts become one. *)
Lemma deep_join codesize freq M l1 l2 f freq' codesize' :
  deep codesize freq M l1 -> deep codesize freq M l2 -> zat freq (first l1) <= zat freq (first l2) ->
  zat freq' f = zat freq (first l1) + zat freq (first l2) -> (forall x, x ∈ l1 ++ l2 -> zat codesize' x = zat codesize x + 1) ->
  first (l1 ++ l2) = f ->
  deep codesize' freq' (zat freq (first l2)) (l1 ++ l2).
Proof.
  intros (d1 & D1 & R1 & M1 & B1) (d2 & D2 & R2 & M2 & B2) H E C F. exists (S (Nat.max d1 d2)). rewrite F, E. split_and!.
  - apply Forall_app. rewrite Forall_forall in D1, D2. split; apply Forall_forall; intros x Hx; (rewrite C; [|apply elem_of_app; tauto]).
    + specialize (D1 x Hx). lia.
    + specialize (D2 x Hx). lia.
  - pose proof (rarity_pos d1). pose proof (rarity_pos d2). destruct (Nat.max_spec d1 d2) as [[Hd ->]|[Hd ->]].
    + destruct d2 as [|d2]; [lia|]. rewrite rarity_step. destruct B2 as [?|B2]; [lia|]. cbn [pred] in B2. lia.
    + destruct d1 as [|d1]; [cbn [rarity] in *; lia|]. rewrite rarity_step. destruct B1 as [?|B1]; [lia|]. cbn [pred] in B1. lia.
  - pose proof (rarity_pos d1). lia.
  - right. cbn [pred]. destruct (Nat.max_spec d1 d2) as [[Hd ->]|[Hd ->]]; lia.
Qed.

Lemma kraft_app codesize l1 l2 : kraft codesize (l1 ++ l2) = kraft codesize l1 + kraft codesize l2.
Proof. unfold kraft. by rewrite fmap_app, zsum_app. Qed.
Lemma kraft_deeper codesize codesize' l : (forall x, x ∈ l -> zat codesize' x = zat codesize x + 1 /\ zat codesize x < 300) ->
  2 * kraft codesize' l = kraft codesize l.
Proof.
  unfold kraft. induction l as [|a l IH]; intros H; [done|]. cbn [fmap list_fmap]. rewrite !zsum_cons, <- IH by (intros; apply H; by right).
  destruct (H a) as [-> B]; [left|]. replace (300 - zat codesize a) with (1 + (300 - (zat codesize a + 1))) by lia.
  rewrite Z.pow_add_r by lia. lia.
Qed.
Lemma kraft_same codesize codesize' l : (forall x, x ∈ l -> zat codesize' x = zat codesize x) -> kraft codesize' l = kraft codesize l.
Proof. intros H. unfold kraft. f_equal. apply list_fmap_ext. intros i x E. rewrite H; [done|]. by eapply list_elem_of_lookup_2. Qed.

(** One round of the merge. *)
Section round.
Context (total : Z) (alive freq codesize others : list Z) (c1 c2 : Z) (l1 l2 : list Z) (cs : list (list Z)) (M : Z).
Hypothesis nodup : NoDup alive.
Hypothesis F : forest total alive freq codesize others ((c1 :: l1) :: (c2 :: l2) :: cs) M.

Let joined := (c1 :: l1) ++ c2 :: l2.
Let freq' := zset (zset freq c1 (zat freq c1 + zat freq c2)) c2 0.
Let codesize' := deepen (deepen codesize (c1 :: l1)) (c2 :: l2).
Let others' := zset others (List.last (c1 :: l1) 0) c2.

Lemma round_nodup : NoDup (joined ++ concat cs).
Proof.
  pose proof (fo_perm _ _ _ _ _ _ _ F) as P. unfold joined. cbn [concat] in P. rewrite app_assoc in P. by rewrite P.
Qed.

Lemma round_range x : x ∈ joined ++ concat cs -> 0 <= x < 257.
Proof.
  pose proof (fo_linked _ _ _ _ _ _ _ F) as L. unfold joined. rewrite !elem_of_app. inversion_clear L as [|? ? L1 L']. inversion_clear L' as [|? ? L2 L3].
  pose proof (proj1 (Forall_forall _ _) (linked_range _ _ L1)) as R1. pose proof (proj1 (Forall_forall _ _) (linked_range _ _ L2)) as R2. intros [[H|H]|H]; auto.
  rewrite list_elem_of_In, in_concat in H. destruct H as (l & Hl & Hx). apply list_elem_of_In in Hl. apply list_elem_of_In in Hx.
  rewrite Forall_forall in L3. pose proof (linked_range _ _ (L3 l Hl)) as R. rewrite Forall_forall in R. auto.
Qed.

Lemma round_first l : l ∈ cs -> first l ∈ concat cs.
Proof.
  intros Hl. pose proof (fo_linked _ _ _ _ _ _ _ F) as L. inversion_clear L as [|? ? L1 L']. inversion_clear L' as [|? ? L2 L3].
  rewrite Forall_forall in L3. destruct (linked_first _ _ (L3 l Hl)) as (a & l' & -> & _).
  rewrite list_elem_of_In, in_concat. exists (a :: l'). split; [by apply list_elem_of_In | by left].
Qed.

Lemma round_size x : 0 <= x -> zat codesize' x = zat codesize x + (if bool_decide (x ∈ joined) then 1 else 0).
Proof.
  intros Hx. pose proof round_nodup as N. apply NoDup_app in N as (N & _ & _). unfold joined in *. pose proof (NoDup_app (c1 :: l1) (c2 :: l2)) as [N' _].
  destruct (N' N) as (N1 & D & N2). pose proof (fo_size_len _ _ _ _ _ _ _ F) as LC.
  unfold codesize'. rewrite !zat_deepen; try done.
  - assert (E : (x ∈ (c1 :: l1) ++ c2 :: l2) <-> x ∈ c1 :: l1 \/ x ∈ c2 :: l2) by apply elem_of_app.
    destruct (decide (x ∈ c1 :: l1)) as [I1|I1], (decide (x ∈ c2 :: l2)) as [I2|I2].
    + by destruct (D x I1).
    + rewrite (bool_decide_eq_true_2 (x ∈ c1 :: l1)), (bool_decide_eq_false_2 (x ∈ c2 :: l2)), bool_decide_eq_true_2 by tauto. lia.
    + rewrite (bool_decide_eq_false_2 (x ∈ c1 :: l1)), (bool_decide_eq_true_2 (x ∈ c2 :: l2)), bool_decide_eq_true_2 by tauto. lia.
    + rewrite (bool_decide_eq_false_2 (x ∈ c1 :: l1)), (bool_decide_eq_false_2 (x ∈ c2 :: l2)), bool_decide_eq_false_2 by tauto. lia.
  - apply Forall_forall. intros y Hy. rewrite LC. apply round_range. unfold joined. rewrite !elem_of_app. tauto.
  - apply Forall_forall. intros y Hy. rewrite zlen_deepen, LC. apply round_range. unfold joined. rewrite !elem_of_app. tauto.
Qed.

Lemma round_roots : c1 <> c2 /\ 0 <= c1 < 257 /\ 0 <= c2 < 257 /\ forall l, l ∈ cs -> first l <> c1 /\ first l <> c2.
Proof.
  pose proof round_nodup as N. pose proof round_range as R. unfold joined in *. split_and!; try (apply R; rewrite !elem_of_app; left; (left; left) || (right; left)).
  - intros ->. cbn [app] in N. apply NoDup_cons in N as [N _]. apply N. rewrite !elem_of_app. left. right. left.
  - intros l Hl. apply round_first in Hl. apply NoDup_app in N as (_ & D & _).
    split; intros <-; (eapply D; [|exact Hl]); rewrite elem_of_app; [left | right]; left.
Qed.

Lemma round_freq x : 0 <= x -> zat freq' x = if x =? c2 then 0 else if x =? c1 then zat freq c1 + zat freq c2 else zat freq x.
Proof.
  intros Hx. destruct round_roots as (_ & R1 & R2 & _). pose proof (fo_freq_len _ _ _ _ _ _ _ F). unfold freq'.
  rewrite !zat_zset by (rewrite ?zlen_zset; lia). done.
Qed.

Hypothesis least1 : forall l, l ∈ (c2 :: l2) :: cs -> zat freq c1 <= zat freq (first l).
Hypothesis least2 : forall l, l ∈ cs -> zat freq c2 <= zat freq (first l).

Lemma round_apart l x : l ∈ cs -> x ∈ l -> (x ∉ joined) /\ 0 <= x < 257.
Proof.
  intros Hl Hx. assert (C : x ∈ concat cs) by (rewrite list_elem_of_In, in_concat; exists l; split; by apply list_elem_of_In).
  split; [|apply round_range; rewrite elem_of_app; by right]. intros J. pose proof round_nodup as N. apply NoDup_app in N as (_ & D & _). by apply (D x J).
Qed.
Lemma round_joined x : x ∈ joined -> zat codesize' x = zat codesize x + 1.
Proof. intros Hx. rewrite round_size by (apply round_range; rewrite elem_of_app; by left). by rewrite bool_decide_eq_true_2. Qed.
Lemma round_others l x : l ∈ cs -> x ∈ l -> zat codesize' x = zat codesize x.
Proof. intros Hl Hx. destruct (round_apart l x Hl Hx). rewrite round_size, bool_decide_eq_false_2 by (done || lia). lia. Qed.

Lemma round_new_roots i : 0 <= i < 257 -> 0 < zat freq' i <-> exists l, l ∈ joined :: cs /\ first l = i.
Proof.
  intros Hi. destruct round_roots as (N12 & R1 & R2 & RC). pose proof (fo_roots _ _ _ _ _ _ _ F) as FR.
  rewrite round_freq by lia. setoid_rewrite elem_of_cons. pose proof (FR i Hi) as RI. setoid_rewrite elem_of_cons in RI. setoid_rewrite elem_of_cons in RI.
  assert (P1 : 0 < zat freq c1) by (apply FR; [done|]; exists (c1 :: l1); split; [left | done]).
  assert (P2 : 0 < zat freq c2) by (apply FR; [done|]; exists (c2 :: l2); split; [right; left | done]).
  destruct (Z.eqb_spec i c2) as [->|Ni2]; [|destruct (Z.eqb_spec i c1) as [->|Ni1]].
  - split; [lia|]. intros (l & [->|Hl] & E); [cbn in E; congruence|]. by destruct (RC l Hl).
  - split; [intros _|lia]. exists joined. split; [by left | done].
  - rewrite RI. split.
    + intros (l & [->|[->|Hl]] & E); [cbn in E; congruence | cbn in E; congruence | eauto].
    + intros (l & [->|Hl] & E); [cbn in E; congruence | eauto].
Qed.

Lemma round_deep : Forall (deep codesize' freq' (zat freq c2)) (joined :: cs).
Proof.
  destruct round_roots as (N12 & R1 & R2 & RC). pose proof (fo_deep _ _ _ _ _ _ _ F) as FD.
  inversion_clear FD as [|? ? D1 D']. inversion_clear D' as [|? ? D2 D3]. rewrite Forall_forall in D3. constructor.
  - apply (deep_join codesize freq M (c1 :: l1) (c2 :: l2) c1); try done.
    + apply least1. left.
    + rewrite round_freq by lia. rewrite Z.eqb_refl. destruct (Z.eqb_spec c1 c2); [lia | done].
    + apply round_joined.
  - apply Forall_forall. intros l Hl. destruct (D3 l Hl) as (d & A & B & C & E). destruct (RC l Hl) as [E1 E2].
    pose proof (round_range _ ltac:(apply elem_of_app; right; by apply round_first)) as RF. exists d. rewrite round_freq by apply RF.
    rewrite (proj2 (Z.eqb_neq _ _) E1), (proj2 (Z.eqb_neq _ _) E2). split_and!; [|done|by apply least2|].
    + rewrite Forall_forall in *. intros x Hx. rewrite (round_others l) by done. auto.
    + destruct E as [?|E]; [by left | right]. destruct D2 as (_ & _ & _ & H & _). cbn [first hd] in H. lia.
Qed.

Lemma round_kraft : Forall (fun l => kraft codesize' l = 2 ^ 300) (joined :: cs).
Proof.
  pose proof (fo_kraft _ _ _ _ _ _ _ F) as FK. inversion_clear FK as [|? ? K1 K']. inversion_clear K' as [|? ? K2 K3]. rewrite Forall_forall in K3. constructor.
  - assert (KJ : kraft codesize joined = 2 * 2 ^ 300) by (unfold joined; rewrite kraft_app, K1, K2; lia).
    enough (2 * kraft codesize' joined = 2 * 2 ^ 300) by lia. rewrite <- KJ. apply kraft_deeper. intros x Hx. split; [by apply round_joined|].
    pose proof (fo_size _ _ _ _ _ _ _ F x ltac:(apply round_range, elem_of_app; by left)). pose proof (zlen_nonneg ((c1 :: l1) :: (c2 :: l2) :: cs)). lia.
  - apply Forall_forall. intros l Hl. rewrite (kraft_same codesize); [auto | intros; by apply (round_others l)].
Qed.

Lemma round_forest : forest total alive freq' codesize' others' (joined :: cs) (zat freq c2).
Proof.
  pose proof round_nodup as N. destruct round_roots as (N12 & R1 & R2 & RC). pose proof F as [].
  inversion_clear fo_linked0 as [|? ? L1 L']. inversion_clear L' as [|? ? L2 L3]. rewrite Forall_forall in L3.
  split; [unfold freq'; by rewrite !zlen_zset | unfold codesize'; by rewrite !zlen_deepen | unfold others'; by rewrite zlen_zset | | | | | apply round_new_roots | apply round_kraft | | | apply round_deep].
  - unfold freq'. repeat apply Forall_zset; [done| |lia]. pose proof (zat_nonneg _ c1 fo_nonneg0). pose proof (zat_nonneg _ c2 fo_nonneg0). lia.
  - unfold freq'. rewrite !zsum_zset by (rewrite ?zlen_zset; lia). rewrite zat_zset by lia. destruct (Z.eqb_spec c2 c1); [lia|]. lia.
  - rewrite <- fo_perm0. cbn [concat]. unfold joined. by rewrite <- !app_assoc.
  - constructor; [apply linked_join; (done || by apply NoDup_app in N as (? & _ & _))|]. apply Forall_forall. intros l Hl.
    apply (linked_change others); [auto|]. intros x Hx. destruct (round_apart l x Hl Hx) as [J RX]. unfold others'.
    assert (LJ : List.last (c1 :: l1) 0 ∈ joined) by (unfold joined; apply elem_of_app; left; apply last_elem).
    pose proof (round_range (List.last (c1 :: l1) 0) ltac:(apply elem_of_app; by left)). rewrite zat_zset by lia.
    destruct (Z.eqb_spec x (List.last (c1 :: l1) 0)) as [->|]; done.
  - intros i Hi. rewrite round_size by lia. specialize (fo_size0 i Hi). rewrite !zlen_cons in *. case_bool_decide; lia.
  - intros i Hi Na. rewrite round_size, bool_decide_eq_false_2, fo_dead0; [done | done | done | | lia]. intros J. apply Na. rewrite <- fo_perm0.
    cbn [concat]. unfold joined in J. rewrite !elem_of_app in *. tauto.
Qed.
End round.

Lemma take_root total alive freq codesize others cs M c : forest total alive freq codesize others cs M -> 0 <= c < 257 -> 0 < zat freq c ->
  exists l cs', Permutation cs ((c :: l) :: cs').
Proof.
  intros F Hc P. apply (fo_roots _ _ _ _ _ _ _ F) in P as (l & Hl & E); [|done].
  pose proof (proj1 (Forall_forall _ _) (fo_linked _ _ _ _ _ _ _ F) l Hl) as L. destruct (linked_first _ _ L) as (a & l' & -> & _).
  cbn in E. subst a. apply elem_of_Permutation in Hl as (cs' & P). eauto.
Qed.

Lemma root_pos total alive freq codesize others cs M l : forest total alive freq codesize others cs M -> l ∈ cs ->
  0 <= first l < 257 /\ 0 < zat freq (first l).
Proof.
  intros F Hl. pose proof (proj1 (Forall_forall _ _) (fo_linked _ _ _ _ _ _ _ F) l Hl) as L. destruct (linked_first _ _ L) as (a & l' & -> & Ha).
  split; [done|]. apply (fo_roots _ _ _ _ _ _ _ F); [done|]. eauto.
Qed.

Lemma chain_short total alive freq codesize others l cs M : NoDup alive -> Forall (fun x => 0 <= x < 257) alive ->
  forest total alive freq codesize others (l :: cs) M -> (length l <= 257)%nat.
Proof.
  intros N R F. pose proof (fo_perm _ _ _ _ _ _ _ F) as P.
  assert (S : l ⊆ pyrange 0 257).
  { intros x Hx. apply elem_of_pyrange. rewrite Forall_forall in R. apply R. rewrite <- P. cbn [concat]. apply elem_of_app. by left. }
  rewrite <- P in N. cbn [concat] in N. apply NoDup_app in N as (N & _ & _).
  pose proof (submseteq_length _ _ (NoDup_submseteq _ _ N S)) as L. revert L. change (length (pyrange 0 257)) with 257%nat. done.
Qed.

Lemma merge_forest total alive : NoDup alive -> Forall (fun x => 0 <= x < 257) alive -> total <= 10 ^ 18 ->
  forall fuel freq codesize others cs M, forest total alive freq codesize others cs M -> cs <> [] -> (length cs <= fuel)%nat ->
  exists l freq' codesize' others' M', merge fuel freq codesize others = Ret codesize' /\ forest total alive freq' codesize' others' [l] M'.
Proof.
  intros N R T. induction fuel as [|fuel IH]; intros freq codesize others cs M F NE Hf; [destruct cs; cbn in Hf; [done | lia]|].
  cbn [merge]. pose proof (fo_freq_len _ _ _ _ _ _ _ F) as LF. pose proof (fo_nonneg _ _ _ _ _ _ _ F) as NN.
  assert (B : zsum freq <= 10 ^ 18) by (rewrite (fo_total _ _ _ _ _ _ _ F); done).
  destruct (least_spec freq (-1) LF NN B) as (c1 & -> & R1). rewrite py_ret_bind.
  destruct (least_spec freq c1 LF NN B) as (c2 & -> & R2). rewrite py_ret_bind.
  destruct R1 as [[-> Z1]|(H1 & _ & P1 & L1)].
  { destruct cs as [|l cs]; [done|]. destruct (root_pos _ _ _ _ _ _ _ l F) as [HR HP]; [left|]. rewrite Z1 in HP; lia. }
  destruct (take_root _ _ _ _ _ _ _ c1 F H1 P1) as (l1 & cs1 & Q1). apply (forest_perm _ _ _ _ _ _ _ _ Q1) in F as F1.
  destruct R2 as [[-> Z2]|(H2 & N2 & P2 & L2)].
  { cbn [Z.ltb Z.compare]. destruct cs1 as [|l cs1]; [do 5 eexists; split; [done | exact F1]|]. exfalso.
    destruct (root_pos _ _ _ _ _ _ _ l F1) as [HR HP]; [right; left|]. destruct (decide (first l = c1)) as [E|E]; [|rewrite Z2 in HP; lia].
    pose proof (fo_perm _ _ _ _ _ _ _ F1) as P. rewrite <- P in N. cbn [concat] in N. apply NoDup_app in N as (_ & D & _).
    pose proof (fo_linked _ _ _ _ _ _ _ F1) as L. inversion_clear L as [|? ? _ L']. inversion_clear L' as [|? ? L _].
    destruct (linked_first _ _ L) as (a & l' & -> & _). cbn in E. subst a. apply (D c1); [left|]. apply elem_of_app. left. left. }
  destruct (proj1 (fo_roots _ _ _ _ _ _ _ F1 c2 H2) P2) as (l & Hl & E). rewrite elem_of_cons in Hl. destruct Hl as [->|Hl]; [cbn in E; congruence|].
  pose proof (fo_linked _ _ _ _ _ _ _ F1) as L. inversion_clear L as [|? ? LK1 L']. pose proof (proj1 (Forall_forall _ _) L' l Hl) as LK2.
  destruct (linked_first _ _ LK2) as (a & l2 & -> & _). cbn in E. subst a. apply elem_of_Permutation in Hl as (cs2 & Q2).
  apply (forest_perm _ _ _ _ _ _ ((c1 :: l1) :: (c2 :: l2) :: cs2)) in F1 as F2; [|by rewrite Q2].
  pose proof (fo_size_len _ _ _ _ _ _ _ F2) as LC. pose proof (fo_others_len _ _ _ _ _ _ _ F2) as LO.
  rewrite (proj2 (Z.ltb_ge c2 0)) by lia. do 2 array_step. do 2 array_step.
  pose proof (chain_short _ _ _ _ _ _ _ _ N R F2) as S1.
  assert (S2 : (length (c2 :: l2) <= 257)%nat) by (eapply (chain_short _ _ _ _ _ _ ((c1 :: l1) :: cs2)); [done | done | eapply forest_perm, F2; apply Permutation_swap]).
  rewrite (lengthen_spec others l1 LO), py_ret_bind by (done || cbn in S1; lia). cbn beta iota.
  assert (F3 : forest total alive (zset (zset freq c1 (zat freq c1 + zat freq c2)) c2 0) (deepen (deepen codesize (c1 :: l1)) (c2 :: l2))
                 (zset others (List.last (c1 :: l1) 0) c2) (((c1 :: l1) ++ c2 :: l2) :: cs2) (zat freq c2)).
  { apply (round_forest _ _ _ _ _ _ _ _ _ _ M); [done | done | |].
    - intros l Hl. destruct (root_pos _ _ _ _ _ _ _ l F2); [by right|]. apply L1; [done | lia | done].
    - intros l Hl. destruct (root_pos _ _ _ _ _ _ _ l F2); [right; by right|]. apply L2; [done | | done].
      destruct (round_roots _ _ _ _ _ _ _ _ _ _ _ N F2) as (_ & _ & _ & RC). by apply RC. }
  assert (LL : 0 <= List.last (c1 :: l1) 0 < 257).
  { pose proof (linked_range _ _ LK1) as RR. rewrite Forall_forall in RR. apply RR, last_elem. }
  array_step.
  assert (LK3 : linked (zset others (List.last (c1 :: l1) 0) c2) (c2 :: l2)).
  { apply (linked_change others); [done|]. intros x Hx. pose proof (linked_range _ _ LK2) as RR. rewrite Forall_forall in RR. specialize (RR x Hx).
    rewrite zat_zset by lia. destruct (Z.eqb_spec x (List.last (c1 :: l1) 0)) as [E|]; [|done]. exfalso.
    pose proof (round_nodup _ _ _ _ _ _ _ _ _ _ _ N F2) as ND. apply NoDup_app in ND as (ND & _ & _). apply NoDup_app in ND as (_ & D & _).
    apply (D x); [|done]. rewrite E. apply last_elem. }
  rewrite (lengthen_spec _ l2), py_ret_bind; [|by rewrite zlen_zset | by rewrite zlen_deepen | done | cbn in S2; lia]. cbn beta iota.
  apply (IH _ _ _ _ _ F3); [done|]. rewrite Q1, Q2 in Hf. cbn [length] in *. lia.
Qed.

(** * Code sizes *)

Definition alive (freq : list Z) : list Z := filter (fun i => 0 < zat freq i) (pyrange 0 257).

Lemma alive_nodup freq : NoDup (alive freq).
Proof. apply NoDup_filter, nodup_pyrange. Qed.
Lemma elem_of_alive freq i : i ∈ alive freq <-> 0 < zat freq i /\ 0 <= i < 257.
Proof. unfold alive. by rewrite list_elem_of_filter, elem_of_pyrange. Qed.

Lemma initial_forest freq : zlen freq = 257 -> nonneg freq ->
  forest (zsum freq) (alive freq) freq (replicate 257 0) (replicate 257 (-1)) ((fun x => [x]) <$> alive freq) 1.
Proof.
  intros L N. assert (Z0 : forall i, 0 <= i < 257 -> zat (replicate 257 0) i = 0) by (intros; by apply zat_replicate).
  assert (IN : forall l, l ∈ (fun x => [x]) <$> alive freq -> exists a, l = [a] /\ 0 < zat freq a /\ 0 <= a < 257).
  { intros l (a & -> & Ha)%list_elem_of_fmap. exists a. split; [done|]. by apply elem_of_alive. }
  split; try done.
  - by rewrite concat_singletons.
  - apply Forall_forall. intros l (a & -> & _ & Ha)%IN. split; [done|]. by apply zat_replicate.
  - intros i Hi. split.
    + intros P. exists [i]. split; [|done]. apply list_elem_of_fmap. exists i. split; [done | by apply elem_of_alive].
    + intros (l & (a & -> & Pa & _)%IN & <-). done.
  - apply Forall_forall. intros l (a & -> & _ & Ha)%IN. unfold kraft. cbn [fmap list_fmap]. rewrite Z0 by done. done.
  - intros i Hi. rewrite Z0 by done. split; [done|]. rewrite zlen_fmap.
    pose proof (length_filter (fun i => 0 < zat freq i) (pyrange 0 257)) as LF. fold (alive freq) in LF. change (length (pyrange 0 257)) with 257%nat in LF.
    unfold zlen. lia.
  - intros i Hi _. by apply Z0.
  - apply Forall_forall. intros l (a & -> & Pa & Ha)%IN. exists O. cbn [first hd rarity]. split_and!; [|lia|lia|by left].
    apply Forall_singleton. rewrite Z0 by done. lia.
Qed.

Definition leaf_weight (codesize : list Z) (i : Z) : Z := if zat codesize i =? 0 then 0 else 2 ^ (32 - zat codesize i).

Record sized_code (freq codesize : list Z) : Prop := SizedCode {
  sc_len : zlen codesize = 257;
  sc_range : forall i, 0 <= i < 257 -> 0 <= zat codesize i <= 32;
  sc_alive : forall i, 0 <= i < 257 -> zat codesize i = 0 <-> zat freq i = 0;
  sc_kraft : zsum (leaf_weight codesize <$> pyrange 0 257) = 2 ^ 32
}.

Lemma zsum_filter (f : Z -> Z) (P : Z -> Prop) `{forall x, Decision (P x)} l : (forall x, x ∈ l -> ~ P x -> f x = 0) ->
  zsum (f <$> l) = zsum (f <$> filter P l).
Proof.
  induction l as [|a l IH]; intros H0; [done|]. cbn [fmap list_fmap]. rewrite zsum_cons, IH by (intros; apply H0; [by right | done]).
  rewrite filter_cons. case_decide; [by rewrite fmap_cons, zsum_cons|]. rewrite H0; [lia | left | done].
Qed.

Lemma rarity_33 : rarity 33 = 9227465.
Proof. vm_compute. reflexivity. Qed.

Lemma some_alive freq : zlen freq = 256 -> nonneg freq -> 1 <= zsum freq -> exists x, x ∈ alive (freq ++ [1]) /\ x <> 256.
Proof.
  intros L N T. destruct (decide (Forall (fun x => x = 0) freq)) as [Z|Z]; [exfalso; assert (zsum freq = 0) by (clear -Z; induction Z; [done|]; rewrite zsum_cons; lia); lia|].
  apply not_Forall_Exists in Z; [|apply _]. apply Exists_exists in Z as (w & Hx & Nx). apply elem_zat in Hx as (i & Hi & <-).
  exists i. split; [|lia]. apply elem_of_alive. split; [|lia]. rewrite zat_app_l by done. pose proof (zat_nonneg freq i N). cbn in Nx. lia.
Qed.

(** The leaves weigh the same at either scale. *)
Lemma leaf_kraft codesize l : (forall x, x ∈ l -> 1 <= zat codesize x <= 32) -> 2 ^ 268 * zsum (leaf_weight codesize <$> l) = kraft codesize l.
Proof.
  unfold kraft. induction l as [|a l IH]; intros S; [done|]. cbn [fmap list_fmap]. rewrite !zsum_cons, Z.mul_add_distr_l, IH by (intros; apply S; by right). f_equal.
  unfold leaf_weight. pose proof (S a ltac:(left)). destruct (Z.eqb_spec (zat codesize a) 0); [lia|]. rewrite <- Z.pow_add_r by lia. f_equal. lia.
Qed.

Lemma merge_sizes freq : zlen freq = 256 -> nonneg freq -> 1 <= zsum freq < 9227464 ->
  exists codesize, merge 258 (freq ++ [1]) (replicate 257 0) (replicate 257 (-1)) = Ret codesize /\ sized_code (freq ++ [1]) codesize.
Proof.
  intros L N T. set (freq1 := freq ++ [1]). assert (L1 : zlen freq1 = 257) by (unfold freq1; rewrite zlen_app; change (zlen [1]) with 1; lia).
  assert (N1 : nonneg freq1) by (apply Forall_app; split; [done | by apply Forall_singleton]).
  assert (T1 : zsum freq1 = zsum freq + 1) by (unfold freq1; rewrite zsum_app; change (zsum [1]) with 1; lia).
  assert (A256 : 256 ∈ alive freq1).
  { apply elem_of_alive. split; [|lia]. unfold freq1. rewrite zat_app_r by lia. rewrite L. done. }
  assert (RA : Forall (fun x => 0 <= x < 257) (alive freq1)) by (apply Forall_forall; intros x [_ ?]%elem_of_alive; done).
  destruct (merge_forest (zsum freq1) (alive freq1) (alive_nodup _) RA ltac:(lia) 258 _ _ _ _ _ (initial_forest freq1 L1 N1))
    as (l & freq' & codesize & others' & M & E & F).
  { destruct (alive freq1); [by apply not_elem_of_nil in A256 | done]. }
  { rewrite length_fmap. pose proof (length_filter (fun i => 0 < zat freq1 i) (pyrange 0 257)) as LF. fold (alive freq1) in LF.
    change (length (pyrange 0 257)) with 257%nat in LF. lia. }
  exists codesize. split; [done|]. pose proof F as []. cbn [concat] in fo_perm0. rewrite app_nil_r in fo_perm0.
  inversion_clear fo_kraft0 as [|? ? K _]. inversion_clear fo_deep0 as [|k0 ? (d & D & R & _) _]. clear k0.
  assert (HR : rarity d < 9227465).
  { destruct (root_pos _ _ _ _ _ _ _ l F) as [HF _]; [left|]. pose proof (zsum_ge_elem freq' (first l) fo_nonneg0 ltac:(lia)). lia. }
  assert (HD : (d <= 32)%nat).
  { destruct (decide (d <= 32)%nat) as [|G]; [done|]. pose proof (rarity_mono 33 d ltac:(lia)). rewrite rarity_33 in *. lia. }
  assert (SZ : forall i, 0 <= i < 257 -> 0 <= zat codesize i <= 32).
  { intros i Hi. split; [by apply fo_size0|]. destruct (decide (i ∈ alive freq1)) as [I|I]; [|rewrite fo_dead0; done].
    rewrite Forall_forall in D. specialize (D i). rewrite fo_perm0 in D. specialize (D I). lia. }
  pose proof (some_alive freq L N ltac:(lia)) as ex1. fold freq1 in ex1.
  assert (AL : forall i, i ∈ alive freq1 -> zat codesize i <> 0).
  { intros i Hi E0. rewrite <- fo_perm0 in Hi. apply elem_of_Permutation in Hi as (l' & P'). unfold kraft in K. rewrite P' in K.
    cbn [fmap list_fmap] in K. rewrite zsum_cons, E0 in K. destruct l' as [|y l'].
    - destruct ex1 as (z & Hx & Nx). rewrite <- fo_perm0, P' in Hx, A256. rewrite list_elem_of_singleton in Hx, A256. congruence.
    - cbn [fmap list_fmap] in K. rewrite zsum_cons in K. pose proof (Z.pow_pos_nonneg 2 (300 - zat codesize y) ltac:(lia)) as PP.
      assert (0 <= zsum ((fun x => 2 ^ (300 - zat codesize x)) <$> l')); [|].
      { apply zsum_nonneg, Forall_fmap, Forall_true. intros x. cbn. apply Z.pow_nonneg. lia. }
      assert (y ∈ alive freq1) as HY by (rewrite <- fo_perm0, P'; right; left). apply elem_of_alive in HY as [_ HY]. specialize (SZ y HY).
      change (300 - 0) with 300 in K. lia. }
  split; [done | done | |].
  - intros i Hi. split.
    + intros E0. destruct (decide (0 < zat freq1 i)) as [P|P]; [|pose proof (zat_nonneg freq1 i N1); lia]. exfalso. apply (AL i); [|done]. by apply elem_of_alive.
    + intros E0. apply fo_dead0; [done|]. rewrite elem_of_alive. lia.
  - rewrite (zsum_filter _ (fun i => 0 < zat freq1 i)); [fold (alive freq1)|].
    + rewrite <- (zsum_perm _ _ (fmap_Permutation _ _ _ fo_perm0)). enough (2 ^ 268 * zsum (leaf_weight codesize <$> l) = 2 ^ 268 * 2 ^ 32) by lia.
      change (2 ^ 268 * 2 ^ 32) with (2 ^ 300). rewrite <- K. apply leaf_kraft. intros x Hx. rewrite fo_perm0 in Hx. pose proof (AL x Hx). apply elem_of_alive in Hx as [_ Hx]. specialize (SZ x Hx). lia.
    + intros x Hx NP. apply elem_of_pyrange in Hx. unfold leaf_weight. rewrite fo_dead0; [done | done|]. rewrite elem_of_alive. tauto.
Qed.

(** * Lengths limited to sixteen bits *)

(** [bits] counts the words of a complete code of [n] words, none longer than
    [i] bits. *)
Record level (n i : Z) (bits : list Z) : Prop := Level {
  lv_len : zlen bits = 33;
  lv_nonneg : forall s, 0 <= s < 33 -> 0 <= zat bits s;
  lv_zero : zat bits 0 = 0;
  lv_count : zsum bits = n;
  lv_complete : horner bits = 2 ^ 32;
  lv_above : forall s, i < s < 33 -> zat bits s = 0
}.

Lemma pyrange_snoc a b : a <= b -> pyrange a (b + 1) = pyrange a b ++ [b].
Proof. intros. rewrite (pyrange_app a b (b + 1)) by lia. by rewrite (pyrange_cons b (b + 1)), (pyrange_nil (b + 1)) by lia. Qed.

Definition is_leaf (codesize : list Z) (i : Z) : Z := if zat codesize i =? 0 then 0 else 1.

Lemma count_spec freq codesize : sized_code freq codesize ->
  exists bits, foldM (count_size codesize) (replicate 33 0) (pyrange 0 257) = Ret bits
    /\ level (zsum (is_leaf codesize <$> pyrange 0 257)) 32 bits.
Proof.
  intros [L R _ K].
  destruct (foldM_range (fun k bits => zlen bits = 33 /\ (forall s, 0 <= s < 33 -> 0 <= zat bits s) /\ zat bits 0 = 0
      /\ zsum bits = zsum (is_leaf codesize <$> pyrange 0 k) /\ horner bits = zsum (leaf_weight codesize <$> pyrange 0 k))
    (count_size codesize) 0 257 (replicate 33 0)) as (bits & E & B1 & B2 & B3 & B4 & B5); [lia | | |].
  - split_and!; try reflexivity. intros s Hs. by rewrite zat_replicate by (cbn; lia).
  - intros k bits Hk (B1 & B2 & B3 & B4 & B5). unfold count_size. array_step. specialize (R k Hk).
    rewrite pyrange_snoc, !fmap_app, !zsum_app by lia. cbn [fmap list_fmap]. unfold is_leaf at 2, leaf_weight at 2. rewrite !zsum_cons.
    change (zsum []) with 0. destruct (Z.eqb_spec (zat codesize k) 0) as [Z|Z].
    + exists bits. split; [done|]. split_and!; try done; lia.
    + array_step. rewrite pyset_zset by lia. eexists. split; [reflexivity|]. fold (addz bits (zat codesize k) 1). split_and!.
      * by rewrite zlen_addz.
      * intros s Hs. rewrite zat_addz by lia. specialize (B2 s Hs). destruct (s =? _); lia.
      * rewrite zat_addz by lia. destruct (Z.eqb_spec 0 (zat codesize k)); lia.
      * rewrite zsum_addz by lia. lia.
      * rewrite horner_addz, B1, B5 by lia. replace (33 - 1 - zat codesize k) with (32 - zat codesize k) by lia. lia.
  - exists bits. split; [done|]. split; try done; [by rewrite B5 | lia].
Qed.

Lemma level_top n i bits : level n i bits -> 0 <= i <= 32 -> 2 * horner (take (Z.to_nat i) bits) + zat bits i = 2 ^ i.
Proof.
  intros [L N Z0 C K A] Hi. rewrite <- horner_take by lia.
  enough (H : forall m : nat, i + 1 + Z.of_nat m <= 33 -> horner (take (Z.to_nat (i + 1 + Z.of_nat m)) bits) = 2 ^ Z.of_nat m * horner (take (Z.to_nat (i + 1)) bits)).
  { specialize (H (Z.to_nat (32 - i)) ltac:(lia)). replace (i + 1 + Z.of_nat (Z.to_nat (32 - i))) with 33 in H by lia.
    rewrite horner_take_all, K, Z2Nat.id in H by lia. replace (2 ^ 32) with (2 ^ (32 - i) * 2 ^ i) in H by (rewrite <- Z.pow_add_r by lia; f_equal; lia).
    pose proof (Z.pow_pos_nonneg 2 (32 - i) ltac:(lia) ltac:(lia)). nia. }
  induction m as [|m IH]; intros Hm; [rewrite Z.add_0_r; cbn [Z.of_nat]; lia|].
  replace (i + 1 + Z.of_nat (S m)) with ((i + 1 + Z.of_nat m) + 1) by lia. rewrite horner_take, IH, A by lia.
  replace (Z.of_nat (S m)) with (1 + Z.of_nat m) by lia. rewrite Z.pow_add_r by lia. lia.
Qed.

Lemma nonempty_below_spec bits : forall fuel j k, 0 <= k <= j -> j < zlen bits -> zat bits k <> 0 -> (Z.to_nat j < fuel)%nat ->
  exists j', nonempty_below fuel bits j = Ret j' /\ k <= j' <= j /\ zat bits j' <> 0 /\ forall s, j' < s <= j -> zat bits s = 0.
Proof.
  induction fuel as [|fuel IH]; intros j k Hk Hj NZ Hf; [lia|]. cbn [nonempty_below]. array_step. destruct (Z.eqb_spec (zat bits j) 0) as [E|E].
  - assert (j <> k) by congruence. destruct (IH (j - 1) k) as (j' & R & B & N & A); [lia | lia | done | lia|].
    exists j'. split_and!; try done; try lia. intros s Hs. destruct (decide (s = j)) as [->|]; [done|]. apply A. lia.
  - exists j. split_and!; try done; lia.
Qed.

Lemma add_at_ret bits i d : 0 <= i < zlen bits -> add_at bits i d = Ret (addz bits i d).
Proof. intros. unfold add_at. array_step. by apply pyset_zset. Qed.

(** Below sixteen bits there is a word to lengthen. *)
Lemma level_short n i bits : level n i bits -> n <= 257 -> 17 <= i <= 32 -> exists k, 0 <= k <= i - 2 /\ zat bits k <> 0.
Proof.
  intros Lv Hn Hi. pose proof (level_top n i bits Lv ltac:(lia)) as T. destruct Lv as [L N Z0 C K A].
  destruct (decide (Forall (fun s => zat bits s = 0) (pyrange 0 (i - 1)))) as [F|F].
  - exfalso. rewrite Forall_forall in F. replace (Z.to_nat i) with (Z.to_nat (i - 1 + 1)) in T by (f_equal; lia). rewrite horner_take in T by lia.
    assert (H0 : forall m : nat, Z.of_nat m <= i - 1 -> horner (take m bits) = 0).
    { induction m as [|m IH]; intros Hm; [by rewrite take_0|]. replace (S m) with (Z.to_nat (Z.of_nat m + 1)) by lia. rewrite horner_take, Nat2Z.id, IH by lia.
      rewrite F; [lia|]. apply elem_of_pyrange. lia. }
    rewrite H0 in T by lia. assert (NN : nonneg bits) by (apply nonneg_zat; intros; apply N; lia).
    pose proof (zsum_ge_elem bits (i - 1) NN ltac:(lia)). pose proof (zsum_ge_elem bits i NN ltac:(lia)).
    pose proof (Z.pow_le_mono_r 2 17 i ltac:(lia) ltac:(lia)). change (2 ^ 17) with 131072 in *. lia.
  - apply not_Forall_Exists in F; [|apply _]. apply Exists_exists in F as (k & Hk & Nk). apply elem_of_pyrange in Hk. exists k. split; [lia | done].
Qed.

Lemma shorten_spec n i : n <= 257 -> 17 <= i <= 32 -> forall fuel bits, level n i bits -> zat bits i < Z.of_nat fuel ->
  exists bits', shorten fuel i bits = Ret bits' /\ level n (i - 1) bits'.
Proof.
  intros Hn Hi. induction fuel as [|fuel IH]; intros bits Lv Hf; [pose proof (lv_nonneg _ _ _ Lv i ltac:(lia)); lia|].
  cbn [shorten]. pose proof Lv as [L N Z0 C K A]. array_step. destruct (Z.ltb_spec 0 (zat bits i)) as [P|P].
  - destruct (level_short n i bits Lv Hn Hi) as (k & Hk & Nk).
    destruct (nonempty_below_spec bits 67 (i - 2) k) as (j & -> & Hj & Nj & _); [lia | lia | done | lia|]. rewrite py_ret_bind.
    assert (j <> 0) by congruence. rewrite !add_at_ret, py_ret_bind by lia.
    rewrite !add_at_ret, py_ret_bind by (rewrite ?zlen_addz; lia). rewrite !add_at_ret, py_ret_bind by (rewrite ?zlen_addz; lia).
    rewrite !add_at_ret, py_ret_bind by (rewrite ?zlen_addz; lia).
    pose proof (level_top n i bits Lv ltac:(lia)) as T. pose proof (Z.pow_succ_r 2 (i - 1) ltac:(lia)) as TS. replace (Z.succ (i - 1)) with i in TS by lia.
    pose proof (N j ltac:(lia)).
    assert (AT : forall s, 0 <= s < 33 -> zat (addz (addz (addz (addz bits i (-2)) (i - 1) 1) (j + 1) 2) j (-1)) s
      = zat bits s + (if s =? i then -2 else 0) + (if s =? i - 1 then 1 else 0) + (if s =? j + 1 then 2 else 0) + (if s =? j then -1 else 0)).
    { intros s Hs. rewrite !zat_addz by (rewrite ?zlen_addz; lia). lia. }
    apply IH; [split|].
    + by rewrite !zlen_addz.
    + intros s Hs. rewrite AT by done. specialize (N s Hs). zcase; subst; lia.
    + rewrite AT by lia. zcase; lia.
    + rewrite !zsum_addz by (rewrite ?zlen_addz; lia). lia.
    + rewrite !horner_addz, !zlen_addz, L, K by (rewrite ?zlen_addz; lia).
      replace (33 - 1 - (i - 1)) with (1 + (33 - 1 - i)) by lia. replace (33 - 1 - j) with (1 + (33 - 1 - (j + 1))) by lia. rewrite !Z.pow_add_r by lia. lia.
    + intros s Hs. rewrite AT by lia. rewrite A by lia. zcase; lia.
    + rewrite AT by lia. zcase; lia.
  - exists bits. split; [done|]. split; try done. intros s Hs. destruct (decide (s = i)) as [->|]; [specialize (N i ltac:(lia)); lia | apply A; lia].
Qed.

(** * The table *)

(** The counts of words by length and the symbols in order of their words. *)
Record word_counts (bits values : list Z) : Prop := WordCounts {
  wc_len : zlen bits = 16;
  wc_bytes : Forall is_byte bits;
  wc_count : zsum bits = zlen values;
  wc_incomplete : horner bits < 2 ^ 16;
  wc_nodup : NoDup values;
  wc_values : Forall is_byte values
}.

Definition by_size : list (Z * Z) := concat ((fun size => (fun sym => (size, sym)) <$> pyrange 0 256) <$> pyrange 1 33).

Lemma elem_of_by_size p : p ∈ by_size <-> 1 <= p.1 < 33 /\ 0 <= p.2 < 256.
Proof.
  unfold by_size. rewrite list_elem_of_In, in_concat. split.
  - intros (l & Hl & Hp). apply list_elem_of_In in Hl. apply list_elem_of_fmap in Hl as (s & -> & Hs%elem_of_pyrange).
    apply list_elem_of_In in Hp. apply list_elem_of_fmap in Hp as (y & -> & Hy%elem_of_pyrange). done.
  - intros [H1 H2]. exists ((fun sym => (p.1, sym)) <$> pyrange 0 256). split; apply list_elem_of_In, list_elem_of_fmap.
    + exists p.1. split; [done | by apply elem_of_pyrange].
    + exists p.2. split; [by destruct p | by apply elem_of_pyrange].
Qed.

Lemma by_size_nodup : NoDup by_size.
Proof.
  unfold by_size. generalize 1, 33. intros a b. pose proof (nodup_pyrange a b) as N. induction N as [|s l Hs N IH]; [constructor|].
  cbn [fmap list_fmap concat]. apply NoDup_app. split_and!; [|intros p Hp Hc|done].
  - apply NoDup_fmap_2; [by intros x y [= ->] | apply nodup_pyrange].
  - apply list_elem_of_fmap in Hp as (y & -> & _). rewrite list_elem_of_In, in_concat in Hc. destruct Hc as (k & Hk & Hy).
    apply list_elem_of_In in Hk. apply list_elem_of_fmap in Hk as (s' & -> & Hs'). apply list_elem_of_In in Hy. apply list_elem_of_fmap in Hy as (z & [= <- _] & _). done.
Qed.

Definition has_size (codesize : list Z) (p : Z * Z) : Prop := zat codesize p.2 = p.1.
#[local] Instance has_size_dec codesize p : Decision (has_size codesize p).
Proof. unfold has_size. apply _. Defined.

Lemma sized_all codesize ps acc : zlen codesize = 257 -> (forall p, p ∈ ps -> 0 <= p.2 < 256) ->
  foldM (sized codesize) acc ps = Ret (acc ++ (snd <$> filter (has_size codesize) ps)).
Proof.
  intros L. revert acc. induction ps as [|[size sym] ps IH]; intros acc H; [cbn; by rewrite app_nil_r|]. cbn [foldM sized].
  pose proof (H (size, sym) ltac:(left)) as Hs. cbn [snd] in Hs. rewrite (pyget_zat codesize sym) by lia. do 2 rewrite py_ret_bind.
  rewrite IH by (intros; apply H; by right). rewrite filter_cons. unfold has_size at 2. cbn [fst snd].
  destruct (Z.eqb_spec (zat codesize sym) size); [rewrite decide_True by done | rewrite decide_False by done; done]. by rewrite <- app_assoc.
Qed.

Lemma values_spec freq codesize : sized_code freq codesize ->
  exists values, foldM (sized codesize) [] by_size = Ret values /\ NoDup values
    /\ (forall s, s ∈ values <-> 0 <= s < 256 /\ zat freq s <> 0) /\ zlen values = zsum (is_leaf codesize <$> pyrange 0 256).
Proof.
  intros [L R A _]. exists (snd <$> filter (has_size codesize) by_size).
  rewrite sized_all by (done || intros p [_ ?]%elem_of_by_size; done). split; [done|].
  assert (N : NoDup (snd <$> filter (has_size codesize) by_size)).
  { apply NoDup_fmap_2_strong; [|apply NoDup_filter, by_size_nodup].
    intros [x1 y1] [x2 y2] [H1 _]%list_elem_of_filter [H2 _]%list_elem_of_filter E. unfold has_size in *. cbn in *. congruence. }
  assert (E : forall s, s ∈ snd <$> filter (has_size codesize) by_size <-> 0 <= s < 256 /\ zat freq s <> 0).
  { intros s. rewrite list_elem_of_fmap. setoid_rewrite list_elem_of_filter. setoid_rewrite elem_of_by_size. split.
    - intros ([size sym] & -> & H & H1 & H2). unfold has_size in H. cbn in *. split; [done|]. rewrite <- A by lia. lia.
    - intros [H1 H2]. exists (zat codesize s, s). unfold has_size. cbn [fst snd]. rewrite <- A in H2 by lia. specialize (R s ltac:(lia)).
      split_and!; (done || lia). }
  split_and!; [done | done|].
  assert (P : Permutation (snd <$> filter (has_size codesize) by_size) (filter (fun s => zat codesize s <> 0) (pyrange 0 256))).
  { apply NoDup_Permutation; [done | apply NoDup_filter, nodup_pyrange|]. intros s. rewrite E, list_elem_of_filter, elem_of_pyrange.
    split; [intros [H1 H2] | intros [H2 H1]]; (split; [try done | try done]); [rewrite A by lia | rewrite <- A by lia]; done. }
  unfold zlen. rewrite P. clear. induction (pyrange 0 256) as [|a l IH]; [done|]. rewrite filter_cons. cbn [fmap list_fmap]. rewrite zsum_cons, <- IH.
  unfold is_leaf. case_decide as D; destruct (Z.eqb_spec (zat codesize a) 0); try done; cbn [length]; lia.
Qed.

(** All the words have one length. *)
Lemma single_horner l i : nonneg l -> 0 <= i < zlen l -> zsum l <= zat l i -> horner l = zat l i * 2 ^ (zlen l - 1 - i).
Proof.
  intros N Hi S. pose proof (horner_zset l i 0 Hi) as H. pose proof (zsum_zset l i 0 Hi) as HS.
  assert (NZ : nonneg (zset l i 0)) by (apply Forall_zset; [done | lia]).
  assert (Z : zset l i 0 = zeros (zlen l)).
  { apply zat_ext; [rewrite zlen_zset, zlen_zeros; lia|]. intros k Hk. rewrite zlen_zset in Hk. unfold zeros. rewrite zat_replicate by lia.
    pose proof (zat_nonneg _ k NZ). pose proof (zsum_ge_elem _ k NZ ltac:(by rewrite zlen_zset)). lia. }
  assert (horner (zeros (zlen l)) = 0).
  { clear. unfold zeros. induction (Z.to_nat (zlen l)) as [|n IH]; [done|]. cbn [replicate]. by rewrite horner_cons, IH. }
  rewrite Z in H. lia.
Qed.

(** The code is complete up to the word of the reserved symbol. *)
(** ** One word less *)

Lemma shortened n bits : n <= 257 -> level n 32 bits -> exists bits', foldM (fun bits i => shorten 258 i bits) bits (rev (pyrange 17 33)) = Ret bits' /\ level n 16 bits'.
Proof.
  intros Hn Lv. destruct (foldM_range_down (fun i bits => level n (i - 1) bits) (fun bits i => shorten 258 i bits) 17 33 bits) as (bits' & E & Lv'); [lia | done | |by exists bits'].
  intros i b Hi Lb. replace (i + 1 - 1) with i in Lb by lia. apply (shorten_spec n); [lia | lia | done|].
  pose proof Lb as []. assert (NN : nonneg b) by (apply nonneg_zat; intros; apply lv_nonneg0; lia). pose proof (zsum_ge_elem b i NN ltac:(lia)). lia.
Qed.

Lemma level_used n bits : level n 16 bits -> exists k, 0 <= k <= 16 /\ zat bits k <> 0.
Proof.
  intros [BL _ _ _ BK BA]. destruct (decide (Forall (fun s => zat bits s = 0) (pyrange 0 17))) as [F|F].
  - exfalso. rewrite Forall_forall in F. assert (E0 : bits = replicate 33 0); [|rewrite E0 in BK; vm_compute in BK; done].
    apply zat_ext; [by rewrite BL|]. intros i Hi. rewrite zat_replicate by lia. destruct (decide (i < 17)); [apply F, elem_of_pyrange; lia | apply BA; lia].
  - apply not_Forall_Exists in F; [|apply _]. apply Exists_exists in F as (k & Hk & Nk). apply elem_of_pyrange in Hk. exists k. split; [lia | done].
Qed.

Section dropped.
Context (n : Z) (bits : list Z) (i : Z).
Hypothesis Lv : level n 16 bits.
Hypothesis Hi : 1 <= i <= 16.
Hypothesis Ni : zat bits i <> 0.
Hypothesis Zi : forall s, i < s <= 16 -> zat bits s = 0.
Let final := addz bits i (-1).

Lemma dropped_at s : 0 <= s < 33 -> zat final s = zat bits s + (if s =? i then -1 else 0).
Proof. intros Hs. destruct Lv. unfold final. rewrite zat_addz by lia. done. Qed.
Lemma dropped_len : zlen final = 33.
Proof. destruct Lv. unfold final. by rewrite zlen_addz. Qed.

Lemma dropped_split : final = 0 :: pyslice final 1 17 ++ replicate 16 0.
Proof.
  pose proof Lv as [BL BN BZ _ _ BA]. pose proof dropped_len as FL. apply zat_ext; [rewrite zlen_cons, zlen_app, zlen_pyslice, FL by lia; done|]. intros s Hs. rewrite FL in Hs.
  destruct (decide (s = 0)) as [->|]; [rewrite dropped_at, BZ by lia; destruct (Z.eqb_spec 0 i); [lia | done]|]. rewrite zat_cons by lia.
  assert (PL : zlen (pyslice final 1 17) = 16) by (rewrite zlen_pyslice; lia). destruct (decide (s < 17)).
  - rewrite zat_app_l by lia. rewrite pyslice_nn by lia. unfold zat. rewrite lookup_take_lt by lia. rewrite lookup_drop. do 2 f_equal. lia.
  - rewrite zat_app_r, zat_replicate by lia. rewrite dropped_at, BA by lia. destruct (Z.eqb_spec s i); lia.
Qed.
Lemma dropped_nonneg : nonneg (pyslice final 1 17).
Proof.
  pose proof Lv as [_ BN _ _ _ _]. assert (NN : nonneg final).
  { apply nonneg_zat. intros s Hs. rewrite dropped_len in Hs. rewrite dropped_at by lia. specialize (BN s ltac:(lia)). destruct (Z.eqb_spec s i) as [->|]; lia. }
  rewrite dropped_split in NN. inversion_clear NN as [|? ? _ NN']. by apply Forall_app in NN' as [? _].
Qed.
Lemma dropped_horner : horner (pyslice final 1 17) = 2 ^ 16 - 2 ^ (16 - i).
Proof.
  pose proof Lv as [BL _ _ _ BK _]. pose proof (horner_addz bits i (-1) ltac:(lia)) as HA. fold final in HA. rewrite dropped_split, horner_cons, horner_app, BK, BL in HA.
  change (horner (replicate 16 0)) with 0 in HA. change (zlen (replicate 16 0)) with 16 in HA.
  replace (33 - 1 - i) with (16 + (16 - i)) in HA by lia. rewrite Z.pow_add_r in HA by lia. change (2 ^ 32) with (2 ^ 16 * 2 ^ 16) in HA. lia.
Qed.
Lemma dropped_count : zsum (pyslice final 1 17) = n - 1.
Proof.
  pose proof Lv as [BL _ _ BC _ _]. pose proof (zsum_addz bits i (-1) ltac:(lia)) as HA. fold final in HA. rewrite dropped_split, zsum_cons, zsum_app in HA. change (zsum (replicate 16 0)) with 0 in HA. lia.
Qed.

(** No length has all of 256 words: the one left out would not fit. *)
Lemma dropped_bytes : n <= 257 -> Forall is_byte (pyslice final 1 17).
Proof.
  intros Hn. pose proof dropped_nonneg as PN. pose proof dropped_horner as FH. pose proof dropped_count as PS. pose proof dropped_len as FL. assert (PL : zlen (pyslice final 1 17) = 16) by (rewrite zlen_pyslice; lia).
  apply Forall_forall. intros x (s & Hs & <-)%elem_zat. pose proof (zat_nonneg _ s PN). pose proof (zsum_ge_elem _ s PN Hs). split; [done|].
  destruct (decide (zat (pyslice final 1 17) s = 256)) as [E|]; [|lia]. exfalso. rewrite (single_horner _ s) in FH by (done || lia).
  assert (s + 1 <= i).
  { destruct (decide (s + 1 <= i)) as [|G]; [done|]. exfalso. assert (F0 : zat final (s + 1) = 0) by (rewrite dropped_at, Zi by lia; destruct (Z.eqb_spec (s + 1) i); lia).
    rewrite dropped_split, zat_cons, zat_app_l in F0 by lia. replace (s + 1 - 1) with s in F0 by lia. lia. }
  rewrite E, PL in FH. replace (16 - 1 - s) with ((16 - i) + (i - 1 - s)) in FH by lia. replace (2 ^ 16) with (2 ^ (16 - i) * (2 * 2 ^ (i - 1))) in FH.
  2: { rewrite <- Z.pow_succ_r, <- Z.pow_add_r by lia. f_equal. lia. }
  rewrite Z.pow_add_r in FH by lia. pose proof (Z.pow_pos_nonneg 2 (16 - i) ltac:(lia) ltac:(lia)).
  assert (256 * 2 ^ (i - 1 - s) + 1 = 2 * 2 ^ (i - 1)) by nia. lia.
Qed.
End dropped.

Lemma optimal_spec freq : zlen freq = 256 -> nonneg freq -> 1 <= zsum freq < 9227464 ->
  exists bits values, optimal_table freq = Ret (bits, values) /\ word_counts bits values
    /\ forall s, s ∈ values <-> 0 <= s < 256 /\ zat freq s <> 0.
Proof.
  intros L N T. unfold optimal_table. destruct (merge_sizes freq L N T) as (codesize & -> & SC). rewrite py_ret_bind.
  destruct (count_spec _ _ SC) as (bits & -> & Lv). rewrite py_ret_bind. destruct (values_spec _ _ SC) as (values & EV & NV & IV & LV).
  set (n := zsum (is_leaf codesize <$> pyrange 0 257)) in Lv.
  assert (Hn : n = zlen values + 1).
  { unfold n. change 257 with (256 + 1). rewrite (pyrange_snoc 0 256), fmap_app, zsum_app, <- LV by lia. cbn [fmap list_fmap]. rewrite zsum_cons. change (zsum []) with 0.
    unfold is_leaf at 1. rewrite (proj2 (Z.eqb_neq _ _)); [lia|]. rewrite (sc_alive _ _ SC) by lia. rewrite zat_app_r by lia. rewrite L. done. }
  assert (V256 : zlen values <= 256).
  { assert (S : values ⊆ pyrange 0 256) by (intros s [? _]%IV; by apply elem_of_pyrange).
    pose proof (submseteq_length _ _ (NoDup_submseteq _ _ NV S)) as LL. change (length (pyrange 0 256)) with 256%nat in LL. unfold zlen. lia. }
  destruct (shortened n bits ltac:(lia) Lv) as (bits' & -> & Lv'). rewrite py_ret_bind. pose proof Lv' as [BL _ BZ _ _ _]. destruct (level_used n bits' Lv') as (k & Hk & NK).
  destruct (nonempty_below_spec bits' 67 16 k) as (i & -> & Hi & Ni & Zi); [lia | lia | done | lia|]. rewrite py_ret_bind.
  assert (i <> 0) by congruence. rewrite add_at_ret, py_ret_bind by lia. fold by_size. rewrite EV, py_ret_bind. do 2 eexists. split; [reflexivity|].
  split; [|intros s; rewrite IV; split; intros [? ?]; (split; [done|]); [rewrite zat_app_l in * by lia | rewrite zat_app_l by lia]; done].
  assert (I : 1 <= i <= 16) by lia. pose proof (dropped_len n bits' i Lv') as DL. pose proof (dropped_count n bits' i Lv' I) as DC. pose proof (dropped_horner n bits' i Lv' I) as DH.
  pose proof (Z.pow_pos_nonneg 2 (16 - i) ltac:(lia) ltac:(lia)). split; [rewrite zlen_pyslice; lia | by apply (dropped_bytes n bits' i Lv' I Ni Zi); lia | lia | lia | done|].
  apply Forall_forall. intros s [? _]%IV. split; lia.
Qed.
End optimal.

(** * Canonical words *)

Section canonical.
Context (bits values : list Z).

(** The first word of a length, and the index of its symbol. *)
Definition first_code (L : Z) : Z := 2 * horner (take (Z.to_nat (L - 1)) bits).
Definition first_index (L : Z) : Z := zsum (take (Z.to_nat (L - 1)) bits).
Definition width (L : Z) : Z := zat bits (L - 1).

(** [c] is the word of [L] bits for the symbol [s]. *)
Definition word (L c s : Z) : Prop :=
  1 <= L <= 16 /\ 0 <= c - first_code L < width L /\ values !! Z.to_nat (first_index L + (c - first_code L)) = Some s.

Definition words_of (L : Z) : list (Z * Z * Z) :=
  (fun j => (zat values (first_index L + j), L, first_code L + j)) <$> pyrange 0 (width L).
Definition words_below (L : Z) : list (Z * Z * Z) := concat (words_of <$> pyrange 1 L).

Hypothesis len : zlen bits = 16.
Hypothesis pos : nonneg bits.
Hypothesis enough : zsum bits <= zlen values.

Lemma width_pos L : 0 <= width L.
Proof. by apply zat_nonneg. Qed.

Lemma first_code_next L : 1 <= L <= 16 -> first_code (L + 1) = 2 * (first_code L + width L).
Proof.
  intros. unfold first_code, width. replace (L + 1 - 1) with (L - 1 + 1) by lia. rewrite horner_take by lia. lia.
Qed.
Lemma first_index_next L : 1 <= L <= 16 -> first_index (L + 1) = first_index L + width L.
Proof.
  intros. unfold first_index, width. replace (Z.to_nat (L + 1 - 1)) with (S (Z.to_nat (L - 1))) by lia.
  rewrite (take_S_r _ _ _ (lookup_zat bits (L - 1) ltac:(lia))), zsum_app. cbn [zsum foldr]. lia.
Qed.
Lemma first_code_pos L : 0 <= first_code L.
Proof. unfold first_code. pose proof (horner_nonneg _ (Forall_take _ (Z.to_nat (L - 1)) _ pos)). lia. Qed.
Lemma first_index_pos L : 0 <= first_index L.
Proof. apply zsum_nonneg, Forall_take, pos. Qed.
Lemma index_bound L : 1 <= L <= 16 -> first_index L + width L <= zsum bits.
Proof.
  intros. rewrite <- first_index_next by done. unfold first_index. rewrite <- (take_drop (Z.to_nat (L + 1 - 1)) bits) at 2. rewrite zsum_app.
  pose proof (zsum_nonneg _ (Forall_drop _ (Z.to_nat (L + 1 - 1)) _ pos)). lia.
Qed.

(** Words of different lengths never start one another. *)
Lemma first_code_ge L L' : 1 <= L < L' -> L' <= 17 -> (first_code L + width L) * 2 ^ (L' - L) <= first_code L'.
Proof.
  intros H. remember (Z.to_nat (L' - L - 1)) as n eqn:E. revert L' H E. induction n as [|n IH]; intros L' H E HL.
  - replace L' with (L + 1) by lia. rewrite first_code_next by lia. replace (L + 1 - L) with 1 by lia. lia.
  - specialize (IH (L' - 1) ltac:(lia) ltac:(lia) ltac:(lia)). replace L' with (L' - 1 + 1) at 2 by lia. rewrite first_code_next by lia.
    pose proof (width_pos (L' - 1)). replace (L' - L) with (1 + (L' - 1 - L)) by lia. rewrite Z.pow_add_r by lia. lia.
Qed.
Lemma word_prefix L c s L' c' s' : word L c s -> word L' c' s' -> L < L' -> c < c' / 2 ^ (L' - L).
Proof.
  intros (HL & HC & _) (HL' & HC' & _) H. pose proof (first_code_ge L L' ltac:(lia) ltac:(lia)) as G.
  pose proof (Z.pow_pos_nonneg 2 (L' - L) ltac:(lia) ltac:(lia)). apply Z.lt_le_trans with (first_code L + width L); [lia|].
  apply Z.div_le_lower_bound; lia.
Qed.

Lemma elem_of_words_of L s L0 c : 1 <= L <= 16 -> (s, L0, c) ∈ words_of L <-> L0 = L /\ word L c s.
Proof.
  intros HL. unfold words_of, word. rewrite list_elem_of_fmap. pose proof (index_bound L HL). pose proof (first_index_pos L). split.
  - intros (j & [= -> -> ->] & Hj%elem_of_pyrange). split_and!; try done; try lia. replace (first_code L + j - first_code L) with j by lia.
    apply lookup_zat. lia.
  - intros (-> & _ & HC & E). exists (c - first_code L). rewrite elem_of_pyrange. split; [|lia]. rewrite (zat_lookup values _ s) by (done || lia).
    do 2 f_equal. lia.
Qed.
Lemma elem_of_words_below L' s L c : L' <= 17 -> (s, L, c) ∈ words_below L' <-> L < L' /\ word L c s.
Proof.
  intros HL'. unfold words_below. rewrite list_elem_of_In, in_concat. split.
  - intros (l & Hl & Hx). apply list_elem_of_In in Hl. apply list_elem_of_fmap in Hl as (L0 & -> & HL0%elem_of_pyrange).
    apply list_elem_of_In in Hx. apply elem_of_words_of in Hx as [-> W]; [|lia]. split; [lia | done].
  - intros [H W]. pose proof W as [HL _]. exists (words_of L). split; apply list_elem_of_In; [|by apply elem_of_words_of].
    apply list_elem_of_fmap. exists L. rewrite elem_of_pyrange. split; [done | lia].
Qed.

(** Both tables of the tool are filled with the words in this order. *)
Lemma words_filled {T} (ins : Z -> Z -> Z -> T -> T) (t : T) :
  exists code index, foldM (Tool.next_length ins bits values) (t, 0, 0) (pyrange 1 17)
    = Ret (foldl (fun t '(s, L, c) => ins s L c t) t (words_below 17), code, index).
Proof.
  destruct (foldM_range (fun L (st : T * Z * Z) =>
      st = (foldl (fun t '(s, L, c) => ins s L c t) t (words_below L), first_code L, first_index L))
    (Tool.next_length ins bits values) 1 17 (t, 0, 0)) as (st & E & ->); [lia | done | | eauto].
  intros L st HL ->. unfold Tool.next_length. array_step. fold (width L). pose proof (width_pos L).
  destruct (foldM_range (fun j (st : T * Z * Z) =>
      st = (foldl (fun t '(s, L, c) => ins s L c t) t (words_below L ++ ((fun j => (zat values (first_index L + j), L, first_code L + j)) <$> pyrange 0 j)),
            first_code L + j, first_index L + j))
    (Tool.next_word ins values L) 0 (width L)
    (foldl (fun t '(s, L, c) => ins s L c t) t (words_below L), first_code L, first_index L)) as (st & -> & ->); [lia | | |].
  - rewrite pyrange_nil by lia. cbn [fmap list_fmap]. by rewrite app_nil_r, !Z.add_0_r.
  - intros j st Hj ->. unfold Tool.next_word. pose proof (index_bound L ltac:(lia)). pose proof (first_index_pos L). array_step. eexists. split; [reflexivity|].
    rewrite pyrange_snoc, fmap_app, app_assoc, !foldl_app by lia. cbn [fmap list_fmap foldl]. by rewrite !Z.add_assoc.
  - rewrite py_ret_bind. cbn beta iota. eexists. split; [reflexivity|]. rewrite first_code_next, first_index_next by lia.
    unfold words_below at 2. rewrite (pyrange_snoc 1 L), fmap_app, concat_app by lia. cbn [fmap list_fmap concat]. rewrite app_nil_r.
    fold (words_below L) (words_of L). rewrite Z.shiftl_mul_pow2 by lia. do 2 f_equal. lia.
Qed.

Lemma word_inj L c s s' : word L c s -> word L c s' -> s = s'.
Proof. intros (_ & _ & E) (_ & _ & E'). congruence. Qed.

(** The symbols of a shorter length come first. *)
Lemma first_index_ge L L' : 1 <= L < L' -> L' <= 17 -> first_index L + width L <= first_index L'.
Proof.
  intros H. remember (Z.to_nat (L' - L - 1)) as n eqn:E. revert L' H E. induction n as [|n IH]; intros L' H E HL.
  - replace L' with (L + 1) by lia. rewrite first_index_next by lia. lia.
  - specialize (IH (L' - 1) ltac:(lia) ltac:(lia) ltac:(lia)). replace L' with (L' - 1 + 1) by lia. rewrite first_index_next by lia.
    pose proof (width_pos (L' - 1)). lia.
Qed.
(** A symbol that occurs once has one word. *)
Lemma index_inj L c s L' c' s' : word L c s -> word L' c' s' ->
  first_index L + (c - first_code L) = first_index L' + (c' - first_code L') -> L = L' /\ c = c'.
Proof.
  intros (H1 & H2 & _) (H3 & H4 & _) E. destruct (Z.lt_trichotomy L L') as [G|[->|G]]; [|lia|].
  - pose proof (first_index_ge L L' ltac:(lia) ltac:(lia)). lia.
  - pose proof (first_index_ge L' L ltac:(lia) ltac:(lia)). lia.
Qed.
Lemma word_unique L c L' c' s : NoDup values -> word L c s -> word L' c' s -> L = L' /\ c = c'.
Proof.
  intros N W W'. pose proof W as (H1 & H2 & E). pose proof W' as (H3 & H4 & E'). apply (index_inj L c s L' c' s W W').
  pose proof (NoDup_lookup _ _ _ _ N E E'). pose proof (first_index_pos L). pose proof (first_index_pos L'). lia.
Qed.

Lemma values_have_words i s : 0 <= i < zsum bits -> values !! Z.to_nat i = Some s -> exists L c, word L c s.
Proof.
  intros Hi E.
  enough (G : forall n : nat, Z.of_nat n <= 16 -> i < first_index (Z.of_nat n + 1) -> exists L c, word L c s).
  { apply (G 16%nat); [lia|]. unfold first_index. rewrite take_ge by (unfold zlen in len; lia). lia. }
  induction n as [|n IH]; intros Hn Hl; [change (first_index (Z.of_nat 0 + 1)) with 0 in Hl; lia|].
  destruct (decide (i < first_index (Z.of_nat n + 1))) as [|G]; [apply IH; lia|].
  replace (Z.of_nat (S n) + 1) with (Z.of_nat n + 1 + 1) in Hl by lia. rewrite first_index_next in Hl by lia.
  exists (Z.of_nat n + 1), (first_code (Z.of_nat n + 1) + (i - first_index (Z.of_nat n + 1))). split; [lia|]. split; [lia|]. rewrite <- E. do 2 f_equal. lia.
Qed.

Lemma foldl_insert `{Countable K} {V A} (key : A -> K) (val : A -> V) (l : list A) (m : gmap K V) k v :
  (forall a b, a ∈ l -> b ∈ l -> key a = key b -> val a = val b) ->
  foldl (fun m a => <[key a := val a]> m) m l !! k = Some v
  <-> (exists a, a ∈ l /\ key a = k /\ val a = v) \/ ((forall a, a ∈ l -> key a <> k) /\ m !! k = Some v).
Proof.
  intros F. revert m. induction l as [|a l IH] using rev_ind; intros m.
  - cbn [foldl]. split; [intros E; right; split; [|done]; by intros a Ha%not_elem_of_nil|].
    intros [(a & Ha & _)|[_ E]]; [by apply not_elem_of_nil in Ha | done].
  - rewrite foldl_app. cbn [foldl]. setoid_rewrite elem_of_app. setoid_rewrite list_elem_of_singleton.
    destruct (decide (key a = k)) as [E|E].
    + rewrite E, lookup_insert_eq. split.
      * intros [= <-]. left. exists a. auto.
      * intros [(b & [Hb|Hb] & Eb & <-)|[Hn _]]; [|by subst b|].
        -- f_equal. apply F; [apply elem_of_app; right; by apply list_elem_of_singleton | apply elem_of_app; by left | congruence].
        -- exfalso. apply (Hn a); auto.
    + rewrite lookup_insert_ne by done. rewrite IH by (intros; apply F; [apply elem_of_app; by left | apply elem_of_app; by left | done]). split.
      * intros [(b & Hb & Eb & Ev)|[Hn Em]]; [left; exists b; auto | right; split; [|done]]. intros b [Hb| ->]; auto.
      * intros [(b & [Hb| ->] & Eb & Ev)|[Hn Em]]; [left; eauto | done | right; split; auto].
Qed.

Lemma build_decoder_spec : exists t, Tool.build_decoder bits values = Ret t /\ forall L c s, t !! (L, c) = Some s <-> word L c s.
Proof.
  unfold Tool.build_decoder. destruct (words_filled (fun value length code => insert (length, code) value) (∅ : gmap (Z * Z) Z)) as (code & index & ->).
  rewrite py_ret_bind. eexists. split; [reflexivity|]. intros L c s.
  rewrite (foldl_pointwise _ (fun (m : gmap (Z * Z) Z) (a : Z * Z * Z) => <[(a.1.2, a.2) := a.1.1]> m)) by (by intros ? [[? ?] ?]).
  rewrite foldl_insert.
  - split; [intros [([[s' L'] c'] & Ha & [= -> ->] & Ev)|[_ E]]; [|by rewrite lookup_empty in E]|].
    + cbn in Ev. subst s'. by apply elem_of_words_below in Ha as [_ W].
    + intros W. left. exists (s, L, c). split_and!; try done. apply elem_of_words_below; [done|]. split; [|done]. destruct W; lia.
  - intros [[s1 L1] c1] [[s2 L2] c2] H1 H2 [= -> ->]. apply elem_of_words_below in H1 as [_ W1]; [|done]. apply elem_of_words_below in H2 as [_ W2]; [|done].
    by eapply word_inj.
Qed.

Lemma code_table_spec : NoDup values -> exists t, Tool.code_table bits values = Ret t /\ forall s c L, t !! s = Some (c, L) <-> word L c s.
Proof.
  intros N. unfold Tool.code_table. destruct (words_filled (fun value length code => insert value (code, length)) (∅ : gmap Z (Z * Z))) as (code & index & ->).
  rewrite py_ret_bind. eexists. split; [reflexivity|]. intros s c L.
  rewrite (foldl_pointwise _ (fun (m : gmap Z (Z * Z)) (a : Z * Z * Z) => <[a.1.1 := (a.2, a.1.2)]> m)) by (by intros ? [[? ?] ?]).
  rewrite foldl_insert.
  - split; [intros [([[s' L'] c'] & Ha & Es & [= -> ->])|[_ E]]; [|by rewrite lookup_empty in E]|].
    + cbn in Es. subst s'. by apply elem_of_words_below in Ha as [_ W].
    + intros W. left. exists (s, L, c). split_and!; try done. apply elem_of_words_below; [done|]. split; [|done]. destruct W; lia.
  - intros [[s1 L1] c1] [[s2 L2] c2] H1 H2 E12. cbn in E12. subst s2. apply elem_of_words_below in H1 as [_ W1]; [|done]. apply elem_of_words_below in H2 as [_ W2]; [|done].
    destruct (word_unique _ _ _ _ _ N W1 W2) as [-> ->]. done.
Qed.

Lemma every_value_word s : zsum bits = zlen values -> s ∈ values -> exists L c, word L c s.
Proof.
  intros T [i E]%list_elem_of_lookup_1. pose proof (lookup_lt_Some _ _ _ E).
  apply (values_have_words (Z.of_nat i) s); [unfold zlen in T; lia | by rewrite Nat2Z.id].
Qed.

(** * The kernel's table *)

(** No length has more words than there are. *)
Definition fits : Prop := forall L, 1 <= L <= 16 -> first_code L + width L <= 2 ^ L.

Lemma complete_fits : horner bits <= 2 ^ 16 -> fits.
Proof.
  intros H L HL. assert (E : first_code L + width L = horner (take (Z.to_nat L) bits)).
  { unfold first_code, width. replace (Z.to_nat L) with (Z.to_nat (L - 1 + 1)) by lia. rewrite horner_take by lia. lia. }
  rewrite E. rewrite <- (take_drop (Z.to_nat L) bits), horner_app in H. pose proof (horner_nonneg _ (Forall_drop _ (Z.to_nat L) _ pos)).
  assert (zlen (drop (Z.to_nat L) bits) = 16 - L) as LD by (unfold zlen in *; rewrite length_drop; lia). rewrite LD in H.
  replace 16 with ((16 - L) + L) in H at 2 by lia. rewrite Z.pow_add_r in H by lia. pose proof (Z.pow_pos_nonneg 2 (16 - L) ltac:(lia) ltac:(lia)). nia.
Qed.

(** What [lookahead] holds once the lengths below [L] are entered. *)
Definition looks (L : Z) (lookahead : list Z) : Prop := zlen lookahead = 256 /\ forall b, 0 <= b < 256 ->
  (exists l c s, l < L /\ l <= 8 /\ word l c s /\ b / 2 ^ (8 - l) = c /\ zat lookahead b = l * 256 + s)
  \/ (zat lookahead b = 0 /\ forall l c s, l < L -> l <= 8 -> word l c s -> b / 2 ^ (8 - l) <> c).

Record table_ok (t : Kernel.huffman) : Prop := TableOk {
  tk_valid : Kernel.valid t = true;
  tk_min : forall L, 1 <= L <= 16 -> zat (Kernel.mincode t) L = first_code L;
  tk_ptr : forall L, 1 <= L <= 16 -> zat (Kernel.valptr t) L = first_index L;
  tk_max : forall L, 1 <= L <= 16 -> zat (Kernel.maxcode t) L = if 0 <? width L then first_code L + width L - 1 else -1;
  tk_values : forall i, 0 <= i < zsum bits -> zat (Kernel.values t) i = zat values i;
  tk_look : looks 17 (Kernel.lookahead t)
}.

Lemma fill_word_at L symbol value la b : 1 <= L <= 8 -> 0 <= value -> is_byte symbol -> zlen la = 256 -> 0 <= b < 256 ->
  zlen (Kernel.fill_word L symbol value la) = 256
  /\ zat (Kernel.fill_word L symbol value la) b = if b / 2 ^ (8 - L) =? value then L * 256 + symbol else zat la b.
Proof.
  intros HL HV HS LA HB. unfold Kernel.fill_word. rewrite !Z.shiftl_mul_pow2 by lia. set (w := 2 ^ (8 - L)). assert (W : 0 < w) by (apply Z.pow_pos_nonneg; lia).
  rewrite Z.mul_1_l. replace (Z.lor (L * 2 ^ 8) symbol) with (L * 256 + symbol).
  2: { unfold is_byte in HS. by rewrite <- Z.shiftl_mul_pow2, lor_shiftl_add by lia. }
  destruct (foldl_range (fun j l => zlen l = 256 /\ zat l b = if (value * w <=? b) && (b <? value * w + j) then L * 256 + symbol else zat la b)
    (fun lookahead fill => if value * w + fill <? 256 then zset lookahead (value * w + fill) (L * 256 + symbol) else lookahead)
    0 w la) as [H1 H2]; [lia | | |].
  - split; [done|]. zcase; cbn [andb]; (lia || done).
  - intros j l Hj [L1 A1]. zcase; cbn [andb] in *; rewrite ?zlen_zset; (split; [done|]); rewrite ?zat_zset by nia; zcase; try nia;
      revert A1; zcase; cbn [andb]; intros; try nia.
  - split; [done|]. rewrite H2. replace (b / w =? value) with ((value * w <=? b) && (b <? value * w + w)); [done|].
    pose proof (Z.div_mod b w ltac:(lia)). pose proof (Z.mod_pos_bound b w W). zcase; cbn [andb]; nia.
Qed.

Hypothesis bytes : Forall is_byte values.
Hypothesis small : zsum bits <= 256.

Lemma word_symbol L c s : word L c s -> is_byte s.
Proof. intros (_ & _ & E). by eapply Forall_lookup_1 in bytes. Qed.

(** The table once the lengths below [L] are entered. *)
Record building (L : Z) (t : Kernel.huffman) : Prop := Building {
  bd_min_len : zlen (Kernel.mincode t) = 17;
  bd_ptr_len : zlen (Kernel.valptr t) = 17;
  bd_max_len : zlen (Kernel.maxcode t) = 18;
  bd_min : forall l, 1 <= l < L -> zat (Kernel.mincode t) l = first_code l;
  bd_ptr : forall l, 1 <= l < L -> zat (Kernel.valptr t) l = first_index l;
  bd_max : forall l, 1 <= l < L -> zat (Kernel.maxcode t) l = if 0 <? width l then first_code l + width l - 1 else -1;
  bd_values : forall i, 0 <= i < zsum bits -> zat (Kernel.values t) i = zat values i;
  bd_look : looks L (Kernel.lookahead t)
}.

(** The words of one length are entered in the lookahead table. *)
Lemma looks_next L vs la : 1 <= L <= 16 -> (forall i, 0 <= i < zsum bits -> zat vs i = zat values i) -> looks L la ->
  looks (L + 1) (foldl (fun lookahead offset =>
    if L <=? 8 then Kernel.fill_word L (zat vs (first_index L + offset)) (first_code L + offset) lookahead else lookahead) la (pyrange 0 (width L))).
Proof.
  intros HL HV [LA LK]. pose proof (width_pos L). pose proof (index_bound L HL) as IB. pose proof (first_index_pos L). pose proof (first_code_pos L).
  destruct (Z.leb_spec L 8) as [H8|H8].
  - destruct (foldl_range (fun j l => zlen l = 256 /\ forall b, 0 <= b < 256 ->
        zat l b = if (first_code L <=? b / 2 ^ (8 - L)) && (b / 2 ^ (8 - L) <? first_code L + j)
                  then L * 256 + zat values (first_index L + (b / 2 ^ (8 - L) - first_code L)) else zat la b)
      (fun lookahead offset => Kernel.fill_word L (zat vs (first_index L + offset)) (first_code L + offset) lookahead) 0 (width L) la) as [L1 A1]; [lia | | |].
    + split; [done|]. intros b Hb. zcase; cbn [andb]; (lia || done).
    + intros j l Hj [L1 A1]. rewrite HV by lia.
      assert (HS : is_byte (zat values (first_index L + j))) by (eapply Forall_forall; [exact bytes | apply zat_elem; lia]).
      split; [apply (fill_word_at L _ _ l 0); (done || lia)|]. intros b Hb.
      rewrite (proj2 (fill_word_at L (zat values (first_index L + j)) (first_code L + j) l b ltac:(lia) ltac:(lia) HS L1 Hb)), A1 by done.
      set (q := b / 2 ^ (8 - L)). destruct (Z.eqb_spec q (first_code L + j)) as [E|N].
      * rewrite E. zcase; cbn [andb]; try lia. do 2 f_equal. lia.
      * zcase; cbn [andb]; (lia || done).
    + split; [done|]. intros b Hb. rewrite A1 by done. set (q := b / 2 ^ (8 - L)).
      destruct (decide (first_code L <= q < first_code L + width L)) as [I|I].
      * left. exists L, q, (zat values (first_index L + (q - first_code L))). zcase; cbn [andb]; try lia. split_and!; try (done || lia).
        split; [lia|]. split; [lia|]. apply lookup_zat. lia.
      * assert (HQ : forall l c s, L <= l < L + 1 -> word l c s -> b / 2 ^ (8 - l) <> c).
        { intros l c s Hl (_ & HC & _). assert (l = L) as -> by lia. fold q. lia. }
        replace ((first_code L <=? q) && (q <? first_code L + width L)) with false by (zcase; cbn [andb]; (lia || done)).
        destruct (LK b Hb) as [(l & c & s & Hl & W)|[Z0 NW]].
        -- left. exists l, c, s. split; [lia | done].
        -- right. split; [done|]. intros l c s Hl Hl8 W. destruct (decide (l < L)); [by eapply NW|]. eapply HQ; [|done]. lia.
  - assert (E : forall n, foldl (fun (lookahead : list Z) (_ : Z) => lookahead) la (pyrange 0 n) = la).
    { intros n. induction (pyrange 0 n); done. }
    rewrite E. split; [done|]. intros b Hb. destruct (LK b Hb) as [(l & c & s & Hl & W)|[Z0 NW]].
    + left. exists l, c, s. split; [lia | done].
    + right. split; [done|]. intros l c s Hl Hl8 W. apply (NW l c s); (done || lia).
Qed.

Lemma build_length_spec L t : 1 <= L <= 16 -> building L t ->
  match Kernel.build_length bits (t, first_code L, first_index L) L with
  | Some (t', code, index) => building (L + 1) t' /\ code = first_code (L + 1) /\ index = first_index (L + 1) /\ first_code L + width L <= 2 ^ L
  | None => 2 ^ L < first_code L + width L
  end.
Proof.
  intros HL []. unfold Kernel.build_length. fold (width L). pose proof (width_pos L) as WP.
  assert (Z0 : (if 0 <? width L then
      (foldl (fun lookahead offset =>
         if L <=? 8 then Kernel.fill_word L (zat (Kernel.values t) (first_index L + offset)) (first_code L + offset) lookahead else lookahead)
         (Kernel.lookahead t) (pyrange 0 (width L)), first_code L + width L, first_index L + width L, first_code L + width L - 1)
    else (Kernel.lookahead t, first_code L, first_index L, -1))
    = (foldl (fun lookahead offset =>
         if L <=? 8 then Kernel.fill_word L (zat (Kernel.values t) (first_index L + offset)) (first_code L + offset) lookahead else lookahead)
         (Kernel.lookahead t) (pyrange 0 (width L)), first_code L + width L, first_index L + width L, if 0 <? width L then first_code L + width L - 1 else -1)).
  { destruct (Z.ltb_spec 0 (width L)); [done|]. replace (width L) with 0 by lia. rewrite !Z.add_0_r. done. }
  rewrite Z0. clear Z0. rewrite Z.shiftl_mul_pow2, Z.mul_1_l by lia. destruct (Z.ltb_spec (2 ^ L) (first_code L + width L)) as [G|G]; [done|].
  rewrite first_code_next, first_index_next, Z.shiftl_mul_pow2 by lia. split_and!; try lia.
  split; cbn [Kernel.mincode Kernel.valptr Kernel.maxcode Kernel.values Kernel.lookahead].
  - by rewrite zlen_zset.
  - by rewrite zlen_zset.
  - by rewrite zlen_zset.
  - intros l Hl. rewrite zat_zset by lia. destruct (Z.eqb_spec l L) as [->|]; [done | apply bd_min0; lia].
  - intros l Hl. rewrite zat_zset by lia. destruct (Z.eqb_spec l L) as [->|]; [done | apply bd_ptr0; lia].
  - intros l Hl. rewrite zat_zset by lia. destruct (Z.eqb_spec l L) as [->|]; [done | apply bd_max0; lia].
  - done.
  - by apply looks_next.
Qed.

Lemma build_lengths n : forall L t, Z.of_nat n = 17 - L -> 1 <= L -> building L t ->
  match Kernel.foldO (Kernel.build_length bits) (t, first_code L, first_index L) (pyrange L 17) with
  | Some (t', _, _) => building 17 t' /\ forall l, L <= l <= 16 -> first_code l + width l <= 2 ^ l
  | None => ~ fits
  end.
Proof.
  induction n as [|n IH]; intros L t HL H1 B.
  - rewrite pyrange_nil by lia. cbn [Kernel.foldO]. replace L with 17 in * by lia. split; [done | lia].
  - rewrite pyrange_cons by lia. cbn [Kernel.foldO]. pose proof (build_length_spec L t ltac:(lia) B) as S.
    destruct (Kernel.build_length bits (t, first_code L, first_index L) L) as [[[t' code] index]|]; cbn [mbind option_bind].
    + destruct S as (B' & -> & -> & F). specialize (IH (L + 1) t' ltac:(lia) ltac:(lia) B').
      destruct (Kernel.foldO _ _ _) as [[[t2 ?] ?]|]; [|done]. destruct IH as [B2 F2]. split; [done|]. intros l Hl.
      destruct (decide (l = L)) as [->|]; [done | apply F2; lia].
    + intros F. specialize (F L ltac:(lia)). lia.
Qed.

(** [Huffman::build] accepts exactly the counts that fit, and its table holds
    the canonical words. *)
Lemma kernel_build_spec : match Kernel.build bits values with Some t => table_ok t /\ fits | None => ~ fits end.
Proof.
  unfold Kernel.build. rewrite (proj2 (Z.ltb_ge 256 (zsum bits))), (proj2 (Z.ltb_ge (zlen values) (zsum bits))) by lia. cbn [orb].
  match goal with |- context [Kernel.foldO _ (?t0, 0, 0) _] => set (t := t0) end.
  pose proof (zsum_nonneg _ pos) as SP.
  assert (B : building 1 t).
  { split; unfold t; cbn [Kernel.mincode Kernel.valptr Kernel.maxcode Kernel.values Kernel.lookahead Kernel.EMPTY]; try done; try lia.
    - intros i Hi. rewrite zat_app_l by (unfold zlen in *; rewrite length_take; lia). unfold zat. by rewrite lookup_take_lt by lia.
    - split; [done|]. intros b Hb. right. split; [by apply zat_replicate|]. intros l c s Hl _ [? _]. lia. }
  pose proof (build_lengths 16 1 t ltac:(lia) ltac:(lia) B) as S. change (first_code 1) with 0 in S. change (first_index 1) with 0 in S.
  destruct (Kernel.foldO (Kernel.build_length bits) (t, 0, 0) (pyrange 1 17)) as [[[t' ?] ?]|]; [|done]. cbn [mbind option_bind].
  destruct S as [[] F]. split; [|exact F]. split; cbn [Kernel.valid Kernel.mincode Kernel.valptr Kernel.maxcode Kernel.values Kernel.lookahead]; try done.
  - intros L HL. apply bd_min0. lia.
  - intros L HL. apply bd_ptr0. lia.
  - intros L HL. rewrite zat_zset by lia. destruct (Z.eqb_spec L 17); [lia|]. apply bd_max0. lia.
Qed.
End canonical.
