(* ===== verification/Inflate.v ===== *)
(** Inflate: kernel/src/inflate.rs, which decompresses DEFLATE streams (RFC
    1951) in the zlib wrapper (RFC 1950).

    [Kernel] is the whole file: the tables of a Huffman code with the lookup
    table for short words, the bit reader that reads up to eight bytes of zeros
    past the end of its input, the three kinds of blocks, and Adler-32.  Reads
    and writes of arrays and subtractions have their checks. *)
From Stdlib Require Import ZArith Lia List.
From stdpp Require Import base list gmap strings.
From S2P Require Import Prelude Text Arrays Machine.
Open Scope Z_scope.

Module Kernel.

Inductive inflate_error : Type :=
| Corrupt
| Overflow.
#[warnings="-notation-for-abbreviation"] Notation result := (outcome inflate_error).

Definition MAX_BITS : Z := 15.
Definition FAST_BITS : Z := 9.
Definition LENGTH_BASE : list Z :=
  [3; 4; 5; 6; 7; 8; 9; 10; 11; 13; 15; 17; 19; 23; 27; 31; 35; 43; 51; 59; 67; 83; 99; 115; 131; 163; 195; 227; 258].
Definition LENGTH_EXTRA : list Z :=
  [0; 0; 0; 0; 0; 0; 0; 0; 1; 1; 1; 1; 2; 2; 2; 2; 3; 3; 3; 3; 4; 4; 4; 4; 5; 5; 5; 5; 0].
Definition DISTANCE_BASE : list Z :=
  [1; 2; 3; 4; 5; 7; 9; 13; 17; 25; 33; 49; 65; 97; 129; 193; 257; 385; 513; 769; 1025; 1537; 2049; 3073; 4097; 6145; 8193; 12289; 16385; 24577].
Definition DISTANCE_EXTRA : list Z :=
  [0; 0; 0; 0; 1; 1; 2; 2; 3; 3; 4; 4; 5; 5; 6; 6; 7; 7; 8; 8; 9; 9; 10; 10; 11; 11; 12; 12; 13; 13].
Definition CODE_LENGTH_ORDER : list Z := [16; 17; 18; 0; 8; 7; 9; 6; 10; 5; 11; 4; 12; 3; 13; 2; 14; 1; 15].

(** ** Huffman *)

Record huffman : Type := Huffman {
  count : list Z;
  symbol : list Z;
  fast : list Z
}.

Definition count_length (count : list Z) (length : Z) : result (list Z) :=
  n ← index count length;
  n ← u16 (n + 1);
  store count length n.

(** One round of the test for too many words. *)
Definition left_over (count : list Z) (left length : Z) : result Z :=
  n ← index count length;
  left ← i32 (as_i32 (Z.shiftl left 1) - n);
  if left <? 0 then Err Corrupt else Ok left.

Definition next_offset (count offsets : list Z) (length : Z) : result (list Z) :=
  a ← index offsets length;
  n ← index count length;
  s ← u16 (a + n);
  store offsets (length + 1) s.

Definition place_symbol (st : list Z * list Z) (item : Z * Z) : result (list Z * list Z) :=
  let '(symbol, offsets) := st in
  let '(s, length) := item in
  if negb (length =? 0) then
    at_ ← index offsets length;
    symbol ← store symbol at_ s;
    next ← u16 (at_ + 1);
    offsets ← store offsets length next;
    Ok (symbol, offsets)
  else Ok st.

(** [u32::reverse_bits]. *)
Definition reverse_bits (x : Z) : Z := foldl (fun r i => Z.lor (Z.shiftl r 1) (Z.land (Z.shiftr x i) 1)) 0 (pyrange 0 32).

(** Every pattern of [FAST_BITS] bits that starts with the word. *)
Definition fill_word (length : Z) (fast : list Z) (s code : Z) : result (list Z) :=
  let reversed := Z.shiftr (reverse_bits code) (32 - length) in
  foldK (fun fast fill => store fast fill (Z.lor (Z.shiftl s 4 mod 65536) length)) fast
    (range_step reversed (Z.shiftl 1 FAST_BITS) (Z.shiftl 1 length)).

Definition fast_word (symbol : list Z) (length : Z) (st : list Z * Z * Z) (_ : Z) : result (list Z * Z * Z) :=
  let '(fast, code, i) := st in
  s ← index symbol i;
  fast ← fill_word length fast s code;
  code ← u32 (code + 1);
  Ok (fast, code, i + 1).

Definition fast_length (count symbol : list Z) (st : list Z * Z * Z) (length : Z) : result (list Z * Z * Z) :=
  n ← index count length;
  '(fast, code, i) ← foldK (fast_word symbol length) st (pyrange 0 n);
  Ok (fast, Z.shiftl code 1 mod 4294967296, i).

Definition new (lengths : list Z) : result huffman :=
  count ← foldK count_length (zeros (MAX_BITS + 1)) lengths;
  n0 ← index count 0;
  if n0 =? zlen lengths then Ok (Huffman count (zeros 288) (zeros 512))
  else
    foldK (left_over count) 1 (pyrange 1 (MAX_BITS + 1)) ≫= fun _ =>
    offsets ← foldK (next_offset count) (zeros (MAX_BITS + 2)) (pyrange 1 (MAX_BITS + 1));
    '(symbol, _) ← foldK place_symbol (zeros 288, offsets) (zip (pyrange 0 (zlen lengths)) lengths);
    '(fast, _, _) ← foldK (fast_length count symbol) (zeros 512, 0, 0) (pyrange 1 (FAST_BITS + 1));
    Ok (Huffman count symbol fast).

(** ** Bits *)

Record bits : Type := Bits {
  position : Z;
  buffer : Z;
  held : Z      (* the field [count] *)
}.

Definition start : bits := Bits 0 0 0.

(** The loop [while self.count <= 56]; each round adds eight. *)
Fixpoint refill_loop (fuel : nat) (data : list Z) (b : bits) : bits :=
  match fuel with
  | O => b
  | S fuel =>
      if held b <=? 56 then
        match (if position b <? zlen data then Some (zat data (position b))
               else if position b <? zlen data + 8 then Some 0 else None) with
        | Some byte => refill_loop fuel data (Bits (position b + 1) (Z.lor (buffer b) (Z.shiftl byte (held b))) (held b + 8))
        | None => b
        end
      else b
  end.
Definition refill : list Z -> bits -> bits := refill_loop 8.

(** The reader with [n] bits fewer, [saturating_sub] for the count. *)
Definition skip (n : Z) (b : bits) : bits := Bits (position b) (Z.shiftr (buffer b) n) (Z.max 0 (held b - n)).

Definition take (data : list Z) (n : Z) (b : bits) : Z * bits :=
  if n =? 0 then (0, b)
  else
    let b := if held b <? n then refill data b else b in
    (Z.land (buffer b) (Z.shiftl 1 n - 1), skip n b).

Definition overrun (data : list Z) (b : bits) : bool := zlen data <? Z.max 0 (position b - held b / 8).

Definition align_to_byte (b : bits) : bits :=
  let drop := held b mod 8 in
  Bits (position b) (Z.shiftr (buffer b) drop) (held b - drop).

(** The canonical decoding, from the lengths that are left. *)
Fixpoint decode_slow (table : huffman) (lengths : list Z) (code first i : Z) (b : bits) : result (Z * bits) :=
  match lengths with
  | [] => Err Corrupt
  | length :: lengths =>
      let code := Z.lor code (Z.land (buffer b) 1) in
      let b := skip 1 b in
      n ← index (count table) length;
      d ← i32 (code - n);
      if d <? first then
        e ← i32 (code - first);
        at_ ← i32 (i + e);
        s ← index (symbol table) at_;
        Ok (s, b)
      else
        i ← i32 (i + n);
        first ← i32 (first + n);
        decode_slow table lengths (as_i32 (Z.shiftl code 1)) (as_i32 (Z.shiftl first 1)) i b
  end.

Definition decode (data : list Z) (table : huffman) (b : bits) : result (Z * bits) :=
  let b := if held b <? MAX_BITS then refill data b else b in
  entry ← index (fast table) (Z.land (buffer b) (Z.shiftl 1 FAST_BITS - 1));
  if negb (entry =? 0) then
    let length := Z.land entry 15 in
    c ← u32 (held b - length);
    Ok (Z.shiftr entry 4, Bits (position b) (Z.shiftr (buffer b) length) c)
  else decode_slow table (pyrange 1 (MAX_BITS + 1)) 0 0 0 b.

(** ** Blocks *)

Definition stored_byte (data : list Z) (st : list Z * Z * bits) (_ : Z) : result (list Z * Z * bits) :=
  let '(output, written, b) := st in
  let '(v, b) := take data 8 b in
  output ← store output written (v mod 256);
  Ok (output, written + 1, b).

Definition stored_block (data output : list Z) (written : Z) (b : bits) : result (list Z * Z * bits) :=
  let b := align_to_byte b in
  let '(length, b) := take data 16 b in
  let '(inverse, b) := take data 16 b in
  if negb (length =? Z.land (Z.lnot inverse) 65535) then Err Corrupt
  else if zlen output <? written + length then Err Overflow
  else foldK (stored_byte data) (output, written, b) (pyrange 0 length).

(** [output.copy_within(from..from + length, to)]. *)
Definition copy_within (output : list Z) (from length to : Z) : result (list Z) :=
  if (0 <=? from) && (from + length <=? zlen output) && (to + length <=? zlen output)
  then Ok (slice_assign output to (to + length) (pyslice output from (from + length))) else Panic.

Definition copy_byte (written back : Z) (output : list Z) (offset : Z) : result (list Z) :=
  v ← index output (written - back + offset);
  store output (written + offset) v.

Definition copy_match (output : list Z) (written back length : Z) : result (list Z) :=
  if length <=? back then copy_within output (written - back) length written
  else foldK (copy_byte written back) output (pyrange 0 length).

Fixpoint inflate_block (fuel : nat) (data : list Z) (literal distance : huffman) (output : list Z) (written : Z) (b : bits)
  : result (list Z * Z * bits) :=
  match fuel with
  | O => Unfinished
  | S fuel =>
      let next output written b :=
        if overrun data b then Err Corrupt else inflate_block fuel data literal distance output written b in
      '(s, b) ← decode data literal b;
      if s <? 256 then
        if written =? zlen output then Err Overflow
        else
          output ← store output written (s mod 256);
          next output (written + 1) b
      else if s =? 256 then Ok (output, written, b)
      else
        let s := s - 257 in
        if 29 <=? s then Err Corrupt
        else
          base ← index LENGTH_BASE s;
          extra ← index LENGTH_EXTRA s;
          let '(more, b) := take data extra b in
          let length := base + more in
          '(ds, b) ← decode data distance b;
          if 30 <=? ds then Err Corrupt
          else
            base ← index DISTANCE_BASE ds;
            extra ← index DISTANCE_EXTRA ds;
            let '(more, b) := take data extra b in
            let back := base + more in
            if written <? back then Err Corrupt
            else if zlen output <? written + length then Err Overflow
            else
              output ← copy_match output written back length;
              next output (written + length) b
  end.

Definition read_code_length (data : list Z) (st : list Z * bits) (order : Z) : result (list Z * bits) :=
  let '(lengths, b) := st in
  let '(v, b) := take data 3 b in
  lengths ← store lengths order v;
  Ok (lengths, b).

(** The loop over the lengths of both codes. *)
Fixpoint read_lengths (fuel : nat) (data : list Z) (code_lengths : huffman) (total : Z) (lengths : list Z) (i : Z) (b : bits)
  : result (list Z * bits) :=
  match fuel with
  | O => Unfinished
  | S fuel =>
      if i <? total then
        '(s, b) ← decode data code_lengths b;
        '(lengths, i, b) ←
          (if s <? 16 then
             lengths ← store lengths i s;
             Ok (lengths, i + 1, b)
           else
             '(value, repeat, b) ←
               (if s =? 16 then
                  if i =? 0 then Err Corrupt
                  else
                    value ← index lengths (i - 1);
                    let '(n, b) := take data 2 b in Ok (value, 3 + n, b)
                else if s =? 17 then let '(n, b) := take data 3 b in Ok (0, 3 + n, b)
                else let '(n, b) := take data 7 b in Ok (0, 11 + n, b));
             if total <? i + repeat then Err Corrupt
             else
               lengths ← foldK (fun lengths k => store lengths (i + k) value) lengths (pyrange 0 repeat);
               Ok (lengths, i + repeat, b));
        if overrun data b then Err Corrupt else read_lengths fuel data code_lengths total lengths i b
      else Ok (lengths, b)
  end.

Definition read_dynamic_tables (data : list Z) (b : bits) : result (huffman * huffman * bits) :=
  let '(n, b) := take data 5 b in let literal_count := n + 257 in
  let '(n, b) := take data 5 b in let distance_count := n + 1 in
  let '(n, b) := take data 4 b in let code_length_count := n + 4 in
  if (286 <? literal_count) || (30 <? distance_count) then Err Corrupt
  else
    '(lengths, b) ← foldK (read_code_length data) (zeros 320, b) (pyslice CODE_LENGTH_ORDER 0 code_length_count);
    code_lengths ← new (pyslice lengths 0 19);
    '(lengths, b) ← read_lengths 320 data code_lengths (literal_count + distance_count) (zeros 320) 0 b;
    eob ← index lengths 256;
    if eob =? 0 then Err Corrupt
    else
      literal ← new (pyslice lengths 0 literal_count);
      distance ← new (pyslice lengths literal_count (literal_count + distance_count));
      Ok (literal, distance, b).

Definition FIXED_LENGTHS : list Z := replicate 144 8 ++ replicate 112 9 ++ replicate 24 7 ++ replicate 8 8.

Definition inflate_one (data output : list Z) (written kind : Z) (b : bits) : result (list Z * Z * bits) :=
  if kind =? 0 then stored_block data output written b
  else if (kind =? 1) || (kind =? 2) then
    '(literal, distance, b) ←
      (if kind =? 1 then
         literal ← new FIXED_LENGTHS;
         distance ← new (replicate 30 5);
         Ok (literal, distance, b)
       else read_dynamic_tables data b);
    inflate_block (8 * length data + 1) data literal distance output written b
  else Err Corrupt.

Fixpoint inflate_loop (fuel : nat) (data output : list Z) (written : Z) (b : bits) : result (list Z * Z) :=
  match fuel with
  | O => Unfinished
  | S fuel =>
      let '(last, b) := take data 1 b in
      let '(kind, b) := take data 2 b in
      '(output, written, b) ← inflate_one data output written kind b;
      if overrun data b then Err Corrupt
      else if last =? 1 then Ok (output, written)
      else inflate_loop fuel data output written b
  end.

(** The output buffer and how much of it was written.  A round that is not the
    last takes a bit of the input at least. *)
Definition inflate (input output : list Z) : result (list Z * Z) :=
  inflate_loop (8 * length input + 1) input output 0 start.

Definition zlib_decompress (input output : list Z) : result (list Z * Z) :=
  if zlen input <? 6 then Err Corrupt
  else
    cmf ← index input 0;
    flags ← index input 1;
    if negb (Z.land cmf 15 =? 8) || negb ((cmf * 256 + flags) mod 31 =? 0) || negb (Z.land flags 32 =? 0) then Err Corrupt
    else inflate (drop 2 input) output.

(** ** Adler-32 *)

Definition adler_byte (st : Z * Z) (byte : Z) : result (Z * Z) :=
  let '(a, b) := st in
  a ← u32 (a + byte);
  b ← u32 (b + a);
  Ok (a, b).

(** [data.chunks(5552)], the sums reduced after each. *)
Fixpoint adler_chunks (fuel : nat) (data : list Z) (a b : Z) : result (Z * Z) :=
  match fuel with
  | O => Unfinished
  | S fuel =>
      match data with
      | [] => Ok (a, b)
      | _ =>
          '(a, b) ← foldK adler_byte (a, b) (pyslice data 0 5552);
          adler_chunks fuel (drop (Z.to_nat 5552) data) (a mod 65521) (b mod 65521)
      end
  end.

Definition adler32 (data : list Z) : result Z :=
  '(a, b) ← adler_chunks (S (length data)) data 1 0;
  Ok (Z.lor (Z.shiftl b 16 mod 4294967296) a).

End Kernel.
