(* ===== verification/InflateBits.v ===== *)
(** InflateBits: the bits of a stream as the bits of one number, and the reader
    of kernel/src/inflate.rs over them. *)
From Stdlib Require Import ZArith Lia List.
From stdpp Require Import base list gmap strings.
From S2P Require Import Prelude Text Arrays Machine Inflate.
Open Scope Z_scope.
Import Inflate.Kernel.

(** * Fields *)

(** The [n] bits of a stream from [p] on, the first the lowest.  A stream is the
    little-endian number of its bytes. *)
Definition field (s p n : Z) : Z := (s / 2 ^ p) mod 2 ^ n.

Lemma pow2_pos n : 0 <= n -> 0 < 2 ^ n.
Proof. intros. apply Z.pow_pos_nonneg; lia. Qed.

Lemma field_range s p n : 0 <= n -> 0 <= field s p n < 2 ^ n.
Proof. intros. apply Z.mod_pos_bound, pow2_pos. done. Qed.
Lemma field_testbit s p n i : 0 <= p -> 0 <= i < n -> Z.testbit (field s p n) i = Z.testbit s (p + i).
Proof. intros Hp Hi. unfold field. rewrite <- Z.shiftr_div_pow2, Z.mod_pow2_bits_low, Z.shiftr_spec by lia. f_equal. lia. Qed.
(** The low bits of a field, and what follows them. *)
Lemma field_low s p n k : 0 <= n <= k -> field s p k mod 2 ^ n = field s p n.
Proof.
  intros H. unfold field. replace k with (n + (k - n)) by lia. rewrite Z.pow_add_r by lia. pose proof (pow2_pos n ltac:(lia)). pose proof (pow2_pos (k - n) ltac:(lia)).
  rewrite Z.rem_mul_r by lia. rewrite Z.mul_comm, Z.mod_add, Z.mod_mod by lia. done.
Qed.
Lemma field_high s p n k : 0 <= p -> 0 <= n <= k -> field s p k / 2 ^ n = field s (p + n) (k - n).
Proof.
  intros Hp H. unfold field. replace k with (n + (k - n)) at 1 by lia. rewrite !Z.pow_add_r by lia. pose proof (pow2_pos n ltac:(lia)). pose proof (pow2_pos (k - n) ltac:(lia)). pose proof (pow2_pos p Hp).
  rewrite Z.rem_mul_r by lia. rewrite (Z.mul_comm (2 ^ n)), Z.div_add by lia. rewrite (Z.div_small (_ mod _)) by (apply Z.mod_pos_bound; lia). rewrite Z.div_div by lia. lia.
Qed.
Lemma field_add s p n k : 0 <= p -> 0 <= n -> 0 <= k -> field s p (n + k) = field s p n + 2 ^ n * field s (p + n) k.
Proof.
  intros Hp Hn Hk. pose proof (pow2_pos n Hn). rewrite (Z.div_mod (field s p (n + k)) (2 ^ n)) by lia. rewrite field_low, field_high by lia. replace (n + k - n) with k by lia. lia.
Qed.
Lemma field_bit s p : 0 <= p -> field s p 1 = Z.b2z (Z.testbit s p).
Proof. intros Hp. symmetry. by apply Z.testbit_spec'. Qed.
Lemma field_0 s p : field s p 0 = 0.
Proof. unfold field. apply Z.mod_1_r. Qed.
(** Beyond the end there are zeros. *)
Lemma field_end s p n k : 0 <= s < 2 ^ k -> 0 <= k <= p -> 0 <= n -> field s p n = 0.
Proof.
  intros H Hp Hn. unfold field. rewrite Z.div_small; [apply Z.mod_0_l; pose proof (pow2_pos n Hn); lia|]. split; [lia|]. apply Z.lt_le_trans with (2 ^ k); [lia|]. apply Z.pow_le_mono_r; lia.
Qed.
Lemma field_short s p n k : 0 <= s < 2 ^ (p + k) -> 0 <= p -> 0 <= k <= n -> field s p n = field s p k.
Proof.
  intros H Hp Hk. rewrite <- (field_low s p k n) by lia. symmetry. apply Z.mod_small. split; [apply field_range; lia|].
  replace n with (k + (n - k)) by lia. rewrite field_add by lia. rewrite (field_end s (p + k) (n - k) (p + k)) by lia. pose proof (field_range s p k ltac:(lia)). lia.
Qed.

(** The bytes of the number. *)
Lemma le_val_byte data i : Forall is_byte data -> 0 <= i -> field (le_val data) (8 * i) 8 = zat data i.
Proof.
  intros F. revert i. induction F as [|b l Hb F IH]; intros i Hi.
  - rewrite zat_nil. cbn [le_val]. apply (field_end 0 (8 * i) 8 0); lia.
  - unfold is_byte in Hb. unfold field. change (2 ^ 8) with 256. destruct (decide (i = 0)) as [->|N].
    + change (2 ^ (8 * 0)) with 1. rewrite Z.div_1_r, zat_cons0. cbn [le_val]. rewrite (Z.mul_comm 256), Z.mod_add by lia. apply Z.mod_small. lia.
    + rewrite zat_cons by lia. rewrite <- (IH (i - 1)) by lia. unfold field. change (2 ^ 8) with 256. f_equal. cbn [le_val]. replace (8 * i) with (8 + 8 * (i - 1)) by lia. rewrite Z.pow_add_r by lia.
      change (2 ^ 8) with 256. rewrite <- Z.div_div by (pose proof (pow2_pos (8 * (i - 1)) ltac:(lia)); lia). f_equal. rewrite (Z.mul_comm 256), Z.div_add by lia. rewrite Z.div_small by lia. lia.
Qed.
Lemma le_val_bits data : Forall is_byte data -> 0 <= le_val data < 2 ^ (8 * zlen data).
Proof. intros F. pose proof (le_val_bound data F) as B. rewrite Z.pow_mul_r by (pose proof (zlen_nonneg data); lia). exact B. Qed.

(** * The reader *)

Section reader.
Context (data : list Z).
Hypothesis bytes : Forall is_byte data.
#[warnings="-notation-for-abbreviation"] Local Notation s := (le_val data).
#[warnings="-notation-for-abbreviation"] Local Notation len := (zlen data).

(** [b] has taken [p] bits; once the eight bytes past the end are used up it
    takes zeros. *)
Record reads (b : bits) (p : Z) : Prop := Reads {
  rs_pos : 0 <= p;
  rs_held : 0 <= held b <= 64;
  rs_position : 0 <= position b <= len + 8;
  rs_buffer : buffer b = field s p (held b);
  rs_at : p = 8 * position b - held b \/ position b = len + 8 /\ held b = 0 /\ 8 * position b <= p
}.

Lemma reads_nothing : reads start 0.
Proof. pose proof (zlen_nonneg data). split; cbn; try lia. by rewrite field_0. Qed.

(** One byte more in the buffer. *)
Lemma refill_byte b p : reads b p -> held b <= 56 -> position b < len + 8 ->
  reads (Bits (position b + 1) (Z.lor (buffer b) (Z.shiftl (zat data (position b)) (held b))) (held b + 8)) p.
Proof.
  intros [P0 HC HP HB [AT|AT]] H56 HL; [|lia]. split; cbn [position held buffer]; [done | lia | lia | | lia]. rewrite HB, field_add by lia. replace (p + held b) with (8 * position b) by lia. rewrite le_val_byte by (done || lia).
  rewrite Z.lor_comm, lor_shiftl_add by (lia || apply field_range; lia). lia.
Qed.

Lemma refill_loop_reads fuel b p : reads b p -> reads (refill_loop fuel data b) p.
Proof.
  revert b. induction fuel as [|fuel IH]; intros b R; [done|]. cbn [refill_loop]. destruct (Z.leb_spec (held b) 56) as [H56|]; [|done].
  destruct (Z.ltb_spec (position b) len) as [H1|H1]; [by apply IH, refill_byte; (done || lia)|]. destruct (Z.ltb_spec (position b) (len + 8)) as [H2|]; [|done].
  apply IH. pose proof (refill_byte b p R H56 H2) as R'. by rewrite zat_out in R' by done.
Qed.
(** Eight rounds end the loop: the buffer is full or the input used up. *)
Lemma refill_loop_done fuel b : 0 <= held b -> position b <= len + 8 -> 56 - held b < 8 * Z.of_nat fuel -> 56 < held (refill_loop fuel data b) \/ position (refill_loop fuel data b) = len + 8.
Proof.
  revert b. induction fuel as [|fuel IH]; intros b HC HP HF; [left; cbn; lia|]. cbn [refill_loop]. destruct (Z.leb_spec (held b) 56) as [H56|]; [|left; lia].
  destruct (Z.ltb_spec (position b) len) as [H1|H1]; [apply IH; cbn [held position]; lia|]. destruct (Z.ltb_spec (position b) (len + 8)) as [H2|]; [apply IH; cbn [held position]; lia | right; lia].
Qed.

Lemma refill_reads b p : reads b p -> reads (refill data b) p /\ (56 < held (refill data b) \/ position (refill data b) = len + 8).
Proof. intros R. split; [by apply refill_loop_reads|]. pose proof (rs_held _ _ R). pose proof (rs_position _ _ R). apply refill_loop_done; lia. Qed.

(** The reader with [n] bits at hand, or all there are. *)
Definition ready (n : Z) (b : bits) : Prop := n <= held b \/ position b = len + 8.

Lemma refilled b p n : reads b p -> 0 <= n <= 57 -> reads (if held b <? n then refill data b else b) p /\ ready n (if held b <? n then refill data b else b).
Proof.
  intros R Hn. destruct (Z.ltb_spec (held b) n); [|split; [done | by left]]. destruct (refill_reads b p R) as [R' D]. split; [done|]. unfold ready. lia.
Qed.
(** What is missing in the buffer is zeros. *)
Lemma ready_field b p n k : reads b p -> ready n b -> 0 <= k <= n -> Z.land (buffer b) (Z.shiftl 1 k - 1) = field s p k.
Proof.
  intros [P0 HC HP HB AT] RD Hk. replace (Z.shiftl 1 k - 1) with (Z.ones k) by (rewrite Z.ones_equiv, Z.shiftl_1_l; lia). rewrite Z.land_ones by lia. rewrite HB. destruct (Z.le_gt_cases k (held b)) as [H|H]; [by apply field_low; lia|].
  destruct RD as [|E]; [lia|]. pose proof (le_val_bits data bytes) as LV. pose proof (zlen_nonneg data). rewrite Z.mod_small.
  - symmetry. apply field_short; [|lia|lia]. split; [lia|]. apply Z.lt_le_trans with (2 ^ (8 * len)); [lia|]. apply Z.pow_le_mono_r; lia.
  - pose proof (field_range s p (held b) ltac:(lia)). split; [lia|]. apply Z.lt_le_trans with (2 ^ held b); [lia|]. apply Z.pow_le_mono_r; lia.
Qed.
Lemma skip_reads b p n : reads b p -> ready n b -> 0 <= n -> reads (skip n b) (p + n).
Proof.
  intros [P0 HC HP HB AT] RD Hn. destruct (Z.le_gt_cases n (held b)) as [H|H].
  - split; cbn [skip held position buffer]; rewrite ?Z.max_r by lia; try lia. rewrite HB, Z.shiftr_div_pow2 by lia. apply field_high; lia.
  - destruct RD as [|E]; [lia|]. split; cbn [skip held position buffer]; rewrite ?Z.max_l by lia; try lia. rewrite field_0, HB, Z.shiftr_div_pow2 by lia. apply Z.div_small. pose proof (field_range s p (held b) ltac:(lia)).
    split; [lia|]. apply Z.lt_le_trans with (2 ^ held b); [lia|]. apply Z.pow_le_mono_r; lia.
Qed.

Lemma take_reads b p n : reads b p -> 0 <= n <= 57 -> exists b', take data n b = (field s p n, b') /\ reads b' (p + n).
Proof.
  intros R Hn. unfold take. destruct (Z.eqb_spec n 0) as [->|N]; [exists b; by rewrite field_0, Z.add_0_r|]. destruct (refilled b p n R Hn) as [R' RD]. set (b1 := if held b <? n then _ else _) in *.
  exists (skip n b1). rewrite (ready_field b1 p n n) by (done || lia). split; [done|]. apply skip_reads; (done || lia).
Qed.

Lemma overrun_reads b p : reads b p -> overrun data b = (8 * len <? p).
Proof.
  intros [P0 HC HP HB AT]. unfold overrun. pose proof (Z.div_mod (held b) 8 ltac:(lia)). pose proof (Z.mod_pos_bound (held b) 8 ltac:(lia)). pose proof (zlen_nonneg data).
  destruct (Z.ltb_spec (8 * len) p), (Z.ltb_spec len (Z.max 0 (position b - held b / 8))); (done || lia).
Qed.

(** Skipping to the next byte. *)
Definition aligned (p : Z) : Z := p + (- p) mod 8.
Lemma align_reads b p : reads b p -> p <= 8 * (len + 8) -> reads (align_to_byte b) (aligned p).
Proof.
  intros [P0 HC HP HB AT] HL. assert (AP : p = 8 * position b - held b) by lia. assert (E : (- p) mod 8 = held b mod 8) by (rewrite AP; replace (- (8 * position b - held b)) with (held b + (- position b) * 8) by lia; apply Z.mod_add; lia).
  unfold aligned. rewrite E. pose proof (Z.mod_pos_bound (held b) 8 ltac:(lia)). pose proof (Z.mod_le (held b) 8 ltac:(lia) ltac:(lia)). split; cbn [align_to_byte held position buffer]; try lia.
  rewrite HB, Z.shiftr_div_pow2 by lia. apply field_high; lia.
Qed.
End reader.
