(* ===== verification/InflateHuff.v ===== *)
(** InflateHuff: the tables [Huffman::new] of kernel/src/inflate.rs builds hold the
    canonical code with the given lengths, and [decode] finds the word that
    comes next, by the lookup table or bit by bit, or says there is none. *)
From Stdlib Require Import ZArith Lia List.
From stdpp Require Import base list gmap strings.
From S2P Require Import Prelude Text Arrays Machine Huff Inflate InflateBits.
Open Scope Z_scope.
Import Inflate.Kernel.

(** * Words in a stream *)

(** The word [c] of [L] bits comes at [p], its highest bit first. *)
Definition word_at (s p L c : Z) : Prop := forall i, 0 <= i < L -> Z.testbit s (p + i) = Z.testbit c (L - 1 - i).

(** The lowest [L] bits of [c] the other way round. *)
Definition mirror (L c : Z) : Z := Z.shiftr (reverse_bits c) (32 - L).

Lemma bits_equal a b n : 0 <= n -> 0 <= a < 2 ^ n -> 0 <= b < 2 ^ n -> (forall i, 0 <= i < n -> Z.testbit a i = Z.testbit b i) -> a = b.
Proof.
  intros Hn Ha Hb H. apply Z.bits_inj'. intros i Hi. destruct (Z.lt_ge_cases i n) as [|G]; [by apply H|].
  rewrite <- (Z.mod_small a (2 ^ n)), <- (Z.mod_small b (2 ^ n)) by done. by rewrite !Z.mod_pow2_bits_high by lia.
Qed.

Lemma land_1_mod x : Z.land x 1 = x mod 2.
Proof. change 1 with (Z.ones 1). by rewrite Z.land_ones. Qed.
Lemma reverse_bits_spec x : 0 <= reverse_bits x < 2 ^ 32 /\ forall i, 0 <= i < 32 -> Z.testbit (reverse_bits x) i = Z.testbit x (31 - i).
Proof.
  unfold reverse_bits. destruct (foldl_range (fun k r => 0 <= r < 2 ^ k /\ forall i, 0 <= i < k -> Z.testbit r i = Z.testbit x (k - 1 - i))
    (fun r i => Z.lor (Z.shiftl r 1) (Z.land (Z.shiftr x i) 1)) 0 32 0) as [H1 H2]; [lia | split; [by cbn | lia] | | by split].
  intros k r Hk [R B]. assert (B1 : 0 <= Z.land (Z.shiftr x k) 1 < 2) by (rewrite land_1_mod; apply Z.mod_pos_bound; lia).
  split; [rewrite lor_shiftl_add by (change (2 ^ 1) with 2; lia); change (2 ^ 1) with 2; rewrite Z.pow_add_r by lia; lia|].
  intros i Hi. rewrite Z.lor_spec, Z.shiftl_spec by lia. destruct (Z.eq_dec i 0) as [->|N].
  - rewrite Z.testbit_neg_r by lia. cbn [orb]. rewrite Z.land_spec, Z.shiftr_spec by lia. change (Z.testbit 1 0) with true. rewrite andb_true_r. f_equal. lia.
  - rewrite B by lia. assert (E : Z.testbit (Z.land (Z.shiftr x k) 1) i = false) by (rewrite Z.land_spec, (Z.bits_above_log2 1 i) by (cbn; lia); apply andb_false_r). rewrite E, orb_false_r. f_equal. lia.
Qed.
Lemma mirror_spec L c : 0 <= L <= 32 -> 0 <= mirror L c < 2 ^ L /\ forall i, 0 <= i < L -> Z.testbit (mirror L c) i = Z.testbit c (L - 1 - i).
Proof.
  intros HL. destruct (reverse_bits_spec c) as [R B]. unfold mirror. split.
  - rewrite Z.shiftr_div_pow2 by lia. pose proof (pow2_pos (32 - L) ltac:(lia)). split; [apply Z.div_pos; lia|]. apply Z.div_lt_upper_bound; [lia|]. rewrite <- Z.pow_add_r by lia. replace (32 - L + L) with 32 by lia. lia.
  - intros i Hi. rewrite Z.shiftr_spec, B by lia. f_equal. lia.
Qed.

Lemma word_at_field s p L c : 0 <= p -> 0 <= L <= 32 -> word_at s p L c <-> field s p L = mirror L c.
Proof.
  intros Hp HL. destruct (mirror_spec L c HL) as [R B]. split.
  - intros W. apply (bits_equal _ _ L); [lia | apply field_range; lia | done|]. intros i Hi. by rewrite field_testbit, B, W by lia.
  - intros E i Hi. by rewrite <- B, <- E, field_testbit by lia.
Qed.
Lemma word_at_prefix s p L c l : 0 <= l <= L -> word_at s p L c -> word_at s p l (c / 2 ^ (L - l)).
Proof. intros Hl W i Hi. rewrite W by lia. rewrite <- Z.shiftr_div_pow2, Z.shiftr_spec by lia. f_equal. lia. Qed.
Lemma word_at_inj s p L c c' : 0 <= L -> 0 <= c < 2 ^ L -> 0 <= c' < 2 ^ L -> word_at s p L c -> word_at s p L c' -> c = c'.
Proof.
  intros HL Hc Hc' W W'. apply (bits_equal _ _ L); [done..|]. intros i Hi. specialize (W (L - 1 - i) ltac:(lia)). specialize (W' (L - 1 - i) ltac:(lia)). replace (L - 1 - (L - 1 - i)) with i in * by lia. congruence.
Qed.

(** * The code of a list of lengths *)

(** How many lengths are [L], and for which symbols. *)
Definition symbols_with (lengths : list Z) (L : Z) : list Z := (filter (fun sl : Z * Z => sl.2 = L) (zip (pyrange 0 (zlen lengths)) lengths)).*1.
Definition occurrences (lengths : list Z) (L : Z) : Z := zlen (symbols_with lengths L).
Definition counts_of (lengths : list Z) : list Z := occurrences lengths <$> pyrange 1 17.
Definition symbols_of (lengths : list Z) : list Z := concat (symbols_with lengths <$> pyrange 1 17).

(** The words of the canonical code: by length, and by symbol within a length. *)
Definition code_word (lengths : list Z) (L c s : Z) : Prop := word (counts_of lengths) (symbols_of lengths) L c s.
Definition lengths_ok (lengths : list Z) : Prop := Forall (fun l => 0 <= l <= 15) lengths /\ zlen lengths <= 288.
Definition prefix_free (lengths : list Z) : Prop := fits (counts_of lengths).

Lemma symbols_with_snoc l x L : symbols_with (l ++ [x]) L = symbols_with l L ++ (if x =? L then [zlen l] else []).
Proof.
  unfold symbols_with. rewrite zlen_app. change (zlen [x]) with 1. pose proof (zlen_nonneg l). rewrite pyrange_snoc by lia.
  rewrite zip_with_app by (pose proof (zlen_pyrange 0 (zlen l) ltac:(lia)) as E; unfold zlen in *; lia). rewrite filter_app, fmap_app. f_equal. cbn [zip zip_with]. rewrite filter_cons. cbn [snd].
  destruct (Z.eqb_spec x L) as [->|N]; [by rewrite decide_True|]. by rewrite decide_False.
Qed.
Lemma occurrences_snoc l x L : occurrences (l ++ [x]) L = occurrences l L + (if x =? L then 1 else 0).
Proof. unfold occurrences. rewrite symbols_with_snoc, zlen_app. by destruct (x =? L). Qed.
Lemma occurrences_le l L : 0 <= occurrences l L <= zlen l.
Proof.
  induction l as [|x l IH] using rev_ind; [done|]. rewrite occurrences_snoc, zlen_app. change (zlen [x]) with 1. destruct (x =? L); lia.
Qed.
Lemma occurrences_none l L : Forall (fun x => x <> L) l -> occurrences l L = 0.
Proof.
  induction l as [|x l IH] using rev_ind; intros F; [done|]. apply Forall_app in F as [F1 F2]. rewrite Forall_singleton in F2. rewrite occurrences_snoc, IH by done. rewrite (proj2 (Z.eqb_neq x L) F2). done.
Qed.
Lemma occurrences_prefix l n L : occurrences (firstn n l) L <= occurrences l L.
Proof.
  rewrite <- (take_drop n l) at 2. induction (drop n l) as [|x d IH] using rev_ind; [by rewrite app_nil_r|]. rewrite app_assoc, occurrences_snoc. destruct (x =? L); lia.
Qed.

Lemma zlen_concat_fmap {A} (f : A -> list Z) l : zlen (concat (f <$> l)) = zsum ((fun a => zlen (f a)) <$> l).
Proof. induction l as [|a l IH]; [done|]. cbn [fmap list_fmap concat zsum foldr]. rewrite zlen_app, IH. done. Qed.

Lemma zsum_indicator x R : NoDup R -> zsum ((fun L => if x =? L then 1 else 0) <$> R) <= 1.
Proof.
  induction 1 as [|L R N ND IH]; [done|]. cbn [fmap list_fmap zsum foldr]. fold (zsum ((fun L => if x =? L then 1 else 0) <$> R)). destruct (Z.eqb_spec x L) as [->|]; [|lia].
  assert (E : (fun L' => if L =? L' then 1 else 0) <$> R = (fun _ => 0) <$> R) by (apply list_fmap_ext; intros i L' HL'; rewrite (proj2 (Z.eqb_neq L L')); [done|]; intros <-; apply N; by eapply list_elem_of_lookup_2).
  rewrite E. unfold zsum. clear. induction R as [|a R IH]; [done|]. cbn [fmap list_fmap foldr] in *. lia.
Qed.
Lemma counts_total l : zsum (counts_of l) <= zlen l.
Proof.
  unfold counts_of. induction l as [|x l IH] using rev_ind; [done|]. rewrite zlen_app. change (zlen [x]) with 1. pose proof (zsum_indicator x (pyrange 1 17) (nodup_pyrange _ _)).
  assert (E : forall R, zsum (occurrences (l ++ [x]) <$> R) = zsum (occurrences l <$> R) + zsum ((fun L => if x =? L then 1 else 0) <$> R)); [|rewrite E; lia].
  unfold zsum. induction R as [|L R IHR]; [done|]. cbn [fmap list_fmap foldr] in *. rewrite occurrences_snoc. lia.
Qed.

Section code.
Context (lengths : list Z).
Hypothesis ok : lengths_ok lengths.
#[warnings="-notation-for-abbreviation"] Local Notation cnt := (counts_of lengths).
#[warnings="-notation-for-abbreviation"] Local Notation vals := (symbols_of lengths).

Lemma counts_len : zlen cnt = 16.
Proof. unfold counts_of, zlen. by rewrite length_fmap. Qed.
Lemma counts_pos : nonneg cnt.
Proof. apply Forall_fmap, Forall_forall. intros L _. cbn. apply occurrences_le. Qed.
Lemma counts_width L : 1 <= L <= 16 -> width cnt L = occurrences lengths L.
Proof.
  intros HL. unfold width. apply zat_lookup; [lia|]. unfold counts_of. rewrite list_lookup_fmap. assert (E : pyrange 1 17 !! Z.to_nat (L - 1) = Some L); [|by rewrite E].
  unfold pyrange. rewrite list_lookup_fmap, lookup_seq_lt by lia. cbn. f_equal. lia.
Qed.
Lemma counts_enough : zsum cnt <= zlen vals.
Proof. unfold symbols_of. rewrite zlen_concat_fmap. unfold counts_of, occurrences. lia. Qed.
Lemma width_16 : width cnt 16 = 0.
Proof. rewrite counts_width by lia. apply occurrences_none. destruct ok as [F _]. eapply Forall_impl; [exact F|]. intros x H ->. lia. Qed.
Lemma width_small L : 1 <= L <= 16 -> 0 <= width cnt L <= 288.
Proof. intros HL. rewrite counts_width by done. pose proof (occurrences_le lengths L). destruct ok. lia. Qed.

Lemma first_index_concat L : 1 <= L <= 17 -> first_index cnt L = zlen (concat (symbols_with lengths <$> pyrange 1 L)).
Proof.
  intros HL. rewrite zlen_concat_fmap. unfold first_index, counts_of, occurrences. rewrite <- fmap_take. do 2 f_equal. rewrite (pyrange_app 1 L 17) by lia. rewrite take_app_le; [|pose proof (zlen_pyrange 1 L ltac:(lia)) as E; unfold zlen in E; lia].
  apply take_ge. pose proof (zlen_pyrange 1 L ltac:(lia)) as E; unfold zlen in E; lia.
Qed.
(** The symbols of a length are next to one another. *)
Lemma symbols_lookup L j : 1 <= L <= 16 -> 0 <= j < width cnt L -> vals !! Z.to_nat (first_index cnt L + j) = symbols_with lengths L !! Z.to_nat j.
Proof.
  intros HL Hj. rewrite counts_width in Hj by done. pose proof (first_index_pos cnt counts_pos L) as P. unfold symbols_of. rewrite (pyrange_app 1 L 17), (pyrange_cons L 17) by lia. rewrite fmap_app, concat_app. cbn [fmap list_fmap concat].
  pose proof (first_index_concat L ltac:(lia)) as E. unfold zlen in E. rewrite lookup_app_r by lia. unfold occurrences, zlen in Hj. rewrite lookup_app_l by lia. f_equal. lia.
Qed.
Lemma code_word_symbol L c s : code_word lengths L c s <-> 1 <= L <= 15 /\ 0 <= c - first_code cnt L < occurrences lengths L /\ symbols_with lengths L !! Z.to_nat (c - first_code cnt L) = Some s.
Proof.
  unfold code_word, word. split.
  - intros (HL & HC & E). rewrite symbols_lookup in E by done. assert (L <> 16) by (intros ->; rewrite width_16 in HC; lia). rewrite counts_width in HC by lia. split; [lia | done].
  - intros (HL & HC & E). rewrite <- counts_width in HC by lia. split; [lia|]. split; [done|]. by rewrite symbols_lookup by (done || lia).
Qed.

(** ** Building the tables *)

Lemma counted : exists count, foldK count_length (zeros 16) lengths = Ok count /\ zlen count = 16 /\ forall L, 0 <= L <= 15 -> zat count L = occurrences lengths L.
Proof.
  destruct ok as [F S]. assert (G : forall l, Forall (fun x => 0 <= x <= 15) l -> zlen l <= 288 -> exists count, foldK count_length (zeros 16) l = Ok count /\ zlen count = 16 /\ forall L, 0 <= L <= 15 -> zat count L = occurrences l L); [|by apply G].
  induction l as [|x l IH] using rev_ind; intros FX SX.
  - exists (zeros 16). split_and!; [done | done|]. intros L HL. unfold zeros. by rewrite zat_replicate by lia.
  - apply Forall_app in FX as [FX HX]. rewrite Forall_singleton in HX. rewrite zlen_app in SX. change (zlen [x]) with 1 in SX. destruct (IH FX ltac:(lia)) as (count & E & LC & C).
    pose proof (occurrences_le l x). rewrite foldK_app, E, ok_bind. cbn [foldK]. unfold count_length. rewrite index_ok, ok_bind, C by lia. unfold u16. rewrite checked_ok, ok_bind, store_ok, ok_bind by lia.
    eexists. split; [done|]. split; [by rewrite zlen_zset|]. intros L HL. rewrite zat_zset, occurrences_snoc by lia. rewrite (Z.eqb_sym x L). destruct (Z.eqb_spec L x) as [->|]; [done|]. rewrite C by lia. lia.
Qed.

Section tables.
Context (count : list Z).
Hypothesis count_len : zlen count = 16.
Hypothesis count_at : forall L, 1 <= L <= 15 -> zat count L = width cnt L.

(** The test for too many words. *)
Lemma left_step left L : 1 <= L <= 15 -> 0 <= left -> left = 2 ^ (L - 1) - first_code cnt L / 2 -> 0 <= first_code cnt L ->
  left_over count left L = if first_code cnt L + width cnt L <=? 2 ^ L then Ok (2 ^ L - (first_code cnt L + width cnt L)) else Err Corrupt.
Proof.
  intros HL H0 HE HP. assert (EV : first_code cnt L = 2 * (first_code cnt L / 2)) by (unfold first_code; rewrite (Z.mul_comm 2), Z.div_mul by lia; lia).
  pose proof (width_small L ltac:(lia)) as WS. assert (P1 : 1 <= 2 ^ (L - 1) <= 2 ^ 14) by (split; [pose proof (pow2_pos (L - 1)); lia | apply Z.pow_le_mono_r; lia]). change (2 ^ 14) with 16384 in P1.
  assert (E2 : 2 ^ L = 2 * 2 ^ (L - 1)) by (rewrite <- Z.pow_succ_r by lia; f_equal; lia). unfold left_over. rewrite index_ok, ok_bind, count_at by lia. rewrite Z.shiftl_mul_pow2 by lia. change (2 ^ 1) with 2.
  unfold as_i32. rewrite Z.mod_small by lia. unfold i32. rewrite checked_ok, ok_bind by lia. replace (left * 2 + 2147483648 - 2147483648 - width cnt L) with (2 ^ L - (first_code cnt L + width cnt L)) by lia.
  destruct (Z.ltb_spec (2 ^ L - (first_code cnt L + width cnt L)) 0), (Z.leb_spec (first_code cnt L + width cnt L) (2 ^ L)); (done || lia).
Qed.
Lemma left_checked : match foldK (left_over count) 1 (pyrange 1 16) with Ok _ => prefix_free lengths | Err e => e = Corrupt /\ ~ prefix_free lengths | _ => False end.
Proof.
  assert (G : forall n L left, Z.of_nat n = 16 - L -> 1 <= L -> left = 2 ^ (L - 1) - first_code cnt L / 2 -> 0 <= left -> (forall l, 1 <= l < L -> first_code cnt l + width cnt l <= 2 ^ l) ->
    match foldK (left_over count) left (pyrange L 16) with Ok _ => prefix_free lengths | Err e => e = Corrupt /\ ~ prefix_free lengths | _ => False end); [|apply (G 15%nat 1 1); (lia || done)].
  induction n as [|n IH]; intros L left HN HL HE H0 HB.
  - rewrite pyrange_nil by lia. cbn [foldK]. intros l Hl. destruct (Z.eq_dec l 16) as [->|]; [|apply HB; lia]. rewrite width_16. replace 16 with (15 + 1) by lia. rewrite (first_code_next cnt counts_len) by lia. specialize (HB 15 ltac:(lia)). rewrite Z.pow_add_r by lia. lia.
  - rewrite pyrange_cons by lia. cbn [foldK]. rewrite left_step by (done || lia || apply first_code_pos, counts_pos). destruct (Z.leb_spec (first_code cnt L + width cnt L) (2 ^ L)) as [HF|HF].
    + rewrite ok_bind. apply IH; [lia | lia | | lia |].
      * rewrite (first_code_next cnt counts_len) by lia. rewrite (Z.mul_comm 2), Z.div_mul by lia. do 2 f_equal. lia.
      * intros l Hl. destruct (Z.eq_dec l L) as [->|]; [done | apply HB; lia].
    + split; [done|]. intros P. specialize (P L ltac:(lia)). lia.
Qed.

Lemma offsets_built : exists offsets, foldK (next_offset count) (zeros 17) (pyrange 1 16) = Ok offsets /\ zlen offsets = 17 /\ forall L, 1 <= L <= 16 -> zat offsets L = first_index cnt L.
Proof.
  destruct (foldK_range (fun L offsets => zlen offsets = 17 /\ forall l, 1 <= l <= L -> zat offsets l = first_index cnt l) (next_offset count) 1 16 (zeros 17)) as (offsets & E & LO & O); [lia | | |by exists offsets].
  - split; [done|]. intros l Hl. replace l with 1 by lia. done.
  - intros L offsets HL [LO O]. unfold next_offset. pose proof (width_small L ltac:(lia)). pose proof (first_index_pos cnt counts_pos L). pose proof (index_bound cnt counts_len counts_pos L ltac:(lia)). pose proof (counts_total lengths). destruct ok as [_ SM].
    rewrite (index_ok offsets), ok_bind, (index_ok count), ok_bind, count_at, O by lia. unfold u16. rewrite checked_ok, ok_bind, store_ok by lia. eexists. split; [done|]. split; [by rewrite zlen_zset|]. intros l Hl. rewrite zat_zset by lia.
    destruct (Z.eqb_spec l (L + 1)) as [->|]; [by rewrite (first_index_next cnt counts_len) by lia | apply O; lia].
Qed.

(** The state of [place_symbol] after the first lengths [l]. *)
Record placing (l : list Z) (st : list Z * list Z) : Prop := Placing {
  pl_len : zlen st.1 = 288 /\ zlen st.2 = 17;
  pl_offset : forall L, 1 <= L <= 15 -> zat st.2 L = first_index cnt L + occurrences l L;
  pl_symbol : forall L j, 1 <= L <= 15 -> 0 <= j < occurrences l L -> zat st.1 (first_index cnt L + j) = zat (symbols_with l L) j
}.

Lemma place_step l x rest st : lengths = l ++ x :: rest -> placing l st -> exists st', place_symbol st (zlen l, x) = Ok st' /\ placing (l ++ [x]) st'.
Proof.
  intros EL [[L1 L2] PO PS]. destruct ok as [F SM]. pose proof (proj1 (Forall_app _ _ _) (eq_ind _ (Forall _) F _ EL)) as [_ HX]. apply Forall_cons in HX as [HX _]. destruct st as [symbol offsets]. cbn [fst snd] in *. unfold place_symbol.
  assert (EQ : forall L, occurrences (l ++ [x]) L = occurrences l L + (if x =? L then 1 else 0)) by (intros L; apply occurrences_snoc). destruct (Z.eqb_spec x 0) as [->|N]; cbn [negb].
  - eexists. split; [done|]. split; cbn [fst snd]; [done | |].
    + intros L HL. rewrite EQ, (proj2 (Z.eqb_neq 0 L)) by lia. rewrite PO by done. lia.
    + intros L j HL Hj. rewrite EQ, (proj2 (Z.eqb_neq 0 L)) in Hj by lia. rewrite PS by (done || lia). rewrite symbols_with_snoc, (proj2 (Z.eqb_neq 0 L)), app_nil_r by lia. done.
  - assert (OC : occurrences (l ++ [x]) x <= width cnt x) by (rewrite counts_width by lia; rewrite EL; replace (l ++ [x]) with (firstn (length l + 1) (l ++ x :: rest)); [apply occurrences_prefix|]; rewrite take_app, take_ge by lia; f_equal; replace (length l + 1 - length l)%nat with 1%nat by lia; done).
    rewrite EQ, Z.eqb_refl in OC. pose proof (occurrences_le l x) as OL. pose proof (index_bound cnt counts_len counts_pos x ltac:(lia)) as IB. pose proof (counts_total lengths). pose proof (first_index_pos cnt counts_pos x).
    rewrite index_ok, ok_bind, PO, store_ok, ok_bind by lia. unfold u16. rewrite checked_ok, ok_bind, store_ok, ok_bind by lia. eexists. split; [done|]. split; cbn [fst snd]; [by rewrite !zlen_zset | |].
    + intros L HL. rewrite zat_zset, EQ, (Z.eqb_sym x L) by lia. destruct (Z.eqb_spec L x) as [->|]; [lia|]. rewrite PO by done. lia.
    + intros L j HL Hj. rewrite symbols_with_snoc. rewrite EQ in Hj. pose proof (first_index_pos cnt counts_pos L). rewrite zat_zset by lia. destruct (Z.eqb_spec x L) as [->|NL].
      * destruct (Z.eq_dec j (occurrences l L)) as [->|NJ]; [rewrite Z.eqb_refl; unfold occurrences; rewrite zat_app_r by lia; by rewrite Z.sub_diag|].
        rewrite (proj2 (Z.eqb_neq _ _)), PS by lia. rewrite zat_app_l; [done|]. unfold occurrences in *. lia.
      * rewrite app_nil_r. rewrite (proj2 (Z.eqb_neq _ _)); [by apply PS; lia|]. assert (OL2 : occurrences l L <= width cnt L) by (rewrite counts_width by lia; rewrite EL; replace l with (firstn (length l) (l ++ x :: rest)) at 1 by (by rewrite take_app_length); apply occurrences_prefix).
        destruct (Z.lt_ge_cases L x) as [G|G]; [pose proof (first_index_ge cnt counts_len counts_pos L x ltac:(lia) ltac:(lia)) | pose proof (first_index_ge cnt counts_len counts_pos x L ltac:(lia) ltac:(lia))]; lia.
Qed.

Lemma symbols_placed offsets : zlen offsets = 17 -> (forall L, 1 <= L <= 15 -> zat offsets L = first_index cnt L) ->
  exists st, foldK place_symbol (zeros 288, offsets) (zip (pyrange 0 (zlen lengths)) lengths) = Ok st /\ placing lengths st.
Proof.
  intros LO O. assert (G : forall l rest, lengths = l ++ rest -> exists st, foldK place_symbol (zeros 288, offsets) (zip (pyrange 0 (zlen l)) l) = Ok st /\ placing l st); [|apply (G lengths []); by rewrite app_nil_r].
  induction l as [|x l IH] using rev_ind; intros rest E.
  - eexists. split; [done|]. split; cbn [fst snd]; [done | intros L HL; rewrite O by done; change (occurrences [] L) with 0; lia | intros L j HL Hj; change (occurrences [] L) with 0 in Hj; lia].
  - rewrite <- app_assoc in E. destruct (IH (x :: rest) E) as (st & ES & PL). destruct (place_step l x rest st E PL) as (st' & ES' & PL'). exists st'. split; [|done].
    rewrite zlen_app. change (zlen [x]) with 1. pose proof (zlen_nonneg l). rewrite pyrange_snoc by lia. rewrite zip_with_app by (pose proof (zlen_pyrange 0 (zlen l) ltac:(lia)) as EL; unfold zlen in *; lia).
    rewrite foldK_app, ES, ok_bind. cbn [zip zip_with foldK]. change (0 + zlen l) with (zlen l) in *. rewrite ES', ok_bind. done.
Qed.

(** ** The lookup table *)

Context (symbol : list Z).
Hypothesis symbol_len : zlen symbol = 288.
Hypothesis symbol_at : forall L j, 1 <= L <= 15 -> 0 <= j < width cnt L -> zat symbol (first_index cnt L + j) = zat (symbols_with lengths L) j.
Hypothesis fit : prefix_free lengths.

(** [fast] holds the words of at most nine bits that satisfy [K]. *)
Definition fast_holds (K : Z -> Z -> Prop) (fast : list Z) : Prop := zlen fast = 512 /\ forall b, 0 <= b < 512 ->
  (exists l c s, K l c /\ l <= 9 /\ code_word lengths l c s /\ b mod 2 ^ l = mirror l c /\ zat fast b = 16 * s + l)
  \/ (zat fast b = 0 /\ forall l c s, K l c -> l <= 9 -> code_word lengths l c s -> b mod 2 ^ l <> mirror l c).

Lemma fill_fast_at L fast s code : 1 <= L <= 9 -> 0 <= s < 288 -> zlen fast = 512 ->
  exists fast', fill_word L fast s code = Ok fast' /\ zlen fast' = 512 /\ forall b, 0 <= b < 512 -> zat fast' b = if b mod 2 ^ L =? mirror L code then 16 * s + L else zat fast b.
Proof.
  intros HL HS LF. destruct (mirror_spec L code ltac:(lia)) as [MR _]. unfold fill_word. fold (mirror L code). set (m := mirror L code) in *. rewrite !Z.shiftl_1_l. change (2 ^ FAST_BITS) with 512. set (w := 2 ^ L) in *.
  assert (W : 0 < w) by (by apply pow2_pos; lia). assert (WL : w * 2 ^ (9 - L) = 512) by (unfold w; rewrite <- Z.pow_add_r by lia; by replace (L + (9 - L)) with 9 by lia). pose proof (pow2_pos (9 - L) ltac:(lia)).
  assert (EV : Z.lor (Z.shiftl s 4 mod 65536) L = 16 * s + L) by (rewrite Z.shiftl_mul_pow2 by lia; change (2 ^ 4) with 16; rewrite Z.mod_small by lia; change 16 with (2 ^ 4); rewrite <- Z.shiftl_mul_pow2 by lia; rewrite lor_shiftl_add by (change (2 ^ 4) with 16; lia); lia). rewrite EV.
  unfold range_step. assert (EC : (512 - m + w - 1) / w = 2 ^ (9 - L)) by (symmetry; apply (Z.div_unique_pos _ _ _ (w - 1 - m)); lia). rewrite EC.
  assert (EF : forall l, foldK (fun fast fill => store fast fill (16 * s + L)) fast ((fun k => m + k * w) <$> l) = foldK (fun fast k => store (E := inflate_error) fast (m + k * w) (16 * s + L)) fast l).
  { intros l. clear LF. revert fast. induction l as [|k l IH]; intros fast; [done|]. cbn [fmap list_fmap foldK]. destruct (store fast (m + k * w) (16 * s + L)); [|done..]. apply IH. }
  rewrite EF. destruct (foldK_range (fun j f => zlen f = 512 /\ forall b, 0 <= b < 512 -> zat f b = if (b mod w =? m) && (b / w <? j) then 16 * s + L else zat fast b)
    (fun fast k => store (E := inflate_error) fast (m + k * w) (16 * s + L)) 0 (2 ^ (9 - L)) fast) as (f & E & LF' & AT); [lia | | |].
  - split; [done|]. intros b Hb. pose proof (Z.div_pos b w ltac:(lia) W). rewrite (proj2 (Z.ltb_ge (b / w) 0)) by lia. by rewrite andb_false_r.
  - intros k f Hk [LF' AT]. assert (I : 0 <= m + k * w < 512) by nia. rewrite store_ok by lia. eexists. split; [done|]. split; [by rewrite zlen_zset|]. intros b Hb. rewrite zat_zset by lia. rewrite AT by done.
    pose proof (Z.div_mod b w ltac:(lia)). pose proof (Z.mod_pos_bound b w W). destruct (Z.eqb_spec b (m + k * w)) as [->|N].
    + rewrite Z.mod_add, Z.mod_small, Z.eqb_refl by lia. rewrite Z.div_add, Z.div_small by lia. rewrite (proj2 (Z.ltb_lt _ _)) by lia. done.
    + destruct (Z.eqb_spec (b mod w) m) as [E|]; cbn [andb]; [|done]. destruct (Z.ltb_spec (b / w) k), (Z.ltb_spec (b / w) (k + 1)); try (done || lia). assert (b / w = k) by lia. nia.
  - exists f. split; [done|]. split; [done|]. intros b Hb. rewrite AT by done. assert (D : b / w < 2 ^ (9 - L)) by (apply Z.div_lt_upper_bound; lia). rewrite (proj2 (Z.ltb_lt _ _) D). by rewrite andb_true_r.
Qed.

Lemma fast_holds_word K fast L c s : fast_holds K fast -> 1 <= L <= 9 -> code_word lengths L c s -> 0 <= s < 288 ->
  exists fast', fill_word L fast s c = Ok fast' /\ fast_holds (fun l c' => K l c' \/ l = L /\ c' = c) fast'.
Proof.
  intros [LF H] HL W HS. destruct (fill_fast_at L fast s c HL HS LF) as (fast' & E & LF' & AT). exists fast'. split; [done|]. split; [done|]. intros b Hb. rewrite AT by done. destruct (Z.eqb_spec (b mod 2 ^ L) (mirror L c)) as [EM|NM].
  - left. exists L, c, s. split_and!; try done; [by right | lia].
  - destruct (H b Hb) as [(l & c' & s' & HK & R)|[Z0 NW]]; [left; exists l, c', s'; split; [by left | done]|]. right. split; [done|]. intros l c' s' [HK|[-> ->]] Hl W'; [by eapply NW | done].
Qed.
Lemma fast_holds_iff K K' fast : (forall l c, K l c <-> K' l c) -> fast_holds K fast -> fast_holds K' fast.
Proof.
  intros HK [LF H]. split; [done|]. intros b Hb. destruct (H b Hb) as [(l & c & s & HA & R)|[Z0 NW]]; [left; exists l, c, s; split; [by apply HK | done]|]. right. split; [done|]. intros l c s HA. apply NW. by apply HK.
Qed.

(** Symbols are numbers of lengths. *)
Lemma symbols_with_range L s : s ∈ symbols_with lengths L -> 0 <= s < zlen lengths.
Proof.
  unfold symbols_with. intros ((s' & l) & -> & H)%list_elem_of_fmap. apply list_elem_of_filter in H as [_ H]. apply elem_of_zip_l in H. by apply elem_of_pyrange in H.
Qed.
Lemma code_word_range L c s : code_word lengths L c s -> 0 <= s < zlen lengths.
Proof. intros (_ & _ & E)%code_word_symbol. apply list_elem_of_lookup_2 in E. by apply symbols_with_range in E. Qed.
Lemma code_word_nth L j : 1 <= L <= 15 -> 0 <= j < width cnt L -> code_word lengths L (first_code cnt L + j) (zat symbol (first_index cnt L + j)).
Proof.
  intros HL Hj. apply code_word_symbol. rewrite counts_width in Hj by lia. split; [done|]. replace (first_code cnt L + j - first_code cnt L) with j by lia. split; [done|]. rewrite symbol_at by (rewrite ?counts_width by lia; done). by apply lookup_zat.
Qed.

Lemma fast_length_step L fast : 1 <= L <= 9 -> fast_holds (fun l _ => l < L) fast ->
  exists fast', fast_length count symbol (fast, first_code cnt L, first_index cnt L) L = Ok (fast', first_code cnt (L + 1), first_index cnt (L + 1)) /\ fast_holds (fun l _ => l < L + 1) fast'.
Proof.
  intros HL FH. unfold fast_length. rewrite index_ok, ok_bind, count_at by lia. pose proof (width_small L ltac:(lia)) as WS. pose proof (fit L ltac:(lia)) as FT. pose proof (first_code_pos cnt counts_pos L). pose proof (first_index_pos cnt counts_pos L).
  pose proof (index_bound cnt counts_len counts_pos L ltac:(lia)). pose proof (counts_total lengths). destruct ok as [_ SM]. assert (P9 : 2 ^ L <= 2 ^ 9) by (apply Z.pow_le_mono_r; lia). change (2 ^ 9) with 512 in P9.
  destruct (foldK_range (fun j (st : list Z * Z * Z) => st.1.2 = first_code cnt L + j /\ st.2 = first_index cnt L + j /\ fast_holds (fun l c => l < L \/ l = L /\ first_code cnt L <= c < first_code cnt L + j) st.1.1)
    (fast_word symbol L) 0 (width cnt L) (fast, first_code cnt L, first_index cnt L)) as ([[f code] i] & E & EC & EI & FH'); [lia | | |].
  - cbn [fst snd]. split_and!; [lia | lia|]. eapply fast_holds_iff; [|exact FH]. intros l c. cbn. lia.
  - intros j [[f code] i] Hj (EC & EI & FH'). cbn [fst snd] in *. subst code i. unfold fast_word. rewrite index_ok, ok_bind by lia. pose proof (code_word_nth L j ltac:(lia) Hj) as W. pose proof (code_word_range _ _ _ W).
    destruct (fast_holds_word _ f L _ _ FH' HL W ltac:(lia)) as (f' & -> & FH2). rewrite ok_bind. unfold u32. rewrite checked_ok, ok_bind by lia. eexists. split; [done|]. cbn [fst snd]. split_and!; [lia | lia|].
    eapply fast_holds_iff; [|exact FH2]. intros l c. cbn. lia.
  - cbn [fst snd] in *. rewrite E, ok_bind. exists f. subst code i. rewrite Z.shiftl_mul_pow2 by lia. change (2 ^ 1) with 2. rewrite Z.mod_small by lia. rewrite (first_code_next cnt counts_len), (first_index_next cnt counts_len) by lia. split; [do 3 f_equal; lia|].
    split; [by destruct FH'|]. intros b Hb. destruct FH' as [_ FH']. destruct (FH' b Hb) as [(l & c & s & HK & R)|[Z0 NW]]; [left; exists l, c, s; split; [lia | done]|].
    right. split; [done|]. intros l c s HK Hl9 W. apply (NW l c s); [|done|done]. pose proof W as (_ & HC & _). destruct (Z.eq_dec l L) as [->|]; [right; split; [done | lia] | left; lia].
Qed.

Lemma fast_built : exists st, foldK (fast_length count symbol) (zeros 512, 0, 0) (pyrange 1 10) = Ok st /\ fast_holds (fun l _ => l < 10) st.1.1.
Proof.
  destruct (foldK_range (fun L (st : list Z * Z * Z) => st.1.2 = first_code cnt L /\ st.2 = first_index cnt L /\ fast_holds (fun l _ => l < L) st.1.1) (fast_length count symbol) 1 10 (zeros 512, 0, 0)) as (st & E & _ & _ & FH); [lia | | |by exists st].
  - split_and!; [done | done|]. split; [done|]. intros b Hb. right. split; [unfold zeros; by apply zat_replicate; lia|]. intros l c s Hl _ (HL & _). lia.
  - intros L [[f code] i] HL (EC & EI & FH). cbn [fst snd] in *. subst code i. destruct (fast_length_step L f ltac:(lia) FH) as (f' & E & FH'). eexists. split; [exact E|]. by split_and!.
Qed.
End tables.

(** * The tables of a code *)

Record table_ok (t : huffman) : Prop := TableOk {
  tk_fits : prefix_free lengths;
  tk_count_len : zlen (count t) = 16;
  tk_count : forall L, 1 <= L <= 15 -> zat (count t) L = width cnt L;
  tk_symbol_len : zlen (symbol t) = 288;
  tk_symbol : forall L j, 1 <= L <= 15 -> 0 <= j < width cnt L -> zat (symbol t) (first_index cnt L + j) = zat (symbols_with lengths L) j;
  tk_fast : fast_holds (fun _ _ => True) (fast t)
}.

Lemma all_zero l : occurrences l 0 = zlen l -> Forall (fun x => x = 0) l.
Proof.
  induction l as [|x l IH] using rev_ind; [done|]. rewrite occurrences_snoc, zlen_app. change (zlen [x]) with 1. pose proof (occurrences_le l 0). destruct (Z.eqb_spec x 0) as [->|]; [|lia]. intros E. apply Forall_app. split; [apply IH; lia | by apply Forall_singleton].
Qed.
Lemma no_words : occurrences lengths 0 = zlen lengths -> (forall L, 1 <= L <= 16 -> width cnt L = 0) /\ prefix_free lengths.
Proof.
  intros E%all_zero. assert (O : forall L, 1 <= L -> occurrences lengths L = 0) by (intros L HL; apply occurrences_none; eapply Forall_impl; [exact E|]; cbn; lia). split; [intros L HL; rewrite counts_width, O by lia; done|].
  apply (complete_fits cnt []); [apply counts_len | apply counts_pos|]. assert (EC : cnt = (fun _ => 0) <$> pyrange 1 17); [|rewrite EC; vm_compute; discriminate].
  unfold counts_of. apply list_fmap_ext. intros i L HL%list_elem_of_lookup_2%elem_of_pyrange. apply O. lia.
Qed.

Lemma new_spec : match new lengths with Ok t => table_ok t | Err e => e = Corrupt /\ ~ prefix_free lengths | _ => False end.
Proof.
  unfold new. change (MAX_BITS + 1) with 16. change (MAX_BITS + 2) with 17. change (FAST_BITS + 1) with 10. destruct counted as (count & -> & LC & C). rewrite ok_bind, index_ok, ok_bind, C by lia.
  assert (CW : forall L, 1 <= L <= 15 -> zat count L = width cnt L) by (intros L HL; rewrite C, counts_width by lia; done). destruct (Z.eqb_spec (occurrences lengths 0) (zlen lengths)) as [E0|_].
  - destruct (no_words E0) as [W0 PF]. split; cbn [Kernel.count Kernel.symbol Kernel.fast]; try done.
    + intros L j HL Hj. rewrite W0 in Hj by lia. lia.
    + split; [done|]. intros b Hb. right. split; [unfold zeros; by apply zat_replicate; lia|]. intros l c s _ _ (HL & HC & _). rewrite W0 in HC by done. lia.
  - pose proof (left_checked count LC CW) as LK. destruct (foldK (left_over count) 1 (pyrange 1 16)) as [left|e| |]; [|done..]. rewrite ok_bind.
    destruct (offsets_built count LC CW) as (offsets & -> & LO & O). rewrite ok_bind. destruct (symbols_placed count offsets LO) as ([symbol offsets'] & -> & [[L1 _] _ PS]); [intros L HL; apply O; lia|]. rewrite ok_bind. cbn beta iota. cbn [fst snd] in *.
    assert (SA : forall L j, 1 <= L <= 15 -> 0 <= j < width cnt L -> zat symbol (first_index cnt L + j) = zat (symbols_with lengths L) j) by (intros L j HL Hj; rewrite counts_width in Hj by lia; by apply PS).
    destruct (fast_built count LC CW symbol L1 SA LK) as ([[fast code] i] & -> & FH). rewrite ok_bind. cbn beta iota. split; cbn [Kernel.count Kernel.symbol Kernel.fast]; try done.
    destruct FH as [LF FH]. split; [done|]. intros b Hb. destruct (FH b Hb) as [(l & c & s & _ & R)|[Z0 NW]]; [left; by exists l, c, s|]. right. split; [done|]. intros l c s _ Hl. apply NW; lia.
Qed.
End code.

(** * Decoding *)

(** The symbol whose word comes at [p], and the place after it. *)
Definition code_at (lengths : list Z) (s p symbol p' : Z) : Prop := exists L c, code_word lengths L c symbol /\ word_at s p L c /\ p' = p + L.

Section decoding.
Context (data lengths : list Z) (t : huffman).
Hypothesis bytes : Forall is_byte data.
Hypothesis ok : lengths_ok lengths.
Hypothesis tok : table_ok lengths t.
#[warnings="-notation-for-abbreviation"] Local Notation s := (le_val data).
#[warnings="-notation-for-abbreviation"] Local Notation cnt := (counts_of lengths).

Lemma code_word_bound L c x : code_word lengths L c x -> 1 <= L <= 15 /\ 0 <= c < 2 ^ L.
Proof.
  intros W. pose proof (proj1 (code_word_symbol lengths ok L c x) W) as (HL & _). destruct W as (_ & HC & _). pose proof (tk_fits _ _ tok L ltac:(lia)). pose proof (first_code_pos cnt (counts_pos lengths) L). lia.
Qed.

(** No word starts another, so one comes at most. *)
Lemma no_shorter_word p L c x L' c' x' : code_word lengths L c x -> word_at s p L c -> code_word lengths L' c' x' -> word_at s p L' c' -> L < L' -> False.
Proof.
  intros W A W' A' H. destruct (code_word_bound _ _ _ W) as [HL HC]. destruct (code_word_bound _ _ _ W') as [HL' HC'].
  pose proof (word_prefix cnt (symbols_of lengths) (counts_len lengths) (counts_pos lengths) L c x L' c' x' W W' H) as WP.
  assert (E : c = c' / 2 ^ (L' - L)); [|lia]. apply (word_at_inj s p L); [lia | done | | done | by apply word_at_prefix; [lia|]].
  split; [apply Z.div_pos; [lia | apply pow2_pos; lia]|]. apply Z.div_lt_upper_bound; [apply pow2_pos; lia|]. rewrite <- Z.pow_add_r by lia. replace (L' - L + L) with L' by lia. lia.
Qed.
Lemma word_determined p L c x L' c' x' : code_word lengths L c x -> word_at s p L c -> code_word lengths L' c' x' -> word_at s p L' c' -> L = L' /\ c = c' /\ x = x'.
Proof.
  intros W A W' A'. destruct (Z.lt_trichotomy L L') as [H|[<-|H]]; [by destruct (no_shorter_word p L c x L' c' x') | | by destruct (no_shorter_word p L' c' x' L c x)].
  destruct (code_word_bound _ _ _ W) as [HL HC]. destruct (code_word_bound _ _ _ W') as [_ HC']. assert (c = c') as <- by (apply (word_at_inj s p L); (done || lia)). split_and!; try done. by eapply word_inj.
Qed.

Lemma ready_skip b n k : ready data n b -> 0 <= k -> ready data (n - k) (skip k b).
Proof. intros [H|H] Hk; [left; cbn [skip held]; lia | by right]. Qed.

(** One bit more of the word that comes. *)
Lemma word_at_next p L h : 1 <= L -> 0 <= p -> 0 <= h < 2 ^ (L - 1) -> word_at s p (L - 1) h -> word_at s p L (2 * h + field s (p + L - 1) 1) /\ 0 <= 2 * h + field s (p + L - 1) 1 < 2 ^ L.
Proof.
  intros HL Hp Hh W. pose proof (field_range s (p + L - 1) 1 ltac:(lia)) as FR. change (2 ^ 1) with 2 in FR. split.
  2:{ assert (E2 : 2 ^ L = 2 * 2 ^ (L - 1)) by (rewrite <- Z.pow_succ_r by lia; f_equal; lia). lia. }
  intros i Hi. destruct (Z.eq_dec i (L - 1)) as [->|N].
  - replace (L - 1 - (L - 1)) with 0 by lia. rewrite field_bit, Z.testbit_0_r by lia. f_equal. lia.
  - rewrite W by lia. replace (L - 1 - i) with (Z.succ (L - 1 - 1 - i)) by lia. rewrite field_bit, Z.testbit_succ_r by lia. done.
Qed.

(** What [decode] does: the symbol whose word comes, or an error where none does. *)
Definition decoded (p : Z) (o : result (Z * bits)) : Prop :=
  match o with
  | Ok (x, b') => exists p', code_at lengths s p x p' /\ reads data b' p'
  | Err e => e = Corrupt /\ forall x p', ~ code_at lengths s p x p'
  | _ => False
  end.

Lemma slow_decoded p n : 0 <= p -> forall L h b, Z.of_nat n = 16 - L -> 1 <= L -> 0 <= h < 2 ^ (L - 1) -> word_at s p (L - 1) h -> first_code cnt L <= 2 * h ->
  (forall l c x, code_word lengths l c x -> word_at s p l c -> L <= l) -> reads data b (p + L - 1) -> ready data (16 - L) b ->
  decoded p (decode_slow t (pyrange L 16) (2 * h) (first_code cnt L) (first_index cnt L) b).
Proof.
  intros Hp. induction n as [|n IH]; intros L h b HN HL Hh WA FC NS R RD.
  - rewrite pyrange_nil by lia. split; [done|]. intros x p' (l & c & W & A & _). specialize (NS l c x W A). destruct (code_word_bound _ _ _ W). lia.
  - rewrite pyrange_cons by lia. cbn [decode_slow]. destruct (word_at_next p L h HL Hp Hh WA) as [WA' Hc]. pose proof (field_range s (p + L - 1) 1 ltac:(lia)) as FR. change (2 ^ 1) with 2 in FR.
    pose proof (ready_field data bytes b (p + L - 1) (16 - L) 1 R RD ltac:(lia)) as EB. change (Z.shiftl 1 1 - 1) with 1 in EB. rewrite EB. assert (EL : Z.lor (2 * h) (field s (p + L - 1) 1) = 2 * h + field s (p + L - 1) 1).
    { replace (2 * h) with (Z.shiftl h 1) by (rewrite Z.shiftl_mul_pow2 by lia; change (2 ^ 1) with 2; lia). rewrite lor_shiftl_add by (change (2 ^ 1) with 2; lia). rewrite Z.shiftl_mul_pow2 by lia. done. }
    rewrite EL. set (c := 2 * h + field s (p + L - 1) 1) in *. pose proof (skip_reads data b (p + L - 1) 1 R) as SR. pose proof (ready_skip b (16 - L) 1 RD ltac:(lia)) as RD'. specialize (SR ltac:(destruct RD as [|]; [left; lia | by right]) ltac:(lia)).
    pose proof (width_small lengths ok L ltac:(lia)) as WS. pose proof (tk_fits _ _ tok L ltac:(lia)) as FT. pose proof (first_code_pos cnt (counts_pos lengths) L). pose proof (first_index_pos cnt (counts_pos lengths) L).
    pose proof (index_bound cnt (counts_len lengths) (counts_pos lengths) L ltac:(lia)). pose proof (counts_total lengths). assert (SM : zlen lengths <= 288) by (by destruct ok). assert (P15 : 2 ^ L <= 2 ^ 15) by (apply Z.pow_le_mono_r; lia). change (2 ^ 15) with 32768 in P15.
    rewrite index_ok, ok_bind, (tk_count _ _ tok) by (rewrite ?(tk_count_len _ _ tok); lia). unfold i32. rewrite (checked_ok _ _ (c - width cnt L)), ok_bind by lia. destruct (Z.ltb_spec (c - width cnt L) (first_code cnt L)) as [HF|HF].
    + rewrite checked_ok, ok_bind, checked_ok, ok_bind by lia. rewrite index_ok, ok_bind by (rewrite (tk_symbol_len _ _ tok); lia). exists (p + L). split; [|by replace (p + L) with (p + L - 1 + 1) by lia].
      exists L, c. split; [|done]. pose proof (code_word_nth lengths ok (symbol t) (tk_symbol _ _ tok) L (c - first_code cnt L) ltac:(lia) ltac:(lia)) as W. by replace (first_code cnt L + (c - first_code cnt L)) with c in W by lia.
    + rewrite (checked_ok _ _ (first_index cnt L + _)), ok_bind, checked_ok, ok_bind by lia. rewrite !Z.shiftl_mul_pow2 by lia. change (2 ^ 1) with 2. unfold as_i32. rewrite !Z.mod_small by lia. rewrite <- (first_index_next cnt (counts_len lengths)) by lia.
      replace (c * 2 + 2147483648 - 2147483648) with (2 * c) by lia. replace ((first_code cnt L + width cnt L) * 2 + 2147483648 - 2147483648) with (first_code cnt (L + 1)) by (rewrite (first_code_next cnt (counts_len lengths)) by lia; lia).
      apply IH; [lia | lia | by replace (L + 1 - 1) with L by lia | by replace (L + 1 - 1) with L by lia | rewrite (first_code_next cnt (counts_len lengths)) by lia; lia | | by replace (p + (L + 1) - 1) with (p + L - 1 + 1) by lia | by replace (16 - (L + 1)) with (16 - L - 1) by lia].
      intros l c' x W A. specialize (NS l c' x W A). destruct (Z.eq_dec l L) as [->|]; [|lia]. exfalso. destruct (code_word_bound _ _ _ W) as [_ HC']. assert (c = c') as <- by (apply (word_at_inj s p L); (done || lia)). destruct W as (_ & HC & _). lia.
Qed.

Lemma decode_decoded b p : reads data b p -> (forall l c x, code_word lengths l c x -> word_at s p l c -> p + l <= 8 * (zlen data + 8)) -> decoded p (decode data t b).
Proof.
  intros R FE. pose proof (rs_pos _ _ _ R) as Hp. unfold decode. change MAX_BITS with 15. change FAST_BITS with 9. destruct (refilled data bytes b p 15 R ltac:(lia)) as [R1 RD]. set (b1 := if held b <? 15 then _ else _) in *.
  rewrite (ready_field data bytes b1 p 15 9 R1 RD ltac:(lia)). pose proof (field_range s p 9 ltac:(lia)) as FR. change (2 ^ 9) with 512 in FR. destruct (tk_fast _ _ tok) as [LF TF]. rewrite index_ok, ok_bind by lia.
  assert (MA : forall l c, 0 <= l <= 9 -> field s p 9 mod 2 ^ l = mirror l c <-> word_at s p l c) by (intros l c Hl; rewrite word_at_field, field_low by lia; done).
  destruct (TF (field s p 9) FR) as [(l & c & x & _ & Hl & W & EM & ->)|[-> NW]].
  - destruct (code_word_bound _ _ _ W) as [HL HC]. apply MA in EM; [|lia]. pose proof (code_word_range lengths ok _ _ _ W) as HX. rewrite (proj2 (Z.eqb_neq (16 * x + l) 0)) by lia. cbn [negb].
    assert (E15 : Z.land (16 * x + l) 15 = l) by (change 15 with (Z.ones 4); rewrite Z.land_ones by lia; change (2 ^ 4) with 16; rewrite Z.add_comm, (Z.mul_comm 16), Z.mod_add by lia; apply Z.mod_small; lia).
    assert (E4 : Z.shiftr (16 * x + l) 4 = x) by (rewrite Z.shiftr_div_pow2 by lia; change (2 ^ 4) with 16; rewrite Z.add_comm, (Z.mul_comm 16), Z.div_add by lia; rewrite Z.div_small by lia; lia).
    rewrite E15, E4. specialize (FE l c x W EM). assert (HH : l <= held b1) by (destruct RD as [|E]; [lia|]; destruct R1 as [_ _ _ _ [AT|AT]]; lia). pose proof (rs_held _ _ _ R1). unfold u32. rewrite checked_ok, ok_bind by lia.
    exists (p + l). split; [by exists l, c|]. replace (Bits (position b1) (Z.shiftr (buffer b1) l) (held b1 - l)) with (skip l b1) by (unfold skip; f_equal; lia). apply skip_reads; [done.. | by left | lia].
  - refine (slow_decoded p 15 Hp 1 0 b1 _ _ _ _ _ _ _ _); [lia | lia | by cbn | intros i Hi; lia | done | | by replace (p + 1 - 1) with p by lia | done].
    intros l c x W A. destruct (code_word_bound _ _ _ W). lia.
Qed.
End decoding.
