(* ===== verification/InflateSpec.v ===== *)
(** InflateSpec: DEFLATE streams (RFC 1951) and their zlib wrapper (RFC 1950),
    as relations between the bits of a stream and the bytes it stands for.

    Nothing here refers to the decompressor or the compressor of the kernel,
    whose theorems relate them to these definitions. *)
From Stdlib Require Import ZArith Lia List.
From stdpp Require Import base list gmap strings.
From S2P Require Import Prelude Text Arrays Machine Huff Inflate InflateBits InflateHuff.
Open Scope Z_scope.

(** * Lengths and distances *)

(** Length codes come in groups of four with one extra bit more each, distance
    codes in groups of two. *)
Definition length_extra (k : Z) : Z := if (k <? 8) || (k =? 28) then 0 else k / 4 - 1.
Definition length_base (k : Z) : Z := if k =? 28 then 258 else if k <? 8 then 3 + k else 3 + (4 + k mod 4) * 2 ^ (k / 4 - 1).
Definition distance_extra (k : Z) : Z := if k <? 4 then 0 else k / 2 - 1.
Definition distance_base (k : Z) : Z := if k <? 4 then 1 + k else 1 + (2 + k mod 2) * 2 ^ (k / 2 - 1).

(** The bytes a match copies, which may overlap what it writes. *)
Definition copied (out : list Z) (back len : Z) : list Z := (fun i => zat out (zlen out - back + i mod back)) <$> pyrange 0 len.

(** The lengths of the fixed codes, and the order the lengths of the code of
    lengths come in. *)
Definition fixed_lengths : list Z :=
  (fun x => if x <? 144 then 8 else if x <? 256 then 9 else if x <? 280 then 7 else 8) <$> pyrange 0 288.
Definition fixed_distances : list Z := replicate 30 5.
Definition length_order : list Z := [16; 17; 18; 0; 8; 7; 9; 6; 10; 5; 11; 4; 12; 3; 13; 2; 14; 1; 15].

(** * Streams *)

Section stream.
Context (s : Z).

(** The symbols of a block from [p] to [p'], with the bytes before and after. *)
Inductive tokens (lit dist : list Z) : Z -> list Z -> Z -> list Z -> Prop :=
| tokens_end p out p' :
    code_at lit s p 256 p' -> tokens lit dist p out p' out
| tokens_literal p out x p1 p' out' :
    code_at lit s p x p1 -> x < 256 ->
    tokens lit dist p1 (out ++ [x]) p' out' -> tokens lit dist p out p' out'
| tokens_match p out k p1 y p2 p' out' :
    code_at lit s p (257 + k) p1 -> 0 <= k < 29 ->
    code_at dist s (p1 + length_extra k) y p2 -> y < 30 ->
    distance_base y + field s p2 (distance_extra y) <= zlen out ->
    tokens lit dist (p2 + distance_extra y)
      (out ++ copied out (distance_base y + field s p2 (distance_extra y)) (length_base k + field s p1 (length_extra k))) p' out' ->
    tokens lit dist p out p' out'.

(** The lengths of two codes, [total] of them, written in runs. *)
Inductive runs (code : list Z) (total : Z) : Z -> list Z -> Z -> list Z -> Prop :=
| runs_end p ls :
    zlen ls = total -> runs code total p ls p ls
| runs_length p ls x p1 p' ls' :
    zlen ls < total -> code_at code s p x p1 -> x < 16 ->
    runs code total p1 (ls ++ [x]) p' ls' -> runs code total p ls p' ls'
| runs_again p ls v p1 p' ls' :
    code_at code s p 16 p1 -> zlen ls + 1 + (3 + field s p1 2) <= total ->
    runs code total (p1 + 2) (ls ++ v :: replicate (Z.to_nat (3 + field s p1 2)) v) p' ls' ->
    runs code total p (ls ++ [v]) p' ls'
| runs_zeros p ls p1 p' ls' :
    code_at code s p 17 p1 -> zlen ls + (3 + field s p1 3) <= total ->
    runs code total (p1 + 3) (ls ++ replicate (Z.to_nat (3 + field s p1 3)) 0) p' ls' ->
    runs code total p ls p' ls'
| runs_many_zeros p ls p1 p' ls' :
    code_at code s p 18 p1 -> zlen ls + (11 + field s p1 7) <= total ->
    runs code total (p1 + 7) (ls ++ replicate (Z.to_nat (11 + field s p1 7)) 0) p' ls' ->
    runs code total p ls p' ls'.

(** The lengths of the code of lengths: three bits each, the rest are 0. *)
Definition code_lengths (p n : Z) : list Z :=
  foldl (fun ls i => zset ls (zat length_order i) (field s (p + 3 * i) 3)) (zeros 19) (pyrange 0 n).

(** The codes for literals and lengths, and for distances, that a block brings
    along from [p] to [q]. *)
Inductive dynamic_codes : Z -> list Z -> list Z -> Z -> Prop :=
| dynamic_codes_at p hlit hdist hclen q ls :
    hlit = 257 + field s p 5 -> hdist = 1 + field s (p + 5) 5 -> hclen = 4 + field s (p + 10) 4 -> hlit <= 286 -> hdist <= 30 ->
    prefix_free (code_lengths (p + 14) hclen) -> runs (code_lengths (p + 14) hclen) (hlit + hdist) (p + 14 + 3 * hclen) [] q ls ->
    prefix_free (firstn (Z.to_nat hlit) ls) -> prefix_free (skipn (Z.to_nat hlit) ls) ->
    dynamic_codes p (firstn (Z.to_nat hlit) ls) (skipn (Z.to_nat hlit) ls) q.

(** A block of a kind, after its three bits of header. *)
Inductive block : Z -> Z -> list Z -> Z -> list Z -> Prop :=
| block_stored p out n :
    n = field s (aligned p) 16 -> field s (aligned p + 16) 16 = 65535 - n ->
    block 0 p out (aligned p + 32 + 8 * n) (out ++ ((fun i => field s (aligned p + 32 + 8 * i) 8) <$> pyrange 0 n))
| block_fixed p out p' out' :
    tokens fixed_lengths fixed_distances p out p' out' -> block 1 p out p' out'
| block_dynamic p out lit dist q p' out' :
    dynamic_codes p lit dist q -> tokens lit dist q out p' out' -> block 2 p out p' out'.

Inductive blocks : Z -> list Z -> Z -> list Z -> Prop :=
| blocks_last p out p' out' :
    field s p 1 = 1 -> block (field s (p + 1) 2) (p + 3) out p' out' -> blocks p out p' out'
| blocks_more p out p1 out1 p' out' :
    field s p 1 = 0 -> block (field s (p + 1) 2) (p + 3) out p1 out1 -> blocks p1 out1 p' out' -> blocks p out p' out'.
End stream.

(** The stream [data] holds [out] and maybe more after its end. *)
Definition deflate_stream (data out : list Z) : Prop := exists p', blocks (le_val data) 0 [] p' out /\ p' <= 8 * zlen data.

(** Adler-32 of a list of bytes. *)
Definition adler (l : list Z) : Z :=
  let '(a, b) := foldl (fun '(a, b) x => ((a + x) mod 65521, (b + (a + x)) mod 65521)) (1, 0) l in b * 65536 + a.

(** Two bytes of header, the stream, and the checksum of what it holds. *)
Record zlib_stream (data out : list Z) : Prop := ZlibStream {
  zs_bytes : Forall is_byte data;
  zs_method : Z.land (zat data 0) 15 = 8;
  zs_check : (zat data 0 * 256 + zat data 1) mod 31 = 0;
  zs_no_dictionary : Z.land (zat data 1) 32 = 0;
  zs_stream : exists p', blocks (le_val (drop 2 data)) 0 [] p' out /\ zlen data = 2 + (p' + 7) / 8 + 4;
  zs_adler : drop (length data - 4) data = be_bytes 4 (adler out)
}.
