(* ===== verification/InflateBlock.v ===== *)
(** InflateBlock: the kernel's [inflate] accepts exactly the DEFLATE streams of
    InflateSpec that fit its output, writes what they stand for, and never
    panics: on every other input it returns an error. *)
From Stdlib Require Import ZArith Lia List.
From stdpp Require Import base list gmap strings.
From S2P Require Import Prelude Text Arrays Machine Huff Inflate InflateBits InflateHuff InflateSpec.
Open Scope Z_scope.
Import Inflate.Kernel.

(** * The output *)

(** The buffer once [out] is written. *)
Definition filled (buf out : list Z) : list Z := out ++ drop (length out) buf.
Lemma filled_full buf out : zlen buf = zlen out -> filled buf out = out.
Proof. intros L. unfold filled. rewrite drop_ge by (unfold zlen in *; lia). apply app_nil_r. Qed.

Lemma zlen_filled buf out : zlen out <= zlen buf -> zlen (filled buf out) = zlen buf.
Proof. unfold filled, zlen. rewrite length_app, length_drop. lia. Qed.
Lemma filled_store buf out x : zlen out < zlen buf -> store (E := inflate_error) (filled buf out) (zlen out) x = Ok (filled buf (out ++ [x])).
Proof.
  intros H. pose proof (zlen_nonneg out). rewrite store_ok by (rewrite zlen_filled by lia; lia). f_equal. unfold filled, zset. rewrite insert_app_r_alt by (unfold zlen; lia). rewrite <- app_assoc. f_equal. cbn [app].
  unfold zlen in *. rewrite Nat2Z.id, Nat.sub_diag. destruct (lookup_lt_is_Some_2 buf (length out) ltac:(lia)) as (y & E). rewrite (drop_S _ _ _ E). cbn. rewrite length_app. cbn [length]. by rewrite Nat.add_1_r.
Qed.

Lemma copied_snoc out back k : 0 <= k -> copied out back (k + 1) = copied out back k ++ [zat out (zlen out - back + k mod back)].
Proof. intros H. unfold copied. by rewrite pyrange_snoc, fmap_app by lia. Qed.
Lemma zlen_copied out back k : 0 <= k -> zlen (copied out back k) = k.
Proof. intros H. unfold copied, zlen. rewrite length_fmap. pose proof (zlen_pyrange 0 k ltac:(lia)) as E. unfold zlen in E. lia. Qed.
Lemma zat_copied out back k i : 0 <= i < k -> zat (copied out back k) i = zat out (zlen out - back + i mod back).
Proof.
  intros H. apply zat_lookup; [lia|]. unfold copied. rewrite list_lookup_fmap. assert (E : pyrange 0 k !! Z.to_nat i = Some i); [|by rewrite E]. unfold pyrange. rewrite list_lookup_fmap, lookup_seq_lt by lia. cbn. f_equal. lia.
Qed.
(** The byte a match copies next. *)
Lemma copied_source out back k : 0 < back <= zlen out -> 0 <= k -> zat (out ++ copied out back k) (zlen out - back + k) = zat out (zlen out - back + k mod back).
Proof.
  intros Hb Hk. destruct (Z.lt_ge_cases k back) as [H|H]; [rewrite zat_app_l by lia; by rewrite Z.mod_small|]. rewrite zat_app_r by lia. replace (zlen out - back + k - zlen out) with (k - back) by lia. rewrite zat_copied by lia.
  do 2 f_equal. replace (k - back) with (k + (-1) * back) by lia. apply Z.mod_add. lia.
Qed.

Lemma copy_match_filled buf out back len : 0 < back <= zlen out -> 0 <= len -> zlen out + len <= zlen buf ->
  copy_match (filled buf out) (zlen out) back len = Ok (filled buf (out ++ copied out back len)).
Proof.
  intros Hb Hl HL. unfold copy_match. destruct (Z.leb_spec len back) as [H|H].
  - unfold copy_within. rewrite zlen_filled by lia. rewrite (proj2 (Z.leb_le 0 _)), (proj2 (Z.leb_le (_ + len) _)), (proj2 (Z.leb_le (zlen out + len) _)) by lia. cbn [andb]. f_equal.
    assert (ES : pyslice (filled buf out) (zlen out - back) (zlen out - back + len) = copied out back len).
    { assert (LS : zlen (pyslice (filled buf out) (zlen out - back) (zlen out - back + len)) = len) by (rewrite zlen_pyslice by (rewrite ?zlen_filled; lia); lia). apply zat_ext; [by rewrite zlen_copied|]. rewrite LS. intros i Hi. rewrite zat_copied, Z.mod_small by lia.
      rewrite pyslice_nn by lia. unfold zat. rewrite lookup_take_lt, lookup_drop by lia. unfold filled. rewrite lookup_app_l by (unfold zlen in *; lia). do 2 f_equal. lia. }
    rewrite ES, slice_assign_nn by lia. unfold filled, zlen in *. rewrite Nat2Z.id, take_app_length, <- app_assoc. do 2 f_equal. pose proof (zlen_copied out back len Hl) as LC. unfold zlen in LC. rewrite drop_app_ge, drop_drop, length_app by lia. f_equal. lia.
  - destruct (foldK_range (fun k o => o = filled buf (out ++ copied out back k)) (copy_byte (zlen out) back) 0 len (filled buf out)) as (o & -> & ->); [lia | unfold copied; rewrite pyrange_nil by lia; cbn; by rewrite app_nil_r | | done].
    intros k o Hk ->. unfold copy_byte. assert (L : zlen (out ++ copied out back k) = zlen out + k) by (rewrite zlen_app, zlen_copied by lia; lia). rewrite index_ok, ok_bind by (rewrite zlen_filled by lia; lia).
    assert (EA : zat (filled buf (out ++ copied out back k)) (zlen out - back + k) = zat out (zlen out - back + k mod back)) by (unfold filled; rewrite zat_app_l by lia; apply copied_source; lia).
    rewrite EA. replace (zlen out + k) with (zlen (out ++ copied out back k)) by lia. rewrite filled_store by lia. eexists. split; [done|]. by rewrite copied_snoc, app_assoc by lia.
Qed.

(** * The tables of lengths and distances *)

Lemma length_tables : forallb (fun k => (zat LENGTH_BASE k =? length_base k) && (zat LENGTH_EXTRA k =? length_extra k) && (0 <=? length_extra k) && (length_extra k <=? 5) && (1 <=? length_base k)) (pyrange 0 29) = true.
Proof. vm_compute. reflexivity. Qed.
Lemma distance_tables : forallb (fun k => (zat DISTANCE_BASE k =? distance_base k) && (zat DISTANCE_EXTRA k =? distance_extra k) && (0 <=? distance_extra k) && (distance_extra k <=? 13) && (1 <=? distance_base k)) (pyrange 0 30) = true.
Proof. vm_compute. reflexivity. Qed.
Lemma length_table k : 0 <= k < 29 -> zat LENGTH_BASE k = length_base k /\ zat LENGTH_EXTRA k = length_extra k /\ 0 <= length_extra k <= 5 /\ 1 <= length_base k.
Proof.
  intros H. pose proof length_tables as T. rewrite forallb_forall in T. specialize (T k ltac:(apply list_elem_of_In, elem_of_pyrange; done)). rewrite !andb_true_iff, !Z.eqb_eq, !Z.leb_le in T. lia.
Qed.
Lemma distance_table k : 0 <= k < 30 -> zat DISTANCE_BASE k = distance_base k /\ zat DISTANCE_EXTRA k = distance_extra k /\ 0 <= distance_extra k <= 13 /\ 1 <= distance_base k.
Proof.
  intros H. pose proof distance_tables as T. rewrite forallb_forall in T. specialize (T k ltac:(apply list_elem_of_In, elem_of_pyrange; done)). rewrite !andb_true_iff, !Z.eqb_eq, !Z.leb_le in T. lia.
Qed.

(** * The symbols of a block *)

Section symbols.
Context (data : list Z).
Hypothesis bytes : Forall is_byte data.
#[warnings="-notation-for-abbreviation"] Local Notation s := (le_val data).
#[warnings="-notation-for-abbreviation"] Local Notation len := (zlen data).

(** A code and its tables. *)
Record coded (lengths : list Z) (t : huffman) : Prop := Coded {
  cd_ok : lengths_ok lengths;
  cd_table : table_ok lengths t
}.

Lemma code_at_next lengths t p x p' : coded lengths t -> code_at lengths s p x p' -> p < p' <= p + 15 /\ 0 <= x < zlen lengths.
Proof. intros [OK TK] (L & c & W & _ & ->). destruct (code_word_bound lengths t OK TK L c x W). pose proof (code_word_range lengths OK _ _ _ W). lia. Qed.

Lemma decode_any lengths t b p : coded lengths t -> reads data b p -> p + 15 <= 8 * (len + 8) -> decoded data lengths p (decode data t b).
Proof. intros [OK TK] R HP. apply decode_decoded; try done. intros l c x W _. destruct (code_word_bound lengths t OK TK l c x W). lia. Qed.
Lemma decode_coded lengths t b p x p' : coded lengths t -> reads data b p -> p + 15 <= 8 * (len + 8) -> code_at lengths s p x p' -> exists b', decode data t b = Ok (x, b') /\ reads data b' p'.
Proof.
  intros CD R HP CA. pose proof (decode_any lengths t b p CD R HP) as D. destruct CD as [OK TK]. destruct (decode data t b) as [[y b']|e| |]; cbn in D; [|by destruct D as [_ D]; destruct (D x p')|done..].
  destruct D as (q & (L' & c' & W' & A' & ->) & R'). destruct CA as (L & c & W & A & ->). destruct (word_determined data lengths t OK TK p L c x L' c' y W A W' A') as (-> & _ & ->). by exists b'.
Qed.

Context (lit dist : list Z) (tl td : huffman) (buf : list Z).
Hypothesis cl : coded lit tl.
Hypothesis cd : coded dist td.

(** What [inflate_block] returns for a block that ends at [p']. *)
Definition block_result (p : Z) (out : list Z) (r : list Z * Z * bits) : Prop := exists p' out',
  tokens s lit dist p out p' out' /\ reads data r.2 p' /\ r.1 = (filled buf out', zlen out') /\ zlen out' <= zlen buf.

Lemma inflate_block_sound fuel : forall out p b, reads data b p -> p <= 8 * len + 3 -> zlen out <= zlen buf -> 8 * len + 3 - p < Z.of_nat fuel ->
  safe (block_result p out) (inflate_block fuel data tl td (filled buf out) (zlen out) b).
Proof.
  induction fuel as [|fuel IH]; intros out p b R HP HO HF; [lia|]. cbn [inflate_block]. pose proof (zlen_nonneg out).
  pose proof (decode_any lit tl b p cl R ltac:(lia)) as D. destruct (decode data tl b) as [[x b1]|e| |]; cbn in D; [|done..]. destruct D as (p1 & CA & R1). rewrite ok_bind. destruct (code_at_next lit tl p x p1 cl CA) as [HP1 HX].
  assert (NX : forall out1 p2 b2, reads data b2 p2 -> p1 <= p2 -> zlen out1 <= zlen buf -> (forall p' out', tokens s lit dist p2 out1 p' out' -> tokens s lit dist p out p' out') ->
    safe (block_result p out) (if overrun data b2 then Err Corrupt else inflate_block fuel data tl td (filled buf out1) (zlen out1) b2)).
  { intros out1 p2 b2 R2 HP2 HO1 TK. rewrite (overrun_reads data b2 p2 R2). destruct (Z.ltb_spec (8 * len) p2) as [|H2]; [done|]. eapply safe_impl; [apply (IH out1 p2 b2); (done || lia)|]. intros r (p' & out' & T & RR). exists p', out'. split; [by apply TK | done]. }
  destruct (Z.ltb_spec x 256) as [H256|H256].
  - rewrite zlen_filled by lia. destruct (Z.eqb_spec (zlen out) (zlen buf)) as [|NE]; [done|]. rewrite Z.mod_small, filled_store, ok_bind by lia. replace (zlen out + 1) with (zlen (out ++ [x])) by (rewrite zlen_app; done).
    apply (NX _ p1); [done | lia | rewrite zlen_app; change (zlen [x]) with 1; lia|]. intros p' out' T. by eapply tokens_literal.
  - destruct (Z.eqb_spec x 256) as [->|N256]; [exists p1, out; split_and!; try done; by apply tokens_end|]. destruct (Z.leb_spec 29 (x - 257)) as [|H29]; [done|].
    destruct (length_table (x - 257) ltac:(lia)) as (LB & LE & HE & HB). rewrite (index_ok LENGTH_BASE), ok_bind, (index_ok LENGTH_EXTRA), ok_bind, LB, LE by (change (zlen _) with 29; lia).
    destruct (take_reads data bytes b1 p1 (length_extra (x - 257)) R1 ltac:(lia)) as (b2 & -> & R2). pose proof (decode_any dist td b2 _ cd R2 ltac:(lia)) as D. destruct (decode data td b2) as [[y b3]|e| |]; cbn in D; [|done..].
    destruct D as (p3 & CA3 & R3). rewrite ok_bind. destruct (code_at_next dist td _ y p3 cd CA3) as [HP3 HY]. destruct (Z.leb_spec 30 y) as [|H30]; [done|].
    destruct (distance_table y ltac:(lia)) as (DB & DE & HDE & HDB). rewrite (index_ok DISTANCE_BASE), ok_bind, (index_ok DISTANCE_EXTRA), ok_bind, DB, DE by (change (zlen _) with 30; lia).
    destruct (take_reads data bytes b3 p3 (distance_extra y) R3 ltac:(lia)) as (b4 & -> & R4). pose proof (field_range s p1 (length_extra (x - 257)) ltac:(lia)). pose proof (field_range s p3 (distance_extra y) ltac:(lia)).
    destruct (Z.ltb_spec (zlen out) (distance_base y + field s p3 (distance_extra y))) as [|HB2]; [done|]. rewrite zlen_filled by lia. destruct (Z.ltb_spec (zlen buf) (zlen out + (length_base (x - 257) + field s p1 (length_extra (x - 257))))) as [|HL2]; [done|].
    rewrite copy_match_filled, ok_bind by lia. set (k := x - 257) in *. set (cp := copied _ _ _). assert (LC : zlen (out ++ cp) = zlen out + (length_base k + field s p1 (length_extra k))) by (unfold cp; rewrite zlen_app, zlen_copied by lia; lia).
    rewrite <- LC. apply (NX _ (p3 + distance_extra y)); [done | lia | lia|]. intros p' out' T. apply (tokens_match s lit dist p out k p1 y p3 p' out'); [by replace (257 + k) with x by lia | unfold k; lia | done | lia | done | exact T].
Qed.

Lemma tokens_grow p out p' out' : tokens s lit dist p out p' out' -> p < p' /\ zlen out <= zlen out'.
Proof.
  induction 1 as [p out p' CA|p out x p1 p' out' CA HX T [I1 I2]|p out k p1 y p2 p' out' CA HK CA2 HY HB T [I1 I2]].
  - destruct (code_at_next lit tl p 256 p' cl CA). lia.
  - destruct (code_at_next lit tl p x p1 cl CA). rewrite zlen_app in I2. change (zlen [x]) with 1 in I2. lia.
  - destruct (code_at_next lit tl p _ p1 cl CA). destruct (code_at_next dist td _ y p2 cd CA2). destruct (length_table k HK) as (_ & _ & ? & ?). destruct (distance_table y ltac:(lia)) as (_ & _ & ? & _). rewrite zlen_app in I2.
    match type of I2 with _ + zlen ?l <= _ => pose proof (zlen_nonneg l) end. lia.
Qed.

Lemma inflate_block_complete p out p' out' : tokens s lit dist p out p' out' -> forall b fuel, reads data b p -> p' <= 8 * len -> zlen out' <= zlen buf -> p' - p < Z.of_nat fuel ->
  exists b', inflate_block fuel data tl td (filled buf out) (zlen out) b = Ok (filled buf out', zlen out', b') /\ reads data b' p'.
Proof.
  induction 1 as [p out p' CA|p out x p1 p' out' CA HX T IH|p out k p1 y p2 p' out' CA HK CA2 HY HB T IH]; intros b fuel R HP HO HF.
  - destruct (code_at_next lit tl p 256 p' cl CA). destruct fuel as [|fuel]; [lia|]. cbn [inflate_block]. destruct (decode_coded lit tl b p 256 p' cl R ltac:(lia) CA) as (b1 & -> & R1). rewrite ok_bind. by exists b1.
  - destruct (code_at_next lit tl p x p1 cl CA). destruct (tokens_grow _ _ _ _ T) as [G1 G2]. rewrite zlen_app in G2. change (zlen [x]) with 1 in G2. destruct fuel as [|fuel]; [lia|]. cbn [inflate_block].
    destruct (decode_coded lit tl b p x p1 cl R ltac:(lia) CA) as (b1 & -> & R1). rewrite ok_bind, (proj2 (Z.ltb_lt x 256) HX), zlen_filled by lia. rewrite (proj2 (Z.eqb_neq (zlen out) (zlen buf))) by lia.
    rewrite Z.mod_small, filled_store, ok_bind by lia. rewrite (overrun_reads data b1 p1 R1), (proj2 (Z.ltb_ge (8 * len) p1)) by lia. replace (zlen out + 1) with (zlen (out ++ [x])) by (rewrite zlen_app; done). apply IH; (done || lia).
  - destruct (code_at_next lit tl p _ p1 cl CA) as [HP1 _]. destruct (code_at_next dist td _ y p2 cd CA2) as [HP2 HY2]. destruct (tokens_grow _ _ _ _ T) as [G1 G2]. destruct (length_table k HK) as (LB & LE & HE & HB2). destruct (distance_table y ltac:(lia)) as (DB & DE & HDE & HDB).
    pose proof (field_range s p1 (length_extra k) ltac:(lia)) as FR1. pose proof (field_range s p2 (distance_extra y) ltac:(lia)) as FR2. set (n := length_base k + field s p1 (length_extra k)) in *. set (back := distance_base y + field s p2 (distance_extra y)) in *.
    assert (LC : zlen (out ++ copied out back n) = zlen out + n) by (rewrite zlen_app, zlen_copied by lia; lia). destruct fuel as [|fuel]; [lia|]. cbn [inflate_block].
    destruct (decode_coded lit tl b p _ p1 cl R ltac:(lia) CA) as (b1 & -> & R1). rewrite ok_bind, (proj2 (Z.ltb_ge (257 + k) 256)), (proj2 (Z.eqb_neq (257 + k) 256)) by lia. replace (257 + k - 257) with k by lia. rewrite (proj2 (Z.leb_gt 29 k)) by lia.
    rewrite (index_ok LENGTH_BASE), ok_bind, (index_ok LENGTH_EXTRA), ok_bind, LB, LE by (change (zlen _) with 29; lia). destruct (take_reads data bytes b1 p1 (length_extra k) R1 ltac:(lia)) as (b2 & -> & R2).
    destruct (decode_coded dist td b2 _ y p2 cd R2 ltac:(lia) CA2) as (b3 & -> & R3). rewrite ok_bind, (proj2 (Z.leb_gt 30 y)) by lia. rewrite (index_ok DISTANCE_BASE), ok_bind, (index_ok DISTANCE_EXTRA), ok_bind, DB, DE by (change (zlen _) with 30; lia).
    destruct (take_reads data bytes b3 p2 (distance_extra y) R3 ltac:(lia)) as (b4 & -> & R4). fold n back. rewrite (proj2 (Z.ltb_ge (zlen out) back)), zlen_filled, (proj2 (Z.ltb_ge (zlen buf) (zlen out + n))) by lia. rewrite copy_match_filled, ok_bind by lia.
    rewrite (overrun_reads data b4 _ R4), (proj2 (Z.ltb_ge (8 * len) (p2 + distance_extra y))) by lia. rewrite <- LC. apply IH; (done || lia).
Qed.

(** * Stored blocks *)

Definition stored_bytes (a n : Z) : list Z := (fun i => field s (a + 32 + 8 * i) 8) <$> pyrange 0 n.

Lemma stored_loop out b a n : reads data b (a + 32) -> 0 <= n -> zlen out + n <= zlen buf ->
  exists b', foldK (stored_byte data) (filled buf out, zlen out, b) (pyrange 0 n) = Ok (filled buf (out ++ stored_bytes a n), zlen (out ++ stored_bytes a n), b') /\ reads data b' (a + 32 + 8 * n).
Proof.
  intros R Hn HO. destruct (foldK_range (fun k (st : list Z * Z * bits) => st.1 = (filled buf (out ++ stored_bytes a k), zlen (out ++ stored_bytes a k)) /\ reads data st.2 (a + 32 + 8 * k))
    (stored_byte data) 0 n (filled buf out, zlen out, b)) as ([[o w] b'] & E & EQ & R'); [lia | | |cbn in EQ; injection EQ as -> ->; by exists b'].
  - cbn [fst snd]. unfold stored_bytes. rewrite pyrange_nil by lia. cbn [fmap list_fmap]. rewrite app_nil_r. split; [done|]. by replace (a + 32 + 8 * 0) with (a + 32) by lia.
  - intros k [[o w] b1] Hk [EQ R1]. cbn [fst snd] in *. injection EQ as -> ->. unfold stored_byte. destruct (take_reads data bytes b1 _ 8 R1 ltac:(lia)) as (b2 & -> & R2). pose proof (field_range s (a + 32 + 8 * k) 8 ltac:(lia)) as FR. change (2 ^ 8) with 256 in FR.
    assert (LS : zlen (out ++ stored_bytes a k) = zlen out + k) by (rewrite zlen_app; unfold stored_bytes, zlen; rewrite length_fmap; pose proof (zlen_pyrange 0 k ltac:(lia)) as EP; unfold zlen in EP; lia).
    rewrite Z.mod_small, filled_store, ok_bind by lia. eexists. split; [done|]. cbn [fst snd]. unfold stored_bytes at 3 4. rewrite pyrange_snoc, fmap_app, app_assoc by lia. cbn [fmap list_fmap]. fold (stored_bytes a k). rewrite (zlen_app (out ++ stored_bytes a k)).
    split; [done|]. by replace (a + 32 + 8 * (k + 1)) with (a + 32 + 8 * k + 8) by lia.
Qed.

Lemma lnot_field x : 0 <= x < 65536 -> Z.land (Z.lnot x) 65535 = 65535 - x.
Proof. intros H. change 65535 with (Z.ones 16) at 1. rewrite Z.land_ones by lia. unfold Z.lnot. symmetry. apply (Z.mod_unique_pos _ _ (-1)); change (2 ^ 16) with 65536; lia. Qed.

Lemma stored_block_spec out b p : reads data b p -> p <= 8 * (len + 8) -> zlen out <= zlen buf -> let a := aligned p in let n := field s a 16 in
  if (n =? 65535 - field s (a + 16) 16) && (zlen out + n <=? zlen buf)
  then exists b', stored_block data (filled buf out) (zlen out) b = Ok (filled buf (out ++ stored_bytes a n), zlen (out ++ stored_bytes a n), b') /\ reads data b' (a + 32 + 8 * n)
  else exists e, stored_block data (filled buf out) (zlen out) b = Err e.
Proof.
  intros R HP HO. cbv zeta. unfold stored_block. pose proof (align_reads data b p R HP) as RA. set (a := aligned p) in *. destruct (take_reads data bytes _ a 16 RA ltac:(lia)) as (b1 & -> & R1). destruct (take_reads data bytes b1 _ 16 R1 ltac:(lia)) as (b2 & -> & R2).
  pose proof (field_range s a 16 ltac:(lia)) as FR1. pose proof (field_range s (a + 16) 16 ltac:(lia)) as FR2. change (2 ^ 16) with 65536 in *. rewrite lnot_field by lia. destruct (Z.eqb_spec (field s a 16) (65535 - field s (a + 16) 16)) as [E|]; cbn [negb andb]; [|by eexists].
  rewrite zlen_filled by lia. destruct (Z.ltb_spec (zlen buf) (zlen out + field s a 16)), (Z.leb_spec (zlen out + field s a 16) (zlen buf)); try lia; [by eexists|]. apply stored_loop; [by replace (a + 32) with (a + 16 + 16) by lia | lia | done].
Qed.
End symbols.
