(* ===== verification/InflateTables.v ===== *)
(** InflateTables: the codes a dynamic block brings along: [read_dynamic_tables]
    reads the runs of lengths InflateSpec describes and builds the tables of the
    two codes, or returns an error. *)
From Stdlib Require Import ZArith Lia List.
From stdpp Require Import base list gmap strings.
From S2P Require Import Prelude Text Arrays Machine Huff Inflate InflateBits InflateHuff InflateSpec InflateBlock.
Open Scope Z_scope.
Import Inflate.Kernel.

(** * The length of a symbol *)

Lemma symbols_with_at lengths L x : x ∈ symbols_with lengths L -> zat lengths x = L.
Proof.
  unfold symbols_with. intros ((y & l) & -> & H)%list_elem_of_fmap. apply list_elem_of_filter in H as [E H]. cbn [snd fst] in *. subst l. apply list_elem_of_lookup in H as (i & H). apply lookup_zip_with_Some in H as (a & b & [= <- <-] & HA & HB).
  unfold pyrange in HA. rewrite list_lookup_fmap in HA. destruct (seq 0 _ !! i) as [n|] eqn:ES; [|done]. apply lookup_seq in ES as [-> _]. injection HA as <-. apply zat_lookup; [lia|]. by rewrite Z.add_0_l, Nat2Z.id.
Qed.
Lemma code_word_length lengths L c x : lengths_ok lengths -> code_word lengths L c x -> zat lengths x = L /\ 1 <= L.
Proof. intros OK (HL & _ & E)%(code_word_symbol lengths OK). split; [|lia]. by apply symbols_with_at, (list_elem_of_lookup_2 _ _ _ E). Qed.

Section tables.
Context (data : list Z).
Hypothesis bytes : Forall is_byte data.
#[warnings="-notation-for-abbreviation"] Local Notation s := (le_val data).
#[warnings="-notation-for-abbreviation"] Local Notation len := (zlen data).

(** * The code of lengths *)

Lemma order_range i : 0 <= i < 19 -> 0 <= zat length_order i < 19.
Proof.
  intros H. assert (T : forallb (fun i => (0 <=? zat length_order i) && (zat length_order i <? 19)) (pyrange 0 19) = true) by (vm_compute; reflexivity).
  rewrite forallb_forall in T. specialize (T i ltac:(apply list_elem_of_In, elem_of_pyrange; done)). rewrite andb_true_iff, Z.leb_le, Z.ltb_lt in T. lia.
Qed.
Lemma order_slice n : 0 <= n <= 19 -> pyslice CODE_LENGTH_ORDER 0 n = zat length_order <$> pyrange 0 n.
Proof.
  intros H. assert (T : forallb (fun n => zeqb_list (pyslice CODE_LENGTH_ORDER 0 n) (zat length_order <$> pyrange 0 n)) (pyrange 0 20) = true) by (vm_compute; reflexivity).
  rewrite forallb_forall in T. specialize (T n ltac:(apply list_elem_of_In, elem_of_pyrange; lia)). by apply zeqb_list_eq.
Qed.

(** The lengths read so far, and where each of them that is not 0 comes from. *)
Lemma code_lengths_spec q n : 0 <= n <= 19 -> zlen (code_lengths s q n) = 19 /\ (forall x, 0 <= x < 19 -> 0 <= zat (code_lengths s q n) x <= 7)
  /\ (forall x, 0 <= x < 19 -> zat (code_lengths s q n) x <> 0 -> exists i, 0 <= i < n /\ field s (q + 3 * i) 3 <> 0).
Proof.
  intros Hn. unfold code_lengths. apply (foldl_range (fun k ls => zlen ls = 19 /\ (forall x, 0 <= x < 19 -> 0 <= zat ls x <= 7) /\ (forall x, 0 <= x < 19 -> zat ls x <> 0 -> exists i, 0 <= i < k /\ field s (q + 3 * i) 3 <> 0))); [lia | |].
  - split; [done|]. assert (Z0 : forall x, 0 <= x < 19 -> zat (zeros 19) x = 0) by (intros x Hx; unfold zeros; apply zat_replicate; lia). split; intros x Hx; rewrite Z0 by done; (lia || done).
  - intros k ls Hk (LS & R & NZ). pose proof (order_range k ltac:(lia)). pose proof (field_range s (q + 3 * k) 3 ltac:(lia)) as FR. change (2 ^ 3) with 8 in FR. split; [by rewrite zlen_zset|]. split; intros x Hx; rewrite zat_zset by lia; destruct (Z.eqb_spec x (zat length_order k)); try (lia || by apply R).
    + intros N. exists k. split; [lia | done].
    + intros N. destruct (NZ x Hx N) as (i & Hi & F). exists i. split; [lia | done].
Qed.
Lemma code_lengths_ok q n : 0 <= n <= 19 -> lengths_ok (code_lengths s q n).
Proof.
  intros Hn. destruct (code_lengths_spec q n Hn) as (L & R & _). split; [|lia]. apply Forall_forall. intros x Hx. apply elem_zat in Hx as (i & Hi & <-). specialize (R i ltac:(lia)). lia.
Qed.

Lemma read_code_lengths b q n : reads data b q -> 0 <= n <= 19 ->
  exists b', foldK (read_code_length data) (zeros 320, b) (pyslice CODE_LENGTH_ORDER 0 n) = Ok (code_lengths s q n ++ zeros 301, b') /\ reads data b' (q + 3 * n).
Proof.
  intros R Hn. rewrite order_slice by done. assert (EF : forall l st, foldK (read_code_length data) st (zat length_order <$> l) = foldK (fun st i => read_code_length data st (zat length_order i)) st l).
  { induction l as [|i l IH]; intros st; [done|]. cbn [fmap list_fmap foldK]. destruct (read_code_length data st (zat length_order i)); [|done..]. apply IH. }
  rewrite EF. destruct (foldK_range (fun k (st : list Z * bits) => st.1 = code_lengths s q k ++ zeros 301 /\ reads data st.2 (q + 3 * k)) (fun st i => read_code_length data st (zat length_order i)) 0 n (zeros 320, b)) as ([l b'] & E & EL & R'); [lia | | |cbn in EL; subst l; by exists b'].
  - split; [done|]. by replace (q + 3 * 0) with q by lia.
  - intros k [l b1] Hk [EL R1]. cbn [fst snd] in *. subst l. unfold read_code_length. destruct (take_reads data bytes b1 _ 3 R1 ltac:(lia)) as (b2 & -> & R2). destruct (code_lengths_spec q k ltac:(lia)) as (LS & _). pose proof (order_range k ltac:(lia)).
    rewrite store_ok, ok_bind by (rewrite zlen_app, LS; change (zlen (zeros 301)) with 301; lia). eexists. split; [done|]. cbn [fst snd]. split; [|by replace (q + 3 * (k + 1)) with (q + 3 * k + 3) by lia].
    rewrite zset_app_l by lia. f_equal. unfold code_lengths. rewrite pyrange_snoc, foldl_app by lia. done.
Qed.

(** A word of it fits into what the reader has, also where the lengths run past
    the end of the stream. *)
Lemma code_lengths_fit q n l c x : 0 <= q -> 0 <= n <= 19 -> code_word (code_lengths s q n) l c x -> q + 3 * n + l <= 8 * (len + 8).
Proof.
  intros Hq Hn W. pose proof (code_lengths_ok q n Hn) as OK. destruct (code_word_length _ _ _ _ OK W) as [E HL]. pose proof (code_word_range _ OK _ _ _ W) as HX. destruct (code_lengths_spec q n Hn) as (LS & R & NZ). rewrite LS in HX.
  destruct (NZ x HX ltac:(lia)) as (i & Hi & F). specialize (R x HX). destruct (Z.lt_ge_cases (q + 3 * i) (8 * len)) as [H|H]; [lia|]. exfalso. apply F. apply (field_end _ _ _ (8 * len)); [by apply le_val_bits | pose proof (zlen_nonneg data); lia | lia].
Qed.

(** * Runs of lengths *)

Definition Z320 : list Z := zeros 320.

Lemma store_run ls n v : zlen ls + Z.of_nat n <= 320 -> foldK (fun lengths k => store (E := inflate_error) lengths (zlen ls + k) v) (filled Z320 ls) (pyrange 0 (Z.of_nat n)) = Ok (filled Z320 (ls ++ replicate n v)).
Proof.
  intros H. destruct (foldK_range (fun k o => o = filled Z320 (ls ++ replicate (Z.to_nat k) v)) (fun lengths k => store (E := inflate_error) lengths (zlen ls + k) v) 0 (Z.of_nat n) (filled Z320 ls)) as (o & -> & ->); [lia | cbn; by rewrite app_nil_r | | by rewrite Nat2Z.id].
  intros k o Hk ->. assert (L : zlen (ls ++ replicate (Z.to_nat k) v) = zlen ls + k) by (rewrite zlen_app; unfold zlen; rewrite length_replicate; lia). rewrite <- L, filled_store by (rewrite L; change (zlen Z320) with 320; lia).
  eexists. split; [done|]. rewrite <- app_assoc. do 2 f_equal. replace (Z.to_nat (k + 1)) with (Z.to_nat k + 1)%nat by lia. by rewrite replicate_add.
Qed.

Context (cl : list Z) (t : huffman) (total : Z).
Hypothesis coded_cl : coded cl t.
Hypothesis symbols_19 : zlen cl = 19.
Hypothesis total_range : 0 < total <= 316.

Definition short (l : list Z) : Prop := Forall (fun x => 0 <= x <= 15) l.

Lemma runs_end_at p ls p' ls' : runs s cl total p ls p' ls' -> short ls -> p <= p' /\ zlen ls <= total /\ zlen ls' = total /\ short ls'.
Proof.
  induction 1 as [p ls E|p ls x p1 p' ls' HL CA HX T IH|p ls v p1 p' ls' CA HL T IH|p ls p1 p' ls' CA HL T IH|p ls p1 p' ls' CA HL T IH]; intros F; [split_and!; (done || lia)|..]; destruct (code_at_next data cl t p _ p1 coded_cl CA) as [HP HX'].
  - destruct IH as (I1 & I2 & I3 & I4); [apply Forall_app; split; [done|]; apply Forall_singleton; lia|]. split_and!; (done || lia).
  - apply Forall_app in F as [F1 F2]. rewrite Forall_singleton in F2. pose proof (field_range s p1 2 ltac:(lia)). destruct IH as (I1 & I2 & I3 & I4); [apply Forall_app; split; [done|]; apply Forall_cons; split; [done | by apply Forall_replicate]|].
    rewrite zlen_app. change (zlen [v]) with 1. split_and!; (done || lia).
  - pose proof (field_range s p1 3 ltac:(lia)). destruct IH as (I1 & I2 & I3 & I4); [apply Forall_app; split; [done|]; by apply Forall_replicate|]. split_and!; (done || lia).
  - pose proof (field_range s p1 7 ltac:(lia)). destruct IH as (I1 & I2 & I3 & I4); [apply Forall_app; split; [done|]; by apply Forall_replicate|]. split_and!; (done || lia).
Qed.

(** Where the first word comes, which may be past the end. *)
Definition may_decode (p : Z) (ls : list Z) : Prop := p <= 8 * len \/ ls = [] /\ forall l c x, code_word cl l c x -> p + l <= 8 * (len + 8).
Lemma decode_length b p ls : reads data b p -> may_decode p ls -> decoded data cl p (decode data t b).
Proof.
  intros R MD. destruct coded_cl as [OK TK]. apply decode_decoded; try done. intros l c x W _. destruct MD as [|[_ MD]]; [|by eapply MD]. destruct (code_word_bound cl t OK TK l c x W). lia.
Qed.

Definition lengths_result (p : Z) (ls : list Z) (r : list Z * bits) : Prop := exists p' ls', runs s cl total p ls p' ls' /\ reads data r.2 p' /\ r.1 = filled Z320 ls' /\ p' <= 8 * len.

Lemma read_lengths_sound fuel : forall ls p b, reads data b p -> may_decode p ls -> zlen ls <= total -> total - zlen ls < Z.of_nat fuel ->
  safe (lengths_result p ls) (read_lengths fuel data t total (filled Z320 ls) (zlen ls) b).
Proof.
  induction fuel as [|fuel IH]; intros ls p b R MD HL HF; [lia|]. cbn [read_lengths]. pose proof (zlen_nonneg ls). destruct (Z.ltb_spec (zlen ls) total) as [HT|HT].
  2:{ exists p, ls. split; [by apply runs_end; lia|]. split_and!; [done | done|]. destruct MD as [|[-> _]]; [done|]. change (zlen []) with 0 in HT. lia. }
  pose proof (decode_length b p ls R MD) as D. destruct (decode data t b) as [[x b1]|e| |]; cbn in D; [|done..]. destruct D as (p1 & CA & R1). rewrite ok_bind. destruct (code_at_next data cl t p x p1 coded_cl CA) as [HP1 HX]. rewrite symbols_19 in HX.
  assert (NX : forall ls1 p2 b2, reads data b2 p2 -> zlen ls < zlen ls1 <= total -> (forall p' ls', runs s cl total p2 ls1 p' ls' -> runs s cl total p ls p' ls') ->
    safe (lengths_result p ls) ('(lengths, i, b) ← Ok (filled Z320 ls1, zlen ls1, b2); if overrun data b then Err Corrupt else read_lengths fuel data t total lengths i b)).
  { intros ls1 p2 b2 R2 HL1 TK. rewrite ok_bind. cbn beta iota. rewrite (overrun_reads data b2 p2 R2). destruct (Z.ltb_spec (8 * len) p2) as [|H2]; [done|]. eapply safe_impl; [apply (IH ls1 p2 b2); [done | by left | lia | lia]|].
    intros r (p' & ls' & T & RR). exists p', ls'. split; [by apply TK | done]. }
  assert (RUN : forall n v p2 b2, reads data b2 p2 -> 0 < n -> (zlen ls + n <= total -> forall p' ls', runs s cl total p2 (ls ++ replicate (Z.to_nat n) v) p' ls' -> runs s cl total p ls p' ls') ->
    safe (lengths_result p ls) ('(lengths, i, b) ← (if total <? zlen ls + n then Err Corrupt else lengths ← foldK (fun lengths k => store lengths (zlen ls + k) v) (filled Z320 ls) (pyrange 0 n); Ok (lengths, zlen ls + n, b2)); if overrun data b then Err Corrupt else read_lengths fuel data t total lengths i b)).
  { intros n v p2 b2 R2 Hn TK. destruct (Z.ltb_spec total (zlen ls + n)) as [|HN]; [done|]. pose proof (store_run ls (Z.to_nat n) v ltac:(lia)) as SR. rewrite Z2Nat.id in SR by lia. rewrite SR, ok_bind.
    assert (L : zlen (ls ++ replicate (Z.to_nat n) v) = zlen ls + n) by (rewrite zlen_app; unfold zlen; rewrite length_replicate; lia). rewrite <- L. apply (NX _ p2); [done | lia | by apply TK]. }
  destruct (Z.ltb_spec x 16) as [H16|H16].
  { rewrite filled_store by (change (zlen Z320) with 320; lia). rewrite ok_bind. replace (zlen ls + 1) with (zlen (ls ++ [x])) by (rewrite zlen_app; done). apply (NX _ p1); [done | rewrite zlen_app; change (zlen [x]) with 1; lia|]. intros p' ls' T. by eapply runs_length. }
  destruct (Z.eqb_spec x 16) as [->|N16].
  { destruct (Z.eqb_spec (zlen ls) 0) as [|N0]; [done|]. destruct (@List.exists_last _ ls ltac:(by intros ->)) as (ls0 & v & ->). rewrite index_ok by (rewrite zlen_filled by (change (zlen Z320) with 320; lia); change (zlen Z320) with 320; lia).
    assert (EV : zat (filled Z320 (ls0 ++ [v])) (zlen (ls0 ++ [v]) - 1) = v) by (unfold filled; rewrite zat_app_l by lia; rewrite zlen_app; change (zlen [v]) with 1; rewrite zat_app_r by lia; by replace (zlen ls0 + 1 - 1 - zlen ls0) with 0 by lia).
    rewrite ok_bind, EV. destruct (take_reads data bytes b1 p1 2 R1 ltac:(lia)) as (b2 & -> & R2). rewrite ok_bind. cbn beta iota. pose proof (field_range s p1 2 ltac:(lia)). apply (RUN _ v _ b2 R2); [lia|]. intros HN p' ls' T. rewrite <- app_assoc in T. rewrite zlen_app in HN. change (zlen [v]) with 1 in HN. by apply (runs_again s cl total p ls0 v p1). }
  destruct (Z.eqb_spec x 17) as [->|N17].
  - destruct (take_reads data bytes b1 p1 3 R1 ltac:(lia)) as (b2 & -> & R2). rewrite ok_bind. cbn beta iota. pose proof (field_range s p1 3 ltac:(lia)). apply (RUN _ 0 _ b2 R2); [lia|]. intros HN p' ls' T. by apply (runs_zeros s cl total p ls p1).
  - assert (x = 18) as -> by lia. destruct (take_reads data bytes b1 p1 7 R1 ltac:(lia)) as (b2 & -> & R2). rewrite ok_bind. cbn beta iota. pose proof (field_range s p1 7 ltac:(lia)). apply (RUN _ 0 _ b2 R2); [lia|]. intros HN p' ls' T. by apply (runs_many_zeros s cl total p ls p1).
Qed.

Lemma decode_length_word b p ls x p' : reads data b p -> may_decode p ls -> code_at cl s p x p' -> exists b', decode data t b = Ok (x, b') /\ reads data b' p'.
Proof.
  intros R MD CA. pose proof (decode_length b p ls R MD) as D. destruct coded_cl as [OK TK]. destruct (decode data t b) as [[y b']|e| |]; cbn in D; [|by destruct D as [_ D]; destruct (D x p')|done..].
  destruct D as (q & (L' & c' & W' & A' & ->) & R'). destruct CA as (L & c & W & A & ->). destruct (word_determined data cl t OK TK p L c x L' c' y W A W' A') as (-> & _ & ->). by exists b'.
Qed.

Lemma zlen_run (ls : list Z) n v : 0 <= n -> zlen (ls ++ replicate (Z.to_nat n) v) = zlen ls + n.
Proof. intros H. rewrite zlen_app. unfold zlen. rewrite length_replicate. lia. Qed.
(** A run is stored and the loop goes on. *)
Lemma run_stored fuel ls n v p b : reads data b p -> p <= 8 * len -> 0 < n -> zlen ls + n <= total ->
  ('(lengths, i, b) ← (if total <? zlen ls + n then Err Corrupt else lengths ← foldK (fun lengths k => store lengths (zlen ls + k) v) (filled Z320 ls) (pyrange 0 n); Ok (lengths, zlen ls + n, b));
   if overrun data b then Err Corrupt else read_lengths fuel data t total lengths i b)
  = read_lengths fuel data t total (filled Z320 (ls ++ replicate (Z.to_nat n) v)) (zlen (ls ++ replicate (Z.to_nat n) v)) b.
Proof.
  intros R HP Hn HL. rewrite (proj2 (Z.ltb_ge total _)) by lia. pose proof (store_run ls (Z.to_nat n) v ltac:(lia)) as SR. rewrite Z2Nat.id in SR by lia. rewrite SR, ok_bind, ok_bind. cbn beta iota.
  rewrite (overrun_reads data b p R), (proj2 (Z.ltb_ge (8 * len) p)) by lia. f_equal. by rewrite zlen_run by lia.
Qed.

Lemma read_lengths_complete p ls p' ls' : runs s cl total p ls p' ls' -> short ls -> forall b fuel, reads data b p -> p' <= 8 * len -> total - zlen ls < Z.of_nat fuel ->
  exists b', read_lengths fuel data t total (filled Z320 ls) (zlen ls) b = Ok (filled Z320 ls', b') /\ reads data b' p'.
Proof.
  induction 1 as [p ls E|p ls x p1 p' ls' HL CA HX T IH|p ls v p1 p' ls' CA HL T IH|p ls p1 p' ls' CA HL T IH|p ls p1 p' ls' CA HL T IH]; intros F b fuel R HP HF.
  { destruct fuel as [|fuel]; [lia|]. cbn [read_lengths]. rewrite E, (proj2 (Z.ltb_ge total total)) by lia. by exists b. }
  all: destruct (code_at_next data cl t p _ p1 coded_cl CA) as [HP1 HX'].
  - assert (F' : short (ls ++ [x])) by (apply Forall_app; split; [done|]; apply Forall_singleton; lia). destruct (runs_end_at _ _ _ _ T F') as (G1 & G2 & _). destruct (decode_length_word b p ls x p1 R (or_introl (ltac:(lia) : p <= 8 * len)) CA) as (b1 & ED & R1).
    destruct fuel as [|fuel]; [lia|]. cbn [read_lengths]. rewrite ED, (proj2 (Z.ltb_lt (zlen ls) total)), ok_bind, (proj2 (Z.ltb_lt x 16)) by lia. rewrite filled_store, ok_bind, ok_bind by (change (zlen Z320) with 320; lia). rewrite (overrun_reads data b1 p1 R1), (proj2 (Z.ltb_ge (8 * len) p1)) by lia.
    rewrite zlen_app in *. change (zlen [x]) with 1 in *. apply IH; (done || lia).
  - set (n := 3 + field s p1 2) in *. pose proof (field_range s p1 2 ltac:(lia)). change (v :: replicate (Z.to_nat n) v) with ([v] ++ replicate (Z.to_nat n) v) in *. rewrite app_assoc in *. assert (F' : short ((ls ++ [v]) ++ replicate (Z.to_nat n) v)) by (apply Forall_app; split; [done|]; apply Forall_app in F as [_ F2]; rewrite Forall_singleton in F2; by apply Forall_replicate).
    destruct (runs_end_at _ _ _ _ T F') as (G1 & G2 & _). destruct (decode_length_word b p (ls ++ [v]) 16 p1 R (or_introl (ltac:(lia) : p <= 8 * len)) CA) as (b1 & ED & R1). pose proof (zlen_nonneg ls). assert (L1 : zlen (ls ++ [v]) = zlen ls + 1) by (rewrite zlen_app; done). rewrite zlen_run in G2 by lia.
    destruct fuel as [|fuel]; [lia|]. cbn [read_lengths]. rewrite ED, (proj2 (Z.ltb_lt (zlen (ls ++ [v])) total)), ok_bind by lia. cbn [Z.ltb Z.compare Pos.compare Pos.compare_cont Z.eqb Pos.eqb]. rewrite (proj2 (Z.eqb_neq (zlen (ls ++ [v])) 0)) by lia.
    rewrite index_ok by (rewrite zlen_filled by (change (zlen Z320) with 320; lia); change (zlen Z320) with 320; lia). assert (EV : zat (filled Z320 (ls ++ [v])) (zlen (ls ++ [v]) - 1) = v) by (unfold filled; rewrite zat_app_l by lia; rewrite L1, zat_app_r by lia; by replace (zlen ls + 1 - 1 - zlen ls) with 0 by lia).
    rewrite ok_bind, EV. destruct (take_reads data bytes b1 p1 2 R1 ltac:(lia)) as (b2 & -> & R2). rewrite ok_bind. cbn beta iota. fold n. rewrite (run_stored fuel _ n v _ b2 R2) by lia. apply IH; rewrite ?zlen_run by lia; (done || lia).
  - set (n := 3 + field s p1 3) in *. pose proof (field_range s p1 3 ltac:(lia)). assert (F' : short (ls ++ replicate (Z.to_nat n) 0)) by (apply Forall_app; split; [done | by apply Forall_replicate]). destruct (runs_end_at _ _ _ _ T F') as (G1 & G2 & _).
    destruct (decode_length_word b p ls 17 p1 R (or_introl (ltac:(lia) : p <= 8 * len)) CA) as (b1 & ED & R1). destruct fuel as [|fuel]; [lia|]. cbn [read_lengths]. rewrite ED, (proj2 (Z.ltb_lt (zlen ls) total)), ok_bind by lia. cbn [Z.ltb Z.compare Pos.compare Pos.compare_cont Z.eqb Pos.eqb].
    destruct (take_reads data bytes b1 p1 3 R1 ltac:(lia)) as (b2 & -> & R2). rewrite ok_bind. cbn beta iota. fold n. rewrite (run_stored fuel _ n 0 _ b2 R2) by lia. apply IH; rewrite ?zlen_run by lia; (done || lia).
  - set (n := 11 + field s p1 7) in *. pose proof (field_range s p1 7 ltac:(lia)). assert (F' : short (ls ++ replicate (Z.to_nat n) 0)) by (apply Forall_app; split; [done | by apply Forall_replicate]). destruct (runs_end_at _ _ _ _ T F') as (G1 & G2 & _).
    destruct (decode_length_word b p ls 18 p1 R (or_introl (ltac:(lia) : p <= 8 * len)) CA) as (b1 & ED & R1). destruct fuel as [|fuel]; [lia|]. cbn [read_lengths]. rewrite ED, (proj2 (Z.ltb_lt (zlen ls) total)), ok_bind by lia. cbn [Z.ltb Z.compare Pos.compare Pos.compare_cont Z.eqb Pos.eqb].
    destruct (take_reads data bytes b1 p1 7 R1 ltac:(lia)) as (b2 & -> & R2). rewrite ok_bind. cbn beta iota. fold n. rewrite (run_stored fuel _ n 0 _ b2 R2) by lia. apply IH; rewrite ?zlen_run by lia; (done || lia).
Qed.
End tables.

Section dynamic.
Context (data : list Z).
Hypothesis bytes : Forall is_byte data.
#[warnings="-notation-for-abbreviation"] Local Notation s := (le_val data).
#[warnings="-notation-for-abbreviation"] Local Notation len := (zlen data).

(** Both codes, as slices of the lengths. *)
Lemma split_lengths ls hlit hdist : 0 <= hlit -> 0 <= hdist -> zlen ls = hlit + hdist -> hlit + hdist <= 320 ->
  pyslice (filled Z320 ls) 0 hlit = firstn (Z.to_nat hlit) ls /\ pyslice (filled Z320 ls) hlit (hlit + hdist) = skipn (Z.to_nat hlit) ls.
Proof.
  intros H1 H2 HL HS. unfold filled. rewrite !pyslice_app_l by lia. rewrite !pyslice_nn by lia. change (Z.to_nat 0) with O. rewrite drop_0, Z.sub_0_r. split; [done|]. apply take_ge. rewrite length_drop. unfold zlen in HL. lia.
Qed.
Lemma split_ok ls hlit hdist : 0 <= hlit <= 286 -> 0 <= hdist <= 30 -> zlen ls = hlit + hdist -> short ls -> lengths_ok (firstn (Z.to_nat hlit) ls) /\ lengths_ok (skipn (Z.to_nat hlit) ls).
Proof.
  intros H1 H2 HL F. unfold lengths_ok, zlen in *. rewrite length_take, length_drop. split; (split; [|lia]); [by apply Forall_take | by apply Forall_drop].
Qed.
Lemma new_coded lengths : lengths_ok lengths -> prefix_free lengths -> exists t, new lengths = Ok t /\ coded lengths t.
Proof. intros OK PF. pose proof (new_spec lengths OK) as NS. destruct (new lengths) as [t|e| |]; [by exists t | by destruct NS|done..]. Qed.
Lemma new_safe lengths : lengths_ok lengths -> safe (fun t => coded lengths t /\ prefix_free lengths) (new lengths).
Proof. intros OK. pose proof (new_spec lengths OK) as NS. destruct (new lengths) as [t|e| |]; [|done..]. split; [done|]. by destruct NS. Qed.

Definition codes_result (p : Z) (r : huffman * huffman * bits) : Prop := exists lit dist q,
  dynamic_codes s p lit dist q /\ coded lit r.1.1 /\ coded dist r.1.2 /\ reads data r.2 q /\ q <= 8 * len.

Lemma read_dynamic_sound b p : reads data b p -> safe (codes_result p) (read_dynamic_tables data b).
Proof.
  intros R. pose proof (rs_pos _ _ _ R) as P0. unfold read_dynamic_tables. destruct (take_reads data bytes b p 5 R ltac:(lia)) as (b1 & -> & R1). destruct (take_reads data bytes b1 _ 5 R1 ltac:(lia)) as (b2 & -> & R2). destruct (take_reads data bytes b2 _ 4 R2 ltac:(lia)) as (b3 & -> & R3).
  replace (p + 5 + 5) with (p + 10) in * by lia. replace (p + 10 + 4) with (p + 14) in * by lia. pose proof (field_range s p 5 ltac:(lia)) as FR1. pose proof (field_range s (p + 5) 5 ltac:(lia)) as FR2. pose proof (field_range s (p + 10) 4 ltac:(lia)) as FR3. change (2 ^ 4) with 16 in FR3.
  set (hlit := field s p 5 + 257) in *. set (hdist := field s (p + 5) 5 + 1) in *. set (hclen := field s (p + 10) 4 + 4) in *.
  destruct (Z.ltb_spec 286 hlit) as [|HL]; [done|]. destruct (Z.ltb_spec 30 hdist) as [|HD]; [done|]. cbn [orb]. destruct (read_code_lengths data bytes b3 (p + 14) hclen R3 ltac:(lia)) as (b4 & -> & R4). rewrite ok_bind. cbn beta iota.
  destruct (code_lengths_spec data (p + 14) hclen ltac:(lia)) as (LC & _). assert (ES : pyslice (code_lengths s (p + 14) hclen ++ zeros 301) 0 19 = code_lengths s (p + 14) hclen) by (rewrite pyslice_app_l by lia; by apply pyslice_full). rewrite ES.
  apply (safe_bind (fun t => coded (code_lengths s (p + 14) hclen) t /\ prefix_free (code_lengths s (p + 14) hclen))); [apply new_safe, code_lengths_ok; lia|]. intros t [CT PF].
  change (zeros 320) with (filled Z320 []). apply (safe_bind (lengths_result data (code_lengths s (p + 14) hclen) (hlit + hdist) (p + 14 + 3 * hclen) [])).
  { apply (read_lengths_sound data bytes _ t (hlit + hdist) CT LC ltac:(lia) 320 []); [done | | change (zlen []) with 0; lia | change (zlen []) with 0; lia]. right. split; [done|]. intros l c x W. apply (code_lengths_fit data bytes (p + 14) hclen l c x); (done || lia). }
  intros [lengths b5] (q & ls & RN & R5 & EL & HQ). cbn [fst snd] in *. subst lengths. destruct (runs_end_at data _ t (hlit + hdist) CT _ _ _ _ RN ltac:(constructor)) as (_ & _ & LS & SH).
  rewrite index_ok, ok_bind by (rewrite zlen_filled; change (zlen Z320) with 320; lia). destruct (zat (filled Z320 ls) 256 =? 0); [done|]. destruct (split_lengths ls hlit hdist) as [-> ->]; [lia..|]. destruct (split_ok ls hlit hdist) as [OL OD]; [lia | lia | done | done|].
  eapply safe_bind; [by apply new_safe|]. intros tl [CL PL]. eapply safe_bind; [by apply new_safe|]. intros td [CD PD]. exists (firstn (Z.to_nat hlit) ls), (skipn (Z.to_nat hlit) ls), q. split_and!; try done. by apply (dynamic_codes_at s p hlit hdist hclen q ls); (done || lia).
Qed.

Lemma read_dynamic_complete b p lit dist q : reads data b p -> dynamic_codes s p lit dist q -> q <= 8 * len -> zat lit 256 <> 0 ->
  exists tl td b', read_dynamic_tables data b = Ok (tl, td, b') /\ coded lit tl /\ coded dist td /\ reads data b' q.
Proof.
  intros R DC. revert R. destruct DC as [p hlit hdist hclen q ls E1 E2 E3 HL HD PF RN PL PD]. intros R HQ HE. pose proof (rs_pos _ _ _ R) as P0. unfold read_dynamic_tables.
  destruct (take_reads data bytes b p 5 R ltac:(lia)) as (b1 & -> & R1). destruct (take_reads data bytes b1 _ 5 R1 ltac:(lia)) as (b2 & -> & R2). destruct (take_reads data bytes b2 _ 4 R2 ltac:(lia)) as (b3 & -> & R3).
  replace (p + 5 + 5) with (p + 10) in * by lia. replace (p + 10 + 4) with (p + 14) in * by lia. pose proof (field_range s p 5 ltac:(lia)) as FR1. pose proof (field_range s (p + 5) 5 ltac:(lia)) as FR2. pose proof (field_range s (p + 10) 4 ltac:(lia)) as FR3. change (2 ^ 4) with 16 in FR3.
  rewrite (Z.add_comm _ 257), (Z.add_comm _ 1), (Z.add_comm _ 4). rewrite <- E1, <- E2, <- E3. rewrite (proj2 (Z.ltb_ge 286 hlit)), (proj2 (Z.ltb_ge 30 hdist)) by lia. cbn [orb].
  destruct (read_code_lengths data bytes b3 (p + 14) hclen R3 ltac:(lia)) as (b4 & -> & R4). rewrite ok_bind. cbn beta iota. destruct (code_lengths_spec data (p + 14) hclen ltac:(lia)) as (LC & _).
  assert (ES : pyslice (code_lengths s (p + 14) hclen ++ zeros 301) 0 19 = code_lengths s (p + 14) hclen) by (rewrite pyslice_app_l by lia; by apply pyslice_full). rewrite ES. destruct (new_coded _ (code_lengths_ok data (p + 14) hclen ltac:(lia)) PF) as (t & -> & CT). rewrite ok_bind.
  destruct (runs_end_at data _ t (hlit + hdist) CT _ _ _ _ RN ltac:(constructor)) as (_ & _ & LS & SH). change (zeros 320) with (filled Z320 []).
  destruct (read_lengths_complete data bytes _ t (hlit + hdist) CT ltac:(lia) _ _ _ _ RN ltac:(constructor) b4 320 R4 HQ) as (b5 & E5 & R5); [change (zlen []) with 0; lia|]. change (zlen []) with 0 in E5. rewrite E5, ok_bind. cbn beta iota.
  rewrite index_ok, ok_bind by (rewrite zlen_filled; change (zlen Z320) with 320; lia). assert (EE : zat (filled Z320 ls) 256 = zat (firstn (Z.to_nat hlit) ls) 256) by (unfold filled; rewrite zat_app_l by lia; unfold zat; by rewrite lookup_take_lt by lia).
  rewrite EE, (proj2 (Z.eqb_neq _ _) HE). destruct (split_lengths ls hlit hdist) as [-> ->]; [lia..|]. destruct (split_ok ls hlit hdist) as [OL OD]; [lia | lia | done | done|].
  destruct (new_coded _ OL PL) as (tl & -> & CL). rewrite ok_bind. destruct (new_coded _ OD PD) as (td & -> & CD). rewrite ok_bind. by exists tl, td, b5.
Qed.
End dynamic.
