(* ===== verification/InflateWhole.v ===== *)
(** InflateWhole: [inflate] and [zlib_decompress] of kernel/src/inflate.rs on whole
    streams, and Adler-32. *)
From Stdlib Require Import ZArith Lia List.
From stdpp Require Import base list gmap strings.
From S2P Require Import Prelude Text Arrays Machine Huff Inflate InflateBits InflateHuff InflateSpec InflateBlock InflateTables.
Open Scope Z_scope.
Import Inflate.Kernel.

(** * The fixed codes *)

Lemma short_forallb l : forallb (fun x => (0 <=? x) && (x <=? 15)) l = true -> short l.
Proof. intros H. rewrite forallb_forall in H. apply Forall_forall. intros x Hx%list_elem_of_In. specialize (H x Hx). rewrite andb_true_iff, !Z.leb_le in H. lia. Qed.
Lemma prefix_free_horner l : horner (counts_of l) <= 65536 -> prefix_free l.
Proof. intros H. apply (complete_fits _ []); [apply counts_len | apply counts_pos | exact H]. Qed.

Lemma fixed_ok : lengths_ok fixed_lengths /\ prefix_free fixed_lengths.
Proof. split; [split; [apply short_forallb; vm_compute; reflexivity | vm_compute; discriminate]|]. apply prefix_free_horner. vm_compute. discriminate. Qed.
Lemma fixed_distances_ok : lengths_ok fixed_distances /\ prefix_free fixed_distances.
Proof. split; [split; [apply short_forallb; vm_compute; reflexivity | vm_compute; discriminate]|]. apply prefix_free_horner. vm_compute. discriminate. Qed.
Lemma fixed_same : FIXED_LENGTHS = fixed_lengths.
Proof. vm_compute. reflexivity. Qed.

Lemma fixed_tables : exists tl td, new FIXED_LENGTHS = Ok tl /\ new (replicate 30 5) = Ok td /\ coded fixed_lengths tl /\ coded fixed_distances td.
Proof.
  destruct fixed_ok as [O1 P1]. destruct fixed_distances_ok as [O2 P2]. destruct (new_coded _ O1 P1) as (tl & E1 & C1). destruct (new_coded _ O2 P2) as (td & E2 & C2). exists tl, td. rewrite fixed_same. exact (conj E1 (conj E2 (conj C1 C2))).
Qed.

Section whole.
Context (data buf : list Z).
Hypothesis bytes : Forall is_byte data.
#[warnings="-notation-for-abbreviation"] Local Notation s := (le_val data).
#[warnings="-notation-for-abbreviation"] Local Notation len := (zlen data).

Lemma aligned_ge p : p <= aligned p < p + 8.
Proof. unfold aligned. pose proof (Z.mod_pos_bound (- p) 8 ltac:(lia)). lia. Qed.

(** * One block *)

Lemma dynamic_coded p lit dist q : dynamic_codes s p lit dist q -> p <= q /\ lengths_ok lit /\ exists tl td, coded lit tl /\ coded dist td.
Proof.
  intros [p' hlit hdist hclen q' ls E1 E2 E3 HL HD PF RN PL PD]. pose proof (field_range s p' 5 ltac:(lia)). pose proof (field_range s (p' + 5) 5 ltac:(lia)). pose proof (field_range s (p' + 10) 4 ltac:(lia)) as FR3. change (2 ^ 4) with 16 in FR3.
  destruct (new_coded _ (code_lengths_ok data (p' + 14) hclen ltac:(lia)) PF) as (t & _ & CT). destruct (runs_end_at data _ t (hlit + hdist) CT _ _ _ _ RN ltac:(constructor)) as (G & _ & LS & SH). destruct (split_ok ls hlit hdist) as [OL OD]; [lia | lia | done | done|].
  destruct (new_coded _ OL PL) as (tl & _ & CL). destruct (new_coded _ OD PD) as (td & _ & CD). split; [lia|]. split; [done|]. by exists tl, td.
Qed.
Lemma tokens_eob lit dist p out p' out' : lengths_ok lit -> tokens s lit dist p out p' out' -> zat lit 256 <> 0.
Proof. intros OK. induction 1 as [p out p' (L & c & W & _)|? ? ? ? ? ? ? ? ? IH|? ? ? ? ? ? ? ? ? ? ? ? ? ? IH]; [|exact IH..]. destruct (code_word_length lit L c 256 OK W) as [-> HL]. lia. Qed.

Lemma block_grow kind p out p' out' : block s kind p out p' out' -> p <= p' /\ zlen out <= zlen out'.
Proof.
  intros [p0 out0 n EN EI|p0 out0 p1 out1 T|p0 out0 lit dist q p1 out1 DC T].
  - pose proof (aligned_ge p0). pose proof (field_range s (aligned p0) 16 ltac:(lia)). rewrite zlen_app. pose proof (zlen_nonneg ((fun i => field s (aligned p0 + 32 + 8 * i) 8) <$> pyrange 0 n)). lia.
  - destruct fixed_tables as (tl & td & _ & _ & CL & CD). destruct (tokens_grow data _ _ tl td CL CD _ _ _ _ T). lia.
  - destruct (dynamic_coded _ _ _ _ DC) as (HQ & _ & tl & td & CL & CD). destruct (tokens_grow data _ _ tl td CL CD _ _ _ _ T). lia.
Qed.
Lemma blocks_grow p out p' out' : blocks s p out p' out' -> p + 3 <= p' /\ zlen out <= zlen out'.
Proof. induction 1 as [p out p' out' L B|p out p1 out1 p' out' L B T [I1 I2]]; destruct (block_grow _ _ _ _ _ B); lia. Qed.

Definition one_result (kind p : Z) (out : list Z) (r : list Z * Z * bits) : Prop := exists p' out', block s kind p out p' out' /\ reads data r.2 p' /\ r.1 = (filled buf out', zlen out') /\ zlen out' <= zlen buf.

Lemma inflate_one_sound kind out p b : reads data b p -> 3 <= p <= 8 * len + 3 -> zlen out <= zlen buf -> 0 <= kind < 4 -> safe (one_result kind p out) (inflate_one data (filled buf out) (zlen out) kind b).
Proof.
  intros R HP HO HK. unfold inflate_one. pose proof (rs_pos _ _ _ R). destruct (Z.eqb_spec kind 0) as [->|N0].
  - pose proof (stored_block_spec data bytes buf out b p R ltac:(lia) HO) as SB. cbv zeta in SB. destruct (Z.eqb_spec (field s (aligned p) 16) (65535 - field s (aligned p + 16) 16)) as [E|]; cbn [andb] in SB; [|by destruct SB as (e & ->)].
    destruct (Z.leb_spec (zlen out + field s (aligned p) 16) (zlen buf)) as [HL|]; [|by destruct SB as (e & ->)]. destruct SB as (b' & -> & R'). eexists _, _. split_and!; [by apply (block_stored s p out (field s (aligned p) 16)); lia | exact R' | done|].
    rewrite zlen_app. pose proof (field_range s (aligned p) 16 ltac:(lia)). unfold stored_bytes, zlen at 2. rewrite length_fmap. pose proof (zlen_pyrange 0 (field s (aligned p) 16) ltac:(lia)) as EP. unfold zlen in EP. lia.
  - destruct (Z.eqb_spec kind 1) as [->|N1]; cbn [orb].
    + destruct fixed_tables as (tl & td & -> & -> & CL & CD). rewrite !ok_bind. cbn beta iota. eapply safe_impl; [apply (inflate_block_sound data bytes fixed_lengths fixed_distances tl td buf CL CD _ out p b R ltac:(lia) HO); unfold zlen; lia|].
      intros r (p' & out' & T & RR). exists p', out'. split; [by apply block_fixed | done].
    + destruct (Z.eqb_spec kind 2) as [->|]; [|done]. eapply safe_bind; [apply (read_dynamic_sound data bytes b p R)|]. intros [[tl td] b'] (lit & dist & q & DC & CL & CD & R' & HQ). cbn [fst snd] in *. pose proof (proj1 (dynamic_coded _ _ _ _ DC)).
      eapply safe_impl; [apply (inflate_block_sound data bytes lit dist tl td buf CL CD _ out q b' R' ltac:(lia) HO); pose proof (rs_pos _ _ _ R'); unfold zlen; lia|]. intros r (p' & out' & T & RR). exists p', out'. split; [by apply (block_dynamic s p out lit dist q) | done].
Qed.

Lemma inflate_one_complete kind p out p' out' b : block s kind p out p' out' -> reads data b p -> p' <= 8 * len -> zlen out' <= zlen buf ->
  exists b', inflate_one data (filled buf out) (zlen out) kind b = Ok (filled buf out', zlen out', b') /\ reads data b' p'.
Proof.
  intros B. pose proof (block_grow _ _ _ _ _ B) as [G1 G2]. revert G1 G2. destruct B as [p out n EN EI|p out p' out' T|p out lit dist q p' out' DC T]; intros G1 G2 R HP HO; unfold inflate_one; cbn [Z.eqb Pos.eqb orb]; pose proof (rs_pos _ _ _ R).
  - pose proof (stored_block_spec data bytes buf out b p R) as SB. cbv zeta in SB. rewrite <- EN in SB. pose proof (aligned_ge p). pose proof (field_range s (aligned p) 16 ltac:(lia)). rewrite zlen_app in HO.
    assert (LS : zlen ((fun i => field s (aligned p + 32 + 8 * i) 8) <$> pyrange 0 n) = n) by (unfold zlen; rewrite length_fmap; pose proof (zlen_pyrange 0 n ltac:(lia)) as EP; unfold zlen in EP; lia).
    specialize (SB ltac:(lia) ltac:(lia)). rewrite (proj2 (Z.eqb_eq n _)), (proj2 (Z.leb_le _ _)) in SB by lia. cbn [andb] in SB. exact SB.
  - destruct fixed_tables as (tl & td & -> & -> & CL & CD). rewrite !ok_bind. cbn beta iota. apply (inflate_block_complete data bytes _ _ tl td buf CL CD _ _ _ _ T); [done | done | done | unfold zlen in *; lia].
  - destruct (dynamic_coded _ _ _ _ DC) as (HQ & OL & tl0 & td0 & CL0 & CD0). destruct (tokens_grow data _ _ tl0 td0 CL0 CD0 _ _ _ _ T). destruct (read_dynamic_complete data bytes b p lit dist q R DC ltac:(lia) (tokens_eob _ _ _ _ _ _ OL T)) as (tl & td & b' & -> & CL & CD & R').
    rewrite ok_bind. cbn beta iota. apply (inflate_block_complete data bytes _ _ tl td buf CL CD _ _ _ _ T); [done | done | done | unfold zlen in *; lia].
Qed.

(** * All blocks *)

Lemma inflate_loop_sound fuel : forall out p b, reads data b p -> p <= 8 * len -> zlen out <= zlen buf -> 8 * len - p < Z.of_nat fuel ->
  safe (fun r => exists p' out', blocks s p out p' out' /\ p' <= 8 * len /\ r = (filled buf out', zlen out') /\ zlen out' <= zlen buf) (inflate_loop fuel data (filled buf out) (zlen out) b).
Proof.
  induction fuel as [|fuel IH]; intros out p b R HP HO HF; [lia|]. cbn [inflate_loop]. pose proof (rs_pos _ _ _ R). destruct (take_reads data bytes b p 1 R ltac:(lia)) as (b1 & -> & R1). destruct (take_reads data bytes b1 _ 2 R1 ltac:(lia)) as (b2 & -> & R2).
  pose proof (field_range s (p + 1) 2 ltac:(lia)) as FK. change (2 ^ 2) with 4 in FK. pose proof (field_range s p 1 ltac:(lia)) as FL. change (2 ^ 1) with 2 in FL. replace (p + 1 + 2) with (p + 3) in R2 by lia.
  eapply safe_bind; [apply (inflate_one_sound _ out (p + 3) b2 R2); lia|]. intros [[o w] b3] (p3 & out3 & B & R3 & EQ & HO3). cbn [fst snd] in *. injection EQ as -> ->. rewrite (overrun_reads data b3 p3 R3). destruct (Z.ltb_spec (8 * len) p3) as [|H3]; [done|].
  destruct (block_grow _ _ _ _ _ B) as [G1 G2]. destruct (Z.eqb_spec (field s p 1) 1) as [EL|NL]; [exists p3, out3; split_and!; try done; by apply blocks_last|].
  eapply safe_impl; [apply (IH out3 p3 b3); (done || lia)|]. intros r (p' & out' & BS & RR). exists p', out'. split; [|done]. apply (blocks_more s p out p3 out3); [lia | done | done].
Qed.

Lemma inflate_loop_complete p out p' out' : blocks s p out p' out' -> forall b fuel, reads data b p -> p' <= 8 * len -> zlen out' <= zlen buf -> p' - p < Z.of_nat fuel ->
  inflate_loop fuel data (filled buf out) (zlen out) b = Ok (filled buf out', zlen out').
Proof.
  assert (HD : forall p b, reads data b p -> exists b2, take data 1 b = (field s p 1, b2) /\ exists b3, take data 2 b2 = (field s (p + 1) 2, b3) /\ reads data b3 (p + 3)).
  { intros p0 b R. destruct (take_reads data bytes b p0 1 R ltac:(lia)) as (b1 & -> & R1). exists b1. split; [done|]. destruct (take_reads data bytes b1 _ 2 R1 ltac:(lia)) as (b2 & -> & R2). exists b2. split; [done|]. by replace (p0 + 3) with (p0 + 1 + 2) by lia. }
  induction 1 as [p out p' out' L B|p out p1 out1 p' out' L B T IH]; intros b fuel R HP HO HF; destruct (HD p b R) as (b2 & E1 & b3 & E2 & R3); destruct (block_grow _ _ _ _ _ B) as [G1 G2].
  - destruct fuel as [|fuel]; [lia|]. cbn [inflate_loop]. rewrite E1, E2. destruct (inflate_one_complete _ _ _ _ _ b3 B R3 HP HO) as (b4 & -> & R4). rewrite ok_bind. cbn beta iota. rewrite (overrun_reads data b4 _ R4), (proj2 (Z.ltb_ge (8 * len) p')) by lia. by rewrite L.
  - destruct (blocks_grow _ _ _ _ T) as [G3 G4]. destruct fuel as [|fuel]; [lia|]. cbn [inflate_loop]. rewrite E1, E2. destruct (inflate_one_complete _ _ _ _ _ b3 B R3 ltac:(lia) ltac:(lia)) as (b4 & -> & R4). rewrite ok_bind. cbn beta iota.
    rewrite (overrun_reads data b4 _ R4), (proj2 (Z.ltb_ge (8 * len) p1)) by lia. rewrite L. cbn [Z.eqb]. apply IH; (done || lia).
Qed.

Lemma inflate_complete out : deflate_stream data out -> zlen out <= zlen buf -> inflate data buf = Ok (filled buf out, zlen out).
Proof.
  intros (p' & B & HP) HO. unfold inflate. change buf with (filled buf []) at 1. change 0 with (zlen (@nil Z)) at 1. apply (inflate_loop_complete 0 [] p' out B); [apply reads_nothing | done | done | unfold zlen in *; lia].
Qed.
Lemma inflate_sound : safe (fun r => exists out, deflate_stream data out /\ r = (filled buf out, zlen out) /\ zlen out <= zlen buf) (inflate data buf).
Proof.
  unfold inflate. change buf with (filled buf []) at 1. change 0 with (zlen (@nil Z)) at 1. eapply safe_impl; [apply (inflate_loop_sound _ [] 0 start)|].
  - apply reads_nothing.
  - pose proof (zlen_nonneg data). lia.
  - apply zlen_nonneg.
  - unfold zlen. lia.
  - intros r (p' & out & B & HP & RR). exists out. split; [by exists p' | done].
Qed.
End whole.

(** The kernel's [inflate] returns what a DEFLATE stream holds, for every stream
    that fits the buffer; on every other input it returns an error.  It never
    panics and always ends. *)
Theorem inflate_exact data buf : Forall is_byte data ->
  match inflate data buf with
  | Ok (output, written) => exists out, deflate_stream data out /\ written = zlen out /\ zlen out <= zlen buf /\ output = filled buf out
  | Err _ => forall out, deflate_stream data out -> zlen buf < zlen out
  | Panic | Unfinished => False
  end.
Proof.
  intros B. pose proof (inflate_sound data buf B) as S. destruct (inflate data buf) as [[o w]|e| |] eqn:E; [|intros out D; destruct (Z.lt_ge_cases (zlen buf) (zlen out)) as [|H]; [done|]; by rewrite (inflate_complete data buf B out D H) in E|done..].
  destruct S as (out & D & [= -> ->] & H). by exists out.
Qed.

(** * The zlib wrapper *)

(** The two bytes of header the kernel checks. *)
Record zlib_header (data : list Z) : Prop := ZlibHeader {
  zh_size : 6 <= zlen data;
  zh_method : Z.land (zat data 0) 15 = 8;
  zh_check : (zat data 0 * 256 + zat data 1) mod 31 = 0;
  zh_no_dictionary : Z.land (zat data 1) 32 = 0
}.

Lemma zlib_stream_parts data out : zlib_stream data out -> zlib_header data /\ deflate_stream (drop 2 data) out.
Proof.
  intros [B M K D (p' & BS & L) _]. assert (P3 : 3 <= p') by (destruct (blocks_grow (drop 2 data) 0 [] p' out BS); lia). pose proof (Z.div_mod (p' + 7) 8 ltac:(lia)). pose proof (Z.mod_pos_bound (p' + 7) 8 ltac:(lia)).
  split; [split; (done || lia)|]. exists p'. split; [done|]. unfold zlen in *. rewrite length_drop. lia.
Qed.

(** C5: [zlib_decompress] checks the header and returns what the stream holds; it
    does not look at the checksum behind it. *)
Theorem zlib_decompress_exact data buf : Forall is_byte data ->
  match zlib_decompress data buf with
  | Ok (output, written) => zlib_header data /\ exists out, deflate_stream (drop 2 data) out /\ written = zlen out /\ zlen out <= zlen buf /\ output = filled buf out
  | Err _ => zlib_header data -> forall out, deflate_stream (drop 2 data) out -> zlen buf < zlen out
  | Panic | Unfinished => False
  end.
Proof.
  intros B. unfold zlib_decompress. destruct (Z.ltb_spec (zlen data) 6) as [H6|H6]; [intros [H]; lia|]. rewrite !index_ok, !ok_bind by lia.
  destruct (Z.eqb_spec (Z.land (zat data 0) 15) 8) as [M|M]; cbn [negb orb]; [|intros [_ M']; done]. destruct (Z.eqb_spec ((zat data 0 * 256 + zat data 1) mod 31) 0) as [K|K]; cbn [negb orb]; [|intros [_ _ K']; done].
  destruct (Z.eqb_spec (Z.land (zat data 1) 32) 0) as [D|D]; cbn [negb]; [|intros [_ _ _ D']; done]. pose proof (inflate_sound (drop 2 data) buf ltac:(by apply Forall_drop)) as S. destruct (inflate (drop 2 data) buf) as [[o w]|e| |] eqn:E; [| |done..].
  - destruct S as (out & DS & [= -> ->] & H). split; [by split|]. by exists out.
  - intros _ out DS. destruct (Z.lt_ge_cases (zlen buf) (zlen out)) as [|H]; [done|]. by rewrite (inflate_complete (drop 2 data) buf ltac:(by apply Forall_drop) out DS H) in E.
Qed.

(** The same bytes, compressed. *)
Lemma zlib_decompress_exact_witness :
  let data := [120; 156; 75; 76; 74; 134; 32; 0; 17; 61; 3; 115] in
  zlib_header data /\ exists out, deflate_stream (drop 2 data) out /\ zlen out = 9 /\ out ++ [0] = [97; 98; 99; 97; 98; 99; 97; 98; 99; 0].
Proof.
  intros data. pose proof (zlib_decompress_exact data (zeros 10) ltac:(repeat (constructor; [unfold is_byte; lia|]); constructor)) as H.
  assert (E : zlib_decompress data (zeros 10) = Ok ([97; 98; 99; 97; 98; 99; 97; 98; 99; 0], 9)) by (vm_compute; reflexivity).
  rewrite E in H. destruct H as (H & out & DS & L & _ & F). split; [exact H|]. exists out. split; [exact DS|]. split; [symmetry; exact L|]. rewrite F. unfold filled. f_equal.  assert (LO : length out = 9%nat) by (unfold zlen in L; lia). rewrite LO. reflexivity.
Defined.

Lemma zlib_decompress_stream data out buf : zlib_stream data out -> zlen out <= zlen buf -> zlib_decompress data buf = Ok (filled buf out, zlen out).
Proof.
  intros ZS HO. pose proof (zs_bytes _ _ ZS) as B. destruct (zlib_stream_parts data out ZS) as [[H6 M K D] DS]. unfold zlib_decompress. rewrite (proj2 (Z.ltb_ge _ 6) H6), !index_ok, !ok_bind by lia.
  rewrite M, K, D. cbn [negb orb Z.eqb Pos.eqb]. by apply inflate_complete; [apply Forall_drop|..].
Qed.

(** * Adler-32 *)

Definition adler_step (st : Z * Z) (x : Z) : Z * Z := ((st.1 + x) mod 65521, (st.2 + (st.1 + x)) mod 65521).
Lemma adler_steps l : adler l = let st := foldl adler_step (1, 0) l in st.2 * 65536 + st.1.
Proof.
  unfold adler. assert (E : forall st, foldl (fun '(a, b) x => ((a + x) mod 65521, (b + (a + x)) mod 65521)) st l = foldl adler_step st l) by (intros st; apply foldl_pointwise; by intros [a b] x). rewrite E. cbv zeta. by destruct (foldl adler_step (1, 0) l).
Qed.

(** A chunk of 5552 bytes does not overflow the sums. *)
Lemma adler_chunk l : Forall is_byte l -> zlen l <= 5552 -> forall a0 b0, 0 <= a0 < 65521 -> 0 <= b0 < 65521 ->
  exists a b, foldK adler_byte (a0, b0) l = Ok (a, b) /\ (a mod 65521, b mod 65521) = foldl adler_step (a0, b0) l.
Proof.
  intros F HL a0 b0 Ha Hb. assert (G : exists a b, foldK adler_byte (a0, b0) l = Ok (a, b) /\ (a mod 65521, b mod 65521) = foldl adler_step (a0, b0) l /\ 0 <= a <= 65520 + 255 * zlen l /\ 0 <= b /\ 2 * b <= 2 * 65520 + 2 * 65520 * zlen l + 255 * zlen l * (zlen l + 1)); [|destruct G as (a & b & E & C & _); by exists a, b].
  induction l as [|x l IH] using rev_ind; [exists a0, b0; cbn [foldK foldl]; change (zlen (@nil Z)) with 0; rewrite !Z.mod_small by lia; split_and!; (done || lia)|]. apply Forall_app in F as [F HX]. rewrite Forall_singleton in HX. unfold is_byte in HX. rewrite zlen_app in *. change (zlen [x]) with 1 in *.
  destruct (IH F ltac:(lia)) as (a & b & E & C & Ra & Rb & Rb'). pose proof (zlen_nonneg l). rewrite foldK_app, E, ok_bind, foldl_app, <- C. cbn [foldK foldl]. unfold adler_byte, u32. rewrite checked_ok, ok_bind by lia. rewrite checked_ok, ok_bind by nia.
  rewrite ok_bind. eexists _, _. split; [done|]. split; [|split_and!; nia]. unfold adler_step. cbn [fst snd]. f_equal; [by rewrite Z.add_mod_idemp_l by lia|].
  rewrite Z.add_mod_idemp_l by lia. rewrite <- (Z.add_mod_idemp_r b (a mod 65521 + x)), Z.add_mod_idemp_l, Z.add_mod_idemp_r by lia. done.
Qed.
Lemma adler_step_range st l : 0 <= st.1 < 65521 -> 0 <= st.2 < 65521 -> 0 <= (foldl adler_step st l).1 < 65521 /\ 0 <= (foldl adler_step st l).2 < 65521.
Proof. revert st. induction l as [|x l IH]; intros st Ha Hb; [done|]. cbn [foldl]. apply IH; cbn [adler_step fst snd]; apply Z.mod_pos_bound; lia. Qed.

Lemma adler32_exact data : Forall is_byte data -> adler32 data = Ok (adler data) /\ 0 <= adler data < 4294967296.
Proof.
  intros F. assert (G : forall fuel l a b, (length l < fuel)%nat -> Forall is_byte l -> 0 <= a < 65521 -> 0 <= b < 65521 -> adler_chunks fuel l a b = Ok (foldl adler_step (a, b) l)).
  { induction fuel as [|fuel IH]; intros l a b HF FL Ha Hb; [lia|]. cbn [adler_chunks]. destruct l as [|x l']; [done|]. set (l := x :: l') in *. assert (EC : l = pyslice l 0 5552 ++ drop (Z.to_nat 5552) l) by (rewrite pyslice_nn by lia; rewrite drop_0, Z.sub_0_r; by rewrite take_drop).
    destruct (adler_chunk (pyslice l 0 5552)) with (a0 := a) (b0 := b) as (a' & b' & E & C); [by apply pyslice_bytes | rewrite pyslice_nn by lia; unfold zlen; rewrite length_take; lia | done | done|]. rewrite E, ok_bind. cbn beta iota.
    rewrite IH; [|rewrite length_drop; cbn [length l] in *; lia | by apply Forall_drop | apply Z.mod_pos_bound; lia | apply Z.mod_pos_bound; lia]. rewrite C. rewrite EC at 3. by rewrite foldl_app. }
  unfold adler32. rewrite G by (done || lia). rewrite ok_bind, adler_steps. destruct (adler_step_range (1, 0) data) as [R1 R2]; [cbn; lia | cbn; lia|]. destruct (foldl adler_step (1, 0) data) as [a b]. cbn [fst snd] in *. cbn beta iota zeta.
  rewrite Z.shiftl_mul_pow2 by lia. change (2 ^ 16) with 65536. rewrite Z.mod_small by lia. change 65536 with (2 ^ 16) at 1. rewrite <- Z.shiftl_mul_pow2, lor_shiftl_add by (change (2 ^ 16) with 65536; lia). change (2 ^ 16) with 65536. split; [done | lia].
Qed.
