(* ===== verification/Stored.v ===== *)
(** Stored: zlib streams of stored blocks, the simplest compressor there is.

    It models no code of the repository: it shows that what the tools ask of
    zlib can be had, and is the instance their witnesses use. *)
From Stdlib Require Import ZArith Lia List.
From stdpp Require Import base list gmap strings.
From S2P Require Import Prelude Text Arrays Machine Huff Inflate InflateBits InflateHuff InflateSpec InflateWhole.
Open Scope Z_scope.

(** Blocks of 65535 bytes, and the last one with the rest. *)
Fixpoint stored_blocks (fuel : nat) (l : list Z) : list Z :=
  match fuel with
  | O => []
  | S fuel =>
      if zlen l <=? 65535 then 1 :: le_bytes 2 (zlen l) ++ le_bytes 2 (65535 - zlen l) ++ l
      else [0; 255; 255; 0; 0] ++ firstn (Z.to_nat 65535) l ++ stored_blocks fuel (skipn (Z.to_nat 65535) l)
  end.
Definition stored (l : list Z) : list Z := [120; 1] ++ stored_blocks (S (length l)) l ++ be_bytes 4 (adler l).

Section stream.
Context (data : list Z).
Hypothesis bytes : Forall is_byte data.
#[warnings="-notation-for-abbreviation"] Local Notation s := (le_val data).

Lemma field16 i : 0 <= i -> field s (8 * i) 16 = zat data i + 256 * zat data (i + 1).
Proof. intros H. change 16 with (8 + 8). rewrite field_add by lia. replace (8 * i + 8) with (8 * (i + 1)) by lia. by rewrite !le_val_byte by (done || lia). Qed.
Lemma field_header i b : 0 <= i -> zat data i = b -> 0 <= b < 2 -> field s (8 * i) 1 = b /\ field s (8 * i + 1) 2 = 0.
Proof.
  intros H E Hb. pose proof (le_val_byte data i bytes H) as F. rewrite E in F. split.
  - rewrite <- (field_low s (8 * i) 1 8), F by lia. apply Z.mod_small. change (2 ^ 1) with 2. lia.
  - rewrite <- (field_low s (8 * i + 1) 2 7) by lia. change 7 with (8 - 1). rewrite <- field_high, F by lia. change (2 ^ 1) with 2. by rewrite Z.div_small by lia.
Qed.

(** One stored block that starts with a byte. *)
Lemma stored_block i n body out pre post : data = pre ++ body ++ post -> zlen pre = i + 5 -> zlen body = n -> 0 <= i -> zat data (i + 1) + 256 * zat data (i + 2) = n -> zat data (i + 3) + 256 * zat data (i + 4) = 65535 - n ->
  block s 0 (8 * i + 3) out (8 * (i + 5 + n)) (out ++ body).
Proof.
  intros ED LP LB Hi E1 E2. pose proof (zlen_nonneg body). assert (AL : aligned (8 * i + 3) = 8 * (i + 1)) by (unfold aligned; replace (- (8 * i + 3)) with (5 + (- i - 1) * 8) by lia; rewrite Z.mod_add by lia; change (5 mod 8) with 5; lia).
  assert (F1 : field s (8 * (i + 1)) 16 = n) by (rewrite field16 by lia; by replace (i + 1 + 1) with (i + 2) by lia).
  assert (EB : body = (fun j => field s (8 * (i + 1) + 32 + 8 * j) 8) <$> pyrange 0 n).
  { apply zat_ext; [rewrite zlen_fmap, zlen_pyrange by lia; lia|]. intros j Hj. symmetry. apply zat_lookup; [lia|]. unfold pyrange. rewrite !list_lookup_fmap, lookup_seq_lt by lia. cbn [fmap option_fmap option_map]. f_equal.
    replace (8 * (i + 1) + 32 + 8 * (0 + Z.of_nat (0 + Z.to_nat j))) with (8 * (i + 5 + j)) by lia. rewrite le_val_byte by (done || lia). rewrite ED, zat_app_r, zat_app_l by lia. f_equal. lia. }
  pose proof (block_stored s (8 * i + 3) out n) as B. rewrite AL in B. rewrite <- EB in B. replace (8 * (i + 5 + n)) with (8 * (i + 1) + 32 + 8 * n) by lia. apply B; [done|].
  replace (8 * (i + 1) + 16) with (8 * (i + 3)) by lia. rewrite field16 by lia. by replace (i + 3 + 1) with (i + 4) by lia.
Qed.

Lemma le_bytes_2 n : 0 <= n <= 65535 -> exists a b, le_bytes 2 n = [a; b] /\ a + 256 * b = n.
Proof. intros H. exists (n mod 256), ((n / 256) mod 256). split; [done|]. pose proof (Z.div_mod n 256 ltac:(lia)). rewrite (Z.mod_small (n / 256)) by (split; [apply Z.div_pos; lia | apply Z.div_lt_upper_bound; lia]). lia. Qed.
Lemma zat_head (pre l : list Z) i : 0 <= i -> zat (pre ++ l) (zlen pre + i) = zat l i.
Proof. intros H. pose proof (zlen_nonneg pre). rewrite zat_app_r by lia. f_equal. lia. Qed.

Lemma stored_blocks_hold fuel l : (length l < fuel)%nat -> forall pre post out, data = pre ++ stored_blocks fuel l ++ post ->
  blocks s (8 * zlen pre) out (8 * (zlen pre + zlen (stored_blocks fuel l))) (out ++ l).
Proof.
  revert l. induction fuel as [|fuel IH]; intros l HF pre post out ED; [lia|]. cbn [stored_blocks] in *. pose proof (zlen_nonneg pre). pose proof (zlen_nonneg l). destruct (Z.leb_spec (zlen l) 65535) as [HS|HS].
  - destruct (le_bytes_2 (zlen l)) as (a & b & E1 & E2); [lia|]. destruct (le_bytes_2 (65535 - zlen l)) as (c & d & E3 & E4); [lia|]. rewrite E1, E3 in *. cbn [app] in *.
    assert (Z : forall k, 0 <= k -> zat data (zlen pre + k) = zat (1 :: a :: b :: c :: d :: l ++ post) k) by (intros k Hk; rewrite ED; by apply zat_head).
    destruct (field_header (zlen pre) 1) as [F1 F2]; [done | rewrite <- (Z.add_0_r (zlen pre)); by apply Z | lia|]. apply blocks_last; [done|]. rewrite F2.
    replace (8 * (zlen pre + zlen (1 :: a :: b :: c :: d :: l))) with (8 * (zlen pre + 5 + zlen l)) by (rewrite !zlen_cons; lia).
    apply (stored_block _ _ l out (pre ++ [1; a; b; c; d]) post); [by rewrite ED, <- app_assoc | by rewrite zlen_app | done | done | rewrite !Z by lia; exact E2 | rewrite !Z by lia; exact E4].
  - set (body := firstn (Z.to_nat 65535) l) in *. set (rest := skipn (Z.to_nat 65535) l) in *. assert (LB : zlen body = 65535) by (unfold body, zlen in *; rewrite length_firstn; lia). cbn [app] in ED. rewrite <- app_assoc in ED.
    assert (Z : forall k, 0 <= k -> zat data (zlen pre + k) = zat (0 :: 255 :: 255 :: 0 :: 0 :: body ++ stored_blocks fuel rest ++ post) k) by (intros k Hk; rewrite ED; by apply zat_head).
    destruct (field_header (zlen pre) 0) as [F1 F2]; [done | rewrite <- (Z.add_0_r (zlen pre)); by apply Z | lia|].
    eapply blocks_more; [done | rewrite F2; apply (stored_block _ 65535 body out (pre ++ [0; 255; 255; 0; 0]) (stored_blocks fuel rest ++ post)); [by rewrite ED, <- app_assoc | by rewrite zlen_app | done | done | by rewrite !Z by lia | by rewrite !Z by lia]|].
    assert (EL : out ++ l = (out ++ body) ++ rest) by (rewrite <- app_assoc; f_equal; symmetry; apply take_drop). rewrite EL.
    specialize (IH rest ltac:(unfold rest; rewrite length_skipn; unfold zlen in *; lia) (pre ++ [0; 255; 255; 0; 0] ++ body) post (out ++ body)). rewrite !zlen_app in *. change (zlen [0; 255; 255; 0; 0]) with 5 in *. rewrite LB in *.
    replace (8 * (zlen pre + (5 + (65535 + zlen (stored_blocks fuel rest))))) with (8 * (zlen pre + (5 + 65535) + zlen (stored_blocks fuel rest))) by lia. replace (8 * (zlen pre + 5 + 65535)) with (8 * (zlen pre + (5 + 65535))) by lia. apply IH. by rewrite ED, <- !app_assoc.
Qed.
End stream.

Lemma stored_blocks_bytes fuel l : Forall is_byte l -> Forall is_byte (stored_blocks fuel l).
Proof.
  revert l. induction fuel as [|fuel IH]; intros l F; [constructor|]. cbn [stored_blocks]. case_match.
  - constructor; [unfold is_byte; lia|]. rewrite !Forall_app. split_and!; [apply le_bytes_bytes | apply le_bytes_bytes | done].
  - rewrite !Forall_app. split_and!; [repeat constructor; unfold is_byte; lia | by apply Forall_take | by apply IH, Forall_drop].
Qed.
Lemma stored_blocks_size fuel l : (length l < fuel)%nat -> zlen l + 5 <= zlen (stored_blocks fuel l) <= zlen l + 5 + 5 * (zlen l / 65535).
Proof.
  revert l. induction fuel as [|fuel IH]; intros l HF; [lia|]. cbn [stored_blocks]. pose proof (zlen_nonneg l). pose proof (Z.div_pos (zlen l) 65535). destruct (Z.leb_spec (zlen l) 65535).
  - rewrite zlen_cons, !zlen_app, !zlen_le_bytes. lia.
  - specialize (IH (skipn (Z.to_nat 65535) l) ltac:(rewrite length_skipn; unfold zlen in *; lia)). rewrite !zlen_app. change (zlen [0; 255; 255; 0; 0]) with 5. assert (L1 : zlen (firstn (Z.to_nat 65535) l) = 65535) by (unfold zlen in *; rewrite length_firstn; lia).
    assert (L2 : zlen (skipn (Z.to_nat 65535) l) = zlen l + (-1) * 65535) by (unfold zlen in *; rewrite length_skipn; lia). rewrite L1. rewrite L2, Z.div_add in IH by lia. lia.
Qed.

Lemma stored_stream l : Forall is_byte l -> zlib_stream (stored l) l.
Proof.
  intros F. unfold stored. set (bs := stored_blocks (S (length l)) l). set (ad := be_bytes 4 (adler l)). pose proof (zlen_nonneg bs).
  assert (LA : length ad = 4%nat) by (pose proof (zlen_be_bytes 4 (adler l)) as E; fold ad in E; unfold zlen in E; lia). assert (FB : Forall is_byte (bs ++ ad)) by (apply Forall_app; split; [by apply stored_blocks_bytes | apply be_bytes_bytes]).
  split; [constructor; [unfold is_byte; lia|]; constructor; [unfold is_byte; lia | exact FB] | reflexivity | reflexivity | reflexivity | |].
  - exists (8 * (0 + zlen bs)). split; [exact (stored_blocks_hold (bs ++ ad) FB (S (length l)) l ltac:(lia) [] ad [] eq_refl)|]. rewrite !zlen_app. change (zlen [120; 1]) with 2. replace (8 * (0 + zlen bs) + 7) with (7 + zlen bs * 8) by lia. rewrite Z.div_add by lia. change (7 / 8) with 0. unfold zlen at 2. lia.
  - rewrite app_assoc. set (front := [120; 1] ++ bs). replace (length (front ++ ad) - 4)%nat with (length front) by (rewrite (length_app _ ad); lia). apply drop_app_length.
Qed.
Lemma stored_bound l : 0 < zlen (stored l) <= zlen l + zlen l / 4096 + zlen l / 16384 + zlen l / 2 ^ 25 + 13.
Proof.
  unfold stored. rewrite !zlen_app, zlen_be_bytes. change (zlen [120; 1]) with 2. pose proof (zlen_nonneg l). pose proof (stored_blocks_size (S (length l)) l ltac:(lia)). pose proof (Z.div_pos (zlen l) 16384). pose proof (Z.div_pos (zlen l) (2 ^ 25)).
  assert (5 * (zlen l / 65535) <= zlen l / 4096); [|lia]. pose proof (Z.div_mod (zlen l) 65535 ltac:(lia)). pose proof (Z.mod_pos_bound (zlen l) 65535 ltac:(lia)). apply Z.div_le_lower_bound; lia.
Qed.
