(* ===== verification/Deflate.v ===== *)
(** Deflate: kernel/src/deflate.rs, which compresses with the fixed codes of
    DEFLATE and matches found through chains of equal hashes.

    [Kernel] is the whole file; the two tables it allocates are always there
    (the function returns [None] when the kernel has no memory for them). *)
From Stdlib Require Import ZArith Lia List.
From stdpp Require Import base list gmap strings.
From S2P Require Import Prelude Text Arrays Machine Huff Inflate InflateBits InflateHuff InflateSpec InflateBlock InflateTables InflateWhole.
Open Scope Z_scope.

Module Kernel.

(** The [None] of [zlib_compress]. *)
Inductive too_small : Type :=
| TooSmall.
#[warnings="-notation-for-abbreviation"] Notation result := (outcome too_small).

Definition WINDOW : Z := 32768.
Definition HASH_BITS : Z := 15.
Definition MAX_MATCH : Z := 258.
Definition MIN_MATCH : Z := 3.
Definition MAX_CHAIN : nat := 24.

(** ** BitWriter *)

Record bit_writer : Type := BitWriter {
  out : list Z;
  position : Z;
  buffer : Z;
  count : Z;
  failed : bool
}.

(** The loop [while self.count >= 8]; each round takes eight. *)
Fixpoint put_loop (fuel : nat) (w : bit_writer) : bit_writer :=
  match fuel with
  | O => w
  | S fuel =>
      if 8 <=? count w then
        if zlen (out w) <=? position w then BitWriter (out w) (position w) 0 0 true
        else put_loop fuel (BitWriter (<[Z.to_nat (position w) := buffer w mod 256]> (out w)) (position w + 1) (Z.shiftr (buffer w) 8) (count w - 8) (failed w))
      else w
  end.

Definition put (value bits : Z) (w : bit_writer) : bit_writer :=
  put_loop (Z.to_nat (count w + bits))
    (BitWriter (out w) (position w) (Z.lor (buffer w) (Z.shiftl value (count w) mod 18446744073709551616)) (count w + bits) (failed w)).

Definition put_code (code bits : Z) (w : bit_writer) : bit_writer :=
  put (Z.shiftr (Inflate.Kernel.reverse_bits code) (32 - bits)) bits w.

Definition flush (w : bit_writer) : bit_writer := if 0 <? count w then put 0 (8 - count w) w else w.

Definition LENGTH_BASE : list Z :=
  [3; 4; 5; 6; 7; 8; 9; 10; 11; 13; 15; 17; 19; 23; 27; 31; 35; 43; 51; 59; 67; 83; 99; 115; 131; 163; 195; 227; 258].
Definition LENGTH_EXTRA : list Z :=
  [0; 0; 0; 0; 0; 0; 0; 0; 1; 1; 1; 1; 2; 2; 2; 2; 3; 3; 3; 3; 4; 4; 4; 4; 5; 5; 5; 5; 0].
Definition DISTANCE_BASE : list Z :=
  [1; 2; 3; 4; 5; 7; 9; 13; 17; 25; 33; 49; 65; 97; 129; 193; 257; 385; 513; 769; 1025; 1537; 2049; 3073; 4097; 6145; 8193; 12289; 16385; 24577].
Definition DISTANCE_EXTRA : list Z :=
  [0; 0; 0; 0; 1; 1; 2; 2; 3; 3; 4; 4; 5; 5; 6; 6; 7; 7; 8; 8; 9; 9; 10; 10; 11; 11; 12; 12; 13; 13].

(** The word of the fixed code for a symbol, and its length. *)
Definition fixed_word (symbol : Z) : Z * Z :=
  if symbol <=? 143 then (48 + symbol, 8)
  else if symbol <=? 255 then (400 + symbol - 144, 9)
  else if symbol <=? 279 then (symbol - 256, 7)
  else (192 + symbol - 280, 8).
Definition put_symbol (symbol : Z) (w : bit_writer) : bit_writer :=
  let '(code, bits) := fixed_word symbol in put_code code bits w.

(** ** Matches *)

Definition hash3 (bytes : list Z) (at_ : Z) : result Z :=
  b0 ← index bytes at_;
  b1 ← index bytes (at_ + 1);
  b2 ← index bytes (at_ + 2);
  let value := Z.lor (Z.lor b0 (Z.shiftl b1 8)) (Z.shiftl b2 16) in
  Ok (Z.shiftr (value * 2654435769 mod 4294967296) (32 - HASH_BITS)).

(** The loop that counts equal bytes, from [length]. *)
Fixpoint match_length (fuel : nat) (input : list Z) (at_ position limit length : Z) : result Z :=
  match fuel with
  | O => Unfinished
  | S fuel =>
      if length <? limit then
        a ← index input (at_ + length);
        b ← index input (position + length);
        if a =? b then match_length fuel input at_ position limit (length + 1) else Ok length
      else Ok length
  end.

(** Along the chain, [n] candidates at most. *)
Fixpoint search (n : nat) (input previous : list Z) (position limit candidate best_length best_distance : Z) : result (Z * Z) :=
  match n with
  | O => Ok (best_length, best_distance)
  | S n =>
      if candidate =? 0 then Ok (best_length, best_distance)
      else
        let at_ := candidate - 1 in
        distance ← usize (position - at_);
        if WINDOW <? distance then Ok (best_length, best_distance)
        else
          length ← match_length (S (Z.to_nat limit)) input at_ position limit 0;
          let '(best_length, best_distance, stop) :=
            if best_length <? length then (length, distance, length =? limit) else (best_length, best_distance, false) in
          if stop then Ok (best_length, best_distance)
          else
            candidate ← index previous (at_ mod WINDOW);
            search n input previous position limit candidate best_length best_distance
  end.

Definition find_match (input head previous : list Z) (position : Z) : result (Z * Z) :=
  if position + MIN_MATCH <=? zlen input then
    hash ← hash3 input position;
    candidate ← index head hash;
    search MAX_CHAIN input previous position (Z.min (zlen input - position) MAX_MATCH) candidate 0 0
  else Ok (0, 0).

(** [l.iter().rposition(|base| base <= x).unwrap_or(0)]. *)
Definition rposition (l : list Z) (x : Z) : Z :=
  match filter (fun k => zat l k <= x) (rev (pyrange 0 (zlen l))) with k :: _ => k | [] => 0 end.

Definition put_match (length distance : Z) (w : bit_writer) : bit_writer :=
  let li := rposition LENGTH_BASE length in
  let w := put_symbol (257 + li) w in
  let w := put (length - zat LENGTH_BASE li) (zat LENGTH_EXTRA li) w in
  let di := rposition DISTANCE_BASE distance in
  let w := put_code di 5 w in
  put (distance - zat DISTANCE_BASE di) (zat DISTANCE_EXTRA di) w.

(** Enters one position into the tables. *)
Definition index_position (input : list Z) (start : Z) (tables : list Z * list Z) (offset : Z) : result (list Z * list Z) :=
  let '(head, previous) := tables in
  let at_ := start + offset in
  if at_ + MIN_MATCH <=? zlen input then
    hash ← hash3 input at_;
    old ← index head hash;
    previous ← store previous (at_ mod WINDOW) old;
    entry ← u32 (at_ mod 4294967296 + 1);
    head ← store head hash entry;
    Ok (head, previous)
  else Ok tables.

Fixpoint compress_loop (fuel : nat) (input head previous : list Z) (position : Z) (w : bit_writer) : result bit_writer :=
  match fuel with
  | O => Unfinished
  | S fuel =>
      if position <? zlen input then
        '(best_length, best_distance) ← find_match input head previous position;
        '(w, advance) ←
          (if MIN_MATCH <=? best_length then Ok (put_match best_length best_distance w, best_length)
           else
             b ← index input position;
             Ok (put_symbol b w, 1));
        '(head, previous) ← foldK (index_position input position) (head, previous) (pyrange 0 advance);
        if failed w then Err TooSmall
        else compress_loop fuel input head previous (position + advance) w
      else Ok w
  end.

(** A panic of another function is a panic of this one. *)
Definition lift {E A} (o : outcome E A) : result A :=
  match o with Ok a => Ok a | Unfinished => Unfinished | _ => Panic end.

(** The output buffer and the length of the stream in it. *)
Definition zlib_compress (input output : list Z) : result (list Z * Z) :=
  let w := BitWriter output 0 0 0 false in
  let w := put 120 8 w in
  let w := put 156 8 w in
  let w := put 1 1 w in
  let w := put 1 2 w in
  w ← compress_loop (S (length input)) input (zeros 32768) (zeros WINDOW) 0 w;
  let w := flush (put_symbol 256 w) in
  checksum ← lift (Inflate.Kernel.adler32 input);
  let w := foldl (fun w byte => put byte 8 w) w (be_bytes 4 checksum) in
  if failed w then Err TooSmall else Ok (out w, position w).

End Kernel.
