(* ===== verification/DeflateBits.v ===== *)
(** DeflateBits: what the bit writer of kernel/src/deflate.rs has written, as a
    number of so many bits, and the words of the fixed codes it writes. *)
From Stdlib Require Import ZArith Lia List.
From stdpp Require Import base list gmap strings.
From S2P Require Import Prelude Text Arrays Machine Huff Inflate InflateBits InflateHuff InflateSpec Deflate.
Import Deflate.Kernel.
Open Scope Z_scope.

(** * Numbers that grow by fields *)

(** The stream [s] starts with the [p] bits of [W]. *)
Definition extends (s W p : Z) : Prop := s mod 2 ^ p = W.

Lemma extends_split s W p v n : 0 <= p -> 0 <= n -> 0 <= W < 2 ^ p -> 0 <= v < 2 ^ n -> extends s (W + v * 2 ^ p) (p + n) -> extends s W p /\ field s p n = v.
Proof.
  unfold extends, field. intros Hp Hn HW Hv H. pose proof (pow2_pos p Hp). pose proof (pow2_pos n Hn). rewrite Z.pow_add_r, Z.rem_mul_r in H by lia.
  pose proof (Z.mod_pos_bound s (2 ^ p) ltac:(lia)). pose proof (Z.mod_pos_bound (s / 2 ^ p) (2 ^ n) ltac:(lia)).
  assert (E : (s / 2 ^ p) mod 2 ^ n = v); [|split; nia].
  apply (Z.div_mod_unique (2 ^ p) _ _ (s mod 2 ^ p) W); lia.
Qed.
Lemma extends_range W p v n : 0 <= p -> 0 <= n -> 0 <= W < 2 ^ p -> 0 <= v < 2 ^ n -> 0 <= W + v * 2 ^ p < 2 ^ (p + n).
Proof. intros Hp Hn HW Hv. rewrite Z.pow_add_r by lia. pose proof (Z.mul_le_mono_nonneg_r (v + 1) (2 ^ n) (2 ^ p) ltac:(lia) ltac:(lia)). split; [apply Z.add_nonneg_nonneg; [lia | apply Z.mul_nonneg_nonneg; lia] | lia]. Qed.

Lemma le_val_app a b : le_val (a ++ b) = le_val a + 2 ^ (8 * zlen a) * le_val b.
Proof.
  induction a as [|x a IH]; [change (2 ^ (8 * zlen (@nil Z))) with 1; cbn [le_val app]; lia|]. cbn [le_val app]. rewrite IH. rewrite zlen_cons. pose proof (zlen_nonneg a). replace (8 * (1 + zlen a)) with (8 + 8 * zlen a) by lia. rewrite Z.pow_add_r by lia. change (2 ^ 8) with 256. lia.
Qed.

(** * The writer *)

Section writer.
Context (cap : Z).

(** All but the last bits are in the output. *)
Record holds (w : bit_writer) (W p : Z) : Prop := Holds {
  ho_cap : zlen (out w) = cap;
  ho_position : 0 <= position w <= cap;
  ho_count : 0 <= count w;
  ho_p : p = 8 * position w + count w;
  ho_ok : failed w = false;
  ho_buffer : 0 <= buffer w < 2 ^ count w;
  ho_bytes : Forall is_byte (firstn (Z.to_nat (position w)) (out w));
  ho_value : W = le_val (firstn (Z.to_nat (position w)) (out w)) + 2 ^ (8 * position w) * buffer w
}.

(** Everything so far is there, or there was no room for it. *)
Definition wrote (w : bit_writer) (W p : Z) : Prop :=
  0 <= p /\ 0 <= W < 2 ^ p /\ (failed w = true /\ 8 * cap < p \/ holds w W p /\ count w < 8).

Lemma firstn_insert (l : list Z) i x : 0 <= i < zlen l -> firstn (Z.to_nat (i + 1)) (<[Z.to_nat i := x]> l) = firstn (Z.to_nat i) l ++ [x].
Proof.
  intros H. unfold zlen in H. replace (Z.to_nat (i + 1)) with (S (Z.to_nat i)) by lia.
  rewrite (take_S_r _ _ x) by (apply list_lookup_insert_eq; lia). by rewrite take_insert_ge by lia.
Qed.

Lemma put_loop_failed fuel w : failed w = true -> failed (put_loop fuel w) = true.
Proof. revert w. induction fuel as [|fuel IH]; intros w H; [done|]. cbn [put_loop]. repeat case_match; [done | by apply IH | done]. Qed.

Lemma put_loop_holds fuel w W p : holds w W p -> count w < 8 * Z.of_nat fuel + 8 ->
  failed (put_loop fuel w) = true /\ 8 * cap < p \/ holds (put_loop fuel w) W p /\ count (put_loop fuel w) < 8.
Proof.
  revert w. induction fuel as [|fuel IH]; intros w H HF; [right; split; [done | cbn [put_loop]; lia]|].
  destruct H as [HC HP HN EP HK HB BY EW]. cbn [put_loop]. destruct (Z.leb_spec 8 (count w)) as [C8|C8]; [|right; done]. rewrite HC. destruct (Z.leb_spec cap (position w)) as [F|F]; [left; split; [done | lia]|].
  apply IH; [|cbn [count]; lia]. replace (count w) with (8 + (count w - 8)) in HB by lia. rewrite Z.pow_add_r in HB by lia. change (2 ^ 8) with 256 in HB.
  pose proof (Z.div_mod (buffer w) 256 ltac:(lia)) as DM. pose proof (Z.mod_pos_bound (buffer w) 256 ltac:(lia)) as MB. assert (L : zlen (firstn (Z.to_nat (position w)) (out w)) = position w) by (unfold zlen in *; rewrite length_firstn; lia).
  split; cbn [out position count buffer failed]; rewrite ?firstn_insert, ?Z.shiftr_div_pow2 by lia; change (2 ^ 8) with 256; try lia; [unfold zlen in *; by rewrite length_insert | done | |].
  - apply Forall_app. split; [done|]. constructor; [unfold is_byte; lia | constructor].
  - rewrite le_val_app, L. cbn [le_val]. replace (8 * (position w + 1)) with (8 * position w + 8) by lia. rewrite Z.pow_add_r by lia. change (2 ^ 8) with 256. rewrite EW, DM at 1. ring.
Qed.

(** [put] appends a field. *)
Lemma put_wrote w W p v n : wrote w W p -> 0 <= n <= 32 -> 0 <= v < 2 ^ n -> wrote (put v n w) (W + v * 2 ^ p) (p + n).
Proof.
  intros (Hp & HW & H) Hn Hv. split; [lia|]. split; [apply extends_range; lia|]. destruct H as [[F C]|[[HC HP HN EP HK HB BY EW] C8]]; [left; split; [by apply put_loop_failed | lia]|].
  pose proof (extends_range (buffer w) (count w) v n ltac:(lia) ltac:(lia) HB Hv) as B'.
  assert (SM : Z.shiftl v (count w) mod 18446744073709551616 = Z.shiftl v (count w)).
  { apply Z.mod_small. rewrite Z.shiftl_mul_pow2 by lia. pose proof (Z.pow_le_mono_r 2 (count w + n) 39 ltac:(lia) ltac:(lia)) as M. change (2 ^ 39) with 549755813888 in M. pose proof (pow2_pos (count w) ltac:(lia)). nia. }
  unfold put. rewrite SM, Z.lor_comm, lor_shiftl_add by lia. rewrite (Z.add_comm (v * _)). apply put_loop_holds; [|cbn [count]; lia]. split; cbn [out position count buffer failed]; try (done || lia). rewrite EW, EP, Z.pow_add_r by lia. ring.
Qed.

Lemma put_code_wrote w W p c n : wrote w W p -> 0 <= n <= 32 -> wrote (put_code c n w) (W + mirror n c * 2 ^ p) (p + n).
Proof. intros H Hn. apply put_wrote; [done | lia|]. by apply mirror_spec. Qed.

(** [flush] appends zeros. *)
Lemma flush_wrote w W p : wrote w W p -> wrote (flush w) W (aligned p) \/ failed (flush w) = true /\ 8 * cap < p.
Proof.
  intros H. pose proof H as (Hp & HW & [[F C]|[HO C8]]).
  - right. split; [|done]. unfold flush. case_match; [by apply put_loop_failed | done].
  - left. assert (E : (- p) mod 8 = (8 - count w) mod 8) by (rewrite (ho_p _ _ _ HO); replace (- (8 * position w + count w)) with (8 - count w + (- position w - 1) * 8) by lia; by rewrite Z.mod_add).
    pose proof (ho_count _ _ _ HO). unfold flush, aligned. rewrite E. destruct (Z.ltb_spec 0 (count w)).
    + rewrite Z.mod_small by lia. replace W with (W + 0 * 2 ^ p) by lia. apply put_wrote; [done | lia|]. split; [lia | apply pow2_pos; lia].
    + replace (8 - count w) with 8 by lia. change (8 mod 8) with 0. by rewrite Z.add_0_r.
Qed.

(** Bytes, when what is there ends with one. *)
Lemma put_bytes_wrote bs : Forall is_byte bs -> forall w W p, wrote w W p -> wrote (foldl (fun w b => put b 8 w) w bs) (W + le_val bs * 2 ^ p) (p + 8 * zlen bs).
Proof.
  induction 1 as [|b bs Hb F IH]; intros w W p H; [cbn; by rewrite !Z.add_0_r|]. cbn [foldl le_val]. rewrite zlen_cons. unfold is_byte in Hb. specialize (IH _ _ _ (put_wrote w W p b 8 H ltac:(lia) ltac:(lia))).
  destruct H as [Hp _]. rewrite Z.pow_add_r in IH by lia. change (2 ^ 8) with 256 in IH. replace (W + (b + 256 * le_val bs) * 2 ^ p) with (W + b * 2 ^ p + le_val bs * (2 ^ p * 256)) by ring. by replace (p + 8 * (1 + zlen bs)) with (p + 8 + 8 * zlen bs) by lia.
Qed.
End writer.

(** * The fixed codes *)

Definition coded_word (counts symbols : list Z) (L c x : Z) : bool :=
  let d := c - first_code counts L in
  (1 <=? L) && (L <=? 16) && (0 <=? d) && (d <? width counts L) && bool_decide (symbols !! Z.to_nat (first_index counts L + d) = Some x).
Lemma coded_word_ok lengths L c x : coded_word (counts_of lengths) (symbols_of lengths) L c x = true -> code_word lengths L c x.
Proof.
  unfold coded_word. cbv zeta. rewrite !andb_true_iff, !Z.leb_le, Z.ltb_lt, bool_decide_eq_true. intros [[[[H1 H2] H3] H4] H5]. repeat split; done || lia.
Qed.

Lemma fixed_literal x : 0 <= x < 288 -> code_word fixed_lengths (fixed_word x).2 (fixed_word x).1 x /\ 7 <= (fixed_word x).2 <= 9.
Proof.
  intros H. split.
  - apply coded_word_ok. assert (A : (let cs := counts_of fixed_lengths in let ss := symbols_of fixed_lengths in forallb (fun x => coded_word cs ss (fixed_word x).2 (fixed_word x).1 x) (pyrange 0 288)) = true) by (vm_compute; reflexivity).
    cbv zeta in A. rewrite forallb_forall in A. apply (A x), list_elem_of_In, elem_of_pyrange. lia.
  - unfold fixed_word. repeat case_match; cbn; lia.
Qed.
Lemma fixed_distance y : 0 <= y < 30 -> code_word fixed_distances 5 y y.
Proof.
  intros H. apply coded_word_ok. assert (A : (let cs := counts_of fixed_distances in let ss := symbols_of fixed_distances in forallb (fun y => coded_word cs ss 5 y y) (pyrange 0 30)) = true) by (vm_compute; reflexivity).
  cbv zeta in A. rewrite forallb_forall in A. apply (A y), list_elem_of_In, elem_of_pyrange. lia.
Qed.

(** The code for a length or a distance is the one whose range it is in. *)
Definition length_coded (n : Z) : bool :=
  let k := rposition LENGTH_BASE n in
  (0 <=? k) && (k <? 29) && (zat LENGTH_BASE k =? length_base k) && (zat LENGTH_EXTRA k =? length_extra k) && (length_base k <=? n) && (n <? length_base k + 2 ^ length_extra k) && (0 <=? length_extra k) && (length_extra k <=? 5)
  && ((fixed_word (257 + k)).2 + length_extra k + 18 <=? 9 * n).
Definition distance_coded (d : Z) : bool :=
  let k := rposition DISTANCE_BASE d in
  (0 <=? k) && (k <? 30) && (zat DISTANCE_BASE k =? distance_base k) && (zat DISTANCE_EXTRA k =? distance_extra k) && (distance_base k <=? d) && (d <? distance_base k + 2 ^ distance_extra k) && (0 <=? distance_extra k) && (distance_extra k <=? 13).
Ltac unbool H := rewrite ?andb_true_iff, ?Z.leb_le, ?Z.ltb_lt, ?Z.eqb_eq in H.
Lemma length_coded_all n : 3 <= n <= 258 -> length_coded n = true.
Proof. intros H. assert (A : forallb length_coded (pyrange 3 259) = true) by (vm_compute; reflexivity). rewrite forallb_forall in A. apply (A n), list_elem_of_In, elem_of_pyrange. lia. Qed.

Lemma rposition_at l x k : 0 <= k < zlen l -> zat l k <= x -> (forall j, k < j < zlen l -> x < zat l j) -> rposition l x = k.
Proof.
  intros HK HX HJ. unfold rposition. rewrite (pyrange_app 0 k), (pyrange_cons k), rev_app_distr by lia. cbn [rev]. rewrite <- app_assoc, filter_app.
  destruct (filter _ (rev (pyrange (k + 1) (zlen l)))) as [|j r] eqn:E; [cbn [app]; by rewrite filter_cons_True|]. assert (HI : j ∈ filter (fun k => zat l k <= x) (rev (pyrange (k + 1) (zlen l)))) by (rewrite E; apply list_elem_of_here).
  apply list_elem_of_filter in HI as [HL HI]. apply list_elem_of_In, in_rev, list_elem_of_In, elem_of_pyrange in HI. specialize (HJ j ltac:(lia)). lia.
Qed.
(** The last place up to [n] whose item is not above [x]. *)
Lemma last_place l x (n : nat) : zat l 0 <= x -> exists k, 0 <= k <= Z.of_nat n /\ zat l k <= x /\ (k = Z.of_nat n \/ x < zat l (k + 1)).
Proof.
  intros H0. induction n as [|n (k & HK & HX & HN)]; [exists 0; repeat split; (done || lia || by left)|]. destruct HN as [->|HN]; [|exists k; repeat split; (lia || done || by right)].
  destruct (Z.le_gt_cases (zat l (Z.of_nat n + 1)) x); [exists (Z.of_nat n + 1) | exists (Z.of_nat n)]; repeat split; (lia || done || (left; lia) || by right).
Qed.
(** The rows of the tables: each range ends where the next begins. *)
Definition distance_row (k : Z) : bool :=
  (zat DISTANCE_BASE k =? distance_base k) && (zat DISTANCE_EXTRA k =? distance_extra k) && (0 <=? distance_extra k) && (distance_extra k <=? 13)
  && (distance_base k + 2 ^ distance_extra k =? (if k =? 29 then 32769 else zat DISTANCE_BASE (k + 1)))
  && forallb (fun j => zat DISTANCE_BASE (k + 1) <=? zat DISTANCE_BASE j) (pyrange (k + 1) 30).
Lemma distance_coded_all d : 1 <= d <= 32768 -> distance_coded d = true.
Proof.
  intros H. assert (A : forallb distance_row (pyrange 0 30) = true) by (vm_compute; reflexivity). destruct (last_place DISTANCE_BASE d 29) as (k & HK & HX & HN); [change (1 <= d); lia|]. rewrite forallb_forall in A. specialize (A k ltac:(apply list_elem_of_In, elem_of_pyrange; lia)).
  unfold distance_row in A. rewrite !andb_true_iff, !Z.leb_le, !Z.eqb_eq in A. destruct A as (((((B & E) & E0) & E13) & NX) & MO). assert (UP : d < distance_base k + 2 ^ distance_extra k) by (rewrite NX; destruct (Z.eqb_spec k 29), HN; lia).
  unfold distance_coded. rewrite (rposition_at DISTANCE_BASE d k); [|change (zlen DISTANCE_BASE) with 30; lia | done|].
  - cbv zeta. rewrite !andb_true_iff, !Z.leb_le, !Z.ltb_lt, !Z.eqb_eq. rewrite B in HX. repeat split; (done || lia).
  - change (zlen DISTANCE_BASE) with 30. intros j HJ. rewrite forallb_forall in MO. specialize (MO j ltac:(apply list_elem_of_In, elem_of_pyrange; lia)). apply Z.leb_le in MO. destruct HN; lia.
Qed.
