(* ===== verification/DeflateWhole.v ===== *)
(** DeflateWhole: the compressor of kernel/src/deflate.rs writes zlib streams of
    its input (InflateSpec), never fails with an index or an overflow, and has
    room enough with nine bits for a byte; what it writes, the decompressor of
    kernel/src/inflate.rs reads back. *)
From Stdlib Require Import ZArith Lia List.
From stdpp Require Import base list gmap strings.
From S2P Require Import Prelude Text Arrays Machine Huff Inflate InflateBits InflateHuff InflateSpec InflateBlock InflateWhole Deflate DeflateBits.
Import Deflate.Kernel.
Open Scope Z_scope.

(** * Matches *)

Section matching.
Context (input : list Z).
Hypothesis short : zlen input < 4294967296.
#[warnings="-notation-for-abbreviation"] Local Notation len := (zlen input).

(** [n] bytes at [a] and at [b] are the same. *)
Definition agree (a b n : Z) : Prop := forall i, 0 <= i < n -> zat input (a + i) = zat input (b + i).

Lemma match_length_agree fuel a pos limit n : 0 <= a <= pos -> pos + limit <= len -> 0 <= n <= limit -> limit - n < Z.of_nat fuel -> agree a pos n ->
  exists n', match_length fuel input a pos limit n = Ok n' /\ n <= n' <= limit /\ agree a pos n'.
Proof.
  intros Ha HL. revert n. induction fuel as [|fuel IH]; intros n Hn HF G; [lia|]. cbn [match_length]. destruct (Z.ltb_spec n limit) as [H|H]; [|exists n; repeat split; (done || lia)].
  rewrite !index_ok, !ok_bind by lia. destruct (Z.eqb_spec (zat input (a + n)) (zat input (pos + n))) as [E|E]; [|exists n; repeat split; (done || lia)].
  destruct (IH (n + 1)) as (n' & -> & R & G'); [lia | lia | |exists n'; repeat split; (done || lia)]. intros i Hi. destruct (decide (i = n)) as [->|]; [done | apply G; lia].
Qed.

(** A match worth keeping, or none yet. *)
Definition found (pos limit n d : Z) : Prop := n = 0 \/ 0 < n <= limit /\ 1 <= d <= 32768 /\ d <= pos /\ agree (pos - d) pos n.
Definition entries (pos : Z) (table : list Z) : Prop := zlen table = 32768 /\ Forall (fun e => 0 <= e <= pos) table.

Lemma entries_at pos table i : entries pos table -> 0 <= i < 32768 -> 0 <= zat table i <= pos.
Proof. intros [L F] Hi. rewrite Forall_lookup in F. apply (F (Z.to_nat i)), lookup_zat. lia. Qed.
Lemma entries_set pos pos' table i e : entries pos table -> pos <= pos' -> 0 <= e <= pos' -> entries pos' (zset table i e).
Proof. intros [L F] H He. split; [by rewrite zlen_zset|]. apply Forall_insert; [eapply Forall_impl; [exact F | intros x Hx; cbn in *; lia] | done]. Qed.
Lemma entries_later pos pos' table : entries pos table -> pos <= pos' -> entries pos' table.
Proof. intros [L F] H. split; [done|]. eapply Forall_impl; [exact F|]. intros x Hx. cbn in *. lia. Qed.
Lemma entries_zeros pos : 0 <= pos -> entries pos (zeros 32768).
Proof. intros H. split; [reflexivity|]. apply Forall_replicate. lia. Qed.

Lemma search_found n previous pos limit : entries pos previous -> 0 <= pos < len -> 0 <= limit -> pos + limit <= len -> forall candidate bl bd, 0 <= candidate <= pos -> found pos limit bl bd ->
  exists bl' bd', search n input previous pos limit candidate bl bd = Ok (bl', bd') /\ found pos limit bl' bd'.
Proof.
  intros EP HP HL0 HL. induction n as [|n IH]; intros candidate bl bd HC G; [by exists bl, bd|]. cbn [search]. destruct (Z.eqb_spec candidate 0) as [|N0]; [by exists bl, bd|].
  unfold usize. rewrite checked_ok, ok_bind by lia. unfold WINDOW. destruct (Z.ltb_spec 32768 (pos - (candidate - 1))) as [|HW]; [by exists bl, bd|].
  destruct (match_length_agree (S (Z.to_nat limit)) (candidate - 1) pos limit 0) as (m & -> & HM & GM); [lia | lia | lia | lia | intros i; lia|]. rewrite ok_bind.
  pose proof (Z.mod_pos_bound (candidate - 1) 32768 ltac:(lia)) as MB. pose proof (entries_at _ _ _ EP MB). destruct EP as [LP FP].
  destruct (Z.ltb_spec bl m) as [HB|HB]; [|rewrite index_ok, ok_bind by lia; by apply IH].
  assert (G' : found pos limit m (pos - (candidate - 1))) by (pose proof G as [->|(? & _)]; right; replace (pos - (pos - (candidate - 1))) with (candidate - 1) by lia; repeat split; (done || lia)).
  destruct (m =? limit); [by exists m, (pos - (candidate - 1))|]. rewrite index_ok, ok_bind by lia. by apply IH.
Qed.

Lemma hash3_ok a : 0 <= a -> a + 3 <= len -> exists h, hash3 input a = Ok h /\ 0 <= h < 32768.
Proof.
  intros Ha HL. unfold hash3. rewrite !index_ok, !ok_bind by lia. eexists. split; [reflexivity|]. unfold HASH_BITS. rewrite Z.shiftr_div_pow2 by lia. change (2 ^ (32 - 15)) with 131072.
  pose proof (Z.mod_pos_bound (Z.lor (Z.lor (zat input a) (Z.shiftl (zat input (a + 1)) 8)) (Z.shiftl (zat input (a + 2)) 16) * 2654435769) 4294967296 ltac:(lia)). split; [apply Z.div_pos; lia | apply Z.div_lt_upper_bound; lia].
Qed.

Lemma find_match_found head previous pos : entries pos head -> entries pos previous -> 0 <= pos < len ->
  exists n d, find_match input head previous pos = Ok (n, d) /\ found pos (Z.min (len - pos) 258) n d.
Proof.
  intros EH EP HP. unfold find_match, MIN_MATCH, MAX_MATCH. destruct (Z.leb_spec (pos + 3) len); [|exists 0, 0; split; [done | by left]]. destruct (hash3_ok pos) as (h & -> & Hh); [lia | lia|]. rewrite ok_bind.
  pose proof (entries_at _ _ _ EH Hh). pose proof (proj1 EH). rewrite index_ok, ok_bind by lia. apply search_found; [done | lia | lia | lia | lia | by left].
Qed.

Lemma index_position_ok start offset head previous : 0 <= start + offset -> entries (start + offset) head -> entries (start + offset) previous ->
  exists head' previous', index_position input start (head, previous) offset = Ok (head', previous') /\ entries (start + offset + 1) head' /\ entries (start + offset + 1) previous'.
Proof.
  intros H0 EH EP. unfold index_position, MIN_MATCH, WINDOW. destruct (Z.leb_spec (start + offset + 3) len) as [H|H]; [|exists head, previous; split; [done|]; split; eapply entries_later; (done || lia)].
  destruct (hash3_ok (start + offset)) as (h & -> & Hh); [lia | lia|]. rewrite ok_bind. pose proof (entries_at _ _ _ EH Hh). pose proof (proj1 EH). pose proof (proj1 EP). pose proof (Z.mod_pos_bound (start + offset) 32768 ltac:(lia)).
  rewrite index_ok, ok_bind, store_ok, ok_bind, (Z.mod_small _ 4294967296) by lia. unfold u32. rewrite checked_ok, ok_bind, store_ok, ok_bind by lia. do 2 eexists. split; [done|]. split; eapply entries_set; (done || lia).
Qed.
Lemma index_positions start n head previous : 0 <= start -> 0 <= n -> entries start head -> entries start previous ->
  exists head' previous', foldK (index_position input start) (head, previous) (pyrange 0 n) = Ok (head', previous') /\ entries (start + n) head' /\ entries (start + n) previous'.
Proof.
  intros H0 Hn EH EP. destruct (foldK_range (fun i (t : list Z * list Z) => entries (start + i) t.1 /\ entries (start + i) t.2) (index_position input start) 0 n (head, previous)) as ([h' p'] & E & H); [done | by rewrite Z.add_0_r | |by exists h', p'].
  intros i [h p] Hi [H1 H2]. destruct (index_position_ok start i h p) as (h' & p' & E & H'); [lia | done..|]. exists (h', p'). replace (start + (i + 1)) with (start + i + 1) by lia. done.
Qed.

(** What a match copies is what comes next. *)
Lemma agree_copied pos d n : 1 <= d <= pos -> 0 <= n -> pos + n <= len -> agree (pos - d) pos n ->
  firstn (Z.to_nat pos) input ++ copied (firstn (Z.to_nat pos) input) d n = firstn (Z.to_nat (pos + n)) input.
Proof.
  intros Hd Hn HL G. assert (LP : zlen (firstn (Z.to_nat pos) input) = pos) by (unfold zlen in *; rewrite length_firstn; lia).
  assert (P : forall i, 0 <= i < n -> zat input (pos + i) = zat input (pos - d + i mod d)).
  { intros i Hi. remember (Z.to_nat i) as k eqn:Ek. revert i Hi Ek. induction (lt_wf k) as [k _ IH]. intros i Hi Ek. destruct (Z.lt_ge_cases i d) as [|H]; [rewrite Z.mod_small by lia; symmetry; by apply G|].
    rewrite <- (G i Hi). replace (pos - d + i) with (pos + (i - d)) by lia. rewrite (IH (Z.to_nat (i - d))) by lia. replace i with (i - d + 1 * d) at 2 by lia. by rewrite Z.mod_add by lia. }
  apply zat_ext; rewrite zlen_app, LP, zlen_copied by lia; [unfold zlen in *; rewrite length_firstn; lia|].
  intros i Hi. rewrite (zat_firstn input (pos + n)) by lia. destruct (Z.lt_ge_cases i pos) as [H|H]; [rewrite zat_app_l, zat_firstn by lia; done|].
  rewrite zat_app_r by lia. rewrite LP, zat_copied, LP by lia. rewrite zat_firstn by (pose proof (Z.mod_pos_bound (i - pos) d ltac:(lia)); lia). rewrite <- P by lia. f_equal. lia.
Qed.
End matching.

(** * What the writer adds *)

(** Writing from [w] to [w'] adds [n] bits, and they satisfy [P] in any stream
    (after its two bytes of header) that has them. *)
Definition adds (cap : Z) (w w' : bit_writer) (n : Z) (P : Z -> Z -> Prop) : Prop :=
  forall W p, wrote cap w W p -> 16 <= p ->
  exists W', wrote cap w' W' (p + n) /\ forall s, extends s W' (p + n) -> extends s W p /\ P (s / 2 ^ 16) (p - 16).

Lemma field_body s p n : 16 <= p -> field (s / 2 ^ 16) (p - 16) n = field s p n.
Proof. intros H. unfold field. rewrite Z.div_div, <- Z.pow_add_r by lia. by replace (16 + (p - 16)) with p by lia. Qed.

Section adding.
Context (cap : Z).

Lemma adds_put w v n : 0 <= n <= 32 -> 0 <= v < 2 ^ n -> adds cap w (put v n w) n (fun s p => field s p n = v).
Proof.
  intros Hn Hv W p H Hp. exists (W + v * 2 ^ p). split; [by apply put_wrote|]. intros s E. destruct H as (_ & HW & _).
  destruct (extends_split s W p v n) as [E1 E2]; [lia | lia | done..|]. by rewrite field_body.
Qed.
Lemma adds_code lengths w L c x : code_word lengths L c x -> adds cap w (put_code c L w) L (fun s p => code_at lengths s p x (p + L)).
Proof.
  intros C. assert (HL : 1 <= L <= 16) by apply C. destruct (mirror_spec L c ltac:(lia)) as [MR _]. intros W p H Hp. destruct (adds_put w (mirror L c) L ltac:(lia) MR W p H Hp) as (W' & HW & HE). exists W'. split; [done|].
  intros s E. destruct (HE s E) as [E1 E2]. split; [done|]. exists L, c. split; [done|]. split; [|done]. apply word_at_field; (done || lia).
Qed.
Lemma adds_symbol w x : 0 <= x < 288 -> adds cap w (put_symbol x w) (fixed_word x).2 (fun s p => code_at fixed_lengths s p x (p + (fixed_word x).2)).
Proof. intros H. destruct (fixed_literal x H) as [C _]. unfold put_symbol. destruct (fixed_word x) as [c L]. by apply adds_code. Qed.
Lemma adds_trans w w1 w2 n m P Q : 0 <= n -> adds cap w w1 n P -> adds cap w1 w2 m Q -> adds cap w w2 (n + m) (fun s p => P s p /\ Q s (p + n)).
Proof.
  intros Hn H1 H2 W p H Hp. destruct (H1 W p H Hp) as (W1 & HW1 & E1). destruct (H2 W1 (p + n) HW1 ltac:(lia)) as (W2 & HW2 & E2). exists W2. rewrite Z.add_assoc. split; [done|].
  intros s E. destruct (E2 s E) as [E' HQ]. destruct (E1 s E') as [E'' HP]. split; [done|]. split; [done|]. by replace (p - 16 + n) with (p + n - 16) by lia.
Qed.
Lemma adds_impl w w' n (P Q : Z -> Z -> Prop) : adds cap w w' n P -> (forall s p, 0 <= p -> P s p -> Q s p) -> adds cap w w' n Q.
Proof. intros H HI W p HW Hp. destruct (H W p HW Hp) as (W' & HW' & E). exists W'. split; [done|]. intros s Hs. destruct (E s Hs) as [E' HP]. split; [done|]. apply HI; [lia | done]. Qed.

(** The rest of a block after [n] bits that add [more] to what is there. *)
Definition token (before after : list Z) (n s p : Z) : Prop :=
  forall p' o, tokens s fixed_lengths fixed_distances (p + n) after p' o -> tokens s fixed_lengths fixed_distances p before p' o.

Lemma adds_literal w x before : 0 <= x < 256 -> adds cap w (put_symbol x w) (fixed_word x).2 (token before (before ++ [x]) (fixed_word x).2).
Proof. intros H. apply (adds_impl _ _ _ _ _ (adds_symbol w x ltac:(lia))). intros s p Hp C p' o T. apply (tokens_literal _ _ _ p before x (p + (fixed_word x).2)); (done || lia). Qed.

Lemma adds_match w n d before : 3 <= n <= 258 -> 1 <= d <= 32768 -> d <= zlen before ->
  exists k, 0 <= k <= 9 * n /\ adds cap w (put_match n d w) k (token before (before ++ copied before d n) k).
Proof.
  intros Hn Hd HB. pose proof (length_coded_all n Hn) as LC. pose proof (distance_coded_all d Hd) as DC. unfold length_coded in LC. unfold distance_coded in DC. unfold put_match. cbv zeta in *.
  set (li := rposition LENGTH_BASE n) in *. set (di := rposition DISTANCE_BASE d) in *. unbool LC. unbool DC. destruct LC as ((((((((L1 & L2) & L3) & L4) & L5) & L6) & L7) & L8) & L9). destruct DC as (((((((D1 & D2) & D3) & D4) & D5) & D6) & D7) & D8). rewrite L3, L4, D3, D4.
  pose proof (proj2 (fixed_literal (257 + li) ltac:(lia))). set (k := (fixed_word (257 + li)).2 + (length_extra li + (5 + distance_extra di))). exists k. split; [unfold k; lia|].
  eapply adds_impl; [eapply (adds_trans w); [lia | apply adds_symbol; lia|]; eapply adds_trans; [lia | apply (adds_put _ (n - length_base li)); lia|]; eapply adds_trans; [lia | apply (adds_code fixed_distances), (fixed_distance di); lia | apply (adds_put _ (d - distance_base di)); lia]|].
  intros s p Hp (C1 & F1 & C2 & F2) p' o T. set (p1 := p + (fixed_word (257 + li)).2) in *. apply (tokens_match _ _ _ p before li p1 di (p1 + length_extra li + 5)); [done | lia | done | lia | lia|].
  rewrite F1, F2. replace (distance_base di + (d - distance_base di)) with d by lia. replace (length_base li + (n - length_base li)) with n by lia. by replace (p1 + length_extra li + 5 + distance_extra di) with (p + k) by lia.
Qed.
End adding.

(** * The loop *)

Section compressing.
Context (input output : list Z).
Hypothesis bytes : Forall is_byte input.
Hypothesis short : zlen input < 4294967296.
#[warnings="-notation-for-abbreviation"] Local Notation len := (zlen input).
#[warnings="-notation-for-abbreviation"] Local Notation cap := (zlen output).
#[warnings="-notation-for-abbreviation"] Local Notation upto := (fun p => firstn (Z.to_nat p) input).

(** One round: a literal or a match, nine bits at most for a byte. *)
Lemma compress_one head previous pos w : entries pos head -> entries pos previous -> 0 <= pos < len ->
  exists n d w' k head' previous',
    find_match input head previous pos = Ok (n, d)
    /\ (if MIN_MATCH <=? n then Ok (put_match n d w, n) else b ← index input pos; Ok (put_symbol b w, 1)) = Ok (E := too_small) (w', k)
    /\ foldK (index_position input pos) (head, previous) (pyrange 0 k) = Ok (head', previous')
    /\ entries (pos + k) head' /\ entries (pos + k) previous' /\ 1 <= k /\ pos + k <= len
    /\ exists m, 0 <= m <= 9 * k /\ adds cap w w' m (token (upto pos) (upto (pos + k)) m).
Proof.
  intros EH EP HP. destruct (find_match_found input short head previous pos EH EP HP) as (n & d & EF & FO). exists n, d. unfold MIN_MATCH. destruct (Z.leb_spec 3 n) as [H3|H3].
  - destruct FO as [|(Hn & Hd & Hp & G)]; [lia|]. destruct (index_positions input short pos n head previous) as (head' & previous' & EI & EH' & EP'); [lia | lia | done..|].
    exists (put_match n d w), n, head', previous'. repeat (split; [done || lia|]). assert (LP : zlen (upto pos) = pos) by (unfold zlen in *; rewrite length_firstn; lia).
    destruct (adds_match cap w n d (upto pos) ltac:(lia) Hd ltac:(lia)) as (m & Hm & A). exists m. split; [done|]. by rewrite agree_copied in A by (done || lia).
  - rewrite index_ok, ok_bind by lia. assert (HB : is_byte (zat input pos)) by (rewrite Forall_forall in bytes; apply bytes, zat_elem; lia). unfold is_byte in HB.
    destruct (index_positions input short pos 1 head previous) as (head' & previous' & EI & EH' & EP'); [lia | lia | done..|].
    exists (put_symbol (zat input pos) w), 1, head', previous'. repeat (split; [done || lia|]). exists (fixed_word (zat input pos)).2. pose proof (proj2 (fixed_literal (zat input pos) ltac:(lia))). split; [lia|].
    replace (upto (pos + 1)) with (upto pos ++ [zat input pos]); [apply adds_literal; lia|]. replace (Z.to_nat (pos + 1)) with (S (Z.to_nat pos)) by lia. symmetry. apply take_S_r, lookup_zat. done.
Qed.

(** The block so far, from 19 bits of header on. *)
Lemma compress_loop_wrote fuel head previous pos w W p : entries pos head -> entries pos previous -> 0 <= pos <= len -> len - pos < Z.of_nat fuel ->
  wrote cap w W p -> 19 <= p <= 19 + 9 * pos ->
  match compress_loop fuel input head previous pos w with
  | Ok w' => exists W' p', wrote cap w' W' p' /\ p <= p' <= 19 + 9 * len
      /\ forall s, extends s W' p' -> extends s W p /\ token (upto pos) input (p' - p) (s / 2 ^ 16) (p - 16)
  | Err _ => 8 * cap < 19 + 9 * len
  | _ => False
  end.
Proof.
  revert head previous pos w W p. induction fuel as [|fuel IH]; intros head previous pos w W p EH EP HP HF HW Hp; [lia|]. cbn [compress_loop]. destruct (Z.ltb_spec pos len) as [HL|HL].
  - destruct (compress_one head previous pos w EH EP ltac:(lia)) as (n & d & w' & k & head' & previous' & -> & E1 & E2 & EH' & EP' & Hk & HK & m & Hm & A). rewrite ok_bind. cbv beta iota. rewrite E1, ok_bind, E2, ok_bind.
    destruct (A W p HW ltac:(lia)) as (W1 & HW1 & X1). destruct (failed w') eqn:FW.
    + destruct HW1 as (_ & _ & [[_ C]|[HO _]]); [lia|]. by rewrite (ho_ok _ _ _ _ HO) in FW.
    + specialize (IH head' previous' (pos + k) w' W1 (p + m) EH' EP' ltac:(lia) ltac:(lia) HW1 ltac:(lia)). destruct (compress_loop fuel input head' previous' (pos + k) w'); [|done..].
      destruct IH as (W' & p' & HW' & Hp' & X). exists W', p'. split; [done|]. split; [lia|]. intros s Hs. destruct (X s Hs) as [Hs1 T1]. destruct (X1 s Hs1) as [Hs0 T0]. split; [done|].
      intros q o T. apply T0. replace (p - 16 + m) with (p + m - 16) by lia. apply T1. by replace (p + m - 16 + (p' - (p + m))) with (p - 16 + (p' - p)) by lia.
  - exists W, p. split; [done|]. split; [lia|]. intros s Hs. split; [done|]. intros q o T. rewrite firstn_all2 by (unfold zlen in *; lia). by replace (p - 16 + (p - p)) with (p - 16) in T by lia.
Qed.

(** * The stream *)

(** What is written ends with a byte: it is the output up to there. *)
Lemma wrote_bytes w W n : wrote cap w W (8 * n) -> failed w = false ->
  position w = n /\ 0 <= n <= cap /\ zlen (out w) = cap /\ Forall is_byte (firstn (Z.to_nat n) (out w)) /\ W = le_val (firstn (Z.to_nat n) (out w)).
Proof.
  intros (Hp & HW & [[F _]|[[HC HP HN EP HK HB BY EW] C8]]) FW; [congruence|]. assert (count w = 0) as C0 by lia. assert (position w = n) as <- by lia. rewrite C0 in HB. change (2 ^ 0) with 1 in HB.
  assert (buffer w = 0) as B0 by lia. rewrite B0 in EW. repeat split; (done || lia).
Qed.

Lemma le_val_drop k (l : list Z) : Forall is_byte l -> 0 <= k <= zlen l -> le_val (drop (Z.to_nat k) l) = le_val l / 2 ^ (8 * k).
Proof.
  intros F H. rewrite <- (take_drop (Z.to_nat k) l) at 2. rewrite le_val_app. assert (L : zlen (take (Z.to_nat k) l) = k) by (unfold zlen in *; rewrite length_firstn; lia). rewrite L.
  pose proof (le_val_bits (take (Z.to_nat k) l) (Forall_take _ _ _ F)) as B. rewrite L in B. rewrite Z.mul_comm, Z.div_add by lia. by rewrite Z.div_small by done.
Qed.

Lemma extends_less s W p n : 0 <= p -> 0 <= n -> 0 <= W < 2 ^ p -> extends s W (p + n) -> extends s W p.
Proof. intros Hp Hn HW E. apply (extends_split s W p 0 n); [done.. | split; [lia | by apply pow2_pos] | by rewrite Z.mul_0_l, Z.add_0_r]. Qed.

Lemma aligned_bytes p : aligned p = 8 * ((p + 7) / 8) /\ aligned p / 8 = (p + 7) / 8.
Proof.
  assert (E : aligned p = 8 * ((p + 7) / 8)); [|split; [done|]; rewrite E, Z.mul_comm; by apply Z.div_mul]. unfold aligned. pose proof (Z.div_mod (- p) 8 ltac:(lia)). pose proof (Z.mod_pos_bound (- p) 8 ltac:(lia)).
  rewrite <- (Z.div_unique (p + 7) 8 (- (- p / 8)) (7 - (- p) mod 8)) by lia. lia.
Qed.

(** The end of a stream: the end of the block, zeros up to a byte, the checksum. *)
Definition finish (checksum : Z) (w : bit_writer) : bit_writer := foldl (fun w byte => put byte 8 w) (flush (put_symbol 256 w)) (be_bytes 4 checksum).

Lemma finish_failed checksum w W p : wrote cap w W p -> 19 <= p -> failed (finish checksum w) = true -> 8 * cap < p + 46.
Proof.
  intros H Hp F. destruct (adds_symbol cap w 256 ltac:(lia) W p H ltac:(lia)) as (W1 & H1 & _). change (fixed_word 256).2 with 7 in H1. pose proof (aligned_ge (p + 7)).
  destruct (flush_wrote cap _ _ _ H1) as [H2|[_ C]]; [|lia]. destruct (put_bytes_wrote cap (be_bytes 4 checksum) (be_bytes_bytes _ _) _ _ _ H2) as (_ & _ & [[_ C]|[HO _]]); [rewrite zlen_be_bytes in C; lia|].
  pose proof (ho_ok _ _ _ _ HO). unfold finish in F. congruence.
Qed.

(** Bytes at the end of what is written are the last bytes there. *)
Lemma last_bytes (data bs : list Z) W p : Forall is_byte data -> Forall is_byte bs -> zlen data = p + zlen bs -> 0 <= p -> 0 <= W < 2 ^ (8 * p) -> le_val data = W + le_val bs * 2 ^ (8 * p) ->
  drop (Z.to_nat p) data = bs.
Proof.
  intros FD FB L Hp HW E. pose proof (zlen_nonneg bs). pose proof (pow2_pos (8 * p) ltac:(lia)). assert (EV : le_val (drop (Z.to_nat p) data) = le_val bs) by (rewrite le_val_drop, E, Z.div_add, Z.div_small by (done || lia); lia).
  rewrite <- (le_bytes_le_val bs FB), <- EV, <- (le_bytes_le_val (drop (Z.to_nat p) data)) at 1 by (by apply Forall_drop). f_equal. rewrite length_drop. unfold zlen in *. lia.
Qed.

Lemma finish_wrote checksum w W p : wrote cap w W p -> 19 <= p -> failed (finish checksum w) = false ->
  exists n data, position (finish checksum w) = n /\ 0 <= n <= cap /\ zlen (out (finish checksum w)) = cap /\ data = firstn (Z.to_nat n) (out (finish checksum w))
    /\ Forall is_byte data /\ zlen data = aligned (p + 7) / 8 + 4 /\ drop (length data - 4) data = be_bytes 4 checksum
    /\ extends (le_val data) W p /\ code_at fixed_lengths (le_val data / 2 ^ 16) (p - 16) 256 (p + 7 - 16).
Proof.
  intros H Hp F. destruct (adds_symbol cap w 256 ltac:(lia) W p H ltac:(lia)) as (W1 & H1 & X1). change (fixed_word 256).2 with 7 in *. destruct (flush_wrote cap _ _ _ H1) as [H2|[C _]].
  2: { assert (FF : forall bs w, failed w = true -> failed (foldl (fun w byte => put byte 8 w) w bs) = true) by (induction bs; cbn [foldl]; [done | intros; by apply IHbs, put_loop_failed]). unfold finish in F. by rewrite FF in F. }
  pose proof (put_bytes_wrote cap (be_bytes 4 checksum) (be_bytes_bytes _ _) _ _ _ H2) as H3. fold (finish checksum w) in H3. rewrite zlen_be_bytes in H3. change (Z.of_nat 4) with 4 in H3.
  set (q := aligned (p + 7) / 8) in *. assert (EQ : aligned (p + 7) = 8 * q) by (unfold q; destruct (aligned_bytes (p + 7)) as [E1 E2]; lia). rewrite EQ in *. pose proof (aligned_ge (p + 7)) as AG. rewrite EQ in AG. replace (8 * q + 8 * 4) with (8 * (q + 4)) in H3 by lia.
  destruct (wrote_bytes _ _ _ H3 F) as (EP & HN & HC & FB & EW). exists (q + 4), (firstn (Z.to_nat (q + 4)) (out (finish checksum w))). set (data := firstn _ _) in *.
  assert (LD : zlen data = q + 4) by (unfold data, zlen in *; rewrite length_firstn; lia). destruct H2 as (_ & R1 & _). repeat (split; [done|]). replace (p + 7 - 16) with (p - 16 + 7) by lia. split; [|apply X1].
  - replace (length data - 4)%nat with (Z.to_nat q) by (unfold zlen in *; lia). apply (last_bytes data _ W1 q); [done | apply be_bytes_bytes | rewrite zlen_be_bytes; lia | lia | done | done].
  - replace (8 * q) with (p + 7 + (8 * q - (p + 7))) in * by lia. destruct H1 as (_ & R0 & _). rewrite <- EW.
    apply (extends_less _ _ _ (8 * q - (p + 7))); [lia | lia | done|]. unfold extends. rewrite Z.mod_add by (pose proof (pow2_pos (p + 7 + (8 * q - (p + 7))) ltac:(lia)); lia). by apply Z.mod_small.
Qed.

Lemma stream_made data p : Forall is_byte data -> extends (le_val data) 236664 19 -> 19 <= p -> token [] input (p - 19) (le_val data / 2 ^ 16) 3 -> code_at fixed_lengths (le_val data / 2 ^ 16) (p - 16) 256 (p + 7 - 16) ->
  zlen data = aligned (p + 7) / 8 + 4 -> drop (length data - 4) data = be_bytes 4 (adler input) -> zlib_stream data input.
Proof.
  intros FB X Hp T C L A. set (s := le_val data) in *. assert (Z0 : forall i k, 0 <= i -> 0 <= k -> i + k <= 19 -> field s i k = field 236664 i k).
  { intros i k Hi Hk H. apply (bits_equal _ _ k); [lia | apply field_range; lia | apply field_range; lia|]. intros j Hj. rewrite !field_testbit by lia. unfold extends in X. rewrite <- X. by rewrite Z.mod_pow2_bits_low by lia. }
  assert (B0 : zat data 0 = 120) by (rewrite <- le_val_byte by (done || lia); by rewrite Z0 by lia). assert (B1 : zat data 1 = 156) by (rewrite <- le_val_byte by (done || lia); by rewrite Z0 by lia).
  split; rewrite ?B0, ?B1; try done. exists (p + 7 - 16). pose proof (proj2 (aligned_bytes (p + 7))) as AB. pose proof (Z.div_mod (p + 7 + 7) 8 ltac:(lia)). pose proof (Z.mod_pos_bound (p + 7 + 7) 8 ltac:(lia)).
  split; [rewrite (le_val_drop 2) by (done || lia)|].
  2: { replace (p + 7 - 16 + 7) with (p + 7 + 7 + (-2) * 8) by lia. rewrite Z.div_add by lia. lia. }
  fold s. change (8 * 2) with 16.
  apply blocks_last; [change 0 with (16 - 16) at 1; rewrite field_body by lia; by rewrite Z0 by lia|]. replace (field (s / 2 ^ 16) (0 + 1) 2) with 1 by (change (0 + 1) with (17 - 16); rewrite field_body by lia; by rewrite Z0 by lia).
  apply block_fixed. change (0 + 3) with 3. apply T. replace (3 + (p - 19)) with (p - 16) by lia. by apply tokens_end.
Qed.

(** After the header, with empty tables. *)
Definition compress_rest (table : list Z) (w : bit_writer) : result (list Z * Z) :=
  w ← compress_loop (S (length input)) input table table 0 w;
  let w := flush (put_symbol 256 w) in
  checksum ← lift (Inflate.Kernel.adler32 input);
  let w := foldl (fun w byte => put byte 8 w) w (be_bytes 4 checksum) in
  if failed w then Err TooSmall else Ok (out w, position w).

Lemma compress_rest_stream table w : entries 0 table -> wrote cap w 236664 19 ->
  match compress_rest table w with
  | Ok (o, n) => zlen o = cap /\ 0 <= n <= cap /\ zlib_stream (firstn (Z.to_nat n) o) input
  | Err _ => 8 * cap < 9 * len + 65
  | _ => False
  end.
Proof.
  intros EZ W3. unfold compress_rest.
  pose proof (compress_loop_wrote (S (length input)) table table 0 w _ _ EZ EZ ltac:(pose proof (zlen_nonneg input); lia) ltac:(unfold zlen; lia) W3 ltac:(lia)) as LP.
  destruct (compress_loop _ _ _ _ _ _) as [w'|e| |]; [|cbn; lia | done..]. rewrite ok_bind. destruct LP as (W' & p' & HW & Hp & X). destruct (adler32_exact input bytes) as [-> _]. unfold lift. rewrite ok_bind. change (foldl _ (flush (put_symbol 256 w')) _) with (finish (adler input) w'). cbv zeta.
  destruct (failed (finish (adler input) w')) eqn:F; [pose proof (finish_failed _ _ _ _ HW ltac:(lia) F); lia|]. destruct (finish_wrote _ _ _ _ HW ltac:(lia) F) as (n & data & -> & HN & HC & ED & FB & LD & AD & XD & CD).
  split; [done|]. split; [done|]. rewrite <- ED. destruct (X _ XD) as [X0 T]. exact (stream_made data p' FB X0 ltac:(lia) T CD LD AD).
Qed.

Lemma header_wrote : wrote cap (put 1 2 (put 1 1 (put 156 8 (put 120 8 (BitWriter output 0 0 0 false))))) 236664 19.
Proof.
  assert (W0 : wrote cap (BitWriter output 0 0 0 false) 0 0).
  { split; [lia|]. split; [split; [lia | reflexivity]|]. right. split; [|reflexivity]. split; cbn [Kernel.out position count buffer failed]; pose proof (zlen_nonneg output); try (done || lia); constructor. }
  assert (W1 := put_wrote cap _ _ _ 120 8 W0 ltac:(lia) ltac:(lia)). assert (W2 := put_wrote cap _ _ _ 156 8 W1 ltac:(lia) ltac:(lia)). assert (W3 := put_wrote cap _ _ _ 1 1 W2 ltac:(lia) ltac:(lia)). exact (put_wrote cap _ _ _ 1 2 W3 ltac:(lia) ltac:(lia)).
Qed.

Lemma zlib_compress_parts : zlib_compress input output = compress_rest (zeros 32768) (put 1 2 (put 1 1 (put 156 8 (put 120 8 (BitWriter output 0 0 0 false))))).
Proof. unfold zlib_compress, compress_rest, WINDOW. reflexivity. Qed.

Lemma zlib_compress_stream :
  match zlib_compress input output with
  | Ok (o, n) => zlen o = cap /\ 0 <= n <= cap /\ zlib_stream (firstn (Z.to_nat n) o) input
  | Err _ => 8 * cap < 9 * len + 65
  | _ => False
  end.
Proof. rewrite zlib_compress_parts. apply compress_rest_stream; [apply entries_zeros; lia | apply header_wrote]. Qed.
End compressing.

(** C4: [zlib_compress] never panics and gives the only error it has when the output
    is too short: not when there are nine bits for a byte of the input and 65
    more. What it writes is a zlib stream of the input, which [zlib_decompress]
    turns back into it. *)
Theorem compress_decompress input output buf : Forall is_byte input -> zlen input < 4294967296 -> zlen input <= zlen buf ->
  match zlib_compress input output with
  | Ok (o, n) =>
      zlen o = zlen output /\ 0 <= n <= zlen o /\ zlib_stream (firstn (Z.to_nat n) o) input
      /\ Inflate.Kernel.zlib_decompress (firstn (Z.to_nat n) o) buf = Ok (filled buf input, zlen input)
  | Err TooSmall => 8 * zlen output < 9 * zlen input + 65
  | Panic | Unfinished => False
  end.
Proof.
  intros B S L. pose proof (zlib_compress_stream input output B S) as H. destruct (zlib_compress input output) as [[o n]|[]| |]; [|done..].
  destruct H as (H1 & H2 & H3). repeat (split; [done || lia|]). by apply zlib_decompress_stream.
Qed.

(** Nine bytes with a match among them. *)
Lemma compress_decompress_witness :
  let abc := [97; 98; 99; 97; 98; 99; 97; 98; 99] in
  exists o n, zlib_compress abc (zeros 20) = Ok (o, n) /\ n = 12 /\ Inflate.Kernel.zlib_decompress (firstn (Z.to_nat n) o) (zeros 9) = Ok (abc, 9).
Proof.
  intros abc. pose proof (compress_decompress abc (zeros 20) (zeros 9) ltac:(repeat (constructor; [unfold is_byte; lia|]); constructor) ltac:(reflexivity) ltac:(discriminate)) as H.
  assert (E : zlib_compress abc (zeros 20) = Ok ([120; 156; 75; 76; 74; 134; 32; 0; 17; 61; 3; 115] ++ zeros 8, 12)) by (vm_compute; reflexivity).
  rewrite E in H. do 2 eexists. split; [exact E|]. split; [reflexivity | exact (proj2 (proj2 (proj2 H)))].
Defined.
