(* ===== verification/Pkg.v ===== *)
(** Packages: the host builder (tools/aeros-pkg.py, tools/make-pkg-vectors.py)
    and the kernel's reader (kernel/src/pkg.rs). *)
From Stdlib Require Import ZArith Lia List.
From stdpp Require Import base list strings.
From S2P Require Import Prelude Text Hash.
Open Scope Z_scope.

Definition alnum (c : Z) : bool := between 48 c 57 || between 65 c 90 || between 97 c 122.

Definition newline : Z := 10.
Definition marker : list Z := newline :: lit "data" ++ [newline].

(** The fields of one [file=] line: path, mode, size, digest in hex. *)
Definition file_line (path : list Z) (mode size : Z) (digest : list Z) : list Z :=
  lit "file=" ++ path ++ lit ";" ++ to_base 8 mode ++ lit ";" ++ to_base 10 size ++ lit ";" ++ digest.

(** * tools/aeros-pkg.py *)

Module Builder.
Definition MAX_FILES : Z := 16.
Definition MAX_FILE : Z := Z.shiftl 1 20.

(** What [os.walk] sees: names in directory order. *)
#[warnings="-register-all"]
Inductive node : Type :=
| NFile (content : list Z)
| NDir (entries : list (list Z * node)).

Definition file_names (es : list (list Z * node)) : list (list Z * list Z) :=
  omap (fun e => match e.2 with NFile c => Some (e.1, c) | NDir _ => None end) es.

(** The loop over [os.walk(directory)]: the files of a directory by sorted
    name, then its subdirectories; [pre] is the directory relative to the
    top, with a trailing slash when not empty. *)
Fixpoint walk (pre : list Z) (n : node) : list (list Z * list Z) :=
  match n with
  | NFile _ => []
  | NDir es =>
      ((fun e => (pre ++ e.1, e.2)) <$> sort_by (fun a b => str_leb a.1 b.1) (file_names es))
      ++ (fix dirs (es : list (list Z * node)) :=
            match es with
            | [] => []
            | (nm, sub) :: es =>
                match sub with
                | NDir _ => walk (pre ++ nm ++ lit "/") sub ++ dirs es
                | NFile _ => dirs es
                end
            end) es
  end.

(** [files] after [files.sort()]; paths are distinct, so the order of the
    pairs is the order of their first components. *)
Definition files (tree : node) : list (list Z * list Z) :=
  sort_by (fun a b => str_leb a.1 b.1) (walk [] tree).

Definition name_ok (s : list Z) : bool :=
  (1 <=? zlen s) && (zlen s <=? 24) && forallb (fun c => alnum c || (c =? 95) || (c =? 45)) s.
Definition version_ok (s : list Z) : bool :=
  (1 <=? zlen s) && (zlen s <=? 16)
  && forallb (fun c => alnum c || (c =? 46) || (c =? 95) || (c =? 45)) s.

Definition unsupported (relative : list Z) : bool :=
  (96 <? zlen relative) || (8 <=? count_char 47 relative) || existsb (Z.eqb 59) relative.

Definition mode_of (relative : list Z) : Z :=
  if starts_with (lit "bin/") relative then 493 else 420.

(** One turn of the loop over [files]. *)
Definition add_file (st : list (list Z) * list Z) (f : list Z * list Z)
  : py (list (list Z) * list Z) :=
  let '(lines, data) := st in
  let '(relative, content) := f in
  if unsupported relative then Raise (SystemExit (lit "unsupported path: " ++ relative))
  else if MAX_FILE <? zlen content
  then Raise (SystemExit (relative ++ lit " is larger than 1 MiB"))
  else Ret (lines ++ [file_line relative (mode_of relative) (zlen content) (Sha256.hexdigest content)],
            data ++ content).

Definition build (name version : list Z) (tree : node) : py (list Z) :=
  if negb (name_ok name)
  then Raise (SystemExit (lit "name must be 1-24 letters, digits, - or _"))
  else if negb (version_ok version)
  then Raise (SystemExit (lit "version must be 1-16 letters, digits, . - or _"))
  else
    let files := files tree in
    if negb ((0 <? zlen files) && (zlen files <=? MAX_FILES))
    then Raise (SystemExit (lit "a package needs between 1 and 16 files"))
    else
      '(lines, data) ← foldM add_file
         ([lit "AEROSPKG1"; lit "name=" ++ name; lit "version=" ++ version], []) files;
      header ← encode (join newline lines ++ marker);
      Ret (header ++ data).
End Builder.

(** * tools/make-pkg-vectors.py *)

Module Vectors.
Definition add_file (claimed_hash : option (list Z)) (claimed_size : option Z)
    (st : list (list Z) * list Z) (f : list Z * Z * list Z) : list (list Z) * list Z :=
  let '(lines, data) := st in
  let '(path, mode, content) := f in
  let digest := match claimed_hash with
                | Some ((_ :: _) as h) => h
                | _ => Sha256.hexdigest content
                end in
  let size := match claimed_size with Some n => n | None => zlen content end in
  (lines ++ [file_line path mode size digest], data ++ content).

Definition build (name version : list Z) (files : list (list Z * Z * list Z))
    (claimed_hash : option (list Z)) (claimed_size : option Z) : py (list Z) :=
  let '(lines, data) := foldl (add_file claimed_hash claimed_size)
    ([lit "AEROSPKG1"; lit "name=" ++ name; lit "version=" ++ version], []) files in
  header ← encode (join newline lines ++ marker);
  Ret (header ++ data).

Definition HELLO_V2 : list Z := lit "#!aeros" ++ [10] ++ lit "echo hello v2" ++ [10].
Definition HELLO_V3 : list Z := lit "#!aeros" ++ [10] ++ lit "echo hello v3" ++ [10].
Definition README_V2 : list Z := lit "demo package 1.1.0" ++ [10].
Definition README_V3 : list Z := lit "demo package 1.2.0" ++ [10].

Definition demo (version : string) (hello readme : list Z) : py (list Z) :=
  build (lit "demo") (lit version)
    [(lit "bin/hello", 493, hello); (lit "share/doc/readme.txt", 420, readme)] None None.

Definition v2 := demo "1.1.0" HELLO_V2 README_V2.
Definition v3 := demo "1.2.0" HELLO_V3 README_V3.
Definition bad_hash := build (lit "bad") (lit "9.0.0") [(lit "bin/x", 493, lit "payload")]
  (Some (replicate 64 48)) None.
Definition traversal := build (lit "evil") (lit "1.0.0") [(lit "../escape", 420, lit "x")] None None.
Definition truncated := build (lit "short") (lit "1.0.0") [(lit "bin/x", 493, lit "payload")]
  None (Some 500).
Definition update_image : list Z := (fun i => Z.land (i * 37 + 11) 255) <$> pyrange 0 3000.

(** [", ".join(str(byte) for byte in data)] inside the Rust constant. *)
Fixpoint comma_bytes (data : list Z) : list Z :=
  match data with
  | [] => []
  | [b] => to_base 10 b
  | b :: data => to_base 10 b ++ lit ", " ++ comma_bytes data
  end.
Definition rust_bytes (name data kind : list Z) : list Z :=
  lit "pub const " ++ name ++ lit ": " ++ kind ++ lit " = &[" ++ comma_bytes data ++ lit "];" ++ [10].
End Vectors.

(** * kernel/src/pkg.rs *)

Module Kernel.
(** The failures the reading of a package can end in. *)
Inductive failure : Type := Malformed | BadName | BadPath | TooLarge | HashMismatch.

#[export] Instance failure_bind : MBind (sum failure) := fun A B f m =>
  match m with inr a => f a | inl e => inl e end.

Definition MAX_FILES : Z := 16.
Definition MAX_HEADER : Z := 2048.
Definition FILE_MAX : Z := Z.shiftl 1 20.

Definition need {A} (e : failure) (o : option A) : failure + A :=
  match o with Some a => inr a | None => inl e end.

Definition isSome {A} (o : option A) : bool := match o with Some _ => true | None => false end.

Definition name_valid (text : list Z) (limit : Z) (extra : list Z) : bool :=
  negb (zlen text =? 0) && (zlen text <=? limit)
  && forallb (fun c => alnum c || existsb (Z.eqb c) extra) text.

Definition part_valid (part : list Z) : bool :=
  negb (zlen part =? 0) && negb (zeqb_list part (lit ".")) && negb (zeqb_list part (lit ".."))
  && forallb (fun c => between 33 c 126 && negb (c =? 59)) part.

Definition path_valid (text : list Z) : bool :=
  if (zlen text =? 0) || (96 <? zlen text) || starts_with (lit "/") text then false
  else (zlen (split 47 text) <=? 8) && forallb part_valid (split 47 text).

Record entry := Entry { path : list Z; mode : Z; size : Z; hash : list Z }.

(** kernel/src/ed25519.rs [decode_hex::<32>]. *)
Definition hex_digit (c : Z) : option Z :=
  if between 48 c 57 then Some (c - 48)
  else if between 97 c 102 then Some (c - 97 + 10)
  else if between 65 c 70 then Some (c - 65 + 10)
  else None.
Fixpoint hex_pairs (l : list Z) : option (list Z) :=
  match l with
  | a :: b :: l =>
      x ← hex_digit a; y ← hex_digit b; r ← hex_pairs l; Some (Z.lor (Z.shiftl x 4) y :: r)
  | _ => Some []
  end.
Definition decode_hex (n : Z) (text : list Z) : option (list Z) :=
  if zlen text =? n * 2 then hex_pairs text else None.

Definition parse_entry (spec : list Z) : failure + entry :=
  match split 59 spec with
  | [p; m; s; h] =>
      if negb (path_valid p) then inl BadPath
      else
        m ← need Malformed (parse_uint 8 65535 m);
        s ← need Malformed (parse_uint 10 (2 ^ 64 - 1) s);
        if 511 <? m then inl Malformed
        else if FILE_MAX <? s then inl TooLarge
        else h ← need Malformed (decode_hex 32 h); inr (Entry p m s h)
  | _ => inl Malformed
  end.

Record header := Header {
  name : option (list Z);
  version : option (list Z);
  entries : list entry;
  data_start : Z
}.

Definition header_line (h : header) (line : list Z) : failure + header :=
  match strip_prefix (lit "name=") line with
  | Some n =>
      if isSome (name h) || negb (name_valid n 24 [45; 95]) then inl BadName
      else inr (Header (Some n) (version h) (entries h) (data_start h))
  | None =>
  match strip_prefix (lit "version=") line with
  | Some v =>
      if isSome (version h) || negb (name_valid v 16 [46; 45; 95]) then inl BadName
      else inr (Header (name h) (Some v) (entries h) (data_start h))
  | None =>
  match strip_prefix (lit "file=") line with
  | Some spec =>
      if zlen (entries h) =? MAX_FILES then inl TooLarge
      else e ← parse_entry spec;
           inr (Header (name h) (version h) (entries h ++ [e]) (data_start h))
  | None => inl Malformed
  end end end.

Fixpoint header_lines (h : header) (lines : list (list Z)) : failure + header :=
  match lines with
  | [] => inr h
  | l :: ls => h' ← header_line h l; header_lines h' ls
  end.

(** [raw] is what was read of the package, at most [MAX_HEADER] bytes. *)
Definition parse_header (raw : list Z) : failure + header :=
  e ← need Malformed (find_sub marker raw);
  let text := take e raw in
  if negb (utf8_valid text) then inl Malformed
  else match split newline text with
  | magic :: lines =>
      if negb (zeqb_list magic (lit "AEROSPKG1")) then inl Malformed
      else
        h ← header_lines (Header None None [] (Z.of_nat e + zlen marker)) lines;
        match name h, version h, entries h with
        | Some _, Some _, _ :: _ => inr h
        | _, _, _ => inl Malformed
        end
  | [] => inl Malformed
  end.

(** The size check of [install]. *)
Definition total (es : list entry) : Z := foldr (fun e n => size e + n) 0 es.
Definition read_header (package : list Z) : failure + header :=
  h ← parse_header (pyslice package 0 MAX_HEADER);
  if zlen package =? data_start h + total (entries h) then inr h else inl Malformed.

(** [copy_files]/[copy_one]: the bytes of each entry, checked against its hash. *)
Fixpoint copy_files (package : list Z) (offset : Z) (es : list entry)
  : failure + list (list Z * Z * list Z) :=
  match es with
  | [] => inr []
  | e :: es =>
      let content := pyslice package offset (offset + size e) in
      if zeqb_list (Sha256.digest content) (hash e)
      then r ← copy_files package (offset + size e) es; inr ((path e, mode e, content) :: r)
      else inl HashMismatch
  end.

(** The part of [install] between the signature check and the bookkeeping: the
    header, the size check and the copies, on a file system that takes every
    write. *)
Definition read_package (package : list Z) : failure + (header * list (list Z * Z * list Z)) :=
  h ← read_header package;
  fs ← copy_files package (data_start h) (entries h);
  inr (h, fs).
End Kernel.

(** * Lemmas *)

Lemma name_ok_valid s : Builder.name_ok s = Kernel.name_valid s 24 [45; 95].
Proof.
  unfold Builder.name_ok, Kernel.name_valid. f_equal.
  - f_equal. pose proof (zlen_nonneg s). zcase; simpl; lia.
  - apply forallb_ext_eq. intros c. simpl. by destruct (alnum c), (c =? 95), (c =? 45).
Qed.

Lemma version_ok_valid s : Builder.version_ok s = Kernel.name_valid s 16 [46; 45; 95].
Proof.
  unfold Builder.version_ok, Kernel.name_valid. f_equal.
  - f_equal. pose proof (zlen_nonneg s). zcase; simpl; lia.
  - apply forallb_ext_eq. intros c. simpl. by destruct (alnum c), (c =? 46), (c =? 95), (c =? 45).
Qed.

(** Characters that are printable ASCII, not a space and not [';']. *)
Definition plain (c : Z) : Prop := 33 <= c <= 126 /\ c <> 59.

Lemma plain_ascii l : Forall plain l -> Forall is_ascii l.
Proof. intros H. eapply Forall_impl; [exact H|]. unfold plain, is_ascii. lia. Qed.

Lemma plain_no c l : Forall plain l -> c < 33 \/ c = 59 -> c ∉ l.
Proof.
  intros H Hc Hin. rewrite Forall_forall in H. apply H in Hin. unfold plain in Hin. lia.
Qed.

Lemma in_split sep c l : c ∈ l -> c = sep \/ exists p, p ∈ split sep l /\ c ∈ p.
Proof.
  induction l as [|x l IH]; intros H; [by apply not_elem_of_nil in H|].
  simpl. destruct (split sep l) as [|p ps] eqn:E; [by destruct (split_nonempty sep l)|].
  apply elem_of_cons in H as [->|H].
  - destruct (Z.eqb_spec x sep); [by left|]. right. exists (x :: p).
    split; [apply list_elem_of_here | apply list_elem_of_here].
  - destruct (IH H) as [->|(q & Hq & Hc)]; [by left|]. right.
    destruct (x =? sep).
    + exists q. split; [by apply list_elem_of_further | done].
    + apply elem_of_cons in Hq as [->|Hq].
      * exists (x :: p). split; [apply list_elem_of_here | by apply list_elem_of_further].
      * exists q. split; [by apply list_elem_of_further | done].
Qed.

Lemma path_valid_plain p : Kernel.path_valid p = true -> Forall plain p.
Proof.
  unfold Kernel.path_valid. destruct (_ || _); [done|]. intros H. bool_to_prop.
  rewrite forallb_Forall, Forall_forall in H0. apply Forall_forall. intros c Hc.
  destruct (in_split 47 c p Hc) as [->|(q & Hq & Hcq)]; [unfold plain; lia|].
  specialize (H0 q Hq). unfold Kernel.part_valid in H0. bool_to_prop.
  match goal with H : forallb _ q = true |- _ => rewrite forallb_forall in H;
    specialize (H c (proj1 (list_elem_of_In _ _) Hcq)) end.
  unfold between in *. bool_to_prop. unfold plain. lia.
Qed.

Lemma alnum_plain c : alnum c = true -> plain c.
Proof. unfold alnum, between, plain. intros H. repeat rewrite orb_true_iff in H. lia. Qed.

Lemma name_valid_plain s n extra :
  Forall plain extra -> Kernel.name_valid s n extra = true -> Forall plain s.
Proof.
  intros He H. unfold Kernel.name_valid in H. bool_to_prop.
  rewrite forallb_Forall in *. eapply Forall_impl; [eassumption|].
  intros c Hc. apply orb_true_iff in Hc as [Hc|Hc]; [by apply alnum_plain|].
  apply existsb_exists in Hc as (x & Hx & E). bool_to_prop. subst.
  rewrite Forall_forall in He. by apply He, list_elem_of_In.
Qed.

Lemma digit_char_plain d : 0 <= d < 36 -> plain (digit_char d).
Proof. intros. pose proof (digit_char_range d ltac:(lia)). unfold plain. lia. Qed.

Lemma to_base_plain b n : 2 <= b <= 36 -> 0 <= n -> Forall plain (to_base b n).
Proof.
  intros. unfold to_base. rewrite Forall_fmap.
  eapply Forall_impl; [apply digits_bound; lia|]. intros d Hd. simpl in Hd. apply digit_char_plain. lia.
Qed.

Lemma hex_plain l : Forall is_byte l -> Forall plain (hex l).
Proof.
  intros H. unfold hex. apply Forall_concat. rewrite Forall_fmap.
  eapply Forall_impl; [exact H|]. intros b Hb. unfold is_byte in Hb. unfold hex2. simpl.
  assert (0 <= b / 16 < 16) by (split; [apply Z.div_pos | apply Z.div_lt_upper_bound]; lia).
  pose proof (Z.mod_pos_bound b 16 ltac:(lia)).
  repeat constructor; apply digit_char_plain; lia.
Qed.

Lemma hex2_decodes b : is_byte b ->
  (x ← Kernel.hex_digit (digit_char (b / 16)); y ← Kernel.hex_digit (digit_char (b mod 16));
   Some (Z.lor (Z.shiftl x 4) y)) = Some b.
Proof.
  revert b.
  enough (E : forallb (fun b =>
    match (x ← Kernel.hex_digit (digit_char (b / 16)); y ← Kernel.hex_digit (digit_char (b mod 16));
           Some (Z.lor (Z.shiftl x 4) y)) with Some c => c =? b | None => false end)
    (pyrange 0 256) = true).
  - intros b Hb. pose proof (byte_cases _ E b Hb) as H. cbv beta in H.
    destruct (_ ≫= _) as [c|]; [|done]. bool_to_prop. by subst.
  - vm_compute. reflexivity.
Qed.

Lemma hex_pairs_hex l : Forall is_byte l -> Kernel.hex_pairs (hex l) = Some l.
Proof.
  induction 1 as [|b l Hb Hl IH]; [done|].
  unfold hex in *. rewrite fmap_cons, concat_cons. unfold hex2 at 1. simpl.
  pose proof (hex2_decodes b Hb) as E.
  destruct (Kernel.hex_digit (digit_char (b / 16))); [|done]. simpl in *.
  destruct (Kernel.hex_digit (digit_char (b mod 16))); [|done]. simpl in *.
  rewrite IH. simpl. congruence.
Qed.

Lemma zlen_hex l : zlen (hex l) = 2 * zlen l.
Proof.
  induction l as [|b l IH]; [done|]. unfold hex in *.
  rewrite fmap_cons, concat_cons, zlen_app, IH, zlen_cons. unfold hex2, zlen. simpl. lia.
Qed.

Lemma decode_hex_digest c : Kernel.decode_hex 32 (Sha256.hexdigest c) = Some (Sha256.digest c).
Proof.
  unfold Kernel.decode_hex, Sha256.hexdigest. rewrite zlen_hex, digest_length. simpl.
  apply hex_pairs_hex, digest_bytes.
Qed.

Lemma split_fields p m s h :
  59 ∉ p -> 59 ∉ m -> 59 ∉ s -> 59 ∉ h ->
  split 59 (p ++ lit ";" ++ m ++ lit ";" ++ s ++ lit ";" ++ h) = [p; m; s; h].
Proof.
  intros. change (lit ";") with [59]. simpl.
  rewrite !split_cons_sep by done. by rewrite split_no_sep.
Qed.

(** The kernel reads back the fields of a [file=] line it accepts. *)
Lemma parse_entry_line path mode content :
  Kernel.path_valid path = true -> 0 <= mode <= 511 -> zlen content <= Kernel.FILE_MAX ->
  Kernel.parse_entry (path ++ lit ";" ++ to_base 8 mode ++ lit ";" ++ to_base 10 (zlen content)
                      ++ lit ";" ++ Sha256.hexdigest content)
  = inr (Kernel.Entry path mode (zlen content) (Sha256.digest content)).
Proof.
  intros Hp Hm Hs. pose proof (zlen_nonneg content) as Hn.
  unfold Kernel.parse_entry. rewrite split_fields.
  - rewrite Hp. simpl negb. cbv iota.
    change Kernel.FILE_MAX with 1048576 in *.
    rewrite (parse_uint_to_base 8 65535 mode) by lia.
    rewrite (parse_uint_to_base 10 _ (zlen content)) by lia. simpl.
    destruct (Z.ltb_spec 511 mode); [lia|].
    destruct (Z.ltb_spec 1048576 (zlen content)); [lia|].
    by rewrite decode_hex_digest.
  - eapply plain_no; [by apply path_valid_plain | lia].
  - eapply plain_no; [apply to_base_plain; lia | lia].
  - eapply plain_no; [apply to_base_plain; lia | lia].
  - eapply plain_no; [apply hex_plain, digest_bytes | lia].
Qed.

Definition built_line (f : list Z * list Z) : list Z :=
  file_line f.1 (Builder.mode_of f.1) (zlen f.2) (Sha256.hexdigest f.2).
Definition built_entry (f : list Z * list Z) : Kernel.entry :=
  Kernel.Entry f.1 (Builder.mode_of f.1) (zlen f.2) (Sha256.digest f.2).

Lemma mode_of_bound r : 0 <= Builder.mode_of r <= 511.
Proof. unfold Builder.mode_of. destruct (starts_with _ _); lia. Qed.

(** What the builder's loop has accumulated when it does not exit. *)
Lemma add_files_ret fs ls d ls' d' :
  foldM Builder.add_file (ls, d) fs = Ret (ls', d') ->
  ls' = ls ++ (built_line <$> fs) /\ d' = d ++ concat (snd <$> fs)
  /\ Forall (fun f => zlen f.2 <= Builder.MAX_FILE) fs.
Proof.
  revert ls d. induction fs as [|[r c] fs IH]; intros ls d H.
  - simpl in *. injection H as <- <-. by rewrite !app_nil_r.
  - simpl in H. apply bind_ret_inv in H as ([ls1 d1] & H1 & H2).
    destruct (Builder.unsupported r); [done|].
    destruct (Z.ltb_spec Builder.MAX_FILE (zlen c)); [done|].
    injection H1 as <- <-. apply IH in H2 as (-> & -> & Hf).
    rewrite !fmap_cons, concat_cons, <- !app_assoc. repeat split; auto.
Qed.

Lemma header_lines_files h fs :
  Forall (fun f => Kernel.path_valid f.1 = true) fs ->
  Forall (fun f => zlen f.2 <= Builder.MAX_FILE) fs ->
  zlen (Kernel.entries h) + zlen fs <= 16 ->
  Kernel.header_lines h (built_line <$> fs) =
  inr (Kernel.Header (Kernel.name h) (Kernel.version h)
         (Kernel.entries h ++ (built_entry <$> fs)) (Kernel.data_start h)).
Proof.
  revert h. induction fs as [|f fs IH]; intros h Hp Hs Hn.
  - simpl. destruct h. by rewrite app_nil_r.
  - inversion Hp; inversion Hs; subst. rewrite fmap_cons. cbn [Kernel.header_lines].
    rewrite zlen_cons in Hn. pose proof (zlen_nonneg fs).
    assert (Kernel.header_line h (built_line f) =
      inr (Kernel.Header (Kernel.name h) (Kernel.version h)
             (Kernel.entries h ++ [built_entry f]) (Kernel.data_start h))) as ->.
    { unfold Kernel.header_line, built_line, file_line.
      change (strip_prefix (lit "name=") (lit "file=" ++ ?x)) with (@None (list Z)).
      change (strip_prefix (lit "version=") (lit "file=" ++ ?x)) with (@None (list Z)).
      rewrite strip_prefix_app. cbv iota. change Kernel.MAX_FILES with 16.
      destruct (Z.eqb_spec (zlen (Kernel.entries h)) 16); [lia|].
      by rewrite parse_entry_line by auto using mode_of_bound. }
    simpl. rewrite IH by (simpl; rewrite ?zlen_app, ?zlen_cons, ?zlen_nil; auto with lia).
    simpl. by rewrite <- app_assoc.
Qed.

(** Where the data marker is found in a header of lines that hold no newline
    and are not the line [data] (none starts with ['d']). *)
Lemma find_marker ls rest :
  ls <> [] -> Forall (fun l => newline ∉ l) ls ->
  Forall (fun l => starts_with (lit "d") l = false) (tail ls) ->
  find_sub marker (join newline ls ++ marker ++ rest) = Some (length (join newline ls)).
Proof.
  intros Hne Hnl. induction Hnl as [|l ls Hl Hls IH]; [done|]. intros Hd. simpl in Hd.
  destruct ls as [|l' ls].
  - cbn [join]. unfold marker at 1. rewrite find_sub_skip by done.
    fold marker. rewrite find_sub_hit. simpl. f_equal. lia.
  - rewrite join_cons by done. rewrite <- app_assoc. unfold marker at 1.
    rewrite find_sub_skip by done. cbn [app].
    inversion Hd as [|? ? Hd1 Hd2]; subst.
    rewrite find_sub_miss.
    + fold marker. rewrite IH by done. simpl. f_equal.
      rewrite length_app. simpl. lia.
    + clear -Hd1. change (lit "data" ++ [newline]) with [100; 97; 116; 97; 10].
      change (lit "d") with [100] in Hd1.
      assert (Hc : forall c t, l' = c :: t -> 100 <> c).
      { intros c t -> E. cbn [starts_with] in Hd1. subst c. done. }
      destruct l' as [|c l'], ls as [|l'' ls];
        (apply (starts_with_hd 100 _ newline) || apply (starts_with_hd 100 _ c));
        done || by eapply Hc.
Qed.

Definition header_text (name version : list Z) (fs : list (list Z * list Z)) : list (list Z) :=
  [lit "AEROSPKG1"; lit "name=" ++ name; lit "version=" ++ version] ++ (built_line <$> fs).

Lemma plain_lit_check s :
  forallb (fun c => between 33 c 126 && negb (c =? 59)) (lit s) = true -> Forall plain (lit s).
Proof.
  intros H. apply forallb_Forall in H. eapply Forall_impl; [exact H|].
  intros c Hc. simpl in Hc. unfold between, plain in *. bool_to_prop. lia.
Qed.

(** Printable ASCII without spaces: what every header line is made of. *)
Definition printable (c : Z) : Prop := 33 <= c <= 126.

Lemma plain_printable l : Forall plain l -> Forall printable l.
Proof. intros H. eapply Forall_impl; [exact H|]. unfold plain, printable. lia. Qed.

Lemma printable_lit s : forallb (fun c => between 33 c 126) (lit s) = true -> Forall printable (lit s).
Proof.
  intros H. apply forallb_Forall in H. eapply Forall_impl; [exact H|].
  intros c Hc. simpl in Hc. unfold between, printable in *. bool_to_prop. lia.
Qed.

Lemma built_line_printable f : Kernel.path_valid f.1 = true -> Forall printable (built_line f).
Proof.
  intros H. unfold built_line, file_line. rewrite !Forall_app.
  pose proof (mode_of_bound f.1). pose proof (zlen_nonneg f.2).
  repeat split; try (apply printable_lit; reflexivity); apply plain_printable.
  - by apply path_valid_plain.
  - apply to_base_plain; lia.
  - apply to_base_plain; lia.
  - apply hex_plain, digest_bytes.
Qed.

Lemma header_text_printable name version fs :
  Builder.name_ok name = true -> Builder.version_ok version = true ->
  Forall (fun f => Kernel.path_valid f.1 = true) fs ->
  Forall (Forall printable) (header_text name version fs).
Proof.
  intros Hn Hv Hp. unfold header_text. apply Forall_app. split.
  - rewrite !Forall_cons. split; [apply printable_lit; reflexivity|].
    split; [|split; [|constructor]].
    + apply Forall_app. split; [apply printable_lit; reflexivity|]. apply plain_printable.
      rewrite name_ok_valid in Hn. eapply name_valid_plain; [|exact Hn].
      repeat constructor; unfold plain; lia.
    + apply Forall_app. split; [apply printable_lit; reflexivity|]. apply plain_printable.
      rewrite version_ok_valid in Hv. eapply name_valid_plain; [|exact Hv].
      repeat constructor; unfold plain; lia.
  - rewrite Forall_fmap. eapply Forall_impl; [exact Hp|]. intros f. apply built_line_printable.
Qed.

Lemma join_ascii ls : Forall (Forall printable) ls -> Forall is_ascii (join newline ls).
Proof.
  induction 1 as [|l ls Hl Hls IH]; [constructor|].
  assert (Forall is_ascii l)
    by (eapply Forall_impl; [exact Hl|]; unfold printable, is_ascii; lia).
  destruct ls as [|l' ls]; [done|]. rewrite join_cons by done.
  apply Forall_app. split; [done|]. constructor; [unfold is_ascii, newline; lia | done].
Qed.

(** The bytes of a package the builder writes. *)
Lemma build_shape name version tree blob :
  Builder.build name version tree = Ret blob ->
  Forall (fun f => Kernel.path_valid f.1 = true) (Builder.files tree) ->
  let fs := Builder.files tree in
  Builder.name_ok name = true /\ Builder.version_ok version = true /\ 0 < zlen fs <= 16
  /\ Forall (fun f => zlen f.2 <= Builder.MAX_FILE) fs
  /\ blob = join newline (header_text name version fs) ++ marker ++ concat (snd <$> fs).
Proof.
  intros H Hp fs. unfold Builder.build in H. fold fs in H, Hp.
  destruct (Builder.name_ok name) eqn:Hn; [|done].
  destruct (Builder.version_ok version) eqn:Hv; [|done]. simpl negb in H. cbv iota in H.
  destruct ((0 <? zlen fs) && (zlen fs <=? Builder.MAX_FILES)) eqn:Hc; [|done].
  simpl negb in H. cbv iota zeta in H.
  apply bind_ret_inv in H as ([ls d] & Hf & H). apply add_files_ret in Hf as (-> & -> & Hs).
  apply bind_ret_inv in H as (h & Hh & [= <-]). fold (header_text name version fs) in Hh.
  pose proof (header_text_printable name version fs Hn Hv Hp) as Ht.
  rewrite encode_ascii in Hh.
  - apply Ret_inj in Hh as <-. unfold Builder.MAX_FILES in Hc. bool_to_prop.
    repeat split; try (assumption || lia). by rewrite <- app_assoc.
  - apply Forall_app. split; [by apply join_ascii|].
    by apply ascii_check.
Qed.

Lemma printable_no_newline ls :
  Forall (Forall printable) ls -> Forall (fun l => newline ∉ l) ls.
Proof.
  intros H. eapply Forall_impl; [exact H|]. intros l Hl Hin.
  rewrite Forall_forall in Hl. apply Hl in Hin. unfold printable, newline in Hin. lia.
Qed.

Lemma header_text_tail name version fs :
  Forall (fun l => starts_with (lit "d") l = false) (tail (header_text name version fs)).
Proof.
  unfold header_text. simpl. repeat constructor.
  rewrite Forall_fmap. apply Forall_true. intros f. reflexivity.
Qed.

Lemma header_text_nonempty name version fs : header_text name version fs <> [].
Proof. done. Qed.

Lemma find_marker_built name version fs rest :
  Forall (Forall printable) (header_text name version fs) ->
  find_sub marker (join newline (header_text name version fs) ++ marker ++ rest)
  = Some (length (join newline (header_text name version fs))).
Proof.
  intros H. apply find_marker; [done | by apply printable_no_newline | apply header_text_tail].
Qed.

Lemma header_line_name h n :
  Kernel.name h = None -> Builder.name_ok n = true ->
  Kernel.header_line h (lit "name=" ++ n) =
  inr (Kernel.Header (Some n) (Kernel.version h) (Kernel.entries h) (Kernel.data_start h)).
Proof.
  intros E H. unfold Kernel.header_line. rewrite strip_prefix_app, E, <- name_ok_valid, H. done.
Qed.

Lemma header_line_version h v :
  Kernel.version h = None -> Builder.version_ok v = true ->
  Kernel.header_line h (lit "version=" ++ v) =
  inr (Kernel.Header (Kernel.name h) (Some v) (Kernel.entries h) (Kernel.data_start h)).
Proof.
  intros E H. unfold Kernel.header_line.
  change (strip_prefix (lit "name=") (lit "version=" ++ v)) with (@None (list Z)).
  rewrite strip_prefix_app, E, <- version_ok_valid, H. done.
Qed.

(** Parsing a header the builder wrote, whatever follows the marker. *)
Lemma parse_header_built name version fs rest :
  Builder.name_ok name = true -> Builder.version_ok version = true ->
  0 < zlen fs <= 16 ->
  Forall (fun f => Kernel.path_valid f.1 = true) fs ->
  Forall (fun f => zlen f.2 <= Builder.MAX_FILE) fs ->
  Kernel.parse_header (join newline (header_text name version fs) ++ marker ++ rest)
  = inr (Kernel.Header (Some name) (Some version) (built_entry <$> fs)
           (zlen (join newline (header_text name version fs)) + zlen marker)).
Proof.
  intros Hn Hv Hl Hp Hs. pose proof (header_text_printable name version fs Hn Hv Hp) as Ht.
  unfold Kernel.parse_header. rewrite find_marker_built by done.
  cbn [Kernel.need mbind Kernel.failure_bind]. rewrite take_app_length.
  rewrite utf8_valid_ascii by by apply join_ascii. cbn [negb].
  rewrite split_join by (done || by apply printable_no_newline).
  unfold header_text at 1. cbn [app]. rewrite zeqb_list_refl. cbn [negb Kernel.header_lines].
  rewrite header_line_name by done. cbn [mbind Kernel.failure_bind].
  rewrite header_line_version by done.
  cbn [mbind Kernel.failure_bind Kernel.name Kernel.version Kernel.entries Kernel.data_start].
  rewrite header_lines_files by (done || simpl; rewrite ?zlen_nil; lia).
  cbn [Kernel.name Kernel.version Kernel.entries Kernel.data_start app].
  destruct fs as [|f fs]; [unfold zlen in Hl; simpl in Hl; lia|]. done.
Qed.

Lemma total_built fs : Kernel.total (built_entry <$> fs) = zlen (concat (snd <$> fs)).
Proof.
  induction fs as [|f fs IH]; [done|]. rewrite !fmap_cons, concat_cons, zlen_app.
  unfold Kernel.total in *. cbn [foldr]. rewrite IH. done.
Qed.

Lemma copy_files_built pre fs :
  Kernel.copy_files (pre ++ concat (snd <$> fs)) (zlen pre) (built_entry <$> fs)
  = inr ((fun f => (f.1, Builder.mode_of f.1, f.2)) <$> fs).
Proof.
  revert pre. induction fs as [|f fs IH]; intros pre; [done|].
  rewrite !fmap_cons, concat_cons. cbn [Kernel.copy_files built_entry Kernel.size Kernel.hash].
  pose proof (zlen_nonneg pre). pose proof (zlen_nonneg f.2).
  rewrite pyslice_app_r, pyslice_app_l by lia.
  rewrite Z.sub_diag, pyslice_full by lia. rewrite zeqb_list_refl.
  rewrite app_assoc, <- zlen_app, IH. done.
Qed.

Section built.
Context (name version : list Z) (tree : Builder.node) (blob : list Z).
Hypothesis Hb : Builder.build name version tree = Ret blob.
Hypothesis Hp : Forall (fun f => Kernel.path_valid f.1 = true) (Builder.files tree).

(** The bytes of the header: everything before the file contents. *)
Definition header_size : Z := zlen blob - zlen (concat (snd <$> Builder.files tree)).

(** C1: a package that tools/aeros-pkg.py builds from files with paths the
    kernel admits, and whose header fits the kernel's 2048-byte buffer, is
    installed: the name, the version, and every file's path, mode, size,
    digest and contents come back as they were packed. *)
Theorem build_installs :
  header_size <= Kernel.MAX_HEADER ->
  Kernel.read_package blob =
  inr (Kernel.Header (Some name) (Some version) (built_entry <$> Builder.files tree) header_size,
       (fun f => (f.1, Builder.mode_of f.1, f.2)) <$> Builder.files tree).
Proof.
  intros Hh. destruct (build_shape _ _ _ _ Hb Hp) as (Hn & Hv & Hl & Hs & E).
  unfold header_size in *. subst blob.
  pose proof (fun r => parse_header_built name version _ r Hn Hv Hl Hp Hs) as P.
  set (H := join newline (header_text name version (Builder.files tree))) in *.
  set (D := concat (snd <$> Builder.files tree)) in *.
  setoid_rewrite app_assoc in P. rewrite app_assoc in *.
  set (HM := H ++ marker) in *. rewrite <- zlen_app in P. fold HM in P.
  rewrite zlen_app in *. replace (zlen HM + zlen D - zlen D) with (zlen HM) in * by lia.
  unfold Kernel.read_package, Kernel.read_header. rewrite pyslice_prefix, P by done.
  cbn [mbind Kernel.failure_bind Kernel.entries Kernel.data_start].
  rewrite total_built, zlen_app, Z.eqb_refl.
  cbn [mbind Kernel.failure_bind Kernel.entries Kernel.data_start].
  unfold D. by rewrite copy_files_built.
Qed.

(** C39: with a longer header the same package is rejected as malformed,
    although the builder wrote it without complaint. *)
Theorem long_header_rejected :
  Kernel.MAX_HEADER < header_size -> Kernel.read_package blob = inl Kernel.Malformed.
Proof.
  intros Hh. destruct (build_shape _ _ _ _ Hb Hp) as (Hn & Hv & Hl & Hs & E).
  unfold header_size in *. pose proof (header_text_printable _ _ _ Hn Hv Hp) as Ht.
  pose proof (find_marker_built _ _ _ (concat (snd <$> Builder.files tree)) Ht) as Hf.
  rewrite <- E in Hf. unfold Kernel.read_package, Kernel.read_header, Kernel.parse_header.
  destruct (find_sub marker (pyslice blob 0 Kernel.MAX_HEADER)) as [k|] eqn:Ek; [|done].
  exfalso. rewrite pyslice_nn in Ek by (unfold Kernel.MAX_HEADER; lia). rewrite drop_0 in Ek.
  apply (find_sub_prefix _ _ (drop (Z.to_nat (Kernel.MAX_HEADER - 0)) blob)) in Ek as [Ek1 Ek2].
  rewrite take_drop, Hf in Ek1. apply (inj Some) in Ek1 as <-.
  rewrite length_take in Ek2.
  apply (f_equal zlen) in E. rewrite !zlen_app in E.
  unfold zlen, Kernel.MAX_HEADER in *. lia.
Qed.

End built.

(** ** Witnesses *)

Definition value {A} (d : A) (m : py A) : A := match m with Ret a => a | _ => d end.

Definition demo_tree : Builder.node :=
  Builder.NDir [(lit "share", Builder.NDir [(lit "readme", Builder.NFile (lit "demo"))]);
                (lit "bin", Builder.NDir [(lit "hello", Builder.NFile (lit "echo"))])].
Definition demo_blob : list Z := value [] (Builder.build (lit "demo") (lit "1.0") demo_tree).

Lemma build_installs_witness :
  Kernel.read_package demo_blob =
  inr (Kernel.Header (Some (lit "demo")) (Some (lit "1.0"))
         (built_entry <$> Builder.files demo_tree) (header_size demo_tree demo_blob),
       [(lit "bin/hello", 493, lit "echo"); (lit "share/readme", 420, lit "demo")]).
Proof.
  apply (build_installs (lit "demo") (lit "1.0") demo_tree demo_blob).
  - vm_compute. reflexivity.
  - apply forallb_Forall. vm_compute. reflexivity.
  - vm_compute. discriminate.
Defined.

(** Sixteen files whose 60-character paths make a 2 KiB header. *)
Definition wide_tree : Builder.node :=
  Builder.NDir ((fun k : Z => (97 + k :: replicate 59 97, Builder.NFile [])) <$> pyrange 0 16).
Definition wide_blob : list Z := value [] (Builder.build (lit "wide") (lit "1.0") wide_tree).

Lemma long_header_rejected_witness : Kernel.read_package wide_blob = inl Kernel.Malformed.
Proof.
  apply (long_header_rejected (lit "wide") (lit "1.0") wide_tree wide_blob).
  - vm_compute. reflexivity.
  - apply forallb_Forall. vm_compute. reflexivity.
  - vm_compute. reflexivity.
Defined.

(** ** What any package installs *)
















