(* ===== verification/Uuid.v ===== *)
(** UUIDs (python3.13/uuid.py): construction from text, bytes, fields or an
    integer, and the attributes derived from the 128-bit value. *)
From Stdlib Require Import ZArith Lia List.
From stdpp Require Import base list strings.
From coqutil Require Import Z.bitblast.
From S2P Require Import Prelude Text.
Open Scope Z_scope.

(** The keyword argument given to [UUID(...)]; exactly one must be. *)
Inductive uuid_arg : Type :=
| Hex (h : list Z)
| Bytes (b : list Z)
| BytesLe (b : list Z)
| Fields (f : list Z)
| Int (n : Z).

Definition hex_to_int (h : list Z) : py Z :=
  let h := replace (lit "uuid:") [] (replace (lit "urn:") [] h) in
  let h := replace (lit "-") [] (strip (fun c => (c =? 123) || (c =? 125)) h) in
  if negb (zlen h =? 32) then Raise ValueError else py_int 16 h.

(** [b[3::-1] + b[5:3:-1] + b[7:5:-1] + b[8:]]. *)
Definition swap_le (b : list Z) : list Z :=
  rev (pyslice b 0 4) ++ rev (pyslice b 4 6) ++ rev (pyslice b 6 8) ++ drop 8 b.

Definition fields_to_int (f : list Z) : py Z :=
  match f with
  | [time_low; time_mid; time_hi_version; clock_seq_hi_variant; clock_seq_low; node] =>
      if negb ((0 <=? time_low) && (time_low <? Z.shiftl 1 32)) then Raise ValueError
      else if negb ((0 <=? time_mid) && (time_mid <? Z.shiftl 1 16)) then Raise ValueError
      else if negb ((0 <=? time_hi_version) && (time_hi_version <? Z.shiftl 1 16)) then Raise ValueError
      else if negb ((0 <=? clock_seq_hi_variant) && (clock_seq_hi_variant <? Z.shiftl 1 8))
      then Raise ValueError
      else if negb ((0 <=? clock_seq_low) && (clock_seq_low <? Z.shiftl 1 8)) then Raise ValueError
      else if negb ((0 <=? node) && (node <? Z.shiftl 1 48)) then Raise ValueError
      else
        let clock_seq := Z.lor (Z.shiftl clock_seq_hi_variant 8) clock_seq_low in
        Ret (Z.lor (Z.lor (Z.lor (Z.lor (Z.shiftl time_low 96) (Z.shiftl time_mid 80))
               (Z.shiftl time_hi_version 64)) (Z.shiftl clock_seq 48)) node)
  | _ => Raise ValueError
  end.

(** The variant and version bits of RFC 4122 forced into the value. *)
Definition set_version (n version : Z) : Z :=
  let n := Z.land n (Z.lnot (Z.shiftl 49152 48)) in
  let n := Z.lor n (Z.shiftl 32768 48) in
  let n := Z.land n (Z.lnot (Z.shiftl 61440 64)) in
  Z.lor n (Z.shiftl version 76).

(** [UUID.__init__]: the integer it stores. *)
Definition init (a : uuid_arg) (version : option Z) : py Z :=
  n ← match a with
      | Hex h => hex_to_int h
      | BytesLe b =>
          if negb (zlen b =? 16) then Raise ValueError else Ret (be_val (swap_le b))
      | Bytes b => if negb (zlen b =? 16) then Raise ValueError else Ret (be_val b)
      | Fields f => fields_to_int f
      | Int n => Ret n
      end;
  if negb ((0 <=? n) && (n <? Z.shiftl 1 128)) then Raise ValueError
  else match version with
  | None => Ret n
  | Some v => if negb ((1 <=? v) && (v <=? 5)) then Raise ValueError else Ret (set_version n v)
  end.

Definition time_low (n : Z) : Z := Z.shiftr n 96.
Definition time_mid (n : Z) : Z := Z.land (Z.shiftr n 80) 65535.
Definition time_hi_version (n : Z) : Z := Z.land (Z.shiftr n 64) 65535.
Definition clock_seq_hi_variant (n : Z) : Z := Z.land (Z.shiftr n 56) 255.
Definition clock_seq_low (n : Z) : Z := Z.land (Z.shiftr n 48) 255.
Definition node (n : Z) : Z := Z.land n 281474976710655.
Definition time (n : Z) : Z :=
  Z.lor (Z.lor (Z.shiftl (Z.land (time_hi_version n) 4095) 48) (Z.shiftl (time_mid n) 32)) (time_low n).
Definition clock_seq (n : Z) : Z :=
  Z.lor (Z.shiftl (Z.land (clock_seq_hi_variant n) 63) 8) (clock_seq_low n).
Definition fields (n : Z) : list Z :=
  [time_low n; time_mid n; time_hi_version n; clock_seq_hi_variant n; clock_seq_low n; node n].

Definition bytes (n : Z) : list Z := be_bytes 16 n.
Definition bytes_le (n : Z) : list Z := swap_le (bytes n).

(** ['%032x' % n] for a non-negative [n]. *)
Definition hex32 (n : Z) : list Z :=
  let d := to_base 16 n in replicate (32 - length d) 48 ++ d.

Definition uuid_str (n : Z) : list Z :=
  let h := hex32 n in
  pyslice h 0 8 ++ lit "-" ++ pyslice h 8 12 ++ lit "-" ++ pyslice h 12 16 ++ lit "-"
  ++ pyslice h 16 20 ++ lit "-" ++ pyslice h 20 (zlen h).
Definition urn (n : Z) : list Z := lit "urn:uuid:" ++ uuid_str n.

Inductive variant_t : Type := RESERVED_NCS | RFC_4122 | RESERVED_MICROSOFT | RESERVED_FUTURE.
Definition variant (n : Z) : variant_t :=
  if Z.land n (Z.shiftl 32768 48) =? 0 then RESERVED_NCS
  else if Z.land n (Z.shiftl 16384 48) =? 0 then RFC_4122
  else if Z.land n (Z.shiftl 8192 48) =? 0 then RESERVED_MICROSOFT
  else RESERVED_FUTURE.
Definition version (n : Z) : option Z :=
  match variant n with
  | RFC_4122 => Some (Z.land (Z.shiftr n 76) 15)
  | _ => None
  end.

(** * Lemmas *)

Definition in_range (n : Z) : Prop := 0 <= n < 2 ^ 128.

Lemma init_range n : in_range n ->
  (if negb ((0 <=? n) && (n <? Z.shiftl 1 128)) then Raise ValueError else Ret n) = Ret n.
Proof. unfold in_range. intros. change (Z.shiftl 1 128) with (2 ^ 128). zcase; simpl; try lia; done. Qed.

Lemma clock_seq_bits n :
  Z.lor (Z.shiftl (Z.land (Z.shiftr n 56) (Z.ones 8)) 8) (Z.land (Z.shiftr n 48) (Z.ones 8))
  = Z.land (Z.shiftr n 48) (Z.ones 16).
Proof. Z.bitblast. Qed.

(** A UUID is recovered from its six fields. *)
Lemma fields_roundtrip n : in_range n -> init (Fields (fields n)) None = Ret n.
Proof.
  intros Hn. unfold init, fields, fields_to_int.
  assert (B : forall k w, 0 <= k -> 0 <= w -> 0 <= Z.land (Z.shiftr n k) (Z.ones w) < Z.shiftl 1 w).
  { intros. rewrite Z.land_ones, Z.shiftl_1_l by lia. apply Z.mod_pos_bound. lia. }
  pose proof (B 80 16 ltac:(lia) ltac:(lia)). pose proof (B 64 16 ltac:(lia) ltac:(lia)).
  pose proof (B 56 8 ltac:(lia) ltac:(lia)). pose proof (B 48 8 ltac:(lia) ltac:(lia)).
  pose proof (B 0 48 ltac:(lia) ltac:(lia)).
  unfold time_low, time_mid, time_hi_version, clock_seq_hi_variant, clock_seq_low, node.
  assert (0 <= Z.shiftr n 96 < Z.shiftl 1 32).
  { unfold in_range in Hn. rewrite Z.shiftr_div_pow2 by lia. change (Z.shiftl 1 32) with (2 ^ 32).
    split; [apply Z.div_pos; lia | apply Z.div_lt_upper_bound; lia]. }
  change 65535 with (Z.ones 16). change 255 with (Z.ones 8). change 281474976710655 with (Z.ones 48).
  rewrite Z.shiftr_0_r in *.
  repeat match goal with H : 0 <= ?a < ?b |- context [(0 <=? ?a) && (?a <? ?b)] =>
    rewrite (proj2 (andb_true_iff (0 <=? a) (a <? b))) by lia; clear H end.
  cbn [negb mbind py_bind].
  match goal with |- context [Z.lor ?x (Z.land n (Z.ones 48))] =>
    assert (Z.lor x (Z.land n (Z.ones 48)) = n) as -> end.
  { rewrite clock_seq_bits. clear. Z.bitblast. }
  by apply init_range.
Qed.

Lemma length_hex32 n : in_range n -> length (hex32 n) = 32%nat.
Proof.
  intros Hn. unfold hex32. rewrite length_app, length_replicate.
  assert (length (to_base 16 n) <= 32)%nat; [|lia].
  unfold to_base. rewrite length_fmap. apply digits_length; [lia|]. exact Hn.
Qed.

Definition hex_char (c : Z) : Prop := 48 <= c <= 57 \/ 97 <= c <= 102.

Lemma hex32_chars n : in_range n -> Forall hex_char (hex32 n).
Proof.
  intros [Hn _]. unfold hex32, to_base. apply Forall_app. split.
  - apply Forall_replicate. unfold hex_char. lia.
  - rewrite Forall_fmap. eapply Forall_impl; [apply digits_bound; lia|].
    intros d Hd. simpl in Hd. unfold hex_char. simpl. unfold digit_char. zcase; lia.
Qed.

Lemma hex32_value n : in_range n -> py_int 16 (hex32 n) = Ret n.
Proof.
  intros Hn. assert (E : hex32 n = digit_char <$> (replicate (32 - length (to_base 16 n)) 0 ++ digits 16 n)).
  { unfold hex32. rewrite fmap_app, fmap_replicate. done. }
  rewrite E, py_int_digits.
  - rewrite digits_val_zeros. rewrite digits_val_digits; [done | lia | apply Hn].
  - by right.
  - intros E'. apply app_nil in E' as [_ E']. by apply digits_nonempty in E'.
  - apply Forall_app. split; [apply Forall_replicate; lia|]. apply digits_bound; [lia | apply Hn].
Qed.

Lemma hex_char_absent c l : Forall hex_char l -> ~ hex_char c -> c ∉ l.
Proof. intros H Hc Hin. rewrite Forall_forall in H. by apply H in Hin. Qed.

Definition dashed_char (c : Z) : Prop := hex_char c \/ c = 45.

Lemma uuid_str_chars n : in_range n -> Forall dashed_char (uuid_str n).
Proof.
  intros Hn. pose proof (hex32_chars n Hn) as Hc. unfold uuid_str.
  assert (P : forall i j, Forall dashed_char (pyslice (hex32 n) i j)).
  { intros i j. unfold pyslice. apply Forall_take, Forall_drop.
    eapply Forall_impl; [exact Hc|]. unfold dashed_char. auto. }
  assert (D : Forall dashed_char (lit "-")) by (repeat constructor; unfold dashed_char; auto).
  by rewrite !Forall_app.
Qed.

(** Dropping the hyphens of the printed form gives the 32 digits back. *)
Lemma uuid_str_undash n : in_range n -> replace (lit "-") [] (uuid_str n) = hex32 n.
Proof.
  intros Hn. pose proof (hex32_chars n Hn) as Hc. unfold uuid_str. change (lit "-") with [45].
  assert (A : forall i j, 45 ∉ pyslice (hex32 n) i j).
  { intros i j. apply hex_char_absent; [|unfold hex_char; lia].
    unfold pyslice. by apply Forall_take, Forall_drop. }
  rewrite !replace_drop_sep by apply A. rewrite replace_absent by apply A.
  assert (L : zlen (hex32 n) = 32) by (unfold zlen; rewrite length_hex32; done).
  rewrite L, <- !pyslice_split by lia. by apply pyslice_full.
Qed.

(** Parsing the printed form, or the URN, gives the UUID back. *)
Lemma str_roundtrip n : in_range n ->
  init (Hex (uuid_str n)) None = Ret n /\ init (Hex (urn n)) None = Ret n.
Proof.
  intros Hn. pose proof (uuid_str_chars n Hn) as Hc.
  assert (A : forall c, ~ dashed_char c -> c ∉ uuid_str n).
  { intros c Hd Hin. rewrite Forall_forall in Hc. by apply Hc in Hin. }
  assert (P : forall c, 103 <= c -> ~ dashed_char c) by (unfold dashed_char, hex_char; lia).
  assert (S : strip (fun c => (c =? 123) || (c =? 125)) (uuid_str n) = uuid_str n).
  { apply strip_id. eapply Forall_impl; [exact Hc|]. intros c H.
    unfold dashed_char, hex_char in H. zcase; simpl; lia. }
  assert (H : hex_to_int (uuid_str n) = Ret n).
  { unfold hex_to_int. change (lit "uuid:") with [117; 117; 105; 100; 58].
    change (lit "urn:") with [117; 114; 110; 58].
    rewrite (replace_absent 117 [114; 110; 58]), (replace_absent 117 [117; 105; 100; 58]) by (apply A, P; lia).
    rewrite S, uuid_str_undash by done.
    rewrite hex32_value by done. unfold zlen. by rewrite length_hex32. }
  split.
  - unfold init. rewrite H. by apply init_range.
  - unfold init. replace (hex_to_int (urn n)) with (hex_to_int (uuid_str n));
      [rewrite H; by apply init_range|].
    unfold hex_to_int, urn. change (lit "urn:uuid:") with (lit "urn:" ++ lit "uuid:").
    rewrite <- app_assoc, replace_prefix by done.
    replace (replace (lit "urn:") [] (lit "uuid:" ++ uuid_str n)) with (lit "uuid:" ++ uuid_str n).
    + rewrite app_nil_l, (replace_prefix (lit "uuid:")), app_nil_l by done.
      change (lit "urn:") with [117; 114; 110; 58]. by rewrite (replace_absent 117 [114; 110; 58]) by (apply A, P; lia).
    + change (lit "urn:") with [117; 114; 110; 58].
      rewrite <- (replace_absent 117 [114; 110; 58] [] (uuid_str n)) at 1 by (apply A, P; lia). done.
Qed.

(** The two byte orders: swapping the first three fields twice is the
    identity, so both constructors invert the attributes. *)
Lemma bytes_roundtrip n : in_range n ->
  init (Bytes (bytes n)) None = Ret n /\ init (BytesLe (bytes_le n)) None = Ret n.
Proof.
  intros Hn. assert (L : length (bytes n) = 16%nat)
    by (unfold bytes, be_bytes; rewrite length_rev, length_le_bytes; done).
  assert (S : swap_le (bytes_le n) = bytes n /\ length (bytes_le n) = 16%nat).
  { unfold bytes_le. destruct (bytes n) as [|b0 l]; [done|].
    do 15 (destruct l as [|? l]; [done|]). destruct l; [|done]. split; reflexivity. }
  destruct S as [S1 S2]. unfold init, zlen. rewrite L, S1, S2. cbn [Z.of_nat Z.eqb Pos.eqb negb mbind py_bind].
  unfold bytes. rewrite be_val_be_bytes by exact Hn. split; exact (init_range n Hn).
Qed.

(** every way of reading a UUID back gives the UUID it was read from: the
    printed form, the URN, the big-endian and the little-endian bytes, the
    fields and the integer. *)
Theorem uuid_roundtrips n : in_range n ->
  init (Hex (uuid_str n)) None = Ret n /\ init (Hex (urn n)) None = Ret n
  /\ init (Bytes (bytes n)) None = Ret n /\ init (BytesLe (bytes_le n)) None = Ret n
  /\ init (Fields (fields n)) None = Ret n /\ init (Int n) None = Ret n.
Proof.
  intros Hn. destruct (str_roundtrip n Hn), (bytes_roundtrip n Hn). pose proof (fields_roundtrip n Hn).
  split_and!; auto. exact (init_range n Hn).
Qed.

Definition sample : Z := 24197857161011715162171839636988778104.
Lemma uuid_roundtrips_witness :
  init (Hex (uuid_str sample)) None = Ret sample /\ init (Hex (urn sample)) None = Ret sample
  /\ init (Bytes (bytes sample)) None = Ret sample /\ init (BytesLe (bytes_le sample)) None = Ret sample
  /\ init (Fields (fields sample)) None = Ret sample /\ init (Int sample) None = Ret sample.
Proof. apply uuid_roundtrips. unfold in_range, sample. lia. Defined.

Lemma set_version_bits n v i : 0 <= i ->
  Z.testbit (set_version n v) i =
  ((Z.testbit n i && negb (Z.testbit (Z.shiftl 49152 48) i) || Z.testbit (Z.shiftl 32768 48) i)
   && negb (Z.testbit (Z.shiftl 61440 64) i)) || Z.testbit (Z.shiftl v 76) i.
Proof.
  intros. unfold set_version.
  by rewrite !Z.lor_spec, !Z.land_spec, !Z.lnot_spec, Z.lor_spec, Z.land_spec, Z.lnot_spec by lia.
Qed.

Lemma land_pow2 n k : 0 <= k -> Z.testbit n k = false -> Z.land n (2 ^ k) = 0.
Proof.
  intros Hk H. apply Z.bits_inj'. intros i Hi. rewrite Z.land_spec, Z.bits_0, Z.pow2_bits_eqb by lia.
  destruct (Z.eqb_spec k i) as [<-|]; [by rewrite H | apply andb_false_r].
Qed.

(** Asking for a version gives an RFC 4122 UUID of that version. *)
Lemma init_version n v : in_range n -> 1 <= v <= 5 ->
  exists m, init (Int n) (Some v) = Ret m /\ variant m = RFC_4122 /\ version m = Some v.
Proof.
  intros Hn Hv. exists (set_version n v).
  assert (Hvar : variant (set_version n v) = RFC_4122).
  { unfold variant.
    destruct (Z.eqb_spec (Z.land (set_version n v) (Z.shiftl 32768 48)) 0) as [E|_].
    - apply (f_equal (fun z => Z.testbit z 63)) in E.
      rewrite Z.land_spec, set_version_bits, Z.bits_0 in E by lia.
      change (Z.testbit (Z.shiftl 32768 48) 63) with true in E.
      change (Z.testbit (Z.shiftl 61440 64) 63) with false in E.
      by rewrite orb_true_r in E.
    - change (Z.shiftl 16384 48) with (2 ^ 62). rewrite land_pow2; [done | lia |].
      rewrite set_version_bits by lia.
      change (Z.testbit (Z.shiftl 49152 48) 62) with true.
      change (Z.testbit (Z.shiftl 32768 48) 62) with false.
      rewrite (Z.shiftl_spec_low v) by lia. by rewrite andb_false_r. }
  split; [|split; [done|]].
  - unfold init. cbn [mbind py_bind].
    unfold in_range in Hn. change (Z.shiftl 1 128) with (2 ^ 128).
    zcase; simpl; try lia; done.
  - unfold version. rewrite Hvar. f_equal. apply Z.bits_inj'. intros i Hi.
    rewrite Z.land_spec, Z.shiftr_spec, set_version_bits by lia.
    change 15 with (Z.ones 4). destruct (decide (i < 4)).
    + rewrite Z.ones_spec_low by lia. rewrite (Z.shiftl_spec v) by lia.
      replace (i + 76 - 76) with i by lia.
      assert (Z.testbit (Z.shiftl 61440 64) (i + 76) = true) as ->.
      { assert (i = 0 \/ i = 1 \/ i = 2 \/ i = 3) as [E|[E|[E|E]]] by lia; rewrite E; reflexivity. }
      rewrite andb_false_r, andb_true_r. done.
    + rewrite Z.ones_spec_high, andb_false_r by lia. symmetry.
      apply Z.bits_above_log2; [lia|]. apply Z.log2_lt_pow2; [lia|].
      apply Z.lt_le_trans with (2 ^ 4); [lia | apply Z.pow_le_mono_r; lia].
Qed.

Lemma init_version_witness : in_range 22 /\
  exists m, init (Int 22) (Some 4) = Ret m /\ variant m = RFC_4122 /\ version m = Some 4.
Proof. split; [|apply init_version]; unfold in_range; lia. Defined.
