(* ===== verification/Gpt.v ===== *)
(** GPT disk images: the maker and checker of tools/make-gpt-disk.py and the
    kernel's reader (kernel/src/partition.rs). *)
From Stdlib Require Import ZArith Lia List.
From stdpp Require Import base list strings.
From S2P Require Import Prelude Text Hash Uuid.
Open Scope Z_scope.

Definition SECTOR : Z := 512.

Definition uuid_le (s : string) : list Z :=
  match init (Hex (lit s)) None with Ret n => bytes_le n | _ => [] end.

Definition LINUX : list Z := uuid_le "0FC63DAF-8483-4772-8E79-3D69D8477DE4".
Definition ESP : list Z := uuid_le "C12A7328-F81F-11D2-BA4B-00A0C93EC93B".
Definition PARTITION_GUID : list Z := uuid_le "11111111-2222-3333-4444-555555555555".
Definition DISK_GUID : list Z := uuid_le "aaaaaaaa-bbbb-cccc-dddd-eeeeeeeeeeee".

(** * tools/make-gpt-disk.py: make *)

Module Maker.

(** [bytearray(n)]. *)
Definition bytearray (n : Z) : py (list Z) := if n <? 0 then Raise ValueError else Ret (zeros n).

Definition protective_mbr (sectors : Z) : py (list Z) :=
  mbr ← bytearray SECTOR;
  mbr ← pyset mbr (446 + 4) 238;
  mbr ← pack_into_le 4 mbr (446 + 8) 1;
  mbr ← pack_into_le 4 mbr (446 + 12) (Z.min (sectors - 1) 4294967295);
  Ret (slice_assign mbr 510 512 [85; 170]).

(** ["Existing".encode("utf-16-le")]. *)
Definition utf16_ascii (l : list Z) : list Z := concat ((fun c => [c; 0]) <$> l).

Definition linux_entry (first last : Z) : py (list Z) :=
  entry ← bytearray 128;
  let entry := slice_assign entry 0 16 LINUX in
  let entry := slice_assign entry 16 32 PARTITION_GUID in
  entry ← pack_into_le 8 entry 32 first;
  entry ← pack_into_le 8 entry 40 last;
  Ret (slice_assign entry 56 72 (utf16_ascii (lit "Existing"))).

(** The header without its own checksum. *)
Definition header_fields (sectors array_crc here other array_lba : Z) : py (list Z) :=
  h ← bytearray SECTOR;
  let h := slice_assign h 0 8 (lit "EFI PART") in
  h ← pack_into_le 4 h 8 65536;
  h ← pack_into_le 4 h 12 92;
  h ← pack_into_le 4 h 16 0;
  h ← pack_into_le 4 h 20 0;
  h ← pack_into_le 4 h 24 here;
  h ← pack_into_le 8 h 32 other;
  h ← pack_into_le 8 h 40 34;
  h ← pack_into_le 8 h 48 (sectors - 34);
  let h := slice_assign h 56 72 DISK_GUID in
  h ← pack_into_le 8 h 72 array_lba;
  h ← pack_into_le 4 h 80 128;
  h ← pack_into_le 4 h 84 128;
  pack_into_le 4 h 88 array_crc.

Definition header (sectors array_crc here other array_lba : Z) : py (list Z) :=
  h ← header_fields sectors array_crc here other array_lba;
  pack_into_le 4 h 16 (Crc32.crc32 (pyslice h 0 92)).

(** The generator of the partition's contents. *)
Fixpoint lcg_block (n : nat) (state : Z) : list Z :=
  match n with
  | O => []
  | S n =>
      let state := Z.land (state * 1103515245 + 12345) 4294967295 in
      Z.land (Z.shiftr state 16) 255 :: lcg_block n state
  end.
Definition block : list Z := lcg_block 4096 305419896.

(** [bytes * n]. *)
Definition times (l : list Z) (n : Z) : list Z := concat (replicate (Z.to_nat n) l).

Definition make (size_mib part_mib : Z) : py (list Z) :=
  let sectors := size_mib * 2048 in
  let first := 2048 in
  let last := first + part_mib * 2048 - 1 in
  image ← bytearray (sectors * SECTOR);
  mbr ← protective_mbr sectors;
  let image := slice_assign image 0 SECTOR mbr in
  entry ← linux_entry first last;
  let array := entry ++ zeros (127 * 128) in
  let array_crc := Crc32.crc32 array in
  h1 ← header sectors array_crc 1 (sectors - 1) 2;
  let image := slice_assign image SECTOR (2 * SECTOR) h1 in
  let image := slice_assign image (2 * SECTOR) (2 * SECTOR + zlen array) array in
  let backup_array := sectors - 33 in
  let image := slice_assign image (backup_array * SECTOR) (backup_array * SECTOR + zlen array) array in
  h2 ← header sectors array_crc (sectors - 1) 1 backup_array;
  let image := slice_assign image ((sectors - 1) * SECTOR) (sectors * SECTOR) h2 in
  let body := times block ((last - first + 1) * SECTOR / zlen block) in
  Ret (slice_assign image (first * SECTOR) (first * SECTOR + zlen body) body).

(** The digest [make] prints. *)
Definition printed_digest (size_mib part_mib : Z) : py (list Z) :=
  image ← make size_mib part_mib;
  Ret (Sha256.hexdigest (pyslice image (2048 * SECTOR) ((2048 + part_mib * 2048) * SECTOR))).

End Maker.

(** * tools/make-gpt-disk.py: verify *)

Module Checker.

Definition sectors (data : list Z) : Z := zlen data / SECTOR.

Definition read_table (data : list Z) (lba other : Z) : py (list Z * Z * Z) :=
  let h := pyslice data (lba * SECTOR) ((lba + 1) * SECTOR) in
  passert (zeqb_list (pyslice h 0 8) (lit "EFI PART"));;
  size ← unpack_le 4 h 12;
  stored ← unpack_le 4 h 16;
  let copy := slice_assign (pyslice h 0 size) 16 20 (zeros 4) in
  passert (Crc32.crc32 copy =? stored);;
  here ← unpack_le 8 h 24;
  passert (here =? lba);;
  there ← unpack_le 8 h 32;
  passert (there =? other);;
  array_lba ← unpack_le 8 h 72;
  count ← unpack_le 4 h 80;
  entry_size ← unpack_le 4 h 84;
  array_crc ← unpack_le 4 h 88;
  let array := pyslice data (array_lba * SECTOR) (array_lba * SECTOR + count * entry_size) in
  passert (Crc32.crc32 array =? array_crc);;
  Ret (array, count, entry_size).

Definition used_entries (array : list Z) (count size : Z) : list (list Z) :=
  omap (fun i => if existsb (fun b => negb (b =? 0)) (pyslice array (i * size) (i * size + 16))
                 then Some (pyslice array (i * size) ((i + 1) * size)) else None)
       (pyrange 0 count).

Definition verify (data expected : list Z) : py (Z * Z) :=
  let sectors := sectors data in
  primary ← read_table data 1 (sectors - 1);
  backup ← read_table data (sectors - 1) 1;
  passert (zeqb_list primary.1.1 backup.1.1);;
  let '(array, count, size) := primary in
  let used := used_entries array count size in
  passert (zlen used =? 2);;
  used0 ← pyget used 0;
  first0 ← unpack_le 8 used0 32;
  first1 ← unpack_le 8 used0 40;
  passert (zeqb_list (pyslice used0 0 16) LINUX && (first0 =? 2048));;
  let actual := Sha256.hexdigest (pyslice data (first0 * SECTOR) ((first1 + 1) * SECTOR)) in
  passert (zeqb_list actual expected);;
  used1 ← pyget used 1;
  passert (zeqb_list (pyslice used1 0 16) ESP);;
  start ← unpack_le 8 used1 32;
  end_ ← unpack_le 8 used1 40;
  passert ((first1 <? start) && (end_ <? sectors - 33));;
  let boot := pyslice data (start * SECTOR) ((start + 1) * SECTOR) in
  passert (zeqb_list (pyslice boot 82 90) (lit "FAT32   ") && zeqb_list (pyslice boot 510 512) [85; 170]);;
  reserved ← unpack_le 2 boot 14;
  fats ← pyget boot 16;
  fat_size ← unpack_le 4 boot 36;
  cluster_sectors ← pyget boot 13;
  let data_start := start + reserved + fats * fat_size in
  let root := pyslice data (data_start * SECTOR) (data_start * SECTOR + cluster_sectors * SECTOR) in
  passert (match find_sub (lit "EFI        ") root with Some _ => true | None => false end);;
  Ret (start, end_).

End Checker.

(** * kernel/src/partition.rs *)

Module Kernel.

Record partition := Partition { first_lba : Z; sectors : Z; kind : Z; bootable : bool }.

Definition end_lba (p : partition) : Z := first_lba p + sectors p.

Definition fat_candidate (p : partition) : bool :=
  existsb (Z.eqb (kind p)) [1; 4; 6; 11; 12; 14; 239].

Record report := Report {
  mbr : bool;
  gpt : bool;
  protective : bool;
  fat_candidates : Z;
  bootables : Z;
  first : Z;
  covered_sectors : Z;
  verified : bool;
  entries : list partition
}.
Definition EMPTY : report := Report false false false 0 0 0 0 false [].

(** [push]: [None] when the sixteen slots are taken. *)
Definition push (r : report) (p : partition) : option report :=
  if zlen (entries r) =? 16 then None
  else Some (Report (mbr r) (gpt r) (protective r)
    (fat_candidates r + if fat_candidate p then 1 else 0)
    (bootables r + if bootable p then 1 else 0)
    (if zlen (entries r) =? 0 then first_lba p else Z.min (first r) (first_lba p))
    (Z.min (covered_sectors r + sectors p) (2 ^ 64 - 1))
    (verified r) (entries r ++ [p])).

Fixpoint disjoint_from (p : partition) (l : list partition) : bool :=
  match l with
  | [] => true
  | o :: l => negb ((first_lba p <? end_lba o) && (first_lba o <? end_lba p)) && disjoint_from p l
  end.
Fixpoint validate (disk_sectors : Z) (l : list partition) : bool :=
  match l with
  | [] => true
  | p :: l => negb ((sectors p =? 0) || (disk_sectors <? end_lba p))
              && disjoint_from p l && validate disk_sectors l
  end.

(** [crc32_zeroed(bytes, zero_offset, zero_length)]. *)
Definition crc32_zeroed (l : list Z) (off len : Z) : Z :=
  Z.lxor 4294967295
    (foldl (fun v ib => Crc32.crc32_byte v (if (off <=? ib.1) && (ib.1 <? off + len) then 0 else ib.2))
       4294967295 (zip (pyrange 0 (zlen l)) l)).

(** [blockdev::read_sector] on a disk that is the image. *)
Definition read_sector (data : list Z) (lba : Z) : option (list Z) :=
  if (lba + 1) * 512 <=? zlen data then Some (pyslice data (lba * 512) ((lba + 1) * 512)) else None.

Definition field (n : nat) (l : list Z) (off : Z) : Z := le_val (pyslice l off (off + Z.of_nat n)).
Definition read_u32 := field 4.
Definition read_u64 := field 8.

Definition efi_guid : list Z := [40; 115; 42; 193; 31; 248; 210; 17; 186; 75; 0; 160; 201; 62; 201; 59].
Definition swap_guid : list Z := [109; 253; 87; 6; 171; 164; 196; 67; 132; 229; 9; 51; 200; 75; 79; 79].

(** The loop that checksums the entry array sector by sector. *)
Fixpoint array_crc (data : list Z) (lba : Z) (remaining : Z) (n : nat) (crc : Z) : option Z :=
  match n with
  | O => Some crc
  | S n =>
      s ← read_sector data lba;
      let count := Z.min remaining 512 in
      array_crc data (lba + 1) (remaining - count) n (Crc32.crc32_update crc (pyslice s 0 count))
  end.

(** The loop over the entries; [inl] is an early return of the report. *)
Fixpoint scan_entries (data : list Z) (entry_lba entry_size first_usable last_usable : Z)
    (indices : list Z) (r : report) : report + report :=
  match indices with
  | [] => inr r
  | index :: indices =>
      let byte_offset := index * entry_size in
      let within := byte_offset mod 512 in
      if 512 <? within + entry_size then inl r
      else match read_sector data (entry_lba + byte_offset / 512) with
      | None => inl r
      | Some s =>
          let entry := pyslice s within (within + entry_size) in
          if forallb (Z.eqb 0) (pyslice entry 0 16)
          then scan_entries data entry_lba entry_size first_usable last_usable indices r
          else
            let first_lba := read_u64 entry 32 in
            let last_lba := read_u64 entry 40 in
            if (first_lba <? first_usable) || (last_usable <? last_lba) || (last_lba <? first_lba)
            then inl r
            else
              let kind := if zeqb_list (pyslice entry 0 16) efi_guid then 239
                          else if zeqb_list (pyslice entry 0 16) swap_guid then 130 else 255 in
              match push r (Partition first_lba (last_lba - first_lba + 1) kind false) with
              | None => inl r
              | Some r => scan_entries data entry_lba entry_size first_usable last_usable indices r
              end
      end
  end.

Definition set_verified (r : report) (b : bool) : report :=
  Report (mbr r) (gpt r) (protective r) (fat_candidates r) (bootables r) (first r)
    (covered_sectors r) b (entries r).

Definition header_ok (header : list Z) (disk_sectors : Z) : bool :=
  let header_size := read_u32 header 12 in
  zeqb_list (pyslice header 0 8) (lit "EFI PART")
  && between 92 header_size 512
  && (read_u64 header 24 =? 1) && (read_u64 header 32 <? disk_sectors)
  && (crc32_zeroed (pyslice header 0 header_size) 16 4 =? read_u32 header 16).

Definition inspect_gpt (data : list Z) (disk_sectors : Z) : report :=
  let report := Report false true false 0 0 0 0 false [] in
  match read_sector data 1 with
  | None => report
  | Some header =>
      if negb (header_ok header disk_sectors) then report
      else
        let first_usable := read_u64 header 40 in
        let last_usable := read_u64 header 48 in
        let entry_lba := read_u64 header 72 in
        let entry_count := read_u32 header 80 in
        let entry_size := read_u32 header 84 in
        if (last_usable <? first_usable) || (disk_sectors <=? last_usable)
           || (entry_count =? 0) || (128 <? entry_count)
           || negb (between 128 entry_size 512) || negb (Z.land entry_size 7 =? 0)
        then report
        else
          let total_bytes := entry_count * entry_size in
          let sectors := (total_bytes + 511) / 512 in
          if disk_sectors <? entry_lba + sectors then report
          else match array_crc data entry_lba total_bytes (Z.to_nat sectors) 4294967295 with
          | None => report
          | Some crc =>
              if negb (Z.lxor 4294967295 crc =? read_u32 header 88) then report
              else match scan_entries data entry_lba entry_size first_usable last_usable
                           (pyrange 0 entry_count) report with
              | inl r => r
              | inr r =>
                  set_verified r (negb (zlen (entries r) =? 0) && validate disk_sectors (entries r))
              end
          end
  end.

(** The loop over the four MBR slots; [inl] is an early return. *)
Fixpoint scan_mbr (sector : list Z) (disk_sectors : Z) (indices : list Z) (r : report) : report + report :=
  match indices with
  | [] => inr r
  | index :: indices =>
      let offset := 446 + index * 16 in
      let status := field 1 sector offset in
      let kind := field 1 sector (offset + 4) in
      if kind =? 0 then scan_mbr sector disk_sectors indices r
      else if negb (status =? 0) && negb (status =? 128) then inl r
      else
        let first_lba := read_u32 sector (offset + 8) in
        let sectors := read_u32 sector (offset + 12) in
        if (first_lba =? 0) || (sectors =? 0) || (disk_sectors <? first_lba + sectors) then inl r
        else match push r (Partition first_lba sectors kind (status =? 128)) with
        | None => inl r
        | Some r => scan_mbr sector disk_sectors indices r
        end
  end.

Definition inspect (data : list Z) (disk_sectors : Z) : report :=
  if disk_sectors <? 2 then EMPTY
  else match read_sector data 0 with
  | None => EMPTY
  | Some sector =>
      if negb ((field 1 sector 510 =? 85) && (field 1 sector 511 =? 170)) then EMPTY
      else if existsb (fun index => field 1 sector (446 + index * 16 + 4) =? 238) (pyrange 0 4) then
        let r := inspect_gpt data disk_sectors in
        Report true (gpt r) true (fat_candidates r) (bootables r) (first r) (covered_sectors r)
          (verified r) (entries r)
      else
        match scan_mbr sector disk_sectors (pyrange 0 4)
                (Report true false false 0 0 0 0 false []) with
        | inl r => r
        | inr r => set_verified r (negb (zlen (entries r) =? 0) && validate disk_sectors (entries r))
        end
  end.

End Kernel.

(** * Lemmas *)

Lemma LINUX_bytes : zlen LINUX = 16 /\ Forall is_byte LINUX.
Proof. split; [reflexivity | apply bytes_check; vm_compute; reflexivity]. Qed.
Lemma PARTITION_GUID_bytes : zlen PARTITION_GUID = 16 /\ Forall is_byte PARTITION_GUID.
Proof. split; [reflexivity | apply bytes_check; vm_compute; reflexivity]. Qed.
Lemma DISK_GUID_bytes : zlen DISK_GUID = 16 /\ Forall is_byte DISK_GUID.
Proof. split; [reflexivity | apply bytes_check; vm_compute; reflexivity]. Qed.

(** What the fields of a header sector say. *)
Record is_header (h : list Z) (sectors array_crc here other array_lba : Z) : Prop := {
  ih_len : zlen h = 512;
  ih_bytes : Forall is_byte h;
  ih_magic : pyslice h 0 8 = lit "EFI PART";
  ih_size : pyslice h 12 16 = le_bytes 4 92;
  ih_here : pyslice h 24 32 = le_bytes 8 here;
  ih_other : pyslice h 32 40 = le_bytes 8 other;
  ih_first : pyslice h 40 48 = le_bytes 8 34;
  ih_last : pyslice h 48 56 = le_bytes 8 (sectors - 34);
  ih_lba : pyslice h 72 80 = le_bytes 8 array_lba;
  ih_count : pyslice h 80 84 = le_bytes 4 128;
  ih_entry : pyslice h 84 88 = le_bytes 4 128;
  ih_array : pyslice h 88 92 = le_bytes 4 array_crc
}.

Lemma bytearray_ret n : 0 <= n -> Maker.bytearray n = Ret (zeros n).
Proof. intros. unfold Maker.bytearray. zcase; [lia | done]. Qed.

Section header.
Context (sectors array_crc here other array_lba : Z).
Hypothesis Hs : 34 <= sectors < 2 ^ 64.
Hypothesis Hc : 0 <= array_crc < 2 ^ 32.
Hypothesis Hh : 0 <= here < 2 ^ 32.
Hypothesis Ho : 0 <= other < 2 ^ 64.
Hypothesis Hl : 0 <= array_lba < 2 ^ 64.

Lemma header_fields_spec : exists h,
  Maker.header_fields sectors array_crc here other array_lba = Ret h
  /\ is_header h sectors array_crc here other array_lba /\ pyslice h 16 20 = zeros 4.
Proof.
  destruct DISK_GUID_bytes as [LG BG].
  unfold Maker.header_fields. rewrite bytearray_ret by (unfold SECTOR; lia). cbn [mbind py_bind].
  pose proof (zlen_zeros 512 ltac:(lia)) as L0. change SECTOR with 512.
  pose proof (zeros_bytes 512) as B0.
  assert (Z0 : pyslice (zeros 512) 28 32 = zeros 4) by (apply pyslice_zeros; lia).
  generalize dependent (zeros 512). intros z L0 B0 Z0.
  assert (LM : zlen (lit "EFI PART") = 8) by reflexivity.
  assert (BM : Forall is_byte (lit "EFI PART")) by (apply bytes_check; reflexivity).
  assign_step. repeat pack_step. assign_step. repeat pack_step.
  eexists. split; [reflexivity|]. split; [constructor|]; read_updated; auto.
  - lia.
  - repeat match goal with U : updated _ ?h _ _ |- Forall is_byte ?h =>
      apply (updated_bytes U); [|auto using le_bytes_bytes] end. done.
  - rewrite (pyslice_split _ 24 28 32) by lia. read_updated. rewrite Z0.
    symmetry. apply (le_bytes_pad 4 4). exact Hh.
Qed.

Lemma header_spec : exists h h0,
  Maker.header sectors array_crc here other array_lba = Ret h
  /\ is_header h sectors array_crc here other array_lba
  /\ pyslice h 16 20 = le_bytes 4 (Crc32.crc32 (pyslice h0 0 92))
  /\ slice_assign (pyslice h 0 92) 16 20 (zeros 4) = pyslice h0 0 92
  /\ Forall is_byte h0.
Proof.
  destruct header_fields_spec as (h0 & E & H & Z). unfold Maker.header. rewrite E.
  cbn [mbind py_bind]. destruct H.
  pose proof (crc32_bound (pyslice h0 0 92) ltac:(by apply pyslice_bytes)) as Bc.
  pack_step. exists h, h0. split; [done|]. split; [constructor|split; [|split]]; read_updated; auto.
  - lia.
  - apply (updated_bytes U); auto using le_bytes_bytes.
  - rewrite slice_assign_split by (rewrite ?zlen_pyslice; lia). rewrite zlen_pyslice by lia.
    rewrite !pyslice_pyslice by lia. simpl Z.add. read_updated.
    rewrite <- Z, <- !pyslice_split by lia. done.
Qed.
End header.

Lemma linux_entry_spec first last :
  0 <= first < 2 ^ 64 -> 0 <= last < 2 ^ 64 -> exists e,
  Maker.linux_entry first last = Ret e /\ zlen e = 128 /\ Forall is_byte e
  /\ pyslice e 0 16 = LINUX /\ pyslice e 32 40 = le_bytes 8 first /\ pyslice e 40 48 = le_bytes 8 last.
Proof.
  intros Hf Hl. destruct LINUX_bytes as [LL BL], PARTITION_GUID_bytes as [LG BG].
  unfold Maker.linux_entry. rewrite bytearray_ret by lia. cbn [mbind py_bind].
  pose proof (zlen_zeros 128 ltac:(lia)) as L0. pose proof (zeros_bytes 128) as B0.
  generalize dependent (zeros 128). intros z L0 B0.
  set (name := Maker.utf16_ascii (lit "Existing")).
  assert (LN : zlen name = 16) by reflexivity.
  assert (BN : Forall is_byte name) by (apply bytes_check; reflexivity).
  clearbody name. generalize dependent LINUX. intros lx LL BL.
  generalize dependent PARTITION_GUID. intros pg LG BG.
  assign_step. assign_step. pack_step. pack_step. assign_step.
  eexists. split; [reflexivity|]. repeat split; read_updated; auto.
  - lia.
  - repeat match goal with U : updated _ ?h _ _ |- Forall is_byte ?h =>
      apply (updated_bytes U); [|auto using le_bytes_bytes] end. done.
Qed.

Lemma protective_mbr_spec sectors :
  1 <= sectors -> exists m,
  Maker.protective_mbr sectors = Ret m /\ zlen m = 512
  /\ pyslice m 450 451 = [238] /\ pyslice m 510 512 = [85; 170].
Proof.
  intros Hs. unfold Maker.protective_mbr. rewrite bytearray_ret by (unfold SECTOR; lia).
  cbn [mbind py_bind]. change SECTOR with 512.
  pose proof (zlen_zeros 512 ltac:(lia)) as L0. generalize dependent (zeros 512). intros z L0.
  destruct (pyset_updated z (446 + 4) 238) as (h & E & U); [lia|]. rewrite E. cbn [mbind py_bind].
  assert (L1 : zlen [238] = 1) by done. pose proof (updated_zlen U) as L2.
  pack_step. pack_step. assert (L5 : zlen [85; 170] = 2) by done.
  assign_step. eexists. split; [reflexivity|]. repeat split; read_updated; auto. lia.
Qed.

Lemma length_lcg n s : length (Maker.lcg_block n s) = n.
Proof. revert s. induction n; intros; simpl; auto. Qed.

Lemma zlen_block : zlen Maker.block = 4096.
Proof. unfold zlen, Maker.block. rewrite length_lcg. lia. Qed.

Lemma zlen_times l n : 0 <= n -> zlen (Maker.times l n) = n * zlen l.
Proof.
  intros. unfold Maker.times. replace n with (Z.of_nat (Z.to_nat n)) at 2 by lia.
  induction (Z.to_nat n) as [|k IH]; [done|].
  rewrite replicate_S, concat_cons, zlen_app, IH. lia.
Qed.

(** The regions of an image [make] wrote. *)
Record is_image (size part : Z) (image array h1 h2 : list Z) : Prop := {
  im_len : zlen image = size * 2048 * 512;
  im_mbr : pyslice (pyslice image 0 512) 450 451 = [238]
           /\ pyslice (pyslice image 0 512) 510 512 = [85; 170];
  im_h1 : pyslice image 512 1024 = h1;
  im_array : pyslice image 1024 17408 = array;
  im_array2 : pyslice image ((size * 2048 - 33) * 512) ((size * 2048 - 33) * 512 + 16384) = array;
  im_h2 : pyslice image ((size * 2048 - 1) * 512) (size * 2048 * 512) = h2;
  im_body : pyslice image (2048 * 512) ((2048 + part * 2048) * 512)
            = Maker.times Maker.block (part * 256)
}.

Record is_array (array : list Z) (first last : Z) : Prop := {
  ia_len : zlen array = 16384;
  ia_bytes : Forall is_byte array;
  ia_guid : pyslice array 0 16 = LINUX;
  ia_first : pyslice array 32 40 = le_bytes 8 first;
  ia_last : pyslice array 40 48 = le_bytes 8 last;
  ia_rest : forall a b, 128 <= a -> a <= b -> b <= 16384 -> pyslice array a b = zeros (b - a)
}.

Section image.
Context (size part : Z).
Hypothesis Hpart : 0 <= part.
Hypothesis Hfit : part + 2 <= size.
Hypothesis Hmax : size * 2048 <= 2 ^ 32.

Let S := size * 2048.

Lemma make_spec : exists image array h1 h2 h1' h2',
  Maker.make size part = Ret image /\ is_image size part image array h1 h2
  /\ is_array array 2048 (2048 + part * 2048 - 1)
  /\ is_header h1 S (Crc32.crc32 array) 1 (S - 1) 2
  /\ is_header h2 S (Crc32.crc32 array) (S - 1) 1 (S - 33)
  /\ pyslice h1 16 20 = le_bytes 4 (Crc32.crc32 (pyslice h1' 0 92))
  /\ slice_assign (pyslice h1 0 92) 16 20 (zeros 4) = pyslice h1' 0 92
  /\ pyslice h2 16 20 = le_bytes 4 (Crc32.crc32 (pyslice h2' 0 92))
  /\ slice_assign (pyslice h2 0 92) 16 20 (zeros 4) = pyslice h2' 0 92
  /\ Forall is_byte h1' /\ Forall is_byte h2'.
Proof.
  assert (HS : S = size * 2048) by done. clearbody S.
  unfold Maker.make. rewrite bytearray_ret by (unfold SECTOR; lia). cbn [mbind py_bind].
  destruct (protective_mbr_spec (size * 2048)) as (m & Em & Lm & M1 & M2); [lia|].
  rewrite Em. cbn [mbind py_bind]. clear Em.
  destruct (linux_entry_spec 2048 (2048 + part * 2048 - 1)) as (e & Ee & Le & Be & E1 & E2 & E3); [lia..|].
  rewrite Ee. cbn [mbind py_bind]. clear Ee. cbv zeta.
  assert (A : is_array (e ++ zeros (127 * 128)) 2048 (2048 + part * 2048 - 1)).
  { pose proof (zlen_zeros (127 * 128) ltac:(lia)) as LZ. constructor.
    - rewrite zlen_app, Le, LZ. lia.
    - apply Forall_app. split; [done | apply zeros_bytes].
    - by rewrite pyslice_app_l by lia.
    - by rewrite pyslice_app_l by lia.
    - by rewrite pyslice_app_l by lia.
    - intros. rewrite pyslice_app_r by lia. rewrite Le, pyslice_zeros by lia. f_equal. lia. }
  generalize dependent (e ++ zeros (127 * 128)). intros array A. clear dependent e.
  pose proof (crc32_bound array (ia_bytes _ _ _ A)) as Bc.
  rewrite <- HS.
  destruct (header_spec S (Crc32.crc32 array) 1 (S - 1) 2) as (h1 & h1' & G1 & G2 & G3 & G4 & G5); [lia..|].
  rewrite G1. cbn [mbind py_bind]. clear G1.
  destruct (header_spec S (Crc32.crc32 array) (S - 1) 1 (S - 33)) as (h2 & h2' & K1 & K2 & K3 & K4 & K5); [lia..|].
  rewrite K1. cbn [mbind py_bind]. clear K1.
  rewrite zlen_block, (ia_len _ _ _ A). change SECTOR with 512.
  replace ((2048 + part * 2048 - 1 - 2048 + 1) * 512 / 4096) with (part * 256)
    by (apply Z.div_unique_exact; lia).
  pose proof (zlen_times Maker.block (part * 256) ltac:(lia)) as LB. rewrite zlen_block in LB.
  pose proof (zlen_zeros (S * 512) ltac:(lia)) as L0.
  pose proof (ia_len _ _ _ A) as LA. pose proof (ih_len _ _ _ _ _ _ G2) as LH1.
  pose proof (ih_len _ _ _ _ _ _ K2) as LH2.
  remember (Maker.times Maker.block (part * 256)) as body eqn:EB.
  generalize dependent (zeros (S * 512)). intros z L0.
  do 6 assign_step.
  eexists _, array, h1, h2, h1', h2'. split; [reflexivity|]. split; [|by split_and!].
  constructor; read_updated; try rewrite <- EB; auto; lia.
Qed.
End image.

(** The kernel's byte-by-byte checksum with a hole is the checksum of the copy
    with the hole cleared, which is how the Python side computes it. *)
Lemma zip_range_app (a b : list Z) s :
  zip (pyrange s (s + zlen (a ++ b))) (a ++ b)
  = zip (pyrange s (s + zlen a)) a ++ zip (pyrange (s + zlen a) (s + zlen a + zlen b)) b.
Proof.
  revert s. induction a as [|x a IH]; intros s; simpl.
  - rewrite zlen_nil, !Z.add_0_r. by destruct (pyrange s s).
  - pose proof (zlen_nonneg (a ++ b)). pose proof (zlen_nonneg a). rewrite !zlen_cons.
    rewrite (pyrange_cons s (s + (1 + zlen (a ++ b)))) by lia.
    rewrite (pyrange_cons s (s + (1 + zlen a))) by lia. simpl. f_equal.
    rewrite !Z.add_assoc. apply IH.
Qed.

Lemma zeroed_outside off len l s v :
  s + zlen l <= off \/ off + len <= s ->
  foldl (fun v ib => Crc32.crc32_byte v (if (off <=? ib.1) && (ib.1 <? off + len) then 0 else ib.2))
    v (zip (pyrange s (s + zlen l)) l) = Crc32.crc32_update v l.
Proof.
  revert s v. induction l as [|x l IH]; intros s v H.
  - by destruct (pyrange _ _).
  - pose proof (zlen_nonneg l). rewrite zlen_cons in *. rewrite pyrange_cons by lia. simpl.
    rewrite Z.add_assoc, IH by lia. f_equal. f_equal.
    destruct (_ && _) eqn:E; [bool_to_prop; lia | done].
Qed.

Lemma zeroed_inside off len l s v :
  off <= s -> s + zlen l <= off + len ->
  foldl (fun v ib => Crc32.crc32_byte v (if (off <=? ib.1) && (ib.1 <? off + len) then 0 else ib.2))
    v (zip (pyrange s (s + zlen l)) l) = Crc32.crc32_update v (zeros (zlen l)).
Proof.
  revert s v. induction l as [|x l IH]; intros s v H1 H2.
  - by destruct (pyrange _ _).
  - pose proof (zlen_nonneg l). rewrite zlen_cons in *. rewrite pyrange_cons by lia.
    unfold zeros. rewrite Z2Nat.inj_add by lia. simpl.
    rewrite Z.add_assoc, IH by lia. f_equal. f_equal.
    destruct (_ && _) eqn:E; [done | bool_to_prop; lia].
Qed.

Lemma crc32_zeroed_assign l off len :
  0 <= off -> 0 <= len -> off + len <= zlen l ->
  Kernel.crc32_zeroed l off len = Crc32.crc32 (slice_assign l off (off + len) (zeros len)).
Proof.
  intros. unfold Kernel.crc32_zeroed, Crc32.crc32. rewrite slice_assign_split by lia. f_equal.
  assert (E : l = pyslice l 0 off ++ pyslice l off (off + len) ++ pyslice l (off + len) (zlen l)).
  { rewrite <- !pyslice_split by lia. symmetry. by apply pyslice_full. }
  pose proof (zlen_pyslice l 0 off ltac:(lia) ltac:(lia)) as La.
  pose proof (zlen_pyslice l off (off + len) ltac:(lia) ltac:(lia)) as Lb.
  set (a := pyslice l 0 off) in *. set (b := pyslice l off (off + len)) in *.
  set (c := pyslice l (off + len) (zlen l)) in *. clearbody a b c. subst l.
  rewrite <- (Z.add_0_l (zlen _)), zip_range_app, zip_range_app, !foldl_app.
  rewrite zeroed_outside, zeroed_inside, zeroed_outside by lia.
  rewrite !crc_update_app. do 2 f_equal. f_equal. lia.
Qed.

Lemma array_crc_update data n : forall lba crc,
  0 <= lba -> (lba + Z.of_nat n) * 512 <= zlen data ->
  Kernel.array_crc data lba (Z.of_nat n * 512) n crc
  = Some (Crc32.crc32_update crc (pyslice data (lba * 512) ((lba + Z.of_nat n) * 512))).
Proof.
  induction n as [|n IH]; intros lba crc H1 H2.
  - simpl. by rewrite Z.add_0_r, pyslice_empty by lia.
  - cbn [Kernel.array_crc]. unfold Kernel.read_sector at 1. destruct (_ <=? _) eqn:E; [|lia].
    cbn [mbind option_bind]. rewrite Z.min_r by lia.
    replace (Z.of_nat (S n) * 512 - 512) with (Z.of_nat n * 512) by lia. rewrite IH by lia.
    rewrite <- crc_update_app. do 2 f_equal. rewrite pyslice_pyslice by lia.
    rewrite (pyslice_split data (lba * 512) ((lba + 1) * 512)) by lia. f_equal; f_equal; lia.
Qed.

Lemma read_sector_some data lba :
  0 <= lba -> (lba + 1) * 512 <= zlen data ->
  Kernel.read_sector data lba = Some (pyslice data (lba * 512) ((lba + 1) * 512)).
Proof. intros. unfold Kernel.read_sector. zcase; [done | lia]. Qed.

Lemma field_le n l off x :
  pyslice l off (off + Z.of_nat n) = le_bytes n x -> 0 <= x < 256 ^ Z.of_nat n ->
  Kernel.field n l off = x.
Proof. intros E ?. unfold Kernel.field. by rewrite E, le_val_le_bytes. Qed.

(** Both readers find the same fields in a header sector. *)
Section reads.
Context (h : list Z) (sectors crc here other array_lba : Z).
Hypothesis H : is_header h sectors crc here other array_lba.
Hypothesis Hs : 0 <= sectors - 34 < 2 ^ 64.
Hypothesis Hc : 0 <= crc < 2 ^ 32.
Hypothesis Hh : 0 <= here < 2 ^ 64.
Hypothesis Ho : 0 <= other < 2 ^ 64.
Hypothesis Ha : 0 <= array_lba < 2 ^ 64.

Lemma unpack_header stored :
  pyslice h 16 20 = le_bytes 4 stored -> 0 <= stored < 2 ^ 32 ->
  unpack_le 4 h 12 = Ret 92 /\ unpack_le 4 h 16 = Ret stored /\ unpack_le 8 h 24 = Ret here
  /\ unpack_le 8 h 32 = Ret other /\ unpack_le 8 h 72 = Ret array_lba
  /\ unpack_le 4 h 80 = Ret 128 /\ unpack_le 4 h 84 = Ret 128 /\ unpack_le 4 h 88 = Ret crc.
Proof using All.
  intros ? ?. destruct H. split_and!; apply unpack_le_ret; simpl Z.of_nat; try done; lia.
Qed.

Lemma read_header stored :
  pyslice h 16 20 = le_bytes 4 stored -> 0 <= stored < 2 ^ 32 ->
  Kernel.read_u32 h 12 = 92 /\ Kernel.read_u32 h 16 = stored /\ Kernel.read_u64 h 24 = here
  /\ Kernel.read_u64 h 32 = other /\ Kernel.read_u64 h 40 = 34
  /\ Kernel.read_u64 h 48 = sectors - 34 /\ Kernel.read_u64 h 72 = array_lba
  /\ Kernel.read_u32 h 80 = 128 /\ Kernel.read_u32 h 84 = 128 /\ Kernel.read_u32 h 88 = crc.
Proof using All.
  intros ? ?. destruct H. split_and!; apply field_le; simpl Z.of_nat; try done; lia.
Qed.
End reads.

Lemma read_table_ok data lba other sectors array_lba h h' array :
  pyslice data (lba * 512) ((lba + 1) * 512) = h ->
  is_header h sectors (Crc32.crc32 array) lba other array_lba ->
  pyslice h 16 20 = le_bytes 4 (Crc32.crc32 (pyslice h' 0 92)) ->
  slice_assign (pyslice h 0 92) 16 20 (zeros 4) = pyslice h' 0 92 ->
  Forall is_byte h' -> Forall is_byte array ->
  pyslice data (array_lba * 512) (array_lba * 512 + 16384) = array ->
  0 <= sectors - 34 < 2 ^ 64 -> 0 <= lba < 2 ^ 64 -> 0 <= other < 2 ^ 64 -> 0 <= array_lba < 2 ^ 64 ->
  Checker.read_table data lba other = Ret (array, 128, 128).
Proof.
  intros E H E1 E2 B1 B2 EA ? ? ? ?. unfold Checker.read_table. change SECTOR with 512. rewrite E.
  pose proof (crc32_bound array B2) as Bc.
  pose proof (crc32_bound (pyslice h' 0 92) (pyslice_bytes _ _ _ B1)) as Bs.
  destruct (unpack_header _ _ _ _ _ _ H ltac:(lia) Bc ltac:(lia) ltac:(lia) ltac:(lia) _ E1 Bs)
    as (R1 & R2 & R3 & R4 & R5 & R6 & R7 & R8).
  cbv zeta. rewrite R1, R2, R3, R4, R5, R6, R7, R8. cbn [mbind py_bind].
  rewrite E2, (ih_magic _ _ _ _ _ _ H). change (128 * 128) with 16384. rewrite EA.
  unfold passert. by rewrite !Z.eqb_refl, zeqb_list_refl.
Qed.

Lemma used_entries_single array first last :
  is_array array first last -> Checker.used_entries array 128 128 = [pyslice array 0 128].
Proof.
  intros A. unfold Checker.used_entries. rewrite (pyrange_cons 0) by lia.
  cbn [omap list_omap]. rewrite Z.mul_0_l, (Z.add_0_l 16), (ia_guid _ _ _ A).
  replace (existsb _ LINUX) with true by reflexivity. f_equal; [].
  enough (HZ : forall i, i ∈ pyrange 1 128 ->
    existsb (fun b => negb (b =? 0)) (pyslice array (i * 128) (i * 128 + 16)) = false).
  { change (0 + 1) with 1. revert HZ. induction (pyrange 1 128) as [|i l IH]; intros HZ; [done|].
    cbn [omap list_omap]. rewrite HZ by left. apply IH. intros. apply HZ. by right. }
  intros i Hi. apply elem_of_pyrange in Hi. rewrite (ia_rest _ _ _ A) by lia.
  replace (i * 128 + 16 - i * 128) with 16 by lia. reflexivity.
Qed.

(** C10: the test disk of tools/make-gpt-disk.py, for every size in megabytes a
    protective entry can hold and every partition that leaves two megabytes:
    the tool's own reader accepts the table at the start and the one at the
    end, each with one entry, of Linux type, with the bounds of the partition,
    and the partition holds the generated block over and over. *)
Theorem make_tables size part :
  0 <= part -> part + 2 <= size -> size * 2048 <= 2 ^ 32 ->
  exists image entry array,
    Maker.make size part = Ret image
    /\ Checker.sectors image = size * 2048
    /\ Checker.read_table image 1 (size * 2048 - 1) = Ret (array, 128, 128)
    /\ Checker.read_table image (size * 2048 - 1) 1 = Ret (array, 128, 128)
    /\ Checker.used_entries array 128 128 = [entry]
    /\ pyslice entry 0 16 = LINUX
    /\ unpack_le 8 entry 32 = Ret 2048
    /\ unpack_le 8 entry 40 = Ret (2048 + part * 2048 - 1)
    /\ pyslice image (2048 * SECTOR) ((2048 + part * 2048) * SECTOR)
       = Maker.times Maker.block (part * 256).
Proof.
  intros H1 H2 H3.
  destruct (make_spec size part H1 H2 H3)
    as (image & array & h1 & h2 & h1' & h2' & E & I & A & K1 & K2 & C1 & C2 & C3 & C4 & B1 & B2).
  pose proof (ia_len _ _ _ A) as LA. pose proof (ia_bytes _ _ _ A) as BA.
  assert (LE : zlen (pyslice array 0 128) = 128) by (rewrite zlen_pyslice; lia).
  exists image, (pyslice array 0 128), array. split; [done|]. split_and!.
  - unfold Checker.sectors. rewrite (im_len _ _ _ _ _ _ I). change SECTOR with 512.
    apply Z.div_mul. lia.
  - apply (read_table_ok _ _ _ (size * 2048) 2 h1 h1'); try done; try lia; apply I.
  - apply (read_table_ok _ _ _ (size * 2048) (size * 2048 - 33) h2 h2'); try done; try lia; [|apply I].
    replace (size * 2048 - 1 + 1) with (size * 2048) by lia. apply I.
  - eapply used_entries_single, A.
  - rewrite pyslice_pyslice by lia. apply A.
  - apply unpack_le_ret; simpl Z.of_nat; try lia. rewrite pyslice_pyslice by lia. apply A.
  - apply unpack_le_ret; simpl Z.of_nat; try lia. rewrite pyslice_pyslice by lia. apply A.
  - change SECTOR with 512. apply I.
Qed.

Lemma scan_rest data array first last r indices :
  is_array array first last -> pyslice data 1024 17408 = array -> 17408 <= zlen data ->
  Forall (fun i => 1 <= i < 128) indices -> forall fu lu,
  Kernel.scan_entries data 2 128 fu lu indices r = inr r.
Proof.
  intros A E L F fu lu. induction F as [|i l Hi F IH]; [done|]. cbn [Kernel.scan_entries].
  pose proof (Z.div_mod (i * 128) 512 ltac:(lia)). pose proof (Z.mod_pos_bound (i * 128) 512 ltac:(lia)).
  assert ((i * 128) mod 512 <= 384) by (Z.to_euclidean_division_equations; lia).
  zcase; [lia|]. rewrite read_sector_some by lia.
  rewrite !pyslice_pyslice by lia.
  assert (EZ : pyslice data ((2 + i * 128 / 512) * 512 + ((i * 128) mod 512 + 0))
               ((2 + i * 128 / 512) * 512 + ((i * 128) mod 512 + 16)) = zeros 16).
  { transitivity (pyslice array (i * 128) (i * 128 + 16)).
    - rewrite <- E, pyslice_pyslice by lia. f_equal; lia.
    - rewrite (ia_rest _ _ _ A) by lia. f_equal. lia. }
  rewrite EZ. cbn. apply IH.
Qed.

Lemma scan_single image array part fu lu r :
  is_array array 2048 (2048 + part * 2048 - 1) -> pyslice image 1024 17408 = array ->
  17408 <= zlen image -> 1 <= part < 2 ^ 32 -> fu <= 2048 -> 2048 + part * 2048 - 1 <= lu ->
  Kernel.scan_entries image 2 128 fu lu (pyrange 0 128) r
  = match Kernel.push r (Kernel.Partition 2048 (part * 2048) 255 false) with
    | None => inl r
    | Some r => inr r
    end.
Proof.
  intros A E L Hp Hf Hl. pose proof (ia_len _ _ _ A) as LA.
  rewrite (pyrange_cons 0) by lia. cbn [Kernel.scan_entries].
  change (0 * 128) with 0. change (0 mod 512) with 0. change (2 + 0 / 512) with 2.
  zcase; [lia|]. rewrite read_sector_some by lia.
  assert (ER : forall a b, 0 <= a -> a <= b -> b <= 128 ->
    pyslice (pyslice (pyslice image (2 * 512) ((2 + 1) * 512)) 0 (0 + 128)) a b = pyslice array a b).
  { intros. rewrite <- E, !pyslice_pyslice by lia. f_equal; lia. }
  unfold Kernel.read_u64, Kernel.field. rewrite !ER by (simpl; lia).
  rewrite (ia_guid _ _ _ A). change (32 + Z.of_nat 8) with 40. change (40 + Z.of_nat 8) with 48.
  rewrite (ia_first _ _ _ A), (ia_last _ _ _ A), !le_val_le_bytes by (simpl Z.of_nat; lia).
  replace (forallb (Z.eqb 0) LINUX) with false by reflexivity.
  replace (zeqb_list LINUX Kernel.efi_guid) with false by reflexivity.
  replace (zeqb_list LINUX Kernel.swap_guid) with false by reflexivity.
  destruct (_ || _) eqn:EE; [bool_to_prop; lia|].
  replace (2048 + part * 2048 - 1 - 2048 + 1) with (part * 2048) by lia.
  destruct (Kernel.push _ _); [|done]. change (0 + 1) with 1.
  eapply scan_rest; eauto. apply Forall_forall. intros i Hi. by apply elem_of_pyrange in Hi.
Qed.

Lemma report_single size part :
  1 <= part /\ part + 2 <= size /\ size * 2048 <= 2 ^ 32 ->
  match match Kernel.push (Kernel.Report false true false 0 0 0 0 false [])
                (Kernel.Partition 2048 (part * 2048) 255 false) with
        | None => inl (Kernel.Report false true false 0 0 0 0 false [])
        | Some r => inr r
        end with
  | inl r => r
  | inr r => Kernel.set_verified r
      (negb (zlen (Kernel.entries r) =? 0) && Kernel.validate (size * 2048) (Kernel.entries r))
  end
  = Kernel.Report false true false 0 0 2048 (part * 2048) true
      [Kernel.Partition 2048 (part * 2048) 255 false].
Proof.
  intros. unfold Kernel.push. replace (zlen _ =? 16) with false by done.
  unfold Kernel.set_verified, Kernel.end_lba. cbn -[Z.mul Z.pow Z.add Z.ltb Z.eqb Z.min].
  unfold Kernel.end_lba. cbn -[Z.mul Z.pow Z.add Z.ltb Z.eqb Z.min].
  f_equal; [rewrite Z.min_l by lia; lia|].
  replace (part * 2048 =? 0) with false by lia.
  replace (size * 2048 <? 2048 + part * 2048) with false by lia. done.
Qed.

Lemma inspect_gpt_image size part :
  1 <= part -> part + 2 <= size -> size * 2048 <= 2 ^ 32 ->
  exists image, zlen image = size * 2048 * 512 /\ Maker.make size part = Ret image
    /\ pyslice (pyslice image 0 512) 450 451 = [238]
    /\ pyslice (pyslice image 0 512) 510 512 = [85; 170]
    /\ Kernel.inspect_gpt image (size * 2048)
       = Kernel.Report false true false 0 0 2048 (part * 2048) true
           [Kernel.Partition 2048 (part * 2048) 255 false].
Proof.
  intros H1 H2 H3.
  destruct (make_spec size part ltac:(lia) H2 H3)
    as (image & array & h1 & h2 & h1' & h2' & E & I & A & K1 & K2 & C1 & C2 & C3 & C4 & B1 & B2).
  exists image. split; [apply I|]. split; [done|]. split; [apply I|]. split; [apply I|].
  pose proof (ia_bytes _ _ _ A) as BA. pose proof (crc32_bound array BA) as Bc.
  pose proof (crc32_bound (pyslice h1' 0 92) (pyslice_bytes _ _ _ B1)) as Bs.
  pose proof (im_len _ _ _ _ _ _ I) as LI. pose proof (ih_len _ _ _ _ _ _ K1) as LH.
  destruct (read_header _ _ _ _ _ _ K1 ltac:(lia) Bc ltac:(lia) ltac:(lia) ltac:(lia) _ C1 Bs)
    as (R1 & R2 & R3 & R4 & R5 & R6 & R7 & R8 & R9 & R10).
  unfold Kernel.inspect_gpt. rewrite read_sector_some by lia. change (1 * 512) with 512.
  change ((1 + 1) * 512) with 1024. rewrite (im_h1 _ _ _ _ _ _ I).
  unfold Kernel.header_ok. cbv zeta. rewrite R1, R2, R3, R4, R5, R6, R7, R8, R9, R10.
  rewrite (ih_magic _ _ _ _ _ _ K1), zeqb_list_refl.
  rewrite crc32_zeroed_assign by (rewrite ?zlen_pyslice; lia). change (16 + 4) with 20.
  rewrite C2, !Z.eqb_refl. replace (size * 2048 - 1 <? size * 2048) with true by lia.
  cbn [andb negb between Z.leb Z.eqb Pos.eqb Z.compare Pos.compare Pos.compare_cont].
  destruct (_ || _) eqn:EE; [bool_to_prop; unfold between in *; bool_to_prop; lia|]. clear EE.
  change ((128 * 128 + 511) / 512) with 32. zcase; [lia|].
  change (128 * 128) with (Z.of_nat 32 * 512). change (Z.to_nat 32) with 32%nat.
  rewrite array_crc_update by lia. change (2 * 512) with 1024.
  change ((2 + Z.of_nat 32) * 512) with 17408. rewrite (im_array _ _ _ _ _ _ I).
  change (Z.lxor 4294967295 (Crc32.crc32_update 4294967295 array)) with (Crc32.crc32 array).
  rewrite Z.eqb_refl. cbn [negb].
  rewrite (scan_single image array part) by (first [apply A | apply I | lia]).
  apply report_single. lia.
Qed.

(** C11: the kernel's partition scan of the same disk reports a GPT whose header
    and entries it has verified, and the one partition, a Linux one that is
    not bootable, at the sector and with the length the tool chose. *)
Theorem kernel_reads_image size part :
  1 <= part -> part + 2 <= size -> size * 2048 <= 2 ^ 32 ->
  exists image, Maker.make size part = Ret image
    /\ Kernel.inspect image (size * 2048)
       = Kernel.Report true true true 0 0 2048 (part * 2048) true
           [Kernel.Partition 2048 (part * 2048) 255 false].
Proof.
  intros H1 H2 H3. destruct (inspect_gpt_image size part H1 H2 H3) as (image & L & E & M1 & M2 & G).
  exists image. split; [done|]. unfold Kernel.inspect. rewrite G.
  zcase; [lia|]. rewrite read_sector_some by lia. change (0 * 512) with 0. change ((0 + 1) * 512) with 512.
  set (sector := pyslice image 0 512) in *. clearbody sector.
  assert (F1 : Kernel.field 1 sector 510 = 85).
  { unfold Kernel.field. transitivity (le_val (pyslice (pyslice sector 510 512) 0 1));
      [by rewrite pyslice_pyslice by lia | by rewrite M2]. }
  assert (F2 : Kernel.field 1 sector 511 = 170).
  { unfold Kernel.field. transitivity (le_val (pyslice (pyslice sector 510 512) 1 2));
      [by rewrite pyslice_pyslice by lia | by rewrite M2]. }
  assert (F3 : Kernel.field 1 sector (446 + 0 * 16 + 4) = 238) 
    by (unfold Kernel.field; transitivity (le_val (pyslice sector 450 451)); [done | by rewrite M1]).
  rewrite F1, F2. rewrite (pyrange_cons 0 4) by lia. cbn [existsb]. by rewrite F3.
Qed.

Lemma make_tables_witness : exists image entry array,
  Maker.make 64 24 = Ret image
  /\ Checker.sectors image = 64 * 2048
  /\ Checker.read_table image 1 (64 * 2048 - 1) = Ret (array, 128, 128)
  /\ Checker.read_table image (64 * 2048 - 1) 1 = Ret (array, 128, 128)
  /\ Checker.used_entries array 128 128 = [entry]
  /\ pyslice entry 0 16 = LINUX
  /\ unpack_le 8 entry 32 = Ret 2048
  /\ unpack_le 8 entry 40 = Ret (2048 + 24 * 2048 - 1)
  /\ pyslice image (2048 * SECTOR) ((2048 + 24 * 2048) * SECTOR)
     = Maker.times Maker.block (24 * 256).
Proof. apply (make_tables 64 24); lia. Defined.

Lemma kernel_reads_image_witness : exists image,
  Maker.make 64 24 = Ret image
  /\ Kernel.inspect image (64 * 2048)
     = Kernel.Report true true true 0 0 2048 (24 * 2048) true
         [Kernel.Partition 2048 (24 * 2048) 255 false].
Proof. apply (kernel_reads_image 64 24); lia. Defined.
