(* ===== verification/Fat.v ===== *)
(** Fat: tools/check-fat.py, the reader that cross-checks the kernel's FAT
    volumes, and the directory entries kernel/src/fatfs.rs writes.

    [Checker] is the script: the boot sector, the FAT, the ownership map
    [claimed], directories with long names, the walk and the closing count.
    [Kernel] is [checksum], [pattern] and the entries of [add_entry].  The
    theorems say what a successful run establishes, that the chains always
    end, which FAT32 images a run cannot accept, and that a directory entry
    the kernel wrote is read back with its long name. *)
From Stdlib Require Import ZArith Lia List Sorted.
From stdpp Require Import base list gmap strings.
From S2P Require Import Prelude Text.
Open Scope Z_scope.

(** * tools/check-fat.py *)

Module Checker.

(** The module-level variables the boot sector determines. *)
Record volume := Volume {
  image : list Z;
  base : Z;
  spc : Z;
  reserved : Z;
  fats : Z;
  fat_sectors : Z;
  root_sectors : Z;
  data_start : Z;
  clusters : Z;
  is32 : bool;
  root_cluster : Z;
  fat_bytes : list Z
}.

Definition sector_of (image : list Z) (base n : Z) : list Z :=
  pyslice image (base + n * 512) (base + (n + 1) * 512).
Definition sector (v : volume) (n : Z) : list Z := sector_of (image v) (base v) n.

(** The FAT copy whose first sector is [first]. *)
Definition fat_copy (image : list Z) (base first fat_sectors : Z) : list Z :=
  concat ((fun i => sector_of image base (first + i)) <$> pyrange 0 fat_sectors).

(** [a or b]. *)
Definition zor (a b : Z) : Z := if a =? 0 then b else a.

Definition open_volume (image : list Z) (start : Z) : py volume :=
  let base := start * 512 in
  let boot := pyslice image base (base + 512) in
  passert (zeqb_list (pyslice boot 510 512) [85; 170]);;
  bps ← unpack_le 2 boot 11;
  spc ← unpack_le 1 boot 13;
  reserved ← unpack_le 2 boot 14;
  fats ← unpack_le 1 boot 16;
  root_entries ← unpack_le 2 boot 17;
  total16 ← unpack_le 2 boot 19;
  fat16 ← unpack_le 2 boot 22;
  total32 ← unpack_le 4 boot 32;
  fat32 ← unpack_le 4 boot 36;
  let fat_sectors := zor fat16 fat32 in
  let total := zor total16 total32 in
  let root_sectors := (root_entries * 32 + 511) / 512 in
  let data_start := reserved + fats * fat_sectors + root_sectors in
  clusters ← (if spc =? 0 then Raise ZeroDivisionError else Ret ((total - data_start) / spc));
  let is32 := 65525 <=? clusters in
  root_cluster ← (if is32 then unpack_le 4 boot 44 else Ret 0);
  let fat_bytes := fat_copy image base reserved fat_sectors in
  foldM (fun (_ : unit) copy =>
           passert (zeqb_list (fat_copy image base (reserved + copy * fat_sectors) fat_sectors) fat_bytes))
        tt (pyrange 1 fats);;
  Ret (Volume image base spc reserved fats fat_sectors root_sectors data_start clusters is32
         root_cluster fat_bytes).

Definition fat_get (v : volume) (c : Z) : py Z :=
  if is32 v then x ← unpack_le 4 (fat_bytes v) (c * 4); Ret (Z.land x 268435455)
  else unpack_le 2 (fat_bytes v) (c * 2).

Definition end_ (v : volume) (x : Z) : bool := (if is32 v then 268435448 else 65528) <=? x.

(** The loop condition of both chain readers. *)
Definition more (v : volume) (c : Z) : bool := (2 <=? c) && negb (end_ v c).

(** The loop of [chain(first, owner)] from cluster [c], with [out] collected
    so far. *)
Fixpoint chain_loop (fuel : nat) (v : volume) (owner : list Z) (claimed : gmap Z (list Z))
    (out : list Z) (c : Z) : py (gmap Z (list Z) * list Z) :=
  match fuel with
  | O => NoFuel
  | S fuel =>
      if more v c then
        passert ((2 <=? c) && (c <? clusters v + 2));;
        passert (bool_decide (claimed !! c = None));;
        let claimed := <[c := owner]> claimed in
        let out := out ++ [c] in
        c' ← fat_get v c;
        passert (zlen out <=? clusters v);;
        chain_loop fuel v owner claimed out c'
      else Ret (claimed, out)
  end.
Definition chain_fuel (v : volume) : nat := S (S (Z.to_nat (clusters v))).
Definition chain (v : volume) (claimed : gmap Z (list Z)) (first : Z) (owner : list Z) :=
  chain_loop (chain_fuel v) v owner claimed [] first.

Definition cluster_data (v : volume) (c : Z) : list Z :=
  concat ((fun i => sector v (data_start v + (c - 2) * spc v + i)) <$> pyrange 0 (spc v)).

(** [chain_nocount(first)]: the loop has no bound of its own. *)
Fixpoint chain_nocount (fuel : nat) (v : volume) (out : list Z) (c : Z) : py (list Z) :=
  match fuel with
  | O => NoFuel
  | S fuel =>
      if more v c then c' ← fat_get v c; chain_nocount fuel v (out ++ [c]) c' else Ret out
  end.

Definition dir_bytes (fuel : nat) (v : volume) (first : Z) : py (list Z) :=
  if (first =? 0) && negb (is32 v)
  then Ret (concat ((fun i => sector v (reserved v + fats v * fat_sectors v + i))
                      <$> pyrange 0 (root_sectors v)))
  else cs ← chain_nocount fuel v [] first; Ret (concat (cluster_data v <$> cs)).

Definition checksum (short : list Z) : Z :=
  foldl (fun s b => Z.land (Z.lor (Z.shiftl (Z.land s 1) 7) (Z.shiftr s 1) + b) 255) 0 short.

(** [bytes.strip()] of a byte string is empty. *)
Definition bytes_blank (l : list Z) : bool := forallb byte_space l.

Definition short_name (short : list Z) : py (list Z) :=
  stem ← decode (pyslice short 0 8);
  ext ← (if bytes_blank (pyslice short 8 (zlen short)) then Ret []
         else e ← decode (pyslice short 8 (zlen short)); Ret (46 :: rstrip is_space e));
  Ret (rstrip is_space stem ++ ext).

(** [all(p[13] == checksum(short) for p in parts)]. *)
Fixpoint all_sums (sum : Z) (parts : list (list Z)) : py bool :=
  match parts with
  | [] => Ret true
  | p :: parts => b ← pyget p 13; if b =? sum then all_sums sum parts else Ret false
  end.

(** The sort key [x[0] & 0x1F]. *)
Definition lfn_key (e : list Z) : Z := Z.land (default 0 (head e)) 31.
Definition lfn_leb (a b : list Z) : bool := lfn_key a <=? lfn_key b.

Definition lfn_chars (p : list Z) : list Z := pyslice p 1 11 ++ pyslice p 14 26 ++ pyslice p 28 32.

Definition long_name (short : list Z) (lfn : list (list Z)) : py (list Z) :=
  let parts := sort_by lfn_leb lfn in
  ok ← all_sums (checksum short) parts;
  passert ok;;
  text ← utf16_le_decode (concat (lfn_chars <$> parts));
  Ret (default [] (head (split 0 text))).

Record dirent := Dirent { name : list Z; attr : Z; cl : Z; size : Z }.

(** The loop of [read_dir] over the 32-byte entries. *)
Fixpoint read_entries (is32 : bool) (raw : list (list Z)) (lfn : list (list Z)) : py (list dirent) :=
  match raw with
  | [] => Ret []
  | e :: raw =>
      b0 ← pyget e 0;
      if b0 =? 0 then Ret []
      else if b0 =? 229 then read_entries is32 raw []
      else
        b11 ← pyget e 11;
        if Z.land b11 63 =? 15 then read_entries is32 raw (lfn ++ [e])
        else if negb (Z.land b11 8 =? 0) then read_entries is32 raw []
        else
          let short := pyslice e 0 11 in
          name ← (if (zlen lfn =? 0) then short_name short else long_name short lfn);
          lo ← unpack_le 2 e 26;
          hi ← (if is32 then unpack_le 2 e 20 else Ret 0);
          size ← unpack_le 4 e 28;
          rest ← read_entries is32 raw [];
          if zeqb_list name (lit ".") || zeqb_list name (lit "..") then Ret rest
          else Ret (Dirent name b11 (Z.lor lo (Z.shiftl hi 16)) size :: rest)
  end.

(** [raw[i:i + 32] for i in range(0, len(raw), 32)]. *)
Definition slots (raw : list Z) : list (list Z) :=
  (fun k => pyslice raw (k * 32) (k * 32 + 32)) <$> pyrange 0 ((zlen raw + 31) / 32).

Definition read_dir (fuel : nat) (v : volume) (first : Z) : py (list dirent) :=
  raw ← dir_bytes fuel v first; read_entries (is32 v) (slots raw) [].

Definition pattern (seed i : Z) : Z :=
  Z.land (Z.shiftr (Z.land (i * 2654435761 + seed) 4294967295) 16) 255.

(** [all(data[i] == pattern(5, i) for i in range(size))]. *)
Fixpoint all_pattern (data : list Z) (indices : list Z) : py bool :=
  match indices with
  | [] => Ret true
  | i :: indices => b ← pyget data i; if b =? pattern 5 i then all_pattern data indices else Ret false
  end.

(** The printed lines. *)
Inductive line : Type :=
| DirLine (full : list Z)
| FileLine (full : list Z) (size : Z)
| PatternOk.

(** What a walk has done: the ownership map, the printed lines and, for the
    theorems, each chain read with its owner. *)
Record state := State {
  claimed : gmap Z (list Z);
  chains : list (list Z * list Z);
  out : list line
}.
Definition start_state : state := State ∅ [] [].

Definition print (s : state) (l : line) : state := State (claimed s) (chains s) (out s ++ [l]).

(** [chain(first, owner)] on the state. *)
Definition take_chain (v : volume) (s : state) (first : Z) (owner : list Z) : py (state * list Z) :=
  '(claimed, ch) ← chain v (claimed s) first owner;
  Ret (State claimed (chains s ++ [(owner, ch)]) (out s), ch).

(** The branch of [walk] for a file. *)
Definition walk_file (v : volume) (s : state) (full : list Z) (e : dirent) : py state :=
  let s := print s (FileLine full (size e)) in
  '(s, ch) ← (if cl e =? 0 then Ret (s, []) else take_chain v s (cl e) full);
  passert (size e <=? zlen ch * spc v * 512);;
  if size e =? 0 then Ret s
  else
    let data := pyslice (concat (cluster_data v <$> ch)) 0 (size e) in
    match find_sub (lit "remember me") (name e) with
    | None => Ret s
    | Some _ =>
        ok ← all_pattern data (pyrange 0 (size e));
        passert ok;;
        Ret (print s PatternOk)
    end.

(** [walk(first, path)]; [depth] bounds the nesting and [fuel] the unbounded
    loop of [chain_nocount]. *)
Fixpoint walk (depth fuel : nat) (v : volume) (s : state) (first : Z) (path : list Z) : py state :=
  match depth with
  | O => NoFuel
  | S depth =>
      es ← read_dir fuel v first;
      foldM (fun s e =>
        let full := path ++ [47] ++ name e in
        if negb (Z.land (attr e) 16 =? 0) then
          '(s, _) ← take_chain v (print s (DirLine full)) (cl e) full;
          walk depth fuel v s (cl e) full
        else walk_file v s full e) s es
  end.

(** [sum(1 for c in range(2, clusters + 2) if p(fat_get(c)))]. *)
Definition count_fat (v : volume) (p : Z -> bool) : py Z :=
  foldM (fun n c => x ← fat_get v c; Ret (if p x then n + 1 else n)) 0 (pyrange 2 (clusters v + 2)).

(** The closing lines; the result is what the last line prints. *)
Definition finish (v : volume) (s : state) : py (Z * Z) :=
  free ← count_fat v (fun x => x =? 0);
  used ← count_fat v (fun x => negb (x =? 0));
  passert (used =? Z.of_nat (base.size (claimed s)));;
  Ret (Z.of_nat (base.size (claimed s)), free).

Definition check (depth fuel : nat) (image : list Z) (start : Z) : py (state * (Z * Z)) :=
  v ← open_volume image start;
  s ← walk depth fuel v start_state (root_cluster v) [];
  r ← finish v s;
  Ret (s, r).

End Checker.

(** * kernel/src/fatfs.rs *)

Module Kernel.

Definition NAME_MAX : Z := 255.

Definition rotate_right_1 (x : Z) : Z := Z.lor (Z.shiftr x 1) (Z.shiftl (Z.land x 1) 7).
Definition checksum (short : list Z) : Z :=
  foldl (fun sum b => (rotate_right_1 sum + b) mod 256) 0 short.

Definition pattern (seed index : Z) : Z :=
  let x := ((index mod 2 ^ 32) * 2654435761 mod 2 ^ 32 + seed) mod 2 ^ 32 in
  default 0 (le_bytes 4 x !! 2%nat).

Definition fold (b : Z) : Z := if between 97 b 122 then b - 32 else b.

Definition valid_name (name : list Z) : bool :=
  negb ((zlen name =? 0) || (NAME_MAX <? zlen name) || zeqb_list name (lit ".") || zeqb_list name (lit ".."))
  && negb (existsb (Z.eqb (default 0 (last name))) [32; 46])
  && forallb (fun b => negb ((b <? 32) || existsb (Z.eqb b) [34; 42; 47; 58; 60; 62; 63; 92; 124])) name.

(** The closure [clean] of [make_short]: the bytes kept, at most [limit], and
    whether the conversion lost something. *)
Fixpoint clean (source : list Z) (limit : nat) (lossy : bool) : list Z * bool :=
  match source with
  | [] => ([], lossy)
  | b :: source =>
      if (b =? 32) || (b =? 46) then clean source limit true
      else
        let special := (128 <=? b) || existsb (Z.eqb b) [43; 44; 59; 61; 91; 93] in
        let lossy := lossy || special in
        let b := if special then 95 else fold b in
        match limit with
        | O => ([], true)
        | S limit => let '(out, lossy) := clean source limit lossy in (b :: out, lossy)
        end
  end.

(** The split at the last dot; a leading dot does not count. *)
Definition split_dot (name : list Z) : list Z * list Z :=
  match list_find (eq 46) (reverse name) with
  | Some (k, _) =>
      let position := (length name - 1 - k)%nat in
      if (0 <? position)%nat then (take position name, drop (S position) name) else (name, [])
  | None => (name, [])
  end.

Definition pad (n : nat) (l : list Z) : list Z := l ++ replicate (n - length l) 32.

(** The first half of [make_short]: the short name and whether the long name
    is exactly representable. *)
Definition short_of (name : list Z) : list Z * bool :=
  let '(base_raw, ext_raw) := split_dot name in
  let lossy := existsb (fun b => between 97 b 122) name in
  let '(base, lossy) := clean base_raw 8 lossy in
  let '(ext, lossy) := clean ext_raw 3 lossy in
  let lossy := lossy || (zlen base =? 0) in
  (pad 8 base ++ pad 3 ext, lossy).

(** [put16] and [put32]. *)
Definition put (n : nat) (entry : list Z) (at_ value : Z) : list Z :=
  slice_assign entry at_ (at_ + Z.of_nat n) (le_bytes n (value mod 256 ^ Z.of_nat n)).

Definition lfn_offsets : list Z := [1; 3; 5; 7; 9; 14; 16; 18; 20; 22; 24; 28; 30].
Definition lfn_unit (units : list Z) (at_ : Z) : Z :=
  if at_ <? zlen units then default 0 (units !! Z.to_nat at_)
  else if at_ =? zlen units then 0 else 65535.

(** The long-name entry [number] of [total], as [add_entry] writes it. *)
Definition lfn_entry (units : list Z) (sum total number : Z) : list Z :=
  let entry := <[0%nat := Z.lor number (if number =? total then 64 else 0)]> (zeros 32) in
  let entry := <[13%nat := sum]> (<[11%nat := 15]> entry) in
  let base := (number - 1) * 13 in
  foldl (fun entry po => put 2 entry po.2 (lfn_unit units (base + po.1))) entry
    (zip (pyrange 0 13) lfn_offsets).

Definition short_entry (short : list Z) (attributes date time first_cluster size : Z) : list Z :=
  let entry := slice_assign (zeros 32) 0 11 short in
  let entry := <[11%nat := attributes]> entry in
  let entry := put 2 entry 14 time in
  let entry := put 2 entry 16 date in
  let entry := put 2 entry 18 date in
  let entry := put 2 entry 20 (Z.shiftr first_cluster 16) in
  let entry := put 2 entry 22 time in
  let entry := put 2 entry 24 date in
  let entry := put 2 entry 26 (Z.land first_cluster 65535) in
  put 4 entry 28 size.

(** The entries [add_entry] writes, in the order of their slots. *)
Definition new_entries (units short : list Z) (exact : bool)
    (attributes date time first_cluster size : Z) : list (list Z) :=
  let lfn_entries := if exact then 0 else (zlen units + 12) / 13 in
  ((fun sequence => lfn_entry units (checksum short) lfn_entries (lfn_entries - sequence))
     <$> pyrange 0 lfn_entries)
  ++ [short_entry short attributes date time first_cluster size].

End Kernel.

(** * The two checksums and the two patterns agree *)

Lemma checksum_eq short : Forall is_byte short -> Checker.checksum short = Kernel.checksum short.
Proof.
  intros H. unfold Checker.checksum, Kernel.checksum.
  generalize 0. intros s. revert s. induction H as [|b l Hb Hl IH]; intros s; [done|].
  cbn [foldl]. rewrite IH. f_equal. unfold Kernel.rotate_right_1.
  rewrite Z.lor_comm. change 255 with (Z.ones 8). by rewrite Z.land_ones by lia.
Qed.

Lemma pattern_eq seed i : 0 <= i -> 0 <= seed -> Checker.pattern seed i = Kernel.pattern seed i.
Proof.
  intros. unfold Checker.pattern, Kernel.pattern.
  change 4294967295 with (Z.ones 32). change 255 with (Z.ones 8).
  rewrite !Z.land_ones, Z.shiftr_div_pow2 by lia.
  assert (E : (i mod 2 ^ 32 * 2654435761 mod 2 ^ 32 + seed) mod 2 ^ 32
              = (i * 2654435761 + seed) mod 2 ^ 32).
  { rewrite Z.add_mod_idemp_l by lia. rewrite <- Z.add_mod_idemp_l by lia.
    rewrite Z.mul_mod_idemp_l by lia. by rewrite Z.add_mod_idemp_l by lia. }
  rewrite E. cbn [le_bytes lookup list_lookup default]. rewrite Z.div_div by lia. done.
Qed.

(** * Long names: what the kernel writes, the checker reads *)

Lemma insert_by_last {A} (leb : A -> A -> bool) x l :
  Forall (fun y => leb x y = false) l -> insert_by leb x l = l ++ [x].
Proof. induction 1 as [|y l E F IH]; simpl; [done|]. by rewrite E, IH. Qed.

(** Sorting a strictly descending list reverses it. *)
Lemma sort_by_descending {A} (leb : A -> A -> bool) l :
  StronglySorted (fun x y => leb x y = false) l -> sort_by leb l = rev l.
Proof.
  induction 1 as [|x l S IH F]; [done|]. unfold sort_by in *. simpl. rewrite IH.
  apply insert_by_last. by apply Forall_rev.
Qed.

Definition bmp (u : Z) : Prop := 0 <= u < 65536 /\ ~ (55296 <= u < 57344).

Definition unit_bytes (u : Z) : list Z := [u mod 256; u / 256 mod 256].

Lemma utf16_units us :
  Forall bmp us -> utf16_le_decode (concat (unit_bytes <$> us)) = Ret us.
Proof.
  induction 1 as [|u us [Hr Hs] F IH]; [done|]. cbn [fmap list_fmap concat app unit_bytes utf16_le_decode].
  assert (E : u mod 256 + 256 * (u / 256 mod 256) = u).
  { rewrite (Z.mod_small (u / 256)) by (Z.to_euclidean_division_equations; lia).
    pose proof (Z.div_mod u 256). lia. }
  rewrite E, IH. unfold between. zcase; simpl; bool_to_prop; try lia; done.
Qed.

Lemma split_head s rest : 0 ∉ s -> head (split 0 (s ++ 0 :: rest)) = Some s.
Proof. intros. rewrite split_cons_sep by done. done. Qed.

Lemma put_unit e o x :
  Kernel.put 2 e o x = slice_assign e o (o + 2) [x mod 256; x / 256 mod 256].
Proof.
  unfold Kernel.put. f_equal. change (256 ^ Z.of_nat 2) with 65536. cbn [le_bytes].
  f_equal; [|f_equal]; Z.to_euclidean_division_equations; lia.
Qed.

Lemma lfn_entry_fields units sum total number :
  let e := Kernel.lfn_entry units sum total number in
  e !! 0%nat = Some (Z.lor number (if number =? total then 64 else 0))
  /\ e !! 11%nat = Some 15 /\ e !! 13%nat = Some sum /\ length e = 32%nat
  /\ Checker.lfn_chars e
     = concat (unit_bytes <$> ((fun p => Kernel.lfn_unit units ((number - 1) * 13 + p)) <$> pyrange 0 13)).
Proof.
  unfold Kernel.lfn_entry. change (pyrange 0 13) with [0; 1; 2; 3; 4; 5; 6; 7; 8; 9; 10; 11; 12].
  unfold Kernel.lfn_offsets. cbn [zip zip_with foldl fst snd fmap list_fmap concat app].
  rewrite !put_unit. unfold unit_bytes.
  repeat match goal with |- context [Kernel.lfn_unit units ?k] =>
    generalize (Kernel.lfn_unit units k) end.
  intros.
  repeat match goal with |- context [?a mod 256] => generalize (a mod 256) end.
  generalize (Z.lor number (if number =? total then 64 else 0)). intros. 
  split_and!; reflexivity.
Qed.

Section long_name.
Context (units : list Z) (sum total : Z).
Hypothesis Htotal : total = (zlen units + 12) / 13.
Hypothesis Hmax : zlen units <= Kernel.NAME_MAX.

Context (part : Z -> list Z).
Hypothesis Hpart : part = Kernel.lfn_entry units sum total.

Lemma part_fields n :
  pyget (part n) 0 = Ret (Z.lor n (if n =? total then 64 else 0))
  /\ head (part n) = Some (Z.lor n (if n =? total then 64 else 0))
  /\ pyget (part n) 11 = Ret 15 /\ pyget (part n) 13 = Ret sum
  /\ Checker.lfn_chars (part n)
     = concat (unit_bytes <$> ((fun p => Kernel.lfn_unit units ((n - 1) * 13 + p)) <$> pyrange 0 13)).
Proof using Hpart.
  subst part. destruct (lfn_entry_fields units sum total n) as (E0 & E11 & E13 & _ & EC).
  generalize dependent (Kernel.lfn_entry units sum total n). intros e E0 E11 E13 EC.
  split_and!; try (by apply pyget_lookup); [|done]. by destruct e.
Qed.

(** The sequence byte of a part: its number, marked in the last one. *)
Lemma part_byte0 n : 1 <= n <= total ->
  let b := Z.lor n (if n =? total then 64 else 0) in
  b <> 0 /\ b <> 229 /\ Z.land b 31 = n.
Proof.
  intros Hn. assert (total <= 20) by (unfold Kernel.NAME_MAX in *; Z.to_euclidean_division_equations; lia).
  assert (C : forallb (fun n => forallb (fun m => let b := Z.lor n m in
    negb (b =? 0) && negb (b =? 229) && (Z.land b 31 =? n)) [0; 64]) (pyrange 1 21) = true) by done.
  rewrite forallb_Forall, Forall_forall in C. specialize (C n ltac:(apply elem_of_pyrange; lia)).
  cbn [forallb] in C. cbv zeta.
  destruct (n =? total); bool_to_prop; split_and!; done.
Qed.

Lemma read_parts is32 ns raw acc : Forall (fun n => 1 <= n <= total) ns ->
  Checker.read_entries is32 ((part <$> ns) ++ raw) acc = Checker.read_entries is32 raw (acc ++ (part <$> ns)).
Proof.
  intros F. revert acc. induction F as [|n ns Hn F IH]; intros acc.
  - cbn. by rewrite app_nil_r.
  - cbn [fmap list_fmap app Checker.read_entries].
    destruct (part_fields n) as (E0 & _ & E11 & _), (part_byte0 n Hn) as (B0 & B1 & _).
    rewrite E0, E11. cbn [mbind py_bind].
    rewrite (proj2 (Z.eqb_neq _ _) B0), (proj2 (Z.eqb_neq _ _) B1).
    change (Z.land 15 63 =? 15) with true. cbv iota.
    rewrite IH. by rewrite <- app_assoc.
Qed.

Lemma parts_sorted ns : Forall (fun n => 1 <= n <= total) ns -> StronglySorted Z.gt ns ->
  sort_by Checker.lfn_leb (part <$> ns) = part <$> rev ns.
Proof.
  intros F S. rewrite sort_by_descending; [symmetry; apply map_rev|].
  induction S as [|n ns S IH G]; [constructor|].
  apply Forall_cons in F as [H1 H2]. cbn [fmap list_fmap]. constructor; [by apply IH|].
  apply Forall_fmap. apply Forall_forall. intros m Hm. rewrite Forall_forall in G, H2.
  specialize (G m Hm). specialize (H2 m Hm). unfold compose, Checker.lfn_leb, Checker.lfn_key.
  destruct (part_byte0 n H1) as (_ & _ & L1), (part_byte0 m H2) as (_ & _ & L2).
  destruct (part_fields n) as (_ & -> & _), (part_fields m) as (_ & -> & _).
  cbn [from_option id]. rewrite L1, L2. apply Z.leb_gt. lia.
Qed.

Lemma parts_sums ns : Checker.all_sums sum (part <$> ns) = Ret true.
Proof.
  induction ns as [|n ns IH]; [done|]. cbn [fmap list_fmap Checker.all_sums].
  destruct (part_fields n) as (_ & _ & _ & -> & _). cbn [mbind py_bind]. by rewrite Z.eqb_refl.
Qed.

Lemma block_units k : 0 <= k ->
  (fun p => Kernel.lfn_unit units (k * 13 + p)) <$> pyrange 0 13
  = Kernel.lfn_unit units <$> pyrange (k * 13) ((k + 1) * 13).
Proof.
  intros. unfold pyrange. replace (Z.to_nat ((k + 1) * 13 - k * 13)) with 13%nat by lia.
  change (Z.to_nat (13 - 0)) with 13%nat. rewrite <- !list_fmap_compose. done.
Qed.

Lemma parts_chars k : 0 <= k ->
  concat (Checker.lfn_chars <$> (part <$> pyrange 1 (k + 1)))
  = concat (unit_bytes <$> (Kernel.lfn_unit units <$> pyrange 0 (k * 13))).
Proof.
  intros Hk. pattern k. apply natlike_ind; [done | | done]. clear k Hk. intros k Hk IH.
  rewrite (pyrange_app 1 (k + 1)) by lia. rewrite (pyrange_app 0 (k * 13) (Z.succ k * 13)) by lia.
  rewrite !fmap_app, !concat_app, IH. f_equal.
  rewrite (pyrange_cons (k + 1)), (pyrange_nil (k + 1 + 1)) by lia. cbn [fmap list_fmap concat].
  rewrite app_nil_r. destruct (part_fields (k + 1)) as (_ & _ & _ & _ & ->).
  replace (k + 1 - 1) with k by lia. rewrite block_units by lia. by unfold Z.succ.
Qed.
End long_name.

Lemma map_lookup_range (l : list Z) :
  (fun i => default 0 (l !! Z.to_nat i)) <$> pyrange 0 (zlen l) = l.
Proof.
  unfold pyrange, zlen. replace (Z.to_nat (Z.of_nat (length l) - 0)) with (length l) by lia.
  rewrite <- list_fmap_compose. apply list_eq. intros i. rewrite list_lookup_fmap.
  destruct (decide (i < length l)%nat).
  - rewrite lookup_seq_lt by done. destruct (lookup_lt_is_Some_2 l i ltac:(done)) as [x Hx].
    cbn. by rewrite Z.add_0_l, Nat2Z.id, Hx.
  - rewrite lookup_seq_ge by lia. by rewrite lookup_ge_None_2 by lia.
Qed.

(** The units of all parts: the name, then a NUL if there is room, then 0xFFFF. *)
Lemma units_padded units n : zlen units <= n -> exists rest,
  Kernel.lfn_unit units <$> pyrange 0 n = units ++ rest
  /\ Forall bmp rest /\ (rest = [] \/ exists r, rest = 0 :: r).
Proof.
  intros Hn. pose proof (zlen_nonneg units). rewrite (pyrange_app 0 (zlen units)) by lia. rewrite fmap_app.
  eexists. split; [f_equal|].
  - etransitivity; [|apply map_lookup_range]. apply list_fmap_ext. intros i x Hx.
    apply list_elem_of_lookup_2, elem_of_pyrange in Hx. unfold Kernel.lfn_unit.
    destruct (_ <? _) eqn:E; [done | lia].
  - split.
    + apply Forall_fmap, Forall_forall. intros i Hi. apply elem_of_pyrange in Hi.
      unfold compose, Kernel.lfn_unit, bmp. zcase; try lia.
    + destruct (decide (zlen units = n)) as [->|].
      * left. by rewrite pyrange_nil by lia.
      * right. rewrite pyrange_cons by lia. cbn [fmap list_fmap]. eexists. f_equal.
        unfold Kernel.lfn_unit. zcase; lia.
Qed.

Lemma descending_range total :
  (fun s => total - s) <$> pyrange 0 total = rev (pyrange 1 (total + 1)).
Proof.
  destruct (decide (0 <= total)) as [Hn|]; [|by rewrite !pyrange_nil by lia].
  pattern total. apply natlike_ind; [done| |done]. clear total Hn. intros k Hk IH.
  rewrite (pyrange_app 1 (k + 1)), rev_app_distr, <- IH by lia.
  rewrite (pyrange_cons (k + 1)), (pyrange_nil (k + 1 + 1)), (pyrange_cons 0) by lia.
  cbn. f_equal; [lia|]. unfold pyrange. rewrite <- !list_fmap_compose.
  replace (Z.to_nat (Z.succ k - (0 + 1))) with (Z.to_nat (k - 0)) by lia.
  apply list_fmap_ext. intros. simpl. lia.
Qed.

Lemma rev_range_sorted a b : StronglySorted Z.gt (rev (pyrange a b)).
Proof.
  destruct (decide (a <= b)); [|by rewrite pyrange_nil by lia; constructor].
  replace b with (a + Z.of_nat (Z.to_nat (b - a))) by lia. clear l.
  induction (Z.to_nat (b - a)) as [|n IH]; [rewrite pyrange_nil by lia; constructor|].
  rewrite (pyrange_app a (a + Z.of_nat n)), rev_app_distr by lia.
  rewrite (pyrange_cons (a + Z.of_nat n)), pyrange_nil by lia. simpl. constructor; [done|].
  apply Forall_forall. intros x Hx. rewrite list_elem_of_In, <- in_rev, <- list_elem_of_In in Hx.
  apply elem_of_pyrange in Hx. lia.
Qed.

Lemma long_name_read units short total :
  total = (zlen units + 12) / 13 -> 1 <= zlen units <= Kernel.NAME_MAX ->
  Forall bmp units -> 0 ∉ units ->
  Checker.long_name short
    (Kernel.lfn_entry units (Checker.checksum short) total <$> rev (pyrange 1 (total + 1))) = Ret units.
Proof.
  intros Ht Hl Hb H0. unfold Checker.long_name.
  assert (F : Forall (fun n => 1 <= n <= total) (rev (pyrange 1 (total + 1)))).
  { apply Forall_rev, Forall_forall. intros x Hx. apply elem_of_pyrange in Hx. lia. }
  rewrite (parts_sorted units (Checker.checksum short) total Ht ltac:(lia) _ eq_refl _ F (rev_range_sorted _ _)).
  rewrite rev_involutive. rewrite (parts_sums units _ total _ eq_refl). cbn [mbind py_bind passert].
  rewrite (parts_chars units _ total _ eq_refl) by (Z.to_euclidean_division_equations; lia).
  destruct (units_padded units (total * 13)) as (rest & -> & Br & Er);
    [Z.to_euclidean_division_equations; lia|].
  rewrite utf16_units by (apply Forall_app; done). cbn [mbind py_bind]. f_equal.
  destruct Er as [->|[r ->]].
  - by rewrite app_nil_r, split_no_sep.
  - by rewrite split_head.
Qed.

Lemma short_entry_fields short attributes date time fc size :
  length short = 11%nat -> 0 <= fc < 2 ^ 32 -> 0 <= size < 2 ^ 32 ->
  let e := Kernel.short_entry short attributes date time fc size in
  pyget e 0 = pyget short 0 /\ pyget e 11 = Ret attributes /\ pyslice e 0 11 = short
  /\ unpack_le 2 e 26 = Ret (Z.land fc 65535) /\ unpack_le 2 e 20 = Ret (Z.shiftr fc 16)
  /\ unpack_le 4 e 28 = Ret size.
Proof.
  intros L Hf Hs.
  assert (H1 : 0 <= Z.land fc 65535 < 65536)
    by (change 65535 with (Z.ones 16); rewrite Z.land_ones by lia; apply Z.mod_pos_bound; lia).
  assert (H2 : 0 <= Z.shiftr fc 16 < 65536)
    by (rewrite Z.shiftr_div_pow2 by lia; Z.to_euclidean_division_equations; lia).
  destruct short as [|s0 short]; [done|]. do 10 (destruct short as [|? short]; [done|]).
  destruct short; [|done]. cbv zeta. unfold Kernel.short_entry.
  generalize dependent (Z.land fc 65535). intros lo H1.
  generalize dependent (Z.shiftr fc 16). intros hi H2.
  assert (E4 : forall e o, Kernel.put 4 e o size = slice_assign e o (o + 4) (le_bytes 4 size))
    by (intros; unfold Kernel.put; by rewrite (Z.mod_small size) by done).
  rewrite !E4, !put_unit. clear E4.
  assert (EL : le_bytes 2 lo = [lo mod 256; lo / 256 mod 256]) by done.
  assert (EH : le_bytes 2 hi = [hi mod 256; hi / 256 mod 256]) by done.
  assert (ES : exists a b c d, le_bytes 4 size = [a; b; c; d]) by (cbn; eauto).
  destruct ES as (a & b & c & d & ES).
  split_and!; [| | |apply unpack_le_ret|apply unpack_le_ret|apply unpack_le_ret]; try lia;
    rewrite ?EL, ?EH, ?ES; clear;
    repeat match goal with |- context [?a mod 256] => generalize (a mod 256) end;
    intros; vm_compute; first [reflexivity | discriminate].
Qed.

(** * Short names *)

(** The bytes an exact short name is made of. *)
Definition plain (b : Z) : Prop := 33 <= b < 128 /\ b <> 46.

Lemma clean_exact source limit lossy out :
  Kernel.clean source limit lossy = (out, false) ->
  Forall (fun b => 32 <= b /\ Kernel.fold b = b) source ->
  lossy = false /\ out = source /\ (length source <= limit)%nat /\ Forall plain source.
Proof.
  revert limit lossy out. induction source as [|b l IH]; intros limit lossy out H F.
  { simpl in H. injection H as <- <-. repeat split; auto; simpl; lia. }
  apply Forall_cons in F as [[Hb Hf] F]. cbn [Kernel.clean] in H.
  destruct ((b =? 32) || (b =? 46)) eqn:E.
  { apply IH in H as (? & _); done. }
  destruct ((128 <=? b) || existsb (Z.eqb b) [43; 44; 59; 61; 91; 93]) eqn:SP; cbv zeta in H;
    destruct limit as [|limit]; try discriminate;
    destruct (Kernel.clean l limit _) as [o r] eqn:EC; injection H as <- ->;
    apply IH in EC as (EL & -> & ? & ?); try done; rewrite ?orb_true_r in EL; try done.
  rewrite orb_false_r in EL. apply orb_false_iff in SP as [SP _]. rewrite Hf. bool_to_prop.
  split_and!; auto; [simpl; lia|]. constructor; [|done]. unfold plain. lia.
Qed.

Lemma split_dot_spec name base ext : Kernel.split_dot name = (base, ext) ->
  (name = base /\ ext = []) \/ (name = base ++ 46 :: ext).
Proof.
  unfold Kernel.split_dot. destruct (list_find (eq 46) (reverse name)) as [[k x]|] eqn:E; [|naive_solver].
  apply list_find_Some in E as (E & <- & _). cbv zeta.
  destruct (_ <? _)%nat eqn:P; [|naive_solver]. intros [= <- <-]. right.
  pose proof (lookup_lt_Some _ _ _ E) as L. rewrite length_reverse in L.
  rewrite reverse_lookup in E by done. replace (length name - S k)%nat with (length name - 1 - k)%nat in E by lia.
  symmetry. by apply take_drop_middle.
Qed.

Lemma decode_ascii l : Forall is_ascii l -> decode l = Ret l.
Proof.
  intros H. unfold decode. rewrite utf8_valid_ascii by done. f_equal.
  induction H as [|c l Hc Hl IH]; simpl; [done|]. unfold is_ascii in Hc.
  destruct (Z.ltb_spec c 128); [by rewrite IH | lia].
Qed.

Lemma plain_check (f : Z -> bool) : forallb (fun b => negb (f b)) (pyrange 33 128) = true ->
  forall b, plain b -> f b = false.
Proof.
  intros C b [Hb _]. rewrite forallb_Forall, Forall_forall in C.
  apply negb_true_iff, C, elem_of_pyrange. lia.
Qed.

Lemma plain_not_space b : plain b -> is_space b = false.
Proof. by apply plain_check. Qed.

Lemma rstrip_pad l n : Forall plain l -> rstrip is_space (l ++ replicate n 32) = l.
Proof.
  intros H. unfold rstrip. rewrite rev_app_distr.
  assert (R : forall k m, lstrip is_space (replicate k 32 ++ m) = lstrip is_space m)
    by (induction k; [done|]; intros; simpl; auto).
  assert (E : rev (replicate n 32) = replicate n 32).
  { rewrite rev_alt. apply (reverse_replicate n 32). }
  rewrite E, R, lstrip_id; [apply rev_involutive|].
  intros c Hc. apply head_Some_elem_of in Hc. rewrite list_elem_of_In, <- in_rev, <- list_elem_of_In in Hc.
  rewrite Forall_forall in H. apply plain_not_space, H, Hc.
Qed.

Lemma plain_pad_ascii l n : Forall plain l -> Forall is_ascii (l ++ replicate n 32).
Proof.
  intros H. apply Forall_app. split.
  - eapply Forall_impl; [exact H|]. unfold plain, is_ascii. simpl. lia.
  - apply Forall_replicate. unfold is_ascii. lia.
Qed.

Lemma valid_name_spec name : Kernel.valid_name name = true ->
  Forall (fun b => 32 <= b) name /\ last name <> Some 46 /\ 1 <= zlen name <= Kernel.NAME_MAX
  /\ name <> lit "." /\ name <> lit "..".
Proof.
  unfold Kernel.valid_name. intros H. apply andb_true_iff in H as [H F]. apply andb_true_iff in H as [H L].
  rewrite negb_true_iff in H, L. rewrite !orb_false_iff in H. destruct H as [[[H1 H2] H3] H4].
  pose proof (zlen_nonneg name). split_and!; try lia.
  - rewrite forallb_Forall in F. eapply Forall_impl; [exact F|]. intros b. simpl. intros Hb.
    apply negb_true_iff, orb_false_iff in Hb as [Hb _]. lia.
  - intros E. rewrite E in L. done.
  - intros ->. by rewrite zeqb_list_refl in H3.
  - intros ->. by rewrite zeqb_list_refl in H4.
Qed.

Lemma clean_lossy source limit out r : Kernel.clean source limit true = (out, r) -> r = true.
Proof.
  revert limit out. induction source as [|b l IH]; intros limit out H; [by injection H|].
  cbn [Kernel.clean] in H. destruct (_ || (b =? 46)); [by eapply IH|].
  destruct limit as [|limit]; [by injection H|].
  destruct (Kernel.clean l limit _) as [o r'] eqn:E. injection H as <- <-. by eapply IH.
Qed.

Lemma short_parts_read base ext :
  Forall plain base -> Forall plain ext -> (length base <= 8)%nat -> (length ext <= 3)%nat ->
  Checker.short_name (Kernel.pad 8 base ++ Kernel.pad 3 ext)
  = Ret (base ++ if zlen ext =? 0 then [] else 46 :: ext).
Proof.
  intros Fb Fe Lb Le. unfold Checker.short_name, Kernel.pad.
  set (p8 := base ++ replicate (8 - length base) 32). set (p3 := ext ++ replicate (3 - length ext) 32).
  assert (L8 : zlen p8 = 8) by (subst p8; unfold zlen; rewrite length_app, length_replicate; lia).
  assert (L3 : zlen p3 = 3) by (subst p3; unfold zlen; rewrite length_app, length_replicate; lia).
  rewrite (pyslice_app_l p8 p3 0 8), (pyslice_full p8) by lia.
  rewrite zlen_app, (pyslice_app_r p8) by lia. rewrite L8, L3. rewrite (pyslice_full p3) by lia.
  rewrite !decode_ascii by (by apply plain_pad_ascii). cbn [mbind py_bind].
  pose proof (rstrip_pad base (8 - length base) Fb) as R8. fold p8 in R8.
  pose proof (rstrip_pad ext (3 - length ext) Fe) as R3. fold p3 in R3.
  rewrite R8, R3. destruct ext as [|x ext]; [done|].
  replace (Checker.bytes_blank p3) with false; [|].
  - cbn [mbind py_bind]. rewrite zlen_cons. pose proof (zlen_nonneg ext). zcase; [lia | done].
  - symmetry. unfold p3, Checker.bytes_blank. cbn [app forallb]. apply Forall_cons in Fe as [Fx _].
    by rewrite (plain_check byte_space eq_refl x Fx).
Qed.

Lemma short_name_read name short :
  Kernel.valid_name name = true -> Kernel.short_of name = (short, false) ->
  Checker.short_name short = Ret name /\ length short = 11%nat /\ Forall is_byte short
  /\ (exists b, head short = Some b /\ b <> 0 /\ b <> 229).
Proof.
  intros V H. unfold Kernel.short_of in H. destruct (Kernel.split_dot name) as [base ext] eqn:ED.
  apply split_dot_spec in ED.
  destruct (Kernel.clean base 8 _) as [b1 l1] eqn:E1, (Kernel.clean ext 3 l1) as [b2 l2] eqn:E2.
  injection H as <- H. apply orb_false_iff in H as [-> HB].
  apply valid_name_spec in V as (F & NL & _).
  destruct l1; [by apply clean_lossy in E2|].
  destruct (existsb _ name) eqn:EX; [by apply clean_lossy in E1|].
  assert (FF : Forall (fun b => 32 <= b /\ Kernel.fold b = b) name).
  { clear - EX F. induction F as [|b l Hb F IH]; [done|]. cbn in EX. apply orb_false_iff in EX as [E1 E2].
    constructor; [|auto]. split; [done|]. unfold Kernel.fold. by rewrite E1. }
  assert (FB : Forall (fun b => 32 <= b /\ Kernel.fold b = b) base
               /\ Forall (fun b => 32 <= b /\ Kernel.fold b = b) ext).
  { destruct ED as [[<- ->]| ->]; [split; auto|]. apply Forall_app in FF as [? FF].
    apply Forall_cons in FF as [_ ?]. done. }
  destruct (clean_exact _ _ _ _ E1 (proj1 FB)) as (_ & -> & Lb & Pb).
  destruct (clean_exact _ _ _ _ E2 (proj2 FB)) as (_ & -> & Le & Pe).
  split_and!.
  - rewrite short_parts_read by done. f_equal. destruct ED as [[-> ->]| ->]; [apply app_nil_r|].
    f_equal. destruct ext as [|x ext]; [|by rewrite zlen_cons; pose proof (zlen_nonneg ext); zcase; [lia|]].
    exfalso. apply NL. by rewrite last_snoc.
  - unfold Kernel.pad. rewrite !length_app, !length_replicate. lia.
  - assert (Q : forall l n, Forall plain l -> Forall is_byte (l ++ replicate n 32)).
    { intros l n P. apply Forall_app. split; [|apply Forall_replicate; unfold is_byte; lia].
      eapply Forall_impl; [exact P|]. unfold plain, is_byte. simpl. lia. }
    apply Forall_app. split; by apply Q.
  - destruct base as [|b base]; [done|]. exists b. apply Forall_cons in Pb as [[? ?] _]. split; [done|]. lia.
Qed.

Lemma attr_not_lfn a : Z.land a 8 = 0 -> (Z.land a 63 =? 15) = false.
Proof.
  intros H. apply Z.eqb_neq. intros E.
  assert (X : Z.land (Z.land a 63) 8 = Z.land a 8) by (rewrite <- Z.land_assoc; done).
  rewrite E, H in X. done.
Qed.

Lemma lor_halves fc : 0 <= fc -> Z.lor (Z.land fc 65535) (Z.shiftl (Z.shiftr fc 16) 16) = fc.
Proof.
  intros. rewrite Z.shiftl_mul_pow2, Z.shiftr_div_pow2 by lia.
  change 65535 with (Z.ones 16). apply Z.bits_inj'. intros i Hi.
  rewrite Z.lor_spec, Z.land_spec. rewrite <- Z.shiftl_mul_pow2, <- Z.shiftr_div_pow2 by lia.
  destruct (decide (i < 16)).
  - rewrite Z.ones_spec_low, Z.shiftl_spec_low by lia. by rewrite andb_true_r, orb_false_r.
  - rewrite Z.ones_spec_high, Z.shiftl_spec, Z.shiftr_spec by lia. rewrite andb_false_r, orb_false_l.
    f_equal. lia.
Qed.

Lemma zeqb_list_ne a b : a <> b -> zeqb_list a b = false.
Proof. intros H. destruct (zeqb_list a b) eqn:E; [|done]. by apply zeqb_list_eq in E. Qed.

(** A short entry read with the long-name parts [lfn] collected before it. *)
Lemma read_short_entry (is32 : bool) lfn short attributes date time fc size name raw :
  length short = 11%nat -> (exists b, head short = Some b /\ b <> 0 /\ b <> 229) ->
  Z.land attributes 8 = 0 -> 0 <= fc < (if is32 then 2 ^ 32 else 2 ^ 16) -> 0 <= size < 2 ^ 32 ->
  (if zlen lfn =? 0 then Checker.short_name short else Checker.long_name short lfn) = Ret name ->
  name <> lit "." -> name <> lit ".." ->
  Checker.read_entries is32 (Kernel.short_entry short attributes date time fc size :: raw) lfn
  = (rest ← Checker.read_entries is32 raw []; Ret (Checker.Dirent name attributes fc size :: rest)).
Proof.
  intros L (b & Hb & B0 & B1) HA Hf Hs HN N1 N2.
  assert (Hf' : 0 <= fc < 2 ^ 32) by (destruct is32; lia).
  destruct (short_entry_fields short attributes date time fc size L Hf' Hs) as (E0 & E11 & E & E26 & E20 & E28).
  cbv zeta in *. generalize dependent (Kernel.short_entry short attributes date time fc size). intros e **.
  cbn [Checker.read_entries].
  assert (EB : pyget short 0 = Ret b) by (apply pyget_lookup; [lia|]; by destruct short).
  rewrite E0, EB, E11, E26, E28, E. cbn [mbind py_bind].
  rewrite (proj2 (Z.eqb_neq _ _) B0), (proj2 (Z.eqb_neq _ _) B1), (attr_not_lfn _ HA), HA.
  cbn [Z.eqb negb]. rewrite HN. cbn [mbind py_bind].
  assert (EH : (if is32 then unpack_le 2 e 20 else Ret 0) = Ret (Z.shiftr fc 16)).
  { destruct is32; [done|]. f_equal. rewrite Z.shiftr_div_pow2 by lia.
    symmetry. apply Z.div_small. lia. }
  rewrite EH. cbn [mbind py_bind]. rewrite lor_halves by lia.
  rewrite !zeqb_list_ne by done. done.
Qed.

(** C14: a directory entry the kernel writes is read back by the checker with
    its name, attributes, cluster and size, whether the name fits the short
    form exactly or is spread over up to twenty long-name entries, and the
    entries after it are read as if it were not there. *)
Theorem kernel_entry_read (is32 : bool) units short exact attributes date time fc size raw :
  1 <= zlen units <= Kernel.NAME_MAX -> Forall bmp units -> 0 ∉ units ->
  units <> lit "." -> units <> lit ".." ->
  length short = 11%nat -> Forall is_byte short ->
  (exists b, head short = Some b /\ b <> 0 /\ b <> 229) ->
  (exact = true -> Kernel.valid_name units = true /\ Kernel.short_of units = (short, false)) ->
  Z.land attributes 8 = 0 -> 0 <= fc < (if is32 then 2 ^ 32 else 2 ^ 16) -> 0 <= size < 2 ^ 32 ->
  Checker.read_entries is32
    (Kernel.new_entries units short exact attributes date time fc size ++ raw) []
  = (rest ← Checker.read_entries is32 raw [];
     Ret (Checker.Dirent units attributes fc size :: rest)).
Proof.
  intros Hl Hb H0 N1 N2 Ls Bs Hs Hx HA Hf Hz. unfold Kernel.new_entries.
  destruct exact.
  - destruct (Hx eq_refl) as [V E]. destruct (short_name_read units short V E) as (R & _).
    cbn [fmap list_fmap app]. by apply read_short_entry.
  - set (total := (zlen units + 12) / 13). cbv zeta.
    assert (Ht : 1 <= total) by (subst total; Z.to_euclidean_division_equations; lia).
    rewrite <- (checksum_eq short Bs).
    assert (EM : (fun s => Kernel.lfn_entry units (Checker.checksum short) total (total - s)) <$> pyrange 0 total
                 = Kernel.lfn_entry units (Checker.checksum short) total <$> rev (pyrange 1 (total + 1))).
    { rewrite <- descending_range. symmetry. apply map_map. }
    rewrite EM, <- app_assoc. clear EM.
    rewrite (read_parts units (Checker.checksum short) total eq_refl ltac:(lia) _ eq_refl).
    2: { apply Forall_rev, Forall_forall. intros x Hx'. apply elem_of_pyrange in Hx'. lia. }
    cbn [app]. apply read_short_entry; try done.
    assert (LL : zlen (Kernel.lfn_entry units (Checker.checksum short) total <$> rev (pyrange 1 (total + 1))) <> 0).
    { unfold zlen. rewrite length_fmap, length_rev. fold (zlen (pyrange 1 (total + 1))).
      rewrite zlen_pyrange by lia. lia. }
    rewrite (proj2 (Z.eqb_neq _ _) LL). by apply long_name_read.
Qed.

Lemma kernel_entry_read_witness :
  let units := lit "remember me.txt" in
  let short := lit "REMEMB~1TXT" in
  Checker.read_entries true (Kernel.new_entries units short false 32 0 0 70000 1500 ++ []) []
  = (rest ← Checker.read_entries true [] []; Ret (Checker.Dirent units 32 70000 1500 :: rest)).
Proof.
  cbv zeta. apply kernel_entry_read; try done; try lia.
  - apply Forall_forall. intros u Hu.
    assert (C : forallb (fun u => (0 <=? u) && (u <? 128)) (lit "remember me.txt") = true) by done.
    rewrite forallb_Forall, Forall_forall in C. specialize (C u Hu). unfold bmp. simpl in C. lia.
  - rewrite list_elem_of_In. vm_compute. intuition discriminate.
  - apply bytes_check. done.
  - exists 82. done.
Defined.

(** * Chains *)

(** [ch] is the chain of FAT links from [c]. *)
Fixpoint linked (v : Checker.volume) (c : Z) (ch : list Z) : Prop :=
  match ch with
  | [] => Checker.more v c = false
  | x :: ch => c = x /\ Checker.more v c = true
               /\ exists c', Checker.fat_get v c = Ret c' /\ linked v c' ch
  end.

Definition in_volume (v : Checker.volume) (c : Z) : Prop := 2 <= c < Checker.clusters v + 2.

Lemma unpack_le_total n l off : unpack_le n l off <> NoFuel.
Proof. unfold unpack_le. by repeat case_match. Qed.

Lemma fat_get_total v c : Checker.fat_get v c <> NoFuel.
Proof.
  unfold Checker.fat_get. destruct (Checker.is32 v); [|apply unpack_le_total].
  pose proof (unpack_le_total 4 (Checker.fat_bytes v) (c * 4)). by destruct (unpack_le _ _ _).
Qed.

Lemma chain_loop_spec fuel v owner claimed out c claimed' out' :
  Checker.chain_loop fuel v owner claimed out c = Ret (claimed', out') ->
  exists ch, out' = out ++ ch /\ linked v c ch /\ NoDup ch
    /\ Forall (fun x => in_volume v x /\ claimed !! x = None) ch
    /\ (forall x, claimed' !! x = if decide (x ∈ ch) then Some owner else claimed !! x).
Proof.
  revert claimed out c. induction fuel as [|fuel IH]; intros claimed out c H; [done|].
  cbn [Checker.chain_loop] in H. destruct (Checker.more v c) eqn:EM.
  2: { injection H as <- <-. exists []. split_and!; [by rewrite app_nil_r | done | constructor | constructor |].
       intros x. destruct (decide _) as [E|]; [by apply not_elem_of_nil in E | done]. }
  apply bind_ret_inv in H as ([] & H1%passert_ret & H). apply bind_ret_inv in H as ([] & H2%passert_ret & H).
  apply bind_ret_inv in H as (c' & HG & H). apply bind_ret_inv in H as ([] & _ & H).
  apply bool_decide_eq_true in H2. destruct (IH _ _ _ H) as (ch & -> & L & ND & F & C).
  exists (c :: ch). rewrite Forall_forall in F.
  assert (NC : c ∉ ch) by (intros I; destruct (F c I) as [_ X]; by rewrite lookup_insert_eq in X).
  split_and!.
  - by rewrite <- app_assoc.
  - simpl. eauto.
  - by constructor.
  - constructor; [split; [unfold in_volume; lia | done]|]. apply Forall_forall. intros x Hx.
    destruct (F x Hx) as [? X]. split; [done|]. rewrite lookup_insert_ne in X; [done | by intros ->].
  - intros x. rewrite C. destruct (decide (x ∈ ch)) as [I|I].
    + destruct (decide _) as [|NI]; [done|]. destruct NI. by right.
    + destruct (decide (x = c)) as [->|NE].
      * rewrite lookup_insert_eq. destruct (decide _) as [|NI]; [done|]. destruct NI. left.
      * rewrite lookup_insert_ne by done. destruct (decide _) as [J|]; [|done].
        apply elem_of_cons in J as [|]; done.
Qed.

Lemma chain_loop_total fuel v owner claimed out c :
  Checker.clusters v - zlen out + 1 < Z.of_nat fuel -> 0 < Z.of_nat fuel ->
  Checker.chain_loop fuel v owner claimed out c <> NoFuel.
Proof.
  revert claimed out c. induction fuel as [|fuel IH]; intros claimed out c H H0; [lia|].
  cbn [Checker.chain_loop]. destruct (Checker.more v c); [|done].
  unfold passert. destruct (_ && _); [|done]. destruct (bool_decide _); [|done]. cbn [mbind py_bind].
  destruct (Checker.fat_get v c) eqn:EG; [|done|by apply fat_get_total in EG]. cbn [mbind py_bind].
  destruct (_ <=? _) eqn:EL; [|done]. cbn [mbind py_bind]. rewrite zlen_app in EL.
  change (zlen [c]) with 1 in EL. apply IH; [rewrite zlen_app; change (zlen [c]) with 1|]; lia.
Qed.

Lemma chain_nocount_linked fuel v out c ch :
  linked v c ch -> (length ch < fuel)%nat -> Checker.chain_nocount fuel v out c = Ret (out ++ ch).
Proof.
  revert out c ch. induction fuel as [|fuel IH]; intros out c ch L Hf; [lia|].
  destruct ch as [|x ch]; simpl in L.
  - cbn. by rewrite L, app_nil_r.
  - destruct L as (-> & EM & c' & EG & L). cbn [Checker.chain_nocount]. rewrite EM, EG. cbn [mbind py_bind].
    simpl in Hf. rewrite (IH _ _ ch L) by lia. by rewrite <- app_assoc.
Qed.

(** * What a successful run establishes *)

(** All clusters owned, in the order they were claimed. *)
Definition owned (s : Checker.state) : list Z := concat (snd <$> Checker.chains s).

Record walk_inv (v : Checker.volume) (s : Checker.state) : Prop := {
  wi_nodup : NoDup (owned s);
  wi_range : Forall (in_volume v) (owned s);
  wi_linked : Forall (fun oc => exists first, linked v first oc.2) (Checker.chains s);
  wi_claimed : forall c o, Checker.claimed s !! c = Some o
                 <-> exists ch, (o, ch) ∈ Checker.chains s /\ c ∈ ch
}.

(** Every file listed with a size has a chain that holds it. *)
Definition files_fit (v : Checker.volume) (s : Checker.state) : Prop :=
  forall full size, Checker.FileLine full size ∈ Checker.out s -> 0 < size ->
    exists ch, (full, ch) ∈ Checker.chains s /\ size <= zlen ch * Checker.spc v * 512.

Lemma walk_inv_start v : walk_inv v Checker.start_state /\ files_fit v Checker.start_state.
Proof.
  split; [constructor; cbn; try (by constructor)|].
  - intros c o. rewrite lookup_empty. split; [done|]. intros (ch & H & _). by apply not_elem_of_nil in H.
  - intros full size H. by apply not_elem_of_nil in H.
Qed.

Lemma walk_inv_print v s l : walk_inv v s -> walk_inv v (Checker.print s l).
Proof. by intros []. Qed.

Lemma owned_lookup v s c : walk_inv v s -> Checker.claimed s !! c = None -> c ∉ owned s.
Proof.
  intros I E H. unfold owned in H. apply list_elem_of_In, in_concat in H as (ch & H1 & H2).
  apply list_elem_of_In, list_elem_of_fmap in H1 as ([o ch'] & -> & H1).
  apply list_elem_of_In in H2. cbn in H2.
  assert (X : Checker.claimed s !! c = Some o) by (apply (wi_claimed _ _ I); eauto).
  congruence.
Qed.

Lemma concat_snoc (l : list (list Z * list Z)) o ch : concat (snd <$> (l ++ [(o, ch)])) = concat (snd <$> l) ++ ch.
Proof. rewrite fmap_app, concat_app. cbn. by rewrite app_nil_r. Qed.

Lemma walk_inv_chain v s first owner s' ch :
  walk_inv v s -> Checker.take_chain v s first owner = Ret (s', ch) ->
  walk_inv v s' /\ Checker.chains s' = Checker.chains s ++ [(owner, ch)]
  /\ Checker.out s' = Checker.out s /\ linked v first ch.
Proof.
  intros I H. unfold Checker.take_chain in H. apply bind_ret_inv in H as ([cl' ch'] & H1 & H2).
  apply Ret_inj in H2. injection H2 as <- <-.
  apply chain_loop_spec in H1 as (ch & -> & L & ND & F & C). rewrite app_nil_l in *.
  rewrite Forall_forall in F. pose proof (fun x Hx => owned_lookup v s x I (proj2 (F x Hx))) as D.
  destruct I. split; [|done]. constructor.
  - unfold owned. cbn [Checker.chains]. rewrite concat_snoc. fold (owned s). apply NoDup_app. split_and!; auto. intros x H1 H2. by apply (D x).
  - unfold owned. cbn [Checker.chains]. rewrite concat_snoc. apply Forall_app. split; [done|].
    apply Forall_forall. intros x Hx. by apply F.
  - cbn. apply Forall_app. split; [done|]. repeat constructor. eauto.
  - intros c o. cbn. rewrite C. destruct (decide (c ∈ ch)) as [Hc|Hc].
    + split.
      * intros [= <-]. exists ch. split; [apply elem_of_app; right; left | done].
      * intros (ch' & H1 & H2). apply elem_of_app in H1 as [H1|H1].
        -- exfalso. apply (D c Hc). unfold owned. apply list_elem_of_In, in_concat. exists ch'.
           split; apply list_elem_of_In; [|done]. apply list_elem_of_fmap. by exists (o, ch').
        -- apply list_elem_of_singleton in H1. congruence.
    + rewrite wi_claimed0. split; intros (ch' & H1 & H2); exists ch'; (split; [|done]).
      * apply elem_of_app. by left.
      * apply elem_of_app in H1 as [H1|H1]; [done|]. apply list_elem_of_singleton in H1. congruence.
Qed.

Lemma files_fit_more v s s' l :
  files_fit v s -> Checker.out s' = Checker.out s ++ l -> (exists cs, Checker.chains s' = Checker.chains s ++ cs) ->
  (forall full size, Checker.FileLine full size ∈ l -> 0 < size ->
     exists ch, (full, ch) ∈ Checker.chains s' /\ size <= zlen ch * Checker.spc v * 512) ->
  files_fit v s'.
Proof.
  intros F EO [cs EC] HL full size H Hs. rewrite EO in H. apply elem_of_app in H as [H|H]; [|eauto].
  destruct (F full size H Hs) as (ch & ? & ?). exists ch. split; [|done]. rewrite EC. apply elem_of_app. by left.
Qed.

Lemma walk_file_inv v s full e s' :
  walk_inv v s -> files_fit v s -> Checker.walk_file v s full e = Ret s' ->
  walk_inv v s' /\ files_fit v s'.
Proof.
  intros I F H. unfold Checker.walk_file in H.
  set (sp := Checker.print s (Checker.FileLine full (Checker.size e))) in H.
  assert (Ip : walk_inv v sp) by by apply walk_inv_print.
  apply bind_ret_inv in H as ([s1 ch] & H1 & H). apply bind_ret_inv in H as ([] & H2%passert_ret & H).
  assert (K : walk_inv v s1 /\ Checker.out s1 = Checker.out sp
              /\ (exists cs, Checker.chains s1 = Checker.chains s ++ cs)
              /\ (0 < Checker.size e -> (full, ch) ∈ Checker.chains s1)).
  { destruct (Checker.cl e =? 0).
    - apply Ret_inj in H1. injection H1 as <- <-. split_and!; auto; [exists []; symmetry; apply app_nil_r|].
      change (zlen []) with 0 in H2. lia.
    - apply walk_inv_chain in H1 as (? & EC & ? & _); [|done]. split_and!; auto; [by eauto|].
      intros _. rewrite EC. apply elem_of_app. right. left. }
  destruct K as (I1 & EO & EC & HF).
  assert (F1 : files_fit v s1).
  { eapply files_fit_more; [exact F | exact EO | done|]. intros f z Hl Hz.
    apply list_elem_of_singleton in Hl. injection Hl as -> ->. exists ch. split; [auto | lia]. }
  destruct (Checker.size e =? 0); [apply Ret_inj in H; by subst|].
  destruct (find_sub _ _); [|apply Ret_inj in H; by subst].
  apply bind_ret_inv in H as (ok & _ & H). apply bind_ret_inv in H as ([] & _ & H). apply Ret_inj in H as <-.
  split; [by apply walk_inv_print|].
  eapply files_fit_more; [exact F1 | done | exists []; symmetry; apply app_nil_r|].
  intros f z Hl. by apply list_elem_of_singleton in Hl.
Qed.

Lemma walk_invariant depth fuel v s first path s' :
  walk_inv v s -> files_fit v s -> Checker.walk depth fuel v s first path = Ret s' ->
  walk_inv v s' /\ files_fit v s'.
Proof.
  revert s first path s'. induction depth as [|depth IH]; intros s first path s' I F H; [done|].
  cbn [Checker.walk] in H. apply bind_ret_inv in H as (es & _ & H).
  revert H. apply (foldM_invariant (fun s => walk_inv v s /\ files_fit v s)); [|done].
  clear s s' I F. intros s e s' _ [I F] H. destruct (negb _).
  - apply bind_ret_inv in H as ([s1 ch] & H1 & H).
    apply walk_inv_chain in H1 as (I1 & EC & EO & _); [|by apply walk_inv_print].
    eapply IH; [done| |exact H]. eapply files_fit_more; [exact F | exact EO | eauto|].
    intros f z Hl. by apply list_elem_of_singleton in Hl.
  - by eapply walk_file_inv.
Qed.

(** * The closing count *)

Definition fat_entry (v : Checker.volume) (c : Z) : Z :=
  match Checker.fat_get v c with Ret x => x | _ => 0 end.

Lemma count_fat_spec v p n : Checker.count_fat v p = Ret n ->
  n = zlen (filter (fun c => p (fat_entry v c) = true) (pyrange 2 (Checker.clusters v + 2)))
  /\ forall c, in_volume v c -> exists x, Checker.fat_get v c = Ret x.
Proof.
  unfold Checker.count_fat, in_volume.
  assert (G : forall l k n, foldM (fun n c => x ← Checker.fat_get v c; Ret (if p x then n + 1 else n)) k l = Ret n ->
    n = k + zlen (filter (fun c => p (fat_entry v c) = true) l)
    /\ forall c, c ∈ l -> exists x, Checker.fat_get v c = Ret x).
  { induction l as [|c l IH]; intros k m H; simpl in H.
    - injection H as <-. split; [rewrite filter_nil; change (zlen (@nil Z)) with 0; lia|]. intros c Hc. by apply not_elem_of_nil in Hc.
    - apply bind_ret_inv in H as (k' & H1 & H). apply bind_ret_inv in H1 as (x & HG & H1).
      apply Ret_inj in H1 as <-. apply IH in H as [-> HA]. split.
      + assert (EF : fat_entry v c = x) by (unfold fat_entry; by rewrite HG).
        rewrite filter_cons. destruct (decide _) as [D|D]; rewrite EF in D; destruct (p x); try done;
          rewrite ?zlen_cons; lia.
      + intros c' Hc'. apply elem_of_cons in Hc' as [->|]; eauto. }
  intros H. apply G in H as [-> HA]. split; [done|]. intros c Hc. apply HA, elem_of_pyrange, Hc.
Qed.

Lemma claimed_size v s : walk_inv v s -> Z.of_nat (base.size (Checker.claimed s)) = zlen (owned s).
Proof.
  intros I. unfold zlen. f_equal.
  rewrite <- (size_dom (D := gset Z)). rewrite <- (size_list_to_set (C := gset Z)) by apply I.
  f_equal. apply set_eq. intros c. rewrite elem_of_dom, elem_of_list_to_set. split.
  - intros [o Ho]. apply (wi_claimed _ _ I) in Ho as (ch & H1 & H2). unfold owned.
    apply list_elem_of_In, in_concat. exists ch. split; apply list_elem_of_In; [|done].
    apply list_elem_of_fmap. by exists (o, ch).
  - intros H. destruct (Checker.claimed s !! c) eqn:E; [eauto|].
    by apply (owned_lookup v s c I) in E.
Qed.

(** The clusters the FAT marks used. *)
Definition allocated (v : Checker.volume) : list Z :=
  filter (fun c => negb (fat_entry v c =? 0) = true) (pyrange 2 (Checker.clusters v + 2)).

Lemma filter_partition (f : Z -> bool) l :
  zlen (filter (fun c => f c = true) l) + zlen (filter (fun c => negb (f c) = true) l) = zlen l.
Proof.
  induction l as [|c l IH]; [done|]. rewrite !filter_cons, zlen_cons.
  repeat case_decide; destruct (f c); try done; rewrite zlen_cons; lia.
Qed.

Lemma finish_spec v s r : walk_inv v s -> Checker.finish v s = Ret r ->
  r.1 = zlen (owned s) /\ zlen (allocated v) = zlen (owned s)
  /\ (0 <= Checker.clusters v -> r.1 + r.2 = Checker.clusters v)
  /\ forall c, in_volume v c -> exists x, Checker.fat_get v c = Ret x.
Proof.
  intros I H. unfold Checker.finish in H. apply bind_ret_inv in H as (free & H1 & H).
  apply bind_ret_inv in H as (used & H2 & H). apply bind_ret_inv in H as ([] & H3%passert_ret & H).
  apply Ret_inj in H as <-. rewrite (claimed_size v s I) in *. cbn [fst snd].
  apply count_fat_spec in H1 as [-> HA], H2 as [-> _]. apply Z.eqb_eq in H3. fold (allocated v) in H3.
  split_and!; auto. intros Hc. rewrite <- H3. unfold allocated. rewrite Z.add_comm.
  rewrite (filter_partition (fun c => fat_entry v c =? 0)), zlen_pyrange by lia. lia.
Qed.

(** With as many owned clusters as allocated ones, owning only allocated
    clusters is owning all of them. *)
Lemma owned_all v s : walk_inv v s -> zlen (allocated v) = zlen (owned s) ->
  (forall c, c ∈ owned s -> fat_entry v c <> 0) ->
  forall c, c ∈ owned s <-> in_volume v c /\ fat_entry v c <> 0.
Proof.
  intros I E HN. assert (IN : incl (owned s) (allocated v)).
  { intros c Hc. apply list_elem_of_In in Hc. apply list_elem_of_In, list_elem_of_filter.
    pose proof (wi_range _ _ I) as R. rewrite Forall_forall in R. split; [|apply elem_of_pyrange, R, Hc].
    specialize (HN c Hc). simpl. destruct (Z.eqb_spec (fat_entry v c) 0); done. }
  assert (NI : incl (allocated v) (owned s)).
  { apply NoDup_length_incl; [apply NoDup_ListNoDup, I | unfold zlen in E; lia | done]. }
  intros c. split.
  - intros Hc. pose proof (wi_range _ _ I) as R. rewrite Forall_forall in R. split; [by apply R | by apply HN].
  - intros [Hr Hz]. apply list_elem_of_In, NI, list_elem_of_In, list_elem_of_filter.
    split; [|by apply elem_of_pyrange]. simpl. destruct (Z.eqb_spec (fat_entry v c) 0); done.
Qed.

(** C13: a run of the checker that reaches its last line has established
    that no cluster belongs to two chains, that every owned cluster is a
    cluster of the volume, that each chain is a chain of FAT links, that the
    ownership map names the chain a cluster is in, that every file listed
    fits its chain, and that the printed numbers are the owned and the free
    clusters; when no owned cluster is marked free, the owned clusters are
    exactly those the FAT marks used. *)
Theorem check_sound depth fuel image start s n free :
  Checker.check depth fuel image start = Ret (s, (n, free)) ->
  exists v, Checker.open_volume image start = Ret v
  /\ NoDup (owned s) /\ Forall (in_volume v) (owned s)
  /\ (forall o ch, (o, ch) ∈ Checker.chains s -> exists first, linked v first ch)
  /\ (forall c o, Checker.claimed s !! c = Some o <-> exists ch, (o, ch) ∈ Checker.chains s /\ c ∈ ch)
  /\ files_fit v s
  /\ n = zlen (owned s) /\ (0 <= Checker.clusters v -> n + free = Checker.clusters v)
  /\ ((forall c, c ∈ owned s -> fat_entry v c <> 0) ->
      forall c, c ∈ owned s <-> in_volume v c /\ fat_entry v c <> 0).
Proof.
  intros H. unfold Checker.check in H. apply bind_ret_inv in H as (v & HV & H).
  apply bind_ret_inv in H as (s0 & HW & H). apply bind_ret_inv in H as (r & HF & H).
  apply Ret_inj in H. injection H as -> ->. exists v. split; [done|].
  destruct (walk_invariant _ _ _ _ _ _ _ (proj1 (walk_inv_start v)) (proj2 (walk_inv_start v)) HW) as [I F].
  destruct (finish_spec v s _ I HF) as (E1 & E2 & E3 & _). cbn [fst snd] in *.
  pose proof (wi_linked _ _ I) as L. rewrite Forall_forall in L.
  split_and!; auto; try apply I.
  - intros o ch Hc. exact (L (o, ch) Hc).
  - by apply owned_all.
Qed.

(** reading a chain always ends, within the number of clusters, in a
    result or an assertion; and once [chain] has accepted a directory's
    chain, the unguarded loop of [chain_nocount] over the same directory ends
    with the same clusters. *)
Theorem chain_terminates v claimed first owner :
  Checker.chain v claimed first owner <> NoFuel
  /\ forall claimed' ch fuel, Checker.chain v claimed first owner = Ret (claimed', ch) ->
       (length ch < fuel)%nat -> Checker.chain_nocount fuel v [] first = Ret ch.
Proof.
  split.
  - apply chain_loop_total; unfold Checker.chain_fuel; rewrite ?zlen_nil; change (zlen (@nil Z)) with 0; lia.
  - intros claimed' ch fuel H Hf. apply chain_loop_spec in H as (ch' & -> & L & _).
    rewrite app_nil_l in *. by apply (chain_nocount_linked fuel v [] first ch').
Qed.

(** * A small volume *)

Definition pad_sector (l : list Z) : list Z := l ++ zeros (512 - zlen l).

Definition sample_boot : list Z :=
  let b := zeros 512 in
  let b := Kernel.put 2 b 11 512 in
  let b := Kernel.put 1 b 13 1 in
  let b := Kernel.put 2 b 14 1 in
  let b := Kernel.put 1 b 16 2 in
  let b := Kernel.put 2 b 17 16 in
  let b := Kernel.put 2 b 19 12 in
  let b := Kernel.put 2 b 22 1 in
  slice_assign b 510 512 [85; 170].

Definition sample_fat (links : list Z) : list Z := pad_sector (concat (le_bytes 2 <$> [65528; 65535] ++ links)).

(** Two files, one of them in a directory and with a long name. *)
Definition sample_root : list Z := pad_sector (concat
  (Kernel.new_entries (lit "HELLO.TXT") (lit "HELLO   TXT") true 32 0 0 2 600
   ++ Kernel.new_entries (lit "SUB") (lit "SUB        ") true 16 0 0 4 0)).
Definition sample_sub : list Z := pad_sector (concat
  ([Kernel.short_entry (lit ".          ") 16 0 0 4 0; Kernel.short_entry (lit "..         ") 16 0 0 0 0]
   ++ Kernel.new_entries (lit "remember me.txt") (lit "REMEMB~1TXT") false 32 0 0 5 100)).

Definition sample_image (links : list Z) : list Z :=
  sample_boot ++ sample_fat links ++ sample_fat links ++ sample_root
  ++ pad_sector [] ++ pad_sector [] ++ sample_sub ++ pad_sector (Kernel.pattern 5 <$> pyrange 0 100)
  ++ concat (replicate 4 (pad_sector [])).

Definition sample_links : list Z := [3; 65535; 65535; 65535; 0; 0; 0; 0].

Definition result_state (r : py (Checker.state * (Z * Z))) : Checker.state :=
  match r with Ret (s, _) => s | _ => Checker.start_state end.
Definition result_counts (r : py (Checker.state * (Z * Z))) : Z * Z :=
  match r with Ret (_, c) => c | _ => (0, 0) end.

Definition sample_state : Checker.state := result_state (Checker.check 8 8 (sample_image sample_links) 0).

Lemma sample_run : Checker.check 8 8 (sample_image sample_links) 0 = Ret (sample_state, (4, 4)).
Proof. vm_compute. reflexivity. Qed.

Lemma check_sound_witness : exists v,
  Checker.open_volume (sample_image sample_links) 0 = Ret v
  /\ NoDup (owned sample_state) /\ Forall (in_volume v) (owned sample_state)
  /\ (forall o ch, (o, ch) ∈ Checker.chains sample_state -> exists first, linked v first ch)
  /\ (forall c o, Checker.claimed sample_state !! c = Some o
        <-> exists ch, (o, ch) ∈ Checker.chains sample_state /\ c ∈ ch)
  /\ files_fit v sample_state
  /\ 4 = zlen (owned sample_state) /\ (0 <= Checker.clusters v -> 4 + 4 = Checker.clusters v)
  /\ ((forall c, c ∈ owned sample_state -> fat_entry v c <> 0) ->
      forall c, c ∈ owned sample_state <-> in_volume v c /\ fat_entry v c <> 0).
Proof. apply (check_sound 8 8 (sample_image sample_links) 0 sample_state 4 4). exact sample_run. Defined.

(** * FAT32 roots *)

Lemma count_fat_total v p : (forall c, in_volume v c -> exists x, Checker.fat_get v c = Ret x) ->
  exists n, Checker.count_fat v p = Ret n.
Proof.
  intros H. unfold Checker.count_fat. generalize 0.
  assert (F : Forall (fun c => exists x, Checker.fat_get v c = Ret x) (pyrange 2 (Checker.clusters v + 2))).
  { apply Forall_forall. intros c Hc. apply H. by apply elem_of_pyrange in Hc. }
  induction F as [|c l [x Hx] F IH]; intros k; simpl; [eauto|]. rewrite Hx. cbn. apply IH.
Qed.

(** C37: on a FAT32 volume whose root directory occupies a cluster that the
    FAT marks used and that no entry of the tree owns, as on every sound
    FAT32 volume, a walk that finds nothing wrong is followed by a failing
    assertion: the root's own clusters are never claimed, so the closing
    comparison cannot hold. *)
Theorem fat32_root_never_counted depth fuel image start v s :
  Checker.open_volume image start = Ret v -> Checker.is32 v = true ->
  Checker.walk depth fuel v Checker.start_state (Checker.root_cluster v) [] = Ret s ->
  (forall c, in_volume v c -> exists x, Checker.fat_get v c = Ret x) ->
  in_volume v (Checker.root_cluster v) -> fat_entry v (Checker.root_cluster v) <> 0 ->
  Checker.root_cluster v ∉ owned s -> (forall c, c ∈ owned s -> fat_entry v c <> 0) ->
  Checker.check depth fuel image start = Raise AssertionError.
Proof.
  intros HV _ HW HA HR HZ HO HN. unfold Checker.check. rewrite HV. cbn [mbind py_bind]. rewrite HW.
  cbn [mbind py_bind].
  destruct (walk_invariant _ _ _ _ _ _ _ (proj1 (walk_inv_start v)) (proj2 (walk_inv_start v)) HW) as [I _].
  unfold Checker.finish. destruct (count_fat_total v (fun x => x =? 0) HA) as [free ->].
  destruct (count_fat_total v (fun x => negb (x =? 0)) HA) as [used EU]. rewrite EU. cbn [mbind py_bind].
  apply count_fat_spec in EU as [-> _]. fold (allocated v). rewrite (claimed_size v s I).
  destruct (zlen (allocated v) =? zlen (owned s)) eqn:E; [|done].
  apply Z.eqb_eq in E. exfalso. apply HO, (owned_all v s I E HN). done.
Qed.

(** Consecutive sectors are one slice of the image. *)
Lemma concat_sectors image first n : 0 <= first -> 0 <= n ->
  concat ((fun i => Checker.sector_of image 0 (first + i)) <$> pyrange 0 n)
  = pyslice image (first * 512) ((first + n) * 512).
Proof.
  intros Hf Hn. pattern n. apply natlike_ind; [|clear n Hn; intros n Hn IH|done].
  - rewrite Z.add_0_r, pyslice_empty by lia. done.
  - rewrite (pyrange_app 0 n) by lia. rewrite fmap_app, concat_app, IH.
    rewrite (pyrange_cons n), (pyrange_nil (n + 1)) by lia. cbn. rewrite app_nil_r. unfold Checker.sector_of.
    rewrite (pyslice_split image (first * 512) ((first + n) * 512) ((first + Z.succ n) * 512)) by lia.
    f_equal. f_equal; lia.
Qed.

(** A freshly formatted FAT32 volume: 65525 clusters of one sector, one FAT,
    an empty root directory in cluster 2. *)
Definition fresh32_boot : list Z :=
  let b := zeros 512 in
  let b := Kernel.put 2 b 11 512 in
  let b := Kernel.put 1 b 13 1 in
  let b := Kernel.put 2 b 14 1 in
  let b := Kernel.put 1 b 16 1 in
  let b := Kernel.put 4 b 32 66038 in
  let b := Kernel.put 4 b 36 512 in
  let b := Kernel.put 4 b 44 2 in
  slice_assign b 510 512 [85; 170].
Definition fresh32_fat : list Z := [248; 255; 255; 15; 255; 255; 255; 15; 255; 255; 255; 15].
Definition fresh32 : list Z := fresh32_boot ++ fresh32_fat ++ zeros (514 * 512 - 524).

Definition fresh32_volume : Checker.volume :=
  Checker.Volume fresh32 0 1 1 1 512 0 513 65525 true 2 (fresh32_fat ++ zeros (512 * 512 - 12)).

#[local] Opaque zeros.

Lemma slices_of_parts (boot fat : list Z) n :
  zlen boot = 512 -> zlen fat = 12 -> 0 <= n ->
  pyslice (boot ++ fat ++ zeros n) 0 512 = boot
  /\ (forall a b, 524 <= a -> a <= b -> b <= 524 + n -> pyslice (boot ++ fat ++ zeros n) a b = zeros (b - a))
  /\ (forall b, 524 <= b <= 524 + n -> pyslice (boot ++ fat ++ zeros n) 512 b = fat ++ zeros (b - 524)).
Proof.
  intros L1 L2 Hn. assert (H2 : forall a b, 524 <= a -> a <= b -> b <= 524 + n ->
    pyslice (boot ++ fat ++ zeros n) a b = zeros (b - a)).
  { intros. rewrite !pyslice_app_r by lia. rewrite pyslice_zeros by lia. f_equal. lia. }
  split_and!; [by rewrite pyslice_app_l, pyslice_full by lia | exact H2 |].
  intros b Hb. rewrite (pyslice_split _ 512 524 b) by lia. rewrite (H2 524) by lia. f_equal.
  rewrite pyslice_app_r by lia. rewrite L1, pyslice_app_l, pyslice_full by lia. done.
Qed.

Lemma fresh32_parts :
  pyslice fresh32 0 512 = fresh32_boot
  /\ (forall a b, 524 <= a -> a <= b -> b <= 263168 -> pyslice fresh32 a b = zeros (b - a))
  /\ pyslice fresh32 512 262656 = fresh32_fat ++ zeros (512 * 512 - 12).
Proof.
  assert (L1 : zlen fresh32_boot = 512) by (vm_compute; reflexivity).
  destruct (slices_of_parts fresh32_boot fresh32_fat (514 * 512 - 524) L1 eq_refl ltac:(lia)) as (E1 & E2 & E3).
  split_and!; [exact E1 | intros; apply E2; lia |]. apply (E3 262656). lia.
Qed.

Ltac boot_field n off x :=
  replace (unpack_le n fresh32_boot off) with (Ret x : py Z) by (vm_compute; reflexivity).

Lemma fresh32_open : Checker.open_volume fresh32 0 = Ret fresh32_volume.
Proof.
  destruct fresh32_parts as (EB & _ & EF).
  assert (EF' : Checker.fat_copy fresh32 0 1 512 = fresh32_fat ++ zeros (512 * 512 - 12)).
  { unfold Checker.fat_copy. rewrite concat_sectors by lia. exact EF. }
  unfold fresh32_volume. rewrite <- EF'. clear EF EF'. generalize dependent fresh32. intros image EB.
  unfold Checker.open_volume. change (0 * 512) with 0. change (0 + 512) with 512. rewrite EB.
  replace (zeqb_list (pyslice fresh32_boot 510 512) [85; 170]) with true by (vm_compute; reflexivity).
  boot_field 2%nat 11 512. boot_field 1%nat 13 1. boot_field 2%nat 14 1. boot_field 1%nat 16 1.
  boot_field 2%nat 17 0. boot_field 2%nat 19 0. boot_field 2%nat 22 0. boot_field 4%nat 32 66038.
  boot_field 4%nat 36 512. boot_field 4%nat 44 2. cbn [passert mbind py_bind].
  change (Checker.zor 0 512) with 512. change (Checker.zor 0 66038) with 66038.
  change ((0 * 32 + 511) / 512) with 0. change (1 + 1 * 512 + 0) with 513.
  generalize (Checker.fat_copy image 0 1 512). intros fat. reflexivity.
Qed.

Lemma fresh32_fat_get c x : 2 <= c < 65536 ->
  pyslice (Checker.fat_bytes fresh32_volume) (c * 4) (c * 4 + 4) = le_bytes 4 x -> 0 <= x < 2 ^ 32 ->
  Checker.fat_get fresh32_volume c = Ret (Z.land x 268435455).
Proof.
  intros Hc E Hx. unfold Checker.fat_get. cbn [Checker.is32 fresh32_volume].
  rewrite (unpack_le_ret 4 _ (c * 4) x); [done | lia | | done | lia].
  unfold fresh32_volume. cbn [Checker.fat_bytes]. rewrite zlen_app, zlen_zeros by lia.
  change (zlen fresh32_fat) with 12. simpl Z.of_nat. lia.
Qed.

Lemma fresh32_entry c : in_volume fresh32_volume c ->
  Checker.fat_get fresh32_volume c = Ret (if c =? 2 then 268435455 else 0).
Proof.
  unfold in_volume. cbn [Checker.clusters fresh32_volume]. intros Hc. destruct (Z.eqb_spec c 2) as [->|].
  - apply (fresh32_fat_get 2 268435455); [lia | | lia]. unfold fresh32_volume. cbn [Checker.fat_bytes].
    rewrite pyslice_app_l by (change (zlen fresh32_fat) with 12; lia). reflexivity.
  - rewrite (fresh32_fat_get c 0); [done | lia | | lia].
    unfold fresh32_volume. cbn [Checker.fat_bytes]. change 12 with (zlen fresh32_fat).
    rewrite pyslice_app_r by (change (zlen fresh32_fat) with 12; lia).
    change (zlen fresh32_fat) with 12. rewrite pyslice_zeros by lia.
    rewrite le_bytes_zero. replace (c * 4 + 4 - 12 - (c * 4 - 12)) with 4 by lia. reflexivity.
Qed.

Lemma fresh32_walk : Checker.walk 1 3 fresh32_volume Checker.start_state 2 [] = Ret Checker.start_state.
Proof.
  assert (EN : Checker.chain_nocount 3 fresh32_volume [] 2 = Ret [2]).
  { apply (chain_nocount_linked 3 _ [] 2 [2]); [|simpl; lia]. simpl. split; [done|]. split; [done|].
    exists 268435455. split; [|done]. rewrite fresh32_entry; [done|]. unfold in_volume. cbn. lia. }
  cbn [Checker.walk]. unfold Checker.read_dir, Checker.dir_bytes.
  replace ((2 =? 0) && negb (Checker.is32 fresh32_volume)) with false by done. rewrite EN. cbn [mbind py_bind].
  assert (EC : concat (Checker.cluster_data fresh32_volume <$> [2]) = zeros 512).
  { cbn [fmap list_fmap concat]. rewrite app_nil_r. unfold Checker.cluster_data, Checker.sector.
    unfold fresh32_volume. cbn [Checker.image Checker.base Checker.data_start Checker.spc].
    rewrite (concat_sectors fresh32 (513 + (2 - 2) * 1)) by lia.
    destruct fresh32_parts as (_ & E & _). apply E; lia. }
  rewrite EC. vm_compute. reflexivity.
Qed.

Lemma fat32_root_never_counted_witness : Checker.check 1 3 fresh32 0 = Raise AssertionError.
Proof.
  apply (fat32_root_never_counted 1 3 fresh32 0 fresh32_volume Checker.start_state).
  - exact fresh32_open.
  - reflexivity.
  - exact fresh32_walk.
  - intros c Hc. eexists. exact (fresh32_entry c Hc).
  - unfold in_volume. cbn. lia.
  - unfold fat_entry. rewrite fresh32_entry; [discriminate|]. unfold in_volume. cbn. lia.
  - cbn. apply not_elem_of_nil.
  - cbn. intros c Hc. by apply not_elem_of_nil in Hc.
Defined.

(** C38: when the chain of a FAT32 root directory runs into a cycle, reading
    the root never ends, however long the loop is given: it is the one
    directory whose chain [chain] has not checked before. *)
Theorem cyclic_root_diverges v (cycle : list Z) :
  Checker.is32 v = true -> Checker.root_cluster v ∈ cycle ->
  (forall c, c ∈ cycle -> Checker.more v c = true
     /\ exists c', c' ∈ cycle /\ Checker.fat_get v c = Ret c') ->
  forall depth fuel s path, Checker.walk depth fuel v s (Checker.root_cluster v) path = NoFuel.
Proof.
  intros H32 HR HC depth fuel s path. destruct depth as [|depth]; [done|].
  cbn [Checker.walk]. unfold Checker.read_dir, Checker.dir_bytes. rewrite H32, andb_false_r.
  assert (N : forall fuel out c, c ∈ cycle -> Checker.chain_nocount fuel v out c = NoFuel).
  { induction fuel0 as [|n IH]; intros out c Hc; [done|]. cbn [Checker.chain_nocount].
    destruct (HC c Hc) as (-> & c' & Hc' & ->). cbn [mbind py_bind]. by apply IH. }
  by rewrite N.
Qed.

Definition cyclic32_volume : Checker.volume :=
  Checker.Volume fresh32 0 1 1 1 512 0 513 65525 true 2
    ([248; 255; 255; 15; 255; 255; 255; 15; 3; 0; 0; 0; 2; 0; 0; 0] ++ zeros (512 * 512 - 16)).

Lemma cyclic_root_diverges_witness :
  Checker.walk 100 1000 cyclic32_volume Checker.start_state 2 [] = NoFuel.
Proof.
  assert (G : forall i x, 2 <= i < 4 ->
    pyslice [248; 255; 255; 15; 255; 255; 255; 15; 3; 0; 0; 0; 2; 0; 0; 0] (i * 4) (i * 4 + 4) = le_bytes 4 x ->
    0 <= x < 2 ^ 28 -> Checker.fat_get cyclic32_volume i = Ret x).
  { intros i x Hi E Hx. unfold Checker.fat_get, cyclic32_volume. cbn [Checker.is32 Checker.fat_bytes].
    rewrite (unpack_le_ret 4 _ (i * 4) x); [|lia| | |lia].
    - cbn [mbind py_bind]. f_equal. change 268435455 with (Z.ones 28). rewrite Z.land_ones by lia.
      by apply Z.mod_small.
    - rewrite zlen_app, zlen_zeros by lia. change (zlen [_; _; _; _; _; _; _; _; _; _; _; _; _; _; _; _]) with 16.
      simpl Z.of_nat. lia.
    - simpl Z.of_nat. rewrite pyslice_app_l; [done | lia |].
      change (zlen [_; _; _; _; _; _; _; _; _; _; _; _; _; _; _; _]) with 16. lia. }
  apply (cyclic_root_diverges cyclic32_volume [2; 3] ltac:(reflexivity) ltac:(left)).
  intros c Hc. rewrite !elem_of_cons, elem_of_nil in Hc. destruct Hc as [->|[->|[]]].
  - split; [done|]. exists 3. split; [right; left|]. apply G; [lia | reflexivity | lia].
  - split; [done|]. exists 2. split; [left|]. apply G; [lia | reflexivity | lia].
Defined.
