(* ===== verification/Png.v ===== *)
(** Png: tools/make-png-tests.py and tools/ppm2png.py, which write PNG files,
    and kernel/src/png.rs, which decodes them.

    [Maker] and [Ppm] are the two tools, [Kernel] is [decode] with everything
    it calls; [zlib] compression is an interface ([Zlib]) with the laws zlib
    documents, and the random numbers of the corpus are an arbitrary sequence.
    This file has the definitions and the two facts about one row: undoing a
    filter gives the row back, and so does unpacking samples of any depth. *)
From Stdlib Require Import ZArith Lia List.
From stdpp Require Import base list strings.
From S2P Require Import Prelude Text Hash Arrays Machine Inflate InflateSpec.
Open Scope Z_scope.

(** What zlib promises: the output is a stream (RFC 1950) that holds the input,
    not empty and never longer than [compressBound]. *)
Class Zlib := {
  compress : list Z -> Z -> list Z;
  zlib_valid : forall l level, Forall is_byte l -> zlib_stream (compress l level) l;
  zlib_bound : forall l level,
    0 < zlen (compress l level) <= zlen l + zlen l / 4096 + zlen l / 16384 + zlen l / 2 ^ 25 + 13
}.

(** The numbers [random] hands out: the [k]-th call of [randrange(n)] gives
    [below k n], the [k]-th [random() < 0.15] gives [coin k]. *)
Class Random := {
  below : nat -> Z -> Z;
  coin : nat -> bool;
  below_range : forall k n, 0 < n -> 0 <= below k n < n
}.

(** Computations that draw random numbers. *)
Definition rpy (A : Type) : Type := nat -> py (A * nat).
#[export] Instance rpy_ret : MRet rpy := fun A a k => Ret (a, k).
#[export] Instance rpy_bind : MBind rpy := fun A B f m k =>
  match m k with Ret (a, k') => f a k' | Raise e => Raise e | NoFuel => NoFuel end.
Definition lift {A} (m : py A) : rpy A := fun k =>
  match m with Ret a => Ret (a, k) | Raise e => Raise e | NoFuel => NoFuel end.
Fixpoint mapR {A B} (f : A -> rpy B) (l : list A) : rpy (list B) :=
  match l with
  | [] => mret []
  | a :: l => b ← f a; bs ← mapR f l; mret (b :: bs)
  end.
Fixpoint foldR {S A} (f : S -> A -> rpy S) (s : S) (l : list A) : rpy S :=
  match l with
  | [] => mret s
  | a :: l => s' ← f s a; foldR f s' l
  end.

(** [bytes(l)]. *)
Definition bytes_of (l : list Z) : py (list Z) :=
  if forallb (fun b => between 0 b 255) l then Ret l else Raise ValueError.

Definition SIGNATURE : list Z := [137; 80; 78; 71; 13; 10; 26; 10].

(** * tools/make-png-tests.py *)

Module Maker.

Definition WIDTH : Z := 37.
Definition HEIGHT : Z := 29.

Definition chunk (kind body : list Z) : py (list Z) :=
  len ← pack_be 4 (zlen body);
  crc ← pack_be 4 (Z.land (Crc32.crc32 (kind ++ body)) 4294967295);
  Ret (len ++ kind ++ body ++ crc).

Definition paeth (a b c : Z) : Z :=
  let p := a + b - c in
  let pa := Z.abs (p - a) in
  let pb := Z.abs (p - b) in
  let pc := Z.abs (p - c) in
  if (pa <=? pb) && (pa <=? pc) then a else if pb <=? pc then b else c.

Definition predicted (kind left up up_left : Z) : Z :=
  if kind =? 0 then 0
  else if kind =? 1 then left
  else if kind =? 2 then up
  else if kind =? 3 then (left + up) / 2
  else paeth left up up_left.

Definition filter_byte (kind : Z) (row previous : list Z) (bpp : Z) (iv : Z * Z) : py Z :=
  let '(i, value) := iv in
  left ← (if bpp <=? i then pyget row (i - bpp) else Ret 0);
  up ← pyget previous i;
  up_left ← (if bpp <=? i then pyget previous (i - bpp) else Ret 0);
  Ret (Z.land (value - predicted kind left up up_left) 255).

Definition filter_row (kind : Z) (row previous : list Z) (bpp : Z) : py (list Z) :=
  mapM_py (filter_byte kind row previous bpp) (zip (pyrange 0 (zlen row)) row).

Definition ADAM7 : list (Z * Z * Z * Z) :=
  [(0, 0, 8, 8); (4, 0, 8, 8); (0, 4, 4, 8); (2, 0, 4, 4); (0, 2, 2, 4); (1, 0, 2, 2); (0, 1, 1, 2)].

(** The loop of [pack_samples]: the bytes so far, [bits] and [count]. *)
Definition pack_step (depth : Z) (st : list Z * Z * Z) (s : Z) : py (list Z * Z * Z) :=
  let '(out, bits, count) := st in
  let bits := Z.lor (Z.shiftl bits depth) s in
  let count := count + depth in
  if count =? 8 then b ← bytes_of [bits]; Ret (out ++ b, 0, 0) else Ret (out, bits, count).

Definition pack_samples (samples : list Z) (depth : Z) : py (list Z) :=
  if depth =? 16 then ls ← mapM_py (pack_be 2) samples; Ret (concat ls)
  else if depth =? 8 then bytes_of samples
  else
    '(out, bits, count) ← foldM (pack_step depth) ([], 0, 0) samples;
    if negb (count =? 0) then b ← bytes_of [Z.shiftl bits (8 - count)]; Ret (out ++ b) else Ret out.

Definition channels (color : Z) : py Z :=
  if (color =? 0) || (color =? 3) then Ret 1
  else if color =? 2 then Ret 3
  else if color =? 4 then Ret 2
  else if color =? 6 then Ret 4
  else Raise KeyError.

Definition to8 (depth v : Z) : Z :=
  if depth =? 16 then Z.shiftr v 8
  else if depth =? 8 then v
  else v * 255 / (Z.shiftl 1 depth - 1).

(** What the case is made of besides its parameters. *)
Record content := Content {
  palette : list (list Z);
  palette_alpha : list Z;
  key : option (list Z);
  pixels : list (list Z)
}.

(** One turn of the loop that builds [expected]. *)
Definition expected_pixel (color depth : Z) (c : content) (sample : list Z) : py (list Z) :=
  if color =? 0 then
    s0 ← pyget sample 0;
    let g := to8 depth s0 in
    let a := match key c with Some k => if zeqb_list [s0] k then 0 else 255 | None => 255 end in
    bytes_of [g; g; g; a]
  else if color =? 2 then
    let a := match key c with Some k => if zeqb_list sample k then 0 else 255 | None => 255 end in
    s0 ← pyget sample 0; s1 ← pyget sample 1; s2 ← pyget sample 2;
    bytes_of [to8 depth s0; to8 depth s1; to8 depth s2; a]
  else if color =? 3 then
    s0 ← pyget sample 0;
    rgb ← pyget (palette c) s0;
    a ← (if zlen (palette_alpha c) =? 0 then Ret 255 else pyget (palette_alpha c) s0);
    bytes_of (rgb ++ [a])
  else if color =? 4 then
    s0 ← pyget sample 0; s1 ← pyget sample 1;
    let g := to8 depth s0 in
    bytes_of [g; g; g; to8 depth s1]
  else bytes_of (to8 depth <$> sample).

Section random.
Context `{Random}.

(** [random.randrange(n)]. *)
Definition randrange (n : Z) : rpy Z := fun k => Ret (below k n, S k).
(** [random.random() < 0.15]. *)
Definition random_lt : rpy bool := fun k => Ret (coin k, S k).

Definition draw_palette (color depth : Z) : rpy (list (list Z)) :=
  if color =? 3
  then mapR (fun _ => r ← randrange 256; g ← randrange 256; b ← randrange 256; mret [r; g; b])
         (pyrange 0 (Z.shiftl 1 (Z.min depth 8)))
  else mret [].

Definition draw_alpha (color : Z) (transparency : bool) (palette : list (list Z)) : rpy (list Z) :=
  if (color =? 3) && transparency
  then mapR (fun _ => i ← randrange 4; lift (pyget [0; 64; 128; 255] i)) palette
  else mret [].

Definition draw_key (color maximum : Z) (transparency : bool) : rpy (option (list Z)) :=
  if transparency && (color =? 0) then k ← randrange (maximum + 1); mret (Some [k])
  else if transparency && (color =? 2)
  then k ← mapR (fun _ => randrange (maximum + 1)) (pyrange 0 3); mret (Some k)
  else mret None.

Definition draw_pixel (color channels maximum : Z) (palette : list (list Z)) (key : option (list Z))
  : rpy (list Z) :=
  if color =? 3 then s ← randrange (zlen palette); mret [s]
  else
    sample ← mapR (fun _ => randrange (maximum + 1)) (pyrange 0 channels);
    match key with
    | Some k => lt ← random_lt; mret (if lt : bool then k else sample)
    | None => mret sample
    end.

Definition draw_content (color depth channels : Z) (transparency : bool) : rpy content :=
  let maximum := Z.shiftl 1 depth - 1 in
  palette ← draw_palette color depth;
  palette_alpha ← draw_alpha color transparency palette;
  key ← draw_key color maximum transparency;
  pixels ← mapR (fun _ => draw_pixel color channels maximum palette key) (pyrange 0 (HEIGHT * WIDTH));
  mret (Content palette palette_alpha key pixels).

(** One scanline: its samples packed, a random filter applied; the state is
    the bytes so far and the line above. *)
Definition make_row (depth bpp : Z) (pixels : list (list Z)) (xs : list Z)
    (st : list Z * list Z) (y : Z) : rpy (list Z * list Z) :=
  let '(raw, previous) := st in
  samples ← lift (mapM_py (fun x => pyget pixels (y * WIDTH + x)) xs);
  row ← lift (pack_samples (concat samples) depth);
  kind ← randrange 5;
  line ← lift (filter_row kind row previous bpp);
  mret (raw ++ [kind] ++ line, row).

Definition make_pass (depth bits_per_pixel bpp : Z) (pixels : list (list Z))
    (raw : list Z) (pass : Z * Z * Z * Z) : rpy (list Z) :=
  let '(x0, y0, dx, dy) := pass in
  let xs := range_step x0 WIDTH dx in
  let ys := range_step y0 HEIGHT dy in
  if (zlen xs =? 0) || (zlen ys =? 0) then mret raw
  else
    let previous := zeros (- (- zlen xs * bits_per_pixel / 8)) in
    '(raw, _) ← foldR (make_row depth bpp pixels xs) (raw, previous) ys;
    mret raw.

(** The pieces the compressed stream is split into. *)
Definition split_pieces (compressed : list Z) : list (list Z) :=
  let third := Z.max 1 (zlen compressed / 3) in
  (fun i => pyslice compressed i (i + third)) <$> range_step 0 (zlen compressed) third.

Definition ihdr (width height depth color interlace : Z) : py (list Z) :=
  w ← pack_be 4 width; h ← pack_be 4 height;
  rest ← bytes_of [depth; color; 0; 0; interlace];
  Ret (w ++ h ++ rest).

Context `{Zlib}.

(** The file around the filtered rows. *)
Definition assemble (color depth : Z) (interlace : bool) (c : content) (raw : list Z) : py (list Z) :=
  hd ← ihdr WIDTH HEIGHT depth color (if interlace then 1 else 0);
  p1 ← chunk (lit "IHDR") hd;
  p2 ← (if zlen (palette c) =? 0 then Ret []
        else
          plte ← mapM_py bytes_of (palette c);
          p ← chunk (lit "PLTE") (concat plte);
          if zlen (palette_alpha c) =? 0 then Ret p
          else alpha ← bytes_of (palette_alpha c); t ← chunk (lit "tRNS") alpha; Ret (p ++ t));
  p3 ← match key c with
       | None => Ret []
       | Some k =>
           ks ← mapM_py (pack_be 2) k;
           chunk (lit "tRNS") (concat ks)
       end;
  p4 ← mapM_py (chunk (lit "IDAT")) (split_pieces (compress raw 6));
  p5 ← chunk (lit "IEND") [];
  Ret (SIGNATURE ++ p1 ++ p2 ++ p3 ++ concat p4 ++ p5).

Definition make_case (color depth : Z) (interlace transparency : bool) : rpy (list Z * list Z) :=
  channels ← lift (channels color);
  c ← draw_content color depth channels transparency;
  expected ← lift (mapM_py (expected_pixel color depth c) (pixels c));
  let bits_per_pixel := channels * depth in
  let bpp := Z.max 1 (bits_per_pixel / 8) in
  let passes := if interlace then ADAM7 else [(0, 0, 1, 1)] in
  raw ← foldR (make_pass depth bits_per_pixel bpp (pixels c)) [] passes;
  png ← lift (assemble color depth interlace c raw);
  mret (png, concat expected).

(** The cases, and the corpus file with a length and a checksum before each. *)
Definition cases : list (Z * Z * bool * bool) :=
  '(color, depths) ← [(0, [1; 2; 4; 8; 16]); (2, [8; 16]); (3, [1; 2; 4; 8]); (4, [8; 16]); (6, [8; 16])];
  depth ← depths;
  interlace ← [false; true];
  [(color, depth, interlace, false)]
  ++ if existsb (Z.eqb color) [0; 2; 3] then [(color, depth, interlace, true)] else [].

Definition corpus : rpy (list Z) :=
  foldR (fun out '(color, depth, interlace, transparency) =>
    '(png, expected) ← make_case color depth interlace transparency;
    len ← lift (pack_le 4 (zlen png));
    crc ← lift (pack_le 4 (Z.land (Crc32.crc32 expected) 4294967295));
    mret (out ++ len ++ crc ++ png)) [] cases.
End random.

End Maker.

(** * tools/ppm2png.py *)

Module Ppm.

(** [data.split(None, maxsplit)]. *)
Fixpoint take_word (l : list Z) : list Z * list Z :=
  match l with
  | [] => ([], [])
  | c :: l' => if byte_space c then ([], l) else let '(w, r) := take_word l' in (c :: w, r)
  end.
Fixpoint split_ws (maxsplit : nat) (l : list Z) : list (list Z) :=
  match lstrip byte_space l with
  | [] => []
  | (_ :: _) as l' =>
      match maxsplit with
      | O => [l']
      | S n => let '(w, r) := take_word l' in w :: split_ws n r
      end
  end.

Definition convert `{Zlib} (data : list Z) : py (list Z) :=
  let parts := split_ws 4 data in
  p1 ← pyget parts 1; width ← py_int_bytes 10 p1;
  p2 ← pyget parts 2; height ← py_int_bytes 10 p2;
  let start := zlen data - width * height * 3 in
  let pixels := pyslice data start (zlen data) in
  let rows := concat ((fun y => [0] ++ pyslice pixels (y * width * 3) ((y + 1) * width * 3))
                        <$> pyrange 0 height) in
  hd ← Maker.ihdr width height 8 2 0;
  p1 ← Maker.chunk (lit "IHDR") hd;
  p2 ← Maker.chunk (lit "IDAT") (compress rows 3);
  p3 ← Maker.chunk (lit "IEND") [];
  Ret (SIGNATURE ++ p1 ++ p2 ++ p3).

End Ppm.

(** * kernel/src/png.rs *)

Module Kernel.

Inductive image_error : Type := Unsupported | Corrupt | TooLarge.

#[warnings="-notation-for-abbreviation"] Notation result := (outcome image_error).

Definition MAX_EDGE : Z := 16384.
Definition MAX_PIXELS : Z := 64 * 1024 * 1024.

Record header := Header { width : Z; height : Z; depth : Z; color : Z; interlaced : bool }.

Definition channels (h : header) : Z :=
  if (color h =? 0) || (color h =? 3) then 1
  else if color h =? 2 then 3
  else if color h =? 4 then 2
  else 4.
Definition bits_per_pixel (h : header) : Z := channels h * depth h.

Definition div_ceil (a b : Z) : Z := (a + b - 1) / b.

Definition ADAM7 : list (Z * Z * Z * Z) :=
  [(0, 0, 8, 8); (4, 0, 8, 8); (0, 4, 4, 8); (2, 0, 4, 4); (0, 2, 2, 4); (1, 0, 2, 2); (0, 1, 1, 2)].
Definition passes (h : header) : list (Z * Z * Z * Z) :=
  if interlaced h then ADAM7 else [(0, 0, 1, 1)].
Definition pass_size (h : header) (pass : Z * Z * Z * Z) : Z * Z :=
  let '(x0, y0, dx, dy) := pass in
  (div_ceil (Z.max 0 (width h - x0)) dx, div_ceil (Z.max 0 (height h - y0)) dy).
Definition raw_size (h : header) : Z :=
  foldl (fun total pass =>
    let '(w, hh) := pass_size h pass in
    if (0 <? w) && (0 <? hh) then total + (div_ceil (w * bits_per_pixel h) 8 * hh + hh) else total)
    0 (passes h).

Definition paeth (a b c : Z) : Z :=
  let estimate := a + b - c in
  let pa := Z.abs (estimate - a) in
  let pb := Z.abs (estimate - b) in
  let pc := Z.abs (estimate - c) in
  if (pa <=? pb) && (pa <=? pc) then a else if pb <=? pc then b else c.

(** [l[i]]; 0 out of range, where the source panics. *)
Definition at_ (l : list Z) (i : Z) : Z := default 0 (l !! Z.to_nat i).

(** The line after its byte [i] was unfiltered in place. *)
Definition unfilter_byte (filter : Z) (previous : list Z) (bpp : Z) (line : list Z) (i : Z) : list Z :=
  let left := if bpp <=? i then at_ line (i - bpp) else 0 in
  let up := at_ previous i in
  let up_left := if bpp <=? i then at_ previous (i - bpp) else 0 in
  let predicted :=
    if filter =? 1 then left
    else if filter =? 2 then up
    else if filter =? 3 then ((left + up) / 2) mod 256
    else paeth left up up_left in
  <[Z.to_nat i := (at_ line i + predicted) mod 256]> line.

Definition unfilter (filter : Z) (line previous : list Z) (bpp : Z) : result (list Z) :=
  if filter =? 0 then Ok line
  else if filter =? 1 then Ok (foldl (unfilter_byte 1 previous bpp) line (pyrange bpp (zlen line)))
  else if (2 <=? filter) && (filter <=? 4)
  then Ok (foldl (unfilter_byte filter previous bpp) line (pyrange 0 (zlen line)))
  else Err Corrupt.

(** What the first pass over the chunks collects. *)
Record scan := Scan {
  hdr : option header;
  palette : list (list Z);
  palette_len : Z;
  transparent : option (list Z);
  idat_total : Z
}.
Definition scan0 : scan := Scan None (replicate 256 [0; 0; 0; 255]) 0 None 0.

Definition be (n : nat) (l : list Z) (off : Z) : Z := be_val (pyslice l off (off + Z.of_nat n)).

Definition valid_type (color depth : Z) : bool :=
  if color =? 0 then existsb (Z.eqb depth) [1; 2; 4; 8; 16]
  else if (color =? 2) || (color =? 4) || (color =? 6) then existsb (Z.eqb depth) [8; 16]
  else if color =? 3 then existsb (Z.eqb depth) [1; 2; 4; 8]
  else false.

Definition parse_ihdr (body : list Z) : result header :=
  if negb (zlen body =? 13) then Err Corrupt
  else
    let width := be 4 body 0 in
    let height := be 4 body 4 in
    if (width =? 0) || (height =? 0) || (MAX_EDGE <? width) || (MAX_EDGE <? height) then Err TooLarge
    else if MAX_PIXELS <? width * height then Err TooLarge
    else
      let depth := at_ body 8 in
      let color := at_ body 9 in
      if negb (valid_type color depth) || negb (at_ body 10 =? 0) || negb (at_ body 11 =? 0) || (1 <? at_ body 12)
      then Err Unsupported
      else Ok (Header width height depth color (at_ body 12 =? 1)).

(** The entries [body] gives, at most one per three bytes. *)
Fixpoint palette_entries (body : list Z) : list (list Z) :=
  match body with
  | r :: g :: b :: body => [r; g; b; 255] :: palette_entries body
  | _ => []
  end.

(** [palette[index][3] = alpha] for the bytes of [body]. *)
Fixpoint set_alphas (palette : list (list Z)) (body : list Z) : list (list Z) :=
  match palette, body with
  | p :: palette, a :: body => <[3%nat := a]> p :: set_alphas palette body
  | _, _ => palette
  end.

Definition scan_chunk (st : scan) (kind body : list Z) : result scan :=
  if zeqb_list kind (lit "IHDR") then
    h ← parse_ihdr body;
    Ok (Scan (Some h) (palette st) (palette_len st) (transparent st) (idat_total st))
  else if zeqb_list kind (lit "PLTE") then
    if negb (zlen body mod 3 =? 0) || (768 <? zlen body) then Err Corrupt
    else
      let n := zlen body / 3 in
      Ok (Scan (hdr st) (palette_entries body ++ drop (Z.to_nat n) (palette st)) n
             (transparent st) (idat_total st))
  else if zeqb_list kind (lit "tRNS") then
    match color <$> hdr st with
    | Some c =>
        if c =? 3 then
          Ok (Scan (hdr st) (set_alphas (palette st) body) (palette_len st) (transparent st) (idat_total st))
        else if (c =? 0) && (2 <=? zlen body) then
          Ok (Scan (hdr st) (palette st) (palette_len st) (Some [be 2 body 0; 0; 0]) (idat_total st))
        else if (c =? 2) && (6 <=? zlen body) then
          Ok (Scan (hdr st) (palette st) (palette_len st)
                 (Some [be 2 body 0; be 2 body 2; be 2 body 4]) (idat_total st))
        else Ok st
    | None => Ok st
    end
  else if zeqb_list kind (lit "IDAT") then
    Ok (Scan (hdr st) (palette st) (palette_len st) (transparent st) (idat_total st + zlen body))
  else Ok st.

(** A walk over the chunks from [offset]: [f] sees each kind and body, and
    [IEND] or the end of the data ends it.  Both passes of [decode] walk
    this way; the fuel is the length of the data, which every turn moves
    into by at least twelve. *)
Fixpoint chunks {S} (f : S -> list Z -> list Z -> result S) (fuel : nat) (data : list Z)
    (offset : Z) (st : S) : result S :=
  match fuel with
  | O => Ok st
  | S fuel =>
      if offset + 12 <=? zlen data then
        let length := be 4 data offset in
        let kind := pyslice data (offset + 4) (offset + 8) in
        let body_end := offset + 8 + length in
        if zlen data <? body_end + 4 then Err Corrupt
        else
          st ← f st kind (pyslice data (offset + 8) body_end);
          if zeqb_list kind (lit "IEND") then Ok st else chunks f fuel data (body_end + 4) st
      else Ok st
  end.

(** The second pass: [target] and [at]. *)
Definition gather_chunk (st : list Z * Z) (kind body : list Z) : result (list Z * Z) :=
  let '(target, at_) := st in
  if zeqb_list kind (lit "IDAT") then
    if zlen target <? at_ + zlen body then Err Corrupt
    else Ok (slice_assign target at_ (at_ + zlen body) body, at_ + zlen body)
  else Ok (target, at_).

Definition sample (h : header) (line : list Z) (column channel : Z) : Z :=
  let index := column * channels h + channel in
  if depth h =? 8 then at_ line index
  else if depth h =? 16 then at_ line (index * 2) * 256 + at_ line (index * 2 + 1)
  else
    let bit := index * depth h in
    let byte := at_ line (bit / 8) in
    let shift := 8 - depth h - bit mod 8 in
    Z.land (Z.shiftr byte shift) (Z.shiftl 1 (depth h) - 1).

Definition to8 (h : header) (value : Z) : Z :=
  if depth h =? 16 then Z.shiftr value 8
  else if depth h =? 8 then value mod 256
  else (value * 255 / (Z.shiftl 1 (depth h) - 1)) mod 256.

Definition pixel_rgba (h : header) (line : list Z) (column : Z) (palette : list (list Z))
    (palette_len : Z) (transparent : option (list Z)) : list Z :=
  let sample := sample h line column in
  let to8 := to8 h in
  if color h =? 0 then
    let value := sample 0 in
    let gray := to8 value in
    [gray; gray; gray;
     match transparent with Some t => if at_ t 0 =? value then 0 else 255 | None => 255 end]
  else if color h =? 2 then
    let r := sample 0 in let g := sample 1 in let b := sample 2 in
    [to8 r; to8 g; to8 b;
     match transparent with Some t => if zeqb_list t [r; g; b] then 0 else 255 | None => 255 end]
  else if color h =? 3 then
    let index := sample 0 in
    if index <? palette_len then default [] (palette !! Z.to_nat index) else [0; 0; 0; 255]
  else if color h =? 4 then
    let gray := to8 (sample 0) in [gray; gray; gray; to8 (sample 1)]
  else [to8 (sample 0); to8 (sample 1); to8 (sample 2); to8 (sample 3)].

(** One scanline: [cursor], the line above and the output. *)
Definition decode_row (h : header) (st : scan) (raw : list Z) (pass : Z * Z * Z * Z) (bpp row_bytes pass_width : Z)
    (s : Z * list Z * list Z) (row : Z) : result (Z * list Z * list Z) :=
  let '(cursor, previous, output) := s in
  let '(x0, y0, dx, dy) := pass in
  let start := cursor + 1 in
  line ← unfilter (at_ raw cursor) (pyslice raw start (start + row_bytes)) previous bpp;
  let y := y0 + row * dy in
  let output := foldl (fun output column =>
    let x := x0 + column * dx in
    let pixel := pixel_rgba h line column (palette st) (palette_len st) (transparent st) in
    let at_ := (y * width h + x) * 4 in
    slice_assign output at_ (at_ + 4) pixel) output (pyrange 0 pass_width) in
  Ok (start + row_bytes, line, output).

Definition decode_pass (h : header) (st : scan) (raw : list Z) (s : Z * list Z) (pass : Z * Z * Z * Z)
  : result (Z * list Z) :=
  let '(cursor, output) := s in
  let '(pass_width, pass_height) := pass_size h pass in
  if (pass_width =? 0) || (pass_height =? 0) then Ok s
  else
    let bpp := Z.max (div_ceil (bits_per_pixel h) 8) 1 in
    let row_bytes := div_ceil (pass_width * bits_per_pixel h) 8 in
    r ← foldK (decode_row h st raw pass bpp row_bytes pass_width)
          (cursor, zeros row_bytes, output) (pyrange 0 pass_height);
    Ok (r.1.1, r.2).

(** A decoded image: width, height and RGBA bytes. *)
Definition decode (data : list Z) : result (Z * Z * list Z) :=
  if negb (starts_with SIGNATURE data) then Err Unsupported
  else
    st ← chunks scan_chunk (length data) data 8 scan0;
    match hdr st with
    | None => Err Corrupt
    | Some h =>
        if (idat_total st =? 0) || ((color h =? 3) && (palette_len st =? 0)) then Err Corrupt
        else
          '(compressed, _) ← chunks gather_chunk (length data) data 8 (zeros (idat_total st), 0);
          '(raw, produced) ← map_err Corrupt (Inflate.Kernel.zlib_decompress compressed (zeros (raw_size h)));
          if negb (produced =? raw_size h) then Err Corrupt
          else
            r ← foldK (decode_pass h st raw) (0, zeros (width h * height h * 4)) (passes h);
            Ok (width h, height h, r.2)
    end.

End Kernel.

(** * Filters *)

Section filters.
Context (kind bpp : Z) (row previous : list Z).
Hypothesis Hk : 0 <= kind <= 4.
Hypothesis Hb : 1 <= bpp.
Hypothesis Hl : length previous = length row.
Hypothesis Br : Forall is_byte row.

(** What is subtracted from byte [i]. *)
Definition row_prediction (i : Z) : Z :=
  Maker.predicted kind
    (if bpp <=? i then Kernel.at_ row (i - bpp) else 0) (Kernel.at_ previous i)
    (if bpp <=? i then Kernel.at_ previous (i - bpp) else 0).

Definition filtered : list Z :=
  (fun i => (Kernel.at_ row i - row_prediction i) mod 256) <$> pyrange 0 (zlen row).

Lemma pyget_at l i : 0 <= i < zlen l -> pyget l i = Ret (Kernel.at_ l i).
Proof.
  intros. apply pyget_ret; [lia|]. unfold Kernel.at_.
  destruct (lookup_lt_is_Some_2 l (Z.to_nat i)) as [x ->]; [unfold zlen in *; lia | done].
Qed.

Lemma elem_of_enumerate (l : list Z) iv : iv ∈ zip (pyrange 0 (zlen l)) l ->
  0 <= iv.1 < zlen l /\ iv.2 = Kernel.at_ l iv.1.
Proof.
  destruct iv as [i v]. intros H. apply list_elem_of_lookup in H as [k H].
  apply lookup_zip_Some in H as [H1 H2]. cbn [fst snd].
  pose proof (lookup_lt_Some _ _ _ H2) as L. unfold pyrange in H1. rewrite list_lookup_fmap in H1.
  rewrite lookup_seq_lt in H1 by (unfold zlen; lia). cbn in H1. injection H1 as <-.
  split; [unfold zlen; lia|]. unfold Kernel.at_. by rewrite Z.add_0_l, Nat2Z.id, H2.
Qed.

Lemma enumerate_fst (l : list Z) : (zip (pyrange 0 (zlen l)) l).*1 = pyrange 0 (zlen l).
Proof.
  apply fst_zip. unfold pyrange. rewrite length_fmap, length_seq. unfold zlen. lia.
Qed.

Lemma filter_row_filtered : Maker.filter_row kind row previous bpp = Ret filtered.
Proof using All.
  assert (LP : zlen previous = zlen row) by (unfold zlen; lia).
  unfold Maker.filter_row.
  rewrite (mapM_py_ret _ (fun iv => (Kernel.at_ row iv.1 - row_prediction iv.1) mod 256)).
  - f_equal. unfold filtered. rewrite <- (enumerate_fst row) at 2. by rewrite <- list_fmap_compose.
  - intros [i v] H. apply elem_of_enumerate in H as [Hi Hv]. cbn [fst snd] in *. subst v.
    unfold Maker.filter_byte.
    assert (E : forall l, zlen l = zlen row -> (if bpp <=? i then pyget l (i - bpp) else Ret 0)
                 = Ret (if bpp <=? i then Kernel.at_ l (i - bpp) else 0)).
    { intros l Hll. zcase; [|done]. apply pyget_at. lia. }
    rewrite (E row eq_refl), (E previous LP), (pyget_at previous i) by lia. cbn [mbind py_bind].
    change 255 with (Z.ones 8). by rewrite Z.land_ones by lia.
Qed.

Lemma zlen_filtered : zlen filtered = zlen row.
Proof using Type. unfold filtered. rewrite zlen_fmap, zlen_pyrange, Z.sub_0_r; [done|]. apply zlen_nonneg. Qed.

Lemma at_filtered i : 0 <= i < zlen row ->
  Kernel.at_ filtered i = (Kernel.at_ row i - row_prediction i) mod 256.
Proof using Type.
  clear Hk Hb Hl Br. intros Hi. unfold filtered at 1, Kernel.at_ at 1. unfold pyrange.
  rewrite <- list_fmap_compose, list_lookup_fmap, lookup_seq_lt by lia. cbn. f_equal; do 2 f_equal; lia.
Qed.

Lemma at_byte l i : Forall is_byte l -> 0 <= Kernel.at_ l i < 256.
Proof.
  intros F. unfold Kernel.at_. destruct (l !! Z.to_nat i) as [x|] eqn:E; [|simpl; lia].
  rewrite Forall_lookup in F. exact (F _ _ E).
Qed.

(** The line with its first [i] bytes already undone. *)
Definition partly (i : Z) : list Z := pyslice row 0 i ++ pyslice filtered i (zlen row).

Lemma at_partly i j : 0 <= i <= zlen row -> 0 <= j < zlen row ->
  Kernel.at_ (partly i) j = if j <? i then Kernel.at_ row j else Kernel.at_ filtered j.
Proof.
  intros Hi Hj. unfold partly, Kernel.at_. pose proof zlen_filtered as LF. rewrite !pyslice_nn by lia.
  rewrite drop_0, Z.sub_0_r. unfold zlen in *.
  assert (LT : length (take (Z.to_nat i) row) = Z.to_nat i) by (rewrite length_take; lia).
  zcase.
  - rewrite lookup_app_l by lia. by rewrite lookup_take_lt by lia.
  - rewrite lookup_app_r by lia. rewrite LT, lookup_take_lt, lookup_drop by lia.
    by replace (Z.to_nat i + (Z.to_nat j - Z.to_nat i))%nat with (Z.to_nat j) by lia.
Qed.

Lemma zlen_partly i : 0 <= i <= zlen row -> zlen (partly i) = zlen row.
Proof.
  intros. unfold partly. pose proof zlen_filtered. rewrite zlen_app, !zlen_pyslice by lia. lia.
Qed.

Lemma list_at_eq (l1 l2 : list Z) : zlen l1 = zlen l2 ->
  (forall j, 0 <= j < zlen l1 -> Kernel.at_ l1 j = Kernel.at_ l2 j) -> l1 = l2.
Proof.
  intros L H. apply (list_eq_same_length _ _ (length l1)); [unfold zlen in L; lia | done|].
  intros i x y Hi H1 H2. specialize (H (Z.of_nat i) ltac:(unfold zlen; lia)).
  unfold Kernel.at_ in H. by rewrite Nat2Z.id, H1, H2 in H.
Qed.

Lemma at_insert l i j v : 0 <= i < zlen l -> 0 <= j ->
  Kernel.at_ (<[Z.to_nat i := v]> l) j = if j =? i then v else Kernel.at_ l j.
Proof.
  intros Hi Hj. unfold Kernel.at_. destruct (Z.eqb_spec j i) as [->|].
  - rewrite list_lookup_insert_eq; [done | unfold zlen in *; lia].
  - by rewrite list_lookup_insert_ne by lia.
Qed.

(** Undoing the filter of byte [i] when the bytes before it are undone. *)
Lemma unfilter_step i f : 0 <= i < zlen row -> (kind <> 0 -> f = kind) -> kind <> 0 ->
  Kernel.unfilter_byte f previous bpp (partly i) i = partly (i + 1).
Proof using All.
  intros Hi Hf Hz. rewrite (Hf Hz). clear Hf.
  assert (LI : forall v, zlen (<[Z.to_nat i := v]> (partly i)) = zlen row).
  { intros v. unfold zlen at 1. rewrite length_insert. apply zlen_partly. lia. }
  apply list_at_eq; [unfold Kernel.unfilter_byte; rewrite LI, zlen_partly; lia|].
  unfold Kernel.unfilter_byte. rewrite LI. intros j Hj.
  rewrite at_insert by (rewrite ?zlen_partly; lia). rewrite (at_partly (i + 1)) by lia.
  destruct (Z.eqb_spec j i) as [->|].
  - destruct (i <? i + 1) eqn:E1; [|lia]. rewrite (at_partly i i) by lia.
    destruct (i <? i) eqn:E2; [lia|]. rewrite at_filtered by done.
    assert (EL : (if bpp <=? i then Kernel.at_ (partly i) (i - bpp) else 0)
                 = if bpp <=? i then Kernel.at_ row (i - bpp) else 0).
    { zcase; [|done]. rewrite at_partly by lia. destruct (i - bpp <? i) eqn:E3; [done | lia]. }
    rewrite EL. pose proof (at_byte row i Br) as B.
    unfold row_prediction, Maker.predicted, Kernel.paeth, Maker.paeth.
    assert (M : forall p, ((Kernel.at_ row i - p) mod 256 + p) mod 256 = Kernel.at_ row i).
    { intros p. rewrite Z.add_mod_idemp_l by lia. rewrite Z.sub_add. by apply Z.mod_small. }
    destruct (Z.eqb_spec kind 0); [done|]. destruct (Z.eqb_spec kind 1); [apply M|].
    destruct (Z.eqb_spec kind 2); [apply M|]. destruct (Z.eqb_spec kind 3); [|apply M].
    rewrite Z.add_mod_idemp_r by lia. apply M.
  - rewrite (at_partly i j) by lia. zcase; try lia; done.
Qed.

Lemma unfilter_all a f : 0 <= a <= zlen row -> kind <> 0 -> f = kind ->
  foldl (Kernel.unfilter_byte f previous bpp) (partly a) (pyrange a (zlen row)) = row.
Proof using All.
  intros Ha Hz Hf. remember (Z.to_nat (zlen row - a)) as n eqn:E. revert a Ha E.
  induction n as [|n IH]; intros a Ha E.
  - rewrite pyrange_nil by lia. cbn. assert (a = zlen row) as -> by lia. unfold partly.
    rewrite pyslice_full, pyslice_empty by (done || lia). apply app_nil_r.
  - rewrite pyrange_cons by lia. cbn [foldl]. rewrite unfilter_step by (done || lia). apply IH; lia.
Qed.

Lemma filtered_zero i : 0 <= i < zlen row -> row_prediction i = 0 -> Kernel.at_ filtered i = Kernel.at_ row i.
Proof using All.
  intros Hi E. rewrite at_filtered, E, Z.sub_0_r by done. apply Z.mod_small, at_byte, Br.
Qed.

Lemma unfilter_filtered : Kernel.unfilter kind filtered previous bpp = Ok row.
Proof using All.
  pose proof (zlen_nonneg row). unfold Kernel.unfilter. rewrite zlen_filtered.
  assert (P0 : filtered = partly 0).
  { unfold partly. rewrite pyslice_empty, app_nil_l by lia. symmetry. apply pyslice_full. by rewrite zlen_filtered. }
  destruct (Z.eqb_spec kind 0) as [E0|].
  { f_equal. apply list_at_eq; [apply zlen_filtered|]. rewrite zlen_filtered. intros j Hj.
    apply filtered_zero; [done|]. unfold row_prediction, Maker.predicted. by rewrite E0. }
  destruct (Z.eqb_spec kind 1) as [E1|].
  { f_equal. assert (Z1 : forall j, 0 <= j < zlen row -> j < bpp -> Kernel.at_ filtered j = Kernel.at_ row j).
    { intros j Hj Hlt. apply filtered_zero; [done|]. unfold row_prediction, Maker.predicted. rewrite E1.
      destruct (bpp <=? j) eqn:EB; [lia | done]. }
    destruct (decide (bpp <= zlen row)).
    - rewrite <- (unfilter_all bpp 1) at 2 by (done || lia). f_equal. apply list_at_eq.
      + by rewrite zlen_filtered, zlen_partly by lia.
      + rewrite zlen_filtered. intros j Hj. rewrite at_partly by lia. zcase; [by apply Z1 | done].
    - rewrite pyrange_nil by lia. cbn. apply list_at_eq; [apply zlen_filtered|].
      rewrite zlen_filtered. intros j Hj. apply Z1; lia. }
  destruct (_ && _) eqn:E; [|bool_to_prop; lia]. f_equal. rewrite P0. apply unfilter_all; done || lia.
Qed.
End filters.

(** * Samples *)

(** The value of a list of [d]-bit digits. *)
Definition digits_of (d : Z) (l : list Z) : Z := foldl (fun b s => b * 2 ^ d + s) 0 l.

Lemma digits_of_app d l1 l2 : 0 <= d ->
  digits_of d (l1 ++ l2) = digits_of d l1 * 2 ^ (d * zlen l2) + digits_of d l2.
Proof.
  intros Hd. unfold digits_of. rewrite foldl_app. generalize (foldl (fun b s => b * 2 ^ d + s) 0 l1). intros b.
  revert b. induction l2 as [|s l2 IH]; intros b; cbn [foldl].
  - change (zlen (@nil Z)) with 0. rewrite Z.mul_0_r. lia.
  - pose proof (zlen_nonneg l2). rewrite IH, (IH (0 * 2 ^ d + s)), zlen_cons.
    replace (d * (1 + zlen l2)) with (d + d * zlen l2) by lia. rewrite Z.pow_add_r by lia. lia.
Qed.

Definition digits (d : Z) (l : list Z) : Prop := Forall (fun s => 0 <= s < 2 ^ d) l.

Lemma digits_of_bound d l : 0 <= d -> digits d l -> 0 <= digits_of d l < 2 ^ (d * zlen l).
Proof.
  intros Hd. induction l as [|s l IH] using rev_ind; intros H.
  - change (zlen (@nil Z)) with 0. rewrite Z.mul_0_r. cbn. lia.
  - apply Forall_app in H as [Hl Hs]. apply Forall_cons in Hs as [Hs _]. specialize (IH Hl).
    rewrite digits_of_app, zlen_app by lia. change (zlen [s]) with 1. pose proof (zlen_nonneg l).
    replace (d * (zlen l + 1)) with (d * zlen l + d) by lia. rewrite Z.pow_add_r by lia.
    change (digits_of d [s]) with (0 * 2 ^ d + s). rewrite Z.mul_1_r. nia.
Qed.

(** The digit at position [k] counted from the front. *)
Lemma digits_of_nth d l k s : 0 <= d -> digits d l -> l !! k = Some s ->
  digits_of d l / 2 ^ (d * (zlen l - 1 - Z.of_nat k)) mod 2 ^ d = s.
Proof.
  intros Hd H Hk. rewrite <- (take_drop_middle l k s Hk).
  pose proof (take_drop_middle l k s Hk) as E. pose proof (lookup_lt_Some _ _ _ Hk) as L.
  assert (D : digits d (take k l) /\ 0 <= s < 2 ^ d /\ digits d (drop (S k) l)).
  { unfold digits in *. rewrite <- E in H. apply Forall_app in H as [? H]. by apply Forall_cons in H. }
  destruct D as (D1 & D2 & D3).
  assert (L1 : zlen (take k l ++ s :: drop (S k) l) - 1 - Z.of_nat k = zlen (drop (S k) l)).
  { rewrite zlen_app, zlen_cons. unfold zlen. rewrite length_take, length_drop. lia. }
  rewrite L1. change (s :: drop (S k) l) with ([s] ++ drop (S k) l). rewrite app_assoc.
  rewrite digits_of_app by lia. pose proof (digits_of_bound d (drop (S k) l) Hd D3) as B.
  rewrite Z.div_add_l by (apply Z.pow_nonzero; [lia|]; pose proof (zlen_nonneg (drop (S k) l)); lia).
  rewrite Z.div_small by done. rewrite Z.add_0_r, digits_of_app by lia.
  change (zlen [s]) with 1. rewrite Z.mul_1_r. change (digits_of d [s]) with (0 * 2 ^ d + s).
  rewrite Z.mul_0_l, Z.add_0_l, Z.add_comm, Z.mod_add by lia. by apply Z.mod_small.
Qed.

Section packing.
Context (d m : Z).
Hypothesis Hd : 1 <= d.
Hypothesis Hm : 1 <= m.
Hypothesis Hdm : d * m = 8.

(** The bytes of the full groups of [p], and the samples after them. *)
Definition full_groups (p : list Z) : list Z :=
  (fun j => digits_of d (pyslice p (j * m) (j * m + m))) <$> pyrange 0 (zlen p / m).
Definition pending (p : list Z) : list Z := pyslice p (zlen p / m * m) (zlen p).
Definition pack_state (p : list Z) : list Z * Z * Z :=
  (full_groups p, digits_of d (pending p), d * zlen (pending p)).

Lemma zlen_pending p : zlen (pending p) = zlen p mod m.
Proof using All.
  pose proof (zlen_nonneg p). pose proof (Z.div_mod (zlen p) m ltac:(lia)).
  pose proof (Z.div_pos (zlen p) m ltac:(lia) ltac:(lia)).
  pose proof (Z.mod_pos_bound (zlen p) m ltac:(lia)). unfold pending. rewrite zlen_pyslice by nia. nia.
Qed.

Lemma pending_snoc p s : zlen p mod m + 1 < m ->
  pending (p ++ [s]) = pending p ++ [s] /\ full_groups (p ++ [s]) = full_groups p.
Proof using All.
  intros H. pose proof (zlen_nonneg p). pose proof (Z.div_mod (zlen p) m ltac:(lia)) as DM.
  pose proof (Z.mod_pos_bound (zlen p) m ltac:(lia)). pose proof (Z.div_pos (zlen p) m ltac:(lia) ltac:(lia)).
  assert (E : zlen (p ++ [s]) / m = zlen p / m).
  { rewrite zlen_app. change (zlen [s]) with 1. symmetry. apply (Z.div_unique _ _ _ (zlen p mod m + 1)); lia. }
  unfold pending, full_groups. rewrite E. split.
  - rewrite (pyslice_split _ _ (zlen p)) by (rewrite ?zlen_app; change (zlen [s]) with 1; nia).
    rewrite pyslice_app_l by nia. f_equal. rewrite pyslice_app_r by (rewrite ?zlen_app; change (zlen [s]) with 1; lia).
    rewrite Z.sub_diag. apply pyslice_full. rewrite zlen_app. lia.
  - apply list_fmap_ext. intros k j Hj. apply list_elem_of_lookup_2, elem_of_pyrange in Hj.
    by rewrite pyslice_app_l by nia.
Qed.

Lemma pending_full p s : zlen p mod m + 1 = m ->
  pending (p ++ [s]) = [] /\ full_groups (p ++ [s]) = full_groups p ++ [digits_of d (pending p ++ [s])].
Proof using All.
  intros H. pose proof (zlen_nonneg p). pose proof (Z.div_mod (zlen p) m ltac:(lia)) as DM.
  assert (E : zlen (p ++ [s]) / m = zlen p / m + 1).
  { rewrite zlen_app. change (zlen [s]) with 1. symmetry. apply (Z.div_unique _ _ _ 0); lia. }
  assert (L : zlen (p ++ [s]) = (zlen p / m + 1) * m) by (rewrite zlen_app; change (zlen [s]) with 1; lia).
  assert (0 <= zlen p / m) by (apply Z.div_pos; lia).
  unfold pending, full_groups. rewrite E. split.
  - rewrite <- L. apply pyslice_empty. apply zlen_nonneg.
  - rewrite (pyrange_app 0 (zlen p / m)) by lia. rewrite fmap_app. f_equal.
    + apply list_fmap_ext. intros k j Hj. apply list_elem_of_lookup_2, elem_of_pyrange in Hj.
      by rewrite pyslice_app_l by nia.
    + rewrite (pyrange_cons (zlen p / m)), pyrange_nil by lia. cbn [fmap list_fmap]. do 2 f_equal.
      rewrite (pyslice_split _ _ (zlen p)) by nia. rewrite pyslice_app_l by nia. f_equal.
      rewrite pyslice_app_r by nia. rewrite Z.sub_diag. apply pyslice_full. change (zlen [s]) with 1. nia.
Qed.

Lemma bytes_of_ret l : Forall is_byte l -> bytes_of l = Ret l.
Proof.
  intros F. unfold bytes_of. replace (forallb _ l) with true; [done|]. symmetry. apply forallb_Forall.
  eapply Forall_impl; [exact F|]. unfold is_byte, between. intros b Hb. simpl. lia.
Qed.

Lemma digits_pending p : digits d p -> digits d (pending p).
Proof. intros H. unfold pending, pyslice. by apply Forall_take, Forall_drop. Qed.

Lemma pack_step_state p s : digits d p -> 0 <= s < 2 ^ d ->
  Maker.pack_step d (pack_state p) s = Ret (pack_state (p ++ [s])).
Proof using All.
  intros Hp Hs. unfold Maker.pack_step, pack_state. pose proof (digits_pending p Hp) as Hq.
  pose proof (digits_of_bound d _ ltac:(lia) Hq) as B. pose proof (zlen_pending p) as LP.
  pose proof (Z.mod_pos_bound (zlen p) m ltac:(lia)).
  rewrite lor_shiftl_add by lia.
  assert (ED : digits_of d (pending p) * 2 ^ d + s = digits_of d (pending p ++ [s])).
  { rewrite digits_of_app by lia. change (zlen [s]) with 1. rewrite Z.mul_1_r. done. }
  rewrite ED. destruct (Z.eqb_spec (d * zlen (pending p) + d) 8) as [E|E].
  - assert (zlen p mod m + 1 = m) as EM by nia. destruct (pending_full p s EM) as [-> ->].
    rewrite bytes_of_ret; [cbn; by rewrite Z.mul_0_r|]. constructor; [|done]. unfold is_byte.
    pose proof (digits_of_bound d (pending p ++ [s]) ltac:(lia)) as B2. rewrite zlen_app in B2.
    change (zlen [s]) with 1 in B2. replace (d * (zlen (pending p) + 1)) with 8 in B2 by lia.
    apply B2. apply Forall_app. split; [done|]. by constructor.
  - destruct (pending_snoc p s) as [E1 E2]; [nia|]. rewrite E1, E2, zlen_app. change (zlen [s]) with 1.
    do 2 f_equal. lia.
Qed.

Lemma pack_fold l p : digits d p -> digits d l ->
  foldM (Maker.pack_step d) (pack_state p) l = Ret (pack_state (p ++ l)).
Proof using All.
  revert p. induction l as [|s l IH]; intros p Hp Hl; [by rewrite app_nil_r|].
  apply Forall_cons in Hl as [Hs Hl]. cbn [foldM]. rewrite pack_step_state by done. cbn [mbind py_bind].
  rewrite IH; [by rewrite <- app_assoc| |done]. apply Forall_app. split; [done|]. by constructor.
Qed.

Lemma digits_of_zeros n : 0 <= n -> digits_of d (zeros n) = 0.
Proof using Hd.
  intros _. unfold zeros, digits_of. induction (Z.to_nat n) as [|k IH]; [done|].
  cbn [replicate foldl]. by rewrite Z.mul_0_l, Z.add_0_l.
Qed.

(** The packed line, byte by byte: each byte is the value of the group of
    samples it holds, the last one padded with zero samples. *)
Definition padded_group (l : list Z) (j : Z) : list Z := pyslice (l ++ zeros m) (j * m) (j * m + m).

Lemma pack_state_nil : pack_state [] = ([], 0, 0).
Proof using All.
  unfold pack_state, full_groups, pending. change (zlen (@nil Z)) with 0.
  rewrite Z.div_0_l, Z.mul_0_l, pyslice_empty, pyrange_nil by lia.
  change (zlen (@nil Z)) with 0. by rewrite Z.mul_0_r.
Qed.

Lemma padded_full l j : 0 <= j -> j * m + m <= zlen l -> padded_group l j = pyslice l (j * m) (j * m + m).
Proof using All. intros. unfold padded_group. by rewrite pyslice_app_l by nia. Qed.

Lemma padded_last l : zlen l mod m <> 0 ->
  digits_of d (padded_group l (zlen l / m)) = Z.shiftl (digits_of d (pending l)) (8 - d * zlen (pending l)).
Proof using All.
  intros Hz. pose proof (zlen_nonneg l). pose proof (Z.div_mod (zlen l) m ltac:(lia)).
  pose proof (Z.mod_pos_bound (zlen l) m ltac:(lia)). pose proof (Z.div_pos (zlen l) m ltac:(lia) ltac:(lia)).
  unfold padded_group. rewrite (pyslice_split _ _ (zlen l)) by nia. rewrite pyslice_app_l by nia.
  fold (pending l). rewrite pyslice_app_r by nia. rewrite Z.sub_diag.
  rewrite pyslice_zeros by nia. rewrite digits_of_app, digits_of_zeros by nia.
  rewrite zlen_zeros by nia. rewrite Z.add_0_r, zlen_pending, Z.shiftl_mul_pow2 by nia. f_equal. f_equal. nia.
Qed.

Lemma zlen_padded l j : 0 <= j -> j * m <= zlen l -> zlen (padded_group l j) = m.
Proof using All. intros. unfold padded_group. rewrite zlen_pyslice; rewrite ?zlen_app, ?zlen_zeros; nia. Qed.

Lemma pack_samples_groups l : d <= 4 -> digits d l ->
  Maker.pack_samples l d = Ret (digits_of d <$> (padded_group l <$> pyrange 0 (Kernel.div_ceil (zlen l) m))).
Proof using All.
  intros H4 Hl. unfold Maker.pack_samples.
  destruct (Z.eqb_spec d 16); [lia|]. destruct (Z.eqb_spec d 8); [lia|].
  rewrite <- pack_state_nil, pack_fold by (done || constructor). cbn [mbind py_bind app]. unfold pack_state.
  pose proof (zlen_nonneg l). pose proof (Z.div_mod (zlen l) m ltac:(lia)).
  pose proof (Z.mod_pos_bound (zlen l) m ltac:(lia)). pose proof (Z.div_pos (zlen l) m ltac:(lia) ltac:(lia)).
  assert (EF : full_groups l = digits_of d <$> (padded_group l <$> pyrange 0 (zlen l / m))).
  { unfold full_groups. rewrite <- list_fmap_compose. apply list_fmap_ext. intros k j Hj.
    apply list_elem_of_lookup_2, elem_of_pyrange in Hj. cbn. by rewrite padded_full by nia. }
  rewrite zlen_pending. destruct (Z.eqb_spec (d * (zlen l mod m)) 0) as [E|E]; cbn [negb].
  - assert (zlen l mod m = 0) by nia. rewrite EF. do 4 f_equal. unfold Kernel.div_ceil.
    apply (Z.div_unique _ _ _ (m - 1)); nia.
  - assert (zlen l mod m <> 0) as NZ by nia. pose proof (padded_last l NZ) as PL. rewrite zlen_pending in PL.
    rewrite bytes_of_ret.
    + cbn [mbind py_bind]. f_equal. rewrite EF, <- PL.
      assert (EC : Kernel.div_ceil (zlen l) m = zlen l / m + 1).
      { symmetry. apply (Z.div_unique _ _ _ (zlen l mod m - 1)); nia. }
      rewrite EC, (pyrange_app 0 (zlen l / m) (zlen l / m + 1)), !fmap_app by lia. f_equal.
      rewrite (pyrange_cons (zlen l / m)), pyrange_nil by lia. done.
    + constructor; [|done]. rewrite <- PL. unfold is_byte.
      assert (D : digits d (padded_group l (zlen l / m))).
      { apply Forall_take, Forall_drop, Forall_app. split; [done|]. apply Forall_replicate.
        split; [lia|]. apply Z.pow_pos_nonneg; lia. }
      pose proof (digits_of_bound d _ ltac:(lia) D) as B.
      rewrite zlen_padded, Hdm in B by lia. exact B.
Qed.

(** Sample [k] read back from the packed line. *)
Lemma packed_sample l k s : d <= 4 -> digits d l -> l !! k = Some s ->
  let line := digits_of d <$> (padded_group l <$> pyrange 0 (Kernel.div_ceil (zlen l) m)) in
  let bit := Z.of_nat k * d in
  Z.land (Z.shiftr (Kernel.at_ line (bit / 8)) (8 - d - bit mod 8)) (Z.shiftl 1 d - 1) = s.
Proof using All.
  intros H4 Hl Hk line bit. pose proof (lookup_lt_Some _ _ _ Hk) as LK.
  pose proof (Z.div_mod (Z.of_nat k) m ltac:(lia)) as DM. pose proof (Z.mod_pos_bound (Z.of_nat k) m ltac:(lia)).
  set (q := Z.of_nat k / m) in *. set (r := Z.of_nat k mod m) in *.
  assert (Hq : 0 <= q) by (apply Z.div_pos; lia).
  assert (EB : bit = q * 8 + d * r) by (subst bit; nia).
  assert (HR : 0 <= d * r /\ d * r + d <= 8) by nia.
  assert (E1 : bit / 8 = q) by (symmetry; apply (Z.div_unique _ _ _ (d * r)); lia).
  assert (E2 : bit mod 8 = d * r) by (symmetry; apply (Z.mod_unique _ _ q); lia).
  rewrite E1, E2. assert (HC : q < Kernel.div_ceil (zlen l) m).
  { unfold Kernel.div_ceil. apply (Z.lt_le_trans _ (q + 1)); [lia|]. apply Z.div_le_lower_bound; [lia|].
    unfold zlen. nia. }
  assert (EA : Kernel.at_ line q = digits_of d (padded_group l q)).
  { subst line. unfold Kernel.at_, pyrange. rewrite <- !list_fmap_compose, list_lookup_fmap, lookup_seq_lt by lia.
    cbn. do 2 f_equal. lia. }
  assert (EO : Z.shiftl 1 d - 1 = Z.ones d) by (rewrite Z.shiftl_1_l, Z.ones_equiv; lia).
  rewrite EA, EO, Z.land_ones, Z.shiftr_div_pow2 by lia.
  assert (EG : padded_group l q !! Z.to_nat r = Some s).
  { unfold padded_group. rewrite pyslice_nn by nia. rewrite lookup_take_lt, lookup_drop by lia.
    replace (Z.to_nat (q * m) + Z.to_nat r)%nat with k by nia. by rewrite lookup_app_l. }
  assert (DG : digits d (padded_group l q)).
  { apply Forall_take, Forall_drop, Forall_app. split; [done|]. apply Forall_replicate.
    split; [lia|]. apply Z.pow_pos_nonneg; lia. }
  rewrite <- (digits_of_nth d (padded_group l q) (Z.to_nat r) s) by (done || lia).
  rewrite zlen_padded by (unfold zlen; nia). do 3 f_equal. nia.
Qed.
End packing.

Definition depth_ok (depth : Z) : Prop := depth = 1 \/ depth = 2 \/ depth = 4 \/ depth = 8 \/ depth = 16.

(** The closure [sample] of [pixel_rgba] at a sample index. *)
Definition raw_sample (depth : Z) (line : list Z) (index : Z) : Z :=
  if depth =? 8 then Kernel.at_ line index
  else if depth =? 16 then Kernel.at_ line (index * 2) * 256 + Kernel.at_ line (index * 2 + 1)
  else Z.land (Z.shiftr (Kernel.at_ line (index * depth / 8)) (8 - depth - (index * depth) mod 8))
         (Z.shiftl 1 depth - 1).

Lemma sample_raw h line column channel :
  Kernel.sample h line column channel
  = raw_sample (Kernel.depth h) line (column * Kernel.channels h + channel).
Proof. done. Qed.

Lemma be_bytes_2 s : be_bytes 2 s = [s / 256 mod 256; s mod 256].
Proof. done. Qed.

Lemma pairs_at l k s : digits 16 l -> l !! k = Some s ->
  let row := concat (be_bytes 2 <$> l) in
  Kernel.at_ row (Z.of_nat k * 2) * 256 + Kernel.at_ row (Z.of_nat k * 2 + 1) = s.
Proof.
  revert k. induction l as [|x l IH]; intros k Hl Hk; [done|]. apply Forall_cons in Hl as [Hx Hl].
  cbv zeta. cbn [fmap list_fmap concat]. rewrite be_bytes_2. unfold Kernel.at_ in *. destruct k as [|k].
  - injection Hk as ->. cbn. rewrite (Z.mod_small (s / 256)) by (Z.to_euclidean_division_equations; lia).
    change (Z.to_nat (Z.of_nat 0 * 2)) with 0%nat. change (Z.to_nat (Z.of_nat 0 * 2 + 1)) with 1%nat.
    cbn [lookup list_lookup default from_option id]. pose proof (Z.div_mod s 256 ltac:(lia)). lia.
  - specialize (IH k Hl Hk). cbv zeta in IH.
    replace (Z.to_nat (Z.of_nat (S k) * 2)) with (S (S (Z.to_nat (Z.of_nat k * 2)))) by lia.
    replace (Z.to_nat (Z.of_nat (S k) * 2 + 1)) with (S (S (Z.to_nat (Z.of_nat k * 2 + 1)))) by lia.
    exact IH.
Qed.

Lemma at_nat l k x : l !! k = Some x -> Kernel.at_ l (Z.of_nat k) = x.
Proof. intros H. unfold Kernel.at_. by rewrite Nat2Z.id, H. Qed.

Lemma div_ceil_groups n d m : 1 <= d -> 1 <= m -> d * m = 8 -> 0 <= n ->
  Kernel.div_ceil (n * d) 8 = Kernel.div_ceil n m.
Proof.
  intros. unfold Kernel.div_ceil. pose proof (Z.div_mod (n + m - 1) m ltac:(lia)).
  pose proof (Z.mod_pos_bound (n + m - 1) m ltac:(lia)).
  symmetry. apply (Z.div_unique _ _ _ (d * ((n + m - 1) mod m) + d - 1)); nia.
Qed.

(** What [pack_samples] writes, the kernel's [sample] reads. *)
Lemma pack_samples_spec depth l : depth_ok depth -> digits depth l -> exists row,
  Maker.pack_samples l depth = Ret row /\ Forall is_byte row
  /\ zlen row = Kernel.div_ceil (zlen l * depth) 8
  /\ forall k s, l !! k = Some s -> raw_sample depth row (Z.of_nat k) = s.
Proof.
  intros Hok Hl. pose proof (zlen_nonneg l).
  assert (Small : forall m, 1 <= m -> depth * m = 8 -> 1 <= depth <= 4 -> exists row,
    Maker.pack_samples l depth = Ret row /\ Forall is_byte row
    /\ zlen row = Kernel.div_ceil (zlen l * depth) 8
    /\ forall k s, l !! k = Some s -> raw_sample depth row (Z.of_nat k) = s).
  { intros m Hm Hdm H4. eexists. split; [apply (pack_samples_groups depth m); done || lia|].
    assert (0 <= Kernel.div_ceil (zlen l) m) by (apply Z.div_pos; lia). split_and!.
    - apply Forall_fmap, Forall_fmap, Forall_forall. intros j Hj. apply elem_of_pyrange in Hj. unfold compose, is_byte.
      assert (D : digits depth (padded_group m l j)).
      { apply Forall_take, Forall_drop, Forall_app. split; [done|]. apply Forall_replicate.
        split; [lia|]. apply Z.pow_pos_nonneg; lia. }
      pose proof (digits_of_bound depth _ ltac:(lia) D) as B. rewrite (zlen_padded depth m), Hdm in B; try lia.
      unfold Kernel.div_ceil in Hj. pose proof (Z.div_mod (zlen l + m - 1) m ltac:(lia)).
      pose proof (Z.mod_pos_bound (zlen l + m - 1) m ltac:(lia)). nia.
    - rewrite !zlen_fmap, zlen_pyrange by lia. rewrite (div_ceil_groups _ _ m) by lia. lia.
    - intros k s Hk. unfold raw_sample. destruct (Z.eqb_spec depth 8); [lia|]. destruct (Z.eqb_spec depth 16); [lia|].
      apply (packed_sample depth m); done || lia. }
  destruct Hok as [-> | [-> | [-> | [-> | ->]]]].
  - apply (Small 8); lia.
  - apply (Small 4); lia.
  - apply (Small 2); lia.
  - clear Small. exists l. assert (B : Forall is_byte l).
    { eapply Forall_impl; [exact Hl|]. unfold is_byte. simpl. lia. }
    split_and!; auto; [by apply bytes_of_ret | |intros; by apply at_nat].
    unfold Kernel.div_ceil. apply Z.div_unique with 7; lia.
  - clear Small. exists (concat (be_bytes 2 <$> l)). split_and!.
    + unfold Maker.pack_samples. cbn [Z.eqb Pos.eqb]. rewrite (mapM_py_ret _ (be_bytes 2)); [done|].
      intros s Hs. unfold digits in Hl. rewrite Forall_forall in Hl. specialize (Hl s Hs).
      apply pack_be_ret. simpl Z.of_nat. lia.
    + apply Forall_concat, Forall_fmap, Forall_forall. intros s _. apply be_bytes_bytes.
    + assert (E : zlen (concat (be_bytes 2 <$> l)) = zlen l * 2).
      { clear. induction l as [|s l IH]; [done|]. cbn [fmap list_fmap concat]. rewrite zlen_app, IH, zlen_cons, zlen_be_bytes. simpl Z.of_nat. lia. }
      rewrite E. unfold Kernel.div_ceil. apply Z.div_unique with 7; lia.
    + intros k s Hk. unfold raw_sample. cbn [Z.eqb Pos.eqb]. by apply pairs_at.
Qed.
