(* ===== verification/PngDecode.v ===== *)
(** PngDecode: the kernel decodes what the tools of Png.v write.

    The rows of a pass ([encode_lines]) are decoded row by row, the pixels of
    all passes fill the image, the chunks are found where [chunk] put them;
    the theorems put these together for every case of the corpus and for
    every converted screenshot. *)
From Stdlib Require Import ZArith Lia List.
From stdpp Require Import base list strings.
From S2P Require Import Prelude Text Hash Machine InflateSpec InflateBlock InflateWhole Png.
Open Scope Z_scope.


(** * Random computations that cannot fail *)

Definition holds {A} (m : rpy A) (P : A -> Prop) : Prop :=
  forall k, exists a k', m k = Ret (a, k') /\ P a.

Lemma holds_bind {A B} (m : rpy A) (f : A -> rpy B) P Q :
  holds m P -> (forall a, P a -> holds (f a) Q) -> holds (m ≫= f) Q.
Proof.
  intros Hm Hf k. destruct (Hm k) as (a & k' & E & Ha). destruct (Hf a Ha k') as (b & k'' & E' & Hb).
  exists b, k''. split; [|done]. unfold mbind, rpy_bind. by rewrite E.
Qed.

Lemma holds_ret {A} (a : A) (P : A -> Prop) : P a -> holds (mret a) P.
Proof. intros Ha k. by exists a, k. Qed.

Lemma holds_lift {A} (m : py A) a (P : A -> Prop) : m = Ret a -> P a -> holds (lift m) P.
Proof. intros -> Ha k. by exists a, k. Qed.

Lemma holds_weaken {A} (m : rpy A) (P Q : A -> Prop) : holds m P -> (forall a, P a -> Q a) -> holds m Q.
Proof. intros H HQ k. destruct (H k) as (a & k' & E & Ha). exists a, k'. eauto. Qed.

Lemma holds_mapR {A B} (f : A -> rpy B) (P : B -> Prop) l :
  (forall a, a ∈ l -> holds (f a) P) -> holds (mapR f l) (fun bs => Forall P bs /\ length bs = length l).
Proof.
  induction l as [|a l IH]; intros H; cbn [mapR]; [by apply holds_ret|].
  eapply holds_bind; [apply H; left|]. intros b Hb.
  eapply holds_bind; [apply IH; intros; apply H; by right|]. intros bs [Hbs L].
  apply holds_ret. split; [by constructor | simpl; lia].
Qed.

(** A loop over [l] whose state after the prefix [p] satisfies [P p]. *)
Lemma holds_foldR {S A} (f : S -> A -> rpy S) (P : list A -> S -> Prop) l : forall p s,
  P p s -> (forall p a s, a ∈ l -> P p s -> holds (f s a) (P (p ++ [a]))) ->
  holds (foldR f s l) (P (p ++ l)).
Proof.
  induction l as [|a l IH]; intros p s Hs Hf; cbn [foldR].
  - rewrite app_nil_r. by apply holds_ret.
  - eapply holds_bind; [apply (Hf p a s); [left | done]|]. intros s' Hs'.
    replace (p ++ a :: l) with ((p ++ [a]) ++ l) by (by rewrite <- app_assoc).
    apply IH; [done|]. intros p' a' s0 Ha' Hp'. apply (Hf p' a' s0); [by right | done].
Qed.

(** * Lists of equally long lists *)

Lemma concat_uniform {A} (ls : list (list A)) (n c j : nat) l :
  Forall (fun l => length l = n) ls -> ls !! c = Some l -> (j < n)%nat ->
  concat ls !! (c * n + j)%nat = l !! j.
Proof.
  intros F. revert c. induction F as [|l0 ls E F IH]; intros c Hc Hj; [done|]. destruct c as [|c]; cbn in Hc |- *.
  - injection Hc as ->. by rewrite lookup_app_l by lia.
  - rewrite lookup_app_r by lia. replace (n + c * n + j - length l0)%nat with (c * n + j)%nat by lia. by apply IH.
Qed.

Lemma length_concat_uniform {A} (ls : list (list A)) n :
  Forall (fun l => length l = n) ls -> length (concat ls) = (length ls * n)%nat.
Proof. induction 1 as [|l ls E F IH]; [done|]. cbn. rewrite length_app, IH. lia. Qed.

Lemma concat_insert {A} (ls : list (list A)) n i v :
  Forall (fun l => length l = n) ls -> length v = n -> (i < length ls)%nat ->
  slice_assign (concat ls) (Z.of_nat i * Z.of_nat n) (Z.of_nat i * Z.of_nat n + Z.of_nat n) v = concat (<[i := v]> ls).
Proof.
  intros F Hv Hi. rewrite slice_assign_nn by lia.
  replace (Z.to_nat (Z.of_nat i * Z.of_nat n)) with (i * n)%nat by lia.
  replace (Z.to_nat (Z.of_nat i * Z.of_nat n + Z.of_nat n)) with (S i * n)%nat by lia.
  revert i Hi. induction F as [|l ls E F IH]; intros i Hi; [cbn in Hi; lia|]. destruct i as [|i].
  - cbn [insert list_insert concat Nat.mul take app]. rewrite Nat.add_0_r. rewrite take_0, app_nil_l.
    rewrite drop_app_le by lia. by rewrite (drop_ge l n) by lia.
  - cbn in Hi. cbn [insert list_insert concat]. rewrite <- IH by lia.
    rewrite !take_app, !drop_app, E. rewrite (take_ge l) by lia. rewrite (drop_ge l) by lia.
    replace (S i * n - n)%nat with (i * n)%nat by lia. replace (S (S i) * n - n)%nat with (S i * n)%nat by lia.
    by rewrite <- app_assoc.
Qed.

(** Writing [want i] at every index of [idx] fills the list when the indices
    cover it. *)
Lemma fold_insert_lookup {A} (want : nat -> A) idx : forall (init : list A) (i : nat),
  (forall k, k ∈ idx -> (k < length init)%nat) ->
  foldl (fun out k => <[k := want k]> out) init idx !! i
  = if decide (i ∈ idx) then Some (want i) else init !! i.
Proof.
  induction idx as [|k idx IH] using rev_ind; intros init i H.
  - cbn. destruct (decide _) as [E|]; [by apply not_elem_of_nil in E | done].
  - rewrite foldl_app. cbn [foldl].
    assert (L : length (foldl (fun out k => <[k := want k]> out) init idx) = length init).
    { clear. revert init. induction idx as [|k idx IH]; intros init; [done|]. cbn. rewrite IH. apply length_insert. }
    assert (Hk : (k < length init)%nat) by (apply H; apply elem_of_app; right; left).
    destruct (decide (i = k)) as [->|NE].
    + rewrite list_lookup_insert_eq by lia. destruct (decide _) as [|N]; [done|]. destruct N.
      apply elem_of_app. right. left.
    + rewrite list_lookup_insert_ne by done. rewrite IH by (intros; apply H; apply elem_of_app; by left).
      destruct (decide (i ∈ idx)) as [I|I], (decide (i ∈ idx ++ [k])) as [J|J]; try done.
      * destruct J. apply elem_of_app. by left.
      * apply elem_of_app in J as [|J]; [done|]. by apply list_elem_of_singleton in J.
Qed.

(** * Rows *)

(** The bytes of consecutive scanlines with the filters [kind]. *)
Fixpoint encode_lines (bpp : Z) (previous : list Z) (lines : list (Z * list Z)) : list Z :=
  match lines with
  | [] => []
  | (kind, row) :: lines => kind :: filtered kind bpp row previous ++ encode_lines bpp row lines
  end.

Definition good_line (n : Z) (kr : Z * list Z) : Prop :=
  0 <= kr.1 <= 4 /\ zlen kr.2 = n /\ Forall is_byte kr.2.

Lemma encode_lines_snoc bpp previous lines kind row :
  encode_lines bpp previous (lines ++ [(kind, row)])
  = encode_lines bpp previous lines ++ kind :: filtered kind bpp row (default previous (last (snd <$> lines))).
Proof.
  revert previous. induction lines as [|[k r] lines IH]; intros previous; cbn [encode_lines app].
  - by rewrite app_nil_r.
  - rewrite IH, <- app_assoc. cbn [app]. do 4 f_equal. rewrite fmap_cons, last_cons. by destruct (last _).
Qed.

Lemma at_middle pre x post : Kernel.at_ (pre ++ x :: post) (zlen pre) = x.
Proof. unfold Kernel.at_, zlen. rewrite Nat2Z.id. by rewrite list_lookup_middle. Qed.

Lemma slice_middle (pre mid post : list Z) a b : a = zlen pre -> b = a + zlen mid ->
  pyslice (pre ++ mid ++ post) a b = mid.
Proof.
  intros -> ->. pose proof (zlen_nonneg pre). pose proof (zlen_nonneg mid).
  rewrite pyslice_app_r by lia. rewrite Z.sub_diag, pyslice_app_l, pyslice_full by lia. done.
Qed.

Section rows.
Context (h : Kernel.header) (st : Kernel.scan) (pass : Z * Z * Z * Z) (bpp n pass_width : Z).
Hypothesis Hb : 1 <= bpp.
Let W := Kernel.width h.

Definition row_output (row : list Z) (y : Z) (output : list Z) : list Z :=
  let '(x0, y0, dx, dy) := pass in
  foldl (fun output column =>
    let at_ := ((y0 + y * dy) * W + (x0 + column * dx)) * 4 in
    slice_assign output at_ (at_ + 4)
      (Kernel.pixel_rgba h row column (Kernel.palette st) (Kernel.palette_len st) (Kernel.transparent st)))
    output (pyrange 0 pass_width).

Lemma decode_row_line pre kind row previous post output y :
  good_line n (kind, row) -> zlen previous = n ->
  Kernel.decode_row h st (pre ++ kind :: filtered kind bpp row previous ++ post) pass bpp n pass_width
    (zlen pre, previous, output) y
  = Ok (zlen pre + 1 + n, row, row_output row y output).
Proof using Hb.
  intros (Hk & Hn & B) Hp. cbn [fst snd] in *. unfold Kernel.decode_row, row_output.
  destruct pass as [[[x0 y0] dx] dy]. rewrite at_middle.
  assert (LP : length previous = length row) by (unfold zlen in *; lia).
  replace (pyslice _ (zlen pre + 1) (zlen pre + 1 + n)) with (filtered kind bpp row previous).
  2: { symmetry. change (kind :: filtered kind bpp row previous ++ post)
         with ([kind] ++ filtered kind bpp row previous ++ post). rewrite app_assoc.
       apply slice_middle; rewrite ?zlen_app; [done|]. rewrite zlen_filtered. lia. }
  rewrite unfilter_filtered by done. done.
Qed.

(** The rows of a pass, from row number [y]. *)
Fixpoint rows_output (lines : list (Z * list Z)) (y : Z) (output : list Z) : list Z :=
  match lines with
  | [] => output
  | (_, row) :: lines => rows_output lines (y + 1) (row_output row y output)
  end.

Lemma decode_rows lines : forall pre previous post output y,
  Forall (good_line n) lines -> zlen previous = n ->
  exists previous', foldK
    (Kernel.decode_row h st (pre ++ encode_lines bpp previous lines ++ post) pass bpp n pass_width)
    (zlen pre, previous, output) (pyrange y (y + zlen lines))
  = Ok (zlen pre + zlen (encode_lines bpp previous lines), previous', rows_output lines y output).
Proof using Hb.
  induction lines as [|[kind row] lines IH]; intros pre previous post output y F Hp.
  - exists previous. rewrite pyrange_nil by (change (zlen []) with 0; lia). cbn. by rewrite Z.add_0_r.
  - apply Forall_cons in F as [G F]. rewrite zlen_cons. pose proof (zlen_nonneg lines).
    rewrite pyrange_cons by lia. cbn [foldK encode_lines rows_output].
    rewrite <- app_comm_cons, <- app_assoc. rewrite (decode_row_line pre) by done. cbn [mbind outcome_bind].
    destruct (IH (pre ++ kind :: filtered kind bpp row previous) row post (row_output row y output) (y + 1) F)
      as [p' E]; [apply G|].
    exists p'. rewrite <- app_assoc in E. cbn [app] in E.
    rewrite zlen_app, zlen_cons, zlen_filtered in E. destruct G as (_ & Hn & _). cbn [snd] in Hn. rewrite Hn in E.
    replace (zlen pre + (1 + n)) with (zlen pre + 1 + n) in E by lia.
    replace (y + (1 + zlen lines)) with (y + 1 + zlen lines) by lia. rewrite E.
    rewrite zlen_cons, zlen_app, zlen_filtered. cbn [snd] in *. do 3 f_equal. rewrite Hn. lia.
Qed.
End rows.

(** * Passes *)

Lemma zlen_range_step a b step : 0 < step ->
  zlen (range_step a b step) = Kernel.div_ceil (Z.max 0 (b - a)) step.
Proof.
  intros Hs. unfold range_step, Kernel.div_ceil. rewrite zlen_fmap. destruct (decide (a <= b)).
  - rewrite zlen_pyrange by (apply Z.div_pos; lia). rewrite Z.max_r by lia. f_equal. lia.
  - assert ((b - a + step - 1) / step < 1) by (apply Z.div_lt_upper_bound; lia).
    rewrite pyrange_nil by lia. rewrite Z.max_l by lia.
    symmetry. apply Z.div_small. lia.
Qed.

Section passes.
Context (h : Kernel.header) (st : Kernel.scan) (want : nat -> list Z) (N : nat).
Let W := Kernel.width h.
Let bpp := Z.max (Kernel.div_ceil (Kernel.bits_per_pixel h) 8) 1.
Hypothesis want_len : forall i, length (want i) = 4%nat.

Let pixel row column :=
  Kernel.pixel_rgba h row column (Kernel.palette st) (Kernel.palette_len st) (Kernel.transparent st).

(** The index of the pixel in column [c] of row [j] of a pass. *)
Definition pixel_index (pass : Z * Z * Z * Z) (j c : Z) : nat :=
  let '(x0, y0, dx, dy) := pass in Z.to_nat ((y0 + j * dy) * W + (x0 + c * dx)).
Definition pass_indices (pass : Z * Z * Z * Z) : list nat :=
  let '(pw, ph) := Kernel.pass_size h pass in
  concat ((fun j => pixel_index pass j <$> pyrange 0 pw) <$> pyrange 0 ph).

Definition good_pass (pass : Z * Z * Z * Z) : Prop :=
  let '(x0, y0, dx, dy) := pass in 0 <= x0 /\ 0 <= y0 /\ 0 < dx /\ 0 < dy.

(** The bytes [r] encode the pixels [want] of a pass. *)
Definition encodes (pass : Z * Z * Z * Z) (r : list Z) : Prop :=
  let '(pw, ph) := Kernel.pass_size h pass in
  if (pw =? 0) || (ph =? 0) then r = []
  else exists lines, r = encode_lines bpp (zeros (Kernel.div_ceil (pw * Kernel.bits_per_pixel h) 8)) lines
    /\ zlen lines = ph
    /\ Forall (good_line (Kernel.div_ceil (pw * Kernel.bits_per_pixel h) 8)) lines
    /\ forall j kr c, lines !! j = Some kr -> 0 <= c < pw ->
         pixel kr.2 c = want (pixel_index pass (Z.of_nat j) c).

Definition fill (outs : list (list Z)) (idx : list nat) : list (list Z) :=
  foldl (fun out k => <[k := want k]> out) outs idx.

Definition quads (outs : list (list Z)) : Prop := Forall (fun l => length l = 4%nat) outs.

Lemma fill_quads outs idx : quads outs -> quads (fill outs idx).
Proof using want_len.
  revert outs. induction idx as [|k idx IH]; intros outs H; [done|]. cbn. apply IH. by apply Forall_insert.
Qed.

Lemma length_fill outs idx : length (fill outs idx) = length outs.
Proof.
  revert outs. induction idx as [|k idx IH]; intros outs; [done|]. cbn. unfold fill in IH. rewrite IH. apply length_insert.
Qed.

Lemma row_output_fill pass row j pw outs : good_pass pass -> 0 <= W -> 0 <= j -> quads outs ->
  (forall c, 0 <= c < pw -> pixel row c = want (pixel_index pass j c)) ->
  (forall c, 0 <= c < pw -> (pixel_index pass j c < length outs)%nat) ->
  row_output h st pass pw row j (concat outs) = concat (fill outs (pixel_index pass j <$> pyrange 0 pw)).
Proof using want_len.
  intros G HW Hj Q HP HI. unfold row_output. destruct pass as [[[x0 y0] dx] dy]. destruct G as (? & ? & ? & ?).
  assert (HC : forall c, c ∈ pyrange 0 pw -> 0 <= c < pw) by (intros c; apply elem_of_pyrange).
  revert outs Q HI. induction (pyrange 0 pw) as [|c l IH]; intros outs Q HI; [done|]. cbn [foldl fmap list_fmap fill].
  assert (Hc : 0 <= c < pw) by (apply HC; left).
  pose proof (HP c Hc) as EP. unfold pixel in EP. rewrite EP.
  set (k := pixel_index (x0, y0, dx, dy) j c).
  assert (EK : ((y0 + j * dy) * Kernel.width h + (x0 + c * dx)) * 4 = Z.of_nat k * Z.of_nat 4).
  { subst k. unfold pixel_index, W. rewrite Z2Nat.id; [lia|]. fold W. nia. }
  rewrite EK. rewrite (concat_insert outs 4 k) by (done || apply want_len || by apply HI).
  apply IH.
  - intros c' Hc'. apply HC. by right.
  - apply Forall_insert; [done | apply want_len].
  - intros c' Hc'. rewrite length_insert. by apply HI.
Qed.

Lemma fill_app outs i1 i2 : fill outs (i1 ++ i2) = fill (fill outs i1) i2.
Proof. apply foldl_app. Qed.

Lemma rows_output_fill pass pw lines : forall j outs,
  good_pass pass -> 0 <= W -> 0 <= j -> quads outs ->
  (forall i kr c, lines !! i = Some kr -> 0 <= c < pw -> pixel kr.2 c = want (pixel_index pass (j + Z.of_nat i) c)) ->
  (forall i c, 0 <= i < zlen lines -> 0 <= c < pw -> (pixel_index pass (j + i) c < length outs)%nat) ->
  rows_output h st pass pw lines j (concat outs)
  = concat (fill outs (concat ((fun i => pixel_index pass i <$> pyrange 0 pw) <$> pyrange j (j + zlen lines)))).
Proof using want_len.
  induction lines as [|[kind row] lines IH]; intros j outs G HW Hj Q HP HI.
  - rewrite (pyrange_nil j) by (change (zlen (@nil (Z * list Z))) with 0; lia). done.
  - rewrite zlen_cons in *. pose proof (zlen_nonneg lines). rewrite (pyrange_cons j) by lia.
    cbn [rows_output fmap list_fmap concat].
    rewrite row_output_fill; try done.
    + rewrite fill_app. replace (j + (1 + zlen lines)) with (j + 1 + zlen lines) by lia. apply IH; try done; try lia.
      * by apply fill_quads.
      * intros i kr c Hi Hc. replace (j + 1 + Z.of_nat i) with (j + Z.of_nat (S i)) by lia. by apply HP.
      * intros i c Hi Hc. rewrite length_fill. replace (j + 1 + i) with (j + (i + 1)) by lia. apply HI; lia.
    + intros c Hc. specialize (HP 0%nat (kind, row) c eq_refl Hc). cbn [snd] in HP. rewrite HP. by rewrite Z.add_0_r.
    + intros c Hc. specialize (HI 0 c ltac:(lia) Hc). by rewrite Z.add_0_r in HI.
Qed.

Lemma decode_pass_ok pass r pre post outs :
  good_pass pass -> 0 <= W -> 0 <= Kernel.bits_per_pixel h -> quads outs -> encodes pass r ->
  (forall k, k ∈ pass_indices pass -> (k < length outs)%nat) ->
  Kernel.decode_pass h st (pre ++ r ++ post) (zlen pre, concat outs) pass
  = Ok (zlen pre + zlen r, concat (fill outs (pass_indices pass))).
Proof using want_len.
  intros G HW HB Q E HI. unfold Kernel.decode_pass. unfold encodes in E. unfold pass_indices in *.
  destruct (Kernel.pass_size h pass) as [pw ph] eqn:EP. cbn [fst snd].
  assert (P0 : 0 <= pw /\ 0 <= ph).
  { unfold Kernel.pass_size in EP. destruct pass as [[[x0 y0] dx] dy]. destruct G as (? & ? & ? & ?).
    injection EP as <- <-. split; apply Z.div_pos; lia. }
  destruct ((pw =? 0) || (ph =? 0)) eqn:EZ.
  - subst r. change (zlen (@nil Z)) with 0. rewrite Z.add_0_r. do 3 f_equal.
    apply orb_true_iff in EZ as [EZ|EZ]; apply Z.eqb_eq in EZ; subst.
    + rewrite (pyrange_nil 0 0) by lia. cbn. generalize (pyrange 0 ph). clear. induction l; [done|]. done.
    + by rewrite (pyrange_nil 0 0) by lia.
  - destruct E as (lines & -> & EL & F & HP). apply orb_false_iff in EZ as [EZ1 EZ2].
    set (n := Kernel.div_ceil (pw * Kernel.bits_per_pixel h) 8) in *.
    assert (Hn : 0 <= n) by (apply Z.div_pos; nia).
    destruct (decode_rows h st pass bpp n pw ltac:(unfold bpp; lia) lines pre (zeros n) post (concat outs) 0 F)
      as [p' E]; [by apply zlen_zeros|].
    rewrite Z.add_0_l, EL in E. fold bpp. rewrite E. cbn [mbind outcome_bind fst snd]. do 2 f_equal.
    rewrite rows_output_fill; try done; try lia.
    + by rewrite Z.add_0_l, EL.
    + intros i c Hi Hc. apply HI. apply list_elem_of_In, in_concat.
      exists (pixel_index pass i <$> pyrange 0 pw). split; apply list_elem_of_In, list_elem_of_fmap.
      * exists i. split; [done|]. apply elem_of_pyrange. lia.
      * exists c. split; [by rewrite Z.add_0_l|]. by apply elem_of_pyrange.
Qed.

Lemma decode_passes ps rs : Forall2 encodes ps rs -> forall pre post outs,
  Forall good_pass ps -> 0 <= W -> 0 <= Kernel.bits_per_pixel h -> quads outs ->
  (forall k, k ∈ concat (pass_indices <$> ps) -> (k < length outs)%nat) ->
  foldK (Kernel.decode_pass h st (pre ++ concat rs ++ post)) (zlen pre, concat outs) ps
  = Ok (zlen pre + zlen (concat rs), concat (fill outs (concat (pass_indices <$> ps)))).
Proof using want_len.
  induction 1 as [|p r ps rs E F IH]; intros pre post outs G HW HB Q HI.
  - cbn. by rewrite Z.add_0_r.
  - apply Forall_cons in G as [G1 G2]. cbn [foldK fmap list_fmap concat] in *. rewrite <- app_assoc.
    assert (HI1 : forall k, k ∈ pass_indices p -> (k < length outs)%nat)
      by (intros k Hk; apply HI; apply elem_of_app; by left).
    rewrite (decode_pass_ok p r pre (concat rs ++ post) outs G1 HW HB Q E HI1).
    cbn [mbind outcome_bind]. rewrite <- zlen_app, app_assoc.
    rewrite IH; try done.
    + rewrite fill_app, !zlen_app. do 2 f_equal. lia.
    + by apply fill_quads.
    + intros k Hk. rewrite length_fill. apply HI. apply elem_of_app. by right.
Qed.

(** When the indices cover the image, the whole image is [want]. *)
Lemma fill_all outs idx : (forall k, k ∈ idx <-> (k < length outs)%nat) ->
  fill outs idx = want <$> seq 0 (length outs).
Proof.
  intros H. apply list_eq. intros i. unfold fill. rewrite fold_insert_lookup by (intros; by apply H).
  rewrite list_lookup_fmap. destruct (decide (i ∈ idx)) as [I|I].
  - apply H in I. by rewrite lookup_seq_lt by lia.
  - destruct (decide (i < length outs)%nat); [by destruct I; apply H|].
    rewrite lookup_seq_ge by lia. rewrite lookup_ge_None_2 by lia. done.
Qed.
End passes.

(** * Chunks *)

Definition chunk_bytes (kb : list Z * list Z) : list Z :=
  be_bytes 4 (zlen kb.2) ++ kb.1 ++ kb.2 ++ be_bytes 4 (Z.land (Crc32.crc32 (kb.1 ++ kb.2)) 4294967295).

Lemma chunk_ret kind body : zlen body < 2 ^ 32 -> Maker.chunk kind body = Ret (chunk_bytes (kind, body)).
Proof.
  intros H. pose proof (zlen_nonneg body). unfold Maker.chunk.
  rewrite (pack_be_ret 4 (zlen body)) by (simpl Z.of_nat; lia). cbn [mbind py_bind]. rewrite pack_be_ret; [done|].
  change 4294967295 with (Z.ones 32). rewrite Z.land_ones by lia. apply Z.mod_pos_bound. simpl Z.of_nat. lia.
Qed.

Definition good_chunk (kb : list Z * list Z) : Prop :=
  zlen kb.1 = 4 /\ zlen kb.2 < 2 ^ 32 /\ kb.1 <> lit "IEND".

Lemma zlen_chunk_bytes kb : zlen (chunk_bytes kb) = 8 + zlen kb.1 + zlen kb.2.
Proof. unfold chunk_bytes. rewrite !zlen_app, !zlen_be_bytes. simpl Z.of_nat. lia. Qed.

Lemma chunks_step {S} (f : S -> list Z -> list Z -> outcome Kernel.image_error S) fuel pre kind body post st :
  zlen kind = 4 -> zlen body < 2 ^ 32 ->
  Kernel.chunks f (Datatypes.S fuel) (pre ++ chunk_bytes (kind, body) ++ post) (zlen pre) st
  = (st ← f st kind body;
     if zeqb_list kind (lit "IEND") then Ok st
     else Kernel.chunks f fuel (pre ++ chunk_bytes (kind, body) ++ post)
            (zlen (pre ++ chunk_bytes (kind, body))) st).
Proof.
  intros Hk Hb. pose proof (zlen_nonneg body). pose proof (zlen_nonneg post).
  cbn [Kernel.chunks]. rewrite !zlen_app, zlen_chunk_bytes. cbn [fst snd].
  destruct (_ <=? _) eqn:E; [|lia].
  assert (EL : Kernel.be 4 (pre ++ chunk_bytes (kind, body) ++ post) (zlen pre) = zlen body).
  { unfold Kernel.be, chunk_bytes. cbn [fst snd]. rewrite <- app_assoc.
    rewrite slice_middle; [by apply be_val_be_bytes; simpl Z.of_nat; lia | done |].
    by rewrite zlen_be_bytes. }
  rewrite EL. set (crc := be_bytes 4 (Z.land (Crc32.crc32 (kind ++ body)) 4294967295)).
  assert (EK : pyslice (pre ++ chunk_bytes (kind, body) ++ post) (zlen pre + 4) (zlen pre + 8) = kind).
  { unfold chunk_bytes. cbn [fst snd]. rewrite <- !app_assoc, app_assoc.
    apply slice_middle; rewrite ?zlen_app, ?zlen_be_bytes; simpl Z.of_nat; lia. }
  assert (EB : pyslice (pre ++ chunk_bytes (kind, body) ++ post) (zlen pre + 8) (zlen pre + 8 + zlen body) = body).
  { unfold chunk_bytes. cbn [fst snd]. rewrite <- !app_assoc, app_assoc, app_assoc.
    apply slice_middle; rewrite ?zlen_app, ?zlen_be_bytes; simpl Z.of_nat; lia. }
  rewrite EK, EB. destruct (_ <? _) eqn:E2; [lia|].
  replace (zlen pre + 8 + zlen body + 4) with (zlen pre + (8 + zlen kind + zlen body)) by lia. done.
Qed.

Lemma chunks_all {S} (f : S -> list Z -> list Z -> outcome Kernel.image_error S) cs : forall fuel pre post st,
  Forall good_chunk cs -> (length cs < fuel)%nat ->
  Kernel.chunks f fuel (pre ++ concat (chunk_bytes <$> cs) ++ chunk_bytes (lit "IEND", []) ++ post) (zlen pre) st
  = (st ← foldK (fun st kb => f st kb.1 kb.2) st cs; f st (lit "IEND") []).
Proof.
  induction cs as [|[k b] cs IH]; intros fuel pre post st F Hf; (destruct fuel as [|fuel]; [simpl in Hf; lia|]).
  - cbn [fmap list_fmap concat app]. rewrite chunks_step by done. cbn [foldK mbind outcome_bind].
    destruct (f st (lit "IEND") []); done.
  - apply Forall_cons in F as [(G1 & G2 & G3) F]. cbn [fst snd] in *. cbn [fmap list_fmap concat]. rewrite <- app_assoc.
    rewrite chunks_step by done. cbn [foldK fst snd]. destruct (f st k b) as [st'|e| |]; [|done..].
    cbn [mbind outcome_bind]. destruct (zeqb_list k (lit "IEND")) eqn:E; [by apply zeqb_list_eq in E|].
    rewrite app_assoc. apply IH; [done | simpl in Hf; lia].
Qed.

(** * What the chunks of a case say *)

Definition channels_of (color : Z) : Z :=
  if (color =? 0) || (color =? 3) then 1 else if color =? 2 then 3 else if color =? 4 then 2 else 4.

(** Samples of one pixel. *)
Definition good_pixel (color depth : Z) (c : Maker.content) (sample : list Z) : Prop :=
  zlen sample = channels_of color /\ digits depth sample
  /\ (color = 3 -> Forall (fun s => s < zlen (Maker.palette c)) sample).

Record good_content (color depth : Z) (c : Maker.content) : Prop := {
  gc_palette : if color =? 3 then 0 < zlen (Maker.palette c) <= 256 else Maker.palette c = [];
  gc_rgb : Forall (fun rgb => length rgb = 3%nat /\ Forall is_byte rgb) (Maker.palette c);
  gc_alpha : Maker.palette_alpha c = [] \/
             (length (Maker.palette_alpha c) = length (Maker.palette c) /\ Forall is_byte (Maker.palette_alpha c));
  gc_key : match Maker.key c with
           | None => True
           | Some k => digits 16 k
                       /\ (color = 0 /\ length k = 1%nat \/ color = 2 /\ length k = 3%nat)
           end;
  gc_pixels : Forall (good_pixel color depth c) (Maker.pixels c)
}.

(** The state after the first pass over the chunks of a case. *)
Definition scanned (h : Kernel.header) (c : Maker.content) (total : Z) : Kernel.scan :=
  Kernel.Scan (Some h)
    (Kernel.set_alphas
       (((fun rgb => rgb ++ [255]) <$> Maker.palette c)
        ++ drop (length (Maker.palette c)) (replicate 256 [0; 0; 0; 255]))
       (Maker.palette_alpha c))
    (zlen (Maker.palette c))
    (match Maker.key c with None => None | Some [k] => Some [k; 0; 0] | Some l => Some l end)
    total.

Lemma set_alphas_nil p : Kernel.set_alphas p [] = p.
Proof. by destruct p. Qed.

Lemma set_alphas_lookup (l rest : list (list Z)) alpha i rgb a :
  l !! i = Some rgb -> alpha !! i = Some a -> length rgb = 3%nat ->
  Kernel.set_alphas (((fun rgb => rgb ++ [255]) <$> l) ++ rest) alpha !! i = Some (rgb ++ [a]).
Proof.
  revert i alpha. induction l as [|x l IH]; intros i alpha H1 H2 H3; [done|].
  destruct alpha as [|y alpha]; [done|]. destruct i as [|i]; cbn in *.
  - injection H1 as ->. injection H2 as ->. do 3 (destruct rgb as [|? rgb]; [done|]). by destruct rgb.
  - by apply IH.
Qed.

Lemma palette_lookup color depth h c total i rgb :
  good_content color depth c -> Maker.palette c !! i = Some rgb ->
  Kernel.palette (scanned h c total) !! i
  = Some (rgb ++ [match Maker.palette_alpha c !! i with Some a => a | None => 255 end]).
Proof.
  intros G Hi. cbn [scanned Kernel.palette].
  assert (L3 : length rgb = 3%nat).
  { pose proof (gc_rgb _ _ _ G) as F. rewrite Forall_lookup in F. apply (F i rgb Hi). }
  destruct (gc_alpha _ _ _ G) as [->|[L _]].
  - rewrite set_alphas_nil, lookup_app_l by (rewrite length_fmap; eapply lookup_lt_Some, Hi).
    rewrite list_lookup_fmap, Hi. done.
  - destruct (lookup_lt_is_Some_2 (Maker.palette_alpha c) i) as [a Ha].
    { rewrite L. eapply lookup_lt_Some, Hi. }
    rewrite Ha. by apply set_alphas_lookup.
Qed.

(** Both sides scale a sample to eight bits in the same way. *)
Lemma to8_agree h v : depth_ok (Kernel.depth h) -> 0 <= v < 2 ^ Kernel.depth h ->
  Kernel.to8 h v = Maker.to8 (Kernel.depth h) v /\ is_byte (Maker.to8 (Kernel.depth h) v).
Proof.
  intros Hd Hv. unfold Kernel.to8, Maker.to8, is_byte.
  assert (S : forall d, 1 <= d -> 0 <= v < 2 ^ d -> 0 <= v * 255 / (Z.shiftl 1 d - 1) < 256).
  { intros d H1 H2. rewrite Z.shiftl_1_l. assert (2 ^ 1 <= 2 ^ d) by (apply Z.pow_le_mono_r; lia).
    split; [apply Z.div_pos; lia|]. apply Z.div_lt_upper_bound; nia. }
  destruct Hd as [E | [E | [E | [E | E]]]]; rewrite E in *; cbn [Z.eqb Pos.eqb].
  - pose proof (S 1 ltac:(lia) Hv). rewrite Z.mod_small by done. done.
  - pose proof (S 2 ltac:(lia) Hv). rewrite Z.mod_small by done. done.
  - pose proof (S 4 ltac:(lia) Hv). rewrite Z.mod_small by done. done.
  - rewrite Z.mod_small by lia. split; [done|lia].
  - split; [done|]. rewrite Z.shiftr_div_pow2 by lia. Z.to_euclidean_division_equations; lia.
Qed.

Definition color_ok (color : Z) : Prop := color = 0 \/ color = 2 \/ color = 3 \/ color = 4 \/ color = 6.

Lemma pyget_cons0 {A} (x : A) l : pyget (x :: l) 0 = Ret x.
Proof. apply pyget_ret; [lia | done]. Qed.

Lemma zeqb_list_sym a b : zeqb_list a b = zeqb_list b a.
Proof.
  destruct (zeqb_list a b) eqn:E1, (zeqb_list b a) eqn:E2; try done.
  - apply zeqb_list_eq in E1. subst. by rewrite zeqb_list_refl in E2.
  - apply zeqb_list_eq in E2. subst. by rewrite zeqb_list_refl in E1.
Qed.

Section pixel.
Context (h : Kernel.header) (c : Maker.content) (total : Z) (row : list Z) (col : Z) (sample : list Z).
Hypothesis Hd : depth_ok (Kernel.depth h).
Hypothesis Hc : color_ok (Kernel.color h).
Hypothesis G : good_content (Kernel.color h) (Kernel.depth h) c.
Hypothesis GP : good_pixel (Kernel.color h) (Kernel.depth h) c sample.
Hypothesis HS : forall j s, 0 <= j -> sample !! Z.to_nat j = Some s -> Kernel.sample h row col j = s.

(** The pixel the decoder computes is the pixel the tool expects. *)
Definition agrees : Prop :=
  exists px, Maker.expected_pixel (Kernel.color h) (Kernel.depth h) c sample = Ret px
  /\ length px = 4%nat
  /\ Kernel.pixel_rgba h row col (Kernel.palette (scanned h c total)) (Kernel.palette_len (scanned h c total))
       (Kernel.transparent (scanned h c total)) = px.

Let d8 := Maker.to8 (Kernel.depth h).

Lemma read8 j s : 0 <= j -> sample !! Z.to_nat j = Some s ->
  Kernel.sample h row col j = s /\ Kernel.to8 h s = d8 s /\ is_byte (d8 s).
Proof using Hd GP HS.
  intros Hj Hs. split; [by apply HS|]. destruct GP as (_ & D & _). unfold digits in D. rewrite Forall_lookup in D.
  apply to8_agree; [done | by eapply D].
Qed.

Lemma agrees_gray : Kernel.color h = 0 -> agrees.
Proof using All.
  pose proof read8 as R8. intros E. destruct GP as (L & _). pose proof (gc_key _ _ _ G) as GK. unfold agrees, Maker.expected_pixel, Kernel.pixel_rgba.
  rewrite E in *. cbn [Z.eqb orb] in *. change (channels_of 0) with 1 in L.
  destruct sample as [|s0 [|]]; try done; [|unfold zlen in L; simpl in L; lia].
  destruct (R8 0 s0 ltac:(lia) eq_refl) as (R & T1 & T2).
  rewrite R, T1, pyget_cons0. cbn [mbind py_bind]. fold d8. cbn [scanned Kernel.transparent].
  assert (B : forall a, a = 0 \/ a = 255 -> bytes_of [d8 s0; d8 s0; d8 s0; a] = Ret [d8 s0; d8 s0; d8 s0; a]).
  { intros a Ha. apply bytes_of_ret. repeat constructor; try apply T2; lia. }
  destruct (Maker.key c) as [k|]; [|rewrite B by lia; eauto].
  destruct GK as [_ [[_ LK]|[? _]]]; [|done]. destruct k as [|k [|]]; try done.
  rewrite B by (destruct (zeqb_list _ _); lia). eexists. split_and!; [done..|]. do 4 f_equal.
  cbn. rewrite (Z.eqb_sym s0 k), andb_true_r. done.
Qed.

Lemma agrees_rgb : Kernel.color h = 2 -> agrees.
Proof using All.
  pose proof read8 as R8. intros E. destruct GP as (L & _). pose proof (gc_key _ _ _ G) as GK. unfold agrees, Maker.expected_pixel, Kernel.pixel_rgba.
  rewrite E in *. cbn [Z.eqb Pos.eqb orb] in *. change (channels_of 2) with 3 in L.
  destruct sample as [|s0 [|s1 [|s2 [|]]]]; try done; [|unfold zlen in L; simpl in L; lia].
  destruct (R8 0 s0 ltac:(lia) eq_refl) as (R0 & T1 & T1').
  destruct (R8 1 s1 ltac:(lia) eq_refl) as (R1 & T2 & T2').
  destruct (R8 2 s2 ltac:(lia) eq_refl) as (R2 & T3 & T3').
  rewrite R0, R1, R2, T1, T2, T3.
  change (pyget [s0; s1; s2] 0) with (Ret s0 : py Z). change (pyget [s0; s1; s2] 1) with (Ret s1 : py Z).
  change (pyget [s0; s1; s2] 2) with (Ret s2 : py Z). cbn [mbind py_bind].
  eexists. split; [apply bytes_of_ret; repeat constructor; try apply T1'; try apply T2'; try apply T3';
    destruct (Maker.key c); try lia; destruct (zeqb_list _ _); lia|].
  split; [done|]. do 4 f_equal. cbn [scanned Kernel.transparent]. destruct (Maker.key c) as [k|]; [|done].
  destruct GK as [_ [[? _]|[_ LK]]]; [done|]. destruct k as [|k0 [|k1 [|k2 [|]]]]; try done.
  by rewrite zeqb_list_sym.
Qed.

Lemma agrees_palette : Kernel.color h = 3 -> agrees.
Proof using All.
  intros E. destruct GP as (L & D & P). unfold agrees, Maker.expected_pixel, Kernel.pixel_rgba.
  rewrite E in *. cbn [Z.eqb Pos.eqb orb] in *. change (channels_of 3) with 1 in L.
  destruct sample as [|s0 [|]]; try done; [|unfold zlen in L; simpl in L; lia].
  specialize (P eq_refl). apply Forall_cons in P as [P _]. apply Forall_cons in D as [D _].
  rewrite (HS 0 s0 ltac:(lia) eq_refl), pyget_cons0. cbn [mbind py_bind].
  destruct (lookup_lt_is_Some_2 (Maker.palette c) (Z.to_nat s0)) as [rgb Hrgb]; [unfold zlen in P; lia|].
  rewrite (pyget_lookup _ s0 rgb) by (done || lia). cbn [mbind py_bind].
  pose proof (gc_rgb _ _ _ G) as FR. rewrite Forall_lookup in FR. destruct (FR _ _ Hrgb) as [L3 B3].
  rewrite (palette_lookup _ _ h c total _ _ G Hrgb).
  change (Kernel.palette_len (scanned h c total)) with (zlen (Maker.palette c)).
  destruct (s0 <? zlen (Maker.palette c)) eqn:EL; [|lia]. cbn [default from_option id].
  exists (rgb ++ [match Maker.palette_alpha c !! Z.to_nat s0 with Some a => a | None => 255 end]).
  split_and!; [|rewrite length_app; simpl; lia|done].
  destruct (gc_alpha _ _ _ G) as [EA|[LA BA]].
  - rewrite EA, lookup_nil. change (zlen (@nil Z) =? 0) with true. cbn [mbind py_bind]. apply bytes_of_ret.
    apply Forall_app. split; [done|]. constructor; [unfold is_byte; lia | constructor].
  - assert (NZ : zlen (Maker.palette_alpha c) <> 0) by (unfold zlen in *; lia).
    rewrite (proj2 (Z.eqb_neq _ _) NZ).
    destruct (lookup_lt_is_Some_2 (Maker.palette_alpha c) (Z.to_nat s0)) as [a Ha]; [unfold zlen in P; lia|].
    rewrite (pyget_lookup _ s0 a), Ha by (done || lia). cbn [mbind py_bind]. apply bytes_of_ret.
    apply Forall_app. split; [done|]. constructor; [|constructor]. rewrite Forall_lookup in BA. by eapply BA.
Qed.

Lemma agrees_gray_alpha : Kernel.color h = 4 -> agrees.
Proof using All.
  pose proof read8 as R8. intros E. destruct GP as (L & _). unfold agrees, Maker.expected_pixel, Kernel.pixel_rgba.
  rewrite E in *. cbn [Z.eqb Pos.eqb orb] in *. change (channels_of 4) with 2 in L.
  destruct sample as [|s0 [|s1 [|]]]; try done; [|unfold zlen in L; simpl in L; lia].
  destruct (R8 0 s0 ltac:(lia) eq_refl) as (R0 & T1 & T1').
  destruct (R8 1 s1 ltac:(lia) eq_refl) as (R1 & T2 & T2').
  rewrite R0, R1, T1, T2.
  change (pyget [s0; s1] 0) with (Ret s0 : py Z). change (pyget [s0; s1] 1) with (Ret s1 : py Z). cbn [mbind py_bind].
  eexists. split; [apply bytes_of_ret; repeat constructor; try apply T1'; apply T2'|]. done.
Qed.

Lemma agrees_rgba : Kernel.color h = 6 -> agrees.
Proof using All.
  pose proof read8 as R8. intros E. destruct GP as (L & _). unfold agrees, Maker.expected_pixel, Kernel.pixel_rgba.
  rewrite E in *. cbn [Z.eqb Pos.eqb orb] in *. change (channels_of 6) with 4 in L.
  destruct sample as [|s0 [|s1 [|s2 [|s3 [|]]]]]; try done; [|unfold zlen in L; simpl in L; lia].
  destruct (R8 0 s0 ltac:(lia) eq_refl) as (R0 & T1 & T1').
  destruct (R8 1 s1 ltac:(lia) eq_refl) as (R1 & T2 & T2').
  destruct (R8 2 s2 ltac:(lia) eq_refl) as (R2 & T3 & T3').
  destruct (R8 3 s3 ltac:(lia) eq_refl) as (R3 & T4 & T4').
  rewrite R0, R1, R2, R3, T1, T2, T3, T4.
  eexists. split; [apply bytes_of_ret; repeat constructor; try apply T1'; try apply T2'; try apply T3'; apply T4'|].
  done.
Qed.

Lemma pixel_agree : agrees.
Proof using All.
  destruct Hc as [E | [E | [E | [E | E]]]];
    auto using agrees_gray, agrees_rgb, agrees_palette, agrees_gray_alpha, agrees_rgba.
Qed.
End pixel.

(** * The rows the tool writes *)

Lemma lookup_range_step a b step k x : 0 < step -> range_step a b step !! k = Some x ->
  x = a + Z.of_nat k * step /\ a <= x < b.
Proof.
  intros Hs H. unfold range_step in H. rewrite list_lookup_fmap in H.
  destruct (pyrange 0 ((b - a + step - 1) / step) !! k) as [i|] eqn:E; [|done]. injection H as <-.
  pose proof (list_elem_of_lookup_2 _ _ _ E) as I. apply elem_of_pyrange in I.
  unfold pyrange in E. rewrite list_lookup_fmap in E. destruct (seq _ _ !! k) as [m|] eqn:ES; [|done].
  apply lookup_seq in ES as [-> _]. injection E as <-. split; [lia|].
  assert ((b - a + step - 1) / step * step <= b - a + step - 1) by (rewrite Z.mul_comm; apply Z.mul_div_le; lia).
  nia.
Qed.

Lemma ceil_neg n b : - (- n * b / 8) = Kernel.div_ceil (n * b) 8.
Proof. unfold Kernel.div_ceil. rewrite Z.mul_opp_l. Z.to_euclidean_division_equations; lia. Qed.

Lemma bpp_agree color depth : color_ok color -> depth_ok depth ->
  Z.max 1 (channels_of color * depth / 8) = Z.max (Kernel.div_ceil (channels_of color * depth) 8) 1
  \/ ~ Kernel.valid_type color depth = true.
Proof.
  intros [-> | [-> | [-> | [-> | ->]]]] [-> | [-> | [-> | [-> | ->]]]];
    first [left; reflexivity | right; discriminate].
Qed.

Lemma valid_type_ok color depth : Kernel.valid_type color depth = true -> color_ok color /\ depth_ok depth.
Proof.
  unfold Kernel.valid_type, color_ok, depth_ok. intros H.
  destruct (Z.eqb_spec color 0), (Z.eqb_spec color 2), (Z.eqb_spec color 3), (Z.eqb_spec color 4), (Z.eqb_spec color 6);
    cbn in H; try done; bool_to_prop; lia.
Qed.

Section encode.
Context `{Random}.
Context (h : Kernel.header) (c : Maker.content) (total : Z) (expected : list (list Z)).
Hypothesis HW : Kernel.width h = Maker.WIDTH.
Hypothesis HH : Kernel.height h = Maker.HEIGHT.
Hypothesis HV : Kernel.valid_type (Kernel.color h) (Kernel.depth h) = true.
Hypothesis G : good_content (Kernel.color h) (Kernel.depth h) c.
Hypothesis HN : zlen (Maker.pixels c) = Maker.HEIGHT * Maker.WIDTH.
Hypothesis HE : mapM_py (Maker.expected_pixel (Kernel.color h) (Kernel.depth h) c) (Maker.pixels c) = Ret expected.

Let ch := channels_of (Kernel.color h).
Let depth := Kernel.depth h.
Let bits := ch * depth.
Let bpp := Z.max 1 (bits / 8).

Definition want (k : nat) : list Z :=
  match expected !! k with Some p => p | None => [0; 0; 0; 0] end.

Lemma channels_eq : Kernel.channels h = ch.
Proof. done. Qed.

(** Column [col] of a row made of the pixels at [idx]. *)
Lemma row_pixels samples row (idx : list Z) :
  mapM_py (fun i => pyget (Maker.pixels c) i) idx = Ret samples ->
  Maker.pack_samples (concat samples) depth = Ret row ->
  (forall k s, concat samples !! k = Some s -> raw_sample depth row (Z.of_nat k) = s) ->
  forall col i, 0 <= col -> idx !! Z.to_nat col = Some i -> 0 <= i ->
  Kernel.pixel_rgba h row col (Kernel.palette (scanned h c total)) (Kernel.palette_len (scanned h c total))
    (Kernel.transparent (scanned h c total)) = want (Z.to_nat i) /\ length (want (Z.to_nat i)) = 4%nat.
Proof using HV G HE.
  intros HM _ HR col i Hc Hi Hp. destruct (valid_type_ok _ _ HV) as [Ok1 Ok2].
  apply mapM_py_Forall2 in HM. destruct (Forall2_lookup_l _ _ _ _ _ HM Hi) as (sample & HS & HG).
  apply pyget_ret in HG; [|done].
  pose proof (gc_pixels _ _ _ G) as GP. rewrite Forall_lookup in GP. pose proof (GP _ _ HG) as GS.
  destruct (pixel_agree h c total row col sample Ok2 Ok1 G GS) as (px & E1 & E2 & E3).
  { intros j s Hj Hs. rewrite sample_raw, channels_eq.
    assert (FS : Forall (fun l => length l = Z.to_nat ch) samples).
    { apply Forall_lookup. intros k l Hl. destruct (Forall2_lookup_r _ _ _ _ _ HM Hl) as (i' & _ & HG').
      apply pyget_elem, list_elem_of_lookup in HG' as [k' EP].
      destruct (GP _ _ EP) as [L _]. unfold zlen in L. fold ch in L. lia. }
    assert (Hch : 0 < ch) by (unfold ch, channels_of; repeat case_match; lia).
    assert (Hjc : (Z.to_nat j < Z.to_nat ch)%nat).
    { pose proof (lookup_lt_Some _ _ _ Hs). destruct GS as [L _]. unfold zlen in L. fold ch in L. lia. }
    replace (col * ch + j) with (Z.of_nat (Z.to_nat col * Z.to_nat ch + Z.to_nat j)) by nia.
    apply HR. rewrite (concat_uniform samples _ _ _ sample) by done. done. }
  pose proof (proj1 (mapM_py_Forall2 _ _ _) HE) as F2. destruct (Forall2_lookup_l _ _ _ _ _ F2 HG) as (px' & HP & EP).
  unfold want. rewrite HP. rewrite E1 in EP. apply Ret_inj in EP as ->. split; [done | lia].
Qed.

Lemma samples_ret y xs : 0 <= y < Maker.HEIGHT -> Forall (fun x => 0 <= x < Maker.WIDTH) xs ->
  exists samples,
  mapM_py (fun x => pyget (Maker.pixels c) (y * Maker.WIDTH + x)) xs = Ret samples
  /\ mapM_py (fun i => pyget (Maker.pixels c) i) ((fun x => y * Maker.WIDTH + x) <$> xs) = Ret samples
  /\ digits depth (concat samples) /\ zlen (concat samples) = zlen xs * ch.
Proof using G HN.
  intros Hy Hx. pose proof (gc_pixels _ _ _ G) as GP. rewrite Forall_forall in GP.
  induction Hx as [|x xs Hx F IH]; [exists []; split_and!; done || constructor|].
  destruct IH as (samples & E1 & E2 & D & L).
  assert (HI : 0 <= y * Maker.WIDTH + x < zlen (Maker.pixels c)) by (rewrite HN; unfold Maker.WIDTH, Maker.HEIGHT in *; lia).
  destruct (pyget_Some (Maker.pixels c) (y * Maker.WIDTH + x) HI) as (px & EP & EL).
  pose proof (GP px (pyget_elem _ _ _ EP)) as (Lp & Dp & _).
  exists (px :: samples). cbn [mapM_py fmap list_fmap concat]. rewrite EP. cbn [mbind py_bind]. rewrite E1, E2.
  split_and!; try done.
  - by apply Forall_app.
  - rewrite zlen_app, zlen_cons, L, Lp. fold ch. lia.
Qed.

Section pass.
Context (x0 y0 dx dy : Z).
Hypothesis Hp : good_pass (x0, y0, dx, dy).
Let xs := range_step x0 Maker.WIDTH dx.
Let ys := range_step y0 Maker.HEIGHT dy.
Let pw := zlen xs.
Let n := Kernel.div_ceil (pw * bits) 8.

(** The state of the row loop after the rows [p]. *)
Definition row_inv (raw0 : list Z) (p : list Z) (s : list Z * list Z) : Prop :=
  exists lines, s.1 = raw0 ++ encode_lines bpp (zeros n) lines
  /\ length lines = length p /\ Forall (good_line n) lines
  /\ s.2 = default (zeros n) (last (snd <$> lines)) /\ zlen s.2 = n
  /\ forall j kr y col, lines !! j = Some kr -> p !! j = Some y -> 0 <= col < pw ->
       Kernel.pixel_rgba h kr.2 col (Kernel.palette (scanned h c total)) (Kernel.palette_len (scanned h c total))
         (Kernel.transparent (scanned h c total))
       = want (Z.to_nat (y * Maker.WIDTH + (x0 + col * dx))).

Lemma xs_bounds : Forall (fun x => 0 <= x < Maker.WIDTH) xs.
Proof using All.
  destruct Hp as (? & ? & ? & ?). apply Forall_lookup. intros k x Hk.
  apply lookup_range_step in Hk as [_ ?]; lia.
Qed.

Lemma make_row_holds raw0 p s y : 0 <= y < Maker.HEIGHT -> row_inv raw0 p s ->
  holds (Maker.make_row depth bpp (Maker.pixels c) xs s y) (row_inv raw0 (p ++ [y])).
Proof using All.
  intros Hy I. destruct s as [raw previous]. destruct I as (lines & E1 & E2 & F & E3 & E4 & HP). cbn [fst snd] in *.
  unfold Maker.make_row. destruct (samples_ret y xs Hy xs_bounds) as (samples & M1 & M2 & D & L).
  destruct (valid_type_ok _ _ HV) as [Ok1 Ok2].
  destruct (pack_samples_spec depth (concat samples) Ok2 D) as (row & PS & BR & LR & HR).
  assert (Ln : zlen row = n) by (rewrite LR, L; unfold n, pw, bits; f_equal; lia).
  eapply holds_bind; [by eapply (holds_lift _ _ (fun a => a = samples))|]. intros ? ->.
  eapply holds_bind; [by eapply (holds_lift _ _ (fun a => a = row))|]. intros ? ->.
  eapply (holds_bind _ _ (fun k => 0 <= k < 5)).
  { intros k. exists (below k 5), (S k). split; [done|]. apply below_range. lia. }
  intros kind Hkind.
  assert (LP : length previous = length row) by (unfold zlen in *; lia).
  eapply holds_bind.
  { eapply (holds_lift _ _ (fun a => a = filtered kind bpp row previous)); [|done].
    apply filter_row_filtered; try done; unfold bpp; lia. }
  intros ? ->. apply holds_ret. exists (lines ++ [(kind, row)]). cbn [fst snd].
  rewrite encode_lines_snoc, <- E3, E1, <- app_assoc. rewrite fmap_app.
  change (snd <$> [(kind, row)]) with [row]. rewrite last_snoc. cbn [default from_option id].
  split_and!; try done.
  - rewrite !length_app, E2. done.
  - apply Forall_app. split; [done|]. repeat constructor; cbn; try lia; done.
  - intros j kr y' col Hj Hy' Hcol. destruct (decide (j < length lines)%nat) as [Lt|Ge].
    + rewrite lookup_app_l in Hj by done. rewrite lookup_app_l in Hy' by lia. by eapply HP.
    + pose proof (lookup_lt_Some _ _ _ Hj) as LJ. rewrite length_app in LJ. cbn in LJ.
      assert (j = length lines) as -> by lia. rewrite list_lookup_middle in Hj by done. injection Hj as <-.
      rewrite E2, list_lookup_middle in Hy' by done. injection Hy' as <-. cbn [snd].
      destruct (lookup_lt_is_Some_2 xs (Z.to_nat col)) as [x Hx]; [unfold pw, zlen in Hcol; lia|].
      pose proof Hp as (P1 & P2 & P3 & P4). pose proof (lookup_range_step _ _ _ _ _ P3 Hx) as [Ex Bx].
      rewrite Z2Nat.id in Ex by lia.
      destruct (row_pixels samples row ((fun x => y * Maker.WIDTH + x) <$> xs) M2 PS HR col (y * Maker.WIDTH + x))
        as [E _]; [lia | by rewrite list_lookup_fmap, Hx | unfold Maker.WIDTH; lia |].
      rewrite E, Ex. done.
Qed.

Lemma bpp_eq : Z.max (Kernel.div_ceil (Kernel.bits_per_pixel h) 8) 1 = bpp.
Proof using HV.
  destruct (valid_type_ok _ _ HV) as [Ok1 Ok2]. unfold Kernel.bits_per_pixel. rewrite channels_eq.
  destruct (bpp_agree _ _ Ok1 Ok2) as [E|E]; [symmetry; exact E | by rewrite HV in E].
Qed.

Lemma pass_size_eq : Kernel.pass_size h (x0, y0, dx, dy) = (pw, zlen ys).
Proof using HW HH Hp.
  clear total expected HE. destruct Hp as (_ & _ & ? & ?). unfold Kernel.pass_size, pw, xs, ys.
  rewrite !zlen_range_step by done. by rewrite HW, HH.
Qed.

Lemma make_pass_holds raw :
  holds (Maker.make_pass depth bits bpp (Maker.pixels c) raw (x0, y0, dx, dy))
    (fun raw' => exists r, raw' = raw ++ r /\ encodes h (scanned h c total) want (x0, y0, dx, dy) r).
Proof using All.
  unfold Maker.make_pass. fold xs ys. unfold encodes. rewrite pass_size_eq. fold pw.
  destruct ((pw =? 0) || (zlen ys =? 0)) eqn:EZ.
  { apply holds_ret. exists []. by rewrite app_nil_r. }
  rewrite ceil_neg. fold n.
  assert (Hn : 0 <= n).
  { unfold n, bits. apply Z.div_pos; [|lia]. pose proof (zlen_nonneg xs). destruct (valid_type_ok _ _ HV) as [O1 O2].
    assert (0 < ch) by (unfold ch, channels_of; repeat case_match; lia).
    assert (0 < depth) by (unfold depth; destruct O2 as [-> | [-> | [-> | [-> | ->]]]]; lia). fold pw in H0. nia. }
  eapply (holds_bind _ _ (row_inv raw ys)).
  - change ys with ([] ++ ys) at 2. apply holds_foldR.
    + exists []. cbn [fst snd encode_lines]. split_and!; try done; [by rewrite app_nil_r | by apply zlen_zeros].
    + intros p y s Hy I. apply make_row_holds; [|done].
      apply list_elem_of_lookup in Hy as [k Hy]. destruct Hp as (? & ? & ? & ?).
      apply lookup_range_step in Hy as [_ ?]; lia.
  - intros [raw' prev] (lines & E1 & E2 & F & _ & _ & HP). cbn [fst] in E1. apply holds_ret.
    exists (encode_lines bpp (zeros n) lines). split; [done|]. exists lines. rewrite bpp_eq.
    unfold Kernel.bits_per_pixel. rewrite channels_eq. fold depth bits n.
    split_and!; try done; [unfold zlen; lia|].
    intros j kr col Hj Hcol. destruct (lookup_lt_is_Some_2 ys j) as [y Hy].
    { rewrite <- E2. by eapply lookup_lt_Some. }
    rewrite (HP j kr y col Hj Hy Hcol). destruct Hp as (? & ? & ? & P4).
    apply lookup_range_step in Hy as [-> _]; [|done]. cbn [pixel_index]. by rewrite HW.
Qed.
End pass.
End encode.

Lemma zlen_encode_lines bpp n previous lines : Forall (good_line n) lines ->
  zlen (encode_lines bpp previous lines) = zlen lines * (1 + n).
Proof.
  intros F. revert previous. induction F as [|[k r] lines (_ & L & _) F IH]; intros previous; [done|].
  cbn [encode_lines snd] in *. rewrite !zlen_cons, zlen_app, zlen_filtered, IH. lia.
Qed.

Lemma encode_lines_bytes bpp n previous lines : Forall (good_line n) lines ->
  Forall is_byte (encode_lines bpp previous lines).
Proof.
  intros F. revert previous. induction F as [|[k r] lines (K & _ & _) F IH]; intros previous; [constructor|].
  cbn [encode_lines fst] in *. constructor; [unfold is_byte; lia|]. apply Forall_app. split; [|done].
  unfold filtered. apply Forall_fmap, Forall_forall. intros i _. apply is_byte_mod.
Qed.

(** The bytes of a pass, as [raw_size] counts them. *)
Definition pass_bytes (h : Kernel.header) (pass : Z * Z * Z * Z) : Z :=
  let '(w, hh) := Kernel.pass_size h pass in
  if (0 <? w) && (0 <? hh) then Kernel.div_ceil (w * Kernel.bits_per_pixel h) 8 * hh + hh else 0.

Lemma encodes_size h st want pass r : good_pass pass -> encodes h st want pass r ->
  zlen r = pass_bytes h pass /\ Forall is_byte r.
Proof.
  intros G E. unfold encodes in E. unfold pass_bytes.
  destruct (Kernel.pass_size h pass) as [w hh] eqn:EP.
  assert (P0 : 0 <= w /\ 0 <= hh).
  { unfold Kernel.pass_size in EP. destruct pass as [[[x0 y0] dx] dy]. destruct G as (? & ? & ? & ?).
    injection EP as <- <-. split; apply Z.div_pos; lia. }
  destruct ((w =? 0) || (hh =? 0)) eqn:EZ.
  - subst r. split; [|constructor]. destruct ((0 <? w) && (0 <? hh)) eqn:E2; [bool_to_prop; lia | done].
  - destruct E as (lines & -> & L & F & _). destruct ((0 <? w) && (0 <? hh)) eqn:E2; [|bool_to_prop; lia].
    split; [|by eapply encode_lines_bytes]. rewrite (zlen_encode_lines _ _ _ _ F), L. lia.
Qed.

Lemma raw_size_sum h rs st want : Forall2 (encodes h st want) (Kernel.passes h) rs ->
  Forall good_pass (Kernel.passes h) ->
  zlen (concat rs) = Kernel.raw_size h /\ Forall is_byte (concat rs).
Proof.
  unfold Kernel.raw_size. intros F G.
  assert (K : forall ps rs acc, Forall2 (encodes h st want) ps rs -> Forall good_pass ps ->
    acc + zlen (concat rs) = foldl (fun total pass => let '(w, hh) := Kernel.pass_size h pass in
      if (0 <? w) && (0 <? hh) then total + (Kernel.div_ceil (w * Kernel.bits_per_pixel h) 8 * hh + hh) else total) acc ps
    /\ Forall is_byte (concat rs)).
  { clear. intros ps rs acc F. revert acc. induction F as [|p r ps rs E F IH]; intros acc G.
    { split; [|constructor]. cbn [concat foldl]. change (zlen (@nil Z)) with 0. lia. }
    apply Forall_cons in G as [G1 G2]. destruct (encodes_size _ _ _ _ _ G1 E) as [Er Br].
    cbn [concat foldl]. rewrite zlen_app, Er. unfold pass_bytes.
    destruct (Kernel.pass_size h p) as [w hh]. destruct (_ && _).
    - destruct (IH (acc + (Kernel.div_ceil (w * Kernel.bits_per_pixel h) 8 * hh + hh)) G2) as [<- ?].
      split; [lia | by apply Forall_app].
    - destruct (IH acc G2) as [<- ?]. split; [lia | by apply Forall_app]. }
  destruct (K _ _ 0 F G) as [E B]. split; [|done]. exact E.
Qed.

(** The passes of the header, good and covering an image of the corpus. *)
Lemma passes_good h : Forall good_pass (Kernel.passes h).
Proof. unfold Kernel.passes. destruct (Kernel.interlaced h); repeat constructor; lia. Qed.

(** * Pieces of the compressed stream *)

Lemma split_pieces_concat l : 0 < zlen l -> concat (Maker.split_pieces l) = l.
Proof.
  intros Hl. unfold Maker.split_pieces. set (t := Z.max 1 (zlen l / 3)).
  assert (Ht : 1 <= t) by lia. clearbody t.
  unfold range_step. rewrite <- list_fmap_compose. set (k := (zlen l - 0 + t - 1) / t).
  assert (Hk : zlen l <= k * t).
  { unfold k. pose proof (Z.div_mod (zlen l - 0 + t - 1) t ltac:(lia)).
    pose proof (Z.mod_pos_bound (zlen l - 0 + t - 1) t ltac:(lia)). nia. }
  assert (K0 : 0 <= k) by (apply Z.div_pos; lia).
  assert (P : forall n, 0 <= n -> concat ((fun i => pyslice l i (i + t)) ∘ (fun k => 0 + k * t) <$> pyrange 0 n)
                       = pyslice l 0 (n * t)).
  { intros n Hn. pattern n. apply natlike_ind; [|clear n Hn; intros n Hn IH|done].
    - by rewrite pyrange_nil, pyslice_empty by lia.
    - rewrite (pyrange_app 0 n (Z.succ n)) by lia. rewrite fmap_app, concat_app, IH.
      rewrite (pyrange_cons n), (pyrange_nil (n + 1)) by lia. cbn. rewrite app_nil_r.
      rewrite (pyslice_split l 0 (n * t) (Z.succ n * t)) by nia. f_equal. f_equal; nia. }
  rewrite P by done. rewrite pyslice_nn by nia. rewrite drop_0. apply take_ge. unfold zlen in *. nia.
Qed.

Lemma split_pieces_small l : Forall (fun p => zlen p <= zlen l) (Maker.split_pieces l).
Proof.
  unfold Maker.split_pieces. apply Forall_fmap, Forall_forall. intros i _. unfold compose, pyslice, zlen.
  rewrite length_take, length_drop. lia.
Qed.

(** * A whole file *)

Definition idats (cs : list (list Z * list Z)) : list Z :=
  concat (snd <$> filter (fun kb => zeqb_list kb.1 (lit "IDAT") = true) cs).

Lemma idats_cons kb cs :
  idats (kb :: cs) = (if zeqb_list kb.1 (lit "IDAT") then kb.2 else []) ++ idats cs.
Proof.
  unfold idats. rewrite filter_cons. destruct (decide _) as [E|E]; [by rewrite E|].
  destruct (zeqb_list kb.1 (lit "IDAT")); done.
Qed.

Lemma gather_all cs : forall done_,
  foldK (fun st kb => Kernel.gather_chunk st kb.1 kb.2) (done_ ++ zeros (zlen (idats cs)), zlen done_) cs
  = Ok (done_ ++ idats cs, zlen (done_ ++ idats cs)).
Proof.
  induction cs as [|kb cs IH]; intros done_.
  - cbn. by rewrite !app_nil_r.
  - cbn [foldK]. rewrite idats_cons.
    assert (ST : forall t a, Kernel.gather_chunk (t, a) kb.1 kb.2
      = if zeqb_list kb.1 (lit "IDAT") then
          if zlen t <? a + zlen kb.2 then Err Kernel.Corrupt
          else Ok (slice_assign t a (a + zlen kb.2) kb.2, a + zlen kb.2)
        else Ok (t, a)) by done.
    rewrite ST. clear ST. destruct (zeqb_list kb.1 (lit "IDAT")).
    + pose proof (zlen_nonneg kb.2). pose proof (zlen_nonneg (idats cs)). pose proof (zlen_nonneg done_).
      rewrite (zlen_app kb.2), (zlen_app done_ (zeros _)), zlen_zeros by lia.
      destruct (_ <? _) eqn:E; [lia|]. cbn [mbind outcome_bind].
      assert (EZ : slice_assign (done_ ++ zeros (zlen kb.2 + zlen (idats cs))) (zlen done_) (zlen done_ + zlen kb.2) kb.2
                   = (done_ ++ kb.2) ++ zeros (zlen (idats cs))).
      { rewrite slice_assign_split by (rewrite ?zlen_app, ?zlen_zeros; lia).
        rewrite pyslice_app_l, pyslice_full by lia. rewrite pyslice_app_r by (rewrite ?zlen_app, ?zlen_zeros; lia).
        rewrite zlen_app, zlen_zeros by lia. rewrite pyslice_zeros by lia. rewrite <- app_assoc. do 3 f_equal. lia. }
      rewrite EZ, <- zlen_app, IH, <- app_assoc. done.
    + cbn [mbind outcome_bind app]. apply IH.
Qed.

Lemma starts_with_app_l p l : starts_with p (p ++ l) = true.
Proof. apply starts_with_app. Qed.

Section file.
Context (h : Kernel.header) (st : Kernel.scan) (want : nat -> list Z) (cs : list (list Z * list Z)) (rs : list (list Z)).
Hypothesis Hcs : Forall good_chunk cs.
Hypothesis Hscan : foldK (fun st kb => Kernel.scan_chunk st kb.1 kb.2) Kernel.scan0 cs = Ok st.
Hypothesis Hhdr : Kernel.hdr st = Some h.
Hypothesis Hidat : zlib_stream (idats cs) (concat rs).
Hypothesis Htotal : Kernel.idat_total st = zlen (idats cs).
Hypothesis Hpal : Kernel.color h = 3 -> Kernel.palette_len st <> 0.
Hypothesis Henc : Forall2 (encodes h st want) (Kernel.passes h) rs.
Hypothesis Hwant : forall i, length (want i) = 4%nat.
Hypothesis Hsize : 0 <= Kernel.width h /\ 0 <= Kernel.height h /\ 0 <= Kernel.bits_per_pixel h.
Hypothesis Hcover : forall k, k ∈ concat (pass_indices h <$> Kernel.passes h)
  <-> (k < Z.to_nat (Kernel.width h * Kernel.height h))%nat.

Lemma length_chunks_bound l : (length l <= length (concat (chunk_bytes <$> l)))%nat.
Proof.
  induction l as [|kb l IH]; [done|]. cbn. rewrite length_app. pose proof (zlen_chunk_bytes kb) as L.
  pose proof (zlen_nonneg kb.1). pose proof (zlen_nonneg kb.2). unfold zlen in L at 1. lia.
Qed.

Lemma decode_file :
  Kernel.decode (SIGNATURE ++ concat (chunk_bytes <$> cs) ++ chunk_bytes (lit "IEND", []))
  = Ok (Kernel.width h, Kernel.height h, concat (want <$> seq 0 (Z.to_nat (Kernel.width h * Kernel.height h)))).
Proof using All.
  unfold Kernel.decode. rewrite starts_with_app_l. cbn [negb].
  pose proof (length_chunks_bound cs) as LB.
  set (data := SIGNATURE ++ concat (chunk_bytes <$> cs) ++ chunk_bytes (lit "IEND", [])).
  assert (LD : (length cs < length data)%nat) by (unfold data; rewrite !length_app; simpl; lia).
  assert (CA : forall S (f : S -> list Z -> list Z -> outcome Kernel.image_error S) s,
    Kernel.chunks f (length data) data 8 s
    = (s ← foldK (fun st kb => f st kb.1 kb.2) s cs; f s (lit "IEND") [])).
  { intros S f s. rewrite <- (chunks_all f cs (length data) SIGNATURE [] s Hcs LD). by rewrite app_nil_r. }
  rewrite CA, Hscan. cbn [mbind outcome_bind]. change (Kernel.scan_chunk st (lit "IEND") []) with (Ok st : outcome Kernel.image_error Kernel.scan).
  cbn [mbind outcome_bind]. rewrite Hhdr.
  destruct (raw_size_sum h rs st want Henc (passes_good h)) as [RS RB].
  destruct (zlib_stream_parts _ _ Hidat) as [[ZB _ _ _] _].
  replace ((Kernel.idat_total st =? 0) || ((Kernel.color h =? 3) && (Kernel.palette_len st =? 0))) with false.
  2: { symmetry. apply orb_false_iff. split; [lia|]. destruct (Z.eqb_spec (Kernel.color h) 3) as [E|]; [|done].
       specialize (Hpal E). simpl. lia. }
  rewrite Htotal, CA. pose proof (gather_all cs []) as GA. rewrite app_nil_l in GA. change (zlen (@nil Z)) with 0 in GA.
  rewrite GA. cbn [mbind outcome_bind app].
  change (Kernel.gather_chunk (idats cs, zlen (idats cs)) (lit "IEND") [])
    with (Ok (idats cs, zlen (idats cs)) : outcome Kernel.image_error (list Z * Z)). cbn [mbind outcome_bind].
  rewrite (zlib_decompress_stream _ _ _ Hidat) by (rewrite <- RS, zlen_zeros by apply zlen_nonneg; done).
  cbn [map_err mbind outcome_bind]. rewrite RS, Z.eqb_refl. cbn [negb]. rewrite <- RS, filled_full by (by rewrite zlen_zeros by apply zlen_nonneg).
  destruct Hsize as (S1 & S2 & S3). set (N := Z.to_nat (Kernel.width h * Kernel.height h)) in *.
  assert (EZ : zeros (Kernel.width h * Kernel.height h * 4) = concat (replicate N [0; 0; 0; 0])).
  { unfold zeros. replace (Z.to_nat (Kernel.width h * Kernel.height h * 4)) with (N * 4)%nat by (unfold N; lia).
    clear. induction N as [|N IH]; [done|]. cbn. by rewrite IH. }
  assert (Q : quads (replicate N [0; 0; 0; 0])) by (by apply Forall_replicate).
  assert (DP := decode_passes h st want Hwant _ _ Henc [] [] (replicate N [0; 0; 0; 0]) (passes_good h) S1 S3 Q).
  rewrite length_replicate in DP. specialize (DP (fun k => proj1 (Hcover k))).
  cbn [app] in DP. rewrite app_nil_r in DP. change (zlen (@nil Z)) with 0 in DP.
  rewrite EZ, DP. cbn [mbind outcome_bind snd]. do 3 f_equal.
  rewrite (fill_all h); [by rewrite length_replicate|]. by rewrite length_replicate.
Qed.
End file.
