(* ===== verification/PngCases.v ===== *)
(** PngCases: the kernel decodes every case of the PNG corpus to the pixels
    the corpus expects, and every screenshot ppm2png.py converts. *)
From Stdlib Require Import ZArith Lia List.
From stdpp Require Import base list strings.
From S2P Require Import Prelude Text Hash Machine InflateBits InflateSpec InflateBlock InflateWhole Stored Png PngDecode.
Open Scope Z_scope.


(** * What is drawn *)

Lemma length_pyrange a b : length (pyrange a b) = Z.to_nat (b - a).
Proof. unfold pyrange. by rewrite length_fmap, length_seq. Qed.

Section draw.
Context `{Random}.
Context (color depth : Z).
Hypothesis HV : Kernel.valid_type color depth = true.

Let maximum := Z.shiftl 1 depth - 1.

Lemma maximum_eq : maximum + 1 = 2 ^ depth.
Proof. unfold maximum. rewrite Z.shiftl_1_l. lia. Qed.

Lemma depth_pos : 1 <= depth <= 16.
Proof using HV. destruct (valid_type_ok _ _ HV) as [_ [-> | [-> | [-> | [-> | ->]]]]]; lia. Qed.

Lemma depth_palette : color = 3 -> depth <= 8.
Proof using HV. intros E. pose proof depth_pos. pose proof HV as V. rewrite E in V. unfold Kernel.valid_type in V. simpl in V. lia. Qed.

Lemma randrange_holds n : 0 < n -> holds (Maker.randrange n) (fun s => 0 <= s < n).
Proof. intros Hn k. exists (below k n), (S k). split; [done | by apply below_range]. Qed.

Lemma draw_palette_holds : holds (Maker.draw_palette color depth) (fun p =>
  (if color =? 3 then zlen p = 2 ^ depth else p = [])
  /\ Forall (fun rgb => length rgb = 3%nat /\ Forall is_byte rgb) p).
Proof using HV.
  pose proof depth_pos. unfold Maker.draw_palette. destruct (Z.eqb_spec color 3) as [E|E]; [|by apply holds_ret].
  pose proof (depth_palette E). rewrite Z.min_l, Z.shiftl_1_l by lia. eapply holds_weaken.
  - apply holds_mapR with (P := fun rgb => length rgb = 3%nat /\ Forall is_byte rgb). intros _ _.
    eapply holds_bind; [by apply randrange_holds|]. intros r Hr. eapply holds_bind; [by apply randrange_holds|]. intros g Hg.
    eapply holds_bind; [by apply randrange_holds|]. intros b Hb. apply holds_ret. split; [done|].
    cbv beta in *. unfold is_byte. rewrite !Forall_cons. repeat split; try lia. done.
  - intros p [F L]. split; [|done]. unfold zlen. rewrite L, length_pyrange. pose proof (Z.pow_nonneg 2 depth). lia.
Qed.

Lemma draw_alpha_holds transparency p : holds (Maker.draw_alpha color transparency p) (fun a =>
  a = [] \/ (length a = length p /\ Forall is_byte a)).
Proof.
  unfold Maker.draw_alpha. destruct ((color =? 3) && transparency); [|apply holds_ret; by left].
  eapply holds_weaken.
  - apply holds_mapR with (P := is_byte). intros _ _. eapply holds_bind; [apply (randrange_holds 4); lia|]. intros i Hi.
    cbv beta in Hi. assert (E : i = 0 \/ i = 1 \/ i = 2 \/ i = 3) by lia. unfold is_byte.
    destruct E as [-> | [-> | [-> | ->]]]; (eapply holds_lift; [reflexivity | lia]).
  - intros a [F L]. by right.
Qed.

Definition drawn_key (k : option (list Z)) : Prop :=
  match k with
  | None => True
  | Some k => digits depth k /\ (color = 0 /\ length k = 1%nat \/ color = 2 /\ length k = 3%nat)
  end.

Lemma draw_key_holds transparency : holds (Maker.draw_key color maximum transparency) drawn_key.
Proof using HV.
  pose proof depth_pos. pose proof (Z.pow_pos_nonneg 2 depth). rewrite <- maximum_eq in *.
  unfold Maker.draw_key. destruct transparency; cbn [andb]; [|by apply holds_ret].
  destruct (Z.eqb_spec color 0).
  { eapply holds_bind; [apply randrange_holds; lia|]. intros k Hk. cbv beta in Hk. apply holds_ret. split; [|by left].
    unfold digits. rewrite <- maximum_eq, Forall_cons. done. }
  destruct (Z.eqb_spec color 2); [|by apply holds_ret].
  eapply holds_bind; [apply holds_mapR; intros; apply randrange_holds; lia|]. intros k [Hk L]. apply holds_ret.
  split; [|by right]. unfold digits. rewrite <- maximum_eq. done.
Qed.

Lemma draw_pixel_holds p a k ps : drawn_key k -> (color = 3 -> 0 < zlen p <= 2 ^ depth) ->
  holds (Maker.draw_pixel color (channels_of color) maximum p k)
    (good_pixel color depth (Maker.Content p a k ps)).
Proof using HV.
  intros Hk Hp. pose proof depth_pos. pose proof (Z.pow_pos_nonneg 2 depth).
  unfold Maker.draw_pixel. destruct (Z.eqb_spec color 3) as [E|E].
  { specialize (Hp E). eapply holds_bind; [apply randrange_holds; lia|]. intros s Hs. apply holds_ret.
    unfold good_pixel, channels_of. rewrite E. split; [done|]. split.
    - unfold digits. rewrite Forall_cons. split; [cbv beta in *; lia | done].
    - intros _. rewrite Forall_cons. split; [cbv beta in *; simpl; lia | done]. }
  eapply holds_bind; [apply holds_mapR; intros; apply (randrange_holds (maximum + 1)); rewrite maximum_eq; lia|].
  rewrite maximum_eq. intros s [Fs Ls]. rewrite length_pyrange in Ls.
  assert (GS : good_pixel color depth (Maker.Content p a k ps) s).
  { split; [|split; [exact Fs | done]]. unfold zlen. rewrite Ls. unfold channels_of. repeat case_match; lia. }
  destruct k as [k|]; [|by apply holds_ret]. destruct Hk as [Dk Lk].
  eapply holds_bind with (P := fun _ => True); [intros n; by exists (coin n), (S n)|].
  intros lt _. apply holds_ret. destruct lt; [|done].
  split; [|split; [exact Dk | done]]. unfold zlen, channels_of. destruct Lk as [[-> ->] | [-> ->]]; done.
Qed.

Lemma digits_16 l : digits depth l -> digits 16 l.
Proof using HV.
  pose proof depth_pos. intros F. eapply Forall_impl; [exact F|]. intros s Hs. simpl in Hs.
  pose proof (Z.pow_le_mono_r 2 depth 16). lia.
Qed.

Lemma draw_content_holds transparency :
  holds (Maker.draw_content color depth (channels_of color) transparency) (fun c =>
    good_content color depth c /\ zlen (Maker.pixels c) = Maker.HEIGHT * Maker.WIDTH
    /\ (color = 3 -> zlen (Maker.palette c) = 2 ^ depth)).
Proof using HV.
  pose proof depth_pos. pose proof (Z.pow_pos_nonneg 2 depth). unfold Maker.draw_content. fold maximum.
  eapply holds_bind; [apply draw_palette_holds|]. intros p [Hp Frgb].
  eapply holds_bind; [apply draw_alpha_holds|]. intros a Ha.
  eapply holds_bind; [apply draw_key_holds|]. intros k Hk.
  assert (P3 : color = 3 -> zlen p = 2 ^ depth) by (intros E; by rewrite E in Hp).
  eapply holds_bind.
  { apply holds_mapR. intros _ _. apply (draw_pixel_holds p a k []); [done|]. intros E. rewrite (P3 E). lia. }
  intros ps [Fps Lps]. apply holds_ret. split; [|split; [|done]].
  - split; simpl; try done.
    + destruct (Z.eqb_spec color 3) as [E|E]; [|done]. pose proof (depth_palette E). rewrite (P3 E).
      pose proof (Z.pow_le_mono_r 2 depth 8). lia.
    + destruct k as [k|]; [|done]. destruct Hk. split; [by apply digits_16 | done].
  - simpl. unfold zlen. rewrite Lps, length_pyrange. done.
Qed.
End draw.

(** * What is expected *)

Lemma mapM_py_exists {A B} (f : A -> py B) (Q : B -> Prop) l :
  (forall a, a ∈ l -> exists b, f a = Ret b /\ Q b) ->
  exists bs, mapM_py f l = Ret bs /\ Forall Q bs /\ length bs = length l.
Proof.
  induction l as [|a l IH]; intros Hf; [by exists []|].
  destruct (Hf a) as (b & E & Hb); [left|]. destruct IH as (bs & E' & F & L); [intros; apply Hf; by right|].
  exists (b :: bs). cbn [mapM_py]. rewrite E. cbn [mbind py_bind]. rewrite E'. simpl. auto.
Qed.

Lemma expected_ret h c : Kernel.valid_type (Kernel.color h) (Kernel.depth h) = true ->
  good_content (Kernel.color h) (Kernel.depth h) c ->
  exists expected, mapM_py (Maker.expected_pixel (Kernel.color h) (Kernel.depth h) c) (Maker.pixels c) = Ret expected
    /\ Forall (fun px => length px = 4%nat) expected /\ length expected = length (Maker.pixels c).
Proof.
  intros HV G. destruct (valid_type_ok _ _ HV) as [Hc Hd]. apply mapM_py_exists. intros sample Hs.
  pose proof (gc_pixels _ _ _ G) as F. rewrite Forall_forall in F. specialize (F sample Hs).
  destruct (pack_samples_spec (Kernel.depth h) sample Hd (proj1 (proj2 F))) as (row & _ & _ & _ & R).
  destruct (pixel_agree h c 0 row 0 sample Hd Hc G F) as (px & E & L & _); [|by exists px].
  intros j s Hj Ej. rewrite sample_raw. rewrite <- (R _ _ Ej). f_equal. lia.
Qed.

(** * The chunks of a case *)

Definition case_chunks (h : Kernel.header) (c : Maker.content) (compressed : list Z) : list (list Z * list Z) :=
  (lit "IHDR", be_bytes 4 (Kernel.width h) ++ be_bytes 4 (Kernel.height h)
               ++ [Kernel.depth h; Kernel.color h; 0; 0; if Kernel.interlaced h then 1 else 0])
  :: (if zlen (Maker.palette c) =? 0 then []
      else (lit "PLTE", concat (Maker.palette c))
           :: if zlen (Maker.palette_alpha c) =? 0 then [] else [(lit "tRNS", Maker.palette_alpha c)])
  ++ match Maker.key c with None => [] | Some k => [(lit "tRNS", concat (be_bytes 2 <$> k))] end
  ++ ((fun p => (lit "IDAT", p)) <$> Maker.split_pieces compressed).

Lemma scan_idats ps : forall st,
  foldK (fun st kb => Kernel.scan_chunk st kb.1 kb.2) st ((fun p => (lit "IDAT", p)) <$> ps)
  = Ok (Kernel.Scan (Kernel.hdr st) (Kernel.palette st) (Kernel.palette_len st) (Kernel.transparent st)
           (Kernel.idat_total st + zlen (concat ps))).
Proof.
  induction ps as [|p ps IH]; intros st.
  - cbn. change (zlen (@nil Z)) with 0. rewrite Z.add_0_r. by destruct st.
  - cbn [fmap list_fmap foldK fst snd].
    change (Kernel.scan_chunk st (lit "IDAT") p) with (Ok (Kernel.Scan (Kernel.hdr st) (Kernel.palette st)
      (Kernel.palette_len st) (Kernel.transparent st) (Kernel.idat_total st + zlen p)) : outcome Kernel.image_error Kernel.scan).
    cbn [mbind outcome_bind]. rewrite IH. cbn [concat Kernel.hdr Kernel.palette Kernel.palette_len Kernel.transparent Kernel.idat_total].
    rewrite zlen_app, Z.add_assoc. done.
Qed.

Lemma palette_entries_concat p : Forall (fun rgb => length rgb = 3%nat /\ Forall is_byte rgb) p ->
  Kernel.palette_entries (concat p) = (fun rgb => rgb ++ [255]) <$> p.
Proof.
  induction 1 as [|rgb p [L _] F IH]; [done|]. do 3 (destruct rgb as [|? rgb]; [done|]). destruct rgb; [|done].
  cbn. f_equal. exact IH.
Qed.

Section scan.
Context (h : Kernel.header) (c : Maker.content).
Hypothesis HV : Kernel.valid_type (Kernel.color h) (Kernel.depth h) = true.
Hypothesis Hw : 0 < Kernel.width h <= Kernel.MAX_EDGE.
Hypothesis Hh : 0 < Kernel.height h <= Kernel.MAX_EDGE.
Hypothesis Hwh : Kernel.width h * Kernel.height h <= Kernel.MAX_PIXELS.
Hypothesis G : good_content (Kernel.color h) (Kernel.depth h) c.

Let st0 := Kernel.Scan (Some h) (replicate 256 [0; 0; 0; 255]) 0 None 0.

Lemma parse_ihdr_ok : Kernel.parse_ihdr (be_bytes 4 (Kernel.width h) ++ be_bytes 4 (Kernel.height h)
  ++ [Kernel.depth h; Kernel.color h; 0; 0; if Kernel.interlaced h then 1 else 0]) = Ok h.
Proof using HV Hw Hh Hwh.
  unfold Kernel.MAX_EDGE, Kernel.MAX_PIXELS in *. clear G.
  set (i := if Kernel.interlaced h then 1 else 0). set (body := _ ++ _).
  assert (L1 : zlen (be_bytes 4 (Kernel.width h)) = 4) by apply zlen_be_bytes.
  assert (L2 : zlen (be_bytes 4 (Kernel.height h)) = 4) by apply zlen_be_bytes.
  assert (E1 : Kernel.be 4 body 0 = Kernel.width h).
  { unfold Kernel.be, body. rewrite pyslice_app_l, pyslice_full, be_val_be_bytes by (simpl; lia). done. }
  assert (E2 : Kernel.be 4 body 4 = Kernel.height h).
  { unfold Kernel.be, body. rewrite pyslice_app_r, L1 by (simpl; lia).
    rewrite pyslice_app_l, pyslice_full, be_val_be_bytes by (simpl; lia). done. }
  unfold Kernel.parse_ihdr. rewrite E1, E2.
  change (zlen body) with 13. change (Kernel.at_ body 8) with (Kernel.depth h).
  change (Kernel.at_ body 9) with (Kernel.color h). change (Kernel.at_ body 10) with 0. change (Kernel.at_ body 11) with 0.
  change (Kernel.at_ body 12) with i. rewrite HV. cbn [negb Z.eqb orb].
  destruct (_ || _) eqn:EB; [unfold Kernel.MAX_EDGE in EB; lia|].
  unfold Kernel.MAX_PIXELS. rewrite (proj2 (Z.ltb_ge _ _)) by lia.
  unfold i. by destruct h as [? ? ? ? []].
Qed.

Definition key_of (k : option (list Z)) : option (list Z) :=
  match k with None => None | Some [k] => Some [k; 0; 0] | Some l => Some l end.

Lemma no_palette : Kernel.color h <> 3 -> Maker.palette c = [] /\ Maker.palette_alpha c = [].
Proof using G.
  intros E. destruct G as [GP _ GA _ _]. destruct (Z.eqb_spec (Kernel.color h) 3); [done|]. split; [done|].
  destruct GA as [GA | [GA _]]; [done|]. rewrite GP in GA. by destruct (Maker.palette_alpha c).
Qed.

(** The chunk of the transparent color. *)
Lemma scan_key st : Kernel.hdr st = Some h -> Kernel.transparent st = None ->
  foldK (fun st kb => Kernel.scan_chunk st kb.1 kb.2) st
    match Maker.key c with None => [] | Some k => [(lit "tRNS", concat (be_bytes 2 <$> k))] end
  = Ok (Kernel.Scan (Some h) (Kernel.palette st) (Kernel.palette_len st) (key_of (Maker.key c)) (Kernel.idat_total st)).
Proof using G.
  intros Eh Et. pose proof (gc_key _ _ _ G) as GK. destruct (Maker.key c) as [k|].
  2: { cbn. rewrite <- Eh, <- Et. by destruct st. }
  destruct GK as [D LK]. cbn [foldK fst snd].
  assert (ST : forall body, Kernel.scan_chunk st (lit "tRNS") body
    = if Kernel.color h =? 3 then
        Ok (Kernel.Scan (Kernel.hdr st) (Kernel.set_alphas (Kernel.palette st) body) (Kernel.palette_len st) (Kernel.transparent st) (Kernel.idat_total st))
      else if (Kernel.color h =? 0) && (2 <=? zlen body) then
        Ok (Kernel.Scan (Kernel.hdr st) (Kernel.palette st) (Kernel.palette_len st) (Some [Kernel.be 2 body 0; 0; 0]) (Kernel.idat_total st))
      else if (Kernel.color h =? 2) && (6 <=? zlen body) then
        Ok (Kernel.Scan (Kernel.hdr st) (Kernel.palette st) (Kernel.palette_len st)
               (Some [Kernel.be 2 body 0; Kernel.be 2 body 2; Kernel.be 2 body 4]) (Kernel.idat_total st))
      else Ok st).
  { intros body. unfold Kernel.scan_chunk. rewrite Eh. done. }
  rewrite ST, Eh. clear ST. unfold digits in D. destruct LK as [[-> Lk] | [-> Lk]].
  - destruct k as [|a [|]]; try done. apply Forall_cons in D as [Ha _].
    assert (Ea : Kernel.be 2 (concat (be_bytes 2 <$> [a])) 0 = a).
    { change (Kernel.be 2 (concat (be_bytes 2 <$> [a])) 0) with (be_val (be_bytes 2 a)). apply be_val_be_bytes. simpl. lia. }
    cbn -[Kernel.be be_bytes concat fmap]. rewrite Ea. done.
  - destruct k as [|a [|b [|d [|]]]]; try done. rewrite !Forall_cons in D. destruct D as (Ha & Hb & Hd & _).
    set (body := concat _). assert (Ea : Kernel.be 2 body 0 = a).
    { change (Kernel.be 2 body 0) with (be_val (be_bytes 2 a)). apply be_val_be_bytes. simpl. lia. }
    assert (Eb : Kernel.be 2 body 2 = b).
    { change (Kernel.be 2 body 2) with (be_val (be_bytes 2 b)). apply be_val_be_bytes. simpl. lia. }
    assert (Ed : Kernel.be 2 body 4 = d).
    { change (Kernel.be 2 body 4) with (be_val (be_bytes 2 d)). apply be_val_be_bytes. simpl. lia. }
    rewrite Ea, Eb, Ed. done.
Qed.

(** The chunks of the palette. *)
Lemma scan_palette :
  foldK (fun st kb => Kernel.scan_chunk st kb.1 kb.2) st0
    (if zlen (Maker.palette c) =? 0 then []
     else (lit "PLTE", concat (Maker.palette c))
          :: if zlen (Maker.palette_alpha c) =? 0 then [] else [(lit "tRNS", Maker.palette_alpha c)])
  = Ok (Kernel.Scan (Some h) (Kernel.palette (scanned h c 0)) (zlen (Maker.palette c)) None 0).
Proof using G.
  destruct (Z.eq_dec (Kernel.color h) 3) as [E|E].
  2: { destruct (no_palette E) as [EP EA]. unfold scanned. rewrite EP, EA. reflexivity. }
  pose proof (gc_palette _ _ _ G) as GP. rewrite E in GP. cbn [Z.eqb Pos.eqb] in GP.
  rewrite (proj2 (Z.eqb_neq (zlen (Maker.palette c)) 0)) by lia. cbn [foldK fst snd].
  assert (L3 : zlen (concat (Maker.palette c)) = zlen (Maker.palette c) * 3).
  { unfold zlen. rewrite (length_concat_uniform _ 3); [lia|]. eapply Forall_impl; [apply (gc_rgb _ _ _ G)|]. by intros ? []. }
  assert (ST : Kernel.scan_chunk st0 (lit "PLTE") (concat (Maker.palette c))
    = Ok (Kernel.Scan (Some h) (((fun rgb => rgb ++ [255]) <$> Maker.palette c)
             ++ drop (length (Maker.palette c)) (replicate 256 [0; 0; 0; 255])) (zlen (Maker.palette c)) None 0)).
  { unfold Kernel.scan_chunk. change (zeqb_list (lit "PLTE") (lit "IHDR")) with false.
    change (zeqb_list (lit "PLTE") (lit "PLTE")) with true. cbv iota. rewrite L3, Z.mod_mul, Z.div_mul by lia.
    destruct (_ || _) eqn:EB; [lia|]. rewrite (palette_entries_concat _ (gc_rgb _ _ _ G)).
    unfold zlen. rewrite Nat2Z.id. done. }
  rewrite ST. clear ST. cbn [mbind outcome_bind]. unfold scanned. cbn [Kernel.palette].
  destruct (Z.eqb_spec (zlen (Maker.palette_alpha c)) 0) as [EA|EA].
  - assert (EN : Maker.palette_alpha c = []) by (unfold zlen in EA; destruct (Maker.palette_alpha c); [done | simpl in EA; lia]).
    rewrite EN, set_alphas_nil. done.
  - cbn [foldK fst snd]. unfold Kernel.scan_chunk. cbn [Kernel.hdr fmap option_fmap option_map]. rewrite E. done.
Qed.

Lemma scan_case compressed : 0 < zlen compressed ->
  foldK (fun st kb => Kernel.scan_chunk st kb.1 kb.2) Kernel.scan0 (case_chunks h c compressed)
  = Ok (scanned h c (zlen compressed)).
Proof using All.
  intros HC. unfold case_chunks. cbn [foldK fst snd].
  assert (ST : forall body, Kernel.parse_ihdr body = Ok h -> Kernel.scan_chunk Kernel.scan0 (lit "IHDR") body = Ok st0).
  { intros body E. unfold Kernel.scan_chunk. change (zeqb_list (lit "IHDR") (lit "IHDR")) with true. cbv iota. by rewrite E. }
  rewrite ST by apply parse_ihdr_ok. cbn [mbind outcome_bind]. rewrite foldK_app.
  rewrite scan_palette. cbn [mbind outcome_bind]. rewrite foldK_app, scan_key by done. cbn [mbind outcome_bind].
  rewrite scan_idats, split_pieces_concat by done. done.
Qed.
End scan.

Lemma byte_of_color_depth color depth : Kernel.valid_type color depth = true -> is_byte color /\ is_byte depth.
Proof.
  intros HV. destruct (valid_type_ok _ _ HV) as [O1 O2]. unfold is_byte.
  unfold color_ok, depth_ok in *. lia.
Qed.


Section sizes.
Context (h : Kernel.header) (c : Maker.content).
Hypothesis G : good_content (Kernel.color h) (Kernel.depth h) c.

Lemma zlen_palette : zlen (concat (Maker.palette c)) <= 768.
Proof using All.
  unfold zlen. rewrite (length_concat_uniform _ 3).
  2: { eapply Forall_impl; [apply (gc_rgb _ _ _ G)|]. by intros ? []. }
  pose proof (gc_palette _ _ _ G) as GP. destruct (Kernel.color h =? 3); [unfold zlen in GP; lia|].
  rewrite GP. simpl. lia.
Qed.

Lemma zlen_alpha : zlen (Maker.palette_alpha c) <= 256.
Proof using All.
  pose proof (gc_palette _ _ _ G) as GP. destruct (gc_alpha _ _ _ G) as [-> | [L _]]; [done|].
  unfold zlen in *. rewrite L. destruct (Kernel.color h =? 3); [lia|]. rewrite GP. simpl. lia.
Qed.

Lemma zlen_key k : Maker.key c = Some k -> digits 16 k /\ zlen (concat (be_bytes 2 <$> k)) <= 6.
Proof using All.
  intros E. pose proof (gc_key _ _ _ G) as GK. rewrite E in GK. destruct GK as [D [[_ L] | [_ L]]]; (split; [done|]).
  - destruct k as [|a [|]]; done.
  - by destruct k as [|a [|b [|d [|]]]].
Qed.

End sizes.

Section assemble.
Context `{Zlib}.
Context (h : Kernel.header) (c : Maker.content) (raw : list Z).
Hypothesis HV : Kernel.valid_type (Kernel.color h) (Kernel.depth h) = true.
Hypothesis HW : Kernel.width h = Maker.WIDTH.
Hypothesis HH : Kernel.height h = Maker.HEIGHT.
Hypothesis G : good_content (Kernel.color h) (Kernel.depth h) c.
Hypothesis HZ : zlen (compress raw 6) < 2 ^ 32.

Lemma case_chunks_good : Forall good_chunk (case_chunks h c (compress raw 6)).
Proof using All.
  unfold case_chunks. pose proof (zlen_palette h c G). pose proof (zlen_alpha h c G). repeat constructor; try done. apply Forall_app. split.
  { destruct (_ =? _); [done|]. repeat constructor; try done; [simpl; lia|]. destruct (_ =? _); [done|].
    repeat constructor; try done. simpl. lia. }
  apply Forall_app. split.
  { destruct (Maker.key c) as [k|] eqn:E; [|done]. destruct (zlen_key h c G k E). repeat constructor; try done. simpl fst; simpl snd. lia. }
  apply Forall_fmap. eapply Forall_impl; [apply split_pieces_small|]. intros p Hp. split; [done|]. split; [simpl in *; lia | done].
Qed.

Lemma idats_case : idats (case_chunks h c (compress raw 6)) = compress raw 6.
Proof using All.
  unfold case_chunks. rewrite idats_cons. cbn [fst snd].
  change (zeqb_list (lit "IHDR") (lit "IDAT")) with false. cbv iota. cbn [app].
  assert (IA : forall l1 l2, idats (l1 ++ l2) = idats l1 ++ idats l2).
  { intros. unfold idats. by rewrite filter_app, fmap_app, concat_app. }
  rewrite !IA. destruct (zlib_bound raw 6) as [ZB _].
  replace (idats ((fun p => (lit "IDAT", p)) <$> Maker.split_pieces (compress raw 6))) with (compress raw 6).
  - by repeat (case_match; cbn [app]).
  - rewrite <- (split_pieces_concat (compress raw 6)) at 1 by done. generalize (Maker.split_pieces (compress raw 6)).
    induction l as [|p l IH]; [done|]. cbn [fmap list_fmap concat]. rewrite idats_cons. cbn [fst snd].
    change (zeqb_list (lit "IDAT") (lit "IDAT")) with true. cbv iota. by rewrite IH.
Qed.

Lemma assemble_ret :
  Maker.assemble (Kernel.color h) (Kernel.depth h) (Kernel.interlaced h) c raw
  = Ret (SIGNATURE ++ concat (chunk_bytes <$> case_chunks h c (compress raw 6)) ++ chunk_bytes (lit "IEND", [])).
Proof using All.
  unfold Maker.assemble, Maker.ihdr. destruct (byte_of_color_depth _ _ HV) as [Bc Bd].
  rewrite (pack_be_ret 4 Maker.WIDTH), (pack_be_ret 4 Maker.HEIGHT) by done. rewrite ?py_ret_bind.
  assert (Bi : is_byte (if Kernel.interlaced h then 1 else 0)) by (destruct (Kernel.interlaced h); unfold is_byte; lia).
  assert (B0 : is_byte 0) by (unfold is_byte; lia).
  rewrite (bytes_of_ret [_; _; _; _; _]) by (rewrite !Forall_cons; done).
  rewrite ?py_ret_bind. rewrite (chunk_ret (lit "IHDR")) by (rewrite !zlen_app, !zlen_be_bytes; done). rewrite ?py_ret_bind.
  rewrite (mapM_py_ret bytes_of id (Maker.palette c)).
  2: { intros rgb Hr. pose proof (gc_rgb _ _ _ G) as F. rewrite Forall_forall in F. apply bytes_of_ret. by apply F. }
  rewrite list_fmap_id. pose proof (zlen_palette h c G). pose proof (zlen_alpha h c G). rewrite ?py_ret_bind.
  rewrite (chunk_ret (lit "PLTE")) by lia. rewrite ?py_ret_bind.
  rewrite (bytes_of_ret (Maker.palette_alpha c)).
  2: { by destruct (gc_alpha _ _ _ G) as [-> | [_ F]]. }
  rewrite ?py_ret_bind. rewrite (chunk_ret (lit "tRNS")) by lia. rewrite ?py_ret_bind.
  rewrite (mapM_py_ret (Maker.chunk (lit "IDAT")) (fun p => chunk_bytes (lit "IDAT", p))).
  2: { intros p Hp. apply chunk_ret. pose proof (split_pieces_small (compress raw 6)) as F. rewrite Forall_forall in F.
       specialize (F p Hp). cbv beta in F. lia. }
  rewrite (chunk_ret (lit "IEND")) by done.
  assert (KE : match Maker.key c with
    | None => Ret []
    | Some k => ks ← mapM_py (pack_be 2) k; Maker.chunk (lit "tRNS") (concat ks) end
    = Ret (concat (chunk_bytes <$> match Maker.key c with None => [] | Some k => [(lit "tRNS", concat (be_bytes 2 <$> k))] end))).
  { destruct (Maker.key c) as [k|] eqn:E; [|done]. destruct (zlen_key h c G k E) as [D LK]. rewrite (mapM_py_ret (pack_be 2) (be_bytes 2)).
    - rewrite ?py_ret_bind. rewrite chunk_ret by lia. cbn [fmap list_fmap concat]. by rewrite app_nil_r.
    - intros x Hx. unfold digits in D. rewrite Forall_forall in D. apply pack_be_ret. simpl. apply D in Hx. lia. }
  rewrite KE. unfold case_chunks. rewrite HW, HH. clear KE. generalize chunk_bytes. intros cb.
  generalize (be_bytes 4 Maker.WIDTH) (be_bytes 4 Maker.HEIGHT). intros bw bh. cbn [fmap list_fmap concat].
  rewrite !fmap_app, !concat_app, <- !app_assoc, <- list_fmap_compose. unfold compose.
  destruct (zlen (Maker.palette c) =? 0); [done|]. destruct (zlen (Maker.palette_alpha c) =? 0); cbn [mbind py_bind fmap list_fmap concat app].
  - by rewrite app_nil_r.
  - by rewrite app_nil_r, <- !app_assoc.
Qed.
End assemble.

(** * The passes visit every pixel *)

Lemma elem_of_concat {A} (x : A) ls : x ∈ concat ls <-> exists l, l ∈ ls /\ x ∈ l.
Proof. rewrite list_elem_of_In, in_concat. by setoid_rewrite list_elem_of_In. Qed.

Lemma ceil_count w x0 dx c : 0 < dx -> 0 <= c ->
  c < Kernel.div_ceil (Z.max 0 (w - x0)) dx <-> x0 + c * dx < w.
Proof.
  intros Hd Hc. unfold Kernel.div_ceil. set (m := Z.max 0 (w - x0)).
  pose proof (Z.div_mod (m + dx - 1) dx ltac:(lia)). pose proof (Z.mod_pos_bound (m + dx - 1) dx ltac:(lia)).
  set (q := (m + dx - 1) / dx) in *. split; intros ?.
  - assert (dx * (c + 1) <= dx * q) by nia. nia.
  - assert (c * dx + dx <= m + dx - 1) by lia. assert (dx * (q + 1) > dx * (c + 1)) by lia. nia.
Qed.

Lemma in_pass h x0 y0 dx dy k : good_pass (x0, y0, dx, dy) ->
  k ∈ pass_indices h (x0, y0, dx, dy) <-> exists j c, 0 <= j /\ 0 <= c
    /\ x0 + c * dx < Kernel.width h /\ y0 + j * dy < Kernel.height h
    /\ k = Z.to_nat ((y0 + j * dy) * Kernel.width h + (x0 + c * dx)).
Proof.
  intros (G1 & G2 & G3 & G4). unfold pass_indices, Kernel.pass_size. rewrite elem_of_concat. split.
  - intros (l & Hl & Hk).
    apply list_elem_of_fmap in Hl as (j & -> & Hj). apply elem_of_pyrange in Hj.
    apply list_elem_of_fmap in Hk as (c & -> & Hc). apply elem_of_pyrange in Hc. exists j, c.
    split; [lia|]. split; [lia|]. split; [apply ceil_count; lia|]. split; [apply ceil_count; lia | done].
  - intros (j & c & Hj & Hc & Bx & By & ->). exists (pixel_index h (x0, y0, dx, dy) j <$>
      pyrange 0 (Kernel.div_ceil (Z.max 0 (Kernel.width h - x0)) dx)).
    split; apply list_elem_of_fmap; [exists j | exists c]; (split; [done|]);
      apply elem_of_pyrange; (split; [done | apply ceil_count; lia]).
Qed.

(** The pass of Adam7 that has the pixel [(x, y)]. *)
Definition adam7_has (x y : Z) (pass : Z * Z * Z * Z) : bool :=
  let '(x0, y0, dx, dy) := pass in
  (x0 <=? x) && ((x - x0) mod dx =? 0) && (y0 <=? y) && ((y - y0) mod dy =? 0).

Lemma adam7_covers_tile :
  forallb (fun y => forallb (fun x => existsb (adam7_has x y) Maker.ADAM7) (pyrange 0 8)) (pyrange 0 8) = true.
Proof. vm_compute. reflexivity. Qed.

Lemma adam7_covers x y : 0 <= x -> 0 <= y -> exists pass, pass ∈ Maker.ADAM7 /\ adam7_has x y pass = true.
Proof.
  intros Hx Hy. pose proof adam7_covers_tile as T. rewrite forallb_forall in T.
  specialize (T (y mod 8)). rewrite <- list_elem_of_In, elem_of_pyrange in T. specialize (T (Z.mod_pos_bound y 8 eq_refl)).
  rewrite forallb_forall in T. specialize (T (x mod 8)). rewrite <- list_elem_of_In, elem_of_pyrange in T.
  specialize (T (Z.mod_pos_bound x 8 eq_refl)). apply existsb_exists in T as (pass & Hp & T). rewrite <- list_elem_of_In in Hp.
  exists pass. split; [done|]. pose proof (Z.div_mod x 8 ltac:(lia)) as Ex. pose proof (Z.div_mod y 8 ltac:(lia)) as Ey.
  pose proof (Z.div_pos x 8 Hx eq_refl). pose proof (Z.div_pos y 8 Hy eq_refl).
  assert (M : forall a a0 d, (d | 8) -> (a - a0) mod d = (a mod 8 - a0) mod d).
  { intros a a0 d [q Hq]. destruct (decide (d = 0)) as [->|]; [lia|].
    replace (a - a0) with (a mod 8 - a0 + (a / 8 * q) * d) by (rewrite <- Z.mul_assoc, <- Hq; pose proof (Z.div_mod a 8 ltac:(lia)); lia).
    apply Z.mod_add. done. }
  assert (D1 : (1 | 8)) by (exists 8; lia). assert (D2 : (2 | 8)) by (exists 4; lia).
  assert (D4 : (4 | 8)) by (exists 2; lia). assert (D8 : (8 | 8)) by (exists 1; lia).
  unfold Maker.ADAM7 in Hp. rewrite !elem_of_cons in Hp. unfold adam7_has in *.
  destruct Hp as [-> | [-> | [-> | [-> | [-> | [-> | [-> | Hp]]]]]]]; [..| by apply elem_of_nil in Hp];
    rewrite (M x), (M y) by done; lia.
Qed.

Lemma passes_cover h k : 0 <= Kernel.width h -> 0 <= Kernel.height h ->
  k ∈ concat (pass_indices h <$> Kernel.passes h) <-> (k < Z.to_nat (Kernel.width h * Kernel.height h))%nat.
Proof.
  intros HW HH. pose proof (passes_good h) as PG. rewrite Forall_forall in PG.
  rewrite elem_of_concat. split.
  - intros (l & Hl & Hk). apply list_elem_of_fmap in Hl as (p & -> & Hp).
    specialize (PG p Hp). destruct p as [[[x0 y0] dx] dy].
    apply in_pass in Hk as (j & c & Hj & Hc & Bx & By & ->); [|done]. destruct PG as (G1 & G2 & G3 & G4).
    assert (0 <= j * dy) by nia. assert (0 <= c * dx) by nia. nia.
  - intros Hk. set (W := Kernel.width h) in *. assert (W0 : 0 < W) by nia. set (x := Z.of_nat k mod W). set (y := Z.of_nat k / W).
    pose proof (Z.mod_pos_bound (Z.of_nat k) W W0) as Bx. pose proof (Z.div_mod (Z.of_nat k) W ltac:(lia)) as E.
    assert (0 <= y) by (apply Z.div_pos; lia). fold x in Bx, E. fold y in E.
    assert (y < Kernel.height h) by nia.
    assert (P : exists x0 y0 dx dy, (x0, y0, dx, dy) ∈ Kernel.passes h /\ adam7_has x y (x0, y0, dx, dy) = true).
    { unfold Kernel.passes. destruct (Kernel.interlaced h).
      - destruct (adam7_covers x y) as ([[[x0 y0] dx] dy] & Hp & HA); [lia | lia|]. eauto 10.
      - exists 0, 0, 1, 1. split; [left|]. unfold adam7_has. rewrite !Z.mod_1_r. lia. }
    destruct P as (x0 & y0 & dx & dy & Hp & HA). exists (pass_indices h (x0, y0, dx, dy)).
    split; [by apply list_elem_of_fmap_2|]. specialize (PG _ Hp). apply in_pass; [done|].
    destruct PG as (G1 & G2 & G3 & G4). unfold adam7_has in HA.
    pose proof (Z.div_mod (x - x0) dx ltac:(lia)). pose proof (Z.div_mod (y - y0) dy ltac:(lia)).
    exists ((y - y0) / dy), ((x - x0) / dx). fold W.
    assert (EX : x0 + (x - x0) / dx * dx = x) by lia. assert (EY : y0 + (y - y0) / dy * dy = y) by lia. rewrite EX, EY.
    split; [apply Z.div_pos; lia|]. split; [apply Z.div_pos; lia|]. split; [lia|]. split; [lia|]. lia.
Qed.

(** * Every case is decoded *)

Lemma raw_size_small h : Kernel.width h = Maker.WIDTH -> Kernel.height h = Maker.HEIGHT ->
  Kernel.valid_type (Kernel.color h) (Kernel.depth h) = true -> Kernel.raw_size h <= 20000.
Proof.
  destruct h as [w hh d c i]. cbn [Kernel.width Kernel.height Kernel.color Kernel.depth]. intros -> -> HV.
  destruct (valid_type_ok _ _ HV) as [O1 O2]. destruct O2 as [-> | [-> | [-> | [-> | ->]]]];
    destruct O1 as [-> | [-> | [-> | [-> | ->]]]]; destruct i; vm_compute; congruence.
Qed.

Section cases.
Context `{Random} `{Zlib}.
Context (color depth : Z) (interlace transparency : bool).
Hypothesis HV : Kernel.valid_type color depth = true.

Let h := Kernel.Header Maker.WIDTH Maker.HEIGHT depth color interlace.

Lemma passes_hold c total expected :
  good_content color depth c -> zlen (Maker.pixels c) = Maker.HEIGHT * Maker.WIDTH ->
  mapM_py (Maker.expected_pixel color depth c) (Maker.pixels c) = Ret expected ->
  let bits := channels_of color * depth in
  holds (foldR (Maker.make_pass depth bits (Z.max 1 (bits / 8)) (Maker.pixels c)) [] (Kernel.passes h))
    (fun raw => exists rs, raw = concat rs
       /\ Forall2 (encodes h (scanned h c total) (want expected)) (Kernel.passes h) rs).
Proof using HV.
  intros G HN HE bits.
  apply (holds_foldR _ (fun p raw => exists rs, raw = concat rs
    /\ Forall2 (encodes h (scanned h c total) (want expected)) p rs) _ []); [by exists []|].
  intros p [[[x0 y0] dx] dy] raw Hp (rs & -> & F). pose proof (passes_good h) as PG. rewrite Forall_forall in PG.
  eapply holds_weaken; [apply (make_pass_holds h c total expected); try done; by apply (PG _ Hp)|].
  intros raw' (r & -> & E). exists (rs ++ [r]). split.
  - rewrite concat_app. simpl. by rewrite app_nil_r.
  - apply Forall2_app; [done|]. by constructor.
Qed.

Lemma want_length expected i : Forall (fun px => length px = 4%nat) expected -> length (want expected i) = 4%nat.
Proof. intros F. unfold want. destruct (expected !! i) eqn:E; [|done]. rewrite Forall_lookup in F. by apply (F _ _ E). Qed.

Lemma want_all expected N : length expected = N -> want expected <$> seq 0 N = expected.
Proof.
  intros <-. apply list_eq. intros i. rewrite list_lookup_fmap. destruct (decide (i < length expected)%nat) as [L|L].
  - rewrite lookup_seq_lt by done. simpl. unfold want. destruct (lookup_lt_is_Some_2 _ _ L) as [x E]. by rewrite E.
  - rewrite lookup_seq_ge by lia. rewrite lookup_ge_None_2 by lia. done.
Qed.

Lemma split_pieces_count l : zlen (Maker.split_pieces l) <= zlen l.
Proof.
  unfold Maker.split_pieces. set (t := Z.max 1 (zlen l / 3)). pose proof (zlen_nonneg l).
  rewrite zlen_fmap, zlen_range_step by lia. unfold Kernel.div_ceil. rewrite Z.sub_0_r, Z.max_r by lia.
  apply Z.lt_succ_r. apply Z.div_lt_upper_bound; nia.
Qed.

Lemma zlen_chunks cs : zlen (concat (chunk_bytes <$> cs)) = zlen (concat ((fun kb => kb.1 ++ kb.2) <$> cs)) + 8 * zlen cs.
Proof.
  induction cs as [|kb cs IH]; [done|]. cbn [fmap list_fmap concat]. rewrite !zlen_app, zlen_chunk_bytes, zlen_cons. lia.
Qed.

Lemma zlen_idat_chunks l : 0 < zlen l ->
  zlen (concat (chunk_bytes <$> ((fun p => (lit "IDAT", p)) <$> Maker.split_pieces l))) <= 13 * zlen l.
Proof.
  intros Hl. rewrite <- (split_pieces_concat l Hl) at 2. pose proof (split_pieces_count l) as C.
  rewrite <- (split_pieces_concat l Hl) in C at 2. generalize dependent (Maker.split_pieces l). intros ps C.
  assert (E : zlen (concat (chunk_bytes <$> ((fun p => (lit "IDAT", p)) <$> ps))) = zlen (concat ps) + 12 * zlen ps).
  { clear. induction ps as [|p ps IH]; [done|]. cbn [fmap list_fmap concat]. rewrite !zlen_app, zlen_chunk_bytes, zlen_cons.
    cbn [fst snd]. change (zlen (lit "IDAT")) with 4. unfold compose in IH. lia. }
  lia.
Qed.

Lemma zlen_case c compressed : good_content color depth c -> 0 < zlen compressed ->
  zlen (concat (chunk_bytes <$> case_chunks h c compressed)) <= 13 * zlen compressed + 2000.
Proof.
  intros G HC. unfold case_chunks. cbn [fmap list_fmap concat]. rewrite !fmap_app, !concat_app, !zlen_app, zlen_chunk_bytes.
  pose proof (zlen_idat_chunks compressed HC). cbn [fst snd].
  change (zlen (lit "IHDR")) with 4. rewrite !zlen_app, !zlen_be_bytes.
  assert (P1 : zlen (concat (chunk_bytes <$> (if zlen (Maker.palette c) =? 0 then []
      else (lit "PLTE", concat (Maker.palette c))
           :: if zlen (Maker.palette_alpha c) =? 0 then [] else [(lit "tRNS", Maker.palette_alpha c)]))) <= 1100).
  { destruct (_ =? _); [done|]. pose proof (zlen_palette h c G). pose proof (zlen_alpha h c G).
    destruct (_ =? _); cbn [fmap list_fmap concat]; rewrite !zlen_app, !zlen_chunk_bytes; cbn [fst snd];
      change (zlen (lit "PLTE")) with 4; change (zlen (lit "tRNS")) with 4; change (zlen (@nil Z)) with 0; lia. }
  assert (P2 : zlen (concat (chunk_bytes <$> match Maker.key c with None => [] | Some k => [(lit "tRNS", concat (be_bytes 2 <$> k))] end)) <= 100).
  { destruct (Maker.key c) as [k|] eqn:E; [|done]. destruct (zlen_key h c G k E) as [_ LK].
    cbn [fmap list_fmap concat]. rewrite zlen_app, zlen_chunk_bytes. cbn [fst snd]. change (zlen (lit "tRNS")) with 4.
    change (zlen (@nil Z)) with 0. lia. }
  rewrite !zlen_cons. change (zlen (@nil Z)) with 0. simpl Z.of_nat. lia.
Qed.

(** The file of a case, decoded. *)
Lemma assembled_decodes c expected rs :
  good_content color depth c -> zlen (Maker.pixels c) = Maker.HEIGHT * Maker.WIDTH ->
  Forall (fun px => length px = 4%nat) expected -> length expected = length (Maker.pixels c) ->
  Forall2 (encodes h (scanned h c (zlen (compress (concat rs) 6))) (want expected)) (Kernel.passes h) rs ->
  exists png, Maker.assemble color depth interlace c (concat rs) = Ret png /\ zlen png < 2 ^ 32
    /\ Kernel.decode png = Ok (Maker.WIDTH, Maker.HEIGHT, concat expected).
Proof using HV.
  intros G HN F4 L F2. destruct (raw_size_sum h rs _ _ F2 (passes_good h)) as [RS RB].
  pose proof (raw_size_small h eq_refl eq_refl HV) as SM. rewrite <- RS in SM.
  destruct (zlib_bound (concat rs) 6) as [Z0 ZB]. pose proof (zlen_nonneg (concat rs)).
  assert (HZ : zlen (compress (concat rs) 6) < 2 ^ 20).
  { pose proof (Z.div_le_upper_bound (zlen (concat rs)) 4096 20000). pose proof (Z.div_le_upper_bound (zlen (concat rs)) 16384 20000).
    pose proof (Z.div_le_upper_bound (zlen (concat rs)) (2 ^ 25) 20000). lia. }
  eexists. split; [apply (assemble_ret h); done || lia|]. split.
  { pose proof (zlen_case c _ G Z0). rewrite !zlen_app, zlen_chunk_bytes. change (zlen SIGNATURE) with 8. cbn [fst snd].
    change (zlen (lit "IEND")) with 4. change (zlen (@nil Z)) with 0. lia. }
  rewrite (decode_file h (scanned h c (zlen (compress (concat rs) 6))) (want expected) (case_chunks h c (compress (concat rs) 6)) rs).
  - cbn [Kernel.width Kernel.height h]. do 2 f_equal. rewrite want_all; [done|]. rewrite L. unfold zlen in HN. lia.
  - apply case_chunks_good; done || lia.
  - apply scan_case; done.
  - done.
  - rewrite (idats_case h c (concat rs)) by (done || lia). by apply zlib_valid.
  - rewrite (idats_case h c (concat rs)); done || lia.
  - intros E. pose proof (gc_palette _ _ _ G) as GP. cbn in E. rewrite E in GP. simpl in GP |- *. lia.
  - done.
  - intros i. by apply want_length.
  - destruct (valid_type_ok _ _ HV) as [_ O2]. cbn. split; [done|]. split; [done|].
    unfold Kernel.bits_per_pixel, Kernel.channels. cbn. unfold depth_ok in O2. repeat case_match; lia.
  - intros k. by apply passes_cover.
Qed.
End cases.

Lemma make_case_holds `{Random} `{Zlib} color depth interlace transparency : Kernel.valid_type color depth = true ->
  holds (Maker.make_case color depth interlace transparency)
    (fun r => zlen r.1 < 2 ^ 32 /\ Kernel.decode r.1 = Ok (Maker.WIDTH, Maker.HEIGHT, r.2)).
Proof.
  intros HV. unfold Maker.make_case. set (h := Kernel.Header Maker.WIDTH Maker.HEIGHT depth color interlace).
  eapply holds_bind; [apply holds_lift with (a := channels_of color) (P := eq (channels_of color)); [|done]|].
  { destruct (valid_type_ok _ _ HV) as [[-> | [-> | [-> | [-> | ->]]]] _]; done. }
  intros ? <-. eapply holds_bind; [by apply draw_content_holds|]. intros c (G & HN & _).
  destruct (expected_ret h c HV G) as (expected & HE & F4 & L).
  eapply holds_bind; [apply holds_lift with (a := expected) (P := eq expected); done|]. intros ? <-.
  eapply holds_bind.
  { intros k0. destruct (passes_hold color depth interlace HV c 0 expected G HN HE k0) as (raw & k1 & E & P).
    exists raw, k1. split; [exact E | exact P]. }
  intros raw (rs & -> & F2).
  destruct (assembled_decodes color depth interlace HV c expected rs G HN F4 L) as (png & EP & ES & ED); [exact F2|].
  eapply holds_bind; [apply holds_lift with (a := png) (P := eq png); done|]. intros ? <-.
  apply holds_ret. done.
Qed.

(** C7: for every color type and bit depth PNG allows, interlaced or not,
    with or without transparency, and whatever numbers are drawn, the tool
    produces a file without an error, and the kernel decodes that file to the
    37 by 29 image of exactly the RGBA bytes the tool expects. *)
Theorem case_decodes `{Random} `{Zlib} color depth interlace transparency k :
  Kernel.valid_type color depth = true ->
  exists png expected k', Maker.make_case color depth interlace transparency k = Ret ((png, expected), k')
    /\ Kernel.decode png = Ok (Maker.WIDTH, Maker.HEIGHT, expected).
Proof.
  intros HV. destruct (make_case_holds color depth interlace transparency HV k) as ([png expected] & k' & E & _ & D).
  exists png, expected, k'. done.
Qed.

(** One entry of the corpus: the length of the file, the checksum of its pixels, the file. *)
Definition corpus_entry (r : list Z * list Z) : list Z :=
  le_bytes 4 (zlen r.1) ++ le_bytes 4 (Z.land (Crc32.crc32 r.2) 4294967295) ++ r.1.

(** C8: the corpus the tool writes is one entry per case, the length and the
    checksum in front of each file, and every file in it is decoded by the
    kernel to the pixels that checksum was taken of. *)
Theorem corpus_decodes `{Random} `{Zlib} k :
  exists out k' entries, Maker.corpus k = Ret (out, k')
    /\ out = concat (corpus_entry <$> entries) /\ length entries = length Maker.cases
    /\ Forall (fun r => Kernel.decode r.1 = Ok (Maker.WIDTH, Maker.HEIGHT, r.2)) entries.
Proof.
  assert (M : holds Maker.corpus (fun out => exists entries, out = concat (corpus_entry <$> entries)
    /\ length entries = length Maker.cases
    /\ Forall (fun r => Kernel.decode r.1 = Ok (Maker.WIDTH, Maker.HEIGHT, r.2)) entries)).
  { assert (HC : Forall (fun '(color, depth, _, _) => Kernel.valid_type color depth = true) Maker.cases).
    { vm_compute. repeat constructor. }
    rewrite Forall_forall in HC. unfold Maker.corpus.
    apply (holds_foldR _ (fun p out => exists entries, out = concat (corpus_entry <$> entries)
      /\ length entries = length p
      /\ Forall (fun r => Kernel.decode r.1 = Ok (Maker.WIDTH, Maker.HEIGHT, r.2)) entries) _ []); [by exists []|].
    intros p [[[color depth] interlace] transparency] out HI (entries & -> & L & F).
    eapply holds_bind; [apply make_case_holds; by apply (HC _ HI)|]. intros [png expected] [S D]. cbn [fst snd] in *.
    pose proof (zlen_nonneg png).
    eapply holds_bind; [eapply holds_lift with (P := eq (le_bytes 4 (zlen png))); [apply pack_le_ret; simpl; lia | done]|].
    intros ? <-.
    eapply holds_bind; [eapply holds_lift with (P := eq (le_bytes 4 (Z.land (Crc32.crc32 expected) 4294967295)));
      [apply pack_le_ret | done]|].
    { change 4294967295 with (Z.ones 32). rewrite Z.land_ones by lia. apply Z.mod_pos_bound. simpl. lia. }
    intros ? <-. apply holds_ret. exists (entries ++ [(png, expected)]). split; [|split].
    - rewrite fmap_app, concat_app. cbn [fmap list_fmap concat]. by rewrite app_nil_r.
    - rewrite !length_app. simpl. lia.
    - apply Forall_app. split; [done|]. by constructor. }
  destruct (M k) as (out & k' & E & entries & HE & L & F). by exists out, k', entries.
Qed.

(** * Screenshots *)

Section words.

Lemma take_word_stop w c rest : Forall (fun c => byte_space c = false) w -> byte_space c = true ->
  Ppm.take_word (w ++ c :: rest) = (w, c :: rest).
Proof.
  intros F Hc. induction F as [|x w Hx F IH]; cbn; [by rewrite Hc|]. by rewrite Hx, IH.
Qed.

Lemma lstrip_space f c l : f c = true -> lstrip f (c :: l) = lstrip f l.
Proof. intros E. cbn. by rewrite E. Qed.

Lemma split_ws_word n w c rest : w <> [] -> Forall (fun c => byte_space c = false) w -> byte_space c = true ->
  Ppm.split_ws (S n) (w ++ c :: rest) = w :: Ppm.split_ws n (c :: rest).
Proof.
  intros Hw F Hc. cbn [Ppm.split_ws]. rewrite lstrip_id.
  - destruct w as [|x w]; [done|]. cbn [app]. change (x :: w ++ c :: rest) with ((x :: w) ++ c :: rest).
    by rewrite take_word_stop by done.
  - intros x Hx. destruct F; [done|]. by injection Hx as <-.
Qed.

Lemma split_ws_space n c rest : byte_space c = true -> Ppm.split_ws n (c :: rest) = Ppm.split_ws n rest.
Proof. intros Hc. destruct n; cbn [Ppm.split_ws]; by rewrite lstrip_space by done. Qed.

Lemma to_base_no_space n : 0 <= n -> to_base 10 n <> [] /\ Forall (fun c => byte_space c = false) (to_base 10 n).
Proof.
  intros Hn. unfold to_base. pose proof (digits_nonempty 10 n) as NE. pose proof (digits_bound 10 n ltac:(lia) Hn) as B.
  split; [by destruct (Text.digits 10 n)|]. apply Forall_fmap. eapply Forall_impl; [exact B|]. intros d Hd.
  cbn in Hd. pose proof (digit_char_range d ltac:(lia)). unfold compose, byte_space, between. lia.
Qed.

Lemma py_int_bytes_to_base n : 0 <= n -> py_int_bytes 10 (to_base 10 n) = Ret n.
Proof.
  intros Hn. destruct (to_base_no_space n Hn) as [NE NS]. unfold py_int_bytes, py_int_strip. rewrite strip_id by done.
  pose proof (digits_nonempty 10 n) as DN. pose proof (digits_bound 10 n ltac:(lia) Hn) as B.
  assert (E : py_int_unsigned 10 (to_base 10 n) = Some n).
  { change (int_digits 10 0 true (to_base 10 n) = Some n). unfold to_base. rewrite int_digits_val; try done.
    rewrite digits_val_digits by lia. done. }
  destruct (to_base 10 n) as [|c l] eqn:EB; [done|].
  assert (Hc : c <> 45 /\ c <> 43).
  { unfold to_base in EB. destruct (Text.digits 10 n) as [|d l']; [done|]. injection EB as <- _.
    apply Forall_cons in B as [Hd _]. pose proof (digit_char_range d ltac:(lia)). lia. }
  rewrite (proj2 (Z.eqb_neq c 45)), (proj2 (Z.eqb_neq c 43)) by lia. by rewrite E.
Qed.
End words.

Lemma at_pyslice l a b i : 0 <= a -> 0 <= i < b - a -> b <= zlen l ->
  Kernel.at_ (pyslice l a b) i = Kernel.at_ l (a + i).
Proof.
  intros Ha Hi Hb. unfold Kernel.at_. rewrite pyslice_nn by lia.
  rewrite lookup_take_lt by lia. rewrite lookup_drop. do 2 f_equal. lia.
Qed.

Lemma filtered_none bpp row previous : Forall is_byte row -> filtered 0 bpp row previous = row.
Proof.
  intros F. apply list_eq. intros i. unfold filtered. rewrite list_lookup_fmap.
  destruct (row !! i) as [x|] eqn:E.
  - pose proof (lookup_lt_Some _ _ _ E). unfold pyrange. rewrite list_lookup_fmap, lookup_seq_lt by (unfold zlen; lia). simpl.
    f_equal. unfold Kernel.at_ at 1. replace (Z.to_nat (0 + Z.of_nat i)) with i by lia. rewrite E. cbn [default].
    rewrite Forall_lookup in F. specialize (F _ _ E). unfold is_byte in F. unfold row_prediction, Maker.predicted. simpl.
    unfold id. rewrite Z.mod_small; lia.
  - apply lookup_ge_None in E. rewrite lookup_ge_None_2; [done|]. rewrite length_pyrange. unfold zlen. lia.
Qed.

Lemma encode_unfiltered bpp rows : Forall (Forall is_byte) rows -> forall previous,
  encode_lines bpp previous ((fun r => (0, r)) <$> rows) = concat ((fun r => 0 :: r) <$> rows).
Proof.
  induction 1 as [|r rows Hr F IH]; intros previous; [done|]. cbn [fmap list_fmap encode_lines concat app].
  rewrite filtered_none, IH by done. done.
Qed.

Section screenshot.
Context `{ZL : Zlib} (W H : Z) (px : list Z).
Hypothesis HW : 0 < W <= Kernel.MAX_EDGE.
Hypothesis HH : 0 < H <= Kernel.MAX_EDGE.
Hypothesis HWH : W * H <= Kernel.MAX_PIXELS.
Hypothesis Bpx : Forall is_byte px.
Hypothesis Lpx : zlen px = W * H * 3.

Let h := Kernel.Header W H 8 2 false.
Let row (y : Z) := pyslice px (y * W * 3) ((y + 1) * W * 3).
Let rows := concat ((fun y => [0] ++ row y) <$> pyrange 0 H).

(** Pixel [k] with an opaque alpha. *)
Definition opaque_pixel (k : nat) : list Z :=
  let i := 3 * Z.of_nat k in [Kernel.at_ px i; Kernel.at_ px (i + 1); Kernel.at_ px (i + 2); 255].

Lemma pass_size_flat : Kernel.pass_size h (0, 0, 1, 1) = (W, H).
Proof using HW HH.
  unfold Kernel.pass_size, Kernel.div_ceil. cbn [Kernel.width Kernel.height h].
  rewrite !Z.div_1_r. f_equal; lia.
Qed.

Lemma row_bytes_flat : Kernel.div_ceil (W * Kernel.bits_per_pixel h) 8 = 3 * W.
Proof.
  change (Kernel.bits_per_pixel h) with 24. unfold Kernel.div_ceil.
  replace (W * 24 + 8 - 1) with (7 + (3 * W) * 8) by lia. rewrite Z.div_add by lia. done.
Qed.

Lemma screenshot_row y : 0 <= y < H -> zlen (row y) = 3 * W /\ Forall is_byte (row y).
Proof using HW HH HWH Lpx Bpx.
  intros Hy. unfold row. split.
  - rewrite zlen_pyslice by nia. nia.
  - rewrite pyslice_nn by nia. by apply Forall_take, Forall_drop.
Qed.

Lemma screenshot_encodes st : Kernel.transparent st = None ->
  encodes h st opaque_pixel (0, 0, 1, 1) rows.
Proof using HW HH HWH Lpx Bpx.
  intros Et. unfold encodes. rewrite pass_size_flat, row_bytes_flat.
  rewrite (proj2 (Z.eqb_neq W 0)), (proj2 (Z.eqb_neq H 0)) by lia. cbn [orb].
  exists ((fun r => (0, r)) <$> (row <$> pyrange 0 H)).
  assert (F : Forall (fun r => zlen r = 3 * W /\ Forall is_byte r) (row <$> pyrange 0 H)).
  { apply Forall_fmap, Forall_forall. intros y Hy. apply elem_of_pyrange in Hy. by apply screenshot_row. }
  split; [|split; [|split]].
  - rewrite encode_unfiltered by (eapply Forall_impl; [exact F|]; by intros ? []). unfold rows. by rewrite <- list_fmap_compose.
  - rewrite !zlen_fmap, zlen_pyrange by lia. lia.
  - apply Forall_fmap. eapply Forall_impl; [exact F|]. intros r [L B]. unfold good_line. cbn. split; [lia | done].
  - intros j kr c Hj Hc. rewrite !list_lookup_fmap in Hj. destruct (pyrange 0 H !! j) as [y|] eqn:Ey; [|done].
    cbn in Hj. injection Hj as <-. unfold pyrange in Ey. rewrite list_lookup_fmap in Ey.
    destruct (decide (j < Z.to_nat (H - 0))%nat); [|by rewrite lookup_seq_ge in Ey by lia].
    rewrite lookup_seq_lt in Ey by done. cbn in Ey. injection Ey as <-.
    unfold Kernel.pixel_rgba. cbn [Kernel.color h Z.eqb Pos.eqb snd]. rewrite Et. unfold Kernel.to8, Kernel.sample.
    cbn [Kernel.depth h Z.eqb Pos.eqb]. change (Kernel.channels h) with 3.
    unfold opaque_pixel, pixel_index, row. cbn [Kernel.width h]. rewrite !at_pyslice by nia.
    replace (Z.of_nat (Z.to_nat ((0 + Z.of_nat j * 1) * W + (0 + c * 1)))) with (Z.of_nat j * W + c) by nia.
    assert (AB : forall i, Kernel.at_ px i mod 256 = Kernel.at_ px i).
    { intros i. apply Z.mod_small. unfold Kernel.at_. destruct (px !! Z.to_nat i) eqn:E; [|done].
      rewrite Forall_lookup in Bpx. by apply (Bpx _ _ E). }
    rewrite !AB. do 3 (apply (f_equal2 cons); [f_equal; lia|]). done.
Qed.

Lemma zlen_rows : zlen rows = H * (3 * W + 1).
Proof using HW HH HWH Lpx Bpx.
  unfold rows, zlen. rewrite (length_concat_uniform _ (Z.to_nat (3 * W + 1))).
  - rewrite length_fmap, length_pyrange. lia.
  - apply Forall_fmap, Forall_forall. intros y Hy. apply elem_of_pyrange in Hy. destruct (screenshot_row y Hy) as [L _].
    unfold compose. rewrite length_app. unfold zlen in L. simpl. lia.
Qed.

Lemma rows_bytes : Forall is_byte rows.
Proof using HW HH HWH Lpx Bpx.
  unfold rows. apply Forall_concat, Forall_fmap, Forall_forall. intros y Hy. apply elem_of_pyrange in Hy. constructor; [unfold is_byte; lia | by apply screenshot_row].
Qed.

Definition ppm_file : list Z :=
  lit "P6" ++ [10] ++ to_base 10 W ++ [32] ++ to_base 10 H ++ [10] ++ lit "255" ++ [10] ++ px.

Lemma ppm_words : exists rest, Ppm.split_ws 4 ppm_file = lit "P6" :: to_base 10 W :: to_base 10 H :: rest.
Proof using HW HH.
  unfold ppm_file. destruct (to_base_no_space W ltac:(lia)) as [W1 W2]. destruct (to_base_no_space H ltac:(lia)) as [H1 H2].
  cbn [app]. rewrite (split_ws_word 3 (lit "P6")) by (try done; repeat constructor).
  rewrite split_ws_space by done. rewrite (split_ws_word 2) by done. rewrite split_ws_space by done.
  rewrite (split_ws_word 1) by done. eauto.
Qed.

Lemma rows_compressed : 0 < zlen (compress rows 3) < 2 ^ 32.
Proof using All.
  destruct (zlib_bound rows 3) as [Z0 ZB]. split; [done|]. pose proof zlen_rows as E. pose proof (zlen_nonneg rows).
  assert (B : zlen rows <= 300000000) by (unfold Kernel.MAX_EDGE, Kernel.MAX_PIXELS in *; lia).
  pose proof (Z.div_le_upper_bound (zlen rows) 4096 (zlen rows)). pose proof (Z.div_le_upper_bound (zlen rows) 16384 (zlen rows)).
  pose proof (Z.div_le_upper_bound (zlen rows) (2 ^ 25) (zlen rows)). lia.
Qed.

Let cs := [(lit "IHDR", be_bytes 4 W ++ be_bytes 4 H ++ [8; 2; 0; 0; 0]); (lit "IDAT", compress rows 3)].

Lemma convert_ret : Ppm.convert ppm_file = Ret (SIGNATURE ++ concat (chunk_bytes <$> cs) ++ chunk_bytes (lit "IEND", [])).
Proof using All.
  pose proof rows_compressed as ZB. unfold Kernel.MAX_EDGE in *.
  destruct ppm_words as [rest E]. unfold Ppm.convert. rewrite E.
  change (pyget (lit "P6" :: to_base 10 W :: to_base 10 H :: rest) 1) with (Ret (to_base 10 W)). rewrite py_ret_bind.
  rewrite py_int_bytes_to_base, py_ret_bind by lia.
  change (pyget (lit "P6" :: to_base 10 W :: to_base 10 H :: rest) 2) with (Ret (to_base 10 H)). rewrite py_ret_bind.
  rewrite py_int_bytes_to_base, py_ret_bind by lia. cbv zeta.
  replace (pyslice ppm_file (zlen ppm_file - W * H * 3) (zlen ppm_file)) with px.
  2: { unfold ppm_file. rewrite !app_assoc. set (hd := (((((((lit "P6" ++ _) ++ _) ++ _) ++ _) ++ _) ++ _) ++ _)).
       rewrite zlen_app. pose proof (zlen_nonneg hd). rewrite pyslice_app_r by lia.
       replace (zlen hd + zlen px - W * H * 3 - zlen hd) with 0 by lia. replace (zlen hd + zlen px - zlen hd) with (zlen px) by lia.
       symmetry. by apply pyslice_full. }
  fold rows. unfold Maker.ihdr. rewrite (pack_be_ret 4 W), (pack_be_ret 4 H), !py_ret_bind by (simpl Z.of_nat; lia).
  rewrite bytes_of_ret, !py_ret_bind by (unfold is_byte; repeat (constructor; [lia|]); constructor).
  rewrite (chunk_ret (lit "IHDR")), py_ret_bind by (rewrite !zlen_app, !zlen_be_bytes; done).
  rewrite (chunk_ret (lit "IDAT")), py_ret_bind by apply ZB.
  rewrite (chunk_ret (lit "IEND")), py_ret_bind by done.
  unfold cs. generalize chunk_bytes. intros cb. cbn [fmap list_fmap concat]. by rewrite app_nil_r, <- !app_assoc.
Qed.

Lemma screenshot_decoded : Kernel.decode (SIGNATURE ++ concat (chunk_bytes <$> cs) ++ chunk_bytes (lit "IEND", []))
  = Ok (W, H, concat (opaque_pixel <$> seq 0 (Z.to_nat (W * H)))).
Proof using All.
  pose proof rows_compressed as ZB.
  set (st := Kernel.Scan (Some h) (replicate 256 [0; 0; 0; 255]) 0 None (zlen (compress rows 3))).
  rewrite (decode_file h st opaque_pixel cs [rows]).
  - done.
  - repeat constructor; try done. cbn [fst snd]. lia.
  - unfold cs. cbn [foldK fst snd].
    assert (E : Kernel.scan_chunk Kernel.scan0 (lit "IHDR") (be_bytes 4 W ++ be_bytes 4 H ++ [8; 2; 0; 0; 0])
                = Ok (Kernel.Scan (Some h) (replicate 256 [0; 0; 0; 255]) 0 None 0)).
    { unfold Kernel.scan_chunk. change (zeqb_list (lit "IHDR") (lit "IHDR")) with true. cbv iota.
      pose proof (parse_ihdr_ok h eq_refl HW HH HWH) as P. cbn [Kernel.width Kernel.height Kernel.depth Kernel.color Kernel.interlaced h] in P.
      by rewrite P. }
    rewrite E. done.
  - done.
  - unfold cs. rewrite !idats_cons. cbn [fst snd]. change (zeqb_list (lit "IHDR") (lit "IDAT")) with false.
    change (zeqb_list (lit "IDAT") (lit "IDAT")) with true. cbv iota. cbn [app concat]. rewrite !app_nil_r. by apply zlib_valid, rows_bytes.
  - unfold cs. rewrite !idats_cons. cbn [fst snd]. change (zeqb_list (lit "IHDR") (lit "IDAT")) with false.
    change (zeqb_list (lit "IDAT") (lit "IDAT")) with true. cbv iota. cbn [app]. by rewrite app_nil_r.
  - done.
  - repeat constructor. by apply screenshot_encodes.
  - done.
  - cbn [Kernel.width Kernel.height h]. change (Kernel.bits_per_pixel h) with 24. lia.
  - intros k. apply passes_cover; cbn; lia.
Qed.
End screenshot.

(** C9: a binary PPM screenshot is converted without an error, and the
    kernel decodes the result to the same pixels with an opaque alpha. *)
Theorem screenshot_decodes `{ZL : Zlib} W H px :
  0 < W <= Kernel.MAX_EDGE -> 0 < H <= Kernel.MAX_EDGE -> W * H <= Kernel.MAX_PIXELS ->
  Forall is_byte px -> zlen px = W * H * 3 ->
  exists png, Ppm.convert (ppm_file W H px) = Ret png
    /\ Kernel.decode png = Ok (W, H, concat (opaque_pixel px <$> seq 0 (Z.to_nat (W * H)))).
Proof.
  intros HW HH HWH B L. eexists. split; [by apply convert_ret | by apply screenshot_decoded].
Qed.

(** * Instances *)

(** A compressor that only stores. *)
Definition stored_zlib : Zlib := {|
  compress l _ := stored l;
  zlib_valid l _ := stored_stream l;
  zlib_bound l _ := stored_bound l
|}.

(** Numbers that count up. *)
Definition counting_random : Random := {|
  below k n := Z.of_nat k mod n;
  coin k := Nat.even k;
  below_range k n Hn := Z.mod_pos_bound (Z.of_nat k) n Hn
|}.

Lemma case_decodes_witness :
  Kernel.valid_type 3 4 = true
  /\ exists png expected k', @Maker.make_case counting_random stored_zlib 3 4 true true 0%nat = Ret ((png, expected), k')
     /\ Kernel.decode png = Ok (Maker.WIDTH, Maker.HEIGHT, expected).
Proof. split; [reflexivity|]. apply (@case_decodes counting_random stored_zlib 3 4 true true 0%nat). reflexivity. Defined.

Lemma corpus_decodes_witness :
  exists out k' entries, @Maker.corpus counting_random stored_zlib 0%nat = Ret (out, k')
    /\ out = concat (corpus_entry <$> entries) /\ length entries = length Maker.cases
    /\ Forall (fun r => Kernel.decode r.1 = Ok (Maker.WIDTH, Maker.HEIGHT, r.2)) entries.
Proof. apply (@corpus_decodes counting_random stored_zlib 0%nat). Defined.

Lemma screenshot_decodes_witness :
  exists png, @Ppm.convert stored_zlib (ppm_file 2 1 [1; 2; 3; 10; 32; 255]) = Ret png
    /\ Kernel.decode png = Ok (2, 1, [1; 2; 3; 255; 10; 32; 255; 255]).
Proof.
  apply (@screenshot_decodes stored_zlib 2 1 [1; 2; 3; 10; 32; 255]); [| | |repeat constructor|];
    unfold Kernel.MAX_EDGE, Kernel.MAX_PIXELS; done || lia.
Defined.
