(* ===== verification/PngEncode.v ===== *)
(** PngEncode: the encoder of kernel/src/png.rs, which screenshots are saved
    with.

    [Encoder] is [encode] and the checksum it calls; memory for the buffers is
    always there. The theorem puts the encoder, the compressor, the decompressor
    and the decoder together: a picture that is saved is read back. *)
From Stdlib Require Import ZArith Lia List.
From stdpp Require Import base list strings.
From S2P Require Import Prelude Text Hash Arrays Machine InflateSpec InflateBlock InflateWhole Deflate DeflateWhole Png PngDecode PngCases.
Open Scope Z_scope.

Module Encoder.
Import Kernel.

(** ** The checksum of a chunk *)

Definition crc_step (c : Z) : Z := if negb (Z.land c 1 =? 0) then Z.lxor 3988292384 (Z.shiftr c 1) else Z.shiftr c 1.
Definition crc_table : list Z := (fun n => Nat.iter 8 crc_step n) <$> pyrange 0 256.
Definition crc_byte (crc byte : Z) : result Z :=
  t ← index crc_table (Z.land (Z.lxor crc byte) 255);
  Ok (Z.lxor t (Z.shiftr crc 8)).
(** [!x] of a [u32] is [lxor x 0xffffffff]. *)
Definition crc32 (seed : Z) (data : list Z) : result Z :=
  crc ← foldK crc_byte (Z.lxor seed 4294967295) data;
  Ok (Z.lxor crc 4294967295).

(** ** Scanlines *)

(** One pixel into the row. *)
Definition pack_pixel (width channels : Z) (rgba : list Z) (y : Z) (current : list Z) (x : Z) : result (list Z) :=
  let from := (y * width + x) * 4 in
  pixel ← slice rgba from (from + channels);
  copy_into current (x * channels) (x * channels + channels) pixel.

(** One byte of the row with a filter. *)
Definition filter_byte (filter channels : Z) (current previous out : list Z) (i : Z) : result (list Z) :=
  left ← (if channels <=? i then index current (i - channels) else Ok 0);
  up ← index previous i;
  up_left ← (if channels <=? i then index previous (i - channels) else Ok 0);
  let predicted :=
    if filter =? 0 then 0
    else if filter =? 1 then left
    else if filter =? 2 then up
    else if filter =? 3 then ((left + up) / 2) mod 256
    else paeth left up up_left in
  c ← index current i;
  store out i ((c - predicted) mod 256).

(** [(b as i8).unsigned_abs()]. *)
Definition magnitude (b : Z) : Z := if b <? 128 then b else 256 - b.

(** One filter: the smallest cost so far, the lines and the scratch row. *)
Definition try_filter (y row_bytes channels : Z) (current previous : list Z) (st : Z * list Z * list Z) (filter : Z) : result (Z * list Z * list Z) :=
  let '(best, target, out) := st in
  out ← foldK (filter_byte filter channels current previous) out (pyrange 0 row_bytes);
  let cost := zsum (magnitude <$> out) in
  if cost <? best then
    let base := y * (row_bytes + 1) in
    target ← store target base filter;
    target ← copy_into target (base + 1) (base + 1 + row_bytes) out;
    Ok (cost, target, out)
  else Ok (best, target, out).

(** One line: the lines, this row, the row above and the scratch row. *)
Definition filter_line (width row_bytes channels : Z) (rgba : list Z) (st : list Z * list Z * list Z * list Z) (y : Z) : result (list Z * list Z * list Z * list Z) :=
  let '(target, current, previous, out) := st in
  current ← foldK (pack_pixel width channels rgba y) current (pyrange 0 width);
  '(_, target, out) ← foldK (try_filter y row_bytes channels current previous) (18446744073709551615, target, out) (pyrange 0 5);
  previous ← copy_into previous 0 (zlen previous) current;
  Ok (target, current, previous, out).

(** ** The file *)

(** The closure [chunk]: the file and where the next chunk goes. *)
Definition chunk (kind body : list Z) (st : list Z * Z) : result (list Z * Z) :=
  let '(out, at_) := st in
  out ← copy_into out at_ (at_ + 4) (be_bytes 4 (zlen body mod 4294967296));
  out ← copy_into out (at_ + 4) (at_ + 8) kind;
  out ← copy_into out (at_ + 8) (at_ + 8 + zlen body) body;
  seed ← crc32 0 kind;
  crc ← crc32 seed body;
  out ← copy_into out (at_ + 8 + zlen body) (at_ + 12 + zlen body) (be_bytes 4 crc);
  Ok (out, at_ + (12 + zlen body)).

(** The header, written into thirteen zeros. *)
Definition ihdr (width height : Z) (alpha : bool) : result (list Z) :=
  header ← copy_into (zeros 13) 0 4 (be_bytes 4 (width mod 4294967296));
  header ← copy_into header 4 8 (be_bytes 4 (height mod 4294967296));
  header ← store header 8 8;
  store header 9 (if alpha then 6 else 2).

(** The error of [zlib_compress] is [TooLarge]. *)
Definition compressed (filtered : list Z) : result (list Z * Z) :=
  map_err TooLarge (Deflate.Kernel.zlib_compress filtered (zeros (zlen filtered + zlen filtered / 8 + 1024))).

Definition encode (width height : Z) (rgba : list Z) (alpha : bool) : result (list Z * Z) :=
  if (width =? 0) || (height =? 0) then Err Corrupt
  else
    area ← usize (width * height);
    needed ← usize (area * 4);
    if zlen rgba <? needed then Err Corrupt
    else
      let channels := if alpha then 4 else 3 in
      row_bytes ← usize (width * channels);
      size ← usize ((row_bytes + 1) * height);
      '(filtered, _, _, _) ← foldK (filter_line width row_bytes channels rgba)
        (zeros size, zeros row_bytes, zeros row_bytes, zeros row_bytes) (pyrange 0 height);
      '(stream, n) ← compressed filtered;
      let total := 8 + (12 + 13) + (12 + n) + 12 in
      out ← copy_into (zeros total) 0 8 SIGNATURE;
      header ← ihdr width height alpha;
      body ← slice stream 0 n;
      st ← chunk (lit "IHDR") header (out, 8);
      st ← chunk (lit "IDAT") body st;
      chunk (lit "IEND") [] st.

End Encoder.

(** * The checksum by table *)

Lemma crc_step_same c : Encoder.crc_step c = Crc32.step c.
Proof.
  unfold Encoder.crc_step, Crc32.step. change 1 with (Z.ones 1) at 1. rewrite Z.land_ones by lia. change (2 ^ 1) with 2. rewrite Zmod_odd. destruct (Z.odd c); cbn [Z.eqb negb]; [apply Z.lxor_comm | by rewrite Z.lxor_0_r].
Qed.
Lemma crc_steps_same n c : Nat.iter n Encoder.crc_step c = Nat.iter n Crc32.step c.
Proof. induction n as [|n IH]; [done|]. change (Encoder.crc_step (Nat.iter n Encoder.crc_step c) = Crc32.step (Nat.iter n Crc32.step c)). by rewrite IH, crc_step_same. Qed.

Lemma odd_lxor a b : Z.odd (Z.lxor a b) = xorb (Z.odd a) (Z.odd b).
Proof. rewrite <- !Z.bit0_odd. apply Z.lxor_spec. Qed.
(** The division is linear, and gives back what is above the bits it uses. *)
Lemma crc_steps_lxor n a b : Nat.iter n Crc32.step (Z.lxor a b) = Z.lxor (Nat.iter n Crc32.step a) (Nat.iter n Crc32.step b).
Proof.
  induction n as [|n IH]; [done|]. change (Crc32.step (Nat.iter n Crc32.step (Z.lxor a b)) = Z.lxor (Crc32.step (Nat.iter n Crc32.step a)) (Crc32.step (Nat.iter n Crc32.step b))).
  rewrite IH. generalize (Nat.iter n Crc32.step a), (Nat.iter n Crc32.step b). intros x y. unfold Crc32.step. rewrite odd_lxor, Z.shiftr_lxor.
  apply Z.bits_inj'. intros i Hi. rewrite !Z.lxor_spec. destruct (Z.odd x), (Z.odd y); cbn [xorb]; rewrite ?Z.bits_0; destruct (Z.testbit (Z.shiftr x 1) i), (Z.testbit (Z.shiftr y 1) i), (Z.testbit 3988292384 i); done.
Qed.
Lemma crc_steps_high n y : Nat.iter n Crc32.step (Z.shiftl y (Z.of_nat n)) = y.
Proof.
  revert y. induction n as [|n IH]; intros y; [apply Z.shiftl_0_r|]. rewrite Nat.iter_succ_r. rewrite <- (IH y) at 2. f_equal. unfold Crc32.step.
  rewrite <- Z.bit0_odd, Z.shiftl_spec_low by lia. rewrite Z.lxor_0_r. apply Z.bits_inj'. intros i Hi. rewrite Z.shiftr_spec, !Z.shiftl_spec by lia. f_equal. lia.
Qed.
Lemma low_high x : x = Z.lxor (Z.shiftl (Z.shiftr x 8) 8) (Z.land x 255).
Proof.
  apply Z.bits_inj'. intros i Hi. change 255 with (Z.ones 8). rewrite Z.lxor_spec, Z.land_spec, Z.testbit_ones_nonneg by lia. destruct (Z.ltb_spec i 8).
  - rewrite Z.shiftl_spec_low by lia. by destruct (Z.testbit x i).
  - rewrite Z.shiftl_spec, Z.shiftr_spec by lia. rewrite andb_false_r, xorb_false_r. f_equal. lia.
Qed.

Lemma crc_byte_ok crc b : is_byte b -> Encoder.crc_byte crc b = Ok (Crc32.crc32_byte crc b).
Proof.
  intros Hb. unfold is_byte in Hb. unfold Encoder.crc_byte, Crc32.crc32_byte. set (x := Z.lxor crc b). assert (R : 0 <= Z.land x 255 < 256) by (change 255 with (Z.ones 8); rewrite Z.land_ones by lia; by apply Z.mod_pos_bound).
  assert (T : index (E := Kernel.image_error) Encoder.crc_table (Z.land x 255) = Ok (Nat.iter 8 Encoder.crc_step (Z.land x 255))).
  { unfold index. rewrite (proj2 (Z.ltb_ge _ 0)) by lia. unfold Encoder.crc_table, pyrange. rewrite !list_lookup_fmap, lookup_seq_lt by lia. cbn [fmap option_fmap option_map]. by rewrite Nat.add_0_l, Z2Nat.id, Z.add_0_l by lia. }
  rewrite T, ok_bind, crc_steps_same. f_equal. rewrite (low_high x) at 2. rewrite crc_steps_lxor, (crc_steps_high 8), Z.lxor_comm. f_equal. unfold x. rewrite Z.shiftr_lxor, (Z.shiftr_div_pow2 b) by lia. change (2 ^ 8) with 256. rewrite Z.div_small by lia. by rewrite Z.lxor_0_r.
Qed.
Lemma crc32_table seed data : Forall is_byte data -> Encoder.crc32 seed data = Ok (Z.lxor (Crc32.crc32_update (Z.lxor seed 4294967295) data) 4294967295).
Proof.
  intros F. unfold Encoder.crc32. generalize (Z.lxor seed 4294967295). intros c. assert (E : foldK Encoder.crc_byte c data = Ok (Crc32.crc32_update c data)); [|by rewrite E].
  revert c. induction F as [|b l Hb F IH]; intros c; [done|]. cbn [foldK]. rewrite crc_byte_ok, ok_bind, IH by done. done.
Qed.
Lemma crc32_chunk kind body : Forall is_byte kind -> Forall is_byte body ->
  (seed ← Encoder.crc32 0 kind; Encoder.crc32 seed body) = Ok (Crc32.crc32 (kind ++ body)).
Proof.
  intros FK FB. rewrite crc32_table, ok_bind, crc32_table by done. f_equal. unfold Crc32.crc32. rewrite crc_update_app, Z.lxor_assoc, Z.lxor_nilpotent, Z.lxor_0_r, Z.lxor_0_l. apply Z.lxor_comm.
Qed.

(** * Lines *)

Lemma assign_middle (a b v : list Z) : zlen v <= zlen b -> slice_assign (a ++ b) (zlen a) (zlen a + zlen v) v = a ++ v ++ drop (length v) b.
Proof.
  intros L. pose proof (zlen_nonneg a). pose proof (zlen_nonneg v). rewrite slice_assign_nn by (rewrite ?zlen_app; lia). unfold zlen in *. rewrite Nat2Z.id, take_app_length. do 2 f_equal.
  rewrite drop_app_ge by lia. f_equal. lia.
Qed.
Lemma copy_middle {E} (a b v : list Z) i j : zlen v <= zlen b -> i = zlen a -> j = i + zlen v -> copy_into (E := E) (a ++ b) i j v = Ok (a ++ v ++ drop (length v) b).
Proof. intros L -> ->. pose proof (zlen_nonneg a). pose proof (zlen_nonneg v). rewrite copy_into_ok by (rewrite ?zlen_app; lia). by rewrite assign_middle. Qed.
Lemma store_middle {E} (a : list Z) b l x : store (E := E) (a ++ b :: l) (zlen a) x = Ok (a ++ x :: l).
Proof.
  pose proof (zlen_nonneg a). pose proof (zlen_nonneg l). rewrite store_ok by (rewrite zlen_app, zlen_cons; lia). f_equal. unfold zset, zlen. rewrite Nat2Z.id, insert_app_r_alt by lia. by rewrite Nat.sub_diag.
Qed.

Section lines.
Context (W H : Z) (rgba : list Z) (alpha : bool).
Hypothesis HW : 0 < W <= Kernel.MAX_EDGE.
Hypothesis HH : 0 < H <= Kernel.MAX_EDGE.
Hypothesis HB : Forall is_byte rgba.
Hypothesis HL : W * H * 4 <= zlen rgba.
Context (c n : Z).
Hypothesis Hc : c = if alpha then 4 else 3.
Hypothesis Hn : n = W * c.

Lemma channel_bounds : 3 <= c <= 4.
Proof. rewrite Hc. destruct alpha; lia. Qed.

(** Row [y] of the picture: the first channels of its pixels. *)
Definition packed_pixel (y x : Z) : list Z := pyslice rgba ((y * W + x) * 4) ((y * W + x) * 4 + c).
Definition packed (y k : Z) : list Z := concat (packed_pixel y <$> pyrange 0 k).

Lemma pixel_inside y x : 0 <= y < H -> 0 <= x < W -> 0 <= (y * W + x) * 4 /\ (y * W + x) * 4 + 4 <= zlen rgba.
Proof. intros Hy Hx. split; [nia|]. assert (y * W + x + 1 <= W * H) by nia. lia. Qed.
Lemma zlen_packed_pixel y x : 0 <= y < H -> 0 <= x < W -> zlen (packed_pixel y x) = c.
Proof. intros Hy Hx. destruct (pixel_inside y x Hy Hx). pose proof channel_bounds. unfold packed_pixel. rewrite zlen_pyslice by lia. lia. Qed.
Lemma packed_snoc y k : 0 <= k -> packed y (k + 1) = packed y k ++ packed_pixel y k.
Proof. intros Hk. unfold packed. rewrite (pyrange_app 0 k (k + 1)) by lia. rewrite (pyrange_cons k), (pyrange_nil (k + 1)) by lia. rewrite fmap_app, concat_app. cbn [fmap list_fmap concat]. by rewrite app_nil_r. Qed.
Lemma zlen_packed y k : 0 <= y < H -> 0 <= k <= W -> zlen (packed y k) = k * c.
Proof.
  intros Hy Hk. unfold packed, zlen. pose proof channel_bounds. rewrite (length_concat_uniform _ (Z.to_nat c)); [rewrite length_fmap; pose proof (zlen_pyrange 0 k ltac:(lia)) as E; unfold zlen in E; nia|].
  apply Forall_fmap, Forall_forall. intros x Hx%elem_of_pyrange. pose proof (zlen_packed_pixel y x Hy ltac:(lia)) as E. unfold zlen, compose in *. lia.
Qed.
Lemma packed_bytes y : 0 <= y < H -> Forall is_byte (packed y W).
Proof.
  intros Hy. apply Forall_concat, Forall_fmap, Forall_forall. intros x Hx%elem_of_pyrange. destruct (pixel_inside y x Hy ltac:(lia)). pose proof channel_bounds. unfold compose, packed_pixel. rewrite pyslice_nn by lia. by apply Forall_take, Forall_drop.
Qed.

Lemma row_packed y current : 0 <= y < H -> zlen current = n -> foldK (Encoder.pack_pixel W c rgba y) current (pyrange 0 W) = Ok (packed y W).
Proof.
  intros Hy HC. pose proof channel_bounds. destruct (foldK_range (fun x cur => exists rest, cur = packed y x ++ rest /\ zlen rest = n - x * c) (Encoder.pack_pixel W c rgba y) 0 W current) as (cur & E & rest & -> & LR).
  - lia.
  - exists current. split; [done | lia].
  - intros x cur Hx (rest & -> & LR). destruct (pixel_inside y x Hy Hx). unfold Encoder.pack_pixel. rewrite slice_ok, ok_bind by lia. fold (packed_pixel y x).
    pose proof (zlen_packed_pixel y x Hy Hx) as LP. assert (LN : c <= n - x * c) by nia. rewrite copy_middle by (rewrite ?LP, ?zlen_packed by lia; lia). eexists. split; [done|]. exists (drop (length (packed_pixel y x)) rest).
    rewrite packed_snoc, app_assoc by lia. split; [done|]. unfold zlen in *. rewrite length_drop. lia.
  - rewrite E. destruct rest; [by rewrite app_nil_r|]. rewrite zlen_cons in LR. pose proof (zlen_nonneg rest). lia.
Qed.

(** A filter on a row. *)
Lemma filter_applied kind row previous out : 0 <= kind <= 4 -> zlen row = n -> zlen previous = n -> zlen out = n ->
  foldK (Encoder.filter_byte kind c row previous) out (pyrange 0 n) = Ok (filtered kind c row previous).
Proof.
  intros Hk LR LP LO. pose proof channel_bounds. assert (N0 : 0 <= n) by nia. destruct (foldK_range (fun i o => zlen o = n /\ forall j, 0 <= j < i -> zat o j = zat (filtered kind c row previous) j) (Encoder.filter_byte kind c row previous) 0 n out) as (o & -> & LO' & AT).
  - done.
  - split; [done|]. lia.
  - intros i o Hi [Lo AT]. unfold Encoder.filter_byte.
    assert (BK : forall l, zlen l = n -> (if c <=? i then index (E := Kernel.image_error) l (i - c) else Ok 0) = Ok (if c <=? i then zat l (i - c) else 0)) by (intros l Ll; destruct (Z.leb_spec c i); [apply index_ok; lia | done]).
    rewrite (BK row LR), ok_bind, (index_ok previous i), ok_bind, (BK previous LP), ok_bind, (index_ok row i), ok_bind, store_ok by lia. eexists. split; [done|]. split; [by rewrite zlen_zset|]. intros j Hj. rewrite zat_zset by lia.
    destruct (Z.eqb_spec j i) as [->|]; [|apply AT; lia]. change (zat (filtered kind c row previous) i) with (Kernel.at_ (filtered kind c row previous) i). rewrite at_filtered by lia. change Kernel.at_ with zat.
    unfold row_prediction, Maker.predicted. change Kernel.at_ with zat. destruct (kind =? 0); [done|]. destruct (kind =? 1); [done|]. destruct (kind =? 2); [done|]. destruct (kind =? 3); [by rewrite Zminus_mod_idemp_r | done].
  - f_equal. apply zat_ext; [by rewrite zlen_filtered, LO'|]. intros j Hj. apply AT. lia.
Qed.

Lemma magnitudes_small l : Forall is_byte l -> 0 <= zsum (Encoder.magnitude <$> l) <= 128 * zlen l.
Proof.
  induction 1 as [|b l Hb F IH]; [done|]. cbn [fmap list_fmap]. rewrite zsum_cons, zlen_cons. unfold is_byte in Hb. unfold Encoder.magnitude at 1 3. destruct (Z.ltb_spec b 128); lia.
Qed.
Lemma filtered_bytes kind row previous : Forall is_byte (filtered kind c row previous).
Proof. apply Forall_fmap, Forall_forall. intros i _. unfold compose, is_byte. pose proof (Z.mod_pos_bound (Kernel.at_ row i - row_prediction kind c row previous i) 256 ltac:(lia)). lia. Qed.

(** One of the filters is taken. *)
Lemma filter_taken y lines rest row previous out : zlen lines = y * (n + 1) -> n + 1 <= zlen rest -> zlen row = n -> zlen previous = n -> zlen out = n ->
  exists kind best out', 0 <= kind <= 4 /\ zlen out' = n
    /\ foldK (Encoder.try_filter y n c row previous) (18446744073709551615, lines ++ rest, out) (pyrange 0 5)
       = Ok (best, lines ++ (kind :: filtered kind c row previous) ++ drop (Z.to_nat (n + 1)) rest, out').
Proof.
  intros LL LR Lr Lp Lo. pose proof channel_bounds. assert (N0 : 0 <= n) by nia. assert (N1 : n <= 65536) by (unfold Kernel.MAX_EDGE in *; nia).
  set (P := fun f (st : Z * list Z * list Z) => zlen st.2 = n /\ exists rest', st.1.2 = lines ++ rest' /\ zlen rest' = zlen rest /\ drop (Z.to_nat (n + 1)) rest' = drop (Z.to_nat (n + 1)) rest
     /\ (f = 0 /\ st.1.1 = 18446744073709551615 \/ exists kind, 0 <= kind <= 4 /\ firstn (Z.to_nat (n + 1)) rest' = kind :: filtered kind c row previous)).
  destruct (foldK_range P (Encoder.try_filter y n c row previous) 0 5 (18446744073709551615, lines ++ rest, out)) as ([[best target] out'] & E & Lo' & rest' & ET & LR' & DR & [[? _]|(kind & Hk & FT)]); [lia | | |lia|].
  - split; [done|]. exists rest. repeat split; (done || (left; done)).
  - intros f [[best target] o] Hf (Lo' & rest' & ET & LR' & DR & ST). cbn [fst snd] in *. subst target. unfold Encoder.try_filter. rewrite filter_applied, ok_bind by (done || lia). pose proof (magnitudes_small _ (filtered_bytes f row previous)) as MS. rewrite zlen_filtered in MS.
    destruct (Z.ltb_spec (zsum (Encoder.magnitude <$> filtered f c row previous)) best) as [HC|HC].
    + destruct rest' as [|b rest']; [change (zlen (@nil Z)) with 0 in LR'; lia|]. rewrite <- LL, store_middle, ok_bind. rewrite zlen_cons in LR'. change (f :: rest') with ([f] ++ rest'). rewrite app_assoc. rewrite copy_middle, ok_bind by (rewrite ?zlen_app, ?zlen_filtered, ?Lr; change (zlen [f]) with 1; lia).
      eexists. split; [done|]. split; [cbn [fst snd]; by rewrite zlen_filtered|]. exists (f :: filtered f c row previous ++ drop (length (filtered f c row previous)) rest'). pose proof (zlen_filtered f c row previous) as LF. rewrite Lr in LF. unfold zlen in LF.
      replace (Z.to_nat (n + 1)) with (S (length (filtered f c row previous))) in * by lia. cbn [fst snd]. rewrite <- app_assoc. split; [done|]. split; [rewrite zlen_cons; unfold zlen in *; rewrite length_app, length_drop; lia|]. split.
      * cbn [drop skipn] in *. rewrite <- DR. cbn [drop skipn]. apply drop_app_length.
      * right. exists f. split; [lia|]. cbn [firstn]. by rewrite take_app_length.
    + eexists. split; [done|]. split; [cbn [fst snd]; by rewrite zlen_filtered|]. exists rest'. cbn [fst snd]. repeat split; [done..|]. right. destruct ST as [[_ ->]|ST]; [lia | done].
  - exists kind, best, out'. split; [done|]. split; [done|]. rewrite E. cbn [fst snd] in ET. rewrite ET. by rewrite <- FT, <- DR, take_drop.
Qed.

(** All lines. *)
Lemma lines_filtered : exists lines,
  (exists cur prev out, foldK (Encoder.filter_line W n c rgba) (zeros ((n + 1) * H), zeros n, zeros n, zeros n) (pyrange 0 H) = Ok (encode_lines c (zeros n) lines, cur, prev, out))
  /\ lines.*2 = (fun y => packed y W) <$> pyrange 0 H /\ Forall (good_line n) lines /\ zlen (encode_lines c (zeros n) lines) = (n + 1) * H.
Proof.
  pose proof channel_bounds. assert (N0 : 0 <= n) by nia.
  set (P := fun y (st : list Z * list Z * list Z * list Z) => exists lines rest, st.1.1.1 = encode_lines c (zeros n) lines ++ rest /\ zlen rest = (n + 1) * (H - y) /\ zlen (encode_lines c (zeros n) lines) = y * (n + 1)
     /\ lines.*2 = (fun y => packed y W) <$> pyrange 0 y /\ Forall (good_line n) lines /\ st.1.2 = default (zeros n) (last (lines.*2)) /\ zlen st.1.1.2 = n /\ zlen st.1.2 = n /\ zlen st.2 = n).
  destruct (foldK_range P (Encoder.filter_line W n c rgba) 0 H (zeros ((n + 1) * H), zeros n, zeros n, zeros n)) as ([[[target cur] prev] out] & E & lines & rest & ET & LR & LL & EL & GL & _).
  - lia.
  - exists [], (zeros ((n + 1) * H)). cbn [fst snd encode_lines]. rewrite !zlen_zeros by nia. repeat split; try (done || lia); constructor.
  - intros y [[[target cur] prev] out] Hy (lines & rest & ET & LR & LL & EL & GL & EP & LC & LP & LO). cbn [fst snd] in *. unfold Encoder.filter_line. rewrite row_packed, ok_bind by done.
    assert (LW : zlen (packed y W) = n) by (rewrite zlen_packed by lia; lia). destruct (filter_taken y (encode_lines c (zeros n) lines) rest (packed y W) prev out LL ltac:(nia) LW LP LO) as (kind & best & out' & Hk & LO' & EF).
    rewrite ET, EF, ok_bind. rewrite copy_into_ok, ok_bind by lia. eexists. split; [done|]. exists (lines ++ [(kind, packed y W)]), (drop (Z.to_nat (n + 1)) rest). cbn [fst snd].
    assert (PV : slice_assign prev 0 (zlen prev) (packed y W) = packed y W) by (rewrite slice_assign_nn by lia; cbn [Z.to_nat]; rewrite take_0, drop_ge by (unfold zlen; lia); by rewrite app_nil_r).
    rewrite encode_lines_snoc, <- EP. rewrite PV. rewrite <- app_assoc. split; [done|]. split; [unfold zlen in *; rewrite length_drop; nia|]. split; [rewrite zlen_app, zlen_cons, zlen_filtered; lia|].
    split; [rewrite fmap_app, EL, (pyrange_app 0 y (y + 1)), (pyrange_cons y), (pyrange_nil (y + 1)) by lia; by rewrite fmap_app|]. split; [apply Forall_app; split; [done|]; constructor; [|constructor]; repeat split; cbn [fst snd]; try (done || lia); by apply packed_bytes|].
    split; [rewrite fmap_app; cbn [fmap list_fmap snd]; by rewrite last_snoc|]. done.
  - exists lines. cbn [fst snd] in ET. assert (rest = []) as -> by (apply nil_length_inv; unfold zlen in LR; lia). rewrite app_nil_r in ET. subst target. split; [by exists cur, prev, out|]. repeat split; (done || lia).
Qed.
End lines.

(** * The file *)

Lemma drop_drops (l : list Z) a b : drop a (drop b l) = drop (b + a) l.
Proof. by rewrite drop_drop. Qed.
Lemma length_be4 x : length (be_bytes 4 x) = 4%nat.
Proof. pose proof (zlen_be_bytes 4 x) as E. unfold zlen in E. lia. Qed.

Lemma chunk_written kind body a rest : Forall is_byte kind -> Forall is_byte body -> zlen kind = 4 -> zlen body < 2 ^ 32 -> 12 + zlen body <= zlen rest ->
  Encoder.chunk kind body (a ++ rest, zlen a) = Ok ((a ++ chunk_bytes (kind, body)) ++ drop (12 + length body) rest, zlen (a ++ chunk_bytes (kind, body))).
Proof.
  intros FK FB LK LB LR. pose proof (zlen_nonneg body). assert (EC : be_bytes 4 (Crc32.crc32 (kind ++ body)) = be_bytes 4 (Z.land (Crc32.crc32 (kind ++ body)) 4294967295)).
  { change 4294967295 with (Z.ones 32). rewrite Z.land_ones, Z.mod_small by (lia || (apply crc32_bound, Forall_app; done)). done. }
  pose proof (crc32_chunk kind body FK FB) as CR. unfold Encoder.chunk. rewrite Z.mod_small by lia.
  rewrite copy_middle, ok_bind by (rewrite ?zlen_be_bytes; lia). rewrite app_assoc, copy_middle, ok_bind by (rewrite ?zlen_app, ?zlen_be_bytes; unfold zlen in *; rewrite ?length_drop, ?length_be4; lia).
  rewrite app_assoc, copy_middle, ok_bind by (rewrite ?zlen_app, ?zlen_be_bytes; unfold zlen in *; rewrite ?length_drop, ?length_be4; lia).
  destruct (Encoder.crc32 0 kind) as [seed|e| |]; cbn [mbind outcome_bind] in *; [|done..]. destruct (Encoder.crc32 seed body) as [crc|e| |]; [|done..]. injection CR as ->. cbn [mbind outcome_bind].
  rewrite app_assoc, copy_middle by (rewrite ?zlen_app, ?zlen_be_bytes; unfold zlen in *; rewrite ?length_drop, ?length_be4; lia). rewrite EC. unfold chunk_bytes. cbn [fst snd mbind outcome_bind]. rewrite !drop_drops, !length_be4, <- !app_assoc. f_equal. f_equal.
  - replace (4 + (length kind + (length body + 4)))%nat with (12 + length body)%nat by (unfold zlen in LK; lia). done.
  - rewrite !zlen_app, !zlen_be_bytes. lia.
Qed.

Lemma ihdr_written W H alpha : 0 <= W < 4294967296 -> 0 <= H < 4294967296 -> Encoder.ihdr W H alpha = Ok (be_bytes 4 W ++ be_bytes 4 H ++ [8; if alpha then 6 else 2; 0; 0; 0]).
Proof.
  intros HW HH. unfold Encoder.ihdr. rewrite !Z.mod_small by done. change (zeros 13) with ([] ++ zeros 13). rewrite copy_middle, ok_bind by (rewrite ?zlen_be_bytes; done). rewrite length_be4. cbn [app].
  rewrite copy_middle, ok_bind by (rewrite ?zlen_be_bytes; done). rewrite length_be4. change (drop 4 (drop 4 (zeros 13))) with [0; 0; 0; 0; 0].
  assert (L8 : zlen (be_bytes 4 W ++ be_bytes 4 H) = 8) by (by rewrite zlen_app, !zlen_be_bytes). rewrite app_assoc. rewrite <- L8 at 1. rewrite store_middle, ok_bind.
  change (8 :: [0; 0; 0; 0]) with ([8] ++ [0; 0; 0; 0]). rewrite app_assoc. assert (L9 : zlen ((be_bytes 4 W ++ be_bytes 4 H) ++ [8]) = 9) by (by rewrite zlen_app, L8). rewrite <- L9 at 1. rewrite store_middle. by rewrite <- !app_assoc.
Qed.

Lemma three_chunks hd body rest : Forall is_byte hd -> Forall is_byte body -> zlen hd < 2 ^ 32 -> zlen body < 2 ^ 32 -> zlen rest = 36 + zlen hd + zlen body ->
  (st ← Encoder.chunk (lit "IHDR") hd (SIGNATURE ++ rest, 8); st ← Encoder.chunk (lit "IDAT") body st; Encoder.chunk (lit "IEND") [] st)
  = Ok (SIGNATURE ++ concat (chunk_bytes <$> [(lit "IHDR", hd); (lit "IDAT", body)]) ++ chunk_bytes (lit "IEND", []), zlen (SIGNATURE ++ concat (chunk_bytes <$> [(lit "IHDR", hd); (lit "IDAT", body)]) ++ chunk_bytes (lit "IEND", []))).
Proof.
  intros FH FB LH LB LR. pose proof (zlen_nonneg hd). pose proof (zlen_nonneg body). change 8 with (zlen SIGNATURE) at 1.
  assert (K : Forall is_byte (lit "IHDR") /\ Forall is_byte (lit "IDAT") /\ Forall is_byte (lit "IEND")) by (repeat split; repeat constructor; unfold is_byte; lia). destruct K as (K1 & K2 & K3).
  rewrite chunk_written, ok_bind by (done || lia). rewrite chunk_written, ok_bind by (done || (unfold zlen in *; rewrite ?length_drop; lia)). rewrite chunk_written by (done || (unfold zlen in *; rewrite ?length_drop; cbn [length]; lia)).
  rewrite !drop_drops. rewrite drop_ge by (unfold zlen in *; cbn [length]; lia). rewrite app_nil_r. cbn [fmap list_fmap concat]. by rewrite app_nil_r, <- !app_assoc.
Qed.

(** * A picture, saved and read back *)

Section picture.
Context (W H : Z) (rgba : list Z) (alpha : bool).
Hypothesis HW : 0 < W <= Kernel.MAX_EDGE.
Hypothesis HH : 0 < H <= Kernel.MAX_EDGE.
Hypothesis HWH : W * H <= Kernel.MAX_PIXELS.
Hypothesis HB : Forall is_byte rgba.
Hypothesis HL : W * H * 4 <= zlen rgba.
#[warnings="-notation-for-abbreviation"] Local Notation c := (if alpha then 4 else 3).
#[warnings="-notation-for-abbreviation"] Local Notation h := (Kernel.Header W H 8 (if alpha then 6 else 2) false).
#[warnings="-notation-for-abbreviation"] Local Notation line := (fun y => packed W rgba c y W).

(** Pixel [k]; without [alpha] it is opaque. *)
Definition saved_pixel (k : nat) : list Z :=
  let i := 4 * Z.of_nat k in [zat rgba i; zat rgba (i + 1); zat rgba (i + 2); if alpha then zat rgba (i + 3) else 255].

Lemma zat_packed y x j : 0 <= y < H -> 0 <= x < W -> 0 <= j < c -> zat (line y) (x * c + j) = zat rgba ((y * W + x) * 4 + j).
Proof.
  intros Hy Hx Hj. assert (C : 3 <= c <= 4) by (destruct alpha; lia). destruct (pixel_inside W H rgba HW HL y x Hy Hx) as [P1 P2]. unfold zat at 1. replace (Z.to_nat (x * c + j)) with (Z.to_nat x * Z.to_nat c + Z.to_nat j)%nat by nia. unfold packed.
  rewrite (concat_uniform _ (Z.to_nat c) (Z.to_nat x) (Z.to_nat j) (packed_pixel W rgba c y x)); [| | |lia].
  - unfold packed_pixel. rewrite pyslice_nn by lia. rewrite lookup_take_lt, lookup_drop by lia. unfold zat. do 2 f_equal. lia.
  - apply Forall_fmap, Forall_forall. intros x' Hx'%elem_of_pyrange. pose proof (zlen_packed_pixel W H rgba alpha HW HL c eq_refl y x' Hy ltac:(lia)) as E. unfold compose, zlen in *. lia.
  - unfold pyrange. rewrite !list_lookup_fmap, lookup_seq_lt by lia. cbn. do 2 f_equal. lia.
Qed.

Lemma picture_pixel st y x : Kernel.transparent st = None -> 0 <= y < H -> 0 <= x < W ->
  Kernel.pixel_rgba h (line y) x (Kernel.palette st) (Kernel.palette_len st) (Kernel.transparent st) = saved_pixel (Z.to_nat (y * W + x)).
Proof.
  intros ET Hy Hx. assert (AB : forall i, zat rgba i mod 256 = zat rgba i) by (intros i; apply Z.mod_small; apply (at_byte [] []); done). assert (K0 : Z.of_nat (Z.to_nat (y * W + x)) = y * W + x) by nia.
  pose proof (fun j => zat_packed y x j Hy Hx) as P. unfold saved_pixel, Kernel.pixel_rgba, Kernel.sample, Kernel.to8. cbn [Kernel.depth Kernel.color Z.eqb Pos.eqb]. unfold Kernel.channels. cbn [Kernel.color]. change Kernel.at_ with zat. rewrite ET, K0, (Z.mul_comm 4).
  destruct alpha; cbn [Z.eqb Pos.eqb orb]; rewrite !P, !AB by lia; by rewrite Z.add_0_r.
Qed.

Lemma picture_bits : Kernel.bits_per_pixel h = c * 8.
Proof. unfold Kernel.bits_per_pixel, Kernel.channels. cbn [Kernel.color Kernel.depth]. by destruct alpha. Qed.
Lemma picture_row_bytes w : Kernel.div_ceil (w * Kernel.bits_per_pixel h) 8 = w * c.
Proof. rewrite picture_bits. unfold Kernel.div_ceil. replace (w * (c * 8) + 8 - 1) with (7 + w * c * 8) by lia. rewrite Z.div_add by lia. done. Qed.
Lemma picture_bpp : Z.max (Kernel.div_ceil (Kernel.bits_per_pixel h) 8) 1 = c.
Proof. pose proof (picture_row_bytes 1) as E. rewrite !Z.mul_1_l in E. rewrite E. destruct alpha; lia. Qed.

Lemma picture_encodes st lines : Kernel.transparent st = None -> lines.*2 = line <$> pyrange 0 H -> Forall (good_line (W * c)) lines ->
  encodes h st saved_pixel (0, 0, 1, 1) (encode_lines c (zeros (W * c)) lines).
Proof.
  intros ET EL GL. assert (PS : Kernel.pass_size h (0, 0, 1, 1) = (W, H)) by (unfold Kernel.pass_size, Kernel.div_ceil; cbn [Kernel.width Kernel.height]; rewrite !Z.div_1_r; f_equal; lia). unfold encodes. rewrite PS.
  rewrite (proj2 (Z.eqb_neq W 0)), (proj2 (Z.eqb_neq H 0)) by lia. cbn [orb]. rewrite picture_row_bytes, picture_bpp. exists lines. split; [done|]. assert (LL : zlen lines = H) by (rewrite <- (zlen_fmap snd), EL, zlen_fmap, zlen_pyrange by lia; lia). split; [done|]. split; [done|].
  intros j kr x Hj Hx. assert (R : lines.*2 !! j = Some kr.2) by (by rewrite list_lookup_fmap, Hj). pose proof (lookup_lt_Some _ _ _ Hj). unfold zlen in LL. rewrite EL in R. unfold pyrange in R. rewrite !list_lookup_fmap, lookup_seq_lt in R by lia. cbn in R. injection R as <-.
  rewrite picture_pixel by (done || lia). unfold pixel_index. cbn [Kernel.width]. do 2 f_equal. lia.
Qed.

Lemma picture_compressed data : Forall is_byte data -> zlen data <= 300000000 ->
  exists stream m, Encoder.compressed data = Ok (stream, m) /\ 0 <= m <= zlen stream /\ m < 2 ^ 32 /\ zlib_stream (pyslice stream 0 m) data.
Proof.
  intros FB L. pose proof (zlen_nonneg data). pose proof (Z.div_mod (zlen data) 8 ltac:(lia)). pose proof (Z.mod_pos_bound (zlen data) 8 ltac:(lia)). unfold Encoder.compressed. set (cap := zlen data + zlen data / 8 + 1024).
  assert (LZ : zlen (zeros cap) = cap) by (apply zlen_zeros; lia). pose proof (zlib_compress_stream data (zeros cap) FB ltac:(lia)) as Z. rewrite LZ in Z. destruct (Deflate.Kernel.zlib_compress data (zeros cap)) as [[o m]|e| |]; [|lia | done..].
  destruct Z as (E1 & E2 & E3). exists o, m. split; [done|]. split; [lia|]. split; [lia|]. by rewrite pyslice_nn, drop_0, Z.sub_0_r by lia.
Qed.

#[warnings="-notation-for-abbreviation"] Local Notation cs stream := [(lit "IHDR", be_bytes 4 W ++ be_bytes 4 H ++ [8; if alpha then 6 else 2; 0; 0; 0]); (lit "IDAT", stream)].
#[warnings="-notation-for-abbreviation"] Local Notation file stream := (SIGNATURE ++ concat (chunk_bytes <$> cs stream) ++ chunk_bytes (lit "IEND", [])).

Lemma picture_file : exists lines stream, Encoder.encode W H rgba alpha = Ok (file stream, zlen (file stream)) /\ zlen stream < 2 ^ 32
  /\ zlib_stream stream (encode_lines c (zeros (W * c)) lines) /\ lines.*2 = line <$> pyrange 0 H /\ Forall (good_line (W * c)) lines.
Proof.
  assert (C : 3 <= c <= 4) by (destruct alpha; lia). unfold Kernel.MAX_EDGE, Kernel.MAX_PIXELS in *.
  destruct (lines_filtered W H rgba alpha HW HH HB HL c (W * c) eq_refl eq_refl) as (lines & (cur & prev & out & EF) & EL & GL & LL). set (data := encode_lines c (zeros (W * c)) lines) in *.
  assert (FD : Forall is_byte data) by (destruct (raw_size_sum h [data] Kernel.scan0 saved_pixel) as [_ FD]; [repeat constructor; by apply picture_encodes | apply passes_good | cbn [concat] in FD; by rewrite app_nil_r in FD]).
  assert (HC : W * H * c <= W * H * 4) by (apply Z.mul_le_mono_nonneg_l; nia). assert (LD : (W * c + 1) * H <= 300000000) by (replace ((W * c + 1) * H) with (W * H * c + H) by ring; lia). assert (D0 : 0 <= W * c) by nia.
  destruct (picture_compressed data FD ltac:(lia)) as (o & m & EC & Hm & Hm2 & ZS). assert (LS : zlen (pyslice o 0 m) = m) by (rewrite zlen_pyslice by lia; lia). exists lines, (pyslice o 0 m). split; [|rewrite LS; done].
  unfold Encoder.encode. rewrite (proj2 (Z.eqb_neq W 0)), (proj2 (Z.eqb_neq H 0)) by lia. cbn [orb]. unfold usize.
  rewrite (checked_ok _ _ (W * H)), ok_bind, (checked_ok _ _ (W * H * 4)), ok_bind by lia. rewrite (proj2 (Z.ltb_ge (zlen rgba) (W * H * 4))) by lia. rewrite (checked_ok _ _ (W * c)), ok_bind, (checked_ok _ _ ((W * c + 1) * H)), ok_bind by nia.
  rewrite EF, ok_bind, EC, ok_bind. set (total := 8 + (12 + 13) + (12 + m) + 12). change (zeros total) with ([] ++ zeros total). assert (ZT : zlen (zeros total) = total) by (apply zlen_zeros; lia).
  rewrite copy_middle, ok_bind by (change (zlen SIGNATURE) with 8; rewrite ?ZT; (done || lia)). rewrite ihdr_written, ok_bind, slice_ok, ok_bind by lia. cbn [app]. change (length SIGNATURE) with 8%nat.
  apply three_chunks.
  - rewrite !Forall_app. split_and!; [apply be_bytes_bytes..|]. destruct alpha; repeat constructor; unfold is_byte; lia.
  - apply (zs_bytes _ _ ZS).
  - by rewrite !zlen_app, !zlen_be_bytes.
  - by rewrite LS.
  - rewrite LS, !zlen_app, !zlen_be_bytes. change (zlen [8; if alpha then 6 else 2; 0; 0; 0]) with 5. unfold total, zlen in *. rewrite length_drop. lia.
Qed.

Lemma picture_decoded lines stream : zlen stream < 2 ^ 32 -> zlib_stream stream (encode_lines c (zeros (W * c)) lines) -> lines.*2 = line <$> pyrange 0 H -> Forall (good_line (W * c)) lines ->
  Kernel.decode (file stream) = Ok (W, H, concat (saved_pixel <$> seq 0 (Z.to_nat (W * H)))).
Proof.
  intros LS ZS EL GL. set (st := Kernel.Scan (Some h) (replicate 256 [0; 0; 0; 255]) 0 None (zlen stream)).
  assert (EI : idats (cs stream) = stream) by (rewrite !idats_cons; cbn [fst snd]; change (zeqb_list (lit "IHDR") (lit "IDAT")) with false; change (zeqb_list (lit "IDAT") (lit "IDAT")) with true; cbv iota; apply app_nil_r).
  rewrite (decode_file h st saved_pixel (cs stream) [encode_lines c (zeros (W * c)) lines]); cbn [Kernel.width Kernel.height].
  - done.
  - repeat constructor; try done; cbn [fst snd]; try lia.
  - cbn [foldK fst snd]. assert (E : Kernel.scan_chunk Kernel.scan0 (lit "IHDR") (be_bytes 4 W ++ be_bytes 4 H ++ [8; if alpha then 6 else 2; 0; 0; 0]) = Ok (Kernel.Scan (Some h) (replicate 256 [0; 0; 0; 255]) 0 None 0)).
    { unfold Kernel.scan_chunk. change (zeqb_list (lit "IHDR") (lit "IHDR")) with true. cbv iota. pose proof (parse_ihdr_ok h) as P. cbn [Kernel.width Kernel.height Kernel.depth Kernel.color Kernel.interlaced] in P. rewrite P by (done || (by destruct alpha)). done. }
    rewrite E. done.
  - done.
  - rewrite EI. cbn [concat]. by rewrite app_nil_r.
  - by rewrite EI.
  - cbn [Kernel.color]. by destruct alpha.
  - repeat constructor. by apply picture_encodes.
  - done.
  - rewrite picture_bits. destruct alpha; lia.
  - intros k. apply passes_cover; cbn; lia.
Qed.
End picture.

Lemma pyslice_four (l : list Z) i : 0 <= i -> i + 4 <= zlen l -> pyslice l i (i + 4) = [zat l i; zat l (i + 1); zat l (i + 2); zat l (i + 3)].
Proof.
  intros I0 HL. apply zat_ext; [rewrite zlen_pyslice by lia; change (zlen [_; _; _; _]) with 4; lia|]. rewrite zlen_pyslice by lia. intros j Hj. unfold zat at 1. rewrite pyslice_nn by lia. rewrite lookup_take_lt, lookup_drop by lia.
  assert (j = 0 \/ j = 1 \/ j = 2 \/ j = 3) as [-> | [-> | [-> | ->]]] by lia; unfold zat; rewrite <- Z2Nat.inj_add, ?Z.add_0_r by lia; done.
Qed.
Lemma saved_all rgba n : 4 * Z.of_nat n <= zlen rgba -> concat (saved_pixel rgba true <$> seq 0 n) = pyslice rgba 0 (4 * Z.of_nat n).
Proof.
  induction n as [|n IH]; intros HL; [cbn; by rewrite pyslice_empty by lia|]. rewrite seq_S, fmap_app, concat_app, IH by lia. replace (4 * Z.of_nat (S n)) with (4 * Z.of_nat n + 4) in * by lia.
  rewrite (pyslice_split rgba 0 (4 * Z.of_nat n) (4 * Z.of_nat n + 4)) by lia. f_equal. cbn [fmap list_fmap concat]. rewrite app_nil_r, pyslice_four by lia. done.
Qed.

(** C6: A picture within the kernel's limits is encoded without an error or a
    panic into a file that the kernel decodes to the same pixels: to the same
    bytes with [alpha], and opaque without. *)
Theorem encode_decodes W H rgba alpha :
  0 < W <= Kernel.MAX_EDGE -> 0 < H <= Kernel.MAX_EDGE -> W * H <= Kernel.MAX_PIXELS ->
  Forall is_byte rgba -> W * H * 4 <= zlen rgba ->
  exists file, Encoder.encode W H rgba alpha = Ok (file, zlen file)
    /\ Kernel.decode file = Ok (W, H, concat (saved_pixel rgba alpha <$> seq 0 (Z.to_nat (W * H))))
    /\ (alpha = true -> concat (saved_pixel rgba alpha <$> seq 0 (Z.to_nat (W * H))) = pyslice rgba 0 (W * H * 4)).
Proof.
  intros HW HH HWH HB HL. destruct (picture_file W H rgba alpha HW HH HWH HB HL) as (lines & stream & E & LS & ZS & EL & GL). eexists. split; [exact E|]. split; [by apply (picture_decoded W H rgba alpha HW HH HWH HB HL lines)|].
  intros ->. replace (W * H * 4) with (4 * Z.of_nat (Z.to_nat (W * H))) in * by nia. by apply saved_all.
Qed.

Lemma encode_decodes_witness : exists file, Encoder.encode 3 2 (pyrange 10 34) true = Ok (file, zlen file) /\ Kernel.decode file = Ok (3, 2, pyrange 10 34).
Proof.
  destruct (encode_decodes 3 2 (pyrange 10 34) true) as (file & E & D & A); [unfold Kernel.MAX_EDGE; lia | unfold Kernel.MAX_EDGE; lia | unfold Kernel.MAX_PIXELS; lia | repeat (constructor; [unfold is_byte; lia|]); constructor | discriminate|].
  exists file. split; [exact E|]. rewrite D. reflexivity.
Defined.
