(* ===== verification/Dates.v ===== *)
(** Dates: the calendar half of the runtime's _pydatetime.py.

    The day count functions, [Timedelta] (class timedelta on integer
    arguments; a float argument enters only as the integer ratio
    [as_integer_ratio] gives) and [Date] (class date).  Every [assert] of the
    source is kept as a check that can fail, and the theorems show which
    calls return. *)
From Stdlib Require Import ZArith Lia List.
From stdpp Require Import base list strings.
From S2P Require Import Prelude Text.
Open Scope Z_scope.

(** * Python's integers and formats *)

Definition b2z (b : bool) : Z := if b then 1 else 0.

Lemma b2z_range b : 0 <= b2z b <= 1.
Proof. destruct b; unfold b2z; lia. Qed.

(** [divmod(a, b)]: floors, and the remainder has the sign of [b]. *)
Definition pydivmod (a b : Z) : py (Z * Z) :=
  if b =? 0 then Raise ZeroDivisionError else Ret (a / b, a mod b).

(** ["%wd" % n]. *)
Definition fmt_sp (w : nat) (n : Z) : list Z := pad_left 32 w (fmt_int n).

(** [_cmp] on tuples. *)
Fixpoint cmp_tuple (x y : list Z) : Z :=
  match x, y with
  | a :: x, b :: y => if a =? b then cmp_tuple x y else if a >? b then 1 else -1
  | [], [] => 0
  | _ :: _, [] => 1
  | [], _ :: _ => -1
  end.

(** [try: m  except Exception: raise ValueError]. *)
Definition or_value_error {A} (m : py A) : py A :=
  match m with
  | Raise (SystemExit s) => Raise (SystemExit s)
  | Raise _ => Raise ValueError
  | _ => m
  end.

(** * Days *)

Definition MINYEAR : Z := 1.
Definition MAXYEAR : Z := 9999.
Definition MAXORDINAL : Z := 3652059.

Definition DAYS_IN_MONTH : list Z := [-1; 31; 28; 31; 30; 31; 30; 31; 31; 30; 31; 30; 31].
Definition DAYS_BEFORE_MONTH : list Z :=
  (foldl (fun '(days, dbm) dim => (days ++ [dbm], dbm + dim)) ([-1], 0) (pyslice DAYS_IN_MONTH 1 13)).1.

Definition is_leap (year : Z) : bool :=
  (year mod 4 =? 0) && (negb (year mod 100 =? 0) || (year mod 400 =? 0)).

Definition days_before_year (year : Z) : Z :=
  let y := year - 1 in y * 365 + y / 4 - y / 100 + y / 400.

Definition days_in_month (year month : Z) : py Z :=
  _ ← passert (between 1 month 12);
  if (month =? 2) && is_leap year then Ret 29 else pyget DAYS_IN_MONTH month.

Definition days_before_month (year month : Z) : py Z :=
  _ ← passert (between 1 month 12);
  n ← pyget DAYS_BEFORE_MONTH month;
  Ret (n + b2z ((month >? 2) && is_leap year)).

Definition ymd2ord (year month day : Z) : py Z :=
  _ ← passert (between 1 month 12);
  dim ← days_in_month year month;
  _ ← passert (between 1 day dim);
  before ← days_before_month year month;
  Ret (days_before_year year + before + day).

Definition DI400Y : Z := days_before_year 401.
Definition DI100Y : Z := days_before_year 101.
Definition DI4Y : Z := days_before_year 5.

Definition ord2ymd (n : Z) : py (Z * Z * Z) :=
  let n := n - 1 in
  let '(n400, n) := (n / DI400Y, n mod DI400Y) in
  let year := n400 * 400 + 1 in
  let '(n100, n) := (n / DI100Y, n mod DI100Y) in
  let '(n4, n) := (n / DI4Y, n mod DI4Y) in
  let '(n1, n) := (n / 365, n mod 365) in
  let year := year + (n100 * 100 + n4 * 4 + n1) in
  if (n1 =? 4) || (n100 =? 4) then
    _ ← passert (n =? 0);
    Ret (year - 1, 12, 31)
  else
    let leapyear := (n1 =? 3) && (negb (n4 =? 24) || (n100 =? 3)) in
    _ ← passert (Bool.eqb leapyear (is_leap year));
    let month := Z.shiftr (n + 50) 5 in
    before ← pyget DAYS_BEFORE_MONTH month;
    let preceding := before + b2z ((month >? 2) && leapyear) in
    '(month, preceding) ←
      (if preceding >? n then
         let month := month - 1 in
         dim ← pyget DAYS_IN_MONTH month;
         Ret (month, preceding - (dim + b2z ((month =? 2) && leapyear)))
       else Ret (month, preceding));
    let n := n - preceding in
    dim ← days_in_month year month;
    _ ← passert ((0 <=? n) && (n <? dim));
    Ret (year, month, n + 1).

(** [time.struct_time]. *)
Record struct_time := StructTime {
  tm_year : Z; tm_mon : Z; tm_mday : Z; tm_hour : Z; tm_min : Z; tm_sec : Z;
  tm_wday : Z; tm_yday : Z; tm_isdst : Z
}.

Definition build_struct_time (y m d hh mm ss dstflag : Z) : py struct_time :=
  o ← ymd2ord y m d;
  let wday := (o + 6) mod 7 in
  before ← days_before_month y m;
  let dnum := before + d in
  Ret (StructTime y m d hh mm ss wday dnum dstflag).

Definition isoweek1monday (year : Z) : py Z :=
  let THURSDAY := 3 in
  firstday ← ymd2ord year 1 1;
  let firstweekday := (firstday + 6) mod 7 in
  let week1monday := firstday - firstweekday in
  Ret (if firstweekday >? THURSDAY then week1monday + 7 else week1monday).

Definition isoweek_to_gregorian (year week day : Z) : py (Z * Z * Z) :=
  if negb (between MINYEAR year MAXYEAR) then Raise ValueError
  else
    out_of_range ←
      (if negb ((0 <? week) && (week <? 53)) then
         if week =? 53 then
           o ← ymd2ord year 1 1;
           let first_weekday := o mod 7 in
           Ret (negb ((first_weekday =? 4) || ((first_weekday =? 3) && is_leap year)))
         else Ret true
       else Ret false);
    if out_of_range : bool then Raise ValueError
    else if negb ((0 <? day) && (day <? 8)) then Raise ValueError
    else
      let day_offset := (week - 1) * 7 + (day - 1) in
      day_1 ← isoweek1monday year;
      let ord_day := day_1 + day_offset in
      ord2ymd ord_day.

Definition check_date_fields (year month day : Z) : py (Z * Z * Z) :=
  if negb (between MINYEAR year MAXYEAR) then Raise ValueError
  else if negb (between 1 month 12) then Raise ValueError
  else
    dim ← days_in_month year month;
    if negb (between 1 day dim) then Raise ValueError
    else Ret (year, month, day).

Definition divide_and_round (a b : Z) : py Z :=
  '(q, r) ← pydivmod a b;
  let r := r * 2 in
  let greater_than_half := if b >? 0 then r >? b else r <? b in
  Ret (if greater_than_half || ((r =? b) && (q mod 2 =? 1)) then q + 1 else q).

(** * class timedelta *)

Module Timedelta.

Record timedelta := Td { days : Z; seconds : Z; microseconds : Z }.

Definition new (days seconds microseconds milliseconds minutes hours weeks : Z) : py timedelta :=
  let days := days + weeks * 7 in
  let seconds := seconds + (minutes * 60 + hours * 3600) in
  let microseconds := microseconds + milliseconds * 1000 in
  let d := days in
  let s := 0 in
  _ ← passert (Z.abs s <=? 24 * 3600);
  let '(days, seconds) := (seconds / (24 * 3600), seconds mod (24 * 3600)) in
  let d := d + days in
  let s := s + seconds in
  _ ← passert (Z.abs s <=? 2 * 24 * 3600);
  let '(seconds, microseconds) := (microseconds / 1000000, microseconds mod 1000000) in
  let '(days, seconds) := (seconds / (24 * 3600), seconds mod (24 * 3600)) in
  let d := d + days in
  let s := s + seconds in
  _ ← passert (Z.abs s <=? 3 * 24 * 3600);
  _ ← passert (Z.abs microseconds <? 3100000);
  let '(seconds, us) := (microseconds / 1000000, microseconds mod 1000000) in
  let s := s + seconds in
  let '(days, s) := (s / (24 * 3600), s mod (24 * 3600)) in
  let d := d + days in
  _ ← passert ((0 <=? s) && (s <? 24 * 3600));
  _ ← passert ((0 <=? us) && (us <? 1000000));
  if Z.abs d >? 999999999 then Raise OverflowError
  else Ret (Td d s us).

(** [timedelta(days, seconds, microseconds)]. *)
Definition make (days seconds microseconds : Z) : py timedelta := new days seconds microseconds 0 0 0 0.

Definition to_microseconds (self : timedelta) : Z :=
  (days self * (24 * 3600) + seconds self) * 1000000 + microseconds self.

Definition add (self other : timedelta) : py timedelta :=
  make (days self + days other) (seconds self + seconds other) (microseconds self + microseconds other).
Definition sub (self other : timedelta) : py timedelta :=
  make (days self - days other) (seconds self - seconds other) (microseconds self - microseconds other).
Definition neg (self : timedelta) : py timedelta :=
  make (- days self) (- seconds self) (- microseconds self).
Definition rsub (self other : timedelta) : py timedelta := n ← neg self; add n other.
Definition pos (self : timedelta) : timedelta := self.
Definition abs_ (self : timedelta) : py timedelta := if days self <? 0 then neg self else Ret self.

Definition mul (self : timedelta) (other : Z) : py timedelta :=
  make (days self * other) (seconds self * other) (microseconds self * other).
(** A float [other] with [other.as_integer_ratio() = (a, b)]. *)
Definition mul_float (self : timedelta) (a b : Z) : py timedelta :=
  let usec := to_microseconds self in
  us ← divide_and_round (usec * a) b;
  make 0 0 us.

Definition floordiv_delta (self other : timedelta) : py Z :=
  '(q, _) ← pydivmod (to_microseconds self) (to_microseconds other); Ret q.
Definition floordiv (self : timedelta) (other : Z) : py timedelta :=
  '(q, _) ← pydivmod (to_microseconds self) other; make 0 0 q.
Definition truediv (self : timedelta) (other : Z) : py timedelta :=
  us ← divide_and_round (to_microseconds self) other; make 0 0 us.
(** A float [other] with [other.as_integer_ratio() = (a, b)]. *)
Definition truediv_float (self : timedelta) (a b : Z) : py timedelta :=
  us ← divide_and_round (b * to_microseconds self) a; make 0 0 us.
Definition mod_ (self other : timedelta) : py timedelta :=
  '(_, r) ← pydivmod (to_microseconds self) (to_microseconds other); make 0 0 r.
Definition divmod (self other : timedelta) : py (Z * timedelta) :=
  '(q, r) ← pydivmod (to_microseconds self) (to_microseconds other);
  td ← make 0 0 r;
  Ret (q, td).

Definition getstate (self : timedelta) : list Z := [days self; seconds self; microseconds self].
Definition cmp (self other : timedelta) : Z := cmp_tuple (getstate self) (getstate other).
Definition eqb (self other : timedelta) : bool := cmp self other =? 0.
Definition leb (self other : timedelta) : bool := cmp self other <=? 0.
Definition ltb (self other : timedelta) : bool := cmp self other <? 0.
Definition geb (self other : timedelta) : bool := cmp self other >=? 0.
Definition gtb (self other : timedelta) : bool := cmp self other >? 0.
Definition bool_ (self : timedelta) : bool :=
  negb (days self =? 0) || negb (seconds self =? 0) || negb (microseconds self =? 0).

Definition str (self : timedelta) : list Z :=
  let '(mm, ss) := (seconds self / 60, seconds self mod 60) in
  let '(hh, mm) := (mm / 60, mm mod 60) in
  let s := fmt_int hh ++ lit ":" ++ fmt0 2 mm ++ lit ":" ++ fmt0 2 ss in
  let s :=
    if negb (days self =? 0)
    then fmt_int (days self) ++ lit " day" ++ (if negb (Z.abs (days self) =? 1) then lit "s" else []) ++ lit ", " ++ s
    else s in
  if negb (microseconds self =? 0) then s ++ lit "." ++ fmt0 6 (microseconds self) else s.

Definition min : py timedelta := new (-999999999) 0 0 0 0 0 0.
Definition max : py timedelta := new 999999999 59 999999 0 59 23 0.
Definition resolution : py timedelta := new 0 0 1 0 0 0 0.

End Timedelta.

(** * class date *)

Definition MONTHNAMES : list (list Z) :=
  lit <$> [""; "Jan"; "Feb"; "Mar"; "Apr"; "May"; "Jun"; "Jul"; "Aug"; "Sep"; "Oct"; "Nov"; "Dec"]%string.
Definition DAYNAMES : list (list Z) :=
  lit <$> [""; "Mon"; "Tue"; "Wed"; "Thu"; "Fri"; "Sat"; "Sun"]%string.

(** The lengths [fromisoformat] accepts; a week date or a calendar date. *)
Definition parse_isoformat_date (dtstr : list Z) : py (Z * Z * Z) :=
  _ ← passert (existsb (Z.eqb (zlen dtstr)) [7; 8; 10]);
  year ← py_int 10 (pyslice dtstr 0 4);
  c ← pyget dtstr 4;
  let has_sep := c =? 45 in
  let pos := 4 + b2z has_sep in
  if zeqb_list (pyslice dtstr pos (pos + 1)) (lit "W") then
    let pos := pos + 1 in
    weekno ← py_int 10 (pyslice dtstr pos (pos + 2));
    let pos := pos + 2 in
    dayno ←
      (if zlen dtstr >? pos then
         if negb (Bool.eqb (zeqb_list (pyslice dtstr pos (pos + 1)) (lit "-")) has_sep) then Raise ValueError
         else
           let pos := pos + b2z has_sep in
           py_int 10 (pyslice dtstr pos (pos + 1))
       else Ret 1);
    isoweek_to_gregorian year weekno dayno
  else
    month ← py_int 10 (pyslice dtstr pos (pos + 2));
    let pos := pos + 2 in
    if negb (Bool.eqb (zeqb_list (pyslice dtstr pos (pos + 1)) (lit "-")) has_sep) then Raise ValueError
    else
      let pos := pos + b2z has_sep in
      day ← py_int 10 (pyslice dtstr pos (pos + 2));
      Ret (year, month, day).

Module Date.

Record date := Dt { year : Z; month : Z; day : Z }.

Definition new (year month day : Z) : py date :=
  '(year, month, day) ← check_date_fields year month day;
  Ret (Dt year month day).

Definition fromordinal (n : Z) : py date :=
  '(y, m, d) ← ord2ymd n;
  new y m d.

Definition fromisoformat (date_string : list Z) : py date :=
  if negb (existsb (Z.eqb (zlen date_string)) [7; 8; 10]) then Raise ValueError
  else or_value_error ('(y, m, d) ← parse_isoformat_date date_string; new y m d).

Definition fromisocalendar (year week day : Z) : py date :=
  '(y, m, d) ← isoweek_to_gregorian year week day;
  new y m d.

Definition isoformat (self : date) : list Z :=
  fmt0 4 (year self) ++ lit "-" ++ fmt0 2 (month self) ++ lit "-" ++ fmt0 2 (day self).

Definition toordinal (self : date) : py Z := ymd2ord (year self) (month self) (day self).

Definition timetuple (self : date) : py struct_time :=
  build_struct_time (year self) (month self) (day self) 0 0 0 (-1).

Definition replace (self : date) (y m d : option Z) : py date :=
  new (default (year self) y) (default (month self) m) (default (day self) d).

Definition cmp (self other : date) : Z :=
  cmp_tuple [year self; month self; day self] [year other; month other; day other].
Definition eqb (self other : date) : bool := cmp self other =? 0.
Definition leb (self other : date) : bool := cmp self other <=? 0.
Definition ltb (self other : date) : bool := cmp self other <? 0.
Definition geb (self other : date) : bool := cmp self other >=? 0.
Definition gtb (self other : date) : bool := cmp self other >? 0.

Definition add (self : date) (other : Timedelta.timedelta) : py date :=
  o ← toordinal self;
  let o := o + Timedelta.days other in
  if (0 <? o) && (o <=? MAXORDINAL) then fromordinal o else Raise OverflowError.

Definition sub_delta (self : date) (other : Timedelta.timedelta) : py date :=
  td ← Timedelta.make (- Timedelta.days other) 0 0;
  add self td.
Definition sub (self other : date) : py Timedelta.timedelta :=
  days1 ← toordinal self;
  days2 ← toordinal other;
  Timedelta.make (days1 - days2) 0 0.

Definition weekday (self : date) : py Z := o ← toordinal self; Ret ((o + 6) mod 7).
Definition isoweekday (self : date) : py Z :=
  o ← toordinal self; Ret (if o mod 7 =? 0 then 7 else o mod 7).

Definition ctime (self : date) : py (list Z) :=
  o ← toordinal self;
  let weekday := if o mod 7 =? 0 then 7 else o mod 7 in
  dname ← pyget DAYNAMES weekday;
  mname ← pyget MONTHNAMES (month self);
  Ret (dname ++ lit " " ++ mname ++ lit " " ++ fmt_sp 2 (day self) ++ lit " 00:00:00 " ++ fmt0 4 (year self)).

Definition isocalendar (self : date) : py (Z * Z * Z) :=
  let year := year self in
  week1monday ← isoweek1monday year;
  today ← ymd2ord year (month self) (day self);
  let '(week, day) := ((today - week1monday) / 7, (today - week1monday) mod 7) in
  if week <? 0 then
    let year := year - 1 in
    week1monday ← isoweek1monday year;
    let '(week, day) := ((today - week1monday) / 7, (today - week1monday) mod 7) in
    Ret (year, week + 1, day + 1)
  else if week >=? 52 then
    next ← isoweek1monday (year + 1);
    if today >=? next then Ret (year + 1, 1, day + 1) else Ret (year, week + 1, day + 1)
  else Ret (year, week + 1, day + 1).

(** [bytes([...])]. *)
Definition bytes_of_ints (l : list Z) : py (list Z) :=
  if forallb (fun b => between 0 b 255) l then Ret l else Raise ValueError.

Definition getstate (self : date) : py (list Z) :=
  let '(yhi, ylo) := (year self / 256, year self mod 256) in
  bytes_of_ints [yhi; ylo; month self; day self].

Definition setstate (string : list Z) : py date :=
  match string with
  | [yhi; ylo; month; day] => Ret (Dt (yhi * 256 + ylo) month day)
  | _ => Raise ValueError
  end.

(** The constructor on a pickled state: four bytes whose third is a month;
    anything else goes on to the field checks with a missing month. *)
Definition new_state (year : list Z) : py date :=
  if zlen year =? 4 then
    m ← pyget year 2;
    if between 1 m 12 then setstate year else Raise TypeError
  else Raise TypeError.

Definition min : py date := new 1 1 1.
Definition max : py date := new 9999 12 31.

End Date.

(** * Days, without the checks *)

Definition dim (leap : bool) (m : Z) : Z := nth (Z.to_nat m) DAYS_IN_MONTH 0 + b2z ((m =? 2) && leap).
Definition dbm (leap : bool) (m : Z) : Z := nth (Z.to_nat m) DAYS_BEFORE_MONTH 0 + b2z ((m >? 2) && leap).
Definition ordinal (y m d : Z) : Z := days_before_year y + dbm (is_leap y) m + d.
Definition valid_md (leap : bool) (m d : Z) : Prop := 1 <= m <= 12 /\ 1 <= d <= dim leap m.

Lemma month_cases (P : Z -> Prop) : (forall m, m ∈ pyrange 1 13 -> P m) -> forall m, 1 <= m <= 12 -> P m.
Proof. intros H m Hm. apply H. apply elem_of_pyrange. lia. Qed.

(** [1 <= m <= 12] as twelve cases. *)
Ltac months m H :=
  let C := fresh in
  assert (C : m = 1 \/ m = 2 \/ m = 3 \/ m = 4 \/ m = 5 \/ m = 6 \/ m = 7 \/ m = 8 \/ m = 9 \/ m = 10 \/ m = 11 \/ m = 12)
    by lia;
  clear H;
  destruct C as [H | [H | [H | [H | [H | [H | [H | [H | [H | [H | [H | H]]]]]]]]]]]; subst m.

Lemma days_in_month_ret y m : 1 <= m <= 12 -> days_in_month y m = Ret (dim (is_leap y) m).
Proof. intros H. unfold days_in_month, dim. months m H; destruct (is_leap y); reflexivity. Qed.

Lemma days_before_month_ret y m : 1 <= m <= 12 -> days_before_month y m = Ret (dbm (is_leap y) m).
Proof. intros H. unfold days_before_month, dbm. months m H; destruct (is_leap y); reflexivity. Qed.

Lemma dim_bound leap m : 1 <= m <= 12 -> 28 <= dim leap m <= 31.
Proof. intros H. months m H; destruct leap; vm_compute; split; congruence. Qed.

Lemma dbm_next leap m : 1 <= m < 12 -> dbm leap (m + 1) = dbm leap m + dim leap m.
Proof. intros [H1 H2]. assert (H : 1 <= m <= 12) by lia. months m H; try lia; destruct leap; reflexivity. Qed.

Lemma dbm_last leap : dbm leap 12 + dim leap 12 = 365 + b2z leap.
Proof. by destruct leap. Qed.

Lemma dbm_mono leap m m' : 1 <= m -> m < m' -> m' <= 12 -> dbm leap m + dim leap m <= dbm leap m'.
Proof.
  intros H1 H2 H3. replace m' with (m + 1 + Z.of_nat (Z.to_nat (m' - m - 1))) in * by lia.
  induction (Z.to_nat (m' - m - 1)) as [|k IH].
  - rewrite Z.add_0_r, dbm_next by lia. lia.
  - specialize (IH ltac:(lia) ltac:(lia)). replace (m + 1 + Z.of_nat (S k)) with ((m + 1 + Z.of_nat k) + 1) by lia.
    rewrite dbm_next by lia. pose proof (dim_bound leap (m + 1 + Z.of_nat k) ltac:(lia)). lia.
Qed.

Lemma dbm_bounds leap m d : valid_md leap m d -> 1 <= dbm leap m + d <= 365 + b2z leap.
Proof.
  intros [Hm Hd]. destruct (decide (m = 12)) as [->|].
  - pose proof (dbm_last leap). assert (0 <= dbm leap 12) by (destruct leap; vm_compute; congruence). lia.
  - pose proof (dbm_mono leap m 12). pose proof (dbm_last leap). pose proof (dim_bound leap 12).
    assert (0 <= dbm leap m) by (clear Hd; months m Hm; destruct leap; vm_compute; congruence). lia.
Qed.

Lemma ymd2ord_ret y m d : valid_md (is_leap y) m d -> ymd2ord y m d = Ret (ordinal y m d).
Proof.
  intros [Hm Hd]. unfold ymd2ord. rewrite days_in_month_ret, days_before_month_ret by done.
  replace (between 1 m 12) with true by (symmetry; unfold between; lia). cbn [passert mbind py_bind].
  replace (between 1 d _) with true by (symmetry; unfold between; lia). done.
Qed.

Lemma ymd2ord_inv y m d n : ymd2ord y m d = Ret n -> valid_md (is_leap y) m d /\ n = ordinal y m d.
Proof.
  unfold ymd2ord, passert at 1. destruct (between 1 m 12) eqn:Em; [|done]. unfold between in Em.
  rewrite days_in_month_ret, days_before_month_ret by lia. cbn [mbind py_bind].
  unfold passert. destruct (between 1 d (dim (is_leap y) m)) eqn:Ed; [|done]. unfold between in Ed.
  intros [= <-]. split; [split; lia | done].
Qed.

(** A year by its position in the 400, 100 and 4 year cycles. *)
Lemma days_before_cycle a b c e : 0 <= b < 4 -> 0 <= c < 25 -> 0 <= e < 4 ->
  days_before_year (400 * a + 100 * b + 4 * c + e + 1) = 146097 * a + 36524 * b + 1461 * c + 365 * e.
Proof.
  intros Hb Hc He. unfold days_before_year. replace (400 * a + 100 * b + 4 * c + e + 1 - 1) with (400 * a + 100 * b + 4 * c + e) by lia.
  rewrite <- (Z.div_unique (400 * a + 100 * b + 4 * c + e) 4 (100 * a + 25 * b + c) e) by lia.
  rewrite <- (Z.div_unique (400 * a + 100 * b + 4 * c + e) 100 (4 * a + b) (4 * c + e)) by lia.
  rewrite <- (Z.div_unique (400 * a + 100 * b + 4 * c + e) 400 a (100 * b + 4 * c + e)) by lia. lia.
Qed.

Lemma is_leap_cycle a b c e : 0 <= b < 4 -> 0 <= c < 25 -> 0 <= e < 4 ->
  is_leap (400 * a + 100 * b + 4 * c + e + 1) = (e =? 3) && (negb (c =? 24) || (b =? 3)).
Proof.
  intros Hb Hc He. unfold is_leap.
  destruct (Z.eqb_spec e 3) as [->|NE]; cbn [andb].
  - rewrite <- (Z.mod_unique_pos (400 * a + 100 * b + 4 * c + 3 + 1) 4 (100 * a + 25 * b + c + 1) 0) by lia.
    cbn [Z.eqb andb]. destruct (Z.eqb_spec c 24) as [->|NC]; cbn [negb orb].
    + rewrite <- (Z.mod_unique_pos (400 * a + 100 * b + 4 * 24 + 3 + 1) 100 (4 * a + b + 1) 0) by lia. cbn [Z.eqb negb orb].
      destruct (Z.eqb_spec b 3) as [->|NB].
      * rewrite <- (Z.mod_unique_pos (400 * a + 100 * 3 + 4 * 24 + 3 + 1) 400 (a + 1) 0) by lia. done.
      * rewrite <- (Z.mod_unique_pos (400 * a + 100 * b + 4 * 24 + 3 + 1) 400 a (100 * b + 100)) by lia. lia.
    + rewrite <- (Z.mod_unique_pos (400 * a + 100 * b + 4 * c + 3 + 1) 100 (4 * a + b) (4 * c + 4)) by lia. lia.
  - rewrite <- (Z.mod_unique_pos (400 * a + 100 * b + 4 * c + e + 1) 4 (100 * a + 25 * b + c) (e + 1)) by lia. lia.
Qed.

Lemma year_cycle y : exists a b c e, y = 400 * a + 100 * b + 4 * c + e + 1 /\ 0 <= b < 4 /\ 0 <= c < 25 /\ 0 <= e < 4.
Proof.
  set (z := y - 1). set (r := z mod 400). set (s := r mod 100).
  exists (z / 400), (r / 100), (s / 4), (s mod 4).
  pose proof (Z.div_mod z 400 ltac:(lia)). pose proof (Z.mod_pos_bound z 400 ltac:(lia)). fold r in H, H0.
  pose proof (Z.div_mod r 100 ltac:(lia)). pose proof (Z.mod_pos_bound r 100 ltac:(lia)). fold s in H1, H2.
  pose proof (Z.div_mod s 4 ltac:(lia)). pose proof (Z.mod_pos_bound s 4 ltac:(lia)). lia.
Qed.

Lemma days_before_next y : days_before_year (y + 1) = days_before_year y + 365 + b2z (is_leap y).
Proof.
  destruct (year_cycle y) as (a & b & c & e & -> & Hb & Hc & He).
  rewrite is_leap_cycle, days_before_cycle by done.
  destruct (Z.eqb_spec e 3) as [->|NE]; cbn [andb].
  2: { replace (400 * a + 100 * b + 4 * c + e + 1 + 1) with (400 * a + 100 * b + 4 * c + (e + 1) + 1) by lia.
       rewrite days_before_cycle by lia. cbn. lia. }
  destruct (Z.eqb_spec c 24) as [->|NC]; cbn [negb orb].
  2: { replace (400 * a + 100 * b + 4 * c + 3 + 1 + 1) with (400 * a + 100 * b + 4 * (c + 1) + 0 + 1) by lia.
       rewrite days_before_cycle by lia. cbn. lia. }
  destruct (Z.eqb_spec b 3) as [->|NB].
  - replace (400 * a + 100 * 3 + 4 * 24 + 3 + 1 + 1) with (400 * (a + 1) + 100 * 0 + 4 * 0 + 0 + 1) by lia.
    rewrite days_before_cycle by lia. cbn. lia.
  - replace (400 * a + 100 * b + 4 * 24 + 3 + 1 + 1) with (400 * a + 100 * (b + 1) + 4 * 0 + 0 + 1) by lia.
    rewrite days_before_cycle by lia. cbn. lia.
Qed.

Lemma days_before_mono y y' : y < y' -> days_before_year y + 365 + b2z (is_leap y) <= days_before_year y'.
Proof.
  intros H. rewrite <- days_before_next. replace y' with (y + 1 + Z.of_nat (Z.to_nat (y' - y - 1))) by lia.
  induction (Z.to_nat (y' - y - 1)) as [|k IH]; [rewrite Z.add_0_r; lia|].
  replace (y + 1 + Z.of_nat (S k)) with ((y + 1 + Z.of_nat k) + 1) by lia.
  rewrite (days_before_next (y + 1 + Z.of_nat k)). unfold b2z. destruct (is_leap _); lia.
Qed.

(** The order of dates is the order of their ordinals. *)
Lemma ordinal_lt y m d y' m' d' : valid_md (is_leap y) m d -> valid_md (is_leap y') m' d' ->
  y < y' \/ y = y' /\ (m < m' \/ m = m' /\ d < d') -> ordinal y m d < ordinal y' m' d'.
Proof.
  intros V V' [H | [<- [H | [<- H]]]]; unfold ordinal.
  - pose proof (days_before_mono y y' H). pose proof (dbm_bounds _ _ _ V). pose proof (dbm_bounds _ _ _ V'). lia.
  - destruct V as [Vm Vd], V' as [Vm' Vd']. pose proof (dbm_mono (is_leap y) m m'). lia.
  - lia.
Qed.

Lemma ordinal_inj y m d y' m' d' : valid_md (is_leap y) m d -> valid_md (is_leap y') m' d' ->
  ordinal y m d = ordinal y' m' d' -> (y, m, d) = (y', m', d').
Proof.
  intros V V' E. pose proof (ordinal_lt _ _ _ _ _ _ V V') as L. pose proof (ordinal_lt _ _ _ _ _ _ V' V) as G.
  assert (y = y') by lia. subst y'. assert (m = m') by lia. subst m'. assert (d = d') by lia. by subst d'.
Qed.

(** The month search of [ord2ymd], for a day [n] of a common or leap year. *)
Definition month_search (leap : bool) (n : Z) : py (Z * Z) :=
  let month := Z.shiftr (n + 50) 5 in
  before ← pyget DAYS_BEFORE_MONTH month;
  let preceding := before + b2z ((month >? 2) && leap) in
  if preceding >? n then
    let month := month - 1 in
    dim ← pyget DAYS_IN_MONTH month;
    Ret (month, preceding - (dim + b2z ((month =? 2) && leap)))
  else Ret (month, preceding).

Definition month_search_ok (leap : bool) (n : Z) : bool :=
  match month_search leap n with
  | Ret (m, p) => between 1 m 12 && (p =? dbm leap m) && (p <=? n) && (n <? p + dim leap m)
  | _ => false
  end.

Lemma month_search_table : forallb (month_search_ok false) (pyrange 0 365) && forallb (month_search_ok true) (pyrange 0 366) = true.
Proof. vm_compute. reflexivity. Qed.

Lemma month_search_spec leap n : 0 <= n < 365 + b2z leap -> exists m,
  month_search leap n = Ret (m, dbm leap m) /\ 1 <= m <= 12 /\ dbm leap m <= n < dbm leap m + dim leap m.
Proof.
  intros Hn. pose proof month_search_table as T. apply andb_true_iff in T as [T1 T2]. rewrite forallb_forall in T1, T2.
  assert (E : month_search_ok leap n = true).
  { destruct leap; cbn in Hn; [apply T2 | apply T1]; apply list_elem_of_In, elem_of_pyrange; lia. }
  unfold month_search_ok in E. destruct (month_search leap n) as [[m p]| |]; [|done|done]. exists m.
  unfold between in E. assert (p = dbm leap m) by lia. subst p. split; [done | lia].
Qed.

Lemma ord2ymd_spec n : exists y m d, ord2ymd n = Ret (y, m, d) /\ valid_md (is_leap y) m d /\ ordinal y m d = n.
Proof.
  unfold ord2ymd. change DI400Y with 146097. change DI100Y with 36524. change DI4Y with 1461. cbv zeta.
  set (n0 := n - 1). set (a := n0 / 146097). set (r := n0 mod 146097). set (b := r / 36524). set (s := r mod 36524).
  set (c := s / 1461). set (t := s mod 1461). set (e := t / 365). set (u := t mod 365).
  pose proof (Z.div_mod n0 146097 ltac:(lia)) as E1. pose proof (Z.mod_pos_bound n0 146097 ltac:(lia)) as B1. fold a r in E1, B1.
  pose proof (Z.div_mod r 36524 ltac:(lia)) as E2. pose proof (Z.mod_pos_bound r 36524 ltac:(lia)) as B2. fold b s in E2, B2.
  pose proof (Z.div_mod s 1461 ltac:(lia)) as E3. pose proof (Z.mod_pos_bound s 1461 ltac:(lia)) as B3. fold c t in E3, B3.
  pose proof (Z.div_mod t 365 ltac:(lia)) as E4. pose proof (Z.mod_pos_bound t 365 ltac:(lia)) as B4. fold e u in E4, B4.
  assert (En : n = n0 + 1) by (unfold n0; lia). clearbody n0 a r b s c t e u. assert (Bb : 0 <= b <= 4) by lia. assert (Bc : 0 <= c <= 24) by lia. assert (Be : 0 <= e <= 4) by lia.
  destruct ((e =? 4) || (b =? 4)) eqn:EL.
  - assert (u = 0) by lia. rewrite (proj2 (Z.eqb_eq u 0)) by done. cbn [passert mbind py_bind].
    exists (a * 400 + 1 + (b * 100 + c * 4 + e) - 1), 12, 31. split; [done|].
    split; [split; [lia|]; change (dim _ 12) with (31 + b2z false); cbn; lia|]. unfold ordinal.
    assert (D1 : dbm true 12 = 335) by done. assert (D0 : dbm false 12 = 334) by done.
    destruct (Z.eqb_spec b 4) as [->|NB].
    + assert (c = 0 /\ e = 0) as [-> ->] by lia.
      replace (a * 400 + 1 + (4 * 100 + 0 * 4 + 0) - 1) with (400 * a + 100 * 3 + 4 * 24 + 3 + 1) by lia.
      rewrite days_before_cycle, is_leap_cycle by lia. cbn. lia.
    + assert (e = 4) by lia. subst e.
      replace (a * 400 + 1 + (b * 100 + c * 4 + 4) - 1) with (400 * a + 100 * b + 4 * c + 3 + 1) by lia.
      rewrite days_before_cycle, is_leap_cycle by lia. destruct (Z.eqb_spec c 24) as [->|]; [|cbn; lia].
      destruct (Z.eqb_spec b 3); cbn; lia.
  - replace (a * 400 + 1 + (b * 100 + c * 4 + e)) with (400 * a + 100 * b + 4 * c + e + 1) by lia.
    rewrite is_leap_cycle by lia. rewrite Bool.eqb_reflx. cbn [passert mbind py_bind].
    set (leap := (e =? 3) && _). set (y := 400 * a + 100 * b + 4 * c + e + 1).
    assert (Hl : is_leap y = leap) by (unfold y; by rewrite is_leap_cycle by lia).
    assert (Hu : 0 <= u < 365 + b2z leap) by (destruct leap; cbn; lia).
    destruct (month_search_spec leap u Hu) as (m & EM & Hm & Hd).
    unfold month_search in EM. apply bind_ret_inv in EM as (before & EB & EM). rewrite EB. cbn [mbind py_bind].
    rewrite EM. cbn [mbind py_bind]. rewrite days_in_month_ret by done. rewrite Hl. cbn [mbind py_bind].
    rewrite (proj2 (Z.leb_le 0 (u - dbm leap m))), (proj2 (Z.ltb_lt (u - dbm leap m) (dim leap m))) by lia. cbn [passert andb mbind py_bind].
    exists y, m, (u - dbm leap m + 1). split; [done|]. rewrite Hl. split; [split; lia|].
    unfold ordinal. rewrite Hl. unfold y. rewrite days_before_cycle by lia. lia.
Qed.

Lemma ord2ymd_ordinal y m d : valid_md (is_leap y) m d -> ord2ymd (ordinal y m d) = Ret (y, m, d).
Proof.
  intros V. destruct (ord2ymd_spec (ordinal y m d)) as (y' & m' & d' & E & V' & EO). rewrite E. f_equal.
  by apply ordinal_inj.
Qed.

(** C23: [_ord2ymd] and [_ymd2ord] are inverse to each other on all integers
    and all calendar days, before year 1 and after 9999 too; none of their
    assertions can fail on the way. *)
Theorem ordinal_bijection :
  (forall n, exists y m d, ord2ymd n = Ret (y, m, d) /\ ymd2ord y m d = Ret n)
  /\ (forall y m d n, ymd2ord y m d = Ret n -> ord2ymd n = Ret (y, m, d)).
Proof.
  split.
  - intros n. destruct (ord2ymd_spec n) as (y & m & d & E & V & O). exists y, m, d. split; [done|].
    rewrite ymd2ord_ret by done. by rewrite O.
  - intros y m d n H. apply ymd2ord_inv in H as [V ->]. by apply ord2ymd_ordinal.
Qed.

(** * timedelta as a number of microseconds *)

Section delta.
Import Timedelta.

Definition DAY : Z := 86400000000.

Record normal (td : timedelta) : Prop := {
  normal_seconds : 0 <= seconds td < 86400;
  normal_microseconds : 0 <= microseconds td < 1000000
}.

Definition of_us (total : Z) : timedelta :=
  Td (total / DAY) (total / 1000000 mod 86400) (total mod 1000000).

(** The timedelta of [total] microseconds, if there is one. *)
Definition ranged (total : Z) : py timedelta :=
  if Z.abs (total / DAY) >? 999999999 then Raise OverflowError else Ret (of_us total).

Lemma of_us_normal total : normal (of_us total).
Proof. split; cbn; apply Z.mod_pos_bound; lia. Qed.

Lemma to_us_of_us total : to_microseconds (of_us total) = total.
Proof.
  unfold to_microseconds, of_us, DAY. cbn [days seconds microseconds].
  change 86400000000 with (1000000 * 86400). rewrite <- Z.div_div by lia.
  pose proof (Z.div_mod total 1000000 ltac:(lia)). pose proof (Z.div_mod (total / 1000000) 86400 ltac:(lia)). lia.
Qed.

Lemma of_us_to_us td : normal td -> of_us (to_microseconds td) = td.
Proof.
  destruct td as [d s u]. intros [Hs Hu]. cbn in Hs, Hu. unfold of_us, to_microseconds, DAY. cbn [days seconds microseconds].
  set (t := (d * (24 * 3600) + s) * 1000000 + u).
  assert (E1 : t / 1000000 = d * 86400 + s) by (symmetry; apply (Z.div_unique _ _ _ u); lia).
  assert (E2 : t mod 1000000 = u) by (symmetry; apply (Z.mod_unique_pos _ _ (d * 86400 + s)); lia).
  assert (E3 : t / 86400000000 = d) by (symmetry; apply (Z.div_unique _ _ _ (s * 1000000 + u)); lia).
  rewrite E1, E2, E3. f_equal. symmetry. apply (Z.mod_unique_pos _ _ d); lia.
Qed.

Lemma delta_new_spec d s us ms mi h w :
  new d s us ms mi h w = ranged (((d + w * 7) * 86400 + s + mi * 60 + h * 3600) * 1000000 + us + ms * 1000).
Proof.
  unfold new. change (24 * 3600) with 86400. cbv zeta. set (S := s + (mi * 60 + h * 3600)). set (U := us + ms * 1000). set (D := d + w * 7).
  pose proof (Z.div_mod S 86400 ltac:(lia)). pose proof (Z.mod_pos_bound S 86400 ltac:(lia)).
  pose proof (Z.div_mod U 1000000 ltac:(lia)). pose proof (Z.mod_pos_bound U 1000000 ltac:(lia)).
  pose proof (Z.div_mod (U / 1000000) 86400 ltac:(lia)). pose proof (Z.mod_pos_bound (U / 1000000) 86400 ltac:(lia)).
  rewrite (Z.div_small (U mod 1000000)), (Z.mod_small (U mod 1000000)) by lia.
  set (s1 := S mod 86400) in *. set (q := U / 1000000) in *. set (u := U mod 1000000) in *. set (s2 := q mod 86400) in *.
  set (d1 := S / 86400) in *. set (d2 := q / 86400) in *.
  pose proof (Z.div_mod (0 + s1 + s2 + 0) 86400 ltac:(lia)). pose proof (Z.mod_pos_bound (0 + s1 + s2 + 0) 86400 ltac:(lia)).
  set (s3 := (0 + s1 + s2 + 0) mod 86400) in *. set (d3 := (0 + s1 + s2 + 0) / 86400) in *.
  assert (EU : of_us ((D * 86400 + S) * 1000000 + U) = Td (D + d1 + d2 + d3) s3 u).
  { rewrite <- (of_us_to_us (Td (D + d1 + d2 + d3) s3 u)) by (split; cbn; lia). f_equal. unfold to_microseconds. cbn. lia. }
  replace ((D * 86400 + s + mi * 60 + h * 3600) * 1000000 + us + ms * 1000) with ((D * 86400 + S) * 1000000 + U) by lia.
  rewrite !(proj2 (Z.leb_le (Z.abs _) _)) by lia. rewrite (proj2 (Z.ltb_lt (Z.abs u) _)) by lia.
  rewrite !(proj2 (Z.leb_le 0 _)), !(proj2 (Z.ltb_lt _ _)) by lia. cbn [passert andb mbind py_bind].
  pose proof (f_equal days EU) as ED. cbn [days of_us] in ED. unfold ranged. by rewrite ED, EU.
Qed.

Lemma delta_make_spec d s us : make d s us = ranged ((d * 86400 + s) * 1000000 + us).
Proof. unfold make. rewrite delta_new_spec. f_equal. lia. Qed.

Lemma ranged_normal t td : ranged t = Ret td -> normal td /\ to_microseconds td = t.
Proof.
  unfold ranged. destruct (_ >? _); [done|]. intros [= <-]. split; [apply of_us_normal | apply to_us_of_us].
Qed.

(** Comparing two numbers the way [_cmp] does. *)
Definition zcmp (a b : Z) : Z := if a =? b then 0 else if a >? b then 1 else -1.

Lemma cmp_us a b : normal a -> normal b -> cmp a b = zcmp (to_microseconds a) (to_microseconds b).
Proof.
  intros [A1 A2] [B1 B2]. unfold cmp, getstate, zcmp, to_microseconds. cbn [cmp_tuple].
  destruct a as [d s u], b as [d' s' u']. cbn [days seconds microseconds] in *.
  destruct (Z.eqb_spec d d') as [->|Hd]; [destruct (Z.eqb_spec s s') as [->|Hs]; [destruct (Z.eqb_spec u u') as [->|Hu]|]|].
  - by rewrite Z.eqb_refl.
  - rewrite (proj2 (Z.eqb_neq _ _)) by lia. rewrite !Z.gtb_ltb. zcase; lia.
  - rewrite (proj2 (Z.eqb_neq _ _)) by lia. rewrite !Z.gtb_ltb. zcase; lia.
  - rewrite (proj2 (Z.eqb_neq _ _)) by lia. rewrite !Z.gtb_ltb. zcase; lia.
Qed.

Lemma bool_us a : normal a -> bool_ a = negb (to_microseconds a =? 0).
Proof. intros [A1 A2]. unfold bool_, to_microseconds. destruct a as [d s u]. cbn in *. zcase; cbn; try done; lia. Qed.
End delta.

Lemma delta_neg_spec a : Timedelta.neg a = ranged (- Timedelta.to_microseconds a).
Proof. unfold Timedelta.neg. rewrite delta_make_spec. f_equal. unfold Timedelta.to_microseconds. lia. Qed.

(** [q] is the integer nearest to [a / b], the even one of two equally near. *)
Definition nearest (a b q : Z) : Prop :=
  2 * Z.abs (a - q * b) <= Z.abs b /\ (2 * Z.abs (a - q * b) = Z.abs b -> Z.even q = true).

Lemma divide_and_round_spec a b : b <> 0 -> exists q, divide_and_round a b = Ret q /\ nearest a b q.
Proof.
  intros Hb. unfold nearest, divide_and_round, pydivmod. rewrite (proj2 (Z.eqb_neq b 0)) by done. cbn [mbind py_bind].
  pose proof (Z.div_mod a b Hb) as E. set (q := a / b) in *. set (r := a mod b) in *.
  assert (Q : q mod 2 = 0 /\ Z.even q = true /\ Z.even (q + 1) = false \/ q mod 2 = 1 /\ Z.even q = false /\ Z.even (q + 1) = true).
  { rewrite Zeven_mod, (Zeven_mod (q + 1)). pose proof (Z.mod_pos_bound q 2 ltac:(lia)). pose proof (Z.div_mod q 2 ltac:(lia)).
    destruct (Z.eq_dec (q mod 2) 0) as [E0|E0].
    - left. rewrite E0. rewrite <- (Z.mod_unique_pos (q + 1) 2 (q / 2) 1) by lia. done.
    - right. assert (E1 : q mod 2 = 1) by lia. rewrite E1. rewrite <- (Z.mod_unique_pos (q + 1) 2 (q / 2 + 1) 0) by lia. done. }
  rewrite Z.gtb_ltb. eexists. split; [reflexivity|]. destruct (Z.ltb_spec 0 b) as [P|P].
  - pose proof (Z.mod_pos_bound a b P) as B. fold r in B. rewrite Z.gtb_ltb.
    destruct (Z.ltb_spec b (r * 2)); cbn [orb]; [split; [lia | intros; exfalso; lia]|].
    destruct (Z.eqb_spec (r * 2) b); cbn [andb]; [|split; [lia | intros; exfalso; lia]].
    destruct Q as [(-> & E1 & E2) | (-> & E1 & E2)]; cbn [Z.eqb Pos.eqb]; (split; [lia | done]).
  - pose proof (Z.mod_neg_bound a b ltac:(lia)) as B. fold r in B.
    destruct (Z.ltb_spec (r * 2) b); cbn [orb]; [split; [lia | intros; exfalso; lia]|].
    destruct (Z.eqb_spec (r * 2) b); cbn [andb]; [|split; [lia | intros; exfalso; lia]].
    destruct Q as [(-> & E1 & E2) | (-> & E1 & E2)]; cbn [Z.eqb Pos.eqb]; (split; [lia | done]).
Qed.

(** A rounded quotient as a timedelta. *)
Lemma rounded_delta a b : (us ← divide_and_round a b; Timedelta.make 0 0 us) = Raise ZeroDivisionError /\ b = 0
  \/ b <> 0 /\ exists q, nearest a b q /\ (us ← divide_and_round a b; Timedelta.make 0 0 us) = ranged q.
Proof.
  destruct (Z.eq_dec b 0) as [->|Hb]; [left; done|]. right. split; [done|]. destruct (divide_and_round_spec a b Hb) as (q & -> & N). exists q. split; [done|]. cbn [mbind py_bind]. by rewrite delta_make_spec.
Qed.

(** C24: timedelta arithmetic on integer arguments is arithmetic on the number
    of microseconds. Construction, sum, both differences, negation, absolute
    value, the product with an integer, the floor divisions, the remainder and
    [divmod] give the normalised timedelta of the exact result, and
    [OverflowError] when that needs more than 999999999 days (the difference of
    [__rsub__] also when the negation it begins with does); the true division
    by an integer and the product with or the division by a float, given as its
    integer ratio, give the nearest microsecond, the even one of two; a zero
    divisor is a [ZeroDivisionError]; comparisons and truth compare the numbers. *)
Theorem timedelta_exact a b n : normal a -> normal b ->
  let us := Timedelta.to_microseconds in
  (forall d s u ms mi h w, Timedelta.new d s u ms mi h w
     = ranged (((d + w * 7) * 86400 + s + mi * 60 + h * 3600) * 1000000 + u + ms * 1000))
  /\ (forall t td, ranged t = Ret td -> normal td /\ us td = t)
  /\ Timedelta.add a b = ranged (us a + us b) /\ Timedelta.sub a b = ranged (us a - us b)
  /\ Timedelta.neg a = ranged (- us a) /\ Timedelta.mul a n = ranged (us a * n)
  /\ Timedelta.divmod a b
     = (if us b =? 0 then Raise ZeroDivisionError else td ← ranged (us a mod us b); Ret (us a / us b, td))
  /\ Timedelta.floordiv a n = (if n =? 0 then Raise ZeroDivisionError else ranged (us a / n))
  /\ Timedelta.cmp a b = zcmp (us a) (us b) /\ Timedelta.bool_ a = negb (us a =? 0)
  /\ (us a = us b -> a = b)
  /\ Timedelta.rsub a b = (_ ← ranged (- us a); ranged (us b - us a))
  /\ Timedelta.abs_ a = (if us a <? 0 then ranged (- us a) else Ret a)
  /\ Timedelta.floordiv_delta a b = (if us b =? 0 then Raise ZeroDivisionError else Ret (us a / us b))
  /\ Timedelta.mod_ a b = (if us b =? 0 then Raise ZeroDivisionError else ranged (us a mod us b))
  /\ (Timedelta.truediv a n = Raise ZeroDivisionError /\ n = 0 \/ n <> 0 /\ exists q, nearest (us a) n q /\ Timedelta.truediv a n = ranged q)
  /\ forall x y, y <> 0 ->
     (exists q, nearest (us a * x) y q /\ Timedelta.mul_float a x y = ranged q)
     /\ (Timedelta.truediv_float a x y = Raise ZeroDivisionError /\ x = 0 \/ x <> 0 /\ exists q, nearest (y * us a) x q /\ Timedelta.truediv_float a x y = ranged q).
Proof.
  intros Ha Hb us. unfold us. split_and!.
  - intros. apply delta_new_spec.
  - apply ranged_normal.
  - unfold Timedelta.add. rewrite delta_make_spec. f_equal. unfold Timedelta.to_microseconds. lia.
  - unfold Timedelta.sub. rewrite delta_make_spec. f_equal. unfold Timedelta.to_microseconds. lia.
  - apply delta_neg_spec.
  - unfold Timedelta.mul. rewrite delta_make_spec. f_equal. unfold Timedelta.to_microseconds. lia.
  - unfold Timedelta.divmod, pydivmod. destruct (_ =? 0); [done|]. cbn [mbind py_bind]. by rewrite delta_make_spec.
  - unfold Timedelta.floordiv, pydivmod. destruct (_ =? 0); [done|]. cbn [mbind py_bind]. by rewrite delta_make_spec.
  - by apply cmp_us.
  - by apply bool_us.
  - intros E. rewrite <- (of_us_to_us a), <- (of_us_to_us b) by done. by rewrite E.
  - unfold Timedelta.rsub. rewrite delta_neg_spec. destruct (ranged _) as [m| |] eqn:E; [|done..]. apply ranged_normal in E as [_ E]. cbn [mbind py_bind]. unfold Timedelta.add. rewrite delta_make_spec. f_equal. unfold Timedelta.to_microseconds in *. lia.
  - unfold Timedelta.abs_. rewrite delta_neg_spec. replace (Timedelta.to_microseconds a <? 0) with (Timedelta.days a <? 0); [done|]. destruct Ha. unfold Timedelta.to_microseconds. zcase; lia.
  - unfold Timedelta.floordiv_delta, pydivmod. by destruct (_ =? 0).
  - unfold Timedelta.mod_, pydivmod. destruct (_ =? 0); [done|]. cbn [mbind py_bind]. by rewrite delta_make_spec.
  - apply rounded_delta.
  - intros x y Hy. split; [|apply rounded_delta]. destruct (rounded_delta (Timedelta.to_microseconds a * x) y) as [[_ F]|[_ H]]; [done | exact H].
Qed.

(** C25: [_divide_and_round] gives the integer nearest to the quotient, the
    even one of two equally near ones. *)
Theorem divide_and_round_nearest a b : b <> 0 -> exists q, divide_and_round a b = Ret q
  /\ 2 * Z.abs (a - q * b) <= Z.abs b
  /\ (2 * Z.abs (a - q * b) = Z.abs b -> Z.even q = true).
Proof. exact (divide_and_round_spec a b). Qed.

(** * Dates *)

Section dates.
Import Date.

(** A date the constructor accepts. *)
Record good_date (d : date) : Prop := {
  good_year : MINYEAR <= year d <= MAXYEAR;
  good_md : valid_md (is_leap (year d)) (month d) (day d)
}.
Definition ord (d : date) : Z := ordinal (year d) (month d) (day d).

Lemma date_new_ret y m d : good_date (Dt y m d) -> new y m d = Ret (Dt y m d).
Proof.
  intros [Hy [Hm Hd]]. cbn in *. unfold new, check_date_fields, between. rewrite days_in_month_ret by done.
  rewrite !(proj2 (Z.leb_le _ _)) by lia. cbn. rewrite !(proj2 (Z.leb_le _ _)) by lia. done.
Qed.

Lemma date_new_inv y m d r : new y m d = Ret r -> r = Dt y m d /\ good_date r.
Proof.
  unfold new, check_date_fields. destruct (between MINYEAR y MAXYEAR) eqn:Ey; [|done].
  destruct (between 1 m 12) eqn:Em; [|done]. unfold between in Ey, Em. cbn [negb]. rewrite days_in_month_ret by lia.
  cbn [mbind py_bind]. destruct (between 1 d (dim (is_leap y) m)) eqn:Ed; [|done]. unfold between in Ed. cbn.
  intros [= <-]. split; [done|]. split; cbn; [lia|]. split; lia.
Qed.

Lemma toordinal_ret d : good_date d -> toordinal d = Ret (ord d).
Proof. intros [_ V]. by apply ymd2ord_ret. Qed.

Lemma ord_range d : good_date d -> 1 <= ord d <= MAXORDINAL.
Proof.
  intros [Hy V]. unfold ord.
  assert (V1 : valid_md (is_leap 1) 1 1) by (split; vm_compute; split; congruence).
  assert (V9 : valid_md (is_leap 9999) 12 31) by (split; vm_compute; split; congruence).
  pose proof (ordinal_lt _ _ _ _ _ _ V V1) as L1. pose proof (ordinal_lt _ _ _ _ _ _ V9 V) as L9.
  change (ordinal 1 1 1) with 1 in L1. change (ordinal 9999 12 31) with MAXORDINAL in L9. unfold MINYEAR, MAXYEAR in Hy.
  destruct V as [Vm Vd]. pose proof (dim_bound (is_leap (year d)) 12 ltac:(lia)).
  assert (D12 : dim (is_leap (year d)) 12 = 31) by reflexivity.
  split.
  - destruct (decide (year d = 1 /\ month d = 1 /\ day d = 1)) as [(E1 & E2 & E3)|N].
    + rewrite E1, E2, E3. vm_compute. congruence.
    + assert (L : ~ ordinal (year d) (month d) (day d) < 1); [|lia]. intros L.
      assert (V' : valid_md (is_leap (year d)) (month d) (day d)) by done.
      pose proof (ordinal_lt _ _ _ _ _ _ V1 V') as G. change (ordinal 1 1 1) with 1 in G. lia.
  - assert (L : ~ MAXORDINAL < ordinal (year d) (month d) (day d)); [|lia]. intros L.
    assert (V' : valid_md (is_leap (year d)) (month d) (day d)) by done.
    pose proof (ordinal_lt _ _ _ _ _ _ V' V9) as G. change (ordinal 9999 12 31) with MAXORDINAL in G.
    destruct (decide (year d = 9999 /\ month d = 12 /\ day d = 31)) as [(E1 & E2 & E3)|N].
    + rewrite E1, E2, E3 in L. vm_compute in L. congruence.
    + assert (month d = 12 -> day d <= 31) by (intros E; rewrite E in Vd; lia). lia.
Qed.

Lemma fromordinal_ord d : good_date d -> fromordinal (ord d) = Ret d.
Proof.
  intros G. unfold fromordinal, ord. rewrite ord2ymd_ordinal by apply G. cbn [mbind py_bind].
  destruct d. by apply date_new_ret.
Qed.

Lemma fromordinal_ret n : 1 <= n <= MAXORDINAL -> exists d, fromordinal n = Ret d /\ good_date d /\ ord d = n.
Proof.
  intros Hn. destruct (ord2ymd_spec n) as (y & m & d & E & V & O).
  assert (G : good_date (Dt y m d)).
  { split; [|done]. cbn. unfold MINYEAR, MAXYEAR.
    assert (V0 : valid_md (is_leap 0) 12 31) by (split; vm_compute; split; congruence).
    assert (V1 : valid_md (is_leap 10000) 1 1) by (split; vm_compute; split; congruence).
    destruct (decide (y < 1)) as [L|L].
    - exfalso. assert (ordinal y m d <= 0); [|lia]. destruct (decide (y = 0 /\ m = 12 /\ d = 31)) as [(-> & -> & ->)|N].
      + vm_compute. congruence.
      + pose proof (ordinal_lt _ _ _ _ _ _ V V0) as P. change (ordinal 0 12 31) with 0 in P. destruct V as [Vm Vd].
        assert (m = 12 -> d <= 31) by (intros ->; change (dim (is_leap y) 12) with 31 in Vd; lia). lia.
    - split; [lia|]. destruct (decide (y <= 9999)); [done|]. exfalso.
      assert (MAXORDINAL < ordinal y m d); [|lia]. destruct (decide (y = 10000 /\ m = 1 /\ d = 1)) as [(-> & -> & ->)|N].
      + vm_compute. congruence.
      + pose proof (ordinal_lt _ _ _ _ _ _ V1 V) as P. change (ordinal 10000 1 1) with (MAXORDINAL + 1) in P. destruct V as [Vm Vd]. lia. }
  exists (Dt y m d). unfold fromordinal. rewrite E. cbn [mbind py_bind]. rewrite date_new_ret by done. done.
Qed.

Lemma date_cmp_ord a b : good_date a -> good_date b -> cmp a b = zcmp (ord a) (ord b).
Proof.
  intros [_ A] [_ B]. unfold cmp, ord. pose proof (ordinal_lt _ _ _ _ _ _ A B) as L. pose proof (ordinal_lt _ _ _ _ _ _ B A) as G.
  cbn [cmp_tuple]. unfold zcmp. rewrite !Z.gtb_ltb.
  destruct (Z.eqb_spec (year a) (year b)) as [Ey|Ny].
  2: { rewrite (proj2 (Z.eqb_neq _ _)) by lia. zcase; lia. }
  destruct (Z.eqb_spec (month a) (month b)) as [Em|Nm].
  2: { rewrite (proj2 (Z.eqb_neq _ _)) by lia. zcase; lia. }
  destruct (Z.eqb_spec (day a) (day b)) as [Ed|Nd].
  2: { rewrite (proj2 (Z.eqb_neq _ _)) by lia. zcase; lia. }
  rewrite Ey, Em, Ed, Z.eqb_refl. done.
Qed.

Lemma date_add_spec d td : good_date d ->
  add d td = (if (0 <? ord d + Timedelta.days td) && (ord d + Timedelta.days td <=? MAXORDINAL)
              then fromordinal (ord d + Timedelta.days td) else Raise OverflowError).
Proof. intros G. unfold add. rewrite toordinal_ret by done. done. Qed.

Lemma date_sub_spec a b : good_date a -> good_date b -> sub a b = Ret (Timedelta.Td (ord a - ord b) 0 0).
Proof.
  intros A B. unfold sub. rewrite !toordinal_ret by done. cbn [mbind py_bind]. rewrite delta_make_spec. unfold ranged.
  pose proof (ord_range a A). pose proof (ord_range b B). unfold MAXORDINAL in *.
  set (n := ord a - ord b) in *. replace ((n * 86400 + 0) * 1000000 + 0) with (Timedelta.to_microseconds (Timedelta.Td n 0 0))
    by (unfold Timedelta.to_microseconds; cbn; lia).
  rewrite of_us_to_us by (split; cbn; lia).
  replace (Timedelta.to_microseconds (Timedelta.Td n 0 0) / DAY) with n.
  - rewrite Z.gtb_ltb, (proj2 (Z.ltb_ge _ _)) by lia. done.
  - unfold Timedelta.to_microseconds, DAY. cbn [Timedelta.days Timedelta.seconds Timedelta.microseconds].
    apply (Z.div_unique _ _ _ 0); lia.
Qed.
End dates.

(** dates and timedeltas: adding whole days moves the ordinal by that many
    days, and raises [OverflowError] exactly when the result would leave the
    years 1 to 9999; the difference of two dates is the timedelta that leads
    from one to the other; dates compare as their ordinals. *)
Theorem date_arithmetic a b td : good_date a -> good_date b ->
  Date.toordinal a = Ret (ord a)
  /\ (1 <= ord a + Timedelta.days td <= MAXORDINAL ->
      exists c, Date.add a td = Ret c /\ good_date c /\ ord c = ord a + Timedelta.days td)
  /\ (~ 1 <= ord a + Timedelta.days td <= MAXORDINAL -> Date.add a td = Raise OverflowError)
  /\ (exists diff, Date.sub a b = Ret diff /\ Date.add b diff = Ret a /\ Date.sub_delta a diff = Ret b)
  /\ Date.cmp a b = zcmp (ord a) (ord b)
  /\ (ord a = ord b -> a = b).
Proof.
  intros A B. pose proof (ord_range a A). pose proof (ord_range b B). unfold MAXORDINAL in *. split_and!.
  - by apply toordinal_ret.
  - intros R. rewrite date_add_spec by done. rewrite (proj2 (Z.ltb_lt _ _)), (proj2 (Z.leb_le _ _)) by (unfold MAXORDINAL; lia).
    apply fromordinal_ret. unfold MAXORDINAL. lia.
  - intros R. rewrite date_add_spec by done. destruct (_ && _) eqn:E; [|done]. unfold MAXORDINAL in E. lia.
  - exists (Timedelta.Td (ord a - ord b) 0 0). split; [by apply date_sub_spec|]. split.
    + rewrite date_add_spec by done. cbn [Timedelta.days]. replace (ord b + (ord a - ord b)) with (ord a) by lia.
      rewrite (proj2 (Z.ltb_lt _ _)), (proj2 (Z.leb_le _ _)) by (unfold MAXORDINAL; lia). by apply fromordinal_ord.
    + unfold Date.sub_delta. cbn [Timedelta.days]. pose proof (date_sub_spec b a B A) as S. unfold Date.sub in S.
      rewrite !toordinal_ret in S by done. cbn [mbind py_bind] in S. replace (- (ord a - ord b)) with (ord b - ord a) by lia.
      rewrite S. cbn [mbind py_bind]. rewrite date_add_spec by done. cbn [Timedelta.days].
      replace (ord a + (ord b - ord a)) with (ord b) by lia.
      rewrite (proj2 (Z.ltb_lt _ _)), (proj2 (Z.leb_le _ _)) by (unfold MAXORDINAL; lia). by apply fromordinal_ord.
  - by apply date_cmp_ord.
  - intros E. destruct A as [_ A], B as [_ B]. destruct a, b. unfold ord in E. cbn in *. apply ordinal_inj in E; [|done|done]. congruence.
Qed.

(** * The ISO calendar *)

(** The Monday that starts week 1 of a year. *)
Definition week1 (y : Z) : Z :=
  let first := days_before_year y + 1 in
  first - (first + 6) mod 7 + (if (first + 6) mod 7 >? 3 then 7 else 0).

Lemma jan1 y : ymd2ord y 1 1 = Ret (days_before_year y + 1).
Proof.
  rewrite ymd2ord_ret by (split; [lia|]; change (dim (is_leap y) 1) with 31; lia).
  unfold ordinal. change (dbm (is_leap y) 1) with 0. f_equal. lia.
Qed.

Lemma isoweek1monday_ret y : isoweek1monday y = Ret (week1 y).
Proof. unfold isoweek1monday. rewrite jan1. cbn [mbind py_bind]. unfold week1. f_equal. destruct (_ >? 3); lia. Qed.

(** Week 1 starts on a Monday within three days of January 1. *)
Lemma week1_monday y : (week1 y - 1) mod 7 = 0 /\ days_before_year y - 2 <= week1 y <= days_before_year y + 4.
Proof.
  unfold week1. set (j := days_before_year y + 1). pose proof (Z.mod_pos_bound (j + 6) 7 ltac:(lia)).
  pose proof (Z.div_mod (j + 6) 7 ltac:(lia)). set (f := (j + 6) mod 7) in *. rewrite Z.gtb_ltb.
  destruct (Z.ltb_spec 3 f); (split; [|lia]).
  - symmetry. apply (Z.mod_unique_pos _ _ ((j + 6) / 7)); lia.
  - symmetry. apply (Z.mod_unique_pos _ _ ((j + 6) / 7 - 1)); lia.
Qed.

(** A year has 53 weeks when it starts on a Thursday, or on a Wednesday and is
    a leap year; otherwise 52. *)
Definition long_year (y : Z) : bool :=
  let w := (days_before_year y + 1) mod 7 in (w =? 4) || ((w =? 3) && is_leap y).

Lemma week1_next y : week1 (y + 1) = week1 y + 364 + (if long_year y then 7 else 0).
Proof.
  unfold week1, long_year. rewrite days_before_next. set (j := days_before_year y).
  pose proof (Z.div_mod (j + 1) 7 ltac:(lia)). pose proof (Z.mod_pos_bound (j + 1) 7 ltac:(lia)).
  set (q := (j + 1) / 7) in *. set (w := (j + 1) mod 7) in *.
  assert (F : (j + 1 + 6) mod 7 = if w =? 0 then 6 else w - 1).
  { destruct (Z.eqb_spec w 0); symmetry; [apply (Z.mod_unique_pos _ _ q) | apply (Z.mod_unique_pos _ _ (q + 1))]; lia. }
  rewrite F. destruct (is_leap y); cbn [b2z andb].
  - assert (G : (j + 365 + 1 + 1 + 6) mod 7 = if w =? 6 then 0 else if w =? 5 then 6 else w + 1).
    { destruct (Z.eqb_spec w 6); [|destruct (Z.eqb_spec w 5)]; symmetry;
        [apply (Z.mod_unique_pos _ _ (q + 54)) | apply (Z.mod_unique_pos _ _ (q + 53)) | apply (Z.mod_unique_pos _ _ (q + 53))]; lia. }
    rewrite G. assert (C : w = 0 \/ w = 1 \/ w = 2 \/ w = 3 \/ w = 4 \/ w = 5 \/ w = 6) by lia. clearbody w.
    clear F G. destruct C as [-> | [-> | [-> | [-> | [-> | [-> | ->]]]]]]; rewrite !Z.gtb_ltb; zcase; cbn [orb andb]; lia.
  - assert (G : (j + 365 + 0 + 1 + 6) mod 7 = w).
    { symmetry. apply (Z.mod_unique_pos _ _ (q + 53)); lia. }
    rewrite G. assert (C : w = 0 \/ w = 1 \/ w = 2 \/ w = 3 \/ w = 4 \/ w = 5 \/ w = 6) by lia. clearbody w.
    clear F G. destruct C as [-> | [-> | [-> | [-> | [-> | [-> | ->]]]]]]; rewrite !Z.gtb_ltb; zcase; cbn [orb andb]; lia.
Qed.

(** The ISO year of day [o] and what the other two components are. *)
Definition iso_of (o y w d : Z) : Prop :=
  week1 y <= o < week1 (y + 1) /\ w = (o - week1 y) / 7 + 1 /\ d = (o - week1 y) mod 7 + 1.

Lemma isocalendar_iso d : good_date d -> exists y w wd,
  Date.isocalendar d = Ret (y, w, wd) /\ iso_of (ord d) y w wd /\ MINYEAR <= y <= MAXYEAR.
Proof.
  intros G. pose proof (ord_range d G) as R. destruct G as [Hy V]. unfold Date.isocalendar. rewrite (isoweek1monday_ret (Date.year d)).
  cbn [mbind py_bind]. rewrite ymd2ord_ret by done. cbn [mbind py_bind]. fold (ord d).
  assert (B : days_before_year (Date.year d) + 1 <= ord d <= days_before_year (Date.year d) + 365 + b2z (is_leap (Date.year d))).
  { pose proof (dbm_bounds _ _ _ V). unfold ord, ordinal. lia. }
  rewrite <- days_before_next in B. set (y := Date.year d) in *.
  pose proof (week1_monday y) as [M1 M2]. pose proof (week1_monday (y + 1)) as [N1 N2]. pose proof (week1_monday (y + 1 + 1)) as [O1 O2].
  pose proof (days_before_mono (y + 1) (y + 1 + 1) ltac:(lia)).
  pose proof (Z.div_mod (ord d - week1 y) 7 ltac:(lia)) as D1. pose proof (Z.mod_pos_bound (ord d - week1 y) 7 ltac:(lia)) as D2.
  rewrite Z.geb_leb. destruct (Z.ltb_spec ((ord d - week1 y) / 7) 0) as [L|L].
  - rewrite isoweek1monday_ret. cbn [mbind py_bind]. eexists _, _, _. split; [reflexivity|].
    replace (y - 1 + 1) with y by lia. pose proof (week1_monday (y - 1)) as [P1 P2]. pose proof (days_before_mono (y - 1) y ltac:(lia)).
    pose proof (b2z_range (is_leap (y - 1))).
    split; [split; [|split; [done | done]]; replace (y - 1 + 1) with y by lia; lia|].
    assert (y <> 1); [|unfold MINYEAR, MAXYEAR in *; lia]. intros E. assert (W1 : week1 y = 1) by (by rewrite E). lia.
  - destruct (Z.leb_spec 52 ((ord d - week1 y) / 7)) as [K|K].
    + rewrite isoweek1monday_ret. cbn [mbind py_bind]. rewrite Z.geb_leb. destruct (Z.leb_spec (week1 (y + 1)) (ord d)) as [T|T].
      * eexists _, _, _. split; [reflexivity|]. pose proof (b2z_range (is_leap (y + 1))).
        assert (E7 : (ord d - week1 (y + 1)) mod 7 = (ord d - week1 y) mod 7).
        { rewrite (week1_next y). destruct (long_year y).
          - replace (ord d - (week1 y + 364 + 7)) with (ord d - week1 y + (-53) * 7) by lia. apply Z.mod_add. lia.
          - replace (ord d - (week1 y + 364 + 0)) with (ord d - week1 y + (-52) * 7) by lia. apply Z.mod_add. lia. }
        split; [split; [lia|]; split; [|by rewrite E7]|].
        -- rewrite Z.div_small by lia. done.
        -- assert (y <> 9999); [|unfold MINYEAR, MAXYEAR in *; lia]. intros E.
           assert (W1 : week1 (y + 1) = 3652062) by (rewrite E; reflexivity). unfold MAXORDINAL in R. lia.
      * eexists _, _, _. split; [reflexivity|]. split; [split; [lia | done] | done].
    + eexists _, _, _. split; [reflexivity|]. split; [split; [|done] | done].
      rewrite (week1_next y). destruct (long_year y); lia.
Qed.

(** a date's ISO calendar triple is what ISO 8601 says: week 1 starts on
    the Monday nearest to January 1, the ISO year is the one whose weeks
    contain the day; and [fromisocalendar] gives the date back. *)
Theorem isocalendar_roundtrip d : good_date d -> exists y w wd,
  Date.isocalendar d = Ret (y, w, wd) /\ iso_of (ord d) y w wd
  /\ Date.isoweekday d = Ret wd /\ 1 <= w <= 53 /\ Date.fromisocalendar y w wd = Ret d.
Proof.
  intros G. destruct (isocalendar_iso d G) as (y & w & wd & E & I & Hy). exists y, w, wd. split; [done|]. split; [done|].
  destruct I as (B & -> & ->). rewrite (week1_next y) in B. pose proof (week1_monday y) as [M1 M2].
  set (o := ord d) in *. pose proof (Z.div_mod (o - week1 y) 7 ltac:(lia)) as D1. pose proof (Z.mod_pos_bound (o - week1 y) 7 ltac:(lia)) as D2.
  set (q := (o - week1 y) / 7) in *. set (r := (o - week1 y) mod 7) in *.
  assert (Q : 0 <= q <= 51 \/ q = 52 /\ long_year y = true).
  { destruct (long_year y); [destruct (decide (q = 52)); [by right | left; lia] | left; lia]. }
  split; [|split; [lia|]].
  - unfold Date.isoweekday. rewrite toordinal_ret by done. cbn [mbind py_bind]. fold o. f_equal.
    pose proof (Z.div_mod (week1 y - 1) 7 ltac:(lia)) as D3. rewrite M1 in D3.
    destruct (Z.eqb_spec (o mod 7) 0) as [E0|E0].
    + pose proof (Z.div_mod o 7 ltac:(lia)). lia.
    + pose proof (Z.div_mod o 7 ltac:(lia)). pose proof (Z.mod_pos_bound o 7 ltac:(lia)). lia.
  - unfold Date.fromisocalendar, isoweek_to_gregorian.
    replace (between MINYEAR y MAXYEAR) with true by (symmetry; unfold between; lia). cbn [negb].
    assert (W : (if negb ((0 <? q + 1) && (q + 1 <? 53)) then
         if q + 1 =? 53 then
           o ← ymd2ord y 1 1; Ret (negb ((o mod 7 =? 4) || ((o mod 7 =? 3) && is_leap y)))
         else Ret true
       else Ret false) = Ret false).
    { destruct Q as [Q | [-> LY]].
      - rewrite (proj2 (Z.ltb_lt 0 (q + 1))), (proj2 (Z.ltb_lt (q + 1) 53)) by lia. done.
      - cbn [negb]. rewrite jan1. cbn [Z.ltb Z.eqb Z.compare Pos.compare Pos.compare_cont negb andb Pos.eqb Z.add Pos.add Pos.succ].
        cbn [mbind py_bind]. unfold long_year in LY. by rewrite LY. }
    rewrite W. cbn [mbind py_bind]. rewrite (proj2 (Z.ltb_lt 0 (r + 1))), (proj2 (Z.ltb_lt (r + 1) 8)) by lia. cbn [negb andb].
    rewrite isoweek1monday_ret. cbn [mbind py_bind]. replace (week1 y + ((q + 1 - 1) * 7 + (r + 1 - 1))) with o by lia.
    unfold o. pose proof (fromordinal_ord d G) as F. exact F.
Qed.

(** * Text *)

Definition is_digit (c : Z) : Prop := 48 <= c <= 57.

(** A padded number is as wide as asked, all digits, and reads back. *)
Lemma fmt0_spec w n : (0 < w)%nat -> 0 <= n < 10 ^ Z.of_nat w ->
  length (fmt0 w n) = w /\ Forall is_digit (fmt0 w n) /\ py_int 10 (fmt0 w n) = Ret n.
Proof.
  intros Hw Hn. unfold fmt0. rewrite (proj2 (Z.ltb_ge n 0)) by lia. unfold pad_left.
  assert (L : (length (to_base 10 n) <= w)%nat).
  { unfold to_base. rewrite length_fmap. destruct w as [|k]; [lia|]. apply digits_length; lia. }
  set (k := (w - length (to_base 10 n))%nat).
  pose proof (digits_bound 10 n ltac:(lia) ltac:(lia)) as B. pose proof (digits_nonempty 10 n) as NE.
  assert (E : replicate k 48 ++ to_base 10 n = digit_char <$> (replicate k 0 ++ Text.digits 10 n)).
  { rewrite fmap_app, fmap_replicate. done. }
  assert (B' : Forall (fun d => 0 <= d < 10) (replicate k 0 ++ Text.digits 10 n)).
  { apply Forall_app. split; [apply Forall_replicate; lia | done]. }
  assert (D : Forall is_digit (replicate k 48 ++ to_base 10 n)).
  { rewrite E. apply Forall_fmap. eapply Forall_impl; [exact B'|]. intros d Hd. cbv beta in Hd. unfold compose, is_digit, digit_char. zcase; lia. }
  split; [rewrite length_app, length_replicate; lia|]. split; [done|].
  unfold py_int, py_int_strip. rewrite strip_id.
  2: { eapply Forall_impl; [exact D|]. unfold is_digit, is_space, between. intros c Hc. simpl. lia. }
  assert (NE' : replicate k 0 ++ Text.digits 10 n <> []) by (intros EN; apply app_nil in EN; tauto).
  assert (U : py_int_unsigned 10 (replicate k 48 ++ to_base 10 n) = Some n).
  { change (int_digits 10 0 true (replicate k 48 ++ to_base 10 n) = Some n). rewrite E, int_digits_val by (done || lia).
    rewrite digits_val_zeros, digits_val_digits by lia. done. }
  destruct (replicate k 48 ++ to_base 10 n) as [|c l]; [done|]. apply Forall_cons in D as [Dc _]. unfold is_digit in Dc.
  rewrite (proj2 (Z.eqb_neq c 45)), (proj2 (Z.eqb_neq c 43)) by lia. by rewrite U.
Qed.

(** The characters of a padded number, one by one. *)
Lemma list_2 {A} (l : list A) : length l = 2%nat -> exists a b, l = [a; b].
Proof. destruct l as [|a [|b [|? ?]]]; try discriminate. eauto. Qed.
Lemma list_4 {A} (l : list A) : length l = 4%nat -> exists a b c d, l = [a; b; c; d].
Proof. destruct l as [|a [|b [|c [|d [|? ?]]]]]; try discriminate. eauto. Qed.
Lemma fmt2_spec n : 0 <= n < 100 -> exists a b, fmt0 2 n = [a; b] /\ is_digit a /\ is_digit b /\ py_int 10 [a; b] = Ret n.
Proof.
  intros Hn. destruct (fmt0_spec 2 n) as (L & D & I); [lia | simpl Z.of_nat; lia|].
  destruct (list_2 _ L) as (a & b & E). rewrite E in D, I. rewrite !Forall_cons in D. exists a, b. tauto.
Qed.
Lemma fmt4_spec n : 0 <= n < 10000 -> exists a b c d, fmt0 4 n = [a; b; c; d]
  /\ is_digit a /\ is_digit b /\ is_digit c /\ is_digit d /\ py_int 10 [a; b; c; d] = Ret n.
Proof.
  intros Hn. destruct (fmt0_spec 4 n) as (L & D & I); [lia | simpl Z.of_nat; lia|].
  destruct (list_4 _ L) as (a & b & c & d & E). rewrite E in D, I. rewrite !Forall_cons in D. exists a, b, c, d. tauto.
Qed.

(** Evaluates the slices whose bounds are known. *)
Ltac eval_slices :=
  repeat match goal with
  | |- context [@pyslice ?T ?l ?a ?b] =>
      let v := eval vm_compute in (@pyslice T l a b) in
      change (@pyslice T l a b) with v
  end.

Lemma not_letter c : is_digit c -> zeqb_list [c] (lit "W") = false.
Proof. intros H. unfold is_digit in H. change ((c =? 87) && true = false). lia. Qed.

Lemma date_text y m d : 0 <= y <= MAXYEAR -> 1 <= m <= 12 -> 1 <= d <= 31 ->
  parse_isoformat_date (fmt0 4 y ++ lit "-" ++ fmt0 2 m ++ lit "-" ++ fmt0 2 d) = Ret (y, m, d)
  /\ length (fmt0 4 y ++ lit "-" ++ fmt0 2 m ++ lit "-" ++ fmt0 2 d) = 10%nat.
Proof.
  intros Hy Hm Hd. destruct (fmt4_spec y) as (y1 & y2 & y3 & y4 & -> & D1 & D2 & D3 & D4 & I); [unfold MAXYEAR in *; lia|].
  destruct (fmt2_spec m) as (m1 & m2 & -> & D5 & D6 & I0); [lia|].
  destruct (fmt2_spec d) as (d1 & d2 & -> & D7 & D8 & I1); [lia|]. split; [|done].
  change (lit "-") with [45]. cbn [app]. unfold parse_isoformat_date.
  match goal with |- context [zlen ?l] => change (zlen l) with 10 end. cbn [existsb Z.eqb Pos.eqb orb passert mbind py_bind].
  eval_slices. rewrite I. change (pyget _ 4) with (Ret 45). cbn [mbind py_bind]. change (45 =? 45) with true. cbn [b2z].
  eval_slices. rewrite not_letter by done. rewrite I0. cbn [mbind py_bind negb Bool.eqb].
  eval_slices. rewrite I1. done.
Qed.

(** Computations that return or raise an [Exception]. *)
Definition plain {A} (m : py A) : Prop :=
  match m with Ret _ => True | Raise (SystemExit _) => False | Raise _ => True | NoFuel => False end.

Lemma plain_bind {A B} (m : py A) (f : A -> py B) : plain m -> (forall a, plain (f a)) -> plain (m ≫= f).
Proof. destruct m as [a|e|]; cbn; auto. Qed.
Lemma plain_ret {A} (a : A) : plain (Ret a).
Proof. done. Qed.
Lemma plain_assert b : plain (passert b).
Proof. by destruct b. Qed.
Lemma plain_get {A} (l : list A) i : plain (pyget l i).
Proof. unfold pyget, of_opt. repeat case_match; done. Qed.
Lemma plain_int b s : plain (py_int b s).
Proof. unfold py_int, py_int_strip, of_opt. repeat case_match; done. Qed.
#[export] Hint Resolve plain_bind plain_ret plain_assert plain_get plain_int : pylib.

Ltac plain_solve :=
  repeat first
  [ progress (intros; cbv zeta) | apply plain_ret | apply plain_assert | apply plain_get | apply plain_int
  | exact I | apply plain_bind | case_match ].

Lemma plain_days_in_month y m : plain (days_in_month y m).
Proof. unfold days_in_month. plain_solve. Qed.
Lemma plain_ymd2ord y m d : plain (ymd2ord y m d).
Proof.
  unfold ymd2ord. apply plain_bind; [apply plain_assert|]. intros _. apply plain_bind; [apply plain_days_in_month|]. intros n.
  apply plain_bind; [apply plain_assert|]. intros _. apply plain_bind; [unfold days_before_month; plain_solve|]. done.
Qed.
Lemma plain_ord2ymd n : plain (ord2ymd n).
Proof. destruct (ord2ymd_spec n) as (y & m & d & -> & _). done. Qed.

Lemma plain_isoweek y w d : plain (isoweek_to_gregorian y w d).
Proof.
  unfold isoweek_to_gregorian. case_match; [done|]. apply plain_bind.
  - by repeat case_match.
  - intros b. repeat case_match; try done. rewrite isoweek1monday_ret. apply plain_ord2ymd.
Qed.

Lemma plain_date_new y m d : plain (Date.new y m d).
Proof.
  unfold Date.new, check_date_fields. apply plain_bind; [|by intros [[? ?] ?]].
  repeat case_match; try done. apply plain_bind; [apply plain_days_in_month|]. intros n. by case_match.
Qed.

Lemma plain_parse_date s : plain (parse_isoformat_date s).
Proof.
  unfold parse_isoformat_date. apply plain_bind; [apply plain_assert|]. intros _.
  apply plain_bind; [apply plain_int|]. intros y. apply plain_bind; [apply plain_get|]. intros c. cbv zeta.
  case_match; (apply plain_bind; [apply plain_int|]); intros v.
  - apply plain_bind; [repeat case_match; try done; apply plain_int|]. intros n. apply plain_isoweek.
  - case_match; [done|]. apply plain_bind; [apply plain_int|]. done.
Qed.

Lemma or_value_error_plain {A} (m : py A) : plain m -> (exists a, m = Ret a /\ or_value_error m = Ret a) \/ or_value_error m = Raise ValueError.
Proof. destruct m as [a|[]|]; cbn; try done; eauto. Qed.

(** a date written by [isoformat] is read back by [fromisoformat], and a
    pickled date is restored; on any text [fromisoformat] gives a date that
    exists or raises [ValueError], nothing else. *)
Theorem date_roundtrips d : good_date d ->
  Date.fromisoformat (Date.isoformat d) = Ret d
  /\ (exists state, Date.getstate d = Ret state /\ Forall is_byte state /\ Date.new_state state = Ret d)
  /\ forall text, (exists d', Date.fromisoformat text = Ret d' /\ good_date d') \/ Date.fromisoformat text = Raise ValueError.
Proof.
  intros G. split_and!.
  - pose proof G as [Hy [Hm Hd]]. pose proof (dim_bound (is_leap (Date.year d)) (Date.month d) Hm). unfold MINYEAR, MAXYEAR in *.
    destruct (date_text (Date.year d) (Date.month d) (Date.day d)) as [E L]; [unfold MAXYEAR; lia | lia | lia|].
    unfold Date.fromisoformat, Date.isoformat. unfold zlen. rewrite L. cbn [existsb Z.eqb Pos.eqb orb negb Z.of_nat Pos.of_succ_nat Pos.succ].
    rewrite E. cbn [mbind py_bind]. destruct d as [y m dd]. cbn [Date.year Date.month Date.day]. by rewrite date_new_ret.
  - destruct d as [y m dd]. destruct G as [Hy [Hm Hd]]. cbn in *. pose proof (dim_bound (is_leap y) m Hm). unfold MINYEAR, MAXYEAR in *.
    pose proof (Z.div_mod y 256 ltac:(lia)). pose proof (Z.mod_pos_bound y 256 ltac:(lia)).
    assert (0 <= y / 256 < 40) by (split; [apply Z.div_pos | apply Z.div_lt_upper_bound]; lia).
    exists [y / 256; y mod 256; m; dd]. unfold Date.getstate, Date.bytes_of_ints, Date.new_state, between. cbn [forallb Date.year Date.month Date.day].
    rewrite !(proj2 (Z.leb_le _ _)) by lia. cbn [andb]. split; [done|]. split; [unfold is_byte; rewrite !Forall_cons; split_and!; [lia..|done]|].
    change (zlen [y / 256; y mod 256; m; dd] =? 4) with true. change (pyget [y / 256; y mod 256; m; dd] 2) with (Ret m). rewrite py_ret_bind.
    rewrite !(proj2 (Z.leb_le _ _)) by lia. cbn [andb Date.setstate]. do 2 f_equal. lia.
  - intros text. unfold Date.fromisoformat. case_match; [by right|].
    assert (P : plain ('(y, m, dd) ← parse_isoformat_date text; Date.new y m dd)).
    { apply plain_bind; [apply plain_parse_date|]. intros [[? ?] ?]. apply plain_date_new. }
    destruct (or_value_error_plain _ P) as [(d' & E & ->) | ->]; [left | by right]. exists d'. split; [done|].
    apply bind_ret_inv in E as ([[y m] dd] & _ & E). by apply date_new_inv in E as [_ ?].
Qed.

(** * Witnesses *)

Lemma timedelta_exact_witness :
  Timedelta.divmod (Timedelta.Td (-1) 68400 0) (Timedelta.Td 0 3600 0) = Ret (-5, Timedelta.Td 0 0 0).
Proof.
  destruct (timedelta_exact (Timedelta.Td (-1) 68400 0) (Timedelta.Td 0 3600 0) 0) as (_ & _ & _ & _ & _ & _ & -> & _);
    [split; cbn; lia | split; cbn; lia |]. reflexivity.
Defined.

Lemma divide_and_round_nearest_witness : exists q, divide_and_round 7 (-2) = Ret q
  /\ 2 * Z.abs (7 - q * -2) <= Z.abs (-2) /\ (2 * Z.abs (7 - q * -2) = Z.abs (-2) -> Z.even q = true).
Proof. apply (divide_and_round_nearest 7 (-2)). lia. Defined.

Lemma date_arithmetic_witness :
  exists c, Date.add (Date.Dt 2024 2 28) (Timedelta.Td 2 0 0) = Ret c /\ good_date c /\ ord c = ord (Date.Dt 2024 2 28) + 2.
Proof.
  destruct (date_arithmetic (Date.Dt 2024 2 28) (Date.Dt 2024 3 1) (Timedelta.Td 2 0 0)) as (_ & A & _);
    [split; [|split]; vm_compute; split; congruence | split; [|split]; vm_compute; split; congruence |].
  apply A. vm_compute. split; congruence.
Defined.

Lemma isocalendar_roundtrip_witness : exists y w wd,
  Date.isocalendar (Date.Dt 2021 1 3) = Ret (y, w, wd) /\ iso_of (ord (Date.Dt 2021 1 3)) y w wd
  /\ Date.isoweekday (Date.Dt 2021 1 3) = Ret wd /\ 1 <= w <= 53 /\ Date.fromisocalendar y w wd = Ret (Date.Dt 2021 1 3).
Proof. apply (isocalendar_roundtrip (Date.Dt 2021 1 3)). split; [|split]; vm_compute; split; congruence. Defined.

Lemma date_roundtrips_witness : Date.fromisoformat (Date.isoformat (Date.Dt 1 2 3)) = Ret (Date.Dt 1 2 3).
Proof. apply (date_roundtrips (Date.Dt 1 2 3)). split; [|split]; vm_compute; split; congruence. Defined.
