(* ===== verification/Times.v ===== *)
(** Times: the classes timezone, time and datetime of the runtime's
    _pydatetime.py, with the parser and the printer of ISO 8601 texts.

    Zones are the fixed-offset [timezone] objects of the module; an object
    has an identity ([tz_id]), which is what [is] compares, and a function
    that creates a zone is given the identity of the new object ([fresh]).
    Zones of other tzinfo subclasses are code outside the module. *)
From Stdlib Require Import ZArith Lia List.
From stdpp Require Import base list strings.
From S2P Require Import Prelude Text Dates.
Open Scope Z_scope.

Import Timedelta.

(** * Printing *)

(** [s.format(hh, mm, ss, us)] for the format [timespec] selects. *)
Definition format_time (hh mm ss us : Z) (timespec : list Z) : py (list Z) :=
  let '(timespec, us) :=
    if zeqb_list timespec (lit "auto")
    then (if negb (us =? 0) then lit "microseconds" else lit "seconds", us)
    else if zeqb_list timespec (lit "milliseconds") then (timespec, us / 1000)
    else (timespec, us) in
  let h := fmt0 2 hh in
  let hm := h ++ lit ":" ++ fmt0 2 mm in
  let hms := hm ++ lit ":" ++ fmt0 2 ss in
  if zeqb_list timespec (lit "hours") then Ret h
  else if zeqb_list timespec (lit "minutes") then Ret hm
  else if zeqb_list timespec (lit "seconds") then Ret hms
  else if zeqb_list timespec (lit "milliseconds") then Ret (hms ++ lit "." ++ fmt0 3 us)
  else if zeqb_list timespec (lit "microseconds") then Ret (hms ++ lit "." ++ fmt0 6 us)
  else Raise ValueError.

Definition format_offset (off : option timedelta) (sep : list Z) : py (list Z) :=
  match off with
  | None => Ret []
  | Some off =>
      '(sign, off) ← (if days off <? 0 then n ← neg off; Ret (lit "-", n) else Ret (lit "+", off));
      hour ← new 0 0 0 0 0 1 0;
      '(hh, mm) ← divmod off hour;
      minute ← new 0 0 0 0 1 0 0;
      '(mm, ss) ← divmod mm minute;
      let s := sign ++ fmt0 2 hh ++ sep ++ fmt0 2 mm in
      Ret (if bool_ ss || negb (microseconds ss =? 0) then
             let s := s ++ sep ++ fmt0 2 (seconds ss) in
             if negb (microseconds ss =? 0) then s ++ lit "." ++ fmt0 6 (microseconds ss) else s
           else s)
  end.

(** * class timezone *)

Record timezone := Tz { tz_id : Z; tz_offset : timedelta; tz_name : option (list Z) }.

(** [a is b] on zones or [None]. *)
Definition tz_is (a b : option timezone) : bool :=
  match a, b with
  | None, None => true
  | Some a, Some b => tz_id a =? tz_id b
  | _, _ => false
  end.

Definition utc : timezone := Tz 0 (Td 0 0 0) None.
Definition maxoffset : py timedelta := new 0 0 (-1) 0 0 24 0.
Definition minoffset : py timedelta := m ← maxoffset; neg m.

(** [timezone(offset)] or [timezone(offset, name)]. *)
Definition timezone_new (fresh : Z) (offset : timedelta) (name : option (list Z)) : py timezone :=
  match name with
  | None =>
      if negb (bool_ offset) then Ret utc
      else
        lo ← minoffset; hi ← maxoffset;
        if negb (leb lo offset && leb offset hi) then Raise ValueError
        else Ret (Tz fresh offset None)
  | Some n =>
      lo ← minoffset; hi ← maxoffset;
      if negb (leb lo offset && leb offset hi) then Raise ValueError
      else Ret (Tz fresh offset (Some n))
  end.

Definition timezone_eqb (a b : timezone) : bool := eqb (tz_offset a) (tz_offset b).

Definition name_from_offset (delta : timedelta) : py (list Z) :=
  if negb (bool_ delta) then Ret (lit "UTC")
  else
    '(sign, delta) ← (if ltb delta (Td 0 0 0) then n ← neg delta; Ret (lit "-", n) else Ret (lit "+", delta));
    hour ← new 0 0 0 0 0 1 0;
    '(hours, rest) ← divmod delta hour;
    minute ← new 0 0 0 0 1 0 0;
    '(minutes, rest) ← divmod rest minute;
    let hm := lit "UTC" ++ sign ++ fmt0 2 hours ++ lit ":" ++ fmt0 2 minutes in
    if negb (microseconds rest =? 0)
    then Ret (hm ++ lit ":" ++ fmt0 2 (seconds rest) ++ lit "." ++ fmt0 6 (microseconds rest))
    else if negb (seconds rest =? 0) then Ret (hm ++ lit ":" ++ fmt0 2 (seconds rest))
    else Ret hm.

Definition timezone_tzname (self : timezone) : py (list Z) :=
  match tz_name self with None => name_from_offset (tz_offset self) | Some n => Ret n end.

Definition check_utc_offset (offset : option timedelta) : py unit :=
  match offset with
  | None => Ret tt
  | Some offset =>
      day ← make 1 0 0;
      nday ← neg day;
      if negb (ltb nday offset && ltb offset day) then Raise ValueError else Ret tt
  end.

(** [self._tzinfo.utcoffset(...)] with its check. *)
Definition zone_utcoffset (tz : option timezone) : py (option timedelta) :=
  match tz with
  | None => Ret None
  | Some tz =>
      let offset := Some (tz_offset tz) in
      _ ← check_utc_offset offset;
      Ret offset
  end.

(** * Parsing *)

Definition is_ascii_digit (c : Z) : bool := between 48 c 57.

(** Index of the first character that is not a digit, from [idx] on. *)
Fixpoint digits_end (l : list Z) (idx : Z) : Z :=
  match l with
  | [] => idx
  | c :: l => if negb (is_ascii_digit c) then idx else digits_end l (idx + 1)
  end.

Definition find_isoformat_datetime_separator (dtstr : list Z) : py Z :=
  let len_dtstr := zlen dtstr in
  if len_dtstr =? 7 then Ret 7
  else
    _ ← passert (len_dtstr >? 7);
    c4 ← pyget dtstr 4;
    if c4 =? 45 then
      c5 ← pyget dtstr 5;
      if c5 =? 87 then
        if len_dtstr <? 8 then Raise ValueError
        else
          c8 ← (if len_dtstr >? 8 then c ← pyget dtstr 8; Ret (c =? 45) else Ret false);
          if c8 : bool then
            if len_dtstr =? 9 then Raise ValueError
            else
              c10 ← (if len_dtstr >? 10 then c ← pyget dtstr 10; Ret (is_ascii_digit c) else Ret false);
              if c10 : bool then Ret 8 else Ret 10
          else Ret 8
      else Ret 10
    else if c4 =? 87 then
      let idx := digits_end (drop 7 dtstr) 7 in
      if idx <? 9 then Ret idx
      else if idx mod 2 =? 0 then Ret 7 else Ret 8
    else Ret 8.

Definition FRACTION_CORRECTION : list Z := [100000; 10000; 1000; 100; 10].

(** One turn of the loop over the components: the position, [has_sep], the
    components and whether the loop was left. *)
Definition parse_comp (tstr : list Z) (st : Z * bool * list Z * bool) (comp : Z) : py (Z * bool * list Z * bool) :=
  let '(pos, has_sep, time_comps, stop) := st in
  if stop : bool then Ret st
  else if zlen tstr - pos <? 2 then Raise ValueError
  else
    v ← py_int 10 (pyslice tstr pos (pos + 2));
    time_comps ← pyset time_comps comp v;
    let pos := pos + 2 in
    let next_char := pyslice tstr pos (pos + 1) in
    let has_sep := if comp =? 0 then zeqb_list next_char (lit ":") else has_sep in
    if (zlen next_char =? 0) || (comp >=? 2) then Ret (pos, has_sep, time_comps, true)
    else if has_sep && negb (zeqb_list next_char (lit ":")) then Raise ValueError
    else Ret (pos + b2z has_sep, has_sep, time_comps, false).

Definition parse_hh_mm_ss_ff (tstr : list Z) : py (list Z) :=
  let len_str := zlen tstr in
  '(pos, _, time_comps, _) ← foldM (parse_comp tstr) (0, false, [0; 0; 0; 0], false) (pyrange 0 3);
  if pos <? len_str then
    c ← pyget tstr pos;
    if negb ((c =? 46) || (c =? 44)) then Raise ValueError
    else
      let pos := pos + 1 in
      if negb (forallb is_ascii_digit (pyslice tstr pos len_str)) then Raise ValueError
      else
        let len_remainder := len_str - pos in
        let to_parse := if len_remainder >=? 6 then 6 else len_remainder in
        v ← py_int 10 (pyslice tstr pos (pos + to_parse));
        v ← (if to_parse <? 6 then f ← pyget FRACTION_CORRECTION (to_parse - 1); Ret (v * f) else Ret v);
        pyset time_comps 3 v
  else Ret time_comps.

(** [s.find(c) + 1]. *)
Definition find1 (c : Z) (s : list Z) : Z :=
  match find_sub [c] s with Some i => Z.of_nat i + 1 | None => 0 end.

Definition parse_isoformat_time (fresh : Z) (tstr : list Z) : py (list Z * option timezone) :=
  let len_str := zlen tstr in
  if len_str <? 2 then Raise ValueError
  else
    let tz_pos :=
      if negb (find1 45 tstr =? 0) then find1 45 tstr
      else if negb (find1 43 tstr =? 0) then find1 43 tstr
      else find1 90 tstr in
    let timestr := if tz_pos >? 0 then pyslice tstr 0 (tz_pos - 1) else tstr in
    time_comps ← parse_hh_mm_ss_ff timestr;
    lastc ← pyget tstr (-1);
    tzi ←
      (if (tz_pos =? len_str) && (lastc =? 90) then Ret (Some utc)
       else if tz_pos >? 0 then
         let tzstr := pyslice tstr tz_pos len_str in
         if existsb (Z.eqb (zlen tzstr)) [0; 1; 3] then Raise ValueError
         else
           tz_comps ← parse_hh_mm_ss_ff tzstr;
           if forallb (Z.eqb 0) tz_comps then Ret (Some utc)
           else
             signc ← pyget tstr (tz_pos - 1);
             let tzsign := if signc =? 45 then -1 else 1 in
             h ← pyget tz_comps 0; m ← pyget tz_comps 1; s ← pyget tz_comps 2; us ← pyget tz_comps 3;
             td ← new 0 s us 0 m h 0;
             td ← mul td tzsign;
             tz ← timezone_new fresh td None;
             Ret (Some tz)
       else Ret None);
    Ret (time_comps, tzi).

Definition check_time_fields (hour minute second microsecond fold : Z) : py unit :=
  if negb (between 0 hour 23) then Raise ValueError
  else if negb (between 0 minute 59) then Raise ValueError
  else if negb (between 0 second 59) then Raise ValueError
  else if negb (between 0 microsecond 999999) then Raise ValueError
  else if negb ((fold =? 0) || (fold =? 1)) then Raise ValueError
  else Ret tt.

(** * class time *)

(** The argument of [hash]: a pickled state, or a tuple. *)
Inductive hash_arg :=
| HashState (state : list Z)
| HashTuple (tuple : list Z).

Module Time.

Record time := Tm { hour : Z; minute : Z; second : Z; microsecond : Z; tzinfo : option timezone; fold : Z }.

Definition make (hour minute second microsecond : Z) (tzinfo : option timezone) (fold : Z) : py time :=
  _ ← check_time_fields hour minute second microsecond fold;
  Ret (Tm hour minute second microsecond tzinfo fold).

Definition utcoffset (self : time) : py (option timedelta) := zone_utcoffset (tzinfo self).
Definition tzstr (self : time) : py (list Z) := off ← utcoffset self; format_offset off (lit ":").

Definition isoformat (self : time) (timespec : list Z) : py (list Z) :=
  s ← format_time (hour self) (minute self) (second self) (microsecond self) timespec;
  tz ← tzstr self;
  Ret (if negb (zlen tz =? 0) then s ++ tz else s).

Definition removeprefix_T (s : list Z) : list Z := if starts_with (lit "T") s then drop 1 s else s.

(** [cls( *comps )]. *)
Definition of_comps (comps : list Z) (tz : option timezone) : py time :=
  match comps with
  | [h; m; s; us] => make h m s us tz 0
  | _ => Raise TypeError
  end.

Definition fromisoformat (fresh : Z) (time_string : list Z) : py time :=
  let time_string := removeprefix_T time_string in
  or_value_error ('(comps, tz) ← parse_isoformat_time fresh time_string; of_comps comps tz).

Definition replace (self : time) (h m s us : option Z) (tz : option (option timezone)) (f : option Z) : py time :=
  make (default (hour self) h) (default (minute self) m) (default (second self) s)
    (default (microsecond self) us) (default (tzinfo self) tz) (default (fold self) f).

(** [a == b] on offsets or [None]. *)
Definition off_eqb (a b : option timedelta) : bool :=
  match a, b with
  | None, None => true
  | Some a, Some b => eqb a b
  | _, _ => false
  end.

Definition cmp (self other : time) (allow_mixed : bool) : py Z :=
  let mytz := tzinfo self in
  let ottz := tzinfo other in
  '(base_compare, myoff, otoff) ←
    (if tz_is mytz ottz then Ret (true, None, None)
     else
       myoff ← utcoffset self;
       otoff ← utcoffset other;
       Ret (off_eqb myoff otoff, myoff, otoff));
  if base_compare : bool then
    Ret (cmp_tuple [hour self; minute self; second self; microsecond self]
           [hour other; minute other; second other; microsecond other])
  else
    match myoff, otoff with
    | Some myoff, Some otoff =>
        minute1 ← new 0 0 0 0 1 0 0;
        m1 ← floordiv_delta myoff minute1;
        let myhhmm := hour self * 60 + minute self - m1 in
        m2 ← floordiv_delta otoff minute1;
        let othhmm := hour other * 60 + minute other - m2 in
        Ret (cmp_tuple [myhhmm; second self; microsecond self] [othhmm; second other; microsecond other])
    | _, _ => if allow_mixed then Ret 2 else Raise TypeError
    end.

Definition eqb (self other : time) : py bool := c ← cmp self other true; Ret (c =? 0).
Definition leb (self other : time) : py bool := c ← cmp self other false; Ret (c <=? 0).
Definition ltb (self other : time) : py bool := c ← cmp self other false; Ret (c <? 0).
Definition geb (self other : time) : py bool := c ← cmp self other false; Ret (c >=? 0).
Definition gtb (self other : time) : py bool := c ← cmp self other false; Ret (c >? 0).

Definition getstate (self : time) (protocol : Z) : py (list Z * option timezone) :=
  let '(us2, us3) := (microsecond self / 256, microsecond self mod 256) in
  let '(us1, us2) := (us2 / 256, us2 mod 256) in
  let h := hour self in
  let h := if negb (fold self =? 0) && (protocol >? 3) then h + 128 else h in
  basestate ← Date.bytes_of_ints [h; minute self; second self; us1; us2; us3];
  Ret (basestate, tzinfo self).

Definition setstate (string : list Z) (tz : option timezone) : py time :=
  match string with
  | [h; m; s; us1; us2; us3] =>
      let '(f, hr) := if h >? 127 then (1, h - 128) else (0, h) in
      Ret (Tm hr m s (Z.lor (Z.shiftl (Z.lor (Z.shiftl us1 8) us2) 8) us3) tz f)
  | _ => Raise ValueError
  end.

(** The constructor on a pickled state; anything else goes on to the field
    checks, where it is not an integer. *)
Definition new_state (hour : list Z) (tz : option timezone) : py time :=
  if zlen hour =? 6 then
    h ← pyget hour 0;
    if Z.land h 127 <? 24 then setstate hour tz else Raise TypeError
  else Raise TypeError.

(** What [__hash__] hashes. *)
Definition hash (self : time) : py hash_arg :=
  t ← (if negb (fold self =? 0) then replace self None None None None None (Some 0) else Ret self);
  tzoff ← utcoffset t;
  match tzoff with
  | Some tzoff =>
      if negb (bool_ tzoff) then '(st, _) ← getstate t 3; Ret (HashState st)
      else
        td ← new 0 0 0 0 (minute self) (hour self) 0;
        td ← sub td tzoff;
        hour1 ← new 0 0 0 0 0 1 0;
        '(h, m) ← divmod td hour1;
        minute1 ← new 0 0 0 0 1 0 0;
        r ← mod_ m minute1;
        _ ← passert (negb (bool_ r));
        m ← floordiv_delta m minute1;
        if (0 <=? h) && (h <? 24) then
          t' ← make h m (second self) (microsecond self) None 0;
          '(st, _) ← getstate t' 3;
          Ret (HashState st)
        else Ret (HashTuple [h; m; second self; microsecond self])
  | None => '(st, _) ← getstate t 3; Ret (HashState st)
  end.

End Time.

(** * class datetime *)

Module Datetime.

Record datetime := Dtm {
  year : Z; month : Z; day : Z; hour : Z; minute : Z; second : Z; microsecond : Z;
  tzinfo : option timezone; fold : Z
}.

Definition make (year month day hour minute second microsecond : Z) (tzinfo : option timezone) (fold : Z) : py datetime :=
  _ ← check_date_fields year month day;
  _ ← check_time_fields hour minute second microsecond fold;
  Ret (Dtm year month day hour minute second microsecond tzinfo fold).

Definition combine (date : Date.date) (time : Time.time) (tz : option (option timezone)) : py datetime :=
  let tzinfo := default (Time.tzinfo time) tz in
  make (Date.year date) (Date.month date) (Date.day date) (Time.hour time) (Time.minute time) (Time.second time)
    (Time.microsecond time) tzinfo (Time.fold time).

(** [except ValueError: raise ValueError]: other exceptions pass. *)
Definition fromisoformat (fresh : Z) (date_string : list Z) : py datetime :=
  if zlen date_string <? 7 then Raise ValueError
  else
    separator_location ← find_isoformat_datetime_separator date_string;
    let dstr := pyslice date_string 0 separator_location in
    let tstr := pyslice date_string (separator_location + 1) (zlen date_string) in
    '(y, m, d) ← parse_isoformat_date dstr;
    '(comps, tz) ← (if negb (zlen tstr =? 0) then parse_isoformat_time fresh tstr else Ret ([0; 0; 0; 0], None));
    match comps with
    | [hh; mm; ss; us] => make y m d hh mm ss us tz 0
    | _ => Raise TypeError
    end.

Definition toordinal (self : datetime) : py Z := ymd2ord (year self) (month self) (day self).
Definition utcoffset (self : datetime) : py (option timedelta) := zone_utcoffset (tzinfo self).
(** [timezone.dst] is [None]. *)
Definition timetuple (self : datetime) : py struct_time :=
  build_struct_time (year self) (month self) (day self) (hour self) (minute self) (second self) (-1).

Definition date (self : datetime) : py Date.date := Date.new (year self) (month self) (day self).
Definition time (self : datetime) : py Time.time :=
  Time.make (hour self) (minute self) (second self) (microsecond self) None (fold self).
Definition timetz (self : datetime) : py Time.time :=
  Time.make (hour self) (minute self) (second self) (microsecond self) (tzinfo self) (fold self).

Definition replace (self : datetime) (y m d h mi s us : option Z) (tz : option (option timezone)) (f : option Z) : py datetime :=
  make (default (year self) y) (default (month self) m) (default (day self) d) (default (hour self) h) (default (minute self) mi)
    (default (second self) s) (default (microsecond self) us) (default (tzinfo self) tz) (default (fold self) f).
(** [self.replace(tzinfo=tz)] and [self.replace(fold=f)]. *)
Definition replace_tz (self : datetime) (tz : option timezone) : py datetime :=
  replace self None None None None None None None (Some tz) None.
Definition replace_fold (self : datetime) (f : Z) : py datetime :=
  replace self None None None None None None None None (Some f).

Definition isoformat (self : datetime) (sep : Z) (timespec : list Z) : py (list Z) :=
  t ← format_time (hour self) (minute self) (second self) (microsecond self) timespec;
  let s := fmt0 4 (year self) ++ lit "-" ++ fmt0 2 (month self) ++ lit "-" ++ fmt0 2 (day self) ++ [sep] ++ t in
  off ← utcoffset self;
  tz ← format_offset off (lit ":");
  Ret (if negb (zlen tz =? 0) then s ++ tz else s).

Definition ctime (self : datetime) : py (list Z) :=
  o ← toordinal self;
  let weekday := if o mod 7 =? 0 then 7 else o mod 7 in
  dname ← pyget DAYNAMES weekday;
  mname ← pyget MONTHNAMES (month self);
  Ret (dname ++ lit " " ++ mname ++ lit " " ++ fmt_sp 2 (day self) ++ lit " " ++ fmt0 2 (hour self) ++ lit ":"
       ++ fmt0 2 (minute self) ++ lit ":" ++ fmt0 2 (second self) ++ lit " " ++ fmt0 4 (year self)).

Definition add (self : datetime) (other : timedelta) : py datetime :=
  o ← toordinal self;
  delta ← Timedelta.new o (second self) (microsecond self) 0 (minute self) (hour self) 0;
  delta ← Timedelta.add delta other;
  let '(hour, rem) := (seconds delta / 3600, seconds delta mod 3600) in
  let '(minute, second) := (rem / 60, rem mod 60) in
  if (0 <? days delta) && (days delta <=? MAXORDINAL) then
    d ← Date.fromordinal (days delta);
    t ← Time.make hour minute second (microseconds delta) (tzinfo self) 0;
    combine d t None
  else Raise OverflowError.

Definition sub_delta (self : datetime) (other : timedelta) : py datetime := n ← neg other; add self n.

Definition sub (self other : datetime) : py timedelta :=
  days1 ← toordinal self;
  days2 ← toordinal other;
  let secs1 := second self + minute self * 60 + hour self * 3600 in
  let secs2 := second other + minute other * 60 + hour other * 3600 in
  base ← Timedelta.make (days1 - days2) (secs1 - secs2) (microsecond self - microsecond other);
  if tz_is (tzinfo self) (tzinfo other) then Ret base
  else
    myoff ← utcoffset self;
    otoff ← utcoffset other;
    if Time.off_eqb myoff otoff then Ret base
    else
      match myoff, otoff with
      | Some myoff, Some otoff => s ← Timedelta.add base otoff; Timedelta.sub s myoff
      | _, _ => Raise TypeError
      end.

Definition cmp (self other : datetime) (allow_mixed : bool) : py Z :=
  let mytz := tzinfo self in
  let ottz := tzinfo other in
  '(r, base_compare, myoff, otoff) ←
    (if tz_is mytz ottz then Ret (None, true, None, None)
     else
       myoff ← utcoffset self;
       otoff ← utcoffset other;
       r ← (if allow_mixed : bool then
              s' ← replace_fold self (1 - fold self);
              myoff' ← utcoffset s';
              if negb (Time.off_eqb myoff myoff') then Ret (Some 2)
              else
                o' ← replace_fold other (1 - fold other);
                otoff' ← utcoffset o';
                if negb (Time.off_eqb otoff otoff') then Ret (Some 2) else Ret None
            else Ret None);
       Ret (r, Time.off_eqb myoff otoff, myoff, otoff));
  match r with
  | Some r => Ret r
  | None =>
      if base_compare : bool then
        Ret (cmp_tuple [year self; month self; day self; hour self; minute self; second self; microsecond self]
               [year other; month other; day other; hour other; minute other; second other; microsecond other])
      else
        match myoff, otoff with
        | Some _, Some _ =>
            diff ← sub self other;
            if days diff <? 0 then Ret (-1) else Ret (if bool_ diff then 1 else 0)
        | _, _ => if allow_mixed then Ret 2 else Raise TypeError
        end
  end.

Definition eqb (self other : datetime) : py bool := c ← cmp self other true; Ret (c =? 0).
Definition leb (self other : datetime) : py bool := c ← cmp self other false; Ret (c <=? 0).
Definition ltb (self other : datetime) : py bool := c ← cmp self other false; Ret (c <? 0).
Definition geb (self other : datetime) : py bool := c ← cmp self other false; Ret (c >=? 0).
Definition gtb (self other : datetime) : py bool := c ← cmp self other false; Ret (c >? 0).

(** [timezone.fromutc]. *)
Definition fromutc (tz : timezone) (dt : datetime) : py datetime :=
  if negb (tz_is (tzinfo dt) (Some tz)) then Raise ValueError else add dt (tz_offset tz).

(** [astimezone(tz)] of an aware datetime. *)
Definition astimezone (self : datetime) (mytz tz : timezone) : py datetime :=
  let myoffset := tz_offset mytz in
  if tz_is (Some tz) (Some mytz) then Ret self
  else
    u ← sub_delta self myoffset;
    utc ← replace_tz u (Some tz);
    fromutc tz utc.

Definition utctimetuple (self : datetime) : py struct_time :=
  offset ← utcoffset self;
  self ← (match offset with
          | Some off => if bool_ off then sub_delta self off else Ret self
          | None => Ret self
          end);
  build_struct_time (year self) (month self) (day self) (hour self) (minute self) (second self) 0.

Definition getstate (self : datetime) (protocol : Z) : py (list Z * option timezone) :=
  let '(yhi, ylo) := (year self / 256, year self mod 256) in
  let '(us2, us3) := (microsecond self / 256, microsecond self mod 256) in
  let '(us1, us2) := (us2 / 256, us2 mod 256) in
  let m := month self in
  let m := if negb (fold self =? 0) && (protocol >? 3) then m + 128 else m in
  basestate ← Date.bytes_of_ints [yhi; ylo; m; day self; hour self; minute self; second self; us1; us2; us3];
  Ret (basestate, tzinfo self).

Definition setstate (string : list Z) (tz : option timezone) : py datetime :=
  match string with
  | [yhi; ylo; m; d; h; mi; s; us1; us2; us3] =>
      let '(f, mo) := if m >? 127 then (1, m - 128) else (0, m) in
      Ret (Dtm (yhi * 256 + ylo) mo d h mi s (Z.lor (Z.shiftl (Z.lor (Z.shiftl us1 8) us2) 8) us3) tz f)
  | _ => Raise ValueError
  end.

(** The constructor on a pickled state; anything else goes on to the field
    checks, where it is not an integer. *)
Definition new_state (year : list Z) (tz : option timezone) : py datetime :=
  if zlen year =? 10 then
    m ← pyget year 2;
    if between 1 (Z.land m 127) 12 then setstate year tz else Raise TypeError
  else Raise TypeError.

(** What [__hash__] hashes: a state, or a timedelta as its own tuple. *)
Definition hash (self : datetime) : py hash_arg :=
  t ← (if negb (fold self =? 0) then replace_fold self 0 else Ret self);
  tzoff ← utcoffset t;
  match tzoff with
  | None => '(st, _) ← getstate t 3; Ret (HashState st)
  | Some tzoff =>
      days ← ymd2ord (year self) (month self) (day self);
      let seconds := hour self * 3600 + minute self * 60 + second self in
      td ← Timedelta.make days seconds (microsecond self);
      td ← Timedelta.sub td tzoff;
      Ret (HashTuple (Timedelta.getstate td))
  end.

End Datetime.

(** * Offsets *)

Definition US : timedelta -> Z := to_microseconds.

(** A zone the constructor accepts: less than a day either way. *)
Record good_tz (tz : timezone) : Prop := {
  tz_normal : normal (tz_offset tz);
  tz_small : - DAY < US (tz_offset tz) < DAY
}.
Definition good_zone (tz : option timezone) : Prop :=
  match tz with None => True | Some tz => good_tz tz end.

Lemma zcmp_lt a b : a < b -> zcmp a b = -1.
Proof. intros. unfold zcmp. rewrite Z.gtb_ltb. zcase; lia. Qed.
Lemma zcmp_gt a b : b < a -> zcmp a b = 1.
Proof. intros. unfold zcmp. rewrite Z.gtb_ltb. zcase; lia. Qed.
Lemma zcmp_eq a : zcmp a a = 0.
Proof. unfold zcmp. by rewrite Z.eqb_refl. Qed.

Lemma ranged_small t : - 999999999 * DAY <= t < 1000000000 * DAY -> ranged t = Ret (of_us t).
Proof.
  intros H. unfold ranged, DAY in *. pose proof (Z.div_mod t 86400000000 ltac:(lia)). pose proof (Z.mod_pos_bound t 86400000000 ltac:(lia)).
  rewrite Z.gtb_ltb, (proj2 (Z.ltb_ge _ _)) by lia. done.
Qed.

Lemma hour_ret : new 0 0 0 0 0 1 0 = Ret (Td 0 3600 0).
Proof. reflexivity. Qed.
Lemma minute_ret : new 0 0 0 0 1 0 0 = Ret (Td 0 60 0).
Proof. reflexivity. Qed.
Lemma day_ret : make 1 0 0 = Ret (Td 1 0 0).
Proof. reflexivity. Qed.

Lemma check_utc_offset_ret off : normal off -> - DAY < US off < DAY -> check_utc_offset (Some off) = Ret tt.
Proof.
  intros N H. unfold check_utc_offset. rewrite day_ret. cbn [mbind py_bind].
  change (neg (Td 1 0 0)) with (Ret (Td (-1) 0 0)). cbn [mbind py_bind]. unfold ltb.
  rewrite !cmp_us by (done || (split; cbn; lia)). unfold US, DAY in H.
  change (to_microseconds (Td (-1) 0 0)) with (-86400000000). change (to_microseconds (Td 1 0 0)) with 86400000000.
  rewrite !zcmp_lt by lia. done.
Qed.

Lemma zone_utcoffset_ret tz : good_zone tz -> zone_utcoffset tz = Ret (tz_offset <$> tz).
Proof.
  destruct tz as [tz|]; [|done]. intros [N H]. unfold zone_utcoffset. rewrite check_utc_offset_ret by done. done.
Qed.

Lemma days_neg td : normal td -> (days td <? 0) = (US td <? 0).
Proof. intros [N1 N2]. unfold US, to_microseconds. zcase; lia. Qed.

Lemma divmod_us a b : to_microseconds b <> 0 -> 0 < to_microseconds b < DAY ->
  divmod a b = Ret (to_microseconds a / to_microseconds b, of_us (to_microseconds a mod to_microseconds b)).
Proof.
  intros H B. unfold divmod, pydivmod. rewrite (proj2 (Z.eqb_neq _ _)) by done. cbn [mbind py_bind].
  rewrite delta_make_spec. replace ((0 * 86400 + 0) * 1000000 + _) with (to_microseconds a mod to_microseconds b) by lia.
  pose proof (Z.mod_pos_bound (to_microseconds a) (to_microseconds b) ltac:(lia)).
  rewrite ranged_small by (unfold DAY in *; lia). done.
Qed.

Lemma of_us_small t : 0 <= t < DAY -> of_us t = Td 0 (t / 1000000) (t mod 1000000).
Proof.
  intros H. unfold of_us, DAY in *. rewrite (Z.div_small t 86400000000) by lia. f_equal. apply Z.mod_small.
  split; [apply Z.div_pos | apply Z.div_lt_upper_bound]; lia.
Qed.

(** The four parts of an offset of [a] microseconds. *)
Definition off_parts (a : Z) : Z * Z * Z * Z :=
  (a / 3600000000, a mod 3600000000 / 60000000, a mod 60000000 / 1000000, a mod 1000000).

Definition offset_text (off : timedelta) : list Z :=
  let a := Z.abs (US off) in
  let '(hh, mm, ss, us) := off_parts a in
  (if US off <? 0 then lit "-" else lit "+") ++ fmt0 2 hh ++ lit ":" ++ fmt0 2 mm
  ++ (if (ss =? 0) && (us =? 0) then []
      else lit ":" ++ fmt0 2 ss ++ (if us =? 0 then [] else lit "." ++ fmt0 6 us)).

Lemma format_offset_ret off : normal off -> - DAY < US off < DAY -> format_offset (Some off) (lit ":") = Ret (offset_text off).
Proof.
  intros N H. unfold format_offset, offset_text. rewrite days_neg by done. set (a := Z.abs (US off)).
  assert (S : (if US off <? 0 then n ← neg off; Ret (lit "-", n) else Ret (lit "+", off))
    = Ret (if US off <? 0 then lit "-" else lit "+", of_us a)).
  { destruct (Z.ltb_spec (US off) 0).
    - unfold neg. rewrite delta_make_spec. rewrite ranged_small by (unfold US, to_microseconds, DAY in *; lia). cbn [mbind py_bind].
      do 3 f_equal. unfold a, US, to_microseconds in *. lia.
    - do 2 f_equal. unfold a. rewrite Z.abs_eq by lia. symmetry. by apply of_us_to_us. }
  rewrite S. clear S. cbn [mbind py_bind]. rewrite hour_ret. cbn [mbind py_bind].
  assert (Ha : 0 <= a < DAY) by lia. unfold DAY in Ha.
  rewrite divmod_us by (vm_compute; congruence || (split; reflexivity)). rewrite to_us_of_us.
  change (to_microseconds (Td 0 3600 0)) with 3600000000. cbn [mbind py_bind]. rewrite minute_ret. cbn [mbind py_bind].
  rewrite divmod_us by (vm_compute; congruence || (split; reflexivity)). rewrite to_us_of_us.
  change (to_microseconds (Td 0 60 0)) with 60000000. cbn [mbind py_bind].
  assert (E : (a mod 3600000000) mod 60000000 = a mod 60000000).
  { change 3600000000 with (60000000 * 60). rewrite Z.rem_mul_r by lia.
    rewrite Z.mul_comm, Z.mod_add by lia. by rewrite Z.mod_mod by lia. }
  rewrite E. pose proof (Z.mod_pos_bound a 60000000 ltac:(lia)) as B.
  rewrite of_us_small by (unfold DAY; lia).
  assert (E2 : (a mod 60000000) mod 1000000 = a mod 1000000).
  { change 60000000 with (1000000 * 60). rewrite Z.rem_mul_r by lia.
    rewrite Z.mul_comm, Z.mod_add by lia. by rewrite Z.mod_mod by lia. }
  rewrite E2. unfold off_parts, bool_. cbn [days seconds microseconds Z.eqb negb orb]. f_equal.
  destruct (a mod 60000000 / 1000000 =? 0), (a mod 1000000 =? 0); cbn [negb orb andb]; rewrite <- ?app_assoc; rewrite ?app_nil_r; done.
Qed.

(** * Texts *)

Lemma list_6 {A} (l : list A) : length l = 6%nat -> exists a b c d e f, l = [a; b; c; d; e; f].
Proof. destruct l as [|a [|b [|c [|d [|e [|f [|? ?]]]]]]]; try discriminate. eauto 10. Qed.
Lemma fmt6_spec n : 0 <= n < 1000000 -> exists a b c d e f, fmt0 6 n = [a; b; c; d; e; f]
  /\ Forall is_digit [a; b; c; d; e; f] /\ py_int 10 [a; b; c; d; e; f] = Ret n.
Proof.
  intros Hn. destruct (fmt0_spec 6 n) as (L & D & I); [lia | simpl Z.of_nat; lia|].
  destruct (list_6 _ L) as (a & b & c & d & e & f & E). rewrite E in D, I. by exists a, b, c, d, e, f.
Qed.

(** One component, read at a known place. *)
Lemma parse_comp_step tstr pos sep comps comp v comps' :
  2 <= zlen tstr - pos -> py_int 10 (pyslice tstr pos (pos + 2)) = Ret v -> pyset comps comp v = Ret comps' ->
  parse_comp tstr (pos, sep, comps, false) comp =
    let next := pyslice tstr (pos + 2) (pos + 2 + 1) in
    let sep := if comp =? 0 then zeqb_list next (lit ":") else sep in
    if (zlen next =? 0) || (comp >=? 2) then Ret (pos + 2, sep, comps', true)
    else if sep && negb (zeqb_list next (lit ":")) then Raise ValueError
    else Ret (pos + 2 + b2z sep, sep, comps', false).
Proof.
  intros H1 H2 H3. unfold parse_comp. rewrite (proj2 (Z.ltb_ge _ _)) by lia. rewrite H2. cbn [mbind py_bind]. rewrite H3. done.
Qed.

(** The same when a colon follows, when nothing follows, and for the last one. *)
Lemma parse_comp_colon tstr pos sep comps comp v comps' :
  2 <= zlen tstr - pos -> py_int 10 (pyslice tstr pos (pos + 2)) = Ret v -> pyset comps comp v = Ret comps' ->
  pyslice tstr (pos + 2) (pos + 2 + 1) = [58] -> comp = 0 \/ comp = 1 /\ sep = true ->
  parse_comp tstr (pos, sep, comps, false) comp = Ret (pos + 3, true, comps', false).
Proof.
  intros H1 H2 H3 H4 H5. rewrite (parse_comp_step _ _ _ _ _ _ _ H1 H2 H3), H4.
  cbv zeta. change (zeqb_list [58] (lit ":")) with true. replace (pos + 3) with (pos + 2 + b2z true) by (cbn; lia).
  by destruct H5 as [-> | [-> ->]].
Qed.
Lemma parse_comp_end tstr pos sep comps comp v comps' :
  2 <= zlen tstr - pos -> py_int 10 (pyslice tstr pos (pos + 2)) = Ret v -> pyset comps comp v = Ret comps' ->
  pyslice tstr (pos + 2) (pos + 2 + 1) = [] \/ comp = 2 -> exists sep',
  parse_comp tstr (pos, sep, comps, false) comp = Ret (pos + 2, sep', comps', true).
Proof.
  intros H1 H2 H3 H4. rewrite (parse_comp_step _ _ _ _ _ _ _ H1 H2 H3). cbv zeta.
  destruct H4 as [-> | ->]; [|rewrite orb_true_r]; cbn; eauto.
Qed.

Lemma parse_hm a b c d h m : py_int 10 [a; b] = Ret h -> py_int 10 [c; d] = Ret m ->
  parse_hh_mm_ss_ff [a; b; 58; c; d] = Ret [h; m; 0; 0].
Proof.
  intros H1 H2. unfold parse_hh_mm_ss_ff. change (pyrange 0 3) with [0; 1; 2]. cbn [foldM].
  rewrite (parse_comp_colon _ 0 _ _ 0 h [h; 0; 0; 0]) by (done || (vm_compute; congruence) || (by left)). cbn [mbind py_bind].
  destruct (parse_comp_end [a; b; 58; c; d] 3 true [h; 0; 0; 0] 1 m [h; m; 0; 0]) as [sep E]; [vm_compute; congruence | done | done | by left|].
  change (0 + 3) with 3. rewrite E. reflexivity.
Qed.

Section three.
Context (a b c d e f h m s : Z) (rest : list Z).
Hypothesis H1 : py_int 10 [a; b] = Ret h.
Hypothesis H2 : py_int 10 [c; d] = Ret m.
Hypothesis H3 : py_int 10 [e; f] = Ret s.
Let tstr := [a; b; 58; c; d; 58; e; f] ++ rest.

Lemma parse_three : exists sep,
  foldM (parse_comp tstr) (0, false, [0; 0; 0; 0], false) (pyrange 0 3) = Ret (8, sep, [h; m; s; 0], true).
Proof using H1 H2 H3.
  change (pyrange 0 3) with [0; 1; 2]. cbn [foldM].
  assert (L : zlen tstr = 8 + zlen rest) by (unfold tstr; rewrite zlen_app; done). pose proof (zlen_nonneg rest).
  assert (S : forall i j, 0 <= i <= j -> j <= 8 -> pyslice tstr i j = pyslice [a; b; 58; c; d; 58; e; f] i j).
  { intros i j Hi Hj. unfold tstr. apply pyslice_app_l; [lia | exact Hj]. }
  rewrite (parse_comp_colon _ 0 _ _ 0 h [h; 0; 0; 0]) by (try (rewrite S by lia); done || lia). cbn [mbind py_bind].
  change (0 + 3) with 3.
  rewrite (parse_comp_colon _ 3 _ _ 1 m [h; m; 0; 0]) by (try (rewrite S by lia); done || lia). cbn [mbind py_bind].
  change (3 + 3) with 6.
  destruct (parse_comp_end tstr 6 true [h; m; 0; 0] 2 s [h; m; s; 0]) as [sep E];
    [lia | by rewrite S by lia | done | by right|]. rewrite E. by exists sep.
Qed.

End three.

Lemma parse_hms a b c d e f h m s :
  py_int 10 [a; b] = Ret h -> py_int 10 [c; d] = Ret m -> py_int 10 [e; f] = Ret s ->
  parse_hh_mm_ss_ff [a; b; 58; c; d; 58; e; f] = Ret [h; m; s; 0].
Proof.
  intros H1 H2 H3. destruct (parse_three a b c d e f h m s [] H1 H2 H3) as [sep E]. rewrite app_nil_r in E.
  unfold parse_hh_mm_ss_ff. rewrite E. reflexivity.
Qed.

Lemma parse_hmsf a b c d e f h m s u1 u2 u3 u4 u5 u6 us :
  py_int 10 [a; b] = Ret h -> py_int 10 [c; d] = Ret m -> py_int 10 [e; f] = Ret s ->
  Forall is_digit [u1; u2; u3; u4; u5; u6] -> py_int 10 [u1; u2; u3; u4; u5; u6] = Ret us ->
  parse_hh_mm_ss_ff [a; b; 58; c; d; 58; e; f; 46; u1; u2; u3; u4; u5; u6] = Ret [h; m; s; us].
Proof.
  intros H1 H2 H3 D H4. destruct (parse_three a b c d e f h m s [46; u1; u2; u3; u4; u5; u6] H1 H2 H3) as [sep E].
  unfold parse_hh_mm_ss_ff. set (tstr := [a; b; 58; c; d; 58; e; f; 46; u1; u2; u3; u4; u5; u6]) in *.
  change ([a; b; 58; c; d; 58; e; f] ++ [46; u1; u2; u3; u4; u5; u6]) with tstr in E. rewrite E. cbn [mbind py_bind].
  change (8 <? zlen tstr) with true. change (pyget tstr 8) with (Ret 46). cbv iota. cbn [mbind py_bind Z.eqb Pos.eqb orb negb].
  change (pyslice tstr (8 + 1) (zlen tstr)) with [u1; u2; u3; u4; u5; u6].
  replace (forallb is_ascii_digit [u1; u2; u3; u4; u5; u6]) with true.
  2: { symmetry. apply forallb_Forall. eapply Forall_impl; [exact D|]. unfold is_digit, is_ascii_digit, between. simpl. lia. }
  change (zlen tstr - (8 + 1)) with 6. cbn [negb]. change (6 >=? 6) with true. cbv iota. cbn [negb].
  change (pyslice tstr (8 + 1) (8 + 1 + 6)) with [u1; u2; u3; u4; u5; u6]. rewrite H4. reflexivity.
Qed.

(** The text of a time of day. *)
Definition clock_text (hh mm ss us : Z) : list Z :=
  fmt0 2 hh ++ lit ":" ++ fmt0 2 mm ++ lit ":" ++ fmt0 2 ss ++ (if us =? 0 then [] else lit "." ++ fmt0 6 us).

(** Digits, colons and the point. *)
Definition clock_char (c : Z) : Prop := 46 <= c <= 58.

Lemma digit_clock c : is_digit c -> clock_char c.
Proof. unfold is_digit, clock_char. lia. Qed.

Lemma clock_text_spec hh mm ss us : 0 <= hh < 100 -> 0 <= mm < 100 -> 0 <= ss < 100 -> 0 <= us < 1000000 ->
  parse_hh_mm_ss_ff (clock_text hh mm ss us) = Ret [hh; mm; ss; us]
  /\ Forall clock_char (clock_text hh mm ss us) /\ 8 <= zlen (clock_text hh mm ss us).
Proof.
  intros Hh Hm Hs Hu. unfold clock_text.
  destruct (fmt2_spec hh Hh) as (h1 & h2 & -> & D1 & D2 & I1). destruct (fmt2_spec mm Hm) as (m1 & m2 & -> & D3 & D4 & I2).
  destruct (fmt2_spec ss Hs) as (s1 & s2 & -> & D5 & D6 & I3).
  assert (C58 : clock_char 58) by (unfold clock_char; lia). assert (C46 : clock_char 46) by (unfold clock_char; lia).
  change (lit ":") with [58]. change (lit ".") with [46]. cbn [app].
  destruct (Z.eqb_spec us 0) as [->|Nu].
  - split; [by apply parse_hms|]. split; [|vm_compute; congruence]. rewrite !Forall_cons. eauto 20 using digit_clock.
  - destruct (fmt6_spec us Hu) as (u1 & u2 & u3 & u4 & u5 & u6 & -> & D & I4). cbn [app].
    split; [by apply parse_hmsf|]. split; [|vm_compute; congruence]. rewrite !Forall_cons in *. eauto 30 using digit_clock.
    destruct D as (? & ? & ? & ? & ? & ? & _). split_and!; auto using digit_clock.
Qed.

Lemma find_sub_none c s : c ∉ s -> find_sub [c] s = None.
Proof.
  induction s as [|x s IH]; [done|]. rewrite not_elem_of_cons. intros [N1 N2]. cbn.
  rewrite (proj2 (Z.eqb_neq c x)) by done. cbn. by rewrite IH.
Qed.
Lemma find_sub_first c s r : c ∉ s -> find_sub [c] (s ++ c :: r) = Some (length s).
Proof.
  induction s as [|x s IH]; cbn; [by rewrite Z.eqb_refl|]. rewrite not_elem_of_cons. intros [N1 N2].
  rewrite (proj2 (Z.eqb_neq c x)) by done. cbn. by rewrite IH.
Qed.
Lemma find1_none c s : c ∉ s -> find1 c s = 0.
Proof. intros N. unfold find1. by rewrite find_sub_none. Qed.
Lemma find1_first c s r : c ∉ s -> find1 c (s ++ c :: r) = zlen s + 1.
Proof. intros N. unfold find1. by rewrite find_sub_first. Qed.

Lemma clock_no c s : Forall clock_char s -> c < 46 \/ 58 < c -> c ∉ s.
Proof. intros F Hc HI. rewrite Forall_forall in F. specialize (F c HI). unfold clock_char in F. lia. Qed.

(** The zone the parser makes of an offset. *)
Definition rezone (fresh : Z) (off : timedelta) : timezone :=
  if US off =? 0 then utc else Tz fresh off None.

Lemma timezone_new_ret fresh off : normal off -> - DAY < US off < DAY ->
  timezone_new fresh off None = Ret (rezone fresh off).
Proof.
  intros N H. unfold timezone_new, rezone. rewrite bool_us by done. unfold US in *.
  destruct (Z.eqb_spec (to_microseconds off) 0); [done|]. cbn [negb].
  change minoffset with (Ret (Td (-1) 0 1)). change maxoffset with (Ret (Td 0 86399 999999)). cbn [mbind py_bind].
  unfold leb. rewrite !cmp_us by (done || (split; cbn; lia)).
  change (to_microseconds (Td (-1) 0 1)) with (-86399999999). change (to_microseconds (Td 0 86399 999999)) with 86399999999.
  unfold DAY in H. assert (L1 : zcmp (-86399999999) (to_microseconds off) <= 0) by (unfold zcmp; rewrite Z.gtb_ltb; zcase; lia).
  assert (L2 : zcmp (to_microseconds off) 86399999999 <= 0) by (unfold zcmp; rewrite Z.gtb_ltb; zcase; lia).
  rewrite !(proj2 (Z.leb_le _ _)) by done. done.
Qed.

(** What follows the sign of an offset. *)
Definition offset_tail (a : Z) : list Z :=
  let '(hh, mm, ss, us) := off_parts a in
  fmt0 2 hh ++ lit ":" ++ fmt0 2 mm
  ++ (if (ss =? 0) && (us =? 0) then [] else lit ":" ++ fmt0 2 ss ++ (if us =? 0 then [] else lit "." ++ fmt0 6 us)).

Lemma off_parts_bounds a hh mm ss us : 0 <= a < DAY -> off_parts a = (hh, mm, ss, us) ->
  0 <= hh < 24 /\ 0 <= mm < 60 /\ 0 <= ss < 60 /\ 0 <= us < 1000000
  /\ a = hh * 3600000000 + mm * 60000000 + ss * 1000000 + us.
Proof.
  intros H [= <- <- <- <-]. unfold DAY in H.
  pose proof (Z.div_mod a 3600000000 ltac:(lia)). pose proof (Z.mod_pos_bound a 3600000000 ltac:(lia)).
  pose proof (Z.div_mod (a mod 3600000000) 60000000 ltac:(lia)). pose proof (Z.mod_pos_bound (a mod 3600000000) 60000000 ltac:(lia)).
  assert (E : (a mod 3600000000) mod 60000000 = a mod 60000000).
  { change 3600000000 with (60000000 * 60). rewrite Z.rem_mul_r by lia. rewrite Z.mul_comm, Z.mod_add by lia. by rewrite Z.mod_mod by lia. }
  rewrite E in *. pose proof (Z.div_mod (a mod 60000000) 1000000 ltac:(lia)). pose proof (Z.mod_pos_bound (a mod 60000000) 1000000 ltac:(lia)).
  assert (E2 : (a mod 60000000) mod 1000000 = a mod 1000000).
  { change 60000000 with (1000000 * 60). rewrite Z.rem_mul_r by lia. rewrite Z.mul_comm, Z.mod_add by lia. by rewrite Z.mod_mod by lia. }
  rewrite E2 in *. lia.
Qed.

Lemma offset_tail_spec a hh mm ss us : 0 <= a < DAY -> off_parts a = (hh, mm, ss, us) ->
  parse_hh_mm_ss_ff (offset_tail a) = Ret [hh; mm; ss; us]
  /\ Forall clock_char (offset_tail a) /\ 5 <= zlen (offset_tail a).
Proof.
  intros H E. destruct (off_parts_bounds a hh mm ss us H E) as (Bh & Bm & Bs & Bu & _). unfold offset_tail. rewrite E.
  destruct ((ss =? 0) && (us =? 0)) eqn:Z0.
  - assert (ss = 0 /\ us = 0) as [-> ->] by lia. rewrite app_nil_r.
    destruct (fmt2_spec hh ltac:(lia)) as (h1 & h2 & -> & D1 & D2 & I1). destruct (fmt2_spec mm ltac:(lia)) as (m1 & m2 & -> & D3 & D4 & I2).
    change (lit ":") with [58]. cbn [app]. assert (C58 : clock_char 58) by (unfold clock_char; lia).
    split; [by apply parse_hm|]. split; [|vm_compute; congruence]. rewrite !Forall_cons. eauto 20 using digit_clock.
  - destruct (clock_text_spec hh mm ss us) as (P & F & L); [lia..|]. unfold clock_text in *. split; [done|]. split; [done | lia].
Qed.

Section zoned.
Context (fresh : Z) (base comps : list Z).
Hypothesis Hparse : parse_hh_mm_ss_ff base = Ret comps.
Hypothesis Hchars : Forall clock_char base.
Hypothesis Hlen : 2 <= zlen base.

Lemma parse_naive : parse_isoformat_time fresh base = Ret (comps, None).
Proof using All.
  unfold parse_isoformat_time. rewrite (proj2 (Z.ltb_ge _ _)) by lia.
  rewrite !find1_none by (apply clock_no; [done | lia]). change (0 =? 0) with true. cbn [negb]. cbv zeta iota. change (0 >? 0) with false. cbv iota.
  rewrite Hparse. cbn [mbind py_bind]. destruct (lookup_lt_is_Some_2 base (Z.to_nat (-1 + zlen base))) as [x E]; [unfold zlen in *; lia|].
  unfold pyget. cbn [Z.ltb Z.compare]. rewrite (proj2 (Z.ltb_ge (-1 + zlen base) 0)) by lia. rewrite E. cbn [of_opt mbind py_bind].
  rewrite (proj2 (Z.eqb_neq 0 (zlen base))) by lia. done.
Qed.

(** The same text with a sign and an offset of [a] microseconds. *)
Lemma parse_signed (sign a : Z) : sign = 45 \/ sign = 43 -> 0 <= a < DAY -> (sign = 45 -> a <> 0) ->
  parse_isoformat_time fresh (base ++ sign :: offset_tail a)
  = Ret (comps, Some (rezone fresh (of_us (if sign =? 45 then - a else a)))).
Proof using All.
  intros Hs Ha Hn. destruct (off_parts a) as [[[hh mm] ss] us] eqn:EP.
  destruct (off_parts_bounds a hh mm ss us Ha EP) as (Bh & Bm & Bs & Bu & Ea).
  destruct (offset_tail_spec a hh mm ss us Ha EP) as (P & F & L). set (tl := offset_tail a) in *.
  pose proof (zlen_nonneg base). assert (LT : zlen (base ++ sign :: tl) = zlen base + 1 + zlen tl) by (rewrite zlen_app, zlen_cons; lia).
  assert (TZ : (if negb (find1 45 (base ++ sign :: tl) =? 0) then find1 45 (base ++ sign :: tl)
      else if negb (find1 43 (base ++ sign :: tl) =? 0) then find1 43 (base ++ sign :: tl)
      else find1 90 (base ++ sign :: tl)) = zlen base + 1).
  { destruct Hs as [-> | ->].
    - rewrite find1_first by (apply clock_no; [done | lia]). rewrite (proj2 (Z.eqb_neq _ _)) by lia. done.
    - rewrite (find1_none 45).
      + cbn [Z.eqb negb]. rewrite find1_first by (apply clock_no; [done | lia]). rewrite (proj2 (Z.eqb_neq _ _)) by lia. done.
      + rewrite not_elem_of_app, not_elem_of_cons. split_and!; [apply clock_no; [done | lia] | lia | apply clock_no; [done | lia]]. }
  unfold parse_isoformat_time. rewrite (proj2 (Z.ltb_ge _ _)) by lia. rewrite TZ. clear TZ. rewrite Z.gtb_ltb, (proj2 (Z.ltb_lt 0 (zlen base + 1))) by lia.
  replace (zlen base + 1 - 1) with (zlen base) by lia.
  rewrite (pyslice_app_l base (sign :: tl) 0 (zlen base)), (pyslice_full base) by (lia || done). rewrite Hparse. cbn [mbind py_bind].
  destruct (lookup_lt_is_Some_2 (base ++ sign :: tl) (Z.to_nat (-1 + zlen (base ++ sign :: tl)))) as [x E]; [unfold zlen in *; lia|].
  assert (GL : pyget (base ++ sign :: tl) (-1) = Ret x).
  { unfold pyget. cbn [Z.ltb Z.compare]. rewrite (proj2 (Z.ltb_ge (-1 + zlen (base ++ sign :: tl)) 0)) by lia. by rewrite E. }
  rewrite GL. clear GL. cbn [mbind py_bind].
  rewrite (proj2 (Z.eqb_neq (zlen base + 1) (zlen (base ++ sign :: tl)))) by lia. cbn [andb].
  replace (pyslice (base ++ sign :: tl) (zlen base + 1) (zlen (base ++ sign :: tl))) with tl.
  2: { rewrite pyslice_app_r by lia. replace (zlen base + 1 - zlen base) with 1 by lia.
       replace (zlen (base ++ sign :: tl) - zlen base) with (1 + zlen tl) by lia. change (sign :: tl) with ([sign] ++ tl).
       rewrite pyslice_app_r by (change (zlen [sign]) with 1; lia). change (zlen [sign]) with 1.
       replace (1 + zlen tl - 1) with (zlen tl) by lia. by rewrite pyslice_full. }
  replace (existsb (Z.eqb (zlen tl)) [0; 1; 3]) with false by (symmetry; cbn [existsb]; lia). rewrite P. cbn [mbind py_bind].
  assert (GS : pyget (base ++ sign :: tl) (zlen base) = Ret sign).
  { apply pyget_ret; [done|]. rewrite lookup_app_r by (unfold zlen; lia). unfold zlen. by rewrite Nat2Z.id, Nat.sub_diag. }
  destruct (forallb (Z.eqb 0) [hh; mm; ss; us]) eqn:EZ.
  - cbn [forallb] in EZ. assert (a = 0) by lia. assert (sign = 43) by tauto. subst sign. rewrite H0. cbn. done.
  - rewrite GS. cbn [mbind py_bind].
    change (pyget [hh; mm; ss; us] 0) with (Ret hh). change (pyget [hh; mm; ss; us] 1) with (Ret mm).
    change (pyget [hh; mm; ss; us] 2) with (Ret ss). change (pyget [hh; mm; ss; us] 3) with (Ret us). cbn [mbind py_bind].
    rewrite delta_new_spec. replace (((0 + 0 * 7) * 86400 + ss + mm * 60 + hh * 3600) * 1000000 + us + 0 * 1000) with a by lia.
    rewrite ranged_small by (unfold DAY in *; lia). cbn [mbind py_bind].
    assert (MU : forall k, k = 1 \/ k = -1 -> mul (of_us a) k = Ret (of_us (a * k))).
    { intros k Hk. unfold mul. rewrite delta_make_spec. pose proof (to_us_of_us a) as T. unfold to_microseconds in T.
      replace ((_ * 86400 + _) * 1000000 + _) with (a * k) by nia. apply ranged_small. unfold DAY in *. nia. }
    rewrite MU by (destruct (sign =? 45); auto). cbn [mbind py_bind].
    replace (a * (if sign =? 45 then -1 else 1)) with (if sign =? 45 then - a else a) by (destruct (sign =? 45); lia).
    rewrite timezone_new_ret; [done | apply of_us_normal|]. unfold US. rewrite to_us_of_us. destruct (sign =? 45); lia.
Qed.
End zoned.

(** * Times of day *)

Record good_clock (hh mm ss us fold : Z) : Prop := {
  clock_hour : 0 <= hh <= 23; clock_minute : 0 <= mm <= 59; clock_second : 0 <= ss <= 59;
  clock_us : 0 <= us <= 999999; clock_fold : fold = 0 \/ fold = 1
}.
Definition good_time (t : Time.time) : Prop :=
  good_clock (Time.hour t) (Time.minute t) (Time.second t) (Time.microsecond t) (Time.fold t) /\ good_zone (Time.tzinfo t).

Lemma check_time_ret hh mm ss us fold : good_clock hh mm ss us fold -> check_time_fields hh mm ss us fold = Ret tt.
Proof.
  intros [H1 H2 H3 H4 H5]. unfold check_time_fields, between. rewrite !(proj2 (Z.leb_le _ _)) by lia. cbn [andb negb].
  by destruct H5 as [-> | ->].
Qed.

Lemma check_time_inv hh mm ss us fold u : check_time_fields hh mm ss us fold = Ret u -> good_clock hh mm ss us fold.
Proof.
  unfold check_time_fields, between. repeat case_match; try done. intros _. split; lia.
Qed.

Lemma time_make_ret h m s us tz f : good_clock h m s us f -> Time.make h m s us tz f = Ret (Time.Tm h m s us tz f).
Proof. intros H. unfold Time.make. by rewrite check_time_ret. Qed.

Lemma format_time_auto hh mm ss us : format_time hh mm ss us (lit "auto") = Ret (clock_text hh mm ss us).
Proof.
  unfold format_time, clock_text. change (zeqb_list (lit "auto") (lit "auto")) with true. cbv iota zeta.
  destruct (Z.eqb_spec us 0) as [->|N]; cbn [negb].
  - change (zeqb_list (lit "seconds") (lit "hours")) with false. change (zeqb_list (lit "seconds") (lit "minutes")) with false.
    change (zeqb_list (lit "seconds") (lit "seconds")) with true. cbv iota. by rewrite app_nil_r, <- !app_assoc.
  - change (zeqb_list (lit "microseconds") (lit "hours")) with false. change (zeqb_list (lit "microseconds") (lit "minutes")) with false.
    change (zeqb_list (lit "microseconds") (lit "seconds")) with false. change (zeqb_list (lit "microseconds") (lit "milliseconds")) with false.
    change (zeqb_list (lit "microseconds") (lit "microseconds")) with true. cbv iota. by rewrite <- !app_assoc.
Qed.

(** The zone read back: the same offset in a new object. *)
Definition rezone_opt (fresh : Z) (tz : option timezone) : option timezone := (fun z => rezone fresh (tz_offset z)) <$> tz.

Definition zone_text (tz : option timezone) : list Z := match tz with None => [] | Some z => offset_text (tz_offset z) end.

Lemma offset_text_signed off : normal off -> - DAY < US off < DAY -> exists sign a,
  offset_text off = sign :: offset_tail a /\ (sign = 45 \/ sign = 43) /\ 0 <= a < DAY /\ (sign = 45 -> a <> 0)
  /\ of_us (if sign =? 45 then - a else a) = off.
Proof.
  intros N H. exists (if US off <? 0 then 45 else 43), (Z.abs (US off)). unfold offset_text, offset_tail.
  destruct (off_parts (Z.abs (US off))) as [[[hh mm] ss] us].
  split; [by destruct (US off <? 0)|]. split; [destruct (US off <? 0); auto|]. split; [lia|].
  unfold US in *. pose proof (of_us_to_us off N) as E.
  destruct (Z.ltb_spec (to_microseconds off) 0); (split; [lia|]); cbn [Z.eqb Pos.eqb];
    (etransitivity; [|exact E]); f_equal; lia.
Qed.

Lemma zone_format tz : good_zone tz -> (off ← zone_utcoffset tz; format_offset off (lit ":")) = Ret (zone_text tz).
Proof.
  intros G. rewrite zone_utcoffset_ret by done. cbn [mbind py_bind]. destruct tz as [z|]; [|done].
  destruct G as [N H]. by apply format_offset_ret.
Qed.

Lemma zone_text_len tz : good_zone tz -> (zlen (zone_text tz) =? 0) = match tz with None => true | Some _ => false end.
Proof.
  destruct tz as [z|]; [|done]. intros [N H]. destruct (offset_text_signed _ N H) as (sign & a & E & _). cbn [zone_text]. rewrite E.
  rewrite zlen_cons. pose proof (zlen_nonneg (offset_tail a)). lia.
Qed.

Lemma parse_time_text fresh hh mm ss us fold tz : good_clock hh mm ss us fold -> good_zone tz ->
  parse_isoformat_time fresh (clock_text hh mm ss us ++ zone_text tz) = Ret ([hh; mm; ss; us], rezone_opt fresh tz).
Proof.
  intros [H1 H2 H3 H4 _] G. destruct (clock_text_spec hh mm ss us) as (P & F & L); [lia..|].
  destruct tz as [z|]; cbn [zone_text rezone_opt fmap option_fmap option_map].
  - destruct G as [N H]. destruct (offset_text_signed _ N H) as (sign & a & E & Hs & Ha & Hn & EO). rewrite E.
    rewrite (parse_signed fresh _ _ P F) by (done || lia). by rewrite EO.
  - rewrite app_nil_r. apply parse_naive; [done | done | lia].
Qed.

Lemma microseconds_state us : 0 <= us <= 999999 ->
  0 <= us / 256 / 256 < 256 /\ 0 <= us / 256 mod 256 < 256 /\ 0 <= us mod 256 < 256
  /\ Z.lor (Z.shiftl (Z.lor (Z.shiftl (us / 256 / 256) 8) (us / 256 mod 256)) 8) (us mod 256) = us.
Proof.
  intros H. pose proof (Z.div_mod us 256 ltac:(lia)). pose proof (Z.mod_pos_bound us 256 ltac:(lia)).
  pose proof (Z.div_mod (us / 256) 256 ltac:(lia)). pose proof (Z.mod_pos_bound (us / 256) 256 ltac:(lia)).
  assert (0 <= us / 256 / 256) by (repeat apply Z.div_pos; lia).
  split; [lia|]. split; [done|]. split; [done|]. rewrite (lor_shiftl_add (us / 256 / 256)) by lia.
  rewrite lor_shiftl_add by lia. change (2 ^ 8) with 256. lia.
Qed.

(** The fold is kept from protocol 4 on. *)
Definition kept_fold (p f : Z) : Z := if p >? 3 then f else 0.
Lemma fold_byte h f p : 0 <= h < 128 -> f = 0 \/ f = 1 ->
  let b := if negb (f =? 0) && (p >? 3) then h + 128 else h in
  0 <= b < 256 /\ Z.land b 127 = h /\ (if b >? 127 then (1, b - 128) else (0, b)) = (kept_fold p f, h).
Proof.
  intros Hh Hf. cbv zeta. change 127 with (Z.ones 7) at 1. rewrite Z.land_ones by lia. change (2 ^ 7) with 128. unfold kept_fold.
  assert (Z0 : 0 <= h < 256 /\ h mod 128 = h /\ (if h >? 127 then (1, h - 128) else (0, h)) = (0, h)) by (rewrite Z.gtb_ltb, (proj2 (Z.ltb_ge 127 h)) by lia; split; [lia|]; split; [apply Z.mod_small; lia | done]).
  destruct Hf as [-> | ->]; cbn [Z.eqb negb andb]; [by destruct (p >? 3)|]. destruct (p >? 3); [|exact Z0]. rewrite Z.gtb_ltb, (proj2 (Z.ltb_lt 127 (h + 128))) by lia. split; [lia|]. split.
  - replace (h + 128) with (h + 1 * 128) by lia. rewrite Z.mod_add by lia. apply Z.mod_small. lia.
  - f_equal. lia.
Qed.

(** a time of day printed by [isoformat] is read back with the same
    fields and the same offset from UTC (the zone is a new object), and a
    pickled time is restored, fold included. *)
Theorem time_roundtrips fresh t : good_time t ->
  (exists text, Time.isoformat t (lit "auto") = Ret text
     /\ Time.fromisoformat fresh text
        = Ret (Time.Tm (Time.hour t) (Time.minute t) (Time.second t) (Time.microsecond t)
                 (rezone_opt fresh (Time.tzinfo t)) 0))
  /\ (exists state, Time.getstate t 4 = Ret (state, Time.tzinfo t) /\ Forall is_byte state
        /\ Time.new_state state (Time.tzinfo t) = Ret t).
Proof.
  destruct t as [h m s us tz f]. intros [C G]. cbn in C, G. split.
  - exists (clock_text h m s us ++ zone_text tz). split.
    + unfold Time.isoformat, Time.tzstr, Time.utcoffset. cbn [Time.hour Time.minute Time.second Time.microsecond Time.tzinfo].
      rewrite format_time_auto, zone_format by done. cbn [mbind py_bind]. rewrite zone_text_len by done.
      destruct tz; cbn [negb zone_text]; [done | by rewrite app_nil_r].
    + unfold Time.fromisoformat, Time.removeprefix_T. replace (starts_with (lit "T") (clock_text h m s us ++ zone_text tz)) with false.
      * rewrite (parse_time_text fresh h m s us f tz C G). cbn [mbind py_bind Time.of_comps].
        rewrite time_make_ret; [done|]. destruct C as [? ? ? ? _]. split; auto.
      * destruct C as [? ? ? ? _]. destruct (clock_text_spec h m s us) as (_ & F & L); [lia..|].
        destruct (clock_text h m s us) as [|c l]; [vm_compute in L; congruence|]. apply Forall_cons in F as [F _]. unfold clock_char in F.
        change (false = (84 =? c) && true). lia.
  - destruct C as [C1 C2 C3 C4 C5]. destruct (microseconds_state us C4) as (U1 & U2 & U3 & U4).
    destruct (fold_byte h f 4 ltac:(lia) C5) as (F1 & F2 & F3).
    set (b := if negb (f =? 0) && (4 >? 3) then h + 128 else h) in *.
    exists [b; m; s; us / 256 / 256; us / 256 mod 256; us mod 256].
    unfold Time.getstate, Date.bytes_of_ints, Time.new_state, Time.setstate. cbn [Time.hour Time.minute Time.second Time.microsecond Time.tzinfo Time.fold].
    fold b. replace (forallb _ _) with true by (symmetry; cbn [forallb]; unfold between; lia). split; [done|].
    split; [unfold is_byte; rewrite !Forall_cons; split_and!; [lia..|done]|].
    match goal with |- context [zlen ?l =? 6] => change (zlen l =? 6) with true; change (pyget l 0) with (Ret b) end. rewrite py_ret_bind.
    rewrite F2, (proj2 (Z.ltb_lt h 24)) by lia. rewrite F3, U4. done.
Qed.

(** * datetime *)

Section datetimes.
Import Datetime.

Definition date_of (d : datetime) : Date.date := Date.Dt (year d) (month d) (day d).

Record good_datetime (d : datetime) : Prop := {
  dt_date : good_date (date_of d);
  dt_clock : good_clock (hour d) (minute d) (second d) (microsecond d) (fold d);
  dt_zone : good_zone (tzinfo d)
}.

(** The microseconds the fields say, and the same moved to UTC. *)
Definition wall (d : datetime) : Z :=
  (ord (date_of d) * 86400 + hour d * 3600 + minute d * 60 + second d) * 1000000 + microsecond d.
Definition zone_us (tz : option timezone) : Z := match tz with None => 0 | Some z => US (tz_offset z) end.
Definition instant (d : datetime) : Z := wall d - zone_us (tzinfo d).

Lemma dt_make_ret y m d h mi s us tz f : good_datetime (Dtm y m d h mi s us tz f) ->
  make y m d h mi s us tz f = Ret (Dtm y m d h mi s us tz f).
Proof.
  intros [G C _]. unfold make. pose proof (date_new_ret y m d G) as E. unfold Date.new in E. cbn in C.
  destruct (check_date_fields y m d); [|done|done]. cbn [mbind py_bind]. by rewrite check_time_ret.
Qed.

Lemma dt_ord d : good_datetime d -> toordinal d = Ret (ord (date_of d)).
Proof. intros [G _ _]. exact (toordinal_ret _ G). Qed.

Lemma dt_fields d : good_datetime d -> 1 <= ord (date_of d) <= MAXORDINAL
  /\ 0 <= hour d <= 23 /\ 0 <= minute d <= 59 /\ 0 <= second d <= 59 /\ 0 <= microsecond d <= 999999.
Proof. intros [G [? ? ? ? _] _]. split; [by apply ord_range | done]. Qed.

(** The fields are determined by the number of microseconds. *)
Lemma wall_fields a b : good_datetime a -> good_datetime b -> wall a = wall b ->
  date_of a = date_of b /\ hour a = hour b /\ minute a = minute b /\ second a = second b /\ microsecond a = microsecond b.
Proof.
  intros A B E. destruct (dt_fields a A) as (A0 & A1 & A2 & A3 & A4). destruct (dt_fields b B) as (B0 & B1 & B2 & B3 & B4).
  unfold wall in E. assert (EO : ord (date_of a) = ord (date_of b)) by lia.
  split; [|lia]. destruct A as [[_ VA] _ _], B as [[_ VB] _ _]. unfold ord in EO. apply ordinal_inj in EO; [|done|done].
  unfold date_of in *. cbn in EO. congruence.
Qed.

Lemma wall_range d : good_datetime d -> DAY <= wall d < (MAXORDINAL + 1) * DAY.
Proof. intros G. destruct (dt_fields d G) as (? & ? & ? & ? & ?). unfold wall, DAY. lia. Qed.

(** The datetime [t] microseconds after the start of the calendar. *)
Lemma wall_onto t tz : DAY <= t < (MAXORDINAL + 1) * DAY -> good_zone tz ->
  exists d, good_datetime d /\ wall d = t /\ tzinfo d = tz /\ fold d = 0
    /\ Date.fromordinal (t / DAY) = Ret (date_of d)
    /\ t / 1000000 mod 86400 / 3600 = hour d /\ t / 1000000 mod 86400 mod 3600 / 60 = minute d
    /\ t / 1000000 mod 86400 mod 3600 mod 60 = second d /\ t mod 1000000 = microsecond d.
Proof.
  intros Ht Hz. unfold DAY in Ht. set (q := t / 1000000). set (s := q mod 86400).
  pose proof (Z.div_mod t 1000000 ltac:(lia)) as E1. pose proof (Z.mod_pos_bound t 1000000 ltac:(lia)) as B1. fold q in E1.
  pose proof (Z.div_mod q 86400 ltac:(lia)) as E2. pose proof (Z.mod_pos_bound q 86400 ltac:(lia)) as B2. fold s in E2, B2.
  assert (ED : q / 86400 = t / DAY) by (unfold q, DAY; rewrite Z.div_div by lia; done). rewrite ED in E2.
  pose proof (Z.div_mod s 3600 ltac:(lia)) as E3. pose proof (Z.mod_pos_bound s 3600 ltac:(lia)) as B3.
  pose proof (Z.div_mod (s mod 3600) 60 ltac:(lia)) as E4. pose proof (Z.mod_pos_bound (s mod 3600) 60 ltac:(lia)) as B4.
  destruct (fromordinal_ret (t / DAY)) as (dd & F & G & O); [unfold MAXORDINAL in *; lia|].
  exists (Dtm (Date.year dd) (Date.month dd) (Date.day dd) (s / 3600) (s mod 3600 / 60) ((s mod 3600) mod 60) (t mod 1000000) tz 0).
  assert (DE : date_of (Dtm (Date.year dd) (Date.month dd) (Date.day dd) (s / 3600) (s mod 3600 / 60) ((s mod 3600) mod 60) (t mod 1000000) tz 0) = dd)
    by (by destruct dd).
  split; [split; [by rewrite DE | split; cbn; [lia..|by left] | done]|].
  split; [unfold wall; rewrite DE; cbn; lia|]. rewrite DE. done.
Qed.

(** The end of [__add__]: the datetime of a timedelta since day 0. *)
Definition add_finish (d : datetime) (delta : timedelta) : py datetime :=
  let '(hour, rem) := (seconds delta / 3600, seconds delta mod 3600) in
  let '(minute, second) := (rem / 60, rem mod 60) in
  if (0 <? days delta) && (days delta <=? MAXORDINAL) then
    dd ← Date.fromordinal (days delta);
    t ← Time.make hour minute second (microseconds delta) (tzinfo d) 0;
    combine dd t None
  else Raise OverflowError.

Lemma of_us_sum w td :
  ((days (of_us w) + days td) * 86400 + (seconds (of_us w) + seconds td)) * 1000000 + (microseconds (of_us w) + microseconds td)
  = w + US td.
Proof.
  pose proof (to_us_of_us w) as T. destruct (of_us w) as [a b c]. unfold US, to_microseconds in *. cbn [days seconds microseconds] in *. lia.
Qed.

Lemma of_us_diff w td :
  ((days (of_us w) - days td) * 86400 + (seconds (of_us w) - seconds td)) * 1000000 + (microseconds (of_us w) - microseconds td)
  = w - US td.
Proof.
  pose proof (to_us_of_us w) as T. destruct (of_us w) as [a b c]. unfold US, to_microseconds in *. cbn [days seconds microseconds] in *. lia.
Qed.

Lemma dt_add_delta d td : good_datetime d -> add d td = (delta ← ranged (wall d + US td); add_finish d delta).
Proof.
  intros G. pose proof (wall_range d G) as WR. unfold add. rewrite dt_ord by done. rewrite py_ret_bind, delta_new_spec.
  match goal with |- context [ranged ?x] => replace x with (wall d) by (unfold wall; lia) end.
  rewrite ranged_small by (unfold DAY, MAXORDINAL in *; lia). rewrite py_ret_bind. unfold Timedelta.add. rewrite delta_make_spec.
  by rewrite of_us_sum.
Qed.

Lemma add_finish_in d t : good_zone (tzinfo d) -> DAY <= t < (MAXORDINAL + 1) * DAY ->
  exists r, add_finish d (of_us t) = Ret r /\ good_datetime r /\ wall r = t /\ tzinfo r = tzinfo d /\ fold r = 0.
Proof.
  intros GZ Ht. destruct (wall_onto t (tzinfo d) Ht GZ) as (r & GR & W & TZ & FO & F & E1 & E2 & E3 & E4). exists r.
  split; [|done]. unfold add_finish, of_us. cbn [days seconds microseconds].
  pose proof (Z.div_mod t DAY ltac:(unfold DAY; lia)). pose proof (Z.mod_pos_bound t DAY ltac:(unfold DAY; lia)).
  rewrite (proj2 (Z.ltb_lt 0 (t / DAY))), (proj2 (Z.leb_le (t / DAY) MAXORDINAL)) by (unfold DAY, MAXORDINAL in *; lia). cbn [andb].
  rewrite F, py_ret_bind, E1, E2, E3, E4. pose proof GR as [GR1 GR2 GR3].
  rewrite time_make_ret by (by rewrite <- FO). rewrite py_ret_bind. unfold combine.
  cbn [default Time.tzinfo Time.hour Time.minute Time.second Time.microsecond Time.fold].
  rewrite <- TZ, <- FO. destruct r. exact (dt_make_ret _ _ _ _ _ _ _ _ _ GR).
Qed.

Lemma add_finish_out d t : ~ DAY <= t < (MAXORDINAL + 1) * DAY -> add_finish d (of_us t) = Raise OverflowError.
Proof.
  intros Ht. unfold add_finish, of_us. cbn [days seconds microseconds].
  pose proof (Z.div_mod t DAY ltac:(unfold DAY; lia)). pose proof (Z.mod_pos_bound t DAY ltac:(unfold DAY; lia)).
  replace ((0 <? t / DAY) && (t / DAY <=? MAXORDINAL)) with false; [done|]. symmetry. unfold DAY, MAXORDINAL in *. lia.
Qed.

Lemma dt_add_in d td : good_datetime d -> DAY <= wall d + US td < (MAXORDINAL + 1) * DAY ->
  exists r, add d td = Ret r /\ good_datetime r /\ wall r = wall d + US td /\ tzinfo r = tzinfo d /\ fold r = 0.
Proof.
  intros G Ht. rewrite dt_add_delta by done. rewrite ranged_small by (unfold DAY, MAXORDINAL in *; lia). rewrite py_ret_bind.
  apply add_finish_in; [apply G | done].
Qed.

Lemma dt_add_out d td : good_datetime d -> ~ DAY <= wall d + US td < (MAXORDINAL + 1) * DAY -> add d td = Raise OverflowError.
Proof.
  intros G Ht. rewrite dt_add_delta by done. unfold ranged. destruct (_ >? _); [done|]. rewrite py_ret_bind. by apply add_finish_out.
Qed.

(** Zones are objects: the same identity is the same object. *)
Definition same_heap (a b : option timezone) : Prop :=
  match a, b with Some a, Some b => tz_id a = tz_id b -> a = b | _, _ => True end.

Lemma tz_is_eq a b : same_heap a b -> tz_is a b = true -> a = b.
Proof.
  destruct a as [a|], b as [b|]; cbn; try done. intros H E. apply Z.eqb_eq in E. by rewrite (H E).
Qed.

Lemma off_eqb_us a b : good_tz a -> good_tz b -> Time.off_eqb (Some (tz_offset a)) (Some (tz_offset b)) = (US (tz_offset a) =? US (tz_offset b)).
Proof.
  intros [A _] [B _]. cbn. unfold Timedelta.eqb. rewrite cmp_us by done. unfold zcmp, US. rewrite Z.gtb_ltb. zcase; lia.
Qed.

(** Both naive, or both aware. *)
Definition comparable (a b : datetime) : Prop :=
  match tzinfo a, tzinfo b with None, None => True | Some _, Some _ => True | _, _ => False end.

Lemma dt_sub_spec a b : good_datetime a -> good_datetime b -> same_heap (tzinfo a) (tzinfo b) ->
  comparable a b -> sub a b = Ret (of_us (instant a - instant b)).
Proof.
  intros A B SH C. pose proof (wall_range a A) as WA. pose proof (wall_range b B) as WB. unfold sub. rewrite !dt_ord by done. rewrite ?py_ret_bind.
  rewrite delta_make_spec. match goal with |- context [ranged ?x] => replace x with (wall a - wall b) by (unfold wall; lia) end.
  rewrite ranged_small by (unfold DAY, MAXORDINAL in *; lia). rewrite ?py_ret_bind.
  destruct (tz_is (tzinfo a) (tzinfo b)) eqn:TI.
  { apply tz_is_eq in TI; [|done]. unfold instant. rewrite TI. do 2 f_equal. lia. }
  unfold utcoffset. rewrite !zone_utcoffset_ret by (apply A || apply B). rewrite ?py_ret_bind. unfold comparable in C. unfold instant.
  pose proof (dt_zone a A) as ZA. pose proof (dt_zone b B) as ZB.
  destruct (tzinfo a) as [za|], (tzinfo b) as [zb|]; try done.
  cbn [fmap option_fmap option_map zone_us good_zone] in *.
  destruct (Time.off_eqb (Some (tz_offset za)) (Some (tz_offset zb))) eqn:OE.
  - rewrite off_eqb_us in OE by done. do 2 f_equal. lia.
  - destruct ZA as [NA SA], ZB as [NB SB]. unfold Timedelta.add. rewrite delta_make_spec, of_us_sum.
    rewrite ranged_small by (unfold DAY, MAXORDINAL in *; lia). rewrite py_ret_bind.
    unfold Timedelta.sub. rewrite delta_make_spec, of_us_diff. rewrite ranged_small by (unfold DAY, MAXORDINAL in *; lia).
    do 2 f_equal. lia.
Qed.
End datetimes.

Section datetime_text.
Import Datetime.
Context (fresh sep y m d h mi s us f : Z) (tz : option timezone).
Let self := Dtm y m d h mi s us tz f.
Hypothesis G : good_datetime self.

Definition date_text_of : list Z := fmt0 4 y ++ lit "-" ++ fmt0 2 m ++ lit "-" ++ fmt0 2 d.

Lemma isoformat_text : isoformat self sep (lit "auto") = Ret (date_text_of ++ sep :: clock_text h mi s us ++ zone_text tz).
Proof using G.
  destruct G as [_ _ Z]. cbn in Z. unfold isoformat, self. cbn [hour minute second microsecond year month day].
  rewrite format_time_auto, py_ret_bind. unfold utcoffset. cbn [tzinfo].
  pose proof (zone_format tz Z) as F. pose proof (zone_text_len tz Z) as L. rewrite zone_utcoffset_ret in F |- * by done.
  rewrite py_ret_bind in F |- *. rewrite F, py_ret_bind, L. f_equal. unfold date_text_of.
  destruct tz; cbn [negb zone_text]; rewrite ?app_nil_r, <- ?app_assoc; done.
Qed.

Lemma separator_found rest : find_isoformat_datetime_separator (date_text_of ++ sep :: rest) = Ret 10.
Proof using G.
  destruct G as [[Hy [Hm Hd]] _ _]. cbn in Hy, Hm, Hd. pose proof (dim_bound (is_leap y) m Hm). unfold MINYEAR, MAXYEAR in Hy.
  unfold date_text_of. destruct (fmt4_spec y) as (y1 & y2 & y3 & y4 & -> & _); [lia|].
  destruct (fmt2_spec m) as (m1 & m2 & -> & D5 & D6 & _); [lia|]. destruct (fmt2_spec d) as (d1 & d2 & -> & D7 & D8 & _); [lia|].
  change (lit "-") with [45]. cbn [app]. unfold find_isoformat_datetime_separator.
  set (txt := y1 :: _). assert (L : 11 <= zlen txt) by (unfold txt; rewrite !zlen_cons; pose proof (zlen_nonneg rest); lia).
  cbv zeta. rewrite (proj2 (Z.eqb_neq (zlen txt) 7)) by lia.
  replace (zlen txt >? 7) with true by (symmetry; rewrite Z.gtb_ltb; apply Z.ltb_lt; lia). unfold passert. rewrite py_ret_bind.
  change (pyget txt 4) with (Ret 45). rewrite py_ret_bind. change (45 =? 45) with true. cbv iota.
  change (pyget txt 5) with (Ret m1). rewrite py_ret_bind. unfold is_digit in D5. by rewrite (proj2 (Z.eqb_neq m1 87)) by lia.
Qed.

Lemma fromisoformat_text :
  fromisoformat fresh (date_text_of ++ sep :: clock_text h mi s us ++ zone_text tz)
  = Ret (Dtm y m d h mi s us (rezone_opt fresh tz) 0).
Proof using G.
  unfold fromisoformat. pose proof G as [GD C Z]. cbn in C, Z. pose proof GD as [Hy [Hm Hd]]. cbn in Hy, Hm, Hd.
  pose proof (dim_bound (is_leap y) m Hm). unfold MINYEAR, MAXYEAR in Hy.
  destruct (date_text y m d) as [P L]; [unfold MAXYEAR; lia | lia | lia|]. fold date_text_of in P, L.
  assert (L10 : zlen date_text_of = 10) by (unfold zlen; by rewrite L).
  pose proof (zlen_nonneg (clock_text h mi s us ++ zone_text tz)).
  set (txt := date_text_of ++ sep :: clock_text h mi s us ++ zone_text tz).
  assert (LT : zlen txt = 11 + zlen (clock_text h mi s us ++ zone_text tz)) by (unfold txt; rewrite zlen_app, zlen_cons; lia).
  rewrite (proj2 (Z.ltb_ge (zlen txt) 7)) by lia.
  rewrite (separator_found _ : find_isoformat_datetime_separator txt = Ret 10), py_ret_bind.
  assert (S1 : pyslice txt 0 10 = date_text_of) by (unfold txt; rewrite pyslice_app_l, pyslice_full by lia; done).
  assert (S2 : pyslice txt (10 + 1) (zlen txt) = clock_text h mi s us ++ zone_text tz).
  { unfold txt at 1. rewrite pyslice_app_r by lia. rewrite L10, LT. change (sep :: clock_text h mi s us ++ zone_text tz) with ([sep] ++ (clock_text h mi s us ++ zone_text tz)).
    rewrite pyslice_app_r by (change (zlen [sep]) with 1; lia). change (zlen [sep]) with 1. replace (11 + zlen (clock_text h mi s us ++ zone_text tz) - 10 - 1) with (zlen (clock_text h mi s us ++ zone_text tz)) by lia. by apply pyslice_full. }
  rewrite S1, S2, P, py_ret_bind.
  assert (NZ : (zlen (clock_text h mi s us ++ zone_text tz) =? 0) = false).
  { destruct C as [? ? ? ? _]. destruct (clock_text_spec h mi s us) as (_ & _ & L8); [lia..|].
    rewrite zlen_app. pose proof (zlen_nonneg (zone_text tz)). lia. }
  rewrite NZ. cbn [negb]. rewrite (parse_time_text fresh h mi s us f tz C Z), py_ret_bind. apply dt_make_ret.
  split; [done | destruct C; split; auto|]. cbn. destruct tz as [z|]; [|done]. destruct Z as [N1 N2]. cbn. unfold rezone. case_match; split; cbn; try done.
Qed.

Lemma datetime_state p : exists state, getstate self p = Ret (state, tz) /\ Forall is_byte state /\ new_state state tz = Ret (Dtm y m d h mi s us tz (kept_fold p f)).
Proof using G.
  pose proof G as [[Hy [Hm Hd]] [C1 C2 C3 C4 C5] _]. cbn in *. pose proof (dim_bound (is_leap y) m Hm). unfold MINYEAR, MAXYEAR in Hy.
  destruct (microseconds_state us C4) as (U1 & U2 & U3 & U4). destruct (fold_byte m f p ltac:(lia) C5) as (F1 & F2 & F3).
  set (b := if negb (f =? 0) && (p >? 3) then m + 128 else m) in *.
  pose proof (Z.div_mod y 256 ltac:(lia)). pose proof (Z.mod_pos_bound y 256 ltac:(lia)).
  assert (0 <= y / 256 < 40) by (split; [apply Z.div_pos | apply Z.div_lt_upper_bound]; lia).
  exists [y / 256; y mod 256; b; d; h; mi; s; us / 256 / 256; us / 256 mod 256; us mod 256].
  unfold getstate, Date.bytes_of_ints, new_state, setstate, self. cbn [year month day hour minute second microsecond tzinfo fold]. fold b.
  replace (forallb _ _) with true by (symmetry; cbn [forallb]; unfold between; lia). split; [done|].
  split; [unfold is_byte; rewrite !Forall_cons; split_and!; [lia..|done]|].
  match goal with |- context [zlen ?l =? 10] => change (zlen l =? 10) with true; change (pyget l 2) with (Ret b) end. rewrite py_ret_bind.
  rewrite F2. replace (between 1 m 12) with true by (symmetry; unfold between; lia). rewrite F3, U4. do 2 f_equal. lia.
Qed.
End datetime_text.

(** C26: a datetime printed by [isoformat] with any separator and the default
    [timespec] is read back with the same date, time and offset (the zone is a
    new object, and the fold, which the text does not have, is 0); a pickled
    datetime is restored, with its fold from protocol 4 on and with fold 0 at
    the protocols before. *)
Theorem datetime_roundtrips fresh sep d : good_datetime d ->
  (exists text, Datetime.isoformat d sep (lit "auto") = Ret text
     /\ Datetime.fromisoformat fresh text
        = Ret (Datetime.Dtm (Datetime.year d) (Datetime.month d) (Datetime.day d) (Datetime.hour d) (Datetime.minute d)
                 (Datetime.second d) (Datetime.microsecond d) (rezone_opt fresh (Datetime.tzinfo d)) 0))
  /\ forall protocol, exists state, Datetime.getstate d protocol = Ret (state, Datetime.tzinfo d) /\ Forall is_byte state
        /\ Datetime.new_state state (Datetime.tzinfo d)
           = Ret (Datetime.Dtm (Datetime.year d) (Datetime.month d) (Datetime.day d) (Datetime.hour d) (Datetime.minute d)
                    (Datetime.second d) (Datetime.microsecond d) (Datetime.tzinfo d) (if protocol >? 3 then Datetime.fold d else 0)).
Proof.
  intros G. destruct d as [y m dd h mi s us tz f]. split.
  - eexists. split; [by apply isoformat_text | by apply (fromisoformat_text fresh sep y m dd h mi s us f tz)].
  - intros p. by apply datetime_state.
Qed.

(** ** Order *)

Lemma cmp_tuple_app x x' y y' : length x = length x' ->
  cmp_tuple (x ++ y) (x' ++ y') = if cmp_tuple x x' =? 0 then cmp_tuple y y' else cmp_tuple x x'.
Proof.
  revert x'. induction x as [|a x IH]; intros [|b x'] L; try done. cbn in *. injection L as L. rewrite (IH _ L).
  destruct (a =? b); [done|]. by destruct (a >? b).
Qed.

Lemma cmp_clock h m s us h' m' s' us' f f' : good_clock h m s us f -> good_clock h' m' s' us' f' ->
  cmp_tuple [h; m; s; us] [h'; m'; s'; us']
  = zcmp (((h * 60 + m) * 60 + s) * 1000000 + us) (((h' * 60 + m') * 60 + s') * 1000000 + us').
Proof.
  intros [] []. cbn [cmp_tuple]. unfold zcmp. rewrite !Z.gtb_ltb. zcase; lia.
Qed.

Section datetime_order.
Import Datetime.

Lemma cmp_fields a b : good_datetime a -> good_datetime b ->
  cmp_tuple [year a; month a; day a; hour a; minute a; second a; microsecond a]
    [year b; month b; day b; hour b; minute b; second b; microsecond b] = zcmp (wall a) (wall b).
Proof.
  intros A B. pose proof (cmp_tuple_app [year a; month a; day a] [year b; month b; day b]
    [hour a; minute a; second a; microsecond a] [hour b; minute b; second b; microsecond b] eq_refl) as E.
  cbn [app] in E. rewrite E, (cmp_clock _ _ _ _ _ _ _ _ _ _ (dt_clock a A) (dt_clock b B)).
  pose proof (date_cmp_ord (date_of a) (date_of b) (dt_date a A) (dt_date b B)) as D. unfold Date.cmp in D. cbn in D. cbn. rewrite D.
  destruct (dt_fields a A) as (? & ? & ? & ? & ?). destruct (dt_fields b B) as (? & ? & ? & ? & ?).
  unfold wall, zcmp. rewrite !Z.gtb_ltb. zcase; lia.
Qed.

Lemma replace_fold_ret d f : good_datetime d -> f = 0 \/ f = 1 ->
  exists r, replace_fold d f = Ret r /\ good_datetime r /\ tzinfo r = tzinfo d /\ wall r = wall d /\ fold r = f.
Proof.
  intros [G [] Z] Hf. eexists. split; [apply dt_make_ret; split; [exact G | split; cbn; auto | exact Z]|].
  split; [split; [exact G | split; cbn; auto | exact Z]|]. done.
Qed.

Lemma off_eqb_refl tz : good_zone tz -> Time.off_eqb (tz_offset <$> tz) (tz_offset <$> tz) = true.
Proof. destruct tz as [z|]; [|done]. intros G. change (Time.off_eqb (Some (tz_offset z)) (Some (tz_offset z)) = true). rewrite off_eqb_us by done. lia. Qed.

(** The offsets do not depend on the fold, so the test of [__eq__] passes. *)
Lemma cmp_split a b mixed : good_datetime a -> good_datetime b ->
  cmp a b mixed =
    if tz_is (tzinfo a) (tzinfo b) || Time.off_eqb (tz_offset <$> tzinfo a) (tz_offset <$> tzinfo b)
    then Ret (zcmp (wall a) (wall b))
    else match tzinfo a, tzinfo b with
         | Some _, Some _ => diff ← sub a b; if days diff <? 0 then Ret (-1) else Ret (if bool_ diff then 1 else 0)
         | _, _ => if mixed then Ret 2 else Raise TypeError
         end.
Proof.
  intros A B. unfold cmp. destruct (tz_is _ _); cbn [orb]; [rewrite py_ret_bind; by rewrite cmp_fields|].
  unfold utcoffset. rewrite !zone_utcoffset_ret by (apply A || apply B). rewrite !py_ret_bind.
  match goal with |- context [if mixed then ?x else Ret None] => assert (R : (if mixed then x else Ret None) = Ret None) end.
  { destruct mixed; [|done].
    destruct (replace_fold_ret a (1 - fold a) A) as (a' & -> & A' & EA & _); [pose proof (clock_fold _ _ _ _ _ (dt_clock a A)); lia|].
    rewrite py_ret_bind, EA, zone_utcoffset_ret, py_ret_bind, off_eqb_refl by apply A. cbn [negb].
    destruct (replace_fold_ret b (1 - fold b) B) as (b' & -> & B' & EB & _); [pose proof (clock_fold _ _ _ _ _ (dt_clock b B)); lia|].
    rewrite py_ret_bind, EB, zone_utcoffset_ret, py_ret_bind, off_eqb_refl by apply B. done. }
  rewrite R, !py_ret_bind. destruct (Time.off_eqb _ _); [by rewrite cmp_fields|]. by destruct (tzinfo a), (tzinfo b).
Qed.

Lemma dt_cmp_spec a b mixed : good_datetime a -> good_datetime b -> same_heap (tzinfo a) (tzinfo b) ->
  comparable a b -> cmp a b mixed = Ret (zcmp (instant a) (instant b)).
Proof.
  intros A B SH C. rewrite cmp_split by done. destruct (tz_is (tzinfo a) (tzinfo b)) eqn:TI; cbn [orb].
  { apply tz_is_eq in TI; [|done]. unfold instant. rewrite TI. unfold zcmp. f_equal. rewrite !Z.gtb_ltb. zcase; lia. }
  rewrite dt_sub_spec by done. rewrite py_ret_bind. pose proof (of_us_normal (instant a - instant b)) as N.
  rewrite days_neg, bool_us by done. rewrite to_us_of_us. unfold US. rewrite to_us_of_us. clear N.
  pose proof (dt_zone a A) as ZA. pose proof (dt_zone b B) as ZB. unfold comparable in C. unfold instant. revert ZA ZB.
  destruct (tzinfo a) as [za|], (tzinfo b) as [zb|]; try done. intros ZA ZB. cbn [fmap option_fmap option_map zone_us good_zone] in *.
  rewrite off_eqb_us by done. unfold zcmp. rewrite !Z.gtb_ltb. zcase; cbn [negb]; f_equal; lia.
Qed.

Lemma dt_cmp_mixed a b mixed : good_datetime a -> good_datetime b -> ~ comparable a b ->
  cmp a b mixed = (if mixed then Ret 2 else Raise TypeError) /\ sub a b = Raise TypeError.
Proof.
  intros A B C. rewrite cmp_split by done. unfold comparable in C. pose proof (wall_range a A) as WA. pose proof (wall_range b B) as WB.
  unfold sub, utcoffset. rewrite !dt_ord by done. rewrite !py_ret_bind, delta_make_spec, !zone_utcoffset_ret by (apply A || apply B).
  rewrite ranged_small.
  - rewrite !py_ret_bind. destruct (tzinfo a), (tzinfo b); try (by destruct C); done.
  - match goal with |- _ <= ?x < _ => replace x with (wall a - wall b) by (unfold wall; lia) end. unfold DAY, MAXORDINAL in *; lia.
Qed.
End datetime_order.

(** ** Hashes and changes of zone *)

Section datetime_hash.
Import Datetime.

Lemma dt_state3 d : good_datetime d -> exists st, getstate d 3 = Ret (st, tzinfo d)
  /\ st = [year d / 256; year d mod 256; month d; day d; hour d; minute d; second d;
           microsecond d / 256 / 256; microsecond d / 256 mod 256; microsecond d mod 256].
Proof.
  intros G. pose proof G as [[Hy [Hm Hd]] [C1 C2 C3 C4 C5] _]. cbn in Hy, Hm, Hd.
  pose proof (dim_bound (is_leap (year d)) (month d) Hm). unfold MINYEAR, MAXYEAR in Hy.
  destruct (microseconds_state (microsecond d) C4) as (U1 & U2 & U3 & _). pose proof (Z.mod_pos_bound (year d) 256 ltac:(lia)).
  assert (0 <= year d / 256 < 40) by (split; [apply Z.div_pos | apply Z.div_lt_upper_bound]; lia).
  eexists. split; [|done]. unfold getstate, Date.bytes_of_ints. change (3 >? 3) with false. rewrite andb_false_r.
  replace (forallb _ _) with true by (symmetry; cbn [forallb]; unfold between; lia). done.
Qed.

Lemma dt_hash_aware d z : good_datetime d -> tzinfo d = Some z -> hash d = Ret (HashTuple (Timedelta.getstate (of_us (instant d)))).
Proof.
  intros G Z. pose proof (wall_range d G) as W. pose proof (dt_zone d G) as ZG. unfold hash.
  assert (T : (t ← (if negb (fold d =? 0) then replace_fold d 0 else Ret d); utcoffset t) = Ret (Some (tz_offset z))).
  { destruct (negb _).
    - destruct (replace_fold_ret d 0 G) as (r & -> & RG & RZ & _); [by left|]. rewrite py_ret_bind. unfold utcoffset.
      rewrite zone_utcoffset_ret, RZ, Z by apply RG. done.
    - rewrite py_ret_bind. unfold utcoffset. by rewrite zone_utcoffset_ret, Z by apply G. }
  revert T. destruct (if negb (fold d =? 0) then replace_fold d 0 else Ret d) as [t| |]; try done. rewrite !py_ret_bind. intros T.
  rewrite T, py_ret_bind. pose proof (dt_ord d G) as O. unfold toordinal in O. rewrite O, py_ret_bind, delta_make_spec.
  match goal with |- context [ranged ?x] => replace x with (wall d) by (unfold wall; lia) end.
  rewrite ranged_small by (unfold DAY, MAXORDINAL in *; lia). rewrite py_ret_bind. unfold Timedelta.sub. rewrite delta_make_spec, of_us_diff.
  rewrite Z in ZG. destruct ZG as [_ B]. unfold instant. rewrite Z. cbn [zone_us].
  rewrite ranged_small by (unfold DAY, MAXORDINAL in *; lia). done.
Qed.

Lemma dt_hash_naive d : good_datetime d -> tzinfo d = None -> exists st, hash d = Ret (HashState st)
  /\ st = [year d / 256; year d mod 256; month d; day d; hour d; minute d; second d;
           microsecond d / 256 / 256; microsecond d / 256 mod 256; microsecond d mod 256].
Proof.
  intros G Z. unfold hash.
  assert (T : exists t, (if negb (fold d =? 0) then replace_fold d 0 else Ret d) = Ret t /\ good_datetime t /\ tzinfo t = None /\ wall t = wall d).
  { destruct (negb _); [|by exists d]. destruct (replace_fold_ret d 0 G) as (r & -> & RG & RZ & RW & _); [by left|].
    exists r. by rewrite RZ. }
  destruct T as (t & -> & TG & TZ & TW). rewrite py_ret_bind. unfold utcoffset. rewrite TZ. unfold zone_utcoffset. rewrite py_ret_bind.
  destruct (dt_state3 t TG) as (st & -> & ->). rewrite py_ret_bind. eexists. split; [done|].
  destruct (wall_fields t d TG G TW) as (E & -> & -> & -> & ->). by injection E as -> -> ->.
Qed.

Lemma dt_hash_eq a b : good_datetime a -> good_datetime b -> comparable a b -> instant a = instant b ->
  exists h, hash a = Ret h /\ hash b = Ret h.
Proof.
  intros A B C E. unfold comparable in C. destruct (tzinfo a) as [za|] eqn:ZA, (tzinfo b) as [zb|] eqn:ZB; try done.
  - rewrite (dt_hash_aware a za), (dt_hash_aware b zb), E by done. by eexists.
  - destruct (dt_hash_naive a A ZA) as (sa & -> & ->). destruct (dt_hash_naive b B ZB) as (sb & -> & ->). eexists. split; [done|].
    unfold instant in E. rewrite ZA, ZB in E. cbn in E. destruct (wall_fields a b A B ltac:(lia)) as (D & -> & -> & -> & ->).
    by injection D as -> -> ->.
Qed.

Lemma dt_sub_delta d td : good_datetime d -> normal td -> Z.abs (US td) < DAY -> sub_delta d td = add d (of_us (- US td)).
Proof.
  intros G N B. unfold sub_delta, Timedelta.neg. rewrite delta_make_spec.
  match goal with |- context [ranged ?x] => replace x with (- US td) by (unfold US, to_microseconds; lia) end.
  rewrite ranged_small by (unfold DAY in *; lia). by rewrite py_ret_bind.
Qed.

Lemma US_of_us t : US (of_us t) = t.
Proof. apply to_us_of_us. Qed.

Lemma attach_zone u tz : good_datetime u -> good_tz tz ->
  exists u', (utc ← replace_tz u (Some tz); fromutc tz utc) = add u' (tz_offset tz)
    /\ good_datetime u' /\ wall u' = wall u /\ tzinfo u' = Some tz.
Proof.
  intros [G C _] GT. set (u' := Dtm (year u) (month u) (day u) (hour u) (minute u) (second u) (microsecond u) (Some tz) (fold u)).
  assert (GU : good_datetime u') by done. exists u'. split; [|done].
  assert (R : replace_tz u (Some tz) = Ret u') by (by apply dt_make_ret). rewrite R, py_ret_bind. unfold fromutc. change (tz_is (tzinfo u') (Some tz)) with (tz_id tz =? tz_id tz). by rewrite Z.eqb_refl.
Qed.

Lemma dt_astimezone d mytz tz : good_datetime d -> tzinfo d = Some mytz -> good_tz tz -> (tz_id mytz = tz_id tz -> mytz = tz) ->
  let t := instant d in
  let ok t := DAY <= t < (MAXORDINAL + 1) * DAY in
  (ok t -> ok (t + US (tz_offset tz)) -> exists r, astimezone d mytz tz = Ret r /\ good_datetime r /\ tzinfo r = Some tz /\ instant r = t)
  /\ (tz_id mytz <> tz_id tz -> ~ (ok t /\ ok (t + US (tz_offset tz))) -> astimezone d mytz tz = Raise OverflowError).
Proof.
  intros G Z GT ID t ok. pose proof (dt_zone d G) as ZG. rewrite Z in ZG. destruct ZG as [N B].
  assert (ET : wall d + US (of_us (- US (tz_offset mytz))) = t) by (rewrite US_of_us; unfold t, instant; rewrite Z; cbn; lia).
  unfold astimezone. change (tz_is (Some tz) (Some mytz)) with (tz_id tz =? tz_id mytz). rewrite dt_sub_delta by (done || lia). split.
  - intros O1 O2. destruct (Z.eqb_spec (tz_id tz) (tz_id mytz)) as [TI|TI].
    { exists d. rewrite <- (ID ltac:(lia)). done. }
    destruct (dt_add_in d (of_us (- US (tz_offset mytz))) G) as (u & -> & GU & WU & _); [by rewrite ET|]. rewrite py_ret_bind.
    destruct (attach_zone u tz GU GT) as (u' & -> & GU' & WU' & ZU'). rewrite ET in WU.
    destruct (dt_add_in u' (tz_offset tz) GU') as (r & -> & GR & WR & ZR & _); [by rewrite WU', WU|].
    exists r. rewrite ZR. split_and!; try done. unfold instant. rewrite WR, ZR, ZU', WU', WU. cbn [zone_us]. lia.
  - intros NE NO. rewrite (proj2 (Z.eqb_neq _ _)) by lia. destruct (decide (ok t)) as [O1|O1].
    + destruct (dt_add_in d (of_us (- US (tz_offset mytz))) G) as (u & -> & GU & WU & _); [by rewrite ET|]. rewrite py_ret_bind.
      destruct (attach_zone u tz GU GT) as (u' & -> & GU' & WU' & _). rewrite ET in WU. apply dt_add_out; [done|]. rewrite WU', WU. intros O2; by apply NO.
    + rewrite dt_add_out; [done..|]. by rewrite ET.
Qed.
End datetime_hash.

(** The instants that a datetime can say: the years 1 to 9999. *)
Definition in_range (t : Z) : Prop := DAY <= t < (MAXORDINAL + 1) * DAY.

(** C27: adding a timedelta to a datetime moves its clock by exactly that many
    microseconds, in its zone, and raises [OverflowError] exactly when the
    result leaves the years 1 to 9999; the difference of two datetimes that
    are both naive or both aware is the exact distance of their instants, and
    mixing a naive and an aware datetime is a [TypeError]. *)
Theorem datetime_arithmetic a b td : good_datetime a -> good_datetime b -> same_heap (Datetime.tzinfo a) (Datetime.tzinfo b) ->
  (in_range (wall a + US td) ->
   exists r, Datetime.add a td = Ret r /\ good_datetime r /\ wall r = wall a + US td
     /\ Datetime.tzinfo r = Datetime.tzinfo a /\ Datetime.fold r = 0)
  /\ (~ in_range (wall a + US td) -> Datetime.add a td = Raise OverflowError)
  /\ (comparable a b -> exists diff, Datetime.sub a b = Ret diff /\ US diff = instant a - instant b)
  /\ (~ comparable a b -> Datetime.sub a b = Raise TypeError).
Proof.
  intros A B SH. split_and!.
  - by apply dt_add_in.
  - by apply dt_add_out.
  - intros C. rewrite dt_sub_spec by done. eexists. split; [done | apply US_of_us].
  - intros C. by apply (dt_cmp_mixed a b true).
Qed.

(** C28: datetimes that are both naive or both aware compare as their
    instants, whatever their zones; a naive and an aware datetime are unequal
    and cannot be ordered; equal datetimes hash the same. *)
Theorem datetime_order a b : good_datetime a -> good_datetime b -> same_heap (Datetime.tzinfo a) (Datetime.tzinfo b) ->
  (comparable a b ->
     Datetime.eqb a b = Ret (instant a =? instant b) /\ Datetime.ltb a b = Ret (instant a <? instant b)
     /\ Datetime.leb a b = Ret (instant a <=? instant b) /\ Datetime.gtb a b = Ret (instant a >? instant b)
     /\ Datetime.geb a b = Ret (instant a >=? instant b))
  /\ (~ comparable a b -> Datetime.eqb a b = Ret false /\ Datetime.ltb a b = Raise TypeError /\ Datetime.leb a b = Raise TypeError
     /\ Datetime.gtb a b = Raise TypeError /\ Datetime.geb a b = Raise TypeError)
  /\ (Datetime.eqb a b = Ret true -> exists h, Datetime.hash a = Ret h /\ Datetime.hash b = Ret h).
Proof.
  intros A B SH. unfold Datetime.eqb, Datetime.ltb, Datetime.leb, Datetime.gtb, Datetime.geb. split_and!.
  - intros C. rewrite !dt_cmp_spec by done. rewrite !py_ret_bind. unfold zcmp.
    rewrite !Z.gtb_ltb, !Z.geb_leb. split_and!; f_equal; zcase; lia.
  - intros C. rewrite (proj1 (dt_cmp_mixed a b true A B C)), (proj1 (dt_cmp_mixed a b false A B C)). done.
  - intros E. destruct (decide (match Datetime.tzinfo a, Datetime.tzinfo b with None, None | Some _, Some _ => true | _, _ => false end = true)) as [C|C].
    + assert (C' : comparable a b) by (unfold comparable; by repeat case_match). rewrite dt_cmp_spec, py_ret_bind in E by done.
      apply dt_hash_eq; [done..|]. unfold zcmp in E. rewrite !Z.gtb_ltb in E. injection E as E. revert E. zcase; lia.
    + assert (C' : ~ comparable a b) by (unfold comparable; repeat case_match; tauto || done).
      by rewrite (proj1 (dt_cmp_mixed a b true A B C')) in E.
Qed.

(** [astimezone] keeps the instant and moves it to the new zone; it
    raises [OverflowError] exactly when the instant, in UTC or in the new zone,
    leaves the years 1 to 9999. *)
Theorem astimezone_instant d mytz tz : good_datetime d -> Datetime.tzinfo d = Some mytz -> good_tz tz ->
  (tz_id mytz = tz_id tz -> mytz = tz) ->
  (in_range (instant d) -> in_range (instant d + US (tz_offset tz)) ->
   exists r, Datetime.astimezone d mytz tz = Ret r /\ good_datetime r /\ Datetime.tzinfo r = Some tz /\ instant r = instant d)
  /\ (tz_id mytz <> tz_id tz -> ~ (in_range (instant d) /\ in_range (instant d + US (tz_offset tz))) ->
      Datetime.astimezone d mytz tz = Raise OverflowError).
Proof. exact (dt_astimezone d mytz tz). Qed.

(** * Where the code departs from its own contract *)

(** The zone 90 seconds east of Greenwich. *)
Definition east90 : timezone := Tz 7 (Td 0 90 0) None.

Definition MINUTE : Z := 60 * 1000000.
Definition HOUR : Z := 60 * MINUTE.
Definition day_us (t : Time.time) : Z := ((Time.hour t * 60 + Time.minute t) * 60 + Time.second t) * 1000000 + Time.microsecond t.
Definition offset_us (z : timezone) : Z := US (tz_offset z).
(** The offset without its seconds. *)
Definition whole_minutes (z : timezone) : Z := offset_us z - offset_us z mod MINUTE.

Section time_order.
Import Time.

Lemma whole_floor z : whole_minutes z = MINUTE * (offset_us z / MINUTE).
Proof. unfold whole_minutes. pose proof (Z.div_mod (offset_us z) MINUTE ltac:(done)). lia. Qed.

Lemma cmp_minutes a b za zb mixed : good_time a -> good_time b -> tzinfo a = Some za -> tzinfo b = Some zb -> same_heap (Some za) (Some zb) ->
  cmp a b mixed = Ret (zcmp (day_us a - whole_minutes za) (day_us b - whole_minutes zb)).
Proof.
  intros [CA GA] [CB GB] EA EB SH. rewrite EA in GA. rewrite EB in GB. assert (base : offset_us za = offset_us zb -> cmp_tuple [hour a; minute a; second a; microsecond a] [hour b; minute b; second b; microsecond b]
      = zcmp (day_us a - whole_minutes za) (day_us b - whole_minutes zb)).
  { intros E. rewrite (cmp_clock _ _ _ _ _ _ _ _ _ _ CA CB). unfold whole_minutes. rewrite E. unfold zcmp, day_us. rewrite !Z.gtb_ltb. zcase; lia. }
  unfold cmp, utcoffset. rewrite EA, EB, !zone_utcoffset_ret by done. destruct (tz_is _ _) eqn:TI.
  { rewrite py_ret_bind. apply tz_is_eq in TI; [|done]. injection TI as E. rewrite base by (by rewrite E). done. }
  rewrite !py_ret_bind. cbn [fmap option_fmap option_map]. rewrite off_eqb_us by done. destruct (Z.eqb_spec (US (tz_offset za)) (US (tz_offset zb))) as [E|_]; [by rewrite base|].
  change (new 0 0 0 0 1 0 0) with (Ret (Td 0 60 0)). rewrite py_ret_bind. change (floordiv_delta (tz_offset za) (Td 0 60 0)) with (Ret (offset_us za / MINUTE)). change (floordiv_delta (tz_offset zb) (Td 0 60 0)) with (Ret (offset_us zb / MINUTE)). rewrite !py_ret_bind.
  f_equal. rewrite !whole_floor. destruct CA as [? ? ? ? _], CB as [? ? ? ? _]. unfold day_us, MINUTE. cbn [cmp_tuple]. unfold zcmp. rewrite !Z.gtb_ltb. zcase; lia.
Qed.

Lemma time_state3 t : good_time t -> exists st, getstate t 3 = Ret (st, tzinfo t).
Proof.
  intros [[C1 C2 C3 C4 C5] _]. destruct (microseconds_state (microsecond t) C4) as (U1 & U2 & U3 & _). eexists. unfold getstate, Date.bytes_of_ints. change (3 >? 3) with false. rewrite andb_false_r.
  replace (forallb _ _) with true by (symmetry; cbn [forallb]; unfold between; lia). done.
Qed.

(** Up to the assertion. *)
Lemma hash_until t z : good_time t -> tzinfo t = Some z -> offset_us z <> 0 ->
  let x := (hour t * 60 + minute t) * MINUTE - offset_us z in
  hash t = (_ ← passert (x mod MINUTE =? 0);
            let h := x / HOUR in let m := x mod HOUR / MINUTE in
            if (0 <=? h) && (h <? 24) then t' ← make h m (second t) (microsecond t) None 0; '(st, _) ← getstate t' 3; Ret (HashState st)
            else Ret (HashTuple [h; m; second t; microsecond t])).
Proof.
  intros [C GZ] EZ NZ x. rewrite EZ in GZ. pose proof C as [C1 C2 C3 C4 C5]. unfold hash.
  assert (T : (t' ← (if negb (fold t =? 0) then replace t None None None None None (Some 0) else Ret t); utcoffset t') = Ret (Some (tz_offset z))).
  { destruct (negb _); [|rewrite py_ret_bind; unfold utcoffset; by rewrite EZ, zone_utcoffset_ret]. unfold replace, make. cbn [default from_option]. rewrite check_time_ret by (split; auto). rewrite !py_ret_bind. unfold utcoffset. cbn [tzinfo]. unfold id. by rewrite EZ, zone_utcoffset_ret. }
  revert T. destruct (if negb (fold t =? 0) then _ else _) as [t'| |]; try done. rewrite !py_ret_bind. intros T. rewrite T, py_ret_bind. destruct GZ as [N B].
  rewrite bool_us by done. change (to_microseconds (tz_offset z)) with (offset_us z). rewrite (proj2 (Z.eqb_neq _ _)) by done. cbn [negb]. fold (offset_us z) in B. unfold DAY in B.
  rewrite (delta_new_spec 0 0 0 0 (minute t) (hour t) 0). match goal with |- context [ranged ?y] => replace y with ((hour t * 60 + minute t) * MINUTE) by (unfold MINUTE; lia) end. rewrite ranged_small by (unfold DAY, MINUTE; lia). rewrite py_ret_bind.
  unfold sub. rewrite delta_make_spec, of_us_diff. fold (offset_us z). fold x. assert (BX : - 90000000000 < x < 180000000000) by (unfold x, MINUTE; lia). rewrite ranged_small by (unfold DAY; lia). rewrite py_ret_bind.
  change (new 0 0 0 0 0 1 0) with (Ret (Td 0 3600 0)). rewrite py_ret_bind. unfold divmod, pydivmod. change (to_microseconds (Td 0 3600 0)) with HOUR. change (HOUR =? 0) with false. rewrite to_us_of_us, py_ret_bind, delta_make_spec. cbn [Z.mul Z.add].
  pose proof (Z.mod_pos_bound x HOUR ltac:(done)) as MH. assert (EH : HOUR = 3600000000) by done. rewrite ranged_small by (unfold DAY; lia). rewrite !py_ret_bind. change (new 0 0 0 0 1 0 0) with (Ret (Td 0 60 0)). rewrite py_ret_bind.
  unfold mod_, floordiv_delta, pydivmod. change (to_microseconds (Td 0 60 0)) with MINUTE. change (MINUTE =? 0) with false. rewrite to_us_of_us, !py_ret_bind. change ((0 * 86400 + 0) * 1000000 + x mod HOUR) with (x mod HOUR). rewrite delta_make_spec. change ((0 * 86400 + 0) * 1000000 + (x mod HOUR) mod MINUTE) with ((x mod HOUR) mod MINUTE). pose proof (Z.mod_pos_bound (x mod HOUR) MINUTE ltac:(done)) as MM. assert (EM : MINUTE = 60000000) by done.
  rewrite ranged_small by (unfold DAY; lia). rewrite py_ret_bind, bool_us by apply of_us_normal. rewrite to_us_of_us, negb_involutive.
  replace ((x mod HOUR) mod MINUTE) with (x mod MINUTE) by (symmetry; change HOUR with (MINUTE * 60); apply Z.mod_mod_divide; exists 60; lia). done.
Qed.

Lemma hash_whole t z : good_time t -> tzinfo t = Some z -> offset_us z mod MINUTE = 0 -> exists h, hash t = Ret h.
Proof.
  intros G EZ M. pose proof G as [[C1 C2 C3 C4 C5] GZ]. destruct (Z.eq_dec (offset_us z) 0) as [Z0|NZ].
  - unfold hash. assert (T : exists t', (if negb (fold t =? 0) then replace t None None None None None (Some 0) else Ret t) = Ret t' /\ good_time t' /\ tzinfo t' = Some z).
    { destruct (negb _); [|by exists t]. unfold replace, make. cbn [default from_option]. rewrite check_time_ret by (split; auto). rewrite py_ret_bind. eexists. split; [done|]. split; [split; [split; auto | exact GZ] | exact EZ]. }
    destruct T as (t' & -> & GT & ET). rewrite py_ret_bind. unfold utcoffset. rewrite zone_utcoffset_ret by apply GT. rewrite ET, py_ret_bind. cbn [fmap option_fmap option_map].
    rewrite EZ in GZ. destruct GZ as [N _]. rewrite bool_us by done. change (to_microseconds (tz_offset z)) with (offset_us z). rewrite Z0. cbn [Z.eqb negb]. destruct (time_state3 t' GT) as (st & ->). rewrite py_ret_bind. by eexists.
  - rewrite (hash_until t z G EZ NZ). set (x := (hour t * 60 + minute t) * MINUTE - offset_us z). assert (XM : x mod MINUTE = 0) by (rewrite Z.mod_divide in M |- * by done; destruct M as [k E]; exists (hour t * 60 + minute t - k); unfold x; lia).
    rewrite XM. cbn [Z.eqb passert mbind py_bind]. cbv zeta. destruct ((0 <=? x / HOUR) && (x / HOUR <? 24)) eqn:B; [|by eexists]. pose proof (Z.mod_pos_bound x HOUR ltac:(done)) as MH. change HOUR with (60 * MINUTE) in MH at 3.
    assert (BM : 0 <= x mod HOUR / MINUTE <= 59) by (split; [apply Z.div_pos; [lia | done] | apply Z.lt_succ_r, Z.div_lt_upper_bound; [done | lia]]). assert (GC : good_clock (x / HOUR) (x mod HOUR / MINUTE) (second t) (microsecond t) 0) by (split; [lia | lia | done | done | by left]).
    unfold make. rewrite check_time_ret by done. rewrite !py_ret_bind. destruct (time_state3 (Tm (x / HOUR) (x mod HOUR / MINUTE) (second t) (microsecond t) None 0)) as (st & ->); [by split|]. rewrite py_ret_bind. by eexists.
Qed.
End time_order.

(** C36: aware times of day drop the seconds of their offsets: every comparison is
    that of the distances from midnight UTC with the offsets cut to whole
    minutes. So two times at the same moment are equal exactly when their
    offsets have the same seconds, and hashing a time whose offset has seconds
    fails an assertion, as no other hash does. *)
Theorem offset_seconds a b za zb : good_time a -> good_time b -> Time.tzinfo a = Some za -> Time.tzinfo b = Some zb -> same_heap (Some za) (Some zb) ->
  (forall mixed, Time.cmp a b mixed = Ret (zcmp (day_us a - whole_minutes za) (day_us b - whole_minutes zb)))
  /\ (day_us a - offset_us za = day_us b - offset_us zb -> Time.eqb a b = Ret (offset_us za mod MINUTE =? offset_us zb mod MINUTE))
  /\ (offset_us za mod MINUTE <> 0 -> Time.hash a = Raise AssertionError)
  /\ (offset_us za mod MINUTE = 0 -> exists h, Time.hash a = Ret h).
Proof.
  intros GA GB EA EB SH. assert (CM : forall mixed, Time.cmp a b mixed = Ret (zcmp (day_us a - whole_minutes za) (day_us b - whole_minutes zb))) by (intros; by apply cmp_minutes).
  split; [done|]. split; [intros E; unfold Time.eqb; rewrite CM, py_ret_bind; unfold zcmp, whole_minutes; rewrite Z.gtb_ltb; f_equal; zcase; lia|].
  assert (XM : ((Time.hour a * 60 + Time.minute a) * MINUTE - offset_us za) mod MINUTE = 0 <-> offset_us za mod MINUTE = 0).
  { rewrite !Z.mod_divide by done. split; intros [k E]; [exists (Time.hour a * 60 + Time.minute a - k) | exists (Time.hour a * 60 + Time.minute a - k)]; lia. }
  split.
  - intros N. rewrite (hash_until a za GA EA) by (intros Z; by rewrite Z in N). rewrite (proj2 (Z.eqb_neq _ _)) by tauto. done.
  - intros M. by apply (hash_whole a za).
Qed.

(** [datetime.fromisoformat] raises [AssertionError], not [ValueError], on every
    text of nine characters with a hyphen after the year and no week after it: it
    takes all of them for the date. *)
Theorem nine_characters fresh text : zlen text = 9 -> pyget text 4 = Ret 45 -> pyget text 5 <> Ret 87 ->
  Datetime.fromisoformat fresh text = Raise AssertionError.
Proof.
  intros L E4 N5. unfold Datetime.fromisoformat, find_isoformat_datetime_separator. rewrite L. cbn [Z.ltb Z.eqb Z.gtb Z.compare Pos.compare Pos.compare_cont Pos.eqb passert mbind py_bind].
  rewrite E4. cbn [mbind py_bind Z.eqb Pos.eqb]. destruct (pyget_Some text 5 ltac:(lia)) as (c & E5 & _). rewrite E5 in N5 |- *. cbn [mbind py_bind]. rewrite (proj2 (Z.eqb_neq c 87)) by congruence. cbn [mbind py_bind].
  unfold parse_isoformat_date. replace (pyslice text 0 10) with text; [rewrite L; done|]. unfold pyslice. rewrite L. cbn [clamp]. change (clamp 9 0) with 0. change (clamp 9 10) with 9. rewrite drop_0. symmetry. apply take_ge. unfold zlen in L. lia.
Qed.

(** * Witnesses *)

Lemma good_east90 : good_tz east90.
Proof. split; [split|]; vm_compute; intuition congruence. Qed.
Lemma good_utc : good_tz utc.
Proof. split; [split|]; vm_compute; intuition congruence. Qed.

Definition leap_day : Datetime.datetime := Datetime.Dtm 2024 2 29 23 59 58 7 (Some east90) 1.
Definition new_year : Datetime.datetime := Datetime.Dtm 2000 1 1 0 0 0 0 (Some utc) 0.
Lemma good_leap_day : good_datetime leap_day.
Proof. split; [split; [vm_compute; intuition congruence | split; vm_compute; intuition congruence] | split; vm_compute; intuition congruence | exact good_east90]. Qed.
Lemma good_new_year : good_datetime new_year.
Proof. split; [split; [vm_compute; intuition congruence | split; vm_compute; intuition congruence] | split; vm_compute; intuition congruence | exact good_utc]. Qed.

Lemma time_roundtrips_witness : exists text,
  Time.isoformat (Time.Tm 23 59 58 7 (Some east90) 1) (lit "auto") = Ret text
  /\ Time.fromisoformat 3 text = Ret (Time.Tm 23 59 58 7 (rezone_opt 3 (Some east90)) 0).
Proof.
  apply (time_roundtrips 3 (Time.Tm 23 59 58 7 (Some east90) 1)). split; [|exact good_east90]. split; vm_compute; intuition congruence.
Defined.

Lemma datetime_roundtrips_witness : exists state, Datetime.getstate leap_day 4 = Ret (state, Some east90)
  /\ Forall is_byte state /\ Datetime.new_state state (Some east90) = Ret leap_day.
Proof. exact (proj2 (datetime_roundtrips 3 84 leap_day good_leap_day) 4). Defined.

Definition noon : Time.time := Time.Tm 12 0 0 0 (Some utc) 0.
Definition noon_east : Time.time := Time.Tm 12 1 30 0 (Some east90) 0.
(** 12:01:30 at the offset +00:01:30 is 12:00 UTC. *)
Lemma offset_seconds_witness : Time.eqb noon_east noon = Ret false /\ Time.hash noon_east = Raise AssertionError.
Proof.
  destruct (offset_seconds noon_east noon east90 utc) as (_ & E & H & _); [split; [split; vm_compute; intuition congruence | exact good_east90] | split; [split; vm_compute; intuition congruence | exact good_utc] | done | done | intros F; vm_compute in F; congruence|].
  split; [exact (E eq_refl) | apply H; vm_compute; congruence].
Defined.

Lemma nine_characters_witness : Datetime.fromisoformat 3 (lit "2020-01-1") = Raise AssertionError.
Proof. apply (nine_characters 3 (lit "2020-01-1")); [reflexivity | reflexivity | vm_compute; congruence]. Defined.

Lemma datetime_arithmetic_witness : exists diff,
  Datetime.sub leap_day new_year = Ret diff /\ US diff = instant leap_day - instant new_year.
Proof.
  apply (datetime_arithmetic leap_day new_year (Td 1 0 0) good_leap_day good_new_year); [intros E; vm_compute in E; congruence | exact I].
Defined.

Lemma datetime_order_witness : Datetime.ltb new_year leap_day = Ret (instant new_year <? instant leap_day).
Proof.
  apply (datetime_order new_year leap_day good_new_year good_leap_day); [intros E; vm_compute in E; congruence | exact I].
Defined.

Lemma astimezone_instant_witness : exists r, Datetime.astimezone leap_day east90 utc = Ret r
  /\ good_datetime r /\ Datetime.tzinfo r = Some utc /\ instant r = instant leap_day.
Proof.
  apply (astimezone_instant leap_day east90 utc good_leap_day eq_refl good_utc).
  - intros E; vm_compute in E; congruence.
  - vm_compute. intuition congruence.
  - vm_compute. intuition congruence.
Defined.
