(* ===== verification/Ip.v ===== *)
(** IP addresses (the runtime's ipaddress.py): the texts of IPv4 and IPv6
    addresses, address objects and their order.

    An address argument is an integer, packed bytes or a text; any other object
    is converted to a text by its caller.  Cached properties are functions of
    the object. *)
From Stdlib Require Import ZArith Lia List.
From stdpp Require Import base list strings.
From S2P Require Import Prelude Text.
Open Scope Z_scope.

(** * Versions *)

Inductive version := V4 | V6.
#[export] Instance version_eq_dec : EqDecision version.
Proof. solve_decision. Defined.

Definition IPV4LENGTH : Z := 32.
Definition IPV6LENGTH : Z := 128.
Definition max_prefixlen (v : version) : Z := match v with V4 => IPV4LENGTH | V6 => IPV6LENGTH end.
Definition ALL_ONES (v : version) : Z := match v with V4 => 2 ^ IPV4LENGTH - 1 | V6 => 2 ^ IPV6LENGTH - 1 end.
Definition same_version (a b : version) : bool := bool_decide (a = b).

Inductive address_arg :=
| IntArg (n : Z)
| BytesArg (b : list Z)
| StrArg (s : list Z).

Definition v4_int_to_packed (address : Z) : py (list Z) :=
  if between 0 address (256 ^ 4 - 1) then Ret (be_bytes 4 address) else Raise ValueError.
Definition v6_int_to_packed (address : Z) : py (list Z) :=
  if between 0 address (256 ^ 16 - 1) then Ret (be_bytes 16 address) else Raise ValueError.

Definition check_int_address (v : version) (address : Z) : py unit :=
  if address <? 0 then Raise AddressValueError
  else if address >? ALL_ONES v then Raise AddressValueError
  else Ret tt.

Definition check_packed_address (address : list Z) (expected_len : Z) : py unit :=
  if negb (zlen address =? expected_len) then Raise AddressValueError else Ret tt.

(** * IPv4 texts *)

Definition parse_octet (octet_str : list Z) : py Z :=
  if zlen octet_str =? 0 then Raise ValueError
  else if negb (ascii_digits octet_str) then Raise ValueError
  else if zlen octet_str >? 3 then Raise ValueError
  else
    c ← pyget octet_str 0;
    if negb (zeqb_list octet_str (lit "0")) && (c =? 48) then Raise ValueError
    else
      octet_int ← py_int 10 octet_str;
      if octet_int >? 255 then Raise ValueError else Ret octet_int.

Definition ip_int_from_string4 (ip_str : list Z) : py Z :=
  if zlen ip_str =? 0 then Raise AddressValueError
  else
    let octets := split 46 ip_str in
    if negb (zlen octets =? 4) then Raise AddressValueError
    else catch is_value_error (os ← mapM_py parse_octet octets; Ret (be_val os)) (Raise AddressValueError).

Definition string_from_ip_int4 (ip_int : Z) : py (list Z) :=
  if between 0 ip_int (256 ^ 4 - 1) then Ret (join 46 (to_base 10 <$> be_bytes 4 ip_int)) else Raise OverflowError.

(** [IPv4Address(address)._ip]. *)
Definition ipv4_new (address : address_arg) : py Z :=
  match address with
  | IntArg address => _ ← check_int_address V4 address; Ret address
  | BytesArg address => _ ← check_packed_address address 4; Ret (be_val address)
  | StrArg addr_str =>
      if existsb (Z.eqb 47) addr_str then Raise AddressValueError
      else ip_int_from_string4 addr_str
  end.

(** * IPv6 texts *)

Definition HEXTET_COUNT : Z := 8.
Definition is_hex_digit (c : Z) : bool := between 48 c 57 || between 65 c 70 || between 97 c 102.

(** ["%x" % n] for a non-negative [n]. *)
Definition fmt_x (n : Z) : list Z := to_base 16 n.
Definition fmt_032x (n : Z) : list Z := pad_left 48 32 (to_base 16 n).

Definition parse_hextet (hextet_str : list Z) : py Z :=
  if negb (forallb is_hex_digit hextet_str) then Raise ValueError
  else if zlen hextet_str >? 4 then Raise ValueError
  else py_int 16 hextet_str.

(** The position of the one empty part between the endpoints. *)
Definition find_skip (parts : list (list Z)) : py (option Z) :=
  foldM (fun skip_index i =>
           part ← pyget parts i;
           if zlen part =? 0 then
             match skip_index with
             | Some _ => Raise AddressValueError
             | None => Ret (Some i)
             end
           else Ret skip_index)
    None (pyrange 1 (zlen parts - 1)).

(** How many parts to read before and after the ["::"], and how many it
    stands for. *)
Definition part_counts (parts : list (list Z)) (skip_index : option Z) : py (Z * Z * Z) :=
  first ← pyget parts 0;
  last ← pyget parts (-1);
  match skip_index with
  | Some skip_index =>
      let parts_hi := skip_index in
      let parts_lo := zlen parts - skip_index - 1 in
      parts_hi ← (if zlen first =? 0 then
                    if negb (parts_hi - 1 =? 0) then Raise AddressValueError else Ret (parts_hi - 1)
                  else Ret parts_hi);
      parts_lo ← (if zlen last =? 0 then
                    if negb (parts_lo - 1 =? 0) then Raise AddressValueError else Ret (parts_lo - 1)
                  else Ret parts_lo);
      let parts_skipped := HEXTET_COUNT - (parts_hi + parts_lo) in
      if parts_skipped <? 1 then Raise AddressValueError else Ret (parts_hi, parts_lo, parts_skipped)
  | None =>
      if negb (zlen parts =? HEXTET_COUNT) then Raise AddressValueError
      else if zlen first =? 0 then Raise AddressValueError
      else if zlen last =? 0 then Raise AddressValueError
      else Ret (zlen parts, 0, 0)
  end.

Definition read_hextets (parts : list (list Z)) (ip_int : Z) (indices : list Z) : py Z :=
  foldM (fun ip_int i =>
           part ← pyget parts i;
           h ← parse_hextet part;
           Ret (Z.lor (Z.shiftl ip_int 16) h))
    ip_int indices.

Definition ip_int_from_string6 (ip_str : list Z) : py Z :=
  if zlen ip_str =? 0 then Raise AddressValueError
  else if zlen ip_str >? 45 then Raise AddressValueError
  else
    let max_parts := HEXTET_COUNT + 1 in
    let parts := split_max (Z.to_nat max_parts) 58 ip_str in
    if zlen parts <? 3 then Raise AddressValueError
    else
      last ← pyget parts (-1);
      parts ← (if existsb (Z.eqb 46) last then
                 ipv4_int ← ipv4_new (StrArg last);
                 Ret (pyslice parts 0 (-1) ++ [fmt_x (Z.land (Z.shiftr ipv4_int 16) 65535); fmt_x (Z.land ipv4_int 65535)])
               else Ret parts);
      if zlen parts >? max_parts then Raise AddressValueError
      else
        skip_index ← find_skip parts;
        '(parts_hi, parts_lo, parts_skipped) ← part_counts parts skip_index;
        catch is_value_error
          (ip_int ← read_hextets parts 0 (pyrange 0 parts_hi);
           read_hextets parts (Z.shiftl ip_int (16 * parts_skipped)) (pyrange (- parts_lo) 0))
          (Raise AddressValueError).

(** The state of the loop of [_compress_hextets]. *)
Record run_state := Run { best_start : Z; best_len : Z; cur_start : Z; cur_len : Z }.

Definition run_step (st : run_state) (index : Z) (hextet : list Z) : run_state :=
  if zeqb_list hextet (lit "0") then
    let len := cur_len st + 1 in
    let start := if cur_start st =? -1 then index else cur_start st in
    if len >? best_len st then Run start len start len else Run (best_start st) (best_len st) start len
  else Run (best_start st) (best_len st) (-1) 0.

Fixpoint run_loop (st : run_state) (index : Z) (hextets : list (list Z)) : run_state :=
  match hextets with
  | [] => st
  | hextet :: hextets => run_loop (run_step st index hextet) (index + 1) hextets
  end.

Definition compress_hextets (hextets : list (list Z)) : list (list Z) :=
  let st := run_loop (Run (-1) 0 (-1) 0) 0 hextets in
  if best_len st >? 1 then
    let best_end := best_start st + best_len st in
    let hextets := if best_end =? zlen hextets then hextets ++ [[]] else hextets in
    let hextets := slice_assign hextets (best_start st) best_end [[]] in
    if best_start st =? 0 then [] :: hextets else hextets
  else hextets.

(** [[text[x:x+4] for x in range(0, 32, 4)]]. *)
Definition quads (text : list Z) : list (list Z) :=
  (fun x => pyslice text (4 * x) (4 * x + 4)) <$> pyrange 0 8.

Definition string_from_ip_int6 (ip_int : Z) : py (list Z) :=
  if ip_int >? ALL_ONES V6 then Raise ValueError
  else
    let hex_str := fmt_032x ip_int in
    hextets ← mapM_py (fun q => h ← py_int 16 q; Ret (fmt_x h)) (quads hex_str);
    Ret (join 58 (compress_hextets hextets)).

(** [%] and what follows it. *)
Definition split_scope_id (ip_str : list Z) : py (list Z * option (list Z)) :=
  match partition 37 ip_str with
  | None => Ret (ip_str, None)
  | Some (addr, scope_id) =>
      if (zlen scope_id =? 0) || existsb (Z.eqb 37) scope_id then Raise AddressValueError
      else Ret (addr, Some scope_id)
  end.

(** * functools.total_ordering, on a class that defines [__lt__] *)

Section total_ordering.
Context {A : Type} (lt : A -> A -> py bool) (eq : A -> A -> bool).
Definition gt_from_lt (self other : A) : py bool := r ← lt self other; Ret (negb r && negb (eq self other)).
Definition le_from_lt (self other : A) : py bool := r ← lt self other; Ret (r || eq self other).
Definition ge_from_lt (self other : A) : py bool := r ← lt self other; Ret (negb r).
End total_ordering.

(** * Address objects *)

Module Address.

(** An IPv4 address has no scope. *)
Record address := Addr { version_ : version; ip : Z; scope_id : option (list Z) }.

Definition new (v : version) (arg : address_arg) : py address :=
  match v with
  | V4 => ip ← ipv4_new arg; Ret (Addr V4 ip None)
  | V6 =>
      match arg with
      | IntArg n => _ ← check_int_address V6 n; Ret (Addr V6 n None)
      | BytesArg packed => _ ← check_packed_address packed 16; Ret (Addr V6 (be_val packed) None)
      | StrArg addr_str =>
          if existsb (Z.eqb 47) addr_str then Raise AddressValueError
          else
            '(addr_str, scope_id) ← split_scope_id addr_str;
            ip ← ip_int_from_string6 addr_str;
            Ret (Addr V6 ip scope_id)
      end
  end.

Definition scope_eqb (a b : option (list Z)) : bool :=
  match a, b with
  | None, None => true
  | Some a, Some b => zeqb_list a b
  | _, _ => false
  end.

(** [_BaseAddress.__eq__], and the equality of either class. *)
Definition base_eqb (self other : address) : bool := (ip self =? ip other) && same_version (version_ self) (version_ other).
Definition eqb (self other : address) : bool :=
  let address_equal := base_eqb self other in
  match version_ self with
  | V4 => address_equal
  | V6 => if negb address_equal then false else scope_eqb (scope_id self) (scope_id other)
  end.

Definition lt (self other : address) : py bool :=
  if negb (same_version (version_ self) (version_ other)) then Raise TypeError
  else if negb (ip self =? ip other) then Ret (ip self <? ip other)
  else Ret false.
Definition gt := gt_from_lt lt eqb.
Definition le := le_from_lt lt eqb.
Definition ge := ge_from_lt lt.

Definition add (self : address) (other : Z) : py address := new (version_ self) (IntArg (ip self + other)).
Definition sub (self : address) (other : Z) : py address := new (version_ self) (IntArg (ip self - other)).

Definition packed (self : address) : py (list Z) :=
  match version_ self with V4 => v4_int_to_packed (ip self) | V6 => v6_int_to_packed (ip self) end.

(** The IPv4 address of an IPv4-mapped IPv6 address, as an integer. *)
Definition ipv4_mapped (self : address) : option Z :=
  if negb (Z.shiftr (ip self) 32 =? 65535) then None else Some (Z.land (ip self) 4294967295).

Definition ipv4_mapped_ipv6_to_str (self : address) : py (list Z) :=
  match ipv4_mapped self with
  | None => Raise AddressValueError
  | Some m =>
      let high_order_bits := Z.shiftr (ip self) 32 in
      hi ← string_from_ip_int6 high_order_bits;
      lo ← string_from_ip_int4 m;
      Ret (hi ++ [58] ++ lo)
  end.

Definition str (self : address) : py (list Z) :=
  match version_ self with
  | V4 => string_from_ip_int4 (ip self)
  | V6 =>
      ip_str ← match ipv4_mapped self with
               | None => string_from_ip_int6 (ip self)
               | Some _ => ipv4_mapped_ipv6_to_str self
               end;
      Ret match scope_id self with
          | Some scope => if negb (zlen scope =? 0) then ip_str ++ [37] ++ scope else ip_str
          | None => ip_str
          end
  end.

(** [_BaseV6._explode_shorthand_ip_string] on an address. *)
Definition explode_base6 (self : address) : py (list Z) :=
  ip_str ← str self;
  ip_int ← ip_int_from_string6 ip_str;
  let hex_str := fmt_032x ip_int in
  Ret (join 58 (quads hex_str)).

Definition explode_address6 (self : address) : py (list Z) :=
  match ipv4_mapped self with
  | None => explode_base6 self
  | Some m =>
      raw_exploded_str ← explode_base6 self;
      m_str ← string_from_ip_int4 m;
      Ret (pyslice raw_exploded_str 0 30 ++ m_str)
  end.
Definition exploded (self : address) : py (list Z) :=
  match version_ self with
  | V4 => str self
  | V6 => explode_address6 self
  end.

(** [".".join(chars)] of the characters of a text. *)
Definition dot_join (chars : list Z) : list Z := join 46 ((fun c => [c]) <$> chars).

Definition reverse_pointer4 (self : address) : py (list Z) :=
  s ← str self;
  let reverse_octets := rev (split 46 s) in
  Ret (join 46 reverse_octets ++ lit ".in-addr.arpa").
Definition reverse_pointer_base6 (self : address) : py (list Z) :=
  e ← exploded self;
  let reverse_chars := Text.replace [58] [] (rev e) in
  Ret (dot_join reverse_chars ++ lit ".ip6.arpa").
Definition reverse_pointer6 (self : address) : py (list Z) :=
  match ipv4_mapped self with
  | None => reverse_pointer_base6 self
  | Some ipv4_int =>
      e ← explode_base6 self;
      let raw_exploded_str := pyslice e 0 30 in
      let reverse_chars := Text.replace [58] [] (rev (raw_exploded_str ++ pad_left 48 8 (fmt_x ipv4_int))) in
      Ret (dot_join reverse_chars ++ lit ".ip6.arpa")
  end.
Definition reverse_pointer (self : address) : py (list Z) :=
  match version_ self with V4 => reverse_pointer4 self | V6 => reverse_pointer6 self end.

Definition ipv6_mapped (self : address) : py address :=
  s ← str self;
  new V6 (StrArg (lit "::ffff:" ++ s)).

Definition teredo (self : address) : py (option (address * address)) :=
  if negb (Z.shiftr (ip self) 96 =? 536936448) then Ret None
  else
    server ← new V4 (IntArg (Z.land (Z.shiftr (ip self) 64) 4294967295));
    client ← new V4 (IntArg (Z.land (Z.lnot (ip self)) 4294967295));
    Ret (Some (server, client)).

Definition sixtofour (self : address) : py (option address) :=
  if negb (Z.shiftr (ip self) 112 =? 8194) then Ret None
  else a ← new V4 (IntArg (Z.land (Z.shiftr (ip self) 80) 4294967295)); Ret (Some a).

End Address.

Definition is_address_error (e : exn) : bool :=
  match e with AddressValueError | NetmaskValueError => true | _ => false end.

Definition ip_address (address : address_arg) : py Address.address :=
  catch is_address_error (Address.new V4 address)
    (catch is_address_error (Address.new V6 address) (Raise ValueError)).

(** * IPv4 texts, lemmas *)

Definition is_ret {A} (eq : A -> A -> bool) (m : py A) (a : A) : bool := match m with Ret x => eq x a | _ => false end.
Lemma is_ret_Z m a : is_ret Z.eqb m a = true -> m = Ret a.
Proof. destruct m as [x| |]; cbn; try done. intros E. f_equal. lia. Qed.

(** What a result is when nothing unforeseen happens. *)
Definition only_raises {A} (e : exn) (m : py A) : Prop := (exists a, m = Ret a) \/ m = Raise e.

Lemma octet_text b : is_byte b ->
  parse_octet (to_base 10 b) = Ret b /\ Forall (fun c => 48 <= c <= 57) (to_base 10 b) /\ 1 <= zlen (to_base 10 b) <= 3.
Proof.
  intros Hb. assert (T : is_ret Z.eqb (parse_octet (to_base 10 b)) b && forallb (fun c => between 48 c 57) (to_base 10 b)
    && between 1 (zlen (to_base 10 b)) 3 = true).
  { revert b Hb. apply byte_cases. vm_compute. reflexivity. }
  rewrite !andb_true_iff in T. destruct T as [[T1 T2] T3]. split; [by apply is_ret_Z|]. unfold between in *. split; [|lia].
  apply forallb_Forall in T2. eapply Forall_impl; [exact T2|]. cbv beta. lia.
Qed.

Lemma range_cases a b (P : Z -> bool) : forallb P (pyrange a b) = true -> forall x, a <= x < b -> P x = true.
Proof. intros H x Hx. rewrite forallb_forall in H. apply H. by apply list_elem_of_In, elem_of_pyrange. Qed.

(** Of the texts of up to three digits, those that parse are the ones printed. *)
Definition octet_canonical (s : list Z) : bool :=
  match parse_octet s with
  | Ret b => zeqb_list s (to_base 10 b) && between 0 b 255
  | Raise ValueError => true
  | _ => false
  end.
Lemma octet_canonical1 : forall a, 48 <= a < 58 -> octet_canonical [a] = true.
Proof. apply range_cases. vm_compute. reflexivity. Qed.
Lemma octet_canonical2 a b : 48 <= a < 58 -> 48 <= b < 58 -> octet_canonical [a; b] = true.
Proof.
  intros Ha Hb. revert b Hb. apply range_cases. revert a Ha. apply range_cases. vm_compute. reflexivity.
Qed.
Lemma octet_canonical3 a b c : 48 <= a < 58 -> 48 <= b < 58 -> 48 <= c < 58 -> octet_canonical [a; b; c] = true.
Proof.
  intros Ha Hb Hc. revert c Hc. apply range_cases. revert b Hb. apply range_cases. revert a Ha. apply range_cases.
  vm_compute. reflexivity.
Qed.

Lemma octet_inv s : (exists b, parse_octet s = Ret b /\ is_byte b /\ s = to_base 10 b) \/ parse_octet s = Raise ValueError.
Proof.
  destruct (octet_canonical s) eqn:C.
  - unfold octet_canonical in C. destruct (parse_octet s) as [b|[]|]; try done; [|by right]. left. exists b.
    apply andb_true_iff in C as [C1 C2]. apply zeqb_list_eq in C1. unfold between, is_byte in *. split; [done|]. split; [lia | done].
  - right. unfold parse_octet. destruct (zlen s =? 0) eqn:E0; [done|]. destruct (ascii_digits s) eqn:D; [|done]. cbn [negb].
    destruct (zlen s >? 3) eqn:E3; [done|]. exfalso. unfold ascii_digits in D. apply andb_true_iff in D as [_ D]. apply forallb_Forall in D.
    unfold between in D. destruct s as [|a [|b [|c [|d s]]]]; [done|..|rewrite !zlen_cons in E3; pose proof (zlen_nonneg s); lia];
      rewrite ?Forall_cons in D; [rewrite octet_canonical1 in C | rewrite octet_canonical2 in C | rewrite octet_canonical3 in C]; (done || lia).
Qed.

Lemma octets_text l : Forall is_byte l -> mapM_py parse_octet (to_base 10 <$> l) = Ret l.
Proof.
  induction 1 as [|b l Hb _ IH]; [done|]. rewrite fmap_cons. cbn [mapM_py]. rewrite (proj1 (octet_text b Hb)), py_ret_bind, IH, py_ret_bind. done.
Qed.

Lemma octets_inv ts : (exists l, mapM_py parse_octet ts = Ret l /\ Forall is_byte l /\ ts = to_base 10 <$> l)
  \/ mapM_py parse_octet ts = Raise ValueError.
Proof.
  induction ts as [|t ts IH]; [left; by exists []|]. cbn [mapM_py].
  destruct (octet_inv t) as [(b & -> & Hb & ->) | ->]; [|by right]. rewrite py_ret_bind.
  destruct IH as [(l & -> & Hl & ->) | ->]; [|by right]. rewrite py_ret_bind. left. exists (b :: l). split; [done|]. by split; [constructor|].
Qed.

Lemma no_dots l c : Forall is_byte l -> ~ 48 <= c <= 57 -> Forall (fun p => c ∉ p) (to_base 10 <$> l).
Proof.
  intros H Hc. apply Forall_fmap. eapply Forall_impl; [exact H|]. intros b Hb Hin.
  destruct (octet_text b Hb) as (_ & F & _). rewrite Forall_forall in F. by apply F in Hin.
Qed.

Definition dotted (ip : Z) : list Z := join 46 (to_base 10 <$> be_bytes 4 ip).

Lemma be_bytes_be_val l n : n = length l -> Forall is_byte l -> be_bytes n (be_val l) = l.
Proof.
  intros -> H. unfold be_bytes, be_val. rewrite <- length_rev, le_bytes_le_val by by apply Forall_rev. apply rev_involutive.
Qed.

Lemma be_val_bound l : Forall is_byte l -> 0 <= be_val l < 256 ^ zlen l.
Proof. intros H. unfold be_val. rewrite <- zlen_rev. apply le_val_bound. by apply Forall_rev. Qed.

Lemma string4_ret ip : 0 <= ip <= ALL_ONES V4 -> string_from_ip_int4 ip = Ret (dotted ip).
Proof. intros H. unfold string_from_ip_int4. rewrite between_true; [done|]. unfold ALL_ONES, IPV4LENGTH in H. lia. Qed.

Lemma dotted_parses ip : 0 <= ip <= ALL_ONES V4 -> ip_int_from_string4 (dotted ip) = Ret ip.
Proof.
  intros H. unfold ALL_ONES, IPV4LENGTH in H. unfold ip_int_from_string4, dotted. pose proof (be_bytes_bytes 4 ip) as B.
  assert (NE : to_base 10 <$> be_bytes 4 ip <> []) by (intros X; by apply (f_equal length) in X).
  rewrite split_join; [|done | apply no_dots; [done | lia]].
  destruct (zlen (join 46 _) =? 0) eqn:E.
  { exfalso. destruct (join _ _) as [|c j] eqn:J; [|rewrite zlen_cons in E; pose proof (zlen_nonneg j); lia].
    pose proof (split_join 46 (to_base 10 <$> be_bytes 4 ip) NE (no_dots _ 46 B ltac:(lia))) as S. rewrite J in S. done. }
  change (zlen (to_base 10 <$> be_bytes 4 ip)) with 4. cbn [Z.eqb negb Pos.eqb]. rewrite octets_text by done.
  rewrite py_ret_bind. cbn [catch]. f_equal. apply be_val_be_bytes. change (256 ^ Z.of_nat 4) with (2 ^ 32). lia.
Qed.

Lemma string4_inv t : (exists ip, ip_int_from_string4 t = Ret ip /\ 0 <= ip <= ALL_ONES V4 /\ t = dotted ip)
  \/ ip_int_from_string4 t = Raise AddressValueError.
Proof.
  unfold ip_int_from_string4. destruct (zlen t =? 0); [by right|]. destruct (zlen (split 46 t) =? 4) eqn:L; [|by right]. cbn [negb].
  destruct (octets_inv (split 46 t)) as [(l & -> & Hl & E) | ->]; [|by right]. rewrite py_ret_bind. left. exists (be_val l).
  assert (L4 : length l = 4%nat) by (rewrite E, zlen_fmap in L; unfold zlen in L; lia). pose proof (be_val_bound l Hl) as B.
  unfold zlen in B. rewrite L4 in B. unfold ALL_ONES, IPV4LENGTH. split; [done|]. split; [change (256 ^ Z.of_nat 4) with (2 ^ 32) in B; lia|].
  unfold dotted. rewrite be_bytes_be_val by done. by rewrite <- E, join_split.
Qed.

(** the texts of IPv4 addresses: every 32-bit address prints as a text that
    parses to it, and a text that parses is the one its address prints as;
    every other text is an [AddressValueError]. *)
Theorem ipv4_text :
  (forall ip, 0 <= ip <= ALL_ONES V4 -> exists t, string_from_ip_int4 ip = Ret t /\ ip_int_from_string4 t = Ret ip)
  /\ (forall t, (exists ip, ip_int_from_string4 t = Ret ip /\ 0 <= ip <= ALL_ONES V4 /\ string_from_ip_int4 ip = Ret t)
       \/ ip_int_from_string4 t = Raise AddressValueError).
Proof.
  split.
  - intros ip H. exists (dotted ip). split; [by apply string4_ret | by apply dotted_parses].
  - intros t. destruct (string4_inv t) as [(ip & E & H & ->) | E]; [left | by right]. exists ip. split; [done|].
    split; [done | by apply string4_ret].
Qed.

(** * IPv6 texts, lemmas *)

Definition hex_text (ds : list Z) : list Z := digit_char <$> ds.
Definition hextets (ip : Z) : list Z := fixed 65536 8 ip.
Definition is_hextet (h : Z) : Prop := 0 <= h < 65536.

Lemma hex_text_parses ds : ds <> [] -> Forall (fun d => 0 <= d < 16) ds -> zlen ds <= 4 -> parse_hextet (hex_text ds) = Ret (digits_val 16 0 ds).
Proof.
  intros Hne H L. unfold parse_hextet, hex_text. replace (forallb is_hex_digit (digit_char <$> ds)) with true.
  - rewrite zlen_fmap, Z.gtb_ltb, (proj2 (Z.ltb_ge 4 (zlen ds))) by lia. apply py_int_digits; [by right | done | done].
  - symmetry. apply forallb_Forall, Forall_fmap. eapply Forall_impl; [exact H|]. intros d Hd. cbv beta in Hd.
    unfold compose, is_hex_digit, digit_char, between. zcase; cbn [andb orb]; lia.
Qed.

Lemma hex_text_chars ds c : Forall (fun d => 0 <= d < 16) ds -> ~ (48 <= c <= 57 \/ 97 <= c <= 102) -> c ∉ hex_text ds.
Proof.
  intros H Hc Hin. apply list_elem_of_fmap in Hin as (d & -> & Hd). rewrite Forall_forall in H. apply H in Hd.
  apply Hc. unfold digit_char. zcase; lia.
Qed.

(** A part of a text that stands for the hextet [h]. *)
Definition part_of (p : list Z) (h : Z) : Prop :=
  parse_hextet p = Ret h /\ 1 <= zlen p <= 4 /\ (forall c, ~ (48 <= c <= 57 \/ 97 <= c <= 102) -> c ∉ p).

Lemma fmt_x_part h : is_hextet h -> part_of (fmt_x h) h.
Proof.
  intros H. unfold is_hextet in H. pose proof (digits_bound 16 h ltac:(lia) ltac:(lia)) as B. pose proof (digits_nonempty 16 h) as NE.
  assert (L : zlen (digits 16 h) <= 4).
  { unfold zlen. pose proof (digits_length 16 h 3 ltac:(lia)) as L. change (16 ^ Z.of_nat 4) with 65536 in L. lia. }
  assert (1 <= zlen (digits 16 h)) by (destruct (digits 16 h) as [|d l]; [done|]; rewrite zlen_cons; pose proof (zlen_nonneg l); lia).
  unfold part_of, fmt_x, to_base. change (digit_char <$> digits 16 h) with (hex_text (digits 16 h)). split_and!.
  - rewrite hex_text_parses by done. by rewrite digits_val_digits by lia.
  - unfold hex_text. rewrite zlen_fmap. lia.
  - unfold hex_text. rewrite zlen_fmap. lia.
  - intros c Hc. by apply hex_text_chars.
Qed.

Lemma pad4_part h : is_hextet h -> part_of (hex_text (fixed 16 4 h)) h /\ py_int 16 (hex_text (fixed 16 4 h)) = Ret h.
Proof.
  intros H. pose proof (fixed_bound 16 4 h ltac:(lia)) as B. pose proof (length_fixed 16 4 h) as L.
  assert (NE : fixed 16 4 h <> []) by (by destruct (fixed 16 4 h)).
  assert (V : digits_val 16 0 (fixed 16 4 h) = h) by (by apply digits_val_fixed).
  split; [|unfold hex_text; rewrite py_int_digits by auto; by rewrite V].
  unfold part_of, hex_text. rewrite zlen_fmap. unfold zlen. rewrite L. split; [|split; [lia|]].
  - rewrite hex_text_parses by (done || unfold zlen; rewrite L; lia). by rewrite V.
  - intros c Hc. by apply hex_text_chars.
Qed.

Lemma hextets_bound ip : Forall is_hextet (hextets ip).
Proof. apply fixed_bound. lia. Qed.

(** The text ["%032x" % ip], four characters at a time. *)
Lemma quads_hextets ip : 0 <= ip <= ALL_ONES V6 -> quads (fmt_032x ip) = (fun h => hex_text (fixed 16 4 h)) <$> hextets ip.
Proof.
  intros H. unfold ALL_ONES, IPV6LENGTH in H. unfold fmt_032x. rewrite pad_left_fixed by (change (16 ^ Z.of_nat 32) with (2 ^ 128); lia).
  change 32%nat with (8 * 4)%nat. rewrite fixed_group by lia. change (16 ^ Z.of_nat 4) with 65536. fold (hextets ip).
  pose proof (length_fixed 65536 8 ip) as L. fold (hextets ip) in L.
  rewrite fmap_concat_list, <- list_fmap_compose.
  assert (F : Forall (fun t => length t = 4%nat) ((fun h => hex_text (fixed 16 4 h)) <$> hextets ip)).
  { apply Forall_fmap, Forall_true. intros h. unfold compose, hex_text. by rewrite length_fmap, length_fixed. }
  change ((fmap digit_char ∘ fixed 16 4) <$> hextets ip) with ((fun h => hex_text (fixed 16 4 h)) <$> hextets ip).
  assert (L8 : length ((fun h => hex_text (fixed 16 4 h)) <$> hextets ip) = 8%nat) by (by rewrite length_fmap).
  revert F L8. generalize ((fun h => hex_text (fixed 16 4 h)) <$> hextets ip) as ts. clear. intros ts F L.
  do 8 (destruct ts as [|? ts]; [done|]). destruct ts; [|done]. rewrite !Forall_cons in F. destruct_and!.
  repeat match goal with H : length ?t = 4%nat |- _ => is_var t; do 4 (destruct t as [|? t]; [done|]); destruct t; [clear H|done] end.
  reflexivity.
Qed.

(** ** Reading the parts *)

Lemma pyget_back {A} (l : list A) i : - zlen l <= i < 0 -> pyget l i = of_opt IndexError (l !! Z.to_nat (zlen l + i)).
Proof.
  intros H. unfold pyget. rewrite (proj2 (Z.ltb_lt i 0)) by lia. rewrite (proj2 (Z.ltb_ge (i + zlen l) 0)) by lia.
  by rewrite Z.add_comm.
Qed.

(** [ip_int_from_string6] from the list of parts on. *)
Definition finish_parts (parts : list (list Z)) : py Z :=
  if zlen parts >? HEXTET_COUNT + 1 then Raise AddressValueError
  else
    skip_index ← find_skip parts;
    '(parts_hi, parts_lo, parts_skipped) ← part_counts parts skip_index;
    catch is_value_error
      (ip_int ← read_hextets parts 0 (pyrange 0 parts_hi);
       read_hextets parts (Z.shiftl ip_int (16 * parts_skipped)) (pyrange (- parts_lo) 0))
      (Raise AddressValueError).

Lemma zlen_join_le sep n ps : Forall (fun p => zlen p <= n) ps -> 0 <= n -> zlen (join sep ps) <= Z.max 0 (zlen ps * (n + 1) - 1).
Proof.
  intros H Hn. induction H as [|p ps Hp _ IH]; [unfold zlen; cbn [join length Z.of_nat]; lia|]. cbv beta in Hp. rewrite zlen_cons. destruct ps as [|q ps].
  - cbn [join]. change (zlen (@nil (list Z))) with 0. lia.
  - rewrite join_cons by done. rewrite zlen_app, !zlen_cons in *. pose proof (zlen_nonneg ps). lia.
Qed.

(** A text without an IPv4 suffix. *)
Lemma string6_parts parts : 3 <= zlen parts <= 9 -> Forall (fun p => zlen p <= 4 /\ 58 ∉ p) parts ->
  (forall p, last parts = Some p -> 46 ∉ p) -> ip_int_from_string6 (join 58 parts) = finish_parts parts.
Proof.
  intros L F D. assert (NE : parts <> []) by (intros ->; change (3 <= 0 <= 9) in L; lia).
  assert (F58 : Forall (fun p => 58 ∉ p) parts) by (eapply Forall_impl; [exact F|]; tauto).
  assert (F4 : Forall (fun p => zlen p <= 4) parts) by (eapply Forall_impl; [exact F|]; tauto).
  pose proof (zlen_join_le 58 4 parts F4 ltac:(lia)) as LJ. unfold ip_int_from_string6.
  assert (N0 : (zlen (join 58 parts) =? 0) = false).
  { destruct parts as [|p [|q ps]]; [done | change (3 <= 1 <= 9) in L; lia|]. rewrite join_cons by done. rewrite zlen_app, zlen_cons.
    pose proof (zlen_nonneg p). pose proof (zlen_nonneg (join 58 (q :: ps))). lia. }
  rewrite N0, Z.gtb_ltb, (proj2 (Z.ltb_ge 45 _)) by lia. change (Z.to_nat (HEXTET_COUNT + 1)) with 9%nat.
  rewrite split_max_join by (done || unfold zlen in L; lia). rewrite (proj2 (Z.ltb_ge (zlen parts) 3)) by lia.
  destruct (last parts) as [p|] eqn:E; [|by apply last_None in E]. specialize (D p eq_refl).
  assert (G : pyget parts (-1) = Ret p).
  { rewrite last_lookup in E. rewrite pyget_back by lia. unfold zlen in *.
    replace (Z.to_nat (Z.of_nat (length parts) + -1)) with (Nat.pred (length parts)) by lia. by rewrite E. }
  rewrite G, py_ret_bind, existsb_eqb_elem, bool_decide_eq_false_2 by done. rewrite py_ret_bind. done.
Qed.

(** No empty part in a stretch. *)
Lemma skip_stretch (f : option Z -> Z -> py (option Z)) st a b :
  (forall i, a <= i < b -> forall st, f st i = Ret st) -> foldM f st (pyrange a b) = Ret st.
Proof.
  revert st. pattern a, b. apply pyrange_ind; clear a b; intros a b L.
  - intros st _. by rewrite pyrange_nil.
  - intros IH st H. rewrite pyrange_cons by done. cbn [foldM]. rewrite H, py_ret_bind by lia. apply IH. intros i Hi. apply H. lia.
Qed.

Lemma find_skip_none parts :
  (forall i, 1 <= i < zlen parts - 1 -> exists p, pyget parts i = Ret p /\ 1 <= zlen p) -> find_skip parts = Ret None.
Proof.
  intros H. unfold find_skip. apply skip_stretch. intros i Hi st. destruct (H i Hi) as (p & -> & L).
  rewrite py_ret_bind, (proj2 (Z.eqb_neq (zlen p) 0)) by lia. done.
Qed.

Lemma find_skip_one parts k : 1 <= k < zlen parts - 1 -> pyget parts k = Ret [] ->
  (forall i, 1 <= i < zlen parts - 1 -> i <> k -> exists p, pyget parts i = Ret p /\ 1 <= zlen p) -> find_skip parts = Ret (Some k).
Proof.
  intros Hk E H. unfold find_skip. rewrite (pyrange_app 1 k), (pyrange_cons k) by lia. rewrite foldM_app.
  rewrite skip_stretch.
  - rewrite py_ret_bind. cbn [foldM]. rewrite E, py_ret_bind. change (zlen [] =? 0) with true. cbv iota. rewrite py_ret_bind.
    apply skip_stretch. intros i Hi st. destruct (H i ltac:(lia) ltac:(lia)) as (p & -> & L).
    rewrite py_ret_bind, (proj2 (Z.eqb_neq (zlen p) 0)) by lia. done.
  - intros i Hi st. destruct (H i ltac:(lia) ltac:(lia)) as (p & -> & L). rewrite py_ret_bind, (proj2 (Z.eqb_neq (zlen p) 0)) by lia. done.
Qed.

Lemma read_range parts acc hs i j :
  0 <= acc -> j = i + zlen hs -> (forall n h, hs !! n = Some h -> exists p, pyget parts (i + Z.of_nat n) = Ret p /\ parse_hextet p = Ret h) ->
  Forall is_hextet hs -> read_hextets parts acc (pyrange i j) = Ret (digits_val 65536 acc hs).
Proof.
  intros Ha -> H F. revert acc i Ha H. induction F as [|h hs Hh _ IH]; intros acc i Ha H.
  - change (zlen []) with 0. by rewrite Z.add_0_r, pyrange_nil by lia.
  - rewrite zlen_cons. pose proof (zlen_nonneg hs). rewrite pyrange_cons by lia. unfold read_hextets. cbn [foldM].
    destruct (H 0%nat h eq_refl) as (p & G & P). rewrite Z.add_0_r in G. rewrite G, py_ret_bind, P, !py_ret_bind.
    rewrite lor_shiftl_add by (unfold is_hextet in Hh; lia). change (2 ^ 16) with 65536.
    replace (i + (1 + zlen hs)) with (i + 1 + zlen hs) by lia. cbn [digits_val]. apply IH.
    + unfold is_hextet in Hh. lia.
    + intros n x Hn. destruct (H (S n) x Hn) as (q & Gq & Pq). exists q. split; [|done].
      by replace (i + 1 + Z.of_nat n) with (i + Z.of_nat (S n)) by lia.
Qed.

Lemma parts_lookup ps hs n h : Forall2 part_of ps hs -> hs !! n = Some h -> exists p, ps !! n = Some p /\ part_of p h.
Proof. intros F H. destruct (Forall2_lookup_r _ _ _ _ _ F H) as (p & E & P). by exists p. Qed.

Lemma parts_nonempty ps hs n : Forall2 part_of ps hs -> (n < length ps)%nat -> exists p, ps !! n = Some p /\ 1 <= zlen p.
Proof.
  intros F L. destruct (lookup_lt_is_Some_2 ps n L) as [p E]. exists p. split; [done|].
  destruct (Forall2_lookup_l _ _ _ _ _ F E) as (h & _ & _ & ? & _). lia.
Qed.

Lemma finish_full parts hs : Forall2 part_of parts hs -> length hs = 8%nat -> Forall is_hextet hs ->
  finish_parts parts = Ret (digits_val 65536 0 hs).
Proof.
  intros F L B. pose proof (Forall2_length _ _ _ F) as LP. rewrite L in LP. unfold finish_parts.
  assert (ZP : zlen parts = 8) by (unfold zlen; lia). rewrite ZP. change (8 >? HEXTET_COUNT + 1) with false. cbv iota.
  rewrite find_skip_none, py_ret_bind.
  2:{ intros i Hi. destruct (parts_nonempty parts hs (Z.to_nat i) F) as (p & E & Lp); [lia|]. exists p. split; [|done]. apply pyget_lookup; [lia | done]. }
  destruct (parts_nonempty parts hs 0 F ltac:(lia)) as (p0 & E0 & L0). destruct (parts_nonempty parts hs 7 F ltac:(lia)) as (p7 & E7 & L7).
  unfold part_counts. rewrite (pyget_lookup parts 0 p0) by done. rewrite py_ret_bind, pyget_back, ZP by lia.
  change (Z.to_nat (8 + -1)) with 7%nat. rewrite E7. cbn [of_opt]. rewrite py_ret_bind. change (8 =? HEXTET_COUNT) with true. cbn [negb].
  rewrite (proj2 (Z.eqb_neq (zlen p0) 0)), (proj2 (Z.eqb_neq (zlen p7) 0)) by lia. rewrite py_ret_bind.
  rewrite (read_range parts 0 hs 0 8).
  - rewrite py_ret_bind. change (16 * 0) with 0. rewrite Z.shiftl_0_r. done.
  - done.
  - unfold zlen. rewrite L. done.
  - intros n h Hn. destruct (parts_lookup _ _ _ _ F Hn) as (p & E & P & _). exists p. split; [|done]. apply pyget_lookup; [lia|].
    by replace (Z.to_nat (0 + Z.of_nat n)) with n by lia.
  - done.
Qed.

(** One side of the ["::"]: no part at all is one empty part. *)
Definition ends (ps : list (list Z)) : list (list Z) := match ps with [] => [[]] | _ => ps end.

Lemma zlen_ends ps : zlen (ends ps) = Z.max 1 (zlen ps).
Proof. destruct ps as [|p ps]; [done|]. cbn [ends]. rewrite zlen_cons. pose proof (zlen_nonneg ps). lia. Qed.

Section skipping.
Context (ph pl : list (list Z)) (hi lo : list Z).
Hypotheses (FH : Forall2 part_of ph hi) (FL : Forall2 part_of pl lo) (BH : Forall is_hextet hi) (BL : Forall is_hextet lo).
Hypothesis room : zlen hi + zlen lo <= 7.
Let parts := ends ph ++ [] :: ends pl.
Let k := zlen (ends ph).

Lemma zlen_ph : zlen ph = zlen hi.
Proof using FH FL room. unfold zlen. by rewrite (Forall2_length _ _ _ FH). Qed.
Lemma zlen_pl : zlen pl = zlen lo.
Proof using FH FL room. unfold zlen. by rewrite (Forall2_length _ _ _ FL). Qed.
Lemma k_val : k = Z.max 1 (zlen hi).
Proof using FH FL room. unfold k. by rewrite zlen_ends, zlen_ph. Qed.
Lemma zlen_skip_parts : zlen parts = k + 1 + Z.max 1 (zlen lo).
Proof using FH FL room. unfold parts. rewrite zlen_app, zlen_cons, (zlen_ends pl), zlen_pl. fold k. lia. Qed.

Lemma part_hi i : 0 <= i < zlen hi -> pyget parts i = pyget ph i.
Proof using FH FL room.
  intros H. pose proof zlen_ph as L. unfold parts. destruct ph as [|p ps] eqn:E; [rewrite zlen_nil in L; lia|]. cbn [ends].
  unfold pyget. rewrite (proj2 (Z.ltb_ge i 0)) by lia. rewrite (proj2 (Z.ltb_ge i 0)) by lia. rewrite lookup_app_l; [done|].
  unfold zlen in *. lia.
Qed.

Lemma part_mid : pyget parts k = Ret [].
Proof using FH FL room.
  pose proof (zlen_nonneg (ends ph)). apply pyget_lookup; [done|]. unfold parts, k. rewrite lookup_app_r by (unfold zlen; lia).
  replace (Z.to_nat (zlen (ends ph)) - length (ends ph))%nat with 0%nat by (unfold zlen; lia). done.
Qed.

Lemma part_lo i : - zlen lo <= i < 0 -> pyget parts i = pyget pl i.
Proof using FH FL room.
  intros H. pose proof zlen_pl as L. pose proof zlen_skip_parts as Z. pose proof (zlen_nonneg (ends ph)) as P. fold k in P.
  rewrite !pyget_back by lia. f_equal. rewrite Z, L. unfold parts. rewrite lookup_app_r by (unfold k, zlen in *; lia).
  replace (Z.to_nat (k + 1 + Z.max 1 (zlen lo) + i) - length (ends ph))%nat with (S (Z.to_nat (zlen lo + i)))
    by (unfold k, zlen in *; lia).
  cbn [lookup list_lookup]. by destruct pl; [rewrite zlen_nil in L; lia|].
Qed.

Lemma part_hi_ne i : 0 <= i < zlen hi -> exists p, pyget parts i = Ret p /\ 1 <= zlen p.
Proof using FH FL room.
  intros Hi. pose proof zlen_ph. rewrite part_hi by done.
  destruct (parts_nonempty ph hi (Z.to_nat i) FH) as (p & E & Lp); [unfold zlen in *; lia|].
  exists p. split; [apply pyget_lookup; [lia|done] | done].
Qed.

Lemma part_lo_ne i : - zlen lo <= i < 0 -> exists p, pyget parts i = Ret p /\ 1 <= zlen p.
Proof using FH FL room.
  intros Hi. pose proof zlen_pl. rewrite part_lo, pyget_back by lia.
  destruct (parts_nonempty pl lo (Z.to_nat (zlen pl + i)) FL) as (p & E & Lp); [unfold zlen in *; lia|].
  exists p. by rewrite E.
Qed.

Lemma part_first : exists p, pyget parts 0 = Ret p /\ (zlen p =? 0) = (zlen hi =? 0).
Proof using FH FL room.
  pose proof (zlen_nonneg hi). destruct (decide (zlen hi = 0)) as [Z0|N0].
  - exists []. rewrite Z0. split; [|done]. apply pyget_lookup; [done|]. pose proof zlen_ph as ZH. unfold parts. destruct ph as [|p ps]; [done|].
    rewrite zlen_cons in ZH. pose proof (zlen_nonneg ps). lia.
  - destruct (part_hi_ne 0 ltac:(lia)) as (p & -> & Lp). exists p. split; [done|]. lia.
Qed.

Lemma part_last : exists p, pyget parts (-1) = Ret p /\ (zlen p =? 0) = (zlen lo =? 0).
Proof using FH FL room.
  pose proof (zlen_nonneg lo). pose proof zlen_skip_parts as ZP. pose proof zlen_pl as ZL. pose proof (zlen_nonneg (ends ph)) as P. fold k in P.
  destruct (decide (zlen lo = 0)) as [Z0|N0].
  - exists []. rewrite Z0. split; [|done]. rewrite pyget_back by lia. rewrite ZP, Z0. unfold parts.
    destruct pl as [|p ps]; [|rewrite zlen_cons in ZL; pose proof (zlen_nonneg ps); lia].
    rewrite lookup_app_r by (unfold k, zlen in *; lia). cbn [ends].
    replace (Z.to_nat (k + 1 + Z.max 1 0 + -1) - length (ends ph))%nat with 1%nat by (unfold k, zlen in *; lia). done.
  - destruct (part_lo_ne (-1) ltac:(lia)) as (p & -> & Lp). exists p. split; [done|]. lia.
Qed.

Lemma skip_counts : part_counts parts (Some k) = Ret (zlen hi, zlen lo, 8 - (zlen hi + zlen lo)).
Proof using FH FL room.
  pose proof k_val as K. pose proof zlen_skip_parts as ZP. pose proof (zlen_nonneg hi). pose proof (zlen_nonneg lo).
  unfold part_counts. destruct part_first as (p0 & -> & Z0). destruct part_last as (pn & -> & Zn). rewrite !py_ret_bind, Z0, Zn, ZP.
  replace (k + 1 + Z.max 1 (zlen lo) - k - 1) with (Z.max 1 (zlen lo)) by lia. unfold HEXTET_COUNT.
  assert (H1 : (if zlen hi =? 0 then if negb (k - 1 =? 0) then Raise AddressValueError else Ret (k - 1) else Ret k) = Ret (zlen hi)).
  { destruct (Z.eqb_spec (zlen hi) 0); [|f_equal; lia]. rewrite (proj2 (Z.eqb_eq (k - 1) 0)) by lia. cbn [negb]. f_equal. lia. }
  assert (H2 : (if zlen lo =? 0 then if negb (Z.max 1 (zlen lo) - 1 =? 0) then Raise AddressValueError else Ret (Z.max 1 (zlen lo) - 1)
    else Ret (Z.max 1 (zlen lo))) = Ret (zlen lo)).
  { destruct (Z.eqb_spec (zlen lo) 0); [|f_equal; lia]. rewrite (proj2 (Z.eqb_eq (Z.max 1 (zlen lo) - 1) 0)) by lia. cbn [negb]. f_equal. lia. }
  rewrite H1, py_ret_bind, H2, py_ret_bind. by rewrite (proj2 (Z.ltb_ge _ 1)) by lia.
Qed.

Lemma finish_skip : finish_parts parts
  = Ret (digits_val 65536 (Z.shiftl (digits_val 65536 0 hi) (16 * (8 - (zlen hi + zlen lo)))) lo).
Proof using FH FL BH BL room.
  pose proof k_val as K. pose proof zlen_skip_parts as ZP. pose proof zlen_pl as ZL. pose proof (zlen_nonneg hi). pose proof (zlen_nonneg lo).
  unfold finish_parts. rewrite Z.gtb_ltb, (proj2 (Z.ltb_ge (HEXTET_COUNT + 1) _)) by (unfold HEXTET_COUNT; lia).
  rewrite (find_skip_one parts k), py_ret_bind; [|lia|exact part_mid|].
  2:{ intros i Hi Hne. destruct (decide (i < k)) as [Lt|Ge]; [apply part_hi_ne; lia|].
      destruct (part_lo_ne (i - zlen parts) ltac:(lia)) as (p & E & Lp). exists p. split; [|done]. rewrite pyget_back in E by lia.
      replace (zlen parts + (i - zlen parts)) with i in E by lia. destruct (parts !! Z.to_nat i) eqn:X; [|done].
      cbn in E. simplify_eq. apply pyget_lookup; [lia | done]. }
  rewrite skip_counts, py_ret_bind.
  assert (V : 0 <= digits_val 65536 0 hi) by (pose proof (digits_val_bound 65536 0 hi ltac:(lia) ltac:(lia) BH); lia).
  rewrite (read_range parts 0 hi 0 (zlen hi)); [|done|lia| |done].
  2:{ intros n h Hn. pose proof (lookup_lt_Some _ _ _ Hn). destruct (parts_lookup _ _ _ _ FH Hn) as (p & E & P & _). exists p. split; [|done].
      rewrite part_hi by (unfold zlen; lia). apply pyget_lookup; [lia|]. by replace (Z.to_nat (0 + Z.of_nat n)) with n by lia. }
  rewrite py_ret_bind, (read_range parts _ lo (- zlen lo) 0); [done| |lia| |done].
  - by apply Z.shiftl_nonneg.
  - intros n h Hn. pose proof (lookup_lt_Some _ _ _ Hn). destruct (parts_lookup _ _ _ _ FL Hn) as (p & E & P & _). exists p. split; [|done].
    rewrite part_lo by (unfold zlen; lia). rewrite pyget_back by (unfold zlen in *; lia).
    replace (Z.to_nat (zlen pl + (- zlen lo + Z.of_nat n))) with n by lia. by rewrite E.
Qed.
End skipping.

(** ** Runs of zeros *)

(** [run_loop] sees only which hextets are zero. *)
Fixpoint zero_run (st : run_state) (index : Z) (zs : list bool) : run_state :=
  match zs with
  | [] => st
  | z :: zs =>
      zero_run
        (if z : bool then
           let len := cur_len st + 1 in
           let start := if cur_start st =? -1 then index else cur_start st in
           if len >? best_len st then Run start len start len else Run (best_start st) (best_len st) start len
         else Run (best_start st) (best_len st) (-1) 0)
        (index + 1) zs
  end.

Lemma run_loop_zeros st i ts : run_loop st i ts = zero_run st i ((fun t => zeqb_list t (lit "0")) <$> ts).
Proof. revert st i. induction ts as [|t ts IH]; intros st i; [done|]. rewrite fmap_cons. cbn [run_loop zero_run]. apply IH. Qed.

Fixpoint patterns (n : nat) : list (list bool) :=
  match n with O => [[]] | S n => (cons true <$> patterns n) ++ (cons false <$> patterns n) end.

Lemma elem_of_patterns zs : zs ∈ patterns (length zs).
Proof.
  induction zs as [|z zs IH]; [by left|]. cbn [length patterns]. rewrite elem_of_app, !list_elem_of_fmap. destruct z; [left | right]; by exists zs.
Qed.

(** Zeros from [s] on, [n] of them. *)
Definition zeros_at (zs : list bool) (s n : Z) : bool :=
  (0 <=? s) && (s + n <=? zlen zs) && forallb id (take (Z.to_nat n) (drop (Z.to_nat s) zs)).

(** The run found is the longest, and the first of the longest; a run of one is
    not taken. *)
Definition run_ok (zs : list bool) : bool :=
  let st := zero_run (Run (-1) 0 (-1) 0) 0 zs in
  (if best_len st >? 1 then zeros_at zs (best_start st) (best_len st) else true)
  && forallb (fun s => forallb (fun n =>
       negb (zeros_at zs s n) || (n <=? 1) || (n <? best_len st) || ((n =? best_len st) && (best_start st <=? s))) (pyrange 1 9)) (pyrange 0 8).

Lemma run_table zs : length zs = 8%nat -> run_ok zs = true.
Proof.
  intros L. assert (T : forallb run_ok (patterns 8) = true) by (vm_compute; reflexivity).
  rewrite forallb_forall in T. apply T, list_elem_of_In. rewrite <- L. apply elem_of_patterns.
Qed.

Lemma fmt_x_zero h : is_hextet h -> zeqb_list (fmt_x h) (lit "0") = (h =? 0).
Proof.
  intros H. destruct (Z.eqb_spec h 0) as [->|N]; [done|]. destruct (zeqb_list _ _) eqn:E; [|done]. apply zeqb_list_eq in E.
  destruct (fmt_x_part h H) as [P _]. rewrite E in P. vm_compute in P. congruence.
Qed.

Lemma zero_pattern hs : Forall is_hextet hs -> (fun t => zeqb_list t (lit "0")) <$> (fmt_x <$> hs) = (fun h => h =? 0) <$> hs.
Proof. induction 1 as [|h hs H _ IH]; [done|]. rewrite !fmap_cons, IH. by rewrite fmt_x_zero. Qed.

(** A stretch of zeros splits the hextets. *)
Lemma zeros_split hs s n : zeros_at ((fun h => h =? 0) <$> hs) s n = true -> 0 <= n ->
  hs = take (Z.to_nat s) hs ++ replicate (Z.to_nat n) 0 ++ drop (Z.to_nat (s + n)) hs.
Proof.
  unfold zeros_at. rewrite !andb_true_iff, zlen_fmap. intros [[H1 H2] H3] Hn. unfold zlen in H2.
  rewrite <- (take_drop (Z.to_nat s) hs) at 1. f_equal. rewrite <- fmap_drop, <- fmap_take in H3.
  rewrite <- (take_drop (Z.to_nat n) (drop (Z.to_nat s) hs)) at 1. f_equal.
  - apply forallb_Forall, Forall_fmap in H3. symmetry. apply replicate_as_Forall. split.
    + rewrite length_take, length_drop. lia.
    + eapply Forall_impl; [exact H3|]. intros h E. unfold compose, id in E. lia.
  - rewrite drop_drop. f_equal. lia.
Qed.

Definition found_run (hs : list Z) : run_state := zero_run (Run (-1) 0 (-1) 0) 0 ((fun h => h =? 0) <$> hs).

Lemma compress_run hs : length hs = 8%nat -> Forall is_hextet hs ->
  let zs := (fun h => h =? 0) <$> hs in
  let s := best_start (found_run hs) in
  let n := best_len (found_run hs) in
  (n <= 1 /\ compress_hextets (fmt_x <$> hs) = fmt_x <$> hs)
  \/ (1 < n /\ zeros_at zs s n = true
      /\ compress_hextets (fmt_x <$> hs) = ends (fmt_x <$> take (Z.to_nat s) hs) ++ [] :: ends (fmt_x <$> drop (Z.to_nat (s + n)) hs)).
Proof.
  intros L F zs s n. pose proof (run_table zs ltac:(unfold zs; by rewrite length_fmap)) as T.
  unfold run_ok in T. apply andb_true_iff in T as [T _]. unfold compress_hextets. rewrite run_loop_zeros, zero_pattern by done.
  fold zs. change (zero_run _ _ zs) with (found_run hs) in *. fold s n in T |- *. rewrite Z.gtb_ltb in *.
  destruct (Z.ltb_spec 1 n) as [B|]; [right | by left]. split; [done|]. split; [done|].
  unfold zeros_at in T. rewrite !andb_true_iff in T. destruct T as [[T1 T2] _]. unfold zs in T2. rewrite zlen_fmap in T2. unfold zlen in T2. rewrite L in T2.
  rewrite zlen_fmap. unfold zlen. rewrite L. change (Z.of_nat 8) with 8 in *.
  assert (LT : length (fmt_x <$> hs) = 8%nat) by (by rewrite length_fmap). rewrite fmap_take, fmap_drop.
  set (ts := fmt_x <$> hs) in *.
  assert (SA : slice_assign (if s + n =? 8 then ts ++ [[]] else ts) s (s + n) [[]] = take (Z.to_nat s) ts ++ [] :: ends (drop (Z.to_nat (s + n)) ts)).
  { destruct (Z.eqb_spec (s + n) 8) as [E8|N8].
    - rewrite slice_assign_nn by lia. rewrite take_app_le by lia. f_equal. cbn [app]. f_equal.
      rewrite E8. change (Z.to_nat 8) with 8%nat. rewrite drop_app_ge by lia. rewrite LT, (drop_ge ts) by lia. done.
    - rewrite slice_assign_nn by lia. do 2 f_equal. cbn [app]. f_equal.
      destruct (drop (Z.to_nat (s + n)) ts) eqn:D; [|done]. apply (f_equal length) in D. rewrite length_drop in D. cbn in D. lia. }
  rewrite SA. destruct (Z.eqb_spec s 0) as [E0|N0]; [by rewrite E0|].
  destruct (take (Z.to_nat s) ts) as [|t l] eqn:D; [|done]. apply (f_equal length) in D. rewrite length_take in D. cbn in D. lia.
Qed.

Lemma compress_shape hs : length hs = 8%nat -> Forall is_hextet hs ->
  compress_hextets (fmt_x <$> hs) = fmt_x <$> hs
  \/ exists hi lo n, hs = hi ++ replicate n 0 ++ lo /\ (2 <= n)%nat
     /\ compress_hextets (fmt_x <$> hs) = ends (fmt_x <$> hi) ++ [] :: ends (fmt_x <$> lo).
Proof.
  intros L F. destruct (compress_run hs L F) as [[_ E] | (N & Z & E)]; [by left | right].
  eexists _, _, (Z.to_nat (best_len (found_run hs))). split; [by apply zeros_split; [|lia]|]. split; [lia | exact E].
Qed.

(** ** The texts of an address *)

Lemma parts_forall2 (f : Z -> list Z) hs : (forall h, is_hextet h -> part_of (f h) h) -> Forall is_hextet hs -> Forall2 part_of (f <$> hs) hs.
Proof. intros P. induction 1 as [|h hs H _ IH]; [constructor|]. rewrite fmap_cons. constructor; [by apply P | done]. Qed.

(** A part is short and has none of the separators in it. *)
Definition clean_part (p : list Z) : Prop := zlen p <= 4 /\ (58 ∉ p) /\ (46 ∉ p) /\ (37 ∉ p) /\ (47 ∉ p).

Lemma part_chars ps hs : Forall2 part_of ps hs -> Forall clean_part ps.
Proof. induction 1 as [|p h ps hs (_ & L & C) _ IH]; constructor; [|done]. split; [lia|]. split_and!; apply C; lia. Qed.

Lemma ends_chars ps hs : Forall2 part_of ps hs -> Forall clean_part (ends ps).
Proof.
  intros F. apply part_chars in F. destruct ps as [|p ps]; [|done]. cbn [ends]. rewrite Forall_singleton.
  split; [done|]. split_and!; apply not_elem_of_nil.
Qed.

Lemma string6_finish parts : 3 <= zlen parts <= 9 -> Forall clean_part parts ->
  ip_int_from_string6 (join 58 parts) = finish_parts parts.
Proof.
  intros L F. apply string6_parts; [done | eapply Forall_impl; [exact F|]; unfold clean_part; tauto |]. intros p E. rewrite last_lookup in E.
  rewrite Forall_lookup in F. by destruct (F _ _ E) as (_ & _ & ? & _).
Qed.

Lemma hextets_val ip : 0 <= ip <= ALL_ONES V6 -> digits_val 65536 0 (hextets ip) = ip.
Proof. intros H. apply digits_val_fixed; [lia|]. unfold ALL_ONES, IPV6LENGTH in H. change (65536 ^ Z.of_nat 8) with (2 ^ 128). lia. Qed.

Lemma full_parses (f : Z -> list Z) ip : (forall h, is_hextet h -> part_of (f h) h) -> 0 <= ip <= ALL_ONES V6 ->
  ip_int_from_string6 (join 58 (f <$> hextets ip)) = Ret ip.
Proof.
  intros P H. pose proof (parts_forall2 f (hextets ip) P (hextets_bound ip)) as F.
  rewrite string6_finish; [|rewrite zlen_fmap; unfold zlen, hextets; rewrite length_fixed; lia | by eapply part_chars].
  rewrite (finish_full _ (hextets ip)); [|done | apply length_fixed | apply hextets_bound]. by rewrite hextets_val.
Qed.

Lemma digits_val_shift b acc n : digits_val b acc (replicate n 0) = acc * b ^ Z.of_nat n.
Proof.
  revert acc. induction n as [|n IH]; intros acc; [cbn; lia|]. cbn [replicate digits_val]. rewrite IH, Nat2Z.inj_succ, Z.pow_succ_r by lia. lia.
Qed.

Definition compressed (ip : Z) : list (list Z) := compress_hextets (fmt_x <$> hextets ip).

Lemma compressed_parses ip : 0 <= ip <= ALL_ONES V6 ->
  ip_int_from_string6 (join 58 (compressed ip)) = Ret ip
  /\ Forall clean_part (compressed ip).
Proof.
  intros H. pose proof (hextets_bound ip) as B. assert (L : length (hextets ip) = 8%nat) by apply length_fixed. unfold compressed.
  destruct (compress_shape (hextets ip) L B) as [-> | (hi & lo & n & E & Hn & ->)].
  { split; [apply full_parses; [apply fmt_x_part | done]|]. eapply part_chars, parts_forall2; [apply fmt_x_part | done]. }
  rewrite E, !Forall_app in B. destruct B as (BH & _ & BL).
  pose proof (parts_forall2 fmt_x hi fmt_x_part BH) as FH. pose proof (parts_forall2 fmt_x lo fmt_x_part BL) as FL.
  assert (LS : zlen hi + Z.of_nat n + zlen lo = 8).
  { pose proof (f_equal length E) as X. rewrite L, !length_app, length_replicate in X. unfold zlen. lia. }
  pose proof (zlen_nonneg hi). pose proof (zlen_nonneg lo).
  assert (F : Forall clean_part (ends (fmt_x <$> hi) ++ [] :: ends (fmt_x <$> lo))).
  { apply Forall_app. split; [by eapply ends_chars|]. constructor; [|by eapply ends_chars]. split; [done|]. split_and!; apply not_elem_of_nil. }
  split; [|done]. rewrite string6_finish; [|rewrite zlen_app, zlen_cons, !zlen_ends, !zlen_fmap; lia | done].
  rewrite (finish_skip _ _ hi lo FH FL BH BL) by lia. f_equal. rewrite <- (hextets_val ip H) at 1. rewrite E, !digits_val_app, digits_val_shift.
  f_equal. replace (16 * (8 - (zlen hi + zlen lo))) with (16 * Z.of_nat n) by lia. rewrite Z.shiftl_mul_pow2, Z.pow_mul_r by lia. done.
Qed.

Lemma string6_ret ip : 0 <= ip <= ALL_ONES V6 -> string_from_ip_int6 ip = Ret (join 58 (compressed ip)).
Proof.
  intros H. unfold string_from_ip_int6. rewrite Z.gtb_ltb, (proj2 (Z.ltb_ge _ _)) by lia. rewrite quads_hextets by done.
  assert (M : forall hs, Forall is_hextet hs ->
    mapM_py (fun q => h ← py_int 16 q; Ret (fmt_x h)) ((fun h => hex_text (fixed 16 4 h)) <$> hs) = Ret (fmt_x <$> hs)).
  { induction 1 as [|h hs Hh _ IH]; [done|]. rewrite !fmap_cons. cbn [mapM_py].
    rewrite (proj2 (pad4_part h Hh)), !py_ret_bind, IH, py_ret_bind. done. }
  rewrite M by apply hextets_bound. rewrite py_ret_bind. done.
Qed.

(** ** Texts that do not parse *)

Lemma int_digits_hex acc p : Forall (fun c => is_hex_digit c = true) p -> 0 <= acc -> forall need, need = false \/ p <> [] ->
  exists v, int_digits 16 acc need p = Some v /\ acc * 16 ^ zlen p <= v < (acc + 1) * 16 ^ zlen p.
Proof.
  intros F. revert acc. induction F as [|c p Hc _ IH]; intros acc Ha need Hn.
  - destruct Hn as [-> | ?]; [|done]. exists acc. split; [done|]. change (zlen []) with 0. lia.
  - assert (D : (c =? 95) = false /\ exists d, char_digit c = Some d /\ 0 <= d < 16).
    { unfold is_hex_digit, between in Hc. split; [lia|]. unfold char_digit, between. zcase; cbn [andb]; try lia; eexists; (split; [done|lia]). }
    destruct D as (E & d & C & Hd). cbn [int_digits]. rewrite E, C. cbn [mbind option_bind]. rewrite (proj2 (Z.ltb_lt d 16)) by lia.
    destruct (IH (acc * 16 + d) ltac:(lia) false ltac:(by left)) as (v & V & B). exists v. split; [done|].
    rewrite zlen_cons, Z.pow_add_r, Z.pow_1_r by (try apply zlen_nonneg; lia).
    pose proof (Z.pow_pos_nonneg 16 (zlen p) ltac:(lia) (zlen_nonneg p)). nia.
Qed.

Lemma py_int_hex p : p <> [] -> Forall (fun c => is_hex_digit c = true) p -> exists v, py_int 16 p = Ret v /\ 0 <= v < 16 ^ zlen p.
Proof.
  intros Hne F. destruct (int_digits_hex 0 p F ltac:(lia) true ltac:(by right)) as (v & V & B). exists v. split; [|lia].
  unfold py_int, py_int_strip. rewrite strip_id.
  2:{ eapply Forall_impl; [exact F|]. intros c Hc. cbv beta in Hc. unfold is_hex_digit, is_space, between in *. zcase; simpl; lia. }
  destruct p as [|c p]; [done|]. apply Forall_cons in F as [F1 F2]. unfold is_hex_digit, between in F1.
  rewrite (proj2 (Z.eqb_neq c 45)), (proj2 (Z.eqb_neq c 43)) by lia. unfold py_int_unsigned.
  replace (hex_prefix (c :: p)) with false; [by rewrite andb_false_r, V|]. symmetry. unfold hex_prefix.
  change (lit "0x") with [48; 120]. change (lit "0X") with [48; 88]. destruct p as [|c2 p]; cbn [starts_with].
  - by rewrite !andb_false_r.
  - apply Forall_cons in F2 as [F2 _]. unfold is_hex_digit, between in F2. lia.
Qed.

Lemma parse_hextet_total p : (exists h, parse_hextet p = Ret h /\ is_hextet h) \/ parse_hextet p = Raise ValueError.
Proof.
  unfold parse_hextet. destruct (forallb is_hex_digit p) eqn:F; [|by right]. cbn [negb]. destruct (zlen p >? 4) eqn:L; [by right|].
  destruct p as [|c p]; [by right|]. left. apply forallb_Forall in F. destruct (py_int_hex (c :: p) ltac:(done) F) as (v & V & B).
  exists v. split; [done|]. unfold is_hextet. assert (16 ^ zlen (c :: p) <= 16 ^ 4) by (apply Z.pow_le_mono_r; lia). lia.
Qed.

Lemma read_total parts is_ acc n : (forall i, i ∈ is_ -> exists p, pyget parts i = Ret p) -> 0 <= n -> 0 <= acc < 65536 ^ n ->
  (exists v, read_hextets parts acc is_ = Ret v /\ 0 <= v < 65536 ^ (n + zlen is_)) \/ read_hextets parts acc is_ = Raise ValueError.
Proof.
  intros H. revert acc n. induction is_ as [|i is_ IH]; intros acc n Hn Ha.
  - left. exists acc. change (zlen []) with 0. rewrite Z.add_0_r. done.
  - unfold read_hextets. cbn [foldM]. destruct (H i ltac:(by left)) as (p & ->). rewrite py_ret_bind.
    destruct (parse_hextet_total p) as [(h & -> & Hh) | ->]; [|by right]. rewrite !py_ret_bind. unfold is_hextet in Hh.
    rewrite lor_shiftl_add by lia. change (2 ^ 16) with 65536. rewrite zlen_cons. replace (n + (1 + zlen is_)) with (n + 1 + zlen is_) by lia.
    apply IH; [intros j Hj; apply H; by right | lia |]. rewrite Z.pow_add_r, Z.pow_1_r by lia. nia.
Qed.

Lemma pyget_some {A} (l : list A) i : - zlen l <= i < zlen l -> exists x, pyget l i = Ret x.
Proof.
  intros H. destruct (decide (i < 0)) as [N|P].
  - rewrite pyget_back by lia. destruct (lookup_lt_is_Some_2 l (Z.to_nat (zlen l + i))) as [x E]; [unfold zlen in *; lia|]. exists x. by rewrite E.
  - destruct (lookup_lt_is_Some_2 l (Z.to_nat i)) as [x E]; [unfold zlen in *; lia|]. exists x. apply pyget_lookup; [lia | done].
Qed.

Lemma find_skip_total parts : find_skip parts = Ret None \/ (exists k, find_skip parts = Ret (Some k) /\ 1 <= k < zlen parts - 1)
  \/ find_skip parts = Raise AddressValueError.
Proof.
  unfold find_skip. set (f := fun _ _ => _).
  assert (G : forall a b, 0 <= a -> b <= zlen parts -> forall st, (st = None \/ exists k, st = Some k /\ 1 <= k < zlen parts - 1) ->
    (1 <= a /\ b <= zlen parts - 1) ->
    (exists st', foldM f st (pyrange a b) = Ret st' /\ (st' = None \/ exists k, st' = Some k /\ 1 <= k < zlen parts - 1))
    \/ foldM f st (pyrange a b) = Raise AddressValueError).
  { intros a b. pattern a, b. apply pyrange_ind; clear a b; intros a b L.
    - intros _ _ st Hst _. rewrite pyrange_nil by done. left. by exists st.
    - intros IH Ha Hb st Hst Hr. rewrite pyrange_cons by done. cbn [foldM].
      assert (ST : f st a = Ret st \/ f st a = Ret (Some a) \/ f st a = Raise AddressValueError).
      { unfold f. destruct (pyget_some parts a ltac:(lia)) as (p & ->). rewrite py_ret_bind.
        destruct (zlen p =? 0); [|by left]. destruct st; auto. }
      destruct ST as [-> | [-> | ->]]; [rewrite py_ret_bind; apply IH; (lia || done) | | by right].
      rewrite py_ret_bind. apply IH; [lia|lia| |lia]. right. exists a. split; [done|lia]. }
  destruct (decide (1 <= zlen parts - 1)) as [L|L].
  - destruct (G 1 (zlen parts - 1) ltac:(lia) ltac:(lia) None ltac:(by left) ltac:(lia)) as [(st' & E & [-> | (k & -> & Hk)]) | E]; eauto.
  - rewrite pyrange_nil by lia. by left.
Qed.

Lemma part_counts_total parts skip : 2 <= zlen parts -> skip = None \/ (exists k, skip = Some k /\ 1 <= k < zlen parts - 1) ->
  (exists hi lo sk, part_counts parts skip = Ret (hi, lo, sk) /\ 0 <= hi <= zlen parts /\ 0 <= lo <= zlen parts /\ 0 <= sk /\ hi + lo + sk = 8)
  \/ part_counts parts skip = Raise AddressValueError.
Proof.
  intros L H. unfold part_counts. destruct (pyget_some parts 0 ltac:(lia)) as (p0 & ->). destruct (pyget_some parts (-1) ltac:(lia)) as (p1 & ->).
  rewrite !py_ret_bind. unfold HEXTET_COUNT. destruct H as [-> | (k & -> & Hk)].
  - destruct (zlen parts =? 8) eqn:E; [|by right]. cbn [negb]. destruct (zlen p0 =? 0); [by right|]. destruct (zlen p1 =? 0); [by right|].
    left. exists (zlen parts), 0, 0. split; [done|lia].
  - destruct (zlen p0 =? 0); [destruct (negb (k - 1 =? 0)); [by right|]|]; rewrite py_ret_bind;
      (destruct (zlen p1 =? 0); [destruct (negb (zlen parts - k - 1 - 1 =? 0)); [by right|]|]; rewrite py_ret_bind;
       (destruct (_ <? 1) eqn:E; [by right | left; eexists _, _, _; split; [done | lia]])).
Qed.

Lemma finish_total parts : 2 <= zlen parts ->
  (exists ip, finish_parts parts = Ret ip /\ 0 <= ip <= ALL_ONES V6) \/ finish_parts parts = Raise AddressValueError.
Proof.
  intros L. unfold finish_parts. destruct (_ >? _); [by right|].
  assert (S : (exists st, find_skip parts = Ret st /\ (st = None \/ exists k, st = Some k /\ 1 <= k < zlen parts - 1)) \/ find_skip parts = Raise AddressValueError).
  { destruct (find_skip_total parts) as [E | [(k & E & Hk) | E]]; eauto 8. }
  destruct S as [(st & -> & Hst) | ->]; [|by right]. rewrite py_ret_bind.
  destruct (part_counts_total parts st L Hst) as [(hi & lo & sk & -> & H1 & H2 & H3 & H4) | ->]; [|by right]. rewrite py_ret_bind.
  destruct (read_total parts (pyrange 0 hi) 0 0) as [(v & -> & Hv) | ->]; [|lia|change (65536 ^ 0) with 1; lia| |by right].
  { intros i Hi. apply elem_of_pyrange in Hi. apply pyget_some. lia. }
  rewrite py_ret_bind, Z.shiftl_mul_pow2, (Z.pow_mul_r 2 16) by lia. change (2 ^ 16) with 65536. rewrite zlen_pyrange in Hv by lia.
  destruct (read_total parts (pyrange (- lo) 0) (v * 65536 ^ sk) (hi + sk)) as [(w & -> & Hw) | ->]; [|lia| | |by right].
  - intros i Hi. apply elem_of_pyrange in Hi. apply pyget_some. lia.
  - rewrite Z.pow_add_r by lia. replace (0 + (hi - 0)) with hi in Hv by lia. pose proof (Z.pow_pos_nonneg 65536 sk ltac:(lia) ltac:(lia)). nia.
  - left. exists w. split; [done|]. rewrite zlen_pyrange in Hw by lia. replace (hi + sk + (0 - - lo)) with 8 in Hw by lia.
    unfold ALL_ONES, IPV6LENGTH. change (65536 ^ 8) with (2 ^ 128) in Hw. lia.
Qed.

Lemma ipv4_new_str s : (exists ip, ipv4_new (StrArg s) = Ret ip /\ 0 <= ip <= ALL_ONES V4 /\ s = dotted ip)
  \/ ipv4_new (StrArg s) = Raise AddressValueError.
Proof. cbn [ipv4_new]. destruct (existsb _ s); [by right|]. apply string4_inv. Qed.

Lemma string6_total s : (exists ip, ip_int_from_string6 s = Ret ip /\ 0 <= ip <= ALL_ONES V6) \/ ip_int_from_string6 s = Raise AddressValueError.
Proof.
  unfold ip_int_from_string6. destruct (zlen s =? 0); [by right|]. destruct (zlen s >? 45); [by right|]. cbv zeta.
  set (parts := split_max _ 58 s). destruct (zlen parts <? 3) eqn:L; [by right|].
  destruct (pyget_some parts (-1) ltac:(lia)) as (p & ->). rewrite py_ret_bind. destruct (existsb _ p).
  - destruct (ipv4_new_str p) as [(m & -> & _) | ->]; [|by right]. rewrite !py_ret_bind. apply finish_total.
    rewrite zlen_app. change (zlen [_; _]) with 2. pose proof (zlen_nonneg (pyslice parts 0 (-1))). lia.
  - rewrite py_ret_bind. apply finish_total. lia.
Qed.

(** ** Every part of a text that is accepted is read *)

Lemma split_max_elem n sep c : forall s, c ∈ s -> c <> sep -> exists p, p ∈ split_max n sep s /\ c ∈ p.
Proof.
  induction n as [|n IH]; intros s H N; cbn [split_max]; [exists s; split; [by apply list_elem_of_singleton | done]|]. destruct (partition sep s) as [[p r]|] eqn:E; [|exists s; split; [by apply list_elem_of_singleton | done]].
  apply partition_some in E as [-> _]. apply elem_of_app in H as [H|H]; [exists p; split; [apply list_elem_of_here | done]|]. apply elem_of_cons in H as [H|H]; [done|]. destruct (IH r H N) as (q & Q1 & Q2). exists q. split; [by apply list_elem_of_further | done].
Qed.

Lemma find_skip_empty parts k : find_skip parts = Ret (Some k) -> 1 <= k < zlen parts - 1 /\ pyget parts k = Ret [].
Proof.
  unfold find_skip. intros H.
  assert (I : match Some k with Some k => 1 <= k < zlen parts - 1 /\ pyget parts k = Ret [] | None => True end); [|done]. revert H. apply (foldM_invariant (fun st => match st with Some k => 1 <= k < zlen parts - 1 /\ pyget parts k = Ret [] | None => True end)); [|done].
  intros st i st' Hi Hst. apply elem_of_pyrange in Hi. destruct (pyget parts i) as [q| |] eqn:E; [|done..]. cbn [mbind py_bind]. destruct (zlen q =? 0) eqn:L; [|by intros [= <-]]. destruct st; [done|]. intros [= <-]. split; [lia|]. destruct q as [|x q]; [done|]. rewrite zlen_cons in L. pose proof (zlen_nonneg q). lia.
Qed.

Lemma read_hextets_hex parts indices : forall acc v, read_hextets parts acc indices = Ret v -> forall i p, i ∈ indices -> pyget parts i = Ret p -> Forall (fun c => is_hex_digit c = true) p.
Proof.
  induction indices as [|j indices IH]; intros acc v H i p Hi Hp; [by apply not_elem_of_nil in Hi|]. unfold read_hextets in H. cbn [foldM] in H. apply bind_ret_inv in H as (a1 & H1 & H2). apply bind_ret_inv in H1 as (q & Q & H1). apply bind_ret_inv in H1 as (h & HH & _).
  apply elem_of_cons in Hi as [->|Hi]; [|by apply (IH a1 v H2 i p)]. rewrite Q in Hp. injection Hp as <-. unfold parse_hextet in HH. destruct (forallb is_hex_digit q) eqn:F; [|done]. by apply forallb_Forall.
Qed.

(** How many parts are read, and which are not. *)
Lemma part_counts_inv parts skip hi lo sk : 2 <= zlen parts -> part_counts parts skip = Ret (hi, lo, sk) ->
  match skip with
  | None => hi = zlen parts
  | Some k => (hi = k \/ k = 1 /\ pyget parts 0 = Ret []) /\ (lo = zlen parts - k - 1 \/ k = zlen parts - 2 /\ pyget parts (-1) = Ret [])
  end.
Proof.
  intros L. unfold part_counts. destruct (pyget_some parts 0 ltac:(lia)) as (p0 & E0). destruct (pyget_some parts (-1) ltac:(lia)) as (p1 & E1). rewrite E0, E1, !py_ret_bind.
  assert (NIL : forall q : list Z, (zlen q =? 0) = true -> q = []) by (intros [|x q] Q; [done|]; rewrite zlen_cons in Q; pose proof (zlen_nonneg q); lia). destruct skip as [k|].
  - assert (HI : forall hi', (if zlen p0 =? 0 then if negb (k - 1 =? 0) then Raise AddressValueError else Ret (k - 1) else Ret k) = Ret hi' -> hi' = k \/ k = 1 /\ p0 = []).
    { intros hi'. destruct (zlen p0 =? 0) eqn:Z0; [|intros [= <-]; by left]. destruct (Z.eqb_spec (k - 1) 0); [|done]. right. split; [lia | by apply NIL]. }
    assert (LO : forall lo', (if zlen p1 =? 0 then if negb (zlen parts - k - 1 - 1 =? 0) then Raise AddressValueError else Ret (zlen parts - k - 1 - 1) else Ret (zlen parts - k - 1)) = Ret lo' -> lo' = zlen parts - k - 1 \/ k = zlen parts - 2 /\ p1 = []).
    { intros lo'. destruct (zlen p1 =? 0) eqn:Z1; [|intros [= <-]; by left]. destruct (Z.eqb_spec (zlen parts - k - 1 - 1) 0); [|done]. right. split; [lia | by apply NIL]. }
    cbv zeta. intros H. apply bind_ret_inv in H as (hi' & H1 & H). apply bind_ret_inv in H as (lo' & H2 & H). apply HI in H1. apply LO in H2. destruct (_ <? 1); [done|]. injection H as <- <- _. split; [destruct H1 as [|[? ->]]; auto | destruct H2 as [|[? ->]]; auto].
  - destruct (zlen parts =? HEXTET_COUNT); [|done]. cbn [negb]. destruct (zlen p0 =? 0); [done|]. destruct (zlen p1 =? 0); [done|]. by intros [= <- <- <-].
Qed.

Lemma finish_hex parts ip : 2 <= zlen parts -> finish_parts parts = Ret ip -> Forall (Forall (fun c => is_hex_digit c = true)) parts.
Proof.
  intros L H. unfold finish_parts in H. destruct (_ >? _); [done|]. apply bind_ret_inv in H as (skip & S & H). apply bind_ret_inv in H as ([[hi lo] sk] & C & H). apply part_counts_inv in C; [|done].
  assert (R : exists v w, read_hextets parts 0 (pyrange 0 hi) = Ret v /\ read_hextets parts (Z.shiftl v (16 * sk)) (pyrange (- lo) 0) = Ret w).
  { unfold catch in H. destruct (read_hextets parts 0 _) as [v| |] eqn:E1; cbn [mbind py_bind] in H; [|destruct (is_value_error e); done|done]. destruct (read_hextets parts (Z.shiftl v _) _) as [w| |] eqn:E2; [eauto | destruct (is_value_error e); done | done]. }
  destruct R as (v & w & R1 & R2). apply Forall_lookup. intros n p E. pose proof (lookup_lt_Some _ _ _ E) as LN. assert (EP : pyget parts (Z.of_nat n) = Ret p) by (apply pyget_lookup; [lia | by rewrite Nat2Z.id]).
  assert (LOW : Z.of_nat n < hi -> Forall (fun c => is_hex_digit c = true) p) by (intros; apply (read_hextets_hex _ _ _ _ R1 (Z.of_nat n)); [apply elem_of_pyrange; lia | done]). destruct skip as [k|]; [|apply LOW; unfold zlen in *; lia].
  apply find_skip_empty in S as [HK EK]. destruct C as [C1 C2]. destruct (Z.lt_trichotomy (Z.of_nat n) k) as [LT|[EQ|GT]].
  - destruct C1 as [->|[-> E0]]; [by apply LOW|]. assert (Z.of_nat n = 0) as N0 by lia. rewrite N0, E0 in EP. by injection EP as <-.
  - rewrite EQ, EK in EP. by injection EP as <-.
  - assert (EB : pyget parts (Z.of_nat n - zlen parts) = Ret p) by (rewrite pyget_back by (unfold zlen in *; lia); replace (zlen parts + (Z.of_nat n - zlen parts)) with (Z.of_nat n) by lia; by rewrite Nat2Z.id, E).
    destruct C2 as [->|[-> E1]]; [apply (read_hextets_hex _ _ _ _ R2 (Z.of_nat n - zlen parts)); [apply elem_of_pyrange; unfold zlen in *; lia | done]|].
    replace (Z.of_nat n - zlen parts) with (-1) in EB by (unfold zlen in *; lia). rewrite E1 in EB. by injection EB as <-.
Qed.

(** * Address objects, lemmas *)

Section addresses.
Import Address.

(** What the constructors produce. *)
Definition good_scope (scope : option (list Z)) : Prop :=
  match scope with None => True | Some s => s <> [] /\ (37 ∉ s) /\ (47 ∉ s) end.
Record good_address (a : address) : Prop := {
  address_range : 0 <= ip a <= ALL_ONES (version_ a);
  address_scope : match version_ a with V4 => scope_id a = None | V6 => good_scope (scope_id a) end
}.
Definition good_arg (arg : address_arg) : Prop := match arg with BytesArg b => Forall is_byte b | _ => True end.

Lemma check_int v n : (0 <= n <= ALL_ONES v /\ check_int_address v n = Ret tt)
  \/ (~ 0 <= n <= ALL_ONES v /\ check_int_address v n = Raise AddressValueError).
Proof. unfold check_int_address. rewrite Z.gtb_ltb. zcase; [right | right | left]; (split; [lia | done]). Qed.

Lemma check_packed l n : check_packed_address l n = Raise AddressValueError \/ (zlen l = n /\ check_packed_address l n = Ret tt).
Proof. unfold check_packed_address. destruct (Z.eqb_spec (zlen l) n); [by right | by left]. Qed.

Lemma split_scope_total s : (exists addr scope, split_scope_id s = Ret (addr, scope) /\ (forall c, c ∈ addr -> c ∈ s)
    /\ match scope with None => True | Some t => t <> [] /\ (37 ∉ t) /\ (forall c, c ∈ t -> c ∈ s) end)
  \/ split_scope_id s = Raise AddressValueError.
Proof.
  unfold split_scope_id. destruct (partition 37 s) as [[addr scope]|] eqn:P; [|left; by exists s, None].
  apply partition_some in P as [-> _]. rewrite existsb_eqb_elem.
  destruct (zlen scope =? 0) eqn:E; [by right|]. destruct (bool_decide_reflect (37 ∈ scope)) as [|N]; [by right|]. left. exists addr, (Some scope).
  split; [done|]. split; [intros c Hc; apply elem_of_app; by left|]. split; [by intros ->|]. split; [done|]. intros c Hc. apply elem_of_app. right. by right.
Qed.

Lemma address_new_total v arg : good_arg arg ->
  (exists a, new v arg = Ret a /\ good_address a /\ version_ a = v) \/ new v arg = Raise AddressValueError.
Proof.
  intros GA. destruct v, arg as [n|b|s]; cbn [new ipv4_new].
  - destruct (check_int V4 n) as [[H ->] | [_ ->]]; [|by right]. left. rewrite !py_ret_bind. eexists. split; [done|]. by split; [split|].
  - destruct (check_packed b 4) as [-> | [L ->]]; [by right|]. left. rewrite !py_ret_bind. eexists. split; [done|]. split; [|done]. split; [|done].
    pose proof (be_val_bound b GA) as B. rewrite L in B. change (0 <= be_val b <= 2 ^ 32 - 1). change (256 ^ 4) with (2 ^ 32) in B. lia.
  - destruct (existsb _ s); [by right|]. destruct (string4_inv s) as [(ip & -> & H & _) | ->]; [|by right]. left. rewrite py_ret_bind.
    eexists. split; [done|]. by split; [split|].
  - destruct (check_int V6 n) as [[H ->] | [_ ->]]; [|by right]. left. rewrite !py_ret_bind. eexists. split; [done|]. by split; [split|].
  - destruct (check_packed b 16) as [-> | [L ->]]; [by right|]. left. rewrite !py_ret_bind. eexists. split; [done|]. split; [|done]. split; [|done].
    pose proof (be_val_bound b GA) as B. rewrite L in B. change (0 <= be_val b <= 2 ^ 128 - 1). change (256 ^ 16) with (2 ^ 128) in B. lia.
  - rewrite existsb_eqb_elem. destruct (bool_decide_reflect (47 ∈ s)) as [|N]; [by right|].
    destruct (split_scope_total s) as [(addr & scope & -> & _ & S) | ->]; [|by right]. rewrite py_ret_bind.
    destruct (string6_total addr) as [(ip & -> & H) | ->]; [|by right]. left. rewrite py_ret_bind. eexists. split; [done|]. split; [|done].
    split; [done|]. cbn. destruct scope as [t|]; [|done]. destruct S as (S1 & S2 & S3). split; [done|]. split; [done|]. intros Hin. by apply N, S3.
Qed.

Lemma address_new_int v n : 0 <= n <= ALL_ONES v -> new v (IntArg n) = Ret (Addr v n None).
Proof. intros H. destruct (check_int v n) as [[_ E] | [? _]]; [|done]. destruct v; cbn [new ipv4_new]; by rewrite E, !py_ret_bind. Qed.

Lemma address_new_int_out v n : ~ 0 <= n <= ALL_ONES v -> new v (IntArg n) = Raise AddressValueError.
Proof. intros H. destruct (check_int v n) as [[? _] | [_ E]]; [done|]. destruct v; cbn [new ipv4_new]; by rewrite E. Qed.
End addresses.

Section address_text.
Import Address.

Lemma dotted_chars m c : ~ (48 <= c <= 57 \/ c = 46) -> c ∉ dotted m.
Proof. intros H. unfold dotted. apply not_elem_of_join; [lia|]. apply no_dots; [apply be_bytes_bytes | lia]. Qed.

Lemma dotted_has_dot m : 46 ∈ dotted m.
Proof.
  unfold dotted. pose proof (length_le_bytes 4 m) as L. unfold be_bytes. rewrite <- length_rev in L.
  destruct (rev (le_bytes 4 m)) as [|a [|b l]]; [done|done|]. rewrite !fmap_cons, join_cons by done. rewrite elem_of_app. right. by left.
Qed.

Lemma zlen_dotted m : zlen (dotted m) <= 15.
Proof.
  unfold dotted. pose proof (zlen_join_le 46 3 (to_base 10 <$> be_bytes 4 m)) as H. rewrite zlen_fmap, zlen_be_bytes in H.
  change (Z.max 0 (Z.of_nat 4 * (3 + 1) - 1)) with 15 in H. apply H; [|lia]. apply Forall_fmap. eapply Forall_impl; [apply be_bytes_bytes|].
  intros b Hb. unfold compose. destruct (octet_text b Hb). lia.
Qed.

Lemma low_hextets m : 0 <= m <= ALL_ONES V4 ->
  let a := Z.land (Z.shiftr m 16) 65535 in let b := Z.land m 65535 in is_hextet a /\ is_hextet b /\ m = a * 65536 + b.
Proof.
  intros H a b. unfold ALL_ONES, IPV4LENGTH in H. pose proof (Z.div_mod m 65536 ltac:(lia)). pose proof (Z.mod_pos_bound m 65536 ltac:(lia)).
  assert (0 <= m / 65536 < 65536) by (split; [apply Z.div_pos | apply Z.div_lt_upper_bound]; lia).
  assert (EA : a = m / 65536).
  { unfold a. change 65535 with (Z.ones 16). rewrite Z.land_ones, Z.shiftr_div_pow2 by lia. by apply Z.mod_small. }
  assert (EB : b = m mod 65536) by (unfold b; change 65535 with (Z.ones 16); by rewrite Z.land_ones by lia).
  unfold is_hextet. lia.
Qed.

(** A text that ends in an IPv4 address. *)
Lemma string6_dotted ps m : 2 <= zlen ps <= 8 -> Forall clean_part ps -> 0 <= m <= ALL_ONES V4 ->
  ip_int_from_string6 (join 58 (ps ++ [dotted m]))
  = finish_parts (ps ++ [fmt_x (Z.land (Z.shiftr m 16) 65535); fmt_x (Z.land m 65535)]) \/ 45 < zlen (join 58 (ps ++ [dotted m])).
Proof.
  intros L F H. set (parts := ps ++ [dotted m]). destruct (decide (45 < zlen (join 58 parts))) as [|S]; [by right|left].
  assert (ZP : zlen parts = zlen ps + 1) by (unfold parts; by rewrite zlen_app).
  assert (N0 : zlen (join 58 parts) <> 0).
  { unfold parts. destruct ps as [|p ps']; [change (zlen []) with 0 in L; lia|]. rewrite <- app_comm_cons, join_cons by (by destruct ps').
    rewrite zlen_app, zlen_cons. pose proof (zlen_nonneg p). pose proof (zlen_nonneg (join 58 (ps' ++ [dotted m]))). lia. }
  unfold ip_int_from_string6. rewrite (proj2 (Z.eqb_neq _ 0)) by done. rewrite Z.gtb_ltb, (proj2 (Z.ltb_ge 45 _)) by lia. cbv zeta.
  change (Z.to_nat (HEXTET_COUNT + 1)) with 9%nat. rewrite split_max_join; [| |apply Forall_app; split|unfold zlen in *; lia].
  2:{ unfold parts. by destruct ps. }
  2:{ eapply Forall_impl; [exact F|]. unfold clean_part. tauto. }
  2:{ apply Forall_singleton, dotted_chars. lia. }
  rewrite (proj2 (Z.ltb_ge (zlen parts) 3)) by lia.
  assert (G : pyget parts (-1) = Ret (dotted m)).
  { rewrite pyget_back, ZP by lia. unfold parts. rewrite lookup_app_r by (unfold zlen; lia).
    replace (Z.to_nat (zlen ps + 1 + -1) - length ps)%nat with 0%nat by (unfold zlen; lia). done. }
  assert (PS : pyslice parts 0 (-1) = ps).
  { unfold pyslice, clamp. cbv zeta. rewrite ZP. cbn [Z.ltb Z.compare]. replace (Z.to_nat (Z.min 0 (zlen ps + 1))) with 0%nat by lia.
    rewrite drop_0. unfold parts. replace (Z.to_nat _) with (length ps) by (unfold zlen in *; lia). apply take_app_length. }
  rewrite G, py_ret_bind, existsb_eqb_elem, bool_decide_eq_true_2 by apply dotted_has_dot. cbn [ipv4_new].
  rewrite existsb_eqb_elem, bool_decide_eq_false_2 by (apply dotted_chars; lia).
  rewrite dotted_parses by done. do 2 rewrite py_ret_bind. by rewrite PS.
Qed.

Lemma mapped_parses m : 0 <= m <= ALL_ONES V4 -> ip_int_from_string6 (lit "::ffff" ++ [58] ++ dotted m) = Ret (65535 * 2 ^ 32 + m).
Proof.
  intros H. pose proof (zlen_dotted m). destruct (string6_dotted [[]; []; lit "ffff"] m) as [E | E]; [done| |done| |].
  - rewrite !Forall_cons. unfold clean_part. split_and!; (done || by apply absent_check).
  - change (lit "::ffff" ++ [58] ++ dotted m) with (join 58 ([[]; []; lit "ffff"] ++ [dotted m])). rewrite E.
    destruct (low_hextets m H) as (HA & HB & V). set (a := Z.land (Z.shiftr m 16) 65535) in *. set (b := Z.land m 65535) in *.
    assert (BL : Forall is_hextet [65535; a; b]) by (rewrite !Forall_cons; split_and!; done).
    change ([[]; []; lit "ffff"] ++ [fmt_x a; fmt_x b]) with (ends [] ++ [] :: ends (fmt_x <$> [65535; a; b])).
    etransitivity; [apply (finish_skip [] (fmt_x <$> [65535; a; b]) [] [65535; a; b]);
      [constructor | apply parts_forall2; [apply fmt_x_part | exact BL] | constructor | done | done]|].
    f_equal. change (digits_val 65536 0 []) with 0. rewrite Z.shiftl_0_l. cbn [digits_val]. lia.
  - change (join 58 ([[]; []; lit "ffff"] ++ [dotted m])) with (lit "::ffff:" ++ dotted m) in E. rewrite zlen_app in E.
    change (zlen (lit "::ffff:")) with 7 in E. lia.
Qed.

Lemma mapped_long_parses m : 0 <= m <= ALL_ONES V4 ->
  ip_int_from_string6 (lit "0000:0000:0000:0000:0000:ffff:" ++ dotted m) = Ret (65535 * 2 ^ 32 + m).
Proof.
  intros H. pose proof (zlen_dotted m). set (ps := (fun h => hex_text (fixed 16 4 h)) <$> [0; 0; 0; 0; 0; 65535]).
  assert (BP : Forall is_hextet [0; 0; 0; 0; 0; 65535]) by (rewrite !Forall_cons; unfold is_hextet; split_and!; (lia || done)).
  pose proof (parts_forall2 _ _ (fun h Hh => proj1 (pad4_part h Hh)) BP) as FP. fold ps in FP.
  change (lit "0000:0000:0000:0000:0000:ffff:" ++ dotted m) with (join 58 (ps ++ [dotted m])).
  destruct (string6_dotted ps m) as [E | E]; [done| by eapply part_chars |done| |].
  - rewrite E. destruct (low_hextets m H) as (HA & HB & V). set (a := Z.land (Z.shiftr m 16) 65535) in *. set (b := Z.land m 65535) in *.
    assert (FL : Forall2 part_of [fmt_x a; fmt_x b] [a; b]) by (apply (parts_forall2 fmt_x [a; b] fmt_x_part); rewrite !Forall_cons; done).
    rewrite (finish_full _ _ (Forall2_app FP FL)); [|done | apply Forall_app; split; [done | rewrite !Forall_cons; done]].
    f_equal. cbn [app digits_val]. lia.
  - change (join 58 (ps ++ [dotted m])) with (lit "0000:0000:0000:0000:0000:ffff:" ++ dotted m) in E. rewrite zlen_app in E.
    change (zlen (lit "0000:0000:0000:0000:0000:ffff:")) with 30 in E. lia.
Qed.

Lemma ipv4_mapped_value a : good_address a -> version_ a = V6 -> forall m, ipv4_mapped a = Some m ->
  0 <= m <= ALL_ONES V4 /\ ip a = 65535 * 2 ^ 32 + m /\ Z.shiftr (ip a) 32 = 65535.
Proof.
  intros [R _] V m. unfold ipv4_mapped. destruct (Z.eqb_spec (Z.shiftr (ip a) 32) 65535) as [E|]; [|done]. intros [= <-].
  change 4294967295 with (Z.ones 32). rewrite Z.land_ones by lia. rewrite Z.shiftr_div_pow2 in E |- * by lia.
  pose proof (Z.div_mod (ip a) (2 ^ 32) ltac:(lia)). pose proof (Z.mod_pos_bound (ip a) (2 ^ 32) ltac:(lia)).
  unfold ALL_ONES, IPV4LENGTH. split; [lia|]. split; [lia | done].
Qed.

(** The text without the scope. *)
(** A text with a percent sign is no IPv6 text. *)
Lemma percent_rejected s : 37 ∈ s -> ip_int_from_string6 s = Raise AddressValueError.
Proof.
  intros H. destruct (string6_total s) as [(ip & E & _)|E]; [|done]. exfalso. unfold ip_int_from_string6 in E. destruct (zlen s =? 0); [done|]. destruct (zlen s >? 45); [done|]. cbv zeta in E.
  destruct (split_max_elem (Z.to_nat (HEXTET_COUNT + 1)) 58 37 s H ltac:(lia)) as (p & HP & HC). set (parts := split_max _ 58 s) in *. destruct (Z.ltb_spec (zlen parts) 3) as [_|L3]; [done|].
  assert (NH : ~ Forall (fun c => is_hex_digit c = true) p) by (rewrite Forall_forall; intros F; by specialize (F 37 HC)).
  destruct (pyget_some parts (-1) ltac:(lia)) as (q & EQ). rewrite EQ, py_ret_bind in E. destruct (existsb _ q).
  - destruct (ipv4_new_str q) as [(m & EM & _ & DQ) | EM]; rewrite EM in E; [|done]. rewrite !py_ret_bind in E. change (finish_parts (pyslice parts 0 (-1) ++ [fmt_x (Z.land (Z.shiftr m 16) 65535); fmt_x (Z.land m 65535)]) = Ret ip) in E. pose proof (zlen_nonneg (pyslice parts 0 (-1))).
    apply finish_hex in E; [|rewrite zlen_app; change (zlen [_; _]) with 2; lia]. apply Forall_app in E as [E _]. apply list_elem_of_lookup in HP as [n HN]. pose proof (lookup_lt_Some _ _ _ HN) as LN. destruct (decide (Z.of_nat n = zlen parts - 1)) as [EN|NN].
    + rewrite pyget_back in EQ by lia. replace (Z.to_nat (zlen parts + -1)) with n in EQ by lia. rewrite HN in EQ. injection EQ as <-. rewrite DQ in HC. revert HC. apply dotted_chars. lia.
    + apply NH. rewrite Forall_forall in E. apply E. apply list_elem_of_lookup. exists n. unfold pyslice. replace (clamp (zlen parts) 0) with 0 by (unfold clamp; cbn; lia). replace (clamp (zlen parts) (-1)) with (zlen parts - 1) by (unfold clamp; cbn [Z.ltb Z.compare]; lia).
      rewrite drop_0, lookup_take_lt; [done|]. unfold zlen in *; lia.
  - rewrite py_ret_bind in E. change (finish_parts parts = Ret ip) in E. apply finish_hex in E; [|lia]. rewrite Forall_forall in E. by apply NH, E.
Qed.

Lemma body_text a : good_address a -> version_ a = V6 ->
  exists t, match ipv4_mapped a with None => string_from_ip_int6 (ip a) | Some _ => ipv4_mapped_ipv6_to_str a end = Ret t
    /\ ip_int_from_string6 t = Ret (ip a) /\ (37 ∉ t) /\ (47 ∉ t).
Proof.
  intros G V. pose proof G as [R _]. rewrite V in R. destruct (ipv4_mapped a) as [m|] eqn:M.
  - destruct (ipv4_mapped_value a G V m M) as (Hm & E & S). exists (lit "::ffff" ++ [58] ++ dotted m).
    unfold ipv4_mapped_ipv6_to_str. rewrite M, S. change (string_from_ip_int6 65535) with (Ret (lit "::ffff")). rewrite py_ret_bind, string4_ret, py_ret_bind by done.
    split; [done|]. rewrite E. split; [by apply mapped_parses|].
    split; (apply not_elem_of_app; split; [by apply absent_check|]; apply not_elem_of_cons; split; [lia|]; apply dotted_chars; lia).
  - rewrite string6_ret by done. eexists. split; [done|]. destruct (compressed_parses (ip a) R) as [P C]. split; [done|].
    split; (apply not_elem_of_join; [lia|]; eapply Forall_impl; [exact C|]; unfold clean_part; tauto).
Qed.

Lemma str_parses a : good_address a -> exists t, str a = Ret t /\ new (version_ a) (StrArg t) = Ret a.
Proof.
  intros G. destruct a as [v n scope]. destruct v.
  - destruct G as [R S]. cbn [version_ ip scope_id] in *. subst scope. exists (dotted n). unfold str. cbn [version_ ip].
    split; [by apply string4_ret|]. cbn [new ipv4_new]. rewrite existsb_eqb_elem, bool_decide_eq_false_2 by (apply dotted_chars; lia).
    by rewrite dotted_parses, py_ret_bind.
  - destruct (body_text _ G eq_refl) as (t & T & P & N1 & N2). unfold str. cbn [version_]. rewrite T, py_ret_bind. cbn [scope_id].
    destruct G as [_ S]. cbn [version_ ip scope_id] in *. destruct scope as [s|].
    + destruct S as (S1 & S2 & S3). exists (t ++ [37] ++ s).
      assert (E : (zlen s =? 0) = false) by (destruct s as [|c s]; [done|]; rewrite zlen_cons; pose proof (zlen_nonneg s); lia). rewrite E.
      split; [done|]. cbn [new]. rewrite existsb_eqb_elem, bool_decide_eq_false_2.
      * unfold split_scope_id. change ([37] ++ s) with (37 :: s). rewrite partition_hit, E, existsb_eqb_elem, bool_decide_eq_false_2 by done.
        cbn [orb]. by rewrite py_ret_bind, P, py_ret_bind.
      * rewrite !elem_of_app, list_elem_of_singleton. intros [? | [? | ?]]; [done | lia | done].
    + exists t. split; [done|]. cbn [new]. rewrite existsb_eqb_elem, bool_decide_eq_false_2 by done.
      unfold split_scope_id. rewrite partition_miss by done. by rewrite py_ret_bind, P, py_ret_bind.
Qed.

Lemma scoped_explode a scope : good_address a -> version_ a = V6 -> scope_id a = Some scope -> explode_base6 a = Raise AddressValueError.
Proof.
  intros G V S. destruct (body_text a G V) as (t & T & _). pose proof (address_scope _ G) as SC. rewrite V, S in SC. destruct SC as (NE & _). unfold explode_base6, str. rewrite V, T, py_ret_bind, S.
  assert (E : (zlen scope =? 0) = false) by (destruct scope as [|c l]; [done|]; rewrite zlen_cons; pose proof (zlen_nonneg l); lia). rewrite E, py_ret_bind. cbn [negb]. rewrite percent_rejected; [done|]. apply elem_of_app. right. apply list_elem_of_here.
Qed.
Lemma scopes_both_greater a b : version_ a = V6 -> version_ b = V6 -> ip a = ip b -> scope_id a <> scope_id b -> gt a b = Ret true.
Proof.
  intros VA VB I N. unfold gt, gt_from_lt, lt, eqb, base_eqb. rewrite VA, VB, I, Z.eqb_refl. cbn [same_version negb mbind py_bind andb].
  replace (scope_eqb (scope_id a) (scope_id b)) with false; [done|]. symmetry. destruct (scope_id a) as [x|], (scope_id b) as [y|]; cbn; try done. apply not_true_iff_false. intros E. apply zeqb_list_eq in E. congruence.
Qed.

Lemma packed_parses a : good_address a -> exists b, packed a = Ret b /\ Forall is_byte b
  /\ new (version_ a) (BytesArg b) = Ret (Addr (version_ a) (ip a) None).
Proof.
  intros [R _]. unfold packed, v4_int_to_packed, v6_int_to_packed. destruct a as [v n scope]. destruct v; cbn [version_ ip] in *.
  - unfold ALL_ONES, IPV4LENGTH in R. rewrite between_true by lia. eexists. split; [done|]. split; [apply be_bytes_bytes|]. cbn [new ipv4_new].
    unfold check_packed_address. rewrite zlen_be_bytes. change (Z.of_nat 4 =? 4) with true. cbn [negb]. rewrite !py_ret_bind. 
    rewrite be_val_be_bytes by (change (256 ^ Z.of_nat 4) with (2 ^ 32); lia). done.
  - unfold ALL_ONES, IPV6LENGTH in R. rewrite between_true by lia. eexists. split; [done|]. split; [apply be_bytes_bytes|]. cbn [new].
    unfold check_packed_address. rewrite zlen_be_bytes. change (Z.of_nat 16 =? 16) with true. cbn [negb]. rewrite py_ret_bind.
    rewrite be_val_be_bytes by (change (256 ^ Z.of_nat 16) with (2 ^ 128); lia). done.
Qed.

(** ** The long form *)

Definition long_text (n : Z) : list Z := join 58 ((fun h => hex_text (fixed 16 4 h)) <$> hextets n).

Lemma explode_base a : good_address a -> version_ a = V6 -> scope_id a = None -> explode_base6 a = Ret (long_text (ip a)).
Proof.
  intros G V S. destruct (body_text a G V) as (t & T & P & _). unfold explode_base6, str. rewrite V, T, py_ret_bind, S, py_ret_bind, P, py_ret_bind.
  rewrite quads_hextets; [done|]. destruct G as [R _]. by rewrite V in R.
Qed.

Lemma long_clean n : (37 ∉ long_text n) /\ (47 ∉ long_text n).
Proof.
  pose proof (part_chars _ _ (parts_forall2 (fun h => hex_text (fixed 16 4 h)) (hextets n) (fun h H => proj1 (pad4_part h H)) (hextets_bound n))) as C.
  split; (apply not_elem_of_join; [lia|]; eapply Forall_impl; [exact C|]; unfold clean_part; tauto).
Qed.

Lemma mapped_long m : 0 <= m <= ALL_ONES V4 -> pyslice (long_text (65535 * 2 ^ 32 + m)) 0 30 = lit "0000:0000:0000:0000:0000:ffff:".
Proof.
  intros H. unfold ALL_ONES, IPV4LENGTH in H. unfold long_text, hextets. change 8%nat with (6 + 2)%nat. rewrite fixed_app by lia.
  change (65536 ^ Z.of_nat 2) with (2 ^ 32). replace ((65535 * 2 ^ 32 + m) / 2 ^ 32) with 65535
    by (rewrite Z.add_comm, Z.div_add, Z.div_small by lia; lia).
  change (fixed 65536 6 65535) with [0; 0; 0; 0; 0; 65535]. pose proof (length_fixed 65536 2 (65535 * 2 ^ 32 + m)) as L.
  destruct (fixed 65536 2 _) as [|x [|y [|]]]; done.
Qed.

Lemma exploded_parses a : good_address a -> scope_id a = None -> exists t, exploded a = Ret t /\ new (version_ a) (StrArg t) = Ret a.
Proof.
  intros G S. unfold exploded, explode_address6. destruct (version_ a) eqn:V; [rewrite <- V; by apply str_parses|].
  pose proof G as [R _]. rewrite V in R. pose proof (explode_base a G V S) as B.
  assert (N : forall t, (37 ∉ t) -> (47 ∉ t) -> ip_int_from_string6 t = Ret (ip a) -> new V6 (StrArg t) = Ret a).
  { intros t N1 N2 P. cbn [new]. rewrite existsb_eqb_elem, bool_decide_eq_false_2 by done. unfold split_scope_id. rewrite partition_miss by done.
    rewrite py_ret_bind, P, py_ret_bind. destruct a. cbn in *. by subst. }
  destruct (ipv4_mapped a) as [m|] eqn:M.
  - destruct (ipv4_mapped_value a G V m M) as (Hm & E & _). rewrite B, py_ret_bind, string4_ret, py_ret_bind, E, mapped_long by done.
    eexists. split; [done|]. apply N; [apply not_elem_of_app; split; [by apply absent_check | apply dotted_chars; lia].. |]. rewrite E.
    by apply mapped_long_parses.
  - rewrite B. eexists. split; [done|]. destruct (long_clean (ip a)). apply N; [done..|]. apply full_parses; [|done]. intros h Hh. by apply pad4_part.
Qed.
End address_text.

(** * The theorems on addresses *)

(** the constructors of addresses: from an integer, packed bytes or a text a
    constructor gives an address of its version in the range of the version
    or raises [AddressValueError], nothing else; [ip_address] gives an address
    or raises [ValueError]; adding an integer is exact, or raises. *)
Theorem address_constructors v arg n : good_arg arg ->
  ((exists a, Address.new v arg = Ret a /\ good_address a /\ Address.version_ a = v) \/ Address.new v arg = Raise AddressValueError)
  /\ ((exists a, ip_address arg = Ret a /\ good_address a) \/ ip_address arg = Raise ValueError)
  /\ (forall a, good_address a ->
        let sum := Address.ip a + n in
        if bool_decide (0 <= sum <= ALL_ONES (Address.version_ a))
        then Address.add a n = Ret (Address.Addr (Address.version_ a) sum None)
        else Address.add a n = Raise AddressValueError).
Proof.
  intros G. split; [by apply address_new_total|]. split.
  - unfold ip_address. destruct (address_new_total V4 arg G) as [(a & -> & GA & _) | ->]; [left; by exists a|]. cbn [catch is_address_error].
    destruct (address_new_total V6 arg G) as [(a & -> & GA & _) | ->]; [left; by exists a|]. by right.
  - intros a GA. cbv zeta. unfold Address.add. case_bool_decide; [by apply address_new_int | by apply address_new_int_out].
Qed.

(** C31: the text of an address, scope included, is read back as the address; its
    packed bytes, which have no scope, as the address without its scope; and the
    long form of an address without a scope as the address. *)
Theorem address_roundtrips a : good_address a ->
  (exists t, Address.str a = Ret t /\ Address.new (Address.version_ a) (StrArg t) = Ret a)
  /\ (exists b, Address.packed a = Ret b /\ Forall is_byte b
        /\ Address.new (Address.version_ a) (BytesArg b) = Ret (Address.Addr (Address.version_ a) (Address.ip a) None))
  /\ (Address.scope_id a = None -> exists t, Address.exploded a = Ret t /\ Address.new (Address.version_ a) (StrArg t) = Ret a).
Proof. intros G. split; [by apply str_parses|]. split; [by apply packed_parses | by apply exploded_parses]. Qed.

(** the ["::"] of an IPv6 text stands for the longest run of zero hextets,
    the first of them when several are as long, and never for a single one. *)
Theorem compression_canonical hs : length hs = 8%nat -> Forall is_hextet hs ->
  let zs := (fun h => h =? 0) <$> hs in
  (compress_hextets (fmt_x <$> hs) = fmt_x <$> hs /\ forall s n, 0 <= s < 8 -> 2 <= n < 9 -> zeros_at zs s n = false)
  \/ (exists s n, zeros_at zs s n = true /\ 2 <= n
        /\ compress_hextets (fmt_x <$> hs) = ends (fmt_x <$> take (Z.to_nat s) hs) ++ [] :: ends (fmt_x <$> drop (Z.to_nat (s + n)) hs)
        /\ forall s' n', 0 <= s' < 8 -> 2 <= n' < 9 -> zeros_at zs s' n' = true -> n' < n \/ (n' = n /\ s <= s')).
Proof.
  intros L F zs. pose proof (run_table zs ltac:(unfold zs; by rewrite length_fmap)) as T. unfold run_ok in T.
  apply andb_true_iff in T as [_ T]. change (zero_run _ _ zs) with (found_run hs) in T.
  assert (M : forall s' n', 0 <= s' < 8 -> 2 <= n' < 9 -> zeros_at zs s' n' = true ->
    n' < best_len (found_run hs) \/ (n' = best_len (found_run hs) /\ best_start (found_run hs) <= s')).
  { intros s' n' Hs Hn Z. pose proof (range_cases 0 8 _ T s' Hs) as T1. cbv beta in T1. pose proof (range_cases 1 9 _ T1 n' ltac:(lia)) as T2.
    cbv beta in T2. rewrite Z in T2. cbn [negb orb] in T2. lia. }
  destruct (compress_run hs L F) as [[N E] | (N & Z & E)].
  - left. split; [done|]. intros s n Hs Hn. destruct (zeros_at zs s n) eqn:Z; [|done]. specialize (M s n Hs Hn Z). lia.
  - right. exists (best_start (found_run hs)), (best_len (found_run hs)). split; [done|]. split; [lia|]. split; [exact E | exact M].
Qed.

Definition fe80_1 : Address.address := Address.Addr V6 (65152 * 2 ^ 112 + 1) None.
Definition fe80_1_eth0 : Address.address := Address.Addr V6 (65152 * 2 ^ 112 + 1) (Some (lit "eth0")).

(** C33: no IPv6 address with a scope has a long form or a reverse pointer, both
    raise [AddressValueError]; and of it and any address that differs in the scope
    only, each is greater than the other. *)
Theorem scoped_addresses a scope : good_address a -> Address.version_ a = V6 -> Address.scope_id a = Some scope ->
  Address.exploded a = Raise AddressValueError /\ Address.reverse_pointer a = Raise AddressValueError
  /\ forall b, Address.version_ b = V6 -> Address.ip b = Address.ip a -> Address.scope_id b <> Some scope -> Address.gt a b = Ret true /\ Address.gt b a = Ret true.
Proof.
  intros G V S. assert (X : Address.explode_base6 a = Raise AddressValueError) by (by apply (scoped_explode a scope)). split; [|split].
  - unfold Address.exploded. rewrite V. unfold Address.explode_address6. by destruct (Address.ipv4_mapped a); rewrite X.
  - unfold Address.reverse_pointer. rewrite V. unfold Address.reverse_pointer6, Address.reverse_pointer_base6, Address.exploded. rewrite V. unfold Address.explode_address6. by destruct (Address.ipv4_mapped a); rewrite X.
  - intros b VB IB NS. split; apply scopes_both_greater; rewrite ?S; congruence.
Qed.

(** * Witnesses *)

Lemma address_constructors_witness : exists a, Address.new V6 (StrArg (lit "2001:db8::1")) = Ret a /\ good_address a /\ Address.version_ a = V6.
Proof.
  destruct (address_constructors V6 (StrArg (lit "2001:db8::1")) 0 I) as [[H | H] _]; [exact H|]. exfalso. vm_compute in H. congruence.
Defined.

Lemma address_roundtrips_witness : exists t, Address.str fe80_1_eth0 = Ret t /\ Address.new V6 (StrArg t) = Ret fe80_1_eth0.
Proof.
  apply (address_roundtrips fe80_1_eth0). split; [vm_compute; intuition congruence|].
  split; [done|]. split; by apply absent_check.
Defined.

Lemma compression_canonical_witness : compress_hextets (fmt_x <$> [1; 2; 3; 4; 5; 6; 7; 8]) = fmt_x <$> [1; 2; 3; 4; 5; 6; 7; 8].
Proof.
  destruct (compression_canonical [1; 2; 3; 4; 5; 6; 7; 8] eq_refl) as [[H _] | (s & n & Z & N & _)].
  - rewrite !Forall_cons. unfold is_hextet. split_and!; (lia || done).
  - exact H.
  - vm_compute. reflexivity.
Defined.

Lemma scoped_addresses_witness : Address.exploded fe80_1_eth0 = Raise AddressValueError /\ Address.gt fe80_1 fe80_1_eth0 = Ret true.
Proof.
  destruct (scoped_addresses fe80_1_eth0 (lit "eth0")) as (E & _ & H); [split; [vm_compute; intuition congruence|]; split; [done|]; split; by apply absent_check | done | done|].
  split; [exact E | apply (H fe80_1); done].
Defined.
