(* ===== verification/IpNet.v ===== *)
(** IP networks and interfaces (the runtime's ipaddress.py): netmasks, network
    objects, containment, subnets, supernets, exclusion, and the addresses set
    apart by the registries. *)
From Stdlib Require Import ZArith Lia List.
From stdpp Require Import base list strings.
From S2P Require Import Prelude Text Ip.
Open Scope Z_scope.
Import Address.

(** * Netmasks *)

(** [n.bit_length()]. *)
Definition bit_length (n : Z) : Z := if n =? 0 then 0 else Z.log2 (Z.abs n) + 1.

Definition count_righthand_zero_bits (number bits : Z) : Z :=
  if number =? 0 then bits
  else Z.min bits (bit_length (Z.land (Z.lnot number) (number - 1))).

Definition ip_int_from_prefix (v : version) (prefixlen : Z) : Z :=
  Z.lxor (ALL_ONES v) (Z.shiftr (ALL_ONES v) prefixlen).

Definition prefix_from_ip_int (v : version) (ip_int : Z) : py Z :=
  let trailing_zeroes := count_righthand_zero_bits ip_int (max_prefixlen v) in
  let prefixlen := max_prefixlen v - trailing_zeroes in
  let leading_ones := Z.shiftr ip_int trailing_zeroes in
  let all_ones := Z.shiftl 1 prefixlen - 1 in
  if negb (leading_ones =? all_ones) then Raise ValueError else Ret prefixlen.

(** [int(s)] on decimal digits; the interpreter refuses more than 4300. *)
Definition int_limited (s : list Z) : py Z := if zlen s >? 4300 then Raise ValueError else py_int 10 s.

Definition prefix_from_prefix_string (v : version) (prefixlen_str : list Z) : py Z :=
  if negb (ascii_digits prefixlen_str) then Raise NetmaskValueError
  else
    prefixlen ← catch is_value_error (int_limited prefixlen_str) (Raise NetmaskValueError);
    if negb (between 0 prefixlen (max_prefixlen v)) then Raise NetmaskValueError else Ret prefixlen.

Definition ip_int_from_string (v : version) (s : list Z) : py Z :=
  match v with V4 => ip_int_from_string4 s | V6 => ip_int_from_string6 s end.

Definition only (e e' : exn) : bool := bool_decide (e = e').

Definition prefix_from_ip_string (v : version) (ip_str : list Z) : py Z :=
  ip_int ← catch (only AddressValueError) (ip_int_from_string v ip_str) (Raise NetmaskValueError);
  catch is_value_error (prefix_from_ip_int v ip_int)
    (catch is_value_error (prefix_from_ip_int v (Z.lxor ip_int (ALL_ONES v))) (Raise NetmaskValueError)).

Inductive mask_arg :=
| MaskInt (n : Z)
| MaskStr (s : list Z).

#[export] Instance mask_arg_eq_dec : EqDecision mask_arg.
Proof. solve_decision. Defined.

(** The body of [_make_netmask] on a key that is not in the cache. *)
Definition netmask_entry (v : version) (arg : mask_arg) : py (address * Z) :=
  prefixlen ←
    match arg with
    | MaskInt prefixlen =>
        if negb (between 0 prefixlen (max_prefixlen v)) then Raise NetmaskValueError else Ret prefixlen
    | MaskStr s =>
        match v with
        | V4 => catch (only NetmaskValueError) (prefix_from_prefix_string v s) (prefix_from_ip_string v s)
        | V6 => prefix_from_prefix_string v s
        end
    end;
  netmask ← new v (IntArg (ip_int_from_prefix v prefixlen));
  Ret (netmask, prefixlen).

(** [_make_netmask], with the class's [_netmask_cache]. *)
Definition netmask_cache := list (mask_arg * (address * Z)).
Fixpoint cache_get (cache : netmask_cache) (arg : mask_arg) : option (address * Z) :=
  match cache with
  | [] => None
  | (k, e) :: cache => if decide (k = arg) then Some e else cache_get cache arg
  end.
Definition make_netmask_cached (v : version) (cache : netmask_cache) (arg : mask_arg) : py (address * Z) * netmask_cache :=
  match cache_get cache arg with
  | Some e => (Ret e, cache)
  | None =>
      match netmask_entry v arg with
      | Ret e => (Ret e, cache ++ [(arg, e)])
      | r => (r, cache)
      end
  end.

(** The methods of the two classes, each with a cache of its own. *)
Definition make_netmask4 := make_netmask_cached V4.
Definition make_netmask6 := make_netmask_cached V6.

(** What it returns, whatever the cache holds (see [netmask_cache_ok]). *)
Definition make_netmask (v : version) (arg : mask_arg) : py (address * Z) := fst (make_netmask_cached v [] arg).

(** * Networks *)

Inductive network_arg :=
| Plain (address : address_arg)
| Tuple1 (address : address_arg)
| Tuple2 (address : address_arg) (mask : mask_arg).

Definition split_optional_netmask (address : list Z) : py (list (list Z)) :=
  let addr := split 47 address in
  if zlen addr >? 2 then Raise AddressValueError else Ret addr.

Definition split_addr_prefix (v : version) (arg : network_arg) : py (address_arg * mask_arg) :=
  match arg with
  | Plain (StrArg s) =>
      addr ← split_optional_netmask s;
      match addr with
      | [a; m] => Ret (StrArg a, MaskStr m)
      | a :: _ => Ret (StrArg a, MaskInt (max_prefixlen v))
      | [] => Raise IndexError
      end
  | Plain a => Ret (a, MaskInt (max_prefixlen v))
  | Tuple1 a => Ret (a, MaskInt (max_prefixlen v))
  | Tuple2 a m => Ret (a, m)
  end.

Module Network.

Record network := Net { version_ : version; network_address : address; netmask : address; prefixlen : Z }.

Definition new (v : version) (arg : network_arg) (strict : bool) : py network :=
  '(addr, mask) ← split_addr_prefix v arg;
  network_address ← Address.new v addr;
  '(netmask, prefixlen) ← make_netmask v mask;
  let packed := ip network_address in
  if negb (Z.land packed (ip netmask) =? packed) then
    if strict then Raise ValueError
    else
      network_address ← Address.new v (IntArg (Z.land packed (ip netmask)));
      Ret (Net v network_address netmask prefixlen)
  else Ret (Net v network_address netmask prefixlen).

(** [IPv4Network(arg, strict)] and [IPv6Network(arg, strict)]. *)
Definition new4 := new V4.
Definition new6 := new V6.

Definition hostmask (self : network) : py address :=
  Address.new (version_ self) (IntArg (Z.lxor (ip (netmask self)) (ALL_ONES (version_ self)))).
Definition broadcast_address (self : network) : py address :=
  h ← hostmask self;
  Address.new (version_ self) (IntArg (Z.lor (ip (network_address self)) (ip h))).

Definition str (self : network) : py (list Z) :=
  a ← Address.str (network_address self);
  Ret (a ++ [47] ++ fmt_int (prefixlen self)).
Definition with_prefixlen := str.
Definition with_netmask (self : network) : py (list Z) :=
  a ← Address.str (network_address self);
  m ← Address.str (netmask self);
  Ret (a ++ [47] ++ m).
Definition with_hostmask (self : network) : py (list Z) :=
  a ← Address.str (network_address self);
  h ← hostmask self;
  m ← Address.str h;
  Ret (a ++ [47] ++ m).

Definition addresses (v : version) (first past : Z) : py (list address) :=
  mapM_py (fun x => Address.new v (IntArg x)) (pyrange first past).

Definition iter (self : network) : py (list address) :=
  b ← broadcast_address self;
  addresses (version_ self) (ip (network_address self)) (ip b + 1).

(** [hosts] of the base class, and of IPv6 networks, with the broadcast address. *)
Definition hosts4 (self : network) (broadcast : address) : py (list address) :=
  addresses (version_ self) (ip (network_address self) + 1) (ip broadcast).
Definition hosts6 (self : network) (broadcast : address) : py (list address) :=
  addresses (version_ self) (ip (network_address self) + 1) (ip broadcast + 1).

(** The constructor replaces [hosts] on networks of one and two addresses; of
    one, the mask keeps the address given as it was. *)
Definition hosts (self : network) : py (list address) :=
  if prefixlen self =? max_prefixlen (version_ self) - 1 then iter self
  else if prefixlen self =? max_prefixlen (version_ self) then Ret [network_address self]
  else
    b ← broadcast_address self;
    match version_ self with V4 => hosts4 self b | V6 => hosts6 self b end.

Definition getitem (self : network) (n : Z) : py address :=
  b ← broadcast_address self;
  let network := ip (network_address self) in
  let broadcast := ip b in
  if n >=? 0 then
    if network + n >? broadcast then Raise IndexError
    else Address.new (version_ self) (IntArg (network + n))
  else
    let n := n + 1 in
    if broadcast + n <? network then Raise IndexError
    else Address.new (version_ self) (IntArg (broadcast + n)).

Definition lt (self other : network) : py bool :=
  if negb (same_version (version_ self) (version_ other)) then Raise TypeError
  else if negb (Address.eqb (network_address self) (network_address other))
  then Address.lt (network_address self) (network_address other)
  else if negb (Address.eqb (netmask self) (netmask other)) then Address.lt (netmask self) (netmask other)
  else Ret false.
Definition eqb (self other : network) : bool :=
  same_version (version_ self) (version_ other) && Address.eqb (network_address self) (network_address other)
  && (ip (netmask self) =? ip (netmask other)).
Definition gt := gt_from_lt lt eqb.
Definition le := le_from_lt lt eqb.
Definition ge := ge_from_lt lt.

(** The tuple [__hash__] hashes. *)
Definition hash (self : network) : list Z := [ip (network_address self); ip (netmask self)].

(** [other in self] for an address. *)
Definition contains (self : network) (other : address) : bool :=
  if negb (same_version (version_ self) (Address.version_ other)) then false
  else Z.land (ip other) (ip (netmask self)) =? ip (network_address self).

Definition overlaps (self other : network) : py bool :=
  if contains other (network_address self) then Ret true
  else
    b ← broadcast_address self;
    if contains other b then Ret true
    else if contains self (network_address other) then Ret true
    else ob ← broadcast_address other; Ret (contains self ob).

Definition num_addresses (self : network) : py Z :=
  b ← broadcast_address self; Ret (ip b - ip (network_address self) + 1).

Definition is_subnet_of (a b : network) : py bool :=
  if negb (same_version (version_ a) (version_ b)) then Raise TypeError
  else
    l ← Address.le (network_address b) (network_address a);
    if l : bool then
      bb ← broadcast_address b;
      ba ← broadcast_address a;
      Address.ge bb ba
    else Ret false.
Definition subnet_of (self other : network) : py bool := is_subnet_of self other.
Definition supernet_of (self other : network) : py bool := is_subnet_of other self.

Definition compare_networks (self other : network) : py Z :=
  if negb (same_version (version_ self) (version_ other)) then Raise TypeError
  else
    l ← Address.lt (network_address self) (network_address other);
    if l : bool then Ret (-1)
    else
      g ← Address.gt (network_address self) (network_address other);
      if g : bool then Ret 1
      else
        l ← Address.lt (netmask self) (netmask other);
        if l : bool then Ret (-1)
        else
          g ← Address.gt (netmask self) (netmask other);
          if g : bool then Ret 1 else Ret 0.

Definition subnets (self : network) (prefixlen_diff : Z) (new_prefix : option Z) : py (list network) :=
  if prefixlen self =? max_prefixlen (version_ self) then Ret [self]
  else
    prefixlen_diff ←
      match new_prefix with
      | Some new_prefix =>
          if new_prefix <? prefixlen self then Raise ValueError
          else if negb (prefixlen_diff =? 1) then Raise ValueError
          else Ret (new_prefix - prefixlen self)
      | None => Ret prefixlen_diff
      end;
    if prefixlen_diff <? 0 then Raise ValueError
    else
      let new_prefixlen := prefixlen self + prefixlen_diff in
      if new_prefixlen >? max_prefixlen (version_ self) then Raise ValueError
      else
        b ← broadcast_address self;
        h ← hostmask self;
        let start := ip (network_address self) in
        let end_ := ip b + 1 in
        let step := Z.shiftr (ip h + 1) prefixlen_diff in
        mapM_py (fun new_addr => new (version_ self) (Tuple2 (IntArg new_addr) (MaskInt new_prefixlen)) true)
          (range_step start end_ step).

(** A negative shift is a [ValueError] of the interpreter. *)
Definition supernet (self : network) (prefixlen_diff : Z) (new_prefix : option Z) : py network :=
  if prefixlen self =? 0 then Ret self
  else
    prefixlen_diff ←
      match new_prefix with
      | Some new_prefix =>
          if new_prefix >? prefixlen self then Raise ValueError
          else if negb (prefixlen_diff =? 1) then Raise ValueError
          else Ret (prefixlen self - new_prefix)
      | None => Ret prefixlen_diff
      end;
    let new_prefixlen := prefixlen self - prefixlen_diff in
    if new_prefixlen <? 0 then Raise ValueError
    else if prefixlen_diff <? 0 then Raise ValueError
    else
      new (version_ self)
        (Tuple2 (IntArg (Z.land (ip (network_address self)) (Z.shiftl (ip (netmask self)) prefixlen_diff))) (MaskInt new_prefixlen)) true.

(** [s1, s2 = net.subnets()]. *)
Definition halves (net : network) : py (network * network) :=
  l ← subnets net 1 None;
  match l with [s1; s2] => Ret (s1, s2) | _ => Raise ValueError end.

(** The loop of [address_exclude]; each round goes one bit down. *)
Fixpoint exclude_loop (fuel : nat) (s1 s2 other : network) : py (list network) :=
  match fuel with
  | O => NoFuel
  | S fuel =>
      if eqb s1 other then Ret [s2]
      else if eqb s2 other then Ret [s1]
      else
        i1 ← subnet_of other s1;
        if i1 : bool then
          '(t1, t2) ← halves s1;
          rest ← exclude_loop fuel t1 t2 other;
          Ret (s2 :: rest)
        else
          i2 ← subnet_of other s2;
          if i2 : bool then
            '(t1, t2) ← halves s2;
            rest ← exclude_loop fuel t1 t2 other;
            Ret (s1 :: rest)
          else Raise AssertionError
  end.

Definition exclude_fuel (v : version) : nat := S (Z.to_nat (max_prefixlen v)).

(** [list(self.address_exclude(other))] for a network [other]. *)
Definition address_exclude (self other : network) : py (list network) :=
  if negb (same_version (version_ self) (version_ other)) then Raise TypeError
  else
    sub ← subnet_of other self;
    if negb sub then Raise ValueError
    else if eqb other self then Ret []
    else
      text ← str other;
      other ← new (version_ other) (Plain (StrArg text)) true;
      '(s1, s2) ← halves self;
      exclude_loop (exclude_fuel (version_ self)) s1 s2 other.

End Network.

(** * Interfaces *)

Module Interface.
Import Network.

Record interface := Iface { address_ : address; network_ : network }.

Definition new (v : version) (arg : network_arg) : py interface :=
  '(addr, mask) ← split_addr_prefix v arg;
  a ← Address.new v addr;
  n ← Network.new v (Tuple2 addr mask) false;
  Ret (Iface a n).

(** [IPv4Interface(arg)] and [IPv6Interface(arg)]. *)
Definition new4 := new V4.
Definition new6 := new V6.

Definition string_from_ip_int (self : interface) : py (list Z) :=
  match Address.version_ (address_ self) with
  | V4 => string_from_ip_int4 (ip (address_ self))
  | V6 => string_from_ip_int6 (ip (address_ self))
  end.

Definition str (self : interface) : py (list Z) :=
  s ← Address.str (address_ self);
  Ret (s ++ [47] ++ fmt_int (prefixlen (network_ self))).
Definition with_prefixlen (self : interface) : py (list Z) :=
  s ← string_from_ip_int self;
  Ret (s ++ [47] ++ fmt_int (prefixlen (network_ self))).
Definition with_netmask (self : interface) : py (list Z) :=
  s ← string_from_ip_int self;
  m ← Address.str (netmask (network_ self));
  Ret (s ++ [47] ++ m).
Definition with_hostmask (self : interface) : py (list Z) :=
  s ← string_from_ip_int self;
  h ← hostmask (network_ self);
  m ← Address.str h;
  Ret (s ++ [47] ++ m).

Definition eqb (self other : interface) : bool :=
  if negb (Address.eqb (address_ self) (address_ other)) then false
  else Network.eqb (network_ self) (network_ other).
Definition lt (self other : interface) : py bool :=
  address_less ← Address.lt (address_ self) (address_ other);
  network_less ← Network.lt (network_ self) (network_ other);
  Ret (network_less || (Network.eqb (network_ self) (network_ other) && address_less)).

Definition hash (self : interface) : list Z :=
  [ip (address_ self); prefixlen (network_ self); ip (network_address (network_ self))].
Definition ip_ (self : interface) : py address :=
  Address.new (Address.version_ (address_ self)) (IntArg (ip (address_ self))).

End Interface.

Definition ip_network (arg : network_arg) (strict : bool) : py Network.network :=
  catch is_address_error (Network.new4 arg strict)
    (catch is_address_error (Network.new6 arg strict) (Raise ValueError)).

Definition ip_interface (arg : network_arg) : py Interface.interface :=
  catch is_address_error (Interface.new4 arg)
    (catch is_address_error (Interface.new6 arg) (Raise ValueError)).

(** * The registries *)

Module Registry.
Import Network.

Definition net4 (s : string) : py network := Network.new V4 (Plain (StrArg (lit s))) true.
Definition net6 (s : string) : py network := Network.new V6 (Plain (StrArg (lit s))) true.

Definition linklocal_network4 : py network := net4 "169.254.0.0/16".
Definition loopback_network4 : py network := net4 "127.0.0.0/8".
Definition multicast_network4 : py network := net4 "224.0.0.0/4".
Definition public_network4 : py network := net4 "100.64.0.0/10".
Definition private_networks4 : py (list network) :=
  mapM_py net4 ["0.0.0.0/8"; "10.0.0.0/8"; "127.0.0.0/8"; "169.254.0.0/16"; "172.16.0.0/12"; "192.0.0.0/24";
    "192.0.0.170/31"; "192.0.2.0/24"; "192.168.0.0/16"; "198.18.0.0/15"; "198.51.100.0/24"; "203.0.113.0/24";
    "240.0.0.0/4"; "255.255.255.255/32"]%string.
Definition private_networks_exceptions4 : py (list network) := mapM_py net4 ["192.0.0.9/32"; "192.0.0.10/32"]%string.
Definition reserved_network4 : py network := net4 "240.0.0.0/4".
Definition unspecified_address4 : py address := Address.new V4 (StrArg (lit "0.0.0.0")).

Definition linklocal_network6 : py network := net6 "fe80::/10".
Definition multicast_network6 : py network := net6 "ff00::/8".
Definition private_networks6 : py (list network) :=
  mapM_py net6 ["::1/128"; "::/128"; "::ffff:0:0/96"; "64:ff9b:1::/48"; "100::/64"; "2001::/23"; "2001:db8::/32";
    "2002::/16"; "3fff::/20"; "fc00::/7"; "fe80::/10"]%string.
Definition private_networks_exceptions6 : py (list network) :=
  mapM_py net6 ["2001:1::1/128"; "2001:1::2/128"; "2001:3::/32"; "2001:4:112::/48"; "2001:20::/28"; "2001:30::/28"]%string.
Definition reserved_networks6 : py (list network) :=
  mapM_py net6 ["::/8"; "100::/8"; "200::/7"; "400::/6"; "800::/5"; "1000::/4"; "4000::/3"; "6000::/3"; "8000::/3";
    "A000::/3"; "C000::/3"; "E000::/4"; "F000::/5"; "F800::/6"; "FE00::/9"]%string.
Definition sitelocal_network6 : py network := net6 "fec0::/10".

(** ** Addresses *)

Definition in_one (n : py network) (a : address) : py bool := n ← n; Ret (contains n a).
Definition in_any (ns : py (list network)) (a : address) : py bool := ns ← ns; Ret (existsb (fun n => contains n a) ns).

(** An IPv4-mapped address is judged as the IPv4 address. *)
Definition mapped (f : address -> py bool) (a : address) (otherwise : py bool) : py bool :=
  match ipv4_mapped a with
  | Some m => a4 ← Address.new V4 (IntArg m); f a4
  | None => otherwise
  end.

Definition is_private4 (a : address) : py bool :=
  p ← in_any private_networks4 a;
  e ← in_any private_networks_exceptions4 a;
  Ret (p && negb e).
Definition is_global4 (a : address) : py bool :=
  u ← in_one public_network4 a;
  if u : bool then Ret false else p ← is_private4 a; Ret (negb p).
Definition is_reserved4 : address -> py bool := in_one reserved_network4.
Definition is_multicast4 : address -> py bool := in_one multicast_network4.
Definition is_loopback4 : address -> py bool := in_one loopback_network4.
Definition is_link_local4 : address -> py bool := in_one linklocal_network4.
Definition is_unspecified4 (a : address) : py bool := u ← unspecified_address4; Ret (Address.eqb a u).

Definition is_private6 (a : address) : py bool :=
  mapped is_private4 a
    (p ← in_any private_networks6 a;
     e ← in_any private_networks_exceptions6 a;
     Ret (p && negb e)).
Definition is_global6 (a : address) : py bool := mapped is_global4 a (p ← is_private6 a; Ret (negb p)).
Definition is_reserved6 (a : address) : py bool := mapped is_reserved4 a (in_any reserved_networks6 a).
Definition is_multicast6 (a : address) : py bool := mapped is_multicast4 a (in_one multicast_network6 a).
Definition is_link_local6 (a : address) : py bool := mapped is_link_local4 a (in_one linklocal_network6 a).
Definition is_site_local6 (a : address) : py bool := in_one sitelocal_network6 a.
Definition is_unspecified6 (a : address) : py bool := mapped is_unspecified4 a (Ret (ip a =? 0)).
Definition is_loopback6 (a : address) : py bool := mapped is_loopback4 a (Ret (ip a =? 1)).

Definition by_version (f4 f6 : address -> py bool) (a : address) : py bool :=
  match Address.version_ a with V4 => f4 a | V6 => f6 a end.
Definition is_private := by_version is_private4 is_private6.
Definition is_global := by_version is_global4 is_global6.
Definition is_reserved := by_version is_reserved4 is_reserved6.
Definition is_multicast := by_version is_multicast4 is_multicast6.
Definition is_link_local := by_version is_link_local4 is_link_local6.
Definition is_unspecified := by_version is_unspecified4 is_unspecified6.
Definition is_loopback := by_version is_loopback4 is_loopback6.

(** ** Networks *)

Definition both_ends (f : address -> py bool) (n : network) : py bool :=
  a ← f (network_address n);
  if a : bool then b ← broadcast_address n; f b else Ret false.
Definition net_is_multicast := both_ends is_multicast.
Definition net_is_reserved := both_ends is_reserved.
Definition net_is_link_local := both_ends is_link_local.
Definition net_is_unspecified := both_ends is_unspecified.
Definition net_is_loopback := both_ends is_loopback.
Definition net_is_site_local := both_ends is_site_local6.

Definition private_networks (v : version) := match v with V4 => private_networks4 | V6 => private_networks6 end.
Definition private_networks_exceptions (v : version) :=
  match v with V4 => private_networks_exceptions4 | V6 => private_networks_exceptions6 end.

Definition net_is_private (n : network) : py bool :=
  ns ← private_networks (version_ n);
  b ← broadcast_address n;
  if existsb (fun p => contains p (network_address n) && contains p b) ns then
    es ← private_networks_exceptions (version_ n);
    Ret (forallb (fun e => negb (contains e (network_address n)) && negb (contains e b)) es)
  else Ret false.
Definition net_is_global (n : network) : py bool :=
  match version_ n with
  | V4 =>
      u ← both_ends (in_one public_network4) n;
      if u : bool then Ret false else p ← net_is_private n; Ret (negb p)
  | V6 => p ← net_is_private n; Ret (negb p)
  end.

(** ** IPv6 interfaces *)

Definition iface_is_unspecified6 (i : Interface.interface) : py bool :=
  if ip (Interface.address_ i) =? 0 then net_is_unspecified (Interface.network_ i) else Ret false.
Definition iface_is_loopback6 (i : Interface.interface) : py bool :=
  l ← is_loopback6 (Interface.address_ i);
  if l : bool then net_is_loopback (Interface.network_ i) else Ret false.

End Registry.

(** * Masks, lemmas *)

(** The netmask of a prefix length, as a number. *)
Definition mask (v : version) (p : Z) : Z := 2 ^ max_prefixlen v - 2 ^ (max_prefixlen v - p).

Lemma bits_pos v : 0 < max_prefixlen v.
Proof. by destruct v. Qed.
Lemma all_ones v : ALL_ONES v = 2 ^ max_prefixlen v - 1.
Proof. by destruct v. Qed.

Lemma mask_bits b k i : 0 <= k <= b -> 0 <= i -> Z.testbit (2 ^ b - 2 ^ k) i = (k <=? i) && (i <? b).
Proof.
  intros H Hi. replace (2 ^ b - 2 ^ k) with (Z.shiftl (Z.ones (b - k)) k).
  - rewrite Z.shiftl_spec by lia. destruct (Z.leb_spec k i) as [L|L]; [|by rewrite Z.testbit_neg_r by lia].
    rewrite Z.testbit_ones by lia. destruct (Z.leb_spec 0 (i - k)), (Z.ltb_spec (i - k) (b - k)), (Z.ltb_spec i b); try lia; done.
  - rewrite Z.shiftl_mul_pow2, Z.ones_equiv by lia. replace b with (b - k + k) at 2 by lia. rewrite Z.pow_add_r by lia. lia.
Qed.

Lemma ones_bits b i : 0 <= b -> 0 <= i -> Z.testbit (2 ^ b - 1) i = (i <? b).
Proof. intros. change 1 with (2 ^ 0). rewrite mask_bits by lia. destruct (Z.leb_spec 0 i); [done | lia]. Qed.

Lemma ip_int_from_prefix_mask v p : 0 <= p <= max_prefixlen v -> ip_int_from_prefix v p = mask v p.
Proof.
  intros H. unfold ip_int_from_prefix, mask. rewrite all_ones. pose proof (bits_pos v). apply Z.bits_inj'. intros i Hi.
  rewrite Z.lxor_spec, Z.shiftr_spec, !ones_bits, mask_bits by lia. zcase; cbn; (done || lia).
Qed.

Lemma land_top b k x : 0 <= k <= b -> 0 <= x < 2 ^ b -> Z.land x (2 ^ b - 2 ^ k) = x - x mod 2 ^ k.
Proof.
  intros H Hx. assert (E : x - x mod 2 ^ k = Z.ldiff x (Z.ones k)).
  { rewrite Z.ldiff_ones_r, Z.shiftl_mul_pow2, Z.shiftr_div_pow2 by lia. pose proof (Z.div_mod x (2 ^ k) ltac:(lia)). lia. }
  rewrite E. apply Z.bits_inj'. intros i Hi. rewrite Z.land_spec, Z.ldiff_spec, mask_bits, Z.testbit_ones by lia.
  destruct (Z.ltb_spec i b) as [L|L].
  - f_equal. zcase; cbn; (done || lia).
  - rewrite (testbit_small x b) by lia. done.
Qed.

Lemma land_mask v p x : 0 <= p <= max_prefixlen v -> 0 <= x <= ALL_ONES v -> Z.land x (mask v p) = x - x mod 2 ^ (max_prefixlen v - p).
Proof. intros H Hx. rewrite all_ones in Hx. unfold mask. apply land_top; lia. Qed.

Lemma hostmask_mask v p : 0 <= p <= max_prefixlen v -> Z.lxor (mask v p) (ALL_ONES v) = 2 ^ (max_prefixlen v - p) - 1.
Proof.
  intros H. rewrite all_ones. unfold mask. pose proof (bits_pos v). apply Z.bits_inj'. intros i Hi.
  rewrite Z.lxor_spec, mask_bits, !ones_bits by lia. zcase; cbn; (done || lia).
Qed.

Lemma lor_aligned lo k : 0 <= k -> 0 <= lo -> lo mod 2 ^ k = 0 -> Z.lor lo (2 ^ k - 1) = lo + (2 ^ k - 1).
Proof.
  intros Hk Hlo A. pose proof (Z.div_mod lo (2 ^ k) ltac:(lia)) as D. pose proof (Z.pow_pos_nonneg 2 k ltac:(lia) Hk).
  pose proof (lor_shiftl_add (lo / 2 ^ k) (2 ^ k - 1) k Hk ltac:(lia)) as E. rewrite Z.shiftl_mul_pow2 in E by lia.
  replace (lo / 2 ^ k * 2 ^ k) with lo in E by lia. exact E.
Qed.

Lemma mask_range v p : 0 <= p <= max_prefixlen v -> 0 <= mask v p <= ALL_ONES v.
Proof.
  intros H. rewrite all_ones. unfold mask. assert (2 ^ (max_prefixlen v - p) <= 2 ^ max_prefixlen v) by (apply Z.pow_le_mono_r; lia).
  pose proof (Z.pow_pos_nonneg 2 (max_prefixlen v - p) ltac:(lia) ltac:(lia)). lia.
Qed.

Lemma mask_inj v p q : 0 <= p <= max_prefixlen v -> 0 <= q <= max_prefixlen v -> mask v p = mask v q -> p = q.
Proof.
  intros Hp Hq E. unfold mask in E. assert (X : 2 ^ (max_prefixlen v - p) = 2 ^ (max_prefixlen v - q)) by lia.
  apply Z.pow_inj_r in X; lia.
Qed.

(** ** Reading a mask back *)

Lemma bit_length_pow n : 0 < n -> bit_length n = Z.log2 n + 1.
Proof. intros H. unfold bit_length. rewrite (proj2 (Z.eqb_neq n 0)), Z.abs_eq by lia. done. Qed.

Lemma odd_part n : 0 < n -> exists k q, 0 <= k /\ 0 <= q /\ n = (2 * q + 1) * 2 ^ k.
Proof.
  intros H. destruct n as [|p|]; [lia| |lia]. clear H. induction p as [p _|p (k & q & Hk & Hq & E)|].
  - exists 0, (Z.pos p). lia.
  - exists (k + 1), q. rewrite Z.pow_add_r by lia. lia.
  - exists 0, 0. lia.
Qed.

Lemma trailing_ones k q : 0 <= k -> 0 <= q -> let n := (2 * q + 1) * 2 ^ k in Z.land (Z.lnot n) (n - 1) = 2 ^ k - 1.
Proof.
  intros Hk Hq n. pose proof (Z.pow_pos_nonneg 2 k ltac:(lia) Hk).
  assert (E1 : n = Z.lor (Z.shiftl (2 * q + 1) k) 0) by (rewrite lor_shiftl_add by lia; unfold n; lia).
  assert (E2 : n - 1 = Z.lor (Z.shiftl (2 * q) k) (2 ^ k - 1)) by (rewrite lor_shiftl_add by lia; unfold n; lia).
  apply Z.bits_inj'. intros i Hi. rewrite Z.land_spec, Z.lnot_spec, E2, E1, !Z.lor_spec, !Z.shiftl_spec, !ones_bits, Z.bits_0 by lia.
  destruct (Z.ltb_spec i k) as [L|L]; [by rewrite !(Z.testbit_neg_r _ (i - k)) by lia|]. rewrite !orb_false_r.
  destruct (decide (i = k)) as [->|N]; [by rewrite Z.sub_diag, Z.testbit_even_0, andb_false_r|].
  replace (i - k) with (Z.succ (i - k - 1)) by lia. rewrite Z.testbit_even_succ, Z.testbit_odd_succ by lia. apply andb_negb_l.
Qed.

Lemma count_zero_bits k q bits : 0 <= k -> 0 <= q -> count_righthand_zero_bits ((2 * q + 1) * 2 ^ k) bits = Z.min bits k.
Proof.
  intros Hk Hq. pose proof (Z.pow_pos_nonneg 2 k ltac:(lia) Hk). unfold count_righthand_zero_bits. rewrite (proj2 (Z.eqb_neq _ 0)) by lia.
  rewrite trailing_ones by done. f_equal. destruct (decide (k = 0)) as [->|N]; [done|].
  assert (2 ^ 1 <= 2 ^ k) by (apply Z.pow_le_mono_r; lia).
  rewrite bit_length_pow by lia. rewrite Z.sub_1_r, Z.log2_pred_pow2 by lia. lia.
Qed.

Lemma prefix_from_ip_int_spec v x : 0 <= x <= ALL_ONES v ->
  (exists p, 0 <= p <= max_prefixlen v /\ x = mask v p /\ prefix_from_ip_int v x = Ret p)
  \/ ((forall p, 0 <= p <= max_prefixlen v -> x <> mask v p) /\ prefix_from_ip_int v x = Raise ValueError).
Proof.
  intros Hx. pose proof (bits_pos v) as BP. rewrite all_ones in Hx. destruct (decide (x = 0)) as [->|N].
  { left. exists 0. split; [lia|]. split; [unfold mask; rewrite Z.sub_0_r; lia|]. unfold prefix_from_ip_int, count_righthand_zero_bits.
    cbn [Z.eqb]. rewrite Z.sub_diag, Z.shiftr_0_l. done. }
  destruct (odd_part x ltac:(lia)) as (k & q & Hk & Hq & E). pose proof (Z.pow_pos_nonneg 2 k ltac:(lia) Hk).
  assert (KB : k < max_prefixlen v).
  { destruct (decide (k < max_prefixlen v)) as [|G]; [done|]. assert (2 ^ max_prefixlen v <= 2 ^ k) by (apply Z.pow_le_mono_r; lia). nia. }
  unfold prefix_from_ip_int. rewrite E, count_zero_bits by done. rewrite (Z.min_r _ k) by lia.
  rewrite Z.shiftr_div_pow2, Z.div_mul by lia. rewrite Z.shiftl_mul_pow2, Z.mul_1_l by lia.
  assert (MK : mask v (max_prefixlen v - k) = (2 ^ (max_prefixlen v - k) - 1) * 2 ^ k).
  { unfold mask. replace (max_prefixlen v - (max_prefixlen v - k)) with k by lia.
    replace (max_prefixlen v) with (max_prefixlen v - k + k) at 1 by lia. rewrite Z.pow_add_r by lia. lia. }
  destruct (Z.eqb_spec (2 * q + 1) (2 ^ (max_prefixlen v - k) - 1)) as [O|O]; cbn [negb].
  - left. exists (max_prefixlen v - k). split; [lia|]. split; [|done]. by rewrite MK, O.
  - right. split; [|done]. intros p Hp M. apply O. set (j := max_prefixlen v - p).
    assert (MJ : mask v p = (2 ^ (max_prefixlen v - j) - 1) * 2 ^ j).
    { unfold mask. fold j. replace (max_prefixlen v) with (max_prefixlen v - j + j) at 1 by lia. rewrite Z.pow_add_r by lia. lia. }
    assert (JB : j < max_prefixlen v).
    { destruct (decide (j = max_prefixlen v)) as [J|]; [|lia]. rewrite J, Z.sub_diag in MJ. change (2 ^ 0 - 1) with 0 in MJ. nia. }
    assert (j = k) as JK; [|rewrite JK in MJ; nia].
    assert (OJ : exists r, 0 <= r /\ 2 ^ (max_prefixlen v - j) - 1 = 2 * r + 1).
    { exists (2 ^ (max_prefixlen v - j - 1) - 1). pose proof (Z.pow_pos_nonneg 2 (max_prefixlen v - j - 1) ltac:(lia) ltac:(lia)).
      split; [lia|]. replace (max_prefixlen v - j) with (max_prefixlen v - j - 1 + 1) at 1 by lia. rewrite Z.pow_add_r by lia. lia. }
    destruct OJ as (r & Hr & OJ). rewrite MJ, OJ in M. rewrite M in *.
    pose proof (count_zero_bits k q (max_prefixlen v + k) Hk Hq) as C1. rewrite M, count_zero_bits in C1 by lia. lia.
Qed.

Lemma netmask_entry_int v p : 0 <= p <= max_prefixlen v -> netmask_entry v (MaskInt p) = Ret (Addr v (mask v p) None, p).
Proof.
  intros H. unfold netmask_entry. rewrite between_true by done. cbn [negb]. rewrite py_ret_bind, ip_int_from_prefix_mask by done.
  by rewrite address_new_int, py_ret_bind by (by apply mask_range).
Qed.

Lemma make_netmask_entry v arg : make_netmask v arg = netmask_entry v arg.
Proof. unfold make_netmask, make_netmask_cached. cbn [cache_get]. by destruct (netmask_entry v arg). Qed.

Lemma prefix_string_total v s : (exists p, prefix_from_prefix_string v s = Ret p /\ 0 <= p <= max_prefixlen v)
  \/ prefix_from_prefix_string v s = Raise NetmaskValueError.
Proof.
  unfold prefix_from_prefix_string. destruct (ascii_digits s); [|by right]. cbn [negb].
  assert (I : (exists n, int_limited s = Ret n) \/ int_limited s = Raise ValueError).
  { unfold int_limited, py_int, py_int_strip, of_opt. destruct (zlen s >? 4300); [by right|]. case_match; [left; by eexists | by right]. }
  destruct I as [(n & ->) | ->]; [|by right]. cbn [catch]. rewrite py_ret_bind. unfold between.
  destruct (_ && _) eqn:E; [|by right]. left. exists n. split; [done|]. lia.
Qed.

Lemma prefix_ip_string_total s : (exists p, prefix_from_ip_string V4 s = Ret p /\ 0 <= p <= 32) \/ prefix_from_ip_string V4 s = Raise NetmaskValueError.
Proof.
  unfold prefix_from_ip_string. cbn [ip_int_from_string]. destruct (string4_inv s) as [(m & -> & Hm & _) | ->]; [|by right].
  cbn [catch]. rewrite py_ret_bind. destruct (prefix_from_ip_int_spec V4 m Hm) as [(p & Hp & _ & ->) | [_ ->]]; [left; by exists p|].
  cbn [catch is_value_error]. assert (HX : 0 <= Z.lxor m (ALL_ONES V4) <= ALL_ONES V4).
  { unfold ALL_ONES, IPV4LENGTH in *. pose proof (proj2 (Z.lxor_nonneg m (2 ^ 32 - 1)) ltac:(lia)) as L0. split; [done|].
    destruct (decide (Z.lxor m (2 ^ 32 - 1) = 0)) as [->|N]; [lia|].
    pose proof (Z.log2_lxor m (2 ^ 32 - 1) ltac:(lia) ltac:(lia)) as L. assert (Z.log2 m <= 31).
    { destruct (decide (m = 0)) as [->|]; [done|]. assert (Z.log2 m < 32) by (apply Z.log2_lt_pow2; lia). lia. }
    change (Z.log2 (2 ^ 32 - 1)) with 31 in L. assert (Z.lxor m (2 ^ 32 - 1) < 2 ^ 32) by (apply Z.log2_lt_pow2; lia). lia. }
  destruct (prefix_from_ip_int_spec V4 _ HX) as [(p & Hp & _ & ->) | [_ ->]]; [left; by exists p | by right].
Qed.

Lemma netmask_total v arg : (exists p, make_netmask v arg = Ret (Addr v (mask v p) None, p) /\ 0 <= p <= max_prefixlen v)
  \/ make_netmask v arg = Raise NetmaskValueError.
Proof.
  rewrite make_netmask_entry. unfold netmask_entry.
  match goal with |- context [mbind _ ?m] => assert (P : (exists p, m = Ret p /\ 0 <= p <= max_prefixlen v) \/ m = Raise NetmaskValueError) end.
  { destruct arg as [n|s].
    - unfold between. destruct (_ && _) eqn:E; [left | by right]. exists n. split; [done|]. lia.
    - destruct v; [|apply prefix_string_total]. destruct (prefix_string_total V4 s) as [(p & -> & Hp) | ->]; [left; by exists p|].
      apply prefix_ip_string_total. }
  destruct P as [(p & -> & Hp) | ->]; [|by right]. left. exists p. split; [|done]. rewrite py_ret_bind, ip_int_from_prefix_mask by done.
  by rewrite address_new_int, py_ret_bind by (by apply mask_range).
Qed.

Lemma lxor_mask p : 0 <= p <= 32 -> Z.lxor (2 ^ (32 - p) - 1) (ALL_ONES V4) = mask V4 p.
Proof. intros H. change (32 - p) with (max_prefixlen V4 - p). rewrite <- (hostmask_mask V4 p) by done. rewrite Z.lxor_assoc, Z.lxor_nilpotent, Z.lxor_0_r. done. Qed.

Lemma prefix_of_mask v p : 0 <= p <= max_prefixlen v -> prefix_from_ip_int v (mask v p) = Ret p.
Proof.
  intros H. destruct (prefix_from_ip_int_spec v (mask v p) (mask_range v p H)) as [(q & Hq & E & ->) | [N _]].
  - f_equal. symmetry. by apply (mask_inj v).
  - by destruct (N p H).
Qed.

Lemma not_prefix_text m : prefix_from_prefix_string V4 (dotted m) = Raise NetmaskValueError.
Proof.
  unfold prefix_from_prefix_string, ascii_digits. replace (forallb _ (dotted m)) with false; [by rewrite andb_false_r|]. symmetry.
  destruct (forallb _ _) eqn:E; [|done]. apply forallb_Forall in E. rewrite Forall_forall in E. specialize (E 46 (dotted_has_dot m)). done.
Qed.

Lemma mask_text p : 0 <= p <= 32 -> make_netmask V4 (MaskStr (dotted (mask V4 p))) = Ret (Addr V4 (mask V4 p) None, p).
Proof.
  intros H. rewrite make_netmask_entry. unfold netmask_entry. rewrite not_prefix_text. cbn [catch]. unfold only. rewrite bool_decide_eq_true_2 by done.
  unfold prefix_from_ip_string. cbn [ip_int_from_string]. rewrite dotted_parses by (by apply mask_range). cbn [catch]. rewrite py_ret_bind.
  rewrite (prefix_of_mask V4) by done. cbn [catch]. rewrite py_ret_bind, ip_int_from_prefix_mask by done.
  by rewrite address_new_int, py_ret_bind by (by apply mask_range).
Qed.

Lemma hostmask_not_mask p q : 0 < p < 32 -> 0 <= q <= 32 -> 2 ^ (32 - p) - 1 <> mask V4 q.
Proof.
  intros Hp Hq E. unfold mask in E. change (max_prefixlen V4) with 32 in E.
  assert (2 ^ 1 <= 2 ^ (32 - p) <= 2 ^ 31) by (split; apply Z.pow_le_mono_r; lia).
  destruct (decide (q = 0)) as [->|N]; [change (2 ^ 32 - 2 ^ (32 - 0)) with 0 in E; lia|].
  assert (2 ^ (32 - q) <= 2 ^ 31) by (apply Z.pow_le_mono_r; lia). lia.
Qed.

Lemma hostmask_text p : 0 < p < 32 -> make_netmask V4 (MaskStr (dotted (2 ^ (32 - p) - 1))) = Ret (Addr V4 (mask V4 p) None, p).
Proof.
  intros H. assert (R : 0 <= 2 ^ (32 - p) - 1 <= ALL_ONES V4).
  { unfold ALL_ONES, IPV4LENGTH. assert (2 ^ 1 <= 2 ^ (32 - p) <= 2 ^ 31) by (split; apply Z.pow_le_mono_r; lia). lia. }
  rewrite make_netmask_entry. unfold netmask_entry. rewrite not_prefix_text. cbn [catch]. unfold only. rewrite bool_decide_eq_true_2 by done.
  unfold prefix_from_ip_string. cbn [ip_int_from_string]. rewrite dotted_parses by done. cbn [catch]. rewrite py_ret_bind.
  destruct (prefix_from_ip_int_spec V4 _ R) as [(q & Hq & E & _) | [_ ->]]; [by apply hostmask_not_mask in E|]. cbn [catch is_value_error].
  rewrite lxor_mask by lia. rewrite (prefix_of_mask V4) by (change (max_prefixlen V4) with 32; lia). cbn [catch].
  rewrite py_ret_bind, ip_int_from_prefix_mask by (change (max_prefixlen V4) with 32; lia).
  by rewrite address_new_int, py_ret_bind by (apply mask_range; change (max_prefixlen V4) with 32; lia).
Qed.

(** What the cache must hold: results of the computation it saves. *)
Definition cache_ok (v : version) (cache : netmask_cache) : Prop := Forall (fun '(arg, e) => netmask_entry v arg = Ret e) cache.

Lemma cache_get_ok v cache arg e : cache_ok v cache -> cache_get cache arg = Some e -> netmask_entry v arg = Ret e.
Proof.
  intros C. induction C as [|[k e'] cache H _ IH]; cbn [cache_get]; [done|]. destruct (decide (k = arg)) as [->|]; [|done]. by intros [= ->].
Qed.

Lemma netmask_cache_ok v cache arg : cache_ok v cache ->
  fst (make_netmask_cached v cache arg) = make_netmask v arg /\ cache_ok v (snd (make_netmask_cached v cache arg)).
Proof.
  intros C. rewrite make_netmask_entry. unfold make_netmask_cached. destruct (cache_get cache arg) as [e|] eqn:G.
  - split; [|done]. cbn. symmetry. by eapply cache_get_ok.
  - destruct (netmask_entry v arg) as [e| |] eqn:E; cbn; split; try done. apply Forall_app. split; [done|]. by apply Forall_singleton.
Qed.

(** netmasks: a prefix length gives its mask; in IPv4 the mask and the host
    mask, as dotted texts, are read as the same prefix length (the host masks
    of /0 and /32 are the masks of /32 and /0); every argument gives a prefix
    length in range with its mask, or [NetmaskValueError]; and what the class's
    cache holds never changes a result. *)
Theorem netmask_arguments v arg cache : cache_ok v cache ->
  (forall p, 0 <= p <= max_prefixlen v -> make_netmask v (MaskInt p) = Ret (Addr v (mask v p) None, p))
  /\ (forall p, 0 <= p <= 32 -> make_netmask V4 (MaskStr (dotted (mask V4 p))) = Ret (Addr V4 (mask V4 p) None, p))
  /\ (forall p, 0 < p < 32 -> make_netmask V4 (MaskStr (dotted (2 ^ (32 - p) - 1))) = Ret (Addr V4 (mask V4 p) None, p))
  /\ ((exists p, make_netmask v arg = Ret (Addr v (mask v p) None, p) /\ 0 <= p <= max_prefixlen v)
      \/ make_netmask v arg = Raise NetmaskValueError)
  /\ fst (make_netmask_cached v cache arg) = make_netmask v arg
  /\ cache_ok v (snd (make_netmask_cached v cache arg)).
Proof.
  intros C. split_and!.
  - intros p Hp. rewrite make_netmask_entry. by apply netmask_entry_int.
  - apply mask_text.
  - apply hostmask_text.
  - apply netmask_total.
  - by apply netmask_cache_ok.
  - by apply netmask_cache_ok.
Qed.

Lemma netmask_arguments_witness : make_netmask V4 (MaskStr (dotted (2 ^ (32 - 24) - 1))) = Ret (Addr V4 (mask V4 24) None, 24).
Proof.
  destruct (netmask_arguments V4 (MaskInt 24) [] ltac:(constructor)) as (_ & _ & H & _). apply (H 24). lia.
Defined.

(** * Networks, lemmas *)

Section networks.
Import Network.

Definition block_size (v : version) (p : Z) : Z := 2 ^ (max_prefixlen v - p).

(** What the constructor produces. *)
Record good_network (n : network) : Prop := {
  net_prefix : 0 <= prefixlen n <= max_prefixlen (version_ n);
  net_mask : netmask n = Addr (version_ n) (mask (version_ n) (prefixlen n)) None;
  net_address : good_address (network_address n);
  net_version : Address.version_ (network_address n) = version_ n;
  net_aligned : ip (network_address n) mod block_size (version_ n) (prefixlen n) = 0
}.
Definition first_ip (n : network) : Z := ip (network_address n).
Definition size (n : network) : Z := block_size (version_ n) (prefixlen n).
Definition last_ip (n : network) : Z := first_ip n + size n - 1.

Lemma block_pos v p : p <= max_prefixlen v -> 0 < block_size v p.
Proof. intros. apply Z.pow_pos_nonneg; lia. Qed.

Lemma block_divides v p : 0 <= p <= max_prefixlen v -> 2 ^ max_prefixlen v = block_size v p * 2 ^ p.
Proof. intros. unfold block_size. rewrite <- Z.pow_add_r by lia. f_equal. lia. Qed.

(** An aligned block ends inside the address space. *)
Lemma aligned_end v p x : 0 <= p <= max_prefixlen v -> 0 <= x <= ALL_ONES v -> x mod block_size v p = 0 -> x + block_size v p - 1 <= ALL_ONES v.
Proof.
  intros Hp Hx A. rewrite all_ones in *. pose proof (block_divides v p Hp) as D. pose proof (block_pos v p ltac:(lia)) as P.
  pose proof (Z.div_mod x (block_size v p) ltac:(lia)) as E. assert (x / block_size v p < 2 ^ p) by (apply Z.div_lt_upper_bound; lia). nia.
Qed.

Lemma split_arg_total v arg : (exists a m, split_addr_prefix v arg = Ret (a, m)) \/ split_addr_prefix v arg = Raise AddressValueError.
Proof.
  destruct arg as [[n|b|s]|a|a m]; cbn; eauto. unfold split_optional_netmask. destruct (_ >? 2) eqn:L; [by right|]. left. rewrite py_ret_bind.
  destruct (split 47 s) as [|a [|m [|x l]]] eqn:E; [by destruct (split_nonempty 47 s) | by eexists _, _ | by eexists _, _ |].
  exfalso. rewrite !zlen_cons in L. pose proof (zlen_nonneg l). lia.
Qed.

Definition good_narg (arg : network_arg) : Prop := match arg with Plain a | Tuple1 a | Tuple2 a _ => good_arg a end.

Lemma split_arg_good v arg a m : good_narg arg -> split_addr_prefix v arg = Ret (a, m) -> good_arg a.
Proof.
  destruct arg as [[n|b|s]|a'|a' m']; cbn; intros G E; simplify_eq; try done.
  unfold split_optional_netmask in E. destruct (_ >? 2); [done|]. rewrite py_ret_bind in E. destruct (split 47 s) as [|x [|y [|]]]; by simplify_eq.
Qed.

Definition plain_net (v : version) (x p : Z) : network := Net v (Addr v x None) (Addr v (mask v p) None) p.
Definition unscoped (n : network) : Prop := scope_id (network_address n) = None.

Lemma good_plain_net v x p : 0 <= p <= max_prefixlen v -> 0 <= x <= ALL_ONES v -> x mod block_size v p = 0 -> good_network (plain_net v x p).
Proof. intros. split; try done. split; [done|]. by destruct v. Qed.

Lemma plain_net_eq n : good_network n -> unscoped n -> n = plain_net (version_ n) (first_ip n) (prefixlen n).
Proof.
  intros [_ M _ V _] U. destruct n as [v [v' x s] m p]. unfold unscoped, plain_net, first_ip in *. cbn in *. by subst.
Qed.

Lemma land_block v p x : 0 <= p <= max_prefixlen v -> 0 <= x <= ALL_ONES v -> Z.land x (mask v p) = x - x mod block_size v p.
Proof. apply land_mask. Qed.

Lemma floor_block v p x : 0 <= p <= max_prefixlen v -> 0 <= x <= ALL_ONES v ->
  0 <= x - x mod block_size v p <= x /\ (x - x mod block_size v p) mod block_size v p = 0.
Proof.
  intros Hp Hx. pose proof (block_pos v p ltac:(lia)). pose proof (Z.mod_pos_bound x (block_size v p) ltac:(lia)).
  pose proof (Z.mod_le x (block_size v p) ltac:(lia) ltac:(lia)). split; [lia|].
  rewrite Zminus_mod_idemp_r, Z.sub_diag. by apply Z.mod_0_l; lia.
Qed.

Lemma network_new_int v x p strict : 0 <= p <= max_prefixlen v -> 0 <= x <= ALL_ONES v ->
  new v (Tuple2 (IntArg x) (MaskInt p)) strict =
    if x mod block_size v p =? 0 then Ret (plain_net v x p)
    else if strict then Raise ValueError else Ret (plain_net v (x - x mod block_size v p) p).
Proof.
  intros Hp Hx. unfold new. cbn [split_addr_prefix]. rewrite py_ret_bind, address_new_int, py_ret_bind by done.
  rewrite make_netmask_entry, netmask_entry_int, py_ret_bind by done. cbn [ip]. rewrite land_block by done.
  destruct (Z.eqb_spec (x mod block_size v p) 0) as [->|N]; [by rewrite Z.sub_0_r, Z.eqb_refl|].
  rewrite (proj2 (Z.eqb_neq _ _)) by lia. cbn [negb]. destruct strict; [done|].
  destruct (floor_block v p x Hp Hx). rewrite address_new_int by lia. by rewrite py_ret_bind.
Qed.

Definition network_error (strict : bool) (e : exn) : Prop :=
  e = AddressValueError \/ e = NetmaskValueError \/ (e = ValueError /\ strict = true).

Lemma network_new_total v arg strict : good_narg arg ->
  (exists n, new v arg strict = Ret n /\ good_network n /\ version_ n = v) \/ (exists e, new v arg strict = Raise e /\ network_error strict e).
Proof.
  intros G. unfold new. destruct (split_arg_total v arg) as [(a & m & E) | ->]; [|right; eexists; split; [done | by left]].
  rewrite E, py_ret_bind. destruct (address_new_total v a (split_arg_good v arg a m G E)) as [(x & -> & GX & V) | ->]; [|right; eexists; split; [done | by left]].
  rewrite py_ret_bind. destruct (netmask_total v m) as [(p & -> & Hp) | ->]; [|right; eexists; split; [done | right; by left]]. rewrite py_ret_bind. cbn [ip].
  pose proof GX as [R _]. rewrite V in R. rewrite land_block by done. destruct (floor_block v p (ip x) Hp R) as [F1 F2].
  destruct (Z.eqb_spec (ip x - ip x mod block_size v p) (ip x)) as [EQ|NE]; cbn [negb].
  - left. eexists. split; [done|]. split; [|done]. split; try done. change (ip x mod block_size v p = 0). lia.
  - destruct strict; [right; eexists; split; [done | right; by right]|]. left. rewrite address_new_int by lia. rewrite py_ret_bind. eexists. split; [done|].
    split; [|done]. apply good_plain_net; [done | lia | done].
Qed.

Lemma hostmask_ret n : good_network n -> hostmask n = Ret (Addr (version_ n) (size n - 1) None).
Proof.
  intros [P M _ _ _]. unfold hostmask. rewrite M. cbn [ip]. rewrite hostmask_mask by done. unfold size, block_size. apply address_new_int.
  pose proof (block_pos (version_ n) (prefixlen n) ltac:(lia)) as B. unfold block_size in B. rewrite all_ones.
  assert (2 ^ (max_prefixlen (version_ n) - prefixlen n) <= 2 ^ max_prefixlen (version_ n)) by (apply Z.pow_le_mono_r; lia). lia.
Qed.

Lemma net_range n : good_network n -> 0 <= first_ip n <= last_ip n /\ last_ip n <= ALL_ONES (version_ n) /\ 0 < size n.
Proof.
  intros [P _ A V AL]. pose proof (block_pos (version_ n) (prefixlen n) ltac:(lia)). destruct A as [R _]. rewrite V in R.
  pose proof (aligned_end _ _ _ P R AL). unfold last_ip, size, first_ip. lia.
Qed.

Lemma broadcast_ret n : good_network n -> broadcast_address n = Ret (Addr (version_ n) (last_ip n) None).
Proof.
  intros G. pose proof (net_range n G) as (R1 & R2 & R3). unfold broadcast_address. rewrite hostmask_ret, py_ret_bind by done. cbn [ip].
  destruct G as [P _ A V AL]. unfold size, block_size. rewrite lor_aligned; [|lia| |done].
  - rewrite address_new_int; [f_equal; f_equal; unfold last_ip, first_ip, size, block_size; lia|].
    unfold last_ip, first_ip, size, block_size in *. lia.
  - destruct A as [[R _] _]. done.
Qed.

Lemma contains_spec n a : good_network n -> good_address a -> contains n a = same_version (version_ n) (Address.version_ a) && (first_ip n <=? ip a) && (ip a <=? last_ip n).
Proof.
  intros G A. pose proof (net_range n G) as (R1 & R2 & R3). unfold contains. unfold same_version. case_bool_decide as V; [|done]. cbn [negb andb].
  pose proof G as [P M _ _ AL]. rewrite M. cbn [ip]. destruct A as [RA _]. rewrite <- V in RA. rewrite land_block by done.
  unfold last_ip, size in *. fold (first_ip n) in *. set (s := block_size (version_ n) (prefixlen n)) in *. set (f := first_ip n) in *. set (x := ip a) in *.
  pose proof (Z.div_mod f s ltac:(lia)) as DF. pose proof (Z.div_mod x s ltac:(lia)) as DX. pose proof (Z.mod_pos_bound x s ltac:(lia)).
  destruct (Z.leb_spec f x) as [L1|L1], (Z.leb_spec x (f + s - 1)) as [L2|L2]; cbn [andb]; [apply Z.eqb_eq | apply Z.eqb_neq; lia..].
  assert (x / s = f / s) by (symmetry; apply (Z.div_unique x s (f / s) (x - f)); [left; lia|]; lia). nia.
Qed.

(** ** Comparisons *)

Lemma plain_eqb v x y : Address.eqb (Addr v x None) (Addr v y None) = (x =? y).
Proof. unfold Address.eqb, base_eqb, same_version. cbn [ip Address.version_ scope_id]. rewrite bool_decide_eq_true_2, andb_true_r by done. destruct v; [done|]. by destruct (x =? y). Qed.
Lemma plain_lt v x y : Address.lt (Addr v x None) (Addr v y None) = Ret (x <? y).
Proof. unfold Address.lt, same_version. cbn [ip Address.version_]. rewrite bool_decide_eq_true_2 by done. cbn [negb]. zcase; cbn [negb]; f_equal; (done || lia). Qed.
Lemma plain_le v x y : Address.le (Addr v x None) (Addr v y None) = Ret (x <=? y).
Proof. unfold Address.le, le_from_lt. rewrite plain_lt, py_ret_bind, plain_eqb. f_equal. zcase; (done || lia). Qed.
Lemma plain_ge v x y : Address.ge (Addr v x None) (Addr v y None) = Ret (y <=? x).
Proof. unfold Address.ge, ge_from_lt. rewrite plain_lt, py_ret_bind. f_equal. zcase; (done || lia). Qed.
Lemma plain_gt v x y : Address.gt (Addr v x None) (Addr v y None) = Ret (y <? x).
Proof. unfold Address.gt, gt_from_lt. rewrite plain_lt, py_ret_bind, plain_eqb. f_equal. zcase; (done || lia). Qed.

Lemma unscoped_address n : good_network n -> unscoped n -> network_address n = Addr (version_ n) (first_ip n) None.
Proof. intros G U. rewrite (plain_net_eq n G U) at 1. done. Qed.

Lemma network_eqb_spec a b : good_network a -> good_network b -> unscoped a -> unscoped b -> version_ a = version_ b ->
  Network.eqb a b = (first_ip a =? first_ip b) && (prefixlen a =? prefixlen b).
Proof.
  intros A B UA UB V. unfold Network.eqb. rewrite (unscoped_address a A UA), (unscoped_address b B UB), V, plain_eqb. unfold same_version.
  rewrite bool_decide_eq_true_2 by done. cbn [andb]. f_equal. rewrite (net_mask a A), (net_mask b B), V. cbn [ip].
  pose proof (net_prefix a A). pose proof (net_prefix b B). rewrite V in *.
  destruct (Z.eqb_spec (prefixlen a) (prefixlen b)) as [->|N]; [apply Z.eqb_refl|]. apply Z.eqb_neq. intros E. by apply mask_inj in E.
Qed.

Lemma network_eqb_eq a b : good_network a -> good_network b -> unscoped a -> unscoped b -> version_ a = version_ b ->
  Network.eqb a b = true <-> a = b.
Proof.
  intros A B UA UB V. rewrite network_eqb_spec, andb_true_iff, !Z.eqb_eq by done. split; [|by intros ->]. intros [E1 E2].
  rewrite (plain_net_eq a A UA), (plain_net_eq b B UB). by rewrite V, E1, E2.
Qed.

Lemma mask_mono v p q : 0 <= p <= max_prefixlen v -> 0 <= q <= max_prefixlen v -> (mask v p <? mask v q) = (p <? q).
Proof.
  intros Hp Hq. unfold mask. destruct (Z.ltb_spec p q) as [L|L].
  - apply Z.ltb_lt. assert (2 ^ (max_prefixlen v - q) < 2 ^ (max_prefixlen v - p)) by (apply Z.pow_lt_mono_r; lia). lia.
  - apply Z.ltb_ge. assert (2 ^ (max_prefixlen v - p) <= 2 ^ (max_prefixlen v - q)) by (apply Z.pow_le_mono_r; lia). lia.
Qed.

Lemma network_lt_spec a b : good_network a -> good_network b -> unscoped a -> unscoped b -> version_ a = version_ b ->
  Network.lt a b = Ret ((first_ip a <? first_ip b) || (first_ip a =? first_ip b) && (prefixlen a <? prefixlen b)).
Proof.
  intros A B UA UB V. unfold Network.lt. rewrite (unscoped_address a A UA), (unscoped_address b B UB), V, plain_eqb, plain_lt. unfold same_version.
  rewrite bool_decide_eq_true_2 by done. cbn [negb]. pose proof (net_prefix a A) as PA. pose proof (net_prefix b B) as PB. rewrite V in PA.
  rewrite (net_mask a A), (net_mask b B), V, plain_eqb, plain_lt, mask_mono by done.
  destruct (Z.eqb_spec (first_ip a) (first_ip b)) as [E|N]; cbn [negb]; [|by rewrite orb_false_r].
  rewrite E, Z.ltb_irrefl. cbn [orb]. destruct (Z.eqb_spec (mask (version_ b) (prefixlen a)) (mask (version_ b) (prefixlen b))) as [M|M]; cbn [negb andb]; [|done].
  apply mask_inj in M; [|done|done]. by rewrite M, Z.ltb_irrefl.
Qed.

Definition within (a b : network) : Prop := first_ip b <= first_ip a /\ last_ip a <= last_ip b.
#[export] Instance within_dec a b : Decision (within a b).
Proof. unfold within. apply _. Defined.

Lemma subnet_of_spec a b : good_network a -> good_network b -> unscoped a -> unscoped b -> version_ a = version_ b ->
  is_subnet_of a b = Ret (bool_decide (within a b)).
Proof.
  intros A B UA UB V. unfold is_subnet_of. rewrite (unscoped_address a A UA), (unscoped_address b B UB), V, plain_le. unfold same_version.
  rewrite bool_decide_eq_true_2 by done. cbn [negb]. rewrite py_ret_bind, !broadcast_ret, !py_ret_bind, V, plain_ge by done. unfold within.
  destruct (Z.leb_spec (first_ip b) (first_ip a)), (Z.leb_spec (last_ip a) (last_ip b)); f_equal; symmetry;
    (apply bool_decide_eq_true_2; lia) || (apply bool_decide_eq_false_2; lia).
Qed.

Lemma overlaps_spec a b : good_network a -> good_network b ->
  overlaps a b = Ret (bool_decide (version_ a = version_ b /\ first_ip a <= last_ip b /\ first_ip b <= last_ip a)).
Proof.
  intros A B. pose proof (net_range a A) as (A1 & A2 & A3). pose proof (net_range b B) as (B1 & B2 & B3).
  assert (GA : good_address (Addr (version_ a) (last_ip a) None)) by (split; [cbn; lia | by destruct (version_ a)]).
  assert (GB : good_address (Addr (version_ b) (last_ip b) None)) by (split; [cbn; lia | by destruct (version_ b)]).
  unfold overlaps. rewrite !broadcast_ret, !py_ret_bind by done.
  rewrite !contains_spec by (done || apply A || apply B). cbn [Address.version_ ip]. rewrite (net_version a A), (net_version b B). fold (first_ip a) (first_ip b).
  unfold same_version. rewrite (bool_decide_ext (version_ b = version_ a) (version_ a = version_ b)) by (split; congruence).
  case_bool_decide as V; cbn [andb].
  - destruct ((first_ip b <=? first_ip a) && (first_ip a <=? last_ip b)) eqn:E1; [f_equal; symmetry; apply bool_decide_eq_true_2; (split; [done|lia])|].
    destruct ((first_ip b <=? last_ip a) && (last_ip a <=? last_ip b)) eqn:E2; [f_equal; symmetry; apply bool_decide_eq_true_2; (split; [done|lia])|].
    destruct ((first_ip a <=? first_ip b) && (first_ip b <=? last_ip a)) eqn:E3; [f_equal; symmetry; apply bool_decide_eq_true_2; (split; [done|lia])|].
    f_equal. symmetry. case_bool_decide as X; lia.
  - f_equal. symmetry. apply bool_decide_eq_false_2. tauto.
Qed.

(** ** Subnets and supernets *)

Lemma block_split v p d : 0 <= d -> p + d <= max_prefixlen v -> block_size v p = 2 ^ d * block_size v (p + d).
Proof. intros. unfold block_size. rewrite <- Z.pow_add_r by lia. f_equal. lia. Qed.

Lemma aligned_finer v p d x : 0 <= d -> p + d <= max_prefixlen v -> x mod block_size v p = 0 -> x mod block_size v (p + d) = 0.
Proof.
  intros Hd Hp A. pose proof (block_pos v (p + d) ltac:(lia)). pose proof (block_pos v p ltac:(lia)). rewrite (block_split v p d) in A by lia.
  apply Z.mod_divide in A; [|rewrite <- block_split by lia; lia]. apply Z.mod_divide; [lia|]. eapply Z.divide_trans; [|exact A]. by apply Z.divide_factor_r.
Qed.

(** The [i]th subnet of the new length. *)
Definition sub_net (n : network) (d i : Z) : network :=
  plain_net (version_ n) (first_ip n + i * block_size (version_ n) (prefixlen n + d)) (prefixlen n + d).

Lemma sub_net_good n d i : good_network n -> 0 <= d -> prefixlen n + d <= max_prefixlen (version_ n) -> 0 <= i < 2 ^ d ->
  good_network (sub_net n d i) /\ unscoped (sub_net n d i) /\ version_ (sub_net n d i) = version_ n
  /\ first_ip (sub_net n d i) = first_ip n + i * block_size (version_ n) (prefixlen n + d)
  /\ last_ip (sub_net n d i) + 1 = first_ip n + (i + 1) * block_size (version_ n) (prefixlen n + d)
  /\ last_ip (sub_net n d i) <= last_ip n.
Proof.
  intros G Hd Hp Hi. pose proof (net_range n G) as (R1 & R2 & R3). pose proof (net_prefix n G).
  pose proof (block_pos (version_ n) (prefixlen n + d) ltac:(lia)) as P. pose proof (block_split (version_ n) (prefixlen n) d Hd Hp) as S.
  unfold last_ip, size in *. rewrite S in R1, R2. set (b := block_size (version_ n) (prefixlen n + d)) in *. assert (i * b + b <= 2 ^ d * b) by nia.
  split; [|unfold sub_net, unscoped, first_ip; cbn; unfold last_ip, size; fold b; split_and!; (done || lia)].
  apply good_plain_net; [lia | split; nia |]. fold b. rewrite Z.mod_add by lia. apply aligned_finer; [done..|]. exact (net_aligned n G).
Qed.

Lemma subnets_spec n d : good_network n -> 0 <= d -> prefixlen n + d <= max_prefixlen (version_ n) -> prefixlen n < max_prefixlen (version_ n) ->
  subnets n d None = Ret (sub_net n d <$> pyrange 0 (2 ^ d)).
Proof.
  intros G Hd Hp Hlt. pose proof (net_prefix n G). unfold subnets. rewrite (proj2 (Z.eqb_neq _ _)) by lia. rewrite py_ret_bind.
  rewrite (proj2 (Z.ltb_ge d 0)), Z.gtb_ltb, (proj2 (Z.ltb_ge _ _)) by lia. rewrite broadcast_ret, py_ret_bind, hostmask_ret, py_ret_bind by done.
  cbn [ip]. pose proof (block_pos (version_ n) (prefixlen n + d) ltac:(lia)) as P. pose proof (block_split (version_ n) (prefixlen n) d Hd Hp) as S.
  replace (size n - 1 + 1) with (size n) by lia. unfold size. rewrite S, Z.mul_comm, Z.shiftr_div_pow2, Z.div_mul by lia.
  set (b := block_size (version_ n) (prefixlen n + d)) in *. unfold range_step. fold (first_ip n).
  replace (last_ip n + 1 - first_ip n + b - 1) with (b - 1 + 2 ^ d * b) by (unfold last_ip, size, first_ip; rewrite S; lia).
  rewrite Z.div_add, Z.div_small by lia. rewrite Z.add_0_l.
  assert (M : forall l, Forall (fun i => 0 <= i < 2 ^ d) l ->
    mapM_py (fun new_addr => new (version_ n) (Tuple2 (IntArg new_addr) (MaskInt (prefixlen n + d))) true) ((fun i => first_ip n + i * b) <$> l)
    = Ret (sub_net n d <$> l)).
  { induction 1 as [|i l Hi _ IH]; [done|]. rewrite !fmap_cons. cbn [mapM_py]. cbv beta in Hi.
    destruct (sub_net_good n d i G Hd Hp Hi) as (GS & _ & _ & F & _). pose proof (net_range _ GS) as (X1 & X2 & _). rewrite F in X1. fold b in X1.
    pose proof (net_aligned _ GS) as AL. change (ip (network_address (sub_net n d i))) with (first_ip n + i * b) in AL.
    rewrite network_new_int; [|lia| cbn [version_ sub_net plain_net] in X2; lia].
    rewrite (AL : (first_ip n + i * b) mod block_size (version_ n) (prefixlen n + d) = 0). cbn [Z.eqb].
    rewrite py_ret_bind, IH, py_ret_bind. done. }
  apply M. apply Forall_forall. intros i Hi. by apply elem_of_pyrange in Hi.
Qed.

Lemma halves_spec n : good_network n -> prefixlen n < max_prefixlen (version_ n) -> halves n = Ret (sub_net n 1 0, sub_net n 1 1).
Proof. intros G H. unfold halves. rewrite subnets_spec by (done || lia). done. Qed.

(** The block of a shorter prefix around the network. *)
Definition super_net (n : network) (d : Z) : network :=
  plain_net (version_ n) (first_ip n - first_ip n mod block_size (version_ n) (prefixlen n - d)) (prefixlen n - d).

Lemma supernet_spec n d : good_network n -> 0 <= d <= prefixlen n -> prefixlen n <> 0 -> supernet n d None = Ret (super_net n d).
Proof.
  intros G Hd H0. pose proof (net_prefix n G) as P. pose proof (net_range n G) as (R1 & R2 & R3). unfold supernet.
  rewrite (proj2 (Z.eqb_neq _ 0)) by done. rewrite py_ret_bind, !(proj2 (Z.ltb_ge _ 0)) by lia. rewrite (net_mask n G). cbn [ip].
  set (v := version_ n) in *. set (p := prefixlen n) in *.
  assert (E : Z.shiftl (mask v p) d = 2 ^ (max_prefixlen v + d) - 2 ^ (max_prefixlen v - (p - d))).
  { rewrite Z.shiftl_mul_pow2 by lia. unfold mask. replace (max_prefixlen v - (p - d)) with (max_prefixlen v - p + d) by lia.
    rewrite !Z.pow_add_r by lia. lia. }
  rewrite all_ones in R2. assert (2 ^ max_prefixlen v <= 2 ^ (max_prefixlen v + d)) by (apply Z.pow_le_mono_r; lia).
  rewrite E, land_top; [|lia | fold (first_ip n); lia]. fold (block_size v (p - d)) (first_ip n).
  destruct (floor_block v (p - d) (first_ip n) ltac:(lia) ltac:(rewrite all_ones; lia)) as [F1 F2].
  rewrite network_new_int, F2 by (rewrite ?all_ones; lia). done.
Qed.

Lemma super_net_good n d : good_network n -> 0 <= d <= prefixlen n ->
  good_network (super_net n d) /\ unscoped (super_net n d) /\ version_ (super_net n d) = version_ n /\ within n (super_net n d).
Proof.
  intros G Hd. pose proof (net_prefix n G) as P. pose proof (net_range n G) as (R1 & R2 & R3). set (v := version_ n) in *. set (p := prefixlen n) in *.
  destruct (floor_block v (p - d) (first_ip n) ltac:(lia) ltac:(lia)) as [F1 F2].
  assert (GS : good_network (super_net n d)) by (apply good_plain_net; [fold v p; lia | fold v p; lia | exact F2]).
  split; [done|]. split; [done|]. split; [done|]. unfold within.
  change (first_ip (super_net n d)) with (first_ip n - first_ip n mod block_size v (p - d)). split; [lia|]. unfold last_ip.
  change (first_ip (super_net n d)) with (first_ip n - first_ip n mod block_size v (p - d)).
  change (size (super_net n d)) with (block_size v (p - d)). change (size n) with (block_size v p).
  pose proof (block_split v (p - d) d ltac:(lia) ltac:(lia)) as S. replace (p - d + d) with p in S by lia. rewrite S.
  pose proof (block_pos v p ltac:(lia)) as B. set (b := block_size v p) in *.
  pose proof (net_aligned n G) as AL. change (first_ip n mod b = 0) in AL. pose proof (Z.pow_pos_nonneg 2 d ltac:(lia) ltac:(lia)).
  pose proof (Z.div_mod (first_ip n) b ltac:(lia)) as D. rewrite AL in D.
  assert (M : first_ip n mod (2 ^ d * b) = ((first_ip n / b) mod 2 ^ d) * b).
  { rewrite D at 1. rewrite Z.add_0_r, (Z.mul_comm b), Z.mul_mod_distr_r by lia. done. }
  rewrite M. pose proof (Z.mod_pos_bound (first_ip n / b) (2 ^ d) ltac:(lia)). nia.
Qed.

(** ** Texts *)

Lemma prefix_text v p : 0 <= p <= max_prefixlen v -> prefix_from_prefix_string v (fmt_int p) = Ret p /\ 47 ∉ fmt_int p.
Proof.
  intros H. assert (T : is_ret Z.eqb (prefix_from_prefix_string v (fmt_int p)) p && negb (existsb (Z.eqb 47) (fmt_int p)) = true).
  { assert (R : 0 <= p < max_prefixlen v + 1) by lia. clear H. revert p R. destruct v; apply range_cases; vm_compute; reflexivity. }
  apply andb_true_iff in T as [T1 T2]. split; [by apply is_ret_Z|]. apply absent_check. by destruct (existsb _ _).
Qed.

Lemma network_str_parses n : good_network n -> exists t, str n = Ret t /\ new (version_ n) (Plain (StrArg t)) true = Ret n.
Proof.
  intros G. pose proof G as [P M A V AL]. destruct (str_parses (network_address n) A) as (t & S & N). destruct (prefix_text _ _ P) as [PT NS].
  exists (t ++ [47] ++ fmt_int (prefixlen n)). unfold str. rewrite S, py_ret_bind. split; [done|].
  assert (N47 : 47 ∉ t).
  { apply absent_check. destruct (existsb (Z.eqb 47) t) eqn:E; [|done]. exfalso. rewrite V in N. destruct (version_ n); cbn [Address.new ipv4_new] in N; by rewrite E in N. }
  unfold new. cbn [split_addr_prefix]. unfold split_optional_netmask. change ([47] ++ fmt_int (prefixlen n)) with (47 :: fmt_int (prefixlen n)).
  rewrite split_cons_sep, (split_no_sep 47 (fmt_int _)) by done. change (zlen [t; fmt_int (prefixlen n)] >? 2) with false. cbv iota. do 2 rewrite py_ret_bind.
  rewrite V in N. rewrite N, py_ret_bind, make_netmask_entry. unfold netmask_entry. rewrite PT.
  replace (match version_ n with V4 => _ | V6 => Ret (prefixlen n) end) with (@Ret Z (prefixlen n)) by (by destruct (version_ n)).
  rewrite py_ret_bind, ip_int_from_prefix_mask, address_new_int, py_ret_bind, py_ret_bind by (done || by apply mask_range). cbn [ip].
  destruct A as [R _]. rewrite V in R. rewrite land_block, AL, Z.sub_0_r, Z.eqb_refl by done. cbn [negb]. destruct n. cbn in *. by rewrite M.
Qed.

(** ** Exclusion *)

(** How many networks of a list an address is in. *)
Definition hits (x : Z) (l : list network) : Z :=
  foldr (fun n acc => (if (first_ip n <=? x) && (x <=? last_ip n) then 1 else 0) + acc) 0 l.

Lemma hits_cons x n l : hits x (n :: l) = (if (first_ip n <=? x) && (x <=? last_ip n) then 1 else 0) + hits x l.
Proof. done. Qed.

Lemma halves_hits n x : good_network n -> prefixlen n < max_prefixlen (version_ n) -> hits x [sub_net n 1 0; sub_net n 1 1] = hits x [n].
Proof.
  intros G H. pose proof (net_prefix n G). destruct (sub_net_good n 1 0 G) as (_ & _ & _ & F0 & L0 & _); [lia..|].
  destruct (sub_net_good n 1 1 G) as (_ & _ & _ & F1 & L1 & _); [lia..|].
  pose proof (block_split (version_ n) (prefixlen n) 1 ltac:(lia) ltac:(lia)) as S. pose proof (block_pos (version_ n) (prefixlen n + 1) ltac:(lia)).
  unfold hits. cbn [foldr]. unfold last_ip at 3. unfold size. rewrite S. set (b := block_size (version_ n) (prefixlen n + 1)) in *.
  change (2 ^ 1) with 2. zcase; cbn [andb]; lia.
Qed.

(** A network inside another is the whole of it or has a longer prefix. *)
Lemma within_prefix a n : good_network a -> good_network n -> version_ a = version_ n -> within a n ->
  prefixlen n < prefixlen a \/ (prefixlen n = prefixlen a /\ first_ip a = first_ip n).
Proof.
  intros A G V [W1 W2]. pose proof (net_prefix a A) as PA. pose proof (net_prefix n G) as PN. rewrite V in PA. unfold last_ip, size in *. rewrite V in W2.
  destruct (Z.lt_trichotomy (prefixlen n) (prefixlen a)) as [L|[E|L]]; [by left| |].
  - right. rewrite E in *. split; [done|lia].
  - exfalso. assert (block_size (version_ n) (prefixlen n) < block_size (version_ n) (prefixlen a)) by (apply Z.pow_lt_mono_r; lia). lia.
Qed.

(** A smaller network inside one is inside one of its halves. *)
Lemma within_half a n : good_network a -> good_network n -> version_ a = version_ n -> within a n -> prefixlen n < prefixlen a ->
  within a (sub_net n 1 0) \/ (within a (sub_net n 1 1) /\ ~ within a (sub_net n 1 0)).
Proof.
  intros A G V [W1 W2] L. pose proof (net_prefix a A) as PA. pose proof (net_prefix n G) as PN. rewrite V in PA.
  destruct (sub_net_good n 1 0 G) as (_ & _ & _ & F0 & L0 & _); [lia..|]. destruct (sub_net_good n 1 1 G) as (_ & _ & _ & F1 & L1 & _); [lia..|].
  pose proof (block_split (version_ n) (prefixlen n) 1 ltac:(lia) ltac:(lia)) as S.
  pose proof (block_split (version_ n) (prefixlen n + 1) (prefixlen a - (prefixlen n + 1)) ltac:(lia) ltac:(lia)) as SA.
  replace (prefixlen n + 1 + (prefixlen a - (prefixlen n + 1))) with (prefixlen a) in SA by lia.
  pose proof (net_aligned a A) as ALA. pose proof (net_aligned n G) as ALN. rewrite V in ALA. fold (first_ip a) in ALA. fold (first_ip n) in ALN.
  pose proof (block_pos (version_ n) (prefixlen a) ltac:(lia)) as BA. pose proof (block_pos (version_ n) (prefixlen n) ltac:(lia)) as BN.
  unfold within, last_ip, size in *. rewrite V in *. rewrite F0, F1 in *. change (block_size (version_ (sub_net n 1 0)) (prefixlen (sub_net n 1 0))) with (block_size (version_ n) (prefixlen n + 1)) in *.
  change (block_size (version_ (sub_net n 1 1)) (prefixlen (sub_net n 1 1))) with (block_size (version_ n) (prefixlen n + 1)) in *.
  set (ba := block_size (version_ n) (prefixlen a)) in *. set (b := block_size (version_ n) (prefixlen n + 1)) in *. set (k := 2 ^ _) in SA.
  change (2 ^ 1) with 2 in S. rewrite S in *.
  pose proof (Z.div_mod (first_ip a) ba ltac:(lia)) as DA. rewrite ALA in DA.
  pose proof (Z.div_mod (first_ip n) (2 * b) ltac:(lia)) as DN. rewrite ALN in DN. set (qa := first_ip a / ba) in *. set (qn := first_ip n / (2 * b)) in *.
  destruct (decide (first_ip a < first_ip n + b)) as [H|H].
  - left. split; [lia|]. assert (ba * qa < ba * (2 * k * qn + k)) by (rewrite SA in *; nia). assert (qa < 2 * k * qn + k) by nia. rewrite SA in *. nia.
  - right. split; [split; [lia|]; lia|]. lia.
Qed.

Definition proper (v : version) (n : network) : Prop := good_network n /\ unscoped n /\ version_ n = v.

Lemma half_proper n i : good_network n -> prefixlen n < max_prefixlen (version_ n) -> 0 <= i < 2 -> proper (version_ n) (sub_net n 1 i).
Proof. intros G H Hi. pose proof (net_prefix n G). destruct (sub_net_good n 1 i G) as (? & ? & ? & _); [lia | lia | change (2 ^ 1) with 2; lia | done]. Qed.

(** Inside a network that is not the same, the prefix is longer. *)
Lemma within_other v a n : proper v a -> proper v n -> within a n -> Network.eqb n a = false -> prefixlen n < prefixlen a.
Proof.
  intros (A & UA & VA) (G & UG & VG) W E. rewrite network_eqb_spec in E by (done || congruence).
  destruct (within_prefix a n A G ltac:(congruence) W) as [|[P F]]; [done|]. lia.
Qed.

Lemma exclude_loop_spec fuel v n other : proper v n -> proper v other -> within other n -> prefixlen n < prefixlen other ->
  (Z.to_nat (prefixlen other - prefixlen n) <= fuel)%nat ->
  exists l, exclude_loop fuel (sub_net n 1 0) (sub_net n 1 1) other = Ret l /\ Forall (proper v) l /\ forall x, hits x (other :: l) = hits x [n].
Proof.
  revert n. induction fuel as [|fuel IH]; intros n PN PO W L F; [lia|]. pose proof PN as (G & UN & VN). pose proof PO as (O & UO & VO).
  assert (H : prefixlen n < max_prefixlen (version_ n)) by (pose proof (net_prefix other O) as X; rewrite VO, <- VN in X; lia).
  pose proof (half_proper n 0 G H ltac:(lia)) as P1. pose proof (half_proper n 1 G H ltac:(lia)) as P2. rewrite VN in P1, P2.
  pose proof (fun x => halves_hits n x G H) as HH. unfold exclude_loop. fold exclude_loop.
  set (s1 := sub_net n 1 0) in *. set (s2 := sub_net n 1 1) in *.
  assert (E1 : prefixlen s1 = prefixlen n + 1) by done. assert (E2 : prefixlen s2 = prefixlen n + 1) by done.
  pose proof P1 as (G1 & U1 & V1). pose proof P2 as (G2 & U2 & V2).
  destruct (Network.eqb s1 other) eqn:Q1.
  { apply network_eqb_eq in Q1; [|done..|congruence]. exists [s2]. split; [done|]. split; [by constructor|]. intros x. by rewrite <- HH, <- Q1. }
  destruct (Network.eqb s2 other) eqn:Q2.
  { apply network_eqb_eq in Q2; [|done..|congruence]. exists [s1]. split; [done|]. split; [by constructor|]. intros x. rewrite <- HH, <- Q2, !hits_cons. lia. }
  unfold subnet_of. rewrite !subnet_of_spec, !py_ret_bind by (done || congruence).
  assert (R : forall s t, proper v s -> proper v t -> prefixlen s = prefixlen n + 1 -> Network.eqb s other = false -> within other s ->
    (forall x, hits x [s; t] = hits x [n]) ->
    exists l, ('(t1, t2) ← halves s; rest ← exclude_loop fuel t1 t2 other; Ret (t :: rest)) = Ret l
      /\ Forall (proper v) l /\ forall x, hits x (other :: l) = hits x [n]).
  { intros s t PS PT ES QS WS HST. pose proof PS as (GS & _ & VS). pose proof (within_other v other s PO PS WS QS) as LT.
    rewrite halves_spec, py_ret_bind; [|done | pose proof (net_prefix other O) as X; rewrite VO, <- VS in X; lia].
    destruct (IH s PS PO WS LT ltac:(lia)) as (l & -> & FL & HL). rewrite py_ret_bind. exists (t :: l). split; [done|]. split; [by constructor|].
    intros x. specialize (HL x). specialize (HST x). rewrite !hits_cons in *. lia. }
  case_bool_decide as W1; [apply (R s1 s2); done|]. case_bool_decide as W2.
  - apply (R s2 s1); try done. intros x. rewrite <- HH, !hits_cons. lia.
  - exfalso. destruct (within_half other n O G ltac:(congruence) W L) as [? | [? _]]; done.
Qed.

Lemma address_exclude_spec v self other : proper v self -> proper v other ->
  address_exclude self other = Raise ValueError /\ ~ within other self
  \/ exists l, address_exclude self other = Ret l /\ within other self /\ Forall (proper v) l /\ forall x, hits x (other :: l) = hits x [self].
Proof.
  intros PS PO. pose proof PS as (G & U & V). pose proof PO as (O & UO & VO). unfold address_exclude, subnet_of. unfold same_version.
  rewrite bool_decide_eq_true_2 by congruence. cbn [negb]. rewrite subnet_of_spec, py_ret_bind by (done || congruence).
  case_bool_decide as W; [right; cbn [negb] | by left]. destruct (Network.eqb other self) eqn:E.
  { apply network_eqb_eq in E; [|done..|congruence]. exists []. rewrite E. split; [done|]. split; [done|]. split; [constructor | done]. }
  destruct (network_str_parses other O) as (t & -> & N). rewrite py_ret_bind, N, py_ret_bind.
  assert (L : prefixlen self < prefixlen other).
  { apply (within_other v other self PO PS W). destruct (Network.eqb self other) eqn:X; [|done].
    apply network_eqb_eq in X; [|done..|congruence]. subst. rewrite <- E. symmetry. by apply network_eqb_eq. }
  pose proof (net_prefix other O) as X. pose proof (net_prefix self G) as Y. rewrite halves_spec, py_ret_bind by (done || rewrite VO, <- V in X; lia).
  destruct (exclude_loop_spec (exclude_fuel (version_ self)) v self other PS PO W L) as (l & -> & FL & HL); [|by exists l].
  unfold exclude_fuel. rewrite VO, <- V in X. lia.
Qed.
(** ** Networks with a scope *)

Definition scoped (n : network) : Prop := scope_id (network_address n) <> None.

Lemma scoped_version n : good_network n -> scoped n -> version_ n = V6.
Proof. intros G S. pose proof (address_scope _ (net_address n G)) as A. rewrite (net_version n G) in A. by destruct (version_ n). Qed.

Lemma scopes_differ a b : Address.version_ a = V6 -> scope_id a <> scope_id b -> Address.eqb a b = false.
Proof.
  intros V N. unfold Address.eqb. rewrite V. destruct (base_eqb a b); [cbn [negb]|done]. destruct (scope_id a) as [x|], (scope_id b) as [y|]; cbn; try done. apply not_true_iff_false. intros E. apply zeqb_list_eq in E. congruence.
Qed.
Lemma networks_differ a b : good_network a -> version_ a = V6 -> scope_id (network_address a) <> scope_id (network_address b) -> Network.eqb a b = false.
Proof. intros A V N. unfold Network.eqb. rewrite scopes_differ; [by rewrite andb_false_r | by rewrite (net_version a A) | done]. Qed.

Lemma subnet_of_scoped a b : good_network a -> good_network b -> scoped a -> unscoped b -> version_ a = version_ b ->
  is_subnet_of a b = Ret (bool_decide (within a b /\ first_ip a <> first_ip b)).
Proof.
  intros A B SA UB V. pose proof (scoped_version a A SA) as V6a. unfold is_subnet_of, same_version. rewrite bool_decide_eq_true_2 by done. cbn [negb].
  assert (LE : Address.le (network_address b) (network_address a) = Ret (first_ip b <? first_ip a)).
  { unfold Address.le, le_from_lt. rewrite scopes_differ; [|rewrite (net_version b B); congruence | unfold scoped, unscoped in *; congruence]. unfold Address.lt, same_version. rewrite (net_version a A), (net_version b B), bool_decide_eq_true_2 by done. cbn [negb]. fold (first_ip a) (first_ip b).
    destruct (Z.eqb_spec (first_ip b) (first_ip a)) as [E|E]; cbn [negb mbind py_bind]; rewrite orb_false_r; [|done]. rewrite E. by rewrite Z.ltb_irrefl. }
  rewrite LE, py_ret_bind. unfold within. destruct (Z.ltb_spec (first_ip b) (first_ip a)) as [L|L]; [|f_equal; symmetry; apply bool_decide_eq_false_2; lia].
  rewrite !broadcast_ret, !py_ret_bind, V, plain_ge by done. f_equal. destruct (Z.leb_spec (last_ip a) (last_ip b)); symmetry; (apply bool_decide_eq_true_2; lia) || (apply bool_decide_eq_false_2; lia).
Qed.

Lemma scoped_loop fuel other : good_network other -> scoped other -> forall n, proper V6 n -> within other n -> first_ip n < first_ip other -> (Z.to_nat (prefixlen other - prefixlen n) <= fuel)%nat ->
  exclude_loop fuel (sub_net n 1 0) (sub_net n 1 1) other = Raise AssertionError.
Proof.
  intros O SO. pose proof (scoped_version other O SO) as VO. induction fuel as [|fuel IH]; intros n PN W L F; pose proof PN as (G & UN & VN).
  { destruct (within_prefix other n O G ltac:(congruence) W) as [|[_ ?]]; lia. }
  assert (LP : prefixlen n < prefixlen other) by (destruct (within_prefix other n O G ltac:(congruence) W) as [|[_ ?]]; lia).
  assert (H : prefixlen n < max_prefixlen (version_ n)) by (pose proof (net_prefix other O) as X; rewrite VO in X; rewrite VN; lia).
  pose proof (half_proper n 0 G H ltac:(lia)) as P1. pose proof (half_proper n 1 G H ltac:(lia)) as P2. rewrite VN in P1, P2. destruct (sub_net_good n 1 0 G) as (_ & _ & _ & F0 & _); [lia..|].
  unfold exclude_loop. fold exclude_loop. set (s1 := sub_net n 1 0) in *. set (s2 := sub_net n 1 1) in *. assert (E1 : prefixlen s1 = prefixlen n + 1) by done. assert (E2 : prefixlen s2 = prefixlen n + 1) by done.
  pose proof P1 as (G1 & U1 & V1). pose proof P2 as (G2 & U2 & V2). rewrite !networks_differ by (done || unfold scoped, unscoped in *; congruence). unfold subnet_of. rewrite !subnet_of_scoped, !py_ret_bind by (done || congruence).
  assert (R : forall s t, proper V6 s -> prefixlen s = prefixlen n + 1 -> within other s -> first_ip other <> first_ip s -> ('(t1, t2) ← halves s; rest ← exclude_loop fuel t1 t2 other; Ret (t :: rest)) = Raise AssertionError).
  { intros s t PS ES WS NS. pose proof PS as (GS & _ & VS). assert (LS : first_ip s < first_ip other) by (destruct WS; lia). assert (LT : prefixlen s < prefixlen other) by (destruct (within_prefix other s O GS ltac:(congruence) WS) as [|[_ ?]]; lia).
    rewrite halves_spec, py_ret_bind; [|done | pose proof (net_prefix other O) as X; rewrite VO, <- VS in X; lia]. by rewrite (IH s PS WS LS ltac:(lia)). }
  case_bool_decide as W1; [apply R; tauto|]. case_bool_decide as W2; [apply R; tauto|]. done.
Qed.

Lemma scoped_exclude self other : proper V6 self -> good_network other -> scoped other -> within other self ->
  address_exclude self other = Raise (if first_ip other =? first_ip self then ValueError else AssertionError).
Proof.
  intros PS O SO W. pose proof PS as (G & U & V). pose proof (scoped_version other O SO) as VO. unfold address_exclude, subnet_of, same_version. rewrite bool_decide_eq_true_2 by congruence. cbn [negb]. rewrite subnet_of_scoped, py_ret_bind by (done || congruence).
  destruct (Z.eqb_spec (first_ip other) (first_ip self)) as [E|N]; [rewrite bool_decide_eq_false_2 by tauto; done|]. rewrite bool_decide_eq_true_2 by done. cbn [negb]. rewrite networks_differ by (done || unfold scoped, unscoped in *; congruence).
  destruct (network_str_parses other O) as (t & -> & NW). rewrite py_ret_bind, NW, py_ret_bind. assert (LP : prefixlen self < prefixlen other) by (destruct (within_prefix other self O G ltac:(congruence) W) as [|[_ ?]]; [done | lia]).
  pose proof (net_prefix other O) as X. pose proof (net_prefix self G) as Y. rewrite VO in X. rewrite halves_spec, py_ret_bind by (done || rewrite V; lia). apply scoped_loop; [done | done | done | done | destruct W; lia|]. unfold exclude_fuel. rewrite V in *. lia.
Qed.
End networks.

(** * The registries, lemmas *)

Section registries.
Import Network Registry.

Definition nets_of (m : py (list network)) : list network := match m with Ret l => l | _ => [] end.

Lemma registry_good v ss l : mapM_py (fun s => new v (Plain (StrArg (lit s))) true) ss = Ret l -> Forall good_network l.
Proof.
  revert l. induction ss as [|s ss IH]; intros l E; cbn [mapM_py] in E; [by simplify_eq|].
  destruct (network_new_total v (Plain (StrArg (lit s))) true I) as [(n & N & G & _) | (e & N & _)]; rewrite N in E; [|done]. rewrite py_ret_bind in E.
  apply bind_ret_inv in E as (t & T & E). simplify_eq. constructor; [done | by apply IH].
Qed.

Lemma private4_ok : private_networks4 = Ret (nets_of private_networks4) /\ Forall good_network (nets_of private_networks4)
  /\ private_networks_exceptions4 = Ret (nets_of private_networks_exceptions4).
Proof.
  assert (E : private_networks4 = Ret (nets_of private_networks4)) by (vm_compute; reflexivity).
  split; [done|]. split; [exact (registry_good V4 _ _ E) | vm_compute; reflexivity].
Qed.

(** The shared address space, 100.64.0.0/10. *)
Definition shared4 (x : Z) : bool := between 1681915904 x 1686110207.

Lemma public_network4_ok : exists n, public_network4 = Ret n /\ good_network n /\ version_ n = V4 /\ first_ip n = 1681915904 /\ last_ip n = 1686110207.
Proof.
  destruct (network_new_total V4 (Plain (StrArg (lit "100.64.0.0/10"))) true I) as [(n & N & G & V) | (e & N & _)]; [|vm_compute in N; congruence].
  exists n. split; [done|]. split; [done|]. split; [done|]. vm_compute in N. injection N as <-. split; vm_compute; reflexivity.
Qed.

Lemma private4_apart n : n ∈ nets_of private_networks4 -> last_ip n < 1681915904 \/ 1686110207 < first_ip n.
Proof.
  assert (T : forallb (fun n => (last_ip n <? 1681915904) || (1686110207 <? first_ip n)) (nets_of private_networks4) = true) by (vm_compute; reflexivity).
  intros H. rewrite forallb_forall in T. apply list_elem_of_In, T in H. lia.
Qed.

Lemma is_private4_ret a : exists p, is_private4 a = Ret p /\ (good_address a -> Address.version_ a = V4 -> shared4 (ip a) = true -> p = false).
Proof.
  destruct private4_ok as (E & F & E'). unfold is_private4, in_any. rewrite E, E'. do 4 rewrite py_ret_bind. eexists. split; [done|].
  intros G V S. apply andb_false_iff. left. apply Bool.not_true_iff_false. intros X. apply existsb_exists in X as (n & Hn & C). apply list_elem_of_In in Hn.
  rewrite Forall_forall in F. rewrite contains_spec in C by auto. pose proof (private4_apart n Hn). unfold shared4, between in S. lia.
Qed.

Lemma global4_spec a : good_address a -> Address.version_ a = V4 ->
  exists p g, is_private4 a = Ret p /\ is_global4 a = Ret g /\ (if shared4 (ip a) then p = false /\ g = false else g = negb p).
Proof.
  intros G V. destruct (is_private4_ret a) as (p & P & S). unfold is_global4, in_one. destruct public_network4_ok as (n & -> & GN & VN & F & L).
  do 2 rewrite py_ret_bind. rewrite contains_spec, V, VN, F, L, P by done. change (same_version V4 V4) with true. cbn [andb]. unfold shared4, between in *.
  destruct ((1681915904 <=? ip a) && (ip a <=? 1686110207)) eqn:E; [exists p, false; auto|]. rewrite py_ret_bind. by exists p, (negb p).
Qed.

(** The IPv4 address that decides: an IPv4 address itself, or the one mapped. *)
Definition decisive (a : address) : option Z := match Address.version_ a with V4 => Some (ip a) | V6 => ipv4_mapped a end.

Lemma global_spec a : good_address a ->
  exists p g, is_private a = Ret p /\ is_global a = Ret g
    /\ if match decisive a with Some x => shared4 x | None => false end then p = false /\ g = false else g = negb p.
Proof.
  intros G. unfold is_private, is_global, by_version, decisive. destruct (Address.version_ a) eqn:V; [by apply global4_spec|].
  unfold is_private6, is_global6, mapped. destruct (ipv4_mapped a) as [m|] eqn:M.
  - destruct (ipv4_mapped_value a G V m M) as (Hm & _). rewrite address_new_int, !py_ret_bind by done. apply (global4_spec (Addr V4 m None)); [by split | done].
  - unfold is_private6, mapped. rewrite M. assert (X : exists p, (p ← in_any private_networks6 a; e ← in_any private_networks_exceptions6 a; Ret (p && negb e)) = Ret p).
    { assert (E1 : private_networks6 = Ret (nets_of private_networks6)) by (vm_compute; reflexivity).
      assert (E2 : private_networks_exceptions6 = Ret (nets_of private_networks_exceptions6)) by (vm_compute; reflexivity).
      unfold in_any. rewrite E1, E2. do 4 rewrite py_ret_bind. by eexists. }
    destruct X as (p & ->). rewrite py_ret_bind. by exists p, (negb p).
Qed.
End registries.

(** * The theorems on networks *)

(** C32: the constructor of networks gives a network of its version whose mask is
    that of its prefix length and whose address has no host bits, or raises
    one of its errors, [ValueError] only when strict; the text of a network is
    read back as the network. *)
Theorem network_constructor v arg strict : good_narg arg ->
  ((exists n, Network.new v arg strict = Ret n /\ good_network n /\ Network.version_ n = v)
   \/ exists e, Network.new v arg strict = Raise e /\ network_error strict e)
  /\ (forall n, good_network n -> exists t, Network.str n = Ret t /\ Network.new (Network.version_ n) (Plain (StrArg t)) true = Ret n).
Proof. intros G. split; [by apply network_new_total | apply network_str_parses]. Qed.

(** networks are ranges: the broadcast address ends the range, an address is
    a member when it is in the range, [subnet_of] is inclusion and [overlaps]
    is a common address. *)
Theorem network_ranges v a b x : proper v a -> proper v b -> good_address x ->
  Network.broadcast_address a = Ret (Addr v (last_ip a) None)
  /\ Network.num_addresses a = Ret (size a)
  /\ Network.contains a x = bool_decide (Address.version_ x = v /\ first_ip a <= ip x <= last_ip a)
  /\ Network.subnet_of a b = Ret (bool_decide (first_ip b <= first_ip a /\ last_ip a <= last_ip b))
  /\ Network.overlaps a b = Ret (bool_decide (first_ip a <= last_ip b /\ first_ip b <= last_ip a)).
Proof.
  intros (A & UA & VA) (B & UB & VB) X. split_and!.
  - by rewrite broadcast_ret, VA.
  - unfold Network.num_addresses. rewrite broadcast_ret, py_ret_bind by done. cbn [ip]. f_equal. unfold last_ip, first_ip. lia.
  - rewrite contains_spec, VA by done. unfold same_version. destruct (decide (Address.version_ x = v)) as [E|N].
    + rewrite (bool_decide_eq_true_2 (v = _)) by done. cbn [andb]. apply eq_true_iff_eq. rewrite andb_true_iff, bool_decide_eq_true, !Z.leb_le. tauto.
    + rewrite bool_decide_eq_false_2 by congruence. symmetry. apply bool_decide_eq_false_2. tauto.
  - unfold Network.subnet_of. rewrite subnet_of_spec by (done || congruence). done.
  - rewrite overlaps_spec by done. f_equal. apply bool_decide_ext. split; [tauto|]. intros ?. split; [congruence | done].
Qed.

Section subnet_lemmas.
Import Network.

Lemma sub_hits n d x a c : good_network n -> 0 <= d -> prefixlen n + d <= max_prefixlen (version_ n) -> 0 <= a <= c -> c <= 2 ^ d ->
  hits x (sub_net n d <$> pyrange a c)
  = if (first_ip n + a * block_size (version_ n) (prefixlen n + d) <=? x) && (x <? first_ip n + c * block_size (version_ n) (prefixlen n + d)) then 1 else 0.
Proof.
  intros G Hd Hp Ha Hc. pose proof (net_prefix n G). pose proof (block_pos (version_ n) (prefixlen n + d) ltac:(lia)) as BP.
  revert Ha Hc. pattern a, c. apply pyrange_ind; clear a c; intros a c L.
  - intros Ha Hc. rewrite pyrange_nil by done. assert (a = c) as -> by lia. cbn. zcase; cbn [andb]; lia.
  - intros IH Ha Hc. rewrite pyrange_cons, fmap_cons, hits_cons, IH by lia.
    destruct (sub_net_good n d a G Hd Hp ltac:(lia)) as (_ & _ & _ & F & LA & _). rewrite F. set (b := block_size (version_ n) (prefixlen n + d)) in *.
    assert ((a + 1) * b <= c * b) by nia. zcase; cbn [andb]; lia.
Qed.

Lemma super_sub n d i : good_network n -> unscoped n -> 0 <= d -> prefixlen n + d <= max_prefixlen (version_ n) -> 0 <= i < 2 ^ d -> super_net (sub_net n d i) d = n.
Proof.
  intros G U Hd Hp Hi. pose proof (net_prefix n G). destruct (sub_net_good n d i G Hd Hp Hi) as (_ & _ & _ & F & _).
  unfold super_net. rewrite F. cbn [version_ prefixlen sub_net plain_net]. replace (prefixlen n + d - d) with (prefixlen n) by lia.
  etransitivity; [|symmetry; exact (plain_net_eq n G U)]. f_equal. pose proof (block_pos (version_ n) (prefixlen n + d) ltac:(lia)) as BP.
  pose proof (block_split (version_ n) (prefixlen n) d Hd Hp) as S. pose proof (net_aligned n G) as AL. fold (first_ip n) in AL. rewrite S in *.
  set (b := block_size (version_ n) (prefixlen n + d)) in *. pose proof (Z.pow_pos_nonneg 2 d ltac:(lia) Hd).
  rewrite Z.add_mod, AL, Z.add_0_l, Z.mod_mod, (Z.mod_small (i * b)) by nia. lia.
Qed.
End subnet_lemmas.

(** the subnets of a longer prefix are as many as they should be, each with
    the network as its supernet, and they split it: every address is in as
    many of them as in the network. *)
Theorem subnets_split v n d : proper v n -> 0 < d -> Network.prefixlen n + d <= max_prefixlen v ->
  exists l, Network.subnets n d None = Ret l /\ zlen l = 2 ^ d
    /\ (forall s, s ∈ l -> proper v s /\ Network.prefixlen s = Network.prefixlen n + d /\ Network.supernet s d None = Ret n)
    /\ (forall x, hits x l = hits x [n]).
Proof.
  intros (G & U & <-) Hd Hp. pose proof (net_prefix n G). exists (sub_net n d <$> pyrange 0 (2 ^ d)). split; [apply subnets_spec; (done || lia)|].
  pose proof (Z.pow_pos_nonneg 2 d ltac:(lia) ltac:(lia)). split; [rewrite zlen_fmap, zlen_pyrange by lia; lia|]. split.
  - intros s Hs. apply list_elem_of_fmap in Hs as (i & -> & Hi). apply elem_of_pyrange in Hi.
    destruct (sub_net_good n d i G ltac:(lia) Hp Hi) as (GS & US & VS & _). split; [done|]. split; [done|].
    rewrite supernet_spec; [|done | change (Network.prefixlen (sub_net n d i)) with (Network.prefixlen n + d); lia..]. f_equal. apply super_sub; (done || lia).
  - intros x. rewrite sub_hits by (done || lia). unfold hits. cbn [foldr]. unfold last_ip, size.
    rewrite (block_split (Network.version_ n) (Network.prefixlen n) d) by lia. zcase; cbn [andb]; lia.
Qed.

(** C30: taking a network without a scope out of another: when it is not inside,
    [ValueError]; otherwise networks that with the one taken out split the other
    (every address is in as many of them as in it), never an assertion failure
    and always within one round per bit. *)
Theorem exclude_split v self other : proper v self -> proper v other ->
  (Network.address_exclude self other = Raise ValueError /\ ~ within other self)
  \/ exists l, Network.address_exclude self other = Ret l /\ within other self /\ Forall (proper v) l
       /\ forall x, hits x (other :: l) = hits x [self].
Proof. apply address_exclude_spec. Qed.

(** C34: An IPv6 network with a scope cannot be taken out of a network without one
    that contains it: [address_exclude] raises [ValueError], as if it were not
    inside, when both begin at the same address, and fails its closing assertion
    otherwise. *)
Theorem scoped_exclusion self other : proper V6 self -> good_network other -> scoped other -> within other self ->
  Network.address_exclude self other = Raise (if first_ip other =? first_ip self then ValueError else AssertionError).
Proof. apply scoped_exclude. Qed.

(** an address is global exactly when it is not private, except in the shared
    space 100.64.0.0/10, where it is neither; an IPv6 address that maps an IPv4
    address is judged as that address. *)
Theorem private_or_global a : good_address a ->
  exists p g, Registry.is_private a = Ret p /\ Registry.is_global a = Ret g
    /\ (if match decisive a with Some x => shared4 x | None => false end then p = false /\ g = false else g = negb p).
Proof. apply global_spec. Qed.

(** * Witnesses *)

Lemma proper_plain v x p : (0 <=? p) && (p <=? max_prefixlen v) && (0 <=? x) && (x <=? ALL_ONES v) && (x mod block_size v p =? 0) = true -> proper v (plain_net v x p).
Proof. rewrite !andb_true_iff. intros [[[[H1 H2] H3] H4] H5]. split; [|done]. apply good_plain_net; lia. Qed.

Lemma network_constructor_witness : exists n, Network.new V4 (Plain (StrArg (lit "10.0.0.0/8"))) true = Ret n /\ good_network n /\ Network.version_ n = V4.
Proof.
  destruct (network_constructor V4 (Plain (StrArg (lit "10.0.0.0/8"))) true I) as [[H | (e & H & _)] _]; [exact H|]. exfalso. vm_compute in H. congruence.
Defined.

Lemma network_ranges_witness : Network.num_addresses (plain_net V4 167772160 8) = Ret (size (plain_net V4 167772160 8)).
Proof.
  apply (network_ranges V4 (plain_net V4 167772160 8) (plain_net V4 167772160 8) (Addr V4 1 None)).
  - by apply proper_plain.
  - by apply proper_plain.
  - split; [vm_compute; intuition congruence | done].
Defined.

Lemma subnets_split_witness : exists l, Network.subnets (plain_net V4 167772160 8) 2 None = Ret l /\ zlen l = 2 ^ 2.
Proof.
  destruct (subnets_split V4 (plain_net V4 167772160 8) 2) as (l & H1 & H2 & _); [by apply proper_plain | lia | vm_compute; congruence |]. by exists l.
Defined.

Lemma exclude_split_witness : exists l, Network.address_exclude (plain_net V4 167772160 8) (plain_net V4 167772161 32) = Ret l
  /\ within (plain_net V4 167772161 32) (plain_net V4 167772160 8) /\ Forall (proper V4) l
  /\ forall x, hits x (plain_net V4 167772161 32 :: l) = hits x [plain_net V4 167772160 8].
Proof.
  destruct (exclude_split V4 (plain_net V4 167772160 8) (plain_net V4 167772161 32)) as [[H _] | H]; [by apply proper_plain | by apply proper_plain | | exact H].
  exfalso. vm_compute in H. congruence.
Defined.

Lemma private_or_global_witness : exists p g, Registry.is_private (Addr V4 1681915905 None) = Ret p /\ Registry.is_global (Addr V4 1681915905 None) = Ret g
  /\ p = false /\ g = false.
Proof. apply (private_or_global (Addr V4 1681915905 None)). split; [vm_compute; intuition congruence | done]. Defined.

(** fe80::/64, and fe80::1%a as a network of one address. *)
Lemma scoped_exclusion_witness : Network.address_exclude (plain_net V6 (65152 * 2 ^ 112) 64)
  (Network.Net V6 (Addr V6 (65152 * 2 ^ 112 + 1) (Some (lit "a"))) (Addr V6 (2 ^ 128 - 1) None) 128) = Raise AssertionError.
Proof.
  apply (scoped_exclusion (plain_net V6 (65152 * 2 ^ 112) 64) (Network.Net V6 (Addr V6 (65152 * 2 ^ 112 + 1) (Some (lit "a"))) (Addr V6 (2 ^ 128 - 1) None) 128)).
  - by apply proper_plain.
  - split; [vm_compute; intuition congruence | reflexivity | | reflexivity | reflexivity]. split; [vm_compute; intuition congruence|]. split; [done|]. split; by apply absent_check.
  - done.
  - split; vm_compute; congruence.
Defined.
