(* ===== verification/IpSum.v ===== *)
(** Ranges of IP addresses (the runtime's ipaddress.py): the networks that
    summarize a range, and the collapse of a list of addresses and networks. *)
From Stdlib Require Import ZArith Lia List.
From stdpp Require Import base list strings sorting.
From S2P Require Import Prelude Text Ip IpNet.
Open Scope Z_scope.
Import Address Network.

(** * Ranges of consecutive addresses *)

(** The loop of [_find_address_range]. *)
Fixpoint address_ranges (first last : address) (it : list address) : list (address * address) :=
  match it with
  | [] => [(first, last)]
  | a :: it =>
      if negb (ip a =? ip last + 1) then (first, last) :: address_ranges a a it
      else address_ranges first a it
  end.

(** [list(_find_address_range(addresses))] on a list that is not empty. *)
Definition find_address_range (addresses : list address) : list (address * address) :=
  match addresses with
  | [] => []
  | a :: it => address_ranges a a it
  end.

(** The loop of [summarize_address_range].  The blocks grow with the alignment
    of [first_int] and then shrink with what is left, so that twice the number
    of bits bounds the rounds. *)
Fixpoint summarize_loop (fuel : nat) (v : version) (first_int last_int : Z) : py (list network) :=
  match fuel with
  | O => NoFuel
  | S fuel =>
      if first_int <=? last_int then
        let ip_bits := max_prefixlen v in
        let nbits := Z.min (count_righthand_zero_bits first_int ip_bits) (bit_length (last_int - first_int + 1) - 1) in
        net ← Network.new v (Tuple2 (IntArg first_int) (MaskInt (ip_bits - nbits))) true;
        let first_int := first_int + Z.shiftl 1 nbits in
        if first_int - 1 =? ALL_ONES v then Ret [net]
        else rest ← summarize_loop fuel v first_int last_int; Ret (net :: rest)
      else Ret []
  end.

Definition summarize_fuel (v : version) : nat := Z.to_nat (2 * max_prefixlen v + 3).

(** [list(summarize_address_range(first, last))]. *)
Definition summarize_address_range (first last : address) : py (list network) :=
  if negb (same_version (Address.version_ first) (Address.version_ last)) then Raise TypeError
  else
    g ← Address.gt first last;
    if g : bool then Raise ValueError
    else summarize_loop (summarize_fuel (Address.version_ first)) (Address.version_ first) (ip first) (ip last).

(** * Collapse *)

(** A dict keyed by networks. *)
Definition net_dict := list (network * network).
Fixpoint dict_get (d : net_dict) (k : network) : option network :=
  match d with
  | [] => None
  | (k', n) :: d => if Network.eqb k' k then Some n else dict_get d k
  end.
Fixpoint dict_del (d : net_dict) (k : network) : net_dict :=
  match d with
  | [] => []
  | (k', n) :: d => if Network.eqb k' k then d else (k', n) :: dict_del d k
  end.

(** The merge loop; [to_merge] is kept with its last element first.  Every
    round takes a network away or moves it to the dict for good. *)
Fixpoint merge_loop (fuel : nat) (to_merge : list network) (subnets : net_dict) : py net_dict :=
  match fuel with
  | O => NoFuel
  | S fuel =>
      match to_merge with
      | [] => Ret subnets
      | net :: to_merge =>
          sup ← supernet net 1 None;
          match dict_get subnets sup with
          | None => merge_loop fuel to_merge (subnets ++ [(sup, net)])
          | Some existing =>
              if negb (Network.eqb existing net) then merge_loop fuel (sup :: to_merge) (dict_del subnets sup)
              else merge_loop fuel to_merge subnets
          end
      end
  end.
Definition merge_fuel (addresses : list network) : nat := S (2 * length addresses).

(** [sorted(nets)] by [__lt__]: networks of both versions have no order, and
    every way to sort them compares two neighbours of the result. *)
Definition net_leb (a b : network) : bool := match Network.lt b a with Ret true => false | _ => true end.
Definition sorted_nets (l : list network) : py (list network) :=
  match l with
  | [] => Ret []
  | n :: _ =>
      if forallb (fun m => same_version (version_ m) (version_ n)) l then Ret (sort_by net_leb l) else Raise TypeError
  end.

Fixpoint skip_subsumed (last : option network) (nets : list network) : py (list network) :=
  match nets with
  | [] => Ret []
  | net :: nets =>
      skip ← match last with
             | None => Ret false
             | Some last => lb ← broadcast_address last; nb ← broadcast_address net; Address.ge lb nb
             end;
      if skip : bool then skip_subsumed last nets
      else rest ← skip_subsumed (Some net) nets; Ret (net :: rest)
  end.

Definition collapse_addresses_internal (addresses : list network) : py (list network) :=
  subnets ← merge_loop (merge_fuel addresses) (rev addresses) [];
  nets ← sorted_nets (snd <$> subnets);
  skip_subsumed None nets.

(** An address or a network. *)
Inductive ip_object :=
| ObjAddress (a : address)
| ObjNetwork (n : network).

Definition last_version {A} (ver : A -> version) (l : list A) (v : version) : py unit :=
  match last l with
  | Some x => if negb (same_version (ver x) v) then Raise TypeError else Ret tt
  | None => Ret tt
  end.

Definition split_step (st : list address * list network) (o : ip_object) : py (list address * list network) :=
  let '(ips, nets) := st in
  match o with
  | ObjAddress a => _ ← last_version Address.version_ ips (Address.version_ a); Ret (ips ++ [a], nets)
  | ObjNetwork n =>
      if prefixlen n =? max_prefixlen (version_ n) then
        _ ← last_version Address.version_ ips (version_ n); Ret (ips ++ [network_address n], nets)
      else _ ← last_version version_ nets (version_ n); Ret (ips, nets ++ [n])
  end.

(** [sorted(set(ips))]: equal addresses once, in the order of [__lt__]; the
    addresses are of one version. *)
Fixpoint dedup (l : list address) : list address :=
  match l with
  | [] => []
  | a :: l => a :: List.filter (fun b => negb (Address.eqb a b)) (dedup l)
  end.
Definition address_leb (a b : address) : bool := ip a <=? ip b.
Definition sorted_set (l : list address) : list address := sort_by address_leb (dedup l).

(** [list(collapse_addresses(addresses))]. *)
Definition collapse_addresses (addresses : list ip_object) : py (list network) :=
  '(ips, nets) ← foldM split_step ([], []) addresses;
  addrs ← mapM_py (fun '(first, last) => summarize_address_range first last) (find_address_range (sorted_set ips));
  collapse_addresses_internal (concat addrs ++ nets).

(** * Summaries, lemmas *)

Definition inside (x : Z) (n : network) : Prop := first_ip n <= x <= last_ip n.
Definition covered (x : Z) (l : list network) : Prop := Exists (inside x) l.

(** Networks that follow one another from [lo] up to [past]. *)
Fixpoint tiles (v : version) (lo : Z) (l : list network) (past : Z) : Prop :=
  match l with
  | [] => lo = past
  | n :: l => proper v n /\ first_ip n = lo /\ tiles v (last_ip n + 1) l past
  end.

Lemma tiles_proper v lo l past : tiles v lo l past -> Forall (proper v) l.
Proof. revert lo. induction l as [|n l IH]; intros lo T; constructor; [apply T|]. destruct T as (_ & _ & T). by apply IH in T. Qed.

Lemma proper_range v n : proper v n -> 0 <= first_ip n <= last_ip n /\ last_ip n <= ALL_ONES v.
Proof. intros (G & _ & <-). pose proof (net_range n G). lia. Qed.

Lemma tiles_le v lo l past : tiles v lo l past -> lo <= past.
Proof.
  revert lo. induction l as [|n l IH]; intros lo T; [cbn in T; lia|]. destruct T as (P & <- & T). apply IH in T. apply proper_range in P. lia.
Qed.

Lemma tiles_covered v lo l past x : tiles v lo l past -> covered x l <-> lo <= x < past.
Proof.
  revert lo. induction l as [|n l IH]; intros lo T; unfold covered in *.
  - cbn in T. rewrite Exists_nil. lia.
  - destruct T as (P & <- & T). rewrite Exists_cons, (IH _ T). unfold inside. pose proof (tiles_le _ _ _ _ T). apply proper_range in P. lia.
Qed.

(** The number of trailing zeros, and what divides. *)
Lemma count_bounds f b : 0 <= b -> 0 <= f -> 0 <= count_righthand_zero_bits f b <= b /\ f mod 2 ^ count_righthand_zero_bits f b = 0.
Proof.
  intros Hb Hf. destruct (decide (f = 0)) as [->|N].
  - unfold count_righthand_zero_bits. cbn [Z.eqb]. split; [lia|]. apply Z.mod_0_l. pose proof (Z.pow_pos_nonneg 2 b). lia.
  - destruct (odd_part f ltac:(lia)) as (k & q & Hk & Hq & ->). rewrite count_zero_bits by done. split; [lia|]. apply Z.mod_divide; [pose proof (Z.pow_pos_nonneg 2 (Z.min b k)); lia|].
    apply Z.divide_mul_r. exists (2 ^ (k - Z.min b k)). rewrite <- Z.pow_add_r by lia. f_equal. lia.
Qed.

Lemma count_ge f b g : 0 <= g <= b -> 0 <= f -> f mod 2 ^ g = 0 -> g <= count_righthand_zero_bits f b.
Proof.
  intros Hg Hf M. destruct (decide (f = 0)) as [->|N]; [unfold count_righthand_zero_bits; cbn [Z.eqb]; lia|].
  destruct (odd_part f ltac:(lia)) as (k & q & Hk & Hq & ->). rewrite count_zero_bits by done. destruct (decide (g <= k)) as [|C]; [lia|]. exfalso.
  apply Z.mod_divide in M; [|pose proof (Z.pow_pos_nonneg 2 g); lia]. replace g with (k + 1 + (g - k - 1)) in M by lia. rewrite !Z.pow_add_r in M by lia.
  destruct M as [c E]. pose proof (Z.pow_pos_nonneg 2 k ltac:(lia) Hk). assert (2 * q + 1 = 2 * (c * 2 ^ (g - k - 1))) by nia. lia.
Qed.

(** One more power of two after the largest that divides. *)
Lemma count_next f b : 0 <= f -> count_righthand_zero_bits f b < b -> f mod 2 ^ count_righthand_zero_bits f b = 0 ->
  (f + 2 ^ count_righthand_zero_bits f b) mod 2 ^ (count_righthand_zero_bits f b + 1) = 0.
Proof.
  intros Hf L _. destruct (decide (f = 0)) as [->|N]; [unfold count_righthand_zero_bits in L; cbn [Z.eqb] in L; lia|].
  destruct (odd_part f ltac:(lia)) as (k & q & Hk & Hq & ->). rewrite count_zero_bits in * by done. rewrite Z.min_r in * by lia.
  rewrite Z.pow_add_r by lia. apply Z.mod_divide; [pose proof (Z.pow_pos_nonneg 2 k); lia|]. exists (q + 1). lia.
Qed.

Section summarize.
Context (v : version).
Let B := max_prefixlen v.

Definition width (f l : Z) : Z := Z.min (count_righthand_zero_bits f B) (bit_length (l - f + 1) - 1).

Lemma log2_bound n : 0 < n -> 2 ^ Z.log2 n <= n < 2 ^ (Z.log2 n + 1) /\ 0 <= Z.log2 n.
Proof. intros H. pose proof (Z.log2_spec n H) as S. rewrite <- Z.add_1_r in S. pose proof (Z.log2_nonneg n). lia. Qed.

Lemma width_spec f l : 0 <= f <= l -> l <= ALL_ONES v ->
  0 <= width f l <= B /\ f mod 2 ^ width f l = 0 /\ f + 2 ^ width f l - 1 <= l
  /\ bit_length (l - f + 1) - 1 = Z.log2 (l - f + 1) /\ Z.log2 (l - f + 1) <= B.
Proof.
  intros H Hl. pose proof (bits_pos v) as BP. fold B in BP. destruct (log2_bound (l - f + 1) ltac:(lia)) as [L L0].
  destruct (count_bounds f B ltac:(lia) ltac:(lia)) as [C1 C2]. unfold width. rewrite bit_length_pow by lia.
  replace (Z.log2 (l - f + 1) + 1 - 1) with (Z.log2 (l - f + 1)) by lia. set (g := Z.log2 (l - f + 1)) in *. set (c := count_righthand_zero_bits f B) in *.
  assert (G : g <= B).
  { rewrite all_ones in Hl. fold B in Hl. destruct (decide (g <= B)) as [|X]; [done|]. assert (2 ^ (B + 1) <= 2 ^ g) by (apply Z.pow_le_mono_r; lia).
    rewrite Z.pow_add_r in * by lia. lia. }
  assert (2 ^ Z.min c g <= 2 ^ g) by (apply Z.pow_le_mono_r; lia).
  split; [lia|]. split; [|split; [lia | done]]. apply Z.mod_divide in C2; [|pose proof (Z.pow_pos_nonneg 2 c); lia].
  apply Z.mod_divide; [pose proof (Z.pow_pos_nonneg 2 (Z.min c g)); lia|]. eapply Z.divide_trans; [|exact C2].
  exists (2 ^ (c - Z.min c g)). rewrite <- Z.pow_add_r by lia. f_equal. lia.
Qed.

Lemma block_width k : 0 <= k <= B -> block_size v (B - k) = 2 ^ k.
Proof. intros. unfold block_size. fold B. f_equal. lia. Qed.

(** One round: the largest block that starts at [f] and fits. *)
Lemma summarize_round fuel f l : 0 <= f <= l -> l <= ALL_ONES v ->
  let n := plain_net v f (B - width f l) in
  proper v n /\ first_ip n = f /\ last_ip n + 1 = f + 2 ^ width f l
  /\ summarize_loop (S fuel) v f l =
       if f + 2 ^ width f l - 1 =? ALL_ONES v then Ret [n] else rest ← summarize_loop fuel v (f + 2 ^ width f l) l; Ret (n :: rest).
Proof.
  intros H Hl. destruct (width_spec f l H Hl) as (W1 & W2 & W3 & _). cbv zeta. pose proof (block_width (width f l) W1) as BW.
  assert (M : f mod block_size v (B - width f l) = 0) by (by rewrite BW).
  assert (G : good_network (plain_net v f (B - width f l))) by (apply good_plain_net; [fold B; lia | lia | done]).
  split; [done|]. split; [done|]. split; [unfold last_ip, size; cbn [version_ prefixlen plain_net]; rewrite BW; change (first_ip (plain_net v f (B - width f l))) with f; lia|].
  cbn [summarize_loop]. rewrite (proj2 (Z.leb_le f l)) by lia. fold B. fold (width f l). rewrite network_new_int, M by (fold B; lia). cbn [Z.eqb].
  rewrite py_ret_bind, Z.shiftl_mul_pow2, Z.mul_1_l by lia. done.
Qed.

Lemma summarize_done fuel f l : l < f -> summarize_loop (S fuel) v f l = Ret [].
Proof. intros H. cbn [summarize_loop]. by rewrite (proj2 (Z.leb_gt f l)) by lia. Qed.

(** The round, with what is known of the rest. *)
Lemma summarize_next fuel f l : 0 <= f <= l -> l <= ALL_ONES v ->
  (f + 2 ^ width f l <= l -> exists r, summarize_loop fuel v (f + 2 ^ width f l) l = Ret r /\ tiles v (f + 2 ^ width f l) r (l + 1)) ->
  (l < f + 2 ^ width f l -> (0 < fuel)%nat) ->
  exists r, summarize_loop (S fuel) v f l = Ret r /\ tiles v f r (l + 1).
Proof.
  intros H Hl IH F0. destruct (width_spec f l H Hl) as (W1 & W2 & W3 & _). destruct (summarize_round fuel f l H Hl) as (P & FI & LA & ->).
  destruct (Z.eqb_spec (f + 2 ^ width f l - 1) (ALL_ONES v)) as [E|N].
  - eexists. split; [done|]. split; [done|]. split; [done|]. cbn [tiles]. lia.
  - destruct (decide (f + 2 ^ width f l <= l)) as [L|L].
    + destruct (IH L) as (r & -> & T). rewrite py_ret_bind. eexists. split; [done|]. split; [done|]. split; [done|]. by rewrite LA.
    + destruct fuel as [|fuel]; [specialize (F0 ltac:(lia)); lia|]. rewrite summarize_done, py_ret_bind by lia.
      eexists. split; [done|]. split; [done|]. split; [done|]. cbn [tiles]. lia.
Qed.

(** Once the start is a multiple of the largest power of two that fits, the
    blocks shrink. *)
Lemma summarize_shrink fuel f l : 0 <= f <= l -> l <= ALL_ONES v -> f mod 2 ^ Z.log2 (l - f + 1) = 0 ->
  Z.log2 (l - f + 1) + 2 <= Z.of_nat fuel -> exists r, summarize_loop fuel v f l = Ret r /\ tiles v f r (l + 1).
Proof.
  revert f. induction fuel as [|fuel IH]; intros f H Hl M F; [pose proof (Z.log2_nonneg (l - f + 1)); lia|].
  destruct (width_spec f l H Hl) as (W1 & W2 & W3 & BL & LB). destruct (log2_bound (l - f + 1) ltac:(lia)) as [L L0].
  assert (W : width f l = Z.log2 (l - f + 1)).
  { unfold width. rewrite BL. apply Z.min_r. apply count_ge; (lia || done). }
  apply summarize_next; [done | done | rewrite W | intros _; lia]. intros L'.
  set (g := Z.log2 (l - f + 1)) in *. rewrite Z.pow_add_r, Z.pow_1_r in L by lia.
  destruct (log2_bound (l - (f + 2 ^ g) + 1) ltac:(lia)) as [L1 L2]. set (g' := Z.log2 (l - (f + 2 ^ g) + 1)) in *.
  assert (G : g' < g). { destruct (decide (g' < g)) as [|X]; [done|]. assert (2 ^ g <= 2 ^ g') by (apply Z.pow_le_mono_r; lia). lia. }
  apply IH; [lia | done | | lia]. fold g'. apply Z.mod_divide in M; [|lia]. apply Z.mod_divide; [pose proof (Z.pow_pos_nonneg 2 g'); lia|].
  assert (D : (2 ^ g' | 2 ^ g)) by (exists (2 ^ (g - g')); rewrite <- Z.pow_add_r by lia; f_equal; lia).
  apply Z.divide_add_r; [|done]. by eapply Z.divide_trans.
Qed.

(** Before, they grow with the alignment. *)
Lemma summarize_grow fuel f l : 0 <= f <= l -> l <= ALL_ONES v ->
  B - count_righthand_zero_bits f B + B + 3 <= Z.of_nat fuel -> exists r, summarize_loop fuel v f l = Ret r /\ tiles v f r (l + 1).
Proof.
  revert f. induction fuel as [|fuel IH]; intros f H Hl F; [destruct (count_bounds f B); [pose proof (bits_pos v); unfold B; lia | lia |]; pose proof (bits_pos v) as X; fold B in X; lia|].
  pose proof (bits_pos v) as BP. fold B in BP. destruct (count_bounds f B ltac:(lia) ltac:(lia)) as [C1 C2].
  destruct (width_spec f l H Hl) as (W1 & W2 & W3 & BL & LB). destruct (log2_bound (l - f + 1) ltac:(lia)) as [L L0].
  destruct (decide (f mod 2 ^ Z.log2 (l - f + 1) = 0)) as [M|M]; [apply summarize_shrink; (done || lia)|].
  assert (C : count_righthand_zero_bits f B < Z.log2 (l - f + 1)).
  { destruct (decide (count_righthand_zero_bits f B < Z.log2 (l - f + 1))) as [|X]; [done|]. exfalso. apply M.
    apply Z.mod_divide in C2; [|pose proof (Z.pow_pos_nonneg 2 (count_righthand_zero_bits f B)); lia].
    apply Z.mod_divide; [lia|]. eapply Z.divide_trans; [|exact C2].
    exists (2 ^ (count_righthand_zero_bits f B - Z.log2 (l - f + 1))). rewrite <- Z.pow_add_r by lia. f_equal. lia. }
  assert (W : width f l = count_righthand_zero_bits f B) by (unfold width; rewrite BL; lia).
  apply summarize_next; [done | done | rewrite W | intros _; lia]. intros L'. apply IH; [|done|].
  - pose proof (Z.pow_pos_nonneg 2 (count_righthand_zero_bits f B)). lia.
  - assert (count_righthand_zero_bits f B + 1 <= count_righthand_zero_bits (f + 2 ^ count_righthand_zero_bits f B) B); [|lia].
    apply count_ge; [lia | pose proof (Z.pow_pos_nonneg 2 (count_righthand_zero_bits f B)); lia |]. apply count_next; (lia || done).
Qed.
End summarize.

Definition plain_address (v : version) (a : address) : Prop := good_address a /\ Address.version_ a = v /\ scope_id a = None.

Lemma plain_address_eq v a : plain_address v a -> a = Addr v (ip a) None.
Proof. intros (_ & V & S). destruct a. cbn in *. by subst. Qed.

Lemma summarize_spec v a b : plain_address v a -> plain_address v b ->
  (ip a <= ip b -> exists l, summarize_address_range a b = Ret l /\ tiles v (ip a) l (ip b + 1))
  /\ (ip b < ip a -> summarize_address_range a b = Raise ValueError).
Proof.
  intros A B. pose proof A as ([RA _] & VA & _). pose proof B as ([RB _] & VB & _). rewrite VA in RA. rewrite VB in RB.
  unfold summarize_address_range. rewrite (plain_address_eq v a A), (plain_address_eq v b B). cbn [Address.version_ ip]. unfold same_version.
  rewrite bool_decide_eq_true_2 by done. cbn [negb]. rewrite plain_gt, py_ret_bind. split; intros L.
  - rewrite (proj2 (Z.ltb_ge _ _)) by lia. apply summarize_grow; [lia | lia |]. unfold summarize_fuel.
    destruct (count_bounds (ip a) (max_prefixlen v)); [pose proof (bits_pos v); lia | lia |]. lia.
  - by rewrite (proj2 (Z.ltb_lt _ _)) by lia.
Qed.

(** * Collapse, lemmas *)

Section collapse.
Context (v : version).

Definition parent (n k : network) : Prop := supernet n 1 None = Ret k.

Lemma parent_exists n : proper v n -> exists k, parent n k /\ proper v k /\ within n k.
Proof.
  intros (G & U & V). pose proof (net_prefix n G). unfold parent. destruct (decide (prefixlen n = 0)) as [E|N].
  - exists n. unfold supernet. rewrite (proj2 (Z.eqb_eq _ 0)) by done. split; [done|]. split; [done|]. unfold within. lia.
  - exists (super_net n 1). split; [apply supernet_spec; (done || lia)|]. destruct (super_net_good n 1 G) as (? & ? & ? & ?); [lia|].
    split; [|done]. split; [done|]. split; [done|]. congruence.
Qed.

Lemma parent_prefix n k : proper v n -> parent n k ->
  (prefixlen n = 0 /\ k = n) \/ (prefixlen k = prefixlen n - 1 /\ 0 < prefixlen n /\ (n = sub_net k 1 0 \/ n = sub_net k 1 1)).
Proof.
  intros (G & U & V) P. pose proof (net_prefix n G) as PN. unfold parent in P. destruct (decide (prefixlen n = 0)) as [E|N].
  - left. unfold supernet in P. rewrite (proj2 (Z.eqb_eq _ 0)) in P by done. by simplify_eq.
  - right. rewrite supernet_spec in P by (done || lia). simplify_eq. split; [done|]. split; [lia|].
    unfold sub_net, super_net. cbn [version_ prefixlen plain_net]. change (first_ip (plain_net (version_ n) ?x ?p)) with x.
    replace (prefixlen n - 1 + 1) with (prefixlen n) by lia.
    pose proof (block_split (version_ n) (prefixlen n - 1) 1 ltac:(lia) ltac:(lia)) as S. replace (prefixlen n - 1 + 1) with (prefixlen n) in S by lia.
    pose proof (block_pos (version_ n) (prefixlen n) ltac:(lia)) as BP. pose proof (net_aligned n G) as AL. fold (first_ip n) in AL.
    rewrite S. change (2 ^ 1) with 2. set (b := block_size (version_ n) (prefixlen n)) in *.
    pose proof (Z.div_mod (first_ip n) b ltac:(lia)) as D. rewrite AL in D.
    assert (M : first_ip n mod (2 * b) = ((first_ip n / b) mod 2) * b) by (rewrite D at 1; rewrite Z.add_0_r, (Z.mul_comm b), Z.mul_mod_distr_r by lia; done).
    rewrite M. pose proof (Z.mod_pos_bound (first_ip n / b) 2 ltac:(lia)).
    pose proof (plain_net_eq n G U) as EN.
    assert ((first_ip n / b) mod 2 = 0 \/ (first_ip n / b) mod 2 = 1) as [E|E] by lia; rewrite E; [left | right]; (etransitivity; [exact EN|]; f_equal; lia).
Qed.

(** Two different networks with the same supernet make it up. *)
Lemma siblings_cover a b k x : proper v a -> proper v b -> proper v k -> parent a k -> parent b k -> a <> b -> inside x a \/ inside x b <-> inside x k.
Proof.
  intros PA PB PK HA HB NE. pose proof PK as (GK & _ & VK).
  destruct (parent_prefix a k PA HA) as [[ZA EA] | (EA & LA & CA)], (parent_prefix b k PB HB) as [[ZB EB] | (EB & LB & CB)].
  - destruct NE. congruence.
  - subst k. destruct (parent_exists b PB) as (k' & P' & _ & [W1 W2]). unfold parent in *. rewrite HB in P'. simplify_eq. unfold inside. lia.
  - subst k. destruct (parent_exists a PA) as (k' & P' & _ & [W1 W2]). unfold parent in *. rewrite HA in P'. simplify_eq. unfold inside. lia.
  - assert (L : prefixlen k < max_prefixlen (version_ k)) by (destruct PA as (GA & _ & VA); pose proof (net_prefix a GA) as X; rewrite VA, <- VK in X; lia).
    pose proof (halves_hits k x GK L) as H. unfold hits in H. cbn [foldr] in H. unfold inside.
    destruct CA as [-> | ->], CB as [-> | ->]; (by destruct NE) || (revert H; zcase; cbn [andb]; lia).
Qed.

(** The dict holds each network under its supernet, once. *)
Record dict_ok (d : net_dict) : Prop := {
  dict_nodup : NoDup (fst <$> d);
  dict_proper : Forall (fun '(k, n) => proper v k /\ proper v n /\ parent n k) d
}.

Lemma proper_eqb a b : proper v a -> proper v b -> Network.eqb a b = true <-> a = b.
Proof. intros (A & UA & VA) (B & UB & VB). apply network_eqb_eq; (done || congruence). Qed.

Lemma dict_get_spec d k : dict_ok d -> proper v k ->
  match dict_get d k with Some n => (k, n) ∈ d | None => k ∉ (fst <$> d) end.
Proof.
  intros [_ P] K. induction P as [|[k' n'] d (PK & _) _ IH]; cbn [dict_get fmap list_fmap fst]; [apply not_elem_of_nil|].
  destruct (Network.eqb k' k) eqn:E; [apply proper_eqb in E as ->; [by left|done|done]|].
  destruct (dict_get d k); [by right|]. apply not_elem_of_cons. split; [|done]. intros ->. by rewrite (proj2 (proper_eqb _ _ PK PK) eq_refl) in E.
Qed.

Lemma dict_del_spec d k n : dict_ok d -> proper v k -> (k, n) ∈ d -> d ≡ₚ (k, n) :: dict_del d k.
Proof.
  intros [ND P] K. induction P as [|[k' n'] d (PK & _) _ IH]; intros H; [by apply not_elem_of_nil in H|]. cbn [dict_del].
  cbn [fmap list_fmap fst] in ND. apply NoDup_cons in ND as [N1 N2]. destruct (Network.eqb k' k) eqn:E.
  - apply proper_eqb in E; [|done|done]. subst. apply elem_of_cons in H as [H | H]; [by simplify_eq|]. destruct N1. apply list_elem_of_fmap. by exists (k, n).
  - apply elem_of_cons in H as [H | H]; [simplify_eq; by rewrite (proj2 (proper_eqb _ _ K K) eq_refl) in E|].
    rewrite (IH N2 H) at 1. apply Permutation_swap.
Qed.

Definition values (d : net_dict) : list network := snd <$> d.

Lemma covered_cons x n l : covered x (n :: l) <-> inside x n \/ covered x l.
Proof. apply Exists_cons. Qed.
Lemma covered_nil x : covered x [] <-> False.
Proof. apply Exists_nil. Qed.
Lemma covered_app x l1 l2 : covered x (l1 ++ l2) <-> covered x l1 \/ covered x l2.
Proof. apply Exists_app. Qed.
Lemma covered_perm x l1 l2 : l1 ≡ₚ l2 -> covered x l1 <-> covered x l2.
Proof. intros P. unfold covered. by rewrite P. Qed.

Lemma merge_spec fuel to_merge d : Forall (proper v) to_merge -> dict_ok d -> (2 * length to_merge + length d < fuel)%nat ->
  exists d', merge_loop fuel to_merge d = Ret d' /\ dict_ok d' /\ forall x, covered x (values d') <-> covered x to_merge \/ covered x (values d).
Proof.
  revert to_merge d. induction fuel as [|fuel IH]; intros to_merge d F D L; [lia|]. cbn [merge_loop]. destruct to_merge as [|n to_merge].
  { exists d. split; [done|]. split; [done|]. intros x. rewrite covered_nil. tauto. }
  apply Forall_cons in F as [PN F]. destruct (parent_exists n PN) as (k & PK & K & _). cbn [length] in L.
  rewrite (PK : supernet n 1 None = Ret k), py_ret_bind. pose proof (dict_get_spec d k D K) as GS. destruct (dict_get d k) as [e|].
  - pose proof D as [ND DP]. rewrite Forall_forall in DP. pose proof (DP _ GS) as (_ & PE & PEK). destruct (Network.eqb e n) eqn:EQ; cbn [negb].
    + apply proper_eqb in EQ as ->; [|done..]. destruct (IH to_merge d F D ltac:(lia)) as (d' & -> & D' & C). exists d'. split; [done|]. split; [done|].
      intros x. rewrite C, covered_cons. split; [tauto|]. intros [[I | ?] | ?]; [|tauto|tauto]. right. unfold covered. rewrite Exists_exists.
      exists n. split; [|done]. apply list_elem_of_fmap. by exists (k, n).
    + pose proof (dict_del_spec d k e D K GS) as DD.
      assert (D2 : dict_ok (dict_del d k)).
      { split; [rewrite DD in ND; cbn [fmap list_fmap fst] in ND; by apply NoDup_cons in ND as [_ ?]|].
        destruct D as [_ DP']. rewrite DD in DP'. by apply Forall_cons in DP' as [_ ?]. }
      assert (LD : length d = S (length (dict_del d k))) by (by rewrite DD at 1).
      destruct (IH (k :: to_merge) (dict_del d k)) as (d' & -> & D' & C); [by constructor | done | cbn [length]; lia|].
      exists d'. split; [done|]. split; [done|]. intros x. rewrite C, !covered_cons. rewrite (covered_perm x (values d) (e :: values (dict_del d k))).
      2:{ unfold values. by rewrite DD at 1. }
      rewrite covered_cons, <- (siblings_cover e n k x PE PN K PEK PK); [tauto|]. intros ->. by rewrite (proj2 (proper_eqb _ _ PN PN) eq_refl) in EQ.
  - destruct (IH to_merge (d ++ [(k, n)])) as (d' & -> & D' & C); [done| |rewrite length_app; cbn [length]; lia|].
    + destruct D as [ND DP]. split; [|apply Forall_app; split; [done|]; by apply Forall_singleton].
      rewrite fmap_app. cbn [fmap list_fmap fst]. apply NoDup_app. split; [done|]. split; [|apply NoDup_singleton].
      intros y Hy. rewrite list_elem_of_singleton. by intros ->.
    + exists d'. split; [done|]. split; [done|]. intros x. rewrite C, covered_cons. unfold values. rewrite fmap_app, covered_app. cbn [fmap list_fmap snd].
      rewrite covered_cons, covered_nil. tauto.
Qed.

(** ** Sorting and skipping *)

Definition key_le (a b : network) : Prop := first_ip a < first_ip b \/ (first_ip a = first_ip b /\ prefixlen a <= prefixlen b).

#[local] Instance key_le_dec a b : Decision (key_le a b).
Proof. unfold key_le. apply _. Defined.

Lemma net_leb_spec a b : proper v a -> proper v b -> net_leb a b = true <-> key_le a b.
Proof.
  intros (A & UA & VA) (B & UB & VB). unfold net_leb. rewrite network_lt_spec by (done || congruence). unfold key_le. zcase; cbn [orb andb]; split; (done || lia).
Qed.

Lemma sorted_spec l : Forall (proper v) l -> exists s, sorted_nets l = Ret s /\ s ≡ₚ l /\ StronglySorted key_le s.
Proof.
  intros F. destruct l as [|n l]; [exists []; split; [done|]; split; [done|constructor]|]. unfold sorted_nets.
  replace (forallb _ (n :: l)) with true.
  - exists (sort_by net_leb (n :: l)). split; [done|]. split; [apply sort_by_perm|].
    assert (S : forall s, Forall (proper v) s -> StronglySorted key_le (sort_by net_leb s)); [|by apply S].
    clear n l F. induction s as [|a s IH]; intros F; [constructor|]. apply Forall_cons in F as [PA F]. cbn [sort_by foldr]. fold (sort_by net_leb s).
    assert (PS : Forall (proper v) (sort_by net_leb s)) by (by rewrite sort_by_perm). specialize (IH F).
    induction IH as [|b t T IHT B]; [repeat constructor|]. apply Forall_cons in PS as [PB PT]. cbn [insert_by]. destruct (net_leb a b) eqn:E.
    + apply net_leb_spec in E; [|done..]. constructor; [by constructor|]. constructor; [done|]. eapply Forall_impl; [exact B|].
      intros c Hc. unfold key_le in *. lia.
    + assert (E' : key_le b a). { unfold key_le. destruct (decide (key_le a b)) as [K|K]; [by rewrite (proj2 (net_leb_spec a b PA PB) K) in E|]. unfold key_le in K. lia. }
      constructor; [by apply IHT|]. rewrite insert_by_perm. by constructor.
  - symmetry. apply forallb_Forall. apply Forall_cons in F as [(_ & _ & V) F]. constructor; [unfold same_version; by rewrite bool_decide_eq_true_2|].
    eapply Forall_impl; [exact F|]. intros m (_ & _ & VM). unfold same_version. rewrite bool_decide_eq_true_2; congruence.
Qed.

(** Two networks are nested or apart. *)
Lemma nested_or_apart a b : proper v a -> proper v b -> prefixlen a <= prefixlen b -> within b a \/ last_ip a < first_ip b \/ last_ip b < first_ip a.
Proof.
  intros (A & _ & VA) (B & _ & VB) L. pose proof (net_prefix b B) as PB. pose proof (net_prefix a A) as PA. unfold within, last_ip, size in *. rewrite VA, VB in *.
  pose proof (block_split v (prefixlen a) (prefixlen b - prefixlen a) ltac:(lia) ltac:(lia)) as S. replace (prefixlen a + (prefixlen b - prefixlen a)) with (prefixlen b) in S by lia.
  pose proof (net_aligned a A) as ALA. pose proof (net_aligned b B) as ALB. fold (first_ip a) in ALA. fold (first_ip b) in ALB. rewrite VA in ALA. rewrite VB in ALB.
  pose proof (block_pos v (prefixlen b) ltac:(lia)). rewrite S in *. set (k := 2 ^ (prefixlen b - prefixlen a)) in *. set (s := block_size v (prefixlen b)) in *.
  assert (0 < k) by (apply Z.pow_pos_nonneg; lia).
  pose proof (Z.div_mod (first_ip a) (k * s) ltac:(nia)) as DA. rewrite ALA in DA. pose proof (Z.div_mod (first_ip b) s ltac:(lia)) as DB. rewrite ALB in DB.
  set (x := first_ip a / (k * s)) in *. set (y := first_ip b / s) in *.
  destruct (decide (y < k * x)) as [Y|Y]; [right; right; nia|]. destruct (decide (y < k * x + k)) as [Z|Z]; [left; nia | right; left; nia].
Qed.

Definition before (a b : network) : Prop := last_ip a < first_ip b.

(** What [skip_subsumed] does to networks in order, all at or after [last]. *)
Lemma skip_spec last nets : (forall l, last = Some l -> proper v l /\ Forall (key_le l) nets) -> Forall (proper v) nets -> StronglySorted key_le nets ->
  exists out, skip_subsumed last nets = Ret out /\ StronglySorted before out /\ out ⊆+ nets /\ (forall l, last = Some l -> Forall (before l) out)
    /\ forall x, covered x nets -> covered x out \/ exists l, last = Some l /\ inside x l.
Proof.
  revert last. induction nets as [|n nets IH]; intros last HL F S.
  { exists []. split; [done|]. split; [constructor|]. split; [done|]. split; [intros; constructor|]. intros x. rewrite covered_nil. tauto. }
  apply Forall_cons in F as [PN F]. apply StronglySorted_inv in S as [S SN]. cbn [skip_subsumed].
  assert (K : exists skip, match last with None => Ret false | Some last => lb ← broadcast_address last; nb ← broadcast_address n; Address.ge lb nb end = Ret skip
    /\ (skip = true <-> exists l, last = Some l /\ last_ip n <= last_ip l)).
  { destruct last as [l|]; [|exists false; split; [done|]; split; [done|]; intros (? & ? & ?); done].
    destruct (HL l eq_refl) as [(GL & _ & VL) _]. pose proof PN as (GN & _ & VN). rewrite !broadcast_ret, !py_ret_bind, VL, VN, plain_ge by done.
    eexists. split; [done|]. rewrite Z.leb_le. split; [intros; by exists l | intros (? & [= <-] & ?); done]. }
  destruct K as (skip & -> & K). rewrite py_ret_bind. destruct skip.
  - destruct (proj1 K eq_refl) as (l & -> & Hl). destruct (HL l eq_refl) as [PL KL]. apply Forall_cons in KL as [KN KL].
    destruct (IH (Some l)) as (out & -> & SO & SU & B & C); [by intros ? [= <-] | done | done|]. exists out. split; [done|]. split; [done|].
    split; [by apply submseteq_cons|]. split; [done|]. intros x. rewrite covered_cons. intros [I | I]; [|by apply C]. right. exists l. split; [done|].
    unfold inside, key_le in *. lia.
  - destruct (IH (Some n)) as (out & -> & SO & SU & B & C); [by intros ? [= <-] | done | done|]. rewrite py_ret_bind. exists (n :: out). split; [done|].
    specialize (B n eq_refl). split; [by constructor|]. split; [by apply submseteq_skip|].
    assert (BL : forall l, last = Some l -> before l n).
    { intros l ->. destruct (HL l eq_refl) as [PL KL]. apply Forall_cons in KL as [KN _]. unfold before, key_le in *. pose proof (proper_range v l PL). pose proof (proper_range v n PN).
      assert (NL : last_ip l < last_ip n). { destruct (decide (last_ip l < last_ip n)) as [|X]; [done|]. exfalso. assert (false = true); [|done]. apply K. exists l. split; [done|]. lia. }
      destruct (Z.le_ge_cases (prefixlen l) (prefixlen n)) as [P|P].
      - destruct (nested_or_apart l n PL PN P) as [[? ?] | [? | ?]]; lia.
      - destruct (nested_or_apart n l PN PL P) as [[? ?] | [? | ?]]; [|lia|lia]. assert (prefixlen l = prefixlen n) as E by lia.
        destruct (nested_or_apart l n PL PN ltac:(lia)) as [[? ?] | [? | ?]]; lia. }
    split.
    + intros l El. specialize (BL l El). constructor; [done|]. eapply Forall_impl; [exact B|]. intros m Hm. unfold before in *. pose proof (proper_range v n PN). lia.
    + intros x. rewrite !covered_cons. intros [I | I]; [by left; left|]. destruct (C x I) as [? | (l & [= <-] & ?)]; left; tauto.
Qed.

Lemma collapse_internal_spec nets : Forall (proper v) nets ->
  exists out, collapse_addresses_internal nets = Ret out /\ Forall (proper v) out /\ StronglySorted before out
    /\ (forall x, covered x out <-> covered x nets)
    /\ forall a b k, a ∈ out -> b ∈ out -> parent a k -> parent b k -> a = b.
Proof.
  intros F. unfold collapse_addresses_internal. destruct (merge_spec (merge_fuel nets) (rev nets) []) as (d & -> & [ND DP] & C).
  { by apply Forall_rev. }
  { split; constructor. }
  { unfold merge_fuel. rewrite length_rev. cbn [length]. lia. }
  rewrite py_ret_bind. assert (PV : Forall (proper v) (values d)).
  { apply Forall_fmap. eapply Forall_impl; [exact DP|]. intros [k n] (_ & P & _). done. }
  destruct (sorted_spec (values d) PV) as (s & E & P & SS). fold (values d). rewrite E, py_ret_bind.
  destruct (skip_spec None s) as (out & -> & SO & SU & _ & CO); [done | by rewrite P | done|].
  assert (IN : forall n, n ∈ out -> n ∈ values d) by (intros n Hn; rewrite <- P; by apply (elem_of_submseteq _ _ _ Hn SU)).
  exists out. split; [done|]. split; [apply Forall_forall; intros n Hn; rewrite Forall_forall in PV; by apply PV, IN|]. split; [done|]. split.
  - intros x. rewrite <- (covered_perm x (rev nets) nets) by (symmetry; apply Permutation_rev). split; intros H.
    + assert (covered x (values d)) as H2. { unfold covered in *. rewrite Exists_exists in *. destruct H as (n & Hn & I). exists n. auto. }
      apply C in H2 as [? | H2]; [done|]. by apply covered_nil in H2.
    + destruct (CO x) as [? | (? & ? & _)]; [|done|done]. rewrite (covered_perm x s (values d)) by done. apply C. by left.
  - intros a b k Ha Hb PA PB. apply IN in Ha, Hb. unfold values in *. apply list_elem_of_fmap in Ha as ([ka a'] & -> & Ha), Hb as ([kb b'] & -> & Hb). cbn [snd] in *.
    rewrite Forall_forall in DP. destruct (DP _ Ha) as (_ & _ & Pa). destruct (DP _ Hb) as (_ & _ & Pb). unfold parent in *.
    assert (ka = kb) as -> by congruence.
    apply list_elem_of_lookup in Ha as [i Hi], Hb as [j Hj].
    assert (i = j) as ->; [|congruence]. eapply NoDup_lookup; [exact ND|..]; rewrite list_lookup_fmap; [by rewrite Hi | by rewrite Hj].
Qed.

(** ** The whole of it *)

Definition proper_object (o : ip_object) : Prop := match o with ObjAddress a => plain_address v a | ObjNetwork n => proper v n end.
Definition object_has (x : Z) (o : ip_object) : Prop := match o with ObjAddress a => x = ip a | ObjNetwork n => inside x n end.
Definition has_ip (x : Z) (l : list address) : Prop := exists a : address, a ∈ l /\ x = ip a.

Lemma last_version_ok {A} (ver : A -> version) l : Forall (fun x => ver x = v) l -> last_version ver l v = Ret tt.
Proof.
  intros F. unfold last_version. destruct (last l) as [x|] eqn:E; [|done]. rewrite last_lookup in E. rewrite Forall_lookup in F.
  unfold same_version. by rewrite bool_decide_eq_true_2 by (by eapply F).
Qed.

Lemma single_address n x : proper v n -> prefixlen n = max_prefixlen (version_ n) -> inside x n <-> x = ip (network_address n).
Proof.
  intros _ E. unfold inside, last_ip, size, block_size. rewrite E, Z.sub_diag. change (2 ^ 0) with 1. unfold first_ip. lia.
Qed.

Lemma has_ip_app x l1 l2 : has_ip x (l1 ++ l2) <-> has_ip x l1 \/ has_ip x l2.
Proof.
  unfold has_ip. split.
  - intros (a & Ha & E). apply elem_of_app in Ha as [Ha | Ha]; [left | right]; by exists a.
  - intros [(a & Ha & E) | (a & Ha & E)]; exists a; (split; [apply elem_of_app; by (left + right) | done]).
Qed.
Lemma has_ip_one x (a : address) : has_ip x [a] <-> x = ip a.
Proof.
  unfold has_ip. split; [intros (b & Hb & ->); by apply list_elem_of_singleton in Hb as -> | intros ->; exists a].
  by rewrite list_elem_of_singleton.
Qed.

Lemma split_spec objs ips nets : Forall proper_object objs -> Forall (plain_address v) ips -> Forall (proper v) nets ->
  exists ips' nets', foldM split_step (ips, nets) objs = Ret (ips', nets') /\ Forall (plain_address v) ips' /\ Forall (proper v) nets'
    /\ forall x, has_ip x ips' \/ covered x nets' <-> (has_ip x ips \/ covered x nets) \/ Exists (object_has x) objs.
Proof.
  intros F. revert ips nets. induction F as [|o objs PO _ IH]; intros ips nets FI FN.
  { exists ips, nets. split; [done|]. split; [done|]. split; [done|]. intros x. rewrite Exists_nil. tauto. }
  cbn [foldM]. assert (VI : Forall (fun a => Address.version_ a = v) ips) by (eapply Forall_impl; [exact FI|]; by intros ? (_ & ? & _)).
  assert (VN : Forall (fun n => version_ n = v) nets) by (eapply Forall_impl; [exact FN|]; by intros ? (_ & _ & ?)).
  destruct o as [a|n]; cbn [split_step].
  - cbn in PO. pose proof PO as (_ & Va & _). rewrite Va, last_version_ok, py_ret_bind, py_ret_bind by done.
    destruct (IH (ips ++ [a]) nets) as (ips' & nets' & -> & FI' & FN' & C); [apply Forall_app; split; [done | by apply Forall_singleton] | done|].
    exists ips', nets'. split; [done|]. split; [done|]. split; [done|]. intros x. rewrite C, has_ip_app, has_ip_one, Exists_cons. cbn [object_has]. tauto.
  - cbn in PO. pose proof PO as (Gn & Un & Vn). destruct (Z.eqb_spec (prefixlen n) (max_prefixlen (version_ n))) as [E|N].
    + rewrite Vn, last_version_ok, py_ret_bind, py_ret_bind by done.
      destruct (IH (ips ++ [network_address n]) nets) as (ips' & nets' & -> & FI' & FN' & C); [|done|].
      { apply Forall_app. split; [done|]. apply Forall_singleton. split; [apply Gn|]. split; [by rewrite (net_version n Gn) | done]. }
      exists ips', nets'. split; [done|]. split; [done|]. split; [done|]. intros x. rewrite C, has_ip_app, has_ip_one, Exists_cons. cbn [object_has].
      rewrite (single_address n x PO E). tauto.
    + rewrite Vn, last_version_ok, py_ret_bind, py_ret_bind by done.
      destruct (IH ips (nets ++ [n])) as (ips' & nets' & -> & FI' & FN' & C); [done | apply Forall_app; split; [done | by apply Forall_singleton]|].
      exists ips', nets'. split; [done|]. split; [done|]. split; [done|]. intros x. rewrite C, covered_app, covered_cons, covered_nil, Exists_cons. cbn [object_has]. tauto.
Qed.

Lemma elem_of_dedup l (a : address) : Forall (plain_address v) l -> a ∈ dedup l <-> a ∈ l.
Proof.
  intros F. induction F as [|b l PB PL IH]; [done|]. cbn [dedup]. rewrite !elem_of_cons.
  assert (X : a ∈ List.filter (fun c => negb (Address.eqb b c)) (dedup l) <-> a ∈ l /\ negb (Address.eqb b a) = true).
  { rewrite list_elem_of_In, filter_In, <- list_elem_of_In, IH. done. }
  rewrite X. split; [tauto|]. intros [-> | H]; [by left|]. destruct (Address.eqb b a) eqn:E; [left | by right].
  rewrite Forall_forall in PL. specialize (PL a H). rewrite (plain_address_eq v b PB), (plain_address_eq v a PL), plain_eqb in E.
  rewrite (plain_address_eq v b PB), (plain_address_eq v a PL). f_equal. lia.
Qed.

Definition range_ok (r : address * address) : Prop := plain_address v (fst r) /\ plain_address v (snd r) /\ ip (fst r) <= ip (snd r).

Lemma ranges_spec first last it : plain_address v first -> plain_address v last -> ip first <= ip last -> Forall (plain_address v) it ->
  Forall range_ok (address_ranges first last it)
  /\ forall x, Exists (fun r => ip (fst r) <= x <= ip (snd r)) (address_ranges first last it) <-> ip first <= x <= ip last \/ has_ip x it.
Proof.
  intros PF PL L F. revert first last PF PL L. induction F as [|a it PA _ IH]; intros first last PF PL L; cbn [address_ranges].
  - split; [by apply Forall_singleton|]. intros x. rewrite Exists_cons, Exists_nil. cbn [fst snd]. split; [tauto|]. intros [? | (b & Hb & _)]; [tauto|]. by apply not_elem_of_nil in Hb.
  - change (a :: it) with ([a] ++ it). destruct (Z.eqb_spec (ip a) (ip last + 1)) as [E|N]; cbn [negb].
    + destruct (IH first a PF PA ltac:(lia)) as [R C]. split; [done|]. intros x. rewrite C, has_ip_app, has_ip_one. intuition lia.
    + destruct (IH a a PA PA ltac:(lia)) as [R C]. split; [by constructor|]. intros x. rewrite Exists_cons, C, has_ip_app, has_ip_one. cbn [fst snd]. intuition lia.
Qed.

Lemma find_range_spec l : Forall (plain_address v) l -> Forall range_ok (find_address_range l)
  /\ forall x, Exists (fun r => ip (fst r) <= x <= ip (snd r)) (find_address_range l) <-> has_ip x l.
Proof.
  intros F. destruct F as [|a it PA F]; cbn [find_address_range].
  - split; [constructor|]. intros x. rewrite Exists_nil. split; [done|]. intros (b & Hb & _). by apply not_elem_of_nil in Hb.
  - destruct (ranges_spec a a it PA PA ltac:(lia) F) as [R C]. split; [done|]. intros x. change (a :: it) with ([a] ++ it). rewrite C, has_ip_app, has_ip_one. intuition lia.
Qed.

Lemma summarize_all rs : Forall range_ok rs ->
  exists ls, mapM_py (fun '(first, last) => summarize_address_range first last) rs = Ret ls /\ Forall (proper v) (concat ls)
    /\ forall x, covered x (concat ls) <-> Exists (fun r => ip (fst r) <= x <= ip (snd r)) rs.
Proof.
  induction 1 as [|[f l] rs (PF & PL & L) _ IH]; [exists []; split; [done|]; split; [constructor|]; intros x; rewrite Exists_nil; apply covered_nil|].
  cbn [fst snd] in *. cbn [mapM_py]. destruct (proj1 (summarize_spec v f l PF PL) L) as (ns & -> & T). rewrite py_ret_bind. destruct IH as (ls & -> & P & C). rewrite py_ret_bind.
  exists (ns :: ls). split; [done|]. cbn [concat]. split; [apply Forall_app; split; [by eapply tiles_proper | done]|]. intros x.
  rewrite covered_app, Exists_cons, C, (tiles_covered _ _ _ _ _ T). cbn [fst snd]. intuition lia.
Qed.

Lemma collapse_spec objs : Forall proper_object objs ->
  exists out, collapse_addresses objs = Ret out /\ Forall (proper v) out /\ StronglySorted before out
    /\ (forall x, covered x out <-> Exists (object_has x) objs)
    /\ forall a b k, a ∈ out -> b ∈ out -> parent a k -> parent b k -> a = b.
Proof.
  intros F. unfold collapse_addresses. destruct (split_spec objs [] [] F) as (ips & nets & -> & FI & FN & C); [constructor..|]. rewrite py_ret_bind.
  assert (ES : forall a : address, a ∈ sorted_set ips <-> a ∈ ips) by (intros a; unfold sorted_set; rewrite sort_by_perm; by apply elem_of_dedup).
  assert (FS : Forall (plain_address v) (sorted_set ips)) by (apply Forall_forall; intros a Ha; rewrite Forall_forall in FI; by apply FI, ES).
  destruct (find_range_spec _ FS) as [R CR]. destruct (summarize_all _ R) as (ls & -> & PL & CL). rewrite py_ret_bind.
  destruct (collapse_internal_spec (concat ls ++ nets)) as (out & -> & PO & SO & CO & U); [by apply Forall_app|].
  exists out. split; [done|]. split; [done|]. split; [done|]. split; [|done]. intros x. rewrite CO, covered_app, CL, CR.
  assert (H : has_ip x (sorted_set ips) <-> has_ip x ips) by (unfold has_ip; by setoid_rewrite ES). rewrite H, C, covered_nil.
  split; [|tauto]. intros [[(a & Ha & _) | []] | ?]; [|done]. by apply not_elem_of_nil in Ha.
Qed.
End collapse.

(** * The theorems on ranges *)

(** the summary of a range of addresses is a list of networks that follow one
    another from the first address to the last, found within a number of
    rounds linear in the bits; a range the wrong way round is a [ValueError]. *)
Theorem summary_tiles v first last : plain_address v first -> plain_address v last ->
  (ip first <= ip last -> exists l, summarize_address_range first last = Ret l /\ tiles v (ip first) l (ip last + 1))
  /\ (ip last < ip first -> summarize_address_range first last = Raise ValueError).
Proof. apply summarize_spec. Qed.

(** C29: collapsing addresses and networks of one version, none with a scope,
    returns networks in order, apart from one another, that cover exactly the
    addresses given, and no two of which make up a larger network. *)
Theorem collapse_canonical v objs : Forall (proper_object v) objs ->
  exists out, collapse_addresses objs = Ret out /\ Forall (proper v) out /\ StronglySorted before out
    /\ (forall x, covered x out <-> Exists (object_has x) objs)
    /\ forall a b k, a ∈ out -> b ∈ out -> supernet a 1 None = Ret k -> supernet b 1 None = Ret k -> a = b.
Proof. apply collapse_spec. Qed.



(** * Witnesses *)

Lemma summary_tiles_witness : exists l, summarize_address_range (Addr V4 1 None) (Addr V4 4294967295 None) = Ret l /\ tiles V4 1 l 4294967296.
Proof.
  apply (summary_tiles V4 (Addr V4 1 None) (Addr V4 4294967295 None)).
  - split; [|done]. split; [vm_compute; intuition congruence | done].
  - split; [|done]. split; [vm_compute; intuition congruence | done].
  - vm_compute. congruence.
Defined.

Lemma collapse_canonical_witness : exists out, collapse_addresses [ObjAddress (Addr V4 8 None); ObjNetwork (plain_net V4 10 31); ObjAddress (Addr V4 9 None)] = Ret out
  /\ StronglySorted before out.
Proof.
  destruct (collapse_canonical V4 [ObjAddress (Addr V4 8 None); ObjNetwork (plain_net V4 10 31); ObjAddress (Addr V4 9 None)]) as (out & H & _ & S & _); [|by exists out].
  rewrite !Forall_cons. split_and!; [split; [|done]; split; [vm_compute; intuition congruence | done] | by apply proper_plain
    | split; [|done]; split; [vm_compute; intuition congruence | done] | done].
Defined.

