(* ===== verification/Jpeg.v ===== *)
(** Jpeg: tools/make-progressive.py, which re-codes a baseline JPEG file as a
    progressive one, and the entropy decoder of kernel/src/jpeg.rs.

    [Tool] is the script, from the bytes of the input to the bytes of the
    output.  A scan is the list of the calls it makes of [emit_symbol] and
    [emit_bits] ([event]); the script makes them twice, once to count symbols
    and once to write bits.  [Kernel] is the bit reader, the four block
    decoders, the segment parser and the frame, up to the coefficients;
    turning coefficients into pixels is not part of it.  The kernel is built
    with overflow checks and aborts on a panic, so an outcome can be [Panic]. *)
From Stdlib Require Import ZArith Lia List.
From stdpp Require Import base list gmap strings.
From S2P Require Import Prelude Text Arrays Machine Huff Png.
Open Scope Z_scope.

Definition ZIGZAG : list Z :=
  [0; 1; 8; 16; 9; 2; 3; 10; 17; 24; 32; 25; 18; 11; 4; 5; 12; 19; 26; 33; 40; 48; 41; 34; 27;
   20; 13; 6; 7; 14; 21; 28; 35; 42; 49; 56; 57; 50; 43; 36; 29; 22; 15; 23; 30; 37; 44; 51; 58;
   59; 52; 45; 38; 31; 39; 46; 53; 60; 61; 54; 47; 55; 62; 63].

(** * tools/make-progressive.py *)

Module Tool.

(** A component of the frame, with the blocks of the picture. *)
Record comp : Type := Comp {
  id : Z; h : Z; v : Z; tq : Z;
  blocks_w : Z; blocks_h : Z; real_w : Z; real_h : Z;
  blocks : list (list Z)
}.
Definition set_blocks (c : comp) (b : list (list Z)) : comp :=
  Comp (id c) (h c) (v c) (tq c) (blocks_w c) (blocks_h c) (real_w c) (real_h c) b.

(** What the loop over the segments collects. *)
Record parsed : Type := Parsed {
  quant : gmap Z (Z * list Z);
  huff : gmap (Z * Z) (list Z * list Z);
  frame : option (Z * Z * Z * list comp);
  scan : option (gmap Z (Z * Z) * list Z)
}.

Fixpoint read_dqt (fuel : nat) (body : list Z) (i : Z) (quant : gmap Z (Z * list Z)) : py (gmap Z (Z * list Z)) :=
  match fuel with
  | O => NoFuel
  | S fuel =>
      if i <? zlen body then
        b ← pyget body i;
        let '(precision, table_id) := (Z.shiftr b 4, Z.land b 15) in
        let size := 64 * (if precision =? 0 then 1 else 2) in
        read_dqt fuel body (i + (1 + size)) (<[table_id := (precision, pyslice body (i + 1) (i + 1 + size))]> quant)
      else Ret quant
  end.

Fixpoint read_dht (fuel : nat) (body : list Z) (i : Z) (huff : gmap (Z * Z) (list Z * list Z)) : py (gmap (Z * Z) (list Z * list Z)) :=
  match fuel with
  | O => NoFuel
  | S fuel =>
      if i <? zlen body then
        b ← pyget body i;
        let '(cls, table_id) := (Z.shiftr b 4, Z.land b 15) in
        let bits := pyslice body (i + 1) (i + 17) in
        let count := zsum bits in
        read_dht fuel body (i + (17 + count)) (<[(cls, table_id) := (bits, pyslice body (i + 17) (i + 17 + count))]> huff)
      else Ret huff
  end.

(** [struct.unpack(">H", l)]. *)
Definition unpack_H (l : list Z) : py Z := if zlen l =? 2 then unpack_be 2 l 0 else Raise StructError.

Definition read_component (body : list Z) (k : Z) : py comp :=
  match pyslice body (6 + 3 * k) (9 + 3 * k) with
  | [cid; hv; tq] => Ret (Comp cid (Z.shiftr hv 4) (Z.land hv 15) tq 0 0 0 0 [])
  | _ => Raise ValueError
  end.

Definition read_sof (body : list Z) : py (Z * Z * Z * list comp) :=
  match pyslice body 0 6 with
  | [precision; h1; h0; w1; w0; count] =>
      comps ← mapM_py (read_component body) (pyrange 0 count);
      Ret (precision, be_val [h1; h0], be_val [w1; w0], comps)
  | _ => Raise StructError
  end.

Definition read_sos (body : list Z) : py (gmap Z (Z * Z)) :=
  count ← pyget body 0;
  foldM (fun tables k =>
    cid ← pyget body (1 + 2 * k);
    t ← pyget body (2 + 2 * k);
    Ret (<[cid := (Z.shiftr t 4, Z.land t 15)]> tables)) ∅ (pyrange 0 count).

Fixpoint parse (fuel : nat) (data : list Z) (pos : Z) (st : parsed) : py parsed :=
  match fuel with
  | O => NoFuel
  | S fuel =>
      if pos <? zlen data then
        b ← pyget data pos;
        passert (b =? 255);;
        marker ← pyget data (pos + 1);
        if marker =? 217 then Ret st
        else
          length ← unpack_H (pyslice data (pos + 2) (pos + 4));
          let body := pyslice data (pos + 4) (pos + 2 + length) in
          let next := parse fuel data (pos + (2 + length)) in
          if marker =? 219 then
            q ← read_dqt (S (List.length body)) body 0 (quant st);
            next (Parsed q (huff st) (frame st) (scan st))
          else if marker =? 196 then
            t ← read_dht (S (List.length body)) body 0 (huff st);
            next (Parsed (quant st) t (frame st) (scan st))
          else if marker =? 192 then
            f ← read_sof body;
            next (Parsed (quant st) (huff st) (Some f) (scan st))
          else if marker =? 194 then Raise (SystemExit (lit "already progressive"))
          else if marker =? 221 then
            n ← unpack_H (pyslice body 0 2);
            if negb (n =? 0) then Raise (SystemExit (lit "restart intervals not supported by this tool"))
            else next st
          else if marker =? 218 then
            t ← read_sos body;
            Ret (Parsed (quant st) (huff st) (frame st) (Some (t, pyslice data (pos + 2 + length) (zlen data))))
          else next st
      else Ret st
  end.

(** [-(-a // b)]. *)
Definition ceil_div (a b : Z) : py Z := if b =? 0 then Raise ZeroDivisionError else Ret (- (- a / b)).

(** [max(...)] of the components. *)
Definition maximum (l : list Z) : py Z :=
  match l with [] => Raise ValueError | a :: l => Ret (foldl Z.max a l) end.

Record image : Type := Image { mcus_x : Z; mcus_y : Z; comps : list comp }.

Definition measure (width height max_h max_v mcus_x mcus_y : Z) (c : comp) : py comp :=
  let bw := mcus_x * h c in
  let bh := mcus_y * v c in
  comp_w ← ceil_div (width * h c) max_h;
  comp_h ← ceil_div (height * v c) max_v;
  rw ← ceil_div comp_w 8;
  rh ← ceil_div comp_h 8;
  Ret (Comp (id c) (h c) (v c) (tq c) bw bh rw rh (replicate (Z.to_nat (bw * bh)) (replicate 64 0))).

Definition layout (width height : Z) (cs : list comp) : py image :=
  max_h ← maximum (h <$> cs);
  max_v ← maximum (v <$> cs);
  mx ← ceil_div width (8 * max_h);
  my ← ceil_div height (8 * max_v);
  cs ← mapM_py (measure width height max_h max_v mx my) cs;
  Ret (Image mx my cs).

(** [raw]: the entropy-coded data up to the next marker, without the zeros
    stuffed after 0xFF. *)
Fixpoint unstuff (scan_data : list Z) : py (list Z) :=
  match scan_data with
  | [] => Ret []
  | b :: rest =>
      if b =? 255 then
        match rest with
        | [] => Raise IndexError
        | nxt :: rest' => if nxt =? 0 then r ← unstuff rest'; Ret (255 :: r) else Ret []
        end
      else r ← unstuff rest; Ret (b :: r)
  end.

(** [read_bit()] at [bitpos]: zeros after the end. *)
Definition raw_bit (raw : list Z) (bitpos : Z) : Z :=
  Z.land (Z.shiftr (if Z.shiftr bitpos 3 <? zlen raw then zat raw (Z.shiftr bitpos 3) else 0) (7 - Z.land bitpos 7)) 1.

Definition read_bits (raw : list Z) (bitpos n : Z) : Z * Z :=
  foldl (fun '(value, bitpos) _ => (Z.lor (Z.shiftl value 1) (raw_bit raw bitpos), bitpos + 1)) (0, bitpos) (pyrange 0 n).

Fixpoint decode_lengths (raw : list Z) (table : gmap (Z * Z) Z) (lengths : list Z) (code bitpos : Z) : py (Z * Z) :=
  match lengths with
  | [] => Raise ValueError
  | length :: lengths =>
      let code := Z.lor (Z.shiftl code 1) (raw_bit raw bitpos) in
      match table !! (length, code) with
      | Some symbol => Ret (symbol, bitpos + 1)
      | None => decode_lengths raw table lengths code (bitpos + 1)
      end
  end.
Definition decode_symbol (raw : list Z) (table : gmap (Z * Z) Z) (bitpos : Z) : py (Z * Z) :=
  decode_lengths raw table (pyrange 1 17) 0 bitpos.

Definition extend (value n : Z) : Z :=
  if negb (n =? 0) && (value <? Z.shiftl 1 (n - 1)) then value - Z.shiftl 1 n + 1 else value.

(** [while k < 64]: the AC coefficients of a block. *)
Fixpoint decode_ac (fuel : nat) (raw : list Z) (table : gmap (Z * Z) Z) (k bitpos : Z) (block : list Z) : py (Z * list Z) :=
  match fuel with
  | O => NoFuel
  | S fuel =>
      if k <? 64 then
        '(rs, bitpos) ← decode_symbol raw table bitpos;
        let '(r, s) := (Z.shiftr rs 4, Z.land rs 15) in
        if s =? 0 then
          if r =? 15 then decode_ac fuel raw table (k + 16) bitpos block else Ret (bitpos, block)
        else
          let k := k + r in
          let '(value, bitpos) := read_bits raw bitpos s in
          z ← pyget ZIGZAG k;
          block ← pyset block z (extend value s);
          decode_ac fuel raw table (k + 1) bitpos block
      else Ret (bitpos, block)
  end.

Definition lookup_key `{Countable K} {A} (m : gmap K A) (k : K) : py A := of_opt KeyError (m !! k).

Definition decode_block (raw : list Z) (decoders : gmap (Z * Z) (gmap (Z * Z) Z)) (dc_id ac_id bitpos predictor : Z) (block : list Z)
    : py (Z * Z * list Z) :=
  dc ← lookup_key decoders (0, dc_id);
  '(n, bitpos) ← decode_symbol raw dc bitpos;
  let '(value, bitpos) := read_bits raw bitpos n in
  let predictor := predictor + (if n =? 0 then 0 else extend value n) in
  block ← pyset block 0 predictor;
  ac ← lookup_key decoders (1, ac_id);
  '(bitpos, block) ← decode_ac 64 raw ac 1 bitpos block;
  Ret (bitpos, predictor, block).

(** The variables of the loops over the blocks. *)
Record decoding : Type := Decoding { bitpos : Z; predictors : list Z; components : list comp }.

Definition decode_one (raw : list Z) (decoders : gmap (Z * Z) (gmap (Z * Z) Z)) (dc_id ac_id mx my ci : Z)
    (st : decoding) (by_bx : Z * Z) : py decoding :=
  let '(by_, bx) := by_bx in
  c ← pyget (components st) ci;
  let index := (my * v c + by_) * blocks_w c + mx * h c + bx in
  block ← pyget (blocks c) index;
  predictor ← pyget (predictors st) ci;
  '(bitpos, predictor, block) ← decode_block raw decoders dc_id ac_id (bitpos st) predictor block;
  predictors ← pyset (predictors st) ci predictor;
  bs ← pyset (blocks c) index block;
  cs ← pyset (components st) ci (set_blocks c bs);
  Ret (Decoding bitpos predictors cs).

(** [for by in range(v) for bx in range(h)]. *)
Definition grid (v h : Z) : list (Z * Z) := concat ((fun y => (fun x => (y, x)) <$> pyrange 0 h) <$> pyrange 0 v).

Definition decode_comp (raw : list Z) (decoders : gmap (Z * Z) (gmap (Z * Z) Z)) (scan_tables : gmap Z (Z * Z)) (mx my : Z)
    (st : decoding) (ci : Z) : py decoding :=
  c ← pyget (components st) ci;
  '(dc_id, ac_id) ← lookup_key scan_tables (id c);
  foldM (decode_one raw decoders dc_id ac_id mx my ci) st (grid (v c) (h c)).

Definition decode_image (raw : list Z) (decoders : gmap (Z * Z) (gmap (Z * Z) Z)) (scan_tables : gmap Z (Z * Z)) (im : image) : py image :=
  st ← foldM (fun st '(my, mx) => foldM (decode_comp raw decoders scan_tables mx my) st (pyrange 0 (zlen (comps im))))
    (Decoding 0 (replicate (length (comps im)) 0) (comps im)) (grid (mcus_y im) (mcus_x im));
  Ret (Image (mcus_x im) (mcus_y im) (components st)).

(** ** The progressive encoder *)

(** A call of [emit_symbol] or [emit_bits]. *)
Inductive event : Type :=
| Sym (symbol : Z)
| Bits (value n : Z).

(** A scan: the components, the band of coefficients, and the bit positions
    before and after it. *)
Record spec : Type := Spec { cis : list Z; ss : Z; se : Z; ah : Z; al : Z }.

(** The [state] of [Scan.run], and the calls made so far. *)
Record encoding : Type := Encoding { out : list event; eobrun : Z; buffer : list Z; last_dc : gmap Z Z }.

Definition emit (es : list event) (st : encoding) : encoding := Encoding (out st ++ es) (eobrun st) (buffer st) (last_dc st).

Definition bit_length (n : Z) : Z := if n =? 0 then 0 else Z.log2 (Z.abs n) + 1.

Definition single_bits (bs : list Z) : list event := (fun b => Bits b 1) <$> bs.

Definition flush_eobrun (st : encoding) : encoding :=
  if 0 <? eobrun st then
    let n := bit_length (eobrun st) - 1 in
    Encoding (out st ++ Sym (Z.shiftl n 4)
                :: (if n =? 0 then [] else [Bits (Z.land (eobrun st) (Z.shiftl 1 n - 1)) n]) ++ single_bits (buffer st))
      0 [] (last_dc st)
  else st.

Definition dc_first (al ci : Z) (block : list Z) (st : encoding) : py encoding :=
  b ← pyget block 0;
  let temp := Z.shiftr b al in
  last ← lookup_key (last_dc st) ci;
  let diff := temp - last in
  let n := bit_length (Z.abs diff) in
  let es := Sym n :: (if n =? 0 then [] else [Bits (if 0 <=? diff then diff else Z.land (diff - 1) (Z.shiftl 1 n - 1)) n]) in
  Ret (Encoding (out st ++ es) (eobrun st) (buffer st) (<[ci := temp]> (last_dc st))).

Definition dc_refine (al : Z) (block : list Z) (st : encoding) : py encoding :=
  b ← pyget block 0;
  Ret (emit [Bits (Z.land (Z.shiftr b al) 1) 1] st).

(** [while r > 15: emit_symbol(0xF0); r -= 16]. *)
Fixpoint zrls (fuel : nat) (r : Z) (st : encoding) : py (Z * encoding) :=
  match fuel with
  | O => NoFuel
  | S fuel => if 15 <? r then zrls fuel (r - 16) (emit [Sym 240] st) else Ret (r, st)
  end.

Definition ac_first_coef (al : Z) (block : list Z) (rst : Z * encoding) (k : Z) : py (Z * encoding) :=
  let '(r, st) := rst in
  z ← pyget ZIGZAG k;
  coefficient ← pyget block z;
  if coefficient =? 0 then Ret (r + 1, st)
  else
    let '(temp, temp2) :=
      if coefficient <? 0 then let temp := Z.shiftr (- coefficient) al in (temp, Z.lnot temp)
      else let temp := Z.shiftr coefficient al in (temp, temp) in
    if temp =? 0 then Ret (r + 1, st)
    else
      '(r, st) ← zrls 64 r (flush_eobrun st);
      let n := bit_length temp in
      Ret (0, emit [Sym (Z.shiftl r 4 + n); Bits (Z.land temp2 (Z.shiftl 1 n - 1)) n] st).

Definition ac_first (ss se al : Z) (block : list Z) (st : encoding) : py encoding :=
  '(r, st) ← foldM (ac_first_coef al block) (0, st) (pyrange ss (se + 1));
  if 0 <? r then
    let st := Encoding (out st) (eobrun st + 1) (buffer st) (last_dc st) in
    Ret (if eobrun st =? 32767 then flush_eobrun st else st)
  else Ret st.

(** [absvalues] and [last_new]. *)
Definition magnitude (al : Z) (block : list Z) (avl : list Z * Z) (k : Z) : py (list Z * Z) :=
  let '(absvalues, last_new) := avl in
  z ← pyget ZIGZAG k;
  b ← pyget block z;
  let temp := Z.shiftr (Z.abs b) al in
  absvalues ← pyset absvalues k temp;
  Ret (absvalues, if temp =? 1 then k else last_new).

(** [while r > 15 and k <= last_new]. *)
Fixpoint refine_zrls (fuel : nat) (k last_new r : Z) (pending : list Z) (st : encoding) : py (Z * list Z * encoding) :=
  match fuel with
  | O => NoFuel
  | S fuel =>
      if (15 <? r) && (k <=? last_new)
      then refine_zrls fuel k last_new (r - 16) [] (emit (Sym 240 :: single_bits pending) (flush_eobrun st))
      else Ret (r, pending, st)
  end.

Definition ac_refine_coef (block absvalues : list Z) (last_new : Z) (rps : Z * list Z * encoding) (k : Z) : py (Z * list Z * encoding) :=
  let '(r, pending, st) := rps in
  temp ← pyget absvalues k;
  if temp =? 0 then Ret (r + 1, pending, st)
  else
    '(r, pending, st) ← refine_zrls 64 k last_new r pending st;
    if 1 <? temp then Ret (r, pending ++ [Z.land temp 1], st)
    else
      z ← pyget ZIGZAG k;
      b ← pyget block z;
      Ret (0, [], emit (Sym (Z.shiftl r 4 + 1) :: Bits (if b <? 0 then 0 else 1) 1 :: single_bits pending) (flush_eobrun st)).

Definition ac_refine (ss se al : Z) (block : list Z) (st : encoding) : py encoding :=
  '(absvalues, last_new) ← foldM (magnitude al block) (replicate 64 0, 0) (pyrange ss (se + 1));
  '(r, pending, st) ← foldM (ac_refine_coef block absvalues last_new) (0, [], st) (pyrange ss (se + 1));
  if (0 <? r) || (0 <? zlen pending) then
    let st := Encoding (out st) (eobrun st + 1) (buffer st ++ pending) (last_dc st) in
    Ret (if (eobrun st =? 32767) || (900 <? zlen (buffer st)) then flush_eobrun st else st)
  else Ret st.

Definition do_block (sc : spec) (ci : Z) (block : list Z) (st : encoding) : py encoding :=
  if ss sc =? 0 then
    if ah sc =? 0 then dc_first (al sc) ci block st else dc_refine (al sc) block st
  else if ah sc =? 0 then ac_first (ss sc) (se sc) (al sc) block st
  else ac_refine (ss sc) (se sc) (al sc) block st.

Definition run (im : image) (sc : spec) : py (list event) :=
  let st := Encoding [] 0 [] (list_to_map ((fun ci => (ci, 0)) <$> cis sc)) in
  st ← (if 1 <? zlen (cis sc) then
          foldM (fun st '(my, mx) => foldM (fun st ci =>
            c ← pyget (comps im) ci;
            foldM (fun st '(by_, bx) =>
              block ← pyget (blocks c) ((my * v c + by_) * blocks_w c + mx * h c + bx);
              do_block sc ci block st) st (grid (v c) (h c))) st (cis sc)) st (grid (mcus_y im) (mcus_x im))
        else
          ci ← pyget (cis sc) 0;
          c ← pyget (comps im) ci;
          foldM (fun st '(by_, bx) =>
            block ← pyget (blocks c) (by_ * blocks_w c + bx);
            do_block sc ci block st) st (grid (real_h c) (real_w c)));
  Ret (out (flush_eobrun st)).

(** [count] of every symbol emitted. *)
Definition count_event (freq : list Z) (e : event) : py (list Z) :=
  match e with
  | Sym s => n ← pyget freq s; pyset freq s (n + 1)
  | Bits _ _ => Ret freq
  end.

(** The bits of [value], the [n]-th first. *)
Definition value_bits (value n : Z) : list Z := (fun i => Z.land (Z.shiftr value i) 1) <$> rev (pyrange 0 n).

Definition event_bits (table : option (gmap Z (Z * Z))) (e : event) : py (list Z) :=
  match e with
  | Bits value n => Ret (value_bits value n)
  | Sym s =>
      t ← of_opt TypeError table;
      '(code, length) ← lookup_key t s;
      Ret (value_bits code length)
  end.

Definition pad_ones (bitbuf : list Z) : list Z := bitbuf ++ replicate (Z.to_nat (- zlen bitbuf mod 8)) 1.

(** The bytes of the bits, with a zero after every 0xFF. *)
Definition pack_bits (bitbuf : list Z) : list Z :=
  concat ((fun i => let byte := foldl (fun byte b => Z.lor (Z.shiftl byte 1) b) 0 (pyslice bitbuf i (i + 8)) in
                    if byte =? 255 then [255; 0] else [byte]) <$> range_step 0 (zlen bitbuf) 8).

Definition build_scan (im : image) (sc : spec) (out : list Z) : py (list Z) :=
  events ← run im sc;
  '(table, out) ←
    (if (ss sc =? 0) && negb (ah sc =? 0) then Ret (None, out)
     else
       freq ← foldM count_event (replicate 256 0) events;
       '(bits, values) ← Huff.Tool.optimal_table freq;
       table ← Huff.Tool.code_table bits values;
       b ← bytes_of bits;
       vs ← bytes_of values;
       let payload := [if ss sc =? 0 then 0 else 16] ++ b ++ vs in
       len ← pack_be 2 (2 + zlen payload);
       Ret (Some table, out ++ [255; 196] ++ len ++ payload));
  ids ← mapM_py (fun ci => c ← pyget (comps im) ci; bytes_of [id c; 0]) (cis sc);
  n ← bytes_of [zlen (cis sc)];
  band ← bytes_of [ss sc; se sc; Z.lor (Z.shiftl (ah sc) 4) (al sc)];
  let sos := n ++ concat ids ++ band in
  len ← pack_be 2 (2 + zlen sos);
  bits ← mapM_py (event_bits table) events;
  Ret (out ++ [255; 218] ++ len ++ sos ++ pack_bits (pad_ones (concat bits))).

Definition specs (n : Z) : list spec :=
  if n =? 3 then
    [Spec [0; 1; 2] 0 0 0 1; Spec [0] 1 5 0 2; Spec [2] 1 63 0 1; Spec [1] 1 63 0 1; Spec [0] 6 63 0 2;
     Spec [0] 1 63 2 1; Spec [0; 1; 2] 0 0 1 0; Spec [2] 1 63 1 0; Spec [1] 1 63 1 0; Spec [0] 1 63 1 0]
  else
    [Spec [0] 0 0 0 1; Spec [0] 1 5 0 2; Spec [0] 6 63 0 2; Spec [0] 1 63 2 1; Spec [0] 0 0 1 0; Spec [0] 1 63 1 0].

(** The quantization tables, by number. *)
Definition sorted_items (m : gmap Z (Z * list Z)) : list (Z * (Z * list Z)) :=
  sort_by (fun a b => a.1 <=? b.1) (map_to_list m).

Definition write_dqt (item : Z * (Z * list Z)) : py (list Z) :=
  let '(table_id, (prec, bytes_)) := item in
  len ← pack_be 2 (2 + 1 + zlen bytes_);
  head ← bytes_of [Z.lor (Z.shiftl prec 4) table_id];
  Ret ([255; 219] ++ len ++ head ++ bytes_).

Definition write_file (quant : gmap Z (Z * list Z)) (width height : Z) (im : image) : py (list Z) :=
  tables ← mapM_py write_dqt (sorted_items quant);
  hh ← pack_be 2 height;
  ww ← pack_be 2 width;
  n ← pack_be 1 (zlen (comps im));
  cs ← mapM_py (fun c => bytes_of [id c; Z.lor (Z.shiftl (h c) 4) (v c); tq c]) (comps im);
  let sof := [8] ++ hh ++ ww ++ n ++ concat cs in
  len ← pack_be 2 (2 + zlen sof);
  let result := [255; 216] ++ concat tables ++ [255; 194] ++ len ++ sof in
  result ← foldM (fun result sc => build_scan im sc result) result (specs (zlen (comps im)));
  Ret (result ++ [255; 217]).

(** The input, decoded. *)
Definition read_file (data : list Z) : py (gmap Z (Z * list Z) * Z * Z * image) :=
  st ← parse (S (length data)) data 2 (Parsed ∅ ∅ None None);
  '(precision, height, width, cs) ← of_opt TypeError (frame st);
  passert (precision =? 8);;
  im ← layout width height cs;
  decoders ← mapM_py (fun '(key, (bits, values)) => t ← Huff.Tool.build_decoder bits values; Ret (key, t)) (map_to_list (huff st));
  '(scan_tables, scan_data) ← of_opt TypeError (scan st);
  raw ← unstuff scan_data;
  im ← decode_image raw (list_to_map decoders) scan_tables im;
  Ret (quant st, width, height, im).

(** The whole script: from the bytes of the input to those of the output. *)
Definition convert (data : list Z) : py (list Z) :=
  '(quant, width, height, im) ← read_file data;
  write_file quant width height im.

End Tool.

(** * kernel/src/jpeg.rs *)

Module Kernel.
Import Png.Kernel.
Definition huffman : Type := Huff.Kernel.huffman.

#[warnings="-notation-for-abbreviation"] Notation outcome := (Machine.outcome image_error).
#[warnings="-notation-for-abbreviation"] Notation index := (Machine.index (E := image_error)).

(** ** Reader *)

Record reader : Type := Reader {
  position : Z;
  accumulator : Z;
  count : Z;
  hit_marker : bool;
  eob_run : Z
}.

Definition byte_at (data : list Z) (i : Z) : option Z := data !! Z.to_nat i.

(** One round of [while self.count <= 24]. *)
Definition fill_round (data : list Z) (r : reader) : reader :=
  if count r <=? 24 then
    let '(byte, position, hit) :=
      match (if hit_marker r then None else byte_at data (position r)) with
      | None => (0, position r, true)
      | Some value =>
          if value =? 255 then
            match byte_at data (position r + 1) with
            | Some 0 => (255, position r + 2, false)
            | _ => (0, position r, true)
            end
          else (value, position r + 1, false)
      end in
    Reader position (Z.lor (accumulator r) (Z.shiftl byte (24 - count r))) (count r + 8) hit (eob_run r)
  else r.

(** [count] is not negative, so four rounds end the loop. *)
Definition fill (data : list Z) (r : reader) : reader :=
  fill_round data (fill_round data (fill_round data (fill_round data r))).

(** The accumulator without its first [n] bits; a shift by 32 or more panics. *)
Definition consume (n : Z) (r : reader) : outcome reader :=
  if 32 <=? n then Panic
  else
    c ← u32 (count r - n);
    Ok (Reader (position r) (Z.shiftl (accumulator r) n mod 4294967296) c (hit_marker r) (eob_run r)).

Definition bits (data : list Z) (n : Z) (r : reader) : outcome (Z * reader) :=
  if n =? 0 then Ok (0, r)
  else
    let r := if count r <? n then fill data r else r in
    shift ← u32 (32 - n);
    let value := Z.shiftr (accumulator r) shift in
    r ← consume n r;
    Ok (value, r).

Definition bit (data : list Z) (r : reader) : outcome (Z * reader) := bits data 1 r.

(** The loop past the lookahead, from the code of [length] bits. *)
Fixpoint decode_long (table : huffman) (r : reader) (lengths : list Z) (code : Z) : outcome (Z * reader) :=
  match lengths with
  | [] => Err Corrupt
  | length :: lengths =>
      let code := Z.lor (Z.shiftl code 1) (Z.land (Z.shiftr (accumulator r) (32 - length)) 1) in
      if (0 <=? zat (Huff.Kernel.maxcode table) length) && (code <=? zat (Huff.Kernel.maxcode table) length)
         && (zat (Huff.Kernel.mincode table) length <=? code)
      then
        r ← consume length r;
        Ok (zat (Huff.Kernel.values table) (Z.land (zat (Huff.Kernel.valptr table) length + code - zat (Huff.Kernel.mincode table) length) 255), r)
      else decode_long table r lengths code
  end.

Definition decode (data : list Z) (table : huffman) (r : reader) : outcome (Z * reader) :=
  let r := if count r <? 16 then fill data r else r in
  let look := zat (Huff.Kernel.lookahead table) (Z.shiftr (accumulator r) 24) in
  if negb (look =? 0) then
    r ← consume (Z.shiftr look 8) r;
    Ok (look mod 256, r)
  else decode_long table r (pyrange 9 17) (Z.shiftr (accumulator r) 24).

Definition receive_extend (data : list Z) (s : Z) (r : reader) : outcome (Z * reader) :=
  if s =? 0 then Ok (0, r)
  else
    '(value, r) ← bits data s r;
    let value := as_i32 value in
    if value <? as_i32 (Z.shiftl 1 (s - 1)) then
      d ← i32 (value - as_i32 (Z.shiftl 1 s));
      x ← i32 (d + 1);
      Ok (x, r)
    else Ok (value, r).

(** Where a restart goes on: past the next RSTn, or at another marker. *)
Fixpoint skip_to_restart (fuel : nat) (data : list Z) (at_ : Z) : Z :=
  match fuel with
  | O => at_
  | S fuel =>
      match byte_at data at_, byte_at data (at_ + 1) with
      | Some a, Some b =>
          if (a =? 255) && (208 <=? b) && (b <=? 215) then at_ + 2
          else if (a =? 255) && negb (b =? 0) && negb (b =? 255) then at_
          else skip_to_restart fuel data (at_ + 1)
      | _, _ => at_
      end
  end.
Definition restart (data : list Z) (r : reader) : reader :=
  Reader (skip_to_restart (length data) data (position r)) 0 0 false 0.

Definition set_eob_run (r : reader) (n : Z) : reader :=
  Reader (position r) (accumulator r) (count r) (hit_marker r) n.

(** ** Blocks *)

Fixpoint sequential_ac (fuel : nat) (data : list Z) (ac : huffman) (k : Z) (r : reader) (block : list Z) : outcome (reader * list Z) :=
  match fuel with
  | O => Unfinished
  | S fuel =>
      if k <? 64 then
        '(rs, r) ← decode data ac r;
        let '(run, s) := (Z.shiftr rs 4, Z.land rs 15) in
        if s =? 0 then
          if negb (run =? 15) then Ok (r, block) else sequential_ac fuel data ac (k + 16) r block
        else
          let k := k + run in
          if 63 <? k then Err Corrupt
          else
            '(value, r) ← receive_extend data s r;
            sequential_ac fuel data ac (k + 1) r (zset block (zat ZIGZAG k) (as_i16 value))
      else Ok (r, block)
  end.

Definition decode_sequential (data : list Z) (dc ac : huffman) (r : reader) (predictor : Z) (block : list Z)
    : outcome (reader * Z * list Z) :=
  '(s, r) ← decode data dc r;
  if 16 <? s then Err Corrupt
  else
    '(diff, r) ← receive_extend data s r;
    predictor ← i32 (predictor + diff);
    '(r, block) ← sequential_ac 64 data ac 1 r (zset block 0 (as_i16 predictor));
    Ok (r, predictor, block).

(** [reader.eob_run = 1 << r], with [r] more bits added. *)
Definition read_eob_run (data : list Z) (run : Z) (r : reader) : outcome reader :=
  let e := Z.shiftl 1 run in
  if run =? 0 then Ok (set_eob_run r e)
  else
    '(x, r) ← bits data run r;
    e ← u32 (e + x);
    Ok (set_eob_run r e).

Fixpoint ac_first_loop (fuel : nat) (data : list Z) (ac : huffman) (se al k : Z) (r : reader) (block : list Z) : outcome (reader * list Z) :=
  match fuel with
  | O => Unfinished
  | S fuel =>
      if k <=? se then
        '(rs, r) ← decode data ac r;
        let '(run, s) := (Z.shiftr rs 4, Z.land rs 15) in
        if negb (s =? 0) then
          let k := k + run in
          if 63 <? k then Err Corrupt
          else
            '(value, r) ← receive_extend data s r;
            ac_first_loop fuel data ac se al (k + 1) r (zset block (zat ZIGZAG k) (as_i16 (Z.shiftl value al)))
        else if run =? 15 then ac_first_loop fuel data ac se al (k + 16) r block
        else
          r ← read_eob_run data run r;
          e ← u32 (eob_run r - 1);
          Ok (set_eob_run r e, block)
      else Ok (r, block)
  end.

Definition decode_ac_first (data : list Z) (ac : huffman) (ss se al : Z) (r : reader) (block : list Z) : outcome (reader * list Z) :=
  if 0 <? eob_run r then Ok (set_eob_run r (eob_run r - 1), block)
  else ac_first_loop 64 data ac se al ss r block.

(** A coefficient that is not zero takes one more bit. *)
Definition refine_coef (data : list Z) (al position : Z) (r : reader) (block : list Z) : outcome (reader * list Z) :=
  let p1 := as_i16 (Z.shiftl 1 al) in
  let m1 := as_i16 (Z.shiftl (-1) al) in
  let x := zat block position in
  '(b, r) ← bit data r;
  if negb (b =? 0) && (Z.land x p1 =? 0) then
    x ← i16 (if 0 <=? x then x + p1 else x + m1);
    Ok (r, zset block position x)
  else Ok (r, block).

(** Over [run] zero coefficients, refining the others on the way. *)
Fixpoint refine_run (fuel : nat) (data : list Z) (se al run k : Z) (r : reader) (block : list Z) : outcome (Z * reader * list Z) :=
  match fuel with
  | O => Unfinished
  | S fuel =>
      if k <=? se then
        let position := zat ZIGZAG k in
        if negb (zat block position =? 0) then
          '(r, block) ← refine_coef data al position r block;
          refine_run fuel data se al run (k + 1) r block
        else if run - 1 <? 0 then Ok (k, r, block)
        else refine_run fuel data se al (run - 1) (k + 1) r block
      else Ok (k, r, block)
  end.

Fixpoint refine_loop (fuel : nat) (data : list Z) (ac : huffman) (se al k : Z) (r : reader) (block : list Z) : outcome (Z * reader * list Z) :=
  match fuel with
  | O => Unfinished
  | S fuel =>
      if k <=? se then
        '(rs, r) ← decode data ac r;
        let '(run, s) := (Z.shiftr rs 4, Z.land rs 15) in
        if (s =? 0) && negb (run =? 15) then
          r ← read_eob_run data run r;
          Ok (k, r, block)
        else
          '(new_value, r) ← (if negb (s =? 0)
                             then '(b, r) ← bit data r; Ok (if negb (b =? 0) then as_i16 (Z.shiftl 1 al) else as_i16 (Z.shiftl (-1) al), r)
                             else Ok (0, r));
          '(k, r, block) ← refine_run 65 data se al run k r block;
          let block := if negb (new_value =? 0) && (k <=? se) then zset block (zat ZIGZAG k) new_value else block in
          refine_loop fuel data ac se al (k + 1) r block
      else Ok (k, r, block)
  end.

(** The rest of the band: only refinement bits. *)
Definition refine_rest (data : list Z) (al : Z) (st : reader * list Z) (k : Z) : outcome (reader * list Z) :=
  let '(r, block) := st in
  if negb (zat block (zat ZIGZAG k) =? 0) then refine_coef data al (zat ZIGZAG k) r block else Ok (r, block).

Definition decode_ac_refine (data : list Z) (ac : huffman) (ss se al : Z) (r : reader) (block : list Z) : outcome (reader * list Z) :=
  '(k, r, block) ← (if eob_run r =? 0 then refine_loop 65 data ac se al ss r block else Ok (ss, r, block));
  if 0 <? eob_run r then
    '(r, block) ← foldK (refine_rest data al) (r, block) (pyrange k (se + 1));
    Ok (set_eob_run r (eob_run r - 1), block)
  else Ok (r, block).

(** ** Scans *)

Record component : Type := Component {
  cid : Z; h : Z; v : Z; tq : Z;
  blocks_w : Z; blocks_h : Z; real_w : Z; real_h : Z;
  coefficient_offset : Z; dc_dest : Z; ac_dest : Z; predictor : Z
}.
Definition set_tables (c : component) (dc ac : Z) : component :=
  Component (cid c) (h c) (v c) (tq c) (blocks_w c) (blocks_h c) (real_w c) (real_h c) (coefficient_offset c) dc ac 0.
Definition set_predictor (c : component) (p : Z) : component :=
  Component (cid c) (h c) (v c) (tq c) (blocks_w c) (blocks_h c) (real_w c) (real_h c) (coefficient_offset c) (dc_dest c) (ac_dest c) p.

(** The decoder; the components are the first [component_count] of the array,
    the coefficients are there once a frame was read. *)
Record decoder : Type := Decoder {
  width : Z; height : Z; progressive : bool;
  components : list component;
  quant : list (list Z);
  dc_tables : list huffman; ac_tables : list huffman;
  restart_interval : Z;
  mcus_x : Z; mcus_y : Z;
  adobe_transform : option Z;
  coefficients : option (list Z)
}.

(** What the loops of a scan change. *)
Record scanning : Type := Scanning { rd : reader; cs : list component; coefs : list Z; until_restart : Z }.

Record scan_params : Type := Params { ss : Z; se : Z; ah : Z; al : Z }.

Definition decode_block (data : list Z) (prog : bool) (p : scan_params) (dc ac : huffman) (r : reader) (pred : Z) (block : list Z)
    : outcome (reader * Z * list Z) :=
  if negb prog then
    if negb (Huff.Kernel.valid dc) || negb (Huff.Kernel.valid ac) then Err Corrupt
    else decode_sequential data dc ac r pred block
  else if ss p =? 0 then
    if ah p =? 0 then
      if negb (Huff.Kernel.valid dc) then Err Corrupt
      else
        '(s, r) ← decode data dc r;
        '(diff, r) ← receive_extend data s r;
        pred ← i32 (pred + diff);
        Ok (r, pred, zset block 0 (as_i16 (Z.shiftl pred (al p))))
    else
      '(b, r) ← bit data r;
      Ok (r, pred, if negb (b =? 0) then zset block 0 (Z.lor (zat block 0) (as_i16 (Z.shiftl 1 (al p)))) else block)
  else if negb (Huff.Kernel.valid ac) then Err Corrupt
  else if ah p =? 0 then '(r, block) ← decode_ac_first data ac (ss p) (se p) (al p) r block; Ok (r, pred, block)
  else '(r, block) ← decode_ac_refine data ac (ss p) (se p) (al p) r block; Ok (r, pred, block).

(** [&mut blocks[offset..offset + 64]], and the array after it changed. *)
Definition get_block (coefs : list Z) (offset : Z) : outcome (list Z) :=
  if (0 <=? offset) && (offset + 64 <=? zlen coefs) then Ok (pyslice coefs offset (offset + 64)) else Panic.
Definition put_block (coefs : list Z) (offset : Z) (block : list Z) : list Z := slice_assign coefs offset (offset + 64) block.

(** The block at [bx], [by] of the component [slot]. *)
Definition scan_block (data : list Z) (d : decoder) (p : scan_params) (slot : Z) (st : scanning) (by_bx : Z * Z) : outcome scanning :=
  let '(by_, bx) := by_bx in
  c ← index (cs st) slot;
  let offset := coefficient_offset c + (by_ * blocks_w c + bx) * 64 in
  block ← get_block (coefs st) offset;
  dc ← index (dc_tables d) (dc_dest c);
  ac ← index (ac_tables d) (ac_dest c);
  '(r, pred, block) ← decode_block data (progressive d) p dc ac (rd st) (predictor c) block;
  Ok (Scanning r (<[Z.to_nat slot := set_predictor c pred]> (cs st)) (put_block (coefs st) offset block) (until_restart st)).

(** The restart check before a unit. *)
Definition check_restart (data : list Z) (d : decoder) (scan : list Z) (st : scanning) : scanning :=
  if negb (restart_interval d =? 0) then
    let st :=
      if until_restart st =? 0 then
        Scanning (restart data (rd st))
          (foldl (fun cs slot => alter (fun c => set_predictor c 0) (Z.to_nat slot) cs) (cs st) scan)
          (coefs st) (restart_interval d)
      else st in
    Scanning (rd st) (cs st) (coefs st) (until_restart st - 1)
  else st.

Definition scan_unit (data : list Z) (d : decoder) (p : scan_params) (scan : list Z) (st : scanning) (y_x : Z * Z) : outcome scanning :=
  let '(unit_y, unit_x) := y_x in
  let interleaved := 1 <? zlen scan in
  foldK (fun st slot =>
    c ← index (cs st) slot;
    let '(hh, vv) := if interleaved then (h c, v c) else (1, 1) in
    foldK (scan_block data d p slot) st
      ((fun '(block_y, block_x) => if interleaved then (unit_y * vv + block_y, unit_x * hh + block_x) else (unit_y, unit_x)) <$> Tool.grid vv hh))
    (check_restart data d scan st) scan.

(** The next marker at or after [at_]: the scan ends there. *)
Fixpoint next_marker (fuel : nat) (data : list Z) (at_ : Z) : Z :=
  match fuel with
  | O => zlen data
  | S fuel =>
      match byte_at data at_, byte_at data (at_ + 1) with
      | Some a, Some b =>
          if (a =? 255) && negb (b =? 0) && negb ((208 <=? b) && (b <=? 215)) && negb (b =? 255) then at_
          else next_marker fuel data (at_ + 1)
      | _, _ => zlen data
      end
  end.

Definition decode_scan_blocks (data : list Z) (d : decoder) (coefs0 : list Z) (cs0 : list component) (scan : list Z) (p : scan_params) (data_start : Z)
    : outcome (Z * list component * list Z) :=
  slot ← index scan 0;
  c ← index cs0 slot;
  let '(units_x, units_y) := if 1 <? zlen scan then (mcus_x d, mcus_y d) else (real_w c, real_h c) in
  st ← foldK (scan_unit data d p scan)
    (Scanning (Reader data_start 0 0 false 0) cs0 coefs0 (restart_interval d)) (Tool.grid units_y units_x);
  Ok (next_marker (length data) data (position (rd st)), cs st, coefs st).

(** [position(|c| c.id == id)]. *)
Fixpoint find_slot (cs : list component) (id : Z) : option Z :=
  match cs with
  | [] => None
  | c :: cs => if cid c =? id then Some 0 else (fun k => k + 1) <$> find_slot cs id
  end.

Definition select (header : list Z) (st : list component * list Z) (k : Z) : outcome (list component * list Z) :=
  let '(cs, scan) := st in
  id ← index header (1 + k * 2);
  tables ← index header (2 + k * 2);
  slot ← ok_or Corrupt (find_slot cs id);
  Ok (alter (fun c => set_tables c (Z.land (Z.shiftr tables 4) 3) (Z.land (Z.land tables 15) 3)) (Z.to_nat slot) cs, scan ++ [slot]).

Definition with_scan (d : decoder) (cs : list component) (co : list Z) : decoder :=
  Decoder (width d) (height d) (progressive d) cs (quant d) (dc_tables d) (ac_tables d) (restart_interval d)
    (mcus_x d) (mcus_y d) (adobe_transform d) (Some co).

Definition decode_scan (data : list Z) (d : decoder) (header : list Z) (data_start : Z) : outcome (Z * decoder) :=
  count ← ok_or Corrupt (header !! 0%nat);
  if (count =? 0) || (zlen (components d) <? count) || (zlen header <? 1 + count * 2 + 3) then Err Corrupt
  else
    '(cs, scan) ← foldK (select header) (components d, []) (pyrange 0 count);
    ss ← index header (1 + count * 2);
    se ← index header (2 + count * 2);
    approx ← index header (3 + count * 2);
    if (63 <? ss) || (63 <? se) || (se <? ss) then Err Corrupt
    else
      co ← ok_or Corrupt (coefficients d);
      '(end_, cs, co) ← decode_scan_blocks data d co cs scan (Params ss se (Z.shiftr approx 4) (Z.land approx 15)) data_start;
      Ok (end_, with_scan d cs co).

(** ** Segments *)

Fixpoint read_quant (fuel : nat) (body : list Z) (quant : list (list Z)) : outcome (list (list Z)) :=
  match fuel with
  | O => Unfinished
  | S fuel =>
      match body with
      | [] => Ok quant
      | b :: _ =>
          let precision := Z.shiftr b 4 in
          let id := Z.land b 15 in
          if 3 <? id then Err Corrupt
          else
            let size := if precision =? 0 then 64 else 128 in
            if zlen body <? 1 + size then Err Corrupt
            else
              let value i := if precision =? 0 then zat body (1 + i)
                             else Z.lor (Z.shiftl (zat body (1 + i * 2)) 8) (zat body (2 + i * 2)) in
              let table := default [] (quant !! Z.to_nat id) in
              let table := foldl (fun t i => zset t (zat ZIGZAG i) (value i)) table (pyrange 0 64) in
              read_quant fuel (drop (Z.to_nat (1 + size)) body) (<[Z.to_nat id := table]> quant)
      end
  end.

Fixpoint read_huffman (fuel : nat) (body : list Z) (tables : list huffman * list huffman) : outcome (list huffman * list huffman) :=
  match fuel with
  | O => Unfinished
  | S fuel =>
      if 17 <=? zlen body then
        let '(dc, ac) := tables in
        let class := Z.shiftr (zat body 0) 4 in
        let id := Z.land (zat body 0) 15 in
        if (3 <? id) || (1 <? class) then Err Corrupt
        else
          let counts := pyslice body 1 17 in
          let total := zsum counts in
          if zlen body <? 17 + total then Err Corrupt
          else
            table ← ok_or Corrupt (Huff.Kernel.build counts (pyslice body 17 (17 + total)));
            read_huffman fuel (drop (Z.to_nat (17 + total)) body)
              (if class =? 0 then (<[Z.to_nat id := table]> dc, ac) else (dc, <[Z.to_nat id := table]> ac))
      else Ok tables
  end.

Definition be16 (data : list Z) (at_ : Z) : option Z :=
  a ← byte_at data at_;
  b ← byte_at data (at_ + 1);
  Some (Z.lor (Z.shiftl a 8) b).

(** [a.div_ceil(b)]; the divisors here are positive. *)
Definition div_ceil (a b : Z) : Z := (a + b - 1) / b.

Definition frame_component (body : list Z) (index : Z) : outcome component :=
  let id := zat body (6 + index * 3) in
  let hv := zat body (7 + index * 3) in
  let t := zat body (8 + index * 3) in
  let '(hh, vv) := (Z.shiftr hv 4, Z.land hv 15) in
  if negb (between 1 hh 4) || negb (between 1 vv 4) || (3 <? t) then Err Corrupt
  else Ok (Component id hh vv t 0 0 0 0 0 0 0 0).

Definition collect_component (body : list Z) (cs : list component) (index : Z) : outcome (list component) :=
  c ← frame_component body index; Ok (cs ++ [c]).

(** The sizes of a component; the offset is that of its first coefficient. *)
Definition place (width height max_h max_v mcus_x mcus_y : Z) (st : list component * Z) (c : component) : list component * Z :=
  let '(cs, total) := st in
  let bw := mcus_x * h c in
  let bh := mcus_y * v c in
  let comp_width := div_ceil (width * h c) max_h in
  let comp_height := div_ceil (height * v c) max_v in
  (cs ++ [Component (cid c) (h c) (v c) (tq c) bw bh (div_ceil comp_width 8) (div_ceil comp_height 8) total 0 0 0],
   total + bw * bh * 64).

Definition read_frame (body : list Z) (prog : bool) (d : decoder) : outcome decoder :=
  if (zlen body <? 6) || negb (zat body 0 =? 8) then Err Unsupported
  else
    height ← ok_or Corrupt (be16 body 1);
    width ← ok_or Corrupt (be16 body 3);
    let count := zat body 5 in
    if (width =? 0) || (height =? 0) || (MAX_EDGE <? width) || (MAX_EDGE <? height) then Err TooLarge
    else if MAX_PIXELS <? width * height then Err TooLarge
    else if negb ((count =? 1) || (count =? 3)) || (zlen body <? 6 + count * 3) then Err Unsupported
    else
      cs ← foldK (collect_component body) [] (pyrange 0 count);
      let cs := if count =? 1
                then (fun c => Component (cid c) 1 1 (tq c) 0 0 0 0 0 0 0 0) <$> cs else cs in
      let max_h := foldr Z.max 1 (h <$> cs) in
      let max_v := foldr Z.max 1 (v <$> cs) in
      let mx := div_ceil width (8 * max_h) in
      let my := div_ceil height (8 * max_v) in
      let '(cs, total) := foldl (place width height max_h max_v mx my) ([], 0) cs in
      Ok (Decoder width height prog cs (quant d) (dc_tables d) (ac_tables d) (restart_interval d) mx my (adobe_transform d) (Some (zeros total))).

(** [while at < data.len() && p(data[at])]. *)
Fixpoint span (p : Z -> bool) (l : list Z) : Z :=
  match l with
  | [] => 0
  | a :: l => if p a then 1 + span p l else 0
  end.
Definition skip_while (p : Z -> bool) (data : list Z) (at_ : Z) : Z := at_ + span p (drop (Z.to_nat at_) data).

Definition with_tables (d : decoder) (q : list (list Z)) (t : list huffman * list huffman) (ri : Z) (ad : option Z) : decoder :=
  Decoder (width d) (height d) (progressive d) (components d) q t.1 t.2 ri (mcus_x d) (mcus_y d) ad (coefficients d).

(** The loop of [parse]. *)
Fixpoint parse_loop (fuel : nat) (data : list Z) (at_ : Z) (have_frame : bool) (scans : Z) (d : decoder) : outcome (bool * Z * decoder) :=
  match fuel with
  | O => Unfinished
  | S fuel =>
      let at_ := skip_while (fun b => negb (b =? 255)) data at_ in
      let at_ := skip_while (fun b => b =? 255) data at_ in
      match byte_at data at_ with
      | None => Ok (have_frame, scans, d)
      | Some marker =>
          let at_ := at_ + 1 in
          if (marker =? 216) || (marker =? 1) || between 208 marker 215 || (marker =? 0)
          then parse_loop fuel data at_ have_frame scans d
          else if marker =? 217 then Ok (have_frame, scans, d)
          else
            length ← ok_or Corrupt (be16 data at_);
            if (length <? 2) || (zlen data <? at_ + length) then Err Corrupt
            else
              let body := pyslice data (at_ + 2) (at_ + length) in
              let next := parse_loop fuel data (at_ + length) in
              if marker =? 219 then
                q ← read_quant (S (List.length body)) body (quant d);
                next have_frame scans (with_tables d q (dc_tables d, ac_tables d) (restart_interval d) (adobe_transform d))
              else if marker =? 196 then
                t ← read_huffman (S (List.length body)) body (dc_tables d, ac_tables d);
                next have_frame scans (with_tables d (quant d) t (restart_interval d) (adobe_transform d))
              else if marker =? 221 then
                n ← ok_or Corrupt (be16 body 0);
                next have_frame scans (with_tables d (quant d) (dc_tables d, ac_tables d) n (adobe_transform d))
              else if (marker =? 238) && (12 <=? zlen body) && zeqb_list (pyslice body 0 5) (lit "Adobe") then
                next have_frame scans (with_tables d (quant d) (dc_tables d, ac_tables d) (restart_interval d) (Some (zat body 11)))
              else if between 192 marker 194 then
                if have_frame then Err Unsupported
                else d ← read_frame body (marker =? 194) d; next true scans d
              else if (marker =? 195) || between 197 marker 199 || between 201 marker 203 || between 205 marker 207 then Err Unsupported
              else if marker =? 218 then
                if negb have_frame then Err Corrupt
                else
                  '(end_, d) ← decode_scan data d body (at_ + length);
                  parse_loop fuel data end_ have_frame (scans + 1) d
              else next have_frame scans d
      end
  end.

Definition START : decoder :=
  Decoder 0 0 false [] (replicate 4 (replicate 64 1)) (replicate 4 Huff.Kernel.EMPTY) (replicate 4 Huff.Kernel.EMPTY) 0 0 0 None None.

(** [decode] up to the pixels: the decoder with the coefficients. *)
Definition parse (data : list Z) : outcome decoder :=
  '(have_frame, scans, d) ← parse_loop (S (length data)) data 2 false 0 START;
  if negb have_frame || (scans =? 0) then Err Corrupt else Ok d.

End Kernel.
