(* ===== verification/JpegBits.v ===== *)
(** JpegBits: the bit streams of JPEG scans.

    [peek] is the number the next bits of a stream make.  The tool's reader
    and the kernel's (with its accumulator, the stuffed zeros and the marker
    that ends the data) both read the same stream, and both symbol decoders
    find the one canonical word the stream starts with. *)
From Stdlib Require Import ZArith Lia List.
From stdpp Require Import base list gmap strings.
From S2P Require Import Prelude Text Arrays Machine Huff Png Jpeg.
Open Scope Z_scope.

(** * Streams *)

Section peek.
Context (B : Z -> Z).

Fixpoint peek_nat (p : Z) (n : nat) : Z :=
  match n with
  | O => 0
  | S n => 2 * peek_nat p n + B (p + Z.of_nat n)
  end.
(** The next [n] bits at [p]. *)
Definition peek (p n : Z) : Z := peek_nat p (Z.to_nat n).

Lemma peek_0 p : peek p 0 = 0.
Proof. done. Qed.
Lemma peek_succ p n : 0 <= n -> peek p (n + 1) = 2 * peek p n + B (p + n).
Proof. intros. unfold peek. replace (Z.to_nat (n + 1)) with (S (Z.to_nat n)) by lia. cbn [peek_nat]. do 2 f_equal. lia. Qed.
Lemma peek_1 p : peek p 1 = B p.
Proof. change 1 with (0 + 1). rewrite peek_succ, peek_0, Z.add_0_r by lia. lia. Qed.

Lemma peek_add p a b : 0 <= a -> 0 <= b -> peek p (a + b) = peek p a * 2 ^ b + peek (p + a) b.
Proof.
  intros Ha Hb. revert b Hb. apply natlike_ind; [rewrite Z.add_0_r, peek_0; lia|]. intros b Hb IH.
  replace (a + Z.succ b) with (a + b + 1) by lia. rewrite peek_succ, IH by lia. change (Z.succ b) with (b + 1). rewrite peek_succ, Z.pow_add_r by lia.
  replace (p + (a + b)) with (p + a + b) by lia. lia.
Qed.

Hypothesis bit : forall i, 0 <= B i <= 1.

Lemma peek_bound p n : 0 <= n -> 0 <= peek p n < 2 ^ n.
Proof.
  revert n. apply natlike_ind; [rewrite peek_0; cbn; lia|]. intros n Hn IH. change (Z.succ n) with (n + 1). rewrite peek_succ, Z.pow_add_r by lia.
  specialize (bit (p + n)). lia.
Qed.

Lemma peek_prefix p a b : 0 <= a <= b -> peek p b / 2 ^ (b - a) = peek p a.
Proof.
  intros H. replace b with (a + (b - a)) at 1 by lia. rewrite peek_add by lia. pose proof (peek_bound (p + a) (b - a) ltac:(lia)).
  rewrite Z.div_add_l by (apply Z.pow_nonzero; lia). rewrite Z.div_small; lia.
Qed.
Lemma peek_suffix p a b : 0 <= a <= b -> peek p b mod 2 ^ (b - a) = peek (p + a) (b - a).
Proof.
  intros H. replace b with (a + (b - a)) at 1 by lia. rewrite peek_add by lia. pose proof (peek_bound (p + a) (b - a) ltac:(lia)).
  rewrite Z.add_comm, Z.mod_add by (apply Z.pow_nonzero; lia). rewrite Z.mod_small; lia.
Qed.
End peek.

(** * The bits of bytes *)

Lemma land_1 x : Z.land x 1 = x mod 2.
Proof. exact (Z.land_ones x 1 ltac:(lia)). Qed.

Lemma raw_bit_range raw i : 0 <= Tool.raw_bit raw i <= 1.
Proof. unfold Tool.raw_bit. rewrite land_1. match goal with |- context [?x mod 2] => pose proof (Z.mod_pos_bound x 2 ltac:(lia)) end. lia. Qed.

Lemma byte_bits b : is_byte b ->
  b = Z.land (Z.shiftr b 7) 1 * 128 + Z.land (Z.shiftr b 6) 1 * 64 + Z.land (Z.shiftr b 5) 1 * 32 + Z.land (Z.shiftr b 4) 1 * 16
      + Z.land (Z.shiftr b 3) 1 * 8 + Z.land (Z.shiftr b 2) 1 * 4 + Z.land (Z.shiftr b 1) 1 * 2 + Z.land (Z.shiftr b 0) 1.
Proof.
  intros H. apply Z.eqb_eq. revert b H. apply byte_cases. vm_compute. reflexivity.
Qed.

Lemma peek_byte raw q : Forall is_byte raw -> 0 <= q -> peek (Tool.raw_bit raw) (8 * q) 8 = zat raw q.
Proof.
  intros F Hq. assert (BR : is_byte (zat raw q)).
  { destruct (decide (q < zlen raw)); [|rewrite zat_out by lia; split; lia]. eapply Forall_forall; [exact F | apply zat_elem; lia]. }
  assert (R : forall i, 0 <= i < 8 -> Tool.raw_bit raw (8 * q + i) = Z.land (Z.shiftr (zat raw q) (7 - i)) 1).
  { intros i Hi. unfold Tool.raw_bit. rewrite (Z.shiftr_div_pow2 (8 * q + i) 3) by lia. change (2 ^ 3) with 8.
    replace (Z.land (8 * q + i) 7) with i by (change 7 with (Z.ones 3); rewrite Z.land_ones by lia; apply (Z.mod_unique_pos _ _ q); change (2 ^ 3) with 8; lia).
    rewrite <- (Z.div_unique_pos (8 * q + i) 8 q i) by lia.
    destruct (Z.ltb_spec q (zlen raw)); [done|]. by rewrite zat_out by lia. }
  unfold peek. change (Z.to_nat 8) with 8%nat. cbn [peek_nat Z.of_nat]. rewrite !R by lia. rewrite (byte_bits (zat raw q) BR) at 9.
  repeat match goal with |- context [7 - Z.of_nat ?n] => let x := eval compute in (7 - Z.of_nat n) in change (7 - Z.of_nat n) with x end. lia.
Qed.

(** * The kernel's reader *)

(** Entropy-coded data: a zero after every 0xFF. *)
Definition stuffed (raw : list Z) : list Z := concat ((fun b => if b =? 255 then [255; 0] else [b]) <$> raw).

(** What may follow it: a marker, or nothing. *)
Definition ends (tail : list Z) : Prop := match tail with [] => True | a :: t => a = 255 /\ match t with b :: _ => b <> 0 | [] => True end end.

Lemma stuffed_app a b : stuffed (a ++ b) = stuffed a ++ stuffed b.
Proof. unfold stuffed. by rewrite fmap_app, concat_app. Qed.
Lemma stuffed_cons b l : stuffed (b :: l) = (if b =? 255 then [255; 0] else [b]) ++ stuffed l.
Proof. done. Qed.

Section reader.
Import Jpeg.Kernel.
Context (data : list Z) (start : Z) (raw tail : list Z).
Hypothesis start_pos : 0 <= start.
Hypothesis here : drop (Z.to_nat start) data = stuffed raw ++ tail.
Hypothesis ended : ends tail.
Hypothesis bytes : Forall is_byte raw.

#[warnings="-notation-for-abbreviation"] Local Notation B := (Tool.raw_bit raw).

(** Where byte [q] of the data is. *)
Definition offset (q : Z) : Z := start + zlen (stuffed (take (Z.to_nat q) raw)).

Record reads (r : reader) (p : Z) : Prop := Reads {
  rd_pos : 0 <= p;
  rd_count : 0 <= count r <= 32;
  rd_align : exists q, p + count r = 8 * q
    /\ (if hit_marker r then zlen raw <= q /\ position r = offset (zlen raw) else q <= zlen raw /\ position r = offset q);
  rd_acc : accumulator r = peek B p (count r) * 2 ^ (32 - count r)
}.

Lemma reads_start e : reads (Reader start 0 0 false e) 0.
Proof.
  split; cbn [count hit_marker position accumulator]; [lia | lia | | by rewrite peek_0]. exists 0. split; [lia|]. split; [apply zlen_nonneg|]. change (offset 0) with (start + 0). lia.
Qed.

Lemma data_at i : 0 <= i -> byte_at data (start + i) = (stuffed raw ++ tail) !! Z.to_nat i.
Proof. intros. unfold byte_at. rewrite <- here, lookup_drop. f_equal. lia. Qed.

(** The bytes at the place of byte [q]. *)
Lemma at_offset q : 0 <= q < zlen raw ->
  byte_at data (offset q) = Some (zat raw q)
  /\ (zat raw q = 255 -> byte_at data (offset q + 1) = Some 0 /\ offset (q + 1) = offset q + 2)
  /\ (zat raw q <> 255 -> offset (q + 1) = offset q + 1).
Proof.
  intros Hq. pose proof (lookup_zat raw q Hq) as E. set (k := zlen (stuffed (take (Z.to_nat q) raw))).
  assert (S : stuffed raw = stuffed (take (Z.to_nat q) raw) ++ (if zat raw q =? 255 then [255; 0] else [zat raw q]) ++ stuffed (drop (S (Z.to_nat q)) raw)).
  { rewrite <- (take_drop_middle raw (Z.to_nat q) _ E) at 1. by rewrite stuffed_app, stuffed_cons. }
  assert (N : offset (q + 1) = offset q + zlen (if zat raw q =? 255 then [255; 0] else [zat raw q])).
  { unfold offset. replace (Z.to_nat (q + 1)) with (Datatypes.S (Z.to_nat q)) by lia. rewrite (take_S_r _ _ _ E), stuffed_app, zlen_app.
    change (stuffed [zat raw q]) with ((if zat raw q =? 255 then [255; 0] else [zat raw q]) ++ []). rewrite app_nil_r. lia. }
  assert (A : forall i, 0 <= i < zlen (if zat raw q =? 255 then [255; 0] else [zat raw q]) ->
    byte_at data (offset q + i) = (if zat raw q =? 255 then [255; 0] else [zat raw q]) !! Z.to_nat i).
  { intros i Hi. unfold offset. fold k. pose proof (zlen_nonneg (stuffed (take (Z.to_nat q) raw))). rewrite <- Z.add_assoc, data_at by lia. rewrite S, <- !app_assoc.
    rewrite lookup_app_r by (unfold k, zlen in *; lia). replace (Z.to_nat (k + i) - length (stuffed (take (Z.to_nat q) raw)))%nat with (Z.to_nat i) by (unfold k, zlen in *; lia).
    apply lookup_app_l. unfold zlen in Hi. lia. }
  destruct (Z.eqb_spec (zat raw q) 255) as [E2|E2].
  - change (zlen [255; 0]) with 2 in *. split_and!; [|intros _; split; [by rewrite A by lia | done]|done].
    rewrite <- (Z.add_0_r (offset q)), A by lia. by rewrite E2.
  - change (zlen [zat raw q]) with 1 in *. split_and!; [|done|done]. by rewrite <- (Z.add_0_r (offset q)), A by lia.
Qed.

(** At the end there is no byte to read. *)
Lemma at_end : match byte_at data (offset (zlen raw)) with
  | None => True
  | Some x => x = 255 /\ byte_at data (offset (zlen raw) + 1) <> Some 0
  end.
Proof.
  unfold offset. rewrite take_ge by (unfold zlen; lia). pose proof (zlen_nonneg (stuffed raw)). rewrite <- Z.add_assoc, !data_at by lia.
  rewrite !lookup_app_r by (unfold zlen; lia). replace (Z.to_nat (zlen (stuffed raw)) - length (stuffed raw))%nat with 0%nat by (unfold zlen; lia).
  replace (Z.to_nat (zlen (stuffed raw) + 1) - length (stuffed raw))%nat with 1%nat by (unfold zlen; lia).
  destruct tail as [|a [|b t]]; cbn; [done | by destruct ended as [-> _] | destruct ended as [-> ?]; split; congruence].
Qed.

Lemma fill_round_reads r p : reads r p -> reads (fill_round data r) p /\ eob_run (fill_round data r) = eob_run r
  /\ count (fill_round data r) = if count r <=? 24 then count r + 8 else count r.
Proof.
  intros [P C (q & Q & H) A]. unfold fill_round. destruct (Z.leb_spec (count r) 24) as [L|L]; [|split; [|done]; split; eauto].
  assert (STEP : forall pos' hit', (if (hit' : bool) then zlen raw <= q + 1 /\ pos' = offset (zlen raw) else q + 1 <= zlen raw /\ pos' = offset (q + 1)) ->
    reads (Reader pos' (Z.lor (accumulator r) (Z.shiftl (zat raw q) (24 - count r))) (count r + 8) hit' (eob_run r)) p).
  { intros pos' hit' HP. split; cbn [count hit_marker position accumulator]; [done | lia | exists (q + 1); split; [lia | done]|].
    rewrite peek_add by lia. replace (p + count r) with (8 * q) by lia. rewrite peek_byte by (done || lia).
    assert (BR : is_byte (zat raw q)).
    { destruct (decide (q < zlen raw)); [|rewrite zat_out by lia; split; lia]. eapply Forall_forall; [exact bytes | apply zat_elem; lia]. }
    unfold is_byte in BR. rewrite A. replace (peek B p (count r) * 2 ^ (32 - count r)) with (Z.shiftl (Z.shiftl (peek B p (count r)) 8) (24 - count r)).
    2: { rewrite Z.shiftl_shiftl, Z.shiftl_mul_pow2 by lia. do 2 f_equal. lia. }
    rewrite <- Z.shiftl_lor, lor_shiftl_add, Z.shiftl_mul_pow2 by lia. do 2 f_equal. lia. }
  destruct (hit_marker r) eqn:HM.
  - cbn beta iota. split; [|done]. destruct H as [H1 H2]. rewrite <- (zat_out raw q) at 1 by done. apply STEP. split; [lia | done].
  - destruct H as [H1 H2]. rewrite H2. destruct (decide (q = zlen raw)) as [E|E].
    + subst q. pose proof at_end as AE. destruct (byte_at data (offset (zlen raw))) as [x|]; cbn beta iota.
      * destruct AE as [-> AE]. rewrite Z.eqb_refl. destruct (byte_at data (offset (zlen raw) + 1)) as [[| |]|]; try done; cbn beta iota;
          (split; [|done]); rewrite <- (zat_out raw (zlen raw)) at 1 by done; (apply STEP; split; [lia | done]).
      * split; [|done]. rewrite <- (zat_out raw (zlen raw)) at 1 by done. apply STEP. split; [lia | done].
    + destruct (at_offset q ltac:(lia)) as (A1 & A2 & A3). rewrite A1. cbn beta iota. destruct (Z.eqb_spec (zat raw q) 255) as [E2|E2].
      * destruct (A2 E2) as [-> O2]. cbn beta iota. split; [|done]. rewrite <- E2 at 1. apply STEP. split; [lia | done].
      * split; [|done]. apply STEP. split; [lia | by rewrite A3].
Qed.

Lemma fill_reads r p : reads r p -> reads (fill data r) p /\ eob_run (fill data r) = eob_run r /\ 25 <= count (fill data r) <= 32.
Proof.
  intros R. unfold fill. pose proof (rd_count _ _ R).
  destruct (fill_round_reads _ _ R) as (R1 & E1 & C1). destruct (fill_round_reads _ _ R1) as (R2 & E2 & C2).
  destruct (fill_round_reads _ _ R2) as (R3 & E3 & C3). destruct (fill_round_reads _ _ R3) as (R4 & E4 & C4).
  split; [done|]. split; [congruence|]. rewrite C4, C3, C2, C1. zcase; lia.
Qed.

Lemma consume_reads r p n : reads r p -> 0 <= n <= count r -> n < 32 ->
  exists r', consume n r = Ok r' /\ reads r' (p + n) /\ eob_run r' = eob_run r.
Proof.
  intros [P C (q & Q & H) A] Hn H32. unfold consume, u32, checked. rewrite (proj2 (Z.leb_gt 32 n)) by lia.
  rewrite (proj2 (Z.leb_le 0 (count r - n))), (proj2 (Z.leb_le (count r - n) 4294967295)) by lia. cbn [andb mbind outcome_bind].
  eexists. split; [reflexivity|]. split; [|done]. split; cbn [count hit_marker position accumulator]; [lia | lia | exists q; split; [lia | done]|].
  rewrite Z.shiftl_mul_pow2, A by lia. replace (2 ^ (32 - (count r - n))) with (2 ^ (32 - count r) * 2 ^ n) by (rewrite <- Z.pow_add_r by lia; f_equal; lia).
  rewrite <- (peek_suffix B (raw_bit_range raw) p n (count r)) by lia. set (w := peek B p (count r)).
  change 4294967296 with (2 ^ 32). replace (2 ^ 32) with (2 ^ (count r - n) * (2 ^ (32 - count r) * 2 ^ n)) by (rewrite <- !Z.pow_add_r by lia; f_equal; lia).
  rewrite <- Z.mul_assoc. rewrite Z.mul_mod_distr_r; [done | apply Z.pow_nonzero; lia | rewrite <- Z.pow_add_r by lia; apply Z.pow_nonzero; lia].
Qed.

Lemma top_bits r p n : reads r p -> 0 <= n <= count r -> Z.shiftr (accumulator r) (32 - n) = peek B p n.
Proof.
  intros [P C _ A] Hn. rewrite Z.shiftr_div_pow2, A by lia. rewrite <- (peek_prefix B (raw_bit_range raw) p n (count r)) by lia.
  replace (2 ^ (32 - n)) with (2 ^ (count r - n) * 2 ^ (32 - count r)) by (rewrite <- Z.pow_add_r by lia; f_equal; lia).
  apply Z.div_mul_cancel_r; apply Z.pow_nonzero; lia.
Qed.

(** [bits(n)] gives the next [n] bits. *)
Lemma bits_reads r p n : reads r p -> 0 <= n <= 25 ->
  exists r', bits data n r = Ok (peek B p n, r') /\ reads r' (p + n) /\ eob_run r' = eob_run r.
Proof.
  intros R Hn. unfold bits. destruct (Z.eqb_spec n 0) as [->|N0]; [exists r; rewrite peek_0, Z.add_0_r; done|].
  set (r1 := if count r <? n then fill data r else r).
  assert (H : reads r1 p /\ eob_run r1 = eob_run r /\ n <= count r1).
  { unfold r1. destruct (Z.ltb_spec (count r) n); [|done]. destruct (fill_reads r p R) as (? & ? & ?). split_and!; (done || lia). }
  destruct H as (R1 & E1 & C1). unfold u32 at 1, checked. rewrite (proj2 (Z.leb_le 0 (32 - n))), (proj2 (Z.leb_le (32 - n) 4294967295)) by lia.
  cbn [andb mbind outcome_bind]. destruct (consume_reads r1 p n R1 ltac:(lia) ltac:(lia)) as (r2 & -> & R2 & E2). cbn [mbind outcome_bind].
  exists r2. rewrite (top_bits r1 p n R1) by lia. split_and!; [done | done | congruence].
Qed.

(** ** Symbols *)

Context (cnt vals : list Z) (table : huffman).
Hypothesis cnt_len : zlen cnt = 16.
Hypothesis cnt_pos : nonneg cnt.
Hypothesis enough : zsum cnt <= zlen vals.
Hypothesis small : zsum cnt <= 256.
Hypothesis vals_bytes : Forall is_byte vals.
Hypothesis table_good : table_ok cnt vals table.

Lemma next_code p L : 1 <= L -> Z.lor (Z.shiftl (peek B p (L - 1)) 1) (peek B p L mod 2) = peek B p L.
Proof.
  intros H. assert (E : peek B p L = B (p + (L - 1)) + peek B p (L - 1) * 2) by (replace L with (L - 1 + 1) at 1 by lia; rewrite peek_succ by lia; lia).
  pose proof (raw_bit_range raw (p + (L - 1))). rewrite E, Z.mod_add, Z.mod_small by lia. rewrite lor_shiftl_add by lia. lia.
Qed.

(** The symbol whose word the stream starts with, or an error. *)
Definition symbol_or_error (r : reader) (p : Z) (res : outcome (Z * reader)) : Prop :=
  (exists L s r', word cnt vals L (peek B p L) s /\ res = Ok (s, r') /\ reads r' (p + L) /\ eob_run r' = eob_run r)
  \/ (res = Err Png.Kernel.Corrupt /\ forall L s, ~ word cnt vals L (peek B p L) s).

Lemma decode_long_reads r p : reads r p -> 16 <= count r -> forall n L, Z.of_nat n = 17 - L -> 9 <= L ->
  (forall l s, l < L -> ~ word cnt vals l (peek B p l) s) ->
  symbol_or_error r p (decode_long table r (pyrange L 17) (peek B p (L - 1))).
Proof.
  intros R C. induction n as [|n IH]; intros L HL H9 NW.
  - rewrite pyrange_nil by lia. right. split; [done|]. intros l s W. eapply NW; [|exact W]. destruct W; lia.
  - rewrite pyrange_cons by lia. cbn [decode_long]. rewrite (top_bits r p L R), land_1, next_code by lia.
    destruct table_good as [_ TM TP TX TV _]. rewrite TM, TP, TX by lia. pose proof (first_code_pos cnt cnt_pos L) as FP.
    pose proof (index_bound cnt cnt_len cnt_pos L ltac:(lia)) as IB. pose proof (first_index_pos cnt cnt_pos L) as IP. set (c := peek B p L).
    destruct (decide (0 <= c - first_code cnt L < Huff.width cnt L)) as [I|I].
    + replace (_ && _ && _) with true by (zcase; cbn [andb]; (lia || done)).
      destruct (consume_reads r p L R ltac:(lia) ltac:(lia)) as (r' & -> & R' & E'). cbn [mbind outcome_bind].
      replace (first_index cnt L + c - first_code cnt L) with (first_index cnt L + (c - first_code cnt L)) by lia.
      replace (Z.land (first_index cnt L + (c - first_code cnt L)) 255) with (first_index cnt L + (c - first_code cnt L)).
      2: { change 255 with (Z.ones 8). rewrite Z.land_ones by lia. rewrite Z.mod_small; [done|]. change (2 ^ 8) with 256. lia. }
      rewrite TV by lia. left. exists L, (zat vals (first_index cnt L + (c - first_code cnt L))), r'. split_and!; try done.
      split; [lia|]. split; [lia|]. apply lookup_zat. lia.
    + replace (_ && _ && _) with false by (zcase; cbn [andb]; (lia || done)). replace c with (peek B p (L + 1 - 1)) by (unfold c; f_equal; lia).
      apply IH; [lia | lia|]. intros l s Hl W. destruct (decide (l = L)) as [->|]; [destruct W as (_ & W & _); fold c in W; lia|].
      eapply NW; [|exact W]. lia.
Qed.

Lemma decode_reads r p : reads r p -> symbol_or_error r p (decode data table r).
Proof.
  intros R. unfold decode. set (r1 := if count r <? 16 then fill data r else r).
  assert (H : reads r1 p /\ eob_run r1 = eob_run r /\ 16 <= count r1).
  { unfold r1. destruct (Z.ltb_spec (count r) 16); [|done]. destruct (fill_reads r p R) as (? & ? & ?). split_and!; (done || lia). }
  destruct H as (R1 & E1 & C1). assert (LIFT : forall res, symbol_or_error r1 p res -> symbol_or_error r p res).
  { intros res [(L & s & r' & W & E & RR & EE)|H]; [left | by right]. exists L, s, r'. split_and!; (done || congruence). }
  apply LIFT. change 24 with (32 - 8). rewrite (top_bits r1 p 8 R1) by lia. pose proof (peek_bound B (raw_bit_range raw) p 8 ltac:(lia)) as PB.
  destruct table_good as [_ _ _ _ _ [LL LK]]. destruct (LK (peek B p 8) PB) as [(l & c & s & _ & H8 & W & Ec & ->)|[-> NW]].
  - pose proof W as [HL _]. pose proof (word_symbol cnt vals vals_bytes l c s W) as HS. unfold is_byte in HS.
    rewrite (proj2 (Z.eqb_neq (l * 256 + s) 0)) by lia. cbn [negb]. rewrite Z.shiftr_div_pow2 by lia. change (2 ^ 8) with 256.
    rewrite Z.div_add_l, (Z.div_small s), Z.add_0_r by lia. rewrite peek_prefix in Ec by (apply raw_bit_range || lia). subst c.
    destruct (consume_reads r1 p l R1 ltac:(lia) ltac:(lia)) as (r' & -> & R' & E'). cbn [mbind outcome_bind].
    rewrite Z.add_comm, Z.mod_add, Z.mod_small by lia. left. exists l, s, r'. done.
  - rewrite Z.eqb_refl. cbn [negb]. apply (decode_long_reads r1 p R1 C1 8 9); [lia | lia|]. intros l s Hl W.
    destruct (decide (l <= 8)) as [H8|]; [|destruct W; lia]. apply (NW l (peek B p l) s); [lia | done | done|]. pose proof W as [HL _].
    apply peek_prefix; [apply raw_bit_range | lia].
Qed.

(** The words the stream starts with are one. *)
Lemma word_here p L s L' s' : word cnt vals L (peek B p L) s -> word cnt vals L' (peek B p L') s' -> L = L' /\ s = s'.
Proof.
  assert (NL : forall L s L' s', word cnt vals L (peek B p L) s -> word cnt vals L' (peek B p L') s' -> ~ L < L').
  { intros A a A' a' W W' H. pose proof (word_prefix cnt vals cnt_len cnt_pos _ _ _ _ _ _ W W' H) as WP. pose proof W as [? _]. rewrite peek_prefix in WP by (apply raw_bit_range || lia). lia. }
  intros W W'. pose proof (NL _ _ _ _ W W'). pose proof (NL _ _ _ _ W' W). assert (L = L') as <- by lia. split; [done|]. by eapply word_inj.
Qed.

Lemma decode_word r p L s : reads r p -> word cnt vals L (peek B p L) s ->
  exists r', decode data table r = Ok (s, r') /\ reads r' (p + L) /\ eob_run r' = eob_run r.
Proof.
  intros R W. destruct (decode_reads r p R) as [(L' & s' & r' & W' & E & H)|[_ N]]; [|by destruct (N L s)].
  destruct (word_here p L s L' s' W W') as [<- <-]. eauto.
Qed.
End reader.

(** * What the tool writes *)

Definition is_bit (b : Z) : Prop := b = 0 \/ b = 1.

(** The stream continues with [l] at [p]. *)
Definition begins (B : Z -> Z) (p : Z) (l : list Z) : Prop := forall i, 0 <= i < zlen l -> B (p + i) = zat l i.

Lemma begins_app B p a b : begins B p (a ++ b) <-> begins B p a /\ begins B (p + zlen a) b.
Proof.
  unfold begins. split.
  - intros H. split; intros i Hi.
    + rewrite H by (rewrite zlen_app; pose proof (zlen_nonneg b); lia). by rewrite zat_app_l.
    + rewrite <- Z.add_assoc, H by (rewrite zlen_app; pose proof (zlen_nonneg a); lia). rewrite zat_app_r by lia. f_equal. lia.
  - intros [H1 H2] i Hi. rewrite zlen_app in Hi. destruct (decide (i < zlen a)).
    + rewrite zat_app_l by lia. apply H1. lia.
    + rewrite zat_app_r by lia. rewrite <- H2 by lia. f_equal. lia.
Qed.

Lemma peek_begins B p l : begins B p l -> peek B p (zlen l) = horner l.
Proof.
  induction l as [|b l IH] using rev_ind; intros H; [done|]. rewrite horner_snoc, zlen_app. change (zlen [b]) with 1.
  rewrite peek_succ by apply zlen_nonneg. apply begins_app in H as [H1 H2]. rewrite IH by done. f_equal. specialize (H2 0 ltac:(change (zlen [b]) with 1; lia)).
  rewrite Z.add_0_r in H2. exact H2.
Qed.

Lemma horner_bound l : Forall is_bit l -> 0 <= horner l < 2 ^ zlen l.
Proof.
  induction 1 as [|b k Hb _ IH]; [done|]. rewrite horner_cons, zlen_cons. pose proof (zlen_nonneg k). rewrite Z.pow_add_r by lia. destruct Hb as [-> | ->]; lia.
Qed.

Lemma horner_bit l i : Forall is_bit l -> 0 <= i < zlen l -> Z.land (Z.shiftr (horner l) (zlen l - 1 - i)) 1 = zat l i.
Proof.
  intros F H. rewrite land_1, Z.shiftr_div_pow2 by lia. rewrite <- (take_drop (Z.to_nat (i + 1)) l) at 1. rewrite horner_app, horner_take by lia.
  assert (L : zlen (drop (Z.to_nat (i + 1)) l) = zlen l - 1 - i) by (unfold zlen in *; rewrite length_drop; lia). rewrite L.
  assert (HB : 0 <= horner (drop (Z.to_nat (i + 1)) l) < 2 ^ (zlen l - 1 - i)).
  { rewrite <- L. apply horner_bound. by apply Forall_drop. }
  rewrite Z.div_add_l by (apply Z.pow_nonzero; lia). rewrite Z.div_small, Z.add_0_r by done.
  assert (B : is_bit (zat l i)) by (eapply Forall_forall; [exact F | apply zat_elem; lia]).
  rewrite Z.add_comm, Z.mul_comm, Z.mod_add by lia. destruct B as [-> | ->]; done.
Qed.

Lemma fold_bits l acc : Forall is_bit l -> foldl (fun byte b => Z.lor (Z.shiftl byte 1) b) acc l = foldl (fun a b => 2 * a + b) acc l.
Proof.
  intros F. revert acc. induction F as [|b l Hb _ IH]; intros acc; [done|]. cbn [foldl]. rewrite lor_shiftl_add by (destruct Hb as [-> | ->]; lia).
  rewrite IH. f_equal. lia.
Qed.

(** The bits come out of the packed bytes in order. *)
Lemma pack_bits_raw l : Forall is_bit l -> exists raw, Tool.pack_bits (Tool.pad_ones l) = stuffed raw /\ Forall is_byte raw /\ begins (Tool.raw_bit raw) 0 l.
Proof.
  intros F. set (pad := Tool.pad_ones l).
  assert (FP : Forall is_bit pad) by (apply Forall_app; split; [done|]; apply Forall_replicate; by right).
  assert (LP : exists m, zlen pad = 8 * m /\ 0 <= m).
  { unfold pad, Tool.pad_ones. rewrite zlen_app. unfold zlen at 2. rewrite length_replicate. pose proof (Z.mod_pos_bound (- zlen l) 8 ltac:(lia)).
    exists (- (- zlen l / 8)). pose proof (Z.div_mod (- zlen l) 8 ltac:(lia)). pose proof (zlen_nonneg l). lia. }
  destruct LP as (m & LP & Hm). set (byte := fun i => horner (pyslice pad i (i + 8))).
  assert (RS : range_step 0 (zlen pad) 8 = (fun k => k * 8) <$> pyrange 0 m).
  { unfold range_step. rewrite LP. replace ((8 * m - 0 + 8 - 1) / 8) with m; [done|]. apply (Z.div_unique_pos _ _ _ 7); lia. }
  assert (SL : forall k, 0 <= k < m -> zlen (pyslice pad (k * 8) (k * 8 + 8)) = 8 /\ Forall is_bit (pyslice pad (k * 8) (k * 8 + 8))).
  { intros k Hk. split; [rewrite zlen_pyslice; lia|]. rewrite pyslice_nn by lia. by apply Forall_take, Forall_drop. }
  exists (byte <$> range_step 0 (zlen pad) 8). split_and!.
  - unfold Tool.pack_bits, stuffed. rewrite <- list_fmap_compose. f_equal. apply list_fmap_ext. intros j i E. cbn. rewrite RS in E.
    apply list_lookup_fmap_Some in E as (k & -> & E). apply list_elem_of_lookup_2, elem_of_pyrange in E. rewrite fold_bits by (by apply SL). done.
  - apply Forall_fmap, Forall_forall. intros i. rewrite RS. intros (k & -> & Hk%elem_of_pyrange)%list_elem_of_fmap. cbn. destruct (SL k Hk) as [L8 F8].
    pose proof (horner_bound _ F8) as HB. rewrite L8 in HB. exact HB.
  - intros i Hi. rewrite Z.add_0_l. assert (LI : zlen l <= zlen pad) by (unfold pad, Tool.pad_ones; rewrite zlen_app; pose proof (zlen_nonneg (replicate (Z.to_nat (- zlen l mod 8)) 1)); lia).
    transitivity (zat pad i); [|unfold pad, Tool.pad_ones; by rewrite zat_app_l]. set (q := i / 8). set (j := i mod 8).
    pose proof (Z.div_mod i 8 ltac:(lia)) as DM. pose proof (Z.mod_pos_bound i 8 ltac:(lia)). fold q j in DM.
    assert (Hq : 0 <= q < m) by lia. unfold Tool.raw_bit. rewrite (Z.shiftr_div_pow2 i 3) by lia. change (2 ^ 3) with 8. fold q.
    change 7 with (Z.ones 3) at 2. rewrite Z.land_ones by lia. change (2 ^ 3) with 8. fold j.
    rewrite (proj2 (Z.ltb_lt q _)) by (rewrite RS, !zlen_fmap, zlen_pyrange; lia).
    assert (ZQ : zat (byte <$> range_step 0 (zlen pad) 8) q = byte (q * 8)).
    { apply zat_lookup; [lia|]. rewrite RS, !list_lookup_fmap. rewrite (lookup_zat (pyrange 0 m)) by (rewrite zlen_pyrange; lia). cbn. do 2 f_equal.
      unfold zat, pyrange. rewrite list_lookup_fmap, lookup_seq_lt by lia. cbn. lia. }
    rewrite ZQ. destruct (SL q Hq) as [L8 F8]. unfold byte. pose proof (horner_bit _ j F8 ltac:(lia)) as HB. rewrite L8 in HB.
    replace (8 - 1 - j) with (7 - j) in HB by lia. rewrite HB. rewrite pyslice_nn by lia. unfold zat. rewrite lookup_take_lt by lia. rewrite lookup_drop. do 2 f_equal. lia.
Qed.

(** * Events *)

Lemma value_bits_bits v n : Forall is_bit (Tool.value_bits v n).
Proof.
  unfold Tool.value_bits. apply Forall_fmap, Forall_true. intros i. cbn. rewrite land_1. unfold is_bit.
  match goal with |- context [?x mod 2] => pose proof (Z.mod_pos_bound x 2 ltac:(lia)) end. lia.
Qed.
Lemma zlen_value_bits v n : 0 <= n -> zlen (Tool.value_bits v n) = n.
Proof. intros. unfold Tool.value_bits. rewrite zlen_fmap, zlen_rev, zlen_pyrange; lia. Qed.
Lemma horner_value_bits v n : 0 <= n -> horner (Tool.value_bits v n) = v mod 2 ^ n.
Proof.
  revert n. apply natlike_ind; [cbn; by rewrite Z.mod_1_r|]. intros n Hn IH. unfold Tool.value_bits. change (Z.succ n) with (n + 1).
  rewrite pyrange_snoc, rev_app_distr by lia. cbn [rev app fmap list_fmap]. rewrite horner_cons. fold (Tool.value_bits v n). rewrite zlen_value_bits, IH by lia.
  rewrite land_1, Z.shiftr_div_pow2, Z.pow_add_r by lia. change (2 ^ 1) with 2. rewrite Z.rem_mul_r by (try apply Z.pow_nonzero; lia). lia.
Qed.
