(* ===== verification/JpegScan.v ===== *)
(** JpegScan: the kernel's block decoders undo the scans of the tool.

    A scan is read event by event ([reading]): a symbol through the table the
    tool chose, raw bits as they were written.  The theorems of this file say
    what each of the four kinds of scan (first and refining, of the DC and of
    the AC coefficients) makes of the kernel's blocks. *)
From Stdlib Require Import ZArith Lia List.
From stdpp Require Import base list gmap strings.
From S2P Require Import Prelude Text Arrays Machine Huff Png Jpeg JpegBits.
Open Scope Z_scope.
Import Jpeg.Kernel.

(** * Reading events *)

(** The place of the entropy-coded data of a scan. *)
Record coded (data : list Z) (start : Z) (raw tail : list Z) : Prop := Coded {
  cd_start : 0 <= start;
  cd_here : drop (Z.to_nat start) data = stuffed raw ++ tail;
  cd_ends : ends tail;
  cd_bytes : Forall is_byte raw
}.

(** The tool's table and the kernel's hold the words of the same code. *)
Record coding (tool : gmap Z (Z * Z)) (kernel : huffman) (cnt vals : list Z) : Prop := Coding {
  co_len : zlen cnt = 16;
  co_pos : nonneg cnt;
  co_enough : zsum cnt <= zlen vals;
  co_small : zsum cnt <= 256;
  co_bytes : Forall is_byte vals;
  co_fits : fits cnt;
  co_tool : forall s c L, tool !! s = Some (c, L) <-> word cnt vals L c s;
  co_kernel : table_ok cnt vals kernel
}.

(** The kernel reads the words the tool writes. *)
Definition agree (tool : option (gmap Z (Z * Z))) (kernel : huffman) : Prop :=
  match tool with Some t => exists cnt vals, coding t kernel cnt vals | None => True end.

Section events.
Context (data : list Z) (start : Z) (raw tail : list Z) (tool : option (gmap Z (Z * Z))) (kernel : huffman).
Hypothesis C : coded data start raw tail.
Hypothesis A : agree tool kernel.

Definition upcoming (p : Z) (es : list Tool.event) : Prop :=
  exists bs, mapM_py (Tool.event_bits tool) es = Ret bs /\ begins (Tool.raw_bit raw) p (concat bs).
Definition reading (r : reader) (es : list Tool.event) : Prop := exists p, reads start raw r p /\ upcoming p es.

Lemma upcoming_cons p e es : upcoming p (e :: es) ->
  exists b, Tool.event_bits tool e = Ret b /\ peek (Tool.raw_bit raw) p (zlen b) = horner b /\ upcoming (p + zlen b) es.
Proof.
  intros (bs & E & H). cbn [mapM_py] in E. apply bind_ret_inv in E as (b & E1 & E). apply bind_ret_inv in E as (bs' & E2 & [= <-]).
  cbn [concat] in H. apply begins_app in H as [H1 H2]. exists b. split_and!; [done | by apply peek_begins | by exists bs'].
Qed.

Lemma read_sym r s es : reading r (Tool.Sym s :: es) ->
  exists r', decode data kernel r = Ok (s, r') /\ reading r' es /\ eob_run r' = eob_run r.
Proof.
  intros (p & R & U). apply upcoming_cons in U as (b & E & P & U). cbn [Tool.event_bits] in E.
  destruct tool as [t|]; [|done]. cbn [of_opt] in E. rewrite py_ret_bind in E. apply bind_ret_inv in E as ([c L] & E1 & [= <-]).
  unfold Tool.lookup_key in E1. destruct (t !! s) as [[c' L']|] eqn:ET; [|done]. injection E1 as -> ->.
  destruct A as (cnt & vals & []). apply co_tool0 in ET as W. pose proof W as (HL & HC & _). pose proof (co_fits0 L HL) as FL.
  pose proof (first_code_pos cnt co_pos0 L). rewrite zlen_value_bits in P, U by lia. rewrite horner_value_bits, Z.mod_small in P by lia.
  destruct C. destruct (decode_word data start raw tail cd_start0 cd_here0 cd_ends0 cd_bytes0 cnt vals kernel co_len0 co_pos0 co_enough0 co_small0 co_bytes0 co_kernel0 r p L s R) as (r' & D & R' & EE);
    [by rewrite P|]. exists r'. split_and!; [done | by exists (p + L) | done].
Qed.

Lemma read_bits r v n es : 0 <= n <= 25 -> reading r (Tool.Bits v n :: es) ->
  exists r', bits data n r = Ok (v mod 2 ^ n, r') /\ reading r' es /\ eob_run r' = eob_run r.
Proof.
  intros Hn (p & R & U). apply upcoming_cons in U as (b & E & P & U). cbn [Tool.event_bits] in E. injection E as <-.
  rewrite zlen_value_bits in P, U by lia. rewrite horner_value_bits in P by lia. destruct C.
  destruct (bits_reads data start raw tail cd_start0 cd_here0 cd_ends0 cd_bytes0 r p n R Hn) as (r' & D & R' & EE). rewrite P in D.
  exists r'. split_and!; [done | by exists (p + n) | done].
Qed.

Lemma reading_eob r es n : reading r es -> reading (set_eob_run r n) es.
Proof. intros (p & [] & U). exists p. split; [by split | done]. Qed.
End events.

(** * Numbers *)

Lemma as_i16_small x : -32768 <= x <= 32767 -> as_i16 x = x.
Proof. intros. unfold as_i16. rewrite Z.mod_small; lia. Qed.
Lemma as_i32_small x : -2147483648 <= x <= 2147483647 -> as_i32 x = x.
Proof. intros. unfold as_i32. rewrite Z.mod_small; lia. Qed.

(** The bits of a number that is not zero. *)
Lemma bit_length_spec x : x <> 0 -> 1 <= Tool.bit_length x /\ 2 ^ (Tool.bit_length x - 1) <= Z.abs x < 2 ^ Tool.bit_length x.
Proof.
  intros H. unfold Tool.bit_length. rewrite (proj2 (Z.eqb_neq x 0)) by done. pose proof (Z.log2_nonneg (Z.abs x)).
  pose proof (Z.log2_spec (Z.abs x) ltac:(lia)) as LS. replace (Z.log2 (Z.abs x) + 1 - 1) with (Z.log2 (Z.abs x)) by lia. split; [lia|]. exact LS.
Qed.
Lemma bit_length_le x n : 0 <= n -> Z.abs x < 2 ^ n -> Tool.bit_length x <= n.
Proof.
  intros Hn H. unfold Tool.bit_length. destruct (Z.eqb_spec x 0); [done|]. pose proof (proj1 (Z.log2_lt_pow2 (Z.abs x) n ltac:(lia)) H). lia.
Qed.

(** The bits written for a number: itself, or one less when it is negative. *)
Definition signed_bits (x : Z) : Z := if x <? 0 then x - 1 else x.

Lemma extend_value x n : x <> 0 -> n = Tool.bit_length x ->
  let value := signed_bits x mod 2 ^ n in
  0 <= value < 2 ^ n /\ (if value <? 2 ^ (n - 1) then value - 2 ^ n + 1 else value) = x.
Proof.
  intros Hx ->. destruct (bit_length_spec x Hx) as [L H]. set (n := Tool.bit_length x) in *. cbv zeta.
  assert (P : 2 ^ n = 2 * 2 ^ (n - 1)) by (rewrite <- Z.pow_succ_r by lia; f_equal; lia). split; [apply Z.mod_pos_bound; lia|].
  unfold signed_bits. destruct (Z.ltb_spec x 0).
  - rewrite <- (Z.mod_unique_pos (x - 1) (2 ^ n) (-1) (x - 1 + 2 ^ n)) by lia. rewrite (proj2 (Z.ltb_lt _ _)) by lia. lia.
  - rewrite Z.mod_small by lia. rewrite (proj2 (Z.ltb_ge _ _)) by lia. done.
Qed.

Lemma land_low x n : 0 <= n -> Z.land x (Z.shiftl 1 n - 1) = x mod 2 ^ n.
Proof. intros. rewrite <- Z.land_ones by done. f_equal. Qed.

Section numbers.
Context (data : list Z) (start : Z) (raw tail : list Z) (tool : option (gmap Z (Z * Z))) (kernel : huffman).
Hypothesis C : coded data start raw tail.
Hypothesis A : agree tool kernel.
#[warnings="-notation-for-abbreviation"] Local Notation reading := (reading start raw tool).

Lemma receive_value r x v es : x <> 0 -> Z.abs x < 2 ^ 25 -> v mod 2 ^ Tool.bit_length x = signed_bits x mod 2 ^ Tool.bit_length x ->
  reading r (Tool.Bits v (Tool.bit_length x) :: es) ->
  exists r', receive_extend data (Tool.bit_length x) r = Ok (x, r') /\ reading r' es /\ eob_run r' = eob_run r.
Proof.
  intros Hx HB HV R. destruct (bit_length_spec x Hx) as [L H]. pose proof (bit_length_le x 25 ltac:(lia) HB) as L25.
  pose proof (extend_value x _ Hx eq_refl) as [EB EX]. set (n := Tool.bit_length x) in *.
  destruct (read_bits data start raw tail tool C r v n es ltac:(lia) R) as (r' & E & R' & EE). rewrite HV in E.
  unfold receive_extend. rewrite (proj2 (Z.eqb_neq n 0)) by lia. rewrite E, ok_bind. cbn beta iota.
  pose proof (Z.pow_le_mono_r 2 n 25 ltac:(lia) ltac:(lia)) as P25. change (2 ^ 25) with 33554432 in P25. rewrite !Z.shiftl_mul_pow2, !Z.mul_1_l by lia.
  pose proof (Z.pow_pos_nonneg 2 (n - 1) ltac:(lia) ltac:(lia)). pose proof (Z.pow_le_mono_r 2 (n - 1) n ltac:(lia) ltac:(lia)).
  rewrite (as_i32_small (signed_bits x mod 2 ^ n)), (as_i32_small (2 ^ (n - 1))) by lia.
  exists r'. split; [|done]. destruct (Z.ltb_spec (signed_bits x mod 2 ^ n) (2 ^ (n - 1))).
  - rewrite (as_i32_small (2 ^ n)) by lia. unfold i32. rewrite checked_ok, ok_bind by lia. rewrite checked_ok, ok_bind by lia. by rewrite EX.
  - by rewrite EX.
Qed.

(** ** Runs of ended blocks *)

(** The events of a run of [e] ended blocks, with the bits kept back. *)
Definition eob (e : Z) (b : list Z) : list Tool.event :=
  let n := Tool.bit_length e - 1 in
  Tool.Sym (Z.shiftl n 4) :: (if n =? 0 then [] else [Tool.Bits (Z.land e (Z.shiftl 1 n - 1)) n]) ++ Tool.single_bits b.

Lemma read_run r e b es : 1 <= e <= 32767 -> reading r (eob e b ++ es) ->
  exists run r1 r2, decode data kernel r = Ok (Z.shiftl run 4, r1) /\ 0 <= run <= 14
    /\ read_eob_run data run r1 = Ok r2 /\ eob_run r2 = e /\ reading r2 (Tool.single_bits b ++ es).
Proof.
  intros He R. unfold eob in R. destruct (bit_length_spec e ltac:(lia)) as [L H]. pose proof (bit_length_le e 15 ltac:(lia) ltac:(lia)).
  set (n := Tool.bit_length e - 1) in *. rewrite Z.abs_eq in H by lia. replace (Tool.bit_length e) with (n + 1) in H by lia. rewrite Z.pow_add_r in H by lia. change (2 ^ 1) with 2 in H.
  cbn [app] in R. apply (read_sym data start raw tail tool kernel C A) in R as (r1 & D & R & E1).
  exists n, r1. unfold read_eob_run. rewrite (Z.shiftl_mul_pow2 1 n), Z.mul_1_l by lia. destruct (Z.eqb_spec n 0) as [Z0|NZ].
  - exists (set_eob_run r1 (2 ^ n)). split_and!; try done; try lia.
    + cbn [eob_run set_eob_run]. rewrite Z0 in *. change (2 ^ 0) with 1 in *. lia.
    + apply reading_eob. exact R.
  - rewrite <- app_assoc in R. cbn [app] in R. destruct (read_bits data start raw tail tool C r1 _ n _ ltac:(lia) R) as (r2 & B & R2 & E2).
    rewrite B, ok_bind. cbn beta iota. rewrite land_low, Z.mod_mod by (try apply Z.pow_nonzero; lia).
    rewrite <- (Z.mod_unique_pos e (2 ^ n) 1 (e - 2 ^ n)) by lia. unfold u32. rewrite checked_ok, ok_bind by lia.
    exists (set_eob_run r2 (2 ^ n + (e - 2 ^ n))). split_and!; try done; try lia; [cbn; lia | by apply reading_eob].
Qed.
End numbers.

(** * Blocks in zigzag order *)

Definition zig (k : Z) : Z := zat ZIGZAG k.
(** Coefficient [k] of a block. *)
Definition zz (block : list Z) (k : Z) : Z := zat block (zig k).

Lemma zig_range k : 0 <= k < 64 -> 0 <= zig k < 64.
Proof.
  intros H. assert (E : forallb (fun k => (0 <=? zig k) && (zig k <? 64)) (pyrange 0 64) = true) by (vm_compute; reflexivity).
  rewrite forallb_forall in E. specialize (E k). rewrite andb_true_iff, Z.leb_le, Z.ltb_lt in E. apply E, list_elem_of_In, elem_of_pyrange. done.
Qed.
Lemma zig_inj j k : 0 <= j < 64 -> 0 <= k < 64 -> zig j = zig k -> j = k.
Proof.
  intros Hj Hk E. assert (N : NoDup ZIGZAG) by (apply (bool_decide_eq_true_1 (NoDup ZIGZAG)); vm_compute; reflexivity).
  pose proof (NoDup_lookup ZIGZAG (Z.to_nat j) (Z.to_nat k) (zig j) N) as NL.
  enough (Z.to_nat j = Z.to_nat k) by lia. apply NL; [apply (lookup_zat ZIGZAG j); change (zlen ZIGZAG) with 64; lia|].
  rewrite E. apply (lookup_zat ZIGZAG k). change (zlen ZIGZAG) with 64. lia.
Qed.
Lemma zig_onto i : 0 <= i < 64 -> exists k, 0 <= k < 64 /\ zig k = i.
Proof.
  intros H. assert (E : forallb (fun i => existsb (fun k => zig k =? i) (pyrange 0 64)) (pyrange 0 64) = true) by (vm_compute; reflexivity).
  rewrite forallb_forall in E. specialize (E i ltac:(apply list_elem_of_In, elem_of_pyrange; done)). apply existsb_exists in E as (k & Hk & Ek).
  apply list_elem_of_In, elem_of_pyrange in Hk. apply Z.eqb_eq in Ek. eauto.
Qed.
Lemma zig_0 : zig 0 = 0.
Proof. done. Qed.

Lemma zz_set block k v j : zlen block = 64 -> 0 <= k < 64 -> 0 <= j < 64 -> zz (zset block (zig k) v) j = if j =? k then v else zz block j.
Proof.
  intros L Hk Hj. unfold zz. pose proof (zig_range k Hk). pose proof (zig_range j Hj). rewrite zat_zset by lia.
  destruct (Z.eqb_spec j k) as [->|N]; [by rewrite Z.eqb_refl|]. destruct (Z.eqb_spec (zig j) (zig k)) as [E|]; [|done]. by apply zig_inj in E.
Qed.
Lemma zz_ext a b : zlen a = 64 -> zlen b = 64 -> (forall k, 0 <= k < 64 -> zz a k = zz b k) -> a = b.
Proof.
  intros La Lb H. apply zat_ext; [lia|]. intros i Hi. destruct (zig_onto i ltac:(lia)) as (k & Hk & <-). by apply H.
Qed.
Lemma pyget_zig k : 0 <= k < 64 -> pyget ZIGZAG k = Ret (zig k).
Proof. intros. apply pyget_zat. done. Qed.

(** * The events of a scan of AC coefficients *)

(** What a block adds: the events of its coefficients, the bits kept back, and
    whether it ends early. *)
Record bcode : Type := Bcode { code : list Tool.event; pend : list Z; ended : bool }.

(** Events are emitted after those of the ended blocks before. *)
Definition emit_code (es : list Tool.event) (st : Tool.encoding) : Tool.encoding :=
  match es with [] => st | _ => Tool.emit es (Tool.flush_eobrun st) end.

Lemma flush_idle st : 0 <= Tool.eobrun st -> Tool.eobrun (Tool.flush_eobrun st) = 0 /\ Tool.flush_eobrun (Tool.flush_eobrun st) = Tool.flush_eobrun st.
Proof.
  destruct st as [o e b l]. intros H. unfold Tool.flush_eobrun. cbn [Tool.eobrun] in *. destruct (Z.ltb_spec 0 e); [done|]. cbn [Tool.eobrun].
  rewrite (proj2 (Z.ltb_ge 0 e)) by lia. split; [lia | done].
Qed.

Lemma emit_code_app a b st : 0 <= Tool.eobrun st -> emit_code (a ++ b) st = emit_code b (emit_code a st).
Proof.
  intros H. destruct a as [|x a]; [done|]. destruct b as [|y b]; [by rewrite app_nil_r|]. cbn [app emit_code].
  destruct (flush_idle st H) as [E _]. destruct (Tool.flush_eobrun st) as [o e bu l]. cbn [Tool.eobrun] in E. subst e.
  unfold Tool.emit, Tool.flush_eobrun. cbn [Tool.out Tool.eobrun Tool.buffer Tool.last_dc Z.ltb Z.compare]. by rewrite <- app_assoc.
Qed.
Lemma emit_code_run es st : 0 <= Tool.eobrun st -> 0 <= Tool.eobrun (emit_code es st).
Proof. intros H. destruct es; [done|]. cbn. destruct (flush_idle st H) as [-> _]. done. Qed.

(** The end of a block; [full] says when a run is written at once. *)
Definition push (full : Z -> list Z -> bool) (st : Tool.encoding) (bc : bcode) : Tool.encoding :=
  let st := emit_code (code bc) st in
  if ended bc then
    let st := Tool.Encoding (Tool.out st) (Tool.eobrun st + 1) (Tool.buffer st ++ pend bc) (Tool.last_dc st) in
    if full (Tool.eobrun st) (Tool.buffer st) then Tool.flush_eobrun st else st
  else st.

Definition eobs (e : Z) (b : list Z) : list Tool.event := if 0 <? e then eob e b else [].

Fixpoint emitted (full : Z -> list Z -> bool) (e : Z) (b : list Z) (bcs : list bcode) : list Tool.event :=
  match bcs with
  | [] => eobs e b
  | bc :: bcs =>
      let '(pre, e, b) := match code bc with [] => ([], e, b) | _ => (eobs e b ++ code bc, 0, []) end in
      pre ++ (if ended bc then
                if full (e + 1) (b ++ pend bc) then eobs (e + 1) (b ++ pend bc) ++ emitted full 0 [] bcs
                else emitted full (e + 1) (b ++ pend bc) bcs
              else emitted full e b bcs)
  end.

(** A state in which bits are kept back only for a run. *)
Definition idle (st : Tool.encoding) : Prop := 0 <= Tool.eobrun st /\ (Tool.eobrun st = 0 -> Tool.buffer st = []).

Lemma flush_state st : idle st -> Tool.flush_eobrun st = Tool.Encoding (Tool.out st ++ eobs (Tool.eobrun st) (Tool.buffer st)) 0 [] (Tool.last_dc st).
Proof.
  intros [H0 HB]. unfold Tool.flush_eobrun, eobs. destruct (Z.ltb_spec 0 (Tool.eobrun st)); [done|]. assert (E : Tool.eobrun st = 0) by lia.
  specialize (HB E). destruct st as [o e b l]. cbn in *. subst. by rewrite app_nil_r.
Qed.

Lemma pushes_out full bcs st : idle st -> Tool.out (Tool.flush_eobrun (foldl (push full) st bcs)) = Tool.out st ++ emitted full (Tool.eobrun st) (Tool.buffer st) bcs.
Proof.
  revert st. induction bcs as [|bc bcs IH]; intros st I; [cbn [foldl emitted]; by rewrite flush_state|]. cbn [foldl emitted].
  set (st1 := emit_code (code bc) st). destruct (match code bc with [] => ([], Tool.eobrun st, Tool.buffer st) | _ => (eobs (Tool.eobrun st) (Tool.buffer st) ++ code bc, 0, []) end) as [[pre e] b] eqn:E.
  assert (H : Tool.out st1 = Tool.out st ++ pre /\ Tool.eobrun st1 = e /\ Tool.buffer st1 = b /\ idle st1).
  { unfold st1. destruct (code bc) as [|x c]; injection E as <- <- <-; cbn [emit_code]; [by rewrite app_nil_r|].
    rewrite flush_state by done. unfold Tool.emit. cbn [Tool.out Tool.eobrun Tool.buffer]. rewrite <- app_assoc. split_and!; done. }
  destruct H as (H1 & <- & <- & I1). unfold push. fold st1. destruct I1 as [I1 I2].
  assert (I3 : idle (Tool.Encoding (Tool.out st1) (Tool.eobrun st1 + 1) (Tool.buffer st1 ++ pend bc) (Tool.last_dc st1))) by (split; cbn; lia).
  destruct (ended bc); [|rewrite IH by done; by rewrite H1, <- app_assoc]. cbn [Tool.eobrun Tool.buffer].
  destruct (full _ _).
  - rewrite (flush_state _ I3). rewrite IH by (split; done). cbn [Tool.out Tool.eobrun Tool.buffer]. by rewrite H1, <- !app_assoc.
  - rewrite IH by done. cbn [Tool.out Tool.eobrun Tool.buffer]. by rewrite H1, <- app_assoc.
Qed.

Lemma push_idle full st bc : idle st -> idle (push full st bc).
Proof.
  intros I. unfold push. assert (I1 : idle (emit_code (code bc) st)).
  { destruct (code bc); [done|]. cbn [emit_code]. rewrite flush_state by done. split; done. }
  destruct I1 as [I1 I2]. destruct (ended bc); [|done]. cbn [Tool.eobrun Tool.buffer].
  assert (I3 : idle (Tool.Encoding (Tool.out (emit_code (code bc) st)) (Tool.eobrun (emit_code (code bc) st) + 1) (Tool.buffer (emit_code (code bc) st) ++ pend bc) (Tool.last_dc (emit_code (code bc) st)))) by (split; cbn; lia).
  destruct (full _ _); [rewrite flush_state by done; split; done | done].
Qed.

(** A run that has begun is written with the blocks that end at once. *)
Lemma emitted_ahead full bcs : (forall e b, full e b = false -> e <> 32767) -> Forall (fun bc => code bc = [] -> ended bc = true) bcs ->
  forall e b, 0 < e < 32767 -> exists m, (m <= length bcs)%nat /\ Forall (fun bc => code bc = [] /\ ended bc = true) (take m bcs)
    /\ e + Z.of_nat m <= 32767
    /\ emitted full e b bcs = eob (e + Z.of_nat m) (b ++ concat (pend <$> take m bcs)) ++ emitted full 0 [] (drop m bcs).
Proof.
  intros HF W. induction W as [|bc bcs HW W IH]; intros e b He.
  - exists O. cbn [emitted take drop concat fmap list_fmap]. rewrite Z.add_0_r, !app_nil_r. unfold eobs. rewrite (proj2 (Z.ltb_lt 0 e)) by lia. cbn [Z.ltb Z.compare].
    split_and!; try done; lia.
  - destruct (code bc) as [|x c] eqn:EC.
    + specialize (HW eq_refl). cbn [emitted]. rewrite EC, HW. cbn [app]. destruct (full (e + 1) (b ++ pend bc)) eqn:EF.
      * exists 1%nat. cbn [take drop concat fmap list_fmap length]. rewrite app_nil_r. unfold eobs. rewrite (proj2 (Z.ltb_lt 0 (e + 1))) by lia.
        split_and!; try done; try lia. by constructor.
      * specialize (HF _ _ EF). destruct (IH (e + 1) (b ++ pend bc) ltac:(lia)) as (m & Hm & F & B & E). exists (S m). cbn [take drop concat fmap list_fmap length].
        split_and!; [lia | by constructor | lia|]. rewrite E, <- app_assoc. do 2 f_equal. lia.
    + exists O. cbn [take drop concat fmap list_fmap]. rewrite Z.add_0_r, app_nil_r. split_and!; try done; try lia. cbn [emitted]. rewrite EC.
      unfold eobs at 1 3. rewrite (proj2 (Z.ltb_lt 0 e)) by lia. cbn [Z.ltb Z.compare app]. by rewrite <- app_assoc.
Qed.

Lemma emitted_first full bc bcs : emitted full 0 [] (bc :: bcs) = code bc ++ (if ended bc then
    if full 1 (pend bc) then eob 1 (pend bc) ++ emitted full 0 [] bcs else emitted full 1 (pend bc) bcs
  else emitted full 0 [] bcs).
Proof. cbn [emitted]. destruct (code bc); done. Qed.

Section ac_scan.
Context (data : list Z) (start : Z) (raw : list Z) (tool : option (gmap Z (Z * Z))).
Context (full : Z -> list Z -> bool) (dec : reader -> list Z -> outcome (reader * list Z)).
#[warnings="-notation-for-abbreviation"] Local Notation reading := (reading start raw tool).

(** The decoder makes [after] of [before] when it reads the code of a block:
    one that ends early with a run of [E] blocks that it begins, one that does
    not, and one inside of a run. *)
Record decodes (bc : bcode) (before after : list Z) : Prop := Decodes {
  de_ended : ended bc = true -> forall r E b es, eob_run r = 0 -> 1 <= E <= 32767 -> reading r (code bc ++ eob E (pend bc ++ b) ++ es) ->
    exists r', dec r before = Ok (r', after) /\ reading r' (Tool.single_bits b ++ es) /\ eob_run r' = E - 1;
  de_whole : ended bc = false -> forall r es, eob_run r = 0 -> reading r (code bc ++ es) ->
    exists r', dec r before = Ok (r', after) /\ reading r' es /\ eob_run r' = 0;
  de_within : code bc = [] -> ended bc = true -> forall r es, 0 < eob_run r -> reading r (Tool.single_bits (pend bc) ++ es) ->
    exists r', dec r before = Ok (r', after) /\ reading r' es /\ eob_run r' = eob_run r - 1
}.

Definition quiet (bc : bcode) : Prop := code bc = [] /\ ended bc = true.

(** What the decoder has yet to read: the bits of the run it is in, and the
    events of the blocks after it. *)
Definition owed (r : reader) (bcs : list bcode) (es : list Tool.event) : Prop :=
  let d := Z.to_nat (eob_run r) in
  0 <= eob_run r /\ Forall quiet (take d bcs)
  /\ reading r (Tool.single_bits (concat (pend <$> take d bcs)) ++ emitted full 0 [] (drop d bcs) ++ es).

Hypothesis limit : forall e b, full e b = false -> e <> 32767.

Lemma single_bits_app a b : Tool.single_bits (a ++ b) = Tool.single_bits a ++ Tool.single_bits b.
Proof. apply fmap_app. Qed.

Lemma decode_next r bc bcs es before after : decodes bc before after -> Forall (fun bc => code bc = [] -> ended bc = true) (bc :: bcs) ->
  owed r (bc :: bcs) es -> exists r', dec r before = Ok (r', after) /\ owed r' bcs es.
Proof.
  intros D W (H0 & Q & R). apply Forall_cons in W as [W1 W]. destruct (Z.to_nat (eob_run r)) as [|d] eqn:ED.
  - assert (Z0 : eob_run r = 0) by lia. cbn [take drop fmap list_fmap concat Tool.single_bits app] in R. rewrite emitted_first, <- app_assoc in R.
    destruct (ended bc) eqn:EE.
    + assert (exists m, Forall quiet (take m bcs) /\ 1 + Z.of_nat m <= 32767 /\
        reading r (code bc ++ eob (1 + Z.of_nat m) (pend bc ++ concat (pend <$> take m bcs)) ++ emitted full 0 [] (drop m bcs) ++ es)) as (m & Qm & Hm & Rm).
      { destruct (full 1 (pend bc)).
        - exists O. cbn [take drop fmap list_fmap concat]. rewrite app_nil_r. rewrite <- app_assoc in R. split_and!; [constructor | lia | done].
        - destruct (emitted_ahead full bcs limit W 1 (pend bc) ltac:(lia)) as (m & _ & Q' & B & E'). rewrite E', <- app_assoc in R. by exists m. }
      destruct (de_ended _ _ _ D EE r (1 + Z.of_nat m) _ _ Z0 ltac:(lia) Rm) as (r' & E' & R' & EN). exists r'. split; [done|]. unfold owed.
      replace (Z.to_nat (eob_run r')) with m by lia. split_and!; [lia | done | done].
    + destruct (de_whole _ _ _ D EE r _ Z0 R) as (r' & E' & R' & EN). exists r'. split; [done|]. unfold owed. rewrite EN. split_and!; [lia | constructor | done].
  - cbn [take drop fmap list_fmap concat] in R, Q. apply Forall_cons in Q as [[Q1 Q2] Q]. rewrite single_bits_app, <- app_assoc in R.
    destruct (de_within _ _ _ D Q1 Q2 r _ ltac:(lia) R) as (r' & E' & R' & EN). exists r'. split; [done|]. unfold owed.
    replace (Z.to_nat (eob_run r')) with d by lia. split_and!; [lia | done | done].
Qed.
End ac_scan.
