(* ===== verification/JpegFirst.v ===== *)
(** JpegFirst: a block of the first AC scan of a band.

    [first_code] is the list of events of a block, without the state of
    the encoder: [Tool.ac_first] emits it, and the kernel's loop reads the
    coefficients back from it. *)
From Stdlib Require Import ZArith Lia List.
From stdpp Require Import base list gmap strings.
From S2P Require Import Prelude Text Arrays Machine Huff Png Jpeg JpegBits JpegScan.
Open Scope Z_scope.
Import Jpeg.Kernel.

(** * The events of a block *)

(** A coefficient without its last [al] bits. *)
Definition scaled (al c : Z) : Z := Z.sgn c * Z.shiftr (Z.abs c) al.

Definition first_events (r x : Z) : list Tool.event :=
  let n := Tool.bit_length x in
  replicate (Z.to_nat (r / 16)) (Tool.Sym 240)
    ++ [Tool.Sym (Z.shiftl (r mod 16) 4 + n); Tool.Bits (Z.land (signed_bits x) (Z.shiftl 1 n - 1)) n].

(** With [r] zeros before the coefficients [ks]; the zeros at the end. *)
Fixpoint first_code (al : Z) (block : list Z) (ks : list Z) (r : Z) : list Tool.event * Z :=
  match ks with
  | [] => ([], r)
  | k :: ks =>
      let x := scaled al (zz block k) in
      if x =? 0 then first_code al block ks (r + 1)
      else let '(es, r') := first_code al block ks 0 in (first_events r x ++ es, r')
  end.

Definition first_bcode (ss se al : Z) (block : list Z) : bcode :=
  let '(es, r) := first_code al block (pyrange ss (se + 1)) 0 in Bcode es [] (0 <? r).

Definition first_full (e : Z) (b : list Z) : bool := e =? 32767.

(** * The encoder *)

Lemma scaled_0 al c : 0 <= al -> (scaled al c =? 0) = (c =? 0) || (Z.shiftr (Z.abs c) al =? 0).
Proof.
  intros H. unfold scaled. destruct (Z.eqb_spec c 0) as [->|N]; [done|]. cbn [orb].
  destruct (Z.eqb_spec (Z.shiftr (Z.abs c) al) 0) as [->|NZ]; [by rewrite Z.mul_0_r|]. apply Z.eqb_neq. lia.
Qed.
Lemma bit_length_scaled al c : c <> 0 -> Tool.bit_length (scaled al c) = Tool.bit_length (Z.shiftr (Z.abs c) al).
Proof.
  intros N. unfold Tool.bit_length, scaled. pose proof (Z.shiftr_nonneg (Z.abs c) al) as [_ P]. specialize (P ltac:(lia)).
  set (t := Z.shiftr (Z.abs c) al) in *. replace (Z.abs (Z.sgn c * t)) with t by lia. replace (Z.abs t) with t by lia.
  destruct (Z.eqb_spec t 0) as [->|]; [by rewrite Z.mul_0_r|]. by rewrite (proj2 (Z.eqb_neq _ _)) by lia.
Qed.

Lemma emit_app a b st : Tool.emit (a ++ b) st = Tool.emit b (Tool.emit a st).
Proof. unfold Tool.emit. cbn. by rewrite app_assoc. Qed.

Lemma zrls_spec fuel r st : 0 <= r -> r / 16 < Z.of_nat fuel -> Tool.zrls fuel r st = Ret (r mod 16, Tool.emit (replicate (Z.to_nat (r / 16)) (Tool.Sym 240)) st).
Proof.
  revert r st. induction fuel as [|fuel IH]; intros r st Hr HF; [pose proof (Z.div_pos r 16); lia|]. cbn [Tool.zrls].
  destruct (Z.ltb_spec 15 r).
  - assert (D : r / 16 = (r - 16) / 16 + 1) by (replace r with (r - 16 + 1 * 16) at 1 by lia; rewrite Z.div_add by lia; lia).
    assert (M : r mod 16 = (r - 16) mod 16) by (replace r with (r - 16 + 1 * 16) at 1 by lia; apply Z.mod_add; lia).
    rewrite IH by lia. pose proof (Z.div_pos (r - 16) 16 ltac:(lia) ltac:(lia)). rewrite M, D. do 2 f_equal. rewrite <- emit_app. f_equal.
    replace (Z.to_nat ((r - 16) / 16 + 1)) with (S (Z.to_nat ((r - 16) / 16))) by lia. done.
  - rewrite Z.mod_small, Z.div_small by lia. cbn. f_equal. unfold Tool.emit. rewrite app_nil_r. by destruct st.
Qed.

Lemma first_coef al block r st k : 0 <= al -> zlen block = 64 -> 0 <= k < 64 -> 0 <= r < 64 ->
  Tool.ac_first_coef al block (r, st) k =
    let x := scaled al (zz block k) in
    Ret (if x =? 0 then (r + 1, st) else (0, Tool.emit (first_events r x) (Tool.flush_eobrun st))).
Proof.
  intros Hal L Hk Hr. unfold Tool.ac_first_coef. pose proof (zig_range k Hk). rewrite pyget_zig, py_ret_bind, pyget_zat, py_ret_bind by lia. fold (zz block k).
  cbv zeta. rewrite scaled_0 by done. set (c := zz block k). destruct (Z.eqb_spec c 0) as [|NC]; [done|]. cbn [orb].
  set (t := Z.shiftr (Z.abs c) al). pose proof (Z.shiftr_nonneg (Z.abs c) al) as [_ P]. specialize (P ltac:(lia)). fold t in P.
  assert (E : (if c <? 0 then (Z.shiftr (- c) al, Z.lnot (Z.shiftr (- c) al)) else (Z.shiftr c al, Z.shiftr c al)) = (t, if c <? 0 then Z.lnot t else t))
    by (unfold t; destruct (Z.ltb_spec c 0); [replace (Z.abs c) with (- c) by lia | replace (Z.abs c) with c by lia]; done).
  rewrite E. cbn beta iota. destruct (Z.eqb_spec t 0) as [|T0]; [done|].
  pose proof (Z.div_le_upper_bound r 16 4 ltac:(lia) ltac:(lia)). rewrite zrls_spec, py_ret_bind by lia. cbn beta iota. rewrite <- emit_app.
  unfold first_events. rewrite bit_length_scaled by done. fold t. do 9 f_equal. unfold signed_bits, scaled. fold t.
  destruct (Z.ltb_spec c 0); [rewrite (proj2 (Z.ltb_lt _ _)) by lia; unfold Z.lnot | rewrite (proj2 (Z.ltb_ge _ _)) by lia]; lia.
Qed.

Lemma first_coefs al block ks : 0 <= al -> zlen block = 64 -> Forall (fun k => 0 <= k < 64) ks ->
  forall r st, 0 <= r -> r + zlen ks <= 64 -> 0 <= Tool.eobrun st ->
  foldM (Tool.ac_first_coef al block) (r, st) ks = let '(es, r') := first_code al block ks r in Ret (r', emit_code es st).
Proof.
  intros Hal L F. induction F as [|k ks Hk F IH]; intros r st Hr HS He; [done|].
  unfold zlen in HS. cbn [length] in HS. rewrite Nat2Z.inj_succ in HS. cbn [foldM first_code]. rewrite first_coef, py_ret_bind by lia. cbv zeta.
  destruct (scaled al (zz block k) =? 0); [apply IH; unfold zlen; lia|].
  rewrite IH; [|lia|unfold zlen; lia|unfold Tool.emit; cbn [Tool.eobrun]; destruct (flush_idle st He) as [-> _]; lia].
  destruct (first_code al block ks 0) as [es r']. rewrite emit_code_app by done. do 3 f_equal.
  unfold first_events, emit_code. by destruct (replicate _ _).
Qed.

(** [ac_first] adds the code of the block. *)
Lemma ac_first_push ss se al block st : 0 <= al -> zlen block = 64 -> 0 <= ss -> se < 64 -> idle st ->
  Tool.ac_first ss se al block st = Ret (push first_full st (first_bcode ss se al block)).
Proof.
  intros Hal L Hs Hse [I1 I2]. unfold Tool.ac_first, first_bcode.
  assert (HL : zlen (pyrange ss (se + 1)) <= 64) by (destruct (Z.leb_spec ss (se + 1)); [rewrite zlen_pyrange; lia | rewrite pyrange_nil by lia; done]).
  rewrite first_coefs; [|done|done| |lia|lia|done].
  - destruct (first_code al block (pyrange ss (se + 1)) 0) as [es r]. rewrite py_ret_bind. unfold push. cbn [code pend ended]. rewrite app_nil_r.
    destruct (0 <? r); done.
  - apply Forall_forall. intros k Hk. apply elem_of_pyrange in Hk. lia.
Qed.

(** * The decoder *)

Lemma symbol_parts r n : 0 <= r -> 0 <= n < 16 -> Z.shiftr (Z.shiftl r 4 + n) 4 = r /\ Z.land (Z.shiftl r 4 + n) 15 = n.
Proof.
  intros Hr Hn. rewrite Z.shiftl_mul_pow2, Z.shiftr_div_pow2 by lia. change (2 ^ 4) with 16. split.
  - symmetry. apply (Z.div_unique_pos _ 16 r n); lia.
  - change 15 with (Z.ones 4). rewrite Z.land_ones by lia. symmetry. apply (Z.mod_unique_pos _ 16 r n); lia.
Qed.

Lemma scaled_abs al c : 0 <= al -> Z.abs (Z.shiftl (scaled al c) al) <= Z.abs c /\ Z.abs (scaled al c) <= Z.abs c.
Proof.
  intros H. unfold scaled. rewrite Z.shiftl_mul_pow2, Z.shiftr_div_pow2 by done. set (p := 2 ^ al). assert (0 < p) by (apply Z.pow_pos_nonneg; lia).
  pose proof (Z.mul_div_le (Z.abs c) p ltac:(done)). pose proof (Z.div_pos (Z.abs c) p ltac:(lia) ltac:(lia)).
  rewrite !Z.abs_mul. rewrite (Z.abs_eq (Z.abs c / p)), (Z.abs_eq p) by lia. split; nia.
Qed.

(** [b] holds the values of [f] at [k] to [se] and is [a] elsewhere. *)
Definition painted (k se : Z) (f : Z -> Z) (a b : list Z) : Prop :=
  zlen b = 64 /\ forall j, 0 <= j < 64 -> zz b j = if between k j se then f j else zz a j.

Lemma between_spec a x b : between a x b = true <-> a <= x <= b.
Proof. unfold between. rewrite andb_true_iff, !Z.leb_le. done. Qed.
Lemma between_not a x b : between a x b = false <-> ~ (a <= x <= b).
Proof. rewrite <- between_spec, not_true_iff_false. done. Qed.

Lemma painted_nil k se f a : zlen a = 64 -> se < k -> painted k se f a a.
Proof. intros L H. split; [done|]. intros j Hj. by rewrite (proj2 (between_not k j se)) by lia. Qed.
Lemma painted_keep k se f a b : 0 <= k <= se -> se < 64 -> zz a k = f k -> painted (k + 1) se f a b -> painted k se f a b.
Proof.
  intros Hk Hs E [L P]. split; [done|]. intros j Hj. rewrite P by done. destruct (between (k + 1) j se) eqn:E1, (between k j se) eqn:E2; try done.
  - apply between_spec in E1. apply between_not in E2. lia.
  - apply between_not in E1. apply between_spec in E2. replace j with k by lia. done.
Qed.
Lemma painted_set k se f a b : zlen a = 64 -> 0 <= k <= se -> se < 64 -> painted (k + 1) se f (zset a (zig k) (f k)) b -> painted k se f a b.
Proof.
  intros La Hk Hs [L P]. split; [done|]. intros j Hj. rewrite P by done. rewrite zz_set by lia.
  destruct (between (k + 1) j se) eqn:E1, (between k j se) eqn:E2; try done.
  - apply between_spec in E1. apply between_not in E2. lia.
  - apply between_not in E1. apply between_spec in E2. replace j with k by lia. by rewrite Z.eqb_refl.
  - apply between_not in E2. by rewrite (proj2 (Z.eqb_neq j k)) by lia.
Qed.

Section first.
Context (data : list Z) (start : Z) (raw tail : list Z) (tool : option (gmap Z (Z * Z))) (kernel : huffman).
Hypothesis C : coded data start raw tail.
Hypothesis A : agree tool kernel.
Context (al se : Z) (block : list Z).
Hypothesis Hal : 1 <= al.
Hypothesis Hse : se < 64.
Hypothesis small : forall k, 1 <= k < 64 -> Z.abs (zz block k) < 32768.
#[warnings="-notation-for-abbreviation"] Local Notation reading := (reading start raw tool).
#[warnings="-notation-for-abbreviation"] Local Notation loop := (fun fuel => ac_first_loop fuel data kernel se al).

Lemma loop_zrl q fuel k r blk es : reading r (replicate q (Tool.Sym 240) ++ es) -> k + 16 * Z.of_nat q <= se ->
  exists r', loop (q + fuel)%nat k r blk = loop fuel (k + 16 * Z.of_nat q) r' blk /\ reading r' es /\ eob_run r' = eob_run r.
Proof.
  revert k r. induction q as [|q IH]; intros k r R H.
  - exists r. cbn [Nat.add]. change (Z.of_nat 0) with 0. rewrite Z.mul_0_r, Z.add_0_r. done.
  - cbn [replicate app] in R. apply (read_sym data start raw tail tool kernel C A) in R as (r1 & D & R & E1).
    cbn [Nat.add ac_first_loop]. rewrite (proj2 (Z.leb_le k se)) by lia. rewrite D, ok_bind. cbn beta iota. change (Z.shiftr 240 4) with 15. change (Z.land 240 15) with 0. cbn [Z.eqb negb Pos.eqb].
    destruct (IH (k + 16) r1 R ltac:(lia)) as (r2 & E & R2 & E2). exists r2. rewrite E, E2, E1. split_and!; [|done..]. f_equal. lia.
Qed.

Lemma loop_coef fuel k run r blk x es : 0 <= run < 16 -> k + run <= se -> x <> 0 -> Z.abs x < 32768 ->
  reading r (Tool.Sym (Z.shiftl run 4 + Tool.bit_length x) :: Tool.Bits (Z.land (signed_bits x) (Z.shiftl 1 (Tool.bit_length x) - 1)) (Tool.bit_length x) :: es) ->
  exists r', loop (S fuel) k r blk = loop fuel (k + run + 1) r' (zset blk (zig (k + run)) (as_i16 (Z.shiftl x al))) /\ reading r' es /\ eob_run r' = eob_run r.
Proof.
  intros Hr Hk Hx HB R. apply (read_sym data start raw tail tool kernel C A) in R as (r1 & D & R & E1).
  destruct (bit_length_spec x Hx) as [B1 _]. pose proof (bit_length_le x 15 ltac:(lia) HB) as B2. cbn [ac_first_loop]. rewrite (proj2 (Z.leb_le k se)) by lia.
  rewrite D, ok_bind. cbn beta iota. destruct (symbol_parts run (Tool.bit_length x)) as [-> ->]; [lia..|]. rewrite (proj2 (Z.eqb_neq (Tool.bit_length x) 0)) by lia. cbn [negb].
  rewrite (proj2 (Z.ltb_ge 63 (k + run))) by lia.
  apply (receive_value data start raw tail tool C r1 x) in R as (r2 & E & R2 & E2); [|done|lia|rewrite land_low, Z.mod_mod by (try apply Z.pow_nonzero; lia); done].
  rewrite E, ok_bind. exists r2. rewrite E2, E1. done.
Qed.

(** The loop at [k - run], when the encoder is at [k] after [run] zeros. *)
Lemma first_loop : forall k end_, end_ = se + 1 -> 1 <= k <= se + 1 -> forall fuel run r blk es r' E b rest,
  0 <= run <= k -> se + 2 - (k - run) <= Z.of_nat fuel -> zlen blk = 64 -> (forall j, k <= j <= se -> zz blk j = 0) ->
  first_code al block (pyrange k end_) run = (es, r') -> 1 <= E <= 32767 -> eob_run r = 0 ->
  reading r (es ++ (if 0 <? r' then eob E b else []) ++ rest) ->
  exists r2 blk2, loop fuel (k - run) r blk = Ok (r2, blk2) /\ painted k se (fun j => Z.shiftl (scaled al (zz block j)) al) blk blk2
    /\ reading r2 ((if 0 <? r' then Tool.single_bits b else []) ++ rest) /\ eob_run r2 = if 0 <? r' then E - 1 else 0.
Proof.
  intros k end_. pattern k, end_. apply pyrange_ind; clear k end_.
  - intros k end_ H -> Hk fuel run r blk es r' E b rest Hr HF L Z0 EC HE E0 R. rewrite pyrange_nil in EC by lia. injection EC as <- <-. cbn [app] in R.
    destruct fuel as [|fuel]; [lia|]. cbn [ac_first_loop]. destruct (Z.ltb_spec 0 run) as [Pr|Pr].
    + apply (read_run data start raw tail tool kernel C A) in R as (n & r1 & r2 & D & Hn & ER & E2 & R2); [|done]. rewrite (proj2 (Z.leb_le (k - run) se)) by lia.
      rewrite D, ok_bind. cbn beta iota. destruct (symbol_parts n 0) as [S1 S2]; [lia..|]. rewrite Z.add_0_r in S1, S2. rewrite S1, S2. cbn [Z.eqb negb].
      rewrite (proj2 (Z.eqb_neq n 15)) by lia. rewrite ER, ok_bind. unfold u32. rewrite checked_ok, ok_bind by lia.
      exists (set_eob_run r2 (eob_run r2 - 1)), blk. split_and!; [done | apply painted_nil; lia | by apply reading_eob | cbn; lia].
    + rewrite (proj2 (Z.leb_gt (k - run) se)) by lia. exists r, blk. split_and!; [done | apply painted_nil; lia | done | done].
  - intros k end_ H IH -> Hk fuel run r blk es r' E b rest Hr HF L Z0 EC HE E0 R. rewrite pyrange_cons in EC by lia. cbn [first_code] in EC.
    destruct (Z.eqb_spec (scaled al (zz block k)) 0) as [X0|X0].
    + destruct (IH eq_refl ltac:(lia) fuel (run + 1) r blk es r' E b rest) as (r2 & blk2 & EL & P & R2 & E2); try done; try lia.
      { intros j Hj. apply Z0. lia. }
      exists r2, blk2. replace (k + 1 - (run + 1)) with (k - run) in EL by lia. split_and!; try done. apply painted_keep; try lia; [|done]. by rewrite X0, Z0, Z.shiftl_0_l by lia.
    + destruct (first_code al block (pyrange (k + 1) (se + 1)) 0) as [es' r''] eqn:EC'. injection EC as <- <-.
      set (x := scaled al (zz block k)) in *. unfold first_events in R. rewrite <- !app_assoc in R.
      pose proof (Z.div_mod run 16 ltac:(lia)). pose proof (Z.mod_pos_bound run 16 ltac:(lia)). pose proof (Z.div_pos run 16 ltac:(lia) ltac:(lia)).
      set (q := Z.to_nat (run / 16)) in *. assert (Hq : Z.of_nat q = run / 16) by lia. destruct (Nat.le_exists_sub (S q) fuel ltac:(lia)) as (f & EF & _).
      replace fuel with (q + S f)%nat by lia. destruct (loop_zrl q (S f) (k - run) r blk _ R ltac:(lia)) as (r1 & EL1 & R1 & E1).
      destruct (scaled_abs al (zz block k) ltac:(lia)) as [A1 A2]. pose proof (small k ltac:(lia)). cbn [app] in R1.
      destruct (loop_coef f (k - run + 16 * Z.of_nat q) (run mod 16) r1 blk x _ ltac:(lia) ltac:(lia) X0 ltac:(unfold x; lia) R1) as (r2 & EL2 & R2 & E2).
      replace (k - run + 16 * Z.of_nat q + run mod 16) with k in EL2 by lia. rewrite as_i16_small in EL2 by (unfold x; lia).
      destruct (IH eq_refl ltac:(lia) f 0 r2 (zset blk (zig k) (Z.shiftl x al)) es' r'' E b rest) as (r3 & blk2 & EL & P & R3 & E3); try done; try lia.
      { by rewrite zlen_zset. }
      { intros j Hj. rewrite zz_set by lia. rewrite (proj2 (Z.eqb_neq j k)) by lia. apply Z0. lia. }
      exists r3, blk2. rewrite EL1, EL2. rewrite Z.sub_0_r in EL. split_and!; try done. apply painted_set; try lia; done.
Qed.

Lemma first_code_nil ks r : 0 <= r -> (first_code al block ks r).1 = [] ->
  Forall (fun k => scaled al (zz block k) = 0) ks /\ (first_code al block ks r).2 = r + zlen ks.
Proof.
  revert r. induction ks as [|k ks IH]; intros r Hr E; [split; [constructor | cbn [first_code snd]; change (zlen []) with 0; lia]|]. cbn [first_code] in *.
  destruct (Z.eqb_spec (scaled al (zz block k)) 0) as [X|X].
  - destruct (IH (r + 1) ltac:(lia) E) as [F ->]. split; [by constructor|]. unfold zlen. cbn [length]. lia.
  - destruct (first_code al block ks 0) as [es r']. cbn [fst] in E. unfold first_events in E. by destruct (replicate _ _).
Qed.
Lemma first_code_run ks r : 0 <= r -> 0 <= (first_code al block ks r).2.
Proof.
  revert r. induction ks as [|k ks IH]; intros r Hr; [done|]. cbn [first_code]. destruct (_ =? _); [apply IH; lia|].
  specialize (IH 0 ltac:(lia)). by destruct (first_code al block ks 0).
Qed.

Lemma first_bcode_ended ss : ss <= se -> code (first_bcode ss se al block) = [] -> ended (first_bcode ss se al block) = true.
Proof.
  intros H E. unfold first_bcode in *. pose proof (first_code_nil (pyrange ss (se + 1)) 0 ltac:(lia)) as N.
  destruct (first_code al block (pyrange ss (se + 1)) 0) as [es r]. cbn [code ended fst snd] in *. destruct (N E) as [_ ->]. rewrite zlen_pyrange by lia. apply Z.ltb_lt. lia.
Qed.

(** The kernel reads the band of [block] from its code. *)
Lemma first_decodes ss before after : 1 <= ss <= se -> zlen before = 64 -> (forall j, ss <= j <= se -> zz before j = 0) ->
  painted ss se (fun j => Z.shiftl (scaled al (zz block j)) al) before after ->
  decodes start raw tool (decode_ac_first data kernel ss se al) (first_bcode ss se al block) before after.
Proof.
  intros Hs L Z0 [La P]. pose proof (first_loop ss (se + 1) eq_refl ltac:(lia) 64%nat 0) as FL. rewrite Z.sub_0_r in FL.
  assert (U : forall blk2, painted ss se (fun j => Z.shiftl (scaled al (zz block j)) al) before blk2 -> blk2 = after).
  { intros blk2 [L2 P2]. apply zz_ext; [done..|]. intros k Hk. by rewrite P, P2. }
  pose proof (first_code_nil (pyrange ss (se + 1)) 0 ltac:(lia)) as N. pose proof (first_code_run (pyrange ss (se + 1)) 0 ltac:(lia)) as RN.
  unfold first_bcode. destruct (first_code al block (pyrange ss (se + 1)) 0) as [es r'] eqn:EC. cbn [fst snd] in N, RN.
  split; cbn [code ended pend]; unfold decode_ac_first.
  - intros EE r E b rest E0 HE R. rewrite E0. cbn [Z.ltb Z.compare]. specialize (FL r before es r' E b rest). rewrite EE in FL.
    destruct FL as (r2 & blk2 & EL & P2 & R2 & E2); try done; try lia. rewrite EL, (U _ P2). eauto.
  - intros EE r rest E0 R. rewrite E0. cbn [Z.ltb Z.compare]. specialize (FL r before es r' 1 [] rest). rewrite EE in FL.
    destruct FL as (r2 & blk2 & EL & P2 & R2 & E2); try done; try lia. rewrite EL, (U _ P2). eauto.
  - intros -> EE r rest E0 R. rewrite (proj2 (Z.ltb_lt 0 (eob_run r))) by done. destruct (N eq_refl) as [F _]. rewrite Forall_forall in F.
    assert (before = after) as ->.
    { apply U. split; [done|]. intros j Hj. destruct (between ss j se) eqn:B; [|done]. apply between_spec in B. rewrite F by (apply elem_of_pyrange; lia).
      rewrite Z.shiftl_0_l. apply Z0. lia. }
    exists (set_eob_run r (eob_run r - 1)). split_and!; [done | by apply reading_eob | done].
Qed.
End first.
