(* ===== verification/JpegRefine.v ===== *)
(** JpegRefine: a block of a refining AC scan.

    The band of a block is split after its last new coefficient: up to there
    the events name the zeros between the coefficients ([new_code]), after it
    only the bits of the coefficients known before are kept back ([bits_in]). *)
From Stdlib Require Import ZArith Lia List.
From stdpp Require Import base list gmap strings.
From S2P Require Import Prelude Text Arrays Machine Huff Png Jpeg JpegBits JpegScan JpegFirst.
Open Scope Z_scope.
Import Jpeg.Kernel.

(** * The events of a block *)

Section code.
Context (al : Z) (block : list Z).

Definition size (k : Z) : Z := Z.shiftr (Z.abs (zz block k)) al.

Fixpoint zeros_in (ks : list Z) : Z :=
  match ks with [] => 0 | k :: ks => (if size k =? 0 then 1 else 0) + zeros_in ks end.
Fixpoint bits_in (ks : list Z) : list Z :=
  match ks with [] => [] | k :: ks => (if 1 <? size k then [Z.land (size k) 1] else []) ++ bits_in ks end.

(** [n] times sixteen zeros, the first with the bits [p]. *)
Fixpoint zrl_code (n : nat) (p : list Z) : list Tool.event :=
  match n with O => [] | S n => Tool.Sym 240 :: Tool.single_bits p ++ zrl_code n [] end.
Definition zrl_left (n : nat) (p : list Z) : list Z := match n with O => p | S _ => [] end.

(** The events of the coefficients [ks], after [r] zeros and with the bits [p]. *)
Fixpoint new_code (ks : list Z) (r : Z) (p : list Z) : list Tool.event * Z * list Z :=
  match ks with
  | [] => ([], r, p)
  | k :: ks =>
      if size k =? 0 then new_code ks (r + 1) p
      else
        let n := Z.to_nat (r / 16) in
        if 1 <? size k then
          let '(es, r', p') := new_code ks (r mod 16) (zrl_left n p ++ [Z.land (size k) 1]) in (zrl_code n p ++ es, r', p')
        else
          let '(es, r', p') := new_code ks 0 [] in
          (zrl_code n p ++ (Tool.Sym (Z.shiftl (r mod 16) 4 + 1) :: Tool.Bits (if zz block k <? 0 then 0 else 1) 1
             :: Tool.single_bits (zrl_left n p)) ++ es, r', p')
  end.

(** The last new coefficient of [ks]. *)
Definition last_new (ks : list Z) (l : Z) : Z := foldl (fun l k => if size k =? 1 then k else l) l ks.

(** Where the events end. *)
Definition cut (ss se : Z) : Z := Z.max ss (last_new (pyrange ss (se + 1)) 0 + 1).

Definition refine_bcode (ss se : Z) : bcode :=
  let m := cut ss se in
  Bcode (new_code (pyrange ss m) 0 []).1.1 (bits_in (pyrange m (se + 1))) (m <=? se).
End code.

Definition refine_full (e : Z) (b : list Z) : bool := (e =? 32767) || (900 <? zlen b).

(** * The encoder *)

Section encoder.
Context (al : Z) (block : list Z).
Hypothesis L : zlen block = 64.
#[warnings="-notation-for-abbreviation"] Local Notation size := (size al block).

Lemma size_pos k : 0 <= size k.
Proof. apply Z.shiftr_nonneg. lia. Qed.

Lemma magnitudes ks : Forall (fun k => 0 <= k < 64) ks -> forall av l, zlen av = 64 ->
  exists av', foldM (Tool.magnitude al block) (av, l) ks = Ret (av', last_new al block ks l) /\ zlen av' = 64
    /\ (forall k, 0 <= k < 64 -> zat av k = size k -> zat av' k = size k) /\ Forall (fun k => zat av' k = size k) ks.
Proof.
  intros F. induction F as [|k ks Hk F IH]; intros av l La; [exists av; split_and!; try done|].
  cbn [foldM]. change (last_new al block (k :: ks) l) with (last_new al block ks (if size k =? 1 then k else l)).
  pose proof (zig_range k Hk).
  assert (E : Tool.magnitude al block (av, l) k = Ret (zset av k (size k), if size k =? 1 then k else l)).
  { unfold Tool.magnitude. rewrite pyget_zig, py_ret_bind, pyget_zat, py_ret_bind by lia. fold (zz block k). fold (size k). rewrite pyset_zset, py_ret_bind by lia. done. }
  rewrite E, py_ret_bind. destruct (IH (zset av k (size k)) (if size k =? 1 then k else l)) as (av' & E' & L' & K & F'); [by rewrite zlen_zset|].
  exists av'. split_and!; [done | done | |].
  - intros j Hj Ej. apply K; [done|]. rewrite zat_zset by lia. by destruct (Z.eqb_spec j k) as [->|].
  - constructor; [|done]. apply K; [done|]. rewrite zat_zset by lia. by rewrite Z.eqb_refl.
Qed.

Lemma refine_zrls_stop fuel k l r p st : (0 < fuel)%nat -> l < k \/ r <= 15 -> Tool.refine_zrls fuel k l r p st = Ret (r, p, st).
Proof.
  intros HF H. destruct fuel; [lia|]. cbn [Tool.refine_zrls]. destruct (Z.ltb_spec 15 r), (Z.leb_spec k l); try done. lia.
Qed.

Lemma refine_zrls_spec fuel k l r p st : 0 <= r -> r / 16 < Z.of_nat fuel -> k <= l -> 0 <= Tool.eobrun st ->
  Tool.refine_zrls fuel k l r p st = Ret (r mod 16, zrl_left (Z.to_nat (r / 16)) p, emit_code (zrl_code (Z.to_nat (r / 16)) p) st).
Proof.
  intros Hr HF Hk. revert r p st Hr HF. induction fuel as [|fuel IH]; intros r p st Hr HF He; [pose proof (Z.div_pos r 16); lia|].
  destruct (Z.ltb_spec 15 r) as [Hg|Hg].
  - cbn [Tool.refine_zrls]. rewrite (proj2 (Z.ltb_lt 15 r)), (proj2 (Z.leb_le k l)) by lia. cbn [andb].
    assert (D : r / 16 = (r - 16) / 16 + 1) by (replace r with (r - 16 + 1 * 16) at 1 by lia; rewrite Z.div_add by lia; lia).
    assert (M : r mod 16 = (r - 16) mod 16) by (replace r with (r - 16 + 1 * 16) at 1 by lia; apply Z.mod_add; lia).
    pose proof (Z.div_pos (r - 16) 16 ltac:(lia) ltac:(lia)).
    rewrite IH; [|lia|lia|unfold Tool.emit; cbn [Tool.eobrun]; destruct (flush_idle st He) as [-> _]; lia].
    rewrite M, D. replace (Z.to_nat ((r - 16) / 16 + 1)) with (S (Z.to_nat ((r - 16) / 16))) by lia. cbn [zrl_left zrl_code].
    change (Tool.Sym 240 :: Tool.single_bits p ++ zrl_code (Z.to_nat ((r - 16) / 16)) []) with ((Tool.Sym 240 :: Tool.single_bits p) ++ zrl_code (Z.to_nat ((r - 16) / 16)) []).
    rewrite emit_code_app by done. cbn [emit_code]. by destruct (Z.to_nat ((r - 16) / 16)).
  - rewrite refine_zrls_stop by lia. rewrite Z.mod_small, Z.div_small by lia. done.
Qed.

Section coefs.
Context (av : list Z) (l : Z).
Hypothesis Lav : zlen av = 64.

Lemma refine_coef_step k r p st : 0 <= k < 64 -> k <= l -> zat av k = size k -> 0 <= r < 64 -> 0 <= Tool.eobrun st ->
  Tool.ac_refine_coef block av l (r, p, st) k =
    let n := Z.to_nat (r / 16) in
    Ret (if size k =? 0 then (r + 1, p, st)
         else if 1 <? size k then (r mod 16, zrl_left n p ++ [Z.land (size k) 1], emit_code (zrl_code n p) st)
         else (0, [], emit_code (Tool.Sym (Z.shiftl (r mod 16) 4 + 1) :: Tool.Bits (if zz block k <? 0 then 0 else 1) 1 :: Tool.single_bits (zrl_left n p))
                        (emit_code (zrl_code n p) st))).
Proof.
  intros Hk Hl Ea Hr He. unfold Tool.ac_refine_coef. pose proof (zig_range k Hk). rewrite (pyget_zat av k), py_ret_bind, Ea by lia. cbv zeta.
  destruct (size k =? 0); [done|]. pose proof (Z.div_le_upper_bound r 16 4 ltac:(lia) ltac:(lia)). rewrite refine_zrls_spec, py_ret_bind by lia. cbn beta iota.
  destruct (1 <? size k); [done|]. rewrite pyget_zig, py_ret_bind, pyget_zat, py_ret_bind by lia. done.
Qed.

(** Up to the last new coefficient. *)
Lemma refine_coefs ks : Forall (fun k => 0 <= k < 64 /\ k <= l /\ zat av k = size k) ks -> forall r p st, 0 <= r -> r + zlen ks <= 64 -> 0 <= Tool.eobrun st ->
  foldM (Tool.ac_refine_coef block av l) (r, p, st) ks = let '(es, r', p') := new_code al block ks r p in Ret (r', p', emit_code es st).
Proof.
  intros F. induction F as [|k ks (Hk & Hl & Ea) F IH]; intros r p st Hr HS He; [done|].
  unfold zlen in HS. cbn [length] in HS. rewrite Nat2Z.inj_succ in HS. pose proof (Z.mod_pos_bound r 16 ltac:(lia)). pose proof (Z.mod_le r 16 ltac:(lia) ltac:(lia)).
  cbn [foldM new_code]. rewrite refine_coef_step, py_ret_bind by lia. cbv zeta. pose proof (emit_code_run (zrl_code (Z.to_nat (r / 16)) p) st He).
  destruct (size k =? 0); [apply IH; unfold zlen; lia|]. destruct (1 <? size k).
  - rewrite IH by (done || lia || unfold zlen; lia). destruct (new_code _ _ _ _ _) as [[es r'] p']. by rewrite emit_code_app.
  - rewrite IH by (by apply emit_code_run || lia || unfold zlen; lia).
    destruct (new_code _ _ _ _ _) as [[es r'] p']. rewrite !emit_code_app by (done || by apply emit_code_run). done.
Qed.

(** After it. *)
Lemma refine_tail ks : Forall (fun k => 0 <= k < 64 /\ l < k /\ zat av k = size k /\ size k <> 1) ks -> forall r p st,
  foldM (Tool.ac_refine_coef block av l) (r, p, st) ks = Ret (r + zeros_in al block ks, p ++ bits_in al block ks, st).
Proof.
  intros F. induction F as [|k ks (Hk & Hl & Ea & N) F IH]; intros r p st; [cbn; by rewrite Z.add_0_r, app_nil_r|]. pose proof (size_pos k).
  assert (E : Tool.ac_refine_coef block av l (r, p, st) k =
    Ret (r + (if size k =? 0 then 1 else 0), p ++ (if 1 <? size k then [Z.land (size k) 1] else []), st)).
  { unfold Tool.ac_refine_coef. rewrite (pyget_zat av k), py_ret_bind, Ea by lia. destruct (Z.eqb_spec (size k) 0) as [S0|S0].
    - rewrite S0. cbn [Z.ltb Z.compare]. by rewrite app_nil_r.
    - rewrite refine_zrls_stop, py_ret_bind by lia. rewrite (proj2 (Z.ltb_lt 1 (size k))) by lia. by rewrite Z.add_0_r. }
  cbn [foldM zeros_in bits_in]. rewrite E, py_ret_bind, IH, <- app_assoc. do 3 f_equal. lia.
Qed.
End coefs.

Lemma cut_spec ss se : 1 <= ss <= se -> let m := cut al block ss se in
  ss <= m <= se + 1 /\ (m = ss \/ size (m - 1) = 1) /\ forall k, m <= k <= se -> size k <> 1.
Proof.
  intros H. unfold cut. set (l := last_new al block (pyrange ss (se + 1)) 0).
  enough (P : (l = 0 /\ forall k, ss <= k < se + 1 -> size k <> 1) \/ (ss <= l < se + 1 /\ size l = 1 /\ forall k, l < k < se + 1 -> size k <> 1)).
  { cbv zeta. destruct P as [[-> P]|(P1 & P2 & P)].
    - rewrite Z.max_l by lia. split_and!; [lia | lia | by left |]. intros k Hk. apply P. lia.
    - rewrite Z.max_r by lia. replace (l + 1 - 1) with l by lia. split_and!; [lia | lia | by right |]. intros k Hk. apply P. lia. }
  unfold l, last_new. generalize (se + 1) as b. intros b.
  destruct (Z.leb_spec ss b) as [Hb|Hb]; [|rewrite pyrange_nil by lia; left; split; [done | lia]].
  apply (foldl_range (fun b l => (l = 0 /\ forall k, ss <= k < b -> size k <> 1) \/ (ss <= l < b /\ size l = 1 /\ forall k, l < k < b -> size k <> 1))); [done | left; split; [done | lia]|].
  intros i l' Hi P. destruct (Z.eqb_spec (size i) 1) as [E|E]; [right; split_and!; [lia | lia | done | lia]|].
  destruct P as [[-> P]|(P1 & P2 & P)]; [left; split; [done|] | right; split_and!; [lia | lia | done|]]; intros k Hk;
    (destruct (Z.eq_dec k i) as [->|]; [done | apply P; lia]).
Qed.

Lemma new_code_last ks k r p : size k = 1 -> (new_code al block (ks ++ [k]) r p).1.2 = 0 /\ (new_code al block (ks ++ [k]) r p).2 = [].
Proof.
  intros E. revert r p. induction ks as [|j ks IH]; intros r p; cbn [app new_code]; [by rewrite E|].
  destruct (size j =? 0); [apply IH|]. destruct (1 <? size j);
    match goal with |- context [new_code al block (ks ++ [k]) ?a ?b] => destruct (IH a b) as [H1 H2]; by destruct (new_code al block (ks ++ [k]) a b) as [[es r'] p'] end.
Qed.

Lemma new_code_some ks k r p : size k = 1 -> (new_code al block (ks ++ [k]) r p).1.1 <> [].
Proof.
  intros E1. revert r p. induction ks as [|j ks IH]; intros r p; cbn [app new_code].
  - rewrite E1. change (1 =? 0) with false. change (1 <? 1) with false. cbn [fst]. by intros [_ E]%app_eq_nil.
  - destruct (size j =? 0); [apply IH|]. destruct (1 <? size j).
    + specialize (IH (r mod 16) (zrl_left (Z.to_nat (r / 16)) p ++ [Z.land (size j) 1])). destruct (new_code al block (ks ++ [k]) _ _) as [[es r'] p']. cbn [fst] in *. by intros [_ E]%app_eq_nil.
    + destruct (new_code _ _ _ _ _) as [[es r'] p']. cbn [fst]. by intros [_ E]%app_eq_nil.
Qed.

Lemma zeros_pos ks : 0 <= zeros_in al block ks.
Proof. induction ks as [|k ks IH]; cbn [zeros_in]; [lia | destruct (_ =? _); lia]. Qed.

Lemma tail_nonempty ks : Forall (fun k => size k <> 1) ks -> ks <> [] -> (0 <? zeros_in al block ks) || (0 <? zlen (bits_in al block ks)) = true.
Proof.
  intros F N. destruct F as [|k ks H F]; [done|]. cbn [zeros_in bits_in]. pose proof (size_pos k). pose proof (zeros_pos ks). destruct (Z.eqb_spec (size k) 0) as [E|E].
  - by rewrite (proj2 (Z.ltb_lt 0 _)) by lia.
  - rewrite (proj2 (Z.ltb_lt 1 (size k))) by lia. unfold zlen. rewrite length_app. cbn [length]. rewrite (proj2 (Z.ltb_lt 0 (Z.of_nat _))) by lia. apply orb_true_r.
Qed.

(** [ac_refine] adds the code of the block. *)
Lemma ac_refine_push ss se st : 1 <= ss <= se -> se < 64 -> idle st ->
  Tool.ac_refine ss se al block st = Ret (push refine_full st (refine_bcode al block ss se)).
Proof.
  intros Hs Hse [I1 I2]. unfold Tool.ac_refine, refine_bcode. destruct (cut_spec ss se Hs) as (HM & HN & HT). cbv zeta in *.
  destruct (magnitudes (pyrange ss (se + 1))) with (av := replicate 64 0) (l := 0) as (av & E & La & _ & F); [|done|].
  { apply Forall_forall. intros k Hk. apply elem_of_pyrange in Hk. lia. }
  rewrite E, py_ret_bind. cbn beta iota. rewrite Forall_forall in F. set (l := last_new al block (pyrange ss (se + 1)) 0).
  assert (EM : cut al block ss se = Z.max ss (l + 1)) by done. set (m := cut al block ss se) in *.
  rewrite (pyrange_app ss m (se + 1)) by lia. rewrite foldM_app. rewrite (refine_coefs av l La (pyrange ss m)); [| |lia|rewrite zlen_pyrange by lia; lia|done].
  2:{ apply Forall_forall. intros k Hk. apply elem_of_pyrange in Hk. split_and!; try lia. apply F. apply elem_of_pyrange. lia. }
  assert (EN : (new_code al block (pyrange ss m) 0 []).1.2 = 0 /\ (new_code al block (pyrange ss m) 0 []).2 = []).
  { destruct HN as [->|HN]; [by rewrite pyrange_nil by lia|]. destruct (Z.eq_dec m ss) as [->|]; [by rewrite pyrange_nil by lia|].
    replace (pyrange ss m) with (pyrange ss (m - 1 + 1)) by (f_equal; lia). rewrite pyrange_snoc by lia. by apply new_code_last. }
  destruct (new_code al block (pyrange ss m) 0 []) as [[es r] p]. cbn [fst snd] in EN. destruct EN as [-> ->]. rewrite py_ret_bind.
  rewrite (refine_tail av l La (pyrange m (se + 1))).
  2:{ apply Forall_forall. intros k Hk. apply elem_of_pyrange in Hk. split_and!; try lia; [apply F, elem_of_pyrange; lia | apply HT; lia]. }
  rewrite py_ret_bind. cbn beta iota. unfold push. cbn [code pend ended fst]. cbn [app]. rewrite Z.add_0_l. destruct (Z.leb_spec m se).
  - rewrite tail_nonempty; [done | |by rewrite pyrange_cons by lia]. apply Forall_forall. intros k Hk. apply elem_of_pyrange in Hk. apply HT. lia.
  - rewrite pyrange_nil by lia. done.
Qed.
End encoder.

(** * The decoder *)

(** The values a band has before and after the scan with [al]. *)
Definition shifted (al : Z) (block : list Z) (k : Z) : Z := Z.shiftl (scaled al (zz block k)) al.

Section values.
Context (al : Z) (block : list Z) (k : Z).
Hypothesis Hal : 0 <= al.
#[warnings="-notation-for-abbreviation"] Local Notation c := (zz block k).
#[warnings="-notation-for-abbreviation"] Local Notation s := (size al block k).

Lemma after_value : shifted al block k = Z.sgn c * s * 2 ^ al.
Proof. unfold shifted, scaled. rewrite Z.shiftl_mul_pow2 by done. done. Qed.
Lemma before_value : shifted (al + 1) block k = Z.sgn c * (s / 2) * 2 * 2 ^ al.
Proof.
  unfold shifted, scaled. rewrite Z.shiftl_mul_pow2 by lia. rewrite <- Z.shiftr_shiftr by lia. fold s. rewrite Z.shiftr_div_pow2 by lia.
  rewrite Z.pow_add_r by lia. change (2 ^ 1) with 2. lia.
Qed.
Lemma size_sign : s <> 0 -> c <> 0.
Proof. intros H E. apply H. unfold size. rewrite E. apply Z.shiftr_0_l. Qed.
Lemma before_zero : s <= 1 -> shifted (al + 1) block k = 0.
Proof. intros H. pose proof (size_pos al block k). rewrite before_value, Z.div_small by lia. lia. Qed.
Lemma before_known : 1 < s -> shifted (al + 1) block k <> 0.
Proof.
  intros H. rewrite before_value. pose proof (size_sign ltac:(lia)). pose proof (Z.div_le_lower_bound s 2 1 ltac:(lia) ltac:(lia)).
  pose proof (Z.pow_pos_nonneg 2 al ltac:(lia) Hal). nia.
Qed.
Lemma after_zero : s = 0 -> shifted al block k = 0.
Proof. intros H. rewrite after_value, H. lia. Qed.
Lemma after_new : s = 1 -> shifted al block k = if c <? 0 then - 2 ^ al else 2 ^ al.
Proof. intros H. rewrite after_value, H. pose proof (size_sign ltac:(lia)). destruct (Z.ltb_spec c 0); lia. Qed.
Lemma after_known : 1 < s -> shifted al block k =
  if Z.land s 1 =? 0 then shifted (al + 1) block k else shifted (al + 1) block k + (if 0 <=? shifted (al + 1) block k then 2 ^ al else - 2 ^ al).
Proof.
  intros H. rewrite land_1. rewrite after_value, before_value. pose proof (size_sign ltac:(lia)). pose proof (Z.div_mod s 2 ltac:(lia)) as D.
  pose proof (Z.div_le_lower_bound s 2 1 ltac:(lia) ltac:(lia)) as S2. pose proof (Z.pow_pos_nonneg 2 al ltac:(lia) Hal). pose proof (Z.mod_pos_bound s 2 ltac:(lia)).
  set (h := s / 2) in *. set (p := 2 ^ al) in *. destruct (Z.eqb_spec (s mod 2) 0) as [E|E]; [nia|]. assert (s = 2 * h + 1) as -> by lia.
  destruct (Z.leb_spec 0 (Z.sgn c * h * 2 * p)); nia.
Qed.
Lemma before_bit : Z.land (shifted (al + 1) block k) (2 ^ al) = 0.
Proof.
  unfold shifted. apply Z.bits_inj'. intros i Hi. rewrite Z.land_spec, Z.bits_0, Z.pow2_bits_eqb by done.
  destruct (Z.eqb_spec al i) as [<-|]; [|apply andb_false_r]. rewrite Z.shiftl_spec_low by lia. done.
Qed.
End values.

Lemma painted_trans a b c f x y z : a <= b + 1 -> b <= c -> painted a b f x y -> painted (b + 1) c f y z -> painted a c f x z.
Proof.
  intros Hab Hbc [_ P1] [L P2]. split; [done|]. intros j Hj. rewrite P2, P1 by done.
  destruct (between (b + 1) j c) eqn:E1, (between a j b) eqn:E2, (between a j c) eqn:E3; try done;
    rewrite ?between_spec, ?between_not in *; lia.
Qed.
Lemma painted_same a b f x : zlen x = 64 -> (forall j, a <= j <= b -> zz x j = f j) -> painted a b f x x.
Proof. intros L H. split; [done|]. intros j Hj. destruct (between a j b) eqn:E; [|done]. apply between_spec in E. auto. Qed.
Lemma painted_one k f x : zlen x = 64 -> 0 <= k < 64 -> painted k k f x (zset x (zig k) (f k)).
Proof.
  intros L Hk. split; [by rewrite zlen_zset|]. intros j Hj. rewrite zz_set by done. destruct (Z.eqb_spec j k) as [->|].
  - by rewrite (proj2 (between_spec k k k)) by lia.
  - by rewrite (proj2 (between_not k j k)) by lia.
Qed.
Lemma painted_above a b f x y j : painted a b f x y -> 0 <= j < 64 -> b < j -> zz y j = zz x j.
Proof. intros [_ P] Hj H. rewrite P by done. by rewrite (proj2 (between_not a j b)) by lia. Qed.

Section refine.
Context (data : list Z) (start : Z) (raw tail : list Z) (tool : option (gmap Z (Z * Z))) (kernel : huffman).
Hypothesis C : coded data start raw tail.
Context (al se : Z) (block : list Z).
Hypothesis Hal : 0 <= al <= 13.
Hypothesis Hse : se < 64.
Hypothesis small : forall k, 1 <= k < 64 -> Z.abs (zz block k) < 32768.
#[warnings="-notation-for-abbreviation"] Local Notation reading := (reading start raw tool).
#[warnings="-notation-for-abbreviation"] Local Notation size := (size al block).
#[warnings="-notation-for-abbreviation"] Local Notation before := (shifted (al + 1) block).
#[warnings="-notation-for-abbreviation"] Local Notation after := (shifted al block).
#[warnings="-notation-for-abbreviation"] Local Notation zeros a b := (zeros_in al block (pyrange a b)).
#[warnings="-notation-for-abbreviation"] Local Notation kept a b := (bits_in al block (pyrange a b)).

Lemma pow_al : 1 <= 2 ^ al <= 8192.
Proof. pose proof (Z.pow_pos_nonneg 2 al ltac:(lia) ltac:(lia)). pose proof (Z.pow_le_mono_r 2 al 13 ltac:(lia) ltac:(lia)) as P. change (2 ^ 13) with 8192 in P. lia. Qed.
Lemma unit_al : as_i16 (Z.shiftl 1 al) = 2 ^ al /\ as_i16 (Z.shiftl (-1) al) = - 2 ^ al.
Proof. pose proof pow_al. rewrite !Z.shiftl_mul_pow2 by lia. rewrite !as_i16_small by lia. lia. Qed.

(** One more bit of a coefficient that is known. *)
Lemma refine_known k r blk es : 1 <= k < 64 -> 1 < size k -> zlen blk = 64 -> zz blk k = before k ->
  reading r (Tool.Bits (Z.land (size k) 1) 1 :: es) ->
  exists r' blk', refine_coef data al (zig k) r blk = Ok (r', blk') /\ painted k k after blk blk' /\ reading r' es /\ eob_run r' = eob_run r.
Proof.
  intros Hk HS L EB R. destruct (read_bits data start raw tail tool C r _ 1 es ltac:(lia) R) as (r' & E & R' & EE). change (2 ^ 1) with 2 in E.
  pose proof (after_known al block k ltac:(lia) HS) as EA. rewrite land_1 in EA, E. rewrite Z.mod_mod in E by lia. unfold refine_coef, bit. rewrite E, ok_bind.
  destruct unit_al as [-> ->]. fold (zz blk k). rewrite EB, before_bit by lia. cbn [Z.eqb]. rewrite andb_true_r.
  exists r'. destruct (size k mod 2 =? 0); cbn [negb].
  - exists blk. split_and!; try done. apply painted_same; [done|]. intros j Hj. replace j with k by lia. congruence.
  - destruct (scaled_abs al (zz block k) ltac:(lia)) as [A1 _]. fold (after k) in A1. pose proof (small k ltac:(lia)).
    replace (if 0 <=? before k then before k + 2 ^ al else before k + - 2 ^ al) with (after k) by (rewrite EA; by destruct (0 <=? before k)).
    unfold i16. rewrite checked_ok, ok_bind by lia. exists (zset blk (zig k) (after k)). split_and!; try done. apply painted_one; [done | lia].
Qed.

(** Over a stretch without new coefficients. *)
Lemma refine_walk : forall a b, 1 <= a -> b <= se + 1 -> a <= b -> forall fuel run r blk es,
  zlen blk = 64 -> (forall j, a <= j < b -> size j <> 1 /\ zz blk j = before j) -> zeros a b <= run -> b - a <= Z.of_nat fuel ->
  reading r (Tool.single_bits (kept a b) ++ es) ->
  exists r' blk', refine_run fuel data se al run a r blk = refine_run (fuel - Z.to_nat (b - a)) data se al (run - zeros a b) b r' blk'
    /\ painted a (b - 1) after blk blk' /\ reading r' es /\ eob_run r' = eob_run r.
Proof.
  intros a b. pattern a, b. apply pyrange_ind; clear a b; intros a b H.
  - intros Ha Hb Hab fuel run r blk es L J HZ HF R. assert (a = b) as -> by lia. rewrite (pyrange_nil b b) in * by lia. cbn [zeros_in] in *. rewrite Z.sub_0_r.
    replace (fuel - Z.to_nat (b - b))%nat with fuel by lia. exists r, blk. split_and!; try done. apply painted_nil; lia.
  - intros IH Ha Hb Hab fuel run r blk es L J HZ HF R. rewrite (pyrange_cons a b) in * by lia. cbn [zeros_in bits_in] in *. destruct fuel as [|fuel]; [lia|].
    pose proof (size_pos al block a). destruct (J a ltac:(lia)) as [N EB]. pose proof (zeros_pos al block (pyrange (a + 1) b)).
    replace (S fuel - Z.to_nat (b - a))%nat with (fuel - Z.to_nat (b - (a + 1)))%nat by lia.
    cbn [refine_run]. rewrite (proj2 (Z.leb_le a se)) by lia. change (zat ZIGZAG a) with (zig a). fold (zz blk a). rewrite EB. destruct (Z.eqb_spec (size a) 0) as [S0|S0].
    + rewrite before_zero by lia. cbn [Z.eqb negb]. rewrite (proj2 (Z.ltb_ge (run - 1) 0)) by lia.
      rewrite (proj2 (Z.ltb_ge 1 (size a))) in R by lia. cbn [app] in R.
      destruct (IH ltac:(lia) Hb ltac:(lia) fuel (run - 1) r blk es L) as (r' & blk' & E & P & R' & EE); [intros; apply J; lia | lia | lia | done |].
      exists r', blk'. rewrite E. replace (run - 1 - zeros (a + 1) b) with (run - (1 + zeros (a + 1) b)) by lia. split_and!; try done.
      apply painted_keep; [lia | lia | | done]. rewrite EB, (after_zero al block a), (before_zero al block a) by lia. done.
    + pose proof (before_known al block a ltac:(lia) ltac:(lia)). rewrite (proj2 (Z.eqb_neq (before a) 0)) by done. cbn [negb].
      rewrite (proj2 (Z.ltb_lt 1 (size a))) in R by lia. rewrite single_bits_app, <- app_assoc in R. cbn [Tool.single_bits fmap list_fmap app] in R.
      destruct (refine_known a r blk _ ltac:(lia) ltac:(lia) L EB R) as (r1 & blk1 & E1 & P1 & R1 & EE1). rewrite E1, ok_bind. cbn beta iota.
      destruct (IH ltac:(lia) Hb ltac:(lia) fuel run r1 blk1 es) as (r' & blk' & E & P & R' & EE); [by destruct P1 | | lia | lia | done |].
      { intros j Hj. rewrite (painted_above a a after blk blk1) by (done || lia). apply J. lia. }
      exists r', blk'. rewrite E, EE, EE1. rewrite Z.add_0_l. split_and!; try done. apply (painted_trans a a (b - 1) after blk blk1 blk'); done || lia.
Qed.

(** ** Runs of sixteen zeros *)

Lemma zeros_app a m b : a <= m <= b -> zeros a b = zeros a m + zeros m b.
Proof.
  intros H. rewrite (pyrange_app a m b) by lia. generalize (pyrange a m) (pyrange m b). intros l1 l2.
  induction l1 as [|k l1 IH]; [done|]. cbn [app zeros_in]. rewrite IH. lia.
Qed.
Lemma kept_app a m b : a <= m <= b -> kept a b = kept a m ++ kept m b.
Proof.
  intros H. rewrite (pyrange_app a m b) by lia. generalize (pyrange a m) (pyrange m b). intros l1 l2.
  induction l1 as [|k l1 IH]; [done|]. cbn [app bits_in]. by rewrite IH, app_assoc.
Qed.
Lemma kept_nil a b : kept a b = [] <-> forall j, a <= j < b -> size j <= 1.
Proof.
  transitivity (Forall (fun j => size j <= 1) (pyrange a b)); [|rewrite Forall_forall; by setoid_rewrite elem_of_pyrange].
  induction (pyrange a b) as [|k ks IH]; [split; [constructor | done]|]. cbn [bits_in]. rewrite Forall_cons.
  destruct (Z.ltb_spec 1 (size k)); cbn [app]; [split; [done | lia]|]. rewrite IH. intuition lia.
Qed.
Lemma zero_at n a b : 0 <= n < zeros a b -> exists m, a <= m < b /\ size m = 0 /\ zeros a m = n.
Proof.
  revert n. pattern a, b. apply pyrange_ind; clear a b; intros a b H; [intros n Hn; rewrite pyrange_nil in Hn by lia; cbn in Hn; lia|].
  intros IH n Hn. rewrite pyrange_cons in Hn by lia. cbn [zeros_in] in Hn. destruct (Z.eqb_spec (size a) 0) as [S0|S0].
  - destruct (Z.eq_dec n 0) as [->|]; [exists a; rewrite pyrange_nil by lia; split_and!; done || lia|].
    destruct (IH (n - 1) ltac:(lia)) as (m & Hm & Sm & E). exists m. split_and!; [lia | lia | done|]. rewrite pyrange_cons by lia. cbn [zeros_in]. rewrite S0. cbn [Z.eqb]. lia.
  - destruct (IH n ltac:(lia)) as (m & Hm & Sm & E). exists m. split_and!; [lia | lia | done|]. rewrite pyrange_cons by lia. cbn [zeros_in]. rewrite (proj2 (Z.eqb_neq (size a) 0)) by done. lia.
Qed.

(** The known coefficients come before the sixteenth zero. *)
Definition early (a b : Z) : Prop := forall j, a <= j < b -> 1 < size j -> zeros a j <= 15.
(** The kernel is at [a], the encoder at [b]: no new coefficient in between. *)
Record between_at (a b : Z) (blk : list Z) : Prop := BetweenAt {
  ba_range : 1 <= a <= b /\ b <= se;
  ba_old : forall j, a <= j < b -> size j <> 1;
  ba_early : early a b;
  ba_len : zlen blk = 64;
  ba_before : forall j, a <= j <= se -> zz blk j = before j
}.

Hypothesis A : agree tool kernel.
#[warnings="-notation-for-abbreviation"] Local Notation loop := (fun fuel => refine_loop fuel data kernel se al).

Lemma zrl_step fuel a b r blk es : between_at a b blk -> 16 <= zeros a b -> reading r (Tool.Sym 240 :: Tool.single_bits (kept a b) ++ es) ->
  exists m r' blk', a < m /\ zeros m b = zeros a b - 16 /\ kept m b = [] /\ between_at m b blk'
    /\ loop (S fuel) a r blk = loop fuel m r' blk' /\ painted a (m - 1) after blk blk' /\ reading r' es /\ eob_run r' = eob_run r.
Proof.
  intros [BR BO BE BL BB] HZ R. destruct (zero_at 15 a b ltac:(lia)) as (m & Hm & Sm & Zm).
  assert (Z16 : zeros a (m + 1) = 16) by (rewrite (zeros_app a m (m + 1)), Zm by lia; rewrite pyrange_cons, pyrange_nil by lia; cbn [zeros_in]; by rewrite Sm).
  assert (K1 : forall j, m < j < b -> size j <= 1).
  { intros j Hj. destruct (Z.le_gt_cases (size j) 1) as [|G]; [done|]. specialize (BE j ltac:(lia) G). rewrite (zeros_app a (m + 1) j) in BE by lia.
    pose proof (zeros_pos al block (pyrange (m + 1) j)). lia. }
  assert (KN : kept (m + 1) b = []) by (apply kept_nil; intros; apply K1; lia).
  assert (KA : kept a b = kept a m).
  { rewrite (kept_app a m b) by lia. rewrite (kept_app m (m + 1) b), KN by lia. rewrite (pyrange_cons m), (pyrange_nil (m + 1) (m + 1)) by lia. cbn [bits_in]. rewrite Sm. cbn. by rewrite app_nil_r. }
  apply (read_sym data start raw tail tool kernel C A) in R as (r1 & D & R & E1). rewrite KA in R.
  destruct (refine_walk a m ltac:(lia) ltac:(lia) ltac:(lia) 65 15 r1 blk es BL) as (r2 & blk2 & E & P & R2 & E2); [intros j Hj; split; [apply BO | apply BB]; lia | lia | lia | done|].
  assert (EM : zz blk2 m = 0) by (rewrite (painted_above a (m - 1) after blk blk2), BB by (done || lia); apply before_zero; lia).
  exists (m + 1), r2, blk2. split_and!; try lia; [rewrite (zeros_app a (m + 1) b) by lia; lia | done | split | | | done].
  - lia.
  - intros j Hj. apply BO. lia.
  - intros j Hj S. specialize (K1 j ltac:(lia)). lia.
  - by destruct P.
  - intros j Hj. rewrite (painted_above a (m - 1) after blk blk2) by (done || lia). apply BB. lia.
  - cbn [refine_loop]. rewrite (proj2 (Z.leb_le a se)) by lia. rewrite D, ok_bind. cbn beta iota. change (Z.shiftr 240 4) with 15. change (Z.land 240 15) with 0. cbn [Z.eqb negb Pos.eqb andb].
    rewrite ok_bind. cbn beta iota. rewrite E, Zm. replace (15 - 15) with 0 by lia. destruct (65 - Z.to_nat (m - a))%nat as [|f] eqn:EF; [lia|]. cbn [refine_run].
    rewrite (proj2 (Z.leb_le m se)) by lia. change (zat ZIGZAG m) with (zig m). fold (zz blk2 m). rewrite EM. done.
  - replace (m + 1 - 1) with m by lia. apply (painted_trans a (m - 1) m after blk blk2 blk2); [lia | lia | done|]. destruct P as [L2 _].
    replace (m - 1 + 1) with m by lia. apply painted_same; [done|]. intros j Hj. replace j with m by lia. rewrite EM. symmetry. apply after_zero; lia.
Qed.

Lemma zrl_steps n : forall fuel a b r blk es, between_at a b blk -> Z.to_nat (zeros a b / 16) = n -> reading r (zrl_code n (kept a b) ++ es) ->
  exists m r' blk', a + Z.of_nat n <= m /\ zeros m b = zeros a b mod 16 /\ kept m b = zrl_left n (kept a b) /\ between_at m b blk'
    /\ loop (n + fuel)%nat a r blk = loop fuel m r' blk' /\ painted a (m - 1) after blk blk' /\ reading r' es /\ eob_run r' = eob_run r.
Proof.
  induction n as [|n IH]; intros fuel a b r blk es B HN R; pose proof (zeros_pos al block (pyrange a b)) as ZP; pose proof (Z.div_mod (zeros a b) 16 ltac:(lia));
    pose proof (Z.mod_pos_bound (zeros a b) 16 ltac:(lia)); pose proof (Z.div_pos (zeros a b) 16 ltac:(lia) ltac:(lia)).
  - exists a, r, blk. pose proof B as []. split_and!; try done; [lia | lia | apply painted_nil; [done | lia]].
  - cbn [zrl_code app] in R. rewrite <- app_assoc in R. destruct (zrl_step (n + fuel) a b r blk _ B ltac:(lia) R) as (m & r1 & blk1 & Hm & Zm & Km & B1 & E1 & P1 & R1 & EE1).
    assert (D : zeros m b / 16 = zeros a b / 16 - 1) by (rewrite Zm; symmetry; apply (Z.div_unique_pos _ 16 _ (zeros a b mod 16)); lia).
    assert (M : zeros m b mod 16 = zeros a b mod 16) by (rewrite Zm; symmetry; apply (Z.mod_unique_pos _ 16 (zeros a b / 16 - 1)); lia).
    rewrite <- Km in R1. destruct (IH fuel m b r1 blk1 es B1 ltac:(lia) R1) as (m' & r2 & blk2 & Hm' & Zm' & Km' & B2 & E2 & P2 & R2 & EE2).
    exists m', r2, blk2. cbn [Nat.add]. split_and!; try done; try lia; [rewrite Km', Km; by destruct n | by rewrite E1, E2 | ].
    apply (painted_trans a (m - 1) (m' - 1) after blk blk1 blk2); [lia | lia | done|]. by replace (m - 1 + 1) with m by lia.
Qed.

Lemma new_step fuel a b r blk es : between_at a b blk -> zeros a b <= 15 -> size b = 1 ->
  reading r (Tool.Sym (Z.shiftl (zeros a b) 4 + 1) :: Tool.Bits (if zz block b <? 0 then 0 else 1) 1 :: Tool.single_bits (kept a b) ++ es) ->
  exists r' blk', loop (S fuel) a r blk = loop fuel (b + 1) r' blk' /\ painted a b after blk blk' /\ reading r' es /\ eob_run r' = eob_run r.
Proof.
  intros [BR BO BE BL BB] HZ S1 R. pose proof (zeros_pos al block (pyrange a b)) as ZP. apply (read_sym data start raw tail tool kernel C A) in R as (r1 & D & R & E1).
  apply (read_bits data start raw tail tool C) in R as (r2 & DB & R & E2); [|lia]. change (2 ^ 1) with 2 in DB.
  destruct (refine_walk a b ltac:(lia) ltac:(lia) ltac:(lia) 65 (zeros a b) r2 blk es BL) as (r3 & blk3 & E & P & R3 & E3); [intros j Hj; split; [apply BO | apply BB]; lia | lia | lia | done|].
  assert (EM : zz blk3 b = 0) by (rewrite (painted_above a (b - 1) after blk blk3), BB by (done || lia); apply before_zero; lia).
  pose proof (after_new al block b ltac:(lia) S1) as EA. pose proof pow_al. exists r3, (zset blk3 (zig b) (after b)). split_and!; try congruence.
  - cbn [refine_loop]. rewrite (proj2 (Z.leb_le a se)) by lia. rewrite D, ok_bind. cbn beta iota. destruct (symbol_parts (zeros a b) 1) as [-> ->]; [lia..|]. cbn [Z.eqb negb andb].
    unfold bit. rewrite DB, !ok_bind. cbn beta iota. destruct unit_al as [-> ->].
    replace (if negb ((if zz block b <? 0 then 0 else 1) mod 2 =? 0) then 2 ^ al else - 2 ^ al) with (after b) by (rewrite EA; by destruct (zz block b <? 0)).
    rewrite E. replace (zeros a b - zeros a b) with 0 by lia. destruct (65 - Z.to_nat (b - a))%nat as [|f] eqn:EF; [lia|]. cbn [refine_run].
    rewrite (proj2 (Z.leb_le b se)) by lia. change (zat ZIGZAG b) with (zig b). fold (zz blk3 b). rewrite EM. cbn [Z.eqb negb]. change (0 - 1 <? 0) with true. cbn match. rewrite ok_bind. cbn beta iota.
    rewrite (proj2 (Z.leb_le b se)) by lia. rewrite (proj2 (Z.eqb_neq (after b) 0)) by (rewrite EA; destruct (zz block b <? 0); lia). done.
  - apply (painted_trans a (b - 1) b after blk blk3); [lia | lia | done|]. replace (b - 1 + 1) with b by lia. destruct P as [L3 _]. apply painted_one; [done | lia].
Qed.

Lemma at_extend a k blk : between_at a k blk -> k + 1 <= se -> size k <> 1 -> (1 < size k -> zeros a k <= 15) -> between_at a (k + 1) blk.
Proof.
  intros [BR BO BE BL BB] H N Z15. split; try done; [lia| |]; intros j Hj.
  - destruct (Z.eq_dec j k) as [->|]; [done|]. apply BO. lia.
  - destruct (Z.eq_dec j k) as [->|]; [done|]. apply BE. lia.
Qed.
Lemma zeros_snoc a k : a <= k -> zeros a (k + 1) = zeros a k + if size k =? 0 then 1 else 0.
Proof. intros H. rewrite (zeros_app a k (k + 1)) by lia. rewrite (pyrange_cons k), (pyrange_nil (k + 1)) by lia. cbn [zeros_in]. lia. Qed.
Lemma kept_snoc a k : a <= k -> kept a (k + 1) = kept a k ++ if 1 <? size k then [Z.land (size k) 1] else [].
Proof. intros H. rewrite (kept_app a k (k + 1)) by lia. rewrite (pyrange_cons k), (pyrange_nil (k + 1)) by lia. cbn [bits_in]. by rewrite app_nil_r. Qed.

Lemma zeros_le a b : a <= b -> zeros a b <= b - a.
Proof.
  intros H. rewrite <- (zlen_pyrange a b H). generalize (pyrange a b). intros l. unfold zlen. induction l as [|k l IH]; [done|]. cbn [zeros_in length]. destruct (_ =? _); lia.
Qed.

(** ** Up to the last new coefficient *)

Lemma refine_news : forall k e, 1 <= k <= e -> e <= se + 1 -> size (e - 1) = 1 -> forall fuel a r blk es,
  (k < e -> between_at a k blk) -> (k = e -> a = k) -> zlen blk = 64 -> e - a <= Z.of_nat fuel ->
  reading r ((new_code al block (pyrange k e) (zeros a k) (kept a k)).1.1 ++ es) ->
  exists f r' blk', loop fuel a r blk = loop f e r' blk' /\ Z.of_nat fuel - (e - a) <= Z.of_nat f
    /\ painted a (e - 1) after blk blk' /\ reading r' es /\ eob_run r' = eob_run r.
Proof.
  intros k e. pattern k, e. apply pyrange_ind; clear k e; intros k e H.
  - intros Hk He Hn fuel a r blk es _ HA L HF R. assert (k = e) as -> by lia. rewrite HA in * by done. rewrite (pyrange_nil e e) in R by lia.
    exists fuel, r, blk. split_and!; try done; [lia | apply painted_nil; lia].
  - intros IH Hk He Hn fuel a r blk es HB _ L HF R. specialize (HB H). pose proof HB as []. rewrite (pyrange_cons k e) in R by done. cbn [new_code] in R.
    pose proof (size_pos al block k). assert (NL : size k <> 1 -> k + 1 < e) by (intros N; destruct (Z.eq_dec (k + 1) e) as [<-|]; [replace (k + 1 - 1) with k in Hn by lia; done | lia]).
    destruct (Z.eqb_spec (size k) 0) as [S0|S0].
    + apply (IH ltac:(lia) He Hn fuel a r blk es); [intros; apply at_extend; done || lia | lia | done | lia|].
      rewrite zeros_snoc, kept_snoc, S0 by lia. cbn [Z.eqb Z.ltb Z.compare]. by rewrite app_nil_r.
    + set (n := Z.to_nat (zeros a k / 16)) in *.
      assert (R' : reading r (zrl_code n (kept a k) ++
        (if 1 <? size k then (new_code al block (pyrange (k + 1) e) (zeros a k mod 16) (zrl_left n (kept a k) ++ [Z.land (size k) 1])).1.1
         else (Tool.Sym (Z.shiftl (zeros a k mod 16) 4 + 1) :: Tool.Bits (if zz block k <? 0 then 0 else 1) 1 :: Tool.single_bits (zrl_left n (kept a k)))
           ++ (new_code al block (pyrange (k + 1) e) 0 []).1.1) ++ es)).
      { destruct (1 <? size k); destruct (new_code _ _ _ _ _) as [[es' r'] p']; cbn [fst] in R |- *; rewrite <- app_assoc in R; exact R. }
      clear R. pose proof (zeros_pos al block (pyrange a k)). pose proof (Z.mod_pos_bound (zeros a k) 16 ltac:(lia)). pose proof (zeros_le a k ltac:(lia)).
      pose proof (Z.div_le_upper_bound (zeros a k) 16 (zeros a k) ltac:(lia) ltac:(lia)). set (g := (fuel - n)%nat). replace fuel with (n + g)%nat in * by lia.
      destruct (zrl_steps n g a k r blk _ HB eq_refl R') as (m & r1 & blk1 & Hm & Zm & Km & B1 & E1 & P1 & R1 & EE1). rewrite E1. pose proof B1 as [BR1 _ _ BL1 BB1].
      rewrite <- Zm, <- Km in R1. destruct (Z.ltb_spec 1 (size k)) as [G1|G1].
      * destruct (IH ltac:(lia) He Hn g m r1 blk1 es) as (f & r2 & blk2 & E2 & HF2 & P2 & R2 & EE2); [intros; apply at_extend; done || lia | lia | done | lia| |].
        { rewrite zeros_snoc, kept_snoc by lia. rewrite (proj2 (Z.eqb_neq (size k) 0)), (proj2 (Z.ltb_lt 1 (size k))), Z.add_0_r by lia. done. }
        exists f, r2, blk2. split_and!; [done | lia | | done | congruence]. apply (painted_trans a (m - 1) (e - 1) after blk blk1 blk2); [lia | lia | done|]. by replace (m - 1 + 1) with m by lia.
      * destruct g as [|g]; [lia|]. cbn [app] in R1. rewrite <- app_assoc in R1. destruct (new_step g m k r1 blk1 _ B1 ltac:(lia) ltac:(lia) R1) as (r2 & blk2 & E2 & P2 & R2 & EE2).
        destruct (IH ltac:(lia) He Hn g (k + 1) r2 blk2 es) as (f & r3 & blk3 & E3 & HF3 & P3 & R3 & EE3); [|done|by destruct P2|lia| |].
        { intros Hlt. split; [lia | lia | intros j Hj; lia | by destruct P2 |]. intros j Hj. rewrite (painted_above m k after blk1 blk2) by (done || lia). apply BB1. lia. }
        { rewrite (pyrange_nil (k + 1) (k + 1)) by lia. done. }
        exists f, r3, blk3. rewrite E2, E3. split_and!; [done | lia | | done | congruence]. apply (painted_trans a (m - 1) (e - 1) after blk blk1 blk3); [lia | lia | done|].
        replace (m - 1 + 1) with m by lia. apply (painted_trans m k (e - 1) after blk1 blk2 blk3); done || lia.
Qed.

(** ** After it *)

Lemma refine_rests : forall a b, 1 <= a -> b = se + 1 -> forall r blk es, zlen blk = 64 ->
  (forall j, a <= j <= se -> size j <> 1 /\ zz blk j = before j) -> reading r (Tool.single_bits (kept a b) ++ es) ->
  exists r' blk', foldK (refine_rest data al) (r, blk) (pyrange a b) = Ok (r', blk') /\ painted a se after blk blk' /\ reading r' es /\ eob_run r' = eob_run r.
Proof.
  intros a b. pattern a, b. apply pyrange_ind; clear a b; intros a b H.
  - intros Ha Hb r blk es L J R. rewrite pyrange_nil in * by lia. exists r, blk. split_and!; try done. apply painted_nil; lia.
  - intros IH Ha -> r blk es L J R. destruct (J a ltac:(lia)) as [N EB]. pose proof (size_pos al block a). rewrite (pyrange_cons a) in * by lia. cbn [bits_in] in R.
    assert (S : exists r1 blk1, refine_rest data al (r, blk) a = Ok (r1, blk1) /\ painted a a after blk blk1 /\ reading r1 (Tool.single_bits (kept (a + 1) (se + 1)) ++ es) /\ eob_run r1 = eob_run r).
    { unfold refine_rest. change (zat ZIGZAG a) with (zig a). fold (zz blk a). rewrite EB. destruct (Z.ltb_spec 1 (size a)) as [G|G].
      - pose proof (before_known al block a ltac:(lia) ltac:(lia)). rewrite (proj2 (Z.eqb_neq (before a) 0)) by done. cbn [negb].
        apply (refine_known a r blk); [lia | lia | done | done|]. rewrite single_bits_app, <- app_assoc in R. exact R.
      - rewrite before_zero by lia. exists r, blk. split_and!; try done. apply painted_same; [done|]. intros j Hj. replace j with a by lia.
        rewrite EB, (before_zero al block a), (after_zero al block a) by lia. done. }
    destruct S as (r1 & blk1 & E1 & P1 & R1 & EE1). cbn [foldK]. rewrite E1, ok_bind.
    destruct (IH ltac:(lia) eq_refl r1 blk1 es) as (r2 & blk2 & E2 & P2 & R2 & EE2); [by destruct P1 | | done |].
    { intros j Hj. rewrite (painted_above a a after blk blk1) by (done || lia). apply J. lia. }
    exists r2, blk2. split_and!; [done | | done | congruence]. apply (painted_trans a a se after blk blk1 blk2); done || lia.
Qed.

(** The end of a block, with its part of a run. *)
Lemma refine_finish m r blk es : 1 <= m <= se -> 0 < eob_run r -> zlen blk = 64 -> (forall j, m <= j <= se -> size j <> 1 /\ zz blk j = before j) ->
  reading r (Tool.single_bits (kept m (se + 1)) ++ es) ->
  exists r' blk', ('(r, block) ← foldK (refine_rest data al) (r, blk) (pyrange m (se + 1)); Ok (set_eob_run r (eob_run r - 1), block)) = Ok (r', blk')
    /\ painted m se after blk blk' /\ reading r' es /\ eob_run r' = eob_run r - 1.
Proof.
  intros Hm He L J R. destruct (refine_rests m (se + 1) ltac:(lia) eq_refl r blk es L J R) as (r2 & blk2 & E2 & P2 & R2 & EE2).
  rewrite E2, ok_bind. exists (set_eob_run r2 (eob_run r2 - 1)), blk2. split_and!; [done | done | by apply reading_eob | cbn; lia].
Qed.

Lemma refine_bcode_ended ss : 1 <= ss <= se -> code (refine_bcode al block ss se) = [] -> cut al block ss se = ss.
Proof.
  intros Hs E. destruct (cut_spec al block ss se Hs) as (HM & HN & _). cbv zeta in *. cbn [refine_bcode code] in E. set (m := cut al block ss se) in *.
  destruct (Z.eq_dec m ss) as [|NE]; [done|]. destruct HN as [|HN]; [done|]. exfalso. revert E.
  replace (pyrange ss m) with (pyrange ss (m - 1 + 1)) by (f_equal; lia). rewrite pyrange_snoc by lia. by apply new_code_some.
Qed.

(** ** The block *)

Section whole.
Context (ss : Z) (bef aft : list Z).
Hypothesis Hs : 1 <= ss <= se.
Hypothesis L : zlen bef = 64.
Hypothesis J : forall j, ss <= j <= se -> zz bef j = before j.
#[warnings="-notation-for-abbreviation"] Local Notation m := (cut al block ss se).

Lemma refine_head r es : reading r (code (refine_bcode al block ss se) ++ es) ->
  exists f r' blk', loop 65%nat ss r bef = loop (S f) m r' blk' /\ painted ss (m - 1) after bef blk' /\ reading r' es /\ eob_run r' = eob_run r.
Proof.
  intros R. destruct (cut_spec al block ss se Hs) as (HM & HN & HT). cbv zeta in *. cbn [refine_bcode code] in R. destruct (Z.eq_dec m ss) as [E|NE].
  - rewrite E, pyrange_nil in R by lia. rewrite E. exists 64%nat, r, bef. split_and!; try done. apply painted_nil; lia.
  - destruct HN as [|HN]; [done|]. destruct (refine_news ss m ltac:(lia) ltac:(lia) HN 65%nat ss r bef es) as (f & r' & blk' & E & HF & P & R' & EE); try done; try lia.
    + intros _. split; try done; try lia; intros j Hj; lia.
    + by rewrite (pyrange_nil ss ss) by lia.
    + destruct f as [|f]; [lia|]. exists f, r', blk'. done.
Qed.

Lemma refine_after blk blk2 : painted ss (m - 1) after bef blk -> painted m se after blk blk2 -> painted ss se after bef aft -> blk2 = aft.
Proof.
  intros P1 P2 [La PA]. destruct (cut_spec al block ss se Hs) as (HM & _). cbv zeta in *. pose proof P2 as [L2 _].
  destruct (painted_trans ss (m - 1) se after bef blk blk2) as [_ P]; [lia | lia | done | by replace (m - 1 + 1) with m by lia|].
  apply zz_ext; [done..|]. intros k Hk. by rewrite P, PA.
Qed.

(** The kernel refines the band from the code of [block]. *)
Lemma refine_decodes : painted ss se after bef aft -> decodes start raw tool (decode_ac_refine data kernel ss se al) (refine_bcode al block ss se) bef aft.
Proof.
  intros PA. destruct (cut_spec al block ss se Hs) as (HM & HN & HT). cbv zeta in *.
  split; unfold decode_ac_refine.
  - cbn [refine_bcode ended pend]. intros EE r E b es E0 HE R. apply Z.leb_le in EE. destruct (refine_head r _ R) as (f & r1 & blk1 & E1 & P1 & R1 & EE1). rewrite E0, E1. cbn [Z.eqb refine_loop].
    rewrite (proj2 (Z.leb_le m se)) by done. apply (read_run data start raw tail tool kernel C A) in R1 as (n & r2 & r3 & D & Hn & ER & E3 & R3); [|done].
    rewrite D, ok_bind. cbn beta iota. destruct (symbol_parts n 0) as [S1 S2]; [lia..|]. rewrite Z.add_0_r in S1, S2. rewrite S1, S2.
    rewrite (proj2 (Z.eqb_neq n 15)) by lia. cbn [Z.eqb negb andb]. rewrite ER, ok_bind, ok_bind. cbn beta iota. rewrite E3, (proj2 (Z.ltb_lt 0 E)) by lia.
    rewrite single_bits_app, <- app_assoc in R3. destruct (refine_finish m r3 blk1 (Tool.single_bits b ++ es) ltac:(lia) ltac:(lia) ltac:(by destruct P1)) with (2 := R3) as (r4 & blk4 & E4 & P4 & R4 & EE4).
    { intros j Hj. split; [by apply HT|]. rewrite (painted_above ss (m - 1) after bef blk1) by (done || lia). apply J. lia. }
    exists r4. rewrite E4, (refine_after blk1 blk4 P1 P4 PA). split_and!; [done | done | lia].
  - cbn [refine_bcode ended]. intros EE r es E0 R. apply Z.leb_gt in EE. destruct (refine_head r _ R) as (f & r1 & blk1 & E1 & P1 & R1 & EE1). rewrite E0, E1. cbn [Z.eqb refine_loop].
    rewrite (proj2 (Z.leb_gt m se)), ok_bind by done. cbn beta iota. rewrite EE1, E0. cbn [Z.ltb Z.compare]. exists r1. split_and!; [|done|congruence].
    rewrite (refine_after blk1 blk1 P1); [done | | done]. apply painted_nil; [by destruct P1 | lia].
  - intros EC _ r es E0 R. pose proof (refine_bcode_ended ss Hs EC) as EM. cbn [refine_bcode pend] in R. rewrite EM in *.
    rewrite (proj2 (Z.eqb_neq (eob_run r) 0)), ok_bind by lia. cbn beta iota. rewrite (proj2 (Z.ltb_lt 0 (eob_run r))) by lia.
    destruct (refine_finish ss r bef es ltac:(lia) ltac:(lia) L) with (2 := R) as (r4 & blk4 & E4 & P4 & R4 & EE4); [intros j Hj; split; [by apply HT | by apply J]|].
    exists r4. rewrite E4, (refine_after bef blk4); [done | | by rewrite EM | done]. rewrite EM. apply painted_nil; lia.
Qed.
End whole.
End refine.
