(* ===== verification/JpegBlocks.v ===== *)
(** JpegBlocks: the order of the blocks of a scan, and the coefficients as
    blocks.

    The tool and the kernel walk over the same blocks: unit by unit, component
    by component ([scan_items]).  The kernel's array of coefficients is seen as
    a sequence of blocks ([cell]); a scan whose blocks are decoded one by one
    ([simulates]) changes just their cells. *)
From Stdlib Require Import ZArith Lia List.
From stdpp Require Import base list gmap strings.
From S2P Require Import Prelude Text Arrays Machine Huff Png Jpeg JpegBits JpegScan JpegFirst.
Open Scope Z_scope.
Import Jpeg.Kernel.

(** * Folds over nested lists *)

Lemma foldM_flatten {S A B} (f : S -> A -> py S) (g : S -> B -> py S) (items : A -> list B) l s :
  (forall a s, a ∈ l -> f s a = foldM g s (items a)) -> foldM f s l = foldM g s (concat (items <$> l)).
Proof.
  revert s. induction l as [|a l IH]; intros s H; [done|]. cbn [foldM fmap list_fmap concat]. rewrite foldM_app, H by (constructor).
  destruct (foldM g s (items a)); [|done..]. cbn. apply IH. intros. apply H. by constructor.
Qed.

Lemma foldK_keeps {S A} (P : S -> Prop) (f : S -> A -> outcome S) l s s' :
  (forall s a s', P s -> f s a = Ok s' -> P s') -> P s -> foldK f s l = Ok s' -> P s'.
Proof.
  intros H. revert s. induction l as [|a l IH]; intros s Hs E; [by injection E as <-|]. cbn [foldK] in E. destruct (f s a) eqn:Ef; try done. eapply IH; [|exact E]. eauto.
Qed.
Lemma foldK_flatten {S A B} (P : S -> Prop) (f : S -> A -> outcome S) (g : S -> B -> outcome S) (items : A -> list B) l s :
  (forall a s, a ∈ l -> P s -> f s a = foldK g s (items a)) -> (forall s b s', P s -> g s b = Ok s' -> P s') -> P s ->
  foldK f s l = foldK g s (concat (items <$> l)).
Proof.
  intros H K. revert s. induction l as [|a l IH]; intros s Hs; [done|]. cbn [foldK fmap list_fmap concat]. rewrite foldK_app, H by (done || constructor).
  destruct (foldK g s (items a)) as [s'| | |] eqn:E; [|done..]. cbn. apply IH; [intros; apply H; [by constructor | done]|]. by eapply foldK_keeps.
Qed.
Lemma foldK_fmap {S A B} (f : S -> A -> outcome S) (h : B -> A) l s : foldK f s (h <$> l) = foldK (fun s b => f s (h b)) s l.
Proof. revert s. induction l as [|b l IH]; intros s; [done|]. cbn [fmap list_fmap foldK]. destruct (f s (h b)); [|done..]. cbn. apply IH. Qed.
Lemma foldM_fmap {S A B} (f : S -> A -> py S) (h : B -> A) l s : foldM f s (h <$> l) = foldM (fun s b => f s (h b)) s l.
Proof. revert s. induction l as [|b l IH]; intros s; [done|]. cbn [fmap list_fmap foldM]. destruct (f s (h b)); [|done..]. cbn. apply IH. Qed.
Lemma foldK_ext {S A} (f g : S -> A -> outcome S) l s : (forall s a, a ∈ l -> f s a = g s a) -> foldK f s l = foldK g s l.
Proof.
  revert s. induction l as [|a l IH]; intros s H; [done|]. cbn [foldK]. rewrite H by constructor. destruct (g s a); [|done..]. cbn. apply IH. intros. apply H. by constructor.
Qed.
Lemma foldM_ext {S A} (f g : S -> A -> py S) l s : (forall s a, a ∈ l -> f s a = g s a) -> foldM f s l = foldM g s l.
Proof.
  revert s. induction l as [|a l IH]; intros s H; [done|]. cbn [foldM]. rewrite H by constructor. destruct (g s a); [|done..]. cbn. apply IH. intros. apply H. by constructor.
Qed.

Lemma NoDup_flatten {A B} (f : A -> list B) l : NoDup l -> (forall a, a ∈ l -> NoDup (f a)) ->
  (forall a b x, a ∈ l -> b ∈ l -> x ∈ f a -> x ∈ f b -> a = b) -> NoDup (concat (f <$> l)).
Proof.
  intros N. induction N as [|a l Ha N IH]; intros H1 H2; [constructor|]. cbn [fmap list_fmap concat]. apply NoDup_app. split_and!.
  - apply H1. constructor.
  - intros x Hx (y & Hy1 & Hy2)%list_elem_of_In%in_concat. apply list_elem_of_In, list_elem_of_fmap in Hy1 as (b & -> & Hb). apply list_elem_of_In in Hy2.
    apply Ha. by rewrite (H2 a b x) by (done || by constructor).
  - apply IH; intros; [apply H1; by constructor | eapply H2; [by constructor | by constructor | done | done]].
Qed.
Lemma elem_of_flatten {A B} (f : A -> list B) l x : x ∈ concat (f <$> l) <-> exists a, a ∈ l /\ x ∈ f a.
Proof.
  split.
  - intros (y & Hy1 & Hy2)%list_elem_of_In%in_concat. apply list_elem_of_In, list_elem_of_fmap in Hy1 as (b & -> & Hb). apply list_elem_of_In in Hy2. eauto.
  - intros (a & Ha & Hx). apply list_elem_of_In, in_concat. exists (f a). split; apply list_elem_of_In; [apply list_elem_of_fmap; eauto | done].
Qed.

(** * The blocks of a scan *)

(** A block: the component, its row and its column. *)
Definition item : Type := Z * (Z * Z).

Definition unit_items (geo : Z -> Z * Z) (scan : list Z) (unit_ : Z * Z) : list item :=
  let '(y, x) := unit_ in
  concat ((fun slot =>
    if 1 <? zlen scan then (fun '(by_, bx) => (slot, (y * (geo slot).2 + by_, x * (geo slot).1 + bx))) <$> Tool.grid (geo slot).2 (geo slot).1
    else [(slot, (y, x))]) <$> scan).

(** With the sampling factors [geo] of the components. *)
Definition scan_items (geo : Z -> Z * Z) (scan : list Z) (units : Z * Z) : list item :=
  concat (unit_items geo scan <$> Tool.grid units.1 units.2).

Lemma elem_of_grid y x v h : (y, x) ∈ Tool.grid v h <-> 0 <= y < v /\ 0 <= x < h.
Proof.
  unfold Tool.grid. rewrite elem_of_flatten. setoid_rewrite elem_of_pyrange. setoid_rewrite list_elem_of_fmap. setoid_rewrite elem_of_pyrange.
  split; [intros (a & Ha & b & [= -> ->] & Hb); done | intros [H1 H2]; eauto 6].
Qed.
Lemma nodup_grid v h : NoDup (Tool.grid v h).
Proof.
  unfold Tool.grid. apply NoDup_flatten; [apply nodup_pyrange | |].
  - intros y _. apply NoDup_fmap_2; [by intros ?? [=] | apply nodup_pyrange].
  - intros a b x _ _ (c & -> & _)%list_elem_of_fmap (d & E & _)%list_elem_of_fmap. by injection E.
Qed.

Definition covers (geo : Z -> Z * Z) (scan : list Z) (units : Z * Z) (it : item) : Prop :=
  let '(slot, (row, col)) := it in
  slot ∈ scan /\ if 1 <? zlen scan then 0 <= row < units.1 * (geo slot).2 /\ 0 <= col < units.2 * (geo slot).1 else 0 <= row < units.1 /\ 0 <= col < units.2.

Lemma tile x b v : 0 < v -> 0 <= b < v -> (x * v + b) / v = x /\ (x * v + b) mod v = b.
Proof. intros. split; symmetry; [apply (Z.div_unique_pos _ v x b) | apply (Z.mod_unique_pos _ v x b)]; lia. Qed.
Lemma tile_range x b v n : 0 < v -> 0 <= b < v -> 0 <= x < n -> 0 <= x * v + b < n * v.
Proof. nia. Qed.

Lemma elem_of_items geo scan units it : (forall slot, slot ∈ scan -> 0 < (geo slot).1 /\ 0 < (geo slot).2) ->
  it ∈ scan_items geo scan units <-> covers geo scan units it.
Proof.
  intros P. destruct it as [slot [row col]]. unfold scan_items, covers. rewrite elem_of_flatten. split.
  - intros ([y x] & Hg & Hi). apply elem_of_grid in Hg as [Hy Hx]. unfold unit_items in Hi. apply elem_of_flatten in Hi as (s & Hs & Hi). destruct (P s Hs).
    destruct (1 <? zlen scan).
    + apply list_elem_of_fmap in Hi as ([b b'] & [= -> -> ->] & Hb). apply elem_of_grid in Hb as [Hb Hb']. split; [done|]. split; apply tile_range; done.
    + apply list_elem_of_singleton in Hi as [= -> -> ->]. done.
  - intros [Hs H]. destruct (P slot Hs). destruct (1 <? zlen scan) eqn:E.
    + destruct H as [Hr Hc]. set (v := (geo slot).2) in *. set (h := (geo slot).1) in *.
      pose proof (Z.div_mod row v ltac:(lia)). pose proof (Z.mod_pos_bound row v ltac:(lia)). pose proof (Z.div_mod col h ltac:(lia)). pose proof (Z.mod_pos_bound col h ltac:(lia)).
      exists (row / v, col / h). split.
      * apply elem_of_grid. split; (split; [apply Z.div_pos; lia | apply Z.div_lt_upper_bound; lia]).
      * unfold unit_items. apply elem_of_flatten. exists slot. split; [done|]. rewrite E. apply list_elem_of_fmap. exists (row mod v, col mod h). fold v h.
        split; [do 2 f_equal; lia|]. apply elem_of_grid. lia.
    + exists (row, col). split; [by apply elem_of_grid|]. unfold unit_items. apply elem_of_flatten. exists slot. split; [done|]. rewrite E. by apply list_elem_of_singleton.
Qed.

Lemma nodup_items geo scan units : NoDup scan -> (forall slot, slot ∈ scan -> 0 < (geo slot).1 /\ 0 < (geo slot).2) -> NoDup (scan_items geo scan units).
Proof.
  intros N P. unfold scan_items. apply NoDup_flatten; [apply nodup_grid | |].
  - intros [y x] _. unfold unit_items. apply NoDup_flatten; [done| |].
    + intros s Hs. destruct (1 <? zlen scan); [|by apply NoDup_singleton]. apply NoDup_fmap_2; [|apply nodup_grid]. intros [a b] [c d] [= E1 E2]. f_equal; lia.
    + intros s s' [i j] _ _. destruct (1 <? zlen scan).
      * intros ([a b] & E & _)%list_elem_of_fmap ([c d] & E' & _)%list_elem_of_fmap. by simplify_eq.
      * intros E%list_elem_of_singleton E'%list_elem_of_singleton. by simplify_eq.
  - intros [y x] [y' x'] [s [i j]] _ _. unfold unit_items. intros (a & Ha & H1)%elem_of_flatten (b & Hb & H2)%elem_of_flatten. destruct (1 <? zlen scan).
    + apply list_elem_of_fmap in H1 as ([b1 b2] & [= -> -> ->] & G1), H2 as ([b3 b4] & [= <- E1 E2] & G2). apply elem_of_grid in G1, G2. destruct (P a Ha).
      destruct (tile y b1 (geo a).2), (tile y' b3 (geo a).2); try lia. destruct (tile x b2 (geo a).1), (tile x' b4 (geo a).1); try lia. congruence.
    + apply list_elem_of_singleton in H1 as [= -> -> ->], H2 as [= <- <- <-]. done.
Qed.

(** * The tool's walk *)

Definition at_slot {A} (l : list A) (slot : Z) : option A := if slot <? 0 then None else l !! Z.to_nat slot.

Lemma at_slot_insert {A} (l : list A) i j a : is_Some (at_slot l i) -> at_slot (<[Z.to_nat i := a]> l) j = if j =? i then Some a else at_slot l j.
Proof.
  unfold at_slot. destruct (Z.ltb_spec i 0); [by intros []|]. intros [x Hx]. apply lookup_lt_Some in Hx. destruct (Z.ltb_spec j 0); [by rewrite (proj2 (Z.eqb_neq j i)) by lia|].
  destruct (Z.eqb_spec j i) as [->|N]; [by rewrite list_lookup_insert_eq|]. by rewrite list_lookup_insert_ne by lia.
Qed.

Definition tool_geo (im : Tool.image) (ci : Z) : Z * Z :=
  match at_slot (Tool.comps im) ci with Some c => (Tool.h c, Tool.v c) | None => (1, 1) end.
Definition tool_units (im : Tool.image) (cis : list Z) : Z * Z :=
  if 1 <? zlen cis then (Tool.mcus_y im, Tool.mcus_x im)
  else match ci ← head cis; at_slot (Tool.comps im) ci with Some c => (Tool.real_h c, Tool.real_w c) | None => (0, 0) end.
Definition tool_items (im : Tool.image) (cis : list Z) : list item := scan_items (tool_geo im) cis (tool_units im cis).

Definition block_at (im : Tool.image) (it : item) : list Z :=
  let '(ci, (row, col)) := it in
  match at_slot (Tool.comps im) ci with
  | Some c => default [] (Tool.blocks c !! Z.to_nat (row * Tool.blocks_w c + col))
  | None => []
  end.

(** The sizes of a component fit the units of the image. *)
Record measured (im : Tool.image) (c : Tool.comp) : Prop := Measured {
  me_factors : 1 <= Tool.h c /\ 1 <= Tool.v c;
  me_width : Tool.blocks_w c = Tool.mcus_x im * Tool.h c;
  me_height : Tool.blocks_h c = Tool.mcus_y im * Tool.v c;
  me_real : 0 <= Tool.real_w c <= Tool.blocks_w c /\ 0 <= Tool.real_h c <= Tool.blocks_h c;
  me_blocks : zlen (Tool.blocks c) = Tool.blocks_w c * Tool.blocks_h c;
  me_sizes : Forall (fun b => zlen b = 64) (Tool.blocks c)
}.

Lemma at_slot_pyget {A} (l : list A) i a : at_slot l i = Some a -> pyget l i = Ret a.
Proof. unfold at_slot. destruct (Z.ltb_spec i 0); [done|]. by apply pyget_lookup. Qed.

Lemma lone {A} (l : list A) : l <> [] -> (1 <? zlen l) = false -> exists a, l = [a].
Proof. intros N E. destruct l as [|a [|b l]]; [done | by exists a|]. apply Z.ltb_ge in E. unfold zlen in E. cbn [length] in E. lia. Qed.

Section tool_walk.
Context (im : Tool.image) (cis : list Z).
Hypothesis some : cis <> [].
Hypothesis slots : forall ci, ci ∈ cis -> exists c, at_slot (Tool.comps im) ci = Some c /\ measured im c.

Lemma tool_geo_pos ci : ci ∈ cis -> 0 < (tool_geo im ci).1 /\ 0 < (tool_geo im ci).2.
Proof. intros H. destruct (slots ci H) as (c & E & []). unfold tool_geo. rewrite E. cbn. lia. Qed.

(** A block of the walk is a block of its component. *)
Lemma tool_item ci row col : (ci, (row, col)) ∈ tool_items im cis -> exists c, ci ∈ cis /\ at_slot (Tool.comps im) ci = Some c /\ measured im c
  /\ 0 <= row < Tool.blocks_h c /\ 0 <= col < Tool.blocks_w c
  /\ ((1 <? zlen cis) = false -> row < Tool.real_h c /\ col < Tool.real_w c).
Proof.
  intros H. unfold tool_items in H. apply elem_of_items in H as [Hc H]; [|apply tool_geo_pos]. destruct (slots ci Hc) as (c & E & M). exists c. pose proof M as [].
  unfold tool_geo in H. rewrite E in H. unfold tool_units in H. destruct (1 <? zlen cis) eqn:E1; cbn [fst snd] in H; [split_and!; try done; lia|].
  destruct (lone cis some E1) as (ci' & EC). rewrite EC in H, Hc |- *.
  apply list_elem_of_singleton in Hc as ->. cbn in H. rewrite E in H. cbn in H. split_and!; try done; try lia. constructor.
Qed.

Lemma tool_block ci row col c : 0 <= row < Tool.blocks_h c -> 0 <= col < Tool.blocks_w c -> at_slot (Tool.comps im) ci = Some c -> measured im c ->
  pyget (Tool.blocks c) (row * Tool.blocks_w c + col) = Ret (block_at im (ci, (row, col))) /\ zlen (block_at im (ci, (row, col))) = 64.
Proof.
  intros Hr Hc E []. unfold block_at. rewrite E. assert (I : 0 <= row * Tool.blocks_w c + col < zlen (Tool.blocks c)) by (rewrite me_blocks0; nia).
  destruct (pyget_Some _ _ I) as (b & EB & LB). rewrite EB, LB. split; [done|]. cbn. rewrite Forall_forall in me_sizes0. apply me_sizes0. by eapply list_elem_of_lookup_2.
Qed.

(** The loops of [Scan.run]. *)
Lemma run_items sc : Tool.cis sc = cis ->
  Tool.run im sc = (st ← foldM (fun st it => Tool.do_block sc it.1 (block_at im it) st)
      (Tool.Encoding [] 0 [] (list_to_map ((fun ci => (ci, 0)) <$> cis))) (tool_items im cis);
    Ret (Tool.out (Tool.flush_eobrun st))).
Proof.
  intros EC. unfold Tool.run. rewrite EC. generalize (Tool.Encoding [] 0 [] (list_to_map ((fun ci => (ci, 0)) <$> cis))). intros st0.
  set (g := fun st (it : item) => c ← pyget (Tool.comps im) it.1; block ← pyget (Tool.blocks c) (it.2.1 * Tool.blocks_w c + it.2.2); Tool.do_block sc it.1 block st).
  rewrite (foldM_ext (fun st it => Tool.do_block sc it.1 (block_at im it) st) g).
  2:{ intros st [ci [row col]] H. destruct (tool_item ci row col H) as (c & Hc & E & M & Hr & Hw & _). unfold g. cbn [fst snd].
      rewrite (at_slot_pyget _ _ _ E), py_ret_bind. destruct (tool_block ci row col c Hr Hw E M) as [-> _]. by rewrite py_ret_bind. }
  f_equal. unfold tool_items, tool_units. destruct (1 <? zlen cis) eqn:E1; cbn [fst snd].
  - unfold scan_items. apply foldM_flatten. intros [my mx] st _. unfold unit_items. rewrite E1. apply foldM_flatten.
    intros ci st' Hc. destruct (slots ci Hc) as (c & E & _). unfold tool_geo. rewrite E. cbn [fst snd]. rewrite (at_slot_pyget _ _ _ E), py_ret_bind, foldM_fmap.
    apply foldM_ext. intros st'' [by_ bx] _. unfold g. cbn [fst snd]. rewrite (at_slot_pyget _ _ _ E), py_ret_bind. by rewrite Z.add_assoc.
  - destruct (lone cis some E1) as (ci & EL). destruct (slots ci ltac:(rewrite EL; constructor)) as (c & E & _). rewrite EL in *.
    change (pyget [ci] 0) with (Ret ci). rewrite py_ret_bind, (at_slot_pyget _ _ _ E), py_ret_bind. cbn [head mbind option_bind]. rewrite E.
    unfold scan_items. apply foldM_flatten. intros [y x] st _. unfold unit_items. rewrite E1. cbn [fmap list_fmap concat app foldM].
    unfold g. cbn [fst snd]. rewrite (at_slot_pyget _ _ _ E), py_ret_bind. destruct (pyget _ _); [|done..]. cbn. by destruct (Tool.do_block _ _ _ _).
Qed.
End tool_walk.

(** * The kernel's walk *)

(** The components without the predictors, the part a scan changes. *)
Definition shape (cs : list component) : list component := (fun c => set_predictor c 0) <$> cs.
Definition kernel_geo (cs : list component) (slot : Z) : Z * Z :=
  match at_slot cs slot with Some c => (h c, v c) | None => (1, 1) end.

Lemma index_slot {A} (l : list A) i a : at_slot l i = Some a -> index l i = Ok a.
Proof. unfold at_slot, index. destruct (i <? 0); [done|]. by intros ->. Qed.
Lemma index_slot_inv {A} (l : list A) i a : index l i = Ok a -> at_slot l i = Some a.
Proof. unfold at_slot, index. destruct (i <? 0); [done|]. by destruct (l !! Z.to_nat i); intros [= ->]. Qed.
Lemma shape_slot cs cs' i c : shape cs = shape cs' -> at_slot cs i = Some c -> exists c', at_slot cs' i = Some c' /\ set_predictor c 0 = set_predictor c' 0.
Proof.
  unfold at_slot, shape. destruct (i <? 0); [done|]. intros E H. assert (E' := f_equal (.!! Z.to_nat i) E). cbn in E'. rewrite !list_lookup_fmap, H in E'. cbn in E'.
  destruct (cs' !! Z.to_nat i) as [c'|]; [|done]. exists c'. split; [done|]. cbn in E'. congruence.
Qed.
Lemma shape_insert cs i c pr : at_slot cs i = Some c -> shape (<[Z.to_nat i := set_predictor c pr]> cs) = shape cs.
Proof.
  unfold at_slot, shape. destruct (i <? 0); [done|]. intros H. rewrite list_fmap_insert. apply list_insert_id. rewrite list_lookup_fmap, H. done.
Qed.

Section kernel_walk.
Context (data : list Z) (d : decoder) (p : scan_params) (cs0 : list component) (scan : list Z).
Hypothesis no_restart : restart_interval d = 0.
Hypothesis slots : forall slot, slot ∈ scan -> exists c, at_slot cs0 slot = Some c.

Definition block_step (st : scanning) (it : item) : outcome scanning := scan_block data d p it.1 st it.2.

Lemma block_step_shape st it st' : shape (cs st) = shape cs0 -> block_step st it = Ok st' -> shape (cs st') = shape cs0.
Proof.
  unfold block_step, scan_block. destruct it as [slot [row col]]. cbn [fst snd]. intros S E. destruct (index (cs st) slot) as [c| | |] eqn:EI; [|done..]. cbn in E. apply index_slot_inv in EI.
  destruct (get_block _ _) as [b| | |]; [|done..]. cbn in E. destruct (index (dc_tables d) _) as [dc| | |]; [|done..]. cbn in E. destruct (index (ac_tables d) _) as [ac| | |]; [|done..]. cbn in E.
  destruct (decode_block _ _ _ _ _ _ _ _) as [[[r pr] blk]| | |]; [|done..]. cbn in E. injection E as <-. cbn [cs]. by rewrite shape_insert.
Qed.

Lemma units_items units st : shape (cs st) = shape cs0 ->
  foldK (scan_unit data d p scan) st (Tool.grid units.1 units.2) = foldK block_step st (scan_items (kernel_geo cs0) scan units).
Proof.
  intros S. unfold scan_items. apply (foldK_flatten (fun st => shape (cs st) = shape cs0)); [|apply block_step_shape | done].
  intros [y x] st' _ S'. unfold scan_unit, check_restart. rewrite no_restart. cbn [Z.eqb negb]. unfold unit_items.
  apply (foldK_flatten (fun st => shape (cs st) = shape cs0)); [|apply block_step_shape | done].
  intros slot st'' Hs S''. destruct (slots slot Hs) as (c0 & E0). destruct (shape_slot cs0 (cs st'') slot c0 ltac:(done) E0) as (c & EC & SC). rewrite (index_slot _ _ _ EC), ok_bind.
  unfold kernel_geo. rewrite E0. cbn [fst snd]. assert (h c0 = h c /\ v c0 = v c) as [-> ->] by (split; [exact (f_equal h SC) | exact (f_equal v SC)]).
  destruct (1 <? zlen scan).
  - rewrite !foldK_fmap. apply foldK_ext. by intros st3 [by_ bx] _.
  - done.
Qed.
End kernel_walk.

(** * Coefficients as blocks *)

Definition cell (co : list Z) (n : Z) : list Z := pyslice co (64 * n) (64 * n + 64).
Definition has_cell (co : list Z) (n : Z) : Prop := 0 <= n /\ 64 * n + 64 <= zlen co.

Lemma zlen_cell co n : has_cell co n -> zlen (cell co n) = 64.
Proof. intros []. unfold cell. rewrite zlen_pyslice; lia. Qed.
Lemma get_cell co n : has_cell co n -> get_block co (64 * n) = Ok (cell co n).
Proof. intros []. unfold get_block. rewrite (proj2 (Z.leb_le 0 _)), (proj2 (Z.leb_le (64 * n + 64) _)) by lia. done. Qed.
Lemma put_cell co n b m : has_cell co n -> has_cell co m -> zlen b = 64 ->
  zlen (put_block co (64 * n) b) = zlen co /\ cell (put_block co (64 * n) b) m = if m =? n then b else cell co m.
Proof.
  intros [] [] L. unfold put_block, cell. split; [rewrite zlen_slice_assign; lia|]. destruct (Z.eqb_spec m n) as [->|].
  - apply slice_assign_same; lia.
  - destruct (Z.lt_total m n) as [|[|]]; [rewrite slice_assign_before by lia | lia | rewrite slice_assign_after by lia]; done.
Qed.

(** * Decoding the blocks of a scan *)

Section simulate.
Context (data : list Z) (d : decoder) (p : scan_params) (cs0 : list component) (prog : bool) (dc ac : item -> huffman).
Context (num : item -> Z) (bef aft : item -> list Z).
Context (ahead : reader -> list component -> list item -> Prop).

(** The tables of a block, and where it is kept. *)
Definition sited (it : item) : Prop :=
  exists c, at_slot cs0 it.1 = Some c /\ index (dc_tables d) (dc_dest c) = Ok (dc it) /\ index (ac_tables d) (ac_dest c) = Ok (ac it) /\ coefficient_offset c + (it.2.1 * blocks_w c + it.2.2) * 64 = 64 * num it.

Hypothesis mode : progressive d = prog.
Hypothesis step : forall it its r cs c, ahead r cs (it :: its) -> shape cs = shape cs0 -> at_slot cs it.1 = Some c ->
  exists r' pr, decode_block data prog p (dc it) (ac it) r (predictor c) (bef it) = Ok (r', pr, aft it)
    /\ ahead r' (<[Z.to_nat it.1 := set_predictor c pr]> cs) its.

Lemma simulates its : NoDup (num <$> its) -> Forall (fun it => sited it /\ zlen (aft it) = 64) its -> forall st,
  shape (cs st) = shape cs0 -> Forall (fun it => has_cell (coefs st) (num it) /\ cell (coefs st) (num it) = bef it) its -> ahead (rd st) (cs st) its ->
  exists st', foldK (block_step data d p) st its = Ok st' /\ shape (cs st') = shape cs0 /\ zlen (coefs st') = zlen (coefs st)
    /\ Forall (fun it => cell (coefs st') (num it) = aft it) its
    /\ (forall n, has_cell (coefs st) n -> n ∉ num <$> its -> cell (coefs st') n = cell (coefs st) n) /\ ahead (rd st') (cs st') [].
Proof.
  induction its as [|it its IH]; intros N F st S B A; [exists st; split_and!; try done; constructor|].
  cbn [fmap list_fmap] in N. apply NoDup_cons in N as [N1 N]. apply Forall_cons in F as [[(c0 & E0 & D1 & D2 & EO) L] F]. apply Forall_cons in B as [[HC EB] B].
  destruct (shape_slot cs0 (cs st) it.1 c0 ltac:(done) E0) as (c & EC & SC). destruct (step it its (rd st) (cs st) c A S EC) as (r' & pr & ED & A').
  assert (dc_dest c = dc_dest c0 /\ ac_dest c = ac_dest c0 /\ coefficient_offset c = coefficient_offset c0 /\ blocks_w c = blocks_w c0) as (D1' & D2' & O1 & O2).
  { pose proof (f_equal dc_dest SC). pose proof (f_equal ac_dest SC). pose proof (f_equal coefficient_offset SC). pose proof (f_equal blocks_w SC). cbn in *. split_and!; congruence. }
  destruct it as [slot [row col]]. cbn [fst snd] in *. set (it := (slot, (row, col))) in *.
  assert (ES : block_step data d p st it = Ok (Scanning r' (<[Z.to_nat slot := set_predictor c pr]> (cs st)) (put_block (coefs st) (64 * num it) (aft it)) (until_restart st))).
  { unfold block_step, it, scan_block. cbn [fst snd]. rewrite (index_slot _ _ _ EC), ok_bind, O1, O2, EO, get_cell, ok_bind, EB, D1', D2', D1, ok_bind, D2, ok_bind, mode, ED by done. done. }
  cbn [foldK]. rewrite ES, ok_bind. set (st1 := Scanning _ _ _ _). assert (PC : forall m, has_cell (coefs st) m -> zlen (coefs st1) = zlen (coefs st) /\ cell (coefs st1) m = if m =? num it then aft it else cell (coefs st) m)
    by (intros m Hm; by apply put_cell). destruct (PC _ HC) as [L1 _].
  destruct (IH N F st1) as (st' & E & S' & L' & F' & K' & A1).
  - cbn [cs st1]. by rewrite shape_insert.
  - rewrite Forall_forall in B |- *. intros it' Hi. destruct (B it' Hi) as [HC' EB']. split; [unfold has_cell in *; by rewrite L1|]. destruct (PC _ HC') as [_ ->].
    rewrite (proj2 (Z.eqb_neq (num it') (num it))); [done|]. intros E. apply N1. rewrite <- E. by apply list_elem_of_fmap_2.
  - done.
  - exists st'. split_and!; try done; try congruence.
    + constructor; [|done]. rewrite K' by (done || unfold has_cell in *; by rewrite L1). destruct (PC _ HC) as [_ ->]. by rewrite Z.eqb_refl.
    + intros n Hn Nn. cbn [fmap list_fmap] in Nn. apply not_elem_of_cons in Nn as [Nn1 Nn2]. rewrite K' by (done || unfold has_cell in *; by rewrite L1).
      destruct (PC _ Hn) as [_ ->]. by rewrite (proj2 (Z.eqb_neq n (num it))).
Qed.
End simulate.
