(* ===== verification/JpegLevels.v ===== *)
(** JpegLevels: how far the coefficients of a block are known.

    After some of the scans a coefficient is known without its last bits, or
    not at all ([level]).  Each kind of scan raises the level of its band: the
    lemmas of this file say so of one block, and give the events of the tool
    that the kernel reads. *)
From Stdlib Require Import ZArith Lia List.
From stdpp Require Import base list gmap strings.
From S2P Require Import Prelude Text Arrays Machine Huff Png Jpeg JpegBits JpegScan JpegFirst JpegRefine JpegBlocks.
Open Scope Z_scope.
Import Jpeg.Kernel.

(** A coefficient without its last [a] bits; the DC coefficient is rounded down. *)
Definition value (a k c : Z) : Z := if k =? 0 then Z.shiftl (Z.shiftr c a) a else Z.shiftl (scaled a c) a.
Definition known (l : option Z) (k c : Z) : Z := match l with Some a => value a k c | None => 0 end.

(** The block [b] of the kernel, at the levels [lv]. *)
Definition held (lv : Z -> option Z) (block b : list Z) : Prop :=
  zlen b = 64 /\ forall k, 0 <= k < 64 -> zz b k = known (lv k) k (zz block k).

Definition paint (ss se : Z) (f : Z -> Z) (a : list Z) : list Z := foldl (fun b k => zset b (zig k) (f k)) a (pyrange ss (se + 1)).

Lemma paint_painted ss se f a : zlen a = 64 -> 0 <= ss -> se < 64 -> painted ss se f a (paint ss se f a).
Proof.
  intros L H Hs. unfold paint. destruct (Z.leb_spec ss (se + 1)) as [G|G]; [|rewrite pyrange_nil by lia; cbn [foldl]; apply painted_nil; lia].
  replace se with (se + 1 - 1) at 1 by lia.
  apply (foldl_range (fun k b => painted ss (k - 1) f a b)); [done | apply painted_nil; lia|]. intros k b Hk P. replace (k + 1 - 1) with k by lia.
  apply (painted_trans ss (k - 1) k f a b); [lia | lia | done|]. replace (k - 1 + 1) with k by lia. apply painted_one; [by destruct P | lia].
Qed.

Definition raised (ss se al : Z) (lv : Z -> option Z) (k : Z) : option Z := if between ss k se then Some al else lv k.

Lemma held_raised ss se al lv block b : held lv block b -> 0 <= ss -> se < 64 ->
  held (raised ss se al lv) block (paint ss se (fun k => value al k (zz block k)) b).
Proof.
  intros [L H] Hs Hse. destruct (paint_painted ss se (fun k => value al k (zz block k)) b L Hs Hse) as [L' P]. split; [done|]. intros k Hk. rewrite P by done.
  unfold raised. destruct (between ss k se); [done | auto].
Qed.

Lemma value_full k c : value 0 k c = c.
Proof. unfold value, scaled. rewrite !Z.shiftl_0_r, !Z.shiftr_0_r. destruct (k =? 0); lia. Qed.

(** * The DC coefficient *)

Definition dc_code (al diff : Z) : list Tool.event :=
  let n := Tool.bit_length (Z.abs diff) in
  Tool.Sym n :: (if n =? 0 then [] else [Tool.Bits (if 0 <=? diff then diff else Z.land (diff - 1) (Z.shiftl 1 n - 1)) n]).

Lemma bit_length_abs x : Tool.bit_length (Z.abs x) = Tool.bit_length x.
Proof. unfold Tool.bit_length. rewrite Z.abs_idemp. destruct (Z.eqb_spec x 0) as [->|]; [done|]. by rewrite (proj2 (Z.eqb_neq (Z.abs x) 0)) by lia. Qed.

Lemma shiftr_i16 c al : 0 <= al -> -32768 <= c <= 32767 -> -32768 <= Z.shiftr c al <= 32767.
Proof.
  intros Hal Hc. rewrite Z.shiftr_div_pow2 by done. assert (0 < 2 ^ al) by (apply Z.pow_pos_nonneg; lia).
  split; [apply Z.div_le_lower_bound; nia | apply Z.div_le_upper_bound; nia].
Qed.

Section dc.
Context (data : list Z) (start : Z) (raw tail : list Z) (tool : option (gmap Z (Z * Z))) (dc ac : huffman).
Hypothesis C : coded data start raw tail.
#[warnings="-notation-for-abbreviation"] Local Notation reading := (reading start raw tool).

(** The first scan: the difference to the block before. *)
Lemma dc_first_block se al r pred c bef es : agree tool dc -> Huff.Kernel.valid dc = true ->
  0 <= al <= 13 -> -32768 <= c <= 32767 -> -32768 <= pred <= 32767 ->
  reading r (dc_code al (Z.shiftr c al - pred) ++ es) ->
  exists r', decode_block data true (Params 0 se 0 al) dc ac r pred bef = Ok (r', Z.shiftr c al, zset bef 0 (value al 0 c)) /\ reading r' es /\ eob_run r' = eob_run r.
Proof.
  intros A V Hal Hc Hp R. set (t := Z.shiftr c al) in *. set (x := t - pred) in *.
  assert (PP : 0 < 2 ^ al) by (apply Z.pow_pos_nonneg; lia). pose proof (shiftr_i16 c al ltac:(lia) Hc) as TI. assert (TB : -32768 <= Z.shiftl t al <= 32767).
  { unfold t. rewrite Z.shiftl_mul_pow2, Z.shiftr_div_pow2 by lia. pose proof (Z.div_mod c (2 ^ al) ltac:(lia)). pose proof (Z.mod_pos_bound c (2 ^ al) PP).
    set (q := 2 ^ (15 - al)). assert (Q : q * 2 ^ al = 32768) by (unfold q; rewrite <- Z.pow_add_r by lia; replace (15 - al + al) with 15 by lia; done).
    assert (0 < q) by (apply Z.pow_pos_nonneg; lia). assert (- q <= c / 2 ^ al) by (apply Z.div_le_lower_bound; nia). assert (c / 2 ^ al <= 32767) by (apply Z.div_le_upper_bound; nia).
    split; nia. }
  unfold dc_code in R. rewrite bit_length_abs in R. cbn [app] in R. apply (read_sym data start raw tail tool dc C A) in R as (r1 & D & R & E1).
  cbn [decode_block negb Kernel.ss Kernel.ah Kernel.al Z.eqb]. rewrite V. cbn [negb]. rewrite D, ok_bind. cbn beta iota.
  assert (RX : exists r', receive_extend data (Tool.bit_length x) r1 = Ok (x, r') /\ reading r' es /\ eob_run r' = eob_run r1).
  { destruct (Z.eq_dec x 0) as [->|NX].
    - exists r1. change (Tool.bit_length 0) with 0 in *. done.
    - destruct (bit_length_spec x NX) as [B1 _]. rewrite (proj2 (Z.eqb_neq (Tool.bit_length x) 0)) in R by lia. cbn [app] in R.
      apply (receive_value data start raw tail tool C r1 x) in R; [done | done | lia |].
      unfold signed_bits. destruct (Z.leb_spec 0 x), (Z.ltb_spec x 0); try lia. rewrite land_low, Z.mod_mod by (try apply Z.pow_nonzero; lia). done. }
  destruct RX as (r2 & -> & R2 & E2). rewrite ok_bind. cbn beta iota. replace (pred + x) with t by lia. unfold i32. rewrite checked_ok, ok_bind by lia.
  exists r2. rewrite as_i16_small by lia. split_and!; [done | done | congruence].
Qed.

(** The refining scan: one more bit. *)
Lemma dc_bit al c : 0 <= al -> value al 0 c = if Z.land (Z.shiftr c al) 1 =? 0 then value (al + 1) 0 c else Z.lor (value (al + 1) 0 c) (2 ^ al).
Proof.
  intros H. unfold value. cbn [Z.eqb]. pose proof (Z.pow_pos_nonneg 2 al ltac:(lia) H). rewrite lor_shiftl_add by (rewrite ?Z.pow_add_r by lia; lia).
  rewrite <- !Z.shiftr_shiftr by lia. rewrite land_1. set (t := Z.shiftr c al). rewrite Z.shiftr_div_pow2, !Z.shiftl_mul_pow2, !Z.pow_add_r by lia. change (2 ^ 1) with 2.
  pose proof (Z.div_mod t 2 ltac:(lia)). pose proof (Z.mod_pos_bound t 2 ltac:(lia)). destruct (Z.eqb_spec (t mod 2) 0); nia.
Qed.

Lemma dc_refine_block se al r pred c bef es : 0 <= al <= 13 -> zlen bef = 64 -> zat bef 0 = value (al + 1) 0 c ->
  reading r (Tool.Bits (Z.land (Z.shiftr c al) 1) 1 :: es) ->
  exists r', decode_block data true (Params 0 se (al + 1) al) dc ac r pred bef = Ok (r', pred, zset bef 0 (value al 0 c)) /\ reading r' es /\ eob_run r' = eob_run r.
Proof.
  intros Hal L EB R. destruct (read_bits data start raw tail tool C r _ 1 es ltac:(lia) R) as (r' & D & R' & EE). change (2 ^ 1) with 2 in D.
  cbn [decode_block negb Kernel.ss Kernel.ah Kernel.al Z.eqb]. rewrite (proj2 (Z.eqb_neq (al + 1) 0)) by lia. unfold bit. rewrite D, ok_bind. cbn beta iota.
  exists r'. split; [|done]. do 2 f_equal. rewrite dc_bit by lia. rewrite land_1. rewrite Z.mod_mod by lia.
  destruct (Z.eqb_spec (Z.shiftr c al mod 2) 0); cbn [negb].
  - rewrite <- EB. symmetry. apply zset_same. lia.
  - rewrite EB, Z.shiftl_mul_pow2, Z.mul_1_l by lia. rewrite as_i16_small; [done|].
    pose proof (Z.pow_pos_nonneg 2 al ltac:(lia) ltac:(lia)). pose proof (Z.pow_le_mono_r 2 al 13 ltac:(lia) ltac:(lia)) as P. change (2 ^ 13) with 8192 in P. lia.
Qed.
End dc.
