(* ===== verification/JpegKinds.v ===== *)
(** JpegKinds: the four kinds of scan, from the tool's events to the kernel's
    blocks.

    [scan_events] is the list of events of a scan, and [Tool.run] returns it
    ([run_events]); the kernel that reads it raises the level of the band in
    every block of the scan ([scan_decodes]). *)
From Stdlib Require Import ZArith Lia List.
From stdpp Require Import base list gmap strings.
From S2P Require Import Prelude Text Arrays Machine Huff Png Jpeg JpegBits JpegScan JpegFirst JpegRefine JpegBlocks JpegLevels.
Open Scope Z_scope.
Import Jpeg.Kernel.

(** * The events of a scan *)

Fixpoint dc_events (al : Z) (im : Tool.image) (last : gmap Z Z) (its : list item) : list Tool.event :=
  match its with
  | [] => []
  | it :: its =>
      let t := Z.shiftr (zz (block_at im it) 0) al in
      dc_code al (t - default 0 (last !! it.1)) ++ dc_events al im (<[it.1 := t]> last) its
  end.
Definition dc_bits (al : Z) (im : Tool.image) (its : list item) : list Tool.event :=
  (fun it => Tool.Bits (Z.land (Z.shiftr (zz (block_at im it) 0) al) 1) 1) <$> its.

Definition scan_full (sc : Tool.spec) : Z -> list Z -> bool := if Tool.ah sc =? 0 then first_full else refine_full.
Definition block_code (sc : Tool.spec) (block : list Z) : bcode :=
  if Tool.ah sc =? 0 then first_bcode (Tool.ss sc) (Tool.se sc) (Tool.al sc) block else refine_bcode (Tool.al sc) block (Tool.ss sc) (Tool.se sc).

Definition start_dc (cis : list Z) : gmap Z Z := list_to_map ((fun ci => (ci, 0)) <$> cis).

Definition scan_events (im : Tool.image) (sc : Tool.spec) : list Tool.event :=
  let its := tool_items im (Tool.cis sc) in
  if Tool.ss sc =? 0 then
    if Tool.ah sc =? 0 then dc_events (Tool.al sc) im (start_dc (Tool.cis sc)) its else dc_bits (Tool.al sc) im its
  else emitted (scan_full sc) 0 [] ((fun it => block_code sc (block_at im it)) <$> its).

(** The scans the tool may be asked for: DC alone, or a band of AC
    coefficients; a refining scan adds one bit. *)
Record scan_ok (sc : Tool.spec) : Prop := ScanOk {
  so_band : 0 <= Tool.ss sc <= Tool.se sc /\ Tool.se sc < 64;
  so_dc : Tool.ss sc = 0 -> Tool.se sc = 0;
  so_bits : 0 <= Tool.al sc <= 13;
  so_first : Tool.ah sc = 0 -> Tool.ss sc <> 0 -> 1 <= Tool.al sc;
  so_refine : Tool.ah sc <> 0 -> Tool.ah sc = Tool.al sc + 1
}.

(** The numbers of a block are those of a decoded picture. *)
Record sample_ok (block : list Z) : Prop := SampleOk {
  sa_len : zlen block = 64;
  sa_dc : -32768 <= zz block 0 <= 32767;
  sa_ac : forall k, 0 <= k < 64 -> k <> 0 -> Z.abs (zz block k) < 32768
}.

Lemma start_dc_lookup cis ci : ci ∈ cis -> start_dc cis !! ci = Some 0.
Proof.
  intros H. unfold start_dc. apply elem_of_list_to_map_1'; [|apply list_elem_of_fmap; eauto]. intros y Hy. apply list_elem_of_fmap in Hy as (c & [= -> ->] & _). done.
Qed.

(** A block adds events or ends early. *)
Lemma block_code_ended sc block : scan_ok sc -> Tool.ss sc <> 0 -> code (block_code sc block) = [] -> ended (block_code sc block) = true.
Proof.
  intros [SB _ SA _ _] Hs. unfold block_code. destruct (Tool.ah sc =? 0); [apply first_bcode_ended; lia|].
  intros E. apply refine_bcode_ended in E; [|lia]. cbn [refine_bcode ended]. rewrite E. apply Z.leb_le. lia.
Qed.
Lemma scan_full_limit sc e b : scan_full sc e b = false -> e <> 32767.
Proof. unfold scan_full, first_full, refine_full. destruct (Tool.ah sc =? 0); intros H ->; done. Qed.

Section kinds.
Context (im : Tool.image) (sc : Tool.spec).
#[warnings="-notation-for-abbreviation"] Local Notation cis := (Tool.cis sc).
#[warnings="-notation-for-abbreviation"] Local Notation items := (tool_items im cis).
Hypothesis ok : scan_ok sc.
Hypothesis some : cis <> [].
Hypothesis slots : forall ci, ci ∈ cis -> exists c, at_slot (Tool.comps im) ci = Some c /\ measured im c.
Hypothesis samples : forall it, it ∈ items -> sample_ok (block_at im it).

Lemma item_slot it : it ∈ items -> it.1 ∈ cis.
Proof. destruct it as [ci [row col]]. intros H. by destruct (tool_item im cis some slots ci row col H) as (c & Hc & _). Qed.

Lemma dc_first_run its : its ⊆ items -> Tool.ss sc = 0 -> Tool.ah sc = 0 -> forall o last, (forall ci, ci ∈ cis -> is_Some (last !! ci)) ->
  exists last', foldM (fun st it => Tool.do_block sc it.1 (block_at im it) st) (Tool.Encoding o 0 [] last) its
    = Ret (Tool.Encoding (o ++ dc_events (Tool.al sc) im last its) 0 [] last').
Proof.
  intros HI Hs Ha. induction its as [|it its IH]; intros o last HL; [exists last; cbn; by rewrite app_nil_r|].
  assert (Hit : it ∈ items) by (apply HI; constructor). destruct (samples it Hit) as [LB _ _]. destruct (HL it.1 (item_slot it Hit)) as [l El].
  destruct (IH ltac:(intros x Hx; apply HI; by constructor) (o ++ dc_code (Tool.al sc) (Z.shiftr (zz (block_at im it) 0) (Tool.al sc) - l))
    (<[it.1 := Z.shiftr (zz (block_at im it) 0) (Tool.al sc)]> last)) as (last' & E).
  { intros ci Hci. rewrite lookup_insert. case_decide; [done | auto]. }
  assert (E1 : Tool.do_block sc it.1 (block_at im it) (Tool.Encoding o 0 [] last) =
    Ret (Tool.Encoding (o ++ dc_code (Tool.al sc) (Z.shiftr (zz (block_at im it) 0) (Tool.al sc) - l)) 0 [] (<[it.1 := Z.shiftr (zz (block_at im it) 0) (Tool.al sc)]> last))).
  { unfold Tool.do_block. rewrite Hs, Ha. cbn [Z.eqb]. unfold Tool.dc_first. rewrite pyget_zat, py_ret_bind by lia. cbn [Tool.last_dc]. unfold Tool.lookup_key. rewrite El. done. }
  exists last'. cbn [foldM dc_events]. rewrite El, E1, py_ret_bind, E. by rewrite <- app_assoc.
Qed.

Lemma dc_refine_run its : its ⊆ items -> Tool.ss sc = 0 -> Tool.ah sc <> 0 -> forall o last,
  foldM (fun st it => Tool.do_block sc it.1 (block_at im it) st) (Tool.Encoding o 0 [] last) its = Ret (Tool.Encoding (o ++ dc_bits (Tool.al sc) im its) 0 [] last).
Proof.
  intros HI Hs Ha. induction its as [|it its IH]; intros o last; [cbn; by rewrite app_nil_r|].
  destruct (samples it ltac:(apply HI; constructor)) as [LB _ _].
  assert (E1 : Tool.do_block sc it.1 (block_at im it) (Tool.Encoding o 0 [] last) =
    Ret (Tool.Encoding (o ++ [Tool.Bits (Z.land (Z.shiftr (zz (block_at im it) 0) (Tool.al sc)) 1) 1]) 0 [] last)).
  { unfold Tool.do_block. rewrite Hs, (proj2 (Z.eqb_neq _ 0) Ha). cbn [Z.eqb]. unfold Tool.dc_refine. rewrite pyget_zat, py_ret_bind by lia. done. }
  cbn [foldM]. rewrite E1, py_ret_bind, IH by (intros x Hx; apply HI; by constructor). by rewrite <- app_assoc.
Qed.

Lemma ac_run its : its ⊆ items -> Tool.ss sc <> 0 -> forall st, idle st ->
  foldM (fun st it => Tool.do_block sc it.1 (block_at im it) st) st its = Ret (foldl (push (scan_full sc)) st ((fun it => block_code sc (block_at im it)) <$> its)).
Proof.
  intros HI Hs. destruct ok as [SB _ SA _ _]. induction its as [|it its IH]; intros st I; [done|]. destruct (samples it ltac:(apply HI; constructor)) as [LB _ _].
  assert (E1 : Tool.do_block sc it.1 (block_at im it) st = Ret (push (scan_full sc) st (block_code sc (block_at im it)))).
  { unfold Tool.do_block, scan_full, block_code. rewrite (proj2 (Z.eqb_neq _ 0) Hs). destruct (Tool.ah sc =? 0); [apply ac_first_push | apply ac_refine_push]; done || lia. }
  cbn [foldM fmap list_fmap foldl]. rewrite E1, py_ret_bind. apply IH; [intros x Hx; apply HI; by constructor | by apply push_idle].
Qed.

(** The events of the tool. *)
Lemma run_events : Tool.run im sc = Ret (scan_events im sc).
Proof.
  rewrite (run_items im cis some slots sc eq_refl). unfold scan_events. fold (start_dc cis). destruct (Z.eqb_spec (Tool.ss sc) 0) as [Hs|Hs]; [destruct (Z.eqb_spec (Tool.ah sc) 0) as [Ha|Ha]|].
  - destruct (dc_first_run items ltac:(done) Hs Ha [] (start_dc cis)) as (last' & E); [intros ci Hci; by rewrite start_dc_lookup|]. by rewrite E.
  - by rewrite dc_refine_run.
  - rewrite ac_run by done. rewrite py_ret_bind. by rewrite pushes_out.
Qed.

(** * The kernel *)

Section decoding.
Context (data : list Z) (start : Z) (raw tail : list Z) (tool : option (gmap Z (Z * Z))) (dc ac : huffman).
Context (lv : item -> Z -> option Z) (bef : item -> list Z).
Hypothesis C : coded data start raw tail.
Hypothesis A : agree tool (if Tool.ss sc =? 0 then dc else ac).
Hypothesis V : Tool.ss sc <> 0 \/ Tool.ah sc = 0 -> Huff.Kernel.valid (if Tool.ss sc =? 0 then dc else ac) = true.
Hypothesis before : forall it, it ∈ items -> held (lv it) (block_at im it) (bef it).
Hypothesis band : forall it k, it ∈ items -> Tool.ss sc <= k <= Tool.se sc -> lv it k = if Tool.ah sc =? 0 then None else Some (Tool.ah sc).
#[warnings="-notation-for-abbreviation"] Local Notation params := (Params (Tool.ss sc) (Tool.se sc) (Tool.ah sc) (Tool.al sc)).
#[warnings="-notation-for-abbreviation"] Local Notation reading := (reading start raw tool).

(** A block after the scan. *)
Definition aft (it : item) : list Z := paint (Tool.ss sc) (Tool.se sc) (fun k => value (Tool.al sc) k (zz (block_at im it) k)) (bef it).

Definition dc_first_ahead (r : reader) (cs : list component) (its : list item) : Prop :=
  its ⊆ items /\ exists last, reading r (dc_events (Tool.al sc) im last its)
    /\ forall ci c, ci ∈ cis -> at_slot cs ci = Some c -> predictor c = default 0 (last !! ci) /\ -32768 <= predictor c <= 32767.
Definition dc_refine_ahead (r : reader) (cs : list component) (its : list item) : Prop :=
  its ⊆ items /\ reading r (dc_bits (Tool.al sc) im its).
Definition ac_ahead (r : reader) (cs : list component) (its : list item) : Prop :=
  its ⊆ items /\ owed start raw tool (scan_full sc) r ((fun it => block_code sc (block_at im it)) <$> its) [].

Lemma aft_dc it : Tool.ss sc = 0 -> aft it = zset (bef it) 0 (value (Tool.al sc) 0 (zz (block_at im it) 0)).
Proof. intros Hs. destruct ok. unfold aft. rewrite so_dc0, Hs by done. done. Qed.

Lemma subset_cons (it : item) its : it :: its ⊆ items -> it ∈ items /\ its ⊆ items.
Proof. intros H. split; [apply H; constructor | intros x Hx; apply H; by constructor]. Qed.

Lemma dc_first_step : Tool.ss sc = 0 -> Tool.ah sc = 0 -> forall it its r cs c, dc_first_ahead r cs (it :: its) -> at_slot cs it.1 = Some c ->
  exists r' pr, decode_block data true params dc ac r (predictor c) (bef it) = Ok (r', pr, aft it)
    /\ dc_first_ahead r' (<[Z.to_nat it.1 := set_predictor c pr]> cs) its.
Proof.
  intros Hs Ha it its r cs c (HI & last & R & P) EC. apply subset_cons in HI as [Hit HI]. destruct (samples it Hit) as [_ SD _]. pose proof (item_slot it Hit) as Hci.
  destruct (P it.1 c Hci EC) as [PE PB]. destruct ok as [_ _ SA _ _]. cbn [dc_events] in R. rewrite <- PE in R. rewrite Hs in A, V |- *. rewrite Ha. cbn [Z.eqb] in A, V.
  destruct (dc_first_block data start raw tail tool dc ac C (Tool.se sc) (Tool.al sc) r (predictor c) (zz (block_at im it) 0) (bef it) _ A (V (or_intror Ha)) SA SD PB R) as (r' & E & R' & _).
  exists r', (Z.shiftr (zz (block_at im it) 0) (Tool.al sc)). rewrite aft_dc by done. split; [done|]. split; [done|]. exists (<[it.1 := Z.shiftr (zz (block_at im it) 0) (Tool.al sc)]> last). split; [done|].
  intros ci c' Hc E'. assert (Hp : 0 <= ci) by (unfold at_slot in E'; destruct (Z.ltb_spec ci 0); [done | lia]). rewrite at_slot_insert in E' by eauto.
  rewrite lookup_insert. destruct (Z.eqb_spec ci it.1) as [->|NE].
  - injection E' as <-. rewrite decide_True by done. cbn. split; [done|]. apply shiftr_i16; [lia | done].
  - rewrite decide_False by congruence. apply P; done.
Qed.

Lemma dc_refine_step : Tool.ss sc = 0 -> Tool.ah sc <> 0 -> forall it its r cs c, dc_refine_ahead r cs (it :: its) -> at_slot cs it.1 = Some c ->
  exists r' pr, decode_block data true params dc ac r (predictor c) (bef it) = Ok (r', pr, aft it)
    /\ dc_refine_ahead r' (<[Z.to_nat it.1 := set_predictor c pr]> cs) its.
Proof.
  intros Hs Ha it its r cs c (HI & R) EC. apply subset_cons in HI as [Hit HI]. destruct ok as [_ SD SA _ SR]. specialize (SR Ha). specialize (SD Hs).
  destruct (before it Hit) as [LB HB]. specialize (HB 0 ltac:(lia)). rewrite (band it 0 Hit), (proj2 (Z.eqb_neq _ 0) Ha), SR in HB by lia. cbn [known] in HB.
  destruct (dc_refine_block data start raw tail tool dc ac C (Tool.se sc) (Tool.al sc) r (predictor c) (zz (block_at im it) 0) (bef it) _ SA LB HB R) as (r' & E & R' & _).
  exists r', (predictor c). rewrite aft_dc by done. rewrite Hs, SR. done.
Qed.

(** The code of a block, read in this scan. *)
Lemma block_decodes it : it ∈ items -> Tool.ss sc <> 0 ->
  decodes start raw tool (if Tool.ah sc =? 0 then decode_ac_first data ac (Tool.ss sc) (Tool.se sc) (Tool.al sc) else decode_ac_refine data ac (Tool.ss sc) (Tool.se sc) (Tool.al sc))
    (block_code sc (block_at im it)) (bef it) (aft it).
Proof.
  intros Hit Hs. destruct ok as [SB _ SA SF SR]. destruct (before it Hit) as [LB HB]. rewrite (proj2 (Z.eqb_neq _ 0) Hs) in A.
  assert (P : painted (Tool.ss sc) (Tool.se sc) (fun j => Z.shiftl (scaled (Tool.al sc) (zz (block_at im it) j)) (Tool.al sc)) (bef it) (aft it)).
  { destruct (paint_painted (Tool.ss sc) (Tool.se sc) (fun k => value (Tool.al sc) k (zz (block_at im it) k)) (bef it) LB ltac:(lia) ltac:(lia)) as [L' P].
    split; [done|]. intros j Hj. unfold aft. rewrite P by done. destruct (between _ j _) eqn:E; [|done]. apply between_spec in E. unfold value. by rewrite (proj2 (Z.eqb_neq j 0)) by lia. }
  assert (SM : forall k, 1 <= k < 64 -> Z.abs (zz (block_at im it) k) < 32768) by (destruct (samples it Hit) as [_ _ SM]; intros; apply SM; lia).
  unfold block_code. destruct (Z.eqb_spec (Tool.ah sc) 0) as [Ha|Ha].
  - apply (first_decodes data start raw tail tool ac C A); try done; try lia. intros j Hj. rewrite HB, (band it j Hit Hj) by lia. done.
  - apply (refine_decodes data start raw tail tool ac C); try done; try lia. intros j Hj. rewrite HB, (band it j Hit Hj) by lia.
    cbn [known]. unfold value. rewrite (proj2 (Z.eqb_neq j 0)) by lia. by rewrite SR.
Qed.

Lemma ac_step : Tool.ss sc <> 0 -> forall it its r cs c, ac_ahead r cs (it :: its) -> at_slot cs it.1 = Some c ->
  exists r' pr, decode_block data true params dc ac r (predictor c) (bef it) = Ok (r', pr, aft it)
    /\ ac_ahead r' (<[Z.to_nat it.1 := set_predictor c pr]> cs) its.
Proof.
  intros Hs it its r cs c (HI & O) EC. apply subset_cons in HI as [Hit HI]. pose proof (V (or_introl Hs)) as V'. rewrite (proj2 (Z.eqb_neq _ 0) Hs) in V'.
  cbn [fmap list_fmap] in O.
  destruct (decode_next start raw tool (scan_full sc) _ (scan_full_limit sc) r _ ((fun it => block_code sc (block_at im it)) <$> its) [] (bef it) (aft it) (block_decodes it Hit Hs)) with (2 := O) as (r' & E & O').
  { apply Forall_cons. split; [by apply block_code_ended|]. apply Forall_fmap, Forall_forall. intros x _ E. by apply block_code_ended. }
  exists r', (predictor c). cbn [decode_block negb Kernel.ss Kernel.se Kernel.ah Kernel.al]. rewrite (proj2 (Z.eqb_neq _ 0) Hs), V'. cbn [negb].
  split; [destruct (Tool.ah sc =? 0); rewrite E; done | done].
Qed.

(** All the blocks of the scan. *)
Section blocks.
Context (d : decoder) (cs0 : list component) (num : item -> Z).
Hypothesis prog : progressive d = true.
Hypothesis sites : forall it, it ∈ items -> sited d cs0 (fun _ => dc) (fun _ => ac) num it.
Hypothesis nums : NoDup (num <$> items).
Hypothesis fresh : forall ci c, ci ∈ cis -> at_slot cs0 ci = Some c -> predictor c = 0.

Lemma scan_decodes co until : (forall it, it ∈ items -> has_cell co (num it) /\ cell co (num it) = bef it) ->
  upcoming raw tool 0 (scan_events im sc) ->
  exists st, foldK (block_step data d params) (Scanning (Reader start 0 0 false 0) cs0 co until) items = Ok st
    /\ shape (cs st) = shape cs0 /\ zlen (coefs st) = zlen co /\ (forall it, it ∈ items -> cell (coefs st) (num it) = aft it)
    /\ (forall n, has_cell co n -> n ∉ num <$> items -> cell (coefs st) n = cell co n) /\ exists p, reads start raw (rd st) p.
Proof.
  intros HC U. set (st0 := Scanning _ _ _ _). assert (R0 : reading (Reader start 0 0 false 0) (scan_events im sc)) by (exists 0; split; [apply reads_start | done]).
  assert (F1 : Forall (fun it => sited d cs0 (fun _ => dc) (fun _ => ac) num it /\ zlen (aft it) = 64) items).
  { apply Forall_forall. intros it Hit. split; [auto|]. destruct (before it Hit) as [L _]. destruct ok as [SB _ _ _ _]. by destruct (paint_painted (Tool.ss sc) (Tool.se sc) (fun k => value (Tool.al sc) k (zz (block_at im it) k)) (bef it) L ltac:(lia) ltac:(lia)). }
  assert (F2 : Forall (fun it => has_cell (coefs st0) (num it) /\ cell (coefs st0) (num it) = bef it) items) by (apply Forall_forall; auto).
  assert (G : exists ahead, ahead (rd st0) (cs st0) items /\ (forall r cs, ahead r cs [] -> reading r []) /\
    forall it its r cs c, ahead r cs (it :: its) -> shape cs = shape cs0 -> at_slot cs it.1 = Some c ->
      exists r' pr, decode_block data true params dc ac r (predictor c) (bef it) = Ok (r', pr, aft it) /\ ahead r' (<[Z.to_nat it.1 := set_predictor c pr]> cs) its).
  { unfold scan_events in R0. destruct (Z.eq_dec (Tool.ss sc) 0) as [Hs|Hs];
      [rewrite (proj2 (Z.eqb_eq _ 0) Hs) in R0; destruct (Z.eq_dec (Tool.ah sc) 0) as [Ha|Ha]; [rewrite (proj2 (Z.eqb_eq _ 0) Ha) in R0 | rewrite (proj2 (Z.eqb_neq _ 0) Ha) in R0]
      |rewrite (proj2 (Z.eqb_neq _ 0) Hs) in R0].
    - exists dc_first_ahead. split_and!; [split; [done|]; exists (start_dc cis); split; [done|] | by intros r cs' (_ & last & R & _) | intros; by apply dc_first_step].
      intros ci c Hci E. rewrite (fresh ci c Hci E), start_dc_lookup by done. cbn. lia.
    - exists dc_refine_ahead. split_and!; [done | by intros r cs' (_ & R) | intros; by apply dc_refine_step].
    - exists ac_ahead. split_and!; [split; [done|] | | intros; by apply ac_step].
      + split; cbn [eob_run rd st0]; [lia|]. split; [constructor|]. change (Z.to_nat 0) with O. cbn [take drop fmap list_fmap concat Tool.single_bits app]. by rewrite app_nil_r.
      + intros r cs' (_ & _ & _ & R). cbn [fmap list_fmap] in R. rewrite take_nil, drop_nil in R. exact R. }
  destruct G as (ahead & A0 & AE & STEP).
  destruct (simulates data d params cs0 true (fun _ => dc) (fun _ => ac) num bef aft ahead prog STEP items nums F1 st0 eq_refl F2 A0) as (st & E & S & L & F & K & A').
  exists st. split_and!; try done; [by rewrite Forall_forall in F|]. destruct (AE _ _ A') as (q & Rq & _). by exists q.
Qed.
End blocks.
End decoding.
End kinds.
