(* ===== verification/JpegTables.v ===== *)
(** JpegTables: the Huffman table of a scan.

    The tool counts the symbols of the events and makes a table of them; every
    symbol gets a word, and the kernel builds the same code from the bytes of
    the segment ([chosen_table]).  The second half bounds the symbols of the
    scans: bytes, at least one, and at most sixty-four for a block. *)
From Stdlib Require Import ZArith Lia List.
From stdpp Require Import base list gmap strings.
From S2P Require Import Prelude Text Arrays Machine Huff Png Jpeg JpegBits JpegScan JpegFirst JpegRefine JpegBlocks JpegLevels JpegKinds.
Open Scope Z_scope.
Import Jpeg.Kernel.

(** The symbols of the events. *)
Fixpoint symbols (es : list Tool.event) : list Z :=
  match es with
  | [] => []
  | Tool.Sym s :: es => s :: symbols es
  | Tool.Bits _ _ :: es => symbols es
  end.

Lemma symbols_app a b : symbols (a ++ b) = symbols a ++ symbols b.
Proof. induction a as [|[s|v n] a IH]; [done | |]; cbn [app symbols]; by rewrite IH. Qed.

Lemma count_events es : Forall is_byte (symbols es) -> forall freq, zlen freq = 256 -> nonneg freq ->
  exists freq', foldM Tool.count_event freq es = Ret freq' /\ zlen freq' = 256 /\ nonneg freq' /\ zsum freq' = zsum freq + zlen (symbols es)
    /\ (forall s, 0 <= s < 256 -> zat freq s <= zat freq' s) /\ forall s, s ∈ symbols es -> 0 < zat freq' s.
Proof.
  induction es as [|[s|v n] es IH]; intros F freq L N.
  - exists freq. split_and!; try done; [change (zlen (symbols [])) with 0; lia | intros s Hs; by apply not_elem_of_nil in Hs].
  - cbn [symbols] in F. apply Forall_cons in F as [Fs F]. unfold is_byte in Fs. 
    assert (E1 : Tool.count_event freq (Tool.Sym s) = Ret (zset freq s (zat freq s + 1))) by (unfold Tool.count_event; rewrite pyget_zat, py_ret_bind, pyset_zset by lia; done).
    cbn [foldM]. rewrite E1, py_ret_bind.
    assert (Z0 : 0 <= zat freq s) by (unfold nonneg in N; rewrite Forall_forall in N; apply N, zat_elem; lia).
    destruct (IH F (zset freq s (zat freq s + 1))) as (f' & E & L' & N' & S' & M' & P'); [by rewrite zlen_zset | apply Forall_zset; [done | lia]|].
    exists f'. split_and!; try done.
    + rewrite S', zsum_zset by lia. cbn [symbols]. unfold zlen. cbn [length]. lia.
    + intros t Ht. pose proof (M' t Ht) as Mt. rewrite zat_zset in Mt by lia. destruct (Z.eqb_spec t s) as [->|]; lia.
    + intros t [->|Ht]%elem_of_cons; [|auto]. pose proof (M' s ltac:(lia)) as Mt. rewrite zat_zset, Z.eqb_refl in Mt by lia. lia.
  - cbn [foldM symbols] in *. cbn [Tool.count_event]. rewrite py_ret_bind. by apply IH.
Qed.

Lemma events_bits t es : Forall (fun s => exists c L, t !! s = Some (c, L)) (symbols es) -> exists bs, mapM_py (Tool.event_bits (Some t)) es = Ret bs /\ Forall is_bit (concat bs).
Proof.
  induction es as [|[s|v n] es IH]; intros F; [by exists [] | |]; cbn [symbols] in F.
  - apply Forall_cons in F as [(c & L & E) F]. destruct (IH F) as (bs & EB & FB). exists (Tool.value_bits c L :: bs). cbn [mapM_py Tool.event_bits of_opt]. rewrite py_ret_bind.
    unfold Tool.lookup_key. rewrite E. cbn [of_opt]. rewrite !py_ret_bind, EB. split; [done|]. cbn [concat]. apply Forall_app. split; [apply value_bits_bits | done].
  - destruct (IH F) as (bs & EB & FB). exists (Tool.value_bits v n :: bs). cbn [mapM_py Tool.event_bits]. rewrite py_ret_bind, EB. split; [done|]. cbn [concat]. apply Forall_app. split; [apply value_bits_bits | done].
Qed.
Lemma raw_events_bits es : symbols es = [] -> exists bs, mapM_py (Tool.event_bits None) es = Ret bs /\ Forall is_bit (concat bs).
Proof.
  induction es as [|[s|v n] es IH]; intros F; [by exists [] | done|]. cbn [symbols] in F.
  destruct (IH F) as (bs & EB & FB). exists (Tool.value_bits v n :: bs). cbn [mapM_py Tool.event_bits]. rewrite py_ret_bind, EB. split; [done|]. cbn [concat]. apply Forall_app. split; [apply value_bits_bits | done].
Qed.

(** The table of a scan, on both sides. *)
Record table_for (es : list Tool.event) (cnt vals : list Z) (t : gmap Z (Z * Z)) (kt : huffman) : Prop := TableFor {
  tf_counts : word_counts cnt vals;
  tf_tool : Huff.Tool.code_table cnt vals = Ret t;
  tf_kernel : Huff.Kernel.build cnt vals = Some kt;
  tf_valid : Huff.Kernel.valid kt = true;
  tf_coding : coding t kt cnt vals;
  tf_words : Forall (fun s => exists c L, t !! s = Some (c, L)) (symbols es)
}.

Lemma chosen_table es : Forall is_byte (symbols es) -> 1 <= zlen (symbols es) < 9227464 ->
  exists freq cnt vals t kt, foldM Tool.count_event (replicate 256 0) es = Ret freq /\ Huff.Tool.optimal_table freq = Ret (cnt, vals) /\ table_for es cnt vals t kt.
Proof.
  intros F T. destruct (count_events es F (replicate 256 0)) as (freq & EF & L & N & S & _ & P); [done | by apply Forall_replicate|].
  replace (zsum (replicate 256 0)) with 0 in S by (vm_compute; reflexivity). destruct (optimal_spec freq L N ltac:(lia)) as (cnt & vals & EO & W & I).
  pose proof W as [WL WB WC WI WN WV]. assert (PO : nonneg cnt) by (eapply Forall_impl; [exact WB | intros x []; done]).
  assert (SM : zsum cnt <= 256).
  { rewrite WC. assert (IN : vals ⊆+ pyrange 0 256) by (apply NoDup_submseteq; [done|]; intros s Hs; apply elem_of_pyrange; by apply I). apply submseteq_length in IN.
    change (length (pyrange 0 256)) with 256%nat in IN. unfold zlen. lia. }
  destruct (code_table_spec cnt vals WL PO ltac:(lia) WN) as (t & ET & HT). pose proof (complete_fits cnt vals WL PO ltac:(lia)) as FT.
  pose proof (kernel_build_spec cnt vals WL PO ltac:(lia) WV SM) as KB. destruct (Huff.Kernel.build cnt vals) as [kt|] eqn:EK; [|done]. destruct KB as [KO _].
  exists freq, cnt, vals, t, kt. split_and!; [done | done|]. split; try done.
  - by destruct KO.
  - split; try done; lia.
  - apply Forall_forall. intros s Hs. destruct (every_value_word cnt vals WL s WC) as (Lw & c & Wd).
    + apply I. rewrite Forall_forall in F. pose proof (F s Hs) as [? ?]. specialize (P s Hs). split; lia.
    + exists c, Lw. by apply HT.
Qed.

(** * The symbols of a scan *)

Lemma symbols_bits b : symbols (Tool.single_bits b) = [].
Proof. by induction b. Qed.
Lemma symbols_sym s es : symbols (Tool.Sym s :: es) = s :: symbols es.
Proof. done. Qed.
Lemma symbols_eob e b : symbols (eob e b) = [Z.shiftl (Tool.bit_length e - 1) 4].
Proof. unfold eob. rewrite symbols_sym. destruct (_ =? 0); cbn [app symbols]; by rewrite symbols_bits. Qed.
Lemma symbol_byte r n : 0 <= r < 16 -> 0 <= n < 16 -> is_byte (Z.shiftl r 4 + n).
Proof. intros. unfold is_byte. rewrite Z.shiftl_mul_pow2 by lia. change (2 ^ 4) with 16. lia. Qed.
Lemma symbols_zrl n p : symbols (zrl_code n p) = replicate n 240.
Proof. revert p. induction n as [|n IH]; intros p; [done|]. cbn [zrl_code]. rewrite symbols_sym, symbols_app, symbols_bits, IH. done. Qed.
Lemma symbols_replicate n : symbols (replicate n (Tool.Sym 240)) = replicate n 240.
Proof. induction n as [|n IH]; [done|]. cbn [replicate symbols]. by rewrite IH. Qed.
Lemma bytes_240 n : Forall is_byte (replicate n 240).
Proof. apply Forall_replicate. unfold is_byte. lia. Qed.
Lemma zlen_replicate {A} n (a : A) : zlen (replicate n a) = Z.of_nat n.
Proof. unfold zlen. by rewrite length_replicate. Qed.

(** ** One block *)

Lemma first_symbols al block ks : 0 <= al -> Forall (fun k => Z.abs (zz block k) < 32768) ks -> forall r, 0 <= r ->
  let es := (first_code al block ks r).1 in
  Forall is_byte (symbols es) /\ zlen (symbols es) <= r + zlen ks /\ (symbols es = [] -> es = []).
Proof.
  intros Hal F. induction F as [|k ks Hk F IH]; intros r Hr; [split_and!; [constructor | change (zlen _) with 0; lia | done]|]. cbn [first_code]. cbv zeta.
  assert (LK : zlen (k :: ks) = 1 + zlen ks) by (unfold zlen; cbn [length]; lia). destruct (Z.eqb_spec (scaled al (zz block k)) 0) as [X|X].
  - destruct (IH (r + 1) ltac:(lia)) as (H1 & H2 & H3). split_and!; [done | lia | done].
  - destruct (IH 0 ltac:(lia)) as (H1 & H2 & H3). destruct (first_code al block ks 0) as [es r']. cbn [fst] in *. unfold first_events.
    destruct (scaled_abs al (zz block k) Hal) as [_ A2]. destruct (bit_length_spec _ X) as [B1 _]. pose proof (bit_length_le (scaled al (zz block k)) 15 ltac:(lia) ltac:(change (2 ^ 15) with 32768; lia)).
    pose proof (Z.mod_pos_bound r 16 ltac:(lia)). pose proof (Z.div_pos r 16 ltac:(lia) ltac:(lia)). pose proof (Z.div_mod r 16 ltac:(lia)).
    rewrite !symbols_app, symbols_replicate. cbn [symbols]. split_and!.
    + apply Forall_app. split; [|done]. apply Forall_app. split; [apply bytes_240|]. constructor; [apply symbol_byte; lia | constructor].
    + rewrite !zlen_app, zlen_replicate. change (zlen [_]) with 1. lia.
    + by intros [[_ E]%app_eq_nil _]%app_eq_nil.
Qed.

Lemma new_symbols al block ks : forall r p, 0 <= r -> let es := (new_code al block ks r p).1.1 in
  Forall is_byte (symbols es) /\ zlen (symbols es) <= r + zlen ks /\ (symbols es = [] -> es = []).
Proof.
  induction ks as [|k ks IH]; intros r p Hr; [split_and!; [constructor | change (zlen _) with 0; lia | done]|]. cbn [new_code]. cbv zeta.
  assert (LK : zlen (k :: ks) = 1 + zlen ks) by (unfold zlen; cbn [length]; lia).
  pose proof (Z.mod_pos_bound r 16 ltac:(lia)). pose proof (Z.div_pos r 16 ltac:(lia) ltac:(lia)). pose proof (Z.div_mod r 16 ltac:(lia)).
  destruct (size al block k =? 0); [destruct (IH (r + 1) p ltac:(lia)) as (I1 & I2 & I3); split_and!; [done | lia | done]|]. destruct (1 <? size al block k).
  - destruct (IH (r mod 16) (zrl_left (Z.to_nat (r / 16)) p ++ [Z.land (size al block k) 1]) ltac:(lia)) as (I1 & I2 & I3). destruct (new_code _ _ _ _ _) as [[es r'] p']. cbn [fst] in *.
    rewrite symbols_app, symbols_zrl. split_and!; [apply Forall_app; split; [apply bytes_240 | done] | rewrite zlen_app, zlen_replicate; lia|].
    intros [E1 E2]%app_eq_nil. rewrite I3 by done. destruct (Z.to_nat (r / 16)); [done|]. done.
  - destruct (IH 0 [] ltac:(lia)) as (I1 & I2 & I3). destruct (new_code _ _ _ _ _) as [[es r'] p']. cbn [fst] in *.
    rewrite symbols_app, symbols_zrl, symbols_app. cbn [symbols]. rewrite symbols_bits. cbn [app]. split_and!.
    + apply Forall_app. split; [apply bytes_240|]. constructor; [apply symbol_byte; lia | done].
    + rewrite zlen_app, zlen_replicate. unfold zlen in *. cbn [length]. lia.
    + by intros [_ E]%app_eq_nil.
Qed.

(** ** The AC scans *)

Record code_ok (bc : bcode) : Prop := CodeOk {
  ck_bytes : Forall is_byte (symbols (code bc));
  ck_count : zlen (symbols (code bc)) <= 63;
  ck_some : symbols (code bc) = [] -> ended bc = true
}.

Lemma eobs_symbols e b : 0 <= e <= 32767 -> Forall is_byte (symbols (eobs e b)) /\ zlen (symbols (eobs e b)) = (if 0 <? e then 1 else 0).
Proof.
  intros H. unfold eobs. destruct (Z.ltb_spec 0 e) as [P|P]; [|split; [constructor | done]]. rewrite symbols_eob. split; [|done].
  destruct (bit_length_spec e ltac:(lia)) as [B _]. pose proof (bit_length_le e 15 ltac:(lia) ltac:(change (2 ^ 15) with 32768; lia)).
  constructor; [|constructor]. rewrite <- (Z.add_0_r (Z.shiftl _ 4)). apply symbol_byte; lia.
Qed.

Lemma emitted_symbols full bcs : (forall e b, full e b = false -> e <> 32767) -> Forall code_ok bcs -> forall e b, 0 <= e < 32767 ->
  let ss := symbols (emitted full e b bcs) in
  Forall is_byte ss /\ zlen ss <= (if 0 <? e then 1 else 0) + 64 * zlen bcs /\ (0 < e \/ bcs <> [] -> 1 <= zlen ss).
Proof.
  intros HF F. induction F as [|bc bcs [C1 C2 C3] F IH]; intros e b He; cbv zeta.
  - cbn [emitted]. destruct (eobs_symbols e b ltac:(lia)) as [B ->]. change (zlen []) with 0. split_and!; [done | lia|]. intros [P|]; [|done]. by rewrite (proj2 (Z.ltb_lt 0 e)).
  - assert (LK : zlen (bc :: bcs) = 1 + zlen bcs) by (unfold zlen; cbn [length]; lia). rewrite LK. pose proof (zlen_nonneg (symbols (code bc))). cbn [emitted].
    destruct (match code bc with [] => ([], e, b) | _ => (eobs e b ++ code bc, 0, []) end) as [[pre e1] b1] eqn:EP.
    assert (HP : Forall is_byte (symbols pre) /\ 0 <= e1 < 32767 /\ zlen (symbols pre) + (if 0 <? e1 then 1 else 0) <= (if 0 <? e then 1 else 0) + zlen (symbols (code bc))
      /\ (zlen (symbols (code bc)) <= zlen (symbols pre))).
    { destruct (code bc) as [|x c] eqn:EC; injection EP as <- <- <-; [split_and!; [constructor | lia | lia | change (zlen (symbols [])) with 0; lia | done]|].
      destruct (eobs_symbols e b ltac:(lia)) as [B L]. rewrite symbols_app, zlen_app, L. split_and!; [by apply Forall_app | lia | lia | cbn [Z.ltb Z.compare]; lia | destruct (0 <? e); lia]. }
    destruct HP as (P1 & P2 & P3 & P4). rewrite symbols_app, zlen_app.
    assert (HT : let t := symbols (if ended bc then if full (e1 + 1) (b1 ++ pend bc) then eobs (e1 + 1) (b1 ++ pend bc) ++ emitted full 0 [] bcs else emitted full (e1 + 1) (b1 ++ pend bc) bcs else emitted full e1 b1 bcs) in
      Forall is_byte t /\ zlen t <= (if ended bc then 1 else if 0 <? e1 then 1 else 0) + 64 * zlen bcs /\ ((0 < e1 \/ ended bc = true) -> 1 <= zlen t)).
    { cbv zeta. destruct (ended bc); [destruct (full (e1 + 1) (b1 ++ pend bc)) eqn:EF|].
      - destruct (eobs_symbols (e1 + 1) (b1 ++ pend bc) ltac:(lia)) as [B L]. destruct (IH 0 [] ltac:(lia)) as (I1 & I2 & _). rewrite symbols_app, zlen_app, L. rewrite (proj2 (Z.ltb_lt 0 (e1 + 1))) by lia.
        cbn [Z.ltb Z.compare] in I2. pose proof (zlen_nonneg (symbols (emitted full 0 [] bcs))). split_and!; [by apply Forall_app | lia | lia].
      - specialize (HF _ _ EF). destruct (IH (e1 + 1) (b1 ++ pend bc) ltac:(lia)) as (I1 & I2 & I3). rewrite (proj2 (Z.ltb_lt 0 (e1 + 1))) in I2 by lia. split_and!; [done | lia|]. intros _. apply I3. lia.
      - destruct (IH e1 b1 ltac:(lia)) as (I1 & I2 & I3). split_and!; [done | lia|]. intros [P|]; [auto | done]. }
    destruct HT as (T1 & T2 & T3). set (t := symbols (if ended bc then _ else _)) in *. pose proof (zlen_nonneg t). pose proof (zlen_nonneg (symbols pre)). split_and!.
    + by apply Forall_app.
    + destruct (ended bc), (0 <? e1), (0 <? e); lia.
    + intros _. destruct (symbols (code bc)) as [|x l] eqn:ES; [specialize (T3 (or_intror (C3 eq_refl))); lia|]. unfold zlen in P4 at 1. cbn [length] in P4. lia.
Qed.

Lemma block_code_ok sc block : scan_ok sc -> Tool.ss sc <> 0 -> sample_ok block -> code_ok (block_code sc block).
Proof.
  intros OK Hs [_ _ SA]. pose proof (block_code_ended sc block OK Hs) as BE. destruct OK as [SB _ SL _ _].
  unfold block_code in *. destruct (Tool.ah sc =? 0).
  - assert (FK : Forall (fun k => Z.abs (zz block k) < 32768) (pyrange (Tool.ss sc) (Tool.se sc + 1))) by (apply Forall_forall; intros k Hk; apply elem_of_pyrange in Hk; apply SA; lia).
    destruct (first_symbols (Tool.al sc) block _ ltac:(lia) FK 0 ltac:(lia)) as (F1 & F2 & F3). rewrite zlen_pyrange in F2 by lia. unfold first_bcode in *.
    destruct (first_code _ _ _ _) as [es r]. cbn [fst code ended] in *. split; cbn [code ended]; [done | lia | auto].
  - destruct (cut_spec (Tool.al sc) block (Tool.ss sc) (Tool.se sc) ltac:(lia)) as (HM & _). cbv zeta in HM. cbn [refine_bcode code] in BE.
    destruct (new_symbols (Tool.al sc) block (pyrange (Tool.ss sc) (cut (Tool.al sc) block (Tool.ss sc) (Tool.se sc))) 0 [] ltac:(lia)) as (F1 & F2 & F3). rewrite zlen_pyrange in F2 by lia.
    split; cbn [refine_bcode code]; [done | lia | auto].
Qed.

Lemma dc_symbols al im its : 0 <= al -> (forall it, it ∈ its -> sample_ok (block_at im it)) -> forall last, map_Forall (fun _ x => -32768 <= x <= 32767) last ->
  Forall is_byte (symbols (dc_events al im last its)) /\ zlen (symbols (dc_events al im last its)) = zlen its.
Proof.
  intros Hal. induction its as [|it its IH]; intros S last B; [split; [constructor | done]|]. cbn [dc_events]. destruct (S it ltac:(constructor)) as [_ SD _].
  pose proof (shiftr_i16 _ al Hal SD) as TI. set (t := Z.shiftr (zz (block_at im it) 0) al) in *.
  destruct (IH ltac:(intros; apply S; by constructor) (<[it.1 := t]> last)) as [I1 I2]; [by apply map_Forall_insert_2|].
  assert (LB : -32768 <= default 0 (last !! it.1) <= 32767) by (destruct (last !! it.1) as [x|] eqn:E; cbn; [by apply (B it.1) | lia]).
  set (x := t - default 0 (last !! it.1)) in *. pose proof (bit_length_le x 17 ltac:(lia) ltac:(change (2 ^ 17) with 131072; lia)).
  assert (0 <= Tool.bit_length x) by (unfold Tool.bit_length; destruct (x =? 0); [lia|]; pose proof (Z.log2_nonneg (Z.abs x)); lia).
  assert (E : symbols (dc_code al x) = [Tool.bit_length x]) by (unfold dc_code; rewrite bit_length_abs; by destruct (_ =? 0)).
  rewrite symbols_app, E. split; [constructor; [unfold is_byte; lia | done]|]. unfold zlen in *. cbn [app length]. lia.
Qed.
Lemma dc_bits_symbols al im its : symbols (dc_bits al im its) = [].
Proof. by induction its. Qed.

(** The symbols of a scan that has a table. *)
Lemma scan_symbols im sc : scan_ok sc -> tool_items im (Tool.cis sc) <> [] -> (forall it, it ∈ tool_items im (Tool.cis sc) -> sample_ok (block_at im it)) ->
  Tool.ss sc <> 0 \/ Tool.ah sc = 0 ->
  Forall is_byte (symbols (scan_events im sc)) /\ 1 <= zlen (symbols (scan_events im sc)) <= 64 * zlen (tool_items im (Tool.cis sc)).
Proof.
  intros OK N S H. unfold scan_events. set (its := tool_items im (Tool.cis sc)) in *. assert (NL : 1 <= zlen its) by (destruct its; [done|]; unfold zlen; cbn [length]; lia).
  destruct (Z.eqb_spec (Tool.ss sc) 0) as [Hs|Hs].
  - destruct H as [|Ha]; [done|]. rewrite Ha. cbn [Z.eqb]. destruct OK as [_ _ SA _ _].
    destruct (dc_symbols (Tool.al sc) im its ltac:(lia) S (start_dc (Tool.cis sc))) as [D1 D2]; [|split; [done | lia]].
    intros i x E. apply elem_of_list_to_map_2, list_elem_of_fmap in E as (c & [= -> ->] & _). lia.
  - destruct (emitted_symbols (scan_full sc) ((fun it => block_code sc (block_at im it)) <$> its)) with (e := 0) (b := @nil Z) as (E1 & E2 & E3).
    + intros e b. by apply (scan_full_limit sc).
    + apply Forall_fmap, Forall_forall. intros it Hit. apply block_code_ok; auto.
    + lia.
    + cbv zeta in *. rewrite zlen_fmap in E2. cbn [Z.ltb Z.compare] in E2. split; [done|]. split; [|lia]. apply E3. right. by destruct its.
Qed.
