(* ===== verification/JpegFile.v ===== *)
(** JpegFile: the segments of a file, as the kernel's [parse] reads them.

    [here] says what the data hold from a place on.  Each segment the tool
    writes is read back: the quantization tables, the frame, the Huffman tables
    and the header of a scan. *)
From Stdlib Require Import ZArith Lia List.
From stdpp Require Import base list gmap strings.
From S2P Require Import Prelude Text Arrays Machine Huff Png Jpeg JpegBits JpegScan JpegFirst JpegRefine JpegBlocks JpegLevels JpegKinds JpegTables.
Open Scope Z_scope.
Import Jpeg.Kernel.

(** * Places in the data *)

Definition here (data : list Z) (at_ : Z) (l : list Z) : Prop := 0 <= at_ /\ drop (Z.to_nat at_) data = l.

Lemma here_app data at_ a l : here data at_ (a ++ l) -> here data (at_ + zlen a) l.
Proof.
  intros [H E]. pose proof (zlen_nonneg a). split; [lia|]. replace (Z.to_nat (at_ + zlen a)) with (Z.to_nat at_ + length a)%nat by (unfold zlen; lia).
  rewrite <- drop_drop, E. by rewrite drop_app_length.
Qed.
Lemma here_cons data at_ b l : here data at_ (b :: l) -> byte_at data at_ = Some b /\ here data (at_ + 1) l.
Proof.
  intros H. split; [|exact (here_app data at_ [b] l H)]. destruct H as [H E]. unfold byte_at. replace (Z.to_nat at_) with (Z.to_nat at_ + 0)%nat by lia. by rewrite <- lookup_drop, E.
Qed.
Lemma here_slice data at_ a l : here data at_ (a ++ l) -> pyslice data at_ (at_ + zlen a) = a.
Proof.
  intros [H E]. pose proof (zlen_nonneg a). rewrite pyslice_nn by lia. rewrite E. replace (Z.to_nat (at_ + zlen a - at_)) with (length a) by (unfold zlen; lia). by rewrite take_app_length.
Qed.
Lemma here_len data at_ b l : here data at_ (b :: l) -> zlen data = at_ + 1 + zlen l.
Proof.
  intros [H E]. assert (L := f_equal length E). rewrite length_drop in L. cbn [length] in L. unfold zlen. lia.
Qed.

Lemma be16_here data at_ n l : 0 <= n < 65536 -> here data at_ (be_bytes 2 n ++ l) -> be16 data at_ = Some n.
Proof.
  intros Hn H. rewrite be_bytes_2 in H. cbn [app] in H. apply here_cons in H as [B1 H]. apply here_cons in H as [B2 _]. unfold be16. rewrite B1, B2. cbn.
  rewrite (Z.mod_small (n / 256)) by (split; [apply Z.div_pos; lia | apply Z.div_lt_upper_bound; lia]).
  rewrite lor_shiftl_add by (try apply Z.mod_pos_bound; lia). f_equal. pose proof (Z.div_mod n 256 ltac:(lia)). change (2 ^ 8) with 256. lia.
Qed.

(** * The loop of [parse] *)

(** The markers that begin a segment with a length. *)
Definition has_body (m : Z) : bool := negb ((m =? 216) || (m =? 1) || between 208 m 215 || (m =? 0)) && negb (m =? 217) && negb (m =? 255).

(** What the loop does with a segment that ends at [next]. *)
Definition handle (fuel : nat) (data : list Z) (marker : Z) (body : list Z) (next : Z) (have_frame : bool) (scans : Z) (d : decoder) : outcome (bool * Z * decoder) :=
  if marker =? 219 then
    q ← read_quant (S (List.length body)) body (quant d);
    parse_loop fuel data next have_frame scans (with_tables d q (dc_tables d, ac_tables d) (restart_interval d) (adobe_transform d))
  else if marker =? 196 then
    t ← read_huffman (S (List.length body)) body (dc_tables d, ac_tables d);
    parse_loop fuel data next have_frame scans (with_tables d (quant d) t (restart_interval d) (adobe_transform d))
  else if marker =? 221 then
    n ← ok_or Png.Kernel.Corrupt (be16 body 0);
    parse_loop fuel data next have_frame scans (with_tables d (quant d) (dc_tables d, ac_tables d) n (adobe_transform d))
  else if (marker =? 238) && (12 <=? zlen body) && zeqb_list (pyslice body 0 5) (lit "Adobe") then
    parse_loop fuel data next have_frame scans (with_tables d (quant d) (dc_tables d, ac_tables d) (restart_interval d) (Some (zat body 11)))
  else if between 192 marker 194 then
    if have_frame then Err Png.Kernel.Unsupported else d ← read_frame body (marker =? 194) d; parse_loop fuel data next true scans d
  else if (marker =? 195) || between 197 marker 199 || between 201 marker 203 || between 205 marker 207 then Err Png.Kernel.Unsupported
  else if marker =? 218 then
    if negb have_frame then Err Png.Kernel.Corrupt else '(end_, d) ← decode_scan data d body next; parse_loop fuel data end_ have_frame (scans + 1) d
  else parse_loop fuel data next have_frame scans d.

Lemma skip_none p data at_ b l : here data at_ (b :: l) -> p b = false -> skip_while p data at_ = at_.
Proof. intros [H E] P. unfold skip_while. rewrite E. cbn [span]. rewrite P. lia. Qed.
Lemma skip_one p data at_ a b l : here data at_ (a :: b :: l) -> p a = true -> p b = false -> skip_while p data at_ = at_ + 1.
Proof. intros [H E] P Q. unfold skip_while. rewrite E. cbn [span]. rewrite P, Q. lia. Qed.

Lemma parse_segment fuel data at_ m body rest hf n d : here data at_ (255 :: m :: be_bytes 2 (2 + zlen body) ++ body ++ rest) -> 2 + zlen body < 65536 ->
  has_body m = true -> parse_loop (S fuel) data at_ hf n d = handle fuel data m body (at_ + 4 + zlen body) hf n d /\ here data (at_ + 4 + zlen body) rest.
Proof.
  intros H HL HM. pose proof (zlen_nonneg body). apply andb_prop in HM as [[M1%negb_true_iff M2%negb_true_iff]%andb_prop M3%negb_true_iff].
  pose proof H as HA. apply here_cons in H as [_ H]. pose proof H as HB. apply here_cons in H as [B1 H]. pose proof (be16_here _ _ (2 + zlen body) _ ltac:(lia) H) as B2.
  pose proof (here_len _ _ _ _ HB) as LD. rewrite !zlen_app, zlen_be_bytes in LD. pose proof (zlen_nonneg rest).
  apply here_app in H. rewrite zlen_be_bytes in H. change (Z.of_nat 2) with 2 in *. pose proof (here_slice _ _ _ _ H) as SL. apply here_app in H.
  split; [|by replace (at_ + 4 + zlen body) with (at_ + 1 + 1 + 2 + zlen body) by lia].
  cbn [parse_loop]. rewrite (skip_none (fun b => negb (b =? 255)) data at_ 255 _ HA) by done. rewrite (skip_one (fun b => b =? 255) data at_ 255 m _ HA) by done.
  rewrite B1. replace (at_ + 4 + zlen body) with (at_ + 1 + 1 + (2 + zlen body)) by lia. cbv zeta. rewrite M1, M2, B2. cbn [ok_or]. rewrite ok_bind.
  assert (TL : ((2 + zlen body <? 2) || (zlen data <? at_ + 1 + 1 + (2 + zlen body))) = false) by (rewrite (proj2 (Z.ltb_ge (2 + zlen body) 2)), (proj2 (Z.ltb_ge (zlen data) _)) by lia; done).
  replace (at_ + 1 + 1 + 2 + zlen body) with (at_ + 1 + 1 + (2 + zlen body)) in SL by lia. rewrite TL, SL. done.
Qed.

(** * Huffman tables *)

Lemma read_dht cls cnt vals kt dc ac : (cls = 0 \/ cls = 16) -> word_counts cnt vals -> Huff.Kernel.build cnt vals = Some kt ->
  read_huffman (S (length ([cls] ++ cnt ++ vals))) ([cls] ++ cnt ++ vals) (dc, ac) = Ok (if cls =? 0 then (<[0%nat := kt]> dc, ac) else (dc, <[0%nat := kt]> ac)).
Proof.
  intros HC [WL _ WC _ _ _] EK. set (body := [cls] ++ cnt ++ vals). pose proof (zlen_nonneg vals).
  assert (LB : zlen body = 17 + zlen vals) by (unfold body; rewrite !zlen_app, WL; change (zlen [cls]) with 1; lia).
  assert (S1 : pyslice body 1 17 = cnt) by (unfold body; rewrite pyslice_app_r by (change (zlen [cls]) with 1; lia); change (zlen [cls]) with 1; rewrite pyslice_app_l by lia; by apply pyslice_full).
  assert (S2 : pyslice body 17 (17 + zsum cnt) = vals).
  { unfold body. rewrite pyslice_app_r by (change (zlen [cls]) with 1; lia). change (zlen [cls]) with 1. rewrite pyslice_app_r by lia. rewrite WL. change (17 - 1 - 16) with 0. apply pyslice_full. lia. }
  assert (S3 : drop (Z.to_nat (17 + zsum cnt)) body = []) by (apply drop_ge; unfold zlen in *; lia).
  destruct (length body) as [|f] eqn:EL; [unfold zlen in LB; lia|]. cbn [read_huffman]. rewrite (proj2 (Z.leb_le 17 (zlen body))) by lia.
  rewrite S1, S2, S3. change (zat body 0) with cls. rewrite (proj2 (Z.ltb_ge (zlen body) (17 + zsum cnt))) by lia. rewrite EK.
  destruct HC as [-> | ->]; done.
Qed.

(** * The header of a scan *)

(** The kernel's component for one of the tool's. *)
Record same_comp (c : Tool.comp) (k : component) : Prop := SameComp {
  sm_id : cid k = Tool.id c;
  sm_factors : h k = Tool.h c /\ v k = Tool.v c;
  sm_table : tq k = Tool.tq c;
  sm_blocks : blocks_w k = Tool.blocks_w c /\ blocks_h k = Tool.blocks_h c;
  sm_real : real_w k = Tool.real_w c /\ real_h k = Tool.real_h c
}.

(** The number of the first block of a component. *)
Definition base (im : Tool.image) (i : Z) : Z := zsum ((fun c => Tool.blocks_w c * Tool.blocks_h c) <$> take (Z.to_nat i) (Tool.comps im)).

Record framed (im : Tool.image) (cs : list component) : Prop := Framed {
  fr_len : length cs = length (Tool.comps im);
  fr_comp : forall i c, at_slot (Tool.comps im) i = Some c -> exists k, at_slot cs i = Some k /\ same_comp c k /\ coefficient_offset k = 64 * base im i
}.

Definition mark (slot : Z) (cs : list component) : list component := alter (fun c => set_tables c 0 0) (Z.to_nat slot) cs.
(** The components of the scan take the first tables. *)
Definition marked (cis : list Z) (cs : list component) : list component := foldl (fun cs slot => mark slot cs) cs cis.

Lemma at_slot_mark cs slot i k : 0 <= slot -> at_slot cs i = Some k -> at_slot (mark slot cs) i = Some (if i =? slot then set_tables k 0 0 else k).
Proof.
  unfold at_slot, mark. destruct (Z.ltb_spec i 0); [done|]. intros Hs E. rewrite list_lookup_alter. destruct (Z.eqb_spec i slot) as [->|N].
  - rewrite decide_True by done. by rewrite E.
  - by rewrite decide_False by lia.
Qed.
Lemma at_slot_marked cis cs i k : Forall (fun ci => 0 <= ci) cis -> at_slot cs i = Some k ->
  exists k', at_slot (marked cis cs) i = Some k' /\ (k' = k /\ i ∉ cis \/ k' = set_tables k 0 0 /\ i ∈ cis).
Proof.
  intros F. revert cs k. induction F as [|ci cis Hci F IH]; intros cs k E; [exists k; split; [done|]; left; split; [done | apply not_elem_of_nil]|].
  cbn [marked foldl]. destruct (IH (mark ci cs) _ (at_slot_mark cs ci i k Hci E)) as (k' & E' & H). exists k'. split; [done|]. destruct (Z.eqb_spec i ci) as [->|N].
  - right. split; [by destruct H as [[-> _]|[-> _]] | constructor].
  - destruct H as [[-> H]|[-> H]]; [left | right]; split; try done; [by apply not_elem_of_cons | by constructor].
Qed.
Lemma length_marked cis cs : length (marked cis cs) = length cs.
Proof. revert cs. induction cis as [|ci cis IH]; intros cs; [done|]. cbn [marked foldl]. fold (marked cis (mark ci cs)). rewrite IH. apply length_alter. Qed.
Lemma cids_mark slot cs : cid <$> mark slot cs = cid <$> cs.
Proof. apply list_eq. intros j. unfold mark. rewrite !list_lookup_fmap, list_lookup_alter. case_decide; [|done]. subst; by destruct (cs !! _). Qed.

Lemma framed_marked im cis cs : Forall (fun ci => 0 <= ci) cis -> framed im cs -> framed im (marked cis cs).
Proof.
  intros F [L H]. split; [by rewrite length_marked|]. intros i c E. destruct (H i c E) as (k & EK & [] & O). destruct (at_slot_marked cis cs i k F EK) as (k' & E' & [[-> _]|[-> _]]).
  - exists k. split_and!; done.
  - exists (set_tables k 0 0). split_and!; done.
Qed.

Lemma find_slot_ids cs cs' id : cid <$> cs = cid <$> cs' -> find_slot cs id = find_slot cs' id.
Proof.
  revert cs'. induction cs as [|c cs IH]; intros [|c' cs'] E; try done. cbn [fmap list_fmap find_slot] in *. injection E as E1 E2. rewrite E1. by rewrite (IH cs' E2).
Qed.
Lemma find_slot_at cs i k : NoDup (cid <$> cs) -> at_slot cs i = Some k -> find_slot cs (cid k) = Some i.
Proof.
  unfold at_slot. destruct (Z.ltb_spec i 0) as [|Hi]; [done|]. rewrite <- (Z2Nat.id i Hi) at 2. generalize (Z.to_nat i) as n. clear i Hi. induction cs as [|c cs IH]; intros n N E; [done|].
  cbn [fmap list_fmap] in N. apply NoDup_cons in N as [N1 N]. cbn [find_slot]. destruct n as [|n]; cbn [lookup list_lookup] in E.
  - injection E as ->. rewrite Z.eqb_refl. done.
  - rewrite (proj2 (Z.eqb_neq (cid c) (cid k))); [rewrite (IH n N E); cbn; f_equal; lia|]. intros EQ. apply N1. rewrite EQ. apply list_elem_of_fmap_2. by eapply list_elem_of_lookup_2.
Qed.

Definition id_of (im : Tool.image) (ci : Z) : Z := match at_slot (Tool.comps im) ci with Some c => Tool.id c | None => 0 end.
Definition id_pairs (im : Tool.image) (cis : list Z) : list Z := concat ((fun ci => [id_of im ci; 0]) <$> cis).
Definition scan_header (im : Tool.image) (sc : Tool.spec) : list Z :=
  [zlen (Tool.cis sc)] ++ id_pairs im (Tool.cis sc) ++ [Tool.ss sc; Tool.se sc; Z.lor (Z.shiftl (Tool.ah sc) 4) (Tool.al sc)].

Lemma zlen_id_pairs im cis : zlen (id_pairs im cis) = 2 * zlen cis.
Proof. induction cis as [|ci cis IH]; [done|]. unfold id_pairs in *. cbn [fmap list_fmap concat]. rewrite zlen_app, IH. unfold zlen. cbn [length]. lia. Qed.
Lemma id_pairs_at im cis n ci : cis !! n = Some ci -> id_pairs im cis !! (2 * n)%nat = Some (id_of im ci) /\ id_pairs im cis !! (S (2 * n))%nat = Some 0.
Proof.
  revert n. induction cis as [|c cis IH]; intros [|n] E; try done; cbn [lookup list_lookup] in E; [by injection E as ->|].
  destruct (IH n E) as [H1 H2]. replace (2 * S n)%nat with (S (S (2 * n))) by lia. done.
Qed.

Section scan_header.
Context (im : Tool.image) (sc : Tool.spec) (cs : list component).
#[warnings="-notation-for-abbreviation"] Local Notation cis := (Tool.cis sc).
Hypothesis ok : scan_ok sc.
Hypothesis frame : framed im cs.
Hypothesis ids : NoDup (Tool.id <$> Tool.comps im).
Hypothesis slots : forall ci, ci ∈ cis -> exists c, at_slot (Tool.comps im) ci = Some c.

Lemma slots_nonneg : Forall (fun ci => 0 <= ci) cis.
Proof. apply Forall_forall. intros ci Hci. destruct (slots ci Hci) as (c & E). unfold at_slot in E. destruct (Z.ltb_spec ci 0); [done | lia]. Qed.

Lemma frame_ids : cid <$> cs = Tool.id <$> Tool.comps im.
Proof.
  destruct frame as [L H]. apply list_eq. intros i. rewrite !list_lookup_fmap. destruct (Tool.comps im !! i) as [c|] eqn:E.
  - destruct (H (Z.of_nat i) c) as (k & EK & [] & _); [unfold at_slot; rewrite (proj2 (Z.ltb_ge _ 0)), Nat2Z.id by lia; done|].
    unfold at_slot in EK. rewrite (proj2 (Z.ltb_ge _ 0)), Nat2Z.id in EK by lia. rewrite EK. cbn. by f_equal.
  - apply lookup_ge_None in E. rewrite (proj2 (lookup_ge_None cs i)) by lia. done.
Qed.

Lemma header_at i x : 0 <= i -> scan_header im sc !! Z.to_nat i = Some x -> index (scan_header im sc) i = Ok x.
Proof. intros Hi E. unfold index. rewrite (proj2 (Z.ltb_ge i 0)), E by lia. done. Qed.

Lemma header_pair n ci : cis !! n = Some ci -> index (scan_header im sc) (1 + Z.of_nat n * 2) = Ok (id_of im ci) /\ index (scan_header im sc) (2 + Z.of_nat n * 2) = Ok 0.
Proof.
  intros E. destruct (id_pairs_at im cis n ci E) as [H1 H2]. pose proof (zlen_id_pairs im cis) as LP. pose proof (lookup_lt_Some _ _ _ E). unfold zlen in LP.
  split; apply header_at; try lia; unfold scan_header; rewrite (lookup_app_r [_]) by (cbn [length]; lia); cbn [length]; rewrite lookup_app_l by lia.
  - by replace (Z.to_nat (1 + Z.of_nat n * 2) - 1)%nat with (2 * n)%nat by lia.
  - by replace (Z.to_nat (2 + Z.of_nat n * 2) - 1)%nat with (S (2 * n)) by lia.
Qed.

Lemma header_band : let n := zlen cis in index (scan_header im sc) (1 + n * 2) = Ok (Tool.ss sc) /\ index (scan_header im sc) (2 + n * 2) = Ok (Tool.se sc)
  /\ index (scan_header im sc) (3 + n * 2) = Ok (Z.lor (Z.shiftl (Tool.ah sc) 4) (Tool.al sc)).
Proof.
  cbv zeta. pose proof (zlen_id_pairs im cis) as LP. unfold zlen in *. set (n := length cis) in *.
  split_and!; apply header_at; try lia; unfold scan_header; rewrite (lookup_app_r [_]) by (cbn [length]; lia); cbn [length]; rewrite lookup_app_r by lia.
  - by replace (Z.to_nat (1 + Z.of_nat n * 2) - 1 - length (id_pairs im cis))%nat with 0%nat by lia.
  - by replace (Z.to_nat (2 + Z.of_nat n * 2) - 1 - length (id_pairs im cis))%nat with 1%nat by lia.
  - by replace (Z.to_nat (3 + Z.of_nat n * 2) - 1 - length (id_pairs im cis))%nat with 2%nat by lia.
Qed.

Lemma select_step n ci : cis !! n = Some ci -> select (scan_header im sc) (marked (take n cis) cs, take n cis) (Z.of_nat n) = Ok (marked (take (S n) cis) cs, take (S n) cis).
Proof.
  intros E. destruct (header_pair n ci E) as [I1 I2]. unfold select. rewrite I1, ok_bind, I2, ok_bind. destruct (slots ci ltac:(by eapply list_elem_of_lookup_2)) as (c & EC).
  destruct frame as [_ H]. destruct (H ci c EC) as (k & EK & SK & _). unfold id_of. rewrite EC. destruct SK as [ID _ _ _ _]. rewrite <- ID.
  assert (CI : cid <$> marked (take n cis) cs = cid <$> cs).
  { generalize (take n cis) as l. intros l. generalize cs. induction l as [|x l IH]; intros cs'; [done|]. cbn [marked foldl]. fold (marked l (mark x cs')). by rewrite IH, cids_mark. }
  rewrite (find_slot_ids _ cs), (find_slot_at cs ci k) by (done || rewrite frame_ids; done). cbn [ok_or]. rewrite ok_bind. rewrite (take_S_r _ _ _ E). unfold marked. rewrite foldl_app. done.
Qed.

Lemma select_all : foldK (select (scan_header im sc)) (cs, []) (pyrange 0 (zlen cis)) = Ok (marked cis cs, cis).
Proof.
  assert (G : forall n, (n <= length cis)%nat -> foldK (select (scan_header im sc)) (cs, []) (pyrange 0 (Z.of_nat n)) = Ok (marked (take n cis) cs, take n cis)).
  { induction n as [|n IH]; intros Hn; [done|]. rewrite Nat2Z.inj_succ, <- Z.add_1_r, pyrange_snoc, foldK_app, IH, ok_bind by lia.
    destruct (lookup_lt_is_Some_2 cis n ltac:(lia)) as (ci & E). cbn [foldK]. rewrite (select_step n ci E). done. }
  unfold zlen. rewrite G by lia. by rewrite firstn_all.
Qed.

Lemma approx_parts : Z.shiftr (Z.lor (Z.shiftl (Tool.ah sc) 4) (Tool.al sc)) 4 = Tool.ah sc /\ Z.land (Z.lor (Z.shiftl (Tool.ah sc) 4) (Tool.al sc)) 15 = Tool.al sc.
Proof.
  destruct ok as [_ _ SA _ SR]. rewrite lor_shiftl_add by (change (2 ^ 4) with 16; lia). rewrite <- Z.shiftl_mul_pow2 by lia. apply symbol_parts; [|lia].
  destruct (Z.eq_dec (Tool.ah sc) 0); lia.
Qed.

(** The header selects the scan. *)
Lemma scan_selected data d co data_start : components d = cs -> coefficients d = Some co -> cis <> [] -> zlen cis <= zlen cs ->
  decode_scan data d (scan_header im sc) data_start =
    ('(end_, cs', co') ← decode_scan_blocks data d co (marked cis cs) cis (Params (Tool.ss sc) (Tool.se sc) (Tool.ah sc) (Tool.al sc)) data_start;
     Ok (end_, with_scan d cs' co')).
Proof.
  intros EC ECO NE LE. destruct ok as [SB _ _ _ _]. unfold decode_scan. change (scan_header im sc !! 0%nat) with (Some (zlen cis)). cbn [ok_or]. rewrite ok_bind, EC.
  assert (1 <= zlen cis) by (destruct cis; [done|]; unfold zlen; cbn [length]; lia).
  assert (LH : zlen (scan_header im sc) = 1 + zlen cis * 2 + 3) by (unfold scan_header; rewrite !zlen_app, zlen_id_pairs; change (zlen [_]) with 1; change (zlen [_; _; _]) with 3; lia).
  rewrite (proj2 (Z.eqb_neq (zlen cis) 0)), (proj2 (Z.ltb_ge (zlen cs) _)), LH, (proj2 (Z.ltb_ge (1 + zlen cis * 2 + 3) _)) by lia. cbn [orb].
  rewrite select_all, ok_bind. cbn beta iota. destruct header_band as (B1 & B2 & B3). cbv zeta in B1, B2, B3. rewrite B1, ok_bind, B2, ok_bind, B3, ok_bind.
  rewrite (proj2 (Z.ltb_ge 63 (Tool.ss sc))), (proj2 (Z.ltb_ge 63 (Tool.se sc))), (proj2 (Z.ltb_ge (Tool.se sc) (Tool.ss sc))) by lia. cbn [orb].
  rewrite ECO. cbn [ok_or]. rewrite ok_bind. destruct approx_parts as [-> ->]. done.
Qed.
End scan_header.
