(* ===== verification/JpegWhole.v ===== *)
(** JpegWhole: all the scans of a picture.

    The blocks of a picture are numbered as the kernel keeps them ([num]).
    [level] is what the scans done so far tell of a coefficient, and
    [progress] that the kernel's blocks hold just that.  A scan the levels are
    [ready] for keeps it so ([scan_progress]). *)
From Stdlib Require Import ZArith Lia List.
From stdpp Require Import base list gmap strings.
From S2P Require Import Prelude Text Arrays Machine Huff Png Jpeg JpegBits JpegScan JpegFirst JpegRefine JpegBlocks JpegLevels JpegKinds JpegTables JpegFile.
Open Scope Z_scope.
Import Jpeg.Kernel.

(** * The end of a scan *)

Definition is_marker (m : Z) : Prop := m <> 0 /\ m <> 255 /\ ~ (208 <= m <= 215).

Lemma next_marker_at raw : forall fuel data at_ m rest, is_marker m -> here data at_ (stuffed raw ++ 255 :: m :: rest) -> zlen (stuffed raw) < Z.of_nat fuel ->
  next_marker fuel data at_ = at_ + zlen (stuffed raw).
Proof.
  intros fuel data at_ m rest (M1 & M2 & M3). revert fuel at_. induction raw as [|b raw IH]; intros fuel at_ H HF.
  - destruct fuel as [|fuel]; [change (zlen (stuffed [])) with 0 in HF; lia|]. cbn [stuffed fmap list_fmap concat app] in H. apply here_cons in H as [B1 H]. apply here_cons in H as [B2 _].
    cbn [next_marker]. rewrite B1, B2. rewrite (proj2 (Z.eqb_neq m 0)), (proj2 (Z.eqb_neq m 255)) by done.
    assert (R : ((208 <=? m) && (m <=? 215)) = false) by (destruct (Z.leb_spec 208 m), (Z.leb_spec m 215); try done; lia). rewrite R. cbn [Z.eqb Pos.eqb negb andb]. change (zlen (stuffed [])) with 0. lia.
  - rewrite stuffed_cons in H, HF |- *. rewrite <- app_assoc in H. rewrite zlen_app in HF |- *.
    assert (ST : forall x l at_, here data at_ (x :: l ++ 255 :: m :: rest) -> exists y, byte_at data (at_ + 1) = Some y).
    { intros x l a HH. apply here_cons in HH as [_ HH]. destruct l as [|y l]; apply here_cons in HH as [E _]; eauto. }
    pose proof (zlen_nonneg (stuffed raw)). destruct (Z.eqb_spec b 255) as [->|NB]; cbn [app] in H.
    + change (zlen [255; 0]) with 2 in *. destruct fuel as [|[|fuel]]; [lia | lia|]. pose proof (here_cons _ _ _ _ H) as [B1 H1]. pose proof (here_cons _ _ _ _ H1) as [B2 H2].
      destruct (ST 0 (stuffed raw) (at_ + 1) H1) as (y & B3). cbn [next_marker]. rewrite B1, B2. cbn [Z.eqb Pos.eqb negb andb]. rewrite B3.
      rewrite (IH fuel (at_ + 1 + 1)) by (done || lia). lia.
    + change (zlen [b]) with 1 in *. destruct fuel as [|fuel]; [lia|]. pose proof (here_cons _ _ _ _ H) as [B1 H1]. destruct (ST b (stuffed raw) at_ H) as (y & B2).
      cbn [next_marker]. rewrite B1, B2, (proj2 (Z.eqb_neq b 255)) by done. cbn [andb]. rewrite (IH fuel (at_ + 1)) by (done || lia). lia.
Qed.

Lemma scan_end data start raw m rest r p : here data start (stuffed raw ++ 255 :: m :: rest) -> is_marker m -> reads start raw r p ->
  next_marker (length data) data (position r) = start + zlen (stuffed raw).
Proof.
  intros H M [RP RC (q & EQ & HQ) _]. assert (Q : exists q, position r = offset start raw q /\ 0 <= q <= zlen raw).
  { pose proof (zlen_nonneg raw). destruct (hit_marker r); destruct HQ; [exists (zlen raw) | exists q]; (split; [done | lia]). }
  destruct Q as (q' & EP & HQ'). unfold offset in EP. set (n := Z.to_nat q') in *. rewrite <- (take_drop n raw), stuffed_app, <- app_assoc in H. pose proof (here_app _ _ _ _ H) as H'.
  rewrite <- (take_drop n raw) at 1. rewrite stuffed_app, zlen_app, EP.
  assert (LD : zlen data = start + zlen (stuffed (take n raw)) + zlen (stuffed (drop n raw)) + 2 + zlen rest).
  { destruct H as [H0 HD]. assert (L := f_equal zlen HD). rewrite !zlen_app in L. unfold zlen in L at 1. rewrite length_drop in L. unfold zlen in *. cbn [length] in L. lia. }
  rewrite (next_marker_at (drop n raw) _ data _ m rest M H') by (unfold zlen in *; pose proof (zlen_nonneg (stuffed (take n raw))); destruct H; lia). lia.
Qed.

(** * The numbers of the blocks *)

Definition valid_item (im : Tool.image) (it : item) : Prop :=
  exists c, at_slot (Tool.comps im) it.1 = Some c /\ 0 <= it.2.1 < Tool.blocks_h c /\ 0 <= it.2.2 < Tool.blocks_w c.
(** Whether a block is in the picture, not only in the last units. *)
Definition real (im : Tool.image) (it : item) : bool :=
  match at_slot (Tool.comps im) it.1 with Some c => (it.2.1 <? Tool.real_h c) && (it.2.2 <? Tool.real_w c) | None => false end.
Definition num (im : Tool.image) (it : item) : Z :=
  base im it.1 + match at_slot (Tool.comps im) it.1 with Some c => it.2.1 * Tool.blocks_w c + it.2.2 | None => 0 end.
Definition total (im : Tool.image) : Z := base im (zlen (Tool.comps im)).

Section numbers.
Context (im : Tool.image).
Hypothesis sizes : forall i c, at_slot (Tool.comps im) i = Some c -> measured im c.

Lemma base_next i c : at_slot (Tool.comps im) i = Some c -> base im (i + 1) = base im i + Tool.blocks_w c * Tool.blocks_h c.
Proof.
  unfold at_slot, base. destruct (Z.ltb_spec i 0) as [|Hi]; [done|]. intros E. replace (Z.to_nat (i + 1)) with (S (Z.to_nat i)) by lia.
  rewrite (take_S_r _ _ _ E), fmap_app, zsum_app. cbn [fmap list_fmap]. rewrite zsum_cons. change (zsum []) with 0. lia.
Qed.

Lemma base_mono i j : 0 <= i <= j -> base im i <= base im j.
Proof.
  intros H. replace j with (i + Z.of_nat (Z.to_nat (j - i))) by lia. generalize (Z.to_nat (j - i)) as n. induction n as [|n IH]; [by rewrite Z.add_0_r|].
  rewrite Nat2Z.inj_succ, <- Z.add_1_r, Z.add_assoc. etransitivity; [exact IH|]. set (m := i + Z.of_nat n) in *. destruct (at_slot (Tool.comps im) m) as [c|] eqn:E.
  - rewrite (base_next m c E). destruct (sizes m c E) as [_ _ _ [R1 R2] _ _]. nia.
  - unfold at_slot in E. rewrite (proj2 (Z.ltb_ge m 0)) in E by lia. apply lookup_ge_None in E. unfold base. rewrite !take_ge by lia. done.
Qed.

Lemma num_range it : valid_item im it -> exists c, at_slot (Tool.comps im) it.1 = Some c /\ 0 <= it.1 < zlen (Tool.comps im) /\ base im it.1 <= num im it < base im (it.1 + 1).
Proof.
  intros (c & E & Hr & Hc). exists c. split; [done|]. pose proof (base_next _ _ E) as BN. unfold num. rewrite E. split; [|nia].
  unfold at_slot in E. destruct (Z.ltb_spec it.1 0); [done|]. apply lookup_lt_Some in E. unfold zlen. lia.
Qed.
Lemma base_0 : base im 0 = 0.
Proof. done. Qed.
Lemma num_bounds it : valid_item im it -> 0 <= num im it < total im.
Proof.
  intros V. destruct (num_range it V) as (c & E & R & B). pose proof (base_mono 0 it.1 ltac:(lia)). rewrite base_0 in *. pose proof (base_mono (it.1 + 1) (zlen (Tool.comps im)) ltac:(lia)). unfold total. lia.
Qed.
Lemma num_inj a b : valid_item im a -> valid_item im b -> num im a = num im b -> a = b.
Proof.
  intros VA VB EN. destruct (num_range a VA) as (c & EA & RA & BA), (num_range b VB) as (c' & EB & RB & BB).
  assert (ES : a.1 = b.1).
  { destruct (Z.lt_total a.1 b.1) as [L|[|L]]; [|done|]; [pose proof (base_mono (a.1 + 1) b.1 ltac:(lia)) | pose proof (base_mono (b.1 + 1) a.1 ltac:(lia))]; lia. }
  destruct a as [s [r1 c1]], b as [s' [r2 c2]]. cbn [fst snd] in *. subst s'. rewrite EB in EA. injection EA as ->. destruct VA as (k & K & HR & HC), VB as (k' & K' & HR' & HC').
  cbn [fst snd] in *. rewrite EB in K, K'. injection K as <-. injection K' as <-. unfold num in EN. cbn [fst snd] in EN. rewrite EB in EN.
  assert (r1 = r2 /\ c1 = c2) as [-> ->]; [|done]. destruct (tile r1 c1 (Tool.blocks_w c)), (tile r2 c2 (Tool.blocks_w c)); try lia.
  assert (E : r1 * Tool.blocks_w c + c1 = r2 * Tool.blocks_w c + c2) by lia. rewrite E in *. split; congruence.
Qed.
End numbers.

(** * Levels *)

Definition covered (sc : Tool.spec) (slot : Z) (in_picture : bool) : bool :=
  existsb (Z.eqb slot) (Tool.cis sc) && ((1 <? zlen (Tool.cis sc)) || in_picture).
Definition raise (slot : Z) (in_picture : bool) (k : Z) (l : option Z) (sc : Tool.spec) : option Z :=
  if covered sc slot in_picture && between (Tool.ss sc) k (Tool.se sc) then Some (Tool.al sc) else l.
(** How many bits of a coefficient are missing after the scans [done]. *)
Definition level (done : list Tool.spec) (slot : Z) (in_picture : bool) (k : Z) : option Z := foldl (raise slot in_picture k) None done.

(** The scan begins where the scans before left its band. *)
Definition ready (n : Z) (done : list Tool.spec) (sc : Tool.spec) : bool :=
  forallb (fun slot => forallb (fun in_picture => forallb (fun k =>
    negb (covered sc slot in_picture && between (Tool.ss sc) k (Tool.se sc))
    || bool_decide (level done slot in_picture k = if Tool.ah sc =? 0 then None else Some (Tool.ah sc)))
    (pyrange 0 64)) [true; false]) (pyrange 0 n).
Fixpoint plan (n : Z) (done todo : list Tool.spec) : bool :=
  match todo with [] => true | sc :: todo => ready n done sc && plan n (done ++ [sc]) todo end.

Lemma ready_level n done sc slot b k : ready n done sc = true -> 0 <= slot < n -> 0 <= k < 64 -> covered sc slot b = true -> Tool.ss sc <= k <= Tool.se sc ->
  level done slot b k = if Tool.ah sc =? 0 then None else Some (Tool.ah sc).
Proof.
  intros R Hs Hk HC HB. unfold ready in R. rewrite forallb_forall in R. specialize (R slot ltac:(apply list_elem_of_In, elem_of_pyrange; done)).
  rewrite forallb_forall in R. specialize (R b ltac:(destruct b; cbn; tauto)). rewrite forallb_forall in R. specialize (R k ltac:(apply list_elem_of_In, elem_of_pyrange; done)).
  cbn beta in R. rewrite HC, (proj2 (between_spec _ _ _) HB) in R. by apply bool_decide_eq_true_1 in R.
Qed.
Lemma level_snoc done sc slot b k : level (done ++ [sc]) slot b k = raise slot b k (level done slot b k) sc.
Proof. unfold level. by rewrite foldl_app. Qed.

(** A picture the tool can write and the kernel can read. *)
Record picture (im : Tool.image) : Prop := Picture {
  pi_count : zlen (Tool.comps im) = 1 \/ zlen (Tool.comps im) = 3;
  pi_sizes : forall i c, at_slot (Tool.comps im) i = Some c -> measured im c;
  pi_ids : NoDup (Tool.id <$> Tool.comps im);
  pi_inside : forall i c, at_slot (Tool.comps im) i = Some c -> 1 <= Tool.real_w c /\ 1 <= Tool.real_h c;
  pi_samples : forall it, valid_item im it -> sample_ok (block_at im it);
  pi_units : 1 <= Tool.mcus_x im /\ 1 <= Tool.mcus_y im;
  pi_few : 64 * total im < 9227464
}.

(** What the kernel keeps after the scans [done]. *)
Definition progress (im : Tool.image) (done : list Tool.spec) (co : list Z) : Prop :=
  zlen co = 64 * total im /\ forall it, valid_item im it -> held (level done it.1 (real im it)) (block_at im it) (cell co (num im it)).

Lemma held_ext lv lv' block b : (forall k, 0 <= k < 64 -> lv k = lv' k) -> held lv block b -> held lv' block b.
Proof. intros E [L H]. split; [done|]. intros k Hk. rewrite H, E by done. done. Qed.

Section scan.
Context (im : Tool.image) (sc : Tool.spec).
#[warnings="-notation-for-abbreviation"] Local Notation cis := (Tool.cis sc).
#[warnings="-notation-for-abbreviation"] Local Notation items := (tool_items im cis).
Hypothesis pic : picture im.
Hypothesis some : cis <> [].
Hypothesis nodup : NoDup cis.
Hypothesis slots : forall ci, ci ∈ cis -> 0 <= ci < zlen (Tool.comps im).

Lemma slot_comp ci : 0 <= ci < zlen (Tool.comps im) -> exists c, at_slot (Tool.comps im) ci = Some c /\ measured im c.
Proof.
  intros H. unfold zlen in H. destruct (lookup_lt_is_Some_2 (Tool.comps im) (Z.to_nat ci) ltac:(lia)) as (c & E). assert (EA : at_slot (Tool.comps im) ci = Some c) by (unfold at_slot; by rewrite (proj2 (Z.ltb_ge ci 0)) by lia).
  exists c. split; [done|]. by apply (pi_sizes im pic ci).
Qed.
Lemma scan_slots ci : ci ∈ cis -> exists c, at_slot (Tool.comps im) ci = Some c /\ measured im c.
Proof. intros H. by apply slot_comp, slots. Qed.

Lemma items_valid it : it ∈ items -> valid_item im it.
Proof. destruct it as [ci [row col]]. intros H. destruct (tool_item im cis some scan_slots ci row col H) as (c & _ & E & _ & Hr & Hc & _). by exists c. Qed.

Lemma in_scan slot : existsb (Z.eqb slot) cis = true <-> slot ∈ cis.
Proof. rewrite existsb_exists. setoid_rewrite Z.eqb_eq. setoid_rewrite <- list_elem_of_In. split; [intros (x & Hx & ->); done | eauto]. Qed.

Lemma items_covered it : valid_item im it -> it ∈ items <-> covered sc it.1 (real im it) = true.
Proof.
  intros (c & E & Hr & Hc). unfold tool_items. rewrite elem_of_items by (apply (tool_geo_pos im cis scan_slots)). destruct it as [slot [row col]]. cbn [fst snd] in *.
  unfold covers, covered. rewrite andb_true_iff, in_scan. split.
  - intros [Hs H]. split; [done|]. destruct (1 <? zlen cis) eqn:E1; [done|]. unfold tool_units in H. rewrite E1 in H. destruct (lone cis some E1) as (ci & EC). rewrite EC in H, Hs. apply list_elem_of_singleton in Hs as ->.
    cbn [head mbind option_bind] in H. rewrite E in H. cbn [fst snd] in H. unfold real. cbn [fst snd]. rewrite E. cbn [orb]. rewrite andb_true_iff, !Z.ltb_lt. lia.
  - intros [Hs H]. split; [done|]. unfold tool_units. destruct (1 <? zlen cis) eqn:E1; cbn [fst snd].
    + unfold tool_geo. rewrite E. cbn [fst snd]. destruct (pi_sizes im pic slot c E) as [_ W HH _ _ _]. rewrite <- W, <- HH. done.
    + destruct (lone cis some E1) as (ci & EC). rewrite EC in Hs |- *. apply list_elem_of_singleton in Hs as ->. cbn [head mbind option_bind]. rewrite E. cbn [fst snd].
      cbn [orb] in H. unfold real in H. cbn [fst snd] in H. rewrite E, andb_true_iff, !Z.ltb_lt in H. lia.
Qed.

Lemma nums_nodup : NoDup (num im <$> items).
Proof.
  apply NoDup_fmap_2_strong; [|apply nodup_items; [done | apply (tool_geo_pos im cis scan_slots)]].
  intros a b Ha Hb. apply num_inj; [apply (pi_sizes im pic) | by apply items_valid | by apply items_valid].
Qed.
Lemma items_few : zlen items <= total im.
Proof.
  assert (I : num im <$> items ⊆+ pyrange 0 (total im)).
  { apply NoDup_submseteq; [apply nums_nodup|]. intros n (it & -> & Hit)%list_elem_of_fmap. apply elem_of_pyrange, num_bounds; [apply (pi_sizes im pic) | by apply items_valid]. }
  apply submseteq_length in I. rewrite length_fmap in I. assert (0 <= total im) by (rewrite <- (base_0 im); apply base_mono; [apply (pi_sizes im pic)|]; pose proof (zlen_nonneg (Tool.comps im)); lia).
  pose proof (zlen_pyrange 0 (total im) ltac:(lia)) as LP. unfold zlen in LP. unfold zlen. lia.
Qed.
Lemma items_some : items <> [].
Proof.
  assert (exists ci, ci ∈ cis) as (ci & Hci) by (clear -some; destruct cis as [|ci l]; [done|]; exists ci; constructor). destruct (scan_slots ci Hci) as (c & E & M).
  assert (V : valid_item im (ci, (0, 0))) by (exists c; split; [done|]; destruct (pi_inside im pic ci c E); destruct M as [_ _ _ [R1 R2] _ _]; cbn; lia).
  apply items_covered in V. intros EN. rewrite EN in V. apply (not_elem_of_nil (ci, (0, 0))), V.
  unfold covered, real. cbn [fst snd]. rewrite (proj2 (in_scan ci) Hci), E. destruct (pi_inside im pic ci c E). rewrite !(proj2 (Z.ltb_lt 0 _)) by lia. by rewrite orb_true_r.
Qed.

(** ** The kernel's blocks *)

Lemma framed_shape cs cs' : shape cs = shape cs' -> framed im cs -> framed im cs'.
Proof.
  intros S [L H]. split; [rewrite <- L; apply (f_equal length) in S; unfold shape in S; by rewrite !length_fmap in S|].
  intros i c E. destruct (H i c E) as (k & EK & [I1 [I2 I3] I4 [I5 I6] [I7 I8]] & O). destruct (shape_slot cs cs' i k S EK) as (k' & EK' & SK). exists k'. split; [done|].
  split; [split|].
  - rewrite <- I1. exact (eq_sym (f_equal cid SK)).
  - rewrite <- I2, <- I3. split; [exact (eq_sym (f_equal h SK)) | exact (eq_sym (f_equal v SK))].
  - rewrite <- I4. exact (eq_sym (f_equal tq SK)).
  - rewrite <- I5, <- I6. split; [exact (eq_sym (f_equal blocks_w SK)) | exact (eq_sym (f_equal blocks_h SK))].
  - rewrite <- I7, <- I8. split; [exact (eq_sym (f_equal real_w SK)) | exact (eq_sym (f_equal real_h SK))].
  - rewrite <- O. exact (eq_sym (f_equal coefficient_offset SK)).
Qed.

Lemma scan_items_ext geo geo' units : (forall slot, slot ∈ cis -> geo slot = geo' slot) -> scan_items geo cis units = scan_items geo' cis units.
Proof.
  intros H. unfold scan_items. f_equal. apply list_fmap_ext. intros i [y x] _. unfold unit_items. f_equal. apply list_fmap_ext. intros j slot Hs. rewrite H by (by eapply list_elem_of_lookup_2). done.
Qed.

(** The walk of the kernel over the blocks of the scan. *)
Section walk.
Context (data : list Z) (d : decoder) (params : scan_params) (cs0 : list component).
Hypothesis frame0 : framed im cs0.
Hypothesis no_restart : restart_interval d = 0.
Hypothesis units : mcus_x d = Tool.mcus_x im /\ mcus_y d = Tool.mcus_y im.

Lemma framed_comp ci : ci ∈ cis -> exists c k, at_slot (Tool.comps im) ci = Some c /\ measured im c /\ at_slot cs0 ci = Some k /\ same_comp c k /\ coefficient_offset k = 64 * base im ci.
Proof. intros H. destruct (scan_slots ci H) as (c & E & ME). destruct frame0 as [_ F]. destruct (F ci c E) as (k & EK & SK & O). by exists c, k. Qed.

Lemma scan_walk st : shape (Kernel.cs st) = shape cs0 ->
  ('(units_x, units_y) ← Ok (if 1 <? zlen cis then (mcus_x d, mcus_y d) else match head cis ≫= at_slot cs0 with Some c => (real_w c, real_h c) | None => (0, 0) end);
   foldK (scan_unit data d params cis) st (Tool.grid units_y units_x)) = foldK (block_step data d params) st items.
Proof.
  intros S. assert (SL : forall slot, slot ∈ cis -> exists c, at_slot cs0 slot = Some c) by (intros slot Hs; destruct (framed_comp slot Hs) as (c & k & _ & _ & E & _); eauto).
  assert (G : forall slot, slot ∈ cis -> kernel_geo cs0 slot = tool_geo im slot).
  { intros slot Hs. destruct (framed_comp slot Hs) as (c & k & E & _ & EK & [_ [F1 F2] _ _ _] & _). unfold kernel_geo, tool_geo. rewrite E, EK. by rewrite F1, F2. }
  unfold tool_items. rewrite <- (scan_items_ext _ _ _ G). rewrite ok_bind. unfold tool_units. destruct units as [UX UY]. destruct (1 <? zlen cis) eqn:E1.
  - rewrite UX, UY. by apply (units_items data d params cs0 cis no_restart SL (Tool.mcus_y im, Tool.mcus_x im)).
  - destruct (lone cis some E1) as (ci & EC). destruct (framed_comp ci ltac:(rewrite EC; constructor)) as (c & k & E & _ & EK & [_ _ _ _ [R1 R2]] & _).
    replace (head cis) with (Some ci) by (by rewrite EC). cbn [mbind option_bind]. rewrite E, EK, R1, R2.
    by apply (units_items data d params cs0 cis no_restart SL (Tool.real_h c, Tool.real_w c)).
Qed.

(** Once the blocks are decoded, the scan ends at the next marker. *)
Lemma scan_finished co start raw m rest st p : here data start (stuffed raw ++ 255 :: m :: rest) -> is_marker m ->
  foldK (block_step data d params) (Scanning (Reader start 0 0 false 0) cs0 co (restart_interval d)) items = Ok st -> reads start raw (rd st) p ->
  decode_scan_blocks data d co cs0 cis params start = Ok (start + zlen (stuffed raw), Kernel.cs st, coefs st).
Proof.
  intros H M E RD. assert (exists ci, ci ∈ cis /\ head cis = Some ci /\ cis !! 0%nat = Some ci) as (ci & Hci & EH & E0) by (clear -some; destruct cis as [|ci l]; [done|]; exists ci; split; [constructor | done]).
  destruct (framed_comp ci Hci) as (c & k & _ & _ & EK & _). unfold decode_scan_blocks. rewrite (index_slot cis 0 ci), ok_bind, (index_slot _ _ _ EK), ok_bind by done.
  pose proof (scan_walk (Scanning (Reader start 0 0 false 0) cs0 co (restart_interval d)) eq_refl) as W. rewrite EH in W. change (Some ci ≫= at_slot cs0) with (at_slot cs0 ci) in W. rewrite EK, ok_bind, E in W.
  destruct (if 1 <? zlen cis then _ else _) as [ux uy]. rewrite W, ok_bind. by rewrite (scan_end data start raw m rest (rd st) p).
Qed.
End walk.

Section kernel.
Context (data : list Z) (d : decoder) (cs : list component) (done : list Tool.spec) (co : list Z) (start : Z) (raw : list Z) (m : Z) (rest : list Z).
Context (tool : option (gmap Z (Z * Z))) (dc ac : huffman).
Hypothesis ok : scan_ok sc.
Hypothesis prepared : ready (zlen (Tool.comps im)) done sc = true.
Hypothesis frame : framed im cs.
Hypothesis prog : progressive d = true.
Hypothesis no_restart : restart_interval d = 0.
Hypothesis units : mcus_x d = Tool.mcus_x im /\ mcus_y d = Tool.mcus_y im.
Hypothesis dc_table : index (dc_tables d) 0 = Ok dc.
Hypothesis ac_table : index (ac_tables d) 0 = Ok ac.
Hypothesis so_far : progress im done co.
Hypothesis C : coded data start raw (255 :: m :: rest).
Hypothesis M : is_marker m.
Hypothesis A : agree tool (if Tool.ss sc =? 0 then dc else ac).
Hypothesis V : Tool.ss sc <> 0 \/ Tool.ah sc = 0 -> Huff.Kernel.valid (if Tool.ss sc =? 0 then dc else ac) = true.
Hypothesis U : upcoming raw tool 0 (scan_events im sc).
#[warnings="-notation-for-abbreviation"] Local Notation params := (Params (Tool.ss sc) (Tool.se sc) (Tool.ah sc) (Tool.al sc)).
#[warnings="-notation-for-abbreviation"] Local Notation cs0 := (marked cis cs).

Lemma slots_pos : Forall (fun ci => 0 <= ci) cis.
Proof. apply Forall_forall. intros ci H. destruct (slots ci H). done. Qed.

Lemma marked_comp ci : ci ∈ cis -> exists c k, at_slot (Tool.comps im) ci = Some c /\ measured im c /\ at_slot cs0 ci = Some (set_tables k 0 0) /\ same_comp c k /\ coefficient_offset k = 64 * base im ci.
Proof.
  intros H. destruct (scan_slots ci H) as (c & E & ME). destruct frame as [_ F]. destruct (F ci c E) as (k & EK & SK & O).
  destruct (at_slot_marked cis cs ci k slots_pos EK) as (k' & E' & [[_ N]|[-> _]]); [done|]. by exists c, k.
Qed.

Lemma scan_progress : exists cs' co', decode_scan_blocks data d co cs0 cis params start = Ok (start + zlen (stuffed raw), cs', co')
  /\ framed im cs' /\ progress im (done ++ [sc]) co'.
Proof.
  destruct so_far as [LC PR]. pose proof (pi_sizes im pic) as SZ.
  assert (HC : forall it, valid_item im it -> has_cell co (num im it)) by (intros it Hit; pose proof (num_bounds im SZ it Hit); unfold has_cell; rewrite LC; lia).
  destruct (scan_decodes im sc ok some scan_slots (fun it Hit => pi_samples im pic it (items_valid it Hit)) data start raw (255 :: m :: rest) tool dc ac
    (fun it => level done it.1 (real im it)) (fun it => cell co (num im it)) C A V) with (d := d) (cs0 := cs0) (num := num im) (co := co) (until := restart_interval d)
    as (st & E & SH & LN & F & K & (p & RD)); try done.
  - intros it Hit. by apply PR, items_valid.
  - intros it k Hit Hk. pose proof (items_valid it Hit) as Vi. destruct (num_range im it Vi) as (c & _ & HS & _). destruct ok. apply (ready_level (zlen (Tool.comps im)) done sc); try done; [lia|]. by apply items_covered.
  - intros [ci [row col]] Hit. destruct (tool_item im cis some scan_slots ci row col Hit) as (c & Hci & EC & _). destruct (marked_comp ci Hci) as (c' & k & EC' & _ & EK & [_ _ _ [B1 _] _] & O).
    rewrite EC in EC'. injection EC' as <-. exists (set_tables k 0 0). split_and!; [done | done | done|]. cbn [coefficient_offset set_tables blocks_w fst snd]. unfold num. cbn [fst snd]. rewrite EC, O, B1. lia.
  - apply nums_nodup.
  - intros ci c Hci EC. destruct (marked_comp ci Hci) as (c' & k & _ & _ & EK & _). rewrite EK in EC. by injection EC as <-.
  - intros it Hit. split; [by apply HC, items_valid | done].
  - exists (Kernel.cs st), (coefs st). split_and!.
    + destruct C as [C1 C2 _ _]. by apply (scan_finished data d params cs0 (framed_marked im cis cs slots_pos frame) no_restart units co start raw m rest st p).
    + apply (framed_shape cs0); [done|]. apply framed_marked; [apply slots_pos | done].
    + split; [by rewrite LN|]. intros it Vi. destruct (num_range im it Vi) as (c & _ & HS & _). destruct (decide (it ∈ items)) as [Hit|Hit].
      * rewrite (F it Hit). apply (held_ext (raised (Tool.ss sc) (Tool.se sc) (Tool.al sc) (level done it.1 (real im it)))).
        -- intros k Hk. rewrite level_snoc. unfold raise, raised. by rewrite (proj1 (items_covered it Vi) Hit).
        -- destruct ok as [SB _ _ _ _]. apply held_raised; [by apply PR | lia | lia].
      * rewrite K; [|by apply HC|].
        -- apply (held_ext (level done it.1 (real im it))); [|by apply PR]. intros k Hk. rewrite level_snoc. unfold raise.
           destruct (covered sc it.1 (real im it)) eqn:EV; [|done]. exfalso. by apply Hit, items_covered.
        -- intros (it' & EN & Hit')%list_elem_of_fmap. apply num_inj in EN as ->; [done | done | done | by apply items_valid].
Qed.
End kernel.
End scan.
