(* ===== verification/JpegWrite.v ===== *)
(** JpegWrite: the file the tool writes, and the kernel's [parse] of it. *)
From Stdlib Require Import ZArith Lia List.
From stdpp Require Import base list gmap strings.
From S2P Require Import Prelude Text Arrays Machine Huff Png Jpeg JpegBits JpegScan JpegFirst JpegRefine JpegBlocks JpegLevels JpegKinds JpegTables JpegFile JpegWhole.
Open Scope Z_scope.
Import Jpeg.Kernel.

(** * The bytes of a scan *)

Definition segment (m : Z) (body : list Z) : list Z := 255 :: m :: be_bytes 2 (2 + zlen body) ++ body.
Definition has_table (sc : Tool.spec) : bool := negb ((Tool.ss sc =? 0) && negb (Tool.ah sc =? 0)).
Definition table_class (sc : Tool.spec) : Z := if Tool.ss sc =? 0 then 0 else 16.

(** The table of a scan and the bytes of its segment. *)
Definition table_written (im : Tool.image) (sc : Tool.spec) (table : option (gmap Z (Z * Z))) (dht : list Z) : Prop :=
  if has_table sc then exists cnt vals t kt, table = Some t /\ table_for (scan_events im sc) cnt vals t kt /\ dht = segment 196 ([table_class sc] ++ cnt ++ vals)
  else table = None /\ dht = [].

Definition written (im : Tool.image) (sc : Tool.spec) (seg : list Z) : Prop :=
  exists table dht raw, seg = dht ++ segment 218 (scan_header im sc) ++ stuffed raw /\ table_written im sc table dht
    /\ Forall is_byte raw /\ upcoming raw table 0 (scan_events im sc).

Lemma zlen_segment m body : zlen (segment m body) = 4 + zlen body.
Proof. unfold segment. unfold zlen. cbn [length]. rewrite length_app. assert (L := zlen_be_bytes 2 (2 + Z.of_nat (length body))). unfold zlen in L. lia. Qed.

Section build.
Context (im : Tool.image) (sc : Tool.spec).
#[warnings="-notation-for-abbreviation"] Local Notation cis := (Tool.cis sc).
Hypothesis pic : picture im.
Hypothesis ok : scan_ok sc.
Hypothesis some : cis <> [].
Hypothesis nodup : NoDup cis.
Hypothesis slots : forall ci, ci ∈ cis -> 0 <= ci < zlen (Tool.comps im).
Hypothesis bytes : Forall (fun c => is_byte (Tool.id c)) (Tool.comps im).

Lemma build_ids : mapM_py (fun ci => c ← pyget (Tool.comps im) ci; bytes_of [Tool.id c; 0]) cis = Ret ((fun ci => [id_of im ci; 0]) <$> cis).
Proof.
  apply mapM_py_ret. intros ci Hci. destruct (slot_comp im pic ci (slots ci Hci)) as (c & E & _). rewrite (at_slot_pyget _ _ _ E), py_ret_bind. unfold id_of. rewrite E.
  apply bytes_of_ret. constructor; [|constructor; [unfold is_byte; lia | constructor]]. rewrite Forall_forall in bytes. apply bytes.
  unfold at_slot in E. destruct (ci <? 0); [done|]. by eapply list_elem_of_lookup_2.
Qed.

Lemma scan_samples it : it ∈ tool_items im cis -> sample_ok (block_at im it).
Proof. intros H. by apply (pi_samples im pic), (items_valid im sc pic some slots). Qed.

Lemma zlen_cis : 1 <= zlen cis <= zlen (Tool.comps im).
Proof.
  split; [clear -some; destruct cis; [done|]; unfold zlen; cbn [length]; lia|].
  assert (I : cis ⊆+ pyrange 0 (zlen (Tool.comps im))) by (apply NoDup_submseteq; [done|]; intros ci Hci; apply elem_of_pyrange; auto).
  apply submseteq_length in I. pose proof (zlen_pyrange 0 (zlen (Tool.comps im)) (zlen_nonneg _)) as L. unfold zlen in L, I |- *. lia.
Qed.

Lemma table_step out : exists table dht, table_written im sc table dht /\ (exists bs, mapM_py (Tool.event_bits table) (scan_events im sc) = Ret bs /\ Forall is_bit (concat bs)) /\
  (if (Tool.ss sc =? 0) && negb (Tool.ah sc =? 0) then Ret (None, out)
   else
     freq ← foldM Tool.count_event (replicate 256 0) (scan_events im sc);
     '(bits, values) ← Huff.Tool.optimal_table freq;
     table ← Huff.Tool.code_table bits values;
     b ← bytes_of bits;
     vs ← bytes_of values;
     let payload := [if Tool.ss sc =? 0 then 0 else 16] ++ b ++ vs in
     len ← pack_be 2 (2 + zlen payload);
     Ret (Some table, out ++ [255; 196] ++ len ++ payload)) = Ret (table, out ++ dht).
Proof.
  unfold table_written, has_table. destruct ((Tool.ss sc =? 0) && negb (Tool.ah sc =? 0)) eqn:ET; cbn [negb].
  - exists None, []. split; [done|]. split; [|by rewrite app_nil_r]. apply raw_events_bits. apply andb_true_iff in ET as [E1 E2]. unfold scan_events. rewrite E1. destruct (Tool.ah sc =? 0); [done|]. apply dc_bits_symbols.
  - destruct (scan_symbols im sc ok (items_some im sc pic some slots) scan_samples) as [S1 S2].
    { destruct (Z.eq_dec (Tool.ss sc) 0) as [E|]; [right | by left]. rewrite E in ET. cbn [Z.eqb andb] in ET. apply negb_false_iff, Z.eqb_eq in ET. done. }
    pose proof (items_few im sc pic some nodup slots). pose proof (pi_few im pic). destruct (chosen_table (scan_events im sc) S1 ltac:(lia)) as (freq & cnt & vals & t & kt & E1 & E2 & TF).
    exists (Some t), (segment 196 ([table_class sc] ++ cnt ++ vals)). pose proof TF as [[WL WB WC _ _ WV] TT _ _ CO TW]. split; [by exists cnt, vals, t, kt|]. split; [by apply events_bits|].
    rewrite E1, py_ret_bind, E2, py_ret_bind. cbn beta iota. rewrite TT, py_ret_bind, (bytes_of_ret cnt WB), py_ret_bind, (bytes_of_ret vals WV), py_ret_bind. cbv zeta.
    assert (LP : zlen ([table_class sc] ++ cnt ++ vals) = 17 + zlen vals) by (rewrite !zlen_app, WL; change (zlen [_]) with 1; lia). destruct CO as [_ _ _ CS _ _ _ _]. pose proof (zlen_nonneg vals).
    fold (table_class sc). rewrite pack_be_ret, py_ret_bind by (rewrite LP; change (256 ^ Z.of_nat 2) with 65536; lia). done.
Qed.

(** [build_scan] appends the bytes of the scan. *)
Lemma build_scan_written out : exists seg, written im sc seg /\ Tool.build_scan im sc out = Ret (out ++ seg).
Proof.
  unfold Tool.build_scan. rewrite (run_events im sc ok some (scan_slots im sc pic slots) scan_samples), py_ret_bind.
  destruct (table_step out) as (table & dht & TW & (bs & EB & FB) & ET). cbv zeta in ET. rewrite ET, py_ret_bind. cbn beta iota. rewrite build_ids, py_ret_bind.
  pose proof zlen_cis as LC. pose proof ok as [SB _ SA _ SR]. destruct (pack_bits_raw (concat bs) FB) as (raw & EP & FR & BG).
  exists (dht ++ segment 218 (scan_header im sc) ++ stuffed raw). split.
  - exists table, dht, raw. split_and!; try done. by exists bs.
  - pose proof (pi_count im pic).
    rewrite (bytes_of_ret [zlen cis]), py_ret_bind by (constructor; [unfold is_byte; lia | constructor]).
    assert (AB : is_byte (Z.lor (Z.shiftl (Tool.ah sc) 4) (Tool.al sc))).
    { unfold is_byte. rewrite lor_shiftl_add by (change (2 ^ 4) with 16; lia). change (2 ^ 4) with 16. destruct (Z.eq_dec (Tool.ah sc) 0); [lia|]. specialize (SR ltac:(done)). lia. }
    rewrite bytes_of_ret, py_ret_bind by (repeat (apply Forall_cons; split); [unfold is_byte; lia | unfold is_byte; lia | done | constructor]).
    cbv zeta. fold (id_pairs im cis). change ([zlen cis] ++ id_pairs im cis ++ [Tool.ss sc; Tool.se sc; Z.lor (Z.shiftl (Tool.ah sc) 4) (Tool.al sc)]) with (scan_header im sc).
    assert (LH : zlen (scan_header im sc) = 4 + 2 * zlen cis) by (unfold scan_header; rewrite !zlen_app, zlen_id_pairs; change (zlen [_]) with 1; change (zlen [_; _; _]) with 3; lia).
    rewrite pack_be_ret, py_ret_bind by (rewrite LH; change (256 ^ Z.of_nat 2) with 65536; lia). rewrite EB, py_ret_bind, EP. f_equal. rewrite <- !app_assoc. done.
Qed.
End build.

(** * Reading a scan *)

(** The decoder after the frame and the scans [done]. *)
Record scanned (im : Tool.image) (w hh : Z) (q : list (list Z)) (done : list Tool.spec) (d : decoder) : Prop := Scanned {
  sn_size : width d = w /\ height d = hh;
  sn_quant : quant d = q;
  sn_adobe : adobe_transform d = None;
  sn_prog : progressive d = true;
  sn_restart : restart_interval d = 0;
  sn_units : mcus_x d = Tool.mcus_x im /\ mcus_y d = Tool.mcus_y im;
  sn_frame : framed im (components d);
  sn_tables : length (dc_tables d) = 4%nat /\ length (ac_tables d) = 4%nat;
  sn_coefs : exists co, coefficients d = Some co /\ progress im done co
}.

Lemma index_first {A} (l : list A) : l <> [] -> exists a, index l 0 = Ok a.
Proof. destruct l as [|a l]; [done | by exists a]. Qed.

Lemma index_insert {A} (l : list A) a : l <> [] -> index (<[0%nat := a]> l) 0 = Ok a.
Proof. by destruct l. Qed.

Section parse.
Context (im : Tool.image) (sc : Tool.spec) (w hh : Z) (q : list (list Z)) (done : list Tool.spec).
#[warnings="-notation-for-abbreviation"] Local Notation cis := (Tool.cis sc).
Hypothesis pic : picture im.
Hypothesis ok : scan_ok sc.
Hypothesis some : cis <> [].
Hypothesis nodup : NoDup cis.
Hypothesis slots : forall ci, ci ∈ cis -> 0 <= ci < zlen (Tool.comps im).
Hypothesis prepared : ready (zlen (Tool.comps im)) done sc = true.

(** The table of the scan is in its place. *)
Definition table_read (table : option (gmap Z (Z * Z))) (d : decoder) : Prop :=
  exists dc ac, index (dc_tables d) 0 = Ok dc /\ index (ac_tables d) 0 = Ok ac /\ agree table (if Tool.ss sc =? 0 then dc else ac)
    /\ (has_table sc = true -> Huff.Kernel.valid (if Tool.ss sc =? 0 then dc else ac) = true).

Lemma parse_table fuel data at_ n d table dht rest : scanned im w hh q done d -> table_written im sc table dht -> here data at_ (dht ++ rest) -> zlen data - at_ < Z.of_nat fuel ->
  exists fuel' d', parse_loop fuel data at_ true n d = parse_loop fuel' data (at_ + zlen dht) true n d' /\ scanned im w hh q done d' /\ table_read table d'
    /\ zlen data - (at_ + zlen dht) < Z.of_nat fuel'.
Proof.
  intros S TW H HF. pose proof S as [S1 S2 S3 S4 S5 S6 S7 [L1 L2] S9]. unfold table_written in TW. destruct (has_table sc) eqn:ET.
  - destruct TW as (cnt & vals & t & kt & -> & TF & ->). pose proof TF as [WC _ KB KV CO _]. pose proof WC as [WL _ WS _ _ _]. pose proof CO as [_ _ _ CS _ _ _ _].
    assert (LB : zlen ([table_class sc] ++ cnt ++ vals) = 17 + zlen vals) by (rewrite !zlen_app, WL; change (zlen [_]) with 1; lia). pose proof (zlen_nonneg vals).
    set (body := [table_class sc] ++ cnt ++ vals) in *. unfold segment in H. rewrite <- !app_comm_cons, <- app_assoc in H.
    pose proof (here_len _ _ _ _ H) as LD. match type of LD with _ = _ + zlen ?l => pose proof (zlen_nonneg l) end. destruct fuel as [|fuel]; [lia|].
    destruct (parse_segment fuel data at_ 196 body rest true n d H) as [E H']; [lia | done|]. rewrite E, zlen_segment. unfold handle. cbn [Z.eqb Pos.eqb].
    unfold body. rewrite (read_dht (table_class sc) cnt vals kt), ok_bind; [|unfold table_class; destruct (_ =? 0); tauto | done | done]. fold body.
    exists fuel. eexists. split; [rewrite Z.add_assoc; reflexivity|]. destruct S1 as [S1 S1'].
    assert (N1 : dc_tables d <> []) by (intros EN; rewrite EN in L1; done). assert (N2 : ac_tables d <> []) by (intros EN; rewrite EN in L2; done).
    destruct (index_first _ N1) as (dc0 & I1), (index_first _ N2) as (ac0 & I2).
    assert (AG : agree (Some t) kt) by (by exists cnt, vals). unfold table_class. destruct (Z.eqb_spec (Tool.ss sc) 0) as [E0|E0]; cbn [Z.eqb].
    + split_and!; [split; cbn; rewrite ?length_insert; try done; by split | | lia]. exists kt, ac0. rewrite (proj2 (Z.eqb_eq _ 0) E0). cbn [dc_tables ac_tables with_tables fst snd]. rewrite index_insert by done. done.
    + split_and!; [split; cbn; rewrite ?length_insert; try done; by split | | lia]. exists dc0, kt. rewrite (proj2 (Z.eqb_neq _ 0) E0). cbn [dc_tables ac_tables with_tables fst snd]. rewrite index_insert by done. done.
  - destruct TW as [-> ->]. change (zlen []) with 0. rewrite Z.add_0_r. exists fuel, d. split_and!; try done.
    destruct (index_first (dc_tables d)) as (dc0 & I1); [intros EN; rewrite EN in L1; done|]. destruct (index_first (ac_tables d)) as (ac0 & I2); [intros EN; rewrite EN in L2; done|].
    exists dc0, ac0. split_and!; try done. by rewrite ET.
Qed.

(** The kernel reads the scan the tool wrote. *)
Lemma parse_scan fuel data at_ n d seg m rest : scanned im w hh q done d -> written im sc seg -> is_marker m -> here data at_ (seg ++ 255 :: m :: rest) -> zlen data - at_ < Z.of_nat fuel ->
  exists fuel' d', parse_loop fuel data at_ true n d = parse_loop fuel' data (at_ + zlen seg) true (n + 1) d' /\ scanned im w hh q (done ++ [sc]) d'
    /\ zlen data - (at_ + zlen seg) < Z.of_nat fuel'.
Proof.
  intros S (table & dht & raw & -> & TW & FR & U) M H HF. rewrite <- !app_assoc in H.
  destruct (parse_table fuel data at_ n d table dht _ S TW H HF) as (f1 & d1 & E1 & S1 & (dc & ac & I1 & I2 & AG & VA) & F1). apply here_app in H.
  set (at1 := at_ + zlen dht) in *. set (hdr := scan_header im sc) in *. unfold segment in H. rewrite <- !app_comm_cons, <- app_assoc in H.
  pose proof (here_len _ _ _ _ H) as LD. match type of LD with _ = _ + zlen ?l => pose proof (zlen_nonneg l) end. destruct f1 as [|f1]; [lia|].
  assert (LC : 1 <= zlen cis <= zlen (Tool.comps im)) by (by apply zlen_cis). pose proof (pi_count im pic).
  assert (LH : zlen hdr = 4 + 2 * zlen cis) by (unfold hdr, scan_header; rewrite !zlen_app, zlen_id_pairs; change (zlen [_]) with 1; change (zlen [_; _; _]) with 3; lia).
  destruct (parse_segment f1 data at1 218 hdr _ true n d1 H) as [E2 H2]; [lia | done|]. unfold handle in E2. cbn [Z.eqb Pos.eqb Z.leb Z.compare Pos.compare Pos.compare_cont negb andb orb between] in E2.
  pose proof S1 as [[W1 W2] Q AD PR RI UN FM TB (co & CO & PG)].
  assert (SL : forall ci, ci ∈ cis -> exists c, at_slot (Tool.comps im) ci = Some c) by (intros ci Hci; destruct (slot_comp im pic ci (slots ci Hci)) as (c & E & _); eauto).
  assert (LF : zlen cis <= zlen (components d1)) by (destruct FM as [LL _]; unfold zlen in *; lia).
  unfold hdr in E2. rewrite (scan_selected im sc (components d1) ok FM (pi_ids im pic) SL data d1 co _ eq_refl CO some LF) in E2.
  set (start := at1 + 4 + zlen (scan_header im sc)) in *. assert (CD : coded data start raw (255 :: m :: rest)) by (destruct H2 as [HP HD]; split; [done | done | by destruct M | done]).
  assert (VA' : Tool.ss sc <> 0 \/ Tool.ah sc = 0 -> Huff.Kernel.valid (if Tool.ss sc =? 0 then dc else ac) = true).
  { intros HV. apply VA. unfold has_table. destruct HV as [HV|HV]; [by rewrite (proj2 (Z.eqb_neq _ 0) HV) | rewrite HV; by rewrite andb_false_r]. }
  destruct (scan_progress im sc pic some nodup slots data d1 (components d1) done co start raw m rest table dc ac ok prepared FM PR RI UN I1 I2 PG CD M AG VA' U) as (cs' & co' & ES & FM' & PG').
  rewrite ES, !ok_bind in E2. cbn beta iota in E2. exists f1, (with_scan d1 cs' co'). rewrite !zlen_app, zlen_segment. fold hdr.
  assert (EP : at_ + (zlen dht + (4 + zlen hdr + zlen (stuffed raw))) = start + zlen (stuffed raw)) by (unfold start, at1, hdr; lia). rewrite EP, E1, E2. split; [done|]. split; [|unfold start, hdr in *; pose proof (zlen_nonneg (stuffed raw)); lia].
  split; try done. by exists co'.
Qed.
End parse.

(** * All the scans *)

Section scans.
Context (im : Tool.image) (w hh : Z) (q : list (list Z)).
Hypothesis pic : picture im.
Hypothesis bytes : Forall (fun c => is_byte (Tool.id c)) (Tool.comps im).

(** A scan of the picture. *)
Record scan_for (sc : Tool.spec) : Prop := ScanFor {
  sf_ok : scan_ok sc;
  sf_some : Tool.cis sc <> [];
  sf_nodup : NoDup (Tool.cis sc);
  sf_slots : forall ci, ci ∈ Tool.cis sc -> 0 <= ci < zlen (Tool.comps im)
}.

Lemma build_scans todo : Forall scan_for todo -> forall out, exists segs, Forall2 (written im) todo segs
  /\ foldM (fun result sc => Tool.build_scan im sc result) out todo = Ret (out ++ concat segs).
Proof.
  intros F. induction F as [|sc todo [O1 O2 O3 O4] F IH]; intros out; [exists []; split; [constructor | cbn; by rewrite app_nil_r]|].
  destruct (build_scan_written im sc pic O1 O2 O3 O4 bytes out) as (seg & W & E). destruct (IH (out ++ seg)) as (segs & WS & ES).
  exists (seg :: segs). split; [by constructor|]. cbn [foldM concat]. rewrite E, py_ret_bind, ES. by rewrite app_assoc.
Qed.

Lemma written_marker sc seg : written im sc seg -> exists m l, seg = 255 :: m :: l /\ is_marker m.
Proof.
  intros (table & dht & raw & -> & TW & _). unfold table_written in TW. destruct (has_table sc).
  - destruct TW as (cnt & vals & t & kt & _ & _ & ->). exists 196. eexists. split; [reflexivity|]. unfold is_marker. lia.
  - destruct TW as [_ ->]. exists 218. eexists. split; [reflexivity|]. unfold is_marker. lia.
Qed.

Lemma parse_scans todo segs : Forall2 (written im) todo segs -> Forall scan_for todo -> forall done, plan (zlen (Tool.comps im)) done todo = true ->
  forall fuel data at_ n d, scanned im w hh q done d -> here data at_ (concat segs ++ [255; 217]) -> zlen data - at_ < Z.of_nat fuel ->
  exists d', parse_loop fuel data at_ true n d = Ok (true, n + zlen todo, d') /\ scanned im w hh q (done ++ todo) d'.
Proof.
  intros W. induction W as [|sc seg todo segs WS W IH]; intros F done P fuel data at_ n d S H HF.
  - cbn [concat app] in H. change (zlen []) with 0. rewrite Z.add_0_r, app_nil_r. exists d. split; [|done]. pose proof (here_len _ _ _ _ H) as LD. change (zlen [217]) with 1 in LD. destruct fuel as [|fuel]; [lia|].
    pose proof (here_cons _ _ _ _ H) as [B1 H1]. pose proof (here_cons _ _ _ _ H1) as [B2 _]. cbn [parse_loop].
    rewrite (skip_none (fun b => negb (b =? 255)) data at_ 255 _ H) by done. rewrite (skip_one (fun b => b =? 255) data at_ 255 217 _ H) by done. rewrite B2. done.
  - apply Forall_cons in F as [[O1 O2 O3 O4] F]. cbn [plan] in P. apply andb_true_iff in P as [P1 P]. cbn [concat] in H. rewrite <- app_assoc in H.
    assert (NX : exists m l, concat segs ++ [255; 217] = 255 :: m :: l /\ is_marker m).
    { destruct W as [|sc' seg' todo' segs' WS' W']; [exists 217, []; split; [done|]; unfold is_marker; lia|]. destruct (written_marker _ _ WS') as (m & l & -> & M). cbn [concat app]. by exists m, ((l ++ concat segs') ++ [255; 217]). }
    destruct NX as (m & l & EN & M). pose proof H as H1. rewrite EN in H1.
    destruct (parse_scan im sc w hh q done pic O1 O2 O3 O4 P1 fuel data at_ n d seg m l S WS M H1 HF) as (f1 & d1 & E1 & S1 & F1). apply here_app in H.
    destruct (IH F (done ++ [sc]) P f1 data (at_ + zlen seg) (n + 1) d1 S1 H F1) as (d2 & E2 & S2). exists d2. rewrite E1, E2. rewrite <- app_assoc in S2. split; [|done]. do 3 f_equal. unfold zlen. cbn [length]. lia.
Qed.
End scans.
