(* ===== verification/JpegFrame.v ===== *)
(** JpegFrame: the quantization tables and the frame of a file. *)
From Stdlib Require Import ZArith Lia List.
From stdpp Require Import base list gmap strings.
From S2P Require Import Prelude Text Arrays Machine Huff Png Jpeg JpegBits JpegScan JpegFirst JpegRefine JpegBlocks JpegLevels JpegKinds JpegTables JpegFile JpegWhole JpegWrite.
Open Scope Z_scope.
Import Jpeg.Kernel.

(** * Quantization tables *)

(** Number [i] of a table, in zigzag order. *)
Definition quant_value (prec : Z) (bytes : list Z) (i : Z) : Z :=
  if prec =? 0 then zat bytes i else Z.lor (Z.shiftl (zat bytes (2 * i)) 8) (zat bytes (2 * i + 1)).
Definition quant_table (prec : Z) (bytes t : list Z) : Prop := zlen t = 64 /\ forall i, 0 <= i < 64 -> zz t i = quant_value prec bytes i.

Record quant_ok (id prec : Z) (bytes : list Z) : Prop := QuantOk {
  qo_id : 0 <= id <= 3;
  qo_len : prec = 0 /\ zlen bytes = 64 \/ prec = 1 /\ zlen bytes = 128;
  qo_bytes : Forall is_byte bytes
}.

Definition quant_body (id prec : Z) (bytes : list Z) : list Z := [Z.lor (Z.shiftl prec 4) id] ++ bytes.

(** One table of a segment, before [more] of them. *)
Lemma read_quant_step fuel id prec bytes more q : quant_ok id prec bytes -> length q = 4%nat -> Forall (fun t => zlen t = 64) q ->
  exists t, read_quant (S fuel) (quant_body id prec bytes ++ more) q = read_quant fuel more (<[Z.to_nat id := t]> q) /\ quant_table prec bytes t.
Proof.
  intros [HI HL _] LQ FQ. assert (HP : 0 <= prec <= 1) by lia. set (b := Z.lor (Z.shiftl prec 4) id).
  assert (P : Z.shiftr b 4 = prec /\ Z.land b 15 = id) by (unfold b; rewrite lor_shiftl_add by (change (2 ^ 4) with 16; lia); rewrite <- Z.shiftl_mul_pow2 by lia; apply symbol_parts; lia).
  destruct P as [P1 P2]. unfold quant_body. fold b. cbn [app read_quant]. rewrite P1, P2. rewrite (proj2 (Z.ltb_ge 3 id)) by lia. pose proof (zlen_nonneg more).
  assert (LB : zlen bytes = if prec =? 0 then 64 else 128) by (destruct HL as [[-> E]|[-> E]]; cbn [Z.eqb]; lia).
  assert (LC : zlen (b :: bytes ++ more) = 1 + zlen bytes + zlen more) by (rewrite zlen_cons, zlen_app; lia).
  rewrite (proj2 (Z.ltb_ge (zlen (b :: bytes ++ more)) _)) by lia.
  assert (ED : drop (Z.to_nat (1 + if prec =? 0 then 64 else 128)) (b :: bytes ++ more) = more).
  { rewrite <- LB. replace (Z.to_nat (1 + zlen bytes)) with (S (length bytes)) by (unfold zlen; lia). cbn [drop]. apply drop_app_length. }
  rewrite ED. set (value := fun i => if prec =? 0 then zat (b :: bytes ++ more) (1 + i) else Z.lor (Z.shiftl (zat (b :: bytes ++ more) (1 + i * 2)) 8) (zat (b :: bytes ++ more) (2 + i * 2))).
  destruct (lookup_lt_is_Some_2 q (Z.to_nat id) ltac:(lia)) as (t0 & E0). rewrite E0. cbn [default from_option].
  assert (L0 : zlen t0 = 64) by (rewrite Forall_forall in FQ; apply FQ; by eapply list_elem_of_lookup_2).
  destruct (paint_painted 0 63 value t0 L0 ltac:(lia) ltac:(lia)) as [LP PP]. exists (paint 0 63 value t0). split; [done|]. split; [done|].
  intros i Hi. rewrite PP by done. rewrite (proj2 (between_spec 0 i 63)) by lia. unfold value, quant_value.
  assert (ZC : forall j, 0 <= j < zlen bytes -> zat (b :: bytes ++ more) (1 + j) = zat bytes j).
  { intros j Hj. rewrite zat_cons by lia. replace (1 + j - 1) with j by lia. by apply zat_app_l. }
  destruct (prec =? 0); [apply ZC; lia|]. replace (i * 2) with (2 * i) by lia. replace (2 + 2 * i) with (1 + (2 * i + 1)) by lia. rewrite !ZC by lia. done.
Qed.

(** The decoder with its quantization tables only. *)
Definition tables_only (q : list (list Z)) : decoder := with_tables START q (dc_tables START, ac_tables START) 0 None.

Definition item_ok (it : Z * (Z * list Z)) : Prop := quant_ok it.1 it.2.1 it.2.2.
Definition item_body (it : Z * (Z * list Z)) : list Z := quant_body it.1 it.2.1 it.2.2.

Lemma write_dqt_ret it : item_ok it -> Tool.write_dqt it = Ret (segment 219 (item_body it)).
Proof.
  destruct it as [id [prec bytes]]. intros [HI HL HB]. cbn [fst snd] in *. unfold Tool.write_dqt. rewrite pack_be_ret, py_ret_bind by (change (256 ^ Z.of_nat 2) with 65536; lia).
  rewrite bytes_of_ret, py_ret_bind.
  - unfold segment, item_body, quant_body. cbn [fst snd]. f_equal. cbn [app]. do 4 f_equal. unfold zlen. cbn [length]. lia.
  - constructor; [|constructor]. unfold is_byte. rewrite lor_shiftl_add by (change (2 ^ 4) with 16; lia). change (2 ^ 4) with 16. lia.
Qed.

(** The tables of the file are the kernel's. *)
Definition tables_match (its : list (Z * (Z * list Z))) (q : list (list Z)) : Prop :=
  forall id prec bytes, (id, (prec, bytes)) ∈ its -> exists t, q !! Z.to_nat id = Some t /\ quant_table prec bytes t.

Lemma parse_tables its : Forall item_ok its -> NoDup its.*1 -> forall fuel data at_ q rest, length q = 4%nat -> Forall (fun t => zlen t = 64) q ->
  here data at_ (concat ((fun it => segment 219 (item_body it)) <$> its) ++ rest) -> zlen data - at_ < Z.of_nat fuel ->
  exists fuel' q', parse_loop fuel data at_ false 0 (tables_only q) = parse_loop fuel' data (at_ + zlen (concat ((fun it => segment 219 (item_body it)) <$> its))) false 0 (tables_only q')
    /\ length q' = 4%nat /\ Forall (fun t => zlen t = 64) q' /\ tables_match its q' /\ (forall i, (i < 4)%nat -> Z.of_nat i ∉ its.*1 -> q' !! i = q !! i)
    /\ zlen data - (at_ + zlen (concat ((fun it => segment 219 (item_body it)) <$> its))) < Z.of_nat fuel'.
Proof.
  intros F. induction F as [|it its IO F IH]; intros N fuel data at_ q rest LQ FQ H HF.
  - exists fuel, q. cbn [fmap list_fmap concat] in *. change (zlen []) with 0. rewrite Z.add_0_r. split_and!; try done. intros id prec bytes Hx. by apply not_elem_of_nil in Hx.
  - cbn [fmap list_fmap concat] in *. apply NoDup_cons in N as [N1 N]. rewrite <- app_assoc in H. rewrite zlen_app, Z.add_assoc. pose proof H as H0. apply here_app in H.
    destruct (read_quant_step (length (item_body it)) it.1 it.2.1 it.2.2 [] q IO LQ FQ) as (t & ET & QT). rewrite app_nil_r in ET. pose proof IO as [HI HL _].
    assert (LB : zlen (item_body it) <= 129) by (unfold item_body, quant_body; rewrite zlen_app; change (zlen [_]) with 1; lia).
    unfold segment in H0. rewrite <- !app_comm_cons, <- app_assoc in H0. pose proof (here_len _ _ _ _ H0) as LD. match type of LD with _ = _ + zlen ?l => pose proof (zlen_nonneg l) end. destruct fuel as [|fuel]; [lia|].
    destruct (parse_segment fuel data at_ 219 (item_body it) _ false 0 (tables_only q) H0) as [E _]; [lia | done|].
    unfold handle in E. cbn [Z.eqb Pos.eqb] in E. change (quant (tables_only q)) with q in E. fold (item_body it) in ET. assert (EN : read_quant (length (item_body it)) [] (<[Z.to_nat it.1 := t]> q) = Ok (<[Z.to_nat it.1 := t]> q)) by done. rewrite ET, EN, ok_bind in E.
    change (with_tables (tables_only q) (<[Z.to_nat it.1 := t]> q) (dc_tables (tables_only q), ac_tables (tables_only q)) (restart_interval (tables_only q)) (adobe_transform (tables_only q))) with (tables_only (<[Z.to_nat it.1 := t]> q)) in E.
    pose proof (zlen_segment 219 (item_body it)) as LS. rewrite <- Z.add_assoc, <- LS in E.
    destruct (IH N fuel data (at_ + zlen (segment 219 (item_body it))) (<[Z.to_nat it.1 := t]> q) rest) as (f' & q' & E' & L' & F' & M' & K' & HF').
    + by rewrite length_insert.
    + apply Forall_insert; [done|]. by destruct QT.
    + done.
    + pose proof (zlen_nonneg (item_body it)). lia.
    + exists f', q'. rewrite E, E'. split_and!; try done.
      * intros id prec bytes [E1|Hx]%elem_of_cons; [|by apply M']. subst it. cbn [fst snd] in *. exists t. split; [|done].
        rewrite (K' (Z.to_nat id)); [apply list_lookup_insert_eq; lia | lia | by rewrite Z2Nat.id by lia].
      * intros i Hi Ni. apply not_elem_of_cons in Ni as [Ni1 Ni2]. rewrite (K' i Hi Ni2). apply list_lookup_insert_ne. lia.
Qed.

(** * The layout *)

Definition blank (c : Tool.comp) : Tool.comp := Tool.set_blocks c (replicate (Z.to_nat (Tool.blocks_w c * Tool.blocks_h c)) (replicate 64 0)).
(** The sizes of the image are those [layout] gives. *)
Definition laid_out (w hh : Z) (im : Tool.image) : Prop :=
  Tool.layout w hh (Tool.comps im) = Ret (Tool.Image (Tool.mcus_x im) (Tool.mcus_y im) (blank <$> Tool.comps im)).

Definition max_factor (l : list Z) : Z := foldr Z.max 1 l.

Lemma max_factor_pos l : 1 <= max_factor l.
Proof. induction l as [|a l IH]; [done|]. cbn [max_factor foldr]. fold (max_factor l). lia. Qed.
Lemma max_factor_ge l x : x ∈ l -> x <= max_factor l.
Proof. induction 1 as [|x y l _ IH]; cbn [max_factor foldr]; fold (max_factor l); lia. Qed.
Lemma maximum_max l : l <> [] -> Forall (fun x => 1 <= x) l -> Tool.maximum l = Ret (max_factor l).
Proof.
  intros N F. destruct F as [|a l Ha F]; [done|]. cbn [Tool.maximum]. f_equal. cbn [max_factor foldr]. clear N. revert a Ha. induction F as [|b l Hb F IH]; intros a Ha; cbn [foldl foldr]; [lia|]. rewrite IH by lia. lia.
Qed.
Lemma ceil_div_ret a b : 0 < b -> Tool.ceil_div a b = Ret (div_ceil a b).
Proof.
  intros H. unfold Tool.ceil_div, div_ceil. rewrite (proj2 (Z.eqb_neq b 0)) by lia. f_equal. pose proof (Z.div_mod (- a) b ltac:(lia)). pose proof (Z.mod_pos_bound (- a) b ltac:(lia)).
  apply (Z.div_unique_pos _ b _ (b - 1 - (- a) mod b)); nia.
Qed.
Lemma div_ceil_le a b n : 0 < b -> a <= b * n -> div_ceil a b <= n.
Proof. intros Hb H. unfold div_ceil. apply Z.lt_succ_r, Z.div_lt_upper_bound; lia. Qed.
Lemma div_ceil_ge a b : 0 < b -> a <= b * div_ceil a b.
Proof. intros Hb. unfold div_ceil. pose proof (Z.div_mod (a + b - 1) b ltac:(lia)). pose proof (Z.mod_pos_bound (a + b - 1) b ltac:(lia)). lia. Qed.
Lemma div_ceil_pos a b : 0 < b -> 1 <= a -> 1 <= div_ceil a b.
Proof. intros Hb Ha. unfold div_ceil. apply Z.div_le_lower_bound; lia. Qed.

(** A component with the sizes [measure] gives it. *)
Definition measured_comp (w hh mh mv mx my : Z) (c : Tool.comp) : Tool.comp :=
  Tool.Comp (Tool.id c) (Tool.h c) (Tool.v c) (Tool.tq c) (mx * Tool.h c) (my * Tool.v c) (div_ceil (div_ceil (w * Tool.h c) mh) 8) (div_ceil (div_ceil (hh * Tool.v c) mv) 8)
    (replicate (Z.to_nat (mx * Tool.h c * (my * Tool.v c))) (replicate 64 0)).

Lemma layout_ret w hh cs : cs <> [] -> Forall (fun c => 1 <= Tool.h c /\ 1 <= Tool.v c) cs ->
  let mh := max_factor (Tool.h <$> cs) in let mv := max_factor (Tool.v <$> cs) in let mx := div_ceil w (8 * mh) in let my := div_ceil hh (8 * mv) in
  Tool.layout w hh cs = Ret (Tool.Image mx my (measured_comp w hh mh mv mx my <$> cs)).
Proof.
  intros N F. cbv zeta. unfold Tool.layout. pose proof (max_factor_pos (Tool.h <$> cs)) as PH. pose proof (max_factor_pos (Tool.v <$> cs)) as PV.
  rewrite (maximum_max (Tool.h <$> cs)), py_ret_bind; [|by destruct cs|apply Forall_fmap; eapply Forall_impl; [exact F | intros c []; done]].
  rewrite (maximum_max (Tool.v <$> cs)), py_ret_bind; [|by destruct cs|apply Forall_fmap; eapply Forall_impl; [exact F | intros c []; done]].
  set (mh := max_factor (Tool.h <$> cs)) in *. set (mv := max_factor (Tool.v <$> cs)) in *.
  rewrite !ceil_div_ret, !py_ret_bind by lia. set (mx := div_ceil w (8 * mh)). set (my := div_ceil hh (8 * mv)).
  rewrite (mapM_py_ret _ (measured_comp w hh mh mv mx my)); [done|]. intros c _. unfold Tool.measure. rewrite !ceil_div_ret, !py_ret_bind by lia. rewrite !ceil_div_ret, !py_ret_bind by lia. done.
Qed.

Record sized (w hh : Z) (im : Tool.image) : Prop := Sized {
  sd_x : Tool.mcus_x im = div_ceil w (8 * max_factor (Tool.h <$> Tool.comps im));
  sd_y : Tool.mcus_y im = div_ceil hh (8 * max_factor (Tool.v <$> Tool.comps im));
  sd_comp : Forall (fun c => Tool.blocks_w c = Tool.mcus_x im * Tool.h c /\ Tool.blocks_h c = Tool.mcus_y im * Tool.v c
    /\ Tool.real_w c = div_ceil (div_ceil (w * Tool.h c) (max_factor (Tool.h <$> Tool.comps im))) 8
    /\ Tool.real_h c = div_ceil (div_ceil (hh * Tool.v c) (max_factor (Tool.v <$> Tool.comps im))) 8) (Tool.comps im)
}.

Lemma laid_out_sized w hh im : Tool.comps im <> [] -> Forall (fun c => 1 <= Tool.h c /\ 1 <= Tool.v c) (Tool.comps im) -> laid_out w hh im -> sized w hh im.
Proof.
  intros N F. unfold laid_out. rewrite (layout_ret w hh (Tool.comps im) N F). intros E. injection E as E1 E2 E3. split; [done | done|]. apply Forall_forall. intros c Hc. apply list_elem_of_lookup in Hc as (i & Hc).
  assert (EI := f_equal (.!! i) E3). cbn beta in EI. rewrite !list_lookup_fmap, Hc in EI. cbn in EI. injection EI as I1 I2 I3 I4 _. rewrite <- E1, <- E2, <- I1, <- I2, <- I3, <- I4. done.
Qed.

(** A decoded picture the kernel accepts: a lone component is not
    subsampled, and there are few enough blocks for the tool's Huffman codes. *)
Record drawable (w hh : Z) (im : Tool.image) : Prop := Drawable {
  dr_size : 1 <= w <= Png.Kernel.MAX_EDGE /\ 1 <= hh <= Png.Kernel.MAX_EDGE /\ w * hh <= Png.Kernel.MAX_PIXELS;
  dr_count : zlen (Tool.comps im) = 3 \/ zlen (Tool.comps im) = 1 /\ Forall (fun c => Tool.h c = 1 /\ Tool.v c = 1) (Tool.comps im);
  dr_comps : Forall (fun c => is_byte (Tool.id c) /\ 1 <= Tool.h c <= 4 /\ 1 <= Tool.v c <= 4 /\ 0 <= Tool.tq c <= 3) (Tool.comps im);
  dr_ids : NoDup (Tool.id <$> Tool.comps im);
  dr_layout : laid_out w hh im;
  dr_blocks : Forall (fun c => zlen (Tool.blocks c) = Tool.blocks_w c * Tool.blocks_h c /\ Forall sample_ok (Tool.blocks c)) (Tool.comps im);
  dr_few : 64 * total im < 9227464
}.

Section drawable.
Context (w hh : Z) (im : Tool.image).
Hypothesis dr : drawable w hh im.

Lemma drawable_some : Tool.comps im <> [].
Proof. intros E. destruct (dr_count _ _ _ dr) as [H|[H _]]; rewrite E in H; done. Qed.
Lemma drawable_sized : sized w hh im.
Proof.
  apply laid_out_sized; [apply drawable_some | | apply dr]. eapply Forall_impl; [apply (dr_comps _ _ _ dr)|]. intros c (_ & H1 & H2 & _). lia.
Qed.
Lemma slot_elem {A} (l : list A) i a : at_slot l i = Some a -> a ∈ l.
Proof. unfold at_slot. destruct (i <? 0); [done|]. by apply list_elem_of_lookup_2. Qed.

(** Inside of the last units. *)
Lemma real_le s f m mh : 1 <= f <= mh -> 0 <= s -> m = div_ceil s (8 * mh) -> div_ceil (div_ceil (s * f) mh) 8 <= m * f.
Proof.
  intros Hf Hs ->. pose proof (div_ceil_ge s (8 * mh) ltac:(lia)). set (m := div_ceil s (8 * mh)) in *. apply div_ceil_le; [lia|]. apply div_ceil_le; [lia|]. nia.
Qed.

Lemma drawable_comp i c : at_slot (Tool.comps im) i = Some c -> measured im c /\ 1 <= Tool.real_w c /\ 1 <= Tool.real_h c.
Proof.
  intros E. apply slot_elem in E as Hc. destruct dr as [(W1 & W2 & _) _ DC _ _ DB _]. destruct drawable_sized as [SX SY SC]. rewrite Forall_forall in SC, DC, DB.
  destruct (SC c Hc) as (B1 & B2 & R1 & R2), (DC c Hc) as (_ & F1 & F2 & _), (DB c Hc) as [LB FB].
  pose proof (max_factor_ge (Tool.h <$> Tool.comps im) (Tool.h c) ltac:(by apply list_elem_of_fmap_2)) as M1. pose proof (max_factor_ge (Tool.v <$> Tool.comps im) (Tool.v c) ltac:(by apply list_elem_of_fmap_2)) as M2.
  set (mh := max_factor _) in *. set (mv := max_factor (Tool.v <$> _)) in *.
  assert (1 <= Tool.real_w c /\ 1 <= Tool.real_h c) as [P1 P2] by (rewrite R1, R2; split; apply div_ceil_pos; try lia; apply div_ceil_pos; nia).
  pose proof (real_le w (Tool.h c) (Tool.mcus_x im) mh ltac:(lia) ltac:(lia) SX). pose proof (real_le hh (Tool.v c) (Tool.mcus_y im) mv ltac:(lia) ltac:(lia) SY).
  split; [|done]. split; try done; try lia. eapply Forall_impl; [exact FB | by intros b []].
Qed.

Lemma drawable_picture : picture im.
Proof.
  pose proof dr as [(W1 & W2 & _) DN DC DI _ DB DF]. destruct drawable_sized as [SX SY _]. split; try done.
  - destruct DN as [|[]]; tauto.
  - intros i c E. by destruct (drawable_comp i c E).
  - intros i c E. by destruct (drawable_comp i c E).
  - intros [ci [row col]] (c & E & Hr & Hc). cbn [fst snd] in *. destruct (drawable_comp ci c E) as [[_ _ _ _ LB _] _]. rewrite Forall_forall in DB. destruct (DB c (slot_elem _ _ _ E)) as [_ FB].
    unfold block_at. rewrite E. assert (I : 0 <= row * Tool.blocks_w c + col < zlen (Tool.blocks c)) by (rewrite LB; nia). unfold zlen in I.
    destruct (lookup_lt_is_Some_2 (Tool.blocks c) (Z.to_nat (row * Tool.blocks_w c + col)) ltac:(lia)) as (b & EB). rewrite EB. cbn. rewrite Forall_forall in FB. apply FB. by eapply list_elem_of_lookup_2.
  - rewrite SX, SY. pose proof (max_factor_pos (Tool.h <$> Tool.comps im)). pose proof (max_factor_pos (Tool.v <$> Tool.comps im)). split; apply div_ceil_pos; lia.
Qed.

(** A lone component has no blocks outside of the picture. *)
Lemma lone_sizes c : zlen (Tool.comps im) = 1 -> at_slot (Tool.comps im) 0 = Some c -> Tool.h c = 1 /\ Tool.v c = 1 /\ Tool.real_w c = Tool.blocks_w c /\ Tool.real_h c = Tool.blocks_h c.
Proof.
  intros L1 E. destruct dr as [(W1 & W2 & _) DN _ _ _ _ _]. destruct DN as [|[_ F1]]; [lia|]. destruct drawable_sized as [SX SY SC]. rewrite Forall_forall in SC, F1.
  destruct (SC c (slot_elem _ _ _ E)) as (B1 & B2 & R1 & R2). destruct (F1 c (slot_elem _ _ _ E)) as [H1 V1].
  assert (EC : Tool.comps im = [c]).
  { destruct (Tool.comps im) as [|c0 [|c1 l]] eqn:EL; [done| |unfold zlen in L1; cbn [length] in L1; lia]. by apply slot_elem, list_elem_of_singleton in E as ->. }
  rewrite EC in SX, SY, R1, R2. cbn [fmap list_fmap max_factor foldr] in SX, SY, R1, R2. rewrite H1 in SX, B1, R1. rewrite V1 in SY, B2, R2. change (1 `max` 1) with 1 in *.
  assert (D1 : forall a, div_ceil (a * 1) 1 = a) by (intros a; unfold div_ceil; rewrite Z.div_1_r; lia). rewrite D1 in R1, R2. change (8 * 1) with 8 in *. split_and!; [done | done | lia | lia].
Qed.
Lemma lone_real it : zlen (Tool.comps im) = 1 -> valid_item im it -> real im it = true.
Proof.
  intros L1 (c & E & Hr & Hc). assert (E0 : it.1 = 0) by (unfold at_slot in E; destruct (Z.ltb_spec it.1 0); [done|]; apply lookup_lt_Some in E; unfold zlen in L1; lia).
  rewrite E0 in E. destruct (lone_sizes c L1 E) as (_ & _ & R1 & R2). unfold real. rewrite E0, E, R1, R2, andb_true_iff, !Z.ltb_lt. lia.
Qed.
End drawable.

(** * The frame *)

Definition comp_bytes (c : Tool.comp) : list Z := [Tool.id c; Z.lor (Z.shiftl (Tool.h c) 4) (Tool.v c); Tool.tq c].
Definition frame_head (w hh n : Z) : list Z := 8 :: be_bytes 2 hh ++ be_bytes 2 w ++ [n].
Definition frame_body (w hh : Z) (cs : list Tool.comp) : list Z := frame_head w hh (zlen cs) ++ concat (comp_bytes <$> cs).

Lemma zlen_head w hh n : zlen (frame_head w hh n) = 6.
Proof. unfold frame_head. rewrite !be_bytes_2. done. Qed.
Lemma zlen_triples cs : zlen (concat (comp_bytes <$> cs)) = 3 * zlen cs.
Proof. induction cs as [|c cs IH]; [done|]. cbn [fmap list_fmap concat]. rewrite zlen_app, IH. unfold zlen. cbn [comp_bytes length]. lia. Qed.
Lemma triples_at cs i c : cs !! i = Some c -> let l := concat (comp_bytes <$> cs) in
  l !! (3 * i)%nat = Some (Tool.id c) /\ l !! (3 * i + 1)%nat = Some (Z.lor (Z.shiftl (Tool.h c) 4) (Tool.v c)) /\ l !! (3 * i + 2)%nat = Some (Tool.tq c).
Proof.
  cbv zeta. revert i. induction cs as [|c0 cs IH]; intros [|i] E; [done | done | by injection E as -> |]. cbn [lookup list_lookup] in E. destruct (IH i E) as (H1 & H2 & H3).
  cbn [fmap list_fmap concat]. split_and!; rewrite lookup_app_r by (cbn [comp_bytes length]; lia); cbn [comp_bytes length]; [rewrite <- H1 | rewrite <- H2 | rewrite <- H3]; f_equal; lia.
Qed.

Section frame.
Context (w hh : Z) (im : Tool.image).
Hypothesis dr : drawable w hh im.
#[warnings="-notation-for-abbreviation"] Local Notation cs := (Tool.comps im).
#[warnings="-notation-for-abbreviation"] Local Notation body := (frame_body w hh cs).

Definition raw_comp (c : Tool.comp) : component := Component (Tool.id c) (Tool.h c) (Tool.v c) (Tool.tq c) 0 0 0 0 0 0 0 0.

Lemma frame_at i c j x : cs !! i = Some c -> concat (comp_bytes <$> cs) !! j = Some x -> zat body (6 + Z.of_nat j) = x.
Proof.
  intros _ E. unfold frame_body, zat. rewrite lookup_app_r by (pose proof (zlen_head w hh (zlen cs)) as L; unfold zlen in L at 1; lia).
  pose proof (zlen_head w hh (zlen cs)) as L. unfold zlen in L at 1. replace (Z.to_nat (6 + Z.of_nat j) - length (frame_head w hh (zlen cs)))%nat with j by lia. by rewrite E.
Qed.

Lemma frame_component_ok i c : cs !! i = Some c -> frame_component body (Z.of_nat i) = Ok (raw_comp c).
Proof.
  intros E. destruct (triples_at cs i c E) as (T1 & T2 & T3). cbv zeta in *. pose proof (dr_comps _ _ _ dr) as DC. rewrite Forall_forall in DC. destruct (DC c ltac:(by eapply list_elem_of_lookup_2)) as (_ & F1 & F2 & F3).
  unfold frame_component. replace (6 + Z.of_nat i * 3) with (6 + Z.of_nat (3 * i)) by lia. rewrite (frame_at i c _ _ E T1). replace (7 + Z.of_nat i * 3) with (6 + Z.of_nat (3 * i + 1)) by lia. rewrite (frame_at i c _ _ E T2).
  replace (8 + Z.of_nat i * 3) with (6 + Z.of_nat (3 * i + 2)) by lia. rewrite (frame_at i c _ _ E T3).
  rewrite lor_shiftl_add by (change (2 ^ 4) with 16; lia). rewrite <- Z.shiftl_mul_pow2 by lia. destruct (symbol_parts (Tool.h c) (Tool.v c)) as [-> ->]; [lia..|]. cbn beta iota.
  rewrite (proj2 (between_spec 1 (Tool.h c) 4)), (proj2 (between_spec 1 (Tool.v c) 4)), (proj2 (Z.ltb_ge 3 (Tool.tq c))) by lia. done.
Qed.

Lemma collected : foldK (collect_component body) [] (pyrange 0 (zlen cs)) = Ok (raw_comp <$> cs).
Proof.
  assert (G : forall n, (n <= length cs)%nat -> foldK (collect_component body) [] (pyrange 0 (Z.of_nat n)) = Ok (raw_comp <$> take n cs)).
  { induction n as [|n IH]; intros Hn; [done|]. rewrite Nat2Z.inj_succ, <- Z.add_1_r, pyrange_snoc, foldK_app, IH, ok_bind by lia.
    destruct (lookup_lt_is_Some_2 cs n ltac:(lia)) as (c & E). cbn [foldK]. unfold collect_component. rewrite (frame_component_ok n c E), ok_bind, ok_bind. rewrite (take_S_r _ _ _ E), fmap_app. done. }
  unfold zlen. rewrite G by lia. by rewrite firstn_all.
Qed.

(** The components in their places. *)
Definition placed (i : nat) (c : Tool.comp) : component :=
  Component (Tool.id c) (Tool.h c) (Tool.v c) (Tool.tq c) (Tool.blocks_w c) (Tool.blocks_h c) (Tool.real_w c) (Tool.real_h c) (64 * base im (Z.of_nat i)) 0 0 0.

Lemma all_placed mh mv : mh = max_factor (Tool.h <$> cs) -> mv = max_factor (Tool.v <$> cs) ->
  foldl (place w hh mh mv (Tool.mcus_x im) (Tool.mcus_y im)) ([], 0) (raw_comp <$> cs) = (imap placed cs, 64 * total im).
Proof.
  intros -> ->. destruct (drawable_sized _ _ _ dr) as [_ _ SC]. rewrite Forall_forall in SC.
  assert (G : forall n, (n <= length cs)%nat -> foldl (place w hh (max_factor (Tool.h <$> cs)) (max_factor (Tool.v <$> cs)) (Tool.mcus_x im) (Tool.mcus_y im)) ([], 0) (raw_comp <$> take n cs)
    = (imap placed (take n cs), 64 * base im (Z.of_nat n))).
  { induction n as [|n IH]; intros Hn; [done|]. destruct (lookup_lt_is_Some_2 cs n ltac:(lia)) as (c & E). rewrite (take_S_r _ _ _ E), fmap_app, foldl_app, IH by lia. cbn [fmap list_fmap foldl].
    destruct (SC c ltac:(by eapply list_elem_of_lookup_2)) as (B1 & B2 & R1 & R2). unfold place. cbn [h v raw_comp cid tq]. rewrite <- B1, <- B2, <- R1, <- R2. rewrite imap_app. cbn [imap]. rewrite length_take, Nat.min_l, Nat.add_0_r by lia.
    f_equal. rewrite Nat2Z.inj_succ, <- Z.add_1_r, (base_next im (Z.of_nat n) c); [lia|]. unfold at_slot. by rewrite (proj2 (Z.ltb_ge _ 0)), Nat2Z.id by lia. }
  specialize (G (length cs) ltac:(lia)). rewrite firstn_all in G. exact G.
Qed.

(** The decoder once the frame is read. *)
Definition framed_decoder (prog : bool) (d : decoder) : decoder :=
  Decoder w hh prog (imap placed cs) (quant d) (dc_tables d) (ac_tables d) (restart_interval d) (Tool.mcus_x im) (Tool.mcus_y im) (adobe_transform d) (Some (zeros (64 * total im))).

Lemma frame_read prog d : read_frame body prog d = Ok (framed_decoder prog d).
Proof.
  destruct (drawable_sized _ _ _ dr) as [SX SY _]. destruct dr as [(W1 & W2 & WP) DN DC _ _ _ _]. unfold Png.Kernel.MAX_EDGE, Png.Kernel.MAX_PIXELS in *.
  assert (LB : zlen body = 6 + 3 * zlen cs) by (unfold frame_body; rewrite zlen_app, zlen_head, zlen_triples; lia). assert (C13 : zlen cs = 1 \/ zlen cs = 3) by tauto.
  unfold read_frame. rewrite (proj2 (Z.ltb_ge (zlen body) 6)) by lia. change (zat body 0) with 8. cbn [Z.eqb Pos.eqb negb orb].
  assert (H1 : here body 1 (be_bytes 2 hh ++ be_bytes 2 w ++ [zlen cs] ++ concat (comp_bytes <$> cs))) by (split; [lia|]; unfold frame_body, frame_head; cbn [drop Z.to_nat Pos.to_nat Pos.iter_op Init.Nat.add app]; by rewrite <- !app_assoc).
  rewrite (be16_here _ _ hh _ ltac:(lia) H1). cbn [ok_or]. rewrite ok_bind. apply here_app in H1. rewrite zlen_be_bytes in H1. change (1 + Z.of_nat 2) with 3 in H1.
  rewrite (be16_here _ _ w _ ltac:(lia) H1). cbn [ok_or]. rewrite ok_bind. apply here_app in H1. rewrite zlen_be_bytes in H1. change (3 + Z.of_nat 2) with 5 in H1. apply here_cons in H1 as [B5 _].
  assert (Z5 : zat body 5 = zlen cs) by (unfold zat; unfold byte_at in B5; by rewrite B5). rewrite Z5. unfold Png.Kernel.MAX_EDGE, Png.Kernel.MAX_PIXELS.
  rewrite (proj2 (Z.eqb_neq w 0)), (proj2 (Z.eqb_neq hh 0)), (proj2 (Z.ltb_ge 16384 w)), (proj2 (Z.ltb_ge 16384 hh)), (proj2 (Z.ltb_ge (64 * 1024 * 1024) (w * hh))) by lia. cbn [orb].
  assert (EC : negb ((zlen cs =? 1) || (zlen cs =? 3)) || (zlen body <? 6 + zlen cs * 3) = false) by (rewrite (proj2 (Z.ltb_ge (zlen body) _)) by lia; destruct C13 as [-> | ->]; done). rewrite EC, collected, ok_bind.
  assert (EL : (if zlen cs =? 1 then (fun c => Component (cid c) 1 1 (tq c) 0 0 0 0 0 0 0 0) <$> (raw_comp <$> cs) else raw_comp <$> cs) = raw_comp <$> cs).
  { destruct (Z.eqb_spec (zlen cs) 1) as [E1|]; [|done]. destruct DN as [|[_ F]]; [lia|]. rewrite <- list_fmap_compose. apply list_fmap_ext. intros i c Hc. rewrite Forall_forall in F.
    destruct (F c ltac:(by eapply list_elem_of_lookup_2)) as [H V]. unfold compose, raw_comp. cbn. by rewrite H, V. }
  rewrite EL. cbv zeta. assert (EH : h <$> (raw_comp <$> cs) = Tool.h <$> cs) by (by rewrite <- list_fmap_compose). assert (EV : v <$> (raw_comp <$> cs) = Tool.v <$> cs) by (by rewrite <- list_fmap_compose).
  rewrite EH, EV. fold (max_factor (Tool.h <$> cs)) (max_factor (Tool.v <$> cs)). rewrite <- SX, <- SY. rewrite all_placed by done. done.
Qed.

Lemma placed_framed : framed im (imap placed cs).
Proof.
  split; [apply length_imap|]. intros i c E. unfold at_slot in E |- *. destruct (Z.ltb_spec i 0) as [|Hi]; [done|]. exists (placed (Z.to_nat i) c). rewrite list_lookup_imap, E.
  split_and!; [done | done|]. cbn. by rewrite Z2Nat.id.
Qed.
Lemma total_pos : 0 <= total im.
Proof. rewrite <- (base_0 im). apply base_mono; [intros i c E; by destruct (drawable_comp _ _ _ dr i c E)|]. pose proof (zlen_nonneg cs). lia. Qed.
Lemma zero_cell it : valid_item im it -> has_cell (zeros (64 * total im)) (num im it) /\ cell (zeros (64 * total im)) (num im it) = zeros 64.
Proof.
  intros V. pose proof (num_bounds im (fun i c E => proj1 (drawable_comp _ _ _ dr i c E)) it V) as NB. pose proof total_pos. unfold has_cell, cell. split.
  - unfold zeros. rewrite zlen_replicate. lia.
  - rewrite pyslice_zeros by lia. f_equal. lia.
Qed.

Lemma frame_scanned q : scanned im w hh q [] (framed_decoder true (tables_only q)).
Proof.
  split; try done; [apply placed_framed|]. exists (zeros (64 * total im)). split; [done|]. pose proof total_pos. split; [unfold zeros; rewrite zlen_replicate; lia|].
  intros it V. destruct (zero_cell it V) as [_ ->]. split; [done|]. intros k Hk. change (level [] it.1 (real im it) k) with (@None Z). cbn [known].
  unfold zz. pose proof (zig_range k Hk). unfold zeros. apply zat_replicate. lia.
Qed.
End frame.
