(* ===== verification/JpegProgressive.v ===== *)
(** JpegProgressive: the kernel reads back the picture the tool wrote. *)
From Stdlib Require Import ZArith Lia List.
From stdpp Require Import base list gmap strings.
From S2P Require Import Prelude Text Arrays Machine Huff Png Jpeg JpegBits JpegScan JpegFirst JpegRefine JpegBlocks JpegLevels JpegKinds JpegTables JpegFile JpegWhole JpegWrite JpegFrame.
Open Scope Z_scope.
Import Jpeg.Kernel.

(** * The scans of the tool *)

(** Enough scans, and the last of each band leaves no bits out. *)
Lemma plan_3 : plan 3 [] (Tool.specs 3) = true.
Proof. vm_compute. reflexivity. Qed.
Lemma plan_1 : plan 1 [] (Tool.specs 1) = true.
Proof. vm_compute. reflexivity. Qed.

Definition level_is (n slot : Z) (in_picture : bool) (k : Z) (l : option Z) : bool := bool_decide (level (Tool.specs n) slot in_picture k = l).
Lemma levels_3 : forallb (fun slot => forallb (fun k => level_is 3 slot true k (Some 0) && level_is 3 slot false k (if k =? 0 then Some 0 else None)) (pyrange 0 64)) (pyrange 0 3) = true.
Proof. vm_compute. reflexivity. Qed.
Lemma levels_1 : forallb (fun k => level_is 1 0 true k (Some 0)) (pyrange 0 64) = true.
Proof. vm_compute. reflexivity. Qed.

Lemma level_3 slot b k : 0 <= slot < 3 -> 0 <= k < 64 -> level (Tool.specs 3) slot b k = if b || (k =? 0) then Some 0 else None.
Proof.
  intros Hs Hk. pose proof levels_3 as H. rewrite forallb_forall in H. specialize (H slot ltac:(apply list_elem_of_In, elem_of_pyrange; done)).
  rewrite forallb_forall in H. specialize (H k ltac:(apply list_elem_of_In, elem_of_pyrange; done)). apply andb_true_iff in H as [H1%bool_decide_eq_true_1 H2%bool_decide_eq_true_1].
  destruct b; [done|]. rewrite H2. done.
Qed.
Lemma level_1 k : 0 <= k < 64 -> level (Tool.specs 1) 0 true k = Some 0.
Proof.
  intros Hk. pose proof levels_1 as H. rewrite forallb_forall in H. specialize (H k ltac:(apply list_elem_of_In, elem_of_pyrange; done)). by apply bool_decide_eq_true_1 in H.
Qed.

(** A scan of the list, of a picture with [n] components. *)
Definition spec_good (n : Z) (sc : Tool.spec) : bool :=
  (0 <=? Tool.ss sc) && (Tool.ss sc <=? Tool.se sc) && (Tool.se sc <? 64) && (negb (Tool.ss sc =? 0) || (Tool.se sc =? 0))
  && (0 <=? Tool.al sc) && (Tool.al sc <=? 13) && (negb (Tool.ah sc =? 0) || (Tool.ss sc =? 0) || (1 <=? Tool.al sc))
  && ((Tool.ah sc =? 0) || (Tool.ah sc =? Tool.al sc + 1))
  && negb (zlen (Tool.cis sc) =? 0) && bool_decide (NoDup (Tool.cis sc)) && forallb (fun ci => (0 <=? ci) && (ci <? n)) (Tool.cis sc).

Lemma spec_good_for im sc : spec_good (zlen (Tool.comps im)) sc = true -> scan_for im sc.
Proof.
  unfold spec_good. rewrite !andb_true_iff, !orb_true_iff, !negb_true_iff, !Z.leb_le, !Z.ltb_lt, !Z.eqb_eq, !Z.eqb_neq, forallb_forall, bool_decide_eq_true.
  intros ((((((((((H1 & H2) & H3) & H4) & H5) & H6) & H7) & H8) & H9) & H10) & H11). split; [split; lia | | done |].
  - intros E. rewrite E in H9. done.
  - intros ci Hci%list_elem_of_In. specialize (H11 ci Hci). rewrite andb_true_iff, Z.leb_le, Z.ltb_lt in H11. lia.
Qed.
Lemma specs_for im : zlen (Tool.comps im) = 3 \/ zlen (Tool.comps im) = 1 -> Forall (scan_for im) (Tool.specs (zlen (Tool.comps im))) /\ plan (zlen (Tool.comps im)) [] (Tool.specs (zlen (Tool.comps im))) = true.
Proof.
  intros H. split; [|destruct H as [-> | ->]; [apply plan_3 | apply plan_1]].
  assert (G : forallb (spec_good (zlen (Tool.comps im))) (Tool.specs (zlen (Tool.comps im))) = true) by (destruct H as [-> | ->]; vm_compute; reflexivity).
  rewrite forallb_forall in G. apply Forall_forall. intros sc Hsc%list_elem_of_In. by apply spec_good_for, G.
Qed.

(** * The file *)

Definition quant_items (quant : gmap Z (Z * list Z)) : list (Z * (Z * list Z)) := Tool.sorted_items quant.
Definition quants_ok (quant : gmap Z (Z * list Z)) : Prop := map_Forall (fun id '(prec, bytes) => quant_ok id prec bytes) quant.

Lemma quant_items_elem quant id prec bytes : (id, (prec, bytes)) ∈ quant_items quant <-> quant !! id = Some (prec, bytes).
Proof. unfold quant_items, Tool.sorted_items. rewrite sort_by_perm. apply elem_of_map_to_list. Qed.
Lemma quant_items_ok quant : quants_ok quant -> Forall item_ok (quant_items quant).
Proof. intros Q. apply Forall_forall. intros [id [prec bytes]] H%quant_items_elem. exact (Q _ _ H). Qed.
Lemma quant_items_nodup quant : NoDup (quant_items quant).*1.
Proof. unfold quant_items, Tool.sorted_items. rewrite sort_by_perm. apply NoDup_fst_map_to_list. Qed.

(** The parts of the file. *)
Definition file_bytes (quant : gmap Z (Z * list Z)) (w hh : Z) (im : Tool.image) (segs : list (list Z)) : list Z :=
  [255; 216] ++ concat ((fun it => segment 219 (item_body it)) <$> quant_items quant) ++ segment 194 (frame_body w hh (Tool.comps im)) ++ concat segs ++ [255; 217].

Section file.
Context (quant : gmap Z (Z * list Z)) (w hh : Z) (im : Tool.image).
Hypothesis dr : drawable w hh im.
Hypothesis qs : quants_ok quant.

Lemma file_written : exists segs, Forall2 (written im) (Tool.specs (zlen (Tool.comps im))) segs /\ Tool.write_file quant w hh im = Ret (file_bytes quant w hh im segs).
Proof.
  pose proof dr as [(W1 & W2 & _) DN DC _ _ _ _]. unfold Png.Kernel.MAX_EDGE in *. destruct (specs_for im ltac:(tauto)) as [SF _]. assert (C13 : zlen (Tool.comps im) = 1 \/ zlen (Tool.comps im) = 3) by tauto.
  unfold Tool.write_file. rewrite (mapM_py_ret _ (fun it => segment 219 (item_body it))), py_ret_bind by (intros it Hit; apply write_dqt_ret; pose proof (quant_items_ok quant qs) as F; rewrite Forall_forall in F; by apply F).
  rewrite (pack_be_ret 2 hh), py_ret_bind, (pack_be_ret 2 w), py_ret_bind, (pack_be_ret 1), py_ret_bind by (change (256 ^ Z.of_nat 2) with 65536; change (256 ^ Z.of_nat 1) with 256; lia).
  rewrite (mapM_py_ret _ comp_bytes), py_ret_bind.
  2:{ intros c Hc. rewrite Forall_forall in DC. destruct (DC c Hc) as (B & F1 & F2 & F3). apply bytes_of_ret. repeat (apply Forall_cons; split); [done | | unfold is_byte; lia | constructor].
      unfold is_byte. rewrite lor_shiftl_add by (change (2 ^ 4) with 16; lia). change (2 ^ 4) with 16. lia. }
  cbv zeta. assert (EB : [8] ++ be_bytes 2 hh ++ be_bytes 2 w ++ be_bytes 1 (zlen (Tool.comps im)) ++ concat (comp_bytes <$> Tool.comps im) = frame_body w hh (Tool.comps im)).
  { unfold frame_body, frame_head. cbn [app]. rewrite <- !app_assoc. do 3 f_equal. destruct C13 as [-> | ->]; done. }
  rewrite EB. assert (LB : zlen (frame_body w hh (Tool.comps im)) = 6 + 3 * zlen (Tool.comps im)) by (unfold frame_body; rewrite zlen_app, zlen_head, zlen_triples; lia).
  rewrite (pack_be_ret 2), py_ret_bind by (rewrite LB; change (256 ^ Z.of_nat 2) with 65536; lia).
  destruct (build_scans im (drawable_picture _ _ _ dr) ltac:(eapply Forall_impl; [exact DC | by intros c []]) _ SF
    ([255; 216] ++ concat ((fun it => segment 219 (item_body it)) <$> quant_items quant) ++ [255; 194] ++ be_bytes 2 (2 + zlen (frame_body w hh (Tool.comps im))) ++ frame_body w hh (Tool.comps im))) as (segs & WS & ES).
  exists segs. split; [done|]. fold (quant_items quant). rewrite ES, py_ret_bind. f_equal. unfold file_bytes, segment. cbn [app]. rewrite <- !app_assoc. cbn [app]. rewrite <- !app_assoc. done.
Qed.

Lemma file_parsed segs : Forall2 (written im) (Tool.specs (zlen (Tool.comps im))) segs ->
  exists d q, parse (file_bytes quant w hh im segs) = Ok d /\ scanned im w hh q (Tool.specs (zlen (Tool.comps im))) d /\ tables_match (quant_items quant) q
    /\ length q = 4%nat /\ forall i, (i < 4)%nat -> quant !! Z.of_nat i = None -> q !! i = Some (replicate 64 1).
Proof.
  intros WS. set (data := file_bytes quant w hh im segs). destruct (specs_for im ltac:(destruct (dr_count _ _ _ dr); tauto)) as [SF PL].
  set (dqt := concat ((fun it => segment 219 (item_body it)) <$> quant_items quant)). set (body := frame_body w hh (Tool.comps im)).
  assert (H : here data 2 (dqt ++ segment 194 body ++ concat segs ++ [255; 217])) by (split; [lia | done]).
  destruct (parse_tables (quant_items quant) (quant_items_ok quant qs) (quant_items_nodup quant) (S (length data)) data 2 (Kernel.quant START) (segment 194 body ++ concat segs ++ [255; 217]))
    as (f1 & q & E1 & L1 & F1 & M1 & U1 & HF1); [done | by repeat constructor | done | unfold zlen; lia|]. fold dqt in E1, HF1. apply here_app in H.
  set (at1 := 2 + zlen dqt) in *. pose proof H as H1. unfold segment in H1. rewrite <- !app_comm_cons, <- app_assoc in H1.
  pose proof (here_len _ _ _ _ H1) as LD. match type of LD with _ = _ + zlen ?l => pose proof (zlen_nonneg l) end. destruct f1 as [|f1]; [lia|].
  assert (LB : zlen body <= 15) by (unfold body, frame_body; rewrite zlen_app, zlen_head, zlen_triples; destruct (dr_count _ _ _ dr) as [|[]]; lia).
  destruct (parse_segment f1 data at1 194 body _ false 0 (tables_only q) H1) as [E2 H2]; [lia | done|].
  unfold handle in E2. cbn [Z.eqb Pos.eqb Z.leb Z.compare Pos.compare Pos.compare_cont andb orb between] in E2. pose proof (frame_read w hh im dr true (tables_only q)) as FR. fold body in FR. rewrite FR, ok_bind in E2.
  pose proof (zlen_nonneg body). destruct (parse_scans im w hh q (drawable_picture _ _ _ dr) _ _ WS SF [] PL f1 data (at1 + 4 + zlen body) 0 (framed_decoder w hh im true (tables_only q))) as (d & E3 & S3).
  - by apply frame_scanned.
  - done.
  - lia.
  - exists d, q. split; [|split_and!; [done | done | done|]].
    2:{ intros i Hi EN. rewrite U1; [by apply lookup_replicate|done|]. intros ((id & prec & bytes) & EI & HI)%list_elem_of_fmap. cbn in EI. subst id. apply quant_items_elem in HI. by rewrite EN in HI. }
    unfold parse. change START with (tables_only (Kernel.quant START)) at 1. rewrite E1, E2, E3, ok_bind. cbn beta iota. cbn [negb orb].
    rewrite (proj2 (Z.eqb_neq (0 + zlen _) 0)); [done|]. destruct (dr_count _ _ _ dr) as [-> | [-> _]]; done.
Qed.

(** The blocks once all the scans are read. *)
Lemma final_cell co it : progress im (Tool.specs (zlen (Tool.comps im))) co -> valid_item im it ->
  cell co (num im it) = if real im it then block_at im it else zset (zeros 64) 0 (zat (block_at im it) 0).
Proof.
  intros [_ P] V. destruct (P it V) as [L K]. destruct (pi_samples im (drawable_picture _ _ _ dr) it V) as [LB _ _].
  destruct (num_range im it V) as (c & _ & HS & _). destruct (real im it) eqn:ER.
  - apply zz_ext; [done..|]. intros k Hk. rewrite K by done. destruct (dr_count _ _ _ dr) as [E|[E _]]; rewrite E in *.
    + rewrite level_3 by done. cbn [orb known]. apply value_full.
    + replace it.1 with 0 by lia. rewrite level_1 by done. apply value_full.
  - assert (E : zlen (Tool.comps im) = 3) by (destruct (dr_count _ _ _ dr) as [|[E _]]; [done|]; by rewrite (lone_real w hh im dr it E V) in ER). rewrite E in *.
    apply zz_ext; [done | by rewrite zlen_zset|]. intros k Hk. rewrite K, level_3 by done. cbn [orb]. unfold zz. pose proof (zig_range k Hk). rewrite zat_zset by (done || lia).
    destruct (Z.eqb_spec k 0) as [->|N].
    + cbn [known]. rewrite value_full. done.
    + rewrite (proj2 (Z.eqb_neq (zig k) 0)); [unfold zeros; cbn [known]; by rewrite zat_replicate by lia|]. intros E0. apply N, (zig_inj k 0); [done | lia | done].
Qed.
End file.

(** C3: The file the tool writes of a decoded picture is read by the kernel, which
    gets its size, its components, its quantization tables and every
    coefficient of the blocks in the picture; of the blocks beyond its edges
    only the DC coefficients are sent. *)
Theorem progressive_decodes quant w hh im : drawable w hh im -> quants_ok quant ->
  exists out d co, Tool.write_file quant w hh im = Ret out /\ parse out = Ok d
    /\ width d = w /\ height d = hh /\ progressive d = true /\ restart_interval d = 0 /\ adobe_transform d = None
    /\ framed im (components d)
    /\ (forall id prec bytes, quant !! id = Some (prec, bytes) -> exists t, Kernel.quant d !! Z.to_nat id = Some t /\ quant_table prec bytes t)
    /\ coefficients d = Some co /\ zlen co = 64 * total im
    /\ forall it, valid_item im it -> cell co (num im it) = if real im it then block_at im it else zset (zeros 64) 0 (zat (block_at im it) 0).
Proof.
  intros DR QS. destruct (file_written quant w hh im DR QS) as (segs & WS & EW). destruct (file_parsed quant w hh im DR QS segs WS) as (d & q & EP & [[S1 S2] S3 S4 S5 S6 S7 S8 S9 (co & EC & PG)] & TM & _).
  exists (file_bytes quant w hh im segs), d, co. split_and!; try done.
  - intros id prec bytes EQ. rewrite S3. by apply TM, quant_items_elem.
  - by destruct PG.
  - intros it V. by apply (final_cell w hh im DR).
Qed.

(** A picture of one component and one block. *)
Definition dot : Tool.image := Tool.Image 1 1 [Tool.Comp 1 1 1 0 1 1 1 1 [[-37; 5; -1; 300] ++ replicate 59 0 ++ [2]]].
Definition flat_quant : gmap Z (Z * list Z) := {[ 0 := (0, replicate 64 16) ]}.

Lemma sample_ok_decide b : (zlen b =? 64) && between (-32768) (zz b 0) 32767 && forallb (fun k => Z.abs (zz b k) <? 32768) (pyrange 1 64) = true -> sample_ok b.
Proof.
  intros H. apply andb_prop in H as [[H1 H2]%andb_prop H3]. apply between_spec in H2. split; [by apply Z.eqb_eq | done|].
  intros k Hk N. rewrite forallb_forall in H3. apply Z.ltb_lt, H3, list_elem_of_In, elem_of_pyrange. lia.
Qed.

Lemma progressive_decodes_witness : drawable 8 8 dot /\ quants_ok flat_quant /\ exists out d, Tool.write_file flat_quant 8 8 dot = Ret out /\ parse out = Ok d /\ width d = 8.
Proof.
  assert (DR : drawable 8 8 dot).
  { split; [vm_compute; intuition discriminate | right; split; [done | by apply Forall_singleton] | apply Forall_singleton; vm_compute; intuition discriminate | apply NoDup_singleton | reflexivity | | reflexivity].
    apply Forall_singleton. split; [done|]. apply Forall_singleton, sample_ok_decide. reflexivity. }
  assert (QS : quants_ok flat_quant).
  { apply map_Forall_singleton. split; [lia | by left | by apply Forall_replicate]. }
  split; [exact DR|]. split; [exact QS|].
  destruct (progressive_decodes flat_quant 8 8 dot DR QS) as (out & d & co & E1 & E2 & E3 & _). exists out, d. split; [exact E1 | split; [exact E2 | exact E3]].
Defined.
