(* ===== verification/JpegSafe.v ===== *)
(** JpegSafe: the kernel's decoder ends on every file.

    Every loop of [Decoder::parse] and of what it calls has fuel in the model;
    here is shown that no run uses it up, whatever the bytes of the file. *)
From Stdlib Require Import ZArith Lia List.
From stdpp Require Import base list gmap strings.
From S2P Require Import Prelude Text Arrays Machine Huff Png Jpeg JpegFirst.
Open Scope Z_scope.
Import Jpeg.Kernel.

(** * Runs that end *)

(** The run ends, and a result satisfies [P]. *)
Definition halts {A} (P : A -> Prop) (o : outcome A) : Prop :=
  match o with Ok a => P a | Unfinished => False | Err _ | Panic => True end.

Lemma halts_bind {A B} (P : A -> Prop) (Q : B -> Prop) (o : outcome A) f : halts P o -> (forall a, P a -> halts Q (f a)) -> halts Q (o ≫= f).
Proof. destruct o; cbn; auto. Qed.
Lemma halts_mono {A} (P Q : A -> Prop) o : halts P o -> (forall a, P a -> Q a) -> halts Q o.
Proof. destruct o; cbn; auto. Qed.
Lemma halts_fold {S A} (P : S -> Prop) (f : S -> A -> outcome S) l : (forall s a, a ∈ l -> P s -> halts P (f s a)) -> forall s, P s -> halts P (foldK f s l).
Proof.
  induction l as [|a l IH]; intros H s Hs; [done|]. cbn [foldK]. apply (halts_bind P); [apply H; [constructor | done]|].
  intros s' Hs'. apply IH; [|done]. intros t b Hb. apply H. by constructor.
Qed.
Lemma halts_checked lo hi x : halts (fun y => y = x) (checked lo hi x).
Proof. unfold checked. by case_match. Qed.
Lemma halts_index {A} (P : A -> Prop) (l : list A) i : Forall P l -> halts P (index l i).
Proof. intros H. unfold index. case_match; [done|]. case_match eqn:E; [|done]. by apply (Forall_lookup_1 _ _ _ _ H E). Qed.
Lemma halts_ok_or {A} e (o : option A) : halts (fun a => o = Some a) (ok_or e o).
Proof. by destruct o. Qed.

Lemma index_fine {A} (l : list A) i : halts (fun _ => True) (index l i).
Proof. apply halts_index, Forall_true. done. Qed.

Create HintDb halts.
#[export] Hint Resolve halts_checked halts_ok_or index_fine : halts.

(** One bind of a run, by what is known of its first part. *)
Ltac run_step := eapply halts_bind; [solve [eauto with halts] | cbv beta].

(** * The reader goes forward *)

Definition after (r : reader) {A} (x : A * reader) : Prop := position r <= position x.2.

Lemma fill_round_position data r : position r <= position (fill_round data r).
Proof. unfold fill_round. repeat case_match; simplify_eq; cbn [position]; lia. Qed.
Lemma fill_position data r : position r <= position (fill data r).
Proof. unfold fill. by do 3 (etrans; [|apply fill_round_position]); apply fill_round_position. Qed.
Lemma filled_position data r (b : bool) : position r <= position (if b then fill data r else r).
Proof. destruct b; [apply fill_position | lia]. Qed.

Lemma consume_halts n r : halts (fun r' => position r' = position r) (consume n r).
Proof. unfold consume. case_match; [done|]. run_step. by intros c _. Qed.
#[export] Hint Resolve consume_halts : halts.

Lemma bits_halts data n r : halts (after r) (bits data n r).
Proof.
  unfold bits. case_match; [unfold after; cbn; lia|]. cbv zeta. run_step. intros shift _. run_step. intros r' E. unfold after. cbn [halts snd]. rewrite E. apply filled_position.
Qed.
#[export] Hint Resolve bits_halts : halts.
Lemma bit_halts data r : halts (after r) (bit data r).
Proof. apply bits_halts. Qed.
#[export] Hint Resolve bit_halts : halts.

Lemma receive_extend_halts data s r : halts (after r) (receive_extend data s r).
Proof.
  unfold receive_extend. case_match; [unfold after; cbn; lia|]. run_step. intros [x r'] AF. cbv zeta. case_match; [|done].
  run_step. intros y _. by run_step.
Qed.
#[export] Hint Resolve receive_extend_halts : halts.

(** A table read from a file: its symbols are bytes. *)
Definition byte_table (t : huffman) : Prop := Forall is_byte (Huff.Kernel.values t).

Definition read_symbol (r : reader) (x : Z * reader) : Prop := 0 <= x.1 < 256 /\ position r <= position x.2.

Lemma table_symbol t i : byte_table t -> is_byte (zat (Huff.Kernel.values t) i).
Proof.
  intros H. unfold zat. destruct (_ !! _) eqn:E; [by apply (Forall_lookup_1 _ _ _ _ H E) | unfold is_byte; cbn; lia].
Qed.
Lemma decode_long_halts t r ls : byte_table t -> forall code, halts (read_symbol r) (decode_long t r ls code).
Proof.
  intros H. induction ls as [|n ls IH]; intros code; [done|]. cbn [decode_long]. cbv zeta. case_match; [|apply IH].
  run_step. intros r' E. split; cbn [fst snd]; [by apply table_symbol | lia].
Qed.
Lemma decode_halts data t r : byte_table t -> halts (read_symbol r) (decode data t r).
Proof.
  intros H. unfold decode. cbv zeta. pose proof (filled_position data r (count r <? 16)) as FP. revert FP. generalize (if count r <? 16 then fill data r else r). intros r1 FP. case_match.
  - run_step. intros r' E. split; cbn [fst snd]; [apply Z.mod_pos_bound; lia | lia].
  - eapply halts_mono; [by apply decode_long_halts|]. intros [s r'] [H1 H2]. split; [done | cbn [snd] in *; lia].
Qed.
#[export] Hint Resolve decode_halts : halts.

Lemma byte_parts rs : 0 <= rs < 256 -> 0 <= Z.shiftr rs 4 <= 15 /\ 0 <= Z.land rs 15.
Proof.
  intros H. rewrite Z.shiftr_div_pow2 by lia. change (2 ^ 4) with 16. split; [|by apply Z.land_nonneg; lia].
  pose proof (Z.div_pos rs 16 ltac:(lia) ltac:(lia)). pose proof (Z.div_lt_upper_bound rs 16 16 ltac:(lia) ltac:(lia)). lia.
Qed.

(** * Blocks *)

Definition forward {A} (r : reader) (x : reader * A) : Prop := position r <= position x.1.

Section blocks.
Context (data : list Z) (ac : huffman).
Hypothesis table : byte_table ac.

Lemma sequential_ac_halts fuel : forall k r block, Z.max 0 (64 - k) < Z.of_nat fuel -> halts (forward r) (sequential_ac fuel data ac k r block).
Proof.
  induction fuel as [|fuel IH]; intros k r block F; [lia|]. cbn [sequential_ac]. destruct (Z.ltb_spec k 64); [|unfold forward; cbn; lia].
  run_step. intros [rs r1] [[P _]%byte_parts A1]. cbn [fst snd] in P, A1. cbv zeta beta iota. destruct (Z.eqb_spec (Z.land rs 15) 0).
  - case_match; [done|]. eapply halts_mono; [apply IH; lia|]. unfold forward. intros x. cbv beta. lia.
  - case_match; [done|]. run_step. intros [x r2] A2. cbv beta iota. eapply halts_mono; [apply IH; lia|]. unfold forward, after in *. cbn [snd] in A2. intros y. lia.
Qed.

Lemma read_eob_run_halts run r : halts (fun r' => position r <= position r') (read_eob_run data run r).
Proof.
  unfold read_eob_run. cbv zeta. case_match; [cbn; lia|]. run_step. intros [x r1] A1. run_step. intros e _. exact A1.
Qed.

Lemma ac_first_loop_halts se al fuel : se <= 63 -> forall k r block, Z.max 0 (64 - k) < Z.of_nat fuel -> halts (forward r) (ac_first_loop fuel data ac se al k r block).
Proof.
  intros HS. induction fuel as [|fuel IH]; intros k r block F; [lia|]. cbn [ac_first_loop]. destruct (Z.leb_spec k se); [|unfold forward; cbn; lia].
  run_step. intros [rs r1] [[P _]%byte_parts A1]. cbn [fst snd] in P, A1. cbv zeta beta iota. case_match.
  - case_match; [done|]. run_step. intros [x r2] A2. cbv beta iota. eapply halts_mono; [apply IH; lia|]. unfold forward, after in *. cbn [snd] in A2. intros y. lia.
  - case_match.
    + eapply halts_mono; [apply IH; lia|]. unfold forward. intros x. cbv beta. lia.
    + eapply halts_bind; [apply read_eob_run_halts|]. intros r2 A2. run_step. intros e _. exact (Z.le_trans _ _ _ A1 A2).
Qed.

Lemma decode_ac_first_halts ss se al r block : 1 <= ss -> se <= 63 -> halts (forward r) (decode_ac_first data ac ss se al r block).
Proof. intros H1 H2. unfold decode_ac_first. case_match; [unfold forward; cbn; lia|]. apply ac_first_loop_halts; lia. Qed.

Lemma refine_coef_halts al p r block : halts (forward r) (refine_coef data al p r block).
Proof.
  unfold refine_coef. cbv zeta. run_step. intros [b r1] A1. cbv beta iota. case_match; [|exact A1]. run_step. intros x _. exact A1.
Qed.

Lemma refine_run_halts se al fuel : se <= 63 -> forall run k r block, Z.max 0 (64 - k) < Z.of_nat fuel ->
  halts (fun x => k <= x.1.1 /\ position r <= position x.1.2) (refine_run fuel data se al run k r block).
Proof.
  intros HS. induction fuel as [|fuel IH]; intros run k r block F; [lia|]. cbn [refine_run]. cbv zeta. destruct (Z.leb_spec k se); [|cbn; lia].
  case_match; [|case_match; [cbn; lia | eapply halts_mono; [apply IH; lia | intros x; cbv beta; lia]]].
  eapply halts_bind; [apply refine_coef_halts|]. intros [r1 b1] A1. cbv beta iota. eapply halts_mono; [apply IH; lia|]. unfold forward in A1. cbn [fst] in A1. intros x. cbv beta. lia.
Qed.

Lemma refine_loop_halts se al fuel : se <= 63 -> forall k r block, 0 <= k -> Z.max 0 (64 - k) < Z.of_nat fuel ->
  halts (fun x => position r <= position x.1.2) (refine_loop fuel data ac se al k r block).
Proof.
  intros HS. induction fuel as [|fuel IH]; intros k r block Hk F; [lia|]. cbn [refine_loop]. destruct (Z.leb_spec k se); [|cbn; lia].
  run_step. intros [rs r1] [_ A1]. cbn [snd] in A1. cbv zeta beta iota. case_match.
  - eapply halts_bind; [apply read_eob_run_halts|]. intros r2 A2. exact (Z.le_trans _ _ _ A1 A2).
  - eapply (halts_bind (fun x => position r1 <= position x.2)).
    { case_match; [|cbn; lia]. run_step. intros [b r2] A2. exact A2. }
    intros [nv r2] A2. cbn [snd] in A2. eapply halts_bind; [apply refine_run_halts; lia|]. intros [[k2 r3] b3] [K2 A3]. cbn [fst snd] in K2, A3. cbv beta iota.
    eapply halts_mono; [apply IH; lia|]. intros x. cbv beta. lia.
Qed.

Lemma decode_ac_refine_halts ss se al r block : 0 <= ss -> se <= 63 -> halts (forward r) (decode_ac_refine data ac ss se al r block).
Proof.
  intros H1 H2. unfold decode_ac_refine. eapply (halts_bind (fun x => position r <= position x.1.2)).
  { case_match; [apply refine_loop_halts; lia | cbn; lia]. }
  intros [[k r1] b1] A1. cbn [fst snd] in A1. cbv beta iota. case_match; [|exact A1]. eapply (halts_bind (forward r)).
  - apply halts_fold; [|exact A1]. intros [r2 b2] j _ A2. unfold refine_rest. case_match; [|done]. eapply halts_mono; [apply refine_coef_halts|]. unfold forward in *. cbn [fst] in A2. intros x. cbv beta. lia.
  - intros [r2 b2] A2. exact A2.
Qed.
End blocks.

Lemma decode_block_halts data prog p dc ac r pred block : byte_table dc -> byte_table ac -> 0 <= ss p -> se p <= 63 ->
  halts (fun x => position r <= position x.1.1) (decode_block data prog p dc ac r pred block).
Proof.
  intros TD TA H1 H2. unfold decode_block. destruct (negb prog).
  - case_match; [done|]. unfold decode_sequential. run_step. intros [s r1] [_ A1]. cbn [snd] in A1. case_match; [done|]. run_step. intros [x r2] A2. unfold after in A2. cbn [snd] in A2.
    run_step. intros q _. eapply halts_bind; [apply sequential_ac_halts; [done | lia]|]. intros [r3 b] A3. unfold forward in A3. cbn [halts fst] in *. lia.
  - destruct (Z.eqb_spec (ss p) 0).
    + case_match.
      * case_match; [done|]. run_step. intros [s r1] [_ A1]. cbn [snd] in A1. run_step. intros [x r2] A2. unfold after in A2. cbn [snd] in A2. run_step. intros q _. cbn [halts fst]. lia.
      * run_step. intros [b r1] A1. exact A1.
    + case_match; [done|]. case_match.
      * eapply halts_bind; [apply decode_ac_first_halts; [done | lia | lia]|]. intros [r1 b] A1. exact A1.
      * eapply halts_bind; [apply decode_ac_refine_halts; [done | lia | lia]|]. intros [r1 b] A1. exact A1.
Qed.

(** * Scans *)

Lemma skip_to_restart_ge data fuel : forall at_, at_ <= skip_to_restart fuel data at_.
Proof.
  induction fuel as [|fuel IH]; intros at_; cbn [skip_to_restart]; [lia|]. repeat case_match; try lia. specialize (IH (at_ + 1)). lia.
Qed.
Lemma next_marker_ge data fuel : forall at_, at_ <= next_marker fuel data at_ \/ next_marker fuel data at_ = zlen data.
Proof.
  induction fuel as [|fuel IH]; intros at_; cbn [next_marker]; [by right|]. repeat case_match; auto; [left; lia|]. destruct (IH (at_ + 1)); [left; lia | by right].
Qed.

Record tables_fine (d : decoder) : Prop := TablesFine { tf_dc : Forall byte_table (dc_tables d); tf_ac : Forall byte_table (ac_tables d) }.

Section scan.
Context (data : list Z) (d : decoder) (p : scan_params) (start : Z).
Hypothesis tables : tables_fine d.
Hypothesis band : 0 <= ss p /\ se p <= 63.

Definition past (st : scanning) : Prop := start <= position (rd st).

Lemma scan_block_halts slot st yx : past st -> halts past (scan_block data d p slot st yx).
Proof.
  intros PS. destruct yx as [y x]. unfold scan_block. run_step. intros c _. cbv zeta. eapply (halts_bind (fun _ => True)); [unfold get_block; by case_match|]. intros block _.
  eapply halts_bind; [apply halts_index, (tf_dc _ tables)|]. intros dc TD. eapply halts_bind; [apply halts_index, (tf_ac _ tables)|]. intros ac TA.
  eapply halts_bind; [by apply decode_block_halts; [| | apply band..]|]. intros [[r pred] b] A. unfold past in *. cbn [halts rd fst] in *. lia.
Qed.

Lemma check_restart_past scan st : past st -> past (check_restart data d scan st).
Proof.
  unfold past, check_restart, restart. intros PS. repeat case_match; cbn [rd position]; [|done..].
  pose proof (skip_to_restart_ge data (length data) (position (rd st))). lia.
Qed.

Lemma scan_unit_halts scan st yx : past st -> halts past (scan_unit data d p scan st yx).
Proof.
  intros PS. destruct yx as [y x]. unfold scan_unit. cbv zeta. apply halts_fold; [|by apply check_restart_past].
  intros s slot _ PS'. run_step. intros c _. case_match. apply halts_fold; [|done]. intros s' yx _. apply scan_block_halts.
Qed.

Lemma decode_scan_blocks_halts co cs scan : start <= zlen data -> halts (fun x => start <= x.1.1) (decode_scan_blocks data d co cs scan p start).
Proof.
  intros HS. unfold decode_scan_blocks. run_step. intros slot _. run_step. intros c _. case_match. eapply (halts_bind past).
  - apply halts_fold; [intros s yx _; apply scan_unit_halts | unfold past; cbn [rd position]; lia].
  - intros st PS. cbn [halts fst]. unfold past in PS. destruct (next_marker_ge data (length data) (position (rd st))) as [HN | ->]; lia.
Qed.
End scan.

Lemma select_halts header l : forall st, halts (fun _ => True) (foldK (select header) st l).
Proof.
  intros st. apply halts_fold; [|done]. intros [cs scan] k _ _. unfold select. run_step. intros id _. run_step. intros t _. run_step. by intros slot _.
Qed.

Lemma decode_scan_halts data d header start : tables_fine d -> Forall is_byte header -> start <= zlen data ->
  halts (fun x => start <= x.1 /\ tables_fine x.2) (decode_scan data d header start).
Proof.
  intros TF HB HS. unfold decode_scan. run_step. intros n _. case_match; [done|]. eapply halts_bind; [apply select_halts|]. intros [cs scan] _.
  eapply halts_bind; [by apply halts_index|]. intros s SB. run_step. intros e _. run_step. intros a _. cbv beta. destruct ((63 <? s) || (63 <? e) || (e <? s)) eqn:EB; [done|].
  apply orb_false_iff in EB as [[_ E2%Z.ltb_ge]%orb_false_iff _]. run_step. intros co _. eapply halts_bind; [apply decode_scan_blocks_halts; [done | unfold is_byte in SB; cbn [ss se]; lia | done]|].
  intros [[end_ cs'] co'] HE. split; [done|]. cbn [snd]. destruct TF as [T1 T2]. by split.
Qed.

(** * Segments *)

Lemma drop_bytes n l : Forall is_byte l -> Forall is_byte (drop n l).
Proof. apply Forall_drop. Qed.

Lemma read_quant_halts fuel : forall body q, zlen body < Z.of_nat fuel -> halts (fun _ => True) (read_quant fuel body q).
Proof.
  induction fuel as [|fuel IH]; intros body q F; [pose proof (zlen_nonneg body); lia|]. cbn [read_quant]. destruct body as [|b body]; [done|]. cbv zeta. case_match; [done|]. case_match; [done|].
  apply IH. unfold zlen in *. rewrite length_drop. cbn [length] in *. case_match; lia.
Qed.

Lemma build_length_values counts t code i n t' code' i' : Huff.Kernel.build_length counts (t, code, i) n = Some (t', code', i') -> Huff.Kernel.values t' = Huff.Kernel.values t.
Proof. unfold Huff.Kernel.build_length. cbv zeta. repeat case_match; try done; intros [=]; by subst. Qed.
Lemma build_values counts ls : forall t code i t' code' i', Huff.Kernel.foldO (Huff.Kernel.build_length counts) (t, code, i) ls = Some (t', code', i') ->
  Huff.Kernel.values t' = Huff.Kernel.values t.
Proof.
  induction ls as [|n ls IH]; intros t code i t' code' i'; cbn [Huff.Kernel.foldO]; [by intros [=]; subst|].
  destruct (Huff.Kernel.build_length counts (t, code, i) n) as [[[t1 c1] i1]|] eqn:E; [|done]. cbn. intros ->%IH. by apply build_length_values in E.
Qed.
Lemma build_bytes counts values t : Forall is_byte values -> Huff.Kernel.build counts values = Some t -> byte_table t.
Proof.
  intros B. unfold Huff.Kernel.build. cbv zeta. case_match; [done|]. destruct (Huff.Kernel.foldO _ _ _) as [[[t1 c1] i1]|] eqn:E; [|done]. cbn. intros [= <-].
  unfold byte_table. cbn [Huff.Kernel.values]. rewrite (build_values _ _ _ _ _ _ _ _ E). cbn [Huff.Kernel.values]. apply Forall_app. split; [by apply Forall_take|].
  apply Forall_drop. cbn [Huff.Kernel.EMPTY Huff.Kernel.values]. by apply Forall_replicate.
Qed.

Lemma read_huffman_halts fuel : forall body t, Forall is_byte body -> Forall byte_table t.1 -> Forall byte_table t.2 -> zlen body < Z.of_nat fuel ->
  halts (fun t => Forall byte_table t.1 /\ Forall byte_table t.2) (read_huffman fuel body t).
Proof.
  induction fuel as [|fuel IH]; intros body [dc ac] B T1 T2 F; [pose proof (zlen_nonneg body); lia|]. cbn [read_huffman fst snd] in *. destruct (Z.leb_spec 17 (zlen body)) as [HL|]; [|by split].
  cbv zeta. case_match; [done|]. destruct (Z.ltb_spec (zlen body) (17 + zsum (pyslice body 1 17))) as [|HT]; [done|]. run_step. intros t ET.
  apply build_bytes in ET; [|by apply pyslice_bytes].
  assert (HP : 0 <= zsum (pyslice body 1 17)). { apply zsum_nonneg. eapply Forall_impl; [by apply (pyslice_bytes _ 1 17)|]. unfold is_byte. lia. }
  apply IH; [by apply Forall_drop | | | unfold zlen in *; rewrite length_drop; lia]; case_match; cbn [fst snd]; (done || by apply Forall_insert).
Qed.

Lemma read_frame_halts body prog d : tables_fine d -> halts tables_fine (read_frame body prog d).
Proof.
  intros [T1 T2]. unfold read_frame. case_match; [done|]. run_step. intros hh _. run_step. intros ww _. cbv zeta. do 3 (case_match; [done|]).
  eapply (halts_bind (fun _ => True)).
  - apply halts_fold; [|done]. intros cs i _ _. unfold collect_component, frame_component. cbv zeta beta iota. case_match; exact I.
  - intros cs _. case_match. by split.
Qed.

Lemma span_nonneg p l : 0 <= span p l.
Proof. induction l; cbn [span]; [lia | case_match; lia]. Qed.

Lemma skip_while_ge p data at_ : at_ <= skip_while p data at_.
Proof. unfold skip_while. pose proof (span_nonneg p (drop (Z.to_nat at_) data)). lia. Qed.
Lemma byte_at_lt data i b : byte_at data i = Some b -> i < zlen data.
Proof. unfold byte_at, zlen. intros H%lookup_lt_Some. lia. Qed.

Lemma parse_loop_halts data fuel : Forall is_byte data -> forall at_ hf n d, tables_fine d -> Z.max 0 (zlen data - at_) < Z.of_nat fuel ->
  halts (fun _ => True) (parse_loop fuel data at_ hf n d).
Proof.
  intros B. induction fuel as [|fuel IH]; intros at0 hf n d TF F; [lia|]. cbn [parse_loop]. cbv zeta.
  pose proof (Z.le_trans _ _ _ (skip_while_ge (fun b => negb (b =? 255)) data at0) (skip_while_ge (fun b => b =? 255) data _)) as GE. revert GE.
  generalize (skip_while (fun b => b =? 255) data (skip_while (fun b => negb (b =? 255)) data at0)). intros at1 GE.
  destruct (byte_at data at1) as [m|] eqn:EM; [|done]. apply byte_at_lt in EM. case_match; [apply IH; [done | lia]|]. case_match; [done|].
  run_step. intros len _. destruct ((len <? 2) || (zlen data <? at1 + 1 + len)) eqn:EL; [done|]. apply orb_false_iff in EL as [L1%Z.ltb_ge L2%Z.ltb_ge].
  pose proof (pyslice_bytes data (at1 + 1 + 2) (at1 + 1 + len) B) as BB. revert BB. generalize (pyslice data (at1 + 1 + 2) (at1 + 1 + len)). intros body BB. pose proof TF as [T1 T2].
  assert (GO : forall h k d', tables_fine d' -> halts (fun _ => True) (parse_loop fuel data (at1 + 1 + len) h k d')) by (intros; apply IH; [done | lia]).
  case_match. { eapply halts_bind; [apply read_quant_halts; unfold zlen; lia|]. intros q _. apply GO. by split. }
  case_match. { eapply halts_bind; [apply read_huffman_halts; [done | done | done | unfold zlen; lia]|]. intros t [U1 U2]. apply GO. by split. }
  case_match. { run_step. intros k _. apply GO. by split. }
  case_match. { apply GO. by split. }
  case_match. { case_match; [done|]. eapply halts_bind; [by apply read_frame_halts|]. intros d' TF'. by apply GO. }
  case_match; [done|]. case_match; [|by apply GO]. case_match; [done|].
  eapply halts_bind; [apply decode_scan_halts; [done | done | lia]|]. intros [end_ d'] [HE TF']. cbn [fst snd] in *. apply IH; [done | lia].
Qed.

(** C15: The decoder ends on every file, with a picture's coefficients, an error or
    a panic. *)
Theorem parse_terminates data : Forall is_byte data -> parse data <> Unfinished.
Proof.
  intros B. unfold parse. assert (halts (fun _ => True) (parse_loop (S (length data)) data 2 false 0 START)) as HP.
  { apply parse_loop_halts; [done | | unfold zlen; lia]. split; apply Forall_replicate; by apply Forall_replicate. }
  destruct (parse_loop _ _ _ _ _ _) as [[[hf n] d]| | |]; [|done..]. cbn. by case_match.
Qed.
Lemma parse_terminates_witness : Forall is_byte [255; 216; 255; 219; 0; 3; 5; 255; 217] /\ parse [255; 216; 255; 219; 0; 3; 5; 255; 217] <> Unfinished.
Proof.
  assert (B : Forall is_byte [255; 216; 255; 219; 0; 3; 5; 255; 217]) by (repeat (constructor; [unfold is_byte; lia|]); constructor).
  split; [exact B|]. exact (parse_terminates _ B).
Defined.
