(* ===== verification/JpegRead.v ===== *)
(** JpegRead: the entropy-coded data of a baseline file, read by the tool and by
    the kernel.

    Both read the same bits; a block the tool decodes is decoded by the kernel
    to the same coefficients, as long as they fit its sixteen bits. *)
From Stdlib Require Import ZArith Lia List.
From stdpp Require Import base list gmap strings.
From S2P Require Import Prelude Text Arrays Machine Huff Png Jpeg JpegBits JpegScan JpegFirst.
Open Scope Z_scope.
Import Jpeg.Kernel.

(** * Bits *)

Lemma read_bits_peek raw p n : 0 <= n -> Tool.read_bits raw p n = (peek (Tool.raw_bit raw) p n, p + n).
Proof.
  intros Hn. unfold Tool.read_bits. revert n Hn. apply natlike_ind; [by rewrite Z.add_0_r|]. intros n Hn IH. change (Z.succ n) with (n + 1).
  rewrite pyrange_snoc, foldl_app, IH, peek_succ by lia. cbn [foldl]. pose proof (raw_bit_range raw (p + n)). rewrite lor_shiftl_add by (change (2 ^ 1) with 2; lia).
  change (2 ^ 1) with 2. f_equal; lia.
Qed.

(** The number [n] bits stand for. *)
Definition difference (raw : list Z) (p n : Z) : Z := if n =? 0 then 0 else Tool.extend (peek (Tool.raw_bit raw) p n) n.

Lemma difference_range raw p n : 0 < n -> 2 ^ (n - 1) <= Z.abs (difference raw p n) < 2 ^ n.
Proof.
  intros Hn. unfold difference, Tool.extend. rewrite (proj2 (Z.eqb_neq n 0)) by lia. cbn [negb andb]. pose proof (peek_bound _ (raw_bit_range raw) p n ltac:(lia)) as PB.
  rewrite !Z.shiftl_1_l. assert (E : 2 ^ n = 2 * 2 ^ (n - 1)) by (rewrite <- Z.pow_succ_r by lia; f_equal; lia). set (x := peek _ p n) in *. set (y := 2 ^ (n - 1)) in *.
  destruct (Z.ltb_spec x y); lia.
Qed.

(** A code: the tool's dictionary and the kernel's table have its words. *)
Definition same_code (tool : gmap (Z * Z) Z) (kernel : huffman) : Prop := exists cnt vals,
  zlen cnt = 16 /\ nonneg cnt /\ zsum cnt <= zlen vals /\ zsum cnt <= 256 /\ Forall is_byte vals
  /\ (forall L c s, tool !! (L, c) = Some s <-> word cnt vals L c s) /\ table_ok cnt vals kernel.

Section reader.
Context (data : list Z) (start : Z) (raw tail : list Z).
Hypothesis C : coded data start raw tail.
#[warnings="-notation-for-abbreviation"] Local Notation B := (Tool.raw_bit raw).

Lemma decode_lengths_word cnt vals t p : (forall L c s, t !! (L, c) = Some s <-> word cnt vals L c s) -> forall n L s p', Z.of_nat n = 17 - L -> 1 <= L ->
  Tool.decode_lengths raw t (pyrange L 17) (peek B p (L - 1)) (p + (L - 1)) = Ret (s, p') -> exists L', word cnt vals L' (peek B p L') s /\ p' = p + L'.
Proof.
  intros T. induction n as [|n IH]; intros L s p' HL H1 E; [by rewrite pyrange_nil in E by lia|]. rewrite pyrange_cons in E by lia. cbn [Tool.decode_lengths] in E. cbv zeta in E.
  pose proof (raw_bit_range raw (p + (L - 1))). rewrite lor_shiftl_add in E by (change (2 ^ 1) with 2; lia). change (2 ^ 1) with 2 in E.
  assert (EP : peek B p L = peek B p (L - 1) * 2 + B (p + (L - 1))) by (replace L with (L - 1 + 1) at 1 by lia; rewrite peek_succ by lia; lia).
  rewrite <- EP in E. destruct (t !! (L, peek B p L)) as [s'|] eqn:ET.
  - injection E as -> <-. exists L. split; [by apply T | lia].
  - apply (IH (L + 1)); [lia | lia|]. replace (L + 1 - 1) with L by lia. replace (p + L) with (p + (L - 1) + 1) by lia. exact E.
Qed.

Lemma symbols_agree tool kernel r p s p' : same_code tool kernel -> reads start raw r p -> Tool.decode_symbol raw tool p = Ret (s, p') ->
  is_byte s /\ exists r', decode data kernel r = Ok (s, r') /\ reads start raw r' p' /\ eob_run r' = eob_run r.
Proof.
  intros (cnt & vals & LC & PC & EN & SM & BV & T & K) R E. destruct C as [C1 C2 C3 C4]. unfold Tool.decode_symbol in E. rewrite <- (Z.add_0_r p) in E.
  destruct (decode_lengths_word cnt vals tool p T 16 1 s p') as (L & W & ->); [lia | lia | exact E|].
  split; [by apply (word_symbol cnt vals BV L (peek B p L))|]. by apply (decode_word data start raw tail C1 C2 C3 C4 cnt vals kernel LC PC EN SM BV K r p L).
Qed.

Lemma i32_small {E} x : Z.abs x < 2147483648 -> i32 (E := E) x = Ok x.
Proof. intros H. unfold i32, checked. rewrite (proj2 (Z.leb_le _ x)), (proj2 (Z.leb_le x _)) by lia. done. Qed.

Lemma receives r p n : 0 <= n <= 16 -> reads start raw r p ->
  exists r', receive_extend data n r = Ok (difference raw p n, r') /\ reads start raw r' (p + n) /\ eob_run r' = eob_run r.
Proof.
  intros Hn R. destruct C as [C1 C2 C3 C4]. unfold receive_extend, difference. destruct (Z.eqb_spec n 0) as [->|N]; [exists r; by rewrite Z.add_0_r|].
  destruct (bits_reads data start raw tail C1 C2 C3 C4 r p n R ltac:(lia)) as (r' & -> & R' & E'). rewrite ok_bind. cbn beta iota. exists r'. split; [|done].
  pose proof (peek_bound _ (raw_bit_range raw) p n ltac:(lia)) as PB. pose proof (Z.pow_le_mono_r 2 n 16 ltac:(lia) ltac:(lia)) as P16. change (2 ^ 16) with 65536 in P16.
  pose proof (Z.pow_le_mono_r 2 (n - 1) n ltac:(lia) ltac:(lia)) as P1. pose proof (Z.pow_nonneg 2 (n - 1) ltac:(lia)). set (x := peek B p n) in *.
  cbv zeta. rewrite !Z.shiftl_1_l, !as_i32_small by lia. unfold Tool.extend. rewrite (proj2 (Z.eqb_neq n 0) N), !Z.shiftl_1_l. cbn [negb andb].
  destruct (x <? 2 ^ (n - 1)); [|done]. rewrite i32_small, ok_bind by lia. by rewrite i32_small, ok_bind by lia.
Qed.

(** * Blocks *)

Lemma symbol_halves rs : is_byte rs -> 0 <= Z.shiftr rs 4 <= 15 /\ 0 <= Z.land rs 15 <= 15.
Proof.
  unfold is_byte. intros H. rewrite Z.shiftr_div_pow2 by lia. change 15 with (Z.ones 4) at 2 3. rewrite Z.land_ones by lia. change (2 ^ 4) with 16. change (Z.ones 4) with 15.
  pose proof (Z.mod_pos_bound rs 16 ltac:(lia)). pose proof (Z.div_pos rs 16 ltac:(lia) ltac:(lia)). pose proof (Z.div_lt_upper_bound rs 16 16 ltac:(lia) ltac:(lia)). lia.
Qed.

Section block.
Context (tool : gmap (Z * Z) Z) (kernel : huffman).
Hypothesis code : same_code tool kernel.

(** The AC coefficients: those of the kernel are the tool's. *)
Lemma ac_agree fuel : forall k p block r p' block', 1 <= k -> zlen block = 64 -> reads start raw r p ->
  Tool.decode_ac fuel raw tool k p block = Ret (p', block') ->
  exists r', sequential_ac fuel data kernel k r block = Ok (r', block') /\ reads start raw r' p' /\ eob_run r' = eob_run r.
Proof.
  induction fuel as [|fuel IH]; intros k p block r p' block' Hk LB R E; [done|]. cbn [Tool.decode_ac sequential_ac] in *. destruct (k <? 64); [|injection E as <- <-; by exists r].
  apply bind_ret_inv in E as ([rs p1] & E1 & E). destruct (symbols_agree tool kernel r p rs p1 code R E1) as (BS & r1 & -> & R1 & V1). rewrite ok_bind. cbn beta iota zeta in E |- *.
  destruct (symbol_halves rs BS) as [H1 H2]. set (run := Z.shiftr rs 4) in *. set (s := Z.land rs 15) in *. destruct (Z.eqb_spec s 0) as [S0|S0].
  - destruct (run =? 15); cbn [negb].
    + destruct (IH (k + 16) p1 block r1 p' block' ltac:(lia) LB R1 E) as (r' & -> & R' & V'). exists r'. split_and!; (done || congruence).
    + injection E as <- <-. by exists r1.
  - rewrite read_bits_peek in E by lia. apply bind_ret_inv in E as (z & E2 & E). apply bind_ret_inv in E as (b & E3 & E).
    destruct (Z.ltb_spec 63 (k + run)) as [HK|HK].
    { exfalso. unfold pyget in E2. cbv zeta in E2. rewrite !(proj2 (Z.ltb_ge (k + run) 0)) in E2 by lia. rewrite lookup_ge_None_2 in E2 by (cbn [ZIGZAG length]; lia). done. }
    rewrite pyget_zat in E2 by (change (zlen ZIGZAG) with 64; lia). injection E2 as <-. pose proof (zig_range (k + run) ltac:(lia)) as ZR. change (zat ZIGZAG (k + run)) with (zig (k + run)) in *.
    rewrite pyset_zset in E3 by lia. injection E3 as <-. destruct (receives r1 p1 s ltac:(lia) R1) as (r2 & -> & R2 & V2). rewrite ok_bind. cbn beta iota.
    pose proof (difference_range raw p1 s ltac:(lia)) as DR. pose proof (Z.pow_le_mono_r 2 s 15 ltac:(lia) ltac:(lia)) as P15. change (2 ^ 15) with 32768 in P15.
    rewrite as_i16_small by lia. unfold difference. rewrite (proj2 (Z.eqb_neq s 0) S0).
    destruct (IH (k + run + 1) (p1 + s) (zset block (zig (k + run)) (Tool.extend (peek B p1 s) s)) r2 p' block') as (r' & -> & R' & V'); [lia | by rewrite zlen_zset | done | done |].
    exists r'. split_and!; (done || congruence).
Qed.
End block.

Definition in_i16 (x : Z) : Prop := -32768 <= x <= 32767.

(** A whole block, whose DC coefficient fits. *)
Lemma block_agrees tables dc_id ac_id dc ac p pred block r p' pred' block' : 
  (forall t, tables !! (0, dc_id) = Some t -> same_code t dc) -> (forall t, tables !! (1, ac_id) = Some t -> same_code t ac) ->
  zlen block = 64 -> reads start raw r p -> in_i16 pred -> in_i16 pred' ->
  Tool.decode_block raw tables dc_id ac_id p pred block = Ret (p', pred', block') ->
  exists r', decode_sequential data dc ac r pred block = Ok (r', pred', block') /\ reads start raw r' p'.
Proof.
  intros TD TA LB R I1 I2 E. unfold Tool.decode_block, Tool.lookup_key in E. unfold in_i16 in *. apply bind_ret_inv in E as (t & ET & E). destruct (tables !! (0, dc_id)) as [t'|] eqn:E0; [|done]. injection ET as ->.
  apply bind_ret_inv in E as ([n p1] & E1 & E). destruct (symbols_agree t dc r p n p1 (TD t eq_refl) R E1) as (BN & r1 & ED & R1 & _). unfold is_byte in BN.
  rewrite read_bits_peek in E by lia. cbn beta iota zeta in E. fold (difference raw p1 n) in E. apply bind_ret_inv in E as (b & E2 & E). rewrite pyset_zset in E2 by lia. injection E2 as <-.
  apply bind_ret_inv in E as (t2 & ET2 & E). destruct (tables !! (1, ac_id)) as [t2'|] eqn:E0'; [|done]. injection ET2 as ->.
  apply bind_ret_inv in E as ([p2 b2] & E3 & E). injection E as <- EP <-. unfold decode_sequential. rewrite ED, ok_bind. cbn beta iota.
  assert (HN : n <= 16).
  { destruct (Z.le_gt_cases n 16); [done|]. exfalso. pose proof (difference_range raw p1 n ltac:(lia)) as DR. pose proof (Z.pow_le_mono_r 2 16 (n - 1) ltac:(lia) ltac:(lia)). change (2 ^ 16) with 65536 in *. lia. }
  rewrite (proj2 (Z.ltb_ge 16 n)) by lia. destruct (receives r1 p1 n ltac:(lia) R1) as (r2 & -> & R2 & _). rewrite ok_bind. cbn beta iota. rewrite EP, i32_small, ok_bind by lia.
  rewrite as_i16_small by lia. rewrite EP in E3. destruct (ac_agree t2 ac (TA t2 eq_refl) 64 1 (p1 + n) (zset block 0 pred') r2 p2 b2) as (r' & -> & R' & _); [lia | by rewrite zlen_zset | done | done|].
  rewrite ok_bind. by exists r'.
Qed.
End reader.

(** * What a decoded block is *)

(** The AC coefficients have at most fifteen bits. *)
Record ac_ok (block : list Z) : Prop := AcOk {
  ak_len : zlen block = 64;
  ak_ac : forall k, 1 <= k < 64 -> Z.abs (zz block k) < 32768
}.

Lemma symbol_word raw tool kernel p s p' : same_code tool kernel -> Tool.decode_symbol raw tool p = Ret (s, p') -> is_byte s.
Proof.
  intros (cnt & vals & LC & PC & EN & SM & BV & T & K) E. unfold Tool.decode_symbol in E. rewrite <- (Z.add_0_r p) in E.
  destruct (decode_lengths_word raw cnt vals tool p T 16 1 s p') as (L & W & _); [lia | lia | exact E|]. by apply (word_symbol cnt vals BV L (peek (Tool.raw_bit raw) p L)).
Qed.

Lemma ac_shape raw tool kernel fuel : same_code tool kernel -> forall k p block p' block', 1 <= k -> ac_ok block ->
  Tool.decode_ac fuel raw tool k p block = Ret (p', block') -> ac_ok block' /\ zat block' 0 = zat block 0.
Proof.
  intros CO. induction fuel as [|fuel IH]; intros k p block p' block' Hk AK E; [done|]. cbn [Tool.decode_ac] in E. destruct (k <? 64); [|by injection E as <- <-].
  apply bind_ret_inv in E as ([rs p1] & E1 & E). pose proof (symbol_word raw tool kernel p rs p1 CO E1) as BS. cbn beta iota zeta in E.
  destruct (symbol_halves rs BS) as [H1 H2]. set (run := Z.shiftr rs 4) in *. set (s := Z.land rs 15) in *. destruct (Z.eqb_spec s 0) as [S0|S0].
  - destruct (run =? 15); [by apply (IH (k + 16) p1 block p' block' ltac:(lia)) | by injection E as <- <-].
  - rewrite read_bits_peek in E by lia. apply bind_ret_inv in E as (z & E2 & E). apply bind_ret_inv in E as (b & E3 & E). destruct AK as [LB AC].
    destruct (Z.ltb_spec 63 (k + run)) as [HK|HK].
    { exfalso. unfold pyget in E2. cbv zeta in E2. rewrite !(proj2 (Z.ltb_ge (k + run) 0)) in E2 by lia. rewrite lookup_ge_None_2 in E2 by (cbn [ZIGZAG length]; lia). done. }
    rewrite pyget_zat in E2 by (change (zlen ZIGZAG) with 64; lia). injection E2 as <-. pose proof (zig_range (k + run) ltac:(lia)) as ZR. change (zat ZIGZAG (k + run)) with (zig (k + run)) in *.
    rewrite pyset_zset in E3 by lia. injection E3 as <-. pose proof (difference_range raw p1 s ltac:(lia)) as DR. unfold difference in DR. rewrite (proj2 (Z.eqb_neq s 0) S0) in DR.
    pose proof (Z.pow_le_mono_r 2 s 15 ltac:(lia) ltac:(lia)) as P15. change (2 ^ 15) with 32768 in P15.
    destruct (IH (k + run + 1) (p1 + s) (zset block (zig (k + run)) (Tool.extend (peek (Tool.raw_bit raw) p1 s) s)) p' block' ltac:(lia)) as [A1 A2]; [|done|].
    + split; [by rewrite zlen_zset|]. intros j Hj. unfold zz. pose proof (zig_range j ltac:(lia)). rewrite zat_zset by lia. destruct (zig j =? zig (k + run)); [lia | by apply AC].
    + split; [done|]. rewrite A2, zat_zset by lia. rewrite (proj2 (Z.eqb_neq 0 (zig (k + run)))); [done|]. intros E0. assert (0 = k + run) by (apply zig_inj; [lia | lia | exact E0]). lia.
Qed.

Lemma block_shape raw tables dc_id ac_id kernel p pred block p' pred' block' : (forall t, tables !! (1, ac_id) = Some t -> same_code t kernel) -> ac_ok block ->
  Tool.decode_block raw tables dc_id ac_id p pred block = Ret (p', pred', block') -> ac_ok block' /\ zat block' 0 = pred'.
Proof.
  intros TA [LB AC] E. unfold Tool.decode_block, Tool.lookup_key in E. apply bind_ret_inv in E as (t & _ & E). apply bind_ret_inv in E as ([n p1] & _ & E).
  destruct (Tool.read_bits raw p1 n) as [x p2]. cbv zeta beta iota in E. apply bind_ret_inv in E as (b & E2 & E). rewrite pyset_zset in E2 by lia. injection E2 as <-.
  apply bind_ret_inv in E as (t2 & ET2 & E). destruct (tables !! (1, ac_id)) as [t2'|] eqn:E0'; [|done]. injection ET2 as ->.
  apply bind_ret_inv in E as ([p3 b3] & E3 & E). injection E as <- <- <-. apply (ac_shape raw t2 kernel 64 (TA t2 eq_refl)) in E3 as [A1 A2]; [|lia|].
  - split; [done|]. rewrite A2, zat_zset by lia. done.
  - split; [by rewrite zlen_zset|]. intros k Hk. unfold zz. pose proof (zig_range k ltac:(lia)). rewrite zat_zset by lia.
    rewrite (proj2 (Z.eqb_neq (zig k) 0)); [by apply AC|]. intros E0. assert (k = 0) by (apply zig_inj; [lia | lia | exact E0]). lia.
Qed.
