(* ===== verification/JpegBaseline.v ===== *)
(** JpegBaseline: the scan of a baseline file.

    The tool's loops over the blocks are one walk over the items of the scan
    ([read_item]), and the kernel's walk over the same items gives the same
    blocks. *)
From Stdlib Require Import ZArith Lia List.
From stdpp Require Import base list gmap strings.
From S2P Require Import Prelude Text Arrays Machine Huff Png Jpeg JpegBits JpegScan JpegFirst JpegRefine JpegBlocks JpegLevels JpegKinds JpegTables JpegFile JpegWhole JpegWrite JpegFrame JpegRead.
Open Scope Z_scope.
Import Jpeg.Kernel.

(** * Folds that return *)

Lemma foldM_flatten_ret {S A B} (P : S -> Prop) (f : S -> A -> py S) (g : S -> B -> py S) (items : A -> list B) l s s' :
  (forall a s s', a ∈ l -> P s -> f s a = Ret s' -> foldM g s (items a) = Ret s') -> (forall s b s', P s -> g s b = Ret s' -> P s') -> P s ->
  foldM f s l = Ret s' -> foldM g s (concat (items <$> l)) = Ret s'.
Proof.
  intros H K. revert s. induction l as [|a l IH]; intros s Hs E; [done|]. cbn [foldM fmap list_fmap concat] in *. apply bind_ret_inv in E as (s1 & E1 & E).
  pose proof (H a s s1 ltac:(constructor) Hs E1) as E2. rewrite foldM_app, E2, py_ret_bind. apply IH; [intros; eapply H; [by constructor | done | done] | | done].
  eapply (foldM_invariant P); [|exact Hs | exact E2]. intros. eauto.
Qed.
Lemma foldM_map_ret {S A B} (P : S -> Prop) (f : S -> A -> py S) (g : S -> B -> py S) (h : A -> B) l s s' :
  (forall a s s', a ∈ l -> P s -> f s a = Ret s' -> g s (h a) = Ret s') -> (forall s b s', P s -> g s b = Ret s' -> P s') -> P s ->
  foldM f s l = Ret s' -> foldM g s (h <$> l) = Ret s'.
Proof.
  intros H K Hs E. assert (EC : h <$> l = concat ((fun a => [h a]) <$> l)) by (clear; induction l as [|a l IH]; [done|]; cbn; by rewrite IH).
  rewrite EC. revert E. apply (foldM_flatten_ret P); [|done | done]. intros a s0 s1 Ha Hs0 E. cbn [foldM]. by rewrite (H a s0 s1 Ha Hs0 E).
Qed.

(** * The tool's walk *)

(** The components without their blocks. *)
Definition skeleton (cs : list Tool.comp) : list Tool.comp := (fun c => Tool.set_blocks c []) <$> cs.

Lemma skeleton_slot cs cs' i c : skeleton cs = skeleton cs' -> at_slot cs i = Some c -> exists c', at_slot cs' i = Some c' /\ Tool.set_blocks c [] = Tool.set_blocks c' [].
Proof.
  unfold at_slot, skeleton. destruct (i <? 0); [done|]. intros E H. assert (E' := f_equal (.!! Z.to_nat i) E). cbn in E'. rewrite !list_lookup_fmap, H in E'. cbn in E'.
  destruct (cs' !! Z.to_nat i) as [c'|]; [|done]. exists c'. split; [done|]. cbn in E'. congruence.
Qed.
Lemma skeleton_insert cs i c bs : at_slot cs i = Some c -> skeleton (<[Z.to_nat i := Tool.set_blocks c bs]> cs) = skeleton cs.
Proof. unfold at_slot, skeleton. destruct (i <? 0); [done|]. intros H. rewrite list_fmap_insert. apply list_insert_id. rewrite list_lookup_fmap, H. done. Qed.

Lemma pyget_slot {A} (l : list A) i a : 0 <= i -> pyget l i = Ret a -> at_slot l i = Some a.
Proof.
  intros Hi. unfold pyget, at_slot. cbv zeta. rewrite !(proj2 (Z.ltb_ge i 0)) by lia. destruct (l !! Z.to_nat i); [|done]. by intros [= ->].
Qed.
Lemma pyset_slot {A} (l : list A) i a l' : 0 <= i -> pyset l i a = Ret l' -> l' = <[Z.to_nat i := a]> l.
Proof.
  intros Hi. unfold pyset. cbv zeta. rewrite !(proj2 (Z.ltb_ge i 0)) by lia. case_match; [|done]. by intros [= <-].
Qed.

Section tool.
Context (raw : list Z) (decoders : gmap (Z * Z) (gmap (Z * Z) Z)) (scan_tables : gmap Z (Z * Z)).

(** The body of the loops, for one block. *)
Definition read_item (st : Tool.decoding) (it : item) : py Tool.decoding :=
  c ← pyget (Tool.components st) it.1;
  '(dc_id, ac_id) ← Tool.lookup_key scan_tables (Tool.id c);
  let index := it.2.1 * Tool.blocks_w c + it.2.2 in
  block ← pyget (Tool.blocks c) index;
  predictor ← pyget (Tool.predictors st) it.1;
  '(bitpos, predictor, block) ← Tool.decode_block raw decoders dc_id ac_id (Tool.bitpos st) predictor block;
  predictors ← pyset (Tool.predictors st) it.1 predictor;
  bs ← pyset (Tool.blocks c) index block;
  cs ← pyset (Tool.components st) it.1 (Tool.set_blocks c bs);
  Ret (Tool.Decoding bitpos predictors cs).

(** A round that returned: the block [b] became [b'], the predictor [q] became [q']. *)
Record round (st : Tool.decoding) (it : item) (st' : Tool.decoding) (c : Tool.comp) (dc_id ac_id q q' : Z) (b b' : list Z) : Prop := Round {
  rn_comp : at_slot (Tool.components st) it.1 = Some c;
  rn_tables : scan_tables !! Tool.id c = Some (dc_id, ac_id);
  rn_block : at_slot (Tool.blocks c) (it.2.1 * Tool.blocks_w c + it.2.2) = Some b;
  rn_pred : at_slot (Tool.predictors st) it.1 = Some q;
  rn_decoded : Tool.decode_block raw decoders dc_id ac_id (Tool.bitpos st) q b = Ret (Tool.bitpos st', q', b');
  rn_preds : Tool.predictors st' = <[Z.to_nat it.1 := q']> (Tool.predictors st);
  rn_comps : Tool.components st' = <[Z.to_nat it.1 := Tool.set_blocks c (<[Z.to_nat (it.2.1 * Tool.blocks_w c + it.2.2) := b']> (Tool.blocks c))]> (Tool.components st)
}.

Lemma read_item_round st it st' : 0 <= it.1 -> (forall c, at_slot (Tool.components st) it.1 = Some c -> 0 <= it.2.1 * Tool.blocks_w c + it.2.2) ->
  read_item st it = Ret st' -> exists c dc_id ac_id q q' b b', round st it st' c dc_id ac_id q q' b b'.
Proof.
  intros H1 HI E. unfold read_item in E. apply bind_ret_inv in E as (c & EC & E). apply pyget_slot in EC; [|done]. specialize (HI c EC). cbv zeta in E.
  apply bind_ret_inv in E as ([dc_id ac_id] & ET & E). unfold Tool.lookup_key in ET. destruct (scan_tables !! Tool.id c) as [ids|] eqn:ES; [|done]. injection ET as ->.
  apply bind_ret_inv in E as (b & EB & E). apply pyget_slot in EB; [|done]. apply bind_ret_inv in E as (q & EQ & E). apply pyget_slot in EQ; [|done].
  apply bind_ret_inv in E as ([[p' q'] b'] & ED & E). apply bind_ret_inv in E as (ps & EP & E). apply pyset_slot in EP; [|done]. apply bind_ret_inv in E as (bs & EBS & E). apply pyset_slot in EBS; [|done].
  apply bind_ret_inv in E as (cs & ECS & E). apply pyset_slot in ECS; [|done]. injection E as <-. subst. exists c, dc_id, ac_id, q, q', b, b'. by split.
Qed.

Lemma round_skeleton st it st' c dc_id ac_id q q' b b' : round st it st' c dc_id ac_id q q' b b' -> skeleton (Tool.components st') = skeleton (Tool.components st).
Proof. intros R. rewrite (rn_comps _ _ _ _ _ _ _ _ _ _ R). apply skeleton_insert, (rn_comp _ _ _ _ _ _ _ _ _ _ R). Qed.

Section walk.
Context (im0 : Tool.image).
#[warnings="-notation-for-abbreviation"] Local Notation n := (zlen (Tool.comps im0)).
Hypothesis sizes : forall i c, at_slot (Tool.comps im0) i = Some c -> measured im0 c.
Hypothesis lone_plain : n = 1 -> forall c, at_slot (Tool.comps im0) 0 = Some c -> Tool.h c = 1 /\ Tool.v c = 1 /\ Tool.real_w c = Tool.blocks_w c /\ Tool.real_h c = Tool.blocks_h c.
Hypothesis some : 1 <= n.

Definition kept (st : Tool.decoding) : Prop := skeleton (Tool.components st) = skeleton (Tool.comps im0).

Lemma decode_one_item my mx ci st yx st' c dc_id ac_id : kept st -> at_slot (Tool.comps im0) ci = Some c -> scan_tables !! Tool.id c = Some (dc_id, ac_id) ->
  Tool.decode_one raw decoders dc_id ac_id mx my ci st yx = Ret st' -> read_item st (ci, (my * Tool.v c + yx.1, mx * Tool.h c + yx.2)) = Ret st'.
Proof.
  intros K EC ET E. destruct yx as [y x]. unfold Tool.decode_one in E. unfold read_item. cbn [fst snd]. apply bind_ret_inv in E as (c1 & E1 & E). rewrite E1, py_ret_bind.
  destruct (skeleton_slot (Tool.comps im0) (Tool.components st) ci c ltac:(done) EC) as (c1' & E1' & SK). rewrite (at_slot_pyget _ _ _ E1') in E1. injection E1 as ->.
  assert (Tool.id c1 = Tool.id c /\ Tool.v c1 = Tool.v c /\ Tool.h c1 = Tool.h c) as (I1 & I2 & I3) by (split_and!; [exact (eq_sym (f_equal Tool.id SK)) | exact (eq_sym (f_equal Tool.v SK)) | exact (eq_sym (f_equal Tool.h SK))]).
  unfold Tool.lookup_key. rewrite I1, ET. cbn [of_opt]. rewrite py_ret_bind, <- I2, <- I3, Z.add_assoc. cbv beta iota zeta. exact E.
Qed.

Lemma set_skeleton cs i c bs cs' : pyget cs i = Ret c -> pyset cs i (Tool.set_blocks c bs) = Ret cs' -> skeleton cs' = skeleton cs.
Proof.
  unfold pyget, pyset. cbv zeta. set (j := if i <? 0 then i + zlen cs else i). case_match; [done|]. destruct (cs !! Z.to_nat j) as [c'|] eqn:E; [|done]. intros [= ->]. case_match; [|done]. intros [= <-].
  unfold skeleton. rewrite list_fmap_insert. apply list_insert_id. by rewrite list_lookup_fmap, E.
Qed.
Lemma read_item_kept st it st' : kept st -> read_item st it = Ret st' -> kept st'.
Proof.
  intros K E. unfold read_item in E. apply bind_ret_inv in E as (c & EC & E). cbv zeta in E. apply bind_ret_inv in E as ([dc_id ac_id] & _ & E). do 2 apply bind_ret_inv in E as (? & _ & E).
  apply bind_ret_inv in E as ([[p' q'] b'] & _ & E). do 2 apply bind_ret_inv in E as (? & _ & E). apply bind_ret_inv in E as (cs & ECS & E). injection E as <-. unfold kept. cbn [Tool.components]. by rewrite (set_skeleton _ _ _ _ _ EC ECS).
Qed.

(** One component of a unit. *)
Lemma decode_comp_items my mx ci st st' c : kept st -> at_slot (Tool.comps im0) ci = Some c -> 0 <= ci ->
  Tool.decode_comp raw decoders scan_tables mx my st ci = Ret st' ->
  foldM read_item st ((fun '(y, x) => (ci, (my * Tool.v c + y, mx * Tool.h c + x))) <$> Tool.grid (Tool.v c) (Tool.h c)) = Ret st'.
Proof.
  intros K EC HC E. unfold Tool.decode_comp in E. apply bind_ret_inv in E as (c1 & E1 & E). apply pyget_slot in E1; [|done].
  destruct (skeleton_slot (Tool.components st) (Tool.comps im0) ci c1 K E1) as (c' & E' & SK). rewrite EC in E'. injection E' as <-.
  assert (Tool.id c1 = Tool.id c /\ Tool.v c1 = Tool.v c /\ Tool.h c1 = Tool.h c) as (I1 & I2 & I3) by (split_and!; [exact (f_equal Tool.id SK) | exact (f_equal Tool.v SK) | exact (f_equal Tool.h SK)]).
  rewrite I1, I2, I3 in E. apply bind_ret_inv in E as ([dc_id ac_id] & ET & E). unfold Tool.lookup_key in ET. destruct (scan_tables !! Tool.id c) as [ids|] eqn:ES; [|done]. injection ET as ->.
  revert E. apply (foldM_map_ret kept); [|apply read_item_kept | done]. intros [y x] s s' _ Ks E. exact (decode_one_item my mx ci s (y, x) s' c dc_id ac_id Ks EC ES E).
Qed.

#[warnings="-notation-for-abbreviation"] Local Notation cis := (pyrange 0 n).

Lemma slot_some ci : 0 <= ci < n -> exists c, at_slot (Tool.comps im0) ci = Some c.
Proof. intros H. unfold at_slot. rewrite (proj2 (Z.ltb_ge ci 0)) by lia. apply lookup_lt_is_Some_2. unfold zlen in H. lia. Qed.

(** The units of the tool are those of the scan, also for a lone component. *)
Lemma unit_walk my mx : unit_items (tool_geo im0) cis (my, mx)
  = concat ((fun ci => match at_slot (Tool.comps im0) ci with
      Some c => (fun '(y, x) => (ci, (my * Tool.v c + y, mx * Tool.h c + x))) <$> Tool.grid (Tool.v c) (Tool.h c) | None => [] end) <$> cis).
Proof.
  unfold unit_items. f_equal. apply list_fmap_ext. intros i ci Hi. apply list_elem_of_lookup_2, elem_of_pyrange in Hi. unfold tool_geo.
  destruct (slot_some ci Hi) as (c & E). rewrite E. cbn [fst snd]. rewrite zlen_pyrange by lia. destruct (Z.ltb_spec 1 (n - 0)) as [|L1]; [done|]. assert (N1 : n = 1) by lia. replace ci with 0 in * by lia.
  destruct (lone_plain N1 c E) as (-> & -> & _). change (Tool.grid 1 1) with [(0, 0)]. cbn. by rewrite !Z.add_0_r, !Z.mul_1_r.
Qed.
Lemma units_walk : tool_units im0 cis = (Tool.mcus_y im0, Tool.mcus_x im0).
Proof.
  unfold tool_units. rewrite zlen_pyrange by lia. destruct (Z.ltb_spec 1 (n - 0)) as [|L1]; [done|]. assert (N1 : n = 1) by lia. rewrite N1.
  change (head (pyrange 0 1)) with (Some 0). cbn [mbind option_bind]. destruct (slot_some 0 ltac:(lia)) as (c & E). rewrite E.
  destruct (lone_plain N1 c E) as (H1 & V1 & -> & ->). destruct (sizes 0 c E) as [_ -> -> _ _ _]. rewrite H1, V1. by rewrite !Z.mul_1_r.
Qed.

Lemma decode_image_items im : Tool.decode_image raw decoders scan_tables im0 = Ret im ->
  exists st, foldM read_item (Tool.Decoding 0 (replicate (length (Tool.comps im0)) 0) (Tool.comps im0)) (tool_items im0 cis) = Ret st
    /\ im = Tool.Image (Tool.mcus_x im0) (Tool.mcus_y im0) (Tool.components st).
Proof.
  unfold Tool.decode_image. intros E. apply bind_ret_inv in E as (st & E & [= <-]). exists st. split; [|done]. unfold tool_items, scan_items. rewrite units_walk. cbn [fst snd].
  revert E. apply (foldM_flatten_ret kept); [|apply read_item_kept | done]. intros [my mx] s s' _ Ks E. rewrite unit_walk. revert E.
  apply (foldM_flatten_ret kept); [|apply read_item_kept | done]. intros ci s1 s1' Hci Ks1 E. apply elem_of_pyrange in Hci.
  destruct (slot_some ci Hci) as (c & EC). rewrite EC. apply decode_comp_items; [done | done | lia | done].
Qed.

(** ** The blocks of a round *)

Definition block_in (cs : list Tool.comp) (it : item) : list Z := block_at (Tool.Image 0 0 cs) it.

Section round.
Context (st : Tool.decoding) (it : item) (st' : Tool.decoding) (c : Tool.comp) (dc_id ac_id q q' : Z) (b b' : list Z).
Hypothesis R : round st it st' c dc_id ac_id q q' b b'.
Hypothesis K : kept st.
Hypothesis V : valid_item im0 it.

Lemma kept_width ci c1 c0 : at_slot (Tool.components st) ci = Some c1 -> at_slot (Tool.comps im0) ci = Some c0 -> Tool.blocks_w c1 = Tool.blocks_w c0.
Proof. intros E1 E0. destruct (skeleton_slot _ _ ci c1 K E1) as (c' & E' & SK). rewrite E0 in E'. injection E' as <-. exact (f_equal Tool.blocks_w SK). Qed.

Lemma round_slot : 0 <= it.1 /\ 0 <= it.2.1 * Tool.blocks_w c + it.2.2.
Proof.
  destruct V as (c0 & E0 & Hr & Hc). rewrite (kept_width it.1 c c0 (rn_comp _ _ _ _ _ _ _ _ _ _ R) E0). split; [|nia]. unfold at_slot in E0. destruct (Z.ltb_spec it.1 0); [done | lia].
Qed.
Lemma round_blocks : block_in (Tool.components st) it = b /\ block_in (Tool.components st') it = b'.
Proof.
  destruct R as [RC _ RB _ _ _ RN]. destruct round_slot as [H1 H2]. destruct it as [ci [row col]]. cbn [fst snd] in *. unfold block_in, block_at. cbn [Tool.comps].
  rewrite RC, RN, at_slot_insert, Z.eqb_refl by eauto. unfold at_slot in RB. rewrite (proj2 (Z.ltb_ge (row * Tool.blocks_w c + col) 0)) in RB by lia. rewrite RB. cbn [Tool.blocks Tool.set_blocks Tool.blocks_w]. split; [done|].
  rewrite list_lookup_insert_eq; [done|]. by apply lookup_lt_Some in RB.
Qed.
Lemma other_blocks it' : valid_item im0 it' -> it' <> it -> block_in (Tool.components st') it' = block_in (Tool.components st) it'.
Proof.
  intros V' N. destruct R as [RC _ RB _ _ _ RN]. destruct round_slot as [H1 H2]. destruct it as [ci [row col]], it' as [ci' [row' col']]. cbn [fst snd] in *. unfold block_in, block_at. cbn [Tool.comps].
  rewrite RN, at_slot_insert by eauto. destruct (Z.eqb_spec ci' ci) as [->|]; [|done]. rewrite RC. cbn [Tool.blocks Tool.set_blocks Tool.blocks_w]. f_equal. apply list_lookup_insert_ne.
  destruct V as (c0 & E0 & Hr & Hc), V' as (c0' & E0' & Hr' & Hc'). cbn [fst snd] in *. rewrite E0 in E0'. injection E0' as <-. rewrite (kept_width ci c c0 RC E0) in *.
  intros E. apply N. assert (E2 : row' * Tool.blocks_w c0 + col' = row * Tool.blocks_w c0 + col) by (apply Z2Nat.inj in E; nia).
  destruct (tile row col (Tool.blocks_w c0)), (tile row' col' (Tool.blocks_w c0)); try lia. rewrite E2 in *. congruence.
Qed.
End round.

Lemma valid_index st it c : kept st -> valid_item im0 it -> at_slot (Tool.components st) it.1 = Some c -> 0 <= it.2.1 * Tool.blocks_w c + it.2.2.
Proof.
  intros K (c0 & E0 & Hr & Hc) E. destruct (skeleton_slot _ _ it.1 c K E) as (c' & E' & SK). rewrite E0 in E'. injection E' as <-. assert (Tool.blocks_w c = Tool.blocks_w c0) as -> by exact (f_equal Tool.blocks_w SK). nia.
Qed.
Lemma valid_slot it : valid_item im0 it -> 0 <= it.1.
Proof. intros (c0 & E0 & _). unfold at_slot in E0. destruct (Z.ltb_spec it.1 0); [done | lia]. Qed.
Lemma read_item_valid st it st' : kept st -> valid_item im0 it -> read_item st it = Ret st' -> exists c dc_id ac_id q q' b b', round st it st' c dc_id ac_id q q' b b'.
Proof. intros K V. apply read_item_round; [by apply valid_slot|]. intros c. by apply valid_index. Qed.

(** The blocks that are not in the list stay. *)
Lemma read_rest its : forall st st', kept st -> Forall (valid_item im0) its -> foldM read_item st its = Ret st' ->
  kept st' /\ forall it, valid_item im0 it -> it ∉ its -> block_in (Tool.components st') it = block_in (Tool.components st) it.
Proof.
  induction its as [|it its IH]; intros st st' K F E; [by injection E as <-|]. apply Forall_cons in F as [V F]. cbn [foldM] in E. apply bind_ret_inv in E as (st1 & E1 & E).
  destruct (IH st1 st' (read_item_kept st it st1 K E1) F E) as [K' B]. split; [done|]. intros it' V' [N1 N2]%not_elem_of_cons. rewrite (B it' V' N2).
  destruct (read_item_valid st it st1 K V E1) as (c & dc_id & ac_id & q & q' & b & b' & R). by apply (other_blocks _ _ _ _ _ _ _ _ _ _ R).
Qed.

(** ** In step with the kernel *)

Lemma kept_id st ci c1 c0 : kept st -> at_slot (Tool.components st) ci = Some c1 -> at_slot (Tool.comps im0) ci = Some c0 -> Tool.id c1 = Tool.id c0.
Proof. intros K E1 E0. destruct (skeleton_slot _ _ ci c1 K E1) as (c' & E' & SK). rewrite E0 in E'. injection E' as <-. exact (f_equal Tool.id SK). Qed.

Lemma same_code_valid tool kernel : same_code tool kernel -> Huff.Kernel.valid kernel = true.
Proof. intros (cnt & vals & _ & _ & _ & _ & _ & _ & T). apply T. Qed.

Lemma zeros_ok : ac_ok (zeros 64).
Proof. split; [done|]. intros k Hk. unfold zz, zeros. pose proof (zig_range k ltac:(lia)). rewrite zat_replicate by lia. done. Qed.

Section lockstep.
Context (data : list Z) (start : Z) (tail : list Z) (p : scan_params) (dcs acs : Z -> huffman) (last : Tool.decoding).
Hypothesis C : coded data start raw tail.
Hypothesis codes : forall ci c dc_id ac_id, at_slot (Tool.comps im0) ci = Some c -> scan_tables !! Tool.id c = Some (dc_id, ac_id) ->
  (forall t, decoders !! (0, dc_id) = Some t -> same_code t (dcs ci)) /\ (forall t, decoders !! (1, ac_id) = Some t -> same_code t (acs ci)).
Hypothesis dc_fits : forall it, valid_item im0 it -> in_i16 (zat (block_in (Tool.components last) it) 0).

(** The rest of the scan, from a state of the tool and one of the kernel. *)
Definition going_on (r : reader) (cs : list component) (its : list item) : Prop := exists st,
  foldM read_item st its = Ret last /\ kept st /\ reads start raw r (Tool.bitpos st) /\ Forall in_i16 (Tool.predictors st)
  /\ (forall ci k q, at_slot cs ci = Some k -> at_slot (Tool.predictors st) ci = Some q -> predictor k = q)
  /\ NoDup its /\ Forall (fun it => valid_item im0 it /\ block_in (Tool.components st) it = zeros 64) its.

Lemma item_step it its r cs k : going_on r cs (it :: its) -> at_slot cs it.1 = Some k ->
  exists r' pr, decode_block data false p (dcs it.1) (acs it.1) r (predictor k) (zeros 64) = Ok (r', pr, block_in (Tool.components last) it)
    /\ going_on r' (<[Z.to_nat it.1 := set_predictor k pr]> cs) its.
Proof.
  intros (st & E & K & RD & FI & PR & ND & FV) EK. apply NoDup_cons in ND as [NI ND]. apply Forall_cons in FV as [[V ZB] FV]. cbn [foldM] in E. apply bind_ret_inv in E as (st1 & E1 & E).
  destruct (read_item_valid st it st1 K V E1) as (c & dc_id & ac_id & q & q' & b & b' & R). pose proof R as [RC RT _ RP RD' RPS _]. destruct (round_blocks _ _ _ _ _ _ _ _ _ _ R K V) as [B1 B2]. rewrite ZB in B1. subst b.
  pose proof (read_item_kept st it st1 K E1) as K1. destruct (read_rest its st1 last K1 ltac:(by eapply Forall_impl; [exact FV|]; intros x []) E) as [_ KB]. pose proof (KB it V NI) as BL. rewrite B2 in BL.
  pose proof V as (c0 & E0 & _). rewrite (kept_id st it.1 c c0 K RC E0) in RT. destruct (codes it.1 c0 dc_id ac_id E0 RT) as [CD CA].
  destruct (block_shape raw decoders dc_id ac_id (acs it.1) _ _ _ _ _ _ CA zeros_ok RD') as [[LB' _] DC']. pose proof (dc_fits it V) as IN'. rewrite BL, DC' in IN'.
  assert (IN : in_i16 q) by (rewrite Forall_forall in FI; by apply FI, (slot_elem _ it.1)). rewrite (PR it.1 k q EK RP).
  destruct (block_agrees data start raw tail C decoders dc_id ac_id (dcs it.1) (acs it.1) _ q (zeros 64) r _ q' b' CD CA eq_refl RD IN IN' RD') as (r' & ED & RR).
  assert (HV : Huff.Kernel.valid (dcs it.1) = true /\ Huff.Kernel.valid (acs it.1) = true).
  { unfold Tool.decode_block, Tool.lookup_key in RD'. apply bind_ret_inv in RD' as (t & ET & RD'). destruct (decoders !! (0, dc_id)) as [t0|] eqn:ED0; [|done]. split; [by apply (same_code_valid t0), CD|].
    apply bind_ret_inv in RD' as ([n0 p0] & _ & RD'). destruct (Tool.read_bits raw p0 n0). cbv zeta beta iota in RD'. apply bind_ret_inv in RD' as (? & _ & RD'). apply bind_ret_inv in RD' as (t2 & ET2 & _).
    destruct (decoders !! (1, ac_id)) as [t1|] eqn:ED1; [|done]. by apply (same_code_valid t1), CA. }
  destruct HV as [HV1 HV2]. pose proof (valid_slot it V) as H0.
  exists r', q'. split; [unfold decode_block; cbn [negb]; rewrite HV1, HV2, BL; exact ED|].
  exists st1. split_and!; [done | done | done | rewrite RPS; by apply Forall_insert | | done |].
  - intros ci k' q1. rewrite RPS, !at_slot_insert by eauto. destruct (ci =? it.1); [intros [= <-] [= <-]; done | apply PR].
  - rewrite Forall_forall in FV |- *. intros it' Hit'. destruct (FV it' Hit') as [V' Z']. split; [done|]. rewrite <- Z'. apply (other_blocks _ _ _ _ _ _ _ _ _ _ R K V it' V'). intros ->. done.
Qed.
End lockstep.
End walk.
End tool.

(** * The scan of a picture *)

Definition blank_image (im : Tool.image) : Tool.image := Tool.Image (Tool.mcus_x im) (Tool.mcus_y im) (blank <$> Tool.comps im).

Lemma blank_slot im i : at_slot (Tool.comps (blank_image im)) i = blank <$> at_slot (Tool.comps im) i.
Proof. unfold at_slot, blank_image. cbn [Tool.comps]. destruct (i <? 0); [done|]. by rewrite list_lookup_fmap. Qed.
Lemma blank_valid im it : valid_item (blank_image im) it <-> valid_item im it.
Proof.
  unfold valid_item. rewrite blank_slot. split.
  - intros (c & E & H). destruct (at_slot (Tool.comps im) it.1) as [c0|]; [|done]. injection E as <-. by exists c0.
  - intros (c & E & H). exists (blank c). by rewrite E.
Qed.
Lemma blank_items im cis : tool_items (blank_image im) cis = tool_items im cis.
Proof.
  unfold tool_items. assert (EG : forall ci, tool_geo (blank_image im) ci = tool_geo im ci) by (intros ci; unfold tool_geo; rewrite blank_slot; by destruct (at_slot (Tool.comps im) ci)).
  assert (EU : tool_units (blank_image im) cis = tool_units im cis).
  { unfold tool_units. destruct (1 <? zlen cis); [done|]. destruct (head cis) as [ci|]; [|done]. cbn [mbind option_bind]. rewrite blank_slot. by destruct (at_slot (Tool.comps im) ci). }
  rewrite EU. unfold scan_items. f_equal. apply list_fmap_ext. intros i [y x] _. unfold unit_items. f_equal. apply list_fmap_ext. intros j slot _. by rewrite EG.
Qed.
Lemma blank_measured im c : measured im c -> measured (blank_image im) (blank c).
Proof.
  intros [F W H R _ _]. split; try done; cbn [Tool.blocks blank Tool.set_blocks]; [|by apply Forall_replicate].
  unfold zlen. rewrite length_replicate. cbn [Tool.blocks_w Tool.blocks_h Tool.set_blocks blank]. apply Z2Nat.id, Z.mul_nonneg_nonneg; lia.
Qed.

Section scan.
Context (w hh : Z) (im : Tool.image) (raw : list Z) (decoders : gmap (Z * Z) (gmap (Z * Z) Z)) (scan_tables : gmap Z (Z * Z)).
Hypothesis dr : drawable w hh im.
Hypothesis decoded : Tool.decode_image raw decoders scan_tables (blank_image im) = Ret im.
#[warnings="-notation-for-abbreviation"] Local Notation n := (zlen (Tool.comps im)).
#[warnings="-notation-for-abbreviation"] Local Notation cis := (pyrange 0 n).

Lemma count_some : 1 <= n.
Proof. destruct (dr_count _ _ _ dr) as [->|[-> _]]; lia. Qed.

Context (data : list Z) (start : Z) (m : Z) (rest : list Z) (d : decoder) (p : scan_params) (cs0 : list component) (dcs acs : Z -> huffman).
Hypothesis C : coded data start raw (255 :: m :: rest).
Hypothesis M : is_marker m.
Hypothesis codes : forall ci c dc_id ac_id, at_slot (Tool.comps im) ci = Some c -> scan_tables !! Tool.id c = Some (dc_id, ac_id) ->
  (forall t, decoders !! (0, dc_id) = Some t -> same_code t (dcs ci)) /\ (forall t, decoders !! (1, ac_id) = Some t -> same_code t (acs ci)).
Hypothesis mode : progressive d = false.
Hypothesis no_restart : restart_interval d = 0.
Hypothesis units : mcus_x d = Tool.mcus_x im /\ mcus_y d = Tool.mcus_y im.
Hypothesis frame : framed im cs0.
Hypothesis tables : forall ci k, at_slot cs0 ci = Some k -> predictor k = 0 /\ index (dc_tables d) (dc_dest k) = Ok (dcs ci) /\ index (ac_tables d) (ac_dest k) = Ok (acs ci).

Lemma baseline_scan : exists cs' co, decode_scan_blocks data d (zeros (64 * total im)) cs0 cis p start = Ok (start + zlen (stuffed raw), cs', co)
  /\ framed im cs' /\ zlen co = 64 * total im /\ forall it, valid_item im it -> cell co (num im it) = block_at im it.
Proof.
  pose proof (drawable_picture _ _ _ dr) as PIC. set (sc := Tool.Spec cis 0 63 0 0). pose proof count_some as N1. pose proof (total_pos _ _ _ dr) as TP.
  assert (some : Tool.cis sc <> []) by (intros E; apply (f_equal zlen) in E; cbn [sc Tool.cis] in E; rewrite zlen_pyrange in E by lia; change (zlen []) with 0 in E; lia).
  assert (slots : forall ci, ci ∈ Tool.cis sc -> 0 <= ci < n) by (intros ci; apply elem_of_pyrange).
  pose proof (fun it => items_valid im sc PIC some slots it) as IV. change (Tool.cis sc) with cis in IV.
  assert (N0 : zlen (Tool.comps (blank_image im)) = n) by (unfold blank_image, zlen; cbn [Tool.comps]; by rewrite length_fmap).
  assert (SZ : forall i c, at_slot (Tool.comps (blank_image im)) i = Some c -> measured (blank_image im) c).
  { intros i c. rewrite blank_slot. destruct (at_slot (Tool.comps im) i) as [c0|] eqn:E; [|done]. intros [= <-]. apply blank_measured. by apply (pi_sizes im PIC i). }
  assert (LP : zlen (Tool.comps (blank_image im)) = 1 -> forall c, at_slot (Tool.comps (blank_image im)) 0 = Some c -> Tool.h c = 1 /\ Tool.v c = 1 /\ Tool.real_w c = Tool.blocks_w c /\ Tool.real_h c = Tool.blocks_h c).
  { rewrite N0. intros L1 c. rewrite blank_slot. destruct (at_slot (Tool.comps im) 0) as [c0|] eqn:E; [|done]. intros [= <-]. cbn. by apply (lone_sizes w hh im dr). }
  destruct (decode_image_items raw decoders scan_tables (blank_image im) SZ LP ltac:(lia) im decoded) as (last & EL & EI). rewrite N0, blank_items in EL.
  assert (BI : forall it, block_in (Tool.components last) it = block_at im it) by (intros [ci [row col]]; rewrite EI; done).
  assert (NV : NoDup (tool_items im cis)) by (apply nodup_items; [apply nodup_pyrange | apply (tool_geo_pos im (Tool.cis sc) (scan_slots im sc PIC slots))]).
  assert (ZC : Forall (fun it => has_cell (zeros (64 * total im)) (num im it) /\ cell (zeros (64 * total im)) (num im it) = zeros 64) (tool_items im cis)).
  { apply Forall_forall. intros it Hit. apply (zero_cell _ _ _ dr). by apply IV. }
  set (st0 := Scanning (Reader start 0 0 false 0) cs0 (zeros (64 * total im)) (restart_interval d)).
  edestruct (simulates data d p cs0 false (fun it => dcs it.1) (fun it => acs it.1) (num im) (fun _ => zeros 64) (block_at im) (going_on raw decoders scan_tables (blank_image im) start last) mode) as (st & E & SH & LC & FC & KC & (stl & _ & _ & RD & _)).
  - intros it its r cs k G _ EK. rewrite <- BI. apply (item_step raw decoders scan_tables (blank_image im) data start (255 :: m :: rest) p dcs acs last C); [| |exact G | exact EK].
    + intros ci c dc_id ac_id. rewrite blank_slot. destruct (at_slot (Tool.comps im) ci) as [c0|] eqn:EC; [|done]. intros [= <-]. exact (codes ci c0 dc_id ac_id EC).
    + intros it' V'. rewrite BI. apply (proj1 (blank_valid im it')) in V'. destruct (pi_samples im PIC it' V') as [_ DC _]. exact DC.
  - apply (nums_nodup im sc PIC some (nodup_pyrange _ _) slots).
  - apply Forall_forall. intros it Hit. pose proof (IV it Hit) as V. split; [|by destruct (pi_samples im PIC it V)]. pose proof V as (c & EC & _).
    destruct frame as [_ F]. destruct (F it.1 c EC) as (k & EK & [_ _ _ [B1 _] _] & O). destruct (tables it.1 k EK) as (_ & T1 & T2). exists k. split_and!; [done | done | done|]. unfold num. rewrite EC, O, B1. lia.
  - exact (eq_refl : shape (cs st0) = shape cs0).
  - exact ZC.
  - exists (Tool.Decoding 0 (replicate (length (Tool.comps (blank_image im))) 0) (Tool.comps (blank_image im))). split_and!; [exact EL | done | apply reads_start | by apply Forall_replicate | | done |].
    + intros ci k q EK EQ. destruct (tables ci k EK) as [-> _]. cbn [Tool.predictors] in EQ. unfold at_slot in EQ. destruct (ci <? 0); [done|]. by apply lookup_replicate in EQ as [-> _].
    + apply Forall_forall. intros it Hit. pose proof (IV it Hit) as V. split; [by apply blank_valid|]. destruct V as (c & EC & Hr & Hc). destruct it as [ci [row col]]. cbn [fst snd] in *.
      unfold block_in, block_at. change (Tool.comps (Tool.Image 0 0 (Tool.components (Tool.Decoding 0 (replicate (length (Tool.comps (blank_image im))) 0) (Tool.comps (blank_image im)))))) with (Tool.comps (blank_image im)).
      rewrite blank_slot, EC. cbn [fmap option_fmap option_map blank Tool.blocks Tool.blocks_w Tool.set_blocks]. rewrite lookup_replicate_2; [done|]. nia.
  - exists (cs st), (coefs st). split_and!.
    + apply (scan_finished im sc PIC some slots data d p cs0 frame no_restart units (zeros (64 * total im)) start raw m rest st (Tool.bitpos stl)); [by destruct C | done | exact E | exact RD].
    + by apply (framed_shape im cs0).
    + rewrite LC. cbn [coefs st0]. unfold zeros. rewrite zlen_replicate. lia.
    + intros it V. rewrite Forall_forall in FC. apply FC. apply (items_covered im sc PIC some slots it V). unfold covered. rewrite (proj2 (in_scan sc it.1)); cbn [andb].
      * destruct (1 <? zlen (Tool.cis sc)) eqn:E1; [done|]. apply (lone_real _ _ _ dr); [|done]. cbn [sc Tool.cis] in E1. rewrite zlen_pyrange in E1 by lia. apply Z.ltb_ge in E1. lia.
      * destruct (num_range im it V) as (c & _ & HS & _). by apply elem_of_pyrange.
Qed.
End scan.
