(* ===== verification/JpegParts.v ===== *)
(** JpegParts: the segments of a baseline file before its scan.

    A file is described by its parts; both parsers read them, and the tables
    the tool keeps are the ones the kernel keeps ([alike]). *)
From Stdlib Require Import ZArith Lia List.
From stdpp Require Import base list gmap strings.
From S2P Require Import Prelude Text Arrays Machine Huff Png Jpeg JpegBits JpegScan JpegFirst JpegRefine JpegBlocks JpegLevels JpegKinds JpegTables JpegFile JpegWhole JpegWrite JpegFrame JpegProgressive JpegRead.
Open Scope Z_scope.
Import Jpeg.Kernel.

(** * Quantization tables *)

Lemma here_end data at_ : here data at_ [] -> (at_ <? zlen data) = false.
Proof. intros [H E]. apply Z.ltb_ge. apply (f_equal length) in E. rewrite length_drop in E. cbn [length] in E. unfold zlen. lia. Qed.
Lemma here_lt data at_ b l : here data at_ (b :: l) -> (at_ <? zlen data) = true.
Proof. intros H. apply Z.ltb_lt. rewrite (here_len _ _ _ _ H). pose proof (zlen_nonneg l). lia. Qed.
Lemma here_get data at_ b l : here data at_ (b :: l) -> pyget data at_ = Ret b.
Proof. intros H. pose proof H as [H0 _]. apply here_cons in H as [B _]. by apply pyget_lookup. Qed.
Lemma here_sub data at_ a l i j : here data at_ (a ++ l) -> i = at_ -> j = at_ + zlen a -> pyslice data i j = a.
Proof. intros H -> ->. by eapply here_slice. Qed.

(** A list is never shorter than nothing. *)
Ltac by_length := match goal with H : zlen ?l < _ |- _ => pose proof (zlen_nonneg l); lia end.

Definition keep_quant (m : gmap Z (Z * list Z)) (it : Z * (Z * list Z)) : gmap Z (Z * list Z) := <[it.1 := it.2]> m.

Lemma nibbles a b : 0 <= a <= 15 -> 0 <= b <= 15 -> Z.shiftr (Z.lor (Z.shiftl a 4) b) 4 = a /\ Z.land (Z.lor (Z.shiftl a 4) b) 15 = b.
Proof. intros. rewrite lor_shiftl_add by (change (2 ^ 4) with 16; lia). rewrite <- Z.shiftl_mul_pow2 by lia. apply symbol_parts; lia. Qed.

Lemma tool_quants l : Forall item_ok l -> forall fuel body i m, here body i (concat (item_body <$> l)) -> zlen l < Z.of_nat fuel ->
  Tool.read_dqt fuel body i m = Ret (foldl keep_quant m l).
Proof.
  intros F. induction F as [|[id [prec bytes]] l IO F IH]; intros fuel body i m H HF; (destruct fuel as [|fuel]; [by_length|]); cbn [Tool.read_dqt].
  - by rewrite (here_end _ _ H).
  - cbn [fmap list_fmap concat] in H. destruct IO as [HI HL _]. cbn [fst snd] in *. unfold item_body, quant_body in H. cbn [fst snd app] in H.
    rewrite (here_lt _ _ _ _ H), (here_get _ _ _ _ H), py_ret_bind. apply here_cons in H as [_ H]. destruct (nibbles prec id) as [-> ->]; [lia..|]. cbn beta iota.
    assert (EL : 64 * (if prec =? 0 then 1 else 2) = zlen bytes) by (destruct HL as [[-> ->]|[-> ->]]; done). rewrite EL, (here_sub _ _ _ _ (i + 1) (i + 1 + zlen bytes) H eq_refl eq_refl).
    apply here_app in H. cbn [foldl]. rewrite zlen_cons in HF. apply IH; [|lia]. by replace (i + (1 + zlen bytes)) with (i + 1 + zlen bytes) by lia.
Qed.

(** The kernel's tables are those the tool keeps, and the initial ones. *)
Record same_quants (m : gmap Z (Z * list Z)) (q : list (list Z)) : Prop := SameQuants {
  sq_len : length q = 4%nat;
  sq_sizes : Forall (fun t => zlen t = 64) q;
  sq_ok : quants_ok m;
  sq_table : forall i t, q !! i = Some t -> match m !! Z.of_nat i with Some (prec, bytes) => quant_table prec bytes t | None => t = replicate 64 1 end
}.

Lemma same_quants_start : same_quants ∅ (quant START).
Proof. split; [done | by apply Forall_replicate | apply map_Forall_empty|]. intros i t E. rewrite lookup_empty. cbn [quant START] in E. by apply lookup_replicate in E as [-> _]. Qed.

Lemma same_quants_insert m q it t : same_quants m q -> item_ok it -> quant_table it.2.1 it.2.2 t -> same_quants (keep_quant m it) (<[Z.to_nat it.1 := t]> q).
Proof.
  destruct it as [id [prec bytes]]. intros [L F O T] IO QT. cbn [fst snd] in *. pose proof IO as [HI _ _]. cbn [fst snd] in HI. split.
  - by rewrite length_insert.
  - apply Forall_insert; [done|]. by destruct QT.
  - unfold keep_quant. cbn [fst snd]. intros i [p b]. rewrite lookup_insert_Some. intros [[<- [= <- <-]]|[_ E]]; [done | by apply (O i (p, b))].
  - intros i t' E. unfold keep_quant. cbn [fst snd]. destruct (decide (i = Z.to_nat id)) as [->|N].
    + rewrite list_lookup_insert_eq in E by lia. injection E as <-. rewrite Z2Nat.id, lookup_insert_eq by lia. done.
    + rewrite list_lookup_insert_ne in E by done. rewrite lookup_insert_ne by lia. by apply T.
Qed.

Lemma kernel_quants l : Forall item_ok l -> forall fuel m q, same_quants m q -> zlen l < Z.of_nat fuel ->
  exists q', read_quant fuel (concat (item_body <$> l)) q = Ok q' /\ same_quants (foldl keep_quant m l) q'.
Proof.
  intros F. induction F as [|it l IO F IH]; intros fuel m q S HF; (destruct fuel as [|fuel]; [by_length|]); [by exists q|].
  cbn [fmap list_fmap concat foldl]. rewrite zlen_cons in HF. destruct (read_quant_step fuel it.1 it.2.1 it.2.2 (concat (item_body <$> l)) q IO (sq_len _ _ S) (sq_sizes _ _ S)) as (t & E & QT).
  fold (item_body it) in E. rewrite E. apply (IH fuel); [by apply same_quants_insert | lia].
Qed.

(** * Huffman tables *)

(** A code: its class and number, how many words there are of each length, and
    their symbols. *)
Definition code_table_ : Type := (Z * Z) * (list Z * list Z).
Definition code_body (c : code_table_) : list Z := [Z.lor (Z.shiftl c.1.1 4) c.1.2] ++ c.2.1 ++ c.2.2.
Record code_ok (c : code_table_) : Prop := CodeOk {
  ck_class : 0 <= c.1.1 <= 1;
  ck_id : 0 <= c.1.2 <= 3;
  ck_len : zlen c.2.1 = 16;
  ck_counts : Forall is_byte c.2.1;
  ck_values : zlen c.2.2 = zsum c.2.1;
  ck_bytes : Forall is_byte c.2.2;
  ck_small : zsum c.2.1 <= 256;
  ck_fits : fits c.2.1
}.
Definition keep_code (m : gmap (Z * Z) (list Z * list Z)) (c : code_table_) : gmap (Z * Z) (list Z * list Z) := <[c.1 := c.2]> m.

Lemma counts_nonneg c : code_ok c -> nonneg c.2.1.
Proof. intros H. eapply Forall_impl; [apply (ck_counts _ H)|]. unfold is_byte. lia. Qed.

Lemma tool_codes l : Forall code_ok l -> forall fuel body i m, here body i (concat (code_body <$> l)) -> zlen l < Z.of_nat fuel ->
  Tool.read_dht fuel body i m = Ret (foldl keep_code m l).
Proof.
  intros F. induction F as [|[[cls id] [cnt vals]] l IO F IH]; intros fuel body i m H HF; (destruct fuel as [|fuel]; [by_length|]); cbn [Tool.read_dht].
  - by rewrite (here_end _ _ H).
  - cbn [fmap list_fmap concat] in H. destruct IO as [HC HI LC _ LV _ _ _]. cbn [fst snd] in *. unfold code_body in H. cbn [fst snd app] in H. rewrite <- app_assoc in H.
    rewrite (here_lt _ _ _ _ H), (here_get _ _ _ _ H), py_ret_bind. apply here_cons in H as [_ H]. destruct (nibbles cls id) as [-> ->]; [lia..|]. cbn beta iota zeta.
    rewrite (here_sub _ _ _ _ (i + 1) (i + 17) H) by lia. apply here_app in H. rewrite <- LV. rewrite (here_sub _ _ _ _ (i + 17) (i + 17 + zlen vals) H) by lia.
    apply here_app in H. cbn [foldl]. rewrite zlen_cons in HF. apply IH; [|lia]. by replace (i + (17 + zlen vals)) with (i + 1 + zlen cnt + zlen vals) by lia.
Qed.

Record same_codes (m : gmap (Z * Z) (list Z * list Z)) (t : list huffman * list huffman) : Prop := SameCodes {
  sc_len : length t.1 = 4%nat /\ length t.2 = 4%nat;
  sc_code : forall k w, m !! k = Some w -> code_ok (k, w) /\ exists kt, (if k.1 =? 0 then t.1 else t.2) !! Z.to_nat k.2 = Some kt /\ table_ok w.1 w.2 kt
}.

Lemma same_codes_start : same_codes ∅ (dc_tables START, ac_tables START).
Proof. split; [done|]. intros k w E. by rewrite lookup_empty in E. Qed.

Lemma read_huffman_step fuel c more t m : code_ok c -> same_codes m t ->
  exists t', read_huffman (S fuel) (code_body c ++ more) t = read_huffman fuel more t' /\ same_codes (keep_code m c) t'.
Proof.
  destruct c as [[cls id] [cnt vals]]. intros CO [[L1 L2] SC]. pose proof CO as [HC HI LC BC LV BV SM FT]. pose proof (counts_nonneg _ CO) as NC. cbn [fst snd] in *.
  pose proof (kernel_build_spec cnt vals LC NC ltac:(lia) BV SM) as KB. destruct (Huff.Kernel.build cnt vals) as [kt|] eqn:EB; [|done]. destruct KB as [TK _]. pose proof (zlen_nonneg more). pose proof (zlen_nonneg vals).
  destruct t as [dc ac]. cbn [fst snd] in *. set (body := code_body _ ++ more). set (b := Z.lor (Z.shiftl cls 4) id).
  assert (LB : zlen body = 17 + zlen vals + zlen more) by (unfold body, code_body; cbn [fst snd]; rewrite !zlen_app, LC; change (zlen [_]) with 1; lia).
  assert (HB : here body 0 ([b] ++ cnt ++ vals ++ more)) by (split; [lia|]; unfold body, code_body; cbn [fst snd]; by rewrite <- !app_assoc).
  pose proof HB as H1. apply here_app in H1. change (0 + zlen [b]) with 1 in H1. pose proof (here_sub _ _ _ _ 1 17 H1 eq_refl ltac:(lia)) as S1. apply here_app in H1. rewrite LC in H1. change (1 + 16) with 17 in H1.
  pose proof (here_sub _ _ _ _ 17 (17 + zsum cnt) H1 eq_refl ltac:(lia)) as S2. apply here_app in H1. destruct H1 as [_ S3]. rewrite LV in S3.
  cbn [read_huffman]. rewrite (proj2 (Z.leb_le 17 (zlen body))) by lia. change (zat body 0) with b. destruct (nibbles cls id) as [E1 E2]; [lia..|]. fold b in E1, E2. rewrite E1, E2, S1, S2, S3.
  rewrite (proj2 (Z.ltb_ge 3 id)), (proj2 (Z.ltb_ge 1 cls)), (proj2 (Z.ltb_ge (zlen body) (17 + zsum cnt))) by lia. cbn [orb]. rewrite EB. cbn [ok_or]. rewrite ok_bind.
  eexists. split; [done|]. split; [destruct (cls =? 0); cbn [fst snd]; by rewrite ?length_insert|].
  intros k w. unfold keep_code. cbn [fst snd]. rewrite lookup_insert_Some. intros [[<- <-]|[N E]].
  - split; [done|]. exists kt. cbn [fst snd]. split; [|done]. destruct (cls =? 0); cbn [fst snd]; apply list_lookup_insert_eq; unfold huffman in *; lia.
  - destruct (SC k w E) as (CK & kt' & EK & TK'). split; [done|]. exists kt'. split; [|done]. destruct CK as [KC KI _ _ _ _ _ _]. destruct k as [cls' id']. cbn [fst snd] in *.
    destruct (Z.eqb_spec cls 0), (Z.eqb_spec cls' 0); cbn [fst snd]; try done; rewrite list_lookup_insert_ne; try done; intros EI; apply N; f_equal; lia.
Qed.

Lemma kernel_codes l : Forall code_ok l -> forall fuel m t, same_codes m t -> zlen l < Z.of_nat fuel ->
  exists t', read_huffman fuel (concat (code_body <$> l)) t = Ok t' /\ same_codes (foldl keep_code m l) t'.
Proof.
  intros F. induction F as [|c l CO F IH]; intros fuel m t S HF; (destruct fuel as [|fuel]; [by_length|]); [by exists t; destruct t|].
  cbn [fmap list_fmap concat foldl]. rewrite zlen_cons in HF. destruct (read_huffman_step fuel c (concat (code_body <$> l)) t m CO S) as (t' & -> & S'). apply (IH fuel); [done | lia].
Qed.

(** * Segments *)

(** What the tool's loop does with a segment that ends at [next]. *)
Definition tool_handle (fuel : nat) (data : list Z) (marker : Z) (body : list Z) (next : Z) (st : Tool.parsed) : py Tool.parsed :=
  let '(Tool.Parsed q t f s) := st in
  if marker =? 219 then q ← Tool.read_dqt (S (List.length body)) body 0 q; Tool.parse fuel data next (Tool.Parsed q t f s)
  else if marker =? 196 then t ← Tool.read_dht (S (List.length body)) body 0 t; Tool.parse fuel data next (Tool.Parsed q t f s)
  else if marker =? 192 then f ← Tool.read_sof body; Tool.parse fuel data next (Tool.Parsed q t (Some f) s)
  else if marker =? 194 then Raise (SystemExit (lit "already progressive"))
  else if marker =? 221 then
    n ← Tool.unpack_H (pyslice body 0 2);
    if negb (n =? 0) then Raise (SystemExit (lit "restart intervals not supported by this tool")) else Tool.parse fuel data next st
  else if marker =? 218 then c ← Tool.read_sos body; Ret (Tool.Parsed q t f (Some (c, pyslice data next (zlen data))))
  else Tool.parse fuel data next st.

Lemma tool_segment fuel data at_ m body rest st : here data at_ (segment m body ++ rest) -> 2 + zlen body < 65536 -> m <> 217 ->
  Tool.parse (S fuel) data at_ st = tool_handle fuel data m body (at_ + 4 + zlen body) st /\ here data (at_ + 4 + zlen body) rest.
Proof.
  intros H HL HM. pose proof (zlen_nonneg body). unfold segment in H. rewrite <- !app_comm_cons, <- app_assoc in H. pose proof (here_lt _ _ _ _ H) as LT. pose proof (here_get _ _ _ _ H) as G0.
  apply here_cons in H as [_ H]. pose proof (here_get _ _ _ _ H) as G1. apply here_cons in H as [_ H]. pose proof (here_sub _ _ _ _ (at_ + 2) (at_ + 4) H ltac:(lia) ltac:(rewrite zlen_be_bytes; lia)) as S1.
  apply here_app in H. rewrite zlen_be_bytes in H. change (Z.of_nat 2) with 2 in H. pose proof (here_sub _ _ _ _ (at_ + 4) (at_ + 2 + (2 + zlen body)) H ltac:(lia) ltac:(lia)) as S2. apply here_app in H.
  split; [|by replace (at_ + 4 + zlen body) with (at_ + 1 + 1 + 2 + zlen body) by lia].
  assert (EU : Tool.unpack_H (be_bytes 2 (2 + zlen body)) = Ret (2 + zlen body)).
  { unfold Tool.unpack_H. rewrite zlen_be_bytes. change (Z.of_nat 2 =? 2) with true. cbn iota. apply unpack_be_ret; [lia | rewrite zlen_be_bytes; lia | | change (256 ^ Z.of_nat 2) with 65536; lia]. apply pyslice_full. by rewrite zlen_be_bytes. }
  cbn [Tool.parse]. rewrite LT, G0, py_ret_bind. change (passert (255 =? 255)) with (Ret tt). rewrite py_ret_bind, G1, py_ret_bind, (proj2 (Z.eqb_neq m 217) HM), S1, EU, py_ret_bind, S2.
  replace (at_ + (2 + (2 + zlen body))) with (at_ + 4 + zlen body) by lia. replace (at_ + 2 + (2 + zlen body)) with (at_ + 4 + zlen body) by lia. by destruct st.
Qed.

(** The kernel's version of a segment, in the same form. *)
Lemma kernel_segment fuel data at_ m body rest hf n d : here data at_ (segment m body ++ rest) -> 2 + zlen body < 65536 -> has_body m = true ->
  parse_loop (S fuel) data at_ hf n d = handle fuel data m body (at_ + 4 + zlen body) hf n d.
Proof. intros H HL HM. unfold segment in H. rewrite <- !app_comm_cons, <- app_assoc in H. by destruct (parse_segment fuel data at_ m body rest hf n d H HL HM). Qed.

(** * The parts of a file *)

Inductive part : Type :=
| Quantization (tables : list (Z * (Z * list Z)))
| Codes (codes : list code_table_)
| NoRestart
| Other (marker : Z) (body : list Z).

Definition part_segment (p : part) : Z * list Z :=
  match p with
  | Quantization l => (219, concat (item_body <$> l))
  | Codes l => (196, concat (code_body <$> l))
  | NoRestart => (221, [0; 0])
  | Other m body => (m, body)
  end.
Definition part_bytes (p : part) : list Z := segment (part_segment p).1 (part_segment p).2.

(** Segments that mean nothing to either parser, or only colours to the kernel. *)
Definition ignored (m : Z) : bool := has_body m && negb (existsb (Z.eqb m) [192; 193; 194; 195; 196; 197; 198; 199; 201; 202; 203; 205; 206; 207; 218; 219; 221]).

Record part_ok (p : part) : Prop := PartOk {
  po_size : 2 + zlen (part_segment p).2 < 65536;
  po_tables : match p with Quantization l => Forall item_ok l | Codes l => Forall code_ok l | NoRestart => True | Other m _ => ignored m = true end
}.

Definition keep_part (st : Tool.parsed) (p : part) : Tool.parsed :=
  match p with
  | Quantization l => Tool.Parsed (foldl keep_quant (Tool.quant st) l) (Tool.huff st) (Tool.frame st) (Tool.scan st)
  | Codes l => Tool.Parsed (Tool.quant st) (foldl keep_code (Tool.huff st) l) (Tool.frame st) (Tool.scan st)
  | NoRestart | Other _ _ => st
  end.

(** The tables of the tool and of the kernel. *)
Record alike (st : Tool.parsed) (d : decoder) : Prop := Alike {
  al_quants : same_quants (Tool.quant st) (quant d);
  al_codes : same_codes (Tool.huff st) (dc_tables d, ac_tables d);
  al_restart : restart_interval d = 0
}.
(** What the segments before the scan do not change. *)
Definition frame_of (d : decoder) : Z * Z * bool * list component * Z * Z * option (list Z) :=
  (width d, height d, progressive d, components d, mcus_x d, mcus_y d, coefficients d).

Lemma concat_short {A} (f : A -> list Z) l : (forall a, f a <> []) -> zlen l <= zlen (concat (f <$> l)).
Proof.
  intros H. induction l as [|a l IH]; [done|]. cbn [fmap list_fmap concat]. rewrite zlen_cons, zlen_app. specialize (H a). destruct (f a); [done|]. rewrite zlen_cons. pose proof (zlen_nonneg l0). lia.
Qed.
Lemma here_start l : here l 0 l.
Proof. by split. Qed.

Lemma part_read p fuel data at_ rest hf n st d : part_ok p -> here data at_ (part_bytes p ++ rest) -> alike st d ->
  exists d', Tool.parse (S fuel) data at_ st = Tool.parse fuel data (at_ + zlen (part_bytes p)) (keep_part st p)
    /\ parse_loop (S fuel) data at_ hf n d = parse_loop fuel data (at_ + zlen (part_bytes p)) hf n d'
    /\ alike (keep_part st p) d' /\ frame_of d' = frame_of d /\ here data (at_ + zlen (part_bytes p)) rest.
Proof.
  intros [PS PT] H [AQ AC AR]. unfold part_bytes in *. rewrite zlen_segment, Z.add_assoc.
  assert (HB : has_body (part_segment p).1 = true) by (destruct p; cbn [part_segment fst]; try done; by apply andb_prop in PT as [? _]).
  assert (N217 : (part_segment p).1 <> 217) by (intros E; rewrite E in HB; done).
  destruct (tool_segment fuel data at_ _ _ rest st H PS N217) as [-> HR]. rewrite (kernel_segment fuel data at_ _ _ rest hf n d H PS HB). destruct st as [q t f s]. cbn [Tool.quant Tool.huff] in *.
  destruct p as [l|l| |m body]; cbn [part_segment fst snd] in *.
  - unfold tool_handle, handle. cbn [Z.eqb Pos.eqb]. pose proof (concat_short item_body l ltac:(by intros [? []])) as LS. unfold zlen in LS.
    rewrite (tool_quants l PT _ _ 0 q (here_start _)) by (unfold zlen; lia). rewrite py_ret_bind. destruct (kernel_quants l PT (S (length (concat (item_body <$> l)))) q (quant d) AQ) as (q' & -> & SQ); [unfold zlen; lia|].
    rewrite ok_bind. eexists. split_and!; [done | done | by split | done | done].
  - unfold tool_handle, handle. cbn [Z.eqb Pos.eqb]. pose proof (concat_short code_body l ltac:(by intros [[] []])) as LS. unfold zlen in LS.
    rewrite (tool_codes l PT _ _ 0 t (here_start _)) by (unfold zlen; lia). rewrite py_ret_bind. destruct (kernel_codes l PT (S (length (concat (code_body <$> l)))) t (dc_tables d, ac_tables d) AC) as (t' & -> & SC); [unfold zlen; lia|].
    rewrite ok_bind. eexists. split_and!; [done | done | split; try done; cbn; by destruct t' | done | done].
  - unfold tool_handle, handle. cbn [Z.eqb Pos.eqb]. change (Tool.unpack_H (pyslice [0; 0] 0 2)) with (Ret 0 : py Z). change (be16 [0; 0] 0) with (Some 0). cbn [ok_or]. rewrite py_ret_bind, ok_bind. cbn [Z.eqb negb].
    eexists. split_and!; [done | done | by split | done | done].
  - apply andb_prop in PT as [_ PT%negb_true_iff]. cbn [existsb] in PT. repeat (apply orb_false_iff in PT as [? PT]).
    assert (BT : between 192 m 194 = false /\ between 197 m 199 = false /\ between 201 m 203 = false /\ between 205 m 207 = false) by (rewrite !between_not, !Z.eqb_neq in *; lia). destruct BT as (B1 & B2 & B3 & B4).
    unfold tool_handle, handle. rewrite B1, B2, B3, B4. repeat match goal with E : (m =? _) = false |- _ => rewrite E; clear E end. cbn [orb].
    destruct ((m =? 238) && (12 <=? zlen body) && _); eexists; (split_and!; [done | done | by split | done | done]).
Qed.
