(* ===== verification/JpegConvert.v ===== *)
(** JpegConvert: a baseline file and the progressive file the tool makes of it.

    The kernel decodes both to the same coefficients. *)
From Stdlib Require Import ZArith Lia List.
From stdpp Require Import base list gmap strings.
From S2P Require Import Prelude Text Arrays Machine Huff Png Jpeg JpegBits JpegScan JpegFirst JpegRefine JpegBlocks JpegLevels JpegKinds JpegTables JpegFile JpegWhole JpegWrite JpegFrame JpegProgressive JpegRead JpegBaseline JpegParts.
Open Scope Z_scope.
Import Jpeg.Kernel.

(** * Lists of parts *)

Lemma parts_read ps : Forall part_ok ps -> forall fuel data at_ rest hf n st d, here data at_ (concat (part_bytes <$> ps) ++ rest) -> alike st d -> zlen data - at_ < Z.of_nat fuel ->
  exists fuel' d', Tool.parse fuel data at_ st = Tool.parse fuel' data (at_ + zlen (concat (part_bytes <$> ps))) (foldl keep_part st ps)
    /\ parse_loop fuel data at_ hf n d = parse_loop fuel' data (at_ + zlen (concat (part_bytes <$> ps))) hf n d'
    /\ alike (foldl keep_part st ps) d' /\ frame_of d' = frame_of d /\ here data (at_ + zlen (concat (part_bytes <$> ps))) rest
    /\ zlen data - (at_ + zlen (concat (part_bytes <$> ps))) < Z.of_nat fuel'.
Proof.
  intros F. induction F as [|p ps PO F IH]; intros fuel data at_ rest hf n st d H A HF.
  - exists fuel, d. cbn [fmap list_fmap concat foldl] in *. change (zlen []) with 0. rewrite Z.add_0_r. done.
  - cbn [fmap list_fmap concat foldl] in *. rewrite <- app_assoc in H. rewrite zlen_app, Z.add_assoc. assert (LP : 4 <= zlen (part_bytes p)) by (unfold part_bytes; rewrite zlen_segment; pose proof (zlen_nonneg (part_segment p).2); lia).
    assert (LD : 0 < zlen data - at_) by (unfold part_bytes, segment in H; rewrite <- !app_comm_cons in H; apply here_lt, Z.ltb_lt in H; lia).
    destruct fuel as [|fuel]; [lia|]. destruct (part_read p fuel data at_ _ hf n st d PO H A) as (d1 & -> & -> & A1 & F1 & H1).
    destruct (IH fuel data _ rest hf n _ d1 H1 A1 ltac:(lia)) as (f' & d' & E1 & E2 & A' & F' & H' & HF'). exists f', d'. split_and!; try done. congruence.
Qed.

(** * The frame and the scan, as the tool reads them *)

(** What the frame says of a component. *)
Definition bare (c : Tool.comp) : Tool.comp := Tool.Comp (Tool.id c) (Tool.h c) (Tool.v c) (Tool.tq c) 0 0 0 0 [].

Lemma be_val_2 x : 0 <= x < 65536 -> exists a b, be_bytes 2 x = [a; b] /\ be_val [a; b] = x.
Proof.
  intros H. rewrite be_bytes_2. eexists _, _. split; [done|]. rewrite <- be_bytes_2. apply be_val_be_bytes. change (256 ^ Z.of_nat 2) with 65536. done.
Qed.

Lemma read_component_ok w hh cs i c : cs !! i = Some c -> 0 <= Tool.h c <= 15 -> 0 <= Tool.v c <= 15 -> Tool.read_component (frame_body w hh cs) (Z.of_nat i) = Ret (bare c).
Proof.
  intros E Hh Hv. assert (H : here (frame_body w hh cs) 0 (frame_head w hh (zlen cs) ++ concat (comp_bytes <$> take i cs) ++ comp_bytes c ++ concat (comp_bytes <$> drop (S i) cs))).
  { split; [lia|]. change (Z.to_nat 0) with O. rewrite drop_0. unfold frame_body. f_equal. transitivity (concat (comp_bytes <$> (take i cs ++ c :: drop (S i) cs))); [by rewrite (take_drop_middle cs i c E)|]. rewrite fmap_app, concat_app. reflexivity. }
  apply here_app in H. rewrite zlen_head in H. apply here_app in H. rewrite zlen_triples in H. assert (EL : zlen (take i cs) = Z.of_nat i) by (unfold zlen; apply lookup_lt_Some in E; rewrite length_take; lia). rewrite EL in H.
  unfold Tool.read_component. rewrite (here_sub _ _ _ _ (6 + 3 * Z.of_nat i) (9 + 3 * Z.of_nat i) H ltac:(lia) ltac:(change (zlen (comp_bytes c)) with 3; lia)). unfold comp_bytes. destruct (nibbles (Tool.h c) (Tool.v c)) as [-> ->]; [lia..|]. done.
Qed.

Lemma read_sof_ok w hh cs : 0 <= w < 65536 -> 0 <= hh < 65536 -> Forall (fun c => 0 <= Tool.h c <= 15 /\ 0 <= Tool.v c <= 15) cs ->
  Tool.read_sof (frame_body w hh cs) = Ret (8, hh, w, bare <$> cs).
Proof.
  intros Hw Hh F. destruct (be_val_2 hh Hh) as (h1 & h0 & EH & VH), (be_val_2 w Hw) as (w1 & w0 & EW & VW). unfold Tool.read_sof.
  assert (ES : pyslice (frame_body w hh cs) 0 6 = [8; h1; h0; w1; w0; zlen cs]).
  { unfold frame_body. rewrite (here_sub _ _ (frame_head w hh (zlen cs)) (concat (comp_bytes <$> cs)) 0 6 (here_start _)); [|done | by rewrite zlen_head]. unfold frame_head. by rewrite EH, EW. }
  rewrite ES, VH, VW. assert (EM : mapM_py (Tool.read_component (frame_body w hh cs)) (pyrange 0 (zlen cs)) = Ret ((fun k => match cs !! Z.to_nat k with Some c => bare c | None => bare (Tool.Comp 0 0 0 0 0 0 0 0 []) end) <$> pyrange 0 (zlen cs))).
  { apply mapM_py_ret. intros k Hk%elem_of_pyrange. destruct (lookup_lt_is_Some_2 cs (Z.to_nat k) ltac:(unfold zlen in Hk; lia)) as (c & E). rewrite E. rewrite Forall_forall in F. destruct (F c ltac:(by eapply list_elem_of_lookup_2)).
    rewrite <- (Z2Nat.id k) at 1 by lia. by apply read_component_ok. }
  rewrite EM, py_ret_bind. do 2 f_equal. apply list_eq. intros i. rewrite !list_lookup_fmap. destruct (cs !! i) as [c|] eqn:E.
  - assert (EI : pyrange 0 (zlen cs) !! i = Some (Z.of_nat i)) by (unfold pyrange; rewrite list_lookup_fmap, lookup_seq_lt by (apply lookup_lt_Some in E; unfold zlen; lia); done). rewrite EI. cbn. by rewrite Nat2Z.id, E.
  - assert (EI : pyrange 0 (zlen cs) !! i = None); [|by rewrite EI]. apply lookup_ge_None. apply lookup_ge_None in E. pose proof (zlen_pyrange 0 (zlen cs) ltac:(pose proof (zlen_nonneg cs); lia)) as L. unfold zlen in L |- *. unfold zlen in L. lia.
Qed.

Lemma unstuff_stuffed raw m rest : m <> 0 -> Tool.unstuff (stuffed raw ++ 255 :: m :: rest) = Ret raw.
Proof.
  intros HM. induction raw as [|b raw IH].
  - cbn. by rewrite (proj2 (Z.eqb_neq m 0)).
  - rewrite stuffed_cons. destruct (Z.eqb_spec b 255) as [->|N]; cbn [app Tool.unstuff].
    + cbn [Z.eqb Pos.eqb]. rewrite IH. done.
    + rewrite (proj2 (Z.eqb_neq b 255) N), IH. done.
Qed.

(** * The header of the scan *)

(** The components of the scan, each with the numbers of its tables. *)
Definition scan_pairs (l : list (Z * Z)) : list Z := concat ((fun p => [p.1; p.2]) <$> l).
Definition baseline_header (l : list (Z * Z)) : list Z := [zlen l] ++ scan_pairs l ++ [0; 63; 0].

Lemma zlen_pairs l : zlen (scan_pairs l) = 2 * zlen l.
Proof. induction l as [|[i t] l IH]; [done|]. unfold scan_pairs in *. cbn [fmap list_fmap concat]. rewrite zlen_app, IH, (zlen_cons (i, t) l). change (zlen [(i, t).1; (i, t).2]) with 2. lia. Qed.
Lemma scan_pairs_at l n i t : l !! n = Some (i, t) -> scan_pairs l !! (2 * n)%nat = Some i /\ scan_pairs l !! (S (2 * n)) = Some t.
Proof.
  revert n. induction l as [|[i0 t0] l IH]; intros [|n] E; [done | done | by injection E as -> -> |]. cbn [lookup list_lookup] in E. destruct (IH n E) as [H1 H2].
  unfold scan_pairs in *. cbn [fmap list_fmap concat app]. replace (2 * S n)%nat with (S (S (2 * n))) by lia. done.
Qed.
Lemma header_at_pair l n i t : l !! n = Some (i, t) -> baseline_header l !! Z.to_nat (1 + 2 * Z.of_nat n) = Some i /\ baseline_header l !! Z.to_nat (2 + 2 * Z.of_nat n) = Some t.
Proof.
  intros E. destruct (scan_pairs_at l n i t E) as [H1 H2]. unfold baseline_header. cbn [app]. replace (Z.to_nat (1 + 2 * Z.of_nat n)) with (S (2 * n)) by lia. replace (Z.to_nat (2 + 2 * Z.of_nat n)) with (S (S (2 * n))) by lia. cbn [lookup list_lookup].
  split; by apply lookup_app_l_Some.
Qed.
Lemma header_at_end l k x : [0; 63; 0] !! k = Some x -> baseline_header l !! Z.to_nat (1 + 2 * zlen l + Z.of_nat k) = Some x.
Proof.
  intros E. unfold baseline_header. pose proof (zlen_pairs l) as LP. cbn [app]. replace (Z.to_nat (1 + 2 * zlen l + Z.of_nat k)) with (S (length (scan_pairs l) + k)) by (unfold zlen in *; lia). change ((scan_pairs l ++ [0; 63; 0]) !! (length (scan_pairs l) + k)%nat = Some x). rewrite lookup_app_r by lia. by rewrite Nat.add_comm, Nat.add_sub.
Qed.

Definition keep_tables (m : gmap Z (Z * Z)) (p : Z * Z) : gmap Z (Z * Z) := <[p.1 := (Z.shiftr p.2 4, Z.land p.2 15)]> m.

Lemma read_sos_ok l : Tool.read_sos (baseline_header l) = Ret (foldl keep_tables ∅ l).
Proof.
  unfold Tool.read_sos. change (pyget (baseline_header l) 0) with (Ret (zlen l) : py Z). rewrite py_ret_bind.
  assert (G : forall n, (n <= length l)%nat -> foldM (fun tables k => cid ← pyget (baseline_header l) (1 + 2 * k); t ← pyget (baseline_header l) (2 + 2 * k); Ret (<[cid := (Z.shiftr t 4, Z.land t 15)]> tables)) ∅ (pyrange 0 (Z.of_nat n)) = Ret (foldl keep_tables ∅ (take n l))).
  { induction n as [|n IH]; intros Hn; [done|]. rewrite Nat2Z.inj_succ, <- Z.add_1_r, pyrange_snoc, foldM_app, IH, py_ret_bind by lia. destruct (lookup_lt_is_Some_2 l n ltac:(lia)) as ([i t] & E).
    destruct (header_at_pair l n i t E) as [H1 H2]. cbn [foldM]. rewrite (pyget_lookup (baseline_header l) (1 + 2 * Z.of_nat n) i ltac:(lia) H1), py_ret_bind, (pyget_lookup (baseline_header l) (2 + 2 * Z.of_nat n) t ltac:(lia) H2), py_ret_bind, py_ret_bind. rewrite (take_S_r _ _ _ E), foldl_app. done. }
  unfold zlen. rewrite G by lia. by rewrite firstn_all.
Qed.
Lemma kept_tables l i t : NoDup l.*1 -> (i, t) ∈ l -> foldl keep_tables ∅ l !! i = Some (Z.shiftr t 4, Z.land t 15).
Proof.
  assert (G : forall m, NoDup l.*1 -> ((i, t) ∈ l -> foldl keep_tables m l !! i = Some (Z.shiftr t 4, Z.land t 15)) /\ (i ∉ l.*1 -> foldl keep_tables m l !! i = m !! i)); [|intros N; by apply G].
  induction l as [|[j u] l IH]; intros m N; [split; [by intros H%not_elem_of_nil | done]|]. cbn [fmap list_fmap] in N. apply NoDup_cons in N as [N1 N]. cbn [fst] in N1. destruct (IH (keep_tables m (j, u)) N) as [I1 I2]. cbn [foldl]. split.
  - intros [[= -> ->]|H]%elem_of_cons; [|by apply I1]. rewrite I2 by done. unfold keep_tables. cbn [fst snd]. by rewrite lookup_insert_eq.
  - cbn [fmap list_fmap fst]. intros [Hj Hl]%not_elem_of_cons. rewrite I2 by done. unfold keep_tables. cbn [fst snd]. by rewrite lookup_insert_ne.
Qed.

(** The kernel's components with their tables, the first [n] of them. *)
Definition tabled (n : nat) (ts : list Z) (cs : list component) : list component :=
  imap (fun i k => match ts !! i with Some t => if (i <? n)%nat then set_tables k (Z.land (Z.shiftr t 4) 3) (Z.land (Z.land t 15) 3) else k | None => k end) cs.

Lemma tabled_0 ts cs : tabled 0 ts cs = cs.
Proof. unfold tabled. apply list_eq. intros i. rewrite list_lookup_imap. destruct (cs !! i); [|done]. cbn. by destruct (ts !! i). Qed.
Lemma tabled_S n ts cs t : ts !! n = Some t -> tabled (S n) ts cs = alter (fun k => set_tables k (Z.land (Z.shiftr t 4) 3) (Z.land (Z.land t 15) 3)) n (tabled n ts cs).
Proof.
  intros E. unfold tabled. apply list_eq. intros i. destruct (decide (i = n)) as [->|N].
  - rewrite list_lookup_alter_eq, !list_lookup_imap, E. destruct (cs !! n); [|done]. cbn [fmap option_fmap option_map]. rewrite (proj2 (Nat.ltb_lt n (S n))), (proj2 (Nat.ltb_ge n n)) by lia. done.
  - rewrite list_lookup_alter_ne, !list_lookup_imap by done. destruct (cs !! i); [|done]. cbn [fmap option_fmap option_map]. destruct (ts !! i); [|done]. destruct (Nat.ltb_spec i n), (Nat.ltb_spec i (S n)); (done || lia).
Qed.
Lemma tabled_ids n ts cs : cid <$> tabled n ts cs = cid <$> cs.
Proof. unfold tabled. apply list_eq. intros i. rewrite !list_lookup_fmap, list_lookup_imap. destruct (cs !! i); [|done]. cbn. destruct (ts !! i); [|done]. by case_match. Qed.

Lemma tabled_slot ts cs i k0 : length ts = length cs -> at_slot cs i = Some k0 -> exists t, at_slot ts i = Some t
  /\ at_slot (tabled (length cs) ts cs) i = Some (set_tables k0 (Z.land (Z.shiftr t 4) 3) (Z.land (Z.land t 15) 3)).
Proof.
  intros L. unfold at_slot. destruct (Z.ltb_spec i 0) as [|Hi]; [done|]. intros E. pose proof (lookup_lt_Some _ _ _ E) as LT. destruct (lookup_lt_is_Some_2 ts (Z.to_nat i) ltac:(lia)) as (t & ET). exists t. split; [done|].
  unfold tabled. rewrite list_lookup_imap, E. cbn [fmap option_fmap option_map]. by rewrite ET, (proj2 (Nat.ltb_lt _ _) LT).
Qed.
Lemma tabled_framed im ts cs : length ts = length cs -> framed im cs -> framed im (tabled (length cs) ts cs).
Proof.
  intros L [FL FC]. split; [unfold tabled; by rewrite length_imap|]. intros i c E. destruct (FC i c E) as (k & EK & [? ? ? ? ?] & O). destruct (tabled_slot ts cs i k L EK) as (t & _ & ->). eexists. split; [done|]. by split.
Qed.

Lemma select_pairs cs l ts : NoDup (cid <$> cs) -> l = zip (cid <$> cs) ts -> length ts = length cs ->
  foldK (select (baseline_header l)) (cs, []) (pyrange 0 (zlen l)) = Ok (tabled (length cs) ts cs, pyrange 0 (zlen cs)).
Proof.
  intros N EL LT. assert (LL : length l = length cs) by (rewrite EL, length_zip_with, length_fmap; lia).
  assert (G : forall n, (n <= length l)%nat -> foldK (select (baseline_header l)) (cs, []) (pyrange 0 (Z.of_nat n)) = Ok (tabled n ts cs, pyrange 0 (Z.of_nat n))).
  { induction n as [|n IH]; intros Hn; [by rewrite tabled_0|]. rewrite Nat2Z.inj_succ, <- Z.add_1_r, pyrange_snoc, foldK_app, IH, ok_bind by lia. destruct (lookup_lt_is_Some_2 ts n ltac:(lia)) as (t & ET). destruct (lookup_lt_is_Some_2 cs n ltac:(lia)) as (k & EK).
    assert (E : l !! n = Some (cid k, t)) by (rewrite EL; apply lookup_zip_with_Some; exists (cid k), t; split_and!; [done | by rewrite list_lookup_fmap, EK | done]).
    destruct (header_at_pair l n (cid k) t E) as [H1 H2]. cbn [foldK]. unfold select. rewrite (index_slot _ (1 + Z.of_nat n * 2) (cid k)), ok_bind, (index_slot _ (2 + Z.of_nat n * 2) t), ok_bind.
    2:{ unfold at_slot. rewrite (proj2 (Z.ltb_ge _ 0)) by lia. by replace (2 + Z.of_nat n * 2) with (2 + 2 * Z.of_nat n) by lia. }
    2:{ unfold at_slot. rewrite (proj2 (Z.ltb_ge _ 0)) by lia. by replace (1 + Z.of_nat n * 2) with (1 + 2 * Z.of_nat n) by lia. }
    rewrite (find_slot_ids (tabled n ts cs) cs) by apply tabled_ids. rewrite (find_slot_at cs (Z.of_nat n) k N) by (unfold at_slot; by rewrite (proj2 (Z.ltb_ge _ 0)), Nat2Z.id by lia).
    cbn [ok_or]. rewrite ok_bind, ok_bind, Nat2Z.id, (tabled_S n ts cs t ET). done. }
  specialize (G (length l) ltac:(lia)). unfold zlen. rewrite G, LL. done.
Qed.

(** * What the tool decodes *)

Lemma skeleton_blank cs cs' : skeleton cs = skeleton cs' -> blank <$> cs = blank <$> cs'.
Proof. intros E. assert (G : forall l, blank <$> l = blank <$> skeleton l) by (intros l; unfold skeleton; by rewrite <- list_fmap_compose). by rewrite (G cs), (G cs'), E. Qed.
Lemma skeleton_bare cs cs' : skeleton cs = skeleton cs' -> bare <$> cs = bare <$> cs'.
Proof. intros E. assert (G : forall l, bare <$> l = bare <$> skeleton l) by (intros l; unfold skeleton; by rewrite <- list_fmap_compose). by rewrite (G cs), (G cs'), E. Qed.
Lemma skeleton_base im im' i : skeleton (Tool.comps im) = skeleton (Tool.comps im') -> base im i = base im' i.
Proof.
  intros E. unfold base. assert (G : forall n l, (fun c => Tool.blocks_w c * Tool.blocks_h c) <$> take n l = (fun c => Tool.blocks_w c * Tool.blocks_h c) <$> take n (skeleton l)).
  { intros n l. unfold skeleton. by rewrite <- fmap_take, <- !list_fmap_compose. }
  by rewrite G, E, <- G.
Qed.
Lemma skeleton_total im im' : skeleton (Tool.comps im) = skeleton (Tool.comps im') -> total im = total im'.
Proof. intros E. unfold total. rewrite (skeleton_base im im' _ E). apply (f_equal length) in E. unfold skeleton in E. rewrite !length_fmap in E. unfold zlen. by rewrite E. Qed.
Lemma skeleton_placed im im' : skeleton (Tool.comps im) = skeleton (Tool.comps im') -> imap (placed im) (Tool.comps im) = imap (placed im') (Tool.comps im').
Proof.
  intros E. assert (G : forall im l, imap (placed im) l = imap (placed im) (skeleton l)) by (intros i l; unfold skeleton; by rewrite imap_fmap).
  rewrite (G im), (G im'), E. apply imap_ext. intros i c _. unfold placed. by rewrite (skeleton_base im im' _ E).
Qed.
Lemma layout_bare w hh cs : Tool.layout w hh (bare <$> cs) = Tool.layout w hh cs.
Proof.
  unfold Tool.layout. rewrite <- !list_fmap_compose. change (Tool.h ∘ bare) with Tool.h. change (Tool.v ∘ bare) with Tool.v. destruct (Tool.maximum (Tool.h <$> cs)) as [mh| |]; [|done..]. rewrite !py_ret_bind. destruct (Tool.maximum (Tool.v <$> cs)) as [mv| |]; [|done..].
  rewrite !py_ret_bind. destruct (Tool.ceil_div w (8 * mh)) as [mx| |]; [|done..]. rewrite !py_ret_bind. destruct (Tool.ceil_div hh (8 * mv)) as [my| |]; [|done..]. rewrite !py_ret_bind.
  assert (E : mapM_py (Tool.measure w hh mh mv mx my) (bare <$> cs) = mapM_py (Tool.measure w hh mh mv mx my) cs); [|by rewrite E]. induction cs as [|c cs IH]; [done|]. cbn [fmap list_fmap mapM_py]. by rewrite IH.
Qed.

Section decoded.
Context (raw : list Z) (decoders : gmap (Z * Z) (gmap (Z * Z) Z)) (scan_tables : gmap Z (Z * Z)).

(** Every round keeps what each of its parts keeps. *)
Lemma decode_image_keeps (P : list Tool.comp -> Prop) im im' :
  (forall dc_id ac_id mx my ci st yx st', P (Tool.components st) -> Tool.decode_one raw decoders dc_id ac_id mx my ci st yx = Ret st' -> P (Tool.components st')) ->
  P (Tool.comps im) -> Tool.decode_image raw decoders scan_tables im = Ret im' -> Tool.mcus_x im' = Tool.mcus_x im /\ Tool.mcus_y im' = Tool.mcus_y im /\ P (Tool.comps im').
Proof.
  intros K P0 E. unfold Tool.decode_image in E. apply bind_ret_inv in E as (st & E & [= <-]). split_and!; [done | done|]. cbn [Tool.comps]. revert E.
  apply (foldM_invariant (fun st => P (Tool.components st))); [|done]. intros s [my mx] s' _ Ps. apply (foldM_invariant (fun st => P (Tool.components st))); [|done].
  intros s1 ci s1' _ Ps1 E. unfold Tool.decode_comp in E. apply bind_ret_inv in E as (c & _ & E). apply bind_ret_inv in E as ([dc_id ac_id] & _ & E). revert E.
  apply (foldM_invariant (fun st => P (Tool.components st))); [|done]. intros s2 yx s2' _ Ps2. by apply K.
Qed.

(** The parts of a round that changes the components. *)
Lemma decode_one_inv dc_id ac_id mx my ci st yx st' : Tool.decode_one raw decoders dc_id ac_id mx my ci st yx = Ret st' ->
  exists c i b q p' q' b' bs, pyget (Tool.components st) ci = Ret c /\ pyget (Tool.blocks c) i = Ret b /\ Tool.decode_block raw decoders dc_id ac_id (Tool.bitpos st) q b = Ret (p', q', b')
    /\ pyset (Tool.blocks c) i b' = Ret bs /\ pyset (Tool.components st) ci (Tool.set_blocks c bs) = Ret (Tool.components st').
Proof.
  destruct yx as [y x]. unfold Tool.decode_one. intros E. apply bind_ret_inv in E as (c & E1 & E). apply bind_ret_inv in E as (b & E2 & E). apply bind_ret_inv in E as (q & _ & E).
  apply bind_ret_inv in E as ([[p' q'] b'] & E3 & E). apply bind_ret_inv in E as (ps & _ & E). apply bind_ret_inv in E as (bs & E4 & E). apply bind_ret_inv in E as (cs & E5 & E). injection E as <-. by eexists c, _, b, q, p', q', b', bs.
Qed.

Lemma decode_image_skeleton im im' : Tool.decode_image raw decoders scan_tables im = Ret im' ->
  Tool.mcus_x im' = Tool.mcus_x im /\ Tool.mcus_y im' = Tool.mcus_y im /\ skeleton (Tool.comps im') = skeleton (Tool.comps im).
Proof.
  apply (decode_image_keeps (fun cs => skeleton cs = skeleton (Tool.comps im))); [|done]. intros dc_id ac_id mx my ci st yx st' K E.
  destruct (decode_one_inv _ _ _ _ _ _ _ _ E) as (c & i & b & q & p' & q' & b' & bs & E1 & _ & _ & _ & E5). by rewrite (set_skeleton _ _ _ _ _ E1 E5).
Qed.

Lemma pyset_Forall {A} (P : A -> Prop) l i a l' : pyset l i a = Ret l' -> Forall P l -> P a -> Forall P l' /\ zlen l' = zlen l.
Proof. unfold pyset. cbv zeta. case_match; [|done]. intros [= <-] F HP. split; [by apply Forall_insert|]. unfold zlen. by rewrite length_insert. Qed.

Definition whole (c : Tool.comp) : Prop := zlen (Tool.blocks c) = Tool.blocks_w c * Tool.blocks_h c /\ Forall ac_ok (Tool.blocks c).

Lemma decode_image_whole im im' : (forall k t, decoders !! k = Some t -> exists kt, same_code t kt) -> Forall whole (Tool.comps im) ->
  Tool.decode_image raw decoders scan_tables im = Ret im' -> Forall whole (Tool.comps im').
Proof.
  intros CO F E. apply (decode_image_keeps (Forall whole)) in E as (_ & _ & E); [done | | done]. intros dc_id ac_id mx my ci st yx st' K E1.
  destruct (decode_one_inv _ _ _ _ _ _ _ _ E1) as (c & i & b & q & p' & q' & b' & bs & EC & EB & ED & ES & EN). rewrite Forall_forall in K. destruct (K c (pyget_elem _ _ _ EC)) as [LB FB].
  rewrite Forall_forall in FB. pose proof (FB b (pyget_elem _ _ _ EB)) as AB0. apply Forall_forall in FB. assert (AB : ac_ok b').
  { destruct (decoders !! (1, ac_id)) as [t|] eqn:ET.
    - destruct (CO _ _ ET) as (kt & SC). destruct (block_shape raw decoders dc_id ac_id kt _ _ _ _ _ _ ltac:(intros t' E'; rewrite ET in E'; by injection E' as <-) AB0 ED). done.
    - destruct (block_shape raw decoders dc_id ac_id Huff.Kernel.EMPTY _ _ _ _ _ _ ltac:(intros t' E'; by rewrite ET in E') AB0 ED). done. }
  destruct (pyset_Forall _ _ _ _ _ ES FB AB) as [FB' LB']. apply Forall_forall in K. apply (pyset_Forall whole _ _ _ _ EN K). split; cbn [Tool.blocks Tool.set_blocks Tool.blocks_w Tool.blocks_h]; [lia | done].
Qed.
End decoded.

(** The dictionaries the tool builds and the tables of the kernel. *)
Lemma decoders_same m t decoders : same_codes m t -> mapM_py (fun '(key, (bits, values)) => t ← Huff.Tool.build_decoder bits values; Ret (key, t)) (map_to_list m) = Ret decoders ->
  forall k dec, (list_to_map decoders : gmap (Z * Z) (gmap (Z * Z) Z)) !! k = Some dec -> 0 <= k.2 <= 3 /\ exists kt, (if k.1 =? 0 then t.1 else t.2) !! Z.to_nat k.2 = Some kt /\ same_code dec kt.
Proof.
  intros [_ SC] E k dec EK. apply elem_of_list_to_map_2 in EK. apply mapM_py_Forall2 in E. apply list_elem_of_lookup in EK as (i & EK). destruct (Forall2_lookup_r _ _ _ _ _ E EK) as ([key [bits values]] & EI & EB).
  apply bind_ret_inv in EB as (dec' & EB & [= -> ->]). apply list_elem_of_lookup_2, elem_of_map_to_list in EI. destruct (SC _ _ EI) as (CO & kt & EKT & TK). pose proof (counts_nonneg _ CO) as NC. destruct CO as [HC HI LC BC LV BV SM FT]. cbn [fst snd] in *.
  split; [done|]. exists kt. split; [done|]. destruct (build_decoder_spec bits values LC NC ltac:(lia)) as (dec' & EB' & W). rewrite EB in EB'. injection EB' as ->. exists bits, values. split_and!; try done. lia.
Qed.

(** * A baseline file *)

Record baseline : Type := Baseline {
  before : list part;
  bwidth : Z;
  bheight : Z;
  parts_of : list Tool.comp;   (* what the frame says of each component *)
  after : list part;
  tables_of : list Z;          (* the byte with the two tables of each component *)
  coded_bits : list Z;         (* the entropy-coded bytes, before stuffing *)
  trailing : list Z
}.

Definition header_of (f : baseline) : list Z := baseline_header (zip (Tool.id <$> parts_of f) (tables_of f)).
(** From the scan on. *)
Definition scan_part (f : baseline) : list Z := segment 218 (header_of f) ++ stuffed (coded_bits f) ++ 255 :: 217 :: trailing f.
Definition frame_part (f : baseline) : list Z := segment 192 (frame_body (bwidth f) (bheight f) (parts_of f)).
Definition file_of (f : baseline) : list Z :=
  [255; 216] ++ concat (part_bytes <$> before f) ++ frame_part f ++ concat (part_bytes <$> after f) ++ scan_part f.

Record baseline_ok (f : baseline) : Prop := BaselineOk {
  bo_before : Forall part_ok (before f);
  bo_after : Forall part_ok (after f);
  bo_size : 1 <= bwidth f <= Png.Kernel.MAX_EDGE /\ 1 <= bheight f <= Png.Kernel.MAX_EDGE /\ bwidth f * bheight f <= Png.Kernel.MAX_PIXELS;
  bo_count : zlen (parts_of f) = 3 \/ zlen (parts_of f) = 1 /\ Forall (fun c => Tool.h c = 1 /\ Tool.v c = 1) (parts_of f);
  bo_comps : Forall (fun c => is_byte (Tool.id c) /\ 1 <= Tool.h c <= 4 /\ 1 <= Tool.v c <= 4 /\ 0 <= Tool.tq c <= 3) (parts_of f);
  bo_ids : NoDup (Tool.id <$> parts_of f);
  bo_tables : length (tables_of f) = length (parts_of f) /\ Forall is_byte (tables_of f);
  bo_bits : Forall is_byte (coded_bits f)
}.

(** What the tool has read when it comes to the scan. *)
Definition tables_read (f : baseline) : Tool.parsed :=
  let st := foldl keep_part (Tool.Parsed ∅ ∅ None None) (before f) in
  foldl keep_part (Tool.Parsed (Tool.quant st) (Tool.huff st) (Some (8, bheight f, bwidth f, bare <$> parts_of f)) None) (after f).
Definition scan_map (f : baseline) : gmap Z (Z * Z) := foldl keep_tables ∅ (zip (Tool.id <$> parts_of f) (tables_of f)).

Lemma keep_parts_frame ps st : Tool.frame (foldl keep_part st ps) = Tool.frame st /\ Tool.scan (foldl keep_part st ps) = Tool.scan st.
Proof. revert st. induction ps as [|p ps IH]; intros st; [done|]. cbn [foldl]. destruct (IH (keep_part st p)) as [-> ->]. by destruct p. Qed.

Section file.
Context (f : baseline).
Hypothesis ok : baseline_ok f.
#[warnings="-notation-for-abbreviation"] Local Notation data := (file_of f).

Lemma count_range : 1 <= zlen (parts_of f) <= 3.
Proof. destruct (bo_count f ok) as [->|[-> _]]; lia. Qed.
Lemma header_length : zlen (header_of f) = 4 + 2 * zlen (parts_of f).
Proof.
  unfold header_of, baseline_header. rewrite !zlen_app, zlen_pairs. change (zlen [_]) with 1. change (zlen [0; 63; 0]) with 3. destruct (bo_tables f ok) as [LT _].
  assert (E : zlen (zip (Tool.id <$> parts_of f) (tables_of f)) = zlen (parts_of f)) by (unfold zlen; rewrite length_zip_with, length_fmap, LT; lia). lia.
Qed.

(** The picture before any block is decoded. *)
Definition start_image : Tool.image :=
  let cs := parts_of f in let mh := max_factor (Tool.h <$> cs) in let mv := max_factor (Tool.v <$> cs) in let mx := div_ceil (bwidth f) (8 * mh) in let my := div_ceil (bheight f) (8 * mv) in
  Tool.Image mx my (measured_comp (bwidth f) (bheight f) mh mv mx my <$> cs).

Lemma start_laid_out : Tool.layout (bwidth f) (bheight f) (parts_of f) = Ret start_image.
Proof.
  apply layout_ret; [intros E; pose proof count_range as C; rewrite E in C; change (zlen []) with 0 in C; lia|]. eapply Forall_impl; [apply (bo_comps f ok)|]. intros c (_ & H1 & H2 & _). lia.
Qed.
Lemma start_bare : bare <$> Tool.comps start_image = bare <$> parts_of f.
Proof. unfold start_image. cbn [Tool.comps]. by rewrite <- list_fmap_compose. Qed.
Lemma start_blank : blank <$> Tool.comps start_image = Tool.comps start_image.
Proof. unfold start_image. cbn [Tool.comps]. by rewrite <- list_fmap_compose. Qed.
Lemma start_body : frame_body (bwidth f) (bheight f) (Tool.comps start_image) = frame_body (bwidth f) (bheight f) (parts_of f).
Proof. unfold frame_body, start_image. cbn [Tool.comps]. rewrite <- list_fmap_compose. unfold zlen at 1. by rewrite length_fmap. Qed.

Lemma Forall_bare (P : Tool.comp -> Prop) cs cs' : (forall c, P (bare c) <-> P c) -> bare <$> cs = bare <$> cs' -> Forall P cs' -> Forall P cs.
Proof.
  intros HP E F. assert (G : forall l, Forall P (bare <$> l) <-> Forall P l) by (intros l; rewrite Forall_fmap; apply Forall_iff; intros c; apply HP). apply G. rewrite E. by apply G.
Qed.

(** A picture with the components of the file and blocks in range. *)
Lemma drawable_like im : skeleton (Tool.comps im) = skeleton (Tool.comps start_image) -> Tool.mcus_x im = Tool.mcus_x start_image -> Tool.mcus_y im = Tool.mcus_y start_image ->
  Forall (fun c => zlen (Tool.blocks c) = Tool.blocks_w c * Tool.blocks_h c /\ Forall sample_ok (Tool.blocks c)) (Tool.comps im) -> 64 * total im < 9227464 -> drawable (bwidth f) (bheight f) im.
Proof.
  intros SK EX EY FB FW. pose proof (skeleton_bare _ _ SK) as SB. rewrite start_bare in SB. pose proof (skeleton_blank _ _ SK) as SL. rewrite start_blank in SL. destruct ok as [_ _ BS BC BP BI _ _].
  assert (EL : zlen (Tool.comps im) = zlen (parts_of f)) by (apply (f_equal length) in SB; rewrite !length_fmap in SB; unfold zlen; lia). split; try done.
  - rewrite EL. destruct BC as [|[E1 F1]]; [by left|]. right. split; [done|]. eapply Forall_bare; [|exact SB | exact F1]; done.
  - eapply Forall_bare; [|exact SB | exact BP]; done.
  - assert (E : Tool.id <$> Tool.comps im = Tool.id <$> parts_of f); [|by rewrite E]. apply (f_equal (fmap Tool.id)) in SB. by rewrite <- !list_fmap_compose in SB.
  - unfold laid_out. rewrite <- layout_bare, SB, layout_bare, start_laid_out, SL, EX, EY. by destruct start_image.
Qed.

Hypothesis few : 64 * total start_image < 9227464.

Lemma start_drawable : drawable (bwidth f) (bheight f) start_image.
Proof.
  apply drawable_like; try done. unfold start_image. cbn [Tool.comps]. apply Forall_fmap, Forall_forall. intros c Hc. cbn [compose measured_comp Tool.blocks Tool.blocks_w Tool.blocks_h].
  pose proof (bo_comps f ok) as BC. rewrite Forall_forall in BC. destruct (BC c Hc) as (_ & F1 & F2 & _). destruct (bo_size f ok) as (W1 & W2 & _).
  pose proof (max_factor_pos (Tool.h <$> parts_of f)). pose proof (max_factor_pos (Tool.v <$> parts_of f)).
  assert (D1 : 1 <= div_ceil (bwidth f) (8 * max_factor (Tool.h <$> parts_of f))) by (apply div_ceil_pos; lia). assert (D2 : 1 <= div_ceil (bheight f) (8 * max_factor (Tool.v <$> parts_of f))) by (apply div_ceil_pos; lia).
  split; [unfold zlen; rewrite length_replicate, Z2Nat.id by nia; done|]. apply Forall_replicate. by apply sample_ok_decide.
Qed.

(** Both parsers come to the scan, the tool with its tables and the kernel with
    the same ones and the frame. *)
Definition frame_seen : Z * Z * bool * list component * Z * Z * option (list Z) :=
  (bwidth f, bheight f, false, imap (placed start_image) (Tool.comps start_image), Tool.mcus_x start_image, Tool.mcus_y start_image, Some (zeros (64 * total start_image))).

Lemma scan_reached : exists fuel at_ d, Tool.parse (S (length data)) data 2 (Tool.Parsed ∅ ∅ None None) = Tool.parse (S fuel) data at_ (tables_read f)
    /\ parse_loop (S (length data)) data 2 false 0 START = parse_loop (S fuel) data at_ true 0 d
    /\ alike (tables_read f) d /\ frame_of d = frame_seen /\ here data at_ (scan_part f) /\ zlen data - at_ < Z.of_nat (S fuel).
Proof.
  pose proof count_range as CR. assert (H : here data 2 (concat (part_bytes <$> before f) ++ frame_part f ++ concat (part_bytes <$> after f) ++ scan_part f)) by (by split).
  destruct (parts_read (before f) (bo_before f ok) (S (length data)) data 2 _ false 0 (Tool.Parsed ∅ ∅ None None) START H) as (f1 & d1 & -> & -> & A1 & _ & H1 & HF1); [split; [apply same_quants_start | apply same_codes_start | done] | unfold zlen; lia|].
  set (at1 := 2 + zlen _) in *. set (body := frame_body (bwidth f) (bheight f) (parts_of f)). assert (LB : zlen body = 6 + 3 * zlen (parts_of f)) by (unfold body, frame_body; rewrite zlen_app, zlen_head, zlen_triples; lia).
  unfold frame_part in H1. fold body in H1. assert (LT : at1 < zlen data) by (unfold segment in H1; rewrite <- !app_comm_cons in H1; apply here_lt, Z.ltb_lt in H1; lia).
  destruct f1 as [|f1]; [lia|]. set (st1 := foldl keep_part (Tool.Parsed ∅ ∅ None None) (before f)) in *.
  destruct (tool_segment f1 data at1 192 body _ st1 H1 ltac:(lia) ltac:(done)) as [ET H2]. rewrite ET, (kernel_segment f1 data at1 192 body _ false 0 d1 H1 ltac:(lia) eq_refl). clear ET.
  pose proof (frame_read _ _ _ start_drawable false d1) as FR. rewrite start_body in FR. fold body in FR. unfold handle. cbn [Z.eqb Pos.eqb andb]. change (between 192 192 194) with true. cbn iota. rewrite FR, ok_bind.
  destruct (bo_size f ok) as (W1 & W2 & _). unfold Png.Kernel.MAX_EDGE in *.
  assert (RS : Tool.read_sof body = Ret (8, bheight f, bwidth f, bare <$> parts_of f)) by (apply read_sof_ok; [lia | lia|]; eapply Forall_impl; [apply (bo_comps f ok)|]; intros c (_ & ? & ? & _); lia).
  unfold tool_handle. destruct st1 as [q1 t1 f1' s1] eqn:E1. cbn [Z.eqb Pos.eqb]. rewrite RS, py_ret_bind. assert (ES : s1 = None) by (destruct (keep_parts_frame (before f) (Tool.Parsed ∅ ∅ None None)) as [_ E]; subst st1; by rewrite E1 in E). subst s1.
  assert (A2 : alike (Tool.Parsed q1 t1 (Some (8, bheight f, bwidth f, bare <$> parts_of f)) None) (framed_decoder (bwidth f) (bheight f) start_image false d1)) by (by destruct A1).
  destruct (parts_read (after f) (bo_after f ok) f1 data (at1 + 4 + zlen body) _ true 0 _ _ H2 A2 ltac:(lia)) as (f2 & d2 & -> & -> & A3 & F3 & H3 & HF3).
  assert (LT2 : at1 + 4 + zlen body + zlen (concat (part_bytes <$> after f)) < zlen data) by (unfold scan_part, segment in H3; rewrite <- !app_comm_cons in H3; apply here_lt, Z.ltb_lt in H3; lia).
  destruct f2 as [|f2]; [lia|]. eexists f2, _, d2. unfold tables_read. subst st1. rewrite E1. cbv zeta. cbn [Tool.quant Tool.huff]. split_and!; [done | done | exact A3 | exact F3 | exact H3 | exact HF3].
Qed.

(** The tool decodes the entropy-coded bytes into the blank picture. *)
Definition decoders_of (decoders : list ((Z * Z) * gmap (Z * Z) Z)) : Prop :=
  mapM_py (fun '(key, (bits, values)) => t ← Huff.Tool.build_decoder bits values; Ret (key, t)) (map_to_list (Tool.huff (tables_read f))) = Ret decoders.

Lemma tables_read_frame : Tool.frame (tables_read f) = Some (8, bheight f, bwidth f, bare <$> parts_of f).
Proof. unfold tables_read. cbv zeta. by rewrite (proj1 (keep_parts_frame _ _)). Qed.

Lemma tool_reads q w hh im : Tool.read_file data = Ret (q, w, hh, im) ->
  q = Tool.quant (tables_read f) /\ w = bwidth f /\ hh = bheight f /\ exists decoders, decoders_of decoders /\ Tool.decode_image (coded_bits f) (list_to_map decoders) (scan_map f) start_image = Ret im.
Proof.
  intros E. unfold Tool.read_file in E. destruct scan_reached as (fuel & at_ & d & EP & _ & _ & _ & H & _). rewrite EP in E. clear EP. pose proof count_range as CR. pose proof header_length as HL.
  unfold scan_part in H. destruct (tool_segment fuel data at_ 218 (header_of f) _ (tables_read f) H ltac:(lia) ltac:(done)) as [ET H2]. rewrite ET in E. clear ET. pose proof tables_read_frame as TF.
  unfold tool_handle in E. destruct (tables_read f) as [q1 t1 f1 s1] eqn:ER. cbn [Z.eqb Pos.eqb] in E. assert (RS : Tool.read_sos (header_of f) = Ret (scan_map f)) by apply read_sos_ok. rewrite RS, py_ret_bind, py_ret_bind in E. cbn [Tool.frame] in TF, E. rewrite TF in E. cbn [of_opt] in E. rewrite py_ret_bind in E.
  change (passert (8 =? 8)) with (Ret tt) in E. rewrite py_ret_bind, layout_bare, start_laid_out, py_ret_bind in E. cbn [Tool.huff Tool.scan of_opt] in E. apply bind_ret_inv in E as (decoders & ED & E). rewrite py_ret_bind in E.
  pose proof H2 as H3. rewrite <- (app_nil_r (stuffed _ ++ _)) in H3. rewrite (here_sub _ _ _ _ _ (zlen data) H3 eq_refl) in E by (apply here_app, here_len in H2; rewrite zlen_app, !zlen_cons in *; lia).
  rewrite unstuff_stuffed, py_ret_bind in E by done. apply bind_ret_inv in E as (im' & EI & [= <- <- <- <-]). split_and!; try done. exists decoders. split; [|exact EI]. unfold decoders_of. rewrite ER. exact ED.
Qed.

(** ** The picture the tool decodes *)

Section picture.
Context (im : Tool.image) (decoders : list ((Z * Z) * gmap (Z * Z) Z)).
Hypothesis built : decoders_of decoders.
Hypothesis decoded : Tool.decode_image (coded_bits f) (list_to_map decoders) (scan_map f) start_image = Ret im.
Hypothesis dc_small : Forall (fun c => Forall (fun b => in_i16 (zat b 0)) (Tool.blocks c)) (Tool.comps im).

Lemma picture_skeleton : Tool.mcus_x im = Tool.mcus_x start_image /\ Tool.mcus_y im = Tool.mcus_y start_image /\ skeleton (Tool.comps im) = skeleton (Tool.comps start_image).
Proof. exact (decode_image_skeleton _ _ _ _ _ decoded). Qed.

Lemma start_whole : Forall whole (Tool.comps start_image).
Proof.
  eapply Forall_impl; [apply (dr_blocks _ _ _ start_drawable)|]. intros c [L F]. split; [done|]. eapply Forall_impl; [exact F|]. intros b [LB _ AC]. split; [done|]. intros k Hk. apply AC; lia.
Qed.

Lemma picture_drawable t : same_codes (Tool.huff (tables_read f)) t -> drawable (bwidth f) (bheight f) im.
Proof.
  intros SC. destruct picture_skeleton as (SX & SY & SK). apply drawable_like; [done | done | done | | by rewrite (skeleton_total _ _ SK)].
  assert (W : Forall whole (Tool.comps im)).
  { apply (decode_image_whole _ _ _ _ _) in decoded; [done| |apply start_whole]. intros k dec EK. destruct (decoders_same _ t _ SC built k dec EK) as (_ & kt & _ & S). by exists kt. }
  apply Forall_forall. intros c Hc. rewrite Forall_forall in W, dc_small. destruct (W c Hc) as [L F]. split; [done|]. specialize (dc_small c Hc). apply Forall_forall. intros b Hb. rewrite Forall_forall in F, dc_small.
  destruct (F b Hb) as [LB AC]. split; [done | exact (dc_small b Hb) |]. intros k Hk N. apply AC. lia.
Qed.

Lemma start_of_picture : blank_image im = start_image.
Proof.
  destruct picture_skeleton as (SX & SY & SK). unfold blank_image. rewrite SX, SY, (skeleton_blank _ _ SK), start_blank. by destruct start_image.
Qed.
Lemma placed_ids : cid <$> imap (placed im) (Tool.comps im) = Tool.id <$> parts_of f.
Proof.
  destruct picture_skeleton as (_ & _ & SK). apply skeleton_bare in SK. rewrite start_bare in SK. apply (f_equal (fmap Tool.id)) in SK. rewrite <- !list_fmap_compose in SK. change (Tool.id ∘ bare) with Tool.id in SK. rewrite <- SK.
  apply list_eq. intros i. rewrite !list_lookup_fmap, list_lookup_imap. by destruct (Tool.comps im !! i).
Qed.

Lemma frame_fields d w hh prog cs mx my co : frame_of d = (w, hh, prog, cs, mx, my, co) ->
  width d = w /\ height d = hh /\ progressive d = prog /\ components d = cs /\ mcus_x d = mx /\ mcus_y d = my /\ coefficients d = co.
Proof. intros E. by injection E. Qed.

(** The kernel's tables for each component. *)
Definition table_for (tables : list huffman) (dest : component -> Z) (cs : list component) (ci : Z) : huffman :=
  match at_slot cs ci with Some k => default Huff.Kernel.EMPTY (at_slot tables (dest k)) | None => Huff.Kernel.EMPTY end.
Lemma table_for_index tables dest cs ci k : length tables = 4%nat -> at_slot cs ci = Some k -> 0 <= dest k <= 3 -> index tables (dest k) = Ok (table_for tables dest cs ci).
Proof.
  intros L E Hd. unfold table_for. rewrite E. apply index_slot. unfold at_slot. rewrite (proj2 (Z.ltb_ge _ 0)) by lia. destruct (lookup_lt_is_Some_2 tables (Z.to_nat (dest k)) ltac:(lia)) as (t & ->). done.
Qed.
Lemma land_3_mod x : Z.land x 3 = x mod 4.
Proof. change 3 with (Z.ones 2). by rewrite Z.land_ones. Qed.
Lemma land_3 x : 0 <= x <= 3 -> Z.land x 3 = x.
Proof. intros H. rewrite land_3_mod. apply Z.mod_small. lia. Qed.
Lemma land_3_range x : 0 <= Z.land x 3 <= 3.
Proof. rewrite land_3_mod. pose proof (Z.mod_pos_bound x 4 ltac:(lia)). lia. Qed.

Definition kernel_comps : list component := imap (placed im) (Tool.comps im).
Definition scan_comps : list component := tabled (length kernel_comps) (tables_of f) kernel_comps.

Lemma scan_comps_slot ci c : at_slot (Tool.comps im) ci = Some c -> exists t k, scan_map f !! Tool.id c = Some (Z.shiftr t 4, Z.land t 15)
  /\ at_slot scan_comps ci = Some k /\ predictor k = 0 /\ dc_dest k = Z.land (Z.shiftr t 4) 3 /\ ac_dest k = Z.land (Z.land t 15) 3.
Proof.
  intros E. destruct (bo_tables f ok) as [LT _]. pose proof placed_ids as PI. fold kernel_comps in PI. assert (LK : length kernel_comps = length (parts_of f)) by (apply (f_equal length) in PI; by rewrite !length_fmap in PI).
  unfold at_slot in E. destruct (Z.ltb_spec ci 0) as [|Hi]; [done|]. assert (EK : kernel_comps !! Z.to_nat ci = Some (placed im (Z.to_nat ci) c)) by (unfold kernel_comps; by rewrite list_lookup_imap, E).
  destruct (tabled_slot (tables_of f) kernel_comps ci (placed im (Z.to_nat ci) c) ltac:(lia)) as (t & ET & ES); [unfold at_slot; by rewrite (proj2 (Z.ltb_ge ci 0))|].
  exists t, (set_tables (placed im (Z.to_nat ci) c) (Z.land (Z.shiftr t 4) 3) (Z.land (Z.land t 15) 3)). split; [|by split_and!]. apply kept_tables.
  - rewrite fst_zip by (rewrite length_fmap; lia). apply (bo_ids f ok).
  - apply (list_elem_of_lookup_2 _ (Z.to_nat ci)), lookup_zip_with_Some. exists (Tool.id c), t. split_and!; [done | | unfold at_slot in ET; by rewrite (proj2 (Z.ltb_ge ci 0)) in ET]. rewrite <- PI, list_lookup_fmap, EK. done.
Qed.

Lemma scan_comps_tables d ci k : length (dc_tables d) = 4%nat -> length (ac_tables d) = 4%nat -> at_slot scan_comps ci = Some k ->
  predictor k = 0 /\ index (dc_tables d) (dc_dest k) = Ok (table_for (dc_tables d) dc_dest scan_comps ci) /\ index (ac_tables d) (ac_dest k) = Ok (table_for (ac_tables d) ac_dest scan_comps ci).
Proof.
  intros LD LA E. assert (EC : exists c, at_slot (Tool.comps im) ci = Some c).
  { unfold at_slot in E |- *. destruct (ci <? 0); [done|]. apply lookup_lt_Some in E. unfold scan_comps, tabled, kernel_comps in E. rewrite !length_imap in E. by apply lookup_lt_is_Some_2. }
  destruct EC as (c & EC). destruct (scan_comps_slot ci c EC) as (t & k' & _ & EK & P & D1 & D2). rewrite E in EK. injection EK as <-. pose proof (land_3_range (Z.shiftr t 4)). pose proof (land_3_range (Z.land t 15)).
  split_and!; [done | apply table_for_index; (done || lia) | apply table_for_index; (done || lia)].
Qed.
Lemma scan_comps_codes d ci c dc_id ac_id : same_codes (Tool.huff (tables_read f)) (dc_tables d, ac_tables d) -> at_slot (Tool.comps im) ci = Some c -> scan_map f !! Tool.id c = Some (dc_id, ac_id) ->
  (forall t, (list_to_map decoders : gmap (Z * Z) (gmap (Z * Z) Z)) !! (0, dc_id) = Some t -> same_code t (table_for (dc_tables d) dc_dest scan_comps ci))
  /\ (forall t, (list_to_map decoders : gmap (Z * Z) (gmap (Z * Z) Z)) !! (1, ac_id) = Some t -> same_code t (table_for (ac_tables d) ac_dest scan_comps ci)).
Proof.
  intros SC EC EM. destruct (scan_comps_slot ci c EC) as (b & k & EB & EK & _ & D1 & D2). rewrite EM in EB. injection EB as -> ->. unfold table_for. rewrite EK, D1, D2.
  split; intros t ET; destruct (decoders_same _ _ _ SC built _ _ ET) as (HR & kt & EKT & S); cbn [fst snd Z.eqb] in *; rewrite land_3 by lia; unfold at_slot; rewrite (proj2 (Z.ltb_ge _ 0)), EKT by lia; done.
Qed.

Lemma kernel_scan d start : alike (tables_read f) d -> frame_of d = frame_seen -> here data start (stuffed (coded_bits f) ++ 255 :: 217 :: trailing f) ->
  exists cs' co, decode_scan data d (header_of f) start = Ok (start + zlen (stuffed (coded_bits f)), with_scan d cs' co)
    /\ framed im cs' /\ zlen co = 64 * total im /\ forall it, valid_item im it -> cell co (num im it) = block_at im it.
Proof.
  intros [AQ AC AR] FO H. pose proof (picture_drawable _ AC) as DR. destruct picture_skeleton as (SX & SY & SK). destruct (bo_tables f ok) as [LT BT]. pose proof count_range as CR. pose proof header_length as HL.
  destruct (frame_fields _ _ _ _ _ _ _ _ FO) as (F1 & F2 & F3 & F4 & F5 & F6 & F7). rewrite <- (skeleton_placed _ _ SK) in F4. fold kernel_comps in F4. rewrite <- (skeleton_total _ _ SK) in F7. rewrite <- SX in F5. rewrite <- SY in F6.
  pose proof placed_ids as PI. fold kernel_comps in PI. assert (LK : length kernel_comps = length (parts_of f)) by (apply (f_equal length) in PI; by rewrite !length_fmap in PI).
  set (l := zip (Tool.id <$> parts_of f) (tables_of f)). assert (LL : zlen l = zlen (parts_of f)) by (unfold l, zlen; rewrite length_zip_with, length_fmap, LT; lia). pose proof (sc_len _ _ AC) as [LD LA]. cbn [fst snd] in LD, LA.
  destruct (baseline_scan (bwidth f) (bheight f) im (coded_bits f) (list_to_map decoders) (scan_map f) DR ltac:(by rewrite start_of_picture) data start 217 (trailing f) d (Params 0 63 0 0) scan_comps
    (table_for (dc_tables d) dc_dest scan_comps) (table_for (ac_tables d) ac_dest scan_comps)) as (cs' & co & E & FR & LC & CC); try done.
  - destruct H as [H0 H]. split; [done | done | by split | apply (bo_bits f ok)].
  - unfold is_marker. lia.
  - intros ci c dc_id ac_id. by apply scan_comps_codes.
  - apply tabled_framed; [lia|]. apply placed_framed.
  - intros ci k. by apply scan_comps_tables.
  - exists cs', co. split; [|done]. unfold decode_scan, header_of. fold l. change (baseline_header l !! 0%nat) with (Some (zlen l)). cbn [ok_or]. rewrite ok_bind, F4.
    assert (ZK : zlen kernel_comps = zlen l) by (unfold zlen in *; lia). rewrite (proj2 (Z.eqb_neq (zlen l) 0)), (proj2 (Z.ltb_ge (zlen kernel_comps) (zlen l))) by lia. unfold header_of in HL. fold l in HL. rewrite (proj2 (Z.ltb_ge (zlen (baseline_header l)) _)) by lia. cbn [orb].
    rewrite (select_pairs kernel_comps l (tables_of f)), ok_bind by (rewrite ?PI; (done || lia || apply (bo_ids f ok))).
    assert (IX : forall j x, [0; 63; 0] !! j = Some x -> index (baseline_header l) (1 + Z.of_nat j + zlen l * 2) = Ok x).
    { intros j x EJ. apply index_slot. unfold at_slot. rewrite (proj2 (Z.ltb_ge _ 0)) by lia. rewrite <- (header_at_end l j x EJ). f_equal. lia. }
    rewrite (IX 0%nat 0 eq_refl : index _ (1 + _) = _), ok_bind, (IX 1%nat 63 eq_refl : index _ (2 + _) = _), ok_bind, (IX 2%nat 0 eq_refl : index _ (3 + _) = _), ok_bind. cbn [Z.ltb Z.compare orb].
    rewrite F7. cbn [ok_or]. rewrite ok_bind. assert (EZ : zlen kernel_comps = zlen (Tool.comps im)) by (unfold kernel_comps, zlen; by rewrite length_imap). rewrite EZ. fold scan_comps. change (Z.shiftr 0 4) with 0. change (Z.land 0 15) with 0. rewrite E. done.
Qed.

Lemma kernel_reads : exists d co, parse data = Ok d /\ progressive d = false /\ width d = bwidth f /\ height d = bheight f /\ same_quants (Tool.quant (tables_read f)) (quant d)
  /\ drawable (bwidth f) (bheight f) im /\ framed im (components d) /\ coefficients d = Some co /\ zlen co = 64 * total im /\ forall it, valid_item im it -> cell co (num im it) = block_at im it.
Proof.
  destruct scan_reached as (fuel & at_ & d & _ & EK & AL & FO & H & HF). pose proof count_range as CR. pose proof header_length as HL. destruct (frame_fields _ _ _ _ _ _ _ _ FO) as (F1 & F2 & F3 & _).
  unfold scan_part in H. destruct (tool_segment fuel data at_ 218 (header_of f) _ (tables_read f) H ltac:(lia) ltac:(done)) as [_ H2].
  destruct (kernel_scan d _ AL FO H2) as (cs' & co & ES & FR & LC & CC). exists (with_scan d cs' co), co. split; [|split_and!; try done; [apply (al_quants _ _ AL) | apply (picture_drawable _ (al_codes _ _ AL))]].
  unfold parse. rewrite EK, (kernel_segment fuel data at_ 218 (header_of f) _ true 0 d H ltac:(lia) eq_refl). unfold handle. cbn [Z.eqb Pos.eqb andb]. change (between 192 218 194) with false. cbn iota.
  change ((218 =? 195) || between 197 218 199 || between 201 218 203 || between 205 218 207) with false. cbn [negb]. rewrite ES, ok_bind. cbn beta iota. pose proof (zlen_nonneg (stuffed (coded_bits f))).
  apply here_app in H2. pose proof (here_lt _ _ _ _ H2) as LT%Z.ltb_lt. destruct fuel as [|fuel]; [lia|]. cbn [parse_loop]. rewrite (skip_none (fun b => negb (b =? 255)) data _ 255 _ H2), (skip_one (fun b => b =? 255) data _ 255 217 _ H2) by done.
  apply here_cons in H2 as [_ H2]. apply here_cons in H2 as [-> _]. done.
Qed.
End picture.
End file.

(** * The conversion *)

Lemma quant_table_unique prec bytes t t' : quant_table prec bytes t -> quant_table prec bytes t' -> t = t'.
Proof. intros [L Z] [L' Z']. apply zz_ext; [done..|]. intros k Hk. by rewrite Z, Z'. Qed.
Lemma quants_equal m q q' : same_quants m q -> tables_match (quant_items m) q' -> length q' = 4%nat -> (forall i, (i < 4)%nat -> m !! Z.of_nat i = None -> q' !! i = Some (replicate 64 1)) -> q = q'.
Proof.
  intros [L _ _ T] M L' U. apply list_eq. intros i. destruct (decide (i < 4)%nat) as [Hi|Hi]; [|rewrite !lookup_ge_None_2 by lia; done].
  destruct (lookup_lt_is_Some_2 q i ltac:(lia)) as (t & E). rewrite E. specialize (T i t E). destruct (m !! Z.of_nat i) as [[prec bytes]|] eqn:EM; [|by rewrite U, T].
  destruct (M (Z.of_nat i) prec bytes) as (t' & E' & QT); [by apply quant_items_elem|]. rewrite Nat2Z.id in E'. rewrite E'. f_equal. by eapply quant_table_unique.
Qed.

(** The components of a frame, without the tables of the last scan. *)
Definition frame_comps (cs : list component) : list component := (fun k => set_tables k 0 0) <$> cs.
Lemma framed_unique im cs cs' : framed im cs -> framed im cs' -> frame_comps cs = frame_comps cs'.
Proof.
  intros [L F] [L' F']. apply list_eq. intros i. unfold frame_comps. rewrite !list_lookup_fmap. destruct (Tool.comps im !! i) as [c|] eqn:E.
  - destruct (F (Z.of_nat i) c) as (k & EK & [? [? ?] ? [? ?] [? ?]] & O); [unfold at_slot; by rewrite (proj2 (Z.ltb_ge _ 0)), Nat2Z.id by lia|]. destruct (F' (Z.of_nat i) c) as (k' & EK' & [? [? ?] ? [? ?] [? ?]] & O'); [unfold at_slot; by rewrite (proj2 (Z.ltb_ge _ 0)), Nat2Z.id by lia|].
    unfold at_slot in EK, EK'. rewrite (proj2 (Z.ltb_ge _ 0)), Nat2Z.id in EK, EK' by lia. rewrite EK, EK'. cbn. unfold set_tables. congruence.
  - apply lookup_ge_None in E. rewrite !lookup_ge_None_2 by lia. done.
Qed.

(** C2: The tool turns a baseline file into a progressive one that the kernel
    decodes to the same picture.  The file is any well-formed sequence of
    segments without restart intervals ([baseline_ok]): three components, or one
    whose sampling factors are 1, in one interleaved scan.  It has fewer than
    9227464 coefficients, the tool reads it, and the DC values it reads fit the
    sixteen bits of the kernel's coefficients.  Then the kernel reads both files,
    with the same size, components and quantization tables.  The 64 coefficients
    of every block inside the picture are equal; of a block that only fills up
    the last units, which no pixel comes from, the DC coefficient is equal and
    the others are 0 in the progressive file. *)
Theorem conversion_same_picture f q w hh im : baseline_ok f -> 64 * total (start_image f) < 9227464 -> Tool.read_file (file_of f) = Ret (q, w, hh, im) ->
  Forall (fun c => Forall (fun b => in_i16 (zat b 0)) (Tool.blocks c)) (Tool.comps im) ->
  exists out d1 d2 co1 co2, Tool.convert (file_of f) = Ret out /\ parse (file_of f) = Ok d1 /\ parse out = Ok d2
    /\ progressive d1 = false /\ progressive d2 = true /\ width d1 = width d2 /\ height d1 = height d2
    /\ Kernel.quant d1 = Kernel.quant d2 /\ frame_comps (components d1) = frame_comps (components d2)
    /\ coefficients d1 = Some co1 /\ coefficients d2 = Some co2 /\ zlen co1 = zlen co2
    /\ forall it, valid_item im it -> cell co1 (num im it) = block_at im it
         /\ cell co2 (num im it) = if real im it then cell co1 (num im it) else zset (zeros 64) 0 (zat (cell co1 (num im it)) 0).
Proof.
  intros OK FW RF DC. destruct (tool_reads f OK FW q w hh im RF) as (-> & -> & -> & decoders & BD & DI).
  destruct (kernel_reads f OK FW im decoders BD DI DC) as (d1 & co1 & E1 & P1 & W1 & H1 & SQ & DR & FR1 & EC1 & L1 & C1).
  destruct (file_written _ _ _ _ DR (sq_ok _ _ SQ)) as (segs & WS & EW). destruct (file_parsed _ _ _ _ DR (sq_ok _ _ SQ) segs WS) as (d2 & q & E2 & [[S1 S2] S3 S4 S5 S6 S7 S8 S9 (co2 & EC2 & PG)] & TM & LQ & UQ).
  eexists _, d1, d2, co1, co2. unfold Tool.convert. rewrite RF, py_ret_bind. split_and!; [exact EW | exact E1 | exact E2 | done | done | congruence | congruence | | | done | done | |].
  - rewrite S3. by apply (quants_equal (Tool.quant (tables_read f))).
  - by apply (framed_unique im).
  - destruct PG. lia.
  - intros it V. rewrite (C1 it V). split; [done|]. by apply (final_cell _ _ _ DR).
Qed.

(** A gray block with one DC coefficient, 5, in a file with a comment. *)
Definition small_code (cls symbol : Z) : code_table_ := ((cls, 0), (1 :: replicate 15 0, [symbol])).
Definition small_file : baseline :=
  Baseline [Other 254 (lit "dot"); Quantization [(0, (0, replicate 64 16))]] 8 8 [Tool.Comp 1 1 1 0 0 0 0 0 []] [NoRestart; Codes [small_code 0 3; small_code 1 0]] [0] [87] [].
Definition small_image : Tool.image := Tool.Image 1 1 [Tool.Comp 1 1 1 0 1 1 1 1 [5 :: replicate 63 0]].

Lemma small_code_ok cls symbol : 0 <= cls <= 1 -> is_byte symbol -> code_ok (small_code cls symbol).
Proof.
  intros HC HS. split; cbn [small_code fst snd]; try done; [| by apply Forall_singleton|]; try (vm_compute; intuition discriminate).
  - apply Forall_cons; split; [done | by apply Forall_replicate].
  - apply (complete_fits _ []); [done | | vm_compute; intuition discriminate]. apply Forall_cons; split; [lia | by apply Forall_replicate].
Qed.

Lemma small_file_ok : baseline_ok small_file.
Proof.
  split; cbn [small_file before after bwidth bheight parts_of tables_of coded_bits].
  - apply Forall_cons; split; [by split|]. apply Forall_singleton. split; [done|]. apply Forall_singleton. split; [cbn; lia | by left | by apply Forall_replicate].
  - apply Forall_cons; split; [by split|]. apply Forall_singleton. split; [done|]. repeat (apply Forall_cons; split); [by apply small_code_ok | by apply small_code_ok | constructor].
  - vm_compute. intuition discriminate.
  - right. split; [done | by apply Forall_singleton].
  - apply Forall_singleton. vm_compute. intuition discriminate.
  - apply NoDup_singleton.
  - split; [done | by apply Forall_singleton].
  - by apply Forall_singleton.
Qed.

Lemma conversion_same_picture_witness : exists out d1 d2, Tool.convert (file_of small_file) = Ret out /\ parse (file_of small_file) = Ok d1 /\ parse out = Ok d2 /\ width d1 = width d2.
Proof.
  destruct (conversion_same_picture small_file {[0 := (0, replicate 64 16)]} 8 8 small_image small_file_ok ltac:(reflexivity) ltac:(vm_compute; reflexivity)
    ltac:(apply Forall_singleton, Forall_singleton; vm_compute; intuition discriminate)) as (out & d1 & d2 & co1 & co2 & E1 & E2 & E3 & _ & _ & E4 & _).
  exists out, d1, d2. split; [exact E1 | split; [exact E2 | split; [exact E3 | exact E4]]].
Defined.
