(* ===== verification/JpegCases.v ===== *)
(** JpegCases: symbols and coefficients of a scan on which the kernel panics, and
    files that have them. *)
From Stdlib Require Import ZArith Lia List.
From stdpp Require Import base list gmap strings.
From S2P Require Import Prelude Text Arrays Machine Huff Png Jpeg JpegFirst JpegWrite.
Open Scope Z_scope.
Import Jpeg.Kernel.

(** A table with one code, of one bit. *)
Definition one_code (class symbol : Z) : list Z := segment 196 ([Z.shiftl class 4; 1] ++ replicate 15 0 ++ [symbol]).
(** A gray frame; [hv] are its sampling factors. *)
Definition gray_frame (marker w hh hv : Z) : list Z := segment marker ([8] ++ be_bytes 2 hh ++ be_bytes 2 w ++ [1; 1; hv; 0]).
Definition gray_scan (ss se a : Z) (bytes : list Z) : list Z := segment 218 [1; 1; 0; ss; se; a] ++ bytes.

(** One block, its DC symbol [s], in a progressive and in a baseline file. *)
Definition progressive_dc (s : Z) : list Z :=
  [255; 216] ++ gray_frame 194 8 8 17 ++ one_code 0 s ++ gray_scan 0 0 0 [0; 0; 0; 0; 0; 0] ++ [255; 217].
Definition baseline_dc (s : Z) : list Z :=
  [255; 216] ++ gray_frame 192 8 8 17 ++ one_code 0 s ++ one_code 1 0 ++ gray_scan 0 63 0 [0; 0; 0; 0; 0; 0] ++ [255; 217].

(** A coefficient of -32768 and then a refinement of it. *)
Definition refine_lowest : list Z :=
  [255; 216] ++ gray_frame 194 8 8 17 ++ one_code 1 1 ++ gray_scan 1 1 15 [0] ++ gray_scan 1 1 16 [127] ++ [255; 217].

Definition panics {A} (o : outcome A) : bool := match o with Panic => true | _ => false end.
Definition corrupt {A} (o : outcome A) : bool := match o with Err Png.Kernel.Corrupt => true | _ => false end.

Lemma panics_spec {A} (o : outcome A) : panics o = true -> o = Panic.
Proof. by destruct o. Qed.
Lemma corrupt_spec {A} (o : outcome A) : corrupt o = true -> o = Err Png.Kernel.Corrupt.
Proof. by destruct o as [| [] | |]. Qed.






(** Whole files that do so. *)
Example crafted_files : parse (progressive_dc 200) = Panic /\ parse (baseline_dc 200) = Err Png.Kernel.Corrupt /\ parse refine_lowest = Panic.
Proof. split; [|split]; [apply panics_spec | apply corrupt_spec | apply panics_spec]; vm_compute; reflexivity. Qed.
