(* ===== verification/Graph.v ===== *)
(** Graph: graphlib.py of the shipped Python, the topological sorter.

    [Graphlib] is the module: the class with its fields as a record, each method
    as a function from the object to what it returns or raises and the object
    afterwards (a method that raises has changed the object up to there). Nodes
    are of any type that can be a key. *)
From Stdlib Require Import ZArith Lia List.
From stdpp Require Import base list gmap strings.
From S2P Require Import Prelude.
Open Scope Z_scope.

Module Graphlib.

(** ** Dictionaries in the order of insertion *)

Section dict.
Context {K V : Type} `{EqDecision K}.
Fixpoint get (k : K) (d : list (K * V)) : option V :=
  match d with
  | [] => None
  | (k', v) :: d => if decide (k = k') then Some v else get k d
  end.
Fixpoint put (k : K) (v : V) (d : list (K * V)) : list (K * V) :=
  match d with
  | [] => [(k, v)]
  | (k', v') :: d => if decide (k = k') then (k', v) :: d else (k', v') :: put k v d
  end.
End dict.

Inductive error (A : Type) : Type :=
| Exn (e : exn)
| CycleError (cycle : list A).
Arguments Exn {A} e.
Arguments CycleError {A} cycle.

Inductive res (A X : Type) : Type :=
| Val (x : X)
| Raised (e : error A)
| Unfinished.
Arguments Val {A X} x.
Arguments Raised {A X} e.
Arguments Unfinished {A X}.

Record node_info (A : Type) : Type := NodeInfo {
  npredecessors : Z;
  successors : list A
}.
Arguments NodeInfo {A} _ _.
Arguments npredecessors {A} _.
Arguments successors {A} _.

Record sorter (A : Type) : Type := Sorter {
  node2info : list (A * node_info A);
  ready_nodes : option (list A);
  npassedout : Z;
  nfinished : Z
}.
Arguments Sorter {A} _ _ _ _.
Arguments node2info {A} _.
Arguments ready_nodes {A} _.
Arguments npassedout {A} _.
Arguments nfinished {A} _.

Definition NODE_OUT : Z := -1.
Definition NODE_DONE : Z := -2.

Section methods.
Context {A : Type} `{Countable A}.

(** What a method does to the object it is called on. *)
Definition method (X : Type) : Type := sorter A -> res A X * sorter A.
#[export] Instance method_ret : MRet method := fun X x s => (Val x, s).
#[export] Instance method_bind : MBind method := fun X Y f m s =>
  match m s with
  | (Val x, s) => f x s
  | (Raised e, s) => (Raised e, s)
  | (Unfinished, s) => (Unfinished, s)
  end.
Definition raise {X} (e : error A) : method X := fun s => (Raised e, s).

Definition gets {X} (f : sorter A -> X) : method X := fun s => (Val (f s), s).
Definition modify (f : sorter A -> sorter A) : method unit := fun s => (Val tt, f s).

Definition with_info (d : list (A * node_info A)) (s : sorter A) : sorter A := Sorter d (ready_nodes s) (npassedout s) (nfinished s).
Definition with_ready (l : list A) (s : sorter A) : sorter A := Sorter (node2info s) (Some l) (npassedout s) (nfinished s).

(** [self._ready_nodes], which must not be [None]. *)
Definition prepared : method (list A) := fun s =>
  match ready_nodes s with Some l => (Val l, s) | None => (Raised (Exn ValueError), s) end.
(** [n2i[node]], and writing one of its fields. *)
Definition info (node : A) : method (node_info A) := fun s =>
  match get node (node2info s) with Some i => (Val i, s) | None => (Raised (Exn KeyError), s) end.
Definition set_info (node : A) (i : node_info A) : method unit := modify (fun s => with_info (put node i (node2info s)) s).

(** ** The graph *)

Definition new : sorter A := Sorter [] None 0 0.

Definition get_nodeinfo (node : A) : method (node_info A) := fun s =>
  match get node (node2info s) with
  | Some i => (Val i, s)
  | None => (Val (NodeInfo 0 []), with_info (put node (NodeInfo 0 []) (node2info s)) s)
  end.

Fixpoint add_edges (node : A) (predecessors : list A) : method unit :=
  match predecessors with
  | [] => mret tt
  | pred :: predecessors =>
      pred_info ← get_nodeinfo pred;
      _ ← set_info pred (NodeInfo (npredecessors pred_info) (successors pred_info ++ [node]));
      add_edges node predecessors
  end.

Definition add (node : A) (predecessors : list A) : method unit := fun s =>
  match ready_nodes s with
  | Some _ => (Raised (Exn ValueError), s)
  | None =>
      (nodeinfo ← get_nodeinfo node;
       _ ← set_info node (NodeInfo (npredecessors nodeinfo + zlen predecessors) (successors nodeinfo));
       add_edges node predecessors) s
  end.

(** [__init__] with the items of a dictionary. *)
Fixpoint add_all (graph : list (A * list A)) : method unit :=
  match graph with
  | [] => mret tt
  | (node, predecessors) :: graph => _ ← add node predecessors; add_all graph
  end.

(** ** Looking for a cycle *)

Record search : Type := Search {
  stack : list A;
  itstack : list (list A);
  seen : gset A;
  node2stacki : gmap A nat
}.

(** The loop [while stack]: the next successor of the topmost node that has
    one, or none at all. An iterator is what it has yet to give. *)
Fixpoint backtrack (fuel : nat) (st : search) : res A (option A * search) :=
  match fuel with
  | O => Unfinished
  | S fuel =>
      match last (stack st) with
      | None => Val (None, st)
      | Some top =>
          match last (itstack st) with
          | None => Raised (Exn IndexError)
          | Some (node :: rest) => Val (Some node, Search (stack st) (removelast (itstack st) ++ [rest]) (seen st) (node2stacki st))
          | Some [] => backtrack fuel (Search (removelast (stack st)) (removelast (itstack st)) (seen st) (delete top (node2stacki st)))
          end
      end
  end.

(** The loop [while True], from [node]: a cycle, or what was seen. *)
Fixpoint explore (fuel : nat) (n2i : list (A * node_info A)) (node : A) (st : search) : res A (list A + search) :=
  match fuel with
  | O => Unfinished
  | S fuel =>
      let continue st :=
        match backtrack (S (length (stack st))) st with
        | Val (Some node, st) => explore fuel n2i node st
        | Val (None, st) => Val (inr st)
        | Raised e => Raised e
        | Unfinished => Unfinished
        end in
      if decide (node ∈ seen st) then
        match node2stacki st !! node with
        | Some i => Val (inl (drop i (stack st) ++ [node]))
        | None => continue st
        end
      else
        match get node n2i with
        | None => Raised (Exn KeyError)
        | Some i =>
            continue (Search (stack st ++ [node]) (itstack st ++ [successors i]) ({[node]} ∪ seen st) (<[node := length (stack st)]> (node2stacki st)))
        end
  end.

(** Nodes and edges, and one round more. *)
Definition explore_fuel (n2i : list (A * node_info A)) : nat := S (foldr (fun ni n => S (length (successors ni.2)) + n)%nat 0%nat n2i).

Fixpoint find_cycle_from (n2i : list (A * node_info A)) (nodes : list A) (st : search) : res A (option (list A)) :=
  match nodes with
  | [] => Val None
  | node :: nodes =>
      if decide (node ∈ seen st) then find_cycle_from n2i nodes st
      else
        match explore (explore_fuel n2i) n2i node st with
        | Val (inl cycle) => Val (Some cycle)
        | Val (inr st) => find_cycle_from n2i nodes st
        | Raised e => Raised e
        | Unfinished => Unfinished
        end
  end.

Definition find_cycle (s : sorter A) : res A (option (list A)) :=
  find_cycle_from (node2info s) (node2info s).*1 (Search [] [] ∅ ∅).

(** ** Sorting *)

Definition prepare : method unit := fun s =>
  match ready_nodes s with
  | Some _ => (Raised (Exn ValueError), s)
  | None =>
      let s := with_ready (filter (fun ni => npredecessors ni.2 = 0) (node2info s)).*1 s in
      match find_cycle s with
      | Val (Some ((_ :: _) as cycle)) => (Raised (CycleError cycle), s)
      | Val _ => (Val tt, s)
      | Raised e => (Raised e, s)
      | Unfinished => (Unfinished, s)
      end
  end.

(** Marks nodes as handed out. *)
Fixpoint pass_out (nodes : list A) : method unit :=
  match nodes with
  | [] => mret tt
  | node :: nodes =>
      i ← info node;
      _ ← set_info node (NodeInfo NODE_OUT (successors i));
      pass_out nodes
  end.

Definition get_ready : method (list A) :=
  result ← prepared;
  _ ← pass_out result;
  _ ← modify (fun s => Sorter (node2info s) (Some []) (npassedout s + zlen result) (nfinished s));
  mret result.

Definition is_active : method bool :=
  ready ← prepared;
  gets (fun s => (nfinished s <? npassedout s) || match ready with [] => false | _ => true end).

(** One predecessor less for each of the successors of a node that is done. *)
Fixpoint release (nodes : list A) : method unit :=
  match nodes with
  | [] => mret tt
  | successor :: nodes =>
      i ← info successor;
      _ ← set_info successor (NodeInfo (npredecessors i - 1) (successors i));
      _ ← (if npredecessors i - 1 =? 0
           then ready ← prepared; modify (with_ready (ready ++ [successor]))
           else mret tt);
      release nodes
  end.

Definition done_one (node : A) : method unit := fun s =>
  match get node (node2info s) with
  | None => (Raised (Exn ValueError), s)
  | Some nodeinfo =>
      let stat := npredecessors nodeinfo in
      if negb (stat =? NODE_OUT) then
        if 0 <=? stat then (Raised (Exn ValueError), s)
        else if stat =? NODE_DONE then (Raised (Exn ValueError), s)
        else (Raised (Exn AssertionError), s)
      else
        (_ ← set_info node (NodeInfo NODE_DONE (successors nodeinfo));
         _ ← release (successors nodeinfo);
         modify (fun s => Sorter (node2info s) (ready_nodes s) (npassedout s) (nfinished s + 1))) s
  end.
Fixpoint done_all (nodes : list A) : method unit :=
  match nodes with
  | [] => mret tt
  | node :: nodes => _ ← done_one node; done_all nodes
  end.
Definition done (nodes : list A) : method unit :=
  _ ← prepared;
  done_all nodes.

(** What the generator yields when it is run to its end. *)
Fixpoint order_loop (fuel : nat) : method (list A) :=
  match fuel with
  | O => fun s => (Unfinished, s)
  | S fuel =>
      active ← is_active;
      if (active : bool) then
        node_group ← get_ready;
        _ ← done node_group;
        rest ← order_loop fuel;
        mret (node_group ++ rest)
      else mret []
  end.
Definition static_order : method (list A) := fun s => (_ ← prepare; order_loop (S (length (node2info s)))) s.

End methods.
End Graphlib.
