(* ===== verification/GraphCycle.v ===== *)
(** GraphCycle: the search of graphlib.py finds a cycle exactly when the graph
    has one.

    [visiting] is the invariant of the depth-first search: the nodes on the
    stack are a path, each with the successors that are left, and the nodes
    that are finished stand in an order in which every successor comes first. *)
From Stdlib Require Import ZArith Lia List.
From stdpp Require Import base list gmap strings.
From S2P Require Import Prelude Graph.
Import Graphlib.
Open Scope nat_scope.

(** * Dictionaries *)

Section dict.
Context {K V : Type} `{EqDecision K}.
Implicit Types d : list (K * V).

Lemma get_elem k v d : get k d = Some v -> (k, v) ∈ d.
Proof. induction d as [|[k' v'] d IH]; cbn [get]; [done|]. destruct (decide (k = k')) as [->|]; [intros [= ->]; left | intros E; right; auto]. Qed.
Lemma get_none k d : get k d = None <-> k ∉ d.*1.
Proof.
  induction d as [|[k' v'] d IH]; cbn [get fmap list_fmap fst]; [split; [intros _; apply not_elem_of_nil | done]|]. rewrite not_elem_of_cons. destruct (decide (k = k')); [split; [done | by intros []]|]. rewrite IH. tauto.
Qed.
Lemma elem_key k v d : (k, v) ∈ d -> k ∈ d.*1.
Proof. intros E. apply list_elem_of_fmap. by exists (k, v). Qed.
Lemma get_some k d : is_Some (get k d) <-> k ∈ d.*1.
Proof. destruct (get k d) as [v|] eqn:E; [split; [intros _; by eapply elem_key, get_elem | by eexists] | split; [by intros [] | by intros Hk; apply get_none in E]]. Qed.
Lemma get_nodup k v d : NoDup d.*1 -> (k, v) ∈ d -> get k d = Some v.
Proof.
  induction d as [|[k' v'] d IH]; cbn [get fmap list_fmap fst]; [intros _ E; by apply not_elem_of_nil in E|]. rewrite NoDup_cons. intros [N ND] [[= -> ->]|E]%elem_of_cons; [by rewrite decide_True|].
  destruct (decide (k = k')) as [->|]; [destruct N; by eapply elem_key | by apply IH].
Qed.
Lemma put_get k v d k' : get k' (put k v d) = if decide (k' = k) then Some v else get k' d.
Proof.
  induction d as [|[k0 v0] d IH]; cbn [put get]; [done|]. destruct (decide (k = k0)) as [->|]; cbn [get].
  - destruct (decide (k' = k0)); done.
  - rewrite IH. destruct (decide (k' = k0)) as [->|]; [|done]. by rewrite (decide_False (P := k0 = k)) by congruence.
Qed.
Lemma put_keys k v d : (put k v d).*1 = d.*1 ++ (if decide (k ∈ d.*1) then [] else [k]).
Proof.
  induction d as [|[k0 v0] d IH]; cbn [put fmap list_fmap fst app]; [by rewrite decide_False by apply not_elem_of_nil|]. destruct (decide (k = k0)) as [->|N]; cbn [fmap list_fmap fst].
  - by rewrite decide_True, app_nil_r by left.
  - rewrite IH. f_equal. destruct (decide (k ∈ d.*1)) as [E|E]; [by rewrite decide_True by (by right) | by rewrite decide_False by (by intros [->|]%elem_of_cons)].
Qed.
End dict.

(** * Walks and cycles *)

Section graph.
Context {A : Type} `{Countable A}.
Context (n2i : list (A * node_info A)).

Definition edge (a b : A) : Prop := exists i, get a n2i = Some i /\ b ∈ successors i.
Definition walk (l : list A) : Prop := forall i a b, l !! i = Some a -> l !! S i = Some b -> edge a b.
(** As the exception documents it: the first and the last are the same. *)
Definition cycle (l : list A) : Prop := walk l /\ 2 <= length l /\ head l = last l.

(** Every successor of a node comes before it. *)
Definition backwards (fin : list A) : Prop := forall i a b, fin !! i = Some a -> edge a b -> exists j, j < i /\ fin !! j = Some b.

Lemma backwards_snoc fin a : backwards fin -> (forall b, edge a b -> b ∈ fin) -> backwards (fin ++ [a]).
Proof.
  intros B Ha i x b Hi E. apply lookup_app_Some in Hi as [Hi|[L Hi]].
  - destruct (B i x b Hi E) as (j & Hj & Ej). exists j. split; [done|]. by apply lookup_app_l_Some.
  - destruct (i - length fin) as [|k] eqn:Ek; [|done]. cbn in Hi. injection Hi as ->. destruct (list_elem_of_lookup_1 _ _ (Ha b E)) as [j Hj]. exists j. pose proof (lookup_lt_Some _ _ _ Hj). split; [lia|]. by apply lookup_app_l_Some.
Qed.
Lemma walk_positions fin l : backwards fin -> walk l -> forall k a n, l !! k = Some a -> fin !! n = Some a -> forall i x, k + i < length l -> l !! (k + i) = Some x -> exists m, fin !! m = Some x /\ m + i <= n.
Proof.
  intros B W k a n Hk Hn i. induction i as [|i IH]; intros x Hi Hx; [rewrite Nat.add_0_r in Hx; exists n; split; [congruence | lia]|].
  destruct (lookup_lt_is_Some_2 l (k + i)) as [y Hy]; [lia|]. destruct (IH y ltac:(lia) Hy) as (m & Hm & Lm). destruct (B m y x Hm) as (j & Hj & Ej); [apply (W (k + i)); [done | by rewrite <- Hx; f_equal; lia]|]. exists j. split; [done | lia].
Qed.
Lemma backwards_acyclic fin l : backwards fin -> NoDup fin -> (forall a b, edge a b -> a ∈ fin) -> ~ cycle l.
Proof.
  intros B ND All (W & L & HL). destruct l as [|a [|b l]]; [cbn in L; lia | cbn in L; lia|]. assert (E : edge a b) by (by apply (W 0)). destruct (list_elem_of_lookup_1 _ _ (All a b E)) as [n Hn].
  assert (HA : (a :: b :: l) !! (0 + S (length l)) = Some a) by (rewrite last_lookup in HL; cbn [head length pred] in HL; by rewrite HL).
  destruct (walk_positions fin _ B W 0 a n eq_refl Hn (S (length l)) a ltac:(cbn; lia) HA) as (m & Hm & Lm). assert (m = n) by (by apply (NoDup_lookup fin _ _ a)). lia.
Qed.

(** * The search *)

(** Nodes on the stack with the successors that are left; [next] is the
    successor of the topmost that is being looked at. *)
Record visiting (fin : list A) (fs : list (A * list A)) (next : list A) (st : search (A := A)) : Prop := Visiting {
  vi_stack : stack st = fs.*1;
  vi_itstack : itstack st = fs.*2;
  vi_seen : forall x, x ∈ seen st <-> x ∈ fin \/ x ∈ fs.*1;
  vi_index : forall x i, node2stacki st !! x = Some i <-> fs.*1 !! i = Some x;
  vi_once : NoDup (fin ++ fs.*1);
  vi_fin : backwards fin;
  vi_walk : walk (fs.*1 ++ next);
  vi_frames : forall i a rest, fs !! i = Some (a, rest) -> exists n before, get a n2i = Some n /\ successors n = before ++ rest /\ forall b, b ∈ before -> b ∈ fin \/ (fs.*1 ++ next) !! S i = Some b
}.

Definition left_over (fs : list (A * list A)) : nat := foldr (fun f n => length f.2 + n) 0 fs.
Definition unseen (s : gset A) (d : list (A * node_info A)) : nat := foldr (fun ni n => (if decide (ni.1 ∈ s) then 0 else S (length (successors ni.2))) + n) 0 d.

Lemma unseen_add s node i : forall d, NoDup d.*1 -> get node d = Some i -> node ∉ s -> unseen s d = S (length (successors i)) + unseen ({[node]} ∪ s) d.
Proof.
  assert (R : forall d : list (A * node_info A), node ∉ d.*1 -> unseen ({[node]} ∪ s) d = unseen s d).
  { induction d as [|[k v] d IH]; intros N; [done|]. cbn [fmap list_fmap fst] in N. apply not_elem_of_cons in N as [N1 N2]. unfold unseen in *. cbn [foldr fst snd]. rewrite IH by done. f_equal. apply decide_ext. rewrite elem_of_union, elem_of_singleton. split; [intros [->|]; done | by right]. }
  induction d as [|[k v] d IH]; intros ND G N; [done|]. cbn [fmap list_fmap fst] in ND. apply NoDup_cons in ND as [N1 ND]. cbn [get] in G. unfold unseen in *. cbn [foldr fst snd]. destruct (decide (node = k)) as [->|NE].
  - injection G as ->. rewrite (decide_False (P := k ∈ s)), (decide_True (P := k ∈ {[k]} ∪ s)) by (done || (apply elem_of_union_l; by apply elem_of_singleton)). rewrite R by done. lia.
  - rewrite (IH ND G N). rewrite (decide_ext (k ∈ s) (k ∈ {[node]} ∪ s)) by (rewrite elem_of_union, elem_of_singleton; split; [by right | intros [->|]; done]). lia.
Qed.
Lemma left_over_snoc fs a rest : left_over (fs ++ [(a, rest)]) = left_over fs + length rest.
Proof. induction fs as [|f fs IH]; [cbn; lia|]. unfold left_over in *. cbn [foldr app fst snd] in *. lia. Qed.

(** Going back: to the next successor there is, or to the end. *)
Lemma backtrack_visiting fuel : forall fin fs st, visiting fin fs [] st -> length fs < fuel ->
  exists fin' fs' st', (forall x, x ∈ fin \/ x ∈ fs.*1 -> x ∈ fin' \/ x ∈ fs'.*1) /\ seen st' = seen st /\
    (backtrack fuel st = Val (None, st') /\ fs' = [] /\ visiting fin' fs' [] st'
     \/ exists b, backtrack fuel st = Val (Some b, st') /\ visiting fin' fs' [b] st' /\ left_over fs = S (left_over fs') /\ exists a, edge a b).
Proof.
  induction fuel as [|fuel IH]; intros fin fs st V HF; [lia|]. cbn [backtrack]. rewrite (vi_stack _ _ _ _ V), (vi_itstack _ _ _ _ V).
  destruct fs as [|[top rest] fs _] using rev_ind; [exists fin, [], st; split; [done|]; split; [done|]; left; done|]. rewrite !fmap_app. cbn [fmap list_fmap fst snd]. rewrite !last_snoc, removelast_last.
  destruct (vi_frames _ _ _ _ V (length fs) top rest) as (n & before & G & ES & HB); [by apply list_lookup_middle|].
  assert (LO : (fs ++ [(top, rest)]).*1 = fs.*1 ++ [top]) by (by rewrite fmap_app). destruct rest as [|b rest].
  - rewrite removelast_last. assert (HB' : forall b, b ∈ before -> b ∈ fin).
    { intros b [|E]%HB; [done|]. rewrite LO, app_nil_r in E. apply lookup_lt_Some in E. rewrite length_app, length_fmap in E. cbn in E. lia. }
    pose proof (vi_once _ _ _ _ V) as ON. rewrite LO, app_assoc in ON. destruct (IH (fin ++ [top]) fs (Search fs.*1 fs.*2 (seen st) (delete top (node2stacki st)))) as (fin' & fs' & st' & HI & HS & HR); [|rewrite length_app in HF; cbn in HF; lia|].
    + split; cbn [stack itstack seen node2stacki]; try done.
      * intros x. rewrite (vi_seen _ _ _ _ V), LO, !elem_of_app, !list_elem_of_singleton. tauto.
      * intros x i. rewrite lookup_delete_Some, (vi_index _ _ _ _ V), LO. apply NoDup_app in ON as (ON & _ & _). split.
        -- intros [NE E]. apply lookup_app_Some in E as [E|[_ E]]; [done|]. apply list_lookup_singleton_Some in E as [_ ->]. done.
        -- intros E. split; [|by apply lookup_app_l_Some]. intros <-. pose proof (vi_once _ _ _ _ V) as O2. rewrite LO in O2. apply NoDup_app in O2 as (_ & _ & O2). apply NoDup_app in O2 as (_ & O2 & _). apply (O2 top); [by apply list_elem_of_lookup_2 in E | by left].
      * rewrite <- app_assoc. rewrite <- app_assoc in ON. apply NoDup_app in ON as (N1 & N2 & N3). apply NoDup_app. split; [done|]. split; [intros x Hx; specialize (N2 x Hx); rewrite elem_of_app in *; tauto|]. rewrite Permutation_app_comm. done.
      * apply backwards_snoc; [apply V|]. intros b (n' & G' & Hb). rewrite G in G'. injection G' as <-. rewrite ES, app_nil_r in Hb. by apply HB'.
      * pose proof (vi_walk _ _ _ _ V) as W. rewrite LO, app_nil_r in W. rewrite app_nil_r. intros i a b E1 E2. apply (W i); by apply lookup_app_l_Some.
      * intros i a rest E. destruct (vi_frames _ _ _ _ V i a rest) as (n' & bef & G' & ES' & HB2); [by apply lookup_app_l_Some|]. exists n', bef. split; [done|]. split; [done|]. intros b Hb. destruct (HB2 b Hb) as [F|F]; [left; apply elem_of_app; by left|].
        rewrite LO, app_nil_r in F. rewrite app_nil_r. apply lookup_app_Some in F as [F|[_ F]]; [by right|]. apply list_lookup_singleton_Some in F as [_ ->]. left. apply elem_of_app. right. by left.
    + exists fin', fs', st'. split; [intros x Hx; apply HI; rewrite elem_of_app in Hx; rewrite elem_of_app; tauto|]. split; [done|]. rewrite left_over_snoc. cbn [length]. rewrite Nat.add_0_r. done.
  - exists fin, (fs ++ [(top, rest)]), (Search (fs.*1 ++ [top]) (fs.*2 ++ [rest]) (seen st) (node2stacki st)). assert (EF : (fs ++ [(top, rest)]).*1 = fs.*1 ++ [top]) by (by rewrite fmap_app). rewrite EF. split; [done|]. split; [done|].
    right. exists b. split; [by rewrite removelast_last|]. split; [|split; [rewrite !left_over_snoc; cbn [length]; lia | exists top, n; split; [done|]; rewrite ES; apply elem_of_app; right; by left]]. split; cbn [stack itstack seen node2stacki]; rewrite ?EF; try reflexivity; try (by rewrite fmap_app); try apply V.
    + intros x. rewrite (vi_seen _ _ _ _ V). by rewrite LO.
    + intros x i. rewrite (vi_index _ _ _ _ V). by rewrite LO.
    + pose proof (vi_once _ _ _ _ V) as O. by rewrite LO in O.
    + pose proof (vi_walk _ _ _ _ V) as W. rewrite LO, app_nil_r in W. intros i x y E1 E2. apply lookup_app_Some in E2 as [E2|[L2 E2]].
      * apply (W i); [|done]. rewrite lookup_app_l in E1; [done|]. pose proof (lookup_lt_Some _ _ _ E2). lia.
      * apply list_lookup_singleton_Some in E2 as [L3 <-]. rewrite length_app, length_fmap in *. cbn in *. assert (i = length fs.*1) as -> by (rewrite length_fmap; lia). rewrite <- app_assoc in E1. cbn [app] in E1. rewrite list_lookup_middle in E1 by done. injection E1 as <-. exists n. split; [done|]. rewrite ES. apply elem_of_app. right. by left.
    + intros i a r E. apply lookup_app_Some in E as [E|[L E]].
      * destruct (vi_frames _ _ _ _ V i a r) as (n' & bef & G' & ES' & HB2); [by apply lookup_app_l_Some|]. exists n', bef. split; [done|]. split; [done|]. intros b' Hb. destruct (HB2 b' Hb) as [F|F]; [by left|]. right. rewrite LO, app_nil_r in F. by apply lookup_app_l_Some.
      * apply list_lookup_singleton_Some in E as [L2 [= <- <-]]. exists n, (before ++ [b]). split; [done|]. split; [by rewrite <- app_assoc|]. assert (i = length fs) as -> by lia. intros b' [Hb|Hb]%elem_of_app.
        -- destruct (HB b' Hb) as [F|F]; [by left|]. rewrite LO, app_nil_r in F. apply lookup_lt_Some in F. rewrite length_app, length_fmap in F. cbn in F. lia.
        -- apply list_elem_of_singleton in Hb as ->. right. apply list_lookup_middle. rewrite length_app, length_fmap. cbn. lia.
Qed.

Hypothesis keys_once : NoDup n2i.*1.
Hypothesis closed : forall a b, edge a b -> b ∈ n2i.*1.

(** A node on the stack is met again. *)
Lemma cycle_found fin fs node st i : visiting fin fs [node] st -> node2stacki st !! node = Some i -> cycle (drop i (stack st) ++ [node]).
Proof.
  intros V E. apply (vi_index _ _ _ _ V) in E. rewrite (vi_stack _ _ _ _ V). pose proof (lookup_lt_Some _ _ _ E) as L. pose proof (vi_walk _ _ _ _ V) as W.
  assert (ED : drop i fs.*1 ++ [node] = drop i (fs.*1 ++ [node])) by (by rewrite drop_app_le by lia). split; [|split].
  - rewrite ED. intros k a b E1 E2. rewrite lookup_drop in E1, E2. apply (W (i + k)); [done | by rewrite <- E2; f_equal; lia].
  - rewrite length_app, length_drop. cbn. lia.
  - rewrite last_snoc, (drop_S _ _ _ E). done.
Qed.

(** A node that was finished before. *)
Lemma visiting_seen fin fs node st : visiting fin fs [node] st -> node ∈ fin -> visiting fin fs [] st.
Proof.
  intros [V1 V2 V3 V4 V5 V6 V7 V8] HN. split; try done.
  - rewrite app_nil_r. intros k a b E1 E2. apply (V7 k); by apply lookup_app_l_Some.
  - intros k a rest E. destruct (V8 k a rest E) as (n & before & G & ES & HB). exists n, before. split; [done|]. split; [done|]. intros b [F|F]%HB; [by left|]. rewrite app_nil_r. apply lookup_app_Some in F as [F|[_ F]]; [by right|]. apply list_lookup_singleton_Some in F as [_ <-]. by left.
Qed.

(** A new node. *)
Lemma visiting_push fin fs node st n : visiting fin fs [node] st -> node ∉ seen st -> get node n2i = Some n ->
  visiting fin (fs ++ [(node, successors n)]) [] (Search (stack st ++ [node]) (itstack st ++ [successors n]) ({[node]} ∪ seen st) (<[node := length (stack st)]> (node2stacki st))).
Proof.
  intros [V1 V2 V3 V4 V5 V6 V7 V8] HN G. rewrite V3 in HN. assert (EF : (fs ++ [(node, successors n)]).*1 = fs.*1 ++ [node]) by (by rewrite fmap_app). split; cbn [stack itstack seen node2stacki]; rewrite ?EF, ?app_nil_r; try done.
  - by rewrite V1.
  - by rewrite V2, fmap_app.
  - intros x. rewrite elem_of_union, elem_of_singleton, V3, elem_of_app, list_elem_of_singleton. tauto.
  - intros x i. rewrite V1. destruct (decide (node = x)) as [<-|NE].
    + rewrite lookup_insert_eq. split; [intros [= <-]; by apply list_lookup_middle|]. intros E. apply lookup_app_Some in E as [E|[L E]]; [destruct HN; right; by apply list_elem_of_lookup_2 in E|]. apply list_lookup_singleton_Some in E as [L2 _]. f_equal. lia.
    + rewrite lookup_insert_ne, V4 by done. split; [intros E; by apply lookup_app_l_Some|]. intros E. apply lookup_app_Some in E as [E|[_ E]]; [done|]. by apply list_lookup_singleton_Some in E as [_ ->].
  - rewrite app_assoc. apply NoDup_app. split; [done|]. split; [|apply NoDup_singleton]. intros x Hx Hn. apply list_elem_of_singleton in Hn as ->. apply elem_of_app in Hx. tauto.
  - intros i a rest E. apply lookup_app_Some in E as [E|[L E]]; [by apply V8|]. apply list_lookup_singleton_Some in E as [_ [= <- <-]]. exists n, []. split; [done|]. split; [done|]. intros b Hb. by apply not_elem_of_nil in Hb.
Qed.

Lemma explore_visiting fuel : forall fin fs node st, visiting fin fs [node] st -> node ∈ n2i.*1 -> unseen (seen st) n2i + left_over fs < fuel ->
  (exists c, explore fuel n2i node st = Val (inl c) /\ cycle c)
  \/ (exists fin' st', explore fuel n2i node st = Val (inr st') /\ visiting fin' [] [] st' /\ forall x, x ∈ fin \/ x = node \/ x ∈ fs.*1 -> x ∈ fin').
Proof using keys_once closed.
  induction fuel as [|fuel IH]; intros fin fs node st V HN HF; [lia|]. cbn [explore].
  assert (C : forall fs' st', visiting fin fs' [] st' -> unseen (seen st') n2i + left_over fs' <= fuel -> (forall x, x ∈ fin \/ x = node \/ x ∈ fs.*1 -> x ∈ fin \/ x ∈ fs'.*1) ->
    let r := match backtrack (S (length (stack st'))) st' with Val (Some node, st) => explore fuel n2i node st | Val (None, st) => Val (inr st) | Raised e => Raised e | Unfinished => Unfinished end in
    (exists c, r = Val (inl c) /\ cycle c) \/ (exists fin' st'', r = Val (inr st'') /\ visiting fin' [] [] st'' /\ forall x, x ∈ fin \/ x = node \/ x ∈ fs.*1 -> x ∈ fin')).
  { intros fs' st' V' HM HX. cbv zeta. destruct (backtrack_visiting (S (length (stack st'))) fin fs' st' V') as (fin2 & fs2 & st2 & HI & HS & [(-> & -> & V2)|(b & -> & V2 & HL & HE)]); [rewrite (vi_stack _ _ _ _ V'), length_fmap; lia| |].
    - right. exists fin2, st2. split; [done|]. split; [done|]. intros x Hx. destruct (HI x (HX x Hx)) as [|F]; [done|]. by apply not_elem_of_nil in F.
    - destruct HE as (a & HE). pose proof (closed a b HE) as HB.
      destruct (IH fin2 fs2 b st2 V2 HB ltac:(rewrite HS; lia)) as [D|(fin3 & st3 & E3 & V3 & H3)]; [by left|]. right. exists fin3, st3. split; [done|]. split; [done|]. intros x Hx. apply H3. destruct (HI x (HX x Hx)); tauto. }
  destruct (decide (node ∈ seen st)) as [HS|HS].
  - destruct (node2stacki st !! node) as [i|] eqn:EI; [left; eexists; split; [done|]; by eapply cycle_found|]. assert (HF' : node ∈ fin).
    { apply (vi_seen _ _ _ _ V) in HS as [|HS]; [done|]. apply list_elem_of_lookup_1 in HS as [i Hi]. apply (vi_index _ _ _ _ V) in Hi. congruence. }
    apply (C fs st); [by apply (visiting_seen fin fs node) | lia | intros x [?|[->|?]]; tauto].
  - apply get_some in HN as [n G]. rewrite G. pose proof (unseen_add (seen st) node n n2i keys_once G HS). apply (C (fs ++ [(node, successors n)])); [by apply visiting_push | cbn [seen]; rewrite left_over_snoc; lia|].
    intros x Hx. rewrite fmap_app, elem_of_app. cbn [fmap list_fmap fst]. rewrite list_elem_of_singleton. tauto.
Qed.

Lemma find_cycle_visiting nodes : forall fin st, visiting fin [] [] st -> (forall x, x ∈ nodes -> x ∈ n2i.*1) ->
  (exists c, find_cycle_from n2i nodes st = Val (Some c) /\ cycle c)
  \/ find_cycle_from n2i nodes st = Val None /\ exists fin', backwards fin' /\ NoDup fin' /\ forall x, x ∈ fin \/ x ∈ nodes -> x ∈ fin'.
Proof using keys_once closed.
  induction nodes as [|node nodes IH]; intros fin st V HK; cbn [find_cycle_from].
  - right. split; [done|]. exists fin. split; [apply V|]. split; [pose proof (vi_once _ _ _ _ V) as O; cbn in O; by rewrite app_nil_r in O|]. intros x [|F]; [done | by apply not_elem_of_nil in F].
  - assert (HK' : forall x, x ∈ nodes -> x ∈ n2i.*1) by (intros x Hx; apply HK; by right). destruct (decide (node ∈ seen st)) as [HS|HS].
    + apply (vi_seen _ _ _ _ V) in HS as [HS|HS]; [|by apply not_elem_of_nil in HS]. destruct (IH fin st V HK') as [|(E & fin' & B & N & HI)]; [by left|]. right. split; [done|]. exists fin'. split; [done|]. split; [done|]. intros x [|[->|]%elem_of_cons]; apply HI; tauto.
    + assert (V1 : visiting fin [] [node] st) by (destruct V as [V1 V2 V3 V4 V5 V6 V7 V8]; split; try done; intros i a b _ E; by destruct i).
      destruct (explore_visiting (explore_fuel n2i) fin [] node st V1) as [(c & -> & HC)|(fin' & st' & -> & V2 & HI)].
      * apply HK. by left.
      * unfold explore_fuel, left_over. cbn [foldr]. rewrite Nat.add_0_r. unfold unseen. clear. induction n2i as [|[k v] d IH]; cbn [foldr fst snd]; [lia|]. destruct (decide (k ∈ seen st)); lia.
      * left. by exists c.
      * destruct (IH fin' st' V2 HK') as [|(E & fin2 & B & N & HI2)]; [by left|]. right. split; [done|]. exists fin2. split; [done|]. split; [done|]. intros x [Hx|[->|Hx]%elem_of_cons]; apply HI2; [left; apply HI; by left | left; apply HI; right; by left | by right].
Qed.

(** A cycle when there is one, and otherwise an order in which every successor
    comes first. *)
Lemma find_cycle_exact s : node2info s = n2i ->
  (exists c, find_cycle s = Val (Some c) /\ cycle c)
  \/ find_cycle s = Val None /\ exists fin, backwards fin /\ NoDup fin /\ forall x, x ∈ n2i.*1 -> x ∈ fin.
Proof using keys_once closed.
  intros E. unfold find_cycle. rewrite E. destruct (find_cycle_visiting n2i.*1 [] (Search [] [] ∅ ∅)) as [|(E' & fin & B & N & HI)]; [|done | by left | right; split; [done|]; exists fin; split; [done|]; split; [done|]; intros x Hx; apply HI; by right].
  split; cbn; try done; [|constructor]. intros x. split; [intros Hx; by apply elem_of_empty in Hx | intros [Hx|Hx]; by apply not_elem_of_nil in Hx].
Qed.
End graph.
