(* ===== verification/GraphOrder.v ===== *)
(** GraphOrder: what graphlib.py promises of the order.

    A graph is its vertices and its arcs in the order they were added
    ([built]); [working] is the invariant of a prepared sorter, with the nodes
    that are done, handed out and ready. *)
From Stdlib Require Import ZArith Lia List.
From stdpp Require Import base list gmap strings.
From S2P Require Import Prelude Graph GraphCycle.
Import Graphlib.
Open Scope Z_scope.

Lemma filter_none {A} (P : A -> Prop) `{forall x, Decision (P x)} l : (forall x, x ∈ l -> ~ P x) -> filter P l = [].
Proof. intros N. apply elem_of_nil_inv. intros x. rewrite list_elem_of_filter. intros [HP Hx]. by apply (N x). Qed.

Lemma NoDup_fmap_fst_filter {A B} (d : list (A * B)) (P : A * B -> Prop) `{forall x, Decision (P x)} : NoDup d.*1 -> NoDup (filter P d).*1.
Proof.
  induction d as [|kv d IH]; [done|]. cbn [fmap list_fmap]. rewrite NoDup_cons. intros [N ND]. rewrite filter_cons. destruct (decide (P kv)); [|by apply IH]. cbn [fmap list_fmap]. apply NoDup_cons. split; [|by apply IH].
  intros (x & E & Hx)%list_elem_of_fmap. apply list_elem_of_filter in Hx as [_ Hx]. apply N, list_elem_of_fmap. by exists x.
Qed.

Section order.
Context {A : Type} `{Countable A}.

(** * Building a graph *)

Record graph : Type := Digraph {
  vertices : list A;
  arcs : list (A * A)
}.
Definition extend (l : list A) (x : A) : list A := if decide (x ∈ l) then l else l ++ [x].
(** The predecessors first in an arc. *)
Definition add_to (g : graph) (node : A) (predecessors : list A) : graph :=
  Digraph (foldl extend (extend (vertices g) node) predecessors) (arcs g ++ ((fun p => (p, node)) <$> predecessors)).
Definition graph_of (items : list (A * list A)) : graph := foldl (fun g it => add_to g it.1 it.2) (Digraph [] []) items.

(** Arcs from a node, and arcs into a node from nodes not in [D]. *)
Definition out_arcs (E : list (A * A)) (a : A) : list A := (filter (fun e => e.1 = a) E).*2.
Definition pending (D : list A) (E : list (A * A)) (w : A) : Z := zlen (filter (fun e => e.2 = w /\ e.1 ∉ D) E).

Record built (s : sorter A) (g : graph) : Prop := Built {
  bu_keys : (node2info s).*1 = vertices g;
  bu_once : NoDup (vertices g);
  bu_arcs : forall p v, (p, v) ∈ arcs g -> p ∈ vertices g /\ v ∈ vertices g;
  bu_info : forall a i, get a (node2info s) = Some i -> successors i = out_arcs (arcs g) a /\ npredecessors i = pending [] (arcs g) a;
  bu_fresh : ready_nodes s = None /\ npassedout s = 0 /\ nfinished s = 0
}.

Lemma extend_elem l x y : y ∈ extend l x <-> y ∈ l \/ y = x.
Proof. unfold extend. destruct (decide (x ∈ l)); [split; [by left | by intros [| ->]]|]. rewrite elem_of_app, list_elem_of_singleton. done. Qed.
Lemma extend_once l x : NoDup l -> NoDup (extend l x).
Proof. intros N. unfold extend. destruct (decide (x ∈ l)); [done|]. apply NoDup_app. split; [done|]. split; [|apply NoDup_singleton]. intros y Hy Hx. by apply list_elem_of_singleton in Hx as ->. Qed.

Lemma out_arcs_app E1 E2 a : out_arcs (E1 ++ E2) a = out_arcs E1 a ++ out_arcs E2 a.
Proof. unfold out_arcs. by rewrite filter_app, fmap_app. Qed.
Lemma out_arcs_one p v a : out_arcs [(p, v)] a = if decide (a = p) then [v] else [].
Proof. unfold out_arcs. rewrite filter_cons. cbn [fst]. destruct (decide (p = a)) as [->|]; [by rewrite decide_True | by rewrite decide_False by congruence]. Qed.
Lemma pending_app D E1 E2 w : pending D (E1 ++ E2) w = pending D E1 w + pending D E2 w.
Proof. unfold pending. by rewrite filter_app, zlen_app. Qed.
Lemma pending_none E a : a ∉ E.*2 -> pending [] E a = 0.
Proof.
  intros N. unfold pending. assert (EF : filter (fun e => e.2 = a /\ e.1 ∉ []) E = []); [|by rewrite EF]. apply filter_none. intros [p v] HE [F _]. cbn in F. subst v. apply N, list_elem_of_fmap. by exists (p, a).
Qed.
Lemma out_arcs_none E a : a ∉ E.*1 -> out_arcs E a = [].
Proof.
  intros N. unfold out_arcs. assert (EF : filter (fun e => e.1 = a) E = []); [|by rewrite EF]. apply filter_none. intros [p v] HE F. cbn in F. subst p. apply N, list_elem_of_fmap. by exists (a, v).
Qed.

(** The graph while a node's arcs are being added: its count is ahead. *)
Definition partly_built (d : list (A * node_info A)) (V : list A) (E : list (A * A)) (node : A) (more : Z) : Prop :=
  d.*1 = V /\ NoDup V /\ (forall p v, (p, v) ∈ E -> p ∈ V /\ v ∈ V) /\ node ∈ V
  /\ forall a i, get a d = Some i -> successors i = out_arcs E a /\ npredecessors i = pending [] E a + if decide (a = node) then more else 0.

Lemma get_nodeinfo_spec (s : sorter A) node : exists i, get_nodeinfo node s = (Val i, with_info (if decide (node ∈ (node2info s).*1) then node2info s else put node (NodeInfo 0 []) (node2info s)) s)
  /\ i = default (NodeInfo 0 []) (get node (node2info s)).
Proof.
  unfold get_nodeinfo. destruct (get node (node2info s)) as [i|] eqn:G.
  - exists i. rewrite decide_True by (apply get_some; eauto). by destruct s.
  - exists (NodeInfo 0 []). by rewrite decide_False by (by apply get_none).
Qed.

Lemma put_put {K V} `{EqDecision K} (k : K) (v w : V) d : put k v (put k w d) = put k v d.
Proof. induction d as [|[k' v'] d IH]; cbn [put]; [by rewrite decide_True|]. destruct (decide (k = k')) as [->|]; cbn [put]; [by rewrite decide_True | by rewrite decide_False, IH]. Qed.

(** Reading a node's information, which may be new, and writing it back. *)
Lemma touch (s : sorter A) (node : A) (f : node_info A -> node_info A) : (i ← get_nodeinfo node; set_info node (f i)) s = (Val tt, with_info (put node (f (default (NodeInfo 0 []) (get node (node2info s)))) (node2info s)) s).
Proof.
  destruct (get_nodeinfo_spec s node) as (i & E & ->). unfold mbind, method_bind. rewrite E. unfold set_info, modify. f_equal. destruct s as [d r p n]. unfold with_info. cbn [node2info ready_nodes npassedout nfinished]. f_equal.
  destruct (decide (node ∈ d.*1)) as [|N]; [done|]. apply put_put.
Qed.
Lemma touch_keys node (i : node_info A) d : (put node i d).*1 = extend d.*1 node.
Proof. rewrite put_keys. unfold extend. destruct (decide (node ∈ d.*1)); [apply app_nil_r | done]. Qed.

Lemma bind_assoc {X Y Z0} (m : method X) (f : X -> method Y) (g : Y -> method Z0) (s : sorter A) : (x ← m; y ← f x; g y) s = (y ← (x ← m; f x); g y) s.
Proof. unfold mbind, method_bind. by destruct (m s) as [[] ?]. Qed.
Lemma bind_val {X Y} (m : method X) (f : X -> method Y) (s s' : sorter A) x : m s = (Val x, s') -> (m ≫= f) s = f x s'.
Proof. intros E. unfold mbind, method_bind. by rewrite E. Qed.

Lemma default_info d V E node more a : partly_built d V E node more -> let i := default (NodeInfo 0 []) (get a d) in successors i = out_arcs E a /\ npredecessors i = pending [] E a + if decide (a = node) then more else 0.
Proof.
  intros (K & N & AR & HN & HI). destruct (get a d) as [i|] eqn:G; [by apply HI|]. cbn. apply get_none in G. rewrite K in G. rewrite decide_False by (by intros ->). rewrite out_arcs_none, pending_none; [done|..]; intros ([p v] & -> & HE)%list_elem_of_fmap; apply AR in HE; tauto.
Qed.

Lemma add_edges_built node : forall preds d r n f V E, partly_built d V E node (zlen preds) ->
  exists d', add_edges node preds (Sorter d r n f) = (Val tt, Sorter d' r n f) /\ partly_built d' (foldl extend V preds) (E ++ ((fun p => (p, node)) <$> preds)) node 0.
Proof.
  induction preds as [|p preds IH]; intros d r n f V E PB; [exists d; cbn [fmap list_fmap foldl]; by rewrite app_nil_r|]. cbn [add_edges]. rewrite bind_assoc. erewrite bind_val by apply (touch _ p (fun i => NodeInfo (npredecessors i) (successors i ++ [node]))). cbn [node2info].
  pose proof (default_info d V E node (zlen (p :: preds)) p PB) as DI. cbv zeta in DI. destruct PB as (K & N & AR & HN & HI). set (i := default _ _) in *. destruct DI as [DS DP]. rewrite zlen_cons in *. unfold with_info. cbn [ready_nodes npassedout nfinished].
  destruct (IH (put p (NodeInfo (npredecessors i) (successors i ++ [node])) d) r n f (extend V p) (E ++ [(p, node)])) as (d' & -> & PB').
  - split; [by rewrite touch_keys, K|]. split; [by apply extend_once|]. split; [intros q v; rewrite elem_of_app, list_elem_of_singleton, !extend_elem; intros [HE|[= -> ->]]; [apply AR in HE; tauto | tauto]|]. split; [apply extend_elem; by left|].
    intros a j. rewrite put_get, out_arcs_app, out_arcs_one, pending_app. assert (P1 : pending [] [(p, node)] a = if decide (a = node) then 1 else 0).
    { unfold pending. rewrite filter_cons. cbn [fst snd]. destruct (decide (a = node)) as [->|]; [rewrite decide_True by (split; [done | apply not_elem_of_nil]); done | rewrite decide_False by (by intros [-> _]); done]. }
    rewrite P1. destruct (decide (a = p)) as [->|].
    + intros [= <-]. cbn [successors npredecessors]. rewrite DS, DP. split; [done|]. destruct (decide (p = node)); lia.
    + intros G. destruct (HI a j G) as [-> ->]. rewrite app_nil_r. split; [done|]. destruct (decide (a = node)); lia.
  - exists d'. split; [done|]. cbn [foldl fmap list_fmap]. rewrite <- app_assoc in PB'. exact PB'.
Qed.

Lemma add_built s g node preds : built s g -> exists s', add node preds s = (Val tt, s') /\ built s' (add_to g node preds).
Proof.
  intros [K N AR HI (R & P0 & F0)]. unfold add. rewrite R. rewrite bind_assoc. erewrite bind_val by apply (touch _ node (fun i => NodeInfo (npredecessors i + zlen preds) (successors i))). destruct s as [d r n f]. cbn [node2info ready_nodes npassedout nfinished] in *. subst r n f. unfold with_info. cbn [ready_nodes npassedout nfinished node2info].
  set (i := default (NodeInfo 0 []) (get node d)). assert (DI : successors i = out_arcs (arcs g) node /\ npredecessors i = pending [] (arcs g) node).
  { unfold i. destruct (get node d) as [j|] eqn:G; [by apply HI|]. cbn. apply get_none in G. rewrite K in G. rewrite out_arcs_none, pending_none; [done|..]; intros ([p v] & -> & HE)%list_elem_of_fmap; apply AR in HE; tauto. }
  destruct DI as [DS DP]. destruct (add_edges_built node preds (put node (NodeInfo (npredecessors i + zlen preds) (successors i)) d) None 0 0 (extend (vertices g) node) (arcs g)) as (d' & -> & K' & N' & AR' & _ & HI').
  - split; [by rewrite touch_keys, K|]. split; [by apply extend_once|]. split; [intros p v HE; rewrite !extend_elem; apply AR in HE; tauto|]. split; [apply extend_elem; by right|].
    intros a j. rewrite put_get. destruct (decide (a = node)) as [->|]; [intros [= <-]; cbn [successors npredecessors]; by rewrite DS, DP|]. intros G. destruct (HI a j G) as [-> ->]. by rewrite Z.add_0_r.
  - eexists. split; [done|]. split; cbn [node2info ready_nodes npassedout nfinished]; try done. intros a j G. destruct (HI' a j G) as [-> ->]. split; [done|]. destruct (decide (a = node)); apply Z.add_0_r.
Qed.

(** [TopologicalSorter(graph)]. *)
Lemma add_all_built items : exists s, add_all items new = (Val tt, s) /\ built s (graph_of items).
Proof.
  assert (G : forall g (s : sorter A), built s g -> exists s', add_all items s = (Val tt, s') /\ built s' (foldl (fun g it => add_to g it.1 it.2) g items)).
  { induction items as [|[node preds] items IH]; intros g s B; [by exists s|]. cbn [add_all foldl fst snd]. destruct (add_built s g node preds B) as (s1 & E1 & B1). rewrite (bind_val _ _ _ _ _ E1). by apply IH. }
  apply G. split; try done; [constructor | intros p v HE; by apply not_elem_of_nil in HE].
Qed.

(** * A prepared sorter *)

Definition occurs (l : list A) (a : A) : Z := zlen (filter (fun x => x = a) l).

Lemma pending_zero D E w : pending D E w = 0 <-> forall p, (p, w) ∈ E -> p ∈ D.
Proof.
  unfold pending. split.
  - intros Z0 p HE. destruct (decide (p ∈ D)) as [|N]; [done|]. exfalso. assert (I : (p, w) ∈ filter (fun e => e.2 = w /\ e.1 ∉ D) E) by (apply list_elem_of_filter; done). destruct (filter (fun e => e.2 = w /\ e.1 ∉ D) E); [by apply not_elem_of_nil in I|]. rewrite zlen_cons in Z0. pose proof (zlen_nonneg l). lia.
  - intros HE. rewrite filter_none; [done|]. intros [p v] Hp [F N]. cbn in *. subst v. by apply N, HE.
Qed.
Lemma pending_done D E v w : v ∉ D -> pending D E w = pending (D ++ [v]) E w + occurs (out_arcs E v) w.
Proof.
  intros N. unfold pending, occurs, out_arcs. induction E as [|[p x] E IH]; [done|]. rewrite !filter_cons. cbn [fst snd]. destruct (decide (p = v)) as [->|NE].
  - rewrite (decide_False (P := x = w /\ v ∉ D ++ [v])) by (intros [_ F]; apply F, elem_of_app; right; by left). cbn [fmap list_fmap snd]. rewrite filter_cons. destruct (decide (x = w)) as [->|]; [rewrite (decide_True (P := w = w /\ v ∉ D)) by done; rewrite !zlen_cons; lia | rewrite (decide_False (P := x = w /\ v ∉ D)) by (by intros []); done].
  - rewrite (decide_ext (x = w /\ p ∉ D) (x = w /\ p ∉ D ++ [v])) by (rewrite elem_of_app, list_elem_of_singleton; tauto). destruct (decide (x = w /\ p ∉ D ++ [v])); rewrite ?zlen_cons; lia.
Qed.
Lemma occurs_cons x l a : occurs (x :: l) a = (if decide (x = a) then 1 else 0) + occurs l a.
Proof. unfold occurs. rewrite filter_cons. destruct (decide (x = a)); rewrite ?zlen_cons; lia. Qed.
Lemma occurs_pos l a : 0 <= occurs l a /\ (a ∈ l -> 1 <= occurs l a).
Proof.
  unfold occurs. pose proof (zlen_nonneg (filter (fun x => x = a) l)). split; [done|]. intros Ha. assert (I : a ∈ filter (fun x => x = a) l) by (by apply list_elem_of_filter). destruct (filter (fun x => x = a) l) as [|y k]; [by apply not_elem_of_nil in I|]. rewrite zlen_cons. pose proof (zlen_nonneg k). lia.
Qed.
Lemma pending_nonneg D E w : 0 <= pending D E w.
Proof. apply zlen_nonneg. Qed.

(** Nodes done, handed out and ready; [late] are successors of a node that is
    done which have not been told. *)
Record tracking (g : graph) (D O R late : list A) (s : sorter A) : Prop := Tracking {
  tr_keys : (node2info s).*1 = vertices g;
  tr_once : NoDup (vertices g);
  tr_arcs : forall p v, (p, v) ∈ arcs g -> p ∈ vertices g /\ v ∈ vertices g;
  tr_ready : ready_nodes s = Some R;
  tr_parts : NoDup (D ++ O ++ R);
  tr_known : forall a, a ∈ D ++ O ++ R -> a ∈ vertices g;
  tr_succ : forall a i, get a (node2info s) = Some i -> successors i = out_arcs (arcs g) a;
  tr_count : forall a i, get a (node2info s) = Some i -> npredecessors i = if decide (a ∈ D) then NODE_DONE else if decide (a ∈ O) then NODE_OUT else pending D (arcs g) a + occurs late a;
  tr_zero : forall a, a ∈ vertices g -> a ∉ D -> a ∉ O -> a ∈ R <-> pending D (arcs g) a + occurs late a = 0;
  tr_before : forall a p, a ∈ D ++ O -> (p, a) ∈ arcs g -> p ∈ D
}.
Record working (g : graph) (D O R : list A) (s : sorter A) : Prop := Working {
  wo_track : tracking g D O R [] s;
  wo_passed : npassedout s = zlen D + zlen O;
  wo_finished : nfinished s = zlen D
}.

Lemma pass_out_spec nodes : forall (s : sorter A), (forall a, a ∈ nodes -> a ∈ (node2info s).*1) ->
  exists d, pass_out nodes s = (Val tt, with_info d s) /\ d.*1 = (node2info s).*1
    /\ forall a, get a d = if decide (a ∈ nodes) then (fun i => NodeInfo NODE_OUT (successors i)) <$> get a (node2info s) else get a (node2info s).
Proof.
  induction nodes as [|x nodes IH]; intros s HK; [exists (node2info s); split; [by destruct s|]; split; [done|]; intros a; by rewrite decide_False by apply not_elem_of_nil|].
  cbn [pass_out]. destruct (proj2 (get_some x (node2info s)) (HK x ltac:(by left))) as [i G]. assert (EI : info x s = (Val i, s)) by (unfold info; by rewrite G). rewrite (bind_val _ _ _ _ _ EI).
  assert (ES : set_info x (NodeInfo NODE_OUT (successors i)) s = (Val tt, with_info (put x (NodeInfo NODE_OUT (successors i)) (node2info s)) s)) by done. rewrite (bind_val _ _ _ _ _ ES).
  assert (KP : (put x (NodeInfo NODE_OUT (successors i)) (node2info s)).*1 = (node2info s).*1) by (rewrite put_keys, decide_True by (apply HK; by left); apply app_nil_r).
  destruct (IH (with_info (put x (NodeInfo NODE_OUT (successors i)) (node2info s)) s)) as (d & -> & KD & GD); [intros a Ha; cbn [with_info node2info]; rewrite KP; apply HK; by right|]. cbn [with_info node2info] in *.
  exists d. split; [done|]. split; [by rewrite KD|]. intros a. rewrite GD, put_get. destruct (decide (a = x)) as [->|NE].
  - rewrite (decide_True (P := x ∈ x :: nodes)) by left. rewrite G. by destruct (decide (x ∈ nodes)).
  - rewrite (decide_ext (a ∈ x :: nodes) (a ∈ nodes)) by (rewrite elem_of_cons; tauto). done.
Qed.

Lemma get_ready_working g D O R s : working g D O R s -> exists s', get_ready s = (Val R, s') /\ working g D (O ++ R) [] s'.
Proof.
  intros [[K N AR RD NP KN SU CO ZE BE] P F]. unfold get_ready. assert (EP : prepared s = (Val R, s)) by (unfold prepared; by rewrite RD). rewrite (bind_val _ _ _ _ _ EP).
  destruct (pass_out_spec R s) as (d & EO & KD & GD); [intros a Ha; rewrite K; apply KN; rewrite !elem_of_app; tauto|]. rewrite (bind_val _ _ _ _ _ EO). eexists. split; [done|].
  assert (ZR : forall a, a ∈ R -> (a ∉ D) /\ (a ∉ O)) by (intros a Ha; apply NoDup_app in NP as (_ & N1 & N2); apply NoDup_app in N2 as (_ & N2 & _); split; intros Hd; [apply (N1 a Hd); apply elem_of_app; by right | by apply (N2 a)]).
  split; [|cbn [npassedout with_info]; rewrite zlen_app; lia | cbn; lia]. split; cbn [node2info ready_nodes with_info]; rewrite ?app_nil_r; try done.
  - by rewrite KD.
  - intros a i. rewrite GD. destruct (decide (a ∈ R)); [|apply SU]. destruct (get a (node2info s)) as [j|] eqn:G; [|done]. intros [= <-]. exact (SU a j G).
  - intros a i. rewrite GD. destruct (decide (a ∈ R)) as [HR|HR].
    + destruct (get a (node2info s)) as [j|] eqn:G; [|done]. intros [= <-]. destruct (ZR a HR). rewrite decide_False, decide_True by (done || (apply elem_of_app; by right)). done.
    + intros G. rewrite (CO a i G). destruct (decide (a ∈ D)); [done|]. by rewrite (decide_ext (a ∈ O ++ R) (a ∈ O)) by (rewrite elem_of_app; tauto).
  - intros a Ha HD HO. rewrite not_elem_of_app in HO. split; [intros F0; by apply not_elem_of_nil in F0|]. intros Z0. apply ZE in Z0; tauto.
  - intros a p Ha HE. rewrite !elem_of_app in Ha. destruct (decide (a ∈ R)) as [HR|HR]; [|apply (BE a); [rewrite elem_of_app; tauto | done]].
    destruct (ZR a HR). apply (proj1 (ZE a (proj2 (AR p a HE)) ltac:(done) ltac:(done))) in HR. pose proof (occurs_pos [] a). pose proof (pending_nonneg D (arcs g) a). apply (pending_zero D (arcs g) a); [lia | done].
Qed.

Lemma release_tracking g D O : forall ws R s, tracking g D O R ws s -> (forall w, w ∈ ws -> (w ∉ D) /\ (w ∉ O) /\ w ∈ vertices g) ->
  exists R' s', release ws s = (Val tt, s') /\ tracking g D O (R ++ R') [] s' /\ npassedout s' = npassedout s /\ nfinished s' = nfinished s.
Proof.
  induction ws as [|w ws IH]; intros R s T HW; [exists [], s; by rewrite app_nil_r|]. destruct (HW w ltac:(by left)) as (WD & WO & WV). destruct T as [K N AR RD NP KN SU CO ZE BE].
  destruct (proj2 (get_some w (node2info s))) as [i G]; [by rewrite K|]. cbn [release]. assert (EI : info w s = (Val i, s)) by (unfold info; by rewrite G). rewrite (bind_val _ _ _ _ _ EI). pose proof (CO w i G) as CI. rewrite !decide_False in CI by done.
  rewrite occurs_cons, decide_True in CI by done. pose proof (pending_nonneg D (arcs g) w). pose proof (proj1 (occurs_pos ws w)). set (i' := NodeInfo (npredecessors i - 1) (successors i)). set (s1 := with_info (put w i' (node2info s)) s).
  assert (ES : set_info w i' s = (Val tt, s1)) by done. rewrite (bind_val _ _ _ _ _ ES). assert (KP : (node2info s1).*1 = vertices g) by (cbn [node2info s1 with_info]; rewrite put_keys, decide_True by (by rewrite K); by rewrite app_nil_r).
  assert (NR : w ∉ R) by (intros HR; apply ZE in HR; [rewrite occurs_cons, decide_True in HR by done; lia | done..]).
  assert (T1 : forall R1 s2, node2info s2 = node2info s1 -> ready_nodes s2 = Some R1 -> (forall a, a ∈ R1 <-> a ∈ R \/ a = w /\ npredecessors i - 1 = 0) -> NoDup R1 -> tracking g D O R1 ws s2).
  { intros R1 s2 E2 RD2 HR1 NR1. split; rewrite ?E2; try done.
    - rewrite app_assoc in NP |- *. apply NoDup_app in NP as (N1 & N2 & _). apply NoDup_app. split; [done|]. split; [|done]. intros a Ha Hr. apply HR1 in Hr as [Hr|[-> _]]; [by apply (N2 a)|]. apply elem_of_app in Ha. tauto.
    - intros a Ha. rewrite !elem_of_app in Ha. destruct Ha as [|[|Hr]]; [apply KN; rewrite !elem_of_app; tauto..|]. apply HR1 in Hr as [|[-> _]]; [apply KN; rewrite !elem_of_app; tauto | done].
    - intros a j. cbn [node2info s1 with_info]. rewrite put_get. destruct (decide (a = w)) as [->|]; [intros [= <-]; exact (SU w i G) | apply SU].
    - intros a j. cbn [node2info s1 with_info]. rewrite put_get. destruct (decide (a = w)) as [->|NE]; [intros [= <-]; rewrite !decide_False by done; cbn [npredecessors i']; lia|]. intros Ga. rewrite (CO a j Ga), occurs_cons, (decide_False (P := w = a)) by congruence. done.
    - intros a Ha HD HO. rewrite HR1, (ZE a Ha HD HO), occurs_cons. destruct (decide (w = a)) as [<-|NE]; [split; [intros [|[_ ?]]; lia | intros; right; split; [done | lia]] | split; [intros [|[-> _]]; [lia | done] | intros; left; lia]]. }
  destruct (Z.eqb_spec (npredecessors i - 1) 0) as [Z0|Z0].
  - assert (ER : (ready ← prepared; modify (with_ready (ready ++ [w]))) s1 = (Val tt, with_ready (R ++ [w]) s1)) by (erewrite bind_val; [reflexivity | unfold prepared; cbn [ready_nodes s1 with_info]; by rewrite RD]). rewrite (bind_val _ _ _ _ _ ER).
    destruct (IH (R ++ [w]) (with_ready (R ++ [w]) s1)) as (R' & s' & -> & T' & P' & F'); [|intros x Hx; apply HW; by right | exists (w :: R'), s'; rewrite <- app_assoc in T'; done].
    apply T1; [done | done | | apply NoDup_app; split; [rewrite app_assoc in NP; by apply NoDup_app in NP as (_ & _ & NP)|]; split; [|apply NoDup_singleton]; intros x Hx Hw; by apply list_elem_of_singleton in Hw as ->]. intros a. rewrite elem_of_app, list_elem_of_singleton. tauto.
  - assert (ER : (mret tt : method unit) s1 = (Val tt, s1)) by done. rewrite (bind_val _ _ _ _ _ ER). destruct (IH R s1) as (R' & s' & -> & T' & P' & F'); [|intros x Hx; apply HW; by right | exists R', s'; done].
    apply T1; [done | done | intros a; tauto | rewrite app_assoc in NP; by apply NoDup_app in NP as (_ & _ & NP)].
Qed.

(** Marking a node that was handed out. *)
Lemma done_one_working g D O R s v : working g D O R s -> v ∈ O -> exists R' s', done_one v s = (Val tt, s') /\ working g (D ++ [v]) (filter (fun x => x <> v) O) (R ++ R') s'.
Proof.
  intros [[K N AR RD NP KN SU CO ZE BE] P F] HO. set (O' := filter (fun x => x <> v) O). assert (VV : v ∈ vertices g) by (apply KN; rewrite !elem_of_app; tauto). destruct (proj2 (get_some v (node2info s))) as [i G]; [by rewrite K|].
  pose proof NP as NPs. apply NoDup_app in NPs as (ND & N1 & N2). apply NoDup_app in N2 as (NO & N2 & NR). assert (HD : v ∉ D) by (intros HD; apply (N1 v HD), elem_of_app; by left). assert (HR : v ∉ R) by (by apply N2).
  assert (HO' : forall x, x ∈ O' <-> x ∈ O /\ x <> v) by (intros x; unfold O'; rewrite list_elem_of_filter; tauto). assert (PO : O ≡ₚ v :: O').
  { apply NoDup_Permutation; [done | constructor; [rewrite HO'; tauto | by apply NoDup_filter]|]. intros x. rewrite elem_of_cons, HO'. destruct (decide (x = v)) as [->|]; tauto. }
  assert (DD : forall a, a ∈ D ++ [v] <-> a ∈ D \/ a = v) by (intros a; rewrite elem_of_app, list_elem_of_singleton; done).
  unfold done_one. rewrite G. pose proof (CO v i G) as CI. rewrite decide_False, decide_True in CI by done. rewrite CI. cbn [Z.eqb Pos.eqb NODE_OUT negb]. set (s1 := with_info (put v (NodeInfo NODE_DONE (successors i)) (node2info s)) s).
  assert (ES : set_info v (NodeInfo NODE_DONE (successors i)) s = (Val tt, s1)) by done. rewrite (bind_val _ _ _ _ _ ES), (SU v i G). destruct (release_tracking g (D ++ [v]) O' (out_arcs (arcs g) v) R s1) as (R' & s' & ER & T & P' & F').
  - split; try done.
    + cbn [node2info s1 with_info]. rewrite put_keys, decide_True by (by rewrite K). by rewrite app_nil_r.
    + rewrite <- app_assoc. cbn [app]. rewrite PO in NP. done.
    + intros a Ha. apply KN. rewrite !elem_of_app, list_elem_of_singleton, HO' in Ha. rewrite !elem_of_app. destruct Ha as [[|E1]|[[]|]]; subst; tauto.
    + intros a j. cbn [node2info s1 with_info]. rewrite put_get. destruct (decide (a = v)) as [->|]; [intros [= <-]; exact (SU v i G) | apply SU].
    + intros a j. cbn [node2info s1 with_info]. rewrite put_get. destruct (decide (a = v)) as [->|NE]; [intros [= <-]; by rewrite decide_True by (apply DD; by right)|]. intros Ga. rewrite (CO a j Ga).
      rewrite (decide_ext (a ∈ D ++ [v]) (a ∈ D)), (decide_ext (a ∈ O') (a ∈ O)) by (rewrite ?DD, ?HO'; tauto). rewrite (pending_done D (arcs g) v a HD). destruct (decide (a ∈ D)); [done|]. destruct (decide (a ∈ O)); [done|]. change (occurs [] a) with 0. lia.
    + intros a Ha HDa HOa. rewrite DD in HDa. rewrite HO' in HOa. rewrite (ZE a Ha) by tauto. rewrite (pending_done D (arcs g) v a HD). change (occurs [] a) with 0. by rewrite Z.add_0_r.
    + intros a p Ha HE. rewrite !elem_of_app, list_elem_of_singleton, HO' in Ha. apply DD. left. apply (BE a); [rewrite elem_of_app; destruct Ha as [[| ->]|[]]; tauto | done].
  - intros w ([p x] & -> & Hw)%list_elem_of_fmap. apply list_elem_of_filter in Hw as [F1 Hw]. cbn in *. subst p. split; [|split; [|by apply (AR v)]].
    + rewrite DD. intros [Hx| ->]; [apply HD, (BE x); [apply elem_of_app; by left | done] | apply HD, (BE v); [apply elem_of_app; by right | done]].
    + rewrite HO'. intros [Hx _]. apply HD, (BE x); [apply elem_of_app; by right | done].
  - rewrite (bind_val _ _ _ _ _ ER). exists R'. eexists. split; [done|]. split; [destruct T; by split | cbn [npassedout modify] | cbn [nfinished]]; rewrite ?P', ?F'; cbn [npassedout nfinished s1 with_info]; rewrite ?P, ?F, ?zlen_app; change (zlen [v]) with 1; [|lia].
    apply Permutation_length in PO. unfold zlen. cbn [length] in PO. lia.
Qed.
(** Any other node is refused. *)
Lemma done_one_refused g D O R s v : working g D O R s -> v ∉ O -> done_one v s = (Raised (Exn ValueError), s).
Proof.
  intros [[K N AR RD NP KN SU CO ZE BE] P F] HO. unfold done_one. destruct (get v (node2info s)) as [i|] eqn:G; [|done]. rewrite (CO v i G). rewrite (decide_False (P := v ∈ O)) by done. destruct (decide (v ∈ D)); [done|].
  pose proof (pending_nonneg D (arcs g) v). change (occurs [] v) with 0. rewrite Z.add_0_r. destruct (Z.eqb_spec (pending D (arcs g) v) NODE_OUT) as [E|]; [unfold NODE_OUT in E; lia|]. cbn [negb]. destruct (Z.leb_spec 0 (pending D (arcs g) v)); [done | lia].
Qed.

(** * Preparing *)

(** A list of nodes, each an immediate predecessor of the next, that ends where
    it starts. *)
Definition closed_walk (g : graph) (c : list A) : Prop :=
  (forall i a b, c !! i = Some a -> c !! S i = Some b -> (a, b) ∈ arcs g) /\ (2 <= length c)%nat /\ head c = last c.
(** Every node after its predecessors. *)
Definition in_order (g : graph) (l : list A) : Prop := forall i v p, l !! i = Some v -> (p, v) ∈ arcs g -> exists j, (j < i)%nat /\ l !! j = Some p.

Lemma built_edge s g a b : built s g -> edge (node2info s) a b <-> (a, b) ∈ arcs g.
Proof.
  intros [K N AR HI _]. assert (OA : b ∈ out_arcs (arcs g) a <-> (a, b) ∈ arcs g).
  { unfold out_arcs. rewrite list_elem_of_fmap. split; [intros ([p v] & E1 & HE); apply list_elem_of_filter in HE as [E2 HE]; cbn in *; by subst | intros HE; exists (a, b); split; [done|]; by apply list_elem_of_filter]. }
  rewrite <- OA. split; [intros (i & G & HB); by destruct (HI a i G) as [<- _]|]. intros HB. destruct (proj2 (get_some a (node2info s))) as [i G]; [rewrite K; apply OA, AR in HB; tauto|]. exists i. split; [done|]. by destruct (HI a i G) as [-> _].
Qed.

(** After [prepare] the sorter works, also when there is a cycle. *)
Lemma prepare_working s g : built s g -> exists R s0, working g [] [] R s0 /\
  ((exists c, prepare s = (Raised (CycleError c), s0) /\ closed_walk g c)
   \/ prepare s = (Val tt, s0) /\ exists fin, NoDup fin /\ (forall v, v ∈ vertices g -> v ∈ fin) /\ forall i a b, fin !! i = Some a -> (a, b) ∈ arcs g -> exists j, (j < i)%nat /\ fin !! j = Some b).
Proof.
  intros B. pose proof (fun a b => built_edge s g a b B) as BE. destruct B as [K N AR HI (RD & P0 & F0)]. set (R := (filter (fun ni => npredecessors ni.2 = 0) (node2info s)).*1). exists R, (with_ready R s).
  assert (HR : forall a, a ∈ R <-> a ∈ vertices g /\ pending [] (arcs g) a = 0).
  { intros a. unfold R. rewrite list_elem_of_fmap. split.
    - intros ([b i] & -> & HE). apply list_elem_of_filter in HE as [E2 HE]. cbn in *. apply get_nodup in HE as G; [|by rewrite K]. destruct (HI b i G) as [_ E3]. split; [rewrite <- K; by eapply elem_key | lia].
    - intros [Ha Z0]. destruct (proj2 (get_some a (node2info s))) as [i G]; [by rewrite K|]. exists (a, i). split; [done|]. apply list_elem_of_filter. cbn. split; [destruct (HI a i G) as [_ ->]; done | by apply get_elem]. }
  split.
  - split; [|by cbn [with_ready npassedout]; rewrite P0 | by cbn [with_ready nfinished]; rewrite F0]. split; cbn [node2info ready_nodes with_ready app]; try done.
    + unfold R. apply (NoDup_fmap_fst_filter (node2info s)). by rewrite K.
    + intros a Ha. apply HR in Ha. tauto.
    + intros a i G. by destruct (HI a i G).
    + intros a i G. rewrite !decide_False by apply not_elem_of_nil. change (occurs [] a) with 0. destruct (HI a i G) as [_ ->]. lia.
    + intros a Ha _ _. rewrite HR. change (occurs [] a) with 0. rewrite Z.add_0_r. tauto.
    + intros a p Ha. by apply not_elem_of_nil in Ha.
  - unfold prepare. rewrite RD. fold R. destruct (find_cycle_exact (node2info s)) with (s := with_ready R s) as [(c & -> & W & L & HL)|(-> & fin & BW & NF & HF)]; [by rewrite K | intros a b HE; apply BE, AR in HE; rewrite K; tauto | done | |].
    + left. exists c. destruct c as [|x c]; [cbn in L; lia|]. split; [done|]. split; [|done]. intros i a b E1 E2. apply BE. by apply (W i).
    + right. split; [done|]. exists fin. split; [done|]. split; [intros v Hv; apply HF; by rewrite K|]. intros i a b E HE. apply (BW i a b E). by apply BE.
Qed.

(** * Any order of calls *)

Lemma done_all_working g : forall nodes D O R s, working g D O R s -> exists r D' O' R' s', done_all nodes s = (r, s') /\ working g D' O' R' s' /\ D' ++ O' ≡ₚ D ++ O.
Proof.
  induction nodes as [|v nodes IH]; intros D O R s W; [exists (Val tt), D, O, R, s; done|]. cbn [done_all]. destruct (decide (v ∈ O)) as [HO|HO].
  - destruct (done_one_working g D O R s v W HO) as (R' & s1 & E & W1). rewrite (bind_val _ _ _ _ _ E). destruct (IH _ _ _ _ W1) as (r & D' & O' & R'' & s' & -> & W' & P'). exists r, D', O', R'', s'. split; [done|]. split; [done|]. rewrite P', <- app_assoc. f_equiv. cbn [app].
    destruct W as [[_ _ _ _ NP _ _ _ _ _] _ _]. apply NoDup_app in NP as (_ & _ & NP). apply NoDup_app in NP as (NO & _ & _). symmetry. apply NoDup_Permutation; [done | constructor; [rewrite list_elem_of_filter; tauto | by apply NoDup_filter]|]. intros x. rewrite elem_of_cons, list_elem_of_filter. destruct (decide (x = v)) as [->|]; tauto.
  - exists (Raised (Exn ValueError)), D, O, R, s. unfold mbind, method_bind. rewrite (done_one_refused g D O R s v W HO). done.
Qed.
(** All that was handed out. *)
Lemma done_every g : forall nodes D O R s, working g D O R s -> NoDup nodes -> (forall v, v ∈ nodes -> v ∈ O) -> exists R' O' s', done_all nodes s = (Val tt, s') /\ working g (D ++ nodes) O' (R ++ R') s' /\ forall x, x ∈ O' <-> x ∈ O /\ x ∉ nodes.
Proof.
  induction nodes as [|v nodes IH]; intros D O R s W ND HO; [exists [], O, s; rewrite !app_nil_r; split; [done|]; split; [done|]; intros x; split; [intros Hx; split; [done | apply not_elem_of_nil] | tauto]|].
  apply NoDup_cons in ND as [NV ND]. cbn [done_all]. destruct (done_one_working g D O R s v W (HO v ltac:(by left))) as (R1 & s1 & E & W1). rewrite (bind_val _ _ _ _ _ E). destruct (IH _ _ _ _ W1 ND) as (R2 & O2 & s2 & -> & W2 & HO2).
  - intros x Hx. apply list_elem_of_filter. split; [by intros -> | apply HO; by right].
  - exists (R1 ++ R2), O2, s2. split; [done|]. rewrite <- !app_assoc in W2. split; [done|]. intros x. rewrite HO2, list_elem_of_filter, not_elem_of_cons. tauto.
Qed.

(** What is known after any calls: [h] are the nodes handed out so far, and the
    methods may be called with any nodes and may raise. *)
Inductive reachable (s0 : sorter A) : list A -> sorter A -> Prop :=
| re_start : reachable s0 [] s0
| re_get_ready h s R s' : reachable s0 h s -> get_ready s = (Val R, s') -> reachable s0 (h ++ R) s'
| re_done h s nodes r s' : reachable s0 h s -> done nodes s = (r, s') -> reachable s0 h s'
| re_add h s node preds r s' : reachable s0 h s -> add node preds s = (r, s') -> reachable s0 h s'
| re_prepare h s r s' : reachable s0 h s -> prepare s = (r, s') -> reachable s0 h s'.

Lemma reachable_working g R0 s0 h s : working g [] [] R0 s0 -> reachable s0 h s -> exists D O R, working g D O R s /\ D ++ O ≡ₚ h.
Proof.
  intros W0. induction 1 as [|h s R s' _ (D & O & R1 & W & P) E|h s nodes r s' _ (D & O & R1 & W & P) E|h s node preds r s' _ (D & O & R1 & W & P) E|h s r s' _ (D & O & R1 & W & P) E]; [by exists [], [], R0|..]; pose proof (tr_ready _ _ _ _ _ _ (wo_track _ _ _ _ _ W)) as RD.
  - destruct (get_ready_working g D O R1 s W) as (s1 & E1 & W1). rewrite E1 in E. injection E as -> ->. exists D, (O ++ R), []. split; [done|]. by rewrite app_assoc, P.
  - unfold done in E. assert (EP : prepared s = (Val R1, s)) by (unfold prepared; by rewrite RD). rewrite (bind_val _ _ _ _ _ EP) in E. destruct (done_all_working g nodes D O R1 s W) as (r' & D' & O' & R' & s1 & E1 & W1 & P1). rewrite E1 in E. injection E as -> ->. exists D', O', R'. split; [done|]. by rewrite P1.
  - unfold add in E. rewrite RD in E. injection E as <- <-. by exists D, O, R1.
  - unfold prepare in E. rewrite RD in E. injection E as <- <-. by exists D, O, R1.
Qed.

Definition is_done (s : sorter A) (v : A) : Prop := npredecessors <$> get v (node2info s) = Some NODE_DONE.
Lemma is_done_iff g D O R s v : working g D O R s -> is_done s v <-> v ∈ D.
Proof.
  intros [[K N AR RD NP KN SU CO ZE BE] P F]. unfold is_done. destruct (get v (node2info s)) as [i|] eqn:G; cbn [fmap option_fmap option_map].
  - rewrite (CO v i G). destruct (decide (v ∈ D)); [done|]. split; [|done]. intros [= E]. exfalso. destruct (decide (v ∈ O)); [done|]. pose proof (pending_nonneg D (arcs g) v). pose proof (proj1 (occurs_pos [] v)). unfold NODE_DONE in E. lia.
  - split; [done|]. intros HD. apply get_none in G. rewrite K in G. destruct G. apply KN, elem_of_app. by left.
Qed.

Lemma is_active_working g D O R s : working g D O R s -> is_active s = (Val (match O ++ R with [] => false | _ => true end), s).
Proof.
  intros [T P F]. unfold is_active. erewrite bind_val; [|unfold prepared; by rewrite (tr_ready _ _ _ _ _ _ T)]. unfold gets. rewrite P, F. do 2 f_equal. destruct O as [|x O]; [change (zlen []) with 0; rewrite Z.add_0_r, Z.ltb_irrefl; done|].
  rewrite zlen_cons. pose proof (zlen_nonneg O). by rewrite (proj2 (Z.ltb_lt _ _)) by lia.
Qed.

(** Without a cycle, nothing out and nothing ready means that all is done. *)
Lemma all_done g D s fin : working g D [] [] s -> NoDup fin -> (forall v, v ∈ vertices g -> v ∈ fin) -> (forall i a b, fin !! i = Some a -> (a, b) ∈ arcs g -> exists j, (j < i)%nat /\ fin !! j = Some b) -> forall v, v ∈ vertices g -> v ∈ D.
Proof.
  intros [[K N AR RD NP KN SU CO ZE BE] P F] NF HF BW v Hv. destruct (list_elem_of_lookup_1 _ _ (HF v Hv)) as [k Hk]. remember (length fin - k)%nat as m eqn:Em. revert v k Hv Hk Em. induction (lt_wf m) as [m _ IH]. intros v k Hv Hk Em. destruct (decide (v ∈ D)) as [|HD]; [done|]. exfalso.
  apply (not_elem_of_nil v). apply (ZE v Hv HD (not_elem_of_nil v)). change (occurs [] v) with 0. rewrite Z.add_0_r. apply pending_zero. intros p HE. destruct (AR p v HE) as [Hp _]. destruct (list_elem_of_lookup_1 _ _ (HF p Hp)) as [kp Hkp]. destruct (BW kp p v Hkp HE) as (j & Hj & Ej).
  assert (j = k) as -> by (by apply (NoDup_lookup fin _ _ v)). pose proof (lookup_lt_Some _ _ _ Hkp). by apply (IH (length fin - kp)%nat ltac:(lia) p kp).
Qed.

Lemma in_order_app g D R : in_order g D -> (forall v p, v ∈ R -> (p, v) ∈ arcs g -> p ∈ D) -> in_order g (D ++ R).
Proof.
  intros I HR i v p E HE. apply lookup_app_Some in E as [E|[L E]]; [destruct (I i v p E HE) as (j & Hj & Ej); exists j; split; [done | by apply lookup_app_l_Some]|]. destruct (list_elem_of_lookup_1 _ _ (HR v p ltac:(by eapply list_elem_of_lookup_2) HE)) as [j Hj].
  exists j. pose proof (lookup_lt_Some _ _ _ Hj). split; [lia | by apply lookup_app_l_Some].
Qed.

Lemma order_loop_working g fin fuel : NoDup fin -> (forall v, v ∈ vertices g -> v ∈ fin) -> (forall i a b, fin !! i = Some a -> (a, b) ∈ arcs g -> exists j, (j < i)%nat /\ fin !! j = Some b) ->
  forall D R s, working g D [] R s -> in_order g D -> (length (vertices g) < fuel + length D)%nat ->
  exists l s', order_loop fuel s = (Val l, s') /\ D ++ l ≡ₚ vertices g /\ in_order g (D ++ l).
Proof.
  intros NF HF BW. induction fuel as [|fuel IH]; intros D R s W I HL.
  - exfalso. destruct W as [[K N AR RD NP KN SU CO ZE BE] _ _]. cbn [app] in *. assert (length D <= length (vertices g))%nat; [|lia]. apply NoDup_app in NP as (ND & _ & _). apply submseteq_length, NoDup_submseteq; [done|]. intros x Hx. apply KN, elem_of_app. by left.
  - cbn [order_loop]. rewrite (bind_val _ _ _ _ _ (is_active_working g D [] R s W)). cbn [app]. destruct R as [|x R].
    + exists [], s. split; [done|]. rewrite app_nil_r. split; [|done]. pose proof (all_done g D s fin W NF HF BW) as AD. destruct W as [[K N AR RD NP KN SU CO ZE BE] _ _]. apply NoDup_app in NP as (ND & _ & _). apply NoDup_Permutation; [done | done|]. intros v. split; [intros Hv; apply KN, elem_of_app; by left | apply AD].
    + destruct (get_ready_working g D [] (x :: R) s W) as (s1 & E1 & W1). cbn [app] in W1. rewrite (bind_val _ _ _ _ _ E1). pose proof (wo_track _ _ _ _ _ W1) as T1. pose proof (tr_parts _ _ _ _ _ _ T1) as NP. apply NoDup_app in NP as (_ & _ & NP). rewrite app_nil_r in NP.
      destruct (done_every g (x :: R) D (x :: R) [] s1 W1 NP ltac:(done)) as (R' & O' & s2 & E2 & W2 & HO). assert (O' = []) as -> by (apply elem_of_nil_inv; intros v Hv; apply HO in Hv; tauto). cbn [app] in W2.
      assert (ED : done (x :: R) s1 = (Val tt, s2)) by (unfold done; erewrite bind_val; [exact E2 | unfold prepared; by rewrite (tr_ready _ _ _ _ _ _ T1)]). rewrite (bind_val _ _ _ _ _ ED).
      destruct (IH (D ++ x :: R) R' s2 W2) as (l & s3 & E3 & P3 & I3); [apply in_order_app; [done|]; intros v p Hv HE; apply (tr_before _ _ _ _ _ _ T1 v p); [apply elem_of_app; by right | done] | rewrite length_app; cbn [length]; lia|].
      rewrite (bind_val _ _ _ _ _ E3). exists ((x :: R) ++ l), s3. rewrite app_assoc. done.
Qed.
End order.

(** C16: [static_order] of the sorter for a graph: when the graph has a cycle it
    raises [CycleError] with a cycle of the graph, and otherwise it returns and
    gives every node once, after all its predecessors. *)
Theorem static_order_sorts `{Countable A} (items : list (A * list A)) :
  let g := graph_of items in
  exists r s, (_ ← add_all items; static_order) new = (r, s) /\
    ((exists c, r = Raised (CycleError c) /\ closed_walk g c)
     \/ (forall c, ~ closed_walk g c) /\ exists l, r = Val l /\ l ≡ₚ vertices g /\ in_order g l).
Proof.
  intros g. destruct (add_all_built items) as (s1 & E1 & B). fold g in B. rewrite (bind_val _ _ _ _ _ E1). destruct (prepare_working s1 g B) as (R & s0 & W & [(c & E & HC)|(E & fin & NF & HF & BW)]); unfold static_order.
  - unfold mbind, method_bind. rewrite E. do 2 eexists. split; [done|]. left. by exists c.
  - rewrite (bind_val _ _ _ _ _ E). destruct (order_loop_working g fin (S (length (node2info s1))) NF HF BW [] R s0 W) as (l & s' & -> & P & I); [intros i v p; by destruct i | rewrite <- (bu_keys _ _ B), length_fmap; cbn; lia|].
    do 2 eexists. split; [done|]. right. split; [|by exists l]. intros c (W' & L & HL). apply (backwards_acyclic (node2info s1) fin c); [|done | |split; [|done]].
    + intros i a b Ei HE. apply (BW i a b Ei). by apply (built_edge s1 g).
    + intros a b HE. apply (built_edge s1 g) in HE; [|done]. apply HF. by apply (bu_arcs _ _ B) in HE as [].
    + intros i a b E2 E3. apply (built_edge s1 g); [done|]. by apply (W' i).
Qed.

(** C17: Whatever is called after [prepare], and whether or not it found a cycle:
    [get_ready] returns, hands out no node a second time, and only nodes all of
    whose predecessors have been marked done. *)
Theorem handed_out_once `{Countable A} (items : list (A * list A)) h s :
  reachable (snd ((_ ← add_all items; prepare) new)) h s ->
  exists R s', get_ready s = (Val R, s') /\ NoDup (h ++ R)
    /\ forall v, v ∈ R -> v ∈ vertices (graph_of items) /\ forall p, (p, v) ∈ arcs (graph_of items) -> is_done s p.
Proof.
  destruct (add_all_built items) as (s1 & E1 & B). rewrite (bind_val _ _ _ _ _ E1). intros HR. destruct (prepare_working s1 _ B) as (R0 & s0 & W0 & HP). assert (E0 : snd (prepare s1) = s0) by (destruct HP as [(c & -> & _)|(-> & _)]; done). rewrite E0 in HR.
  destruct (reachable_working _ _ _ _ _ W0 HR) as (D & O & R & W & P). destruct (get_ready_working _ _ _ _ _ W) as (s' & E & W'). exists R, s'. split; [done|]. pose proof (wo_track _ _ _ _ _ W) as T. split; [rewrite <- P, <- app_assoc; apply T|].
  intros v Hv. split; [apply T; rewrite !elem_of_app; tauto|]. intros p HE. apply (is_done_iff _ _ _ _ _ _ W). apply (tr_before _ _ _ _ _ _ (wo_track _ _ _ _ _ W') v); [rewrite !elem_of_app; tauto | done].
Qed.

(** C18: After a [prepare] that found no cycle, and whatever is called then:
    [is_active] is false exactly when every node is done. While it is true and
    all that was handed out is done, [get_ready] hands out another node, so
    that a client that keeps marking what it gets comes to the end. *)
Theorem active_until_done `{Countable A} (items : list (A * list A)) h s :
  fst ((_ ← add_all items; prepare) new) = Val tt -> reachable (snd ((_ ← add_all items; prepare) new)) h s ->
  exists active, is_active s = (Val active, s)
    /\ (active = false <-> forall v, v ∈ vertices (graph_of items) -> is_done s v)
    /\ (active = true -> (forall v, v ∈ h -> is_done s v) -> exists v R s', get_ready s = (Val (v :: R), s')).
Proof.
  destruct (add_all_built items) as (s1 & E1 & B). rewrite (bind_val _ _ _ _ _ E1). intros HV HR. destruct (prepare_working s1 _ B) as (R0 & s0 & W0 & [(c & E & _)|(E & fin & NF & HF & BW)]); rewrite E in *; [done|]. cbn [snd] in HR.
  destruct (reachable_working _ _ _ _ _ W0 HR) as (D & O & R & W & P). pose proof (fun v => is_done_iff _ _ _ _ _ v W) as ID. pose proof (wo_track _ _ _ _ _ W) as T. pose proof (tr_parts _ _ _ _ _ _ T) as NP. apply NoDup_app in NP as (_ & NP & _). eexists. split; [exact (is_active_working _ _ _ _ _ W)|]. split.
  - destruct (O ++ R) as [|x k] eqn:EO.
    + apply app_nil in EO as [-> ->]. split; [|done]. intros _ v Hv. apply ID. by apply (all_done _ D s fin W NF HF BW).
    + split; [done|]. intros HD. exfalso. assert (Hx : x ∈ x :: k) by left. assert (x ∈ D) as Dx by (apply ID, HD, (tr_known _ _ _ _ _ _ T); rewrite EO; apply elem_of_app; by right). by apply (NP x Dx).
  - intros HA HH. assert (O = []) as ->.
    { apply elem_of_nil_inv. intros v Hv. assert (v ∈ D) as Dv by (apply ID, HH; rewrite <- P; apply elem_of_app; by right). apply (NP v Dv). apply elem_of_app. by left. }
    destruct R as [|v R]; [done|]. destruct (get_ready_working _ _ _ _ _ W) as (s' & -> & _). by exists v, R, s'.
Qed.

(** A node with two predecessors, one of them done. *)
Definition small_items : list (Z * list Z) := [(3, [1; 2])].
Definition small_prepared : sorter Z := snd ((_ ← add_all small_items; prepare) new).
Definition small_later : sorter Z := snd (done [1; 7] (snd (get_ready small_prepared))).
Lemma small_reachable : reachable small_prepared [1; 2] small_later.
Proof.
  apply (re_done small_prepared [1; 2] (snd (get_ready small_prepared)) [1; 7] (Raised (Exn ValueError))); [|vm_compute; reflexivity].
  apply (re_get_ready small_prepared [] small_prepared [1; 2]); [apply re_start | vm_compute; reflexivity].
Qed.
Lemma handed_out_once_witness : is_done small_later 1 /\ exists R s', get_ready small_later = (Val R, s') /\ NoDup ([1; 2] ++ R) /\ forall v, v ∈ R -> v ∈ [3; 1; 2] /\ forall p, (p, v) ∈ [(1, 3); (2, 3)] -> is_done small_later p.
Proof. split; [vm_compute; reflexivity|]. exact (handed_out_once small_items [1; 2] small_later small_reachable). Defined.
Lemma active_until_done_witness : is_done small_later 1 /\ is_active small_later = (Val true, small_later).
Proof.
  split; [vm_compute; reflexivity|]. assert (V : fst ((_ ← add_all small_items; prepare) (new (A := Z))) = Val tt) by (vm_compute; reflexivity). destruct (active_until_done small_items [1; 2] small_later V small_reachable) as ([|] & E & F & _); [exact E|].
  assert (V2 : 2 ∈ vertices (graph_of small_items)) by (vm_compute; right; right; left). pose proof (proj1 F eq_refl 2 V2) as D2. vm_compute in D2. discriminate D2.
Defined.
