(* ===== verification/Order.v ===== *)
(** Order: what the modules of the shipped Python that compare items with [<]
    ask of the comparison. *)
From Stdlib Require Import ZArith Lia List.
From stdpp Require Import base list.
Open Scope Z_scope.

(** [a < b] orders items, some of which may rank the same. *)
Class WeakOrder {A} (less : A -> A -> bool) : Prop := {
  less_irrefl : forall a, less a a = false;
  less_trans : forall a b c, less a b = true -> less b c = true -> less a c = true;
  less_cotrans : forall a b c, less a c = true -> less a b = true \/ less b c = true
}.

Section weak.
Context {A} (less : A -> A -> bool) `{!WeakOrder less}.

Lemma less_asym a b : less a b = true -> less b a = false.
Proof. intros H1. destruct (less b a) eqn:H2; [|done]. pose proof (less_trans _ _ _ H1 H2) as F. by rewrite less_irrefl in F. Qed.
(** [not less b a] is [a <= b]. *)
Lemma not_less_trans a b c : less b a = false -> less c b = false -> less c a = false.
Proof. intros H1 H2. destruct (less c a) eqn:H3; [|done]. apply (less_cotrans _ b) in H3 as [|]; congruence. Qed.
Lemma less_not_less a b c : less a b = true -> less c b = false -> less a c = true.
Proof. intros H1 H2. apply (less_cotrans _ c) in H1 as [|]; congruence. Qed.
Lemma not_less_less a b c : less b a = false -> less b c = true -> less a c = true.
Proof. intros H1 H2. apply (less_cotrans _ a) in H2 as [|]; congruence. Qed.
End weak.

Lemma less_flip {A} (less : A -> A -> bool) `{!WeakOrder less} : WeakOrder (fun a b => less b a).
Proof. split; [apply less_irrefl | intros a b c H1 H2; by apply (less_trans _ b) | intros a b c H; apply (less_cotrans _ b) in H; tauto]. Qed.
Lemma less_by {A K} (key : A -> K) (less : K -> K -> bool) `{!WeakOrder less} : WeakOrder (fun a b => less (key a) (key b)).
Proof. split; [intros a; apply less_irrefl | intros a b c; apply less_trans | intros a b c; apply less_cotrans]. Qed.
#[export] Instance less_Z : WeakOrder Z.ltb.
Proof. split; intros *; rewrite ?Z.ltb_lt; lia. Qed.

(** No item is less than one before it. *)
Definition ascending {A} (less : A -> A -> bool) (l : list A) : Prop :=
  forall i j x y, (i < j)%nat -> l !! i = Some x -> l !! j = Some y -> less y x = false.
