(* ===== verification/Bisect.v ===== *)
(** Bisect: bisect.py of the shipped Python.

    [Bisect] is the module. Items are of any type with a key and a comparison
    of keys; [key=None] is the identity. *)
From Stdlib Require Import ZArith Lia List.
From stdpp Require Import base list gmap strings.
From S2P Require Import Prelude Order.
Open Scope Z_scope.

Module Bisect.
Section bisect.
Context {A K : Type} (less : K -> K -> bool) (key : A -> K).

(** The loop of [bisect_right]; the range shrinks in every round. *)
Fixpoint right_loop (fuel : nat) (a : list A) (x : K) (lo hi : Z) : py Z :=
  match fuel with
  | O => NoFuel
  | S fuel =>
      if lo <? hi then
        let mid := (lo + hi) / 2 in
        e ← pyget a mid;
        if less x (key e) then right_loop fuel a x lo mid
        else right_loop fuel a x (mid + 1) hi
      else Ret lo
  end.
Definition bisect_right (a : list A) (x : K) (lo : Z) (hi : option Z) : py Z :=
  if lo <? 0 then Raise ValueError
  else
    let hi := default (zlen a) hi in
    right_loop (S (Z.to_nat (hi - lo))) a x lo hi.

Fixpoint left_loop (fuel : nat) (a : list A) (x : K) (lo hi : Z) : py Z :=
  match fuel with
  | O => NoFuel
  | S fuel =>
      if lo <? hi then
        let mid := (lo + hi) / 2 in
        e ← pyget a mid;
        if less (key e) x then left_loop fuel a x (mid + 1) hi
        else left_loop fuel a x lo mid
      else Ret lo
  end.
Definition bisect_left (a : list A) (x : K) (lo : Z) (hi : option Z) : py Z :=
  if lo <? 0 then Raise ValueError
  else
    let hi := default (zlen a) hi in
    left_loop (S (Z.to_nat (hi - lo))) a x lo hi.

(** [a.insert(i, x)] with [i >= 0]. *)
Definition insert_at (a : list A) (i : Z) (x : A) : list A := take (Z.to_nat i) a ++ x :: drop (Z.to_nat i) a.

Definition insort_right (a : list A) (x : A) (lo : Z) (hi : option Z) : py (list A) :=
  lo ← bisect_right a (key x) lo hi;
  Ret (insert_at a lo x).
Definition insort_left (a : list A) (x : A) (lo : Z) (hi : option Z) : py (list A) :=
  lo ← bisect_left a (key x) lo hi;
  Ret (insert_at a lo x).
End bisect.
End Bisect.

Import Bisect.

(** * Splitting a range *)

Section spec.
Context {A K : Type} (less : K -> K -> bool) `{!WeakOrder less} (key : A -> K).
#[warnings="-notation-for-abbreviation"] Local Notation sorted := (ascending (fun p q => less (key p) (key q))).

(** From [i] to [j], items satisfy [P]. *)
Definition between_all (a : list A) (i j : Z) (P : A -> Prop) : Prop := forall k e, i <= k < j -> a !! Z.to_nat k = Some e -> P e.

(** Whatever the comparison says, the loops return within the range. *)
Lemma right_loop_returns fuel a x : forall lo hi, 0 <= lo -> hi <= zlen a -> Z.max 0 (hi - lo) < Z.of_nat fuel ->
  exists i, right_loop less key fuel a x lo hi = Ret i /\ lo <= i <= Z.max lo hi.
Proof.
  induction fuel as [|fuel IH]; intros lo hi H0 HH HF; [lia|cbn [right_loop]; destruct (Z.ltb_spec lo hi) as [HL|HL]; [|exists lo; split; [done | lia]]].
  pose proof (Z.div_mod (lo + hi) 2 ltac:(lia)). pose proof (Z.mod_pos_bound (lo + hi) 2 ltac:(lia)). destruct (pyget_Some a ((lo + hi) / 2)) as (e & -> & _); [lia|]. cbn [mbind py_bind].
  destruct (less x (key e)); [destruct (IH lo ((lo + hi) / 2)) as (i & -> & ?) | destruct (IH ((lo + hi) / 2 + 1) hi) as (i & -> & ?)]; try lia; exists i; split; (done || lia).
Qed.
Lemma left_loop_returns fuel a x : forall lo hi, 0 <= lo -> hi <= zlen a -> Z.max 0 (hi - lo) < Z.of_nat fuel ->
  exists i, left_loop less key fuel a x lo hi = Ret i /\ lo <= i <= Z.max lo hi.
Proof.
  induction fuel as [|fuel IH]; intros lo hi H0 HH HF; [lia|cbn [left_loop]; destruct (Z.ltb_spec lo hi) as [HL|HL]; [|exists lo; split; [done | lia]]].
  pose proof (Z.div_mod (lo + hi) 2 ltac:(lia)). pose proof (Z.mod_pos_bound (lo + hi) 2 ltac:(lia)). destruct (pyget_Some a ((lo + hi) / 2)) as (e & -> & _); [lia|]. cbn [mbind py_bind].
  destruct (less (key e) x); [destruct (IH ((lo + hi) / 2 + 1) hi) as (i & -> & ?) | destruct (IH lo ((lo + hi) / 2)) as (i & -> & ?)]; try lia; exists i; split; (done || lia).
Qed.

(** On a sorted list they split the range at [x]. *)
Lemma right_loop_splits fuel a x : sorted a -> forall lo hi i, 0 <= lo -> right_loop less key fuel a x lo hi = Ret i ->
  between_all a lo i (fun e => less x (key e) = false) /\ between_all a i hi (fun e => less x (key e) = true).
Proof.
  intros SA. induction fuel as [|fuel IH]; intros lo hi i H0; [done|]. cbn [right_loop]. destruct (Z.ltb_spec lo hi) as [HL|HL]; [|intros [= <-]; split; intros k e Hk; lia].
  pose proof (Z.div_mod (lo + hi) 2 ltac:(lia)). pose proof (Z.mod_pos_bound (lo + hi) 2 ltac:(lia)). set (mid := (lo + hi) / 2) in *. destruct (pyget a mid) as [e| |] eqn:EG; [|done..]. apply pyget_ret in EG; [|lia]. cbn [mbind py_bind]. destruct (less x (key e)) eqn:EL; intros E.
  - destruct (IH lo mid i H0 E) as [I1 I2]. split; [done|]. intros k f Hk Ef. destruct (Z.lt_ge_cases k mid) as [|G]; [by apply (I2 k); [lia|]|]. destruct (decide (k = mid)) as [->|]; [by rewrite EG in Ef; injection Ef as <-|].
    apply (less_not_less _ _ _ _ EL). exact (SA (Z.to_nat mid) (Z.to_nat k) e f ltac:(lia) EG Ef).
  - destruct (IH (mid + 1) hi i ltac:(lia) E) as [I1 I2]. split; [|done]. intros k f Hk Ef. destruct (Z.lt_ge_cases mid k) as [|G]; [by apply (I1 k); [lia|]|]. destruct (decide (k = mid)) as [->|]; [by rewrite EG in Ef; injection Ef as <-|].
    apply (not_less_trans _ _ (key e)); [exact (SA (Z.to_nat k) (Z.to_nat mid) f e ltac:(lia) Ef EG) | done].
Qed.
Lemma left_loop_splits fuel a x : sorted a -> forall lo hi i, 0 <= lo -> left_loop less key fuel a x lo hi = Ret i ->
  between_all a lo i (fun e => less (key e) x = true) /\ between_all a i hi (fun e => less (key e) x = false).
Proof.
  intros SA. induction fuel as [|fuel IH]; intros lo hi i H0; [done|]. cbn [left_loop]. destruct (Z.ltb_spec lo hi) as [HL|HL]; [|intros [= <-]; split; intros k e Hk; lia].
  pose proof (Z.div_mod (lo + hi) 2 ltac:(lia)). pose proof (Z.mod_pos_bound (lo + hi) 2 ltac:(lia)). set (mid := (lo + hi) / 2) in *. destruct (pyget a mid) as [e| |] eqn:EG; [|done..]. apply pyget_ret in EG; [|lia]. cbn [mbind py_bind]. destruct (less (key e) x) eqn:EL; intros E.
  - destruct (IH (mid + 1) hi i ltac:(lia) E) as [I1 I2]. split; [|done]. intros k f Hk Ef. destruct (Z.lt_ge_cases mid k) as [|G]; [by apply (I1 k); [lia|]|]. destruct (decide (k = mid)) as [->|]; [by rewrite EG in Ef; injection Ef as <-|].
    apply (not_less_less _ _ (key e)); [exact (SA (Z.to_nat k) (Z.to_nat mid) f e ltac:(lia) Ef EG) | done].
  - destruct (IH lo mid i H0 E) as [I1 I2]. split; [done|]. intros k f Hk Ef. destruct (Z.lt_ge_cases k mid) as [|G]; [by apply (I2 k); [lia|]|]. destruct (decide (k = mid)) as [->|]; [by rewrite EG in Ef; injection Ef as <-|].
    apply (not_less_trans _ _ (key e)); [done | exact (SA (Z.to_nat mid) (Z.to_nat k) e f ltac:(lia) EG Ef)].
Qed.

Lemma bisect_right_spec a x lo hi : 0 <= lo -> default (zlen a) hi <= zlen a -> exists i, bisect_right less key a x lo hi = Ret i /\ lo <= i <= Z.max lo (default (zlen a) hi)
  /\ (sorted a -> between_all a lo i (fun e => less x (key e) = false) /\ between_all a i (default (zlen a) hi) (fun e => less x (key e) = true)).
Proof.
  intros H0 HH. unfold bisect_right. rewrite (proj2 (Z.ltb_ge lo 0)) by done. set (h := default (zlen a) hi) in *. destruct (right_loop_returns (S (Z.to_nat (h - lo))) a x lo h H0 HH ltac:(lia)) as (i & E & B). exists i. split; [done|]. split; [done|]. intros SA. by eapply right_loop_splits.
Qed.
Lemma bisect_left_spec a x lo hi : 0 <= lo -> default (zlen a) hi <= zlen a -> exists i, bisect_left less key a x lo hi = Ret i /\ lo <= i <= Z.max lo (default (zlen a) hi)
  /\ (sorted a -> between_all a lo i (fun e => less (key e) x = true) /\ between_all a i (default (zlen a) hi) (fun e => less (key e) x = false)).
Proof.
  intros H0 HH. unfold bisect_left. rewrite (proj2 (Z.ltb_ge lo 0)) by done. set (h := default (zlen a) hi) in *. destruct (left_loop_returns (S (Z.to_nat (h - lo))) a x lo h H0 HH ltac:(lia)) as (i & E & B). exists i. split; [done|]. split; [done|]. intros SA. by eapply left_loop_splits.
Qed.

(** Inserting between what is not greater and what is not less. *)
Lemma insert_sorted a i x : sorted a -> 0 <= i <= zlen a -> between_all a 0 i (fun e => less (key x) (key e) = false) -> between_all a i (zlen a) (fun e => less (key e) (key x) = false) -> sorted (insert_at a i x) /\ insert_at a i x ≡ₚ x :: a.
Proof.
  intros SA Hi B1 B2. unfold insert_at. assert (LT : length (take (Z.to_nat i) a) = Z.to_nat i) by (rewrite length_take; unfold zlen in Hi; lia). split; [|rewrite <- Permutation_middle; f_equiv; by rewrite take_drop].
  assert (AT : forall j y, (take (Z.to_nat i) a ++ x :: drop (Z.to_nat i) a) !! j = Some y -> (j < Z.to_nat i)%nat /\ a !! j = Some y \/ j = Z.to_nat i /\ y = x \/ (Z.to_nat i < j)%nat /\ a !! (j - 1)%nat = Some y).
  { intros j y E. apply lookup_app_Some in E as [E|[L E]]; [apply lookup_take_Some in E; left; tauto|]. rewrite LT in *. destruct (j - Z.to_nat i)%nat as [|k] eqn:Ek; [right; left; split; [lia | by injection E as ->]|]. right. right. split; [lia|]. change (drop (Z.to_nat i) a !! k = Some y) in E. rewrite lookup_drop in E. rewrite <- E. f_equal. lia. }
  intros j k y z Hjk Ey Ez. apply AT in Ey, Ez. destruct Ey as [[L1 E1]|[[L1 ->]|[L1 E1]]], Ez as [[L2 E2]|[[L2 ->]|[L2 E2]]]; try lia.
  - exact (SA j k y z Hjk E1 E2).
  - apply (B1 (Z.of_nat j)); [lia | by rewrite Nat2Z.id].
  - exact (SA j (k - 1)%nat y z ltac:(lia) E1 E2).
  - apply (B2 (Z.of_nat (k - 1))); [apply lookup_lt_Some in E2; unfold zlen; lia | by rewrite Nat2Z.id].
  - exact (SA (j - 1)%nat (k - 1)%nat y z ltac:(lia) E1 E2).
Qed.
End spec.

(** On a list that is sorted by its keys, within any bounds the list has:
    [bisect_right] returns the place after all items not greater than [x] and
    before all greater ones, [bisect_left] the place after all smaller and
    before all others; a negative [lo] is an error. *)
Theorem bisect_places {A K} (less : K -> K -> bool) `{!WeakOrder less} (key : A -> K) a x lo hi :
  ascending (fun p q => less (key p) (key q)) a -> default (zlen a) hi <= zlen a ->
  if lo <? 0 then bisect_right less key a x lo hi = Raise ValueError /\ bisect_left less key a x lo hi = Raise ValueError
  else
    (exists i, bisect_right less key a x lo hi = Ret i /\ lo <= i <= Z.max lo (default (zlen a) hi)
       /\ between_all a lo i (fun e => less x (key e) = false) /\ between_all a i (default (zlen a) hi) (fun e => less x (key e) = true))
    /\ exists i, bisect_left less key a x lo hi = Ret i /\ lo <= i <= Z.max lo (default (zlen a) hi)
       /\ between_all a lo i (fun e => less (key e) x = true) /\ between_all a i (default (zlen a) hi) (fun e => less (key e) x = false).
Proof.
  intros SA HH. destruct (Z.ltb_spec lo 0) as [H|H]; [unfold bisect_right, bisect_left; by rewrite (proj2 (Z.ltb_lt lo 0))|].
  destruct (bisect_right_spec less key a x lo hi H HH) as (i & E1 & B1 & S1). destruct (bisect_left_spec less key a x lo hi H HH) as (j & E2 & B2 & S2). split; [exists i | exists j]; (split; [done|]); (split; [done|]); [by apply S1 | by apply S2].
Qed.

Lemma bisect_places_witness :
  (exists i, bisect_right Z.ltb id [1; 3; 3; 5] 3 0 None = Ret i /\ i = 3) /\ exists i, bisect_left Z.ltb id [1; 3; 3; 5] 3 0 None = Ret i /\ i = 1.
Proof.
  assert (SA : ascending (fun p q => id p <? id q) [1; 3; 3; 5]) by (intros [|[|[|[|]]]] [|[|[|[|]]]] x y; cbn; intros; simplify_eq; (reflexivity || lia)).
  destruct (bisect_places Z.ltb id [1; 3; 3; 5] 3 0 None SA ltac:(cbn; lia)) as [(i & E1 & _) (j & E2 & _)]. split; [exists i; split; [exact E1|]; vm_compute in E1; by injection E1 | exists j; split; [exact E2|]; vm_compute in E2; by injection E2].
Defined.

(** C22: Inserting into the whole of a sorted list keeps it sorted; the item comes
    after those with the same key from the right, and before them from the
    left. *)
Theorem insort_keeps_sorted {A K} (less : K -> K -> bool) `{!WeakOrder less} (key : A -> K) a x :
  ascending (fun p q => less (key p) (key q)) a ->
  (exists l r, insort_right less key a x 0 None = Ret (l ++ x :: r) /\ a = l ++ r /\ ascending (fun p q => less (key p) (key q)) (l ++ x :: r)
     /\ Forall (fun e => less (key x) (key e) = false) l /\ Forall (fun e => less (key x) (key e) = true) r)
  /\ exists l r, insort_left less key a x 0 None = Ret (l ++ x :: r) /\ a = l ++ r /\ ascending (fun p q => less (key p) (key q)) (l ++ x :: r)
     /\ Forall (fun e => less (key e) (key x) = true) l /\ Forall (fun e => less (key e) (key x) = false) r.
Proof.
  intros SA. pose proof (zlen_nonneg a).
  assert (FA : forall i P, 0 <= i <= zlen a -> between_all a 0 i P -> Forall P (take (Z.to_nat i) a)) by (intros i P Hi B; apply Forall_lookup; intros k e E; apply lookup_take_Some in E as [E L]; apply (B (Z.of_nat k)); [lia | by rewrite Nat2Z.id]).
  assert (FB : forall i P, 0 <= i <= zlen a -> between_all a i (zlen a) P -> Forall P (drop (Z.to_nat i) a)) by (intros i P Hi B; apply Forall_lookup; intros k e E; rewrite lookup_drop in E; pose proof (lookup_lt_Some _ _ _ E); apply (B (Z.of_nat (Z.to_nat i + k))); [unfold zlen in *; lia | by rewrite Nat2Z.id]).
  destruct (bisect_right_spec less key a (key x) 0 None ltac:(lia) ltac:(cbn; lia)) as (i & E1 & B1 & S1). destruct (bisect_left_spec less key a (key x) 0 None ltac:(lia) ltac:(cbn; lia)) as (j & E2 & B2 & S2). cbn [default] in *. destruct (S1 SA) as [S1a S1b]. destruct (S2 SA) as [S2a S2b].
  rewrite Z.max_r in B1, B2 by lia. split.
  - exists (take (Z.to_nat i) a), (drop (Z.to_nat i) a). unfold insort_right. rewrite E1. split; [done|]. split; [by rewrite take_drop|]. split; [|split; [by apply FA | by apply FB]]. apply insert_sorted; [done | done | done|]. intros k e Hk Ek. apply less_asym; [done|]. by apply (S1b k).
  - exists (take (Z.to_nat j) a), (drop (Z.to_nat j) a). unfold insort_left. rewrite E2. split; [done|]. split; [by rewrite take_drop|]. split; [|split; [by apply FA | by apply FB]]. apply insert_sorted; [done | done | | done]. intros k e Hk Ek. apply less_asym; [done|]. by apply (S2a k).
Qed.

(** Pairs compared by their first part: the place among equals shows. *)
Lemma insort_keeps_sorted_witness :
  insort_right Z.ltb fst [(1, 1); (3, 2); (5, 3)] (3, 9) 0 None = Ret [(1, 1); (3, 2); (3, 9); (5, 3)]
  /\ exists l r, insort_right Z.ltb fst [(1, 1); (3, 2); (5, 3)] (3, 9) 0 None = Ret (l ++ (3, 9) :: r) /\ [(1, 1); (3, 2); (5, 3)] = l ++ r.
Proof.
  split; [vm_compute; reflexivity|]. assert (SA : ascending (fun p q : Z * Z => p.1 <? q.1) [(1, 1); (3, 2); (5, 3)]) by (intros [|[|[|]]] [|[|[|]]] x y; cbn; intros; simplify_eq; (reflexivity || lia)).
  destruct (insort_keeps_sorted Z.ltb fst [(1, 1); (3, 2); (5, 3)] (3, 9) SA) as [(l & r & E & EA & _) _]. exists l, r. split; [exact E | exact EA].
Defined.
