(* ===== verification/Heap.v ===== *)
(** Heap: heapq.py of the shipped Python, the priority queue.

    [Heapq] is the module. A heap is a list that the functions change in place:
    they return it with their result. The functions for heaps with the greatest
    item first are those with the least first, with the comparison the other way
    round, as the source writes them. *)
From Stdlib Require Import ZArith Lia List.
From stdpp Require Import base list gmap strings.
From S2P Require Import Prelude Text Order.
Open Scope Z_scope.

Module Heapq.

Section heap.
Context {A : Type} (less : A -> A -> bool).

(** ** Sifting *)

(** The loop [while pos > startpos]: the heap and where it stops. *)
Fixpoint siftdown_loop (fuel : nat) (heap : list A) (startpos pos : Z) (newitem : A) : py (list A * Z) :=
  match fuel with
  | O => NoFuel
  | S fuel =>
      if startpos <? pos then
        let parentpos := Z.shiftr (pos - 1) 1 in
        parent ← pyget heap parentpos;
        if less newitem parent then
          heap ← pyset heap pos parent;
          siftdown_loop fuel heap startpos parentpos newitem
        else Ret (heap, pos)
      else Ret (heap, pos)
  end.
Definition siftdown (heap : list A) (startpos pos : Z) : py (list A) :=
  newitem ← pyget heap pos;
  '(heap, pos) ← siftdown_loop (S (Z.to_nat pos)) heap startpos pos newitem;
  pyset heap pos newitem.

(** The loop [while childpos < endpos]. *)
Fixpoint siftup_loop (fuel : nat) (heap : list A) (endpos pos : Z) : py (list A * Z) :=
  match fuel with
  | O => NoFuel
  | S fuel =>
      let childpos := 2 * pos + 1 in
      if childpos <? endpos then
        let rightpos := childpos + 1 in
        childpos ←
          (if rightpos <? endpos then
             left ← pyget heap childpos;
             right ← pyget heap rightpos;
             Ret (if negb (less left right) then rightpos else childpos)
           else Ret childpos);
        child ← pyget heap childpos;
        heap ← pyset heap pos child;
        siftup_loop fuel heap endpos childpos
      else Ret (heap, pos)
  end.
Definition siftup (heap : list A) (pos : Z) : py (list A) :=
  let endpos := zlen heap in
  let startpos := pos in
  newitem ← pyget heap pos;
  '(heap, pos) ← siftup_loop (S (length heap)) heap endpos pos;
  heap ← pyset heap pos newitem;
  siftdown heap startpos pos.

(** ** The queue *)

Definition heappush (heap : list A) (item : A) : py (list A) :=
  let heap := heap ++ [item] in
  siftdown heap 0 (zlen heap - 1).

(** [heap.pop()]. *)
Definition pop (heap : list A) : py (A * list A) :=
  match last heap with
  | Some x => Ret (x, removelast heap)
  | None => Raise IndexError
  end.

Definition heappop (heap : list A) : py (A * list A) :=
  '(lastelt, heap) ← pop heap;
  match heap with
  | [] => Ret (lastelt, heap)
  | _ =>
      returnitem ← pyget heap 0;
      heap ← pyset heap 0 lastelt;
      heap ← siftup heap 0;
      Ret (returnitem, heap)
  end.

Definition heapreplace (heap : list A) (item : A) : py (A * list A) :=
  returnitem ← pyget heap 0;
  heap ← pyset heap 0 item;
  heap ← siftup heap 0;
  Ret (returnitem, heap).

Definition heappushpop (heap : list A) (item : A) : py (A * list A) :=
  match heap with
  | [] => Ret (item, heap)
  | first :: _ =>
      if less first item then
        heap ← pyset heap 0 item;
        heap ← siftup heap 0;
        Ret (first, heap)
      else Ret (item, heap)
  end.

Definition heapify (x : list A) : py (list A) := foldM siftup x (rev (pyrange 0 (zlen x / 2))).
End heap.

(** ** The other way round *)

Section max.
Context {A : Type} (less : A -> A -> bool).
Definition more (a b : A) : bool := less b a.
Definition siftdown_max : list A -> Z -> Z -> py (list A) := siftdown more.
Definition siftup_max : list A -> Z -> py (list A) := siftup more.
Definition heappop_max : list A -> py (A * list A) := heappop more.
Definition heapreplace_max : list A -> A -> py (A * list A) := heapreplace more.
Definition heapify_max : list A -> py (list A) := heapify more.
End max.

(** ** Merging and choosing *)

(** [sorted(l, key=key)] and [l.sort()] are stable. *)
Definition sorted_by {A} (less : A -> A -> bool) (l : list A) : list A := sort_by (fun a b => negb (less b a)) l.

Section items.
Context {V K : Type} (less : K -> K -> bool) (eqb : K -> K -> bool) (key : V -> K).

(** The list [[key_value, order, value, next]], with what the iterator has yet
    to give, and the tuple [(key, order, elem)]; when there is no key the item is
    its own. *)
Definition entry : Type := K * Z * V * list V.
Definition tagged : Type := K * Z * V.

(** Sequences are compared at the first place where they are not equal; no two
    have the same order. *)
Definition pair_less (a b : K * Z) : bool := if eqb a.1 b.1 then a.2 <? b.2 else less a.1 b.1.
Definition entry_less (a b : entry) : bool := pair_less a.1.1 b.1.1.
Definition tagged_less (a b : tagged) : bool := pair_less a.1 b.1.

(** The heap that [merge] starts with, before it is one: what is not empty. *)
Fixpoint merge_start (order direction : Z) (iterables : list (list V)) : list entry :=
  match iterables with
  | [] => []
  | [] :: iterables => merge_start (order + 1) direction iterables
  | (v :: rest) :: iterables => (key v, order * direction, v, rest) :: merge_start (order + 1) direction iterables
  end.

(** The loops of [merge], for either direction. *)
Fixpoint merge_loop (before : entry -> entry -> bool) (fuel : nat) (h : list entry) : py (list V) :=
  match fuel with
  | O => NoFuel
  | S fuel =>
      if 1 <? zlen h then
        s ← pyget h 0;
        let '(key_value, order, value, next) := s in
        match next with
        | v :: next =>
            let s := (key v, order, v, next) in
            h ← pyset h 0 s;
            '(_, h) ← heapreplace before h s;
            out ← merge_loop before fuel h;
            Ret (value :: out)
        | [] =>
            '(_, h) ← heappop before h;
            out ← merge_loop before fuel h;
            Ret (value :: out)
        end
      else
        match h with
        | [] => Ret []
        | (_, _, value, next) :: _ => Ret (value :: next)
        end
  end.
(** What the generator gives; one round for each item. *)
Definition merge (iterables : list (list V)) (reverse : bool) : py (list V) :=
  let before := if reverse then more entry_less else entry_less in
  let direction := if reverse then -1 else 1 in
  h ← heapify before (merge_start 0 direction iterables);
  merge_loop before (S (length (concat iterables))) h.

(** [min(it, key=key)] and [max(it, key=key)]: the first of the best. *)
Fixpoint first_best (better : K -> K -> bool) (best : V) (l : list V) : V :=
  match l with
  | [] => best
  | v :: l => first_best better (if better (key v) (key best) then v else best) l
  end.

(** The loop over the rest of the items: better ones replace the worst, which
    is the first of the heap. *)
Fixpoint choose_loop (before : tagged -> tagged -> bool) (better : K -> K -> bool) (step : Z) (result : list tagged) (top : K) (order : Z) (it : list V) : py (list tagged) :=
  match it with
  | [] => Ret result
  | elem :: it =>
      let k := key elem in
      if better k top then
        '(_, result) ← heapreplace before result (k, order, elem);
        first ← pyget result 0;
        choose_loop before better step result first.1.1 (order + step) it
      else choose_loop before better step result top order it
  end.
(** The first [n] items with their orders, [zip(range(n), it)] or
    [zip(range(0, -n, -1), it)]. *)
Definition numbered (step : Z) (l : list V) : list tagged := zip_with (fun i v => (key v, step * i, v)) (pyrange 0 (zlen l)) l.
Definition choose (before : tagged -> tagged -> bool) (better : K -> K -> bool) (step n : Z) (it : list V) : py (list tagged) :=
  let result := numbered step (take (Z.to_nat n) it) in
  match result with
  | [] => Ret []
  | _ =>
      result ← heapify before result;
      first ← pyget result 0;
      choose_loop before better step result first.1.1 (step * n) (drop (Z.to_nat n) it)
  end.

(** [sized] when [len(iterable)] is defined. *)
Definition nsmallest (n : Z) (iterable : list V) (sized : bool) : py (list V) :=
  if n =? 1 then match iterable with [] => Ret [] | v :: l => Ret [first_best less v l] end
  else if sized && (zlen iterable <=? n) then Ret (pyslice (sorted_by (fun a b => less (key a) (key b)) iterable) 0 n)
  else
    result ← choose (more tagged_less) less 1 n iterable;
    Ret (sorted_by tagged_less result).*2.
Definition nlargest (n : Z) (iterable : list V) (sized : bool) : py (list V) :=
  if n =? 1 then match iterable with [] => Ret [] | v :: l => Ret [first_best (more less) v l] end
  else if sized && (zlen iterable <=? n) then Ret (pyslice (sorted_by (fun a b => less (key b) (key a)) iterable) 0 n)
  else
    result ← choose tagged_less (more less) (-1) n iterable;
    Ret (sorted_by (more tagged_less) result).*2.
End items.

End Heapq.
