(* ===== verification/HeapSift.v ===== *)
(** HeapSift: the functions of heapq.py keep the heap invariant and the items,
    and the first item of a heap is a least one. *)
From Stdlib Require Import ZArith Lia List.
From stdpp Require Import base list gmap strings.
From S2P Require Import Prelude Text Order Heap.
Import Heapq.
Open Scope nat_scope.

Lemma swap_perm {A} (l : list A) i j x v : i <> j -> l !! i = Some x -> j < length l -> <[i := v]> (<[j := x]> l) ≡ₚ <[j := v]> l.
Proof.
  intros N Hi Hj. destruct (lookup_lt_is_Some_2 l j Hj) as [y Hy]. destruct (Nat.lt_total i j) as [L|[L|L]]; [|done|].
  - apply take_drop_middle in Hi as E. set (l1 := take i l) in *. set (l2 := drop (S i) l) in *. assert (L1 : length l1 = i) by (unfold l1; rewrite length_take; lia). rewrite <- E in Hy |- *. replace j with (length l1 + S (j - i - 1)) in * by lia.
    rewrite lookup_app_r in Hy by lia. replace (length l1 + S (j - i - 1) - length l1) with (S (j - i - 1)) in Hy by lia. cbn in Hy. rewrite !insert_app_r. replace i with (length l1 + 0) at 1 by lia. rewrite insert_app_r. set (k := j - i - 1) in *. apply Permutation_app; [done|].
    change (v :: <[k := x]> l2 ≡ₚ x :: <[k := v]> l2). change (l2 !! k = Some y) in Hy. apply take_drop_middle in Hy as E2. assert (LK : k < length l2) by (by eapply lookup_lt_Some). rewrite !(insert_take_drop l2 k) by done. rewrite <- !Permutation_middle. apply Permutation_swap.
  - apply take_drop_middle in Hy as E. set (l1 := take j l) in *. set (l2 := drop (S j) l) in *. assert (L1 : length l1 = j) by (unfold l1; rewrite length_take; lia). rewrite <- E in Hi |- *. replace i with (length l1 + S (i - j - 1)) in * by lia.
    rewrite lookup_app_r in Hi by lia. replace (length l1 + S (i - j - 1) - length l1) with (S (i - j - 1)) in Hi by lia. cbn in Hi. set (k := i - j - 1) in *. clearbody k. replace j with (length l1 + 0) by lia. rewrite !insert_app_r. apply Permutation_app; [done|].
    change (x :: <[k := v]> l2 ≡ₚ v :: l2). change (l2 !! k = Some x) in Hi. apply take_drop_middle in Hi as E2. assert (LK : k < length l2) by (by eapply lookup_lt_Some). rewrite (insert_take_drop l2 k) by done. rewrite <- E2 at 3. rewrite <- !Permutation_middle. apply Permutation_swap.
Qed.

Section sift.
Context {A : Type} (less : A -> A -> bool) `{!WeakOrder less}.

Definition parent (k : nat) : nat := (k - 1) / 2.
Lemma parent_lt k : 0 < k -> parent k < k.
Proof. intros H. unfold parent. apply Nat.Div0.div_lt_upper_bound. lia. Qed.
Lemma parent_child k p : 0 < k -> parent k = p <-> k = 2 * p + 1 \/ k = 2 * p + 2.
Proof.
  intros H. unfold parent. pose proof (Nat.div_mod_eq (k - 1) 2). pose proof (Nat.mod_upper_bound (k - 1) 2 ltac:(lia)). lia.
Qed.

(** The item at [k] is not less than its parent. *)
Definition ok_at (l : list A) (k : nat) : Prop := forall x y, l !! k = Some x -> l !! parent k = Some y -> less x y = false.
Definition heap_from (s : nat) (l : list A) : Prop := forall k, 0 < k -> s <= parent k -> ok_at l k.
Definition is_heap (l : list A) : Prop := heap_from 0 l.

Inductive under (s : nat) : nat -> Prop :=
| under_here : under s s
| under_child k : 0 < k -> under s (parent k) -> under s k.
Lemma under_le s k : under s k -> s <= k.
Proof. induction 1 as [|k H _ IH]; [done|]. pose proof (parent_lt k H). lia. Qed.
Lemma under_parent s k : under s k -> s < k -> under s (parent k) /\ s <= parent k.
Proof. intros [|k' H U] L; [lia|]. split; [done | by apply under_le]. Qed.
Lemma under_zero k : under 0 k.
Proof. induction (lt_wf k) as [k _ IH]. destruct k as [|k]; [constructor|]. apply under_child; [lia|]. apply IH, parent_lt. lia. Qed.

(** Only the item at [pos] may be less than its parent; its children are not
    less than that parent. *)
Definition loose (s pos : nat) (l : list A) : Prop :=
  (forall k, 0 < k -> k <> pos -> s <= parent k -> ok_at l k)
  /\ forall k x y, 0 < k -> 0 < pos -> parent k = pos -> s <= parent pos -> l !! k = Some x -> l !! parent pos = Some y -> less x y = false.

Lemma loose_up s pos l new p : loose s pos (<[pos := new]> l) -> 0 < pos -> pos < length l -> s <= parent pos -> l !! parent pos = Some p -> less new p = true ->
  loose s (parent pos) (<[parent pos := new]> (<[pos := p]> l)).
Proof.
  intros [L1 L2] H0 HP HS EP HL. pose proof (parent_lt pos H0) as PL. set (q := parent pos) in *.
  assert (AT : forall k, (<[q := new]> (<[pos := p]> l)) !! k = if decide (k = q) then Some new else if decide (k = pos) then Some p else l !! k).
  { intros k. destruct (decide (k = q)) as [->|]; [by rewrite list_lookup_insert_eq by (rewrite length_insert; lia)|]. rewrite list_lookup_insert_ne by done. destruct (decide (k = pos)) as [->|]; [by rewrite list_lookup_insert_eq | by rewrite list_lookup_insert_ne]. }
  assert (AT0 : forall k, (<[pos := new]> l) !! k = if decide (k = pos) then Some new else l !! k) by (intros k; destruct (decide (k = pos)) as [->|]; [by rewrite list_lookup_insert_eq | by rewrite list_lookup_insert_ne]).
  assert (OK : forall k x y, 0 < k -> k <> pos -> s <= parent k -> l !! k = Some x -> parent k <> pos -> l !! parent k = Some y -> less x y = false).
  { intros k x y K0 KP KS Ex PK Ey. apply (L1 k K0 KP KS); rewrite AT0; [by rewrite decide_False | by rewrite decide_False]. }
  split.
  - intros k K0 KQ KS x y Ex Ey. rewrite AT in Ex, Ey. pose proof (parent_lt k K0). rewrite decide_False in Ex by done. destruct (decide (k = pos)) as [->|NP]; [rewrite decide_True in Ey by done; simplify_eq; by apply less_asym|]. destruct (decide (parent k = q)) as [EQ|NQ].
    + injection Ey as <-. destruct (less x new) eqn:F; [|done]. pose proof (less_trans _ _ _ F HL) as F2. by rewrite (OK k x p K0 NP ltac:(lia) Ex ltac:(lia) ltac:(by rewrite EQ)) in F2.
    + destruct (decide (parent k = pos)) as [EK|NK]; [|by apply (OK k x y)]. injection Ey as <-. apply (L2 k x p K0 H0 EK HS); rewrite AT0; rewrite decide_False by lia; done.
  - intros k x y K0 Q0 EK QS Ex Ey. pose proof (parent_lt q Q0). rewrite AT in Ex, Ey. rewrite !decide_False in Ey by lia. pose proof (parent_lt k K0). rewrite (decide_False (P := k = q)) in Ex by lia. assert (PY : less p y = false) by (apply (OK q p y Q0); (done || lia)).
    destruct (decide (k = pos)) as [->|NP]; [by injection Ex as <-|]. apply (not_less_trans _ _ p); [done|]. apply (OK k x p K0 NP ltac:(lia) Ex ltac:(lia)). by rewrite EK.
Qed.

Lemma pyset_ret {B} (l : list B) (i : nat) x : i < length l -> pyset l (Z.of_nat i) x = Ret (<[i := x]> l).
Proof. intros H. unfold pyset. rewrite (proj2 (Z.ltb_ge (Z.of_nat i) 0)) by lia. rewrite (proj2 (Z.leb_le _ _)), (proj2 (Z.ltb_lt _ _)) by (unfold zlen; lia). cbn [andb]. by rewrite Nat2Z.id. Qed.
Lemma pyget_nat {B} (l : list B) (i : nat) x : l !! i = Some x -> pyget l (Z.of_nat i) = Ret x.
Proof. intros E. apply pyget_lookup; [lia|]. by rewrite Nat2Z.id. Qed.
Lemma pyget_first {B} (l : list B) x : pyget (x :: l) 0 = Ret x.
Proof. by apply (pyget_nat (x :: l) 0). Qed.
Lemma pyset_first {B} (l : list B) x y : pyset (x :: l) 0 y = Ret (y :: l).
Proof. apply (pyset_ret (x :: l) 0). cbn. lia. Qed.
Lemma shiftr_parent k : 0 < k -> Z.shiftr (Z.of_nat k - 1) 1 = Z.of_nat (parent k).
Proof. intros H. rewrite Z.shiftr_div_pow2 by lia. change (2 ^ 1)%Z with 2%Z. unfold parent. rewrite Nat2Z.inj_div. f_equal. lia. Qed.

Lemma siftdown_loop_heap fuel s : forall pos l new, pos < fuel -> pos < length l -> under s pos -> loose s pos (<[pos := new]> l) ->
  exists l' pos', siftdown_loop less fuel l (Z.of_nat s) (Z.of_nat pos) new = Ret (l', Z.of_nat pos') /\ pos' < length l' /\ heap_from s (<[pos' := new]> l') /\ <[pos' := new]> l' ≡ₚ <[pos := new]> l.
Proof.
  induction fuel as [|fuel IH]; intros pos l new HF HP U LO; [lia|]. cbn [siftdown_loop]. destruct (Z.ltb_spec (Z.of_nat s) (Z.of_nat pos)) as [HS|HS].
  - destruct (under_parent s pos U ltac:(lia)) as [U' SP]. pose proof (parent_lt pos ltac:(lia)) as PL. rewrite shiftr_parent by lia. destruct (lookup_lt_is_Some_2 l (parent pos)) as [p EP]; [lia|]. rewrite (pyget_nat _ _ _ EP). cbn [mbind py_bind]. destruct (less new p) eqn:HL.
    + rewrite pyset_ret by done. cbn [mbind py_bind]. destruct (IH (parent pos) (<[pos := p]> l) new) as (l' & pos' & -> & L' & H' & P'); [lia | rewrite length_insert; lia | done | by apply loose_up; [|lia|..]|].
      exists l', pos'. split; [done|]. split; [done|]. split; [done|]. rewrite P'. apply swap_perm; [lia | done | done].
    + exists l, pos. split; [done|]. split; [done|]. split; [|done]. intros k K0 KS. destruct (decide (k = pos)) as [->|]; [|by apply LO]. intros x y. rewrite list_lookup_insert_eq by done. rewrite list_lookup_insert_ne by lia. intros [= <-] Ey. congruence.
  - exists l, pos. split; [done|]. split; [done|]. split; [|done]. intros k K0 KS. apply LO; [done | | done]. pose proof (parent_lt k K0). lia.
Qed.

Lemma siftdown_heap s pos l : pos < length l -> under s pos -> loose s pos l -> exists l', siftdown less l (Z.of_nat s) (Z.of_nat pos) = Ret l' /\ heap_from s l' /\ l' ≡ₚ l.
Proof.
  intros HP U LO. destruct (lookup_lt_is_Some_2 l pos HP) as [new EN]. unfold siftdown. rewrite (pyget_nat _ _ _ EN). cbn [mbind py_bind]. assert (EL : <[pos := new]> l = l) by (by apply list_insert_id).
  destruct (siftdown_loop_heap (S (Z.to_nat (Z.of_nat pos))) s pos l new) as (l' & pos' & -> & L' & H' & P'); [lia | done | done | by rewrite EL|]. cbn [mbind py_bind]. rewrite pyset_ret by done. eexists. split; [done|]. rewrite EL in P'. done.
Qed.

(** The place at [pos] is empty: all others are in order, and its children are
    not less than its parent. *)
Definition hollow (s pos : nat) (l : list A) : Prop :=
  (forall k, 0 < k -> k <> pos -> parent k <> pos -> s <= parent k -> ok_at l k)
  /\ forall k x y, 0 < k -> 0 < pos -> parent k = pos -> s <= parent pos -> l !! k = Some x -> l !! parent pos = Some y -> less x y = false.

Lemma hollow_down s pos l c x : hollow s pos l -> 0 < c -> parent c = pos -> s <= pos -> pos < length l -> l !! c = Some x -> (forall k y, 0 < k -> k <> c -> parent k = pos -> l !! k = Some y -> less y x = false) ->
  hollow s c (<[pos := x]> l).
Proof.
  intros [L1 L2] C0 EC HS HP EX HB. pose proof (parent_lt c C0) as PL. rewrite EC in PL. assert (AT : forall k, (<[pos := x]> l) !! k = if decide (k = pos) then Some x else l !! k) by (intros k; destruct (decide (k = pos)) as [->|]; [by rewrite list_lookup_insert_eq | by rewrite list_lookup_insert_ne]).
  split.
  - intros k K0 KC KP KS u w Eu Ew. rewrite AT in Eu, Ew. pose proof (parent_lt k K0). destruct (decide (k = pos)) as [->|NP].
    + rewrite decide_False in Ew by lia. injection Eu as <-. by apply (L2 c x w).
    + destruct (decide (parent k = pos)) as [EK|NK]; [injection Ew as <-; by apply (HB k)|]. by apply (L1 k).
  - intros k u w K0 _ EK _ Eu Ew. rewrite AT in Eu, Ew. pose proof (parent_lt k K0). rewrite decide_False in Eu by lia. rewrite EC, decide_True in Ew by done. injection Ew as <-. apply (L1 k); [done | lia | lia | lia | done | by rewrite EK].
Qed.

Lemma siftup_loop_heap fuel s : forall pos l new, length l < fuel + pos -> pos < length l -> under s pos -> hollow s pos l ->
  exists l' pos', siftup_loop less fuel l (zlen l) (Z.of_nat pos) = Ret (l', Z.of_nat pos') /\ pos' < length l' /\ under s pos' /\ loose s pos' (<[pos' := new]> l') /\ <[pos' := new]> l' ≡ₚ <[pos := new]> l.
Proof.
  induction fuel as [|fuel IH]; intros pos l new HF HP U HO; [lia|]. cbn [siftup_loop]. pose proof (under_le s pos U) as SP. destruct (Z.ltb_spec (2 * Z.of_nat pos + 1) (zlen l)) as [HC|HC]; unfold zlen in HC.
  - assert (CH : exists c x, (if 2 * Z.of_nat pos + 1 + 1 <? zlen l then left ← pyget l (2 * Z.of_nat pos + 1); right ← pyget l (2 * Z.of_nat pos + 1 + 1); Ret (if negb (less left right) then 2 * Z.of_nat pos + 1 + 1 else 2 * Z.of_nat pos + 1) else Ret (2 * Z.of_nat pos + 1))%Z = Ret (Z.of_nat c)
        /\ 0 < c /\ parent c = pos /\ c < length l /\ l !! c = Some x /\ forall k y, 0 < k -> k <> c -> parent k = pos -> l !! k = Some y -> less y x = false).
    { destruct (lookup_lt_is_Some_2 l (2 * pos + 1)) as [x EX]; [lia|]. replace (2 * Z.of_nat pos + 1)%Z with (Z.of_nat (2 * pos + 1)) by lia. destruct (Z.ltb_spec (Z.of_nat (2 * pos + 1) + 1) (zlen l)) as [HR|HR]; unfold zlen in HR.
      - destruct (lookup_lt_is_Some_2 l (2 * pos + 2)) as [y EY]; [lia|]. replace (Z.of_nat (2 * pos + 1) + 1)%Z with (Z.of_nat (2 * pos + 2)) by lia. rewrite (pyget_nat _ _ _ EX), (pyget_nat _ _ _ EY). cbn [mbind py_bind]. destruct (less x y) eqn:HL; cbn [negb].
        + exists (2 * pos + 1), x. split; [done|]. split; [lia|]. split; [apply parent_child; lia|]. split; [lia|]. split; [done|]. intros k z K0 KC KP Ez. apply parent_child in KP as [->| ->]; [done | | done]. simplify_eq. by apply less_asym.
        + exists (2 * pos + 2), y. split; [done|]. split; [lia|]. split; [apply parent_child; lia|]. split; [lia|]. split; [done|]. intros k z K0 KC KP Ez. apply parent_child in KP as [->| ->]; [|done..]. simplify_eq. done.
      - exists (2 * pos + 1), x. split; [done|]. split; [lia|]. split; [apply parent_child; lia|]. split; [lia|]. split; [done|]. intros k z K0 KC KP Ez. apply parent_child in KP as [->| ->]; [done | | done]. apply lookup_lt_Some in Ez. lia. }
    destruct CH as (c & x & -> & C0 & EC & LC & EX & HB). cbn [mbind py_bind]. rewrite (pyget_nat _ _ _ EX). cbn [mbind py_bind]. rewrite pyset_ret by done. cbn [mbind py_bind]. pose proof (parent_lt c C0) as PL. rewrite EC in PL.
    assert (ZL : zlen l = zlen (<[pos := x]> l)) by (unfold zlen; by rewrite length_insert). rewrite ZL. destruct (IH c (<[pos := x]> l) new) as (l' & pos' & -> & L' & U' & LO & P'); [rewrite length_insert; lia | by rewrite length_insert | apply under_child; [done | by rewrite EC] | by apply hollow_down|].
    exists l', pos'. split; [done|]. split; [done|]. split; [done|]. split; [done|]. rewrite P'. apply swap_perm; [lia | done | done].
  - exists l, pos. split; [done|]. split; [done|]. split; [done|]. split; [|done]. destruct HO as [L1 L2]. assert (NC : forall k y, 0 < k -> parent k = pos -> (<[pos := new]> l) !! k = Some y -> False) by (intros k y K0 KP E; apply lookup_lt_Some in E; rewrite length_insert in E; apply parent_child in KP; lia).
    split; [|intros k x y K0 _ KP _ Ex; by destruct (NC k x)]. intros k K0 KN KS x y Ex Ey. destruct (decide (parent k = pos)) as [EK|NK]; [by destruct (NC k x)|]. rewrite list_lookup_insert_ne in Ex by done. rewrite list_lookup_insert_ne in Ey by done. by apply (L1 k).
Qed.

(** [siftup] makes a heap of a place whose children are heaps. *)
Lemma siftup_heap s l : s < length l -> (forall k, 0 < k -> s < parent k -> ok_at l k) -> exists l', siftup less l (Z.of_nat s) = Ret l' /\ heap_from s l' /\ l' ≡ₚ l.
Proof.
  intros HS HK. unfold siftup. destruct (lookup_lt_is_Some_2 l s HS) as [new EN]. rewrite (pyget_nat _ _ _ EN). cbn [mbind py_bind]. assert (EL : <[s := new]> l = l) by (by apply list_insert_id).
  destruct (siftup_loop_heap (S (length l)) s s l new) as (l1 & pos & -> & L1 & U & LO & P1); [lia | done | constructor | |].
  - split; [intros k K0 _ KN KS; apply HK; [done | lia]|]. intros k x y _ S0 _ SP. pose proof (parent_lt s S0). lia.
  - cbn [mbind py_bind]. rewrite pyset_ret by done. cbn [mbind py_bind]. destruct (siftdown_heap s pos (<[pos := new]> l1)) as (l' & -> & H' & P'); [by rewrite length_insert | done | done|]. exists l'. split; [done|]. split; [done|]. by rewrite P', P1, EL.
Qed.

(** * The queue *)

Lemma heap_least l x : is_heap l -> l !! 0 = Some x -> Forall (fun y => less y x = false) l.
Proof.
  intros H E. apply Forall_lookup. intros k. induction (lt_wf k) as [k _ IH]. intros y Ey. destruct k as [|k]; [simplify_eq; apply less_irrefl|]. pose proof (parent_lt (S k) ltac:(lia)) as PL. destruct (lookup_lt_is_Some_2 l (parent (S k))) as [z Ez]; [apply lookup_lt_Some in Ey; lia|].
  apply (not_less_trans _ _ z); [by apply (IH (parent (S k)))|]. by apply (H (S k) ltac:(lia) ltac:(lia)).
Qed.

Lemma heappush_heap l x : is_heap l -> exists l', heappush less l x = Ret l' /\ is_heap l' /\ l' ≡ₚ x :: l.
Proof.
  intros H. unfold heappush. replace (zlen (l ++ [x]) - 1)%Z with (Z.of_nat (length l)) by (rewrite zlen_app; change (zlen [x]) with 1%Z; unfold zlen; lia).
  destruct (siftdown_heap 0 (length l) (l ++ [x])) as (l' & E & H' & P'); [rewrite length_app; cbn; lia | apply under_zero | | exists l'; split; [done|]; split; [done|]; rewrite P'; symmetry; apply Permutation_cons_append].
  assert (IN : forall k u, (l ++ [x]) !! k = Some u -> k <> length l -> l !! k = Some u) by (intros k u E N; apply lookup_app_Some in E as [E|[L E]]; [done|]; apply list_lookup_singleton_Some in E as [E _]; lia). split.
  - intros k K0 KN KS u w Eu Ew. pose proof (parent_lt k K0). apply IN in Eu; [|done]. pose proof (lookup_lt_Some _ _ _ Eu). apply IN in Ew; [|lia]. by apply (H k).
  - intros k u w K0 _ EK _ Eu Ew. pose proof (parent_lt k K0). apply lookup_lt_Some in Eu. rewrite length_app in Eu. cbn in Eu. lia.
Qed.

(** The first item may be anything. *)
Lemma heapreplace_root y r x : (forall k, 0 < k -> 0 < parent k -> ok_at (y :: r) k) -> exists l', heapreplace less (y :: r) x = Ret (y, l') /\ is_heap l' /\ l' ≡ₚ x :: r.
Proof.
  intros H. destruct (siftup_heap 0 (x :: r)) as (l' & E & H' & P'); [cbn; lia | | exists l'; split; [|done]].
  - intros k K0 KS u w Eu Ew. apply (H k K0 KS); [destruct k | destruct (parent k)]; (lia || done).
  - unfold heapreplace. rewrite pyget_first. cbn [mbind py_bind]. rewrite pyset_first. cbn [mbind py_bind]. change 0%Z with (Z.of_nat 0). by rewrite E.
Qed.
Lemma heapreplace_heap l x : is_heap l -> match l with
  | [] => heapreplace less l x = Raise IndexError
  | y :: r => exists l', heapreplace less l x = Ret (y, l') /\ is_heap l' /\ l' ≡ₚ x :: r
  end.
Proof. intros H. destruct l as [|y r]; [done|]. apply heapreplace_root. intros k K0 KS. apply (H k K0). lia. Qed.

Lemma is_heap_prefix l r : is_heap (l ++ r) -> is_heap l.
Proof. intros H k K0 KS x y Ex Ey. apply (H k K0 KS); by apply lookup_app_l_Some. Qed.

Lemma heappop_heap l : is_heap l -> match l with
  | [] => heappop less l = Raise IndexError
  | y :: r => exists l', heappop less l = Ret (y, l') /\ is_heap l' /\ l' ≡ₚ r
  end.
Proof.
  intros H. destruct l as [|y r]; [done|]. destruct (exists_last (l := y :: r)) as (l1 & z & E); [done|]. unfold heappop, pop. rewrite E in H |- *. rewrite last_snoc, removelast_last. cbn [mbind py_bind]. pose proof (is_heap_prefix _ _ H) as H1. destruct l1 as [|y1 r1].
  - injection E as <- ->. exists []. split; [done|]. split; [|done]. intros k K0 KS u w Eu. done.
  - injection E as <- ->. destruct (heapreplace_heap (y :: r1) z H1) as (l' & E' & H' & P'). exists l'. split; [exact E'|]. split; [done|]. rewrite P'. apply Permutation_cons_append.
Qed.

Lemma heappushpop_heap l x : is_heap l -> exists y l', heappushpop less l x = Ret (y, l') /\ is_heap l' /\ y :: l' ≡ₚ x :: l /\ Forall (fun z => less z y = false) (x :: l).
Proof.
  intros H. destruct l as [|f r]; [exists x, []; split; [done|]; split; [done|]; split; [done|]; constructor; [apply less_irrefl | constructor]|].
  pose proof (heap_least (f :: r) f H eq_refl) as LE. unfold heappushpop. destruct (less f x) eqn:HL.
  - destruct (heapreplace_heap (f :: r) x H) as (l' & E' & H' & P'). exists f, l'. split; [exact E'|]. split; [done|]. split; [rewrite P'; apply Permutation_swap|]. constructor; [by apply less_asym | done].
  - exists x, (f :: r). split; [done|]. split; [done|]. split; [done|]. constructor; [apply less_irrefl|]. eapply Forall_impl; [exact LE|]. intros z HZ. by apply (not_less_trans _ _ f).
Qed.

Lemma heapify_loop k : forall l, k <= length l -> heap_from k l -> exists l', foldM (siftup less) l (rev (pyrange 0 (Z.of_nat k))) = Ret l' /\ is_heap l' /\ l' ≡ₚ l.
Proof.
  induction k as [|k IH]; intros l HK H; [by exists l|]. rewrite (pyrange_app 0 (Z.of_nat k)), rev_app_distr, (pyrange_cons (Z.of_nat k)), pyrange_nil by lia. cbn [rev app foldM]. destruct (siftup_heap k l) as (l1 & -> & H1 & P1); [lia | intros j J0 JK; apply H; lia|]. cbn [mbind py_bind].
  destruct (IH l1) as (l' & -> & H' & P'); [rewrite P1; lia | done|]. exists l'. split; [done|]. split; [done|]. by rewrite P'.
Qed.
Lemma heapify_heap l : exists l', heapify less l = Ret l' /\ is_heap l' /\ l' ≡ₚ l.
Proof.
  unfold heapify. assert (E : (zlen l / 2)%Z = Z.of_nat (length l / 2)) by (unfold zlen; by rewrite Nat2Z.inj_div). rewrite E. apply heapify_loop; [apply Nat.Div0.div_le_upper_bound; lia|].
  intros k K0 KS x y Ex. apply lookup_lt_Some in Ex. pose proof (proj1 (parent_child k _ K0) eq_refl). pose proof (Nat.div_mod_eq (length l) 2). pose proof (Nat.mod_upper_bound (length l) 2 ltac:(lia)). lia.
Qed.

(** Any sequence of the queue's operations: a push, a pop, the two combined
    ones and [heapify]. *)
Inductive request : Type :=
| Push (x : A)
| Pop
| Replace (x : A)
| PushPop (x : A)
| Heapify.
Definition serve (heap : list A) (r : request) : py (option A * list A) :=
  match r with
  | Push x => h ← heappush less heap x; Ret (None, h)
  | Pop => '(y, h) ← heappop less heap; Ret (Some y, h)
  | Replace x => '(y, h) ← heapreplace less heap x; Ret (Some y, h)
  | PushPop x => '(y, h) ← heappushpop less heap x; Ret (Some y, h)
  | Heapify => h ← heapify less heap; Ret (None, h)
  end.
(** What the request does to the items the queue holds, whatever their order in
    the list. *)
Definition served (heap : list A) (r : request) (reply : option A) (heap' : list A) : Prop :=
  match r, reply with
  | Push x, None => heap' ≡ₚ x :: heap
  | Pop, Some y => heap ≡ₚ y :: heap' /\ Forall (fun z => less z y = false) heap
  | Replace x, Some y => x :: heap ≡ₚ y :: heap' /\ y ∈ heap /\ Forall (fun z => less z y = false) heap
  | PushPop x, Some y => x :: heap ≡ₚ y :: heap' /\ Forall (fun z => less z y = false) (x :: heap)
  | Heapify, None => heap' ≡ₚ heap
  | _, _ => False
  end.

(** C21: On a heap every operation of the queue gives a heap that holds the right
    items: [heappush] adds the item, [heappop] takes out a least one,
    [heapreplace] takes out a least one of the old items and adds the new one,
    [heappushpop] gives a least one of the old items and the new one; a pop or a
    replacement in an empty queue raises IndexError and nothing else raises.
    [heapify] makes a heap of any list. *)
Theorem heap_requests (heap : list A) (r : request) (H : r = Heapify \/ is_heap heap) :
  (heap = [] /\ (r = Pop \/ exists x, r = Replace x) /\ serve heap r = Raise IndexError)
  \/ exists reply heap', serve heap r = Ret (reply, heap') /\ is_heap heap' /\ served heap r reply heap'.
Proof.
  destruct r as [x| |x|x|].
  - destruct H as [|H]; [done|]. right. destruct (heappush_heap heap x H) as (l & E & H' & P). exists None, l. cbn [serve served]. by rewrite E.
  - destruct H as [|H]; [done|]. pose proof (heappop_heap heap H) as E. destruct heap as [|y r]; [left; auto|]. right. destruct E as (l & E & H' & P). exists (Some y), l. cbn [serve served]. rewrite E. split; [done|]. split; [done|]. split; [by rewrite P | by apply heap_least].
  - destruct H as [|H]; [done|]. pose proof (heapreplace_heap heap x H) as E. destruct heap as [|y r]; [left; eauto|]. right. destruct E as (l & E & H' & P). exists (Some y), l. cbn [serve served]. rewrite E. split; [done|]. split; [done|]. split; [rewrite P; apply Permutation_swap|]. split; [apply list_elem_of_here | by apply heap_least].
  - destruct H as [|H]; [done|]. right. destruct (heappushpop_heap heap x H) as (y & l & E & H' & P & F). exists (Some y), l. cbn [serve served]. by rewrite E.
  - right. destruct (heapify_heap heap) as (l & E & H' & P). exists None, l. cbn [serve served]. by rewrite E.
Qed.
End sift.
Arguments request : clear implicits.

Lemma heap_requests_witness : exists reply heap', serve Z.ltb [1; 3; 2]%Z Pop = Ret (reply, heap') /\ is_heap Z.ltb heap' /\ served Z.ltb [1; 3; 2]%Z Pop reply heap'.
Proof.
  destruct (heap_requests Z.ltb [1; 3; 2]%Z Pop) as [(F & _)|H]; [|done|exact H]. right. intros [|[|[|k]]] K0 _ x y Ex Ey; [lia| | |done]; cbn in Ex, Ey; simplify_eq; done.
Defined.
