(* ===== verification/HeapMerge.v ===== *)
(** HeapMerge: [merge] of heapq.py gives the stable sort of its inputs, and
    [nsmallest] and [nlargest] give the first items of the stable sort. *)
From Stdlib Require Import ZArith Lia List Sorting.Sorted.
From stdpp Require Import base list sorting gmap strings.
From S2P Require Import Prelude Text Order Heap HeapSift.
Import Heapq.
Open Scope Z_scope.

(** * Stable sorting *)

Section stable.
Context {A : Type} (less : A -> A -> bool) `{!WeakOrder less}.

Definition not_after (x y : A) : Prop := less y x = false.

Lemma ascending_sorted l : ascending less l <-> StronglySorted not_after l.
Proof.
  induction l as [|x l IH]; [split; [constructor | intros _ i j u w _ E; done]|]. rewrite StronglySorted_cons, <- IH, Forall_lookup. split.
  - intros H. split; [intros i y E; by apply (H O (S i)); [lia|..] | intros i j u w L E1 E2; by apply (H (S i) (S j)); [lia|..]].
  - intros [H1 H2] [|i] [|j] u w L E1 E2; [lia | injection E1 as <-; by apply (H1 j) | lia | by apply (H2 i j); [lia|..]].
Qed.

Lemma insert_front x l : Forall (fun y => less y x = false) l -> insert_by (fun a b => negb (less b a)) x l = x :: l.
Proof. intros [|y l' H _]; [done|]. cbn. by rewrite H. Qed.
Lemma sorted_by_perm l : sorted_by less l ≡ₚ l.
Proof. apply sort_by_perm. Qed.
Lemma sorted_by_sorted l : StronglySorted not_after (sorted_by less l).
Proof.
  assert (E : forall l, StronglySorted (le_by (fun a b => negb (less b a))) l -> StronglySorted not_after l).
  { intros l' H. induction H as [|x l' H IH F]; constructor; [done|]. eapply Forall_impl; [exact F|]. intros y. unfold le_by, not_after. apply negb_true_iff. }
  apply E, sort_by_sorted; [intros x y H; apply negb_false_iff in H; by apply negb_true_iff, less_asym | intros x y z; rewrite !negb_true_iff; apply (not_less_trans less)].
Qed.
(** The first of the least items comes first. *)
Lemma sorted_by_first l1 x l2 : Forall (fun y => less x y = true) l1 -> Forall (fun y => less y x = false) l2 -> sorted_by less (l1 ++ x :: l2) = x :: sorted_by less (l1 ++ l2).
Proof.
  intros H1 H2. induction H1 as [|a l1 HA H1 IH]; [apply insert_front; by rewrite sorted_by_perm|]. cbn [app]. change (insert_by (fun a b => negb (less b a)) a (sorted_by less (l1 ++ x :: l2)) = x :: insert_by (fun a b => negb (less b a)) a (sorted_by less (l1 ++ l2))). rewrite IH. cbn. by rewrite HA.
Qed.
Lemma sorted_by_id l : ascending less l -> sorted_by less l = l.
Proof. rewrite ascending_sorted. induction 1 as [|x l H IH F]; [done|]. change (insert_by (fun a b => negb (less b a)) x (sorted_by less l) = x :: l). rewrite IH. by apply insert_front. Qed.

(** The place of a new last item. *)
Fixpoint insert_right (x : A) (l : list A) : list A :=
  match l with
  | [] => [x]
  | y :: l => if less x y then x :: y :: l else y :: insert_right x l
  end.
Lemma insert_by_right a x l : insert_by (fun a b => negb (less b a)) a (insert_right x l) = insert_right x (insert_by (fun a b => negb (less b a)) a l).
Proof.
  induction l as [|y l IH]; cbn; [by destruct (less x a)|]. destruct (less x y) eqn:XY; cbn; destruct (less y a) eqn:YA; cbn; rewrite ?XY.
  - by rewrite (less_trans _ _ _ XY YA).
  - destruct (less x a) eqn:XA; cbn; rewrite ?YA, ?XY; done.
  - by rewrite IH.
  - destruct (less x a) eqn:XA; [|done]. by rewrite (less_not_less _ _ _ _ XA YA) in XY.
Qed.
Lemma sorted_by_snoc l x : sorted_by less (l ++ [x]) = insert_right x (sorted_by less l).
Proof. induction l as [|a l IH]; [done|]. cbn [app]. change (insert_by (fun a b => negb (less b a)) a (sorted_by less (l ++ [x])) = insert_right x (insert_by (fun a b => negb (less b a)) a (sorted_by less l))). by rewrite IH, insert_by_right. Qed.

Lemma insert_right_perm x l : insert_right x l ≡ₚ x :: l.
Proof. induction l as [|y l IH]; cbn; [done|]. destruct (less x y); [done|]. rewrite IH. apply Permutation_swap. Qed.
Lemma insert_right_sorted x l : StronglySorted not_after l -> StronglySorted not_after (insert_right x l).
Proof.
  induction 1 as [|y l H IH F]; cbn; [repeat constructor|]. destruct (less x y) eqn:XY.
  - constructor; [by constructor|]. constructor; [by apply less_asym|]. eapply Forall_impl; [exact F|]. intros z HZ. apply (not_less_trans _ _ y); [by apply less_asym | done].
  - constructor; [done|]. rewrite insert_right_perm. by constructor.
Qed.
Lemma take_insert_right n x : forall l, take n (insert_right x l) = take n (insert_right x (take n l)).
Proof.
  induction n as [|n IH]; intros l; [done|]. destruct l as [|y l]; [done|]. cbn [take insert_right]. destruct (less x y); cbn [take]; [f_equal; destruct n; [done|]; cbn; by rewrite take_take, Nat.min_l by lia|]. f_equal. apply IH.
Qed.
Lemma insert_right_last x l w : less x w = true -> insert_right x (l ++ [w]) = insert_right x l ++ [w].
Proof. intros H. induction l as [|y l IH]; cbn; [by rewrite H|]. destruct (less x y); [done|]. by rewrite IH. Qed.
Lemma insert_right_end x l : Forall (fun y => less x y = false) l -> insert_right x l = l ++ [x].
Proof. induction 1 as [|y l H _ IH]; cbn; [done|]. by rewrite H, IH. Qed.
End stable.

(** * Items of the same rank in order *)

Section ranks.
Context {K : Type} (less : K -> K -> bool) `{!WeakOrder less} (eqb : K -> K -> bool) (eqb_less : forall a b, eqb a b = negb (less a b) && negb (less b a)).
Context {T : Type} (rank : T -> K) (place : T -> Z).

(** The comparison of pairs of a rank and a place. *)
Definition ranks (a b : T) : bool := if eqb (rank a) (rank b) then place a <? place b else less (rank a) (rank b).

Lemma ranks_less a b : ranks a b = less (rank a) (rank b) || negb (less (rank b) (rank a)) && (place a <? place b).
Proof using eqb_less WeakOrder0.
  unfold ranks. rewrite eqb_less. destruct (less (rank a) (rank b)) eqn:E1; [done|]. by destruct (less (rank b) (rank a)).
Qed.
Lemma ranks_true a b : ranks a b = true <-> less (rank a) (rank b) = true \/ less (rank b) (rank a) = false /\ place a < place b.
Proof using eqb_less WeakOrder0. by rewrite ranks_less, orb_true_iff, andb_true_iff, negb_true_iff, Z.ltb_lt. Qed.
Lemma ranks_order : WeakOrder ranks.
Proof using eqb_less WeakOrder0.
  split.
  - intros a. destruct (ranks a a) eqn:E; [|done]. apply ranks_true in E as [E|[_ E]]; [by rewrite less_irrefl in E | lia].
  - intros a b c. rewrite !ranks_true. intros [H1|[H1 P1]] [H2|[H2 P2]].
    + left. by apply (less_trans _ (rank b)).
    + left. by apply (less_not_less _ _ (rank b)).
    + left. by apply (not_less_less _ _ (rank b)).
    + right. split; [by apply (not_less_trans _ _ (rank b)) | lia].
  - intros a b c. rewrite !ranks_true. intros [H|[H P]]; [apply (less_cotrans _ (rank b)) in H; tauto|].
    destruct (less (rank b) (rank a)) eqn:BA; [right; left; by apply (less_not_less _ _ (rank a))|]. destruct (decide (place a < place b)); [left; right; done|].
    destruct (less (rank c) (rank b)) eqn:CB; [apply (less_cotrans _ (rank a)) in CB as [CA|AB]; [congruence | left; by left]|]. right. right. split; [done | lia].
Qed.
(** Of two items the one that does not come before the other has not a lesser
    rank, and has a greater one if its place is before. *)
Lemma ranks_false a b : ranks b a = false -> less (rank b) (rank a) = false /\ (place b < place a -> less (rank a) (rank b) = true).
Proof using eqb_less WeakOrder0.
  rewrite ranks_less, orb_false_iff, andb_false_iff, negb_false_iff, Z.ltb_ge. intros [H1 [H2|H2]]; split; (done || lia).
Qed.
End ranks.

Lemma WeakOrder_ext {A} (f g : A -> A -> bool) : (forall a b, f a b = g a b) -> WeakOrder g -> WeakOrder f.
Proof. intros E [I T C]. split; intros *; rewrite !E; eauto. Qed.

(** The comparison of the keys of two items. *)
Definition item_less {V K} (less : K -> K -> bool) (key : V -> K) (a b : V) : bool := less (key a) (key b).
#[export] Instance item_order {V K} (less : K -> K -> bool) `{!WeakOrder less} (key : V -> K) : WeakOrder (item_less less key).
Proof. exact (less_by key less). Qed.

(** * merge *)

Section merging.
Context {V K : Type} (less : K -> K -> bool) `{!WeakOrder less} (eqb : K -> K -> bool) (eqb_less : forall a b, eqb a b = negb (less a b) && negb (less b a)) (key : V -> K).
Context (before : @entry V K -> @entry V K -> bool) (d : Z).

Definition entry_key (e : @entry V K) : K := e.1.1.1.
Definition entry_place (e : @entry V K) : Z := d * e.1.1.2.
Definition stream (e : @entry V K) : list V := e.1.2 :: e.2.
Definition proper (e : @entry V K) : Prop := entry_key e = key e.1.2 /\ ascending (item_less less key) (stream e).

Context (before_ranks : forall a b, before a b = ranks less eqb entry_key entry_place a b).

Lemma before_order : WeakOrder before.
Proof using before_ranks eqb_less WeakOrder0. eapply WeakOrder_ext; [exact before_ranks | by apply ranks_order]. Qed.

(** The item of the first entry comes first in the sorted rest. *)
Lemma first_entry h e r es : h = e :: r -> is_heap before h -> h ≡ₚ es -> Forall proper es -> StronglySorted Z.lt (entry_place <$> es) ->
  exists es1 es2, es = es1 ++ e :: es2 /\ r ≡ₚ es1 ++ es2 /\
  sorted_by (item_less less key) (concat (stream <$> es)) = e.1.2 :: sorted_by (item_less less key) (concat (stream <$> es1) ++ e.2 ++ concat (stream <$> es2)).
Proof using before_ranks eqb_less WeakOrder0.
  intros -> HH P F S. pose proof before_order as BO. assert (IN : e ∈ es) by (rewrite <- P; apply list_elem_of_here). apply list_elem_of_split in IN as (es1 & es2 & ->). exists es1, es2. split; [done|]. split; [rewrite <- Permutation_middle in P; by apply Permutation_cons_inv in P|].
  pose proof (heap_least before _ e HH eq_refl) as LE. rewrite P, Forall_app, Forall_cons in LE. destruct LE as (LE1 & _ & LE2). apply Forall_app in F as [F1 F]. apply Forall_cons in F as [[KE AE] F2].
  rewrite fmap_app, fmap_cons, StronglySorted_app in S. destruct S as (SP & _ & _). rewrite fmap_app, fmap_cons, concat_app. cbn [concat]. unfold stream at 2. cbn [app].
  assert (TAIL : forall y, proper y -> Forall (fun v => item_less less key v y.1.2 = false) (stream y)).
  { intros y [_ A]. apply (ascending_sorted (item_less less key)), StronglySorted_inv in A as [_ A]. constructor; [apply less_irrefl | exact A]. }
  apply sorted_by_first.
  - apply Forall_concat, Forall_fmap, Forall_forall. intros y IY. rewrite Forall_forall in LE1, F1. specialize (LE1 y IY). specialize (F1 y IY). rewrite before_ranks in LE1. apply (ranks_false less eqb eqb_less) in LE1 as [_ LT]. destruct F1 as [KY AY]. unfold compose. eapply Forall_impl; [apply (TAIL y); by split|].
    cbn beta. intros v HV. change (less (key e.1.2) (key v) = true). apply (less_not_less less _ (key y.1.2)); [|exact HV]. rewrite <- KE, <- KY. apply LT. apply SP; [by apply list_elem_of_fmap_2 | apply list_elem_of_here].
  - apply Forall_app. split; [assert (TE : proper e) by (by split); apply TAIL in TE; by inversion TE|]. apply Forall_concat, Forall_fmap, Forall_forall. intros y IY. rewrite Forall_forall in LE2, F2. specialize (LE2 y IY). specialize (F2 y IY). rewrite before_ranks in LE2. apply (ranks_false less eqb eqb_less) in LE2 as [NL _]. destruct F2 as [KY AY]. unfold compose. eapply Forall_impl; [apply (TAIL y); by split|].
    cbn beta. intros v HV. change (less (key v) (key e.1.2) = false). apply (not_less_trans less _ (key y.1.2)); [|exact HV]. rewrite <- KE, <- KY. exact NL.
Qed.

Lemma merge_loop_sorts fuel : forall h es, (length (concat (stream <$> es)) < fuel)%nat -> is_heap before h -> h ≡ₚ es -> Forall proper es -> StronglySorted Z.lt (entry_place <$> es) ->
  merge_loop key before fuel h = Ret (sorted_by (item_less less key) (concat (stream <$> es))).
Proof using before_ranks eqb_less WeakOrder0.
  pose proof before_order as BO. induction fuel as [|fuel IH]; intros h es HF HH P F S; [lia|]. cbn [merge_loop]. destruct h as [|e r] eqn:EH.
  { apply Permutation_nil_l in P. by subst es. }
  destruct (Z.ltb_spec 1 (zlen (e :: r))) as [HL|HL].
  - destruct (first_entry _ e r es eq_refl HH P F S) as (es1 & es2 & -> & P' & ->). rewrite pyget_first. cbn [mbind py_bind]. rewrite fmap_app, fmap_cons, StronglySorted_app, StronglySorted_cons in S. destruct S as (S1 & S2 & S3 & S4). apply Forall_app in F as [F1 F]. apply Forall_cons in F as [[KE AE] F2].
    rewrite fmap_app, fmap_cons, concat_app, length_app in HF. cbn [concat] in HF. rewrite length_app in HF. unfold stream at 2 in HF. destruct e as [[[k o] v] [|v' next]]; cbn [length fst snd] in HF.
    + pose proof (heappop_heap before _ HH) as (h' & -> & H' & P2). cbn [mbind py_bind]. rewrite (IH h' (es1 ++ es2)); [by rewrite fmap_app, concat_app | rewrite fmap_app, concat_app, length_app; lia | done | by rewrite P2 | by apply Forall_app|].
      rewrite fmap_app, StronglySorted_app. split; [|done]. intros x y HX HY. apply S1; [done|]. by apply list_elem_of_further.
    + rewrite pyset_first. cbn [mbind py_bind]. set (e' := (key v', o, v', next)). destruct (heapreplace_root before e' r e') as (h' & -> & H' & P2).
      { intros i I0 IP u w Eu Ew. apply (HH i I0 ltac:(lia)); [destruct i | destruct (parent i)]; (lia || done). }
      cbn [mbind py_bind]. rewrite (IH h' (es1 ++ e' :: es2)); [by rewrite fmap_app, concat_app | rewrite fmap_app, concat_app, length_app, fmap_cons; cbn [concat]; rewrite length_app; cbn [stream length fst snd e']; lia | done | by rewrite P2, P', Permutation_middle | |].
      * apply Forall_app. split; [done|]. constructor; [|done]. split; [done|]. apply (ascending_sorted (item_less less key)) in AE. apply (ascending_sorted (item_less less key)). by inversion AE.
      * rewrite fmap_app, fmap_cons, StronglySorted_app, StronglySorted_cons. done.
  - assert (r = []) as -> by (destruct r; [done | unfold zlen in HL; cbn in HL; lia]). apply Permutation_singleton_l in P. subst es. destruct e as [[[k o] v] next]. cbn [fmap list_fmap concat]. rewrite app_nil_r. apply Forall_cons in F as [[_ A] _]. by rewrite (sorted_by_id (item_less less key)).
Qed.
End merging.

#[export] Instance more_order {A} (less : A -> A -> bool) `{!WeakOrder less} : WeakOrder (more less).
Proof. exact (less_flip less). Qed.

(** A comparison is taken as it is named. *)
#[global] Typeclasses Opaque more item_less.

(** The direction of the comparison and of the orders. *)
Definition way {K} (less : K -> K -> bool) (reverse : bool) : K -> K -> bool := if reverse then more less else less.
#[export] Instance way_order {K} (less : K -> K -> bool) `{!WeakOrder less} reverse : WeakOrder (way less reverse).
Proof. unfold way. destruct reverse; apply _. Qed.
#[global] Typeclasses Opaque way.
Definition sign (reverse : bool) : Z := if reverse then -1 else 1.

Section ways.
Context {V K : Type} (less : K -> K -> bool) `{!WeakOrder less} (eqb : K -> K -> bool) (eqb_less : forall a b, eqb a b = negb (less a b) && negb (less b a)) (key : V -> K) (reverse : bool).

Lemma way_eqb a b : eqb a b = negb (way less reverse a b) && negb (way less reverse b a).
Proof using eqb_less. rewrite eqb_less. destruct reverse; [apply andb_comm | done]. Qed.
Lemma way_ranks {T} (pair : T -> K * Z) a b :
  (if reverse then more (fun a b => pair_less less eqb (pair a) (pair b)) else (fun a b => pair_less less eqb (pair a) (pair b))) a b
  = ranks (way less reverse) eqb (fun t => (pair t).1) (fun t => sign reverse * (pair t).2) a b.
Proof using eqb_less.
  unfold ranks, more, pair_less, way, sign. destruct reverse.
  - replace (eqb (pair b).1 (pair a).1) with (eqb (pair a).1 (pair b).1) by (rewrite !eqb_less; apply andb_comm). destruct (eqb (pair a).1 (pair b).1); [|done]. destruct (Z.ltb_spec (pair b).2 (pair a).2), (Z.ltb_spec (-1 * (pair a).2) (-1 * (pair b).2)); (done || lia).
  - destruct (eqb (pair a).1 (pair b).1); [|done]. by rewrite !Z.mul_1_l.
Qed.

Lemma merge_start_streams iterables : forall o, Forall (ascending (item_less (way less reverse) key)) iterables ->
  let es := merge_start key o (sign reverse) iterables in
  concat (stream <$> es) = concat iterables /\ Forall (proper (way less reverse) key) es /\ Forall (Z.le o) (entry_place (sign reverse) <$> es) /\ StronglySorted Z.lt (entry_place (sign reverse) <$> es).
Proof.
  induction iterables as [|l iterables IH]; intros o F; [repeat constructor|]. apply Forall_cons in F as [A F]. destruct (IH (o + 1) F) as (E & P & G & S). destruct l as [|v rest].
  - split; [exact E|]. split; [exact P|]. split; [|exact S]. eapply Forall_impl; [exact G|]. lia.
  - cbn [merge_start]. cbv zeta. rewrite !fmap_cons. cbn [concat].
    assert (PL : entry_place (sign reverse) (key v, o * sign reverse, v, rest) = o) by (unfold entry_place, sign; destruct reverse; cbn; lia). rewrite E, PL. split; [done|]. split; [by constructor|]. split; constructor; [lia | eapply Forall_impl; [exact G|]; lia | done | eapply Forall_impl; [exact G|]; lia].
Qed.
End ways.

(** C19: [merge] of inputs that are sorted gives the stable sort of the inputs one
    after another: all the items, in order, those of the same rank in the order
    of the inputs; with [reverse] for inputs sorted from largest to smallest. It
    returns for any number of inputs of any length. *)
Theorem merge_sorts {V K} (less : K -> K -> bool) `{!WeakOrder less} (eqb : K -> K -> bool) (eqb_less : forall a b, eqb a b = negb (less a b) && negb (less b a)) (key : V -> K) (iterables : list (list V)) (reverse : bool) :
  Forall (ascending (item_less (way less reverse) key)) iterables ->
  merge less eqb key iterables reverse = Ret (sorted_by (item_less (way less reverse) key) (concat iterables)).
Proof.
  intros F. destruct (merge_start_streams less key reverse iterables 0 F) as (E & P & _ & S). unfold merge. fold (sign reverse). set (before := if reverse then _ else _).
  assert (BR : forall a b, before a b = ranks (way less reverse) eqb entry_key (entry_place (sign reverse)) a b) by (intros a b; by apply (way_ranks less eqb eqb_less reverse (fun e : entry => e.1.1))). pose proof (way_eqb less eqb eqb_less reverse) as WE.
  pose proof (before_order (way less reverse) eqb WE before _ BR) as BO. destruct (heapify_heap before (merge_start key 0 (sign reverse) iterables)) as (h & -> & HH & PH). cbn [mbind py_bind].
  rewrite <- E. by apply (merge_loop_sorts (way less reverse) eqb WE key before (sign reverse) BR); [lia|..].
Qed.

Lemma merge_sorts_witness : merge Z.ltb Z.eqb (fun v : Z * Z => v.1) [[(1, 1); (3, 2)]; [(1, 3); (2, 4)]; []] false = Ret [(1, 1); (1, 3); (2, 4); (3, 2)].
Proof.
  rewrite (merge_sorts Z.ltb); [reflexivity | intros a b; destruct (Z.eqb_spec a b), (Z.ltb_spec a b), (Z.ltb_spec b a); (done || lia) |].
  repeat constructor; intros [|[|]] [|[|]] x y L E1 E2; cbn in E1, E2; simplify_eq; (done || lia).
Defined.
