(* ===== verification/HeapChoose.v ===== *)
(** HeapChoose: [nsmallest] and [nlargest] of heapq.py give the first items of
    the stable sort. *)
From Stdlib Require Import ZArith Lia List Sorting.Sorted.
From stdpp Require Import base list sorting gmap strings.
From S2P Require Import Prelude Text Order Heap HeapSift HeapMerge.
Import Heapq.
Open Scope Z_scope.

Lemma nodup_fmap_inj {A B} (f : A -> B) l x y : NoDup (f <$> l) -> x ∈ l -> y ∈ l -> f x = f y -> x = y.
Proof.
  intros N [i EX]%list_elem_of_lookup [j EY]%list_elem_of_lookup E. assert (i = j) as -> by (apply (NoDup_lookup _ i j (f x) N); rewrite list_lookup_fmap; [by rewrite EX | rewrite EY, E; done]). congruence.
Qed.

Section choosing.
Context {V K : Type} (less : K -> K -> bool) `{!WeakOrder less} (eqb : K -> K -> bool) (eqb_less : forall a b, eqb a b = negb (less a b) && negb (less b a)) (key : V -> K).
Context (before : @tagged V K -> @tagged V K -> bool) (d : Z) (d_unit : d * d = 1).

Definition tag_key (t : @tagged V K) : K := t.1.1.
Definition tag_place (t : @tagged V K) : Z := d * t.1.2.
Context (before_ranks : forall a b, before a b = ranks less eqb tag_key tag_place a b).

Lemma tags_order : WeakOrder before.
Proof using before_ranks eqb_less WeakOrder0. eapply WeakOrder_ext; [exact before_ranks | by apply ranks_order]. Qed.

(** The tagged items [s] in order, with no two in the same place, of places
    before [bound]. *)
Record ordered (bound : Z) (s : list (@tagged V K)) : Prop := {
  ordered_tags : Forall (fun t => tag_key t = key t.2 /\ tag_place t < bound) s;
  ordered_places : NoDup (tag_place <$> s);
  ordered_sorted : StronglySorted (not_after before) s
}.

Lemma tag_antisym bound s a b : ordered bound s -> a ∈ s -> b ∈ s -> before a b = false -> before b a = false -> a = b.
Proof using before_ranks eqb_less WeakOrder0.
  intros O IA IB H1 H2. rewrite before_ranks in H1, H2. apply (ranks_false less eqb eqb_less) in H1 as [L1 P1], H2 as [L2 P2]. apply (nodup_fmap_inj tag_place s); [apply O | done | done|]. destruct (Z.lt_total (tag_place a) (tag_place b)) as [L|[L|L]]; [rewrite P1 in L2 by done; done | done | rewrite P2 in L1 by done; done].
Qed.

Lemma ordered_sort bound s l : ordered bound s -> l ≡ₚ s -> sorted_by before l = s.
Proof using before_ranks eqb_less WeakOrder0.
  intros O P. pose proof tags_order as BO. apply (StronglySorted_unique_strong (not_after before)); [|by apply sorted_by_sorted | apply O | by rewrite sorted_by_perm].
  intros a b IA IB H1 H2. apply (tag_antisym bound s); [done | by rewrite <- P, <- (sorted_by_perm before) | done | done | done].
Qed.

(** The first item of the heap is the last of the chosen ones. *)
Lemma worst_first bound s w f r : ordered bound (s ++ [w]) -> is_heap (more before) (f :: r) -> f :: r ≡ₚ s ++ [w] -> f = w /\ r ≡ₚ s.
Proof using before_ranks eqb_less WeakOrder0.
  intros O HH P. pose proof tags_order as BO. assert (IF : f ∈ s ++ [w]) by (rewrite <- P; apply list_elem_of_here). assert (IW : w ∈ s ++ [w]) by (apply elem_of_app; right; by apply list_elem_of_singleton).
  assert (E : f = w).
  { apply (tag_antisym bound (s ++ [w])); [done..| |].
    - pose proof (heap_least (more before) _ f HH eq_refl) as LE. rewrite Forall_forall in LE. apply (LE w). by rewrite P.
    - pose proof (ordered_sorted _ _ O) as S. apply elem_of_app in IF as [IF|IF]; [apply (StronglySorted_app_1_elem_of _ _ _ f w S IF); by apply list_elem_of_singleton|]. apply list_elem_of_singleton in IF as ->. apply less_irrefl. }
  split; [done|]. rewrite E, <- Permutation_cons_append in P. by apply Permutation_cons_inv in P.
Qed.

Lemma insert_right_tags t s : Forall (fun y => before t y = item_less less key t.2 y.2) s -> (insert_right before t s).*2 = insert_right (item_less less key) t.2 (s.*2).
Proof. induction 1 as [|y s E _ IH]; [done|]. cbn. rewrite E. destruct (item_less less key t.2 y.2); [done|]. cbn. by rewrite IH. Qed.

(** A new item in the last place. *)
Lemma last_before bound s t : ordered bound s -> tag_key t = key t.2 -> bound <= tag_place t -> Forall (fun y => before t y = item_less less key t.2 y.2) s.
Proof using before_ranks eqb_less WeakOrder0.
  intros O KT PT. eapply Forall_impl; [apply O|]. cbn beta. intros y [KY PY]. rewrite before_ranks, (ranks_less less eqb eqb_less), KT, KY, (proj2 (Z.ltb_ge _ _)), andb_false_r, orb_false_r by lia. done.
Qed.
Lemma ordered_insert bound s w t : ordered bound (s ++ [w]) -> tag_key t = key t.2 -> bound = tag_place t -> ordered (bound + 1) (insert_right before t s).
Proof using before_ranks eqb_less WeakOrder0.
  intros O KT PT. pose proof tags_order as BO. pose proof (ordered_tags _ _ O) as F. apply Forall_app in F as [F _]. pose proof (ordered_places _ _ O) as N. rewrite fmap_app in N. apply NoDup_app in N as (N & _ & _). split.
  - rewrite (insert_right_perm before). constructor; [split; [done | lia]|]. eapply Forall_impl; [exact F|]. cbn beta. intros y [KY PY]. split; [done | lia].
  - rewrite (insert_right_perm before), fmap_cons. constructor; [|done]. rewrite list_elem_of_fmap. intros (y & E & IY). rewrite Forall_forall in F. destruct (F y IY). lia.
  - apply (insert_right_sorted before). eapply StronglySorted_app_1_l, O.
Qed.

Lemma choose_loop_chosen n it : forall l s result top order, (0 < n)%nat -> length s = n -> ordered (d * order) s -> result ≡ₚ s -> is_heap (more before) result -> tag_key <$> (result !! O) = Some top -> s.*2 = take n (sorted_by (item_less less key) l) ->
  exists result' s' bound, choose_loop key (more before) less d result top order it = Ret result' /\ ordered bound s' /\ result' ≡ₚ s' /\ s'.*2 = take n (sorted_by (item_less less key) (l ++ it)).
Proof using before_ranks eqb_less WeakOrder0 d_unit.
  pose proof tags_order as BO. induction it as [|x it IH]; intros l s result top order N0 LS O P HH TOP E; [exists result, s, (d * order); rewrite app_nil_r; done|]. cbn [choose_loop].
  destruct (exists_last (l := s)) as (s0 & w & ->); [intros ->; cbn in LS; lia|]. destruct result as [|f r]; [done|]. destruct (worst_first _ _ _ _ _ O HH P) as [-> PR]. injection TOP as <-. rewrite length_app in LS. cbn in LS.
  assert (KW : tag_key w = key w.2) by (pose proof (ordered_tags _ _ O) as F; apply Forall_app in F as [_ F]; by apply Forall_cons in F as [[? _] _]).
  assert (NX : take n (sorted_by (item_less less key) (l ++ [x])) = take n (insert_right (item_less less key) x ((s0 ++ [w]).*2))) by (by rewrite (sorted_by_snoc (item_less less key)), take_insert_right, <- E).
  rewrite fmap_app in NX. change ([w].*2) with [w.2] in NX. replace (l ++ x :: it) with ((l ++ [x]) ++ it) by (by rewrite <- app_assoc). destruct (less (key x) (tag_key w)) eqn:BT.
  - set (t := (key x, order, x)). pose proof (last_before _ _ t O eq_refl ltac:(done)) as LB. apply Forall_app in LB as [LB _]. destruct (heapreplace_heap (more before) (w :: r) t HH) as (result' & -> & H' & P'). cbn [mbind py_bind]. pose proof (ordered_insert _ _ _ t O eq_refl eq_refl) as O'.
    destruct result' as [|f' r']; [by apply Permutation_nil_cons in P'|]. rewrite pyget_first. cbn [mbind py_bind]. apply (IH (l ++ [x]) (insert_right before t s0)); [done | rewrite (insert_right_perm before); cbn; lia | replace (d * (order + d)) with (d * order + 1) by (rewrite Z.mul_add_distr_l; lia); exact O' | by rewrite (insert_right_perm before), P', PR | done | done |].
    rewrite NX, insert_right_tags by done. rewrite KW in BT. rewrite (insert_right_last (item_less less key) x _ w.2 BT). rewrite take_app_length'; [done|]. rewrite (insert_right_perm (item_less less key)). cbn [length]. rewrite length_fmap, <- LS. apply Nat.add_comm.
  - apply (IH (l ++ [x]) (s0 ++ [w])); [done | rewrite length_app; cbn; lia | done | done | done | done|]. rewrite NX, fmap_app. change ([w].*2) with [w.2]. rewrite (insert_right_end (item_less less key)); [rewrite take_app_length'; [done|]; rewrite length_app, length_fmap; exact (eq_sym LS)|].
    apply Forall_app. split; [|constructor; [by rewrite KW in BT | constructor]]. apply Forall_fmap, Forall_forall. intros y IY. pose proof (ordered_tags _ _ O) as F. apply Forall_app in F as [F _]. rewrite Forall_forall in F. destruct (F y IY) as [KY _]. unfold compose, item_less. rewrite <- KY.
    apply (not_less_trans less _ (tag_key w)); [|done]. pose proof (StronglySorted_app_1_elem_of _ _ _ y w (ordered_sorted _ _ O) IY ltac:(by apply list_elem_of_singleton)) as NA. unfold not_after in NA. rewrite before_ranks in NA. by apply (ranks_false less eqb eqb_less) in NA as [? _].
Qed.

Lemma insert_by_tags t s : Forall (fun y => before y t = item_less less key y.2 t.2) s -> (insert_by (fun a b => negb (before b a)) t s).*2 = insert_by (fun a b => negb (item_less less key b a)) t.2 (s.*2).
Proof. induction 1 as [|y s E _ IH]; [done|]. cbn. rewrite E. destruct (item_less less key y.2 t.2); [|done]. cbn. by rewrite IH. Qed.

(** The first items with their orders, from the order [o]. *)
Lemma numbered_tags l : forall o, let s := zip_with (fun i v => (key v, d * i, v)) (pyrange o (o + zlen l)) l in
  Forall (fun t => tag_key t = key t.2 /\ o <= tag_place t < o + zlen l) s /\ NoDup (tag_place <$> s) /\ (sorted_by before s).*2 = sorted_by (item_less less key) l.
Proof using before_ranks eqb_less WeakOrder0 d_unit.
  pose proof tags_order as BO. induction l as [|v l IH]; intros o s; [unfold s; rewrite pyrange_nil by (unfold zlen; cbn [length]; lia); repeat constructor|].
  assert (ES : s = (key v, d * o, v) :: zip_with (fun i v => (key v, d * i, v)) (pyrange (o + 1) (o + 1 + zlen l)) l) by (unfold s; rewrite zlen_cons, (pyrange_cons o) by (pose proof (zlen_nonneg l); lia); cbn [zip_with]; do 3 f_equal; lia).
  destruct (IH (o + 1)) as (F & N & E). clearbody s. subst s. set (s1 := zip_with _ _ _) in *. clearbody s1. set (t := (key v, d * o, v)). assert (PT : tag_place t = o) by (unfold tag_place, t; cbn [fst snd]; rewrite Z.mul_assoc, d_unit; lia). rewrite zlen_cons. pose proof (zlen_nonneg l). split; [|split].
  - constructor; [rewrite PT; split; [done | lia]|]. eapply Forall_impl; [exact F|]. cbn beta. intros y [KY PY]. split; [done | lia].
  - rewrite fmap_cons. constructor; [|done]. rewrite PT, list_elem_of_fmap. intros (y & EY & IY). rewrite Forall_forall in F. destruct (F y IY). lia.
  - change (sorted_by before (t :: s1)) with (insert_by (fun a b => negb (before b a)) t (sorted_by before s1)). etransitivity; [apply insert_by_tags | by rewrite E]. rewrite (sorted_by_perm before). eapply Forall_impl; [exact F|]. cbn beta. intros y [KY PY]. rewrite before_ranks, (ranks_less less eqb eqb_less), PT, (proj2 (Z.ltb_ge _ _)), andb_false_r, orb_false_r by lia. unfold item_less. by rewrite KY.
Qed.

Lemma choose_chosen n it : exists result, choose key (more before) less d n it = Ret result /\ (sorted_by before result).*2 = take (Z.to_nat n) (sorted_by (item_less less key) it).
Proof using before_ranks eqb_less WeakOrder0 d_unit.
  pose proof tags_order as BO. unfold choose, numbered. set (l := take (Z.to_nat n) it). destruct (numbered_tags l 0) as (F & N & E). rewrite Z.add_0_l in F, N, E. set (s := zip_with _ _ _) in *.
  assert (LS : length s = length l) by (unfold s; rewrite length_zip_with; unfold pyrange; rewrite length_fmap, length_seq; unfold zlen; lia). destruct s as [|t s'] eqn:ES; [exists []; split; [done|]; cbn in LS; destruct (Z.to_nat n), it; cbn in LS; (done || lia)|]. rewrite <- ES in *. clearbody s.
  destruct (heapify_heap (more before) s) as (h & -> & HH & PH). cbn [mbind py_bind]. destruct h as [|f r]; [apply Permutation_nil_l in PH; by rewrite <- PH in ES|]. rewrite pyget_first. cbn [mbind py_bind].
  assert (O : ordered (zlen l) (sorted_by before s)) by (split; [rewrite (sorted_by_perm before); eapply Forall_impl; [exact F|]; cbn beta; intros y [KY PY]; split; [done | lia] | by rewrite (sorted_by_perm before) | by apply sorted_by_sorted]).
  destruct (drop (Z.to_nat n) it) as [|x rest] eqn:ED.
  - exists (f :: r). split; [done|]. rewrite (ordered_sort _ _ _ O) by (by rewrite (sorted_by_perm before)). rewrite E. assert (l = it) as -> by (rewrite <- (take_drop (Z.to_nat n) it), ED, app_nil_r; done). rewrite take_ge; [done|]. rewrite (sorted_by_perm (item_less less key)). apply (f_equal length) in ED. rewrite length_drop in ED. cbn in ED. lia.
  - assert (LN : length l = Z.to_nat n) by (apply (f_equal length) in ED; rewrite length_drop in ED; cbn in ED; unfold l; rewrite length_take; lia). assert (N0 : (0 < Z.to_nat n)%nat) by (rewrite <- LN, <- LS, ES; cbn; lia).
    destruct (choose_loop_chosen (Z.to_nat n) (x :: rest) l (sorted_by before s) (f :: r) f.1.1 (d * n)) as (result & s2 & b & EQ & O2 & P2 & E2); [done | rewrite (sorted_by_perm before); exact (eq_trans LS LN) | replace (d * (d * n)) with (zlen l) by (rewrite Z.mul_assoc, d_unit; unfold zlen; lia); done | by rewrite PH, (sorted_by_perm before) | done | done | rewrite E, take_ge; [done | rewrite (sorted_by_perm (item_less less key)); lia] |].
    exists result. split; [done|]. rewrite (ordered_sort _ _ _ O2 P2), E2, <- ED. unfold l. by rewrite take_drop.
Qed.
End choosing.

(** [min] and [max] give the first item of the stable sort. *)
Lemma first_best_splits {V K} (less : K -> K -> bool) `{!WeakOrder less} (key : V -> K) l : forall l0 v l2, Forall (fun y => item_less less key v y = true) l0 -> Forall (fun y => item_less less key y v = false) l2 ->
  exists l1 l3, l0 ++ v :: l2 ++ l = l1 ++ first_best key less v l :: l3 /\ Forall (fun y => item_less less key (first_best key less v l) y = true) l1 /\ Forall (fun y => item_less less key y (first_best key less v l) = false) l3.
Proof.
  induction l as [|u l IH]; intros l0 v l2 F0 F2; [exists l0, l2; by rewrite app_nil_r|]. cbn [first_best]. destruct (less (key u) (key v)) eqn:UV.
  - destruct (IH (l0 ++ v :: l2) u []) as (l1 & l3 & E & H); [| constructor | exists l1, l3; split; [|done]; by rewrite <- E, <- app_assoc].
    apply Forall_app. split; [|constructor; [done|]]; (eapply Forall_impl; [eassumption|]); unfold item_less; cbn beta; intros y HY; [by apply (less_trans _ (key v)) | by apply (less_not_less less _ (key v))].
  - destruct (IH l0 v (l2 ++ [u])) as (l1 & l3 & E & H); [done | apply Forall_app; split; [done | by constructor] | exists l1, l3; split; [|done]; by rewrite <- E, <- app_assoc].
Qed.
Lemma first_best_first {V K} (less : K -> K -> bool) `{!WeakOrder less} (key : V -> K) v l : [first_best key less v l] = take 1 (sorted_by (item_less less key) (v :: l)).
Proof.
  destruct (first_best_splits less key l [] v []) as (l1 & l3 & E & F1 & F3); [constructor.. |]. cbn [app] in E. by rewrite E, (sorted_by_first (item_less less key)).
Qed.

Lemma pyslice_whole {A} (l : list A) n : zlen l <= n -> pyslice l 0 n = take (Z.to_nat n) l.
Proof. intros H. pose proof (zlen_nonneg l). rewrite pyslice_nn by lia. by rewrite drop_0, Z.sub_0_r. Qed.

(** C20: [nsmallest(n, iterable, key)] and [nlargest(n, iterable, key)] give the first
    [n] items of the stable sort of the iterable, ascending or descending; the
    ways through [min] and [max], through the whole sort for an iterable of a
    known length, and through the heap give the same. No items are given for an
    [n] that is not positive. *)
Theorem chosen_items {V K} (less : K -> K -> bool) `{!WeakOrder less} (eqb : K -> K -> bool) (eqb_less : forall a b, eqb a b = negb (less a b) && negb (less b a)) (key : V -> K) (n : Z) (iterable : list V) (sized : bool) :
  nsmallest less eqb key n iterable sized = Ret (take (Z.to_nat n) (sorted_by (fun a b => less (key a) (key b)) iterable))
  /\ nlargest less eqb key n iterable sized = Ret (take (Z.to_nat n) (sorted_by (fun a b => less (key b) (key a)) iterable)).
Proof.
  assert (CH : forall reverse : bool, let before := if reverse then more (@tagged_less V K less eqb) else tagged_less less eqb in
      exists result, choose key (more before) (way less reverse) (sign reverse) n iterable = Ret result /\ (sorted_by before result).*2 = take (Z.to_nat n) (sorted_by (item_less (way less reverse) key) iterable)).
  { intros reverse before. apply (choose_chosen (way less reverse) eqb (way_eqb less eqb eqb_less reverse)); [by destruct reverse|]. intros a b. unfold before. exact (way_ranks less eqb eqb_less reverse (fun t : tagged => t.1) a b). }
  split; [unfold nsmallest | unfold nlargest]; (destruct (Z.eqb_spec n 1) as [->|N1]; [destruct iterable as [|v l]; [done|]; f_equal|destruct sized; cbn [andb]; [destruct (Z.leb_spec (zlen iterable) n) as [LE|_]; [f_equal|]|]]).
  all: try (apply pyslice_whole; unfold zlen; rewrite sorted_by_perm; exact LE).
  - exact (first_best_first less key v l).
  - destruct (CH false) as (result & EC & ES). cbn in EC. change (sign false) with 1 in EC. unfold way in EC. rewrite EC. cbn [mbind py_bind]. f_equal. exact ES.
  - destruct (CH false) as (result & EC & ES). change (sign false) with 1 in EC. unfold way in EC. rewrite EC. cbn [mbind py_bind]. f_equal. exact ES.
  - exact (first_best_first (more less) key v l).
  - destruct (CH true) as (result & EC & ES). change (choose key (tagged_less less eqb) (more less) (-1) n iterable = Ret result) in EC. rewrite EC. cbn [mbind py_bind]. f_equal. exact ES.
  - destruct (CH true) as (result & EC & ES). change (choose key (tagged_less less eqb) (more less) (-1) n iterable = Ret result) in EC. rewrite EC. cbn [mbind py_bind]. f_equal. exact ES.
Qed.

Lemma chosen_items_witness : nlargest Z.ltb Z.eqb (fun v : Z * Z => v.1) 2 [(1, 1); (3, 2); (3, 3); (2, 4)] false = Ret [(3, 2); (3, 3)] /\ nsmallest Z.ltb Z.eqb (fun v : Z * Z => v.1) (-1) [(1, 1); (3, 2)] true = Ret [].
Proof.
  assert (E : forall a b, Z.eqb a b = negb (Z.ltb a b) && negb (Z.ltb b a)) by (intros a b; destruct (Z.eqb_spec a b), (Z.ltb_spec a b), (Z.ltb_spec b a); (done || lia)).
  split; [exact (proj2 (chosen_items Z.ltb Z.eqb E (fun v : Z * Z => v.1) 2 [(1, 1); (3, 2); (3, 3); (2, 4)] false)) | exact (proj1 (chosen_items Z.ltb Z.eqb E (fun v : Z * Z => v.1) (-1) [(1, 1); (3, 2)] true))].
Defined.
